(* ===== verification/_CoqProject ===== *)
-Q . S2P
Prelude.v
SphTypes.v
Stream.v
Gf2.v
Bitslice.v
Gf256.v
Aes.v
Counter.v
Blake.v
BMW.v
GroestlTables.v
Groestl.v
Skein.v
JH.v
Keccak.v
Luffa.v
CubeHash.v
ShaviteBlock.v
Shavite.v
EchoBlock.v
Echo.v
ArithUint.v
Compact.v
Blob.v
Chain.v
ActiveChain.v
BlockIndex.v
ConsensusParams.v
VersionBits.v
Pow.v
BlockVersion.v
Stake.v
Dao.v
VoteTally.v
VoteStep.v
DaoFacts.v
VoteFund.v
VoteStates.v
Merkle.v
Serialize.v
Codec.v
Compressor.v
Coins.v
CoinsView.v
Transaction.v
Utxo.v
TxCheck.v
StateView.v
ScriptNum.v
Script.v
VoteScript.v
Interpreter.v
ScriptSafety.v
ScriptSpend.v
ScriptFork.v
SigHash.v
LockTime.v
Hasher.v
Rounds.v
Sha2.v
Sha1.v
Ripemd160.v
Hashes.v
