(* ===== verification/Prelude.v ===== *)
(** * Electrum Core: the node's consensus core and its hash library

    Electrum Core is a proof-of-stake node derived from Bitcoin Core, written in C++
    over a C library of hash functions.  This development models the code that decides
    which blocks and transactions are valid and what they do to the state, and proves
    it against independent specifications.

    ** The program and the files that model it

    The paths are under [src/src].

    - _Hash functions_ (the X13 set of sphlib, C).  Each is a context with [init], an
      update that buffers its input, and a [close] that pads and extracts the digest.
      [SphTypes] has the words and byte codecs of [sph_types.h]; [Stream] the update
      loop that the functions share, with the refinement that makes chunking
      irrelevant; [Gf2], [Bitslice] and [Gf256] the algebra behind tables and bit
      slicing; [Counter] the functions with a bit counter.  On top of them: [Blake],
      [BMW], [Groestl] (tables in [GroestlTables]), [Skein], [JH], [Keccak], [Luffa],
      [CubeHash], [Shavite] (block functions in [ShaviteBlock], AES rounds in [Aes])
      and [Echo] (block function in [EchoBlock]).
    - _Hashes of the node_ ([crypto], [hash.h], [hash.cpp]): [Hasher] has the buffering
      classes and HMAC for any block function, [Rounds] the unrolled rounds with
      rotating register names, [Sha2], [Sha1] and [Ripemd160] the block functions, and
      [Hashes] the double hashes, the hash writer, [MurmurHash3], [BIP32Hash] and SipHash.
    - _Numbers and blobs_: [ArithUint] ([arith_uint256.cpp]), [Compact] (the compact
      encoding of targets), [Blob] ([uint256.cpp]).
    - _The block tree_: [Chain] (block index entries, skip pointers, median time),
      [ActiveChain] ([CChain]), [BlockIndex] (work, validity levels,
      [AddToBlockIndex] of [main.cpp]).
    - _Consensus rules_: [ConsensusParams], [VersionBits] ([versionbits.cpp]),
      [BlockVersion] (versions in [main.cpp]), [Pow] ([pow.cpp]), [Stake] (stake
      targets and the kernel check of [main.cpp]).
    - _The DAO_ ([consensus/dao.cpp]): [Dao] has the records and their rules,
      [VoteTally] the counting of votes, [VoteStep] the function that advances every
      record when a block is connected or disconnected; [DaoFacts], [VoteFund] and
      [VoteStates] hold what is proved of it, the latter with the payments of requests
      by [ConnectBlock].  [StateView] is the layered cache of these records and of the
      votes by voter ([coins.cpp], [txdb.cpp]).
    - _Formats_: [Serialize] and [Codec] ([serialize.h]), [Compressor]
      ([compressor.cpp]), [Transaction] ([primitives/transaction.h]).
    - _Coins_: [Coins] ([CCoins] of [coins.h]), [CoinsView] (the caches of
      [coins.cpp] over [txdb.cpp]), [Utxo] ([UpdateCoins], [ApplyTxInUndo] and the
      coins of [ConnectBlock] and [DisconnectBlock]), [TxCheck] ([CheckTransaction],
      [CheckTxInputs]), [Merkle] ([consensus/merkle.cpp]).
    - _Scripts_ ([script]): [ScriptNum] and [Script] ([script.h], [script.cpp] and the
      templates of [standard.cpp]), [Interpreter] ([EvalScript], [VerifyScript] and
      the witness rules of [interpreter.cpp]), [SigHash] ([SignatureHash] and the
      checker of a transaction), [LockTime] ([IsFinalTx] and [SequenceLocks] of
      [main.cpp]), [VoteScript] (the outputs that carry votes of the DAO).  What is
      proved of the interpreter is in [ScriptSafety], [ScriptSpend] and [ScriptFork].

    How the parts interact: a header is checked with [BlockVersion], [Pow] and [Stake]
    and linked with [BlockIndex]; the transactions of a block are bound to it by
    [Merkle], read with [Transaction], checked with [TxCheck] and applied with [Utxo]
    to a view of [CoinsView]; its inputs are verified with [Interpreter], which asks
    the checker of [SigHash] about signatures and lock times; the votes of the block
    are read with [VoteScript] and go to [VoteTally] and [VoteStep], which change the
    records of [StateView].  Where one part uses another
    through an interface, the interface is a type class and both sides are proved
    against it: [CoinsStoreLaws] of [CoinsView] for [Utxo] and [TxCheck], [DaoRecord]
    of [StateView] for the kinds of records, the block functions of [Stream] and
    [Counter] for the hash functions; the interpreter is proved for every checker, a
    record of the operations of [BaseSignatureChecker].

    ** What the theorems show

    - Every hash function chains, counts and pads as specified, for any way to cut the
      message into updates ([..._digest]); its optimised block function is equal to a
      plain one, and the tables are the maps that define them.  For BLAKE, Groestl,
      Skein, Keccak, ECHO, SHA-2, SHA-1 and RIPEMD-160 the whole digest is that of an
      independent specification, with rounds from the definition of the function and
      constants that are computed (from the digits of pi, the roots of primes, shift
      registers); for the others the block function of the specification is the plain
      form of the code's.
    - The arithmetic is that of numbers modulo a power of two, the compact encoding
      round-trips, ancestors, tips, locators and medians are what their definitions on
      the parent relation say, although the code uses skip pointers and shortcuts.
    - Version bits follow a recursion over periods, which is that of BIP 9 when block
      times do not decrease and the start is not behind the timeout
      ([late_start_diverges] shows the difference for a deployment of the testnet); a
      version that is produced is accepted; the difficulty rules are given on every
      branch.
    - The DAO moves its records only along the edges of their state machines, its fund
      stays solvent, disconnecting a block undoes the states, and the incremental
      tally equals the full one.
    - Caches behave as the maps they stand for, formats accept exactly what is
      written, coins are spent exactly once, and disconnecting a block restores the
      coins.  The exception is the flag of coinstakes: neither the database nor undo
      records store it, so the theorems say where it is lost ([persisted] of
      [CoinsView], [restored] of [Utxo]), and [TxCheck] shows that immature stakes are
      accepted then, and coins of the spending height always.
    - The interpreter fails no assertion and keeps its stack well formed; every flag
      only restricts; the templates of the node are spent by the keys they name and
      by no others, multisignatures are matched in order, unspendable outputs are
      not spent; signature hashes commit to an explicit view of the transaction, and
      lock times bind the block that includes it.  Votes survive the way through
      output scripts.

    ** Conventions

    A [w]-bit word is an integer of [0, 2^w) and the wrap-around is written out.
    [None] is a failed assertion, an exception, an overflow of a signed integer or
    another undefined behaviour; where a rejection is a result of the code it is a
    value of its own.  Loops are structural or run on fuel; for each of them it is
    proved that the fuel given is enough (the number of input bytes in [Stream], 33
    levels in [Merkle], the height of the block in [Chain], the length of the script
    in [Interpreter]).  Floating-point
    computations of the DAO use the binary formats of the standard library.  The
    hash library is modelled in the configuration of a 64-bit little-endian machine
    (and for ECHO the 32-bit one as well), without the compile-time option for small
    code unless a definition says so.  Functions of third-party code (secp256k1), and
    hash functions where a theorem holds for all of them, are parameters.

    ** Not modelled

    Of the hash library: simd, hamsi and fugue, and so the X13 chain that composes
    all thirteen.  Of [crypto]: the ciphers of the wallet ([aes.cpp], [ctaes],
    [chacha20.cpp]) and the second implementation of SHA-2 under [external].  Of the
    node: signing, the threads and the cache of script checks,
    the mempool, address and spent indexes, undo files and other disk formats, the search
    for a stake modifier; the network, wallet, RPC and GUI code, which is I/O around
    this core; vendored libraries.  Log messages and memory accounting are left out of
    the functions that are modelled.

    Left to do: the format of undo records and blocks, and the three hash functions
    that are missing. *)

From Stdlib Require Import ZArith Lia Btauto.
From stdpp Require Import base tactics numbers list.

#[global] Open Scope Z_scope.

(** ** Notations for machine words *)

Declare Scope word_scope.
Delimit Scope word_scope with word.
Notation "x ⊕ y" := (Z.lxor x y) (at level 50, left associativity) : word_scope.
Notation "x .& y" := (Z.land x y) (at level 45, left associativity) : word_scope.
Notation "x .| y" := (Z.lor x y) (at level 51, left associativity) : word_scope.
Notation "x << n" := (Z.shiftl x n) (at level 40, left associativity) : word_scope.
Notation "x >> n" := (Z.shiftr x n) (at level 40, left associativity) : word_scope.
#[global] Open Scope word_scope.

(** A [w]-bit machine word is an integer of [0, 2^w). *)
Definition word (w x : Z) : Prop := 0 <= x < 2 ^ w.

#[export] Instance word_dec w x : Decision (word w x).
Proof. unfold word. apply _. Defined.

(** Bitwise equality of two integers: the shared proof of every bit-level lemma. *)
Ltac bits_intro i Hi := apply Z.bits_inj'; intros i Hi.

(** [zcase i n] splits on the position of a bit index against a bound. *)
Tactic Notation "zcase" constr(i) constr(n) :=
  let H := fresh "Hc" in
  assert (i < n \/ n <= i) as H by lia; destruct H as [H|H].

Create HintDb words.
Create HintDb bits.

(** ** Bits of a word *)

Lemma word_nonneg w x : word w x -> 0 <= x.
Proof. unfold word; lia. Qed.

Lemma word_bit_high w x i : word w x -> w <= i -> Z.testbit x i = false.
Proof.
  intros [H0 H1] Hi. destruct (decide (0 <= w)) as [Hw|Hw].
  - rewrite <- (Z.mod_small x (2 ^ w)) by lia. apply Z.mod_pow2_bits_high; lia.
  - rewrite Z.pow_neg_r in H1; lia.
Qed.

(** A nonnegative integer whose bits vanish from [w] on is a [w]-bit word. *)
Lemma word_of_bits w x :
  0 <= w -> 0 <= x -> (forall i, w <= i -> Z.testbit x i = false) -> word w x.
Proof.
  intros Hw Hx Hb. split; [done|].
  destruct (decide (x = 0)) as [->|Hnz]; [lia|].
  apply Z.log2_lt_pow2; [lia|].
  destruct (Z.lt_ge_cases (Z.log2 x) w) as [Hl|Hl]; [done|].
  specialize (Hb (Z.log2 x) Hl). rewrite Z.bit_log2 in Hb by lia. done.
Qed.

Lemma word_eq w x y :
  word w x -> word w y ->
  (forall i, 0 <= i < w -> Z.testbit x i = Z.testbit y i) -> x = y.
Proof.
  intros Hx Hy Hb. bits_intro i Hi. zcase i w; [apply Hb; lia|].
  by rewrite !(word_bit_high w).
Qed.

Lemma word_weaken w w' x : word w x -> w <= w' -> word w' x.
Proof.
  intros [H0 H1] Hw. split; [done|].
  eapply Z.lt_le_trans; [apply H1|]. apply Z.pow_le_mono_r; lia.
Qed.

Lemma word_lxor w x y : word w x -> word w y -> word w (x ⊕ y).
Proof.
  intros Hx Hy. destruct (decide (0 <= w)) as [Hw|Hw].
  - apply word_of_bits; [done|apply Z.lxor_nonneg; split; eauto using word_nonneg|].
    intros i Hi. by rewrite Z.lxor_spec, !(word_bit_high w).
  - unfold word in *. rewrite Z.pow_neg_r in Hx by lia; lia.
Qed.

Lemma word_lor w x y : word w x -> word w y -> word w (x .| y).
Proof.
  intros Hx Hy. destruct (decide (0 <= w)) as [Hw|Hw].
  - apply word_of_bits; [done|apply Z.lor_nonneg; split; eauto using word_nonneg|].
    intros i Hi. by rewrite Z.lor_spec, !(word_bit_high w).
  - unfold word in *. rewrite Z.pow_neg_r in Hx by lia; lia.
Qed.

Lemma word_land_l w x y : word w x -> word w (x .& y).
Proof.
  intros Hx. destruct (decide (0 <= w)) as [Hw|Hw].
  - apply word_of_bits; [done|apply Z.land_nonneg; left; eauto using word_nonneg|].
    intros i Hi. by rewrite Z.land_spec, (word_bit_high w).
  - unfold word in *. rewrite Z.pow_neg_r in Hx by lia; lia.
Qed.

Lemma word_land_r w x y : word w y -> word w (x .& y).
Proof. rewrite Z.land_comm. apply word_land_l. Qed.

Lemma word_shiftr w x n : 0 <= n -> word w x -> word w (x >> n).
Proof.
  intros Hn [H0 H1]. rewrite Z.shiftr_div_pow2 by done. split.
  - apply Z.div_pos; lia.
  - eapply Z.le_lt_trans; [|apply H1].
    apply Z.div_le_upper_bound; [lia|]. nia.
Qed.

Lemma word_shiftl w w' x n : 0 <= n -> 0 <= w -> word w x -> w + n <= w' -> word w' (x << n).
Proof.
  intros Hn Hw [H0 H1] Hw'. apply (word_weaken (w + n)); [|done].
  rewrite Z.shiftl_mul_pow2 by done. unfold word. rewrite Z.pow_add_r by done. nia.
Qed.

#[export] Hint Resolve word_lxor word_lor word_land_l word_nonneg : words.
#[export] Hint Extern 2 (word _ (_ >> _)) => apply word_shiftr; [lia|] : words.
#[export] Hint Extern 1 (word _ (Zpos _)) => (vm_compute; intuition congruence) : words.
#[export] Hint Extern 1 (word _ Z0) => (vm_compute; intuition congruence) : words.

(** ** Truncation and rotation at a fixed width *)

(** [m] is the all-ones mask of [w] bits; [SPH_T32] and [SPH_T64] are [wT] at
    their masks, written as a conjunction the way the macros are. *)
Definition wT (m x : Z) : Z := x .& m.
Definition wrotl (m w x n : Z) : Z := wT m ((x << n) .| (x >> (w - n))).
Definition wrotr (m w x n : Z) : Z := wrotl m w x (w - n).

Section Width.
Context (w m : Z) (Hm : m = Z.ones w) (Hw : 0 < w).

Lemma wT_mod x : wT m x = x mod 2 ^ w.
Proof. unfold wT. rewrite Hm. apply Z.land_ones. lia. Qed.

Lemma wT_word x : word w (wT m x).
Proof. rewrite wT_mod. apply Z.mod_pos_bound. lia. Qed.

Lemma wT_id x : word w x -> wT m x = x.
Proof. intros Hx. rewrite wT_mod. by apply Z.mod_small. Qed.

Lemma wT_bit x i : 0 <= i < w -> Z.testbit (wT m x) i = Z.testbit x i.
Proof.
  intros Hi. unfold wT. rewrite Hm, Z.land_spec, Z.ones_spec_low by lia.
  apply andb_true_r.
Qed.

Lemma wT_lxor x y : wT m (x ⊕ y) = wT m x ⊕ wT m y.
Proof. unfold wT. bits_intro i Hi. rewrite !Z.land_spec, !Z.lxor_spec, !Z.land_spec. btauto. Qed.

(** Rotation moves bit [(i - n) mod w] to position [i]. *)
Lemma wrotl_bit x n i :
  word w x -> 0 <= n <= w -> 0 <= i < w ->
  Z.testbit (wrotl m w x n) i = Z.testbit x ((i - n) mod w).
Proof.
  intros Hx Hn Hi. unfold wrotl.
  rewrite wT_bit, Z.lor_spec, Z.shiftl_spec, Z.shiftr_spec by lia.
  zcase i n.
  - rewrite Z.testbit_neg_r by lia. simpl. f_equal.
    apply Z.mod_unique with (-1); lia.
  - rewrite (word_bit_high w x (i + (w - n))) by (done || lia).
    rewrite orb_false_r. f_equal. symmetry. apply Z.mod_small. lia.
Qed.

Lemma wrotl_word x n : word w (wrotl m w x n).
Proof. apply wT_word. Qed.

Lemma wrotr_word x n : word w (wrotr m w x n).
Proof. apply wT_word. Qed.

Lemma wrotl_lxor x y n :
  word w x -> word w y -> 0 <= n <= w ->
  wrotl m w (x ⊕ y) n = wrotl m w x n ⊕ wrotl m w y n.
Proof.
  intros Hx Hy Hn.
  apply (word_eq w); [apply wrotl_word|apply word_lxor; apply wrotl_word|].
  intros i Hi. rewrite Z.lxor_spec, !wrotl_bit by auto using word_lxor.
  by rewrite Z.lxor_spec.
Qed.

Lemma wrotl_wrotl_inv x n :
  word w x -> 0 <= n <= w -> wrotl m w (wrotl m w x n) (w - n) = x.
Proof.
  intros Hx Hn. apply (word_eq w); [apply wrotl_word|done|]. intros i Hi.
  pose proof (Z.mod_pos_bound (i - (w - n)) w ltac:(lia)) as Hb.
  rewrite wrotl_bit by (apply wrotl_word || lia).
  rewrite wrotl_bit by (done || lia). f_equal.
  rewrite Zminus_mod_idemp_l. symmetry.
  apply Z.mod_unique with (-1); lia.
Qed.

Lemma wrotr_wrotl x n : word w x -> 0 <= n <= w -> wrotr m w (wrotl m w x n) n = x.
Proof. apply wrotl_wrotl_inv. Qed.

Lemma wrotl_wrotr x n : word w x -> 0 <= n <= w -> wrotl m w (wrotr m w x n) n = x.
Proof.
  intros Hx Hn. unfold wrotr.
  rewrite <- (wrotl_wrotl_inv x (w - n)) at 2 by lia||done.
  f_equal. lia.
Qed.

(** Modular addition is cancelled by modular subtraction. *)
Lemma wT_add_sub x y : word w x -> wT m (wT m (x + y) - y) = x.
Proof.
  intros Hx. rewrite !wT_mod. rewrite Zminus_mod_idemp_l.
  replace (x + y - y) with x by lia. by apply Z.mod_small.
Qed.

Lemma wT_sub_add x y : word w x -> wT m (wT m (x - y) + y) = x.
Proof.
  intros Hx. rewrite !wT_mod. rewrite Zplus_mod_idemp_l.
  replace (x - y + y) with x by lia. by apply Z.mod_small.
Qed.
End Width.

(** ** Lists as C arrays *)

(** [memcpy dst off src]: the array [dst] after the C call
    [memcpy(dst + off, src, n)], [n] the length of [src], within the bounds of [dst]. *)
Definition memcpy (dst : list Z) (off : nat) (src : list Z) : list Z :=
  take off dst ++ src ++ drop (off + length src) dst.

(** [memset dst off v n]: [memset(dst + off, v, n)]. *)
Definition memset (dst : list Z) (off : nat) (v : Z) (n : nat) : list Z :=
  memcpy dst off (replicate n v).

Lemma length_memcpy dst off src :
  (off + length src <= length dst)%nat -> length (memcpy dst off src) = length dst.
Proof. intros H. unfold memcpy. rewrite !length_app, length_take, length_drop. lia. Qed.

Lemma length_memset dst off v n :
  (off + n <= length dst)%nat -> length (memset dst off v n) = length dst.
Proof. intros H. apply length_memcpy. by rewrite length_replicate. Qed.

Lemma memcpy_nil dst off : memcpy dst off [] = dst.
Proof. unfold memcpy. simpl. rewrite Nat.add_0_r. apply take_drop. Qed.

Lemma memcpy_prefix dst off src :
  (off <= length dst)%nat -> take (off + length src) (memcpy dst off src) = take off dst ++ src.
Proof.
  intros H. unfold memcpy. rewrite app_assoc, take_app_le.
  - rewrite take_ge; [done|]. rewrite length_app, length_take. lia.
  - rewrite length_app, length_take. lia.
Qed.

(** Two adjacent copies are one copy. *)
Lemma memcpy_memcpy dst off a b :
  (off + length a <= length dst)%nat ->
  memcpy (memcpy dst off a) (off + length a) b = memcpy dst off (a ++ b).
Proof.
  intros H. unfold memcpy at 1. rewrite memcpy_prefix by lia.
  unfold memcpy. rewrite length_app, <- !app_assoc. do 3 f_equal.
  rewrite !drop_app, !drop_drop, length_take.
  rewrite (drop_ge (take off dst)) by (rewrite length_take; lia).
  rewrite (drop_ge a) by lia. simpl. f_equal. lia.
Qed.

Lemma memcpy_all dst src : length src = length dst -> memcpy dst 0 src = src.
Proof. intros H. unfold memcpy. simpl. rewrite drop_ge by lia. apply app_nil_r. Qed.

(** Arrays of machine words. *)
Abbreviation words w l := (Forall (word w) l).

Lemma words_memcpy w dst off src :
  words w dst -> words w src -> words w (memcpy dst off src).
Proof. intros Hd Hs. unfold memcpy. auto using Forall_app_2, Forall_take, Forall_drop. Qed.

Lemma words_replicate w n v : word w v -> words w (replicate n v).
Proof. apply Forall_replicate. Qed.

#[export] Hint Resolve words_memcpy words_replicate Forall_take Forall_drop Forall_app_2 : words.

(** [l .[ i ]]: the element of an array at an index within its bounds. *)
Notation "l .[ i ]" := (nth i l 0) (at level 1, left associativity, format "l .[ i ]") : word_scope.

Lemma words_nth w (l : list Z) i : 0 <= w -> words w l -> word w l.[i].
Proof.
  intros Hw H. assert (word w 0) as H0 by (split; [lia|apply Z.pow_pos_nonneg; lia]).
  destruct (Nat.lt_ge_cases i (length l)) as [Hi|Hi].
  - rewrite List.Forall_forall in H. apply H. by apply nth_In.
  - by rewrite nth_overflow.
Qed.

(** Writing one element is a copy of one element. *)
Lemma nth_take (l : list Z) n i : (i < n)%nat -> (take n l).[i] = l.[i].
Proof. revert n i. induction l; intros [|n] [|i] H; simpl; try done; try lia. apply IHl. lia. Qed.

Lemma insert_memcpy (u : list Z) i v : (i < length u)%nat -> <[i := v]> u = memcpy u i [v].
Proof.
  intros Hi. unfold memcpy. simpl. rewrite Nat.add_1_r. by apply insert_take_drop.
Qed.

(** The last element of a copied array, read and replaced. *)
Lemma memcpy_next b o l o' l' :
  o' = (o + length l)%nat -> (o' + length l' <= length b)%nat ->
  memcpy (memcpy b o l) o' l' = memcpy b o (l ++ l').
Proof. intros -> H. apply memcpy_memcpy. lia. Qed.

Lemma insert_next b o l i x :
  i = (o + length l)%nat -> (i < length b)%nat -> <[i := x]> (memcpy b o l) = memcpy b o (l ++ [x]).
Proof.
  intros -> Hi. rewrite insert_memcpy by (rewrite length_memcpy; lia). apply memcpy_next; simpl; lia.
Qed.

Lemma nth_memcpy_last u off l x :
  (off <= length u)%nat -> (memcpy u off (l ++ [x])).[off + length l] = x.
Proof.
  intros H. unfold memcpy. rewrite app_nth2; rewrite length_take_le by done; [|lia].
  rewrite <- app_assoc. rewrite app_nth2 by lia.
  replace (off + length l - off - length l)%nat with 0%nat by lia. done.
Qed.

Lemma insert_memcpy_last u off l x y :
  (off + length l < length u)%nat ->
  <[(off + length l)%nat := y]> (memcpy u off (l ++ [x])) = memcpy u off (l ++ [y]).
Proof.
  intros H. assert (length (memcpy u off (l ++ [x])) = length u) as Hl.
  { rewrite length_memcpy; [done|]. rewrite length_app. simpl. lia. }
  rewrite insert_memcpy by lia.
  rewrite <- (memcpy_memcpy u off l [y]), <- (memcpy_memcpy u off l [x]) by lia.
  set (v := memcpy u off l). assert (length v = length u) as Hv.
  { unfold v. rewrite length_memcpy; [done|lia]. }
  unfold memcpy at 1. rewrite <- (Nat.add_0_r (off + length l)) at 1.
  unfold memcpy. simpl. rewrite Nat.add_0_r, take_app_le by (rewrite length_take; lia).
  rewrite take_take, Nat.min_id. f_equal. f_equal.
  rewrite drop_app_ge by (rewrite length_take; lia). rewrite length_take_le by lia.
  replace (off + length l + 1 - (off + length l))%nat with 1%nat by lia. done.
Qed.

Lemma drop_memcpy u off l : (off + length l = length u)%nat -> drop off (memcpy u off l) = l.
Proof.
  intros H. unfold memcpy. rewrite drop_app_ge by (rewrite length_take; lia).
  rewrite length_take_le, Nat.sub_diag, drop_0, (drop_ge u) by lia. apply app_nil_r.
Qed.

(** Unfolding a fold without evaluating its function. *)
Lemma fold_left_cons {A B} (f : A -> B -> A) x l a : fold_left f (x :: l) a = fold_left f l (f a x).
Proof. done. Qed.

Lemma fold_left_fmap {A B C} (f : A -> B -> A) (g : C -> B) l a :
  fold_left f (g <$> l) a = fold_left (fun a x => f a (g x)) l a.
Proof. revert a. induction l as [|x l IH]; intros a; [done|]. apply (IH (f a (g x))). Qed.

(** ** Executable checks on lists of indices *)

Fixpoint nodupb (l : list nat) : bool :=
  match l with
  | [] => true
  | x :: l => negb (existsb (Nat.eqb x) l) && nodupb l
  end.

Lemma existsb_eqb x l : existsb (Nat.eqb x) l = false -> x ∉ l.
Proof.
  intros H Hin. rewrite list_elem_of_In in Hin.
  assert (existsb (Nat.eqb x) l = true) as Ht; [|congruence].
  apply existsb_exists. exists x. split; [done|]. apply Nat.eqb_refl.
Qed.

Lemma nodupb_NoDup l : nodupb l = true -> NoDup l.
Proof.
  induction l as [|x l IH]; simpl; intros H; [apply NoDup_nil_2|].
  apply andb_true_iff in H as [H1 H2]. apply negb_true_iff in H1.
  apply NoDup_cons. split; [by apply existsb_eqb|by apply IH].
Qed.

Lemma nth_insert (V : list Z) i j x :
  (i < length V)%nat -> (<[i := x]> V).[j] = if decide (i = j) then x else V.[j].
Proof.
  intros Hi. rewrite !nth_lookup. case_decide as Hd.
  - subst. by rewrite list_lookup_insert_eq.
  - by rewrite list_lookup_insert_ne.
Qed.

(** Selecting and storing several array elements. *)
Definition sel (p : list nat) (A : list Z) : list Z := (fun i => A.[i]) <$> p.
Definition assign (p : list nat) (v : list Z) (A : list Z) : list Z :=
  fold_left (fun A iv => <[fst iv := snd iv]> A) (zip p v) A.

Lemma length_sel p A : length (sel p A) = length p.
Proof. apply length_fmap. Qed.

Lemma length_assign p v A : length (assign p v A) = length A.
Proof.
  unfold assign. generalize (zip p v) as l. intros l. revert A.
  induction l as [|[i x] l IH]; intros A; simpl; [done|]. by rewrite IH, length_insert.
Qed.

Lemma nth_assign_notin p v A i :
  Forall (fun j => j < length A)%nat p -> i ∉ p -> (assign p v A).[i] = A.[i].
Proof.
  revert v A. induction p as [|j p IH]; intros [|x v] A Hp Hi; try done.
  apply Forall_cons in Hp as [Hj Hp]. apply not_elem_of_cons in Hi as [Hne Hi].
  change ((assign p v (<[j := x]> A)).[i] = A.[i]).
  rewrite IH by (rewrite ?length_insert; done). rewrite nth_insert by done.
  by rewrite decide_False by done.
Qed.

Lemma sel_assign p v A :
  NoDup p -> Forall (fun j => j < length A)%nat p -> length v = length p ->
  sel p (assign p v A) = v.
Proof.
  intros Hn. revert v A. induction Hn as [|j p Hj Hn IH]; intros [|x v] A Hp Hl; try done.
  apply Forall_cons in Hp as [Hlt Hp]. simpl in Hl.
  change ((assign p v (<[j := x]> A)).[j] :: sel p (assign p v (<[j := x]> A)) = x :: v).
  f_equal.
  - rewrite nth_assign_notin by (rewrite ?length_insert; done). rewrite nth_insert by done.
    by rewrite decide_True.
  - apply IH; [by rewrite length_insert|lia].
Qed.

(** Selection composes. *)
Definition nsel (q p : list nat) : list nat := (fun k => nth k p 0%nat) <$> q.

Lemma nth_sel (p : list nat) A k :
  (k < length p)%nat -> (sel p A).[k] = A.[nth k p 0%nat].
Proof.
  intros Hk. unfold sel. rewrite (nth_indep _ 0 (A.[0])) by (rewrite length_fmap; done).
  exact (map_nth (fun i => A.[i]) p 0%nat k).
Qed.

Lemma sel_nsel q p A :
  Forall (fun k => k < length p)%nat q -> sel (nsel q p) A = sel q (sel p A).
Proof.
  intros Hq. unfold nsel, sel at 1 2. rewrite <- list_fmap_compose.
  apply list_fmap_ext. intros i k Hk. simpl. symmetry. apply nth_sel.
  exact (Forall_lookup_1 _ _ _ _ Hq Hk).
Qed.

(** Word-wise exclusive or of arrays. *)
Abbreviation lxor_list := (zip_with Z.lxor).

Lemma nth_lxor_list (A B : list Z) i :
  length A = length B -> (lxor_list A B).[i] = A.[i] ⊕ B.[i].
Proof.
  revert B i. induction A as [|a A IH]; intros [|b B] i H; try done; simpl in *.
  - by destruct i.
  - destruct i; [done|]. apply IH. lia.
Qed.

Lemma sel_lxor p A B :
  length A = length B -> sel p (lxor_list A B) = lxor_list (sel p A) (sel p B).
Proof.
  intros H. unfold sel. induction p as [|i p IH]; [done|]. cbn.
  f_equal; [by apply nth_lxor_list|done].
Qed.

Lemma words_lxor w A B : words w A -> words w B -> words w (lxor_list A B).
Proof.
  intros HA. revert B. induction HA as [|a A Ha HA IH]; intros B HB; [constructor|].
  destruct HB as [|b B Hb HB]; [constructor|]. constructor; [by apply word_lxor|by apply IH].
Qed.

Lemma words_sel w p A : 0 <= w -> words w A -> words w (sel p A).
Proof. intros Hw HA. apply Forall_fmap, Forall_true. intros i. by apply words_nth. Qed.

(** A loop over [m] groups of [u] steps is a loop over [u * m] steps. *)
Lemma fold_left_groups {A} (f : nat -> A -> A) u m a :
  fold_left (fun a i => fold_left (fun a k => f (u * i + k)%nat a) (seq 0 u) a) (seq 0 m) a =
  fold_left (fun a k => f k a) (seq 0 (u * m)) a.
Proof.
  induction m as [|m IH]; [by rewrite Nat.mul_0_r|].
  rewrite seq_S, fold_left_app, IH, Nat.mul_succ_r, seq_app, fold_left_app.
  cbn [fold_left Nat.add].
  assert (seq (u * m) u = Nat.add (u * m) <$> seq 0 u) as ->.
  { by rewrite fmap_add_seq, Nat.add_0_r. }
  by rewrite fold_left_fmap.
Qed.

Lemma fold_left_ext {A B} (f g : A -> B -> A) l a :
  (forall a x, x ∈ l -> f a x = g a x) -> fold_left f l a = fold_left g l a.
Proof.
  revert a. induction l as [|x l IH]; intros a H; [done|]. simpl.
  rewrite H by apply list_elem_of_here. apply IH. intros. apply H. by apply list_elem_of_further.
Qed.

(** An invariant, or a simulation, along a fold. *)
Lemma fold_left_sim {A B C} (R : A -> B -> Prop) (f : A -> C -> A) (g : B -> C -> B) l a b :
  R a b -> (forall a b x, x ∈ l -> R a b -> R (f a x) (g b x)) ->
  R (fold_left f l a) (fold_left g l b).
Proof.
  revert a b. induction l as [|x l IH]; intros a b Hab H; [done|]. simpl. apply IH.
  - apply H; [apply list_elem_of_here|done].
  - intros. apply H; [by apply list_elem_of_further|done].
Qed.

(** Undoing a sequence of steps backwards. *)
Lemma fold_undo {A B} (P : A -> Prop) (f g : A -> B -> A) l a :
  (forall a x, P a -> P (f a x) /\ g (f a x) x = a) -> P a ->
  P (fold_left f l a) /\ fold_left g (rev l) (fold_left f l a) = a.
Proof.
  intros H. revert a. induction l as [|x l IH]; intros a Ha; [done|].
  destruct (H a x Ha) as [H1 H2]. destruct (IH _ H1) as [H3 H4].
  cbn [rev]. rewrite fold_left_cons, fold_left_app, H4. by cbn [fold_left].
Qed.

(** Equality of arrays as a computation. *)
Definition list_eqb (A B : list Z) : bool :=
  (length A =? length B)%nat && forallb (fun p => p.1 =? p.2) (zip A B).

Lemma list_eqb_eq A B : list_eqb A B = true -> A = B.
Proof.
  unfold list_eqb. revert B. induction A as [|a A IH]; intros [|b B] H; try done.
  cbn in H. apply andb_true_iff in H as [H1 H2]. apply andb_true_iff in H2 as [H2 H3].
  apply Z.eqb_eq in H2 as ->. f_equal. apply IH. by rewrite H1, H3.
Qed.

(** ** Permutations of a set of states *)

(** [f] maps [P] to itself without collisions. *)
Definition inj_on {A} (P : A -> Prop) (f : A -> A) : Prop :=
  (forall a, P a -> P (f a)) /\ (forall a b, P a -> P b -> f a = f b -> a = b).

Lemma inj_on_compose {A} (P : A -> Prop) f g :
  inj_on P f -> inj_on P g -> inj_on P (fun a => g (f a)).
Proof. intros [F1 F2] [G1 G2]. split; eauto. Qed.

Lemma inj_on_fold {A B} (P : A -> Prop) (f : A -> B -> A) l :
  (forall x, x ∈ l -> inj_on P (fun a => f a x)) -> inj_on P (fun a => fold_left f l a).
Proof.
  induction l as [|x l IH]; intros H; [by split|].
  apply (inj_on_compose P (fun a => f a x) (fun a => fold_left f l a)).
  - apply H, list_elem_of_here.
  - apply IH. intros y Hy. apply H. by apply list_elem_of_further.
Qed.

Lemma inj_on_ext {A} (P : A -> Prop) f g :
  (forall a, P a -> f a = g a) -> inj_on P g -> inj_on P f.
Proof. intros H [G1 G2]. split; intros; rewrite ?H in *; eauto. Qed.

(** Arrays of [n] words of [w] bits. *)
Definition wf_arr (w : Z) (n : nat) (A : list Z) : Prop := length A = n /\ words w A.

Lemma words_assign w p v A : words w v -> words w A -> words w (assign p v A).
Proof.
  intros Hv. unfold assign. revert A. revert v Hv.
  induction p as [|i p IH]; intros [|x v] Hv A HA; try done.
  apply Forall_cons in Hv as [Hx Hv]. cbn. apply IH; [done|]. by apply Forall_insert.
Qed.

Lemma wf_arr_sel w n p A : 0 <= w -> wf_arr w n A -> wf_arr w (length p) (sel p A).
Proof. intros Hw [H1 H2]. split; [apply length_sel|by apply words_sel]. Qed.

Lemma nth_eq (A B : list Z) :
  length A = length B -> (forall i, (i < length A)%nat -> A.[i] = B.[i]) -> A = B.
Proof. intros HL H. exact (nth_ext A B 0 0 HL H). Qed.

(** Indices without repetition, below [n]. *)
Definition indices_ok (n : nat) (p : list nat) : bool := nodupb p && forallb (fun i => i <? n)%nat p.

(** Updating some elements by a permutation of their values. *)
Lemma assign_inj_on w n p f :
  0 <= w -> indices_ok n p = true -> inj_on (wf_arr w (length p)) f ->
  inj_on (wf_arr w n) (fun A => assign p (f (sel p A)) A).
Proof.
  intros Hw Hp [F1 F2]. apply andb_true_iff in Hp as [Hn Hb]. apply nodupb_NoDup in Hn.
  assert (Forall (fun j => j < n)%nat p) as Hb'.
  { rewrite forallb_forall in Hb. apply Forall_forall. intros j Hj%list_elem_of_In.
    by apply Nat.ltb_lt, Hb. }
  assert (forall A, wf_arr w n A -> sel p (assign p (f (sel p A)) A) = f (sel p A)) as Hs.
  { intros A HA. apply sel_assign; [done|by destruct HA as [-> _]|].
    by apply F1, (wf_arr_sel w n). }
  split.
  - intros A HA. pose proof HA as [HL HWd]. split; [by rewrite length_assign|].
    apply words_assign; [|done]. by apply F1, (wf_arr_sel w n).
  - intros A B HA HB Heq.
    assert (sel p A = sel p B) as Hsel.
    { apply F2; [by apply (wf_arr_sel w n)..|]. rewrite <- (Hs A HA), <- (Hs B HB). by rewrite Heq. }
    pose proof HA as [HLA _]. pose proof HB as [HLB _]. apply nth_eq; [congruence|].
    intros i _. destruct (decide (i ∈ p)) as [Hi|Hi].
    + apply list_elem_of_lookup in Hi as [k Hk]. pose proof (lookup_lt_Some _ _ _ Hk) as Hlt.
      assert (nth k p 0%nat = i) as <- by by rewrite nth_lookup, Hk.
      by rewrite <- !nth_sel, Hsel.
    + rewrite <- (nth_assign_notin p (f (sel p A)) A i), <- (nth_assign_notin p (f (sel p B)) B i)
        by (rewrite ?HLA, ?HLB; done). by rewrite Heq.
Qed.

Lemma lxor_cancel a b : a ⊕ b ⊕ b = a.
Proof. by rewrite Z.lxor_assoc, Z.lxor_nilpotent, Z.lxor_0_r. Qed.

Lemma inj_on_inv {A} (P : A -> Prop) f g :
  (forall a, P a -> P (f a)) -> (forall a, P a -> g (f a) = a) -> inj_on P f.
Proof. intros H1 H2. split; [done|]. intros a b Ha Hb E. by rewrite <- (H2 a Ha), E, H2. Qed.

Lemma lxor_list_cancel A B : length A = length B -> lxor_list (lxor_list A B) B = A.
Proof.
  revert B. induction A as [|a A IH]; intros [|b B] H; try done. cbn in *.
  rewrite lxor_cancel, IH by lia. done.
Qed.

Lemma lxor_inj_on w n m : wf_arr w n m -> inj_on (wf_arr w n) (fun A => lxor_list A m).
Proof.
  intros [Hm Wm]. apply (inj_on_inv _ _ (fun A => lxor_list A m)); intros A [HA WA].
  - split; [rewrite length_zip_with; lia|by apply words_lxor].
  - apply lxor_list_cancel. lia.
Qed.

(** The [n] bytes of a number, most significant first: test vectors are
    written as numbers. *)
Fixpoint be_bytes (n : nat) (v : Z) : list Z :=
  match n with
  | O => []
  | S n => be_bytes n (v >> 8) ++ [v .& 0xFF]
  end.
