(* ===== verification/SphTypes.v ===== *)
(** * sph_types.h: machine words and their byte encodings

    [SPH_T32], [SPH_ROTL32] and their 64-bit versions, the byte-swap helpers
    and the encoders and decoders.  An encoder returns the bytes it stores at
    [dst]; a decoder takes the array that starts at [src].  The definitions
    follow the portable branch (no [SPH_UPTR]); [store32], [load32] and their
    64-bit versions describe a little-endian memory access, and the theorems
    at the end show that the branch taken on x86-64, a byte swap around such an
    access, computes the same bytes and the same words. *)

From Stdlib Require Import ZArith Lia Btauto.
From stdpp Require Import base tactics numbers list.
From S2P Require Import Prelude.

Definition SPH_T32 (x : Z) : Z := wT 0xFFFFFFFF x.
Definition SPH_ROTL32 (x n : Z) : Z := wrotl 0xFFFFFFFF 32 x n.
Definition SPH_ROTR32 (x n : Z) : Z := SPH_ROTL32 x (32 - n).
Definition SPH_T64 (x : Z) : Z := wT 0xFFFFFFFFFFFFFFFF x.
Definition SPH_ROTL64 (x n : Z) : Z := wrotl 0xFFFFFFFFFFFFFFFF 64 x n.
Definition SPH_ROTR64 (x n : Z) : Z := SPH_ROTL64 x (64 - n).

(** The complement [~x] of a [sph_u32] or [sph_u64]. *)
Definition not32 (x : Z) : Z := SPH_T32 (Z.lnot x).
Definition not64 (x : Z) : Z := SPH_T64 (Z.lnot x).

Definition sph_bswap32 (x : Z) : Z :=
  let x := SPH_T32 ((x << 16) .| (x >> 16)) in
  ((x .& 0xFF00FF00) >> 8) .| ((x .& 0x00FF00FF) << 8).

Definition sph_bswap64 (x : Z) : Z :=
  let x := SPH_T64 ((x << 32) .| (x >> 32)) in
  let x := ((x .& 0xFFFF0000FFFF0000) >> 16) .| ((x .& 0x0000FFFF0000FFFF) << 16) in
  ((x .& 0xFF00FF00FF00FF00) >> 8) .| ((x .& 0x00FF00FF00FF00FF) << 8).

(** Conversion to [unsigned char]. *)
Definition uchar (x : Z) : Z := wT 0xFF x.

Definition sph_enc16be (val : Z) : list Z := [uchar (val >> 8); uchar val].
Definition sph_dec16be (src : list Z) : Z := (src.[0] << 8) .| src.[1].
Definition sph_enc16le (val : Z) : list Z := [uchar val; uchar (val >> 8)].
Definition sph_dec16le (src : list Z) : Z := src.[0] .| (src.[1] << 8).

Definition sph_enc32be (val : Z) : list Z :=
  [uchar (val >> 24); uchar (val >> 16); uchar (val >> 8); uchar val].
Definition sph_dec32be (src : list Z) : Z :=
  (src.[0] << 24) .| (src.[1] << 16) .| (src.[2] << 8) .| src.[3].
Definition sph_enc32le (val : Z) : list Z :=
  [uchar val; uchar (val >> 8); uchar (val >> 16); uchar (val >> 24)].
Definition sph_dec32le (src : list Z) : Z :=
  src.[0] .| (src.[1] << 8) .| (src.[2] << 16) .| (src.[3] << 24).
Definition sph_enc64be (val : Z) : list Z :=
  [uchar (val >> 56); uchar (val >> 48); uchar (val >> 40); uchar (val >> 32);
   uchar (val >> 24); uchar (val >> 16); uchar (val >> 8); uchar val].
Definition sph_dec64be (src : list Z) : Z :=
  (src.[0] << 56) .| (src.[1] << 48) .| (src.[2] << 40) .| (src.[3] << 32)
  .| (src.[4] << 24) .| (src.[5] << 16) .| (src.[6] << 8) .| src.[7].
Definition sph_enc64le (val : Z) : list Z :=
  [uchar val; uchar (val >> 8); uchar (val >> 16); uchar (val >> 24);
   uchar (val >> 32); uchar (val >> 40); uchar (val >> 48); uchar (val >> 56)].
Definition sph_dec64le (src : list Z) : Z :=
  src.[0] .| (src.[1] << 8) .| (src.[2] << 16) .| (src.[3] << 24)
  .| (src.[4] << 32) .| (src.[5] << 40) .| (src.[6] << 48) .| (src.[7] << 56).

(** ** Range of the operations *)

Lemma T32_word x : word 32 (SPH_T32 x).
Proof. by apply wT_word. Qed.
Lemma T64_word x : word 64 (SPH_T64 x).
Proof. by apply wT_word. Qed.
Lemma ROTL32_word x n : word 32 (SPH_ROTL32 x n).
Proof. by apply wrotl_word. Qed.
Lemma ROTR32_word x n : word 32 (SPH_ROTR32 x n).
Proof. by apply wrotl_word. Qed.
Lemma ROTL64_word x n : word 64 (SPH_ROTL64 x n).
Proof. by apply wrotl_word. Qed.
Lemma ROTR64_word x n : word 64 (SPH_ROTR64 x n).
Proof. by apply wrotl_word. Qed.
Lemma uchar_word x : word 8 (uchar x).
Proof. by apply wT_word. Qed.
Lemma not32_word x : word 32 (not32 x).
Proof. apply T32_word. Qed.
Lemma not64_word x : word 64 (not64 x).
Proof. apply T64_word. Qed.

#[export] Hint Resolve T32_word T64_word ROTL32_word ROTR32_word ROTL64_word ROTR64_word
  uchar_word not32_word not64_word : words.

Lemma T32_mod x : SPH_T32 x = x mod 2 ^ 32.
Proof. by apply wT_mod. Qed.
Lemma T64_mod x : SPH_T64 x = x mod 2 ^ 64.
Proof. by apply wT_mod. Qed.
Lemma T32_id x : word 32 x -> SPH_T32 x = x.
Proof. by apply wT_id. Qed.
Lemma T64_id x : word 64 x -> SPH_T64 x = x.
Proof. by apply wT_id. Qed.

(** ** Bits of the encodings *)

Lemma uchar_bit x i : 0 <= i < 8 -> Z.testbit (uchar x) i = Z.testbit x i.
Proof. by apply wT_bit. Qed.

Lemma uchar_id x : word 8 x -> uchar x = x.
Proof. by apply wT_id. Qed.

Lemma ones8_bit j : 0 <= j < 8 -> Z.testbit 255 j = true.
Proof. intros. change 255 with (Z.ones 8). by apply Z.ones_spec_low. Qed.

Lemma T32_bit x i : 0 <= i < 32 -> Z.testbit (SPH_T32 x) i = Z.testbit x i.
Proof. by apply wT_bit. Qed.
Lemma T64_bit x i : 0 <= i < 64 -> Z.testbit (SPH_T64 x) i = Z.testbit x i.
Proof. by apply wT_bit. Qed.

(** The complement of a word is its exclusive or with the all-ones word. *)
Lemma not32_lxor x : word 32 x -> not32 x = x ⊕ 0xFFFFFFFF.
Proof.
  intros Hx. apply (word_eq 32); [apply not32_word|auto with words|]. intros i Hi.
  unfold not32. rewrite T32_bit, Z.lnot_spec, Z.lxor_spec by lia.
  change 0xFFFFFFFF with (Z.ones 32). rewrite Z.ones_spec_low by lia. by rewrite xorb_true_r.
Qed.
Lemma not64_lxor x : word 64 x -> not64 x = x ⊕ 0xFFFFFFFFFFFFFFFF.
Proof.
  intros Hx. apply (word_eq 64); [apply not64_word|auto with words|]. intros i Hi.
  unfold not64. rewrite T64_bit, Z.lnot_spec, Z.lxor_spec by lia.
  change 0xFFFFFFFFFFFFFFFF with (Z.ones 64). rewrite Z.ones_spec_low by lia. by rewrite xorb_true_r.
Qed.

(** [byte_case i n] reduces a bit index below [8 * n] to the byte it is in. *)
Ltac byte_case i :=
  first [ lia | zcase i 8; [|zcase i 16; [|zcase i 24; [|zcase i 32; [|zcase i 40;
    [|zcase i 48; [|zcase i 56]]]]]]]; try lia.

(** Evaluates [testbit] of an expression of shifted bytes, the position of
    the bit index among the bytes being known. *)
Ltac bit_bytes :=
  repeat match goal with
  | |- context [Z.testbit (_ .| _) _] => rewrite Z.lor_spec
  | |- context [Z.testbit (_ .& _) _] => rewrite Z.land_spec
  | |- context [Z.testbit (?x << ?n) ?j] => rewrite (Z.shiftl_spec x n j) by lia
  | |- context [Z.testbit (?x >> ?n) ?j] => rewrite (Z.shiftr_spec x n j) by lia
  | |- context [Z.testbit (uchar ?x) ?j] => rewrite (uchar_bit x j) by lia
  | |- context [Z.testbit (SPH_T32 ?x) ?j] => rewrite (T32_bit x j) by lia
  | |- context [Z.testbit (SPH_T64 ?x) ?j] => rewrite (T64_bit x j) by lia
  | |- context [Z.testbit 255 ?j] => rewrite (ones8_bit j) by lia
  | |- context [Z.testbit 0 ?j] => rewrite (Z.bits_0 j)
  | |- context [Z.testbit ?x ?j] =>
      first [ rewrite (Z.testbit_neg_r x j) by lia
            | rewrite (word_bit_high 8 x j) by (assumption || apply uchar_word || lia)
            | rewrite (word_bit_high 32 x j) by (assumption || apply T32_word || lia)
            | rewrite (word_bit_high 64 x j) by (assumption || apply T64_word || lia) ]
  end;
  repeat first [ rewrite orb_false_r | rewrite orb_false_l | rewrite andb_false_r
               | rewrite andb_false_l | rewrite andb_true_r ];
  try (f_equal; lia).

Lemma bytes4 (l : list Z) :
  length l = 4%nat -> words 8 l ->
  exists a b c d, l = [a; b; c; d] /\ word 8 a /\ word 8 b /\ word 8 c /\ word 8 d.
Proof.
  intros Hl Hw. destruct l as [|a [|b [|c [|d [|]]]]]; try done.
  rewrite !List.Forall_cons_iff in Hw. intuition eauto 10.
Qed.

Lemma bytes8 (l : list Z) :
  length l = 8%nat -> words 8 l ->
  exists a b c d e f g h, l = [a; b; c; d; e; f; g; h] /\
    (word 8 a /\ word 8 b /\ word 8 c /\ word 8 d) /\
    (word 8 e /\ word 8 f /\ word 8 g /\ word 8 h).
Proof.
  intros Hl Hw. destruct l as [|a [|b [|c [|d [|e [|f [|g [|h [|]]]]]]]]]; try done.
  rewrite !List.Forall_cons_iff in Hw. exists a, b, c, d, e, f, g, h. intuition.
Qed.

Lemma word_shiftl_byte w x n : 0 <= n -> word 8 x -> 8 + n <= w -> word w (x << n).
Proof. intros. by apply (word_shiftl 8). Qed.

#[export] Hint Extern 2 (word _ (_ << _)) => (apply word_shiftl_byte; [lia|..|lia]) : words.

Lemma word8_weaken w x : word 8 x -> 8 <= w -> word w x.
Proof. apply word_weaken. Qed.

Ltac word_bytes :=
  repeat apply word_lor;
  first [ apply word_shiftl_byte; [lia|auto using uchar_word|lia]
        | apply word8_weaken; [auto using uchar_word|lia] ].

(** ** Round trips *)

(** [decode (encode v) = v], bit by bit; [encode (decode l) = l], byte by byte. *)
Ltac dec_enc w :=
  apply (word_eq w); [cbn [nth]; word_bytes|done|];
  let i := fresh "i" in intros i ?; cbn [nth]; byte_case i; bit_bytes.
Ltac enc_dec :=
  cbn [nth]; repeat apply (f_equal2 cons); try done;
  (apply (word_eq 8); [apply uchar_word|done|]; intros ? ?; bit_bytes).

Lemma sph_dec_enc16 v : word 16 v -> sph_dec16be (sph_enc16be v) = v /\ sph_dec16le (sph_enc16le v) = v.
Proof.
  intros Hv. split; unfold sph_dec16be, sph_enc16be, sph_dec16le, sph_enc16le; dec_enc 16.
Qed.

Lemma sph_enc_dec16 a b :
  word 8 a -> word 8 b ->
  sph_enc16be (sph_dec16be [a; b]) = [a; b] /\ sph_enc16le (sph_dec16le [a; b]) = [a; b].
Proof.
  intros Ha Hb. split; unfold sph_dec16be, sph_enc16be, sph_dec16le, sph_enc16le; enc_dec.
Qed.

Lemma sph_dec_enc32be v : word 32 v -> sph_dec32be (sph_enc32be v) = v.
Proof. intros Hv. unfold sph_dec32be, sph_enc32be. dec_enc 32. Qed.

Lemma sph_dec_enc32le v : word 32 v -> sph_dec32le (sph_enc32le v) = v.
Proof. intros Hv. unfold sph_dec32le, sph_enc32le. dec_enc 32. Qed.

Lemma sph_dec_enc64be v : word 64 v -> sph_dec64be (sph_enc64be v) = v.
Proof. intros Hv. unfold sph_dec64be, sph_enc64be. dec_enc 64. Qed.

Lemma sph_dec_enc64le v : word 64 v -> sph_dec64le (sph_enc64le v) = v.
Proof. intros Hv. unfold sph_dec64le, sph_enc64le. dec_enc 64. Qed.

Lemma sph_enc_dec32be l : length l = 4%nat -> words 8 l -> sph_enc32be (sph_dec32be l) = l.
Proof.
  intros Hl Hw. destruct (bytes4 l Hl Hw) as (a & b & c & d & -> & Ha & Hb & Hc & Hd).
  unfold sph_enc32be, sph_dec32be. enc_dec.
Qed.

Lemma sph_enc_dec32le l : length l = 4%nat -> words 8 l -> sph_enc32le (sph_dec32le l) = l.
Proof.
  intros Hl Hw. destruct (bytes4 l Hl Hw) as (a & b & c & d & -> & Ha & Hb & Hc & Hd).
  unfold sph_enc32le, sph_dec32le. enc_dec.
Qed.

Lemma sph_enc_dec64be l : length l = 8%nat -> words 8 l -> sph_enc64be (sph_dec64be l) = l.
Proof.
  intros Hl Hw. destruct (bytes8 l Hl Hw)
    as (a & b & c & d & e & f & g & h & -> & (Ha & Hb & Hc & Hd) & (He & Hf & Hg & Hh)).
  unfold sph_enc64be, sph_dec64be. enc_dec.
Qed.

Lemma sph_enc_dec64le l : length l = 8%nat -> words 8 l -> sph_enc64le (sph_dec64le l) = l.
Proof.
  intros Hl Hw. destruct (bytes8 l Hl Hw)
    as (a & b & c & d & e & f & g & h & -> & (Ha & Hb & Hc & Hd) & (He & Hf & Hg & Hh)).
  unfold sph_enc64le, sph_dec64le. enc_dec.
Qed.

(** Decoders return words of their width, encoders bytes. *)
Lemma dec_word_aux w (l : list Z) i n :
  words 8 l -> 0 <= n -> 8 + n <= w -> word w (l.[i] << n).
Proof. intros. apply word_shiftl_byte; [done|by apply words_nth|done]. Qed.

Ltac dec_word :=
  let H := fresh in intros H; repeat apply word_lor;
  first [ apply dec_word_aux; [done|lia..]
        | apply (word_weaken 8); [by apply words_nth|lia] ].

Lemma sph_dec32be_word l : words 8 l -> word 32 (sph_dec32be l).
Proof. dec_word. Qed.
Lemma sph_dec32le_word l : words 8 l -> word 32 (sph_dec32le l).
Proof. dec_word. Qed.
Lemma sph_dec64be_word l : words 8 l -> word 64 (sph_dec64be l).
Proof. dec_word. Qed.
Lemma sph_dec64le_word l : words 8 l -> word 64 (sph_dec64le l).
Proof. dec_word. Qed.

Lemma sph_enc32be_words v : words 8 (sph_enc32be v).
Proof. unfold sph_enc32be. auto 10 with words. Qed.
Lemma sph_enc32le_words v : words 8 (sph_enc32le v).
Proof. unfold sph_enc32le. auto 10 with words. Qed.
Lemma sph_enc64be_words v : words 8 (sph_enc64be v).
Proof. unfold sph_enc64be. auto 10 with words. Qed.
Lemma sph_enc64le_words v : words 8 (sph_enc64le v).
Proof. unfold sph_enc64le. auto 10 with words. Qed.

#[export] Hint Resolve sph_dec32be_word sph_dec32le_word sph_dec64be_word sph_dec64le_word
  sph_enc32be_words sph_enc32le_words sph_enc64be_words sph_enc64le_words : words.

(** ** The byte-swapping branch *)

(** A little-endian store and load of [n] bytes. *)
Fixpoint store_le (n : nat) (v : Z) : list Z :=
  match n with
  | O => []
  | S n => uchar v :: store_le n (v >> 8)
  end.
Fixpoint load_le (l : list Z) : Z :=
  match l with
  | [] => 0
  | b :: l => b .| (load_le l << 8)
  end.

Lemma bswap32_word x : word 32 (sph_bswap32 x).
Proof.
  unfold sph_bswap32. apply word_lor; [auto with words|].
  apply (word_shiftl 24); [lia..| |lia]. apply word_land_r. auto with words.
Qed.

Lemma bswap64_word x : word 64 (sph_bswap64 x).
Proof.
  unfold sph_bswap64. apply word_lor.
  - apply word_shiftr; [lia|]. apply word_land_r. auto with words.
  - apply (word_shiftl 56); [lia..| |lia]. apply word_land_r. auto with words.
Qed.

Ltac unfold_bswap :=
  unfold sph_bswap32, sph_bswap64;
  change 0xFF00FF00 with ((255 << 24) .| (255 << 8));
  change 0x00FF00FF with ((255 << 16) .| 255);
  change 0xFFFF0000FFFF0000 with ((255 << 56) .| (255 << 48) .| (255 << 24) .| (255 << 16));
  change 0x0000FFFF0000FFFF with ((255 << 40) .| (255 << 32) .| (255 << 8) .| 255);
  change 0xFF00FF00FF00FF00 with ((255 << 56) .| (255 << 40) .| (255 << 24) .| (255 << 8));
  change 0x00FF00FF00FF00FF with ((255 << 48) .| (255 << 32) .| (255 << 16) .| 255);
  assert (word 8 255) by auto with words.

(** A big-endian store is the byte swap followed by a little-endian store. *)
Lemma enc32be_bswap v : word 32 v -> sph_enc32be v = store_le 4 (sph_bswap32 v).
Proof.
  intros Hv. unfold sph_enc32be. cbn [store_le]. unfold_bswap.
  repeat apply (f_equal2 cons); try done;
    (apply (word_eq 8); [apply uchar_word..|]; intros i Hi; bit_bytes).
Qed.

Lemma enc64be_bswap v : word 64 v -> sph_enc64be v = store_le 8 (sph_bswap64 v).
Proof.
  intros Hv. unfold sph_enc64be. cbn [store_le]. unfold_bswap.
  repeat apply (f_equal2 cons); try done;
    (apply (word_eq 8); [apply uchar_word..|]; intros i Hi; bit_bytes).
Qed.

Lemma uchar_load b x : word 8 b -> uchar (b .| (x << 8)) = b.
Proof.
  intros Hb. apply (word_eq 8); [apply uchar_word|done|]. intros i Hi. bit_bytes.
Qed.

Lemma shiftr_load b x : word 8 b -> (b .| (x << 8)) >> 8 = x.
Proof. intros Hb. bits_intro i Hi. bit_bytes. Qed.

Lemma load_le_word l : words 8 l -> word (8 * Z.of_nat (length l)) (load_le l).
Proof.
  induction 1 as [|b l Hb Hl IH]; cbn [load_le length]; [by vm_compute|].
  apply word_lor; [apply (word_weaken 8); [done|lia]|].
  apply (word_shiftl (8 * Z.of_nat (length l))); [lia..|done|lia].
Qed.

(** Storing what was loaded gives the bytes back. *)
Lemma store_load_le l : words 8 l -> store_le (length l) (load_le l) = l.
Proof.
  induction 1 as [|b l Hb Hl IH]; cbn [load_le length store_le]; [done|].
  by rewrite uchar_load, shiftr_load, IH.
Qed.

Lemma dec32be_bswap l :
  length l = 4%nat -> words 8 l -> sph_dec32be l = sph_bswap32 (load_le l).
Proof.
  intros Hl Hw. pose proof (load_le_word l Hw) as Hx. pose proof (store_load_le l Hw) as Hs.
  rewrite Hl in Hx, Hs. rewrite <- Hs at 1. revert Hx. generalize (load_le l). intros x Hx.
  apply (word_eq 32); [auto 10 using sph_dec32be_word, Forall_cons with words|apply bswap32_word|].
  intros i Hi. unfold sph_dec32be. cbn [store_le nth]. unfold_bswap. byte_case i; bit_bytes.
Qed.

Lemma dec64be_bswap l :
  length l = 8%nat -> words 8 l -> sph_dec64be l = sph_bswap64 (load_le l).
Proof.
  intros Hl Hw. pose proof (load_le_word l Hw) as Hx. pose proof (store_load_le l Hw) as Hs.
  rewrite Hl in Hx, Hs. rewrite <- Hs at 1. revert Hx. generalize (load_le l). intros x Hx.
  apply (word_eq 64); [auto 10 using sph_dec64be_word, Forall_cons with words|apply bswap64_word|].
  intros i Hi. unfold sph_dec64be. cbn [store_le nth]. unfold_bswap. byte_case i; bit_bytes.
Qed.

(** ** Main results *)

(** The encoders and decoders of [sph_types.h] are inverse to each other,
    for both byte orders and all word sizes: decoding what was encoded gives
    the word back, and encoding what was decoded gives the bytes back. *)
Theorem sph_codec_roundtrip :
  (forall v, word 16 v -> sph_dec16be (sph_enc16be v) = v /\ sph_dec16le (sph_enc16le v) = v) /\
  (forall a b, word 8 a -> word 8 b ->
    sph_enc16be (sph_dec16be [a; b]) = [a; b] /\ sph_enc16le (sph_dec16le [a; b]) = [a; b]) /\
  (forall v, word 32 v -> sph_dec32be (sph_enc32be v) = v /\ sph_dec32le (sph_enc32le v) = v) /\
  (forall v, word 64 v -> sph_dec64be (sph_enc64be v) = v /\ sph_dec64le (sph_enc64le v) = v) /\
  (forall l, length l = 4%nat -> words 8 l ->
    sph_enc32be (sph_dec32be l) = l /\ sph_enc32le (sph_dec32le l) = l) /\
  (forall l, length l = 8%nat -> words 8 l ->
    sph_enc64be (sph_dec64be l) = l /\ sph_enc64le (sph_dec64le l) = l).
Proof.
  split; [apply sph_dec_enc16|]. split; [apply sph_enc_dec16|].
  repeat split; auto using sph_dec_enc32be, sph_dec_enc32le, sph_dec_enc64be, sph_dec_enc64le,
    sph_enc_dec32be, sph_enc_dec32le, sph_enc_dec64be, sph_enc_dec64le.
Qed.

Lemma sph_codec_roundtrip_witness :
  sph_dec32be (sph_enc32be 0xDEADBEEF) = 0xDEADBEEF /\
  sph_enc64le (sph_dec64le [1; 2; 3; 4; 5; 6; 7; 255]) = [1; 2; 3; 4; 5; 6; 7; 255].
Proof.
  destruct sph_codec_roundtrip as (_ & _ & H32 & _ & _ & H8). split.
  - apply H32. unfold word. lia.
  - apply H8; [reflexivity|]. unfold word. repeat constructor; lia.
Defined.

(** The byte-swapping branch of [sph_types.h], which an x86-64 build takes
    for big-endian accesses, agrees with the portable byte-wise branch: a store
    of the swapped word puts down the bytes of the big-endian encoder, and
    swapping a loaded word is the big-endian decoder. *)
Theorem sph_bswap_branch :
  (forall v, word 32 v -> store_le 4 (sph_bswap32 v) = sph_enc32be v) /\
  (forall v, word 64 v -> store_le 8 (sph_bswap64 v) = sph_enc64be v) /\
  (forall l, length l = 4%nat -> words 8 l -> sph_bswap32 (load_le l) = sph_dec32be l) /\
  (forall l, length l = 8%nat -> words 8 l -> sph_bswap64 (load_le l) = sph_dec64be l).
Proof.
  split_and!; intros; symmetry;
    auto using enc32be_bswap, enc64be_bswap, dec32be_bswap, dec64be_bswap.
Qed.

Lemma sph_bswap_branch_witness :
  store_le 4 (sph_bswap32 0x01020304) = [1; 2; 3; 4] /\
  sph_bswap64 (load_le [1; 2; 3; 4; 5; 6; 7; 255]) = 0x01020304050607FF.
Proof.
  destruct sph_bswap_branch as (H32 & _ & _ & H8). split.
  - rewrite H32 by (unfold word; lia). reflexivity.
  - rewrite H8; [reflexivity|reflexivity|]. unfold word. repeat constructor; lia.
Defined.
