(* ===== verification/Stream.v ===== *)
(** * Buffered block absorption, the loop every hash function of the library shares *)

From stdpp Require Import base tactics numbers list.
From S2P Require Import Prelude SphTypes.

(** The context of a hash computation: the input buffer [buf] with its fill
    level [ptr], and the chaining data [st] (chaining words and counters). *)
Record stream_ctx (St : Type) : Type := mk_ctx {
  buf : list Z;
  ptr : nat;
  st : St
}.
Arguments mk_ctx {St} _ _ _.
Arguments buf {St} _.
Arguments ptr {St} _.
Arguments st {St} _.

(** The full blocks of a message and what remains after them. *)
Fixpoint take_blocks (bs n : nat) (msg : list Z) : list (list Z) :=
  match n with
  | O => []
  | S n => take bs msg :: take_blocks bs n (drop bs msg)
  end.
Definition blocks (bs : nat) (msg : list Z) : list (list Z) :=
  take_blocks bs (length msg / bs) msg.
Definition tail_bytes (bs : nat) (msg : list Z) : list Z :=
  drop (length msg / bs * bs) msg.

Section Stream.
Context {St : Type} (bs : nat) (absorb : St -> list Z -> St).

(** One iteration of [while (len > 0)].  A full buffer is a block: its first
    [bs] bytes, which for Keccak is less than the buffer's size. *)
Definition core_step (c : stream_ctx St) (data : list Z) : stream_ctx St * list Z :=
  let clen := Nat.min (bs - ptr c) (length data) in
  let buf' := memcpy (buf c) (ptr c) (take clen data) in
  let ptr' := (ptr c + clen)%nat in
  (if Nat.eqb ptr' bs
   then mk_ctx buf' 0 (absorb (st c) (take bs buf'))
   else mk_ctx buf' ptr' (st c),
   drop clen data).

Fixpoint core_loop (fuel : nat) (c : stream_ctx St) (data : list Z) : stream_ctx St :=
  match fuel, data with
  | O, _ | _, [] => c
  | S fuel, _ => let '(c', data') := core_step c data in core_loop fuel c' data'
  end.

(** The loop alone (shavite.c, simd.c, bmw.c), and the loop behind the early
    return for an input that does not fill the buffer (the other files).
    Every iteration consumes a byte, so the input's length is enough fuel. *)
Definition core_plain (c : stream_ctx St) (data : list Z) : stream_ctx St :=
  core_loop (length data) c data.
Definition core (c : stream_ctx St) (data : list Z) : stream_ctx St :=
  if Nat.ltb (length data) (bs - ptr c)
  then mk_ctx (memcpy (buf c) (ptr c) data) (ptr c + length data) (st c)
  else core_plain c data.

(** Specification: one byte at a time. *)
Definition put (c : stream_ctx St) (b : Z) : stream_ctx St :=
  let buf' := memcpy (buf c) (ptr c) [b] in
  if Nat.eqb (S (ptr c)) bs
  then mk_ctx buf' 0 (absorb (st c) (take bs buf'))
  else mk_ctx buf' (S (ptr c)) (st c).

Definition wf_ctx (c : stream_ctx St) : Prop :=
  (bs <= length (buf c))%nat /\ (ptr c < bs)%nat.

(** The context [c] is where absorbing [msg] from chaining data [s0] leads. *)
Definition repr (s0 : St) (msg : list Z) (c : stream_ctx St) : Prop :=
  (bs <= length (buf c))%nat /\
  ptr c = (length msg mod bs)%nat /\
  take (ptr c) (buf c) = tail_bytes bs msg /\
  st c = fold_left absorb (blocks bs msg) s0.

(** ** The loop is the byte-wise specification *)

Context (Hbs : (0 < bs)%nat).

Lemma put_wf c b : wf_ctx c -> wf_ctx (put c b).
Proof.
  intros [Hl Hp]. unfold put, wf_ctx.
  case Nat.eqb_spec; intros He; cbn [buf ptr];
    rewrite length_memcpy by (simpl; lia); lia.
Qed.

Lemma fold_put_wf data c : wf_ctx c -> wf_ctx (fold_left put data c).
Proof. revert c. induction data; simpl; auto using put_wf. Qed.

(** Bytes that fit in the buffer amount to one copy. *)
Lemma fold_put_short data c :
  wf_ctx c -> (ptr c + length data < bs)%nat ->
  fold_left put data c = mk_ctx (memcpy (buf c) (ptr c) data) (ptr c + length data) (st c).
Proof.
  revert c. induction data as [|b data IH]; intros c Hwf Hlen.
  - simpl. rewrite memcpy_nil, Nat.add_0_r. by destruct c.
  - simpl in *. rewrite IH by (auto using put_wf || (unfold put;
      case Nat.eqb_spec; simpl; lia)).
    destruct Hwf as [Hl Hp]. unfold put.
    case Nat.eqb_spec; [lia|]. intros _. cbn [buf ptr st].
    f_equal; [|lia]. change (b :: data) with ([b] ++ data).
    rewrite <- memcpy_memcpy by (simpl; lia). simpl. by rewrite Nat.add_1_r.
Qed.

Lemma fold_put_fill data c :
  wf_ctx c -> (ptr c + length data = bs)%nat ->
  fold_left put data c =
    let buf' := memcpy (buf c) (ptr c) data in mk_ctx buf' 0 (absorb (st c) (take bs buf')).
Proof.
  intros Hwf Hlen. destruct data as [|b data _] using rev_ind.
  { destruct Hwf. simpl in *. lia. }
  rewrite length_app in Hlen. simpl in Hlen.
  rewrite fold_left_app, (fold_put_short data c) by (done || lia).
  destruct Hwf as [Hl Hp]. simpl. unfold put. cbn [buf ptr st].
  case Nat.eqb_spec; [intros _|lia]. by rewrite memcpy_memcpy by lia.
Qed.

Lemma core_step_put c data :
  wf_ctx c -> let '(c', data') := core_step c data in
  fold_left put data c = fold_left put data' c' /\ wf_ctx c' /\
  (data <> [] -> length data' < length data)%nat.
Proof.
  intros Hwf. pose proof Hwf as [Hl Hp]. unfold core_step.
  set (clen := Nat.min (bs - ptr c) (length data)).
  assert (length (take clen data) = clen) as Ht by (rewrite length_take; lia).
  assert (data <> [] -> length (drop clen data) < length data)%nat as Hd.
  { intros Hne. rewrite length_drop. destruct data; [done|]. simpl in *. lia. }
  assert (wf_ctx (fold_left put (take clen data) c)) as Hwf' by by apply fold_put_wf.
  assert (fold_left put data c =
          fold_left put (drop clen data) (fold_left put (take clen data) c)) as ->.
  { by rewrite <- fold_left_app, take_drop. }
  case Nat.eqb_spec; intros He.
  - rewrite (fold_put_fill (take clen data) c) in Hwf' |- * by (done || lia). done.
  - rewrite (fold_put_short (take clen data) c) in Hwf' |- * by (done || lia). by rewrite Ht in *.
Qed.

(** Any amount of fuel of at least the input's length gives the result. *)
Lemma core_loop_put fuel c data :
  wf_ctx c -> (length data <= fuel)%nat ->
  core_loop fuel c data = fold_left put data c.
Proof.
  revert c data. induction fuel as [|fuel IH]; intros c data Hwf Hf.
  - destruct data; [done|simpl in Hf; lia].
  - destruct data as [|b data]; [done|].
    pose proof (core_step_put c (b :: data) Hwf) as Hs.
    cbn [core_loop]. destruct (core_step c (b :: data)) as [c' data'].
    destruct Hs as (Heq & Hwf' & Hlt). rewrite Heq. apply IH; [done|].
    specialize (Hlt ltac:(done)). simpl in *. lia.
Qed.

Lemma core_plain_put c data : wf_ctx c -> core_plain c data = fold_left put data c.
Proof. intros Hwf. by apply core_loop_put. Qed.

Lemma core_put c data : wf_ctx c -> core c data = fold_left put data c.
Proof.
  intros Hwf. unfold core. case Nat.ltb_spec; intros Hlt.
  - symmetry. apply fold_put_short; [done|lia].
  - by apply core_plain_put.
Qed.

Lemma core_wf c data : wf_ctx c -> wf_ctx (core c data).
Proof. intros Hwf. rewrite core_put by done. by apply fold_put_wf. Qed.

(** The early return changes nothing. *)
Lemma core_core_plain c data : wf_ctx c -> core c data = core_plain c data.
Proof. intros Hwf. by rewrite core_put, core_plain_put. Qed.

Lemma cores_core_plain c ds : wf_ctx c -> fold_left core_plain ds c = fold_left core ds c.
Proof.
  revert c. induction ds as [|d ds IH]; intros c Hwf; [done|]. cbn [fold_left].
  rewrite <- core_core_plain by done. apply IH. by apply core_wf.
Qed.

(** Chunking is irrelevant, down to the stale bytes of the buffer. *)
Lemma core_app c a b : wf_ctx c -> core (core c a) b = core c (a ++ b).
Proof.
  intros Hwf. rewrite !core_put by auto using core_wf. by rewrite fold_left_app.
Qed.

Lemma core_nil c : wf_ctx c -> core c [] = c.
Proof. intros Hwf. by rewrite core_put. Qed.

Lemma core_concat c ds :
  wf_ctx c -> fold_left core ds c = core c (concat ds).
Proof.
  revert c. induction ds as [|d ds IH]; intros c Hwf; simpl.
  - by rewrite core_nil.
  - by rewrite IH, core_app by auto using core_wf.
Qed.

(** ** The abstract state: blocks absorbed, bytes pending *)

Lemma take_blocks_app n msg x :
  (n * bs <= length msg)%nat -> take_blocks bs n (msg ++ x) = take_blocks bs n msg.
Proof.
  revert msg. induction n as [|n IH]; intros msg Hn; [done|]. simpl in *.
  rewrite take_app_le, drop_app_le by lia. f_equal. apply IH. rewrite length_drop. lia.
Qed.

Lemma take_blocks_snoc n msg :
  take_blocks bs (S n) msg = take_blocks bs n msg ++ [take bs (drop (n * bs) msg)].
Proof.
  revert msg. induction n as [|n IH]; intros msg; [done|].
  change (take bs msg :: take_blocks bs (S n) (drop bs msg) =
          (take bs msg :: take_blocks bs n (drop bs msg)) ++ [take bs (drop (S n * bs) msg)]).
  by rewrite IH, drop_drop.
Qed.

Lemma div_succ_fill n :
  S (n mod bs) = bs -> (S n / bs)%nat = S (n / bs) /\ (S n mod bs)%nat = 0%nat.
Proof.
  intros H. pose proof (Nat.div_mod_eq n bs).
  split; symmetry; [apply Nat.div_unique with 0%nat|apply Nat.mod_unique with (S (n / bs))]; nia.
Qed.

Lemma div_succ_short n :
  S (n mod bs) <> bs -> (S n / bs)%nat = (n / bs)%nat /\ (S n mod bs)%nat = S (n mod bs).
Proof.
  intros H. pose proof (Nat.div_mod_eq n bs). pose proof (Nat.mod_upper_bound n bs).
  split; symmetry; [apply Nat.div_unique with (S (n mod bs))|apply Nat.mod_unique with (n / bs)%nat]; nia.
Qed.

Lemma length_tail_bytes msg : length (tail_bytes bs msg) = (length msg mod bs)%nat.
Proof. unfold tail_bytes. rewrite length_drop. pose proof (Nat.div_mod_eq (length msg) bs). lia. Qed.

(** Adding a byte to a message either completes a block or extends the tail. *)
Lemma blocks_snoc_fill msg b :
  S (length msg mod bs) = bs ->
  blocks bs (msg ++ [b]) = blocks bs msg ++ [tail_bytes bs msg ++ [b]] /\
  tail_bytes bs (msg ++ [b]) = [].
Proof.
  intros H. unfold blocks, tail_bytes. rewrite length_app, Nat.add_1_r.
  destruct (div_succ_fill _ H) as [-> _].
  pose proof (Nat.div_mod_eq (length msg) bs). split.
  - rewrite take_blocks_snoc, take_blocks_app, drop_app_le by lia. do 2 f_equal.
    apply take_ge. rewrite length_app, length_drop. simpl. lia.
  - apply drop_ge. rewrite length_app. simpl. lia.
Qed.

Lemma blocks_snoc_short msg b :
  S (length msg mod bs) <> bs ->
  blocks bs (msg ++ [b]) = blocks bs msg /\
  tail_bytes bs (msg ++ [b]) = tail_bytes bs msg ++ [b].
Proof.
  intros H. unfold blocks, tail_bytes. rewrite length_app, Nat.add_1_r.
  destruct (div_succ_short _ H) as [-> _].
  pose proof (Nat.div_mod_eq (length msg) bs). split.
  - rewrite take_blocks_app by lia. done.
  - rewrite drop_app_le by lia. done.
Qed.

Lemma repr_wf s0 msg c : repr s0 msg c -> wf_ctx c.
Proof.
  intros (Hl & Hp & _ & _). split; [done|]. rewrite Hp. apply Nat.mod_upper_bound. lia.
Qed.

Lemma repr_init s0 b : (bs <= length b)%nat -> repr s0 [] (mk_ctx b 0 s0).
Proof.
  intros Hb. unfold repr, blocks, tail_bytes. simpl.
  rewrite Nat.Div0.mod_0_l, Nat.Div0.div_0_l by lia. auto.
Qed.

Lemma put_repr s0 msg c b : repr s0 msg c -> repr s0 (msg ++ [b]) (put c b).
Proof.
  intros Hr. pose proof (repr_wf _ _ _ Hr) as [Hl Hlt].
  destruct Hr as (_ & Hp & Ht & Hs). unfold put. rewrite Hp in *.
  assert (take (length msg mod bs + length [b]) (memcpy (buf c) (length msg mod bs) [b])
          = tail_bytes bs msg ++ [b]) as Hpre.
  { rewrite memcpy_prefix by lia. by rewrite Ht. }
  assert (bs <= length (memcpy (buf c) (length msg mod bs) [b]))%nat as Hl'.
  { rewrite length_memcpy; [done|]. simpl. lia. }
  unfold repr. rewrite length_app, Nat.add_1_r. simpl in Hpre. rewrite Nat.add_1_r in Hpre.
  case Nat.eqb_spec; intros He; cbn [buf ptr st].
  - destruct (blocks_snoc_fill msg b He) as [Hb Htl]. destruct (div_succ_fill _ He) as [_ ->].
    split_and!; [done|done|by rewrite Htl|].
    rewrite Hb, fold_left_app. simpl. rewrite <- Hs, <- Hpre. by rewrite He.
  - destruct (blocks_snoc_short msg b He) as [Hb Htl]. destruct (div_succ_short _ He) as [_ ->].
    split_and!; [done|done|by rewrite Htl|by rewrite Hb].
Qed.

Lemma core_repr s0 msg c data : repr s0 msg c -> repr s0 (msg ++ data) (core c data).
Proof.
  intros Hr. rewrite core_put by eauto using repr_wf. revert msg c Hr.
  induction data as [|b data IH]; intros msg c Hr; simpl; [by rewrite app_nil_r|].
  rewrite (cons_middle b msg data), app_assoc. auto using put_repr.
Qed.

(** A computation that starts with an empty buffer and receives the message in
    any chunks. *)
Lemma init_core_repr s0 b ds :
  (bs <= length b)%nat -> repr s0 (concat ds) (fold_left core ds (mk_ctx b 0 s0)).
Proof.
  intros Hb. pose proof (repr_init s0 b Hb) as Hr.
  rewrite core_concat by eauto using repr_wf. by apply (core_repr s0 []).
Qed.

Lemma init_core_plain_repr s0 b ds :
  (bs <= length b)%nat -> repr s0 (concat ds) (fold_left core_plain ds (mk_ctx b 0 s0)).
Proof.
  intros Hb. rewrite cores_core_plain by (eapply repr_wf; by apply repr_init). by apply init_core_repr.
Qed.

(** The buffer keeps its size. *)
Lemma core_length_buf c data : wf_ctx c -> length (buf (core c data)) = length (buf c).
Proof.
  intros Hwf. rewrite core_put by done. revert c Hwf.
  induction data as [|b data IH]; intros c Hwf; [done|]. rewrite fold_left_cons, IH by by apply put_wf.
  destruct Hwf as [Hl Hp]. unfold put.
  case Nat.eqb_spec; intros He; cbn [buf]; apply length_memcpy; simpl; lia.
Qed.

Lemma cores_length_buf s0 b ds :
  (bs <= length b)%nat -> length (buf (fold_left core ds (mk_ctx b 0 s0))) = length b.
Proof.
  intros Hb. pose proof (repr_wf _ _ _ (repr_init s0 b Hb)) as Hwf.
  by rewrite core_concat, core_length_buf.
Qed.

Lemma cores_plain_length_buf s0 b ds :
  (bs <= length b)%nat -> length (buf (fold_left core_plain ds (mk_ctx b 0 s0))) = length b.
Proof.
  intros Hb. rewrite cores_core_plain by (eapply repr_wf; by apply repr_init). by apply cores_length_buf.
Qed.

(** Data that completes the buffer exactly. *)
Lemma core_fill c data :
  wf_ctx c -> (ptr c + length data = bs)%nat ->
  core c data =
    mk_ctx (memcpy (buf c) (ptr c) data) 0 (absorb (st c) (take (ptr c) (buf c) ++ data)).
Proof.
  intros Hwf Hlen. rewrite core_put, fold_put_fill by done. cbv zeta. do 2 f_equal.
  destruct Hwf as [Hl Hp]. rewrite <- Hlen. apply memcpy_prefix. lia.
Qed.

(** ** Blocks of a concatenation *)

Lemma take_blocks_add n k msg :
  take_blocks bs (n + k) msg = take_blocks bs n msg ++ take_blocks bs k (drop (n * bs) msg).
Proof.
  revert msg. induction n as [|n IH]; intros msg; simpl; [done|].
  by rewrite IH, drop_drop.
Qed.

Lemma blocks_app msg x :
  blocks bs (msg ++ x) = blocks bs msg ++ blocks bs (tail_bytes bs msg ++ x).
Proof.
  unfold blocks. pose proof (Nat.div_mod_eq (length msg) bs).
  assert (length (msg ++ x) / bs =
          length msg / bs + length (tail_bytes bs msg ++ x) / bs)%nat as ->.
  { rewrite !length_app, length_tail_bytes.
    rewrite <- Nat.div_add_l by lia. f_equal. lia. }
  rewrite take_blocks_add, take_blocks_app by lia. do 2 f_equal.
  unfold tail_bytes. by rewrite drop_app_le by lia.
Qed.

Lemma blocks_one x : length x = bs -> blocks bs x = [x].
Proof.
  intros Hx. unfold blocks. rewrite Hx, Nat.div_same by lia. simpl.
  by rewrite take_ge by lia.
Qed.

Lemma blocks_two x y : length x = bs -> length y = bs -> blocks bs (x ++ y) = [x; y].
Proof.
  intros Hx Hy. rewrite blocks_app, blocks_one by done. unfold tail_bytes.
  rewrite Hx, Nat.div_same, drop_ge by lia. simpl. by rewrite blocks_one.
Qed.

(** Padding that completes the pending block. *)
Lemma repr_finish s0 msg c pad :
  repr s0 msg c -> (ptr c + length pad = bs)%nat ->
  absorb (st c) (take (ptr c) (buf c) ++ pad) = fold_left absorb (blocks bs (msg ++ pad)) s0.
Proof.
  intros (Hl & Hp & Ht & Hs) Hlen. rewrite blocks_app, fold_left_app, <- Hs, Ht.
  rewrite blocks_one; [done|]. rewrite length_app, length_tail_bytes. lia.
Qed.

(** Padding that completes the pending block and fills one more. *)
Lemma repr_finish2 s0 msg c pad1 pad2 :
  repr s0 msg c -> (ptr c + length pad1 = bs)%nat -> length pad2 = bs ->
  absorb (absorb (st c) (take (ptr c) (buf c) ++ pad1)) pad2 =
  fold_left absorb (blocks bs (msg ++ pad1 ++ pad2)) s0.
Proof.
  intros (Hl & Hp & Ht & Hs) Hlen Hlen2. rewrite blocks_app, fold_left_app, <- Hs, Ht, app_assoc.
  rewrite blocks_two; [done| |done]. rewrite length_app, length_tail_bytes. lia.
Qed.

Lemma length_blocks msg : length (blocks bs msg) = (length msg / bs)%nat.
Proof.
  unfold blocks. generalize (length msg / bs)%nat as n. intros n. revert msg.
  induction n as [|n IH]; intros msg; simpl; [done|]. by rewrite IH.
Qed.

Lemma blocks_length msg : Forall (fun b => length b = bs) (blocks bs msg).
Proof.
  unfold blocks. assert (length msg / bs * bs <= length msg)%nat as H.
  { rewrite Nat.mul_comm. apply Nat.Div0.mul_div_le. }
  revert H. generalize (length msg / bs)%nat as n. intros n. revert msg.
  induction n as [|n IH]; intros msg H; simpl in *; constructor.
  - rewrite length_take. lia.
  - apply IH. rewrite length_drop. lia.
Qed.

Lemma blocks_words w msg : words w msg -> Forall (Forall (word w)) (blocks bs msg).
Proof.
  unfold blocks. generalize (length msg / bs)%nat as n. intros n. revert msg.
  induction n as [|n IH]; intros msg H; simpl; constructor; auto with words.
Qed.

Lemma concat_take_blocks n msg :
  concat (take_blocks bs n msg) ++ drop (n * bs) msg = msg.
Proof.
  revert msg. induction n as [|n IH]; intros msg; simpl; [done|].
  rewrite <- app_assoc, <- drop_drop, IH. apply take_drop.
Qed.

Lemma concat_blocks msg : concat (blocks bs msg) ++ tail_bytes bs msg = msg.
Proof. apply concat_take_blocks. Qed.
End Stream.

(** ** Words of a block *)

Lemma dec32le_take l : sph_dec32le (take 4 l) = sph_dec32le l.
Proof. unfold sph_dec32le. by rewrite !nth_take by lia. Qed.
Lemma dec32be_take l : sph_dec32be (take 4 l) = sph_dec32be l.
Proof. unfold sph_dec32be. by rewrite !nth_take by lia. Qed.
Lemma dec64le_take l : sph_dec64le (take 8 l) = sph_dec64le l.
Proof. unfold sph_dec64le. by rewrite !nth_take by lia. Qed.
Lemma dec64be_take l : sph_dec64be (take 8 l) = sph_dec64be l.
Proof. unfold sph_dec64be. by rewrite !nth_take by lia. Qed.

(** Reading [m] words of [w] bytes at successive offsets. *)
Lemma dec_blocks (dec : list Z -> Z) w m blk :
  (forall l, dec (take w l) = dec l) ->
  (fun j => dec (drop (w * j) blk)) <$> seq 0 m = dec <$> take_blocks w m blk.
Proof.
  intros Hd. revert blk. induction m as [|m IH]; intros blk; [done|].
  cbn [take_blocks fmap list_fmap]. rewrite <- IH. cbn [seq fmap list_fmap]. f_equal.
  - rewrite Nat.mul_0_r. symmetry. apply Hd.
  - rewrite <- fmap_S_seq, <- list_fmap_compose. apply list_fmap_ext. intros _ j _. simpl.
    rewrite drop_drop. do 2 f_equal. lia.
Qed.

(** ** Padding *)

(** [p] bytes that start with the marker byte [mb] and end with the byte [f],
    zero in between; the two are one byte when there is room for one only. *)
Definition mid (p : nat) (mb f : Z) : list Z :=
  if (p =? 1)%nat then [mb .| f] else mb :: replicate (p - 2) 0 ++ [f].

Lemma length_mid p mb f : (0 < p)%nat -> length (mid p mb f) = p.
Proof.
  intros Hp. unfold mid. case Nat.eqb_spec; intros H; [by subst|].
  cbn [length]. rewrite length_app, length_replicate. simpl. lia.
Qed.

Lemma mid_pred p mb f :
  (1 < p)%nat -> mid p mb f = (mb :: replicate (p - 2) 0) ++ [f].
Proof. intros Hp. unfold mid. case Nat.eqb_spec; [lia|done]. Qed.

Lemma mid_split a b mb f :
  (0 < a)%nat -> mid (a + S b) mb f = mid a mb 0 ++ replicate b 0 ++ [f].
Proof.
  intros Ha. rewrite mid_pred by lia. destruct (decide (a = 1%nat)) as [->|Hne].
  - unfold mid. simpl. rewrite Z.lor_0_r, Nat.sub_0_r. done.
  - rewrite mid_pred by lia. replace (a + S b - 2)%nat with (a - 2 + S b)%nat by lia.
    rewrite replicate_add, <- !app_assoc. simpl. by rewrite <- app_assoc.
Qed.

(** A marker byte and zeros up to the end of the buffer. *)
Lemma mark_fill (u : list Z) p mb k :
  (p < length u)%nat -> k = (length u - S p)%nat ->
  memset (<[p := mb]> u) (S p) 0 k = take p u ++ mb :: replicate k 0.
Proof.
  intros Hp ->. unfold memset. rewrite insert_memcpy by done.
  replace (S p) with (p + length [mb])%nat by (simpl; lia).
  rewrite memcpy_memcpy by (rewrite ?length_replicate; simpl; lia).
  unfold memcpy. rewrite drop_ge; [|cbn [length app]; rewrite ?length_app, length_replicate; lia].
  by rewrite app_nil_r.
Qed.

(** The marker byte: the top [n] bits of [ub], then a one bit. *)
Definition mark_byte (ub n : Z) : Z :=
  let z := 0x80 >> n in uchar ((ub .& SPH_T32 (- z)) .| z).

(** ** Marker, zeros, length: the padding of most functions *)

(** A marker byte, zeros, and [tail] at the very end of a block: the pending
    block when it has room, one block more otherwise. *)
Definition md_pad (bs p : nat) (mb : Z) (tail : list Z) : list Z :=
  let room := (bs - length tail)%nat in
  mb :: replicate (if (p <? room)%nat then room - S p else bs + room - S p) 0 ++ tail.

(** The buffer when marker, zeros and tail have been written into it. *)
Lemma md_fill (u : list Z) p mb tail k o :
  (S p + length tail <= length u)%nat -> k = (length u - length tail - S p)%nat ->
  o = (length u - length tail)%nat ->
  memcpy (memset (<[p := mb]> u) (S p) 0 k) o tail = take p u ++ mb :: replicate k 0 ++ tail.
Proof.
  intros Hp -> ->. unfold memset. rewrite insert_memcpy by lia.
  replace (S p) with (p + length [mb])%nat by (simpl; lia).
  rewrite memcpy_memcpy by (rewrite ?length_replicate; simpl in *; lia).
  replace (length u - length tail)%nat with
    (p + length ([mb] ++ replicate (length u - length tail - (p + length [mb])) 0%Z))%nat at 2
    by (rewrite length_app, length_replicate; simpl in *; lia).
  rewrite memcpy_memcpy by (rewrite ?length_app, ?length_replicate; simpl in *; lia).
  unfold memcpy. rewrite drop_ge; [by rewrite app_nil_r, <- app_assoc|].
  rewrite ?length_app, ?length_replicate; simpl in *; lia.
Qed.

(** A block of zeros that ends in [tail]. *)
Lemma zero_fill (u tail : list Z) k o :
  (length tail <= length u)%nat -> k = (length u - length tail)%nat -> o = k ->
  memcpy (memset u 0 0 k) o tail = replicate k 0 ++ tail.
Proof.
  intros Ht -> ->. unfold memset.
  pose proof (memcpy_memcpy u 0 (replicate (length u - length tail) 0) tail) as H.
  rewrite length_replicate, Nat.add_0_l in H. rewrite H by lia. apply memcpy_all.
  rewrite length_app, length_replicate. lia.
Qed.

Section MD.
Context {St : Type} (bs : nat) (absorb : St -> list Z -> St) (Hbs : (0 < bs)%nat).
Context (s0 : St) (msg : list Z) (sc : stream_ctx St) (Hr : repr bs absorb s0 msg sc).
Context (mb : Z) (tail : list Z) (Htl : (length tail < bs)%nat).
Let p := ptr sc.
Let room := (bs - length tail)%nat.
Let result := fold_left absorb (blocks bs (msg ++ md_pad bs (length msg mod bs) mb tail)) s0.

Local Lemma ptr_msg : p = (length msg mod bs)%nat /\ (p < bs)%nat.
Proof.
  pose proof (proj1 (proj2 Hr)) as Hp. unfold p. split; [done|].
  rewrite Hp. apply Nat.mod_upper_bound. lia.
Qed.

Lemma md_close_one :
  (p < room)%nat ->
  absorb (st sc) (take p (buf sc) ++ mb :: replicate (room - S p) 0 ++ tail) = result.
Proof.
  intros Hlt. destruct ptr_msg as [Hp Hb]. unfold result, md_pad. rewrite <- Hp. fold room.
  destruct (Nat.ltb_spec p room); [|lia]. apply (repr_finish bs absorb Hbs s0 msg sc _ Hr).
  cbn [length]. rewrite length_app, length_replicate. unfold room, p in *. lia.
Qed.

Lemma md_close_two :
  (room <= p)%nat ->
  absorb (absorb (st sc) (take p (buf sc) ++ mb :: replicate (bs - S p) 0)) (replicate room 0 ++ tail)
  = result.
Proof.
  intros Hge. destruct ptr_msg as [Hp Hb]. unfold result, md_pad. rewrite <- Hp. fold room.
  destruct (Nat.ltb_spec p room); [lia|].
  replace (bs + room - S p)%nat with (bs - S p + room)%nat by lia.
  rewrite replicate_add, <- app_assoc, app_comm_cons.
  apply (repr_finish2 bs absorb Hbs s0 msg sc (mb :: replicate (bs - S p) 0)); [exact Hr|..].
  - cbn [length]. rewrite length_replicate. unfold p in *. lia.
  - rewrite length_app, length_replicate. unfold room. lia.
Qed.
End MD.

(** ** Main results *)

(** C40. The input loop that the hash functions share.  For a well-formed
    context, any fuel of at least the number of input bytes lets the loop run
    to its end, and the result is that of handing over the bytes one at a time;
    the early return for short inputs changes nothing; splitting an input into
    chunks changes nothing, down to the stale bytes of the buffer; and the
    context stays well-formed. *)
Theorem stream_loop_refines {St : Type} (bs : nat) (absorb : St -> list Z -> St)
    (c : stream_ctx St) (fuel : nat) (data : list Z) (ds : list (list Z)) :
  (0 < bs)%nat -> wf_ctx bs c -> (length data <= fuel)%nat ->
  core_loop bs absorb fuel c data = fold_left (put bs absorb) data c /\
  core bs absorb c data = core_plain bs absorb c data /\
  core_plain bs absorb c data = fold_left (put bs absorb) data c /\
  fold_left (core bs absorb) ds c = core bs absorb c (concat ds) /\
  wf_ctx bs (core bs absorb c data).
Proof.
  intros Hbs Hwf Hf. split_and!.
  - by apply core_loop_put.
  - by apply core_core_plain.
  - by apply core_plain_put.
  - by apply core_concat.
  - by apply core_wf.
Qed.

Lemma stream_loop_refines_witness :
  let absorb := fun (s : list (list Z)) blk => s ++ [blk] in
  let c := mk_ctx [9; 9; 9; 9] 1 [] in
  core 4 absorb c [1; 2; 3; 4; 5; 6; 7; 8] = mk_ctx [8; 5; 6; 7] 1%nat [[9; 1; 2; 3]; [4; 5; 6; 7]] /\
  core_loop 4 absorb 20 c [1; 2; 3; 4; 5; 6; 7; 8] = fold_left (put 4 absorb) [1; 2; 3; 4; 5; 6; 7; 8] c.
Proof.
  cbv zeta. split.
  - pose proof (stream_loop_refines 4 (fun (s : list (list Z)) blk => s ++ [blk])
      (mk_ctx [9; 9; 9; 9] 1%nat []) 8 [1; 2; 3; 4; 5; 6; 7; 8] []) as H.
    destruct H as (_ & -> & -> & _); [lia| |simpl; lia|reflexivity].
    split; simpl; lia.
  - apply (stream_loop_refines 4 (fun (s : list (list Z)) blk => s ++ [blk])
      (mk_ctx [9; 9; 9; 9] 1%nat []) 20 _ []); [lia|split; simpl; lia|simpl; lia].
Defined.

(** The state invariant of a running hash computation: after any sequence
    of update calls on a freshly initialised context, the fill level is the
    message length modulo the block size (so no block is processed late), the
    buffer starts with the bytes after the last full block, and the chaining
    data is the fold of the block function over the message's full blocks. *)
Theorem stream_invariant {St : Type} (bs : nat) (absorb : St -> list Z -> St)
    (s0 : St) (b : list Z) (ds : list (list Z)) :
  (0 < bs)%nat -> (bs <= length b)%nat ->
  let c := fold_left (core bs absorb) ds (mk_ctx b 0 s0) in
  let msg := concat ds in
  ptr c = (length msg mod bs)%nat /\ (ptr c < bs)%nat /\ length (buf c) = length b /\
  take (ptr c) (buf c) = tail_bytes bs msg /\
  st c = fold_left absorb (blocks bs msg) s0 /\
  concat (blocks bs msg) ++ tail_bytes bs msg = msg.
Proof.
  intros Hbs Hb. cbv zeta. pose proof (init_core_repr bs absorb Hbs s0 b ds Hb) as Hr.
  pose proof (repr_wf bs absorb Hbs s0 _ _ Hr) as [_ Hlt]. destruct Hr as (_ & Hp & Ht & Hs).
  split_and!; try done; [by apply cores_length_buf|]. apply concat_blocks.
Qed.

Lemma stream_invariant_witness :
  let c := fold_left (core 2 (fun (s : list (list Z)) blk => s ++ [blk])) [[1]; [2; 3; 4]; [5]]
             (mk_ctx [0; 0] 0 []) in
  ptr c = 1%nat /\ st c = [[1; 2]; [3; 4]].
Proof.
  cbv zeta.
  destruct (stream_invariant 2 (fun (s : list (list Z)) blk => s ++ [blk]) [] [0; 0]
    [[1]; [2; 3; 4]; [5]] ltac:(lia) ltac:(simpl; lia)) as (Hp & _ & _ & _ & Hs & _).
  rewrite Hp, Hs. split; reflexivity.
Defined.
