(* ===== verification/Gf2.v ===== *)
(** * Linear maps over GF(2)

    Words as vectors of bits, maps that commute with exclusive or, and a
    computed inverse: Gaussian elimination proposes a table, a check on the
    basis vectors is enough to trust it. *)

From Stdlib Require Import ZArith Lia Btauto.
From stdpp Require Import base tactics numbers list.
From S2P Require Import Prelude.

(** [f] commutes with exclusive or on words of [w] bits. *)
Definition xlinear (w : Z) (f : Z -> Z) : Prop :=
  forall x y, word w x -> word w y -> f (x ⊕ y) = f x ⊕ f y.

Lemma xlinear_0 w f : 0 <= w -> xlinear w f -> f 0 = 0.
Proof.
  intros Hw H. assert (word w 0) as H0 by (unfold word; lia).
  specialize (H 0 0 H0 H0). rewrite Z.lxor_nilpotent in H.
  rewrite H at 1. apply Z.lxor_nilpotent.
Qed.

Lemma xlinear_lxor w f g : xlinear w f -> xlinear w g -> xlinear w (fun x => f x ⊕ g x).
Proof.
  intros Hf Hg x y Hx Hy. rewrite Hf, Hg by done. bits_intro i Hi. rewrite !Z.lxor_spec. btauto.
Qed.

Lemma xlinear_id w : xlinear w (fun x => x).
Proof. by intros x y. Qed.

Lemma xlinear_shiftr w n : xlinear w (fun x => x >> n).
Proof. intros x y _ _. apply Z.shiftr_lxor. Qed.

Lemma xlinear_compose w f g :
  (forall x, word w x -> word w (f x)) -> xlinear w f -> xlinear w g -> xlinear w (fun x => g (f x)).
Proof. intros Hw Hf Hg x y Hx Hy. rewrite Hf by done. apply Hg; auto. Qed.

(** The top bit of a word split off. *)
Lemma word_split n x :
  0 <= n -> word (n + 1) x ->
  exists y (b : bool), x = y ⊕ (if b then 2 ^ n else 0) /\ word n y.
Proof.
  intros Hn Hx. exists (x .& Z.ones n), (Z.testbit x n).
  split; [|rewrite Z.land_ones by lia; apply Z.mod_pos_bound; lia].
  bits_intro i Hi. rewrite Z.lxor_spec, Z.land_spec.
  assert (Z.testbit (if Z.testbit x n then 2 ^ n else 0) i = Z.testbit x n && (i =? n)) as ->.
  { destruct (Z.testbit x n); [rewrite Z.pow2_bits_eqb by lia; apply Z.eqb_sym|apply Z.bits_0]. }
  rewrite Z.testbit_ones_nonneg by lia.
  destruct (Z.ltb_spec i n), (Z.eqb_spec i n); subst; try lia; try btauto.
  rewrite (word_bit_high (n + 1) x) by (done || lia). btauto.
Qed.

(** Maps that agree on the basis agree. *)
Lemma xlinear_ext w f g :
  0 <= w -> xlinear w f -> xlinear w g ->
  (forall i, 0 <= i < w -> f (2 ^ i) = g (2 ^ i)) ->
  forall x, word w x -> f x = g x.
Proof.
  intros Hw Hf Hg Hb.
  assert (forall n, 0 <= n -> n <= w -> forall x, word n x -> f x = g x) as H; [|by apply H; lia].
  intros n Hn. pattern n. apply natlike_ind; [| |exact Hn]; clear n Hn.
  - intros _ x Hx. assert (x = 0) as -> by (unfold word in Hx; lia).
    by rewrite (xlinear_0 w f), (xlinear_0 w g).
  - intros n Hn IH Hle x Hx. rewrite <- Z.add_1_r in Hx.
    destruct (word_split n x Hn Hx) as (y & b & -> & Hy).
    assert (word w y) as Hy' by (eapply word_weaken; [done|lia]).
    assert (word w (if b then 2 ^ n else 0)) as Hp.
    { destruct b; (split; [lia|]); [apply Z.pow_lt_mono_r; lia|lia]. }
    rewrite Hf, Hg by done. f_equal; [apply IH; [lia|done]|].
    destruct b; [apply Hb; lia|]. by rewrite (xlinear_0 w f), (xlinear_0 w g).
Qed.

(** ** A map given by the images of the basis *)

Definition apply_table (tab : list Z) (x : Z) : Z :=
  fold_left (fun a i => if Z.testbit x (Z.of_nat i) then a ⊕ tab.[i] else a) (seq 0 (length tab)) 0.

Lemma fold_table_lxor tab x y l a b :
  let F x := fold_left (fun a i => if Z.testbit x (Z.of_nat i) then a ⊕ tab.[i] else a) l in
  F (x ⊕ y) (a ⊕ b) = F x a ⊕ F y b.
Proof.
  cbv zeta. revert a b. induction l as [|i l IH]; intros a b; [done|].
  rewrite !fold_left_cons, Z.lxor_spec. rewrite <- IH. f_equal.
  destruct (Z.testbit x (Z.of_nat i)), (Z.testbit y (Z.of_nat i)); cbn [xorb];
    bits_intro k Hk; rewrite !Z.lxor_spec; btauto.
Qed.

Lemma apply_table_linear w tab : xlinear w (apply_table tab).
Proof. intros x y _ _. exact (fold_table_lxor tab x y _ 0 0). Qed.

(** One elimination step on pairs of an image and its preimage. *)
Definition eliminate (b : Z) (st : list (Z * Z) * list (Z * Z)) : list (Z * Z) * list (Z * Z) :=
  let '(todo, done) := st in
  let has (r : Z * Z) := Z.testbit (fst r) b in
  match filter (fun r => has r = true) todo with
  | [] => st
  | piv :: rest =>
      let red (r : Z * Z) := if has r then (fst r ⊕ fst piv, snd r ⊕ snd piv) else r in
      (fmap red (rest ++ filter (fun r => has r = false) todo), fmap red done ++ [piv])
  end.

(** The preimages of [2 ^ 0], [2 ^ 1], ..., if elimination succeeds. *)
Definition invert (w : nat) (f : Z -> Z) : list Z :=
  let basis := (fun i => (f (2 ^ Z.of_nat i), 2 ^ Z.of_nat i)) <$> seq 0 w in
  snd <$> snd (fold_left (fun st i => eliminate (Z.of_nat i) st) (seq 0 w) (basis, [])).

Definition left_inverse_check (w : nat) (f : Z -> Z) (tab : list Z) : bool :=
  forallb (fun i => apply_table tab (f (2 ^ Z.of_nat i)) =? 2 ^ Z.of_nat i) (seq 0 w).

Lemma left_inverse w f tab :
  xlinear (Z.of_nat w) f -> (forall x, word (Z.of_nat w) x -> word (Z.of_nat w) (f x)) ->
  left_inverse_check w f tab = true ->
  forall x, word (Z.of_nat w) x -> apply_table tab (f x) = x.
Proof.
  intros Hf Hw Hc. apply (xlinear_ext (Z.of_nat w) (fun x => apply_table tab (f x)) (fun x => x)).
  - lia.
  - apply xlinear_compose; [done|done|]. apply apply_table_linear.
  - apply xlinear_id.
  - intros i Hi. unfold left_inverse_check in Hc. rewrite forallb_forall in Hc.
    specialize (Hc (Z.to_nat i)). rewrite Z2Nat.id in Hc by lia.
    apply Z.eqb_eq, Hc, in_seq. lia.
Qed.

(** A linear map whose computed inverse passes the check has no collisions. *)
Lemma xlinear_inj w f :
  xlinear (Z.of_nat w) f -> (forall x, word (Z.of_nat w) x -> word (Z.of_nat w) (f x)) ->
  left_inverse_check w f (invert w f) = true -> inj_on (word (Z.of_nat w)) f.
Proof.
  intros Hf Hw Hc. split; [done|]. intros x y Hx Hy E.
  by rewrite <- (left_inverse w f _ Hf Hw Hc x Hx), E, (left_inverse w f _ Hf Hw Hc y Hy).
Qed.
