(* ===== verification/Bitslice.v ===== *)
(** * Bitsliced substitution boxes

    Four words hold one 4-bit element per bit position.  A function on the words
    that applies a permutation of the 16 elements at every position is a
    permutation of the words. *)

From Stdlib Require Import ZArith Lia Btauto.
From stdpp Require Import base tactics numbers list.
From S2P Require Import Prelude.

(** The element at bit position [i] of four words, most significant first. *)
Definition nibble_of (b : bool * bool * bool * bool) : Z :=
  let '(b0, b1, b2, b3) := b in 8 * Z.b2z b0 + 4 * Z.b2z b1 + 2 * Z.b2z b2 + Z.b2z b3.
Definition nibble (x : list Z) (o : nat) (i : Z) : Z :=
  nibble_of (Z.testbit x.[o] i, Z.testbit x.[o + 1] i, Z.testbit x.[o + 2] i, Z.testbit x.[o + 3] i).

Ltac destruct4 V H :=
  do 4 (destruct V as [|? V]; [discriminate H|]); destruct V; [clear H|discriminate H].

Lemma nibble_of_inj b b' : nibble_of b = nibble_of b' -> b = b'.
Proof.
  destruct b as [[[[] []] []] []], b' as [[[[] []] []] []]; cbn; (reflexivity || lia).
Qed.

Lemma nibble_range x o i : 0 <= nibble x o i < 16.
Proof.
  unfold nibble, nibble_of.
  destruct (Z.testbit x.[o] i), (Z.testbit x.[o + 1] i), (Z.testbit x.[o + 2] i),
    (Z.testbit x.[o + 3] i); cbn; lia.
Qed.

(** Four words are their elements. *)
Lemma nibbles_eq w x y :
  0 <= w -> wf_arr w 4 x -> wf_arr w 4 y ->
  (forall i, 0 <= i < w -> nibble x 0 i = nibble y 0 i) -> x = y.
Proof.
  intros Hw [Hx Wx] [Hy Wy] H. destruct4 x Hx. destruct4 y Hy.
  repeat match goal with H : words _ (_ :: _) |- _ => apply Forall_cons in H as [? H] end.
  assert (forall i, 0 <= i < w -> Z.testbit z i = Z.testbit z3 i /\ Z.testbit z0 i = Z.testbit z4 i /\
    Z.testbit z1 i = Z.testbit z5 i /\ Z.testbit z2 i = Z.testbit z6 i) as Hb.
  { intros i Hi. pose proof (nibble_of_inj _ _ (H i Hi)) as E. cbn in E. by simplify_eq. }
  repeat (apply (f_equal2 cons); [apply (word_eq w); [done..|]; intros i Hi; by apply Hb|]).
  reflexivity.
Qed.

(** A table of 16 different entries. *)
Definition sbox_ok (S : list Z) : bool := (length S =? 16)%nat && nodupb (Z.to_nat <$> S) &&
  forallb (fun x => 0 <=? x) S.

Lemma sbox_ok_inj S x y :
  sbox_ok S = true -> 0 <= x < 16 -> 0 <= y < 16 ->
  S.[Z.to_nat x] = S.[Z.to_nat y] -> x = y.
Proof.
  unfold sbox_ok. rewrite !andb_true_iff, Nat.eqb_eq. intros [[HL Hn%nodupb_NoDup] _] Hx Hy E.
  assert (Z.to_nat x = Z.to_nat y) as E'; [|lia].
  eapply (NoDup_lookup _ _ _ (Z.to_nat S.[Z.to_nat x])); [exact Hn|..]; rewrite list_lookup_fmap.
  - destruct (lookup_lt_is_Some_2 S (Z.to_nat x)) as [v Hv]; [lia|]. by rewrite nth_lookup, Hv.
  - rewrite E. destruct (lookup_lt_is_Some_2 S (Z.to_nat y)) as [v Hv]; [lia|].
    by rewrite nth_lookup, Hv.
Qed.

(** [p] is the order of the words within an element. *)
Lemma bitslice_inj w F (S : Z -> list Z) p :
  0 <= w -> (forall x, wf_arr w 4 x -> wf_arr w 4 (F x)) ->
  (forall i, sbox_ok (S i) = true) ->
  (forall x y, wf_arr w 4 x -> wf_arr w 4 y -> sel p x = sel p y -> x = y) -> length p = 4%nat ->
  (forall x i, 0 <= i < w -> nibble (sel p (F x)) 0 i = (S i).[Z.to_nat (nibble (sel p x) 0 i)]) ->
  inj_on (wf_arr w 4) F.
Proof.
  intros Hw HF HS Hp Hl HN. split; [done|]. intros x y Hx Hy E. apply Hp; [done..|].
  assert (forall z, wf_arr w 4 z -> wf_arr w 4 (sel p z)) as Hsel.
  { intros z Hz. rewrite <- Hl. by apply (wf_arr_sel w 4). }
  apply (nibbles_eq w); [done|by apply Hsel..|]. intros i Hi.
  apply (sbox_ok_inj (S i)); [done|apply nibble_range..|].
  by rewrite <- !HN, E.
Qed.
