(* ===== verification/Gf256.v ===== *)
(** * Arithmetic of GF(2^8), the AES S-box and table-driven mixing

    The reference arithmetic behind the tables of [aes_helper.c], [groestl.c]
    and [fugue.c]: multiplication modulo x^8 + x^4 + x^3 + x + 1, the S-box as
    inversion followed by the affine map, and the product of a matrix with a
    column of bytes.  The lemma [mix_by_tables] is the one all table-driven
    rounds rest on: an exclusive or of table entries, one per byte of a column,
    is the matrix applied to the substituted column. *)

From Stdlib Require Import ZArith Lia Btauto.
From stdpp Require Import base tactics numbers list.
From S2P Require Import Prelude SphTypes Gf2.

(** ** The field *)

Definition xtime (x : Z) : Z := uchar (x << 1) ⊕ (if Z.testbit x 7 then 0x1B else 0).

(** Multiplication by a constant, by its binary digits. *)
Fixpoint pmul (p : positive) (x : Z) : Z :=
  match p with
  | xH => x
  | xO p => xtime (pmul p x)
  | xI p => xtime (pmul p x) ⊕ x
  end.
Definition gmul (c x : Z) : Z :=
  match c with
  | Zpos p => pmul p x
  | _ => 0
  end.

(** [x ^ 254], the inverse of [x], and 0 for 0. *)
Definition ginv (x : Z) : Z :=
  let sq y := gmul y y in
  let x2 := sq x in
  let x4 := sq x2 in
  let x8 := sq x4 in
  let x16 := sq x8 in
  let x32 := sq x16 in
  let x64 := sq x32 in
  let x128 := sq x64 in
  gmul x2 (gmul x4 (gmul x8 (gmul x16 (gmul x32 (gmul x64 x128))))).

(** The affine map of the S-box: the sum of five rotations and a constant. *)
Definition rotl8 (x n : Z) : Z := uchar ((x << n) .| (x >> (8 - n))).
Definition affine (x : Z) : Z :=
  x ⊕ rotl8 x 1 ⊕ rotl8 x 2 ⊕ rotl8 x 3 ⊕ rotl8 x 4 ⊕ 0x63.

Definition sbox : list Z :=
  Eval vm_compute in (fun i => affine (ginv (Z.of_nat i))) <$> seq 0 256.
(** A look-up [T[x]] in a table. *)
Definition tab_at (T : list Z) (x : Z) : Z := T.[Z.to_nat x].
Definition S_box : Z -> Z := tab_at sbox.

(** ** Matrices over the field *)

Definition lxor_all (l : list Z) : Z := foldr Z.lxor 0 l.
Definition dot (row v : list Z) : Z := lxor_all (zip_with gmul row v).
Definition mix (M : list (list Z)) (v : list Z) : list Z := (fun row => dot row v) <$> M.

(** The circulant matrix of a row. *)
Definition rotate_r (l : list Z) : list Z :=
  match rev l with
  | [] => []
  | x :: r => x :: rev r
  end.
Fixpoint circ_rows (n : nat) (l : list Z) : list (list Z) :=
  match n with
  | O => []
  | S n => l :: circ_rows n (rotate_r l)
  end.
Definition circ (l : list Z) : list (list Z) := circ_rows (length l) l.

Lemma lxor_all_word w l : 0 <= w -> words w l -> word w (lxor_all l).
Proof.
  intros Hw. induction 1 as [|x l Hx Hl IH]; [unfold word; cbn; lia|]. by apply word_lxor.
Qed.

Lemma words_check (w : Z) (T : list Z) :
  forallb (fun x => (0 <=? x) && (x <? 2 ^ w)) T = true -> words w T.
Proof.
  intros H. apply Forall_forall. intros x Hx%list_elem_of_In. rewrite forallb_forall in H.
  specialize (H x Hx). unfold word. lia.
Qed.

(** ** Bytes of a word *)

Definition le_bytes (n : nat) (v : Z) : list Z :=
  (fun i => uchar (v >> (8 * Z.of_nat i))) <$> seq 0 n.

Lemma length_le_bytes n v : length (le_bytes n v) = n.
Proof. unfold le_bytes. by rewrite length_fmap, length_seq. Qed.

Lemma le_bytes_words n v : words 8 (le_bytes n v).
Proof. apply Forall_fmap, Forall_true. intros i. apply uchar_word. Qed.

Lemma nth_fmap_seq {A} (f : nat -> A) d n i : (i < n)%nat -> nth i (f <$> seq 0 n) d = f i.
Proof. intros Hi. by rewrite nth_lookup, list_lookup_fmap, lookup_seq_lt by lia. Qed.

Lemma nth_le_bytes n v i : (i < n)%nat -> (le_bytes n v).[i] = uchar (v >> (8 * Z.of_nat i)).
Proof. intros. unfold le_bytes. by rewrite nth_fmap_seq. Qed.

Lemma enc64le_bytes v : sph_enc64le v = le_bytes 8 v.
Proof. unfold sph_enc64le, le_bytes. cbn [seq fmap list_fmap]. by rewrite Z.shiftr_0_r. Qed.
Lemma enc32le_bytes v : sph_enc32le v = le_bytes 4 v.
Proof. unfold sph_enc32le, le_bytes. cbn [seq fmap list_fmap]. by rewrite Z.shiftr_0_r. Qed.

Lemma uchar_lxor x y : uchar (x ⊕ y) = uchar x ⊕ uchar y.
Proof. apply wT_lxor. Qed.

Lemma le_bytes_lxor n x y : le_bytes n (x ⊕ y) = lxor_list (le_bytes n x) (le_bytes n y).
Proof.
  unfold le_bytes. generalize (seq 0 n) as l. induction l as [|i l IH]; [done|].
  cbn [fmap list_fmap zip_with]. rewrite Z.shiftr_lxor, uchar_lxor. by f_equal.
Qed.

(** Words of [8 * n] bits with the same bytes are equal. *)
Lemma le_bytes_inj n x y :
  word (8 * Z.of_nat n) x -> word (8 * Z.of_nat n) y -> le_bytes n x = le_bytes n y -> x = y.
Proof.
  intros Hx Hy E. apply (word_eq (8 * Z.of_nat n)); [done..|]. intros i Hi.
  set (k := Z.to_nat (i / 8)).
  assert (8 * Z.of_nat k <= i < 8 * Z.of_nat k + 8) as Hk.
  { unfold k. rewrite Z2Nat.id by (apply Z.div_pos; lia). pose proof (Z.div_mod i 8).
    pose proof (Z.mod_pos_bound i 8). lia. }
  assert (k < n)%nat as Hkn by lia.
  assert ((le_bytes n x).[k] = (le_bytes n y).[k]) as Eb by by rewrite E.
  rewrite !nth_le_bytes in Eb by done.
  assert (forall v, Z.testbit v i = Z.testbit (uchar (v >> (8 * Z.of_nat k))) (i - 8 * Z.of_nat k)) as Hb.
  { intros v. rewrite uchar_bit, Z.shiftr_spec by lia. f_equal. lia. }
  by rewrite (Hb x), (Hb y), Eb.
Qed.

(** ** Rounds driven by tables *)

(** Entry [x] of table [T] holds column [k] of the matrix times [S_box x]. *)
Definition table_ok (n : nat) (M : list (list Z)) (k : nat) (T : list Z) : bool :=
  forallb (fun x => list_eqb (le_bytes n T.[x]) ((fun row => gmul row.[k] sbox.[x]) <$> M)) (seq 0 256).

Lemma table_ok_nth n M k T x i :
  table_ok n M k T = true -> word 8 x -> (i < n)%nat -> length M = n ->
  uchar (tab_at T x >> (8 * Z.of_nat i)) = gmul (nth i M []).[k] (S_box x).
Proof.
  unfold table_ok. rewrite forallb_forall. intros H Hx Hi HM. unfold word in Hx.
  specialize (H (Z.to_nat x)). rewrite in_seq in H. specialize (H ltac:(lia)).
  apply list_eqb_eq in H. unfold tab_at. rewrite <- (nth_le_bytes n) by done. rewrite H.
  set (f := fun row : list Z => gmul row.[k] (S_box x)).
  rewrite (nth_indep _ 0 (f [])) by (rewrite length_fmap; lia). exact (map_nth f M [] i).
Qed.

Lemma uchar_lxor_all l s :
  uchar (lxor_all l >> s) = lxor_all ((fun t => uchar (t >> s)) <$> l).
Proof.
  induction l as [|t l IH]; cbn; [by rewrite Z.shiftr_0_l|].
  rewrite Z.shiftr_lxor, uchar_lxor. by f_equal.
Qed.

Lemma list_nth_seq {A} (d : A) l : l = (fun k => nth k l d) <$> seq 0 (length l).
Proof.
  induction l as [|x l IH]; [done|]. cbn [length seq fmap list_fmap nth]. f_equal.
  rewrite <- fmap_S_seq, <- list_fmap_compose. exact IH.
Qed.

Lemma zip_with_seq (g : Z -> Z -> Z) u v n :
  length u = n -> length v = n -> zip_with g u v = (fun k => g u.[k] v.[k]) <$> seq 0 n.
Proof.
  intros <-. revert v. induction u as [|x u IH]; intros [|y v] Hv; try done.
  cbn [length seq fmap list_fmap nth zip_with]. f_equal. rewrite IH by (simpl in Hv; lia).
  by rewrite <- fmap_S_seq, <- list_fmap_compose.
Qed.

(** The exclusive or of one table entry per byte is the matrix applied to the
    substituted column. *)
Lemma mix_by_tables n M Ts col :
  length M = n -> Forall (fun row => length row = n) M -> length Ts = n ->
  (forall k, (k < n)%nat -> table_ok n M k (nth k Ts []) = true) ->
  length col = n -> words 8 col ->
  le_bytes n (lxor_all ((fun k => tab_at (nth k Ts []) col.[k]) <$> seq 0 n)) =
  mix M (S_box <$> col).
Proof.
  intros HM HR HT Hok Hc Hw. unfold le_bytes, mix.
  pose proof (list_nth_seq [] M) as EM. rewrite HM in EM.
  rewrite EM at 1. rewrite <- list_fmap_compose. apply list_fmap_ext. intros i0 i Hi.
  apply list_elem_of_lookup_2, elem_of_seq in Hi. cbn [compose]. unfold dot.
  rewrite uchar_lxor_all, <- list_fmap_compose. f_equal.
  rewrite (zip_with_seq gmul _ _ n).
  - apply list_fmap_ext. intros k0 k Hk. apply list_elem_of_lookup_2, elem_of_seq in Hk. cbn [compose].
    rewrite (table_ok_nth n M k) by (auto with lia || apply words_nth; (done || lia)). f_equal.
    rewrite (nth_indep (S_box <$> col) 0 (S_box 0)) by (rewrite length_fmap; lia).
    symmetry. exact (map_nth S_box col 0 k).
  - rewrite Forall_forall in HR. apply HR, list_elem_of_In, nth_In. lia.
  - by rewrite length_fmap.
Qed.

(** Identities of exclusive or, bit by bit. *)
Ltac lxor_btauto := apply Z.bits_inj; intros ?; rewrite ?Z.lxor_spec, ?Z.bits_0; btauto.

(** ** Doubling all bytes of a word at once *)

(** A word whose bits are all at multiples of 8 can be multiplied by 27 without carries. *)
Lemma mul27_lxor m :
  (forall i, 0 <= i -> Z.testbit m i = true -> i mod 8 = 0) ->
  m * 27 = m ⊕ (m << 1) ⊕ (m << 3) ⊕ (m << 4).
Proof.
  intros Hm.
  assert (forall i d, 0 < d < 8 -> Z.testbit m i && Z.testbit m (i - d) = false) as Hx.
  { intros i d Hd. destruct (Z.testbit m i) eqn:Ei, (Z.testbit m (i - d)) eqn:Ej; try done. exfalso.
    destruct (Z.neg_nonneg_cases i); [by rewrite Z.testbit_neg_r in Ei|].
    destruct (Z.neg_nonneg_cases (i - d)); [by rewrite Z.testbit_neg_r in Ej|].
    apply Hm in Ei, Ej; try done. Z.to_euclidean_division_equations. lia. }
  rewrite <- !Z.add_nocarry_lxor.
  1: rewrite !Z.shiftl_mul_pow2 by lia; lia.
  all: rewrite ?Z.add_nocarry_lxor;
    (apply Z.bits_inj'; intros i Hi; rewrite ?Z.land_spec, ?Z.lxor_spec, ?Z.land_spec, ?Z.shiftl_spec, Z.bits_0 by lia;
     pose proof (Hx i 1 ltac:(lia)) as H01; pose proof (Hx i 3 ltac:(lia)) as H03;
     pose proof (Hx i 4 ltac:(lia)) as H04; pose proof (Hx (i - 1) 2 ltac:(lia)) as H13;
     pose proof (Hx (i - 1) 3 ltac:(lia)) as H14; pose proof (Hx (i - 3) 1 ltac:(lia)) as H34;
     replace (i - 1 - 2) with (i - 3) in * by lia; replace (i - 1 - 3) with (i - 4) in * by lia;
     replace (i - 3 - 1) with (i - 4) in * by lia;
     revert H01 H03 H04 H13 H14 H34;
     destruct (Z.testbit m i), (Z.testbit m (i - 1)), (Z.testbit m (i - 3)), (Z.testbit m (i - 4)); done).
Qed.

Section Swar.
(** The masks of the top bits and of the other bits of the [n] bytes. *)
Context (n : nat) (hi lo : Z).
Let w : Z := 8 * Z.of_nat n.
Context (Hhi : forallb (fun i => Bool.eqb (Z.testbit hi (Z.of_nat i)) (i mod 8 =? 7)%nat) (seq 0 (8 * n)) = true).
Context (Hlo : forallb (fun i => Bool.eqb (Z.testbit lo (Z.of_nat i)) (negb (i mod 8 =? 7)%nat)) (seq 0 (8 * n)) = true).

Definition swar (x : Z) : Z := (((x .& hi) >> 7) * 27) mod 2 ^ w ⊕ ((x .& lo) << 1).

Lemma mask_bit f msk i :
  forallb (fun i => Bool.eqb (Z.testbit msk (Z.of_nat i)) (f i)) (seq 0 (8 * n)) = true ->
  0 <= i < w -> Z.testbit msk i = f (Z.to_nat i).
Proof.
  intros H Hi. rewrite forallb_forall in H. specialize (H (Z.to_nat i)). rewrite in_seq in H.
  unfold w in Hi. specialize (H ltac:(lia)). apply Bool.eqb_prop in H. by rewrite Z2Nat.id in H by lia.
Qed.

Lemma mod8_nat i : 0 <= i -> Z.of_nat (Z.to_nat i mod 8) = i mod 8.
Proof. intros Hi. rewrite Nat2Z.inj_mod, Z2Nat.id by lia. done. Qed.

Lemma hi_bit i : 0 <= i < w -> Z.testbit hi i = (i mod 8 =? 7).
Proof.
  intros Hi. rewrite (mask_bit _ _ _ Hhi Hi). pose proof (mod8_nat i ltac:(lia)).
  destruct (Nat.eqb_spec (Z.to_nat i mod 8) 7), (Z.eqb_spec (i mod 8) 7); (done || lia).
Qed.
Lemma lo_bit i : 0 <= i < w -> Z.testbit lo i = negb (i mod 8 =? 7).
Proof.
  intros Hi. rewrite (mask_bit _ _ _ Hlo Hi). pose proof (mod8_nat i ltac:(lia)).
  destruct (Nat.eqb_spec (Z.to_nat i mod 8) 7), (Z.eqb_spec (i mod 8) 7); (done || lia).
Qed.

Context (x : Z) (Hx : word w x).

Lemma top_bit i : 0 <= i -> Z.testbit ((x .& hi) >> 7) i = Z.testbit x (i + 7) && (i mod 8 =? 0).
Proof.
  intros Hi. rewrite Z.shiftr_spec, Z.land_spec by done. destruct (Z.lt_ge_cases (i + 7) w) as [Hl|Hl].
  - rewrite hi_bit by lia. f_equal. Z.to_euclidean_division_equations. lia.
  - by rewrite (word_bit_high w) by done.
Qed.

(** The bits around byte [k]. *)
Lemma top_bit_at k c :
  -7 <= c < 8 -> Z.testbit ((x .& hi) >> 7) (c + 8 * Z.of_nat k) = (c =? 0) && Z.testbit x (7 + 8 * Z.of_nat k).
Proof.
  intros Hc. destruct (Z.lt_ge_cases (c + 8 * Z.of_nat k) 0) as [Hl|Hl].
  - rewrite Z.testbit_neg_r by done. destruct (Z.eqb_spec c 0); [lia|done].
  - rewrite top_bit by done. destruct (Z.eqb_spec c 0) as [->|Hne].
    + assert (((0 + 8 * Z.of_nat k) mod 8 =? 0) = true) as -> by (Z.to_euclidean_division_equations; lia).
      rewrite andb_true_r, andb_true_l. f_equal. lia.
    + assert (((c + 8 * Z.of_nat k) mod 8 =? 0) = false) as -> by (Z.to_euclidean_division_equations; lia).
      by rewrite andb_false_r.
Qed.

Lemma low_bit_at k c :
  (k < n)%nat -> -1 <= c < 7 ->
  Z.testbit (x .& lo) (c + 8 * Z.of_nat k) = (0 <=? c) && Z.testbit x (c + 8 * Z.of_nat k).
Proof.
  intros Hk Hc. destruct (Z.lt_ge_cases (c + 8 * Z.of_nat k) 0) as [Hl|Hl].
  - rewrite !(Z.testbit_neg_r _ _ Hl). by rewrite andb_false_r.
  - rewrite Z.land_spec, lo_bit, andb_comm by (unfold w; lia). f_equal. Z.to_euclidean_division_equations. lia.
Qed.

Lemma swar_byte k : (k < n)%nat -> uchar (swar x >> (8 * Z.of_nat k)) = xtime (uchar (x >> (8 * Z.of_nat k))).
Proof.
  intros Hk. apply (word_eq 8).
  - apply uchar_word.
  - unfold xtime. apply word_lxor; [apply uchar_word|]. destruct (Z.testbit _ 7); unfold word; lia.
  - intros j Hj. unfold xtime. rewrite Z.lxor_spec, !uchar_bit, !Z.shiftr_spec by lia.
    unfold swar. rewrite Z.lxor_spec, Z.mod_pow2_bits_low by (unfold w; lia).
    rewrite mul27_lxor by (intros i Hi; rewrite top_bit by lia; lia).
    rewrite !Z.lxor_spec, !Z.shiftl_spec, !Z.add_sub_swap, !top_bit_at, low_bit_at by lia.
    destruct (Z.testbit x (7 + 8 * Z.of_nat k)) eqn:E7;
    assert (j = 0 \/ j = 1 \/ j = 2 \/ j = 3 \/ j = 4 \/ j = 5 \/ j = 6 \/ j = 7) as Hc by lia;
    destruct Hc as [->|[->|[->|[->|[->|[->|[->| ->]]]]]]];     rewrite ?uchar_bit, ?Z.shiftr_spec by lia; try done;
    match goal with |- context [Z.testbit x ?i] => by destruct (Z.testbit x i) end.
Qed.
End Swar.

Lemma xtime_lxor x y : xtime (x ⊕ y) = xtime x ⊕ xtime y.
Proof.
  unfold xtime. rewrite Z.shiftl_lxor, uchar_lxor, Z.lxor_spec.
  destruct (Z.testbit x 7), (Z.testbit y 7); cbv [xorb]; lxor_btauto.
Qed.
