(* ===== verification/Counter.v ===== *)
(** * Block functions with a bit counter: shavite.c and echo.c

    SHAvite-3 and ECHO hand each block function the number of message bits
    hashed so far, kept in 32-bit words of the context.  This file holds the
    context data, the specification of the counters and the lemma that the
    closing code of both functions uses. *)

From Stdlib Require Import ZArith Lia Btauto.
From stdpp Require Import base tactics numbers list.
From S2P Require Import Prelude SphTypes Stream.

(** The chaining words and the counter words, least significant first. *)
Record ctr_state (H : Type) : Type := mk_ctr { cs_h : H; cs_cnt : list Z }.
Arguments mk_ctr {H}.
Arguments cs_h {H}.
Arguments cs_cnt {H}.

(** [t] in [W] words of 32 bits. *)
Definition cnt_words (W : nat) (t : Z) : list Z :=
  (fun i => (t / 2 ^ (32 * Z.of_nat i)) mod 2 ^ 32) <$> seq 0 W.

(** The counter of block [i] of a message of [tot] bits, with blocks of [bits]
    bits: the message bits hashed so far, this block included, and 0 for a block
    that holds padding only. *)
Definition block_ctr (bits tot i : Z) : Z :=
  if tot <=? bits * i then 0 else Z.min (bits * (i + 1)) tot.

Section Hash.
Context {H : Type} (bs : nat) (cmp : H -> Z -> list Z -> H).
Let bits : Z := 8 * Z.of_nat bs.

Fixpoint ctr_blocks (tot i : Z) (blks : list (list Z)) (h : H) : H :=
  match blks with
  | [] => h
  | b :: blks => ctr_blocks tot (i + 1) blks (cmp h (block_ctr bits tot i) b)
  end.

(** The chaining value after the whole padded message; [tail] is the end of the
    padding. *)
Definition ctr_hash (iv : H) (msg : list Z) (n mb : Z) (tail : list Z) : H :=
  ctr_blocks (8 * Z.of_nat (length msg) + n) 0
    (blocks bs (msg ++ md_pad bs (length msg mod bs) mb tail)) iv.
End Hash.

(** What the code does with a full block, where [bump] adds its number of bits. *)
Definition ctr_absorb {H} (cmp : H -> list Z -> list Z -> H) (bump : list Z -> list Z)
    (s : ctr_state H) (blk : list Z) : ctr_state H :=
  let cnt := bump (cs_cnt s) in mk_ctr (cmp (cs_h s) cnt blk) cnt.

(** Block functions that simulate each other give hashes that do. *)
Lemma ctr_hash_sim {H H'} (R : H -> H' -> Prop) bs cmp cmp' iv iv' msg n mb tail :
  (0 < bs)%nat -> words 8 msg -> word 8 mb -> words 8 tail -> R iv iv' ->
  (forall h h' t b, R h h' -> length b = bs -> words 8 b -> 0 <= t ->
    R (cmp h t b) (cmp' h' t b)) ->
  0 <= n ->
  R (ctr_hash bs cmp iv msg n mb tail) (ctr_hash bs cmp' iv' msg n mb tail).
Proof.
  intros Hbs Hm Hmb Ht HR Hc Hn. unfold ctr_hash.
  set (p := md_pad bs (length msg mod bs) mb tail).
  assert (words 8 (msg ++ p)) as Hw.
  { apply Forall_app. split; [done|]. unfold p, md_pad. apply Forall_cons. split; [done|].
    apply Forall_app. split; [apply words_replicate; unfold word; lia|done]. }
  pose proof (blocks_words bs 8 _ Hw) as HB. pose proof (blocks_length bs Hbs (msg ++ p)) as HL.
  set (tot := 8 * Z.of_nat (length msg) + n). assert (0 <= tot) as Htot by (unfold tot; lia).
  assert (0 <= 0) as Hi by lia. revert Hi. generalize 0 at 2 3 4 as i. revert iv iv' HR HB HL.
  generalize (blocks bs (msg ++ p)) as bl. clearbody tot p. clear -Hc Hbs Htot.
  induction bl as [|b bl IH]; intros iv iv' HR HB HL i Hi; [done|].
  inversion_clear HB. inversion_clear HL. cbn [ctr_blocks]. apply IH; try done; [|lia].
  apply Hc; try done. unfold block_ctr. case Z.leb_spec; lia.
Qed.

(** ** Counter words *)

Lemma length_cnt_words W t : length (cnt_words W t) = W.
Proof. unfold cnt_words. by rewrite length_fmap, length_seq. Qed.

Lemma cnt_words_zero W : cnt_words W 0 = replicate W 0.
Proof.
  unfold cnt_words. rewrite (list_fmap_ext _ (fun _ => 0)) by (intros; by rewrite Z.div_0_l by (apply Z.pow_nonzero; lia)).
  by rewrite (const_fmap _ _ 0), length_seq.
Qed.

Lemma cnt_words_S W t : cnt_words (S W) t = t mod 2 ^ 32 :: cnt_words W (t / 2 ^ 32).
Proof.
  unfold cnt_words. rewrite <- cons_seq, fmap_cons, <- fmap_S_seq, <- list_fmap_compose. f_equal.
  - by rewrite Z.mul_0_r, Z.pow_0_r, Z.div_1_r.
  - apply list_fmap_ext. intros _ i _. cbn.
    rewrite Z.div_div by (try apply Z.pow_pos_nonneg; lia). do 2 f_equal.
    rewrite <- Z.pow_add_r by lia. f_equal. lia.
Qed.

(** A small addition that does not carry changes the first word only. *)
Lemma cnt_words_low W t v :
  t mod 2 ^ 32 + v < 2 ^ 32 -> 0 <= v ->
  cnt_words (S W) (t + v) = t mod 2 ^ 32 + v :: cnt_words W (t / 2 ^ 32).
Proof.
  intros Hlt Hv. pose proof (Z.mod_pos_bound t (2 ^ 32) ltac:(lia)). pose proof (Z.div_mod t (2 ^ 32)).
  rewrite cnt_words_S, <- (Z.mod_unique (t + v) (2 ^ 32) (t / 2 ^ 32) (t mod 2 ^ 32 + v)) by lia.
  by rewrite <- (Z.div_unique (t + v) (2 ^ 32) (t / 2 ^ 32) (t mod 2 ^ 32 + v)) by lia.
Qed.

(** One that does carries one into the others. *)
Lemma cnt_words_carry W t v :
  2 ^ 32 <= t mod 2 ^ 32 + v < 2 * 2 ^ 32 ->
  cnt_words (S W) (t + v) = t mod 2 ^ 32 + v - 2 ^ 32 :: cnt_words W (t / 2 ^ 32 + 1).
Proof.
  intros Hv. pose proof (Z.div_mod t (2 ^ 32)).
  rewrite cnt_words_S, <- (Z.mod_unique (t + v) (2 ^ 32) (t / 2 ^ 32 + 1) (t mod 2 ^ 32 + v - 2 ^ 32)) by lia.
  by rewrite <- (Z.div_unique (t + v) (2 ^ 32) (t / 2 ^ 32 + 1) (t mod 2 ^ 32 + v - 2 ^ 32)) by lia.
Qed.

(** Adding one to a word and looking at the result finds the carry. *)
Lemma cnt_words_succ W t :
  cnt_words (S W) (t + 1) =
  let c := SPH_T32 (t mod 2 ^ 32 + 1) in
  c :: (if c =? 0 then cnt_words W (t / 2 ^ 32 + 1) else cnt_words W (t / 2 ^ 32)).
Proof.
  cbv zeta. pose proof (Z.mod_pos_bound t (2 ^ 32) ltac:(lia)). rewrite T32_mod.
  destruct (Z.eq_dec (t mod 2 ^ 32) (2 ^ 32 - 1)) as [E|E].
  - rewrite cnt_words_carry, E by lia. done.
  - rewrite cnt_words_low by lia. rewrite (Z.mod_small (t mod 2 ^ 32 + 1)) by lia.
    destruct (Z.eqb_spec (t mod 2 ^ 32 + 1) 0); [lia|done].
Qed.

(** The carry into three words, as the code writes it out, behind the word [c]. *)
Lemma carry_words c t (w := cnt_words 3 t) :
  (let C1 := SPH_T32 (w.[0] + 1) in
   if C1 =? 0 then
     let C2 := SPH_T32 (w.[1] + 1) in
     if C2 =? 0 then [c; C1; C2; SPH_T32 (w.[2] + 1)]
     else [c; C1; C2; w.[2]]
   else [c; C1; w.[1]; w.[2]]) = c :: cnt_words 3 (t + 1).
Proof.
  subst w. rewrite (cnt_words_succ 2). cbv zeta.
  rewrite (cnt_words_S 2 t), (cnt_words_S 1 (t / 2 ^ 32)), (cnt_words_S 0 (t / 2 ^ 32 / 2 ^ 32)). cbn [nth].
  case Z.eqb_spec; intros; [|done].
  rewrite cnt_words_succ. cbv zeta. case Z.eqb_spec; intros; [|by rewrite !cnt_words_S].
  rewrite cnt_words_succ. cbv zeta. by destruct (_ =? 0).
Qed.

(** ** The closing code *)

Section Close.
Context {H : Type} (W bs : nat) (cmp : H -> list Z -> list Z -> H) (bump : list Z -> list Z).
Let bits : Z := 8 * Z.of_nat bs.
Context (Hbs : (0 < bs)%nat).
Context (Hbump : forall k, 0 <= k -> bump (cnt_words W (bits * k)) = cnt_words W (bits * (k + 1))).
#[local] Abbreviation blk := (ctr_absorb cmp bump).
#[local] Abbreviation cmp_at := (fun h t => cmp h (cnt_words W t)).

Lemma ctr_blocks_app tot i a b h :
  ctr_blocks bs cmp_at tot i (a ++ b) h =
  ctr_blocks bs cmp_at tot (i + Z.of_nat (length a)) b (ctr_blocks bs cmp_at tot i a h).
Proof.
  revert i h. induction a as [|x a IH]; intros i h; cbn [app ctr_blocks length].
  - f_equal. lia.
  - rewrite IH. f_equal. lia.
Qed.

(** Full blocks of the message carry the bits up to their end. *)
Lemma fold_ctr tot i blks h :
  0 <= i -> bits * (i + Z.of_nat (length blks)) <= tot ->
  fold_left blk blks (mk_ctr h (cnt_words W (bits * i))) =
  mk_ctr (ctr_blocks bs cmp_at tot i blks h) (cnt_words W (bits * (i + Z.of_nat (length blks)))).
Proof.
  revert i h. induction blks as [|b blks IH]; intros i h Hi Hle; cbn [fold_left ctr_blocks length] in *.
  - do 2 f_equal. lia.
  - unfold ctr_absorb at 2. cbn [cs_h cs_cnt]. rewrite Hbump by done.
    assert (block_ctr bits tot i = bits * (i + 1)) as Hc.
    { unfold block_ctr. case Z.leb_spec; intros; [|apply Z.min_l]; unfold bits in *; nia. }
    rewrite IH by (unfold bits in *; nia). fold bits. rewrite Hc. do 2 f_equal. lia.
Qed.

Context (iv : H) (msg : list Z) (sc : stream_ctx (ctr_state H)) (n : Z).
Context (Hr : repr bs blk (mk_ctr iv (cnt_words W 0)) msg sc) (Hn : 0 <= n <= 7).
Let tot : Z := 8 * Z.of_nat (length msg) + n.

Lemma ctr_at_end :
  cs_cnt (st sc) = cnt_words W (bits * Z.of_nat (length msg / bs)) /\
  cs_h (st sc) = ctr_blocks bs cmp_at tot 0 (blocks bs msg) iv.
Proof.
  destruct Hr as (_ & _ & _ & Hs).
  pose proof (Nat.div_mod_eq (length msg) bs).
  pose proof (fold_ctr tot 0 (blocks bs msg) iv ltac:(lia)) as Hf. rewrite Z.mul_0_r, length_blocks in Hf by done.
  rewrite Hs, Hf by (unfold tot, bits; lia). done.
Qed.

Context (mb : Z) (tail : list Z) (Htl : (length tail < bs)%nat).
Let room : nat := (bs - length tail)%nat.

(** One block more when the pending block has room for the tail, two otherwise. *)
Lemma ctr_close_one :
  (ptr sc < room)%nat ->
  cmp (cs_h (st sc)) (cnt_words W (if (ptr sc =? 0)%nat && (n =? 0) then 0 else tot))
    (take (ptr sc) (buf sc) ++ mb :: replicate (room - S (ptr sc)) 0 ++ tail) =
  ctr_hash bs cmp_at iv msg n mb tail.
Proof.
  intros Hlt. destruct ctr_at_end as [_ Hh]. destruct Hr as (_ & Hp & Ht & _). rewrite Hh, Ht, Hp.
  rewrite Hp in Hlt. pose proof (Nat.div_mod_eq (length msg) bs).
  unfold ctr_hash, md_pad. fold tot. fold room. destruct (Nat.ltb_spec (length msg mod bs) room); [|lia].
  rewrite (blocks_app bs Hbs), ctr_blocks_app, length_blocks, (blocks_one bs Hbs (tail_bytes bs msg ++ _)) by
    (rewrite ?length_app, ?length_tail_bytes; cbn [length]; rewrite ?length_app, ?length_replicate; unfold room in *; lia).
  cbn [ctr_blocks]. do 2 f_equal. unfold block_ctr. rewrite Z.add_0_l. fold bits.
  case Nat.eqb_spec; intros; case Z.eqb_spec; intros; cbn [andb]; (case Z.leb_spec; intros);
    try (unfold tot, bits in *; lia); rewrite Z.min_r; unfold tot, bits, room in *; lia.
Qed.

Lemma ctr_close_two :
  (room <= ptr sc)%nat ->
  cmp (cmp (cs_h (st sc)) (cnt_words W tot) (take (ptr sc) (buf sc) ++ mb :: replicate (bs - S (ptr sc)) 0))
    (cnt_words W 0) (replicate room 0 ++ tail) =
  ctr_hash bs cmp_at iv msg n mb tail.
Proof.
  intros Hge. destruct ctr_at_end as [_ Hh]. destruct Hr as (_ & Hp & Ht & _). rewrite Hh, Ht, Hp.
  rewrite Hp in Hge.
  pose proof (Nat.div_mod_eq (length msg) bs). pose proof (Nat.mod_upper_bound (length msg) bs ltac:(lia)).
  unfold ctr_hash, md_pad. fold tot. fold room. destruct (Nat.ltb_spec (length msg mod bs) room); [lia|].
  replace (bs + room - S (length msg mod bs))%nat with (bs - S (length msg mod bs) + room)%nat by lia.
  rewrite replicate_add, <- app_assoc, app_comm_cons.
  rewrite (blocks_app bs Hbs), app_assoc, ctr_blocks_app, length_blocks, (blocks_two bs Hbs (tail_bytes bs msg ++ _)) by
    (rewrite ?length_app, ?length_tail_bytes; cbn [length]; rewrite ?length_app, ?length_replicate; unfold room in *; lia).
  cbn [ctr_blocks]. rewrite Z.add_0_l. fold bits.
  assert (block_ctr bits tot (Z.of_nat (length msg / bs)) = tot) as ->.
  { unfold block_ctr. case Z.leb_spec; intros; [|apply Z.min_r]; unfold tot, bits, room in *; lia. }
  assert (block_ctr bits tot (Z.of_nat (length msg / bs) + 1) = 0) as ->; [|done].
  unfold block_ctr. case Z.leb_spec; intros; [done|]. unfold tot, bits, room in *. lia.
Qed.
End Close.
