(* ===== verification/Blake.v ===== *)
(** * blake.c: BLAKE-224, BLAKE-256, BLAKE-384 and BLAKE-512

    The 32-bit functions ([GS], [ROUND_S], [COMPRESS32], [blake32]) and the
    64-bit functions ([GB], [ROUND_B], [COMPRESS64], [blake64]) are the same
    text at two word sizes; the section [Family] holds that text once.  Both
    compile-time variants of the compression function are here: the unrolled
    one, whose rounds are selected by the [Z] macros, and the compact one
    ([SPH_COMPACT_BLAKE_32] and [SPH_COMPACT_BLAKE_64]), which loops over [sigma].
    The digests are those of a specification that is written on its own: a matrix of
    words, constants computed from pi and from roots of primes. *)

From Stdlib Require Import ZArith Lia.
From stdpp Require Import base tactics numbers list.
From S2P Require Import Prelude SphTypes Stream.

(** [Ztab], row r, column i: the macro [Z]ri. *)
Definition Ztab : list (list nat) := [
  [0; 1; 2; 3; 4; 5; 6; 7; 8; 9; 10; 11; 12; 13; 14; 15];
  [14; 10; 4; 8; 9; 15; 13; 6; 1; 12; 0; 2; 11; 7; 5; 3];
  [11; 8; 12; 0; 5; 2; 15; 13; 10; 14; 3; 6; 7; 1; 9; 4];
  [7; 9; 3; 1; 13; 12; 11; 14; 2; 6; 5; 10; 4; 0; 15; 8];
  [9; 0; 5; 7; 2; 4; 10; 15; 14; 1; 11; 12; 6; 8; 3; 13];
  [2; 12; 6; 10; 0; 11; 8; 3; 4; 13; 7; 5; 15; 14; 1; 9];
  [12; 5; 1; 15; 14; 13; 4; 10; 0; 7; 6; 3; 9; 2; 8; 11];
  [13; 11; 7; 14; 12; 1; 3; 9; 5; 0; 15; 4; 8; 6; 2; 10];
  [6; 15; 14; 9; 11; 3; 0; 8; 12; 2; 13; 7; 1; 4; 10; 5];
  [10; 2; 8; 4; 7; 6; 1; 5; 15; 11; 9; 14; 3; 12; 13; 0]]%nat.
Definition sigma : list (list nat) := [
  [0; 1; 2; 3; 4; 5; 6; 7; 8; 9; 10; 11; 12; 13; 14; 15];
  [14; 10; 4; 8; 9; 15; 13; 6; 1; 12; 0; 2; 11; 7; 5; 3];
  [11; 8; 12; 0; 5; 2; 15; 13; 10; 14; 3; 6; 7; 1; 9; 4];
  [7; 9; 3; 1; 13; 12; 11; 14; 2; 6; 5; 10; 4; 0; 15; 8];
  [9; 0; 5; 7; 2; 4; 10; 15; 14; 1; 11; 12; 6; 8; 3; 13];
  [2; 12; 6; 10; 0; 11; 8; 3; 4; 13; 7; 5; 15; 14; 1; 9];
  [12; 5; 1; 15; 14; 13; 4; 10; 0; 7; 6; 3; 9; 2; 8; 11];
  [13; 11; 7; 14; 12; 1; 3; 9; 5; 0; 15; 4; 8; 6; 2; 10];
  [6; 15; 14; 9; 11; 3; 0; 8; 12; 2; 13; 7; 1; 4; 10; 5];
  [10; 2; 8; 4; 7; 6; 1; 5; 15; 11; 9; 14; 3; 12; 13; 0];
  [0; 1; 2; 3; 4; 5; 6; 7; 8; 9; 10; 11; 12; 13; 14; 15];
  [14; 10; 4; 8; 9; 15; 13; 6; 1; 12; 0; 2; 11; 7; 5; 3];
  [11; 8; 12; 0; 5; 2; 15; 13; 10; 14; 3; 6; 7; 1; 9; 4];
  [7; 9; 3; 1; 13; 12; 11; 14; 2; 6; 5; 10; 4; 0; 15; 8];
  [9; 0; 5; 7; 2; 4; 10; 15; 14; 1; 11; 12; 6; 8; 3; 13];
  [2; 12; 6; 10; 0; 11; 8; 3; 4; 13; 7; 5; 15; 14; 1; 9]]%nat.
Definition CS : list Z := [0x243F6A88; 0x85A308D3; 0x13198A2E; 0x03707344; 0xA4093822; 0x299F31D0; 
0x082EFA98; 0xEC4E6C89; 0x452821E6; 0x38D01377; 0xBE5466CF; 0x34E90C6C; 0xC0AC29B7; 0xC97C50DD; 
0x3F84D5B5; 0xB5470917].
Definition CB : list Z := [0x243F6A8885A308D3; 0x13198A2E03707344; 0xA4093822299F31D0; 
0x082EFA98EC4E6C89; 0x452821E638D01377; 0xBE5466CF34E90C6C; 0xC0AC29B7C97C50DD; 0x3F84D5B5B5470917; 
0x9216D5D98979FB1B; 0xD1310BA698DFB5AC; 0x2FFD72DBD01ADFB7; 0xB8E1AFED6A267E96; 0xBA7C9045F12C7F99; 
0x24A19947B3916CF7; 0x0801F2E2858EFC16; 0x636920D871574E69].
Definition IV224 : list Z := [0xC1059ED8; 0x367CD507; 0x3070DD17; 0xF70E5939; 0xFFC00B31; 
0x68581511; 0x64F98FA7; 0xBEFA4FA4].
Definition IV256 : list Z := [0x6A09E667; 0xBB67AE85; 0x3C6EF372; 0xA54FF53A; 0x510E527F; 
0x9B05688C; 0x1F83D9AB; 0x5BE0CD19].
Definition IV384 : list Z := [0xCBBB9D5DC1059ED8; 0x629A292A367CD507; 0x9159015A3070DD17; 
0x152FECD8F70E5939; 0x67332667FFC00B31; 0x8EB44A8768581511; 0xDB0C2E0D64F98FA7; 0x47B5481DBEFA4FA4].
Definition IV512 : list Z := [0x6A09E667F3BCC908; 0xBB67AE8584CAA73B; 0x3C6EF372FE94F82B; 
0xA54FF53A5F1D36F1; 0x510E527FADE682D1; 0x9B05688C2B3E6C1F; 0x1F83D9ABFB41BD6B; 0x5BE0CD19137E2179].

(** The chaining data of a context: [H], [S], [T0], [T1]. *)
Record blake_state : Type := mk_state {
  bl_H : list Z;
  bl_S : list Z;
  bl_T0 : Z;
  bl_T1 : Z
}.

Definition sph_blake_small_context : Type := stream_ctx blake_state.
Definition sph_blake_big_context : Type := stream_ctx blake_state.

Definition salt_zero_small : list Z := [0; 0; 0; 0].
Definition salt_zero_big : list Z := [0; 0; 0; 0].

Section Family.
Context (T : Z -> Z) (rotr : Z -> Z -> Z) (r1 r2 r3 r4 : Z) (C : list Z).

Definition G (m0 m1 c0 c1 : Z) (abcd : Z * Z * Z * Z) : Z * Z * Z * Z :=
  let '(a, b, c, d) := abcd in
  let a := T (a + b + (m0 ⊕ c1)) in
  let d := rotr (d ⊕ a) r1 in
  let c := T (c + d) in
  let b := rotr (b ⊕ c) r2 in
  let a := T (a + b + (m1 ⊕ c0)) in
  let d := rotr (d ⊕ a) r3 in
  let c := T (c + d) in
  let b := rotr (b ⊕ c) r4 in
  (a, b, c, d).

(** [G] on the variables [Va], [Vb], [Vc], [Vd]. *)
Definition G_at (m0 m1 c0 c1 : Z) (a b c d : nat) (V : list Z) : list Z :=
  let '(va, vb, vc, vd) := G m0 m1 c0 c1 (V.[a], V.[b], V.[c], V.[d]) in
  <[d := vd]> (<[c := vc]> (<[b := vb]> (<[a := va]> V))).

(** The eight [GS] or [GB] calls of a round: the index of the first message
    word selector, and the four variables. *)
Definition G_calls : list (nat * (nat * nat * nat * nat)) :=
  [(0, (0, 4, 8, 12)); (2, (1, 5, 9, 13)); (4, (2, 6, 10, 14)); (6, (3, 7, 11, 15));
   (8, (0, 5, 10, 15)); (10, (1, 6, 11, 12)); (12, (2, 7, 8, 13)); (14, (3, 4, 9, 14))]%nat.

Definition G_call (z : list nat) (M : list Z) (V : list Z)
    (call : nat * (nat * nat * nat * nat)) : list Z :=
  let '(i, (a, b, c, d)) := call in
  G_at M.[nth i z 0%nat] M.[nth (S i) z 0%nat] C.[nth i z 0%nat] C.[nth (S i) z 0%nat] a b c d V.

(** A round, [z] the row that selects the message words and the constants. *)
Definition ROUND (z : list nat) (M V : list Z) : list Z := fold_left (G_call z M) G_calls V.

(** [V0] to [VF] before the first round. *)
Definition init_V (s : blake_state) : list Z :=
  bl_H s ++
  [(bl_S s).[0] ⊕ C.[0]; (bl_S s).[1] ⊕ C.[1]; (bl_S s).[2] ⊕ C.[2]; (bl_S s).[3] ⊕ C.[3];
   bl_T0 s ⊕ C.[4]; bl_T0 s ⊕ C.[5]; bl_T1 s ⊕ C.[6]; bl_T1 s ⊕ C.[7]].

(** [Hi ^= Sj ^ Vi ^ Vk] for the eight chaining words. *)
Definition final_H (s : blake_state) (V : list Z) : list Z :=
  let H := bl_H s in let S := bl_S s in
  [H.[0] ⊕ (S.[0] ⊕ V.[0] ⊕ V.[8]); H.[1] ⊕ (S.[1] ⊕ V.[1] ⊕ V.[9]);
   H.[2] ⊕ (S.[2] ⊕ V.[2] ⊕ V.[10]); H.[3] ⊕ (S.[3] ⊕ V.[3] ⊕ V.[11]);
   H.[4] ⊕ (S.[0] ⊕ V.[4] ⊕ V.[12]); H.[5] ⊕ (S.[1] ⊕ V.[5] ⊕ V.[13]);
   H.[6] ⊕ (S.[2] ⊕ V.[6] ⊕ V.[14]); H.[7] ⊕ (S.[3] ⊕ V.[7] ⊕ V.[15])].

(** The body of [COMPRESS32] and [COMPRESS64], over the rows of its rounds. *)
Definition compress (rows : list (list nat)) (dec : list Z -> Z) (wsz : nat)
    (s : blake_state) (buf : list Z) : blake_state :=
  let M := (fun i => dec (drop (wsz * i) buf)) <$> seq 0 16 in
  let V := fold_left (fun V z => ROUND z M V) rows (init_V s) in
  mk_state (final_H s V) (bl_S s) (bl_T0 s) (bl_T1 s).
End Family.

Definition GS := G SPH_T32 SPH_ROTR32 16 12 8 7.
Definition GB := G SPH_T64 SPH_ROTR64 32 25 16 11.
Definition ROUND_S (r : nat) := ROUND SPH_T32 SPH_ROTR32 16 12 8 7 CS (nth r Ztab []).
Definition ROUND_B (r : nat) := ROUND SPH_T64 SPH_ROTR64 32 25 16 11 CB (nth r Ztab []).

(** The unrolled sequences of rounds. *)
Definition rounds32 : list nat := [0; 1; 2; 3; 4; 5; 6; 7; 8; 9; 0; 1; 2; 3]%nat.
Definition rounds64 : list nat := [0; 1; 2; 3; 4; 5; 6; 7; 8; 9; 0; 1; 2; 3; 4; 5]%nat.

Definition COMPRESS32 : blake_state -> list Z -> blake_state :=
  compress SPH_T32 SPH_ROTR32 16 12 8 7 CS ((fun r => nth r Ztab []) <$> rounds32)
    sph_dec32be 4.
Definition COMPRESS64 : blake_state -> list Z -> blake_state :=
  compress SPH_T64 SPH_ROTR64 32 25 16 11 CB ((fun r => nth r Ztab []) <$> rounds64)
    sph_dec64be 8.

(** The compact variants: [for (r = 0; r < 14; r ++)], [for (r = 0; r < 16; r ++)]. *)
Definition COMPRESS32_compact : blake_state -> list Z -> blake_state :=
  compress SPH_T32 SPH_ROTR32 16 12 8 7 CS ((fun r => nth r sigma []) <$> seq 0 14)
    sph_dec32be 4.
Definition COMPRESS64_compact : blake_state -> list Z -> blake_state :=
  compress SPH_T64 SPH_ROTR64 32 25 16 11 CB ((fun r => nth r sigma []) <$> seq 0 16)
    sph_dec64be 8.

(** The counter step and the compression done on a full buffer. *)
Definition blake32_block (s : blake_state) (buf : list Z) : blake_state :=
  let T0 := SPH_T32 (bl_T0 s + 512) in
  let T1 := if T0 <? 512 then SPH_T32 (bl_T1 s + 1) else bl_T1 s in
  COMPRESS32 (mk_state (bl_H s) (bl_S s) T0 T1) buf.
Definition blake64_block (s : blake_state) (buf : list Z) : blake_state :=
  let T0 := SPH_T64 (bl_T0 s + 1024) in
  let T1 := if T0 <? 1024 then SPH_T64 (bl_T1 s + 1) else bl_T1 s in
  COMPRESS64 (mk_state (bl_H s) (bl_S s) T0 T1) buf.

(** [blake32_init] and [blake64_init] leave the buffer as it is. *)
Definition blake32_init (sc : sph_blake_small_context) (iv salt : list Z) :=
  mk_ctx (buf sc) 0 (mk_state iv salt 0 0).
Definition blake64_init (sc : sph_blake_big_context) (iv salt : list Z) :=
  mk_ctx (buf sc) 0 (mk_state iv salt 0 0).

Definition blake32 (sc : sph_blake_small_context) (data : list Z) : sph_blake_small_context :=
  core 64 blake32_block sc data.
Definition blake64 (sc : sph_blake_big_context) (data : list Z) : sph_blake_big_context :=
  core 128 blake64_block sc data.

Definition set_T (T0 T1 : Z) (sc : stream_ctx blake_state) : stream_ctx blake_state :=
  mk_ctx (buf sc) (ptr sc) (mk_state (bl_H (st sc)) (bl_S (st sc)) T0 T1).

(** [u] is the uninitialised local array [u.buf]. *)
Definition blake32_close (u : list Z) (sc : sph_blake_small_context) (ub n : Z)
    (out_size_w32 : nat) : list Z * sph_blake_small_context :=
  let ptr := ptr sc in
  let bit_len := (Z.of_nat ptr << 3) + n in
  let z := 0x80 >> n in
  let u := <[ptr := uchar ((ub .& SPH_T32 (- z)) .| z)]> u in
  let T0 := bl_T0 (st sc) in
  let T1 := bl_T1 (st sc) in
  let tl := SPH_T32 (T0 + bit_len) in
  let th := T1 in
  let sc :=
    if (ptr =? 0)%nat && (n =? 0) then set_T 0xFFFFFE00 0xFFFFFFFF sc
    else if T0 =? 0 then set_T (SPH_T32 (0xFFFFFE00 + bit_len)) (SPH_T32 (T1 - 1)) sc
    else set_T (SPH_T32 (T0 - (512 - bit_len))) T1 sc in
  let sc :=
    if bit_len <=? 446 then
      let u := memset u (ptr + 1) 0 (55 - ptr) in
      let u := if (out_size_w32 =? 8)%nat then <[55%nat := u.[55] .| 1]> u else u in
      let u := memcpy u 56 (sph_enc32be th) in
      let u := memcpy u 60 (sph_enc32be tl) in
      blake32 sc (drop ptr u)
    else
      let u := memset u (ptr + 1) 0 (63 - ptr) in
      let sc := blake32 sc (drop ptr u) in
      let sc := set_T 0xFFFFFE00 0xFFFFFFFF sc in
      let u := memset u 0 0 56 in
      let u := if (out_size_w32 =? 8)%nat then <[55%nat := 1]> u else u in
      let u := memcpy u 56 (sph_enc32be th) in
      let u := memcpy u 60 (sph_enc32be tl) in
      blake32 sc u in
  (concat (sph_enc32be <$> take out_size_w32 (bl_H (st sc))), sc).

Definition blake64_close (u : list Z) (sc : sph_blake_big_context) (ub n : Z)
    (out_size_w64 : nat) : list Z * sph_blake_big_context :=
  let ptr := ptr sc in
  let bit_len := (Z.of_nat ptr << 3) + n in
  let z := 0x80 >> n in
  let u := <[ptr := uchar ((ub .& SPH_T32 (- z)) .| z)]> u in
  let T0 := bl_T0 (st sc) in
  let T1 := bl_T1 (st sc) in
  let tl := SPH_T64 (T0 + bit_len) in
  let th := T1 in
  let sc :=
    if (ptr =? 0)%nat && (n =? 0) then set_T 0xFFFFFFFFFFFFFC00 0xFFFFFFFFFFFFFFFF sc
    else if T0 =? 0 then set_T (SPH_T64 (0xFFFFFFFFFFFFFC00 + bit_len)) (SPH_T64 (T1 - 1)) sc
    else set_T (SPH_T64 (T0 - (1024 - bit_len))) T1 sc in
  let sc :=
    if bit_len <=? 894 then
      let u := memset u (ptr + 1) 0 (111 - ptr) in
      let u := if (out_size_w64 =? 8)%nat then <[111%nat := u.[111] .| 1]> u else u in
      let u := memcpy u 112 (sph_enc64be th) in
      let u := memcpy u 120 (sph_enc64be tl) in
      blake64 sc (drop ptr u)
    else
      let u := memset u (ptr + 1) 0 (127 - ptr) in
      let sc := blake64 sc (drop ptr u) in
      let sc := set_T 0xFFFFFFFFFFFFFC00 0xFFFFFFFFFFFFFFFF sc in
      let u := memset u 0 0 112 in
      let u := if (out_size_w64 =? 8)%nat then <[111%nat := 1]> u else u in
      let u := memcpy u 112 (sph_enc64be th) in
      let u := memcpy u 120 (sph_enc64be tl) in
      blake64 sc u in
  (concat (sph_enc64be <$> take out_size_w64 (bl_H (st sc))), sc).

(** BLAKE-224. *)
Definition sph_blake224_init (cc : sph_blake_small_context) :=
  blake32_init cc IV224 salt_zero_small.
Definition sph_blake224 (cc : sph_blake_small_context) (data : list Z) := blake32 cc data.
Definition sph_blake224_addbits_and_close (u : list Z) (cc : sph_blake_small_context) (ub n : Z) :=
  let '(dst, cc) := blake32_close u cc ub n 7 in (dst, sph_blake224_init cc).
Definition sph_blake224_close (u : list Z) (cc : sph_blake_small_context) :=
  sph_blake224_addbits_and_close u cc 0 0.

(** BLAKE-256. *)
Definition sph_blake256_init (cc : sph_blake_small_context) :=
  blake32_init cc IV256 salt_zero_small.
Definition sph_blake256 (cc : sph_blake_small_context) (data : list Z) := blake32 cc data.
Definition sph_blake256_addbits_and_close (u : list Z) (cc : sph_blake_small_context) (ub n : Z) :=
  let '(dst, cc) := blake32_close u cc ub n 8 in (dst, sph_blake256_init cc).
Definition sph_blake256_close (u : list Z) (cc : sph_blake_small_context) :=
  sph_blake256_addbits_and_close u cc 0 0.

(** BLAKE-384. *)
Definition sph_blake384_init (cc : sph_blake_big_context) :=
  blake64_init cc IV384 salt_zero_big.
Definition sph_blake384 (cc : sph_blake_big_context) (data : list Z) := blake64 cc data.
Definition sph_blake384_addbits_and_close (u : list Z) (cc : sph_blake_big_context) (ub n : Z) :=
  let '(dst, cc) := blake64_close u cc ub n 6 in (dst, sph_blake384_init cc).
Definition sph_blake384_close (u : list Z) (cc : sph_blake_big_context) :=
  sph_blake384_addbits_and_close u cc 0 0.

(** BLAKE-512. *)
Definition sph_blake512_init (cc : sph_blake_big_context) :=
  blake64_init cc IV512 salt_zero_big.
Definition sph_blake512 (cc : sph_blake_big_context) (data : list Z) := blake64 cc data.
Definition sph_blake512_addbits_and_close (u : list Z) (cc : sph_blake_big_context) (ub n : Z) :=
  let '(dst, cc) := blake64_close u cc ub n 8 in (dst, sph_blake512_init cc).
Definition sph_blake512_close (u : list Z) (cc : sph_blake_big_context) :=
  sph_blake512_addbits_and_close u cc 0 0.

(** ** Specification: padding, counters and chaining of BLAKE *)

Section Spec.
Context (w : Z) (wb : nat) (cmp : blake_state -> list Z -> blake_state).
Let bs : nat := (16 * wb)%nat.
Let bits : Z := 8 * Z.of_nat bs.

(** The chaining data with the 2w-bit counter set to [t]. *)
Definition at_ctr (t : Z) (s : blake_state) : blake_state :=
  mk_state (bl_H s) (bl_S s) (t mod 2 ^ w) ((t / 2 ^ w) mod 2 ^ w).

(** The counter of block [i] of a message of [tot] bits: the message bits
    hashed so far, this block included, and 0 for a block without any. *)
Definition ctr_of (tot i : Z) : Z :=
  if tot <=? bits * i then 0 else Z.min (bits * (i + 1)) tot.

Fixpoint hash_blocks (tot i : Z) (blks : list (list Z)) (s : blake_state) : blake_state :=
  match blks with
  | [] => s
  | b :: blks => hash_blocks tot (i + 1) blks (cmp (at_ctr (ctr_of tot i) s) b)
  end.

(** The bytes between the message and its length; the final bit needs a block
    of its own when the marker byte is the last byte before the length and full. *)
Definition pad_mid (len : nat) (n mb f : Z) : list Z :=
  let p := (bs - (len + 2 * wb) mod bs)%nat in
  mid (if (p =? 1)%nat && (n =? 7) then S bs else p) mb f.

Definition pad (enc : Z -> list Z) (msg : list Z) (n mb f : Z) : list Z :=
  let tot := 8 * Z.of_nat (length msg) + n in
  msg ++ pad_mid (length msg) n mb f ++
  enc ((tot / 2 ^ w) mod 2 ^ w) ++ enc (tot mod 2 ^ w).

Definition spec (enc : Z -> list Z) (s0 : blake_state) (msg : list Z) (n mb f : Z)
    (out : nat) : list Z :=
  let tot := 8 * Z.of_nat (length msg) + n in
  concat (enc <$> take out (bl_H (hash_blocks tot 0 (blocks bs (pad enc msg n mb f)) s0))).
End Spec.

(** ** The closing code at both word sizes *)

Section Close.
Context (w m : Z) (wb : nat) (enc : Z -> list Z) (cmp : blake_state -> list Z -> blake_state).
Let bs : nat := (16 * wb)%nat.
Let bits : Z := 8 * Z.of_nat bs.
Let T : Z -> Z := wT m.

Definition gblock (s : blake_state) (buf : list Z) : blake_state :=
  let T0 := T (bl_T0 s + bits) in
  let T1 := if T0 <? bits then T (bl_T1 s + 1) else bl_T1 s in
  cmp (mk_state (bl_H s) (bl_S s) T0 T1) buf.

Definition gclose (u : list Z) (sc : stream_ctx blake_state) (ub n : Z) (out : nat) :=
  let ptr := ptr sc in
  let bit_len := (Z.of_nat ptr << 3) + n in
  let z := 0x80 >> n in
  let u := <[ptr := uchar ((ub .& SPH_T32 (- z)) .| z)]> u in
  let T0 := bl_T0 (st sc) in
  let T1 := bl_T1 (st sc) in
  let tl := T (T0 + bit_len) in
  let th := T1 in
  let sc :=
    if (ptr =? 0)%nat && (n =? 0) then set_T (2 ^ w - bits) (2 ^ w - 1) sc
    else if T0 =? 0 then set_T (T (2 ^ w - bits + bit_len)) (T (T1 - 1)) sc
    else set_T (T (T0 - (bits - bit_len))) T1 sc in
  let sc :=
    if bit_len <=? bits - 2 * w - 2 then
      let u := memset u (ptr + 1) 0 (14 * wb - 1 - ptr) in
      let u := if (out =? 8)%nat then <[(14 * wb - 1)%nat := u.[14 * wb - 1] .| 1]> u else u in
      let u := memcpy u (14 * wb) (enc th) in
      let u := memcpy u (15 * wb) (enc tl) in
      core bs gblock sc (drop ptr u)
    else
      let u := memset u (ptr + 1) 0 (bs - 1 - ptr) in
      let sc := core bs gblock sc (drop ptr u) in
      let sc := set_T (2 ^ w - bits) (2 ^ w - 1) sc in
      let u := memset u 0 0 (14 * wb) in
      let u := if (out =? 8)%nat then <[(14 * wb - 1)%nat := 1]> u else u in
      let u := memcpy u (14 * wb) (enc th) in
      let u := memcpy u (15 * wb) (enc tl) in
      core bs gblock sc u in
  (concat (enc <$> take out (bl_H (st sc))), sc).

Context (Hm : m = Z.ones w) (Hwb : (0 < wb)%nat) (Hw : w = 8 * Z.of_nat wb)
  (Hdiv : exists q, 2 ^ w = bits * q) (Henc : forall v, length (enc v) = wb)
  (HS : forall s b, bl_S (cmp s b) = bl_S s)
  (HT0 : forall s b, bl_T0 (cmp s b) = bl_T0 s)
  (HT1 : forall s b, bl_T1 (cmp s b) = bl_T1 s).

Local Lemma Hw0 : 0 < w.
Proof. lia. Qed.

Local Lemma bits_pos : 0 < bits.
Proof. unfold bits, bs. lia. Qed.

Local Lemma T_mod x : T x = x mod 2 ^ w.
Proof. apply wT_mod; [done|apply Hw0]. Qed.

Local Lemma width_facts :
  exists q, 2 ^ w = bits * q /\ 0 < q /\ 0 < bits /\ bits <= 2 ^ w /\ 0 < 2 ^ w.
Proof.
  destruct Hdiv as [q Hq]. pose proof bits_pos as Hb. pose proof Hw0.
  assert (0 < 2 ^ w) as Hp by (apply Z.pow_pos_nonneg; lia).
  exists q. clearbody bits. assert (0 < q) by nia. repeat split; try assumption. nia.
Qed.

(** *** The counter *)

Lemma cmp_at_ctr t s b : cmp (at_ctr w t s) b = at_ctr w t (cmp (at_ctr w t s) b).
Proof.
  set (s' := cmp (at_ctr w t s) b). unfold at_ctr.
  assert (bl_T0 s' = t mod 2 ^ w) as <- by apply HT0.
  assert (bl_T1 s' = (t / 2 ^ w) mod 2 ^ w) as <- by apply HT1.
  by destruct s'.
Qed.

Lemma at_ctr_at_ctr t t' s : at_ctr w t (at_ctr w t' s) = at_ctr w t s.
Proof. done. Qed.

(** A full block adds its bits to the counter, carry included. *)
Lemma gblock_ctr t s b : gblock (at_ctr w t s) b = cmp (at_ctr w (t + bits) s) b.
Proof.
  unfold gblock, at_ctr. cbn [bl_T0 bl_T1 bl_H bl_S]. rewrite !T_mod.
  destruct width_facts as (q & Hq & Hq0 & Hb0 & Hb & Hp).
  pose proof (Z.mod_pos_bound t _ Hp) as Hr. pose proof (Z.div_mod t (2 ^ w) ltac:(lia)) as Ht.
  rewrite !Zplus_mod_idemp_l. f_equal. f_equal.
  assert (t mod 2 ^ w + bits < 2 ^ w \/ 2 ^ w <= t mod 2 ^ w + bits) as [Hc|Hc] by lia.
  - assert ((t + bits) mod 2 ^ w = t mod 2 ^ w + bits) as ->.
    { symmetry. apply Z.mod_unique with (t / 2 ^ w); lia. }
    assert ((t + bits) / 2 ^ w = t / 2 ^ w) as ->.
    { symmetry. apply Z.div_unique with (t mod 2 ^ w + bits); lia. }
    case Z.ltb_spec; [lia|done].
  - assert ((t + bits) mod 2 ^ w = t mod 2 ^ w + bits - 2 ^ w) as ->.
    { symmetry. apply Z.mod_unique with (t / 2 ^ w + 1); nia. }
    assert ((t + bits) / 2 ^ w = t / 2 ^ w + 1) as ->.
    { symmetry. apply Z.div_unique with (t mod 2 ^ w + bits - 2 ^ w); nia. }
    case Z.ltb_spec; [done|lia].
Qed.

Lemma ctr_split k bl :
  0 <= bl < bits ->
  (bits * k + bl) mod 2 ^ w = (bits * k) mod 2 ^ w + bl /\
  (bits * k + bl) / 2 ^ w = (bits * k) / 2 ^ w.
Proof.
  intros Hbl. destruct width_facts as (q & Hq & Hq0 & Hb0 & Hb & Hp).
  rewrite Hq, Z.mul_mod_distr_l, Z.div_mul_cancel_l by lia.
  pose proof (Z.mod_pos_bound k _ Hq0) as Hr. pose proof (Z.div_mod k q ltac:(lia)) as Ht.
  split; symmetry.
  - apply Z.mod_unique with (k / q); nia.
  - apply Z.div_unique with (bits * (k mod q) + bl); nia.
Qed.

(** The counter that the closing code installs before the last message block. *)
Lemma final_ctr k bl s :
  0 <= bl < bits ->
  let s1 := at_ctr w (bits * k) s in
  (if bl_T0 s1 =? 0
   then mk_state (bl_H s1) (bl_S s1) (T (2 ^ w - bits + bl)) (T (bl_T1 s1 - 1))
   else mk_state (bl_H s1) (bl_S s1) (T (bl_T0 s1 - (bits - bl))) (bl_T1 s1)) =
  at_ctr w (bits * (k - 1) + bl) s.
Proof.
  intros Hbl s1. unfold s1, at_ctr. cbn [bl_T0 bl_T1 bl_H bl_S]. rewrite !T_mod.
  destruct width_facts as (q & Hq & Hq0 & Hb0 & Hb & Hp).
  destruct (ctr_split (k - 1) bl Hbl) as [-> ->].
  rewrite Hq, !Z.mul_mod_distr_l, !Z.div_mul_cancel_l by lia.
  pose proof (Z.mod_pos_bound k _ Hq0) as Hr. pose proof (Z.div_mod k q ltac:(lia)) as Ht.
  case Z.eqb_spec; intros H0.
  - assert (k mod q = 0) as Hk by (apply Z.mul_eq_0 in H0; destruct H0; [lia|done]).
    rewrite Hk in *.
    assert ((k - 1) mod q = q - 1) as ->.
    { symmetry. apply Z.mod_unique with (k / q - 1); lia. }
    assert ((k - 1) / q = k / q - 1) as ->.
    { symmetry. apply Z.div_unique with (q - 1); lia. }
    rewrite Zminus_mod_idemp_l. f_equal. rewrite Z.mod_small; clearbody bits; nia.
  - assert (k mod q <> 0) as Hk by (intros Hk; apply H0; rewrite Hk; lia).
    assert ((k - 1) mod q = k mod q - 1) as ->.
    { symmetry. apply Z.mod_unique with (k / q); nia. }
    assert ((k - 1) / q = k / q) as ->.
    { symmetry. apply Z.div_unique with (k mod q - 1); nia. }
    f_equal. rewrite Z.mod_small; clearbody bits; nia.
Qed.

Lemma clear_ctr s : mk_state (bl_H s) (bl_S s) (2 ^ w - bits) (2 ^ w - 1) = at_ctr w (- bits) s.
Proof.
  destruct width_facts as (q & Hq & Hq0 & Hb0 & Hb & Hp). unfold at_ctr. f_equal.
  - apply Z.mod_unique with (-1); nia.
  - assert (- bits / 2 ^ w = -1) as ->.
    { symmetry. apply Z.div_unique with (2 ^ w - bits); nia. }
    apply Z.mod_unique with (-1); nia.
Qed.

(** *** Chaining *)

Lemma hash_blocks_app tot i a b s :
  hash_blocks w wb cmp tot i (a ++ b) s =
  hash_blocks w wb cmp tot (i + Z.of_nat (length a)) b (hash_blocks w wb cmp tot i a s).
Proof.
  revert i s. induction a as [|x a IH]; intros i s; cbn [app hash_blocks length].
  - f_equal. lia.
  - rewrite IH. f_equal. lia.
Qed.

(** Absorbing full blocks of a message is hashing them with their counters. *)
Lemma fold_gblock tot i blks s :
  bits * (i + Z.of_nat (length blks)) <= tot ->
  fold_left gblock blks (at_ctr w (bits * i) s) =
  at_ctr w (bits * (i + Z.of_nat (length blks))) (hash_blocks w wb cmp tot i blks s).
Proof.
  pose proof bits_pos as Hb. revert i s.
  induction blks as [|b blks IH]; intros i s Hle; cbn [fold_left hash_blocks length] in *.
  - do 2 f_equal. lia.
  - rewrite gblock_ctr, cmp_at_ctr.
    replace (bits * i + bits) with (bits * (i + 1)) by lia.
    assert (ctr_of wb tot i = bits * (i + 1)) as Hc.
    { unfold ctr_of. fold bs. fold bits. case Z.leb_spec; intros Hi; [|apply Z.min_l]; nia. }
    rewrite IH by nia. rewrite Hc. f_equal. lia.
Qed.

Lemma close_ctr k bl ptr n s :
  bl = 8 * Z.of_nat ptr + n -> 0 <= n -> bl < bits ->
  let s1 := at_ctr w (bits * k) s in
  (if (ptr =? 0)%nat && (n =? 0) then mk_state (bl_H s1) (bl_S s1) (2 ^ w - bits) (2 ^ w - 1)
   else if bl_T0 s1 =? 0
   then mk_state (bl_H s1) (bl_S s1) (T (2 ^ w - bits + bl)) (T (bl_T1 s1 - 1))
   else mk_state (bl_H s1) (bl_S s1) (T (bl_T0 s1 - (bits - bl))) (bl_T1 s1)) =
  at_ctr w (ctr_of wb (bits * k + bl) k - bits) s.
Proof.
  intros Hbl Hn Hlt s1. unfold s1. rewrite clear_ctr, final_ctr by lia.
  unfold ctr_of. fold bs. fold bits.
  case Nat.eqb_spec; intros Hp; case Z.eqb_spec; intros Hz; cbn [andb];
    (case Z.leb_spec; intros Hle); try lia; rewrite ?at_ctr_at_ctr; f_equal; lia.
Qed.

(** *** Padding *)

(** The marker, the zeros and the final bit as the closing code writes them. *)
Lemma close_mark u ptr k mb (b : bool) :
  (ptr + k < length u)%nat ->
  let u2 := memset (<[ptr := mb]> u) (ptr + 1) 0 k in
  (if b then <[(ptr + k)%nat := u2.[ptr + k] .| 1]> u2 else u2) =
  memcpy u ptr (mid (k + 1) mb (if b then 1 else 0)).
Proof.
  intros H u2. assert (u2 = memcpy u ptr ([mb] ++ replicate k 0)) as ->.
  { unfold u2, memset. rewrite insert_memcpy by lia.
    by rewrite <- (memcpy_memcpy u ptr [mb]) by (simpl; lia). }
  destruct k as [|k].
  - rewrite Nat.add_0_r. cbn [replicate app Nat.add].
    pose proof (nth_memcpy_last u ptr [] mb ltac:(lia)) as Hn.
    pose proof (insert_memcpy_last u ptr [] mb (mb .| 1) ltac:(simpl; lia)) as Hi.
    cbn [app length] in Hn, Hi. rewrite Nat.add_0_r in Hn, Hi.
    destruct b; [by rewrite Hn|]. unfold mid. simpl. by rewrite Z.lor_0_r.
  - rewrite mid_pred by lia. replace (S k + 1 - 2)%nat with k by lia.
    rewrite replicate_S_end, app_assoc. change ([mb] ++ replicate k 0) with (mb :: replicate k 0).
    destruct b; [|done].
    replace (ptr + S k)%nat with (ptr + length (mb :: replicate k 0%Z))%nat
      by (simpl; rewrite length_replicate; lia).
    rewrite nth_memcpy_last by lia. rewrite insert_memcpy_last; [done|].
    simpl. rewrite length_replicate. lia.
Qed.

Lemma close_len u ptr l th tl :
  length u = bs -> (ptr + length l = 14 * wb)%nat ->
  memcpy (memcpy (memcpy u ptr l) (14 * wb) (enc th)) (15 * wb) (enc tl) =
  memcpy u ptr (l ++ enc th ++ enc tl).
Proof.
  intros Hu Hl. rewrite <- Hl at 1. rewrite memcpy_memcpy by (unfold bs in Hu; lia).
  replace (15 * wb)%nat with (ptr + length (l ++ enc th))%nat
    by (rewrite length_app, Henc; lia).
  rewrite memcpy_memcpy; [by rewrite <- app_assoc|]. rewrite length_app, Henc. unfold bs in Hu. lia.
Qed.

Lemma pad_mid_short (msg : list Z) n mb f :
  let p := (length msg mod bs)%nat in
  8 * Z.of_nat p + n <= bits - 2 * w - 2 -> 0 <= n ->
  pad_mid wb (length msg) n mb f = mid (14 * wb - p) mb f.
Proof.
  intros p Hle Hn. unfold pad_mid. fold bs.
  assert ((length msg + 2 * wb) mod bs = p + 2 * wb)%nat as ->.
  { rewrite <- Nat.Div0.add_mod_idemp_l. fold p. apply Nat.mod_small. unfold bits, bs in *. lia. }
  replace (bs - (p + 2 * wb))%nat with (14 * wb - p)%nat by (unfold bs; lia).
  case Nat.eqb_spec; intros Hp; [|done]. case Z.eqb_spec; intros H7; [|done].
  unfold bits, bs in *. lia.
Qed.

Lemma pad_mid_long (msg : list Z) n mb f :
  let p := (length msg mod bs)%nat in
  bits - 2 * w - 2 < 8 * Z.of_nat p + n -> n <= 7 ->
  pad_mid wb (length msg) n mb f = mid (bs - p + 14 * wb) mb f.
Proof.
  intros p Hlt Hn. unfold pad_mid. fold bs.
  assert (p < bs)%nat as Hp by (apply Nat.mod_upper_bound; unfold bs; lia).
  assert ((p = 14 * wb - 1)%nat /\ n = 7 \/ (14 * wb <= p)%nat) as [[Hpe H7]|Hge]
    by (unfold bits, bs in *; lia).
  - assert ((length msg + 2 * wb) mod bs = p + 2 * wb)%nat as ->.
    { rewrite <- Nat.Div0.add_mod_idemp_l. fold p. apply Nat.mod_small. unfold bs in *. lia. }
    replace (bs - (p + 2 * wb))%nat with 1%nat by (unfold bs; lia). subst n. simpl.
    f_equal. unfold bs. lia.
  - assert ((length msg + 2 * wb) mod bs = p + 2 * wb - bs)%nat as ->.
    { rewrite <- Nat.Div0.add_mod_idemp_l. fold p. symmetry.
      apply Nat.mod_unique with 1%nat; unfold bs in *; lia. }
    case Nat.eqb_spec; intros Hp1; [unfold bs in *; lia|]. cbn [andb]. f_equal. unfold bs in *. lia.
Qed.

(** *** The digest *)

Lemma set_T_if (b b' : bool) T0 T1 T0' T1' T0'' T1'' (sc : stream_ctx blake_state) :
  (if b then set_T T0 T1 sc else if b' then set_T T0' T1' sc else set_T T0'' T1'' sc) =
  mk_ctx (buf sc) (ptr sc)
    (if b then mk_state (bl_H (st sc)) (bl_S (st sc)) T0 T1
     else if b' then mk_state (bl_H (st sc)) (bl_S (st sc)) T0' T1'
     else mk_state (bl_H (st sc)) (bl_S (st sc)) T0'' T1'').
Proof. by destruct b, b'. Qed.

Lemma close_one u p mb (b : bool) th tl :
  length u = bs -> (p < 14 * wb)%nat ->
  drop p (memcpy (memcpy
    (let u2 := memset (<[p := mb]> u) (p + 1) 0 (14 * wb - 1 - p) in
     if b then <[(14 * wb - 1)%nat := u2.[14 * wb - 1] .| 1]> u2 else u2)
    (14 * wb) (enc th)) (15 * wb) (enc tl)) =
  mid (14 * wb - p) mb (if b then 1 else 0) ++ enc th ++ enc tl.
Proof.
  intros Hu Hp. replace (14 * wb - 1)%nat with (p + (14 * wb - 1 - p))%nat by lia.
  set (k := (14 * wb - 1 - p)%nat). replace (p + k - p)%nat with k by lia.
  replace (14 * wb - p)%nat with (k + 1)%nat by lia.
  assert (p + k + 1 = 14 * wb)%nat as Hk by lia.
  assert (p + k < length u)%nat by (unfold bs in *; lia).
  cbv zeta. rewrite (close_mark u p k mb b) by done.
  rewrite close_len by (rewrite ?length_mid by lia; lia).
  apply drop_memcpy. rewrite !length_app, length_mid, !Henc by lia. unfold bs in *. lia.
Qed.

(** The second of the two blocks is written over the first. *)
Lemma close_two u (b : bool) th tl :
  length u = bs ->
  memcpy (memcpy
    (let u2 := memset u 0 0 (14 * wb) in if b then <[(14 * wb - 1)%nat := 1]> u2 else u2)
    (14 * wb) (enc th)) (15 * wb) (enc tl) =
  replicate (14 * wb - 1) 0 ++ [if b then 1 else 0] ++ enc th ++ enc tl.
Proof.
  intros Hu. assert (replicate (14 * wb) 0%Z = replicate (14 * wb - 1) 0 ++ [0]) as Hrep.
  { replace (14 * wb)%nat with (S (14 * wb - 1)) at 1 by lia. apply replicate_S_end. }
  assert ((let u2 := memset u 0 0 (14 * wb) in
           if b then <[(14 * wb - 1)%nat := 1]> u2 else u2) =
          memcpy u 0 (replicate (14 * wb - 1) 0 ++ [if b then 1 else 0])) as ->.
  { unfold memset. rewrite Hrep. destruct b; [|done]. cbv zeta.
    rewrite <- (insert_memcpy_last u 0 _ 0 1); rewrite length_replicate; [done|].
    unfold bs in *. lia. }
  rewrite close_len; [|done|rewrite length_app, length_replicate; simpl; lia].
  rewrite memcpy_all, <- app_assoc; [done|].
  rewrite !length_app, length_replicate, !Henc. simpl. unfold bs in *. lia.
Qed.

(** The blocks that the padded message adds to those of the message. *)
Lemma pad_blocks msg n mb f tail :
  let p := (length msg mod bs)%nat in
  length tail = (2 * wb)%nat -> 0 <= n <= 7 ->
  blocks bs (tail_bytes bs msg ++ pad_mid wb (length msg) n mb f ++ tail) =
  if 8 * Z.of_nat p + n <=? bits - 2 * w - 2
  then [tail_bytes bs msg ++ mid (14 * wb - p) mb f ++ tail]
  else [tail_bytes bs msg ++ mid (bs - p) mb 0; replicate (14 * wb - 1) 0 ++ [f] ++ tail].
Proof.
  intros p Htail Hn. assert (0 < bs)%nat as Hbs by (unfold bs; lia).
  assert (length (tail_bytes bs msg) = p) as Htl by by apply length_tail_bytes.
  assert (p < bs)%nat as Hp by (apply Nat.mod_upper_bound; lia).
  case Z.leb_spec; intros Hc.
  - rewrite pad_mid_short by (fold p; lia). fold p. apply blocks_one; [done|].
    rewrite !length_app, length_mid by (unfold bits, bs in *; lia).
    unfold bits, bs in *. lia.
  - rewrite pad_mid_long by (fold p; lia). fold p.
    replace (bs - p + 14 * wb)%nat with (bs - p + S (14 * wb - 1))%nat by lia.
    rewrite mid_split by lia. rewrite <- !app_assoc, (app_assoc (tail_bytes bs msg)).
    apply blocks_two; [done|..]; rewrite ?length_app, ?length_mid, ?length_replicate by lia;
      simpl; unfold bs in *; lia.
Qed.

Lemma blake_gclose_spec u s0 msg sc ub n out :
  length u = bs -> 0 <= n <= 7 ->
  repr bs gblock (at_ctr w 0 s0) msg sc ->
  fst (gclose u sc ub n out) =
  spec w wb cmp enc s0 msg n (mark_byte ub n) (if (out =? 8)%nat then 1 else 0) out.
Proof.
  intros Hu Hn Hr. assert (0 < bs)%nat as Hbs by (unfold bs; lia).
  pose proof (repr_wf bs gblock Hbs _ _ _ Hr) as [Hl Hlt].
  destruct Hr as (_ & Hp & Ht & Hs).
  set (nb := Z.of_nat (length msg / bs)). set (p := (length msg mod bs)%nat) in *.
  rewrite Hp in Hlt, Ht.
  set (bl := 8 * Z.of_nat p + n). set (tot := 8 * Z.of_nat (length msg) + n).
  assert (tot = bits * nb + bl) as Htot.
  { unfold tot, bl, nb, p, bits. pose proof (Nat.div_mod_eq (length msg) bs). lia. }
  assert (0 <= bl < bits) as Hbl by (unfold bl, bits in *; lia).
  set (S0 := hash_blocks w wb cmp tot 0 (blocks bs msg) s0).
  assert (st sc = at_ctr w (bits * nb) S0) as Hst.
  { rewrite Hs. replace 0 with (bits * 0) at 1 by lia.
    rewrite (fold_gblock tot) by (rewrite length_blocks by done; lia).
    rewrite length_blocks by done. done. }
  destruct (ctr_split nb bl Hbl) as [Hlo Hhi].
  unfold gclose. rewrite set_T_if. rewrite Hst, Hp. fold bs. fold bits.
  replace ((Z.of_nat p << 3) + n) with bl by (unfold bl; rewrite Z.shiftl_mul_pow2 by lia; lia).
  rewrite (close_ctr nb bl p n S0) by lia. rewrite <- Htot.
  set (c1 := ctr_of wb tot nb).
  cbn [at_ctr bl_T0 bl_T1]. rewrite T_mod, Zplus_mod_idemp_l, <- Hhi, <- Htot.
  fold (mark_byte ub n). set (mb := mark_byte ub n).
  unfold spec, pad. fold tot. fold bs.
  set (th := (tot / 2 ^ w) mod 2 ^ w). set (tl := tot mod 2 ^ w).
  rewrite (blocks_app bs Hbs), hash_blocks_app, length_blocks by done. fold S0. fold nb.
  rewrite pad_blocks by (rewrite ?length_app, ?Henc; lia). fold p. fold bl.
  cbn [fst]. do 3 f_equal.
  case Z.leb_spec; intros Hc; cbn [hash_blocks]; rewrite ?Z.add_0_l; fold c1.
  - pose proof (close_one u p mb (out =? 8)%nat th tl) as H1. cbv zeta in H1.
    rewrite H1 by (done || (unfold bl, bits, bs in *; lia)).
    rewrite (core_fill bs gblock Hbs); cbn [buf ptr st]; [|by split|].
    + rewrite Ht, gblock_ctr. by replace (c1 - bits + bits) with c1 by lia.
    + rewrite !length_app, length_mid, !Henc by (unfold bl, bits, bs in *; lia).
      unfold bl, bits, bs in *. lia.
  - pose proof (close_mark u p (bs - 1 - p) mb false ltac:(lia)) as H1. cbv zeta in H1.
    rewrite H1. replace (bs - 1 - p + 1)%nat with (bs - p)%nat by lia.
    assert (length (mid (bs - p) mb 0) = bs - p)%nat as Hlm by (apply length_mid; lia).
    assert (length (memcpy u p (mid (bs - p) mb 0)) = bs) as Hlu.
    { rewrite length_memcpy; lia. }
    rewrite drop_memcpy by lia.
    rewrite (core_fill bs gblock Hbs (mk_ctx (buf sc) p _)); cbn [buf ptr st];
      [|split; done|lia]. unfold set_T at 1. cbn [buf ptr st].
    rewrite Ht, gblock_ctr, clear_ctr. replace (c1 - bits + bits) with c1 by lia.
    set (b1 := tail_bytes bs msg ++ _) in *.
    pose proof (close_two (memcpy u p (mid (bs - p) mb 0)) (out =? 8)%nat th tl Hlu) as H2.
    cbv zeta in H2. rewrite H2. set (b2 := replicate _ _ ++ _).
    rewrite (core_fill bs gblock Hbs); cbn [buf ptr st];
      [|split; cbn [buf ptr]; [rewrite length_memcpy; lia|lia]|unfold b2; rewrite !length_app, length_replicate, !Henc; simpl; unfold bs; lia].
    rewrite take_0. cbn [app]. rewrite gblock_ctr. replace (- bits + bits) with 0 by lia.
    f_equal. f_equal. unfold ctr_of. fold bs. fold bits. case Z.leb_spec; [done|lia].
Qed.

End Close.

Lemma blake32_close_gclose : blake32_close = gclose 32 0xFFFFFFFF 4 sph_enc32be COMPRESS32.
Proof. reflexivity. Qed.
Lemma blake64_close_gclose : blake64_close = gclose 64 0xFFFFFFFFFFFFFFFF 8 sph_enc64be COMPRESS64.
Proof. reflexivity. Qed.

(** ** The round function is a permutation of the sixteen words *)

Section Inverse.
Context (w m : Z) (Hm : m = Z.ones w) (Hw : 0 < w) (r1 r2 r3 r4 : Z)
  (Hr1 : 0 <= r1 <= w) (Hr2 : 0 <= r2 <= w) (Hr3 : 0 <= r3 <= w) (Hr4 : 0 <= r4 <= w)
  (C : list Z).
#[local] Abbreviation g := (G (wT m) (wrotr m w) r1 r2 r3 r4).
#[local] Abbreviation g_at := (G_at (wT m) (wrotr m w) r1 r2 r3 r4).

Definition G_inv (m0 m1 c0 c1 : Z) (abcd : Z * Z * Z * Z) : Z * Z * Z * Z :=
  let '(a, b, c, d) := abcd in
  let b := wrotl m w b r4 ⊕ c in
  let c := wT m (c - d) in
  let d := wrotl m w d r3 ⊕ a in
  let a := wT m (a - (b + (m1 ⊕ c0))) in
  let b := wrotl m w b r2 ⊕ c in
  let c := wT m (c - d) in
  let d := wrotl m w d r1 ⊕ a in
  let a := wT m (a - (b + (m0 ⊕ c1))) in
  (a, b, c, d).

Lemma rot_lxor_cancel x y r :
  word w x -> word w y -> 0 <= r <= w -> wrotl m w (wrotr m w (x ⊕ y) r) r ⊕ y = x.
Proof.
  intros Hx Hy Hr. rewrite wrotl_wrotr by auto using word_lxor.
  by rewrite Z.lxor_assoc, Z.lxor_nilpotent, Z.lxor_0_r.
Qed.

Lemma wT_add3_sub x y k : word w x -> wT m (wT m (x + y + k) - (y + k)) = x.
Proof. intros. rewrite <- Z.add_assoc. by apply (wT_add_sub w). Qed.

Lemma G_inv_G m0 m1 c0 c1 a b c d :
  word w a -> word w b -> word w c -> word w d ->
  G_inv m0 m1 c0 c1 (g m0 m1 c0 c1 (a, b, c, d)) = (a, b, c, d).
Proof.
  intros Ha Hb Hc Hd. assert (forall x, word w (wT m x)) as HT by (intros; by apply wT_word).
  assert (forall x n, word w (wrotr m w x n)) as HR by (intros; by apply wrotr_word).
  unfold G, G_inv. cbv zeta.
  repeat first [ rewrite rot_lxor_cancel by auto using word_lxor
               | rewrite wT_add3_sub by auto
               | rewrite (wT_add_sub w) by auto ].
  done.
Qed.

Lemma G_word m0 m1 c0 c1 a b c d :
  let '(a', b', c', d') := g m0 m1 c0 c1 (a, b, c, d) in
  word w a' /\ word w b' /\ word w c' /\ word w d'.
Proof.
  unfold G. split_and!; (apply wT_word || apply wrotr_word); done.
Qed.

(** A step on four different variables has an inverse and keeps words words. *)
Definition G_at_inv (m0 m1 c0 c1 : Z) (a b c d : nat) (V : list Z) : list Z :=
  let '(va, vb, vc, vd) := G_inv m0 m1 c0 c1 (V.[a], V.[b], V.[c], V.[d]) in
  <[d := vd]> (<[c := vc]> (<[b := vb]> (<[a := va]> V))).

Definition distinct4 (a b c d : nat) : bool :=
  forallb (fun i => i <? 16)%nat [a; b; c; d] &&
  negb (existsb (Nat.eqb a) [b; c; d] || existsb (Nat.eqb b) [c; d] || Nat.eqb c d).

Definition wfV (V : list Z) : Prop := length V = 16%nat /\ words w V.

Lemma G_at_wf m0 m1 c0 c1 a b c d V : wfV V -> wfV (g_at m0 m1 c0 c1 a b c d V).
Proof.
  intros [HV HW]. unfold G_at, wfV.
  pose proof (G_word m0 m1 c0 c1 V.[a] V.[b] V.[c] V.[d]) as HG.
  destruct (g _ _ _ _ _) as [[[va vb] vc] vd]. destruct HG as (?&?&?&?).
  split; [by rewrite !length_insert|]. auto using Forall_insert.
Qed.

Lemma G_at_inv_G_at m0 m1 c0 c1 a b c d V :
  distinct4 a b c d = true -> wfV V ->
  G_at_inv m0 m1 c0 c1 a b c d (g_at m0 m1 c0 c1 a b c d V) = V.
Proof.
  intros Hd [HV HW]. unfold distinct4 in Hd. simpl in Hd.
  rewrite !andb_true_iff, negb_true_iff, !orb_false_iff, !Nat.ltb_lt, !Nat.eqb_neq in Hd.
  assert (a <> b /\ a <> c /\ a <> d /\ b <> c /\ b <> d /\ c <> d)%nat as Hne by tauto.
  assert (a < 16 /\ b < 16 /\ c < 16 /\ d < 16)%nat as Hlt by tauto. clear Hd.
  assert (forall i, word w V.[i]) as Hv by (intros; apply words_nth; [lia|done]).
  unfold G_at, G_at_inv.
  pose proof (G_inv_G m0 m1 c0 c1 V.[a] V.[b] V.[c] V.[d]) as Hi.
  destruct (g _ _ _ _ _) as [[[va vb] vc] vd].
  rewrite !nth_insert by (rewrite ?length_insert; lia).
  repeat ((rewrite decide_True by done) || (rewrite decide_False by lia)).
  rewrite Hi by auto. apply nth_ext with 0 0; [by rewrite !length_insert|].
  intros i Hi'. rewrite !nth_insert by (rewrite ?length_insert; lia).
  repeat case_decide; subst; congruence.
Qed.

Lemma G_call_inj z M call V V' :
  let '(_, (a, b, c, d)) := call in distinct4 a b c d = true ->
  wfV V -> wfV V' ->
  G_call (wT m) (wrotr m w) r1 r2 r3 r4 C z M V call =
  G_call (wT m) (wrotr m w) r1 r2 r3 r4 C z M V' call -> V = V'.
Proof.
  destruct call as [i [[[a b] c] d]]. intros Hd HV HV' Heq. unfold G_call in Heq.
  eapply (f_equal (G_at_inv _ _ _ _ a b c d)) in Heq. by rewrite !G_at_inv_G_at in Heq.
Qed.

Lemma ROUND_wf z M V : wfV V -> wfV (ROUND (wT m) (wrotr m w) r1 r2 r3 r4 C z M V).
Proof.
  unfold ROUND. generalize G_calls as calls. intros calls. revert V.
  induction calls as [|[i [[[a b] c] d]] calls IH]; intros V HV; [done|].
  cbn [fold_left]. apply IH. by apply G_at_wf.
Qed.

Lemma ROUND_inj z M V V' :
  wfV V -> wfV V' ->
  ROUND (wT m) (wrotr m w) r1 r2 r3 r4 C z M V = ROUND (wT m) (wrotr m w) r1 r2 r3 r4 C z M V' ->
  V = V'.
Proof.
  unfold ROUND.
  assert (Forall (fun '(_, (a, b, c, d)) => distinct4 a b c d = true) G_calls) as Hd
    by (repeat constructor).
  revert V V'. induction Hd as [|[i [[[a b] c] d]] calls Hd Hds IH]; intros V V' HV HV' Heq; [done|].
  cbn [fold_left] in Heq. apply IH in Heq; [|by apply G_at_wf..].
  by apply (G_call_inj z M (i, (a, b, c, d))) in Heq.
Qed.

End Inverse.

(** ** Main results *)

Lemma compress_fields T rotr r1 r2 r3 r4 C rows dec wsz s b :
  let s' := compress T rotr r1 r2 r3 r4 C rows dec wsz s b in
  bl_S s' = bl_S s /\ bl_T0 s' = bl_T0 s /\ bl_T1 s' = bl_T1 s.
Proof. done. Qed.

(** The IV and the salt as a chaining state. *)
Definition start (iv salt : list Z) : blake_state := mk_state iv salt 0 0.

Lemma blake64_spec cc u iv salt ds ub n out :
  length (buf cc) = 128%nat -> length u = 128%nat -> 0 <= n <= 7 ->
  fst (blake64_close u (fold_left blake64 ds (blake64_init cc iv salt)) ub n out) =
  spec 64 8 COMPRESS64 sph_enc64be (start iv salt) (concat ds) n (mark_byte ub n)
    (if (out =? 8)%nat then 1 else 0) out.
Proof.
  intros Hb Hu Hn. rewrite blake64_close_gclose. apply blake_gclose_spec; try done; [lia|..].
  - exists (2 ^ 54). done.
  - apply (init_core_repr 128 blake64_block); lia.
Qed.

Lemma blake32_spec cc u iv salt ds ub n out :
  length (buf cc) = 64%nat -> length u = 64%nat -> 0 <= n <= 7 ->
  fst (blake32_close u (fold_left blake32 ds (blake32_init cc iv salt)) ub n out) =
  spec 32 4 COMPRESS32 sph_enc32be (start iv salt) (concat ds) n (mark_byte ub n)
    (if (out =? 8)%nat then 1 else 0) out.
Proof.
  intros Hb Hu Hn. rewrite blake32_close_gclose. apply blake_gclose_spec; try done; [lia|..].
  - exists (2 ^ 23). done.
  - apply (init_core_repr 64 blake32_block); lia.
Qed.

(** The two compile-time variants of the compression functions, the loop
    over the [sigma] table and the unrolled rounds over the [Z] macros, are the
    same functions, for 32-bit and for 64-bit words. *)
Theorem compress_variants_agree :
  COMPRESS32_compact = COMPRESS32 /\ COMPRESS64_compact = COMPRESS64.
Proof. split; reflexivity. Qed.

Lemma ROUND_B_eq r :
  ROUND_B r = ROUND (wT 0xFFFFFFFFFFFFFFFF) (wrotr 0xFFFFFFFFFFFFFFFF 64) 32 25 16 11 CB (nth r Ztab []).
Proof. reflexivity. Qed.

Lemma ROUND_S_eq r :
  ROUND_S r = ROUND (wT 0xFFFFFFFF) (wrotr 0xFFFFFFFF 32) 16 12 8 7 CS (nth r Ztab []).
Proof. reflexivity. Qed.

Lemma blake64_rounds_injective rs M V V' :
  let run := fold_left (fun V r => ROUND_B r M V) rs in
  wfV 64 V -> wfV 64 V' -> run V = run V' -> V = V'.
Proof.
  cbv zeta. revert V V'. induction rs as [|r rs IH]; intros V V' HV HV' Heq; [done|].
  rewrite !fold_left_cons, ROUND_B_eq in Heq. apply IH in Heq.
  - apply ROUND_inj in Heq; (done || lia).
  - by apply ROUND_wf.
  - by apply ROUND_wf.
Qed.

Lemma blake32_rounds_injective rs M V V' :
  let run := fold_left (fun V r => ROUND_S r M V) rs in
  wfV 32 V -> wfV 32 V' -> run V = run V' -> V = V'.
Proof.
  cbv zeta. revert V V'. induction rs as [|r rs IH]; intros V V' HV HV' Heq; [done|].
  rewrite !fold_left_cons, ROUND_S_eq in Heq. apply IH in Heq.
  - apply ROUND_inj in Heq; (done || lia).
  - by apply ROUND_wf.
  - by apply ROUND_wf.
Qed.

(** ** The compression function of the specification *)

(** The fractional part of pi in 1024 bits, by Machin's formula with 64 bits to
    spare: pi = 16 atan(1/5) - 4 atan(1/239). *)
Fixpoint atan_inv (fuel : nat) (x2 term k : Z) : Z :=
  match fuel with O => 0 | S fuel => if term =? 0 then 0 else term / k - atan_inv fuel x2 (term / x2) (k + 2) end.
Definition pi_fraction : Z :=
  let one := 2 ^ (1024 + 64) in
  ((16 * atan_inv 1100 25 (one / 5) 1 - 4 * atan_inv 1100 (239 * 239) (one / 239) 1) / 2 ^ 64) mod 2 ^ 1024.

(** The constants are the first sixteen words of it. *)
Definition pi_word (w : Z) (i : nat) : Z := (pi_fraction / 2 ^ (1024 - w * (Z.of_nat i + 1))) mod 2 ^ w.

(** The initial values: fractional parts of the roots of the first and of the second
    eight primes, for the two short digests their last 32 bits. *)
Definition root_fraction (p : Z) : Z := Z.sqrt (p * 2 ^ 128) mod 2 ^ 64.
Definition iv_512 : list Z := root_fraction <$> [2; 3; 5; 7; 11; 13; 17; 19].
Definition iv_384 : list Z := root_fraction <$> [23; 29; 31; 37; 41; 43; 47; 53].
Definition iv_256 : list Z := (fun x => x / 2 ^ 32) <$> iv_512.
Definition iv_224 : list Z := (fun x => x mod 2 ^ 32) <$> iv_384.

Lemma blake_constants :
  CS = pi_word 32 <$> seq 0 16 /\ CB = pi_word 64 <$> seq 0 16 /\ IV224 = iv_224 /\ IV256 = iv_256 /\ IV384 = iv_384 /\ IV512 = iv_512.
Proof. split_and!; apply list_eqb_eq; vm_compute; reflexivity. Qed.

Lemma pi_word_word w i : 0 < w -> word w (pi_word w i).
Proof. intros Hw. unfold pi_word. generalize (pi_fraction / 2 ^ (1024 - w * (Z.of_nat i + 1))). intros x. apply Z.mod_pos_bound, Z.pow_pos_nonneg; lia. Qed.

#[local] Opaque pi_word.

(** The ten permutations, row by row. *)
Definition permutations : list nat := [
  0; 1; 2; 3; 4; 5; 6; 7; 8; 9; 10; 11; 12; 13; 14; 15;   14; 10; 4; 8; 9; 15; 13; 6; 1; 12; 0; 2; 11; 7; 5; 3;
  11; 8; 12; 0; 5; 2; 15; 13; 10; 14; 3; 6; 7; 1; 9; 4;   7; 9; 3; 1; 13; 12; 11; 14; 2; 6; 5; 10; 4; 0; 15; 8;
  9; 0; 5; 7; 2; 4; 10; 15; 14; 1; 11; 12; 6; 8; 3; 13;   2; 12; 6; 10; 0; 11; 8; 3; 4; 13; 7; 5; 15; 14; 1; 9;
  12; 5; 1; 15; 14; 13; 4; 10; 0; 7; 6; 3; 9; 2; 8; 11;   13; 11; 7; 14; 12; 1; 3; 9; 5; 0; 15; 4; 8; 6; 2; 10;
  6; 15; 14; 9; 11; 3; 0; 8; 12; 2; 13; 7; 1; 4; 10; 5;   10; 2; 8; 4; 7; 6; 1; 5; 15; 11; 9; 14; 3; 12; 13; 0]%nat.
Definition perm (r i : nat) : nat := nth (16 * (r mod 10) + i) permutations 0%nat.

Section Reference.
Context (w : Z) (r1 r2 r3 r4 : Z) (rounds : nat).

Definition plus (x y : Z) : Z := (x + y) mod 2 ^ w.
Definition ror (x r : Z) : Z := x / 2 ^ r + (x mod 2 ^ r) * 2 ^ (w - r).

(** The working variables as a matrix with four columns; the [i]-th of the eight calls
    of a round works on a column or, from the fourth call on, on a diagonal. *)
Definition cell (i row : nat) : nat := (4 * row + (if i <? 4 then i else i + row) mod 4)%nat.

Definition update (v : nat -> Z) (i : nat) (x : Z) : nat -> Z := fun j => if (j =? i)%nat then x else v j.

Definition quarter (m0 m1 c0 c1 a b c d : Z) : Z * Z * Z * Z :=
  let a := plus (plus a b) (m0 ⊕ c1) in
  let d := ror (d ⊕ a) r1 in
  let c := plus c d in
  let b := ror (b ⊕ c) r2 in
  let a := plus (plus a b) (m1 ⊕ c0) in
  let d := ror (d ⊕ a) r3 in
  let c := plus c d in
  let b := ror (b ⊕ c) r4 in
  (a, b, c, d).

Definition call_step (m v : nat -> Z) (r i : nat) : nat -> Z :=
  let x := perm r (2 * i) in let y := perm r (2 * i + 1) in
  let '(a, b, c, d) := quarter (m x) (m y) (pi_word w x) (pi_word w y) (v (cell i 0)) (v (cell i 1)) (v (cell i 2)) (v (cell i 3)) in
  update (update (update (update v (cell i 0) a) (cell i 1) b) (cell i 2) c) (cell i 3) d.

Definition round (m v : nat -> Z) (r : nat) : nat -> Z := fold_left (fun v i => call_step m v r i) (seq 0 8) v.

(** The first half of the matrix is the chaining value, the second one the salt and
    the counter, each counter word twice, combined with the constants. *)
Definition first_matrix (h s : list Z) (t0 t1 : Z) (i : nat) : Z :=
  if (i <? 8)%nat then h.[i]
  else (if (i <? 12)%nat then s.[i - 8] else if (i <? 14)%nat then t0 else t1) ⊕ pi_word w (i - 8).

Definition reference (read : list Z -> Z) (wb : nat) (s : blake_state) (block : list Z) : blake_state :=
  let v := fold_left (round (fun i => read (drop (wb * i) block))) (seq 0 rounds) (first_matrix (bl_H s) (bl_S s) (bl_T0 s) (bl_T1 s)) in
  mk_state ((fun i => (bl_H s).[i] ⊕ (bl_S s).[i mod 4] ⊕ v i ⊕ v (i + 8)%nat) <$> seq 0 8) (bl_S s) (bl_T0 s) (bl_T1 s).

End Reference.

(** *** The code computes it *)

Section Rounds.
Context (w m : Z) (Hm : m = Z.ones w) (Hw : 0 < w) (r1 r2 r3 r4 : Z)
  (Hr1 : 0 < r1 < w) (Hr2 : 0 < r2 < w) (Hr3 : 0 < r3 < w) (Hr4 : 0 < r4 < w)
  (C : list Z) (HC : C = pi_word w <$> seq 0 16).

Lemma ror_wrotr x r : word w x -> 0 < r < w -> wrotr m w x r = ror w x r.
Proof.
  intros [H0 H1] Hr. unfold wrotr, wrotl, ror. replace (w - (w - r)) with r by lia. rewrite (wT_mod w m Hm Hw), Z.shiftr_div_pow2, Z.shiftl_mul_pow2 by lia.
  assert (2 ^ w = 2 ^ (w - r) * 2 ^ r) as Ew by (rewrite <- Z.pow_add_r by lia; f_equal; lia).
  assert (0 < 2 ^ (w - r) /\ 0 < 2 ^ r) as [P1 P2] by (split; apply Z.pow_pos_nonneg; lia).
  assert (0 <= x / 2 ^ r < 2 ^ (w - r)) as Hd by (split; [apply Z.div_pos; lia|apply Z.div_lt_upper_bound; lia]).
  assert (x * 2 ^ (w - r) .| (x / 2 ^ r) = x * 2 ^ (w - r) + x / 2 ^ r) as ->.
  { pose proof (Z.add_lor_land (x * 2 ^ (w - r)) (x / 2 ^ r)) as Ea. assert (x * 2 ^ (w - r) .& (x / 2 ^ r) = 0) as E0; [|lia]. apply Z.bits_inj'. intros i Hi. rewrite Z.land_spec, Z.bits_0.
    destruct (Z.lt_ge_cases i (w - r)) as [Hlt|Hge]; [rewrite Z.mul_pow2_bits_low by lia; done|].
    rewrite (Z.bits_above_log2 (x / 2 ^ r)), andb_false_r; [done|lia|]. destruct (Z.eq_dec (x / 2 ^ r) 0) as [->|]; [cbn; lia|]. apply Z.log2_lt_pow2; [lia|]. apply (Z.lt_le_trans _ (2 ^ (w - r))); [lia|]. apply Z.pow_le_mono_r; lia. }
  rewrite Ew at 1. pose proof (Z.div_mod x (2 ^ r) ltac:(lia)) as Ex. pose proof (Z.mod_pos_bound x (2 ^ r) P2) as Hx.
  symmetry. apply (Z.mod_unique_pos _ _ (x / 2 ^ r)); nia.
Qed.

(** The working variables of the code and the matrix. *)
Definition matrix_of (V : list Z) (v : nat -> Z) : Prop := length V = 16%nat /\ words w V /\ forall i, (i < 16)%nat -> V.[i] = v i.

Lemma constant i : (i < 16)%nat -> C.[i] = pi_word w i.
Proof.
  intros Hi. rewrite HC. apply nth_lookup_Some. rewrite list_lookup_fmap, lookup_seq_lt by done. reflexivity.
Qed.

Lemma G_quarter m0 m1 c0 c1 a b c d : word w b -> word w d ->
  G (wT m) (wrotr m w) r1 r2 r3 r4 m0 m1 c0 c1 (a, b, c, d) = quarter w r1 r2 r3 r4 m0 m1 c0 c1 a b c d.
Proof.
  intros Hb Hd. unfold G, quarter. cbv zeta.
  assert (forall a b x, wT m (a + b + x) = plus w (plus w a b) x) as Hplus by (intros; rewrite (wT_mod w m Hm Hw); unfold plus; by rewrite Zplus_mod_idemp_l).
  assert (forall a b, wT m (a + b) = plus w a b) as Hplus2 by (intros; by rewrite (wT_mod w m Hm Hw)).
  assert (forall a b, word w (plus w a b)) as Hpw by (intros; apply Z.mod_pos_bound, Z.pow_pos_nonneg; lia).
  assert (forall x y r, word w x -> word w y -> 0 < r < w -> wrotr m w (x ⊕ y) r = ror w (x ⊕ y) r /\ word w (ror w (x ⊕ y) r)) as Hrot.
  { intros x y r Hx Hy Hr. assert (word w (x ⊕ y)) by (by apply word_lxor). rewrite <- ror_wrotr by done. split; [done|by apply wrotr_word]. }
  rewrite !Hplus, !Hplus2.
  set (a1 := plus w (plus w a b) _). destruct (Hrot d a1 r1 Hd (Hpw _ _) Hr1) as [-> Hd1]. set (d1 := ror w (d ⊕ a1) r1) in *.
  set (c1' := plus w c d1). destruct (Hrot b c1' r2 Hb (Hpw _ _) Hr2) as [-> Hb1]. set (b1 := ror w (b ⊕ c1') r2) in *.
  set (a2 := plus w (plus w a1 b1) _). destruct (Hrot d1 a2 r3 Hd1 (Hpw _ _) Hr3) as [-> Hd2]. set (d2 := ror w (d1 ⊕ a2) r3) in *.
  set (c2 := plus w c1' d2). by destruct (Hrot b1 c2 r4 Hb1 (Hpw _ _) Hr4) as [-> _].
Qed.

Lemma cell_lt i row : (row < 4)%nat -> (cell i row < 16)%nat.
Proof. intros Hrow. unfold cell. pose proof (Nat.mod_upper_bound (if (i <? 4)%nat then i else (i + row)%nat) 4). lia. Qed.

Lemma cell_ne i a b : (a < 4)%nat -> (b < 4)%nat -> a <> b -> cell i a <> cell i b.
Proof.
  intros Ha Hb Hne. unfold cell. pose proof (Nat.mod_upper_bound (if (i <? 4)%nat then i else (i + a)%nat) 4). pose proof (Nat.mod_upper_bound (if (i <? 4)%nat then i else (i + b)%nat) 4). lia.
Qed.

Context (M : list Z) (mm : nat -> Z) (HM : forall j, (j < 16)%nat -> M.[j] = mm j).

Lemma call_step_matrix V v r i z : (i < 8)%nat -> z = perm r <$> seq 0 16 -> (forall j, (j < 16)%nat -> (perm r j < 16)%nat) -> matrix_of V v ->
  matrix_of (G_call (wT m) (wrotr m w) r1 r2 r3 r4 C z M V (2 * i, (cell i 0, cell i 1, cell i 2, cell i 3))%nat) (call_step w r1 r2 r3 r4 mm v r i).
Proof.
  intros Hi -> Hp (HV & HW & Hv).
  assert (forall j, (j < 16)%nat -> nth j (perm r <$> seq 0 16) 0%nat = perm r j) as Hz.
  { intros j Hj. apply nth_lookup_Some. rewrite list_lookup_fmap, lookup_seq_lt by done. done. }
  unfold G_call, call_step. replace (S (2 * i)) with (2 * i + 1)%nat by lia. rewrite !Hz by lia. rewrite !constant, !HM by (apply Hp; lia).
  unfold G_at. rewrite G_quarter by (apply words_nth; [lia|done]). rewrite !Hv by (apply cell_lt; lia).
  pose proof (G_word w m Hm Hw r1 r2 r3 r4 (mm (perm r (2 * i))) (mm (perm r (2 * i + 1))) (pi_word w (perm r (2 * i))) (pi_word w (perm r (2 * i + 1))) V.[cell i 0] V.[cell i 1] V.[cell i 2] V.[cell i 3]) as Hg.
  rewrite G_quarter in Hg by (apply words_nth; [lia|done]). rewrite !Hv in Hg by (apply cell_lt; lia).
  destruct (quarter _ _ _ _ _ _ _ _ _ _ _ _ _) as [[[a b] c] d]. destruct Hg as (Ga & Gb & Gc & Gd).
  split; [by rewrite !length_insert|]. split; [auto using Forall_insert|].
  intros j Hj. rewrite !nth_insert by (rewrite ?length_insert, HV; apply cell_lt; lia). unfold update.
  repeat case_decide; subst; rewrite ?Nat.eqb_refl; repeat match goal with |- context [(?x =? ?y)%nat] => destruct (Nat.eqb_spec x y) end; try congruence; by apply Hv.
Qed.

Lemma round_matrix V v r z : z = perm r <$> seq 0 16 -> (forall j, (j < 16)%nat -> (perm r j < 16)%nat) -> matrix_of V v ->
  matrix_of (ROUND (wT m) (wrotr m w) r1 r2 r3 r4 C z M V) (round w r1 r2 r3 r4 mm v r).
Proof.
  intros Hz Hp HV. unfold ROUND, round. change G_calls with ((fun i => (2 * i, (cell i 0, cell i 1, cell i 2, cell i 3)))%nat <$> seq 0 8).
  assert (forall l V v, Forall (fun i => i < 8)%nat l -> matrix_of V v ->
    matrix_of (fold_left (G_call (wT m) (wrotr m w) r1 r2 r3 r4 C z M) ((fun i => (2 * i, (cell i 0, cell i 1, cell i 2, cell i 3)))%nat <$> l) V)
      (fold_left (fun v i => call_step w r1 r2 r3 r4 mm v r i) l v)) as H.
  { clear V v HV. induction l as [|i l IH]; intros V v Hl HV; [done|]. apply Forall_cons in Hl as [Hi Hl]. rewrite fmap_cons. cbn [fold_left]. apply IH; [done|]. by apply call_step_matrix. }
  apply H; [|done]. apply Forall_seq. lia.
Qed.

Lemma rounds_matrix l V v : Forall (fun r => forall j, (j < 16)%nat -> (perm r j < 16)%nat) l -> matrix_of V v ->
  matrix_of (fold_left (fun V z => ROUND (wT m) (wrotr m w) r1 r2 r3 r4 C z M V) ((fun r => perm r <$> seq 0 16) <$> l) V) (fold_left (round w r1 r2 r3 r4 mm) l v).
Proof.
  revert V v. induction l as [|r l IH]; intros V v Hl HV; [done|]. apply Forall_cons in Hl as [Hr Hl]. rewrite fmap_cons, !fold_left_cons. apply IH; [exact Hl|]. exact (round_matrix V v r (perm r <$> seq 0 16) eq_refl Hr HV).
Qed.

End Rounds.

(** A chaining state of words. *)
Record state_ok (w : Z) (s : blake_state) : Prop := {
  so_H : length (bl_H s) = 8%nat /\ words w (bl_H s);
  so_S : length (bl_S s) = 4%nat /\ words w (bl_S s);
  so_T : word w (bl_T0 s) /\ word w (bl_T1 s)
}.

Lemma perm_lt r j : (j < 16)%nat -> (perm r j < 16)%nat.
Proof.
  intros Hj. unfold perm. pose proof (Nat.mod_upper_bound r 10 ltac:(lia)). assert (Forall (fun x => x < 16)%nat permutations) as Hp by (repeat constructor).
  rewrite nth_lookup. destruct (permutations !! _) as [x|] eqn:E; [|cbn; lia]. by eapply Forall_lookup_1 in Hp; [|exact E].
Qed.

Section Compress.
Context (w m : Z) (Hm : m = Z.ones w) (Hw : 0 < w) (r1 r2 r3 r4 : Z)
  (Hr1 : 0 < r1 < w) (Hr2 : 0 < r2 < w) (Hr3 : 0 < r3 < w) (Hr4 : 0 < r4 < w)
  (C : list Z) (HC : C = pi_word w <$> seq 0 16) (read : list Z -> Z) (wb : nat).

Lemma first_matrix_ok s : state_ok w s -> matrix_of w (init_V C s) (first_matrix w (bl_H s) (bl_S s) (bl_T0 s) (bl_T1 s)).
Proof.
  intros [[Hh HH] [Hs HS] [H0 H1]]. unfold init_V. rewrite !(constant w C HC) by lia.
  assert (forall i, word w (pi_word w i)) as Hp by (intros; by apply pi_word_word). assert (forall i, word w (bl_S s).[i]) as HSi by (intros; apply words_nth; [lia|done]).
  split; [rewrite length_app, Hh; done|]. split.
  - apply Forall_app. split; [exact HH|]. do 8 (apply Forall_cons_2; [apply word_lxor; [first [exact H0 | exact H1 | apply HSi]|apply Hp]|]). apply Forall_nil_2.
  - intros i Hi. unfold first_matrix. destruct (Nat.ltb_spec i 8) as [Hl|Hl]; [by rewrite app_nth1 by lia|]. rewrite app_nth2, Hh by lia.
    clear HSi Hp. do 16 (destruct i as [|i]; [first [exfalso; lia | reflexivity]|]). exfalso. lia.
Qed.

Lemma compress_reference rounds s block : state_ok w s ->
  compress (wT m) (wrotr m w) r1 r2 r3 r4 C ((fun r => perm r <$> seq 0 16) <$> seq 0 rounds) read wb s block = reference w r1 r2 r3 r4 rounds read wb s block /\
  state_ok w (reference w r1 r2 r3 r4 rounds read wb s block).
Proof.
  intros Hs. pose proof (first_matrix_ok s Hs) as HV. unfold compress, reference. set (M := (fun i => read (drop (wb * i) block)) <$> seq 0 16).
  assert (forall j, (j < 16)%nat -> M.[j] = read (drop (wb * j) block)) as HM.
  { intros j Hj. unfold M. apply nth_lookup_Some. rewrite list_lookup_fmap, lookup_seq_lt by done. reflexivity. }
  destruct (rounds_matrix w m Hm Hw r1 r2 r3 r4 Hr1 Hr2 Hr3 Hr4 C HC M (fun j => read (drop (wb * j) block)) HM (seq 0 rounds) _ _ ltac:(apply Forall_true; intros r j; apply perm_lt) HV) as (Vl & Vw & Vv).
  set (V := fold_left _ _ (init_V C s)) in *. set (v := fold_left (round _ _ _ _ _ _) _ _) in *. clearbody V v.
  assert (final_H s V = (fun i => (bl_H s).[i] ⊕ (bl_S s).[i mod 4] ⊕ v i ⊕ v (i + 8)%nat) <$> seq 0 8) as ->.
  { unfold final_H. cbn [seq fmap list_fmap]. rewrite !Vv by lia. cbn [Nat.add]. rewrite !Z.lxor_assoc. reflexivity. }
  split; [done|]. destruct Hs as [[Hh HH] [Hl HS] HT]. split; cbn [bl_H bl_S bl_T0 bl_T1]; [|done..]. split; [done|].
  apply Forall_fmap, Forall_seq. intros i Hi. cbn. rewrite <- !Vv by lia. repeat apply word_lxor; apply words_nth; done || lia.
Qed.

End Compress.

(** The states of a message stay states of words. *)
Lemma at_ctr_ok w t s : 0 < w -> state_ok w s -> state_ok w (at_ctr w t s).
Proof. intros Hw [HH HS _]. split; [done|done|]. split; apply Z.mod_pos_bound, Z.pow_pos_nonneg; lia. Qed.

Lemma hash_blocks_ext w wb cmp1 cmp2 : 0 < w -> (forall s b, state_ok w s -> cmp1 s b = cmp2 s b /\ state_ok w (cmp2 s b)) ->
  forall blks tot i s, state_ok w s -> hash_blocks w wb cmp1 tot i blks s = hash_blocks w wb cmp2 tot i blks s.
Proof.
  intros Hw Hc. induction blks as [|b blks IH]; intros tot i s Hs; [done|]. cbn [hash_blocks].
  destruct (Hc (at_ctr w (ctr_of wb tot i) s) b (at_ctr_ok w _ s Hw Hs)) as [-> Hs']. by apply IH.
Qed.

Lemma spec_ext w wb cmp1 cmp2 enc s msg n mb f out : 0 < w -> (forall s b, state_ok w s -> cmp1 s b = cmp2 s b /\ state_ok w (cmp2 s b)) -> state_ok w s ->
  spec w wb cmp1 enc s msg n mb f out = spec w wb cmp2 enc s msg n mb f out.
Proof. intros Hw Hc Hs. unfold spec. by rewrite (hash_blocks_ext w wb cmp1 cmp2 Hw Hc). Qed.

Lemma COMPRESS32_reference s b : state_ok 32 s -> COMPRESS32 s b = reference 32 16 12 8 7 14 sph_dec32be 4 s b /\ state_ok 32 (reference 32 16 12 8 7 14 sph_dec32be 4 s b).
Proof.
  intros Hs. assert ((fun r => nth r Ztab []) <$> rounds32 = (fun r => perm r <$> seq 0 16) <$> seq 0 14) as E by reflexivity. unfold COMPRESS32. rewrite E.
  exact (compress_reference 32 0xFFFFFFFF eq_refl ltac:(lia) 16 12 8 7 ltac:(lia) ltac:(lia) ltac:(lia) ltac:(lia) CS (proj1 blake_constants) sph_dec32be 4 14 s b Hs).
Qed.

Lemma COMPRESS64_reference s b : state_ok 64 s -> COMPRESS64 s b = reference 64 32 25 16 11 16 sph_dec64be 8 s b /\ state_ok 64 (reference 64 32 25 16 11 16 sph_dec64be 8 s b).
Proof.
  intros Hs. assert ((fun r => nth r Ztab []) <$> rounds64 = (fun r => perm r <$> seq 0 16) <$> seq 0 16) as E by reflexivity. unfold COMPRESS64. rewrite E.
  exact (compress_reference 64 0xFFFFFFFFFFFFFFFF eq_refl ltac:(lia) 32 25 16 11 ltac:(lia) ltac:(lia) ltac:(lia) ltac:(lia) CB (proj1 (proj2 blake_constants)) sph_dec64be 8 16 s b Hs).
Qed.

(** The digests of the specification, without salt: the initial value, the last bit of
    the padding and the number of words that are put out. *)
Definition reference32 (iv : list Z) (f : Z) (out : nat) (msg : list Z) (n mb : Z) : list Z :=
  spec 32 4 (reference 32 16 12 8 7 14 sph_dec32be 4) sph_enc32be (start iv [0; 0; 0; 0]) msg n mb f out.
Definition reference64 (iv : list Z) (f : Z) (out : nat) (msg : list Z) (n mb : Z) : list Z :=
  spec 64 8 (reference 64 32 25 16 11 16 sph_dec64be 8) sph_enc64be (start iv [0; 0; 0; 0]) msg n mb f out.

Lemma start_ok w iv : 0 < w -> length iv = 8%nat -> words w iv -> state_ok w (start iv [0; 0; 0; 0]).
Proof. intros Hw Hl Hi. assert (word w 0) as H0 by (split; [lia|by apply Z.pow_pos_nonneg; lia]). split; [done| |done]. split; [done|]. repeat (apply Forall_cons_2; [exact H0|]). apply Forall_nil_2. Qed.

Lemma iv_words : Forall (word 32) iv_224 /\ Forall (word 32) iv_256 /\ Forall (word 64) iv_384 /\ Forall (word 64) iv_512.
Proof. split_and!; apply (bool_decide_unpack _); vm_compute; reflexivity. Qed.

(** C37. The digests of BLAKE-224, BLAKE-256, BLAKE-384 and BLAKE-512 of a message that
    is fed in any chunks and closed with [n] further bits, whatever the buffers held
    before, are those of the specification: the compression function on a matrix of
    words with additions modulo [2^w] and rotations as divisions, constants from the
    digits of pi and initial values from the roots of primes; the padding; the counter
    of message bits, zero for a block without any, modulo [2^2w]; and the truncation. *)
Theorem blake_digest ds ub n : 0 <= n <= 7 ->
  (forall cc u, length (buf cc) = 64%nat -> length u = 64%nat ->
   fst (sph_blake224_addbits_and_close u (fold_left sph_blake224 ds (sph_blake224_init cc)) ub n) = reference32 iv_224 0 7 (concat ds) n (mark_byte ub n) /\
   fst (sph_blake256_addbits_and_close u (fold_left sph_blake256 ds (sph_blake256_init cc)) ub n) = reference32 iv_256 1 8 (concat ds) n (mark_byte ub n)) /\
  (forall cc u, length (buf cc) = 128%nat -> length u = 128%nat ->
   fst (sph_blake384_addbits_and_close u (fold_left sph_blake384 ds (sph_blake384_init cc)) ub n) = reference64 iv_384 0 6 (concat ds) n (mark_byte ub n) /\
   fst (sph_blake512_addbits_and_close u (fold_left sph_blake512 ds (sph_blake512_init cc)) ub n) = reference64 iv_512 1 8 (concat ds) n (mark_byte ub n)).
Proof.
  intros Hn. destruct blake_constants as (_ & _ & E224 & E256 & E384 & E512). destruct iv_words as (W224 & W256 & W384 & W512).
  assert (forall {A B} (p : A * B) (g : B -> B), fst (let '(x, y) := p in (x, g y)) = fst p) as Hfst by (by intros A B [x y] g).
  split; intros cc u Hb Hu; split.
  - unfold sph_blake224_addbits_and_close, sph_blake224_init, sph_blake224. rewrite Hfst. etransitivity; [exact (blake32_spec cc u IV224 salt_zero_small ds ub n 7 Hb Hu Hn)|]. rewrite E224.
    apply spec_ext; [lia|apply COMPRESS32_reference|by apply start_ok].
  - unfold sph_blake256_addbits_and_close, sph_blake256_init, sph_blake256. rewrite Hfst. etransitivity; [exact (blake32_spec cc u IV256 salt_zero_small ds ub n 8 Hb Hu Hn)|]. rewrite E256.
    apply spec_ext; [lia|apply COMPRESS32_reference|by apply start_ok].
  - unfold sph_blake384_addbits_and_close, sph_blake384_init, sph_blake384. rewrite Hfst. etransitivity; [exact (blake64_spec cc u IV384 salt_zero_big ds ub n 6 Hb Hu Hn)|]. rewrite E384.
    apply spec_ext; [lia|apply COMPRESS64_reference|by apply start_ok].
  - unfold sph_blake512_addbits_and_close, sph_blake512_init, sph_blake512. rewrite Hfst. etransitivity; [exact (blake64_spec cc u IV512 salt_zero_big ds ub n 8 Hb Hu Hn)|]. rewrite E512.
    apply spec_ext; [lia|apply COMPRESS64_reference|by apply start_ok].
Qed.

(** The published digest of a zero byte. *)
Lemma blake_digest_witness :
  let u := replicate 128 7 in
  fst (sph_blake512_addbits_and_close u (fold_left sph_blake512 [[0]; []] (sph_blake512_init (mk_ctx (replicate 128 9) 0 (start [] [])))) 0 0) =
    reference64 iv_512 1 8 [0] 0 (mark_byte 0 0) /\
  fst (sph_blake512_addbits_and_close u (fold_left sph_blake512 [[0]; []] (sph_blake512_init (mk_ctx (replicate 128 9) 0 (start [] [])))) 0 0) =
    be_bytes 64 0x97961587F6D970FABA6D2478045DE6D1FABD09B61AE50932054D52BC29D31BE4FF9102B9F69E2BBDB83BE13D4B9C06091E5FA0B48BD081B634058BE0EC49BEB3.
Proof.
  intros u. destruct (blake_digest [[0]; []] 0 0 ltac:(lia)) as [_ H]. split; [exact (proj2 (H (mk_ctx (replicate 128 9) 0 (start [] [])) u eq_refl eq_refl))|].
  apply list_eqb_eq. vm_compute. reflexivity.
Defined.

(** The rounds of BLAKE are injective on working vectors: for every sequence
    of round numbers and every message block, two 16-word vectors with the same
    image are equal.  This holds for both word sizes. *)
Theorem blake_rounds_injective rs M V V' :
  let run_s := fold_left (fun V r => ROUND_S r M V) rs in
  let run_b := fold_left (fun V r => ROUND_B r M V) rs in
  (wfV 32 V -> wfV 32 V' -> run_s V = run_s V' -> V = V') /\
  (wfV 64 V -> wfV 64 V' -> run_b V = run_b V' -> V = V').
Proof. split; [apply blake32_rounds_injective|apply blake64_rounds_injective]. Qed.

Lemma blake_rounds_injective_witness :
  let V i := <[0%nat := i]> (replicate 16 1) in
  fold_left (fun V r => ROUND_B r CB V) rounds64 (V 5) <>
  fold_left (fun V r => ROUND_B r CB V) rounds64 (V 6).
Proof.
  intros V Heq. destruct (blake_rounds_injective rounds64 CB (V 5) (V 6)) as [_ H].
  discriminate H; [..|exact Heq]; (split; [reflexivity|]; unfold word; repeat constructor; lia).
Defined.
