(* ===== verification/BMW.v ===== *)
(** * bmw.c: BMW-224, BMW-256 (32-bit words) and BMW-384, BMW-512 (64-bit words)

    The expansion functions and their index tables, [MAKE_W], [MAKE_Q] (unrolled
    and, for 64-bit words, as the loops of the small footprint), [FOLD], the
    buffered core with its bit counter, and closing with the final compression.
    The core's two chaining buffers, exchanged after every block and copied
    back at the end, are one value here: each compression reads one and writes
    the other. *)

From Stdlib Require Import ZArith Lia Btauto.
From stdpp Require Import base tactics numbers list.
From S2P Require Import Prelude SphTypes Stream Gf2.

(** ** Tables *)

Definition IV224 : list Z :=
  [
    0x00010203; 0x04050607; 0x08090A0B; 0x0C0D0E0F;
    0x10111213; 0x14151617; 0x18191A1B; 0x1C1D1E1F;
    0x20212223; 0x24252627; 0x28292A2B; 0x2C2D2E2F;
    0x30313233; 0x34353637; 0x38393A3B; 0x3C3D3E3F].
Definition IV256 : list Z :=
  [
    0x40414243; 0x44454647; 0x48494A4B; 0x4C4D4E4F;
    0x50515253; 0x54555657; 0x58595A5B; 0x5C5D5E5F;
    0x60616263; 0x64656667; 0x68696A6B; 0x6C6D6E6F;
    0x70717273; 0x74757677; 0x78797A7B; 0x7C7D7E7F].
Definition IV384 : list Z :=
  [
    0x0001020304050607; 0x08090A0B0C0D0E0F; 0x1011121314151617; 0x18191A1B1C1D1E1F;
    0x2021222324252627; 0x28292A2B2C2D2E2F; 0x3031323334353637; 0x38393A3B3C3D3E3F;
    0x4041424344454647; 0x48494A4B4C4D4E4F; 0x5051525354555657; 0x58595A5B5C5D5E5F;
    0x6061626364656667; 0x68696A6B6C6D6E6F; 0x7071727374757677; 0x78797A7B7C7D7E7F].
Definition IV512 : list Z :=
  [
    0x8081828384858687; 0x88898A8B8C8D8E8F; 0x9091929394959697; 0x98999A9B9C9D9E9F;
    0xA0A1A2A3A4A5A6A7; 0xA8A9AAABACADAEAF; 0xB0B1B2B3B4B5B6B7; 0xB8B9BABBBCBDBEBF;
    0xC0C1C2C3C4C5C6C7; 0xC8C9CACBCCCDCECF; 0xD0D1D2D3D4D5D6D7; 0xD8D9DADBDCDDDEDF;
    0xE0E1E2E3E4E5E6E7; 0xE8E9EAEBECEDEEEF; 0xF0F1F2F3F4F5F6F7; 0xF8F9FAFBFCFDFEFF].

(** [I16_]i and [M16_]i for i from 16 to 31. *)
Definition I16 : list (list nat) :=
  [[0; 1; 2; 3; 4; 5; 6; 7; 8; 9; 10; 11; 12; 13; 14; 15];
   [1; 2; 3; 4; 5; 6; 7; 8; 9; 10; 11; 12; 13; 14; 15; 16];
   [2; 3; 4; 5; 6; 7; 8; 9; 10; 11; 12; 13; 14; 15; 16; 17];
   [3; 4; 5; 6; 7; 8; 9; 10; 11; 12; 13; 14; 15; 16; 17; 18];
   [4; 5; 6; 7; 8; 9; 10; 11; 12; 13; 14; 15; 16; 17; 18; 19];
   [5; 6; 7; 8; 9; 10; 11; 12; 13; 14; 15; 16; 17; 18; 19; 20];
   [6; 7; 8; 9; 10; 11; 12; 13; 14; 15; 16; 17; 18; 19; 20; 21];
   [7; 8; 9; 10; 11; 12; 13; 14; 15; 16; 17; 18; 19; 20; 21; 22];
   [8; 9; 10; 11; 12; 13; 14; 15; 16; 17; 18; 19; 20; 21; 22; 23];
   [9; 10; 11; 12; 13; 14; 15; 16; 17; 18; 19; 20; 21; 22; 23; 24];
   [10; 11; 12; 13; 14; 15; 16; 17; 18; 19; 20; 21; 22; 23; 24; 25];
   [11; 12; 13; 14; 15; 16; 17; 18; 19; 20; 21; 22; 23; 24; 25; 26];
   [12; 13; 14; 15; 16; 17; 18; 19; 20; 21; 22; 23; 24; 25; 26; 27];
   [13; 14; 15; 16; 17; 18; 19; 20; 21; 22; 23; 24; 25; 26; 27; 28];
   [14; 15; 16; 17; 18; 19; 20; 21; 22; 23; 24; 25; 26; 27; 28; 29];
   [15; 16; 17; 18; 19; 20; 21; 22; 23; 24; 25; 26; 27; 28; 29; 30]]%nat.
Definition M16 : list (list Z) :=
  [[0; 1; 3; 4; 7; 10; 11];
   [1; 2; 4; 5; 8; 11; 12];
   [2; 3; 5; 6; 9; 12; 13];
   [3; 4; 6; 7; 10; 13; 14];
   [4; 5; 7; 8; 11; 14; 15];
   [5; 6; 8; 9; 12; 15; 16];
   [6; 7; 9; 10; 13; 0; 1];
   [7; 8; 10; 11; 14; 1; 2];
   [8; 9; 11; 12; 15; 2; 3];
   [9; 10; 12; 13; 0; 3; 4];
   [10; 11; 13; 14; 1; 4; 5];
   [11; 12; 14; 15; 2; 5; 6];
   [12; 13; 15; 16; 3; 6; 7];
   [13; 14; 0; 1; 4; 7; 8];
   [14; 15; 1; 2; 5; 8; 9];
   [15; 16; 2; 3; 6; 9; 10]].

(** The operands of [Ws]i and [Wb]i with their signs. *)
Definition Wtab : list (list (nat * Z)) :=
  [[(5%nat, 1); (7%nat, -1); (10%nat, 1); (13%nat, 1); (14%nat, 1)];
   [(6%nat, 1); (8%nat, -1); (11%nat, 1); (14%nat, 1); (15%nat, -1)];
   [(0%nat, 1); (7%nat, 1); (9%nat, 1); (12%nat, -1); (15%nat, 1)];
   [(0%nat, 1); (1%nat, -1); (8%nat, 1); (10%nat, -1); (13%nat, 1)];
   [(1%nat, 1); (2%nat, 1); (9%nat, 1); (11%nat, -1); (14%nat, -1)];
   [(3%nat, 1); (2%nat, -1); (10%nat, 1); (12%nat, -1); (15%nat, 1)];
   [(4%nat, 1); (0%nat, -1); (3%nat, -1); (11%nat, -1); (13%nat, 1)];
   [(1%nat, 1); (4%nat, -1); (5%nat, -1); (12%nat, -1); (14%nat, -1)];
   [(2%nat, 1); (5%nat, -1); (6%nat, -1); (13%nat, 1); (15%nat, -1)];
   [(0%nat, 1); (3%nat, -1); (6%nat, 1); (7%nat, -1); (14%nat, 1)];
   [(8%nat, 1); (1%nat, -1); (4%nat, -1); (7%nat, -1); (15%nat, 1)];
   [(8%nat, 1); (0%nat, -1); (2%nat, -1); (5%nat, -1); (9%nat, 1)];
   [(1%nat, 1); (3%nat, 1); (6%nat, -1); (9%nat, -1); (10%nat, 1)];
   [(2%nat, 1); (4%nat, 1); (7%nat, 1); (10%nat, 1); (11%nat, 1)];
   [(3%nat, 1); (5%nat, -1); (8%nat, 1); (11%nat, -1); (12%nat, -1)];
   [(12%nat, 1); (4%nat, -1); (6%nat, -1); (9%nat, -1); (13%nat, 1)]].

(** ** The word functions *)

Definition ss0 (x : Z) : Z := (x >> 1) ⊕ SPH_T32 (x << 3) ⊕ SPH_ROTL32 x 4 ⊕ SPH_ROTL32 x 19.
Definition ss1 (x : Z) : Z := (x >> 1) ⊕ SPH_T32 (x << 2) ⊕ SPH_ROTL32 x 8 ⊕ SPH_ROTL32 x 23.
Definition ss2 (x : Z) : Z := (x >> 2) ⊕ SPH_T32 (x << 1) ⊕ SPH_ROTL32 x 12 ⊕ SPH_ROTL32 x 25.
Definition ss3 (x : Z) : Z := (x >> 2) ⊕ SPH_T32 (x << 2) ⊕ SPH_ROTL32 x 15 ⊕ SPH_ROTL32 x 29.
Definition ss4 (x : Z) : Z := (x >> 1) ⊕ x.
Definition ss5 (x : Z) : Z := (x >> 2) ⊕ x.
Definition rs1 (x : Z) : Z := SPH_ROTL32 x 3.
Definition rs2 (x : Z) : Z := SPH_ROTL32 x 7.
Definition rs3 (x : Z) : Z := SPH_ROTL32 x 13.
Definition rs4 (x : Z) : Z := SPH_ROTL32 x 16.
Definition rs5 (x : Z) : Z := SPH_ROTL32 x 19.
Definition rs6 (x : Z) : Z := SPH_ROTL32 x 23.
Definition rs7 (x : Z) : Z := SPH_ROTL32 x 27.
Definition Ks (j : Z) : Z := SPH_T32 (j * 0x05555555).

Definition sb0 (x : Z) : Z := (x >> 1) ⊕ SPH_T64 (x << 3) ⊕ SPH_ROTL64 x 4 ⊕ SPH_ROTL64 x 37.
Definition sb1 (x : Z) : Z := (x >> 1) ⊕ SPH_T64 (x << 2) ⊕ SPH_ROTL64 x 13 ⊕ SPH_ROTL64 x 43.
Definition sb2 (x : Z) : Z := (x >> 2) ⊕ SPH_T64 (x << 1) ⊕ SPH_ROTL64 x 19 ⊕ SPH_ROTL64 x 53.
Definition sb3 (x : Z) : Z := (x >> 2) ⊕ SPH_T64 (x << 2) ⊕ SPH_ROTL64 x 28 ⊕ SPH_ROTL64 x 59.
Definition sb4 (x : Z) : Z := (x >> 1) ⊕ x.
Definition sb5 (x : Z) : Z := (x >> 2) ⊕ x.
Definition rb1 (x : Z) : Z := SPH_ROTL64 x 5.
Definition rb2 (x : Z) : Z := SPH_ROTL64 x 11.
Definition rb3 (x : Z) : Z := SPH_ROTL64 x 27.
Definition rb4 (x : Z) : Z := SPH_ROTL64 x 32.
Definition rb5 (x : Z) : Z := SPH_ROTL64 x 37.
Definition rb6 (x : Z) : Z := SPH_ROTL64 x 43.
Definition rb7 (x : Z) : Z := SPH_ROTL64 x 53.
Definition Kb (j : Z) : Z := SPH_T64 (j * 0x0555555555555555).

(** ** The compression function, for words of either size *)

Record ops : Type := mk_ops {
  T : Z -> Z; rol : Z -> Z -> Z; K : Z -> Z;
  s0 : Z -> Z; s1 : Z -> Z; s2 : Z -> Z; s3 : Z -> Z; s4 : Z -> Z; s5 : Z -> Z;
  r1 : Z -> Z; r2 : Z -> Z; r3 : Z -> Z; r4 : Z -> Z; r5 : Z -> Z; r6 : Z -> Z; r7 : Z -> Z }.
Definition ops_s : ops :=
  mk_ops SPH_T32 SPH_ROTL32 Ks ss0 ss1 ss2 ss3 ss4 ss5 rs1 rs2 rs3 rs4 rs5 rs6 rs7.
Definition ops_b : ops :=
  mk_ops SPH_T64 SPH_ROTL64 Kb sb0 sb1 sb2 sb3 sb4 sb5 rb1 rb2 rb3 rb4 rb5 rb6 rb7.

Section Compress.
Context (o : ops).
Let T := T o.
Let rol := rol o.
Let K := K o.
Let s0 := s0 o.
Let s1 := s1 o.
Let s2 := s2 o.
Let s3 := s3 o.
Let s4 := s4 o.
Let s5 := s5 o.
Let r1 := r1 o.
Let r2 := r2 o.
Let r3 := r3 o.
Let r4 := r4 o.
Let r5 := r5 o.
Let r6 := r6 o.
Let r7 := r7 o.

(** [x << n] on a variable of the word type. *)
Definition shl (x n : Z) : Z := T (x << n).

(** [add_elt(mf, hf, j0m, j1m, j3m, j4m, j7m, j10m, j11m, j16)]; the table row
    holds the indices and the rotation counts. *)
Definition add_elt (m h : list Z) (row : list Z) (j16 : Z) : Z :=
  let mf (k : nat) := m.[Z.to_nat row.[k]] in
  T (rol (mf 0%nat) row.[1] + rol (mf 2%nat) row.[3] - rol (mf 5%nat) row.[6] + K j16)
  ⊕ h.[Z.to_nat row.[4]].

Definition expand1 (q m h : list Z) (i16 : nat) : Z :=
  let ix := nth (i16 - 16) I16 [] in
  let qf (k : nat) := q.[nth k ix 0%nat] in
  T (s1 (qf 0%nat) + s2 (qf 1%nat) + s3 (qf 2%nat) + s0 (qf 3%nat)
     + s1 (qf 4%nat) + s2 (qf 5%nat) + s3 (qf 6%nat) + s0 (qf 7%nat)
     + s1 (qf 8%nat) + s2 (qf 9%nat) + s3 (qf 10%nat) + s0 (qf 11%nat)
     + s1 (qf 12%nat) + s2 (qf 13%nat) + s3 (qf 14%nat) + s0 (qf 15%nat)
     + add_elt m h (nth (i16 - 16) M16 []) (Z.of_nat i16)).
Definition expand2 (q m h : list Z) (i16 : nat) : Z :=
  let ix := nth (i16 - 16) I16 [] in
  let qf (k : nat) := q.[nth k ix 0%nat] in
  T (qf 0%nat + r1 (qf 1%nat) + qf 2%nat + r2 (qf 3%nat)
     + qf 4%nat + r3 (qf 5%nat) + qf 6%nat + r4 (qf 7%nat)
     + qf 8%nat + r5 (qf 9%nat) + qf 10%nat + r6 (qf 11%nat)
     + qf 12%nat + r7 (qf 13%nat) + s4 (qf 14%nat) + s5 (qf 15%nat)
     + add_elt m h (nth (i16 - 16) M16 []) (Z.of_nat i16)).

(** [MAKE_W]. *)
Definition MAKE_W (m h : list Z) (i : nat) : Z :=
  T (foldr (fun '(j, s) a => s * (m.[j] ⊕ h.[j]) + a) 0 (nth i Wtab [])).

(** [MAKE_Qas] / [MAKE_Qab]: the function applied to [W]i, by position. *)
Definition s_of (i : nat) : Z -> Z :=
  nth i [s0; s1; s2; s3; s4; s0; s1; s2; s3; s4; s0; s1; s2; s3; s4; s0] s0.
Definition MAKE_Qa (m h : list Z) : list Z :=
  (fun i => T (s_of i (MAKE_W m h i) + h.[(i + 1) mod 16])) <$> seq 0 16.
(** [MAKE_Qbs] / [MAKE_Qbb]: [qt[16]] and [qt[17]] by [expand1], the others
    by [expand2]. *)
Definition MAKE_Qb (m h q : list Z) : list Z :=
  let q := fold_left (fun q i => q ++ [expand1 q m h i]) [16; 17]%nat q in
  fold_left (fun q i => q ++ [expand2 q m h i]) (seq 18 14) q.
Definition MAKE_Q (m h : list Z) : list Z := MAKE_Qb m h (MAKE_Qa m h).

Definition FOLD (m h : list Z) : list Z :=
  let q := MAKE_Q m h in
  let xl := q.[16] ⊕ q.[17] ⊕ q.[18] ⊕ q.[19] ⊕ q.[20] ⊕ q.[21] ⊕ q.[22] ⊕ q.[23] in
  let xh := xl ⊕ q.[24] ⊕ q.[25] ⊕ q.[26] ⊕ q.[27] ⊕ q.[28] ⊕ q.[29] ⊕ q.[30] ⊕ q.[31] in
  let d0 := T ((shl xh 5 ⊕ (q.[16] >> 5) ⊕ m.[0]) + (xl ⊕ q.[24] ⊕ q.[0])) in
  let d1 := T (((xh >> 7) ⊕ shl q.[17] 8 ⊕ m.[1]) + (xl ⊕ q.[25] ⊕ q.[1])) in
  let d2 := T (((xh >> 5) ⊕ shl q.[18] 5 ⊕ m.[2]) + (xl ⊕ q.[26] ⊕ q.[2])) in
  let d3 := T (((xh >> 1) ⊕ shl q.[19] 5 ⊕ m.[3]) + (xl ⊕ q.[27] ⊕ q.[3])) in
  let d4 := T (((xh >> 3) ⊕ shl q.[20] 0 ⊕ m.[4]) + (xl ⊕ q.[28] ⊕ q.[4])) in
  let d5 := T ((shl xh 6 ⊕ (q.[21] >> 6) ⊕ m.[5]) + (xl ⊕ q.[29] ⊕ q.[5])) in
  let d6 := T (((xh >> 4) ⊕ shl q.[22] 6 ⊕ m.[6]) + (xl ⊕ q.[30] ⊕ q.[6])) in
  let d7 := T (((xh >> 11) ⊕ shl q.[23] 2 ⊕ m.[7]) + (xl ⊕ q.[31] ⊕ q.[7])) in
  let d8 := T (rol d4 9 + (xh ⊕ q.[24] ⊕ m.[8]) + (shl xl 8 ⊕ q.[23] ⊕ q.[8])) in
  let d9 := T (rol d5 10 + (xh ⊕ q.[25] ⊕ m.[9]) + ((xl >> 6) ⊕ q.[16] ⊕ q.[9])) in
  let d10 := T (rol d6 11 + (xh ⊕ q.[26] ⊕ m.[10]) + (shl xl 6 ⊕ q.[17] ⊕ q.[10])) in
  let d11 := T (rol d7 12 + (xh ⊕ q.[27] ⊕ m.[11]) + (shl xl 4 ⊕ q.[18] ⊕ q.[11])) in
  let d12 := T (rol d0 13 + (xh ⊕ q.[28] ⊕ m.[12]) + ((xl >> 3) ⊕ q.[19] ⊕ q.[12])) in
  let d13 := T (rol d1 14 + (xh ⊕ q.[29] ⊕ m.[13]) + ((xl >> 4) ⊕ q.[20] ⊕ q.[13])) in
  let d14 := T (rol d2 15 + (xh ⊕ q.[30] ⊕ m.[14]) + ((xl >> 7) ⊕ q.[21] ⊕ q.[14])) in
  let d15 := T (rol d3 16 + (xh ⊕ q.[31] ⊕ m.[15]) + ((xl >> 2) ⊕ q.[22] ⊕ q.[15])) in
  [d0; d1; d2; d3; d4; d5; d6; d7; d8; d9; d10; d11; d12; d13; d14; d15].
End Compress.

Definition words_of (dec : list Z -> Z) (wsz : nat) (data : list Z) : list Z :=
  (fun i => dec (drop (wsz * i) data)) <$> seq 0 16.
Definition compress_small (data h : list Z) : list Z := FOLD ops_s (words_of sph_dec32le 4 data) h.
Definition compress_big (data h : list Z) : list Z := FOLD ops_b (words_of sph_dec64le 8 data) h.

(** The small footprint with 64-bit words: computed indices, a table of
    constants. *)
Definition Kb_tab : list Z :=
  [Kb 16; Kb 17; Kb 18; Kb 19; Kb 20; Kb 21; Kb 22; Kb 23;
   Kb 24; Kb 25; Kb 26; Kb 27; Kb 28; Kb 29; Kb 30; Kb 31].
Definition rol_off (m : list Z) (j off : nat) : Z :=
  let k := Nat.land (j + off) 15 in SPH_ROTL64 m.[k] (Z.of_nat (k + 1)).
Definition add_elt_b (m h : list Z) (j : nat) : Z :=
  SPH_T64 (rol_off m j 0 + rol_off m j 3 - rol_off m j 10 + Kb_tab.[j]) ⊕ h.[Nat.land (j + 7) 15].
Definition expand1b (q m h : list Z) (i : nat) : Z :=
  SPH_T64 (sb1 q.[i - 16] + sb2 q.[i - 15] + sb3 q.[i - 14] + sb0 q.[i - 13]
    + sb1 q.[i - 12] + sb2 q.[i - 11] + sb3 q.[i - 10] + sb0 q.[i - 9]
    + sb1 q.[i - 8] + sb2 q.[i - 7] + sb3 q.[i - 6] + sb0 q.[i - 5]
    + sb1 q.[i - 4] + sb2 q.[i - 3] + sb3 q.[i - 2] + sb0 q.[i - 1]
    + add_elt_b m h (i - 16)).
Definition expand2b (q m h : list Z) (i : nat) : Z :=
  SPH_T64 (q.[i - 16] + rb1 q.[i - 15] + q.[i - 14] + rb2 q.[i - 13]
    + q.[i - 12] + rb3 q.[i - 11] + q.[i - 10] + rb4 q.[i - 9]
    + q.[i - 8] + rb5 q.[i - 7] + q.[i - 6] + rb6 q.[i - 5]
    + q.[i - 4] + rb7 q.[i - 3] + sb4 q.[i - 2] + sb5 q.[i - 1]
    + add_elt_b m h (i - 16)).
Definition MAKE_Qbb_small (m h q : list Z) : list Z :=
  let q := fold_left (fun q u => q ++ [expand1b q m h u]) (seq 16 2) q in
  fold_left (fun q u => q ++ [expand2b q m h u]) (seq 18 14) q.

(** ** The context and its operations *)

Record bmw_state : Type := mk_bmw { bmw_H : list Z; bit_count : Z }.
Definition sph_bmw_small_context : Type := stream_ctx bmw_state.
Definition sph_bmw_big_context : Type := stream_ctx bmw_state.

Definition final_s : list Z :=
  [
    0xaaaaaaa0; 0xaaaaaaa1; 0xaaaaaaa2; 0xaaaaaaa3; 0xaaaaaaa4; 0xaaaaaaa5;
    0xaaaaaaa6; 0xaaaaaaa7; 0xaaaaaaa8; 0xaaaaaaa9; 0xaaaaaaaa; 0xaaaaaaab;
    0xaaaaaaac; 0xaaaaaaad; 0xaaaaaaae; 0xaaaaaaaf].
Definition final_b : list Z :=
  [
    0xaaaaaaaaaaaaaaa0; 0xaaaaaaaaaaaaaaa1; 0xaaaaaaaaaaaaaaa2; 0xaaaaaaaaaaaaaaa3;
    0xaaaaaaaaaaaaaaa4; 0xaaaaaaaaaaaaaaa5; 0xaaaaaaaaaaaaaaa6; 0xaaaaaaaaaaaaaaa7;
    0xaaaaaaaaaaaaaaa8; 0xaaaaaaaaaaaaaaa9; 0xaaaaaaaaaaaaaaaa; 0xaaaaaaaaaaaaaaab;
    0xaaaaaaaaaaaaaaac; 0xaaaaaaaaaaaaaaad; 0xaaaaaaaaaaaaaaae; 0xaaaaaaaaaaaaaaaf].

Definition bmw_block (compress : list Z -> list Z -> list Z) (s : bmw_state) (buf : list Z) : bmw_state :=
  mk_bmw (compress buf (bmw_H s)) (bit_count s).
(** [sc->bit_count += (sph_u64)len << 3]. *)
Definition add_bits (len : nat) (sc : stream_ctx bmw_state) : stream_ctx bmw_state :=
  mk_ctx (buf sc) (ptr sc)
    (mk_bmw (bmw_H (st sc)) (SPH_T64 (bit_count (st sc) + SPH_T64 (Z.of_nat len << 3)))).

Definition bmw32_init (sc : sph_bmw_small_context) (iv : list Z) : sph_bmw_small_context :=
  mk_ctx (buf sc) 0 (mk_bmw iv 0).
Definition bmw32 (sc : sph_bmw_small_context) (data : list Z) : sph_bmw_small_context :=
  core_plain 64 (bmw_block compress_small) (add_bits (length data) sc) data.
Definition bmw32_close (sc : sph_bmw_small_context) (ub n : Z) (out_size_w32 : nat) :
    list Z * sph_bmw_small_context :=
  let z := 0x80 >> n in
  let buf' := <[ptr sc := ((ub .& SPH_T32 (- z)) .| z) .& 0xFF]> (buf sc) in
  let ptr' := S (ptr sc) in
  let h := bmw_H (st sc) in
  let '(buf', ptr', h) :=
    if (64 - 8 <? ptr')%nat then
      let buf' := memset buf' ptr' 0 (64 - ptr') in (buf', 0%nat, compress_small buf' h)
    else (buf', ptr', h) in
  let buf' := memset buf' ptr' 0 (64 - 8 - ptr') in
  let buf' := memcpy buf' (64 - 8) (sph_enc64le (SPH_T64 (bit_count (st sc) + n))) in
  let h2 := compress_small buf' h in
  let buf' := memcpy buf' 0 (concat (sph_enc32le <$> h2)) in
  let h1 := compress_small buf' final_s in
  (concat (sph_enc32le <$> take out_size_w32 (drop (16 - out_size_w32) h1)),
   mk_ctx buf' (ptr sc) (st sc)).

Definition bmw64_init (sc : sph_bmw_big_context) (iv : list Z) : sph_bmw_big_context :=
  mk_ctx (buf sc) 0 (mk_bmw iv 0).
Definition bmw64 (sc : sph_bmw_big_context) (data : list Z) : sph_bmw_big_context :=
  core_plain 128 (bmw_block compress_big) (add_bits (length data) sc) data.
Definition bmw64_close (sc : sph_bmw_big_context) (ub n : Z) (out_size_w64 : nat) :
    list Z * sph_bmw_big_context :=
  let z := 0x80 >> n in
  let buf' := <[ptr sc := ((ub .& SPH_T32 (- z)) .| z) .& 0xFF]> (buf sc) in
  let ptr' := S (ptr sc) in
  let h := bmw_H (st sc) in
  let '(buf', ptr', h) :=
    if (128 - 8 <? ptr')%nat then
      let buf' := memset buf' ptr' 0 (128 - ptr') in (buf', 0%nat, compress_big buf' h)
    else (buf', ptr', h) in
  let buf' := memset buf' ptr' 0 (128 - 8 - ptr') in
  let buf' := memcpy buf' (128 - 8) (sph_enc64le (SPH_T64 (bit_count (st sc) + n))) in
  let h2 := compress_big buf' h in
  let buf' := memcpy buf' 0 (concat (sph_enc64le <$> h2)) in
  let h1 := compress_big buf' final_b in
  (concat (sph_enc64le <$> take out_size_w64 (drop (16 - out_size_w64) h1)),
   mk_ctx buf' (ptr sc) (st sc)).

Definition sph_bmw224_init (cc : sph_bmw_small_context) := bmw32_init cc IV224.
Definition sph_bmw224 (cc : sph_bmw_small_context) (data : list Z) := bmw32 cc data.
Definition sph_bmw224_addbits_and_close (cc : sph_bmw_small_context) (ub n : Z) :=
  let '(dst, cc) := bmw32_close cc ub n 7 in (dst, sph_bmw224_init cc).
Definition sph_bmw224_close (cc : sph_bmw_small_context) := sph_bmw224_addbits_and_close cc 0 0.

Definition sph_bmw256_init (cc : sph_bmw_small_context) := bmw32_init cc IV256.
Definition sph_bmw256 (cc : sph_bmw_small_context) (data : list Z) := bmw32 cc data.
Definition sph_bmw256_addbits_and_close (cc : sph_bmw_small_context) (ub n : Z) :=
  let '(dst, cc) := bmw32_close cc ub n 8 in (dst, sph_bmw256_init cc).
Definition sph_bmw256_close (cc : sph_bmw_small_context) := sph_bmw256_addbits_and_close cc 0 0.

Definition sph_bmw384_init (cc : sph_bmw_big_context) := bmw64_init cc IV384.
Definition sph_bmw384 (cc : sph_bmw_big_context) (data : list Z) := bmw64 cc data.
Definition sph_bmw384_addbits_and_close (cc : sph_bmw_big_context) (ub n : Z) :=
  let '(dst, cc) := bmw64_close cc ub n 6 in (dst, sph_bmw384_init cc).
Definition sph_bmw384_close (cc : sph_bmw_big_context) := sph_bmw384_addbits_and_close cc 0 0.

Definition sph_bmw512_init (cc : sph_bmw_big_context) := bmw64_init cc IV512.
Definition sph_bmw512 (cc : sph_bmw_big_context) (data : list Z) := bmw64 cc data.
Definition sph_bmw512_addbits_and_close (cc : sph_bmw_big_context) (ub n : Z) :=
  let '(dst, cc) := bmw64_close cc ub n 8 in (dst, sph_bmw512_init cc).
Definition sph_bmw512_close (cc : sph_bmw_big_context) := sph_bmw512_addbits_and_close cc 0 0.

(** ** The small footprint computes the same expansion *)

Ltac expand_eq :=
  lazy -[SPH_T64 SPH_ROTL64 Kb Z.add Z.sub Z.lxor nth
         sb0 sb1 sb2 sb3 sb4 sb5 rb1 rb2 rb3 rb4 rb5 rb6 rb7];
  cbn [nth]; lazy -[SPH_T64 SPH_ROTL64 Kb Z.add Z.sub Z.lxor nth
         sb0 sb1 sb2 sb3 sb4 sb5 rb1 rb2 rb3 rb4 rb5 rb6 rb7]; reflexivity.

Lemma expand1b_eq q m h i : (16 <= i < 32)%nat -> expand1b q m h i = expand1 ops_b q m h i.
Proof.
  intros Hi. do 16 (destruct i as [|i]; [lia|]). do 16 (destruct i as [|i]; [expand_eq|]). lia.
Qed.

Lemma expand2b_eq q m h i : (16 <= i < 32)%nat -> expand2b q m h i = expand2 ops_b q m h i.
Proof.
  intros Hi. do 16 (destruct i as [|i]; [lia|]). do 16 (destruct i as [|i]; [expand_eq|]). lia.
Qed.

Lemma MAKE_Qbb_small_eq m h q : MAKE_Qbb_small m h q = MAKE_Qb ops_b m h q.
Proof.
  unfold MAKE_Qbb_small, MAKE_Qb. cbv zeta.
  rewrite (fold_left_ext (fun q u => q ++ [expand1b q m h u]) (fun q i => q ++ [expand1 ops_b q m h i])
    (seq 16 2)).
  - apply fold_left_ext. intros a i Hi%list_elem_of_In%in_seq. by rewrite expand2b_eq by lia.
  - intros a i Hi%list_elem_of_In%in_seq. by rewrite expand1b_eq by lia.
Qed.

(** ** The first transformation is injective in the message *)

(** The operands of [MAKE_W], before the reduction. *)
Definition lin (i : nat) (v : list Z) : Z := foldr (fun '(j, s) a => s * v.[j] + a) 0 (nth i Wtab []).

(** [adj] times the matrix of [Wtab] is -775 times the identity. *)
Definition adj : list (list Z) :=
  [[(-77); 472; 145; (-46); 8; (-292); 429; 24; (-126); (-363); 493; 82; 415; (-92); (-57); (-180)];
   [234; (-599); (-340); (-293); (-286); 364; (-418); (-83); 242; (-4); (-381); (-219); (-1080); 189; 294; 235];
   [189; (-454); (-215); (-28); (-231); 294; (-278); 82; (-43); 116; (-576); 151; (-455); (-56); (-1); 160];
   [342; (-637); (-20); (-309); (-418); (-243); (-134); 296; (-4); 173; (-378); (-22); (-565); 157; 72; 105];
   [425; (-250); 25; (-350); (-175); (-200); (-375); 250; (-150); (-100); (-225); (-50); (-650); 75; 375; 450];
   [(-588); 293; (-20); 1; 202; 377; 176; (-169); 306; 328; 242; 133; 210; 2; (-83); 105];
   [89; (-304); 235; (-128); (-281); (-206); (-53); (-68); 357; (-134); 24; 26; 245; (-256); (-226); (-265)];
   [(-257); 277; (-130); 239; 228; 203; 214; (-91); 284; 117; 488; 12; 590; (-297); (-462); (-480)];
   [(-366); 301; 35; (-118); 189; 464; 157; (-208); 317; 46; 119; (-194); 20; (-236); (-281); 10];
   [(-110); 10; (-125); 45; (-210); (-85); 170; 145; (-180); 35; 40; (-215); 150; 90; 140; 75];
   [(-597); 942; 470; 519; 213; (-412); 669; (-136); (-61); (-268); 823; 52; 1265; (-512); (-452); (-530)];
   [240; (-515); (-150); (-380); (-35); 115; (-230); (-105); (-30); 135; (-510); (-165); (-750); 15; 540; 400];
   [324; (-114); 185; (-48); (-396); (-271); 77; 362; 37; (-244); 9; (-184); (-5); (-96); 109; (-390)];
   [80; (-430); (-50); (-385); (-270); (-220); (-335); (-35); (-10); 45; (-170); (-55); (-250); 5; 180; (-125)];
   [73; (-528); (-530); 104; 83; 458; (-296); 249; 49; 12; (-407); (-118); (-635); 208; (-107); 70];
   [768; (-873); (-480); (-286); (-422); (-97); (-736); 284; 59; (-33); (-1012); (-63); (-1160); 203; 488; 195]].

Ltac destruct16 V H :=
  do 16 (destruct V as [|? V]; [discriminate H|]); destruct V; [clear H|discriminate H].

Lemma adj_lin j d :
  length d = 16%nat -> (j < 16)%nat ->
  foldr Z.add 0 (zip_with Z.mul (nth j adj []) ((fun i => lin i d) <$> seq 0 16)) = -775 * d.[j].
Proof.
  intros Hd Hj. destruct16 d Hd.
  do 16 (destruct j as [|j]; [cbn [lin adj Wtab nth foldr zip_with fmap list_fmap seq]; ring|]). lia.
Qed.

Lemma lin_sub i v v' : length v = length v' -> lin i (zip_with Z.sub v v') = lin i v - lin i v'.
Proof.
  intros H. unfold lin. induction (nth i Wtab []) as [|[j s] l IH]; [done|]. cbn [foldr].
  rewrite IH. assert ((zip_with Z.sub v v').[j] = v.[j] - v'.[j]) as ->; [|lia].
  clear IH. revert v' j H. induction v as [|a v IHv]; intros [|b v'] j H; try done; destruct j; try done.
  cbn in *. apply IHv. lia.
Qed.

Lemma divide_foldr n a l :
  Forall (fun x => (n | x)) l -> (n | foldr Z.add 0 (zip_with Z.mul a l)).
Proof.
  revert a. induction l as [|x l IH]; intros a H; destruct a as [|y a]; cbn; try apply Z.divide_0_r.
  apply Forall_cons in H as [H1 H2]. apply Z.divide_add_r; [by apply Z.divide_mul_r|by apply IH].
Qed.

(** Sums of the operands that agree modulo [2 ^ w] come from equal words. *)
Lemma lin_inj w v v' :
  0 <= w -> Z.gcd (2 ^ w) 775 = 1 -> wf_arr w 16 v -> wf_arr w 16 v' ->
  (forall i, (i < 16)%nat -> lin i v mod 2 ^ w = lin i v' mod 2 ^ w) -> v = v'.
Proof.
  intros Hw Hg [HL HW] [HL' HW'] H. apply nth_eq; [congruence|]. intros j Hj. rewrite HL in Hj.
  set (d := zip_with Z.sub v v').
  assert (length d = 16%nat) as Hd by (unfold d; rewrite length_zip_with; lia).
  assert (2 ^ w | -775 * d.[j]) as Hdiv.
  { rewrite <- (adj_lin j d Hd Hj). apply divide_foldr, Forall_fmap, Forall_forall.
    intros i Hi%list_elem_of_In%in_seq. unfold compose, d. rewrite lin_sub by congruence.
    apply Z.mod_divide; [lia|]. rewrite Zminus_mod, (H i) by lia. rewrite Z.sub_diag. apply Z.mod_0_l. lia. }
  assert (2 ^ w | d.[j]) as [k Hk].
  { apply (Z.gauss (2 ^ w) 775 d.[j]); [|exact Hg].
    apply Z.divide_opp_r. by rewrite <- Z.mul_opp_l. }
  assert (d.[j] = v.[j] - v'.[j]) as Hdj.
  { unfold d. clear -HL HL'. assert (length v = length v') as H by congruence. clear HL HL'.
    revert v' j H. induction v as [|a v IHv]; intros [|b v'] j H; try done; destruct j; try done.
    cbn in *. apply IHv. lia. }
  pose proof (words_nth w v j Hw HW) as H1. pose proof (words_nth w v' j Hw HW') as H2.
  unfold word in *. rewrite Hdj in Hk. assert (k = 0) by nia. subst. lia.
Qed.

(** ** Words through [MAKE_Qa] *)

(** What the two sets of word functions have in common. *)
Record ops_ok (o : ops) (w : Z) : Prop := mk_ops_ok {
  ok_T : forall x, T o x = x mod 2 ^ w;
  ok_w : 0 <= w /\ Z.gcd (2 ^ w) 775 = 1;
  ok_s : Forall (inj_on (word w)) [s0 o; s1 o; s2 o; s3 o; s4 o] }.

Lemma s_of_inj o w i : ops_ok o w -> (i < 16)%nat -> inj_on (word w) (s_of o i).
Proof.
  intros [_ _ H] Hi. rewrite !Forall_cons in H. destruct H as (H0 & H1 & H2 & H3 & H4 & _).
  do 16 (destruct i as [|i]; [assumption|]). lia.
Qed.

Lemma mod_add_cancel n a b h : 0 < n -> (a + h) mod n = (b + h) mod n -> a mod n = b mod n.
Proof.
  intros Hn E. replace a with (a + h - h) by lia. replace b with (b + h - h) by lia.
  by rewrite Zminus_mod, E, <- Zminus_mod.
Qed.

Lemma MAKE_W_lin o m h i : length m = length h -> MAKE_W o m h i = T o (lin i (lxor_list m h)).
Proof.
  intros H. unfold MAKE_W, lin. f_equal. induction (nth i Wtab []) as [|[j s] l IH]; [done|].
  cbn [foldr]. by rewrite IH, nth_lxor_list.
Qed.

Lemma MAKE_Qa_inj o w m m' h :
  ops_ok o w -> wf_arr w 16 m -> wf_arr w 16 m' -> wf_arr w 16 h ->
  MAKE_Qa o m h = MAKE_Qa o m' h -> m = m'.
Proof.
  intros Hok Hm Hm' Hh E. pose proof Hok as [HT [Hw Hg] _]. assert (0 < 2 ^ w) as Hp by lia.
  assert (forall i, (i < 16)%nat -> MAKE_W o m h i = MAKE_W o m' h i) as HW.
  { intros i Hi. pose proof (s_of_inj o w i Hok Hi) as [S1 S2].
    assert (forall m, word w (MAKE_W o m h i)) as Hword
      by (intros; unfold MAKE_W; rewrite HT; apply Z.mod_pos_bound; lia).
    apply S2; [done..|]. apply (f_equal (fun l => l !! i)) in E. unfold MAKE_Qa in E.
    rewrite !list_lookup_fmap, lookup_seq_lt in E by done. cbn in E. injection E as E.
    rewrite !HT in E. apply mod_add_cancel in E; [|done].
    pose proof (S1 _ (Hword m)). pose proof (S1 _ (Hword m')). unfold word in *.
    by rewrite !Z.mod_small in E by done. }
  pose proof Hm as [HLm _]. pose proof Hm' as [HLm' _]. pose proof Hh as [HLh _].
  assert (lxor_list m h = lxor_list m' h) as Hx.
  { pose proof (lxor_inj_on w 16 h Hh) as [X _].
    apply (lin_inj w); [done|done|by apply X..|]. intros i Hi.
    specialize (HW i Hi). rewrite !MAKE_W_lin in HW by congruence. by rewrite !HT in HW. }
  by apply (lxor_inj_on w 16 h Hh).
Qed.

(** ** Both sets of word functions qualify *)

Lemma xlinear_T32_shl n : xlinear 32 (fun x => SPH_T32 (x << n)).
Proof. intros x y _ _. rewrite Z.shiftl_lxor. apply wT_lxor. Qed.
Lemma xlinear_T64_shl n : xlinear 64 (fun x => SPH_T64 (x << n)).
Proof. intros x y _ _. rewrite Z.shiftl_lxor. apply wT_lxor. Qed.
Lemma xlinear_ROTL32 n : 0 <= n <= 32 -> xlinear 32 (fun x => SPH_ROTL32 x n).
Proof. intros Hn x y Hx Hy. by apply (wrotl_lxor 32). Qed.
Lemma xlinear_ROTL64 n : 0 <= n <= 64 -> xlinear 64 (fun x => SPH_ROTL64 x n).
Proof. intros Hn x y Hx Hy. by apply (wrotl_lxor 64). Qed.

Ltac linear_inj w :=
  apply (xlinear_inj w); cbn [Z.of_nat Pos.of_succ_nat Pos.succ];
  [ repeat apply xlinear_lxor;
      first [apply xlinear_shiftr | apply xlinear_id | apply xlinear_T32_shl | apply xlinear_T64_shl
            | apply xlinear_ROTL32; lia | apply xlinear_ROTL64; lia]
  | intros x Hx; repeat apply word_lxor; auto with words
  | vm_compute; reflexivity].

Lemma ops_s_ok : ops_ok ops_s 32.
Proof.
  split; [apply T32_mod|done|]. cbn [s0 s1 s2 s3 s4 ops_s].
  repeat apply List.Forall_cons; try apply List.Forall_nil; linear_inj 32%nat.
Qed.

Lemma ops_b_ok : ops_ok ops_b 64.
Proof.
  split; [apply T64_mod|done|]. cbn [s0 s1 s2 s3 s4 ops_b].
  repeat apply List.Forall_cons; try apply List.Forall_nil; linear_inj 64%nat.
Qed.

(** ** Digests *)

Section Digest.
Context (bs : nat) (compress : list Z -> list Z -> list Z) (enc : Z -> list Z) (final : list Z).
Context (Hbs : (8 < bs)%nat).
Context (Henc : forall blk h, length (concat (enc <$> compress blk h)) = bs).
Let block := bmw_block compress.

(** Specification: marker, zeros, the bit length over 8 bytes, then a
    compression of the last state keyed with constants. *)
Definition pad (msg : list Z) (n mb : Z) : list Z :=
  md_pad bs (length msg mod bs) mb (sph_enc64le ((8 * Z.of_nat (length msg) + n) mod 2 ^ 64)).
Definition spec (iv msg : list Z) (n mb : Z) (out : nat) : list Z :=
  let h := fold_left (fun h blk => compress blk h) (blocks bs (msg ++ pad msg n mb)) iv in
  concat (enc <$> take out (drop (16 - out) (compress (concat (enc <$> h)) final))).

Definition gupdate (sc : stream_ctx bmw_state) (data : list Z) : stream_ctx bmw_state :=
  core_plain bs block (add_bits (length data) sc) data.

(** The closing code for either word size. *)
Definition gclose (sc : stream_ctx bmw_state) (ub n : Z) (out : nat) :
    list Z * stream_ctx bmw_state :=
  let z := 0x80 >> n in
  let buf' := <[ptr sc := ((ub .& SPH_T32 (- z)) .| z) .& 0xFF]> (buf sc) in
  let ptr' := S (ptr sc) in
  let h := bmw_H (st sc) in
  let '(buf', ptr', h) :=
    if (bs - 8 <? ptr')%nat then
      let buf' := memset buf' ptr' 0 (bs - ptr') in (buf', 0%nat, compress buf' h)
    else (buf', ptr', h) in
  let buf' := memset buf' ptr' 0 (bs - 8 - ptr') in
  let buf' := memcpy buf' (bs - 8) (sph_enc64le (SPH_T64 (bit_count (st sc) + n))) in
  let h2 := compress buf' h in
  let buf' := memcpy buf' 0 (concat (enc <$> h2)) in
  let h1 := compress buf' final in
  (concat (enc <$> take out (drop (16 - out) h1)), mk_ctx buf' (ptr sc) (st sc)).

(** The counter holds the length of the message absorbed so far. *)
Definition counted (iv msg : list Z) (sc : stream_ctx bmw_state) : Prop :=
  length (buf sc) = bs /\
  repr bs block (mk_bmw iv ((8 * Z.of_nat (length msg)) mod 2 ^ 64)) msg sc.

Lemma bmw_fold_block l iv b :
  fold_left block l (mk_bmw iv b) = mk_bmw (fold_left (fun h blk => compress blk h) l iv) b.
Proof. revert iv. induction l as [|x l IH]; intros iv; [done|]. cbn [fold_left]. apply IH. Qed.

Lemma update_counted iv msg sc data :
  counted iv msg sc -> counted iv (msg ++ data) (gupdate sc data).
Proof.
  intros [Hl Hr]. unfold gupdate.
  set (b' := (8 * Z.of_nat (length (msg ++ data))) mod 2 ^ 64).
  assert (repr bs block (mk_bmw iv b') msg (add_bits (length data) sc)) as Hr'.
  { destruct Hr as (H1 & H2 & H3 & H4). unfold add_bits, repr. cbn [buf ptr st].
    split_and!; [done|done|done|]. rewrite H4, !bmw_fold_block. cbn [bmw_H bit_count]. f_equal.
    unfold b'. rewrite length_app, !T64_mod, Z.shiftl_mul_pow2 by lia.
    rewrite <- Zplus_mod. f_equal. lia. }
  pose proof (repr_wf bs block ltac:(lia) _ _ _ Hr') as Hwf.
  rewrite <- core_core_plain by (done || lia). split.
  - by rewrite core_length_buf by (done || lia).
  - apply core_repr; [lia|exact Hr'].
Qed.

Lemma updates_counted iv b ds :
  length b = bs -> counted iv (concat ds) (fold_left gupdate ds (mk_ctx b 0 (mk_bmw iv 0))).
Proof.
  intros Hb. assert (counted iv [] (mk_ctx b 0 (mk_bmw iv 0))) as H0.
  { split; [done|]. apply repr_init; lia. }
  change (concat ds) with ([] ++ concat ds). revert H0. generalize (@nil Z) as msg.
  generalize (mk_ctx b 0 (mk_bmw iv 0)) as sc.
  induction ds as [|d ds IH]; intros sc msg H; cbn [concat].
  - by rewrite app_nil_r.
  - rewrite fold_left_cons, app_assoc. by apply IH, update_counted.
Qed.

Lemma bmw_gclose_spec iv msg sc ub n out :
  counted iv msg sc -> 0 <= n <= 7 ->
  fst (gclose sc ub n out) = spec iv msg n (mark_byte ub n) out.
Proof.
  intros [Hl Hr] Hn. pose proof (repr_wf bs block ltac:(lia) _ _ _ Hr) as [_ Hp].
  pose proof Hr as (_ & _ & _ & Hs). rewrite bmw_fold_block in Hs. unfold gclose.
  change (((ub .& SPH_T32 (- (0x80 >> n))) .| (0x80 >> n)) .& 0xFF) with (mark_byte ub n).
  cbv zeta. set (mb := mark_byte ub n).
  set (tail := sph_enc64le ((8 * Z.of_nat (length msg) + n) mod 2 ^ 64)).
  assert (sph_enc64le (SPH_T64 (bit_count (st sc) + n)) = tail) as ->.
  { unfold tail. rewrite Hs, T64_mod. cbn [bit_count]. by rewrite Zplus_mod_idemp_l. }
  assert (length tail = 8%nat) as Ht by reflexivity.
  assert (spec iv msg n mb out = concat (enc <$> take out (drop (16 - out)
    (compress (concat (enc <$> fold_left (fun h blk => compress blk h)
      (blocks bs (msg ++ md_pad bs (length msg mod bs) mb tail)) iv)) final)))) as -> by reflexivity.
  clearbody tail. pose proof (bmw_fold_block (blocks bs (msg ++ md_pad bs (length msg mod bs) mb tail)) iv)
    as Hf. set (R := fold_left (fun h blk => compress blk h) _ iv) in *.
  assert (forall b, bmw_H (mk_bmw R b) = R) as HR by reflexivity.
  case Nat.ltb_spec; intros Hlt; cbv beta iota.
  - rewrite mark_fill by lia. rewrite zero_fill by
      (rewrite ?length_app, ?length_take; cbn [length]; rewrite ?length_replicate; lia).
    pose proof (md_close_two bs block ltac:(lia) _ msg sc Hr mb tail ltac:(lia) ltac:(lia)) as H2.
    rewrite Hf in H2. apply (f_equal bmw_H) in H2. unfold block, bmw_block in H2. cbn [bmw_H] in H2.
    rewrite Ht in H2. replace (bs - 8 - 0)%nat with (bs - 8)%nat by lia. rewrite H2.
    cbn [fst]. do 6 f_equal. apply memcpy_all.
    rewrite <- H2, Henc, length_app, length_replicate. lia.
  - rewrite md_fill by lia.
    pose proof (md_close_one bs block ltac:(lia) _ msg sc Hr mb tail ltac:(lia) ltac:(lia)) as H1.
    rewrite Hf in H1. apply (f_equal bmw_H) in H1. unfold block, bmw_block in H1. cbn [bmw_H] in H1.
    rewrite Ht in H1. rewrite H1. cbn [fst]. do 6 f_equal. apply memcpy_all.
    rewrite <- H1, Henc, length_app, length_take. cbn [length]. rewrite length_app, length_replicate. lia.
Qed.
End Digest.

Lemma bmw32_close_gclose : bmw32_close = gclose 64 compress_small sph_enc32le final_s.
Proof. reflexivity. Qed.
Lemma bmw64_close_gclose : bmw64_close = gclose 128 compress_big sph_enc64le final_b.
Proof. reflexivity. Qed.

(** ** Main results *)

Lemma bmw32_spec cc iv ds ub n out :
  length (buf cc) = 64%nat -> 0 <= n <= 7 ->
  fst (bmw32_close (fold_left bmw32 ds (bmw32_init cc iv)) ub n out) =
  spec 64 compress_small sph_enc32le final_s iv (concat ds) n (mark_byte ub n) out.
Proof.
  intros Hb Hn. rewrite bmw32_close_gclose. apply bmw_gclose_spec; [lia|reflexivity| |done].
  apply (updates_counted 64 compress_small); [lia|done].
Qed.

Lemma bmw64_spec cc iv ds ub n out :
  length (buf cc) = 128%nat -> 0 <= n <= 7 ->
  fst (bmw64_close (fold_left bmw64 ds (bmw64_init cc iv)) ub n out) =
  spec 128 compress_big sph_enc64le final_b iv (concat ds) n (mark_byte ub n) out.
Proof.
  intros Hb Hn. rewrite bmw64_close_gclose. apply bmw_gclose_spec; [lia|reflexivity| |done].
  apply (updates_counted 128 compress_big); [lia|done].
Qed.

(** The expansion of the second half of the quadruple pipe written as a loop
    over tables and computed index arithmetic (the small-footprint branch) and
    the unrolled macros compute the same 32 words. *)
Theorem bmw_expansion_variants_agree m h q : MAKE_Qbb_small m h q = MAKE_Qb ops_b m h q.
Proof. apply MAKE_Qbb_small_eq. Qed.

(** For a fixed chaining value, different message blocks give different first
    halves of the quadruple pipe, with words of either size: the linear map of
    the [W] macros and the [s] functions lose nothing. *)
Theorem bmw_f0_injective m m' h :
  (wf_arr 32 16 m -> wf_arr 32 16 m' -> wf_arr 32 16 h ->
   MAKE_Qa ops_s m h = MAKE_Qa ops_s m' h -> m = m') /\
  (wf_arr 64 16 m -> wf_arr 64 16 m' -> wf_arr 64 16 h ->
   MAKE_Qa ops_b m h = MAKE_Qa ops_b m' h -> m = m').
Proof. split; apply MAKE_Qa_inj; [apply ops_s_ok|apply ops_b_ok]. Qed.

Lemma bmw_f0_injective_witness :
  let h := replicate 16 3 in let m i := <[4%nat := i]> (replicate 16 1) in
  MAKE_Qa ops_b (m 5) h <> MAKE_Qa ops_b (m 6) h.
Proof.
  intros h m Heq. destruct (bmw_f0_injective (m 5) (m 6) h) as [_ H].
  discriminate H; [..|exact Heq]; (split; [reflexivity|]; unfold word; repeat constructor; lia).
Defined.

(** The digest of a message fed to BMW in any chunks and closed with [n]
    further bits, for both word sizes: the padded message is folded with the
    compression function, the result compressed once more under the final
    constant, and the last [out] words are the digest; the bit count is the
    message length modulo [2^64]. *)
Theorem bmw_digest iv ds ub n out :
  0 <= n <= 7 ->
  (forall cc, length (buf cc) = 64%nat ->
   fst (bmw32_close (fold_left bmw32 ds (bmw32_init cc iv)) ub n out) =
   spec 64 compress_small sph_enc32le final_s iv (concat ds) n (mark_byte ub n) out) /\
  (forall cc, length (buf cc) = 128%nat ->
   fst (bmw64_close (fold_left bmw64 ds (bmw64_init cc iv)) ub n out) =
   spec 128 compress_big sph_enc64le final_b iv (concat ds) n (mark_byte ub n) out).
Proof. intros Hn. split; intros; [by apply bmw32_spec|by apply bmw64_spec]. Qed.

Lemma bmw_digest_witness :
  fst (bmw64_close (fold_left bmw64 [[]] (bmw64_init (mk_ctx (replicate 128 9) 0 (mk_bmw [] 0)) IV512))
    0 0 8) =
  be_bytes 64 0x6A725655C42BC8A2A20549DD5A233A6A2BEB01616975851FD122504E604B46AF7D96697D0B6333DB1D1709D6DF328D2A6C786551B0CCE2255E8C7332B4819C0E.
Proof.
  destruct (bmw_digest IV512 [[]] 0 0 8 ltac:(lia)) as [_ H].
  rewrite H by reflexivity. apply list_eqb_eq. vm_compute. reflexivity.
Defined.
