(* ===== verification/Groestl.v ===== *)
(** * groestl.c: the Groestl hash functions

    The 64-bit code ([SPH_GROESTL_64]) on a little-endian machine, for both
    block sizes: the permutations P and Q over the tables of [GroestlTables],
    the compression and the output transformation, the contexts and the
    closing code.  The reference ([Ref]) is the AES-like description: columns
    of eight bytes, round constants, S-box, row shifts and the MixBytes
    matrix. *)

From Stdlib Require Import ZArith Lia Btauto.
From stdpp Require Import base tactics numbers list.
From S2P Require Import Prelude SphTypes Stream Gf256 GroestlTables.

(** ** Permutations *)

Definition B64_0 (x : Z) : Z := x .& 0xFF.
Definition B64_1 (x : Z) : Z := (x >> 8) .& 0xFF.
Definition B64_2 (x : Z) : Z := (x >> 16) .& 0xFF.
Definition B64_3 (x : Z) : Z := (x >> 24) .& 0xFF.
Definition B64_4 (x : Z) : Z := (x >> 32) .& 0xFF.
Definition B64_5 (x : Z) : Z := (x >> 40) .& 0xFF.
Definition B64_6 (x : Z) : Z := (x >> 48) .& 0xFF.
Definition B64_7 (x : Z) : Z := x >> 56.

Definition PC64 (j r : Z) : Z := SPH_T64 (j + r).
Definition QC64 (j r : Z) : Z := SPH_T64 (r << 56) ⊕ not64 (SPH_T64 (j << 56)).

(** [RSTT(d, a, b0, ..., b7)] and [RBTT], which are the same expression: the
    value of [t[d]]. *)
Definition RTT (a : list Z) (b : list nat) : Z :=
  let '(b0, b1, b2, b3, b4, b5, b6, b7) :=
    (nth 0 b 0, nth 1 b 0, nth 2 b 0, nth 3 b 0, nth 4 b 0, nth 5 b 0, nth 6 b 0, nth 7 b 0)%nat in
  tab_at T0 (B64_0 a.[b0]) ⊕ tab_at T1 (B64_1 a.[b1]) ⊕ tab_at T2 (B64_2 a.[b2]) ⊕ tab_at T3 (B64_3 a.[b3])
  ⊕ tab_at T4 (B64_4 a.[b4]) ⊕ tab_at T5 (B64_5 a.[b5]) ⊕ tab_at T6 (B64_6 a.[b6]) ⊕ tab_at T7 (B64_7 a.[b7]).

(** The same in the small footprint: two tables and rotations. *)
Definition RTT_small (a : list Z) (b : list nat) : Z :=
  let '(b0, b1, b2, b3, b4, b5, b6, b7) :=
    (nth 0 b 0, nth 1 b 0, nth 2 b 0, nth 3 b 0, nth 4 b 0, nth 5 b 0, nth 6 b 0, nth 7 b 0)%nat in
  tab_at T0 (B64_0 a.[b0]) ⊕ SPH_ROTL64 (tab_at T0 (B64_1 a.[b1])) 8
  ⊕ SPH_ROTL64 (tab_at T0 (B64_2 a.[b2])) 16 ⊕ SPH_ROTL64 (tab_at T0 (B64_3 a.[b3])) 24
  ⊕ tab_at T4 (B64_4 a.[b4]) ⊕ SPH_ROTL64 (tab_at T4 (B64_5 a.[b5])) 8
  ⊕ SPH_ROTL64 (tab_at T4 (B64_6 a.[b6])) 16 ⊕ SPH_ROTL64 (tab_at T4 (B64_7 a.[b7])) 24.

Definition consts_small : list Z := [0x00; 0x10; 0x20; 0x30; 0x40; 0x50; 0x60; 0x70].
Definition consts_big : list Z :=
  [0x00; 0x10; 0x20; 0x30; 0x40; 0x50; 0x60; 0x70; 0x80; 0x90; 0xA0; 0xB0; 0xC0; 0xD0; 0xE0; 0xF0].

Definition small_P : list (list nat) :=
  [[0; 1; 2; 3; 4; 5; 6; 7]; [1; 2; 3; 4; 5; 6; 7; 0]; [2; 3; 4; 5; 6; 7; 0; 1];
   [3; 4; 5; 6; 7; 0; 1; 2]; [4; 5; 6; 7; 0; 1; 2; 3]; [5; 6; 7; 0; 1; 2; 3; 4];
   [6; 7; 0; 1; 2; 3; 4; 5]; [7; 0; 1; 2; 3; 4; 5; 6]]%nat.
Definition small_Q : list (list nat) :=
  [[1; 3; 5; 7; 0; 2; 4; 6]; [2; 4; 6; 0; 1; 3; 5; 7]; [3; 5; 7; 1; 2; 4; 6; 0];
   [4; 6; 0; 2; 3; 5; 7; 1]; [5; 7; 1; 3; 4; 6; 0; 2]; [6; 0; 2; 4; 5; 7; 1; 3];
   [7; 1; 3; 5; 6; 0; 2; 4]; [0; 2; 4; 6; 7; 1; 3; 5]]%nat.
Definition big_P : list (list nat) :=
  [[0; 1; 2; 3; 4; 5; 6; 11]; [1; 2; 3; 4; 5; 6; 7; 12]; [2; 3; 4; 5; 6; 7; 8; 13];
   [3; 4; 5; 6; 7; 8; 9; 14]; [4; 5; 6; 7; 8; 9; 10; 15]; [5; 6; 7; 8; 9; 10; 11; 0];
   [6; 7; 8; 9; 10; 11; 12; 1]; [7; 8; 9; 10; 11; 12; 13; 2]; [8; 9; 10; 11; 12; 13; 14; 3];
   [9; 10; 11; 12; 13; 14; 15; 4]; [10; 11; 12; 13; 14; 15; 0; 5]; [11; 12; 13; 14; 15; 0; 1; 6];
   [12; 13; 14; 15; 0; 1; 2; 7]; [13; 14; 15; 0; 1; 2; 3; 8]; [14; 15; 0; 1; 2; 3; 4; 9];
   [15; 0; 1; 2; 3; 4; 5; 10]]%nat.
Definition big_Q : list (list nat) :=
  [[1; 3; 5; 11; 0; 2; 4; 6]; [2; 4; 6; 12; 1; 3; 5; 7]; [3; 5; 7; 13; 2; 4; 6; 8];
   [4; 6; 8; 14; 3; 5; 7; 9]; [5; 7; 9; 15; 4; 6; 8; 10]; [6; 8; 10; 0; 5; 7; 9; 11];
   [7; 9; 11; 1; 6; 8; 10; 12]; [8; 10; 12; 2; 7; 9; 11; 13]; [9; 11; 13; 3; 8; 10; 12; 14];
   [10; 12; 14; 4; 9; 11; 13; 15]; [11; 13; 15; 5; 10; 12; 14; 0]; [12; 14; 0; 6; 11; 13; 15; 1];
   [13; 15; 1; 7; 12; 14; 0; 2]; [14; 0; 2; 8; 13; 15; 1; 3]; [15; 1; 3; 9; 14; 0; 2; 4];
   [0; 2; 4; 10; 15; 1; 3; 5]]%nat.

(** A round: the constants into [a], the look-ups into [t], [t] back into
    [a]. *)
Definition ROUND (consts : list Z) (rows : list (list nat)) (C : Z -> Z -> Z) (a : list Z) (r : Z) :
    list Z :=
  let a := lxor_list a ((fun j => C j r) <$> consts) in
  RTT a <$> rows.
Definition ROUND_SMALL_P : list Z -> Z -> list Z := ROUND consts_small small_P PC64.
Definition ROUND_SMALL_Q : list Z -> Z -> list Z := ROUND consts_small small_Q QC64.
Definition ROUND_BIG_P : list Z -> Z -> list Z := ROUND consts_big big_P PC64.
Definition ROUND_BIG_Q : list Z -> Z -> list Z := ROUND consts_big big_Q QC64.

(** [for (r = 0; r < 2 * k; r += 2)] with two rounds in the body. *)
Definition perm2 (round : list Z -> Z -> list Z) (k : nat) (a : list Z) : list Z :=
  fold_left (fun a i => let r := 2 * Z.of_nat i in round (round a (r + 0)) (r + 1)) (seq 0 k) a.
Definition PERM_SMALL_P : list Z -> list Z := perm2 ROUND_SMALL_P 5.
Definition PERM_SMALL_Q : list Z -> list Z := perm2 ROUND_SMALL_Q 5.
Definition PERM_BIG_P : list Z -> list Z := perm2 ROUND_BIG_P 7.
Definition PERM_BIG_Q : list Z -> list Z := perm2 ROUND_BIG_Q 7.

(** ** Compression *)

Definition message (n : nat) (buf : list Z) : list Z :=
  (fun u => sph_dec64le (drop (8 * u) buf)) <$> seq 0 n.
Definition compress (n : nat) (P Q : list Z -> list Z) (H buf : list Z) : list Z :=
  let m := message n buf in
  let g := lxor_list m H in
  let g := P g in
  let m := Q m in
  lxor_list H (lxor_list g m).
Definition final (P : list Z -> list Z) (H : list Z) : list Z := lxor_list H (P H).
Definition COMPRESS_SMALL : list Z -> list Z -> list Z := compress 8 PERM_SMALL_P PERM_SMALL_Q.
Definition COMPRESS_BIG : list Z -> list Z -> list Z := compress 16 PERM_BIG_P PERM_BIG_Q.
Definition FINAL_SMALL : list Z -> list Z := final PERM_SMALL_P.
Definition FINAL_BIG : list Z -> list Z := final PERM_BIG_P.

(** ** The contexts and their operations *)

Record groestl_state : Type := mk_groestl { wide : list Z; count : Z }.
Definition sph_groestl_small_context : Type := stream_ctx groestl_state.
Definition sph_groestl_big_context : Type := stream_ctx groestl_state.

(** The last word of the initial state holds the digest size, most
    significant byte last. *)
Definition init_word (out_size : Z) : Z :=
  SPH_T64 ((out_size .& 0xFF) << 56) .| SPH_T64 ((out_size .& 0xFF00) << 40).
Definition groestl_small_init (sc : sph_groestl_small_context) (out_size : Z) :
    sph_groestl_small_context :=
  mk_ctx (buf sc) 0 (mk_groestl (replicate 7 0 ++ [init_word out_size]) 0).
Definition groestl_big_init (sc : sph_groestl_big_context) (out_size : Z) :
    sph_groestl_big_context :=
  mk_ctx (buf sc) 0 (mk_groestl (replicate 15 0 ++ [init_word out_size]) 0).

(** A full buffer: [COMPRESS] and [sc->count ++]. *)
Definition block (C : list Z -> list Z -> list Z) (s : groestl_state) (buf : list Z) : groestl_state :=
  mk_groestl (C (wide s) buf) (SPH_T64 (count s + 1)).
Definition groestl_small_core (sc : sph_groestl_small_context) (data : list Z) :
    sph_groestl_small_context := core 64 (block COMPRESS_SMALL) sc data.
Definition groestl_big_core (sc : sph_groestl_big_context) (data : list Z) :
    sph_groestl_big_context := core 128 (block COMPRESS_BIG) sc data.

Definition groestl_small_close (sc : sph_groestl_small_context) (ub n : Z) (out_len : nat) :
    list Z * sph_groestl_small_context :=
  let z := 0x80 >> n in
  let pad0 := ((ub .& SPH_T32 (- z)) .| z) .& 0xFF in
  let '(pad_len, count) :=
    if (ptr sc <? 56)%nat then ((64 - ptr sc)%nat, SPH_T64 (count (st sc) + 1))
    else ((128 - ptr sc)%nat, SPH_T64 (count (st sc) + 2)) in
  let pad := pad0 :: replicate (pad_len - 9) 0 ++ sph_enc64be count in
  let sc := groestl_small_core sc pad in
  let H := FINAL_SMALL (wide (st sc)) in
  let pad := concat ((fun u => sph_enc64le H.[u + 4]) <$> seq 0 4) in
  (take out_len (drop (32 - out_len) pad), groestl_small_init sc (Z.of_nat out_len << 3)).
Definition groestl_big_close (sc : sph_groestl_big_context) (ub n : Z) (out_len : nat) :
    list Z * sph_groestl_big_context :=
  let z := 0x80 >> n in
  let pad0 := ((ub .& SPH_T32 (- z)) .| z) .& 0xFF in
  let '(pad_len, count) :=
    if (ptr sc <? 120)%nat then ((128 - ptr sc)%nat, SPH_T64 (count (st sc) + 1))
    else ((256 - ptr sc)%nat, SPH_T64 (count (st sc) + 2)) in
  let pad := pad0 :: replicate (pad_len - 9) 0 ++ sph_enc64be count in
  let sc := groestl_big_core sc pad in
  let H := FINAL_BIG (wide (st sc)) in
  let pad := concat ((fun u => sph_enc64le H.[u + 8]) <$> seq 0 8) in
  (take out_len (drop (64 - out_len) pad), groestl_big_init sc (Z.of_nat out_len << 3)).

Definition sph_groestl224_init (cc : sph_groestl_small_context) := groestl_small_init cc 224.
Definition sph_groestl224 (cc : sph_groestl_small_context) (data : list Z) := groestl_small_core cc data.
Definition sph_groestl224_close (cc : sph_groestl_small_context) := groestl_small_close cc 0 0 28.
Definition sph_groestl224_addbits_and_close (cc : sph_groestl_small_context) (ub n : Z) :=
  groestl_small_close cc ub n 28.

Definition sph_groestl256_init (cc : sph_groestl_small_context) := groestl_small_init cc 256.
Definition sph_groestl256 (cc : sph_groestl_small_context) (data : list Z) := groestl_small_core cc data.
Definition sph_groestl256_close (cc : sph_groestl_small_context) := groestl_small_close cc 0 0 32.
Definition sph_groestl256_addbits_and_close (cc : sph_groestl_small_context) (ub n : Z) :=
  groestl_small_close cc ub n 32.

Definition sph_groestl384_init (cc : sph_groestl_big_context) := groestl_big_init cc 384.
Definition sph_groestl384 (cc : sph_groestl_big_context) (data : list Z) := groestl_big_core cc data.
Definition sph_groestl384_close (cc : sph_groestl_big_context) := groestl_big_close cc 0 0 48.
Definition sph_groestl384_addbits_and_close (cc : sph_groestl_big_context) (ub n : Z) :=
  groestl_big_close cc ub n 48.

Definition sph_groestl512_init (cc : sph_groestl_big_context) := groestl_big_init cc 512.
Definition sph_groestl512 (cc : sph_groestl_big_context) (data : list Z) := groestl_big_core cc data.
Definition sph_groestl512_close (cc : sph_groestl_big_context) := groestl_big_close cc 0 0 64.
Definition sph_groestl512_addbits_and_close (cc : sph_groestl_big_context) (ub n : Z) :=
  groestl_big_close cc ub n 64.

(** ** Reference: an AES-like permutation on columns of bytes *)

Module Ref.
(** A state is a list of columns of eight bytes. *)
Definition matrix : list (list Z) := circ [2; 2; 3; 4; 5; 3; 5; 7].
(** Row [i] of column [j] comes from column [j + sigma i]. *)
Definition shift (sigma : list nat) (A : list (list Z)) (j : nat) : list Z :=
  (fun i => (nth ((j + nth i sigma 0) mod length A)%nat A []).[i]) <$> seq 0 8.
Definition const_P (j r : Z) : list Z := (16 * j) ⊕ r :: replicate 7 0.
Definition const_Q (j r : Z) : list Z := replicate 7 0xFF ++ [0xFF ⊕ (16 * j) ⊕ r].
Definition round (sigma : list nat) (const : Z -> Z -> list Z) (A : list (list Z)) (r : Z) :
    list (list Z) :=
  let A := (fun j => lxor_list (nth j A []) (const (Z.of_nat j) r)) <$> seq 0 (length A) in
  (fun j => mix matrix (S_box <$> shift sigma A j)) <$> seq 0 (length A).
Definition perm (sigma : list nat) (const : Z -> Z -> list Z) (rounds : nat) (A : list (list Z)) :
    list (list Z) :=
  fold_left (fun A r => round sigma const A (Z.of_nat r)) (seq 0 rounds) A.
Definition P512 := perm [0; 1; 2; 3; 4; 5; 6; 7]%nat const_P 10.
Definition Q512 := perm [1; 3; 5; 7; 0; 2; 4; 6]%nat const_Q 10.
Definition P1024 := perm [0; 1; 2; 3; 4; 5; 6; 11]%nat const_P 14.
Definition Q1024 := perm [1; 3; 5; 11; 0; 2; 4; 6]%nat const_Q 14.
End Ref.

(** ** Tables and rows *)

Definition tables : list (list Z) := [T0; T1; T2; T3; T4; T5; T6; T7].

Lemma tables_ok : forallb (fun k => table_ok 8 Ref.matrix k (nth k tables [])) (seq 0 8) = true.
Proof. vm_compute. reflexivity. Qed.

Lemma tables_words : forallb (fun T => (length T =? 256)%nat && forallb (fun x => (0 <=? x) && (x <? 2 ^ 64)) T)
  tables = true.
Proof. vm_compute. reflexivity. Qed.

Lemma lxor_all8 t0 t1 t2 t3 t4 t5 t6 t7 :
  t0 ⊕ t1 ⊕ t2 ⊕ t3 ⊕ t4 ⊕ t5 ⊕ t6 ⊕ t7 = lxor_all [t0; t1; t2; t3; t4; t5; t6; t7].
Proof. unfold lxor_all. cbn [foldr]. by rewrite Z.lxor_0_r, !Z.lxor_assoc. Qed.

Lemma B64_7_uchar x : word 64 x -> B64_7 x = uchar (x >> 56).
Proof.
  intros Hx. symmetry. apply uchar_id. unfold B64_7.
  split; [apply Z.shiftr_nonneg; by destruct Hx|].
  rewrite Z.shiftr_div_pow2 by lia. apply Z.div_lt_upper_bound; [lia|]. by destruct Hx.
Qed.

(** The bytes that the look-ups of [RTT] use. *)
Definition picked (a : list Z) (b : list nat) : list Z :=
  (fun i => uchar (a.[nth i b 0%nat] >> (8 * Z.of_nat i))) <$> seq 0 8.

Lemma RTT_tables a b :
  words 64 a ->
  RTT a b = lxor_all ((fun k => tab_at (nth k tables []) (picked a b).[k]) <$> seq 0 8).
Proof.
  intros Ha. unfold RTT, tables, picked. cbn [seq fmap list_fmap nth].
  generalize T0 T1 T2 T3 T4 T5 T6 T7. intros. rewrite lxor_all8.
  rewrite B64_7_uchar by (by apply words_nth). rewrite Z.mul_0_r, Z.shiftr_0_r. reflexivity.
Qed.

Lemma RTT_mix a b :
  words 64 a -> le_bytes 8 (RTT a b) = mix Ref.matrix (S_box <$> picked a b).
Proof.
  intros Ha. rewrite RTT_tables by done. apply mix_by_tables; try reflexivity.
  - repeat constructor.
  - intros k Hk. pose proof tables_ok as H. rewrite forallb_forall in H. apply H, in_seq. lia.
  - apply Forall_fmap, Forall_true. intros i. apply uchar_word.
Qed.

Lemma tables_nth_words k : words 64 (nth k tables []).
Proof.
  pose proof tables_words as H. rewrite forallb_forall in H.
  destruct (decide (k < length tables)%nat) as [Hk|Hk].
  - apply words_check. specialize (H _ (nth_In _ [] Hk)). by apply andb_true_iff in H as [_ H].
  - rewrite nth_overflow by lia. constructor.
Qed.

Lemma RTT_word a b : words 64 a -> word 64 (RTT a b).
Proof.
  intros Ha. rewrite RTT_tables by done. apply lxor_all_word; [lia|].
  apply Forall_fmap, Forall_true. intros k. apply words_nth; [lia|apply tables_nth_words].
Qed.

(** ** Rounds *)

Section Round.
Context (n : nat) (consts : list Z) (rows : list (list nat)) (C : Z -> Z -> Z).
Context (sigma : list nat) (const : Z -> Z -> list Z).
Context (Hc : consts = (fun j => 16 * Z.of_nat j) <$> seq 0 n).
Context (Hrows : rows = (fun j => (fun i => (j + nth i sigma 0) mod n)%nat <$> seq 0 8) <$> seq 0 n).
Context (HC : forall j r, (j < n)%nat -> 0 <= r < 16 ->
  word 64 (C (16 * Z.of_nat j) r) /\ le_bytes 8 (C (16 * Z.of_nat j) r) = const (Z.of_nat j) r).
Context (Hn : (0 < n)%nat).

Lemma groestl_ROUND_wf a r : wf_arr 64 n a -> 0 <= r < 16 -> wf_arr 64 n (ROUND consts rows C a r).
Proof.
  intros [Hl Hw] Hr. unfold ROUND. split; [rewrite Hrows, !length_fmap, length_seq; done|].
  apply Forall_fmap, Forall_true. intros b. apply RTT_word, words_lxor; [done|].
  rewrite Hc, <- list_fmap_compose. apply Forall_fmap, Forall_forall. intros j Hj%elem_of_seq.
  by apply HC; [lia|].
Qed.

Lemma ROUND_ref a r :
  wf_arr 64 n a -> 0 <= r < 16 ->
  le_bytes 8 <$> ROUND consts rows C a r = Ref.round sigma const (le_bytes 8 <$> a) r.
Proof.
  intros [Hl Hw] Hr. unfold ROUND, Ref.round. rewrite !length_fmap, length_seq, Hl.
  set (a' := lxor_list a _). 
  set (A' := (fun j => lxor_list (nth j (le_bytes 8 <$> a) []) (const (Z.of_nat j) r)) <$> seq 0 n).
  assert (words 64 a') as Hw'.
  { apply words_lxor; [done|]. rewrite Hc, <- list_fmap_compose. apply Forall_fmap, Forall_forall.
    intros j Hj%elem_of_seq. by apply HC; [lia|]. }
  assert (A' = (fun j => le_bytes 8 a'.[j]) <$> seq 0 n) as HA.
  { apply list_fmap_ext. intros j0 j Hj%list_elem_of_lookup_2%elem_of_seq. unfold a'.
    rewrite nth_lxor_list by (rewrite Hc, !length_fmap, length_seq; done).
    rewrite le_bytes_lxor. f_equal.
    - rewrite (nth_indep _ [] (le_bytes 8 0)) by (rewrite length_fmap; lia).
      exact (map_nth (le_bytes 8) a 0 j).
    - rewrite Hc, <- list_fmap_compose, nth_fmap_seq by lia. cbn [compose]. symmetry.
      by apply HC; [lia|]. }
  clearbody A'. subst A'. rewrite Hrows, <- !list_fmap_compose.
  assert (length ((fun j => le_bytes 8 a'.[j]) <$> seq 0 n) = n) as Hn' by
    by rewrite length_fmap, length_seq.
  apply list_fmap_ext. intros j0 j Hj%list_elem_of_lookup_2%elem_of_seq. cbn [compose].
  rewrite RTT_mix by done. do 2 f_equal. unfold picked, Ref.shift.
  apply list_fmap_ext. intros i0 i Hi%list_elem_of_lookup_2%elem_of_seq.
  rewrite Hn'. set (k := ((j + nth i sigma 0) mod n)%nat).
  assert (k < n)%nat as Hk by (apply Nat.mod_upper_bound; lia).
  rewrite !nth_fmap_seq by lia. fold k. by rewrite nth_le_bytes by lia.
Qed.
End Round.

Lemma perm2_rounds round k a :
  perm2 round k a = fold_left (fun a r => round a (Z.of_nat r)) (seq 0 (2 * k)) a.
Proof.
  rewrite <- (fold_left_groups (fun r a => round a (Z.of_nat r)) 2 k). unfold perm2.
  apply fold_left_ext. intros x i _. cbn [seq fold_left]. do 2 f_equal; [f_equal|]; lia.
Qed.

Section Perm.
Context (n : nat) (round : list Z -> Z -> list Z) (sigma : list nat) (const : Z -> Z -> list Z).
Context (Hwf : forall a r, wf_arr 64 n a -> 0 <= r < 16 -> wf_arr 64 n (round a r)).
Context (Href : forall a r, wf_arr 64 n a -> 0 <= r < 16 ->
  le_bytes 8 <$> round a r = Ref.round sigma const (le_bytes 8 <$> a) r).

Lemma perm2_ref k a :
  (k <= 8)%nat -> wf_arr 64 n a ->
  wf_arr 64 n (perm2 round k a) /\
  le_bytes 8 <$> perm2 round k a = Ref.perm sigma const (2 * k) (le_bytes 8 <$> a).
Proof.
  intros Hk Ha. rewrite perm2_rounds. unfold Ref.perm.
  apply (fold_left_sim (fun a A => wf_arr 64 n a /\ le_bytes 8 <$> a = A)); [done|].
  intros b B r Hr%elem_of_seq [Hb <-]. split; [apply Hwf|apply Href]; (done || lia).
Qed.
End Perm.

Lemma PC64_const j r :
  (j < 16)%nat -> 0 <= r < 16 ->
  word 64 (PC64 (16 * Z.of_nat j) r) /\ le_bytes 8 (PC64 (16 * Z.of_nat j) r) = Ref.const_P (Z.of_nat j) r.
Proof.
  intros Hj Hr. split; [apply T64_word|].
  assert (forallb (fun j => forallb (fun r => list_eqb (le_bytes 8 (PC64 (16 * Z.of_nat j) (Z.of_nat r)))
    (Ref.const_P (Z.of_nat j) (Z.of_nat r))) (seq 0 16)) (seq 0 16) = true) as H by (vm_compute; reflexivity).
  rewrite forallb_forall in H. specialize (H j). rewrite in_seq, forallb_forall in H.
  specialize (H ltac:(lia) (Z.to_nat r)). rewrite in_seq, Z2Nat.id in H by lia.
  apply list_eqb_eq, H. lia.
Qed.

Lemma QC64_const j r :
  (j < 16)%nat -> 0 <= r < 16 ->
  word 64 (QC64 (16 * Z.of_nat j) r) /\ le_bytes 8 (QC64 (16 * Z.of_nat j) r) = Ref.const_Q (Z.of_nat j) r.
Proof.
  intros Hj Hr. split; [apply word_lxor; [apply T64_word|apply not64_word]|].
  assert (forallb (fun j => forallb (fun r => list_eqb (le_bytes 8 (QC64 (16 * Z.of_nat j) (Z.of_nat r)))
    (Ref.const_Q (Z.of_nat j) (Z.of_nat r))) (seq 0 16)) (seq 0 16) = true) as H by (vm_compute; reflexivity).
  rewrite forallb_forall in H. specialize (H j). rewrite in_seq, forallb_forall in H.
  specialize (H ltac:(lia) (Z.to_nat r)). rewrite in_seq, Z2Nat.id in H by lia.
  apply list_eqb_eq, H. lia.
Qed.

Ltac perm_ref n consts rows C sigma const HC :=
  intros Ha; apply (perm2_ref n (ROUND consts rows C) sigma const);
  [ intros; apply (groestl_ROUND_wf n consts rows C sigma const);
      (reflexivity || done || lia || (intros; apply HC; lia))
  | intros; apply (ROUND_ref n consts rows C sigma const);
      (reflexivity || done || lia || (intros; apply HC; lia))
  | lia | done ].

Lemma PERM_SMALL_P_ref a : wf_arr 64 8 a ->
  wf_arr 64 8 (PERM_SMALL_P a) /\ le_bytes 8 <$> PERM_SMALL_P a = Ref.P512 (le_bytes 8 <$> a).
Proof. perm_ref 8%nat consts_small small_P PC64 [0; 1; 2; 3; 4; 5; 6; 7]%nat Ref.const_P PC64_const. Qed.
Lemma PERM_SMALL_Q_ref a : wf_arr 64 8 a ->
  wf_arr 64 8 (PERM_SMALL_Q a) /\ le_bytes 8 <$> PERM_SMALL_Q a = Ref.Q512 (le_bytes 8 <$> a).
Proof. perm_ref 8%nat consts_small small_Q QC64 [1; 3; 5; 7; 0; 2; 4; 6]%nat Ref.const_Q QC64_const. Qed.
Lemma PERM_BIG_P_ref a : wf_arr 64 16 a ->
  wf_arr 64 16 (PERM_BIG_P a) /\ le_bytes 8 <$> PERM_BIG_P a = Ref.P1024 (le_bytes 8 <$> a).
Proof. perm_ref 16%nat consts_big big_P PC64 [0; 1; 2; 3; 4; 5; 6; 11]%nat Ref.const_P PC64_const. Qed.
Lemma PERM_BIG_Q_ref a : wf_arr 64 16 a ->
  wf_arr 64 16 (PERM_BIG_Q a) /\ le_bytes 8 <$> PERM_BIG_Q a = Ref.Q1024 (le_bytes 8 <$> a).
Proof. perm_ref 16%nat consts_big big_Q QC64 [1; 3; 5; 11; 0; 2; 4; 6]%nat Ref.const_Q QC64_const. Qed.

(** ** The small footprint *)

Definition rotated (k : nat) : Z -> Z :=
  let T := nth (4 * (k / 4))%nat tables [] in fun x => SPH_ROTL64 (tab_at T x) (8 * Z.of_nat (k mod 4)).

Lemma tables_rotated :
  forallb (fun k => list_eqb ((fun x => rotated k (Z.of_nat x)) <$> seq 0 256) (nth k tables [])) (seq 0 8) = true.
Proof. vm_compute. reflexivity. Qed.

Lemma table_rotated k x : (k < 8)%nat -> word 8 x -> tab_at (nth k tables []) x = rotated k x.
Proof.
  intros Hk Hx. pose proof tables_rotated as H. rewrite forallb_forall in H.
  specialize (H k). rewrite in_seq in H. specialize (H ltac:(lia)). apply list_eqb_eq in H.
  unfold word in Hx. unfold tab_at. rewrite <- H, nth_fmap_seq by lia. by rewrite Z2Nat.id by lia.
Qed.

Lemma T1_rotated x : word 8 x -> tab_at T1 x = SPH_ROTL64 (tab_at T0 x) 8.
Proof. exact (table_rotated 1 x ltac:(lia)). Qed.
Lemma T2_rotated x : word 8 x -> tab_at T2 x = SPH_ROTL64 (tab_at T0 x) 16.
Proof. exact (table_rotated 2 x ltac:(lia)). Qed.
Lemma T3_rotated x : word 8 x -> tab_at T3 x = SPH_ROTL64 (tab_at T0 x) 24.
Proof. exact (table_rotated 3 x ltac:(lia)). Qed.
Lemma T5_rotated x : word 8 x -> tab_at T5 x = SPH_ROTL64 (tab_at T4 x) 8.
Proof. exact (table_rotated 5 x ltac:(lia)). Qed.
Lemma T6_rotated x : word 8 x -> tab_at T6 x = SPH_ROTL64 (tab_at T4 x) 16.
Proof. exact (table_rotated 6 x ltac:(lia)). Qed.
Lemma T7_rotated x : word 8 x -> tab_at T7 x = SPH_ROTL64 (tab_at T4 x) 24.
Proof. exact (table_rotated 7 x ltac:(lia)). Qed.

Lemma RTT_small_eq a b : words 64 a -> RTT_small a b = RTT a b.
Proof.
  intros Ha. unfold RTT, RTT_small.
  assert (forall x, word 8 (x .& 0xFF)) as Hm by (intros; apply uchar_word).
  assert (forall i, word 8 (B64_7 a.[i])) as H7.
  { intros i. rewrite B64_7_uchar by (by apply words_nth). apply uchar_word. }
  rewrite T1_rotated, T2_rotated, T3_rotated, T5_rotated, T6_rotated, T7_rotated by (apply Hm || apply H7).
  done.
Qed.

(** ** Specification of the hash functions, on bytes *)

Module Spec.
Section Size.
(** [n] columns per state; the reference permutations. *)
Context (n : nat) (P Q : list (list Z) -> list (list Z)).
Let bs : nat := (8 * n)%nat.

Definition xor2 : list (list Z) -> list (list Z) -> list (list Z) := zip_with lxor_list.
(** The digest size in the last two bytes. *)
Definition iv (bits : Z) : list (list Z) :=
  replicate (n - 1) (replicate 8 0) ++ [replicate 6 0 ++ [bits / 256; bits mod 256]].
Definition absorb (h : list (list Z)) (blk : list Z) : list (list Z) :=
  let m := blocks 8 blk in xor2 h (xor2 (P (xor2 m h)) (Q m)).
(** Marker, zeros, and the number of blocks of the padded message. *)
Definition pad (msg : list Z) (mb : Z) : list Z :=
  md_pad bs (length msg mod bs) mb
    (sph_enc64be (Z.of_nat ((length msg + 8) / bs + 1) mod 2 ^ 64)).
(** The last [out] bytes of the output transformation. *)
Definition hash (bits : Z) (msg : list Z) (mb : Z) (out : nat) : list Z :=
  let h := fold_left absorb (blocks bs (msg ++ pad msg mb)) (iv bits) in
  drop (bs - out) (concat (xor2 h (P h))).
End Size.
End Spec.

(** ** Words and columns *)

Abbreviation cols := (fmap (le_bytes 8)).

Lemma cols_lxor a b : cols (lxor_list a b) = Spec.xor2 (cols a) (cols b).
Proof.
  revert b. induction a as [|x a IH]; intros [|y b]; try done.
  unfold Spec.xor2. cbn [zip_with fmap list_fmap]. rewrite le_bytes_lxor. f_equal. apply IH.
Qed.

Lemma message_cols n blk :
  length blk = (8 * n)%nat -> words 8 blk -> wf_arr 64 n (message n blk) /\ cols (message n blk) = blocks 8 blk.
Proof.
  intros Hl Hw. unfold message. rewrite (dec_blocks _ _ n _ dec64le_take).
  assert (blocks 8 blk = take_blocks 8 n blk) as E
    by (unfold blocks; rewrite Hl, Nat.mul_comm, Nat.div_mul by lia; done).
  pose proof (blocks_length 8 ltac:(lia) blk) as HL. pose proof (blocks_words 8 8 blk Hw) as HW.
  rewrite <- E. split; [split|].
  - rewrite length_fmap, length_blocks, Hl, Nat.mul_comm. apply Nat.div_mul. lia.
  - apply Forall_fmap. eapply Forall_impl; [exact HW|]. intros b Hb. by apply sph_dec64le_word.
  - rewrite <- list_fmap_compose. rewrite <- (list_fmap_id (blocks 8 blk)) at 2.
    apply list_fmap_ext. intros i b Hb. cbn [compose]. rewrite <- enc64le_bytes.
    apply sph_enc_dec64le.
    + exact (Forall_lookup_1 _ _ _ _ HL Hb).
    + exact (Forall_lookup_1 _ _ _ _ HW Hb).
Qed.

(** The digest bytes: the second half of the state, cut at the front. *)
Lemma output_cols k H out :
  (out <= 8 * k)%nat -> length H = (2 * k)%nat ->
  take out (drop (8 * k - out) (concat ((fun u => sph_enc64le H.[u + k]) <$> seq 0 k))) =
  drop (8 * (2 * k) - out) (concat (cols H)).
Proof.
  intros Hout HH.
  assert ((fun u => sph_enc64le H.[u + k]) <$> seq 0 k = cols (drop k H)) as ->.
  { rewrite (list_nth_seq 0 (drop k H)) at 1.
    replace (length (drop k H)) with k by (rewrite length_drop; lia).
    rewrite <- list_fmap_compose. apply list_fmap_ext. intros u0 u Hu%list_elem_of_lookup_2%elem_of_seq.
    cbn [compose]. rewrite enc64le_bytes. f_equal. rewrite !nth_lookup, lookup_drop. do 2 f_equal. lia. }
  assert (forall l, length (concat (cols l)) = (8 * length l)%nat) as Hlen.
  { intros l. induction l as [|x l IH]; [done|]. cbn [fmap list_fmap concat length].
    rewrite length_app, length_le_bytes, IH. lia. }
  rewrite <- (take_drop k H) at 2. rewrite fmap_app, concat_app.
  rewrite drop_app_ge by (rewrite Hlen, length_take; lia). rewrite Hlen, length_take, HH.
  rewrite take_ge by (rewrite length_drop, Hlen, length_drop; lia). f_equal. lia.
Qed.

(** ** Digests *)

Section Digest.
Context (n : nat) (P Q : list Z -> list Z) (PR QR : list (list Z) -> list (list Z)).
Context (HP : forall a, wf_arr 64 n a -> wf_arr 64 n (P a) /\ cols (P a) = PR (cols a)).
Context (HQ : forall a, wf_arr 64 n a -> wf_arr 64 n (Q a) /\ cols (Q a) = QR (cols a)).
Context (Hn : (2 <= n)%nat).
Let bs : nat := (8 * n)%nat.
Let blk := block (compress n P Q).

Lemma wf_lxor_list a b : wf_arr 64 n a -> wf_arr 64 n b -> wf_arr 64 n (lxor_list a b).
Proof.
  intros [La Wa] [Lb Wb]. split; [rewrite length_zip_with; lia|by apply words_lxor].
Qed.

Lemma final_cols H :
  wf_arr 64 n H -> wf_arr 64 n (final P H) /\ cols (final P H) = Spec.xor2 (cols H) (PR (cols H)).
Proof.
  intros HH. destruct (HP H HH) as [H1 H2]. unfold final.
  split; [by apply wf_lxor_list|]. by rewrite cols_lxor, H2.
Qed.

Lemma compress_cols H b :
  wf_arr 64 n H -> length b = bs -> words 8 b ->
  wf_arr 64 n (compress n P Q H b) /\ cols (compress n P Q H b) = Spec.absorb PR QR (cols H) b.
Proof.
  intros HH Hl Hw. destruct (message_cols n b Hl Hw) as [Wm Em]. unfold compress, Spec.absorb. cbv zeta.
  pose proof (wf_lxor_list _ _ Wm HH) as Wg.
  destruct (HP _ Wg) as [H1 H2]. destruct (HQ _ Wm) as [H3 H4].
  split; [auto using wf_lxor_list|]. by rewrite !cols_lxor, H2, H4, cols_lxor, Em.
Qed.

Lemma fold_cols msg H c :
  words 8 msg -> wf_arr 64 n H ->
  let s := fold_left blk (blocks bs msg) (mk_groestl H c) in
  wf_arr 64 n (wide s) /\ cols (wide s) = fold_left (Spec.absorb PR QR) (blocks bs msg) (cols H).
Proof.
  intros Hw HH. apply (fold_left_sim (fun s h => wf_arr 64 n (wide s) /\ cols (wide s) = h)); [done|].
  intros s h b Hb [Hs <-]. apply compress_cols; [done|..].
  - eapply Forall_forall in Hb; [|apply (blocks_length bs); lia]. exact Hb.
  - eapply Forall_forall in Hb; [|exact (blocks_words bs 8 msg Hw)]. exact Hb.
Qed.

Lemma fold_count msg H :
  count (fold_left blk (blocks bs msg) (mk_groestl H 0)) = Z.of_nat (length msg / bs) mod 2 ^ 64.
Proof.
  rewrite <- (length_blocks bs msg). generalize (blocks bs msg) as l. intros l.
  induction l as [|b l IH] using rev_ind; [done|].
  rewrite fold_left_app, length_app. cbn [fold_left length]. unfold blk at 1, block at 1.
  cbn [count]. rewrite IH, T64_mod, Zplus_mod_idemp_l. f_equal. lia.
Qed.

(** The number of blocks after padding. *)
Lemma pad_count len :
  Z.of_nat ((len + 8) / bs + 1) =
  Z.of_nat (len / bs) + (if (len mod bs <? bs - 8)%nat then 1 else 2).
Proof.
  pose proof (Nat.div_mod_eq len bs). pose proof (Nat.mod_upper_bound len bs ltac:(lia)).
  destruct (Nat.ltb_spec (len mod bs) (bs - 8)).
  - rewrite <- (Nat.div_unique (len + 8) bs (len / bs) (len mod bs + 8)); lia.
  - rewrite <- (Nat.div_unique (len + 8) bs (len / bs + 1) (len mod bs + 8 - bs)); lia.
Qed.

Lemma close_state H msg sc mb :
  repr bs blk (mk_groestl H 0) msg sc ->
  let '(pad_len, count) :=
    if (ptr sc <? bs - 8)%nat then ((bs - ptr sc)%nat, SPH_T64 (count (st sc) + 1))
    else ((2 * bs - ptr sc)%nat, SPH_T64 (count (st sc) + 2)) in
  st (core bs blk sc (mb :: replicate (pad_len - 9) 0 ++ sph_enc64be count)) =
  fold_left blk (blocks bs (msg ++ Spec.pad n msg mb)) (mk_groestl H 0).
Proof.
  intros Hr. pose proof (proj1 (proj2 Hr)) as Hp. pose proof (proj2 (proj2 (proj2 Hr))) as Hs.
  rewrite Hs, fold_count, Hp. pose proof (pad_count (length msg)) as Hc.
  assert (0 < bs)%nat as Hbs by lia.
  pose proof (core_repr bs blk Hbs _ _ _ (Spec.pad n msg mb) Hr) as (_ & _ & _ & <-).
  unfold Spec.pad, md_pad. fold bs. rewrite Hc. change (length (sph_enc64be _)) with 8%nat.
  rewrite !T64_mod, !Zplus_mod_idemp_l.
  destruct (Nat.ltb_spec (length msg mod bs) (bs - 8)); do 5 f_equal; lia.
Qed.

Lemma finish k H msg mb out bits :
  n = (2 * k)%nat -> (out <= 8 * k)%nat -> wf_arr 64 n H -> cols H = Spec.iv n bits ->
  words 8 (msg ++ Spec.pad n msg mb) ->
  let s := fold_left blk (blocks bs (msg ++ Spec.pad n msg mb)) (mk_groestl H 0) in
  take out (drop (8 * k - out) (concat ((fun u => sph_enc64le (final P (wide s)).[u + k]) <$> seq 0 k))) =
  Spec.hash n PR QR bits msg mb out.
Proof.
  intros Hk Hout HH Hiv Hw. cbv zeta. destruct (fold_cols _ H 0 Hw HH) as [Ws Es].
  destruct (final_cols _ Ws) as [Wf Ef]. rewrite output_cols by (done || by rewrite <- Hk; apply Wf).
  rewrite Ef, Es, Hiv. unfold Spec.hash. fold bs. by rewrite <- Hk.
Qed.
End Digest.

Lemma init_small bits : bits ∈ [224; 256] ->
  wf_arr 64 8 (replicate 7 0 ++ [init_word bits]) /\ cols (replicate 7 0 ++ [init_word bits]) = Spec.iv 8 bits.
Proof.
  rewrite !elem_of_cons, elem_of_nil.
  intros [->|[->|[]]]; (split; [split; [done|by apply words_check; vm_compute]|by vm_compute]).
Qed.
Lemma init_big bits : bits ∈ [384; 512] ->
  wf_arr 64 16 (replicate 15 0 ++ [init_word bits]) /\ cols (replicate 15 0 ++ [init_word bits]) = Spec.iv 16 bits.
Proof.
  rewrite !elem_of_cons, elem_of_nil.
  intros [->|[->|[]]]; (split; [split; [done|by apply words_check; vm_compute]|by vm_compute]).
Qed.

Lemma pad_bytes n msg ub k : words 8 (Spec.pad n msg (mark_byte ub k)).
Proof.
  unfold Spec.pad, md_pad. apply Forall_cons. split; [apply uchar_word|].
  apply Forall_app. split; [apply words_replicate; unfold word; lia|apply sph_enc64be_words].
Qed.

Lemma groestl_small_spec cc ds ub n out :
  length (buf cc) = 64%nat -> words 8 (concat ds) -> out ∈ [28; 32]%nat ->
  fst (groestl_small_close (fold_left groestl_small_core ds
        (groestl_small_init cc (8 * Z.of_nat out))) ub n out) =
  Spec.hash 8 Ref.P512 Ref.Q512 (8 * Z.of_nat out) (concat ds) (mark_byte ub n) out.
Proof.
  intros Hb Hw Hout.
  assert (8 * Z.of_nat out ∈ [224; 256] /\ (out <= 32)%nat) as [Hbits Hle].
  { rewrite !elem_of_cons, elem_of_nil in Hout. rewrite !elem_of_cons.
    destruct Hout as [->|[->|[]]]; (split; [auto|lia]). }
  destruct (init_small _ Hbits) as [Wiv Eiv].
  assert (repr 64 (block COMPRESS_SMALL) (mk_groestl (replicate 7 0 ++ [init_word (8 * Z.of_nat out)]) 0)
    (concat ds) (fold_left groestl_small_core ds (groestl_small_init cc (8 * Z.of_nat out)))) as Hr
    by (apply (init_core_repr 64 (block COMPRESS_SMALL) ltac:(lia) _ (buf cc)); lia).
  revert Hr Wiv Eiv. generalize (replicate 7 0 ++ [init_word (8 * Z.of_nat out)]) as iv.
  generalize (fold_left groestl_small_core ds (groestl_small_init cc (8 * Z.of_nat out))) as sc.
  intros sc iv Hr Wiv Eiv.
  pose proof (close_state 8 PERM_SMALL_P PERM_SMALL_Q ltac:(lia) iv (concat ds) sc (mark_byte ub n) Hr) as Hs.
  pose proof (finish 8 PERM_SMALL_P PERM_SMALL_Q Ref.P512 Ref.Q512 PERM_SMALL_P_ref PERM_SMALL_Q_ref
    ltac:(lia) 4 iv (concat ds) (mark_byte ub n) out (8 * Z.of_nat out) eq_refl Hle Wiv Eiv) as Hf.
  rewrite <- Hf by (apply Forall_app; split; [done|apply pad_bytes]). clear Hf.
  unfold groestl_small_close. cbv zeta.
  change (((ub .& SPH_T32 (- (0x80 >> n))) .| (0x80 >> n)) .& 0xFF) with (mark_byte ub n).
  change (8 * 8 - 8)%nat with 56%nat in Hs.
  destruct (ptr sc <? 56)%nat; cbn [fst]; rewrite <- Hs; reflexivity.
Qed.

Lemma groestl_big_spec cc ds ub n out :
  length (buf cc) = 128%nat -> words 8 (concat ds) -> out ∈ [48; 64]%nat ->
  fst (groestl_big_close (fold_left groestl_big_core ds
        (groestl_big_init cc (8 * Z.of_nat out))) ub n out) =
  Spec.hash 16 Ref.P1024 Ref.Q1024 (8 * Z.of_nat out) (concat ds) (mark_byte ub n) out.
Proof.
  intros Hb Hw Hout.
  assert (8 * Z.of_nat out ∈ [384; 512] /\ (out <= 64)%nat) as [Hbits Hle].
  { rewrite !elem_of_cons, elem_of_nil in Hout. rewrite !elem_of_cons.
    destruct Hout as [->|[->|[]]]; (split; [auto|lia]). }
  destruct (init_big _ Hbits) as [Wiv Eiv].
  assert (repr 128 (block COMPRESS_BIG) (mk_groestl (replicate 15 0 ++ [init_word (8 * Z.of_nat out)]) 0)
    (concat ds) (fold_left groestl_big_core ds (groestl_big_init cc (8 * Z.of_nat out)))) as Hr
    by (apply (init_core_repr 128 (block COMPRESS_BIG) ltac:(lia) _ (buf cc)); lia).
  revert Hr Wiv Eiv. generalize (replicate 15 0 ++ [init_word (8 * Z.of_nat out)]) as iv.
  generalize (fold_left groestl_big_core ds (groestl_big_init cc (8 * Z.of_nat out))) as sc.
  intros sc iv Hr Wiv Eiv.
  pose proof (close_state 16 PERM_BIG_P PERM_BIG_Q ltac:(lia) iv (concat ds) sc (mark_byte ub n) Hr) as Hs.
  pose proof (finish 16 PERM_BIG_P PERM_BIG_Q Ref.P1024 Ref.Q1024 PERM_BIG_P_ref PERM_BIG_Q_ref
    ltac:(lia) 8 iv (concat ds) (mark_byte ub n) out (8 * Z.of_nat out) eq_refl Hle Wiv Eiv) as Hf.
  rewrite <- Hf by (apply Forall_app; split; [done|apply pad_bytes]). clear Hf.
  unfold groestl_big_close. cbv zeta.
  change (((ub .& SPH_T32 (- (0x80 >> n))) .| (0x80 >> n)) .& 0xFF) with (mark_byte ub n).
  change (8 * 16 - 8)%nat with 120%nat in Hs.
  destruct (ptr sc <? 120)%nat; cbn [fst]; rewrite <- Hs; reflexivity.
Qed.

(** ** Main results *)

(** The table-driven permutations on 64-bit words are the AES-like
    permutations P and Q of the specification on columns of bytes (round
    constants, S-box, row shifts, MixBytes), for both state sizes; the
    look-ups of the small footprint, two tables and rotations, give the same
    words. *)
Theorem groestl_permutations :
  (forall a, wf_arr 64 8 a ->
    sph_enc64le <$> PERM_SMALL_P a = Ref.P512 (sph_enc64le <$> a) /\
    sph_enc64le <$> PERM_SMALL_Q a = Ref.Q512 (sph_enc64le <$> a)) /\
  (forall a, wf_arr 64 16 a ->
    sph_enc64le <$> PERM_BIG_P a = Ref.P1024 (sph_enc64le <$> a) /\
    sph_enc64le <$> PERM_BIG_Q a = Ref.Q1024 (sph_enc64le <$> a)) /\
  (forall a b, words 64 a -> RTT_small a b = RTT a b).
Proof.
  assert (forall l, sph_enc64le <$> l = cols l) as E
    by (intros; apply list_fmap_ext; intros; apply enc64le_bytes).
  split_and!; [intros a Ha; rewrite !E; split..|apply RTT_small_eq].
  - by apply PERM_SMALL_P_ref.
  - by apply PERM_SMALL_Q_ref.
  - by apply PERM_BIG_P_ref.
  - by apply PERM_BIG_Q_ref.
Qed.

Lemma groestl_permutations_witness :
  sph_enc64le <$> PERM_BIG_Q (replicate 16 1) = Ref.Q1024 (sph_enc64le <$> replicate 16 1) /\
  RTT_small (replicate 8 3) [0; 1; 2; 3; 4; 5; 6; 7]%nat = RTT (replicate 8 3) [0; 1; 2; 3; 4; 5; 6; 7]%nat.
Proof.
  destruct groestl_permutations as (_ & HB & HR). split.
  - apply HB. split; [reflexivity|]. apply words_replicate. unfold word. lia.
  - apply HR. apply words_replicate. unfold word. lia.
Defined.

(** The digest of a message fed to Groestl in any chunks and closed with [n]
    further bits, for the four digest sizes: the padded message, which ends in
    its own block count, is absorbed column by column with P and Q, and the
    digest is the end of the output transformation. *)
Theorem groestl_digest cc ds ub n out :
  words 8 (concat ds) ->
  (length (buf cc) = 64%nat -> out ∈ [28; 32]%nat ->
   fst (groestl_small_close (fold_left groestl_small_core ds
          (groestl_small_init cc (8 * Z.of_nat out))) ub n out) =
   Spec.hash 8 Ref.P512 Ref.Q512 (8 * Z.of_nat out) (concat ds) (mark_byte ub n) out) /\
  (length (buf cc) = 128%nat -> out ∈ [48; 64]%nat ->
   fst (groestl_big_close (fold_left groestl_big_core ds
          (groestl_big_init cc (8 * Z.of_nat out))) ub n out) =
   Spec.hash 16 Ref.P1024 Ref.Q1024 (8 * Z.of_nat out) (concat ds) (mark_byte ub n) out).
Proof. intros Hw. split; intros; [by apply groestl_small_spec|by apply groestl_big_spec]. Qed.

Lemma groestl_digest_witness :
  fst (groestl_big_close (fold_left groestl_big_core [[]]
    (groestl_big_init (mk_ctx (replicate 128 9) 0 (mk_groestl [] 0)) (8 * Z.of_nat 64))) 0 0 64) =
  be_bytes 64 0x6D3AD29D279110EEF3ADBD66DE2A0345A77BAEDE1557F5D099FCE0C03D6DC2BA8E6D4A6633DFBD66053C20FAA87D1A11F39A7FBE4A6C2F009801370308FC4AD8.
Proof.
  destruct (groestl_digest (mk_ctx (replicate 128 9) 0 (mk_groestl [] 0)) [[]] 0 0 64 (Forall_nil_2 _)) as [_ H].
  rewrite H; [|reflexivity|rewrite !elem_of_cons; auto].
  apply list_eqb_eq. vm_compute. reflexivity.
Defined.
