(* ===== verification/Skein.v ===== *)
(** * skein.c: Skein-224, Skein-256, Skein-384 and Skein-512 over Threefish-512

    The key-schedule index tables, [TFBIG_KINIT], [TFBIG_ADDKEY], [TFBIG_MIX8],
    the unrolled and the small-footprint [UBI_BIG], the core that keeps a full
    block in the buffer, and the closing function.  The code under [#if 0] is
    not compiled and not modelled. *)

From Stdlib Require Import ZArith Lia Btauto.
From stdpp Require Import base tactics numbers list.
From S2P Require Import Prelude SphTypes Stream.

(** ** Tables *)

(** [M9_s_i] and [M3_s_v]: rows [s], columns [i] and [v]. *)
Definition M9 : list (list nat) :=
  [[0; 1; 2; 3; 4; 5; 6; 7];
   [1; 2; 3; 4; 5; 6; 7; 8];
   [2; 3; 4; 5; 6; 7; 8; 0];
   [3; 4; 5; 6; 7; 8; 0; 1];
   [4; 5; 6; 7; 8; 0; 1; 2];
   [5; 6; 7; 8; 0; 1; 2; 3];
   [6; 7; 8; 0; 1; 2; 3; 4];
   [7; 8; 0; 1; 2; 3; 4; 5];
   [8; 0; 1; 2; 3; 4; 5; 6];
   [0; 1; 2; 3; 4; 5; 6; 7];
   [1; 2; 3; 4; 5; 6; 7; 8];
   [2; 3; 4; 5; 6; 7; 8; 0];
   [3; 4; 5; 6; 7; 8; 0; 1];
   [4; 5; 6; 7; 8; 0; 1; 2];
   [5; 6; 7; 8; 0; 1; 2; 3];
   [6; 7; 8; 0; 1; 2; 3; 4];
   [7; 8; 0; 1; 2; 3; 4; 5];
   [8; 0; 1; 2; 3; 4; 5; 6];
   [0; 1; 2; 3; 4; 5; 6; 7]]%nat.
Definition M3 : list (list nat) :=
  [[0; 1]; [1; 2]; [2; 0]; [0; 1]; [1; 2]; [2; 0]; [0; 1]; [1; 2]; [2; 0]; [0; 1]; [1; 2]; [2; 0]; [0; 1]; [1; 2]; [2; 0]; [0; 1]; [1; 2]; [2; 0]; [0; 1]]%nat.

Definition IV224 : list Z :=
  [
    0xCCD0616248677224; 0xCBA65CF3A92339EF; 0x8CCD69D652FF4B64; 0x398AED7B3AB890B4;
    0x0F59D1B1457D2BD0; 0x6776FE6575D4EB3D; 0x99FBC70E997413E9; 0x9E2CFCCFE1C41EF7].
Definition IV256 : list Z :=
  [
    0xCCD044A12FDB3E13; 0xE83590301A79A9EB; 0x55AEA0614F816E6F; 0x2A2767A4AE9B94DB;
    0xEC06025E74DD7683; 0xE7A436CDC4746251; 0xC36FBAF9393AD185; 0x3EEDBA1833EDFC13].
Definition IV384 : list Z :=
  [
    0xA3F6C6BF3A75EF5F; 0xB0FEF9CCFD84FAA4; 0x9D77DD663D770CFE; 0xD798CBF3B468FDDA;
    0x1BC4A6668A0E4465; 0x7ED7D434E5807407; 0x548FC1ACD4EC44D6; 0x266E17546AA18FF8].
Definition IV512 : list Z :=
  [
    0x4903ADFF749C51CE; 0x0D95DE399746DF03; 0x8FD1934127C79BCE; 0x9A255629FF352CB1;
    0x5DB62599DF6CA7B0; 0xEABE394CA9D5C3F4; 0x991112C71A75B523; 0xAE18A40B660FCC33].

(** ** Threefish-512, unrolled *)

(** [SKBI(k, s, i)] and [SKBT(t, s, v)]. *)
Definition SKBI (k : list Z) (s i : nat) : Z := k.[nth i (nth s M9 []) 0%nat].
Definition SKBT (t : list Z) (s v : nat) : Z := t.[nth v (nth s M3 []) 0%nat].

(** The ninth key word and the third tweak word. *)
Definition TFBIG_KINIT (k t : list Z) : list Z * list Z :=
  let k8 := ((k.[0] ⊕ k.[1]) ⊕ (k.[2] ⊕ k.[3])) ⊕ ((k.[4] ⊕ k.[5]) ⊕ (k.[6] ⊕ k.[7]))
            ⊕ 0x1BD11BDAA9FC1A22 in
  let t2 := t.[0] ⊕ t.[1] in
  (take 8 k ++ [k8], take 2 t ++ [t2]).

Definition TFBIG_ADDKEY (k t : list Z) (s : nat) (w : list Z) : list Z :=
  [SPH_T64 (w.[0] + SKBI k s 0);
   SPH_T64 (w.[1] + SKBI k s 1);
   SPH_T64 (w.[2] + SKBI k s 2);
   SPH_T64 (w.[3] + SKBI k s 3);
   SPH_T64 (w.[4] + SKBI k s 4);
   SPH_T64 (w.[5] + SKBI k s 5 + SKBT t s 0);
   SPH_T64 (w.[6] + SKBI k s 6 + SKBT t s 1);
   SPH_T64 (w.[7] + SKBI k s 7 + Z.of_nat s)].

(** [TFBIG_MIX(x0, x1, rc)] on the variables of index [x0] and [x1]. *)
Definition TFBIG_MIX (x0 x1 : nat) (rc : Z) (p : list Z) : list Z :=
  let p := <[x0 := SPH_T64 (p.[x0] + p.[x1])]> p in
  <[x1 := SPH_ROTL64 p.[x1] rc ⊕ p.[x0]]> p.
Definition TFBIG_MIX8 (w : list nat) (rc p : list Z) : list Z :=
  let v i := nth i w 0%nat in
  let p := TFBIG_MIX (v 0%nat) (v 1%nat) rc.[0] p in
  let p := TFBIG_MIX (v 2%nat) (v 3%nat) rc.[1] p in
  let p := TFBIG_MIX (v 4%nat) (v 5%nat) rc.[2] p in
  TFBIG_MIX (v 6%nat) (v 7%nat) rc.[3] p.

(** The four rounds of [TFBIG_4e] and of [TFBIG_4o] after the key. *)
Definition mixes_e (p : list Z) : list Z :=
  let p := TFBIG_MIX8 [0; 1; 2; 3; 4; 5; 6; 7]%nat [46; 36; 19; 37] p in
  let p := TFBIG_MIX8 [2; 1; 4; 7; 6; 5; 0; 3]%nat [33; 27; 14; 42] p in
  let p := TFBIG_MIX8 [4; 1; 6; 3; 0; 5; 2; 7]%nat [17; 49; 36; 39] p in
  TFBIG_MIX8 [6; 1; 0; 7; 2; 5; 4; 3]%nat [44; 9; 54; 56] p.
Definition mixes_o (p : list Z) : list Z :=
  let p := TFBIG_MIX8 [0; 1; 2; 3; 4; 5; 6; 7]%nat [39; 30; 34; 24] p in
  let p := TFBIG_MIX8 [2; 1; 4; 7; 6; 5; 0; 3]%nat [13; 50; 10; 17] p in
  let p := TFBIG_MIX8 [4; 1; 6; 3; 0; 5; 2; 7]%nat [25; 29; 39; 43] p in
  TFBIG_MIX8 [6; 1; 0; 7; 2; 5; 4; 3]%nat [8; 35; 56; 22] p.
Definition TFBIG_4e (k t : list Z) (s : nat) (p : list Z) : list Z :=
  mixes_e (TFBIG_ADDKEY k t s p).
Definition TFBIG_4o (k t : list Z) (s : nat) (p : list Z) : list Z :=
  mixes_o (TFBIG_ADDKEY k t s p).

(** ** One block *)

(** The message words, and the two tweak words: position, flags and type. *)
Definition ubi_words (buf : list Z) : list Z :=
  (fun i => sph_dec64le (drop (8 * i) buf)) <$> seq 0 8.
Definition ubi_tweak (bcount etype extra : Z) : list Z :=
  [SPH_T64 (SPH_T64 (bcount << 6) + extra); SPH_T64 ((bcount >> 58) + SPH_T64 (etype << 55))].

(** [UBI_BIG(etype, extra)]: the calls [TFBIG_4e(0)], [TFBIG_4o(1)], ...,
    [TFBIG_4o(17)], the last key, the feed-forward. *)
Definition UBI_BIG (h : list Z) (bcount etype extra : Z) (buf : list Z) : list Z :=
  let m := ubi_words buf in
  let '(k, t) := TFBIG_KINIT h (ubi_tweak bcount etype extra) in
  let p := fold_left (fun p u => TFBIG_4o k t (2 * u + 1) (TFBIG_4e k t (2 * u) p))%nat
             (seq 0 9) m in
  let p := TFBIG_ADDKEY k t 18 p in
  zip_with (fun m p => m ⊕ p) m p.

(** [SPH_SMALL_FOOTPRINT_SKEIN]: the key array extended to 27 words, the tweak
    words rotated after every second key. *)
Definition TFBIG_ADDKEY_small (h : list Z) (s : nat) (tt0 tt1 : Z) (p : list Z) : list Z :=
  [SPH_T64 (p.[0] + h.[s + 0]);
   SPH_T64 (p.[1] + h.[s + 1]);
   SPH_T64 (p.[2] + h.[s + 2]);
   SPH_T64 (p.[3] + h.[s + 3]);
   SPH_T64 (p.[4] + h.[s + 4]);
   SPH_T64 (p.[5] + h.[s + 5] + tt0);
   SPH_T64 (p.[6] + h.[s + 6] + tt1);
   SPH_T64 (p.[7] + h.[s + 7] + Z.of_nat s)].
Definition UBI_BIG_small (h : list Z) (bcount etype extra : Z) (buf : list Z) : list Z :=
  let m := ubi_words buf in
  let '(k, t) := TFBIG_KINIT h (ubi_tweak bcount etype extra) in
  let h := k ++ replicate 18 0 in
  let h := fold_left (fun h u =>
      let h := <[(u + 9)%nat := h.[u + 0]]> h in
      let h := <[(u + 10)%nat := h.[u + 1]]> h in
      <[(u + 11)%nat := h.[u + 2]]> h) [0; 3; 6; 9; 12; 15]%nat h in
  let '(p, (t0, t1, t2)) := fold_left (fun '(p, (t0, t1, t2)) u =>
      let s := (2 * u)%nat in
      let p := mixes_e (TFBIG_ADDKEY_small h s t0 t1 p) in
      let p := mixes_o (TFBIG_ADDKEY_small h (s + 1) t1 t2 p) in
      (p, (t2, t0, t1))) (seq 0 9) (m, (t.[0], t.[1], t.[2])) in
  let p := TFBIG_ADDKEY_small h 18 t0 t1 p in
  zip_with (fun m p => m ⊕ p) m p.

(** ** The context and its operations *)

Record skein_state : Type := mk_skein { sk_h : list Z; sk_bcount : Z }.
Definition sph_skein_big_context : Type := stream_ctx skein_state.

Definition skein_big_init (sc : sph_skein_big_context) (iv : list Z) : sph_skein_big_context :=
  mk_ctx (buf sc) 0 (mk_skein iv 0).

(** [bcount ++; UBI_BIG(96 + first, 0)]. *)
Definition skein_flush (first : Z) (s : skein_state) (buf : list Z) : skein_state :=
  let bcount := SPH_T64 (sk_bcount s + 1) in
  mk_skein (UBI_BIG (sk_h s) bcount (96 + first) 0 buf) bcount.
Definition first_flag (s : skein_state) : Z := (if sk_bcount s =? 0 then 1 else 0) << 7.

(** The [do ... while] loop.  Every iteration consumes a byte. *)
Fixpoint skein_loop (fuel : nat) (first : Z) (sc : sph_skein_big_context) (data : list Z) :
    sph_skein_big_context :=
  match fuel with
  | O => sc
  | S fuel =>
      let '(first, s, p) :=
        if (ptr sc =? 64)%nat then (0, skein_flush first (st sc) (buf sc), 0%nat)
        else (first, st sc, ptr sc) in
      let clen := Nat.min (64 - p) (length data) in
      let sc := mk_ctx (memcpy (buf sc) p (take clen data)) (p + clen)%nat s in
      let data := drop clen data in
      if (0 <? length data)%nat then skein_loop fuel first sc data else sc
  end.
Definition skein_big_core (sc : sph_skein_big_context) (data : list Z) : sph_skein_big_context :=
  if (length data <=? 64 - ptr sc)%nat
  then mk_ctx (memcpy (buf sc) (ptr sc) data) (ptr sc + length data)%nat (st sc)
  else skein_loop (length data) (first_flag (st sc)) sc data.

Definition skein_big_close (sc : sph_skein_big_context) (ub n : Z) (out_len : nat) :
    list Z * sph_skein_big_context :=
  let sc :=
    if n =? 0 then sc
    else let z := 0x80 >> n in
         skein_big_core sc [((ub .& SPH_T32 (- z)) .| z) .& 0xFF] in
  let buf' := memset (buf sc) (ptr sc) 0 (64 - ptr sc) in
  let et := 352 + first_flag (st sc) + (if n =? 0 then 0 else 1) in
  let h := UBI_BIG (sk_h (st sc)) (sk_bcount (st sc)) et (Z.of_nat (ptr sc)) buf' in
  let buf' := memset buf' 0 0 64 in
  let h := UBI_BIG h 0 510 8 buf' in
  let buf' := memcpy buf' 0 (concat (sph_enc64le <$> h)) in
  (take out_len buf', mk_ctx buf' (ptr sc) (st sc)).

Definition sph_skein224_init (cc : sph_skein_big_context) := skein_big_init cc IV224.
Definition sph_skein224 (cc : sph_skein_big_context) (data : list Z) := skein_big_core cc data.
Definition sph_skein224_addbits_and_close (cc : sph_skein_big_context) (ub n : Z) :=
  let '(dst, cc) := skein_big_close cc ub n 28 in (dst, sph_skein224_init cc).
Definition sph_skein224_close (cc : sph_skein_big_context) := sph_skein224_addbits_and_close cc 0 0.

Definition sph_skein256_init (cc : sph_skein_big_context) := skein_big_init cc IV256.
Definition sph_skein256 (cc : sph_skein_big_context) (data : list Z) := skein_big_core cc data.
Definition sph_skein256_addbits_and_close (cc : sph_skein_big_context) (ub n : Z) :=
  let '(dst, cc) := skein_big_close cc ub n 32 in (dst, sph_skein256_init cc).
Definition sph_skein256_close (cc : sph_skein_big_context) := sph_skein256_addbits_and_close cc 0 0.

Definition sph_skein384_init (cc : sph_skein_big_context) := skein_big_init cc IV384.
Definition sph_skein384 (cc : sph_skein_big_context) (data : list Z) := skein_big_core cc data.
Definition sph_skein384_addbits_and_close (cc : sph_skein_big_context) (ub n : Z) :=
  let '(dst, cc) := skein_big_close cc ub n 48 in (dst, sph_skein384_init cc).
Definition sph_skein384_close (cc : sph_skein_big_context) := sph_skein384_addbits_and_close cc 0 0.

Definition sph_skein512_init (cc : sph_skein_big_context) := skein_big_init cc IV512.
Definition sph_skein512 (cc : sph_skein_big_context) (data : list Z) := skein_big_core cc data.
Definition sph_skein512_addbits_and_close (cc : sph_skein_big_context) (ub n : Z) :=
  let '(dst, cc) := skein_big_close cc ub n 64 in (dst, sph_skein512_init cc).
Definition sph_skein512_close (cc : sph_skein_big_context) := sph_skein512_addbits_and_close cc 0 0.

(** ** Reference: Threefish-512 and the UBI chaining mode *)

Module Ref.
(** The rotation constants of round [d], modulo 8, and the word permutation. *)
Definition R : list (list Z) :=
  [[46; 36; 19; 37]; [33; 27; 14; 42]; [17; 49; 36; 39]; [44; 9; 54; 56];
   [39; 30; 34; 24]; [13; 50; 10; 17]; [25; 29; 39; 43]; [8; 35; 56; 22]].
Definition pi : list nat := [2; 1; 4; 7; 6; 5; 0; 3]%nat.

Definition mix (r x y : Z) : list Z :=
  let s := SPH_T64 (x + y) in [s; SPH_ROTL64 y r ⊕ s].
Definition round (d : nat) (p : list Z) : list Z :=
  let r := nth (d mod 8) R [] in
  sel pi (mix r.[0] p.[0] p.[1] ++ mix r.[1] p.[2] p.[3] ++
          mix r.[2] p.[4] p.[5] ++ mix r.[3] p.[6] p.[7]).

(** Subkey [s]: word [i] is key word [s + i] modulo 9; the tweak words
    [s], [s + 1] modulo 3 and the number [s] are added to the last three. *)
Definition subkey (k t : list Z) (s i : nat) : Z :=
  k.[(s + i) mod 9] +
  (if (i =? 5)%nat then t.[s mod 3]
   else if (i =? 6)%nat then t.[(s + 1) mod 3]
   else if (i =? 7)%nat then Z.of_nat s else 0).
Definition addkey (k t : list Z) (s : nat) (p : list Z) : list Z :=
  (fun i => SPH_T64 (p.[i] + subkey k t s i)) <$> seq 0 8.

(** The ninth key word and the third tweak word. *)
Definition extend_key (k : list Z) : list Z :=
  take 8 k ++ [fold_left Z.lxor (take 8 k) 0x1BD11BDAA9FC1A22].
Definition extend_tweak (t : list Z) : list Z := take 2 t ++ [t.[0] ⊕ t.[1]].

(** 72 rounds, a subkey before every fourth and after the last. *)
Definition threefish (key tweak p : list Z) : list Z :=
  let k := extend_key key in
  let t := extend_tweak tweak in
  addkey k t 18
    (fold_left (fun p s => fold_left (fun p d => round d p) (seq (4 * s) 4) (addkey k t s p))
       (seq 0 18) p).

(** The tweak of a block: the position after it, the type and the flags. *)
Definition tweak (pos typ : Z) (first final bitpad : bool) : list Z :=
  [pos mod 2 ^ 64;
   pos / 2 ^ 64 + Z.b2z bitpad * 2 ^ 55 + typ * 2 ^ 56 + Z.b2z first * 2 ^ 62 + Z.b2z final * 2 ^ 63].

Definition ubi_block (g blk tw : list Z) : list Z :=
  let m := sph_dec64le <$> blocks 8 blk in
  lxor_list m (threefish g tw m).
End Ref.

(** ** The unrolled cipher is Threefish-512 *)

Ltac destruct8 V H :=
  do 8 (destruct V as [|? V]; [discriminate H|]); destruct V; [clear H|discriminate H].

Lemma mixes_e_ref p :
  length p = 8%nat -> mixes_e p = fold_left (fun p d => Ref.round d p) (seq 0 4) p.
Proof. intros H. destruct8 p H. lazy -[SPH_T64 SPH_ROTL64 Z.add Z.lxor]. reflexivity. Qed.

Lemma mixes_o_ref p :
  length p = 8%nat -> mixes_o p = fold_left (fun p d => Ref.round d p) (seq 4 4) p.
Proof. intros H. destruct8 p H. lazy -[SPH_T64 SPH_ROTL64 Z.add Z.lxor]. reflexivity. Qed.

Lemma round_mod d p : Ref.round (d mod 8) p = Ref.round d p.
Proof.
  assert ((d mod 8) mod 8 = d mod 8)%nat as H by (apply Nat.Div0.mod_mod).
  unfold Ref.round. by rewrite H.
Qed.

Lemma fold_round_shift o o' n p :
  (o mod 8 = o' mod 8)%nat ->
  fold_left (fun p d => Ref.round d p) (seq o n) p = fold_left (fun p d => Ref.round d p) (seq o' n) p.
Proof.
  revert o o' p. induction n as [|n IH]; intros o o' p H; [done|]. cbn [seq].
  rewrite !fold_left_cons, <- (round_mod o), H, round_mod. apply IH.
  rewrite <- (Nat.add_1_r o), <- (Nat.add_1_r o'), (Nat.Div0.add_mod o), (Nat.Div0.add_mod o').
  by rewrite H.
Qed.

Lemma M_tables :
  forallb (fun s => bool_decide (nth s M9 [] = (fun i => (s + i) mod 9)%nat <$> seq 0 8) &&
                    bool_decide (nth s M3 [] = (fun i => (s + i) mod 3)%nat <$> seq 0 2))
    (seq 0 19) = true.
Proof. vm_compute. reflexivity. Qed.

Lemma ADDKEY_ref k t s p :
  (s <= 18)%nat -> TFBIG_ADDKEY k t s p = Ref.addkey k t s p.
Proof.
  intros Hs. pose proof M_tables as H. rewrite forallb_forall in H.
  specialize (H s ltac:(apply in_seq; lia)). rewrite andb_true_iff, !bool_decide_eq_true in H.
  destruct H as [H9 H3]. unfold TFBIG_ADDKEY, SKBI, SKBT, Ref.addkey, Ref.subkey.
  rewrite H9, H3. cbn [seq fmap list_fmap nth Nat.eqb]. rewrite Nat.add_0_r, !Z.add_0_r.
  by rewrite !Z.add_assoc.
Qed.

Lemma KINIT_ref k t :
  length k = 8%nat -> TFBIG_KINIT k t = (Ref.extend_key k, Ref.extend_tweak t).
Proof.
  intros H. destruct8 k H. unfold TFBIG_KINIT, Ref.extend_key, Ref.extend_tweak.
  cbn [nth take fold_left]. do 2 f_equal. f_equal.
  bits_intro i Hi. rewrite !Z.lxor_spec. btauto.
Qed.

Lemma length_round_ref d p : length (Ref.round d p) = 8%nat.
Proof. reflexivity. Qed.
Lemma length_addkey k t s p : length (Ref.addkey k t s p) = 8%nat.
Proof. reflexivity. Qed.

Definition four_rounds (k t p : list Z) (s : nat) : list Z :=
  fold_left (fun p d => Ref.round d p) (seq (4 * s) 4) (Ref.addkey k t s p).

(** Eight rounds of the code: an even and an odd call. *)
Lemma two_calls k t u p :
  (u < 9)%nat ->
  TFBIG_4o k t (2 * u + 1) (TFBIG_4e k t (2 * u) p) =
  four_rounds k t (four_rounds k t p (2 * u)) (2 * u + 1).
Proof.
  intros Hu. unfold TFBIG_4o, TFBIG_4e, four_rounds. rewrite !ADDKEY_ref by lia.
  rewrite mixes_e_ref, mixes_o_ref by apply length_addkey.
  rewrite (fold_round_shift 0 (4 * (2 * u))), (fold_round_shift 4 (4 * (2 * u + 1))).
  - reflexivity.
  - replace (4 * (2 * u + 1))%nat with (4 + u * 8)%nat by lia. by rewrite Nat.Div0.mod_add.
  - replace (4 * (2 * u))%nat with (0 + u * 8)%nat by lia. by rewrite Nat.Div0.mod_add.
Qed.

Lemma fold_two {A} (f : A -> nat -> A) n a :
  fold_left (fun a u => f (f a (2 * u)) (2 * u + 1))%nat (seq 0 n) a =
  fold_left f (seq 0 (2 * n)) a.
Proof.
  induction n as [|n IH]; [done|]. replace (2 * S n)%nat with (2 * n + 1 + 1)%nat by lia.
  rewrite <- (Nat.add_1_r n), !seq_app, !fold_left_app, IH. reflexivity.
Qed.

Lemma UBI_threefish h bcount etype extra buf :
  length h = 8%nat ->
  UBI_BIG h bcount etype extra buf =
  lxor_list (ubi_words buf) (Ref.threefish h (ubi_tweak bcount etype extra) (ubi_words buf)).
Proof.
  intros Hh. unfold UBI_BIG. cbv zeta. rewrite KINIT_ref by done.
  rewrite ADDKEY_ref by lia. do 2 f_equal. unfold Ref.threefish. cbv zeta. f_equal.
  set (k := Ref.extend_key h). set (t := Ref.extend_tweak _).
  pose proof (fold_two (four_rounds k t) 9 (ubi_words buf)) as H. etrans; [|exact H].
  apply fold_left_ext. intros p u Hu%list_elem_of_In%in_seq. apply two_calls. lia.
Qed.

(** ** The small-footprint variant *)

Lemma small_key k :
  length k = 9%nat ->
  fold_left (fun h u =>
      let h := <[(u + 9)%nat := h.[u + 0]]> h in
      let h := <[(u + 10)%nat := h.[u + 1]]> h in
      <[(u + 11)%nat := h.[u + 2]]> h) [0; 3; 6; 9; 12; 15]%nat (k ++ replicate 18 0) =
  k ++ k ++ k.
Proof.
  intros H. do 9 (destruct k as [|? k]; [discriminate H|]). destruct k; [|discriminate H].
  reflexivity.
Qed.

Lemma nth_thrice (k : list Z) i :
  length k = 9%nat -> (i < 27)%nat -> (k ++ k ++ k).[i] = k.[i mod 9].
Proof.
  intros H Hi. do 9 (destruct k as [|? k]; [discriminate H|]). destruct k; [|discriminate H].
  do 27 (destruct i as [|i]; [reflexivity|]). lia.
Qed.

Lemma ADDKEY_small_ref k t s p :
  length k = 9%nat -> (s <= 18)%nat ->
  TFBIG_ADDKEY_small (k ++ k ++ k) s t.[s mod 3] t.[(s + 1) mod 3] p = Ref.addkey k t s p.
Proof.
  intros Hk Hs. unfold TFBIG_ADDKEY_small, Ref.addkey, Ref.subkey.
  rewrite !nth_thrice by lia. cbn [seq fmap list_fmap Nat.eqb].
  by rewrite !Z.add_0_r, !Z.add_assoc.
Qed.

Lemma mod3_plus3 n : ((n + 3) mod 3 = n mod 3)%nat.
Proof. replace (n + 3)%nat with (n + 1 * 3)%nat by lia. apply Nat.Div0.mod_add. Qed.

Lemma small_loop k t n p :
  length k = 9%nat -> (n <= 9)%nat ->
  fold_left (fun '(p, (t0, t1, t2)) u =>
      let s := (2 * u)%nat in
      let p := mixes_e (TFBIG_ADDKEY_small (k ++ k ++ k) s t0 t1 p) in
      let p := mixes_o (TFBIG_ADDKEY_small (k ++ k ++ k) (s + 1) t1 t2 p) in
      (p, (t2, t0, t1))) (seq 0 n) (p, (t.[0], t.[1], t.[2])) =
  (fold_left (fun p u => TFBIG_4o k t (2 * u + 1) (TFBIG_4e k t (2 * u) p))%nat (seq 0 n) p,
   (t.[(2 * n) mod 3], t.[(2 * n + 1) mod 3], t.[(2 * n + 2) mod 3])).
Proof.
  intros Hk Hn. induction n as [|n IH]; [done|].
  rewrite seq_S, !fold_left_app, IH by lia. cbn [fold_left Nat.add].
  generalize (fold_left (fun p u => TFBIG_4o k t (2 * u + 1) (TFBIG_4e k t (2 * u) p))%nat (seq 0 n) p).
  intros q. unfold TFBIG_4o, TFBIG_4e. rewrite !ADDKEY_ref by lia.
  rewrite (ADDKEY_small_ref k t (2 * n)) by lia.
  replace (2 * n + 2)%nat with (2 * n + 1 + 1)%nat by lia.
  rewrite (ADDKEY_small_ref k t (2 * n + 1)) by lia.
  replace (2 * S n)%nat with (2 * n + 1 + 1)%nat by lia.
  replace (2 * n + 1 + 1 + 1)%nat with (2 * n + 3)%nat by lia.
  replace (2 * n + 1 + 1 + 2)%nat with (2 * n + 1 + 3)%nat by lia.
  by rewrite !mod3_plus3.
Qed.

Lemma UBI_small_eq h bcount etype extra buf :
  length h = 8%nat -> UBI_BIG_small h bcount etype extra buf = UBI_BIG h bcount etype extra buf.
Proof.
  intros Hh. unfold UBI_BIG_small, UBI_BIG. cbv zeta. rewrite KINIT_ref by done.
  assert (length (Ref.extend_key h) = 9%nat) as Hk.
  { unfold Ref.extend_key. rewrite length_app, length_take, Hh. reflexivity. }
  rewrite small_key by done. rewrite small_loop by (done || lia).
  change (2 * 9)%nat with 18%nat. by rewrite ADDKEY_ref, ADDKEY_small_ref by (done || lia).
Qed.

(** ** Threefish is a permutation of blocks *)

Definition wf_block (p : list Z) : Prop := length p = 8%nat /\ words 64 p.

Module Dec.
Definition unmix (r a b : Z) : list Z :=
  let y := SPH_ROTR64 (b ⊕ a) r in [SPH_T64 (a - y); y].
(** The inverse of the word permutation. *)
Definition pi_inv : list nat := [6; 1; 0; 7; 2; 5; 4; 3]%nat.
Definition unround (d : nat) (p : list Z) : list Z :=
  let r := nth (d mod 8) Ref.R [] in
  let q := sel pi_inv p in
  unmix r.[0] q.[0] q.[1] ++ unmix r.[1] q.[2] q.[3] ++
  unmix r.[2] q.[4] q.[5] ++ unmix r.[3] q.[6] q.[7].
Definition subkey (k t : list Z) (s : nat) (p : list Z) : list Z :=
  (fun i => SPH_T64 (p.[i] - Ref.subkey k t s i)) <$> seq 0 8.
Definition unfour (k t p : list Z) (s : nat) : list Z :=
  subkey k t s (fold_left (fun p d => unround d p) (rev (seq (4 * s) 4)) p).
Definition threefish (key tweak c : list Z) : list Z :=
  let k := Ref.extend_key key in
  let t := Ref.extend_tweak tweak in
  fold_left (fun p s => unfour k t p s) (rev (seq 0 18)) (subkey k t 18 c).
End Dec.

Lemma unmix_mix r x y :
  0 <= r <= 64 -> word 64 x -> word 64 y ->
  Dec.unmix r (SPH_T64 (x + y)) (SPH_ROTL64 y r ⊕ SPH_T64 (x + y)) = [x; y].
Proof.
  intros Hr Hx Hy. unfold Dec.unmix. cbv zeta.
  rewrite Z.lxor_assoc, Z.lxor_nilpotent, Z.lxor_0_r.
  assert (SPH_ROTR64 (SPH_ROTL64 y r) r = y) as -> by (apply (wrotr_wrotl 64); (done || lia)).
  f_equal. apply (wT_add_sub 64); done.
Qed.

Lemma R_range d i : 0 <= (nth (d mod 8) Ref.R []).[i] <= 64.
Proof.
  pose proof (Nat.mod_upper_bound d 8 ltac:(lia)) as H. revert H. generalize (d mod 8)%nat as e.
  intros e He. do 8 (destruct e as [|e]; [do 4 (destruct i as [|i]; [cbn; lia|]); destruct i; cbn; lia|]).
  lia.
Qed.

Lemma unround_round d p : wf_block p -> Dec.unround d (Ref.round d p) = p.
Proof.
  intros [HL HW]. pose proof (R_range d) as HR. unfold Dec.unround, Ref.round. cbv zeta.
  revert HR. generalize (nth (d mod 8) Ref.R []) as r. intros r HR.
  destruct8 p HL. repeat match goal with H : words _ (_ :: _) |- _ => apply Forall_cons in H as [? H] end.
  cbn [sel fmap list_fmap Ref.pi Ref.mix Dec.pi_inv nth app].
  rewrite !unmix_mix by done. reflexivity.
Qed.

Lemma round_wf d p : wf_block (Ref.round d p).
Proof.
  split; [apply length_round_ref|]. unfold Ref.round. apply words_sel; [lia|].
  unfold Ref.mix. repeat apply List.Forall_cons; try apply List.Forall_nil; auto with words;
    apply word_lxor; auto with words.
Qed.

Lemma addkey_wf k t s p : wf_block (Ref.addkey k t s p).
Proof. split; [reflexivity|]. apply Forall_fmap, Forall_forall. intros. apply T64_word. Qed.

Lemma subkey_addkey k t s p : wf_block p -> Dec.subkey k t s (Ref.addkey k t s p) = p.
Proof.
  intros [HL HW]. destruct8 p HL. unfold Dec.subkey, Ref.addkey.
  repeat match goal with H : words _ (_ :: _) |- _ => apply Forall_cons in H as [? H] end.
  cbn [seq fmap list_fmap nth]. repeat (apply (f_equal2 cons); [by apply (wT_add_sub 64)|]). reflexivity.
Qed.

Lemma unfour_four k t p s :
  wf_block p -> wf_block (four_rounds k t p s) /\ Dec.unfour k t (four_rounds k t p s) s = p.
Proof.
  intros Hp. unfold Dec.unfour, four_rounds.
  destruct (fold_undo wf_block (fun p d => Ref.round d p) (fun p d => Dec.unround d p)
    (seq (4 * s) 4) (Ref.addkey k t s p)) as [H1 H2].
  - intros a d Ha. split; [apply round_wf|by apply unround_round].
  - apply addkey_wf.
  - split; [exact H1|]. rewrite H2. by apply subkey_addkey.
Qed.

Lemma threefish_dec_enc key tweak p :
  wf_block p ->
  wf_block (Ref.threefish key tweak p) /\ Dec.threefish key tweak (Ref.threefish key tweak p) = p.
Proof.
  intros Hp. unfold Dec.threefish, Ref.threefish. cbv zeta.
  destruct (fold_undo wf_block (four_rounds (Ref.extend_key key) (Ref.extend_tweak tweak))
    (Dec.unfour (Ref.extend_key key) (Ref.extend_tweak tweak)) (seq 0 18) p) as [H1 H2].
  - intros a s Ha. by apply unfour_four.
  - done.
  - split; [apply addkey_wf|]. unfold four_rounds at 1 in H2. unfold four_rounds at 1 in H1.
    rewrite subkey_addkey by exact H1. exact H2.
Qed.

(** ** The core keeps the last block, full or not, in the buffer *)

Definition flush (s : skein_state) (blk : list Z) : skein_state :=
  skein_flush (first_flag s) s blk.

(** [msg] has been absorbed: [k] full blocks processed, the rest, at most a
    block and empty only with the message, in the buffer. *)
Definition held (iv msg : list Z) (k : nat) (sc : sph_skein_big_context) : Prop :=
  length (buf sc) = 64%nat /\ (64 * k + ptr sc = length msg)%nat /\
  (ptr sc <= 64)%nat /\ (ptr sc = 0%nat -> msg = []) /\
  take (ptr sc) (buf sc) = drop (64 * k) msg /\
  st sc = fold_left flush (take_blocks 64 k msg) (mk_skein iv 0).

Lemma fold_flush_bcount iv k msg :
  Z.of_nat k < 2 ^ 64 ->
  sk_bcount (fold_left flush (take_blocks 64 k msg) (mk_skein iv 0)) = Z.of_nat k.
Proof.
  induction k as [|k IH]; intros Hk; [done|]. rewrite take_blocks_snoc, fold_left_app.
  cbn [fold_left]. unfold flush at 1, skein_flush. cbn [sk_bcount]. rewrite IH by lia.
  rewrite T64_id; [lia|]. unfold word. lia.
Qed.

Lemma held_first_flag iv msg k sc :
  held iv msg k sc -> Z.of_nat k < 2 ^ 64 -> first_flag (st sc) = if (k =? 0)%nat then 128 else 0.
Proof.
  intros (_ & _ & _ & _ & _ & ->) Hk. unfold first_flag. rewrite fold_flush_bcount by done.
  destruct k; [done|]. case Z.eqb_spec; [lia|done].
Qed.

(** Data that fits is appended. *)
Lemma held_copy iv msg k sc data :
  held iv msg k sc -> (ptr sc + length data <= 64)%nat ->
  held iv (msg ++ data) k (mk_ctx (memcpy (buf sc) (ptr sc) data) (ptr sc + length data) (st sc)).
Proof.
  intros (Hb & Hl & Hp & H0 & Ht & Hs) Hd. unfold held. cbn [buf ptr st].
  rewrite length_memcpy, length_app by lia. split_and!; try lia.
  - intros Hz. rewrite H0 by lia. destruct data; [done|simpl in Hz; lia].
  - rewrite memcpy_prefix by lia. rewrite drop_app_le by lia. by rewrite Ht.
  - rewrite Hs. by rewrite take_blocks_app by lia.
Qed.

(** A full buffer is processed before the next byte is stored. *)
Lemma held_flush iv msg k sc data :
  held iv msg k sc -> ptr sc = 64%nat -> (0 < length data <= 64)%nat ->
  held iv (msg ++ data) (S k) (mk_ctx (memcpy (buf sc) 0 data) (length data) (flush (st sc) (buf sc))).
Proof.
  intros (Hb & Hl & Hp & H0 & Ht & Hs) Hfull Hd. unfold held. cbn [buf ptr st].
  rewrite length_memcpy, length_app by lia. rewrite Hfull in *.
  rewrite take_ge in Ht by lia. split_and!; try lia.
  - rewrite drop_app_ge by lia. replace (64 * S k - length msg)%nat with 0%nat by lia.
    exact (memcpy_prefix (buf sc) 0 data ltac:(lia)).
  - rewrite take_blocks_app by lia. rewrite take_blocks_snoc, fold_left_app, <- Hs.
    cbn [fold_left]. f_equal. rewrite (Nat.mul_comm k), <- Ht. by rewrite take_ge by lia.
Qed.

Lemma skein_loop_held fuel iv msg k sc data first :
  held iv msg k sc -> first = (if (k =? 0)%nat then 128 else 0) ->
  (0 < length data <= fuel)%nat -> Z.of_nat (length msg + length data) < 2 ^ 64 ->
  exists k', held iv (msg ++ data) k' (skein_loop fuel first sc data).
Proof.
  revert msg k sc data first. induction fuel as [|fuel IH];
    intros msg k sc data first Hh Hf Hd Hlen; [lia|].
  pose proof Hh as (Hb & Hl & Hp & H0 & _). assert (Z.of_nat k < 2 ^ 64) as Hk by lia.
  assert (forall first' k' sc' clen,
    (0 < clen <= length data)%nat -> first' = (if (k' =? 0)%nat then 128 else 0) ->
    held iv (msg ++ take clen data) k' sc' ->
    exists k'', held iv (msg ++ data) k''
      (if (0 <? length (drop clen data))%nat then skein_loop fuel first' sc' (drop clen data)
       else sc')) as Hrest.
  { intros first' k' sc' clen Hc Hf' Hh'. rewrite length_drop. case Nat.ltb_spec; intros Hr.
    - destruct (IH _ _ _ (drop clen data) first' Hh' Hf') as [k'' H''];
        rewrite ?length_app, ?length_drop, ?length_take; [lia|lia|].
      exists k''. by rewrite <- app_assoc, take_drop in H''.
    - exists k'. by rewrite take_ge in Hh' by lia. }
  cbn [skein_loop]. case Nat.eqb_spec; intros Hfull; cbv zeta;
    match goal with |- context [take ?n data] => set (clen := n) end;
    assert (length (take clen data) = clen) as Ht by (rewrite length_take; lia).
  - apply (Hrest 0 (S k)); [lia|done|]. rewrite Hf, <- (held_first_flag _ _ _ _ Hh Hk).
    pose proof (held_flush iv msg k sc (take clen data) Hh Hfull ltac:(lia)) as H.
    rewrite Ht in H. exact H.
  - apply (Hrest first k); [lia|done|].
    pose proof (held_copy iv msg k sc (take clen data) Hh ltac:(lia)) as H.
    rewrite Ht in H. exact H.
Qed.

Lemma skein_core_held iv msg k sc data :
  held iv msg k sc -> Z.of_nat (length msg + length data) < 2 ^ 64 ->
  exists k', held iv (msg ++ data) k' (skein_big_core sc data).
Proof.
  intros Hh Hlen. pose proof Hh as (Hb & Hl & Hp & _). unfold skein_big_core.
  case Nat.leb_spec; intros Hle.
  - exists k. apply held_copy; [done|lia].
  - apply (skein_loop_held _ _ _ k); [done| |lia|done].
    apply (held_first_flag iv msg k sc Hh). lia.
Qed.

Lemma skein_cores_held iv b ds :
  length b = 64%nat -> Z.of_nat (length (concat ds)) < 2 ^ 64 ->
  exists k, held iv (concat ds) k (fold_left skein_big_core ds (mk_ctx b 0 (mk_skein iv 0))).
Proof.
  intros Hb. set (c := mk_ctx b 0 (mk_skein iv 0)).
  assert (held iv [] 0 c) as H0 by (unfold held; cbn [buf ptr st c]; split_and!; (done || lia)).
  change (concat ds) with ([] ++ concat ds). revert H0. generalize (@nil Z) as msg, 0%nat as k.
  generalize c as sc. induction ds as [|d ds IH]; intros sc msg k Hh Hlen; cbn [concat] in *.
  - exists k. by rewrite app_nil_r.
  - rewrite fold_left_cons, app_assoc in *. rewrite !length_app in Hlen.
    destruct (skein_core_held iv msg k sc d Hh) as [k' H']; [lia|].
    apply (IH _ _ k' H'). rewrite !length_app. lia.
Qed.

(** ** Digests *)

Module Spec.
(** The message as blocks: at least one, the last completed with zeros. *)
Definition nfull (len : nat) : nat := ((len - 1) / 64)%nat.
Definition last_block (msg : list Z) : list Z :=
  let r := drop (64 * nfull (length msg)) msg in r ++ replicate (64 - length r) 0.

(** UBI over the message (type 48): block [i] at position [64 (i + 1)], the
    first and the last flagged. *)
Definition absorb_block (gi : list Z * Z) (blk : list Z) : list Z * Z :=
  let '(g, i) := gi in
  (Ref.ubi_block g blk (Ref.tweak (64 * (i + 1)) 48 (i =? 0) false false), i + 1).
Definition message (iv msg : list Z) (bitpad : bool) : list Z :=
  let k := nfull (length msg) in
  let g := foldl absorb_block (iv, 0) (take_blocks 64 k msg) in
  Ref.ubi_block g.1 (last_block msg)
    (Ref.tweak (Z.of_nat (length msg)) 48 (k =? 0)%nat true bitpad).
(** The output transform (type 63) on an 8-byte counter of zero. *)
Definition output (g : list Z) : list Z :=
  Ref.ubi_block g (replicate 64 0) (Ref.tweak 8 63 true true false).
Definition hash (iv msg : list Z) (bitpad : bool) (out_len : nat) : list Z :=
  take out_len (concat (sph_enc64le <$> output (message iv msg bitpad))).

(** The configuration block (type 4): schema identifier, version, digest
    size in bits. *)
Definition config (bits : Z) : list Z :=
  [0x53; 0x48; 0x41; 0x33; 1; 0; 0; 0] ++ sph_enc64le bits ++ replicate 48 0.
Definition iv (bits : Z) : list Z :=
  Ref.ubi_block (replicate 8 0) (config bits) (Ref.tweak 32 4 true true false).
End Spec.

Lemma ubi_words_blocks blk : length blk = 64%nat -> ubi_words blk = sph_dec64le <$> blocks 8 blk.
Proof.
  intros H. unfold blocks. rewrite H. unfold ubi_words. change (64 / 8)%nat with 8%nat.
  apply dec_blocks, dec64le_take.
Qed.

Lemma tweak_ref bcount typ extra (first final bitpad : bool) :
  0 <= bcount -> 0 <= extra -> 64 * bcount + extra < 2 ^ 64 -> 0 <= typ < 64 ->
  ubi_tweak bcount
    (Z.b2z bitpad + 2 * typ + 128 * Z.b2z first + 256 * Z.b2z final) extra =
  Ref.tweak (64 * bcount + extra) typ first final bitpad.
Proof.
  intros Hb He Hlt Ht. unfold ubi_tweak, Ref.tweak.
  rewrite !Z.shiftl_mul_pow2, Z.shiftr_div_pow2 by lia.
  rewrite (Z.div_small bcount) by lia. rewrite (Z.div_small (64 * bcount + extra)) by lia.
  rewrite !T64_mod, (Z.mod_small (bcount * 2 ^ 6)) by lia.
  assert (forall b, 0 <= Z.b2z b <= 1) as HB by (intros []; simpl; lia).
  pose proof (HB first). pose proof (HB final). pose proof (HB bitpad).
  rewrite (Z.mod_small (_ * 2 ^ 55)) by lia.
  rewrite (Z.mod_small (bcount * 2 ^ 6 + extra)), (Z.mod_small (64 * bcount + extra)) by lia.
  rewrite (Z.mod_small (0 + _)) by lia. repeat (apply (f_equal2 cons); [lia|]). reflexivity.
Qed.

Lemma length_threefish key tw p : length (Ref.threefish key tw p) = 8%nat.
Proof. apply length_addkey. Qed.

Lemma UBI_ref h bcount typ extra (first final bitpad : bool) blk :
  length h = 8%nat -> length blk = 64%nat ->
  0 <= bcount -> 0 <= extra -> 64 * bcount + extra < 2 ^ 64 -> 0 <= typ < 64 ->
  UBI_BIG h bcount (Z.b2z bitpad + 2 * typ + 128 * Z.b2z first + 256 * Z.b2z final) extra blk =
  Ref.ubi_block h blk (Ref.tweak (64 * bcount + extra) typ first final bitpad) /\
  length (Ref.ubi_block h blk (Ref.tweak (64 * bcount + extra) typ first final bitpad)) = 8%nat.
Proof.
  intros Hh Hblk H1 H2 H3 H4. unfold Ref.ubi_block. cbv zeta.
  rewrite length_zip_with, length_threefish, length_fmap, length_blocks, Hblk. split; [|done].
  by rewrite UBI_threefish, tweak_ref, ubi_words_blocks.
Qed.

Lemma flush_blocks iv k msg :
  length iv = 8%nat -> (64 * k <= length msg)%nat -> Z.of_nat (64 * k) < 2 ^ 64 ->
  let gi := foldl Spec.absorb_block (iv, 0) (take_blocks 64 k msg) in
  fold_left flush (take_blocks 64 k msg) (mk_skein iv 0) = mk_skein gi.1 gi.2 /\
  gi.2 = Z.of_nat k /\ length gi.1 = 8%nat.
Proof.
  intros Hiv. induction k as [|k IH]; intros Hlen Hk; [done|].
  destruct IH as (IH1 & IH2 & IH3); [lia|lia|].
  rewrite take_blocks_snoc, fold_left_app, foldl_app, IH1. clear IH1.
  destruct (foldl Spec.absorb_block (iv, 0) (take_blocks 64 k msg)) as [g i].
  cbn [fst snd] in *. subst i. cbn [fold_left foldl Spec.absorb_block].
  set (blk := take 64 (drop (k * 64) msg)).
  assert (length blk = 64%nat) as Hblk by (unfold blk; rewrite length_take, length_drop; lia).
  unfold flush, skein_flush, first_flag. cbn [sk_h sk_bcount fst snd].
  rewrite T64_id by (unfold word; lia).
  destruct (UBI_ref g (Z.of_nat k + 1) 48 0 (Z.of_nat k =? 0) false false blk)
    as [HU HL]; [exact IH3|exact Hblk|lia|lia|lia|lia|].
  rewrite (Z.add_0_r (64 * (Z.of_nat k + 1))) in HU, HL. 
  assert (96 + (if Z.of_nat k =? 0 then 1 else 0) << 7 =
    Z.b2z false + 2 * 48 + 128 * Z.b2z (Z.of_nat k =? 0) + 256 * Z.b2z false) as ->
    by (destruct (Z.of_nat k =? 0); exact eq_refl).
  rewrite HU. split_and!; [exact eq_refl|lia|exact HL].
Qed.

Lemma held_nfull iv msg k sc : held iv msg k sc -> k = Spec.nfull (length msg).
Proof.
  intros (_ & Hl & Hp & H0 & _). unfold Spec.nfull. destruct (decide (ptr sc = 0%nat)) as [Hz|Hz].
  - rewrite H0 in * by done. simpl in *. lia.
  - apply Nat.div_unique with (ptr sc - 1)%nat; lia.
Qed.

(** The final block and the output block. *)
Lemma finish_spec iv msg k sc (bitpad : bool) out :
  length iv = 8%nat -> held iv msg k sc -> Z.of_nat (length msg) < 2 ^ 64 ->
  let buf' := memset (buf sc) (ptr sc) 0 (64 - ptr sc) in
  let h := UBI_BIG (sk_h (st sc)) (sk_bcount (st sc))
             (352 + first_flag (st sc) + Z.b2z bitpad) (Z.of_nat (ptr sc)) buf' in
  let h := UBI_BIG h 0 510 8 (memset buf' 0 0 64) in
  take out (memcpy (memset buf' 0 0 64) 0 (concat (sph_enc64le <$> h))) = Spec.hash iv msg bitpad out.
Proof.
  intros Hiv Hh Hlen. pose proof (held_nfull _ _ _ _ Hh) as Hk.
  pose proof Hh as (Hb & Hl & Hp & _ & Ht & Hs). cbv zeta.
  pose proof (held_first_flag _ _ _ _ Hh ltac:(lia)) as ->.
  assert (memset (buf sc) (ptr sc) 0 (64 - ptr sc) = Spec.last_block msg) as ->.
  { unfold Spec.last_block. cbv zeta. rewrite <- Hk, <- Ht, length_take, Hb.
    rewrite Nat.min_l by done. unfold memset, memcpy. rewrite length_replicate.
    rewrite drop_ge by lia. by rewrite app_nil_r. }
  assert (length (Spec.last_block msg) = 64%nat) as HLB.
  { unfold Spec.last_block. rewrite <- Hk, length_app, length_replicate, length_drop. lia. }
  assert (memset (Spec.last_block msg) 0 0 64 = replicate 64 0) as ->.
  { unfold memset. by rewrite memcpy_all by by rewrite HLB. }
  destruct (flush_blocks iv k msg) as (H1 & H2 & H3); [done|lia|lia|].
  rewrite Hs, H1. cbn [sk_h sk_bcount]. rewrite H2. unfold Spec.hash, Spec.message, Spec.output.
  cbv zeta. rewrite <- Hk.
  revert H3. generalize (foldl Spec.absorb_block (iv, 0) (take_blocks 64 k msg)).1 as g. intros g Hg.
  destruct (UBI_ref g (Z.of_nat k) 48 (Z.of_nat (ptr sc)) (k =? 0)%nat true bitpad
    (Spec.last_block msg)) as [HU HL]; [exact Hg|exact HLB|lia|lia|lia|lia|].
  replace (64 * Z.of_nat k + Z.of_nat (ptr sc)) with (Z.of_nat (length msg)) in HU, HL by lia.
  replace (352 + (if (k =? 0)%nat then 128 else 0) + Z.b2z bitpad)
    with (Z.b2z bitpad + 2 * 48 + 128 * Z.b2z (k =? 0)%nat + 256 * Z.b2z true)
    by (destruct (k =? 0)%nat; simpl; lia).
  rewrite HU. revert HL. generalize (Ref.ubi_block g (Spec.last_block msg)
    (Ref.tweak (Z.of_nat (length msg)) 48 (k =? 0)%nat true bitpad)) as g2. intros g2 Hg2.
  destruct (UBI_ref g2 0 63 8 true true false (replicate 64 0)) as [HU2 HL2];
    [exact Hg2|reflexivity|lia|lia|lia|lia|].
  change (Z.b2z false + 2 * 63 + 128 * Z.b2z true + 256 * Z.b2z true) with 510 in HU2.
  rewrite HU2. change (64 * 0 + 8) with 8 in *. apply (f_equal (take out)), memcpy_all.
  revert HL2. generalize (Ref.ubi_block g2 (replicate 64 0) (Ref.tweak 8 63 true true false)) as g3.
  intros g3 Hg3. destruct8 g3 Hg3. reflexivity.
Qed.

(** ** Main results *)

(** The block function of the code is Threefish-512, keyed with the chaining
    value and tweaked with the block position, in the Matyas-Meyer-Oseas mode;
    the unrolled macros, whose key words are picked through the [M9] and [M3]
    tables, and the loop of the small footprint are both that function. *)
Theorem skein_ubi_is_threefish h bcount etype extra buf :
  length h = 8%nat ->
  let m := ubi_words buf in
  let spec := lxor_list m (Ref.threefish h (ubi_tweak bcount etype extra) m) in
  UBI_BIG h bcount etype extra buf = spec /\ UBI_BIG_small h bcount etype extra buf = spec.
Proof.
  intros Hh. cbv zeta. split; [by apply UBI_threefish|].
  rewrite UBI_small_eq by done. by apply UBI_threefish.
Qed.

Lemma skein_ubi_is_threefish_witness :
  UBI_BIG_small IV512 0 480 0 (replicate 64 1) = UBI_BIG IV512 0 480 0 (replicate 64 1).
Proof.
  destruct (skein_ubi_is_threefish IV512 0 480 0 (replicate 64 1) eq_refl) as [-> ->]. reflexivity.
Defined.

(** Threefish-512, as the code computes it, is invertible for every key and
    tweak: it maps blocks of eight words to blocks of eight words, and the
    inverse cipher gives the plaintext back. *)
Theorem skein_threefish_invertible key tweak p :
  wf_block p ->
  wf_block (Ref.threefish key tweak p) /\ Dec.threefish key tweak (Ref.threefish key tweak p) = p.
Proof. apply threefish_dec_enc. Qed.

Lemma skein_threefish_invertible_witness :
  let p := [1; 2; 3; 4; 5; 6; 7; 8] in
  Dec.threefish IV512 [9; 10] (Ref.threefish IV512 [9; 10] p) = p.
Proof.
  apply skein_threefish_invertible. split; [reflexivity|]. unfold word. repeat constructor; lia.
Defined.

(** The four tables of initial values are what the specification derives: the
    chaining value after the configuration block of the digest size. *)
Theorem skein_initial_values :
  IV224 = Spec.iv 224 /\ IV256 = Spec.iv 256 /\ IV384 = Spec.iv 384 /\ IV512 = Spec.iv 512.
Proof. split_and!; symmetry; apply list_eqb_eq; vm_compute; reflexivity. Qed.

(** C38. The digest of a message of fewer than [2^64 - 1] bytes fed to Skein in any
    chunks and closed with [n] further bits.  The code keeps a full buffer back
    until it knows whether more input follows, so that the last block, and only
    it, carries the final flag, and the first block the first flag; the output
    is the counter-mode block that the specification prescribes. *)
Theorem skein_digest cc iv ds ub n out :
  length (buf cc) = 64%nat -> length iv = 8%nat -> Z.of_nat (length (concat ds)) < 2 ^ 64 - 1 ->
  fst (skein_big_close (fold_left skein_big_core ds (skein_big_init cc iv)) ub n out) =
  Spec.hash iv (concat ds ++ (if n =? 0 then [] else [mark_byte ub n])) (negb (n =? 0)) out.
Proof.
  intros Hb Hiv Hlen. destruct (skein_cores_held iv (buf cc) ds Hb ltac:(lia)) as [k Hh].
  unfold skein_big_init. revert Hh.
  generalize (fold_left skein_big_core ds (mk_ctx (buf cc) 0 (mk_skein iv 0))) as sc. intros sc Hh.
  unfold skein_big_close. destruct (Z.eqb_spec n 0) as [Hn|Hn]; cbv zeta; cbn [negb fst].
  - rewrite app_nil_r. exact (finish_spec iv (concat ds) k sc false out Hiv Hh ltac:(lia)).
  - destruct (skein_core_held iv (concat ds) k sc [mark_byte ub n] Hh) as [k' Hh'].
    { simpl. lia. }
    apply (finish_spec iv _ k' _ true out Hiv Hh'). rewrite length_app. simpl. lia.
Qed.

Lemma skein_digest_witness :
  fst (skein_big_close (fold_left skein_big_core [[]] (skein_big_init (mk_ctx (replicate 64 9) 0 (mk_skein [] 0)) IV512))
    0 0 64) =
  be_bytes 64 0xBC5B4C50925519C290CC634277AE3D6257212395CBA733BBAD37A4AF0FA06AF41FCA7903D06564FEA7A2D3730DBDB80C1F85562DFCC070334EA4D1D9E72CBA7A.
Proof.
  rewrite skein_digest by (reflexivity || (simpl; lia)). apply list_eqb_eq. vm_compute. reflexivity.
Defined.
