(* ===== verification/JH.v ===== *)
(** * jh.c: JH-224, JH-256, JH-384 and JH-512

    The 64-bit bitsliced implementation ([SPH_JH_64], little endian): [Sb] and
    [Lb] statement by statement, the bit exchanges [W0] to [W6], [E8] unrolled
    and as the small-footprint loop, the buffered core, padding and closing.
    The 32-bit code of the same file is not compiled on the modelled platform.
    Proved: at every bit position [Sb] is the S-box the constant bit selects and
    [Lb] the MDS code over GF(16), [W]k exchanges the bits whose positions
    differ in bit k, the compression function is a permutation of the state for
    every block, and digests follow the padding rule for any chunking. *)

From Stdlib Require Import ZArith Lia Btauto.
From stdpp Require Import base tactics numbers list.
From S2P Require Import Prelude SphTypes Stream Bitslice.

(** ** Constants *)

Definition C64e (x : Z) : Z :=
  (x >> 56)
  .| ((x >> 40) .& 0x000000000000FF00)
  .| ((x >> 24) .& 0x0000000000FF0000)
  .| ((x >> 8) .& 0x00000000FF000000)
  .| ((x << 8) .& 0x000000FF00000000)
  .| ((x << 24) .& 0x0000FF0000000000)
  .| ((x << 40) .& 0x00FF000000000000)
  .| ((x << 56) .& 0xFF00000000000000).

Definition C : list Z := C64e <$>
  [
    0x72d5dea2df15f867; 0x7b84150ab7231557; 0x81abd6904d5a87f6; 0x4e9f4fc5c3d12b40;
    0xea983ae05c45fa9c; 0x03c5d29966b2999a; 0x660296b4f2bb538a; 0xb556141a88dba231;
    0x03a35a5c9a190edb; 0x403fb20a87c14410; 0x1c051980849e951d; 0x6f33ebad5ee7cddc;
    0x10ba139202bf6b41; 0xdc786515f7bb27d0; 0x0a2c813937aa7850; 0x3f1abfd2410091d3;
    0x422d5a0df6cc7e90; 0xdd629f9c92c097ce; 0x185ca70bc72b44ac; 0xd1df65d663c6fc23;
    0x976e6c039ee0b81a; 0x2105457e446ceca8; 0xeef103bb5d8e61fa; 0xfd9697b294838197;
    0x4a8e8537db03302f; 0x2a678d2dfb9f6a95; 0x8afe7381f8b8696c; 0x8ac77246c07f4214;
    0xc5f4158fbdc75ec4; 0x75446fa78f11bb80; 0x52de75b7aee488bc; 0x82b8001e98a6a3f4;
    0x8ef48f33a9a36315; 0xaa5f5624d5b7f989; 0xb6f1ed207c5ae0fd; 0x36cae95a06422c36;
    0xce2935434efe983d; 0x533af974739a4ba7; 0xd0f51f596f4e8186; 0x0e9dad81afd85a9f;
    0xa7050667ee34626a; 0x8b0b28be6eb91727; 0x47740726c680103f; 0xe0a07e6fc67e487b;
    0x0d550aa54af8a4c0; 0x91e3e79f978ef19e; 0x8676728150608dd4; 0x7e9e5a41f3e5b062;
    0xfc9f1fec4054207a; 0xe3e41a00cef4c984; 0x4fd794f59dfa95d8; 0x552e7e1124c354a5;
    0x5bdf7228bdfe6e28; 0x78f57fe20fa5c4b2; 0x05897cefee49d32e; 0x447e9385eb28597f;
    0x705f6937b324314a; 0x5e8628f11dd6e465; 0xc71b770451b920e7; 0x74fe43e823d4878a;
    0x7d29e8a3927694f2; 0xddcb7a099b30d9c1; 0x1d1b30fb5bdc1be0; 0xda24494ff29c82bf;
    0xa4e7ba31b470bfff; 0x0d324405def8bc48; 0x3baefc3253bbd339; 0x459fc3c1e0298ba0;
    0xe5c905fdf7ae090f; 0x947034124290f134; 0xa271b701e344ed95; 0xe93b8e364f2f984a;
    0x88401d63a06cf615; 0x47c1444b8752afff; 0x7ebb4af1e20ac630; 0x4670b6c5cc6e8ce6;
    0xa4d5a456bd4fca00; 0xda9d844bc83e18ae; 0x7357ce453064d1ad; 0xe8a6ce68145c2567;
    0xa3da8cf2cb0ee116; 0x33e906589a94999a; 0x1f60b220c26f847b; 0xd1ceac7fa0d18518;
    0x32595ba18ddd19d3; 0x509a1cc0aaa5b446; 0x9f3d6367e4046bba; 0xf6ca19ab0b56ee7e;
    0x1fb179eaa9282174; 0xe9bdf7353b3651ee; 0x1d57ac5a7550d376; 0x3a46c2fea37d7001;
    0xf735c1af98a4d842; 0x78edec209e6b6779; 0x41836315ea3adba8; 0xfac33b4d32832c83;
    0xa7403b1f1c2747f3; 0x5940f034b72d769a; 0xe73e4e6cd2214ffd; 0xb8fd8d39dc5759ef;
    0x8d9b0c492b49ebda; 0x5ba2d74968f3700d; 0x7d3baed07a8d5584; 0xf5a5e9f0e4f88e65;
    0xa0b8a2f436103b53; 0x0ca8079e753eec5a; 0x9168949256e8884f; 0x5bb05c55f8babc4c;
    0xe3bb3b99f387947b; 0x75daf4d6726b1c5d; 0x64aeac28dc34b36d; 0x6c34a550b828db71;
    0xf861e2f2108d512a; 0xe3db643359dd75fc; 0x1cacbcf143ce3fa2; 0x67bbd13c02e843b0;
    0x330a5bca8829a175; 0x7f34194db416535c; 0x923b94c30e794d1e; 0x797475d7b6eeaf3f;
    0xeaa8d4f7be1a3921; 0x5cf47e094c232751; 0x26a32453ba323cd2; 0x44a3174a6da6d5ad;
    0xb51d3ea6aff2c908; 0x83593d98916b3c56; 0x4cf87ca17286604d; 0x46e23ecc086ec7f6;
    0x2f9833b3b1bc765e; 0x2bd666a5efc4e62a; 0x06f4b6e8bec1d436; 0x74ee8215bcef2163;
    0xfdc14e0df453c969; 0xa77d5ac406585826; 0x7ec1141606e0fa16; 0x7e90af3d28639d3f;
    0xd2c9f2e3009bd20c; 0x5faace30b7d40c30; 0x742a5116f2e03298; 0x0deb30d8e3cef89a;
    0x4bc59e7bb5f17992; 0xff51e66e048668d3; 0x9b234d57e6966731; 0xcce6a6f3170a7505;
    0xb17681d913326cce; 0x3c175284f805a262; 0xf42bcbb378471547; 0xff46548223936a48;
    0x38df58074e5e6565; 0xf2fc7c89fc86508e; 0x31702e44d00bca86; 0xf04009a23078474e;
    0x65a0ee39d1f73883; 0xf75ee937e42c3abd; 0x2197b2260113f86f; 0xa344edd1ef9fdee7;
    0x8ba0df15762592d9; 0x3c85f7f612dc42be; 0xd8a7ec7cab27b07e; 0x538d7ddaaa3ea8de;
    0xaa25ce93bd0269d8; 0x5af643fd1a7308f9; 0xc05fefda174a19a5; 0x974d66334cfd216a;
    0x35b49831db411570; 0xea1e0fbbedcd549b; 0x9ad063a151974072; 0xf6759dbf91476fe2].

Definition Ceven_hi (r : nat) : Z := C.[4 * r + 0].
Definition Ceven_lo (r : nat) : Z := C.[4 * r + 1].
Definition Codd_hi (r : nat) : Z := C.[4 * r + 2].
Definition Codd_lo (r : nat) : Z := C.[4 * r + 3].

Definition IV224 : list Z := C64e <$>
  [
    0x2dfedd62f99a98ac; 0xae7cacd619d634e7; 0xa4831005bc301216; 0xb86038c6c9661494;
    0x66d9899f2580706f; 0xce9ea31b1d9b1adc; 0x11e8325f7b366e10; 0xf994857f02fa06c1;
    0x1b4f1b5cd8c840b3; 0x97f6a17f6e738099; 0xdcdf93a5adeaa3d3; 0xa431e8dec9539a68;
    0x22b4a98aec86a1e4; 0xd574ac959ce56cf0; 0x15960deab5ab2bbf; 0x9611dcf0dd64ea6e].
Definition IV256 : list Z := C64e <$>
  [
    0xeb98a3412c20d3eb; 0x92cdbe7b9cb245c1; 0x1c93519160d4c7fa; 0x260082d67e508a03;
    0xa4239e267726b945; 0xe0fb1a48d41a9477; 0xcdb5ab26026b177a; 0x56f024420fff2fa8;
    0x71a396897f2e4d75; 0x1d144908f77de262; 0x277695f776248f94; 0x87d5b6574780296c;
    0x5c5e272dac8e0d6c; 0x518450c657057a0f; 0x7be4d367702412ea; 0x89e3ab13d31cd769].
Definition IV384 : list Z := C64e <$>
  [
    0x481e3bc6d813398a; 0x6d3b5e894ade879b; 0x63faea68d480ad2e; 0x332ccb21480f8267;
    0x98aec84d9082b928; 0xd455ea3041114249; 0x36f555b2924847ec; 0xc7250a93baf43ce1;
    0x569b7f8a27db454c; 0x9efcbd496397af0e; 0x589fc27d26aa80cd; 0x80c08b8c9deb2eda;
    0x8a7981e8f8d5373a; 0xf43967adddd17a71; 0xa9b4d3bda475d394; 0x976c3fba9842737f].
Definition IV512 : list Z := C64e <$>
  [
    0x6fd14b963e00aa17; 0x636a2e057a15d543; 0x8a225e8d0c97ef0b; 0xe9341259f2b3c361;
    0x891da0c1536f801e; 0x2aa9056bea2b6d80; 0x588eccdb2075baa6; 0xa90f3a76baf83bf7;
    0x0169e60541e34a69; 0x46b58a8e2e6fe65a; 0x1047a7d0c1843c24; 0x3b6e71b12d5ac199;
    0xcf57f6ec9db1f856; 0xa706887c5716b156; 0xe3c2fcdfe68517fb; 0x545a4678cc8cdd4b].

(** ** The bitsliced round *)

(** [Sb(x0, x1, x2, x3, c)]. *)
Definition Sb (c : Z) (x : list Z) : list Z :=
  let x0 := x.[0] in
  let x1 := x.[1] in
  let x2 := x.[2] in
  let x3 := x.[3] in
  let x3 := not64 x3 in
  let x0 := x0 ⊕ (c .& not64 x2) in
  let tmp := c ⊕ (x0 .& x1) in
  let x0 := x0 ⊕ (x2 .& x3) in
  let x3 := x3 ⊕ (not64 x1 .& x2) in
  let x1 := x1 ⊕ (x0 .& x2) in
  let x2 := x2 ⊕ (x0 .& not64 x3) in
  let x0 := x0 ⊕ (x1 .| x3) in
  let x3 := x3 ⊕ (x1 .& x2) in
  let x1 := x1 ⊕ (tmp .& x0) in
  let x2 := x2 ⊕ tmp in
  [x0; x1; x2; x3].

(** [Lb(x0, ..., x7)]. *)
Definition Lb (x : list Z) : list Z :=
  let x0 := x.[0] in
  let x1 := x.[1] in
  let x2 := x.[2] in
  let x3 := x.[3] in
  let x4 := x.[4] ⊕ x1 in
  let x5 := x.[5] ⊕ x2 in
  let x6 := x.[6] ⊕ (x3 ⊕ x0) in
  let x7 := x.[7] ⊕ x0 in
  let x0 := x0 ⊕ x5 in
  let x1 := x1 ⊕ x6 in
  let x2 := x2 ⊕ (x7 ⊕ x4) in
  let x3 := x3 ⊕ x4 in
  [x0; x1; x2; x3; x4; x5; x6; x7].

(** The variables [h]i[h] and [h]i[l] are [H.wide[2 * i]] and
    [H.wide[2 * i + 1]]. *)
Definition hi_of (xs : list nat) : list nat := (fun x => 2 * x)%nat <$> xs.
Definition lo_of (xs : list nat) : list nat := (fun x => 2 * x + 1)%nat <$> xs.

Definition S_macro (xs : list nat) (chi clo : Z) (H : list Z) : list Z :=
  let H := assign (hi_of xs) (Sb chi (sel (hi_of xs) H)) H in
  assign (lo_of xs) (Sb clo (sel (lo_of xs) H)) H.
Definition L_macro (xs : list nat) (H : list Z) : list Z :=
  let H := assign (hi_of xs) (Lb (sel (hi_of xs) H)) H in
  assign (lo_of xs) (Lb (sel (lo_of xs) H)) H.

(** [Wz(x, c, n)] on one word and on both words of a variable; [W6] exchanges
    the two words. *)
Definition Wz_word (c n x : Z) : Z := ((x >> n) .& c) .| ((x .& c) << n).
Definition Wz (c n : Z) (hl : list Z) : list Z := [Wz_word c n hl.[0]; Wz_word c n hl.[1]].
Definition W6 (hl : list Z) : list Z := [hl.[1]; hl.[0]].
Definition Wtab : list (Z * Z) :=
  [(0x5555555555555555, 1); (0x3333333333333333, 2); (0x0F0F0F0F0F0F0F0F, 4);
   (0x00FF00FF00FF00FF, 8); (0x0000FFFF0000FFFF, 16); (0x00000000FFFFFFFF, 32)].
Definition W (ro : nat) (hl : list Z) : list Z :=
  match nth_error Wtab ro with
  | Some (c, n) => Wz c n hl
  | None => W6 hl
  end.
Definition W_var (ro x : nat) (H : list Z) : list Z :=
  let p := [2 * x; 2 * x + 1]%nat in assign p (W ro (sel p H)) H.

Definition SLu (r ro : nat) (H : list Z) : list Z :=
  let H := S_macro [0; 2; 4; 6]%nat (Ceven_hi r) (Ceven_lo r) H in
  let H := S_macro [1; 3; 5; 7]%nat (Codd_hi r) (Codd_lo r) H in
  let H := L_macro [0; 2; 4; 6; 1; 3; 5; 7]%nat H in
  let H := W_var ro 1 H in
  let H := W_var ro 3 H in
  let H := W_var ro 5 H in
  W_var ro 7 H.

(** The unrolled [E8] and the loop of seven rounds of the small footprint. *)
Definition SLu_calls : list (nat * nat) :=
    [(0, 0); (1, 1); (2, 2); (3, 3); (4, 4); (5, 5); (6, 6); (7, 0); (8, 1); (9, 2); (10, 3);
     (11, 4); (12, 5); (13, 6); (14, 0); (15, 1); (16, 2); (17, 3); (18, 4); (19, 5); (20, 6);
     (21, 0); (22, 1); (23, 2); (24, 3); (25, 4); (26, 5); (27, 6); (28, 0); (29, 1); (30, 2);
     (31, 3); (32, 4); (33, 5); (34, 6); (35, 0); (36, 1); (37, 2); (38, 3); (39, 4); (40, 5);
     (41, 6)]%nat.
Definition E8 (H : list Z) : list Z := fold_left (fun H '(r, ro) => SLu r ro H) SLu_calls H.
Definition E8_small (H : list Z) : list Z :=
  fold_left (fun H r => fold_left (fun H ro => SLu (r + ro) ro H) (seq 0 7) H)
    [0; 7; 14; 21; 28; 35]%nat H.

(** ** The context and its operations *)

Record jh_state : Type := mk_jh { jh_H : list Z; jh_block_count : Z }.
Definition sph_jh_context : Type := stream_ctx jh_state.

Definition jh_message (buf : list Z) : list Z :=
  (fun i => sph_dec64le (drop (8 * i) buf)) <$> seq 0 8.
Definition INPUT_BUF1 (m H : list Z) : list Z := assign (seq 0 8) (lxor_list (sel (seq 0 8) H) m) H.
Definition INPUT_BUF2 (m H : list Z) : list Z := assign (seq 8 8) (lxor_list (sel (seq 8 8) H) m) H.

Definition jh_block (s : jh_state) (buf : list Z) : jh_state :=
  let m := jh_message buf in
  mk_jh (INPUT_BUF2 m (E8 (INPUT_BUF1 m (jh_H s)))) (SPH_T64 (jh_block_count s + 1)).

Definition jh_init (sc : sph_jh_context) (iv : list Z) : sph_jh_context :=
  mk_ctx (buf sc) 0 (mk_jh iv 0).
Definition jh_core (sc : sph_jh_context) (data : list Z) : sph_jh_context := core 64 jh_block sc data.

Definition jh_close (sc : sph_jh_context) (ub n : Z) (out_size_w32 : nat) (iv : list Z) :
    list Z * sph_jh_context :=
  let z := 0x80 >> n in
  let b0 := ((ub .& SPH_T32 (- z)) .| z) .& 0xFF in
  let numz := if (ptr sc =? 0)%nat && (n =? 0) then 47%nat else (111 - ptr sc)%nat in
  let bc := jh_block_count (st sc) in
  let l0 := SPH_T64 (SPH_T64 (bc << 9) + (Z.of_nat (ptr sc) << 3) + n) in
  let l1 := SPH_T64 (bc >> 55) in
  let buf' := b0 :: replicate numz 0 ++ sph_enc64be l1 ++ sph_enc64be l0 in
  let sc := jh_core sc buf' in
  let out := concat (sph_enc64le <$> take 8 (drop 8 (jh_H (st sc)))) in
  (take (4 * out_size_w32) (drop (4 * (16 - out_size_w32)) out), jh_init sc iv).

Definition sph_jh224_init (cc : sph_jh_context) := jh_init cc IV224.
Definition sph_jh224 (cc : sph_jh_context) (data : list Z) := jh_core cc data.
Definition sph_jh224_close (cc : sph_jh_context) := jh_close cc 0 0 7 IV224.
Definition sph_jh224_addbits_and_close (cc : sph_jh_context) (ub n : Z) :=
  jh_close cc ub n 7 IV224.

Definition sph_jh256_init (cc : sph_jh_context) := jh_init cc IV256.
Definition sph_jh256 (cc : sph_jh_context) (data : list Z) := jh_core cc data.
Definition sph_jh256_close (cc : sph_jh_context) := jh_close cc 0 0 8 IV256.
Definition sph_jh256_addbits_and_close (cc : sph_jh_context) (ub n : Z) :=
  jh_close cc ub n 8 IV256.

Definition sph_jh384_init (cc : sph_jh_context) := jh_init cc IV384.
Definition sph_jh384 (cc : sph_jh_context) (data : list Z) := jh_core cc data.
Definition sph_jh384_close (cc : sph_jh_context) := jh_close cc 0 0 12 IV384.
Definition sph_jh384_addbits_and_close (cc : sph_jh_context) (ub n : Z) :=
  jh_close cc ub n 12 IV384.

Definition sph_jh512_init (cc : sph_jh_context) := jh_init cc IV512.
Definition sph_jh512 (cc : sph_jh_context) (data : list Z) := jh_core cc data.
Definition sph_jh512_close (cc : sph_jh_context) := jh_close cc 0 0 16 IV512.
Definition sph_jh512_addbits_and_close (cc : sph_jh_context) (ub n : Z) :=
  jh_close cc ub n 16 IV512.

(** ** What the bitsliced operations compute *)

Module Ref.
(** The two S-boxes and the multiplication by 2 in GF(16) = GF(2)[x]/(x^4+x+1). *)
Definition S0 : list Z := [9; 0; 4; 11; 13; 12; 3; 15; 1; 10; 2; 6; 7; 5; 8; 14].
Definition S1 : list Z := [3; 12; 6; 13; 5; 7; 1; 9; 15; 2; 0; 4; 11; 10; 14; 8].
Definition sbox (c : bool) (x : Z) : Z := (if c then S1 else S0).[Z.to_nat x].
Definition double (x : Z) : Z := if x <? 8 then 2 * x else (2 * x - 16) ⊕ 3.
(** The (4,2,3) MDS code: B becomes B + 2A, then A becomes A + 2B. *)
Definition mds (ab : Z * Z) : Z * Z :=
  let '(a, b) := ab in let d := b ⊕ double a in (a ⊕ double d, d).
End Ref.

Lemma not64_bit x i : 0 <= i < 64 -> Z.testbit (not64 x) i = negb (Z.testbit x i).
Proof. intros Hi. unfold not64. rewrite T64_bit by done. apply Z.lnot_spec. lia. Qed.

(** [Sb] and [Lb] at one bit position. *)
Definition sb (c x0 x1 x2 x3 : bool) : bool * bool * bool * bool :=
  let x3 := negb x3 in
  let x0 := xorb x0 (c && negb x2) in
  let tmp := xorb c (x0 && x1) in
  let x0 := xorb x0 (x2 && x3) in
  let x3 := xorb x3 (negb x1 && x2) in
  let x1 := xorb x1 (x0 && x2) in
  let x2 := xorb x2 (x0 && negb x3) in
  let x0 := xorb x0 (x1 || x3) in
  let x3 := xorb x3 (x1 && x2) in
  let x1 := xorb x1 (tmp && x0) in
  let x2 := xorb x2 tmp in
  (x0, x1, x2, x3).

Lemma Sb_bit c x i :
  0 <= i < 64 ->
  let y := Sb c x in
  (Z.testbit y.[0] i, Z.testbit y.[1] i, Z.testbit y.[2] i, Z.testbit y.[3] i) =
  sb (Z.testbit c i) (Z.testbit x.[0] i) (Z.testbit x.[1] i) (Z.testbit x.[2] i) (Z.testbit x.[3] i).
Proof.
  intros Hi. unfold Sb, sb. cbv zeta. cbn [nth].
  repeat first [rewrite Z.lxor_spec | rewrite Z.land_spec | rewrite Z.lor_spec
               | rewrite not64_bit by exact Hi].
  reflexivity.
Qed.

Lemma sb_sbox c x0 x1 x2 x3 :
  nibble_of (sb c x0 x1 x2 x3) = Ref.sbox c (nibble_of (x0, x1, x2, x3)).
Proof. by destruct c, x0, x1, x2, x3. Qed.

Lemma Sb_nibble c x i :
  0 <= i < 64 -> nibble (Sb c x) 0 i = Ref.sbox (Z.testbit c i) (nibble x 0 i).
Proof. intros Hi. unfold nibble. rewrite <- sb_sbox, <- Sb_bit by done. reflexivity. Qed.

Lemma Lb_nibble x i :
  0 <= i ->
  (nibble (Lb x) 0 i, nibble (Lb x) 4 i) = Ref.mds (nibble x 0 i, nibble x 4 i).
Proof.
  intros Hi. unfold nibble, Lb. cbv zeta. cbn [nth Nat.add]. rewrite !Z.lxor_spec.
  destruct (Z.testbit x.[0] i), (Z.testbit x.[1] i), (Z.testbit x.[2] i), (Z.testbit x.[3] i),
    (Z.testbit x.[4] i), (Z.testbit x.[5] i), (Z.testbit x.[6] i), (Z.testbit x.[7] i); reflexivity.
Qed.

Lemma Sb_inj_on c : word 64 c -> inj_on (wf_arr 64 4) (Sb c).
Proof.
  intros Hc. apply (bitslice_inj 64 _ (fun i => if Z.testbit c i then Ref.S1 else Ref.S0) [0; 1; 2; 3]%nat).
  - lia.
  - intros x [Hx Wx]. destruct4 x Hx.
    repeat match goal with H : words _ (_ :: _) |- _ => apply Forall_cons in H as [? H] end.
    split; [reflexivity|]. unfold Sb. cbv zeta. cbn [nth].
    repeat apply List.Forall_cons; try apply List.Forall_nil;
      repeat first [apply not64_word|apply word_lxor|apply word_lor|apply word_land_l]; auto with words.
  - intros i. by destruct (Z.testbit c i).
  - intros x y [Hx _] [Hy _]. destruct4 x Hx. destruct4 y Hy. done.
  - reflexivity.
  - intros x i Hi. exact (Sb_nibble c x i Hi).
Qed.

(** The linear layer, undone statement by statement. *)
Definition Lb_inv (x : list Z) : list Z :=
  let x4 := x.[4] in
  let x5 := x.[5] in
  let x6 := x.[6] in
  let x7 := x.[7] in
  let x3 := x.[3] ⊕ x4 in
  let x2 := x.[2] ⊕ (x7 ⊕ x4) in
  let x1 := x.[1] ⊕ x6 in
  let x0 := x.[0] ⊕ x5 in
  [x0; x1; x2; x3; x4 ⊕ x1; x5 ⊕ x2; x6 ⊕ (x3 ⊕ x0); x7 ⊕ x0].

Lemma Lb_inj_on : inj_on (wf_arr 64 8) Lb.
Proof.
  apply (inj_on_inv _ _ Lb_inv); intros x [Hx Wx];
    do 8 (destruct x as [|? x]; [discriminate Hx|]); (destruct x; [|discriminate Hx]).
  - repeat match goal with H : words _ (_ :: _) |- _ => apply Forall_cons in H as [? H] end.
    split; [reflexivity|]. unfold Lb. cbv zeta. cbn [nth].
    repeat apply List.Forall_cons; try apply List.Forall_nil; repeat apply word_lxor; done.
  - unfold Lb, Lb_inv. cbv zeta. cbn [nth]. by rewrite !lxor_cancel.
Qed.

(** [Wz] exchanges the bits whose positions differ in one bit: [n] is a power
    of two and [c] selects the positions without it. *)
Definition Wz_ok (k : Z) (c n : Z) : Prop :=
  n = 2 ^ k /\ word 64 c /\ word 64 (c << n) /\
  forall i, 0 <= i < 64 -> Z.testbit c i = negb (Z.testbit i k).

Definition Wz_okb (k : Z) (c n : Z) : bool :=
  (n =? 2 ^ k) && (0 <=? c) && (c <? 2 ^ 64) && (0 <=? c << n) && (c << n <? 2 ^ 64) &&
  forallb (fun i => Bool.eqb (Z.testbit c (Z.of_nat i)) (negb (Z.testbit (Z.of_nat i) k))) (seq 0 64).

Lemma Wz_okb_ok k c n : Wz_okb k c n = true -> Wz_ok k c n.
Proof.
  unfold Wz_okb. rewrite !andb_true_iff, Z.eqb_eq, !Z.leb_le, !Z.ltb_lt, forallb_forall.
  intros [[[[[H1 H2] H3] H5] H6] H4]. split_and!; [done|by unfold word..|]. intros i Hi.
  specialize (H4 (Z.to_nat i)). rewrite Z2Nat.id in H4 by lia. apply Bool.eqb_prop, H4.
  apply in_seq. lia.
Qed.

Lemma Wtab_ok :
  forallb (fun k => let '(c, n) := nth k Wtab (0, 0) in Wz_okb (Z.of_nat k) c n) (seq 0 6) = true.
Proof. vm_compute. reflexivity. Qed.

(** Toggling bit [k] of an index. *)
Lemma toggle_bit i k :
  0 <= i -> 0 <= k ->
  Z.lxor i (2 ^ k) = if Z.testbit i k then i - 2 ^ k else i + 2 ^ k.
Proof.
  intros Hi Hk. assert (forall j, 0 <= j -> Z.testbit (2 ^ k) j = (j =? k)) as Hp.
  { intros j Hj. rewrite Z.pow2_bits_eqb by lia. apply Z.eqb_sym. }
  destruct (Z.testbit i k) eqn:E.
  - apply Z.add_cancel_r with (2 ^ k). rewrite Z.sub_add.
    rewrite Z.add_nocarry_lxor.
    + by rewrite lxor_cancel.
    + bits_intro j Hj. rewrite Z.land_spec, Z.lxor_spec, Hp, Z.bits_0 by done.
      case Z.eqb_spec; [intros ->; rewrite E; btauto|intros _; btauto].
  - rewrite Z.add_nocarry_lxor; [done|]. bits_intro j Hj.
    rewrite Z.land_spec, Hp, Z.bits_0 by done. case Z.eqb_spec; [intros ->; rewrite E; btauto|intros _; btauto].
Qed.

Lemma testbit_add_pow2 i k : 0 <= k -> Z.testbit (i + 2 ^ k) k = negb (Z.testbit i k).
Proof.
  intros Hk. rewrite !Z.testbit_odd, !Z.shiftr_div_pow2 by done.
  rewrite <- (Z.mul_1_l (2 ^ k)) at 1. rewrite Z.div_add by lia.
  by rewrite Z.add_1_r, Z.odd_succ, <- Z.negb_odd.
Qed.

Lemma Wz_word_bit k c n x i :
  0 <= k < 6 -> Wz_ok k c n -> word 64 x -> 0 <= i < 64 ->
  Z.testbit (Wz_word c n x) i = Z.testbit x (Z.lxor i n).
Proof.
  intros Hk (-> & Hc & Hcn & Hb) Hx Hi. assert (0 < 2 ^ k) as Hn by lia.
  pose proof (testbit_add_pow2 i k ltac:(lia)) as Hup.
  pose proof (testbit_add_pow2 (i - 2 ^ k) k ltac:(lia)) as Hdn. rewrite Z.sub_add in Hdn.
  unfold Wz_word. rewrite toggle_bit, Z.lor_spec, !Z.land_spec, Z.shiftr_spec, Hb by lia.
  rewrite Z.shiftl_spec by lia. destruct (Z.testbit i k) eqn:E; cbn [negb].
  - rewrite andb_false_r. cbn [orb].
    destruct (Z.ltb_spec i (2 ^ k)) as [Hlt|Hge].
    + exfalso. revert E. by rewrite (word_bit_high k) by (unfold word; lia).
    + rewrite Z.land_spec, Hb by lia. apply (f_equal negb) in Hdn.
      rewrite negb_involutive in Hdn. rewrite <- Hdn. cbn [negb]. btauto.
  - rewrite andb_true_r.
    destruct (Z.ltb_spec i (2 ^ k)) as [Hlt|Hge].
    + rewrite (Z.testbit_neg_r _ (i - 2 ^ k)) by lia. btauto.
    + rewrite Z.land_spec, Hb by lia. apply (f_equal negb) in Hdn.
      rewrite negb_involutive in Hdn. rewrite <- Hdn. cbn [negb]. btauto.
Qed.

Lemma Wz_word_word k c n x : 0 <= k -> Wz_ok k c n -> word 64 x -> word 64 (Wz_word c n x).
Proof.
  intros Hk (-> & Hc & Hcn & Hb) Hx. unfold Wz_word. apply word_lor; [by apply word_land_r|].
  apply word_of_bits; [lia| |].
  - apply Z.shiftl_nonneg. eapply word_nonneg. by apply word_land_l.
  - intros i Hi. rewrite Z.shiftl_spec, Z.land_spec by lia.
    assert (Z.testbit c (i - 2 ^ k) = false) as ->; [|btauto].
    rewrite <- Z.shiftl_spec by lia. by apply (word_bit_high 64).
Qed.

Lemma Wz_word_invol k c n x :
  0 <= k < 6 -> Wz_ok k c n -> word 64 x -> Wz_word c n (Wz_word c n x) = x.
Proof.
  intros Hk Hok Hx. pose proof (Wz_word_word k c n x ltac:(lia) Hok Hx) as Hw.
  apply (word_eq 64); [by apply (Wz_word_word k); [lia|..]|done|]. intros i Hi.
  assert (0 <= Z.lxor i n < 64) as Hin.
  { change (word 6 (Z.lxor i n)). apply word_lxor; [done|].
    destruct Hok as [-> _]. split; [lia|]. apply Z.pow_lt_mono_r; lia. }
  rewrite (Wz_word_bit k) by done. rewrite (Wz_word_bit k) by done. by rewrite lxor_cancel.
Qed.

Lemma Wtab_nth ro :
  (ro < 6)%nat -> exists c n, nth_error Wtab ro = Some (c, n) /\ Wz_ok (Z.of_nat ro) c n.
Proof.
  intros Hro. pose proof Wtab_ok as H. rewrite forallb_forall in H.
  specialize (H ro ltac:(apply in_seq; lia)). destruct (nth ro Wtab (0, 0)) as [c n] eqn:E.
  exists c, n. split; [|by apply Wz_okb_ok]. rewrite <- E. apply nth_error_nth'. simpl. lia.
Qed.

Lemma W_inj_on ro : (ro < 7)%nat -> inj_on (wf_arr 64 2) (W ro).
Proof.
  intros Hro. unfold W. destruct (decide (ro = 6%nat)) as [->|Hne].
  - apply (inj_on_inv _ _ W6); intros x [Hx Wx];
      do 2 (destruct x as [|? x]; [discriminate Hx|]); (destruct x; [|discriminate Hx]); [|done].
    repeat match goal with H : words _ (_ :: _) |- _ => apply Forall_cons in H as [? H] end.
    split; [done|]. by repeat apply List.Forall_cons; try apply List.Forall_nil.
  - destruct (Wtab_nth ro) as (c & n & -> & Hok); [lia|].
    apply (inj_on_inv _ _ (Wz c n)); intros x [Hx Wx];
      do 2 (destruct x as [|? x]; [discriminate Hx|]); (destruct x; [|discriminate Hx]);
      repeat match goal with H : words _ (_ :: _) |- _ => apply Forall_cons in H as [? H] end.
    + split; [done|]. unfold Wz. cbn [nth].
      repeat apply List.Forall_cons; try apply List.Forall_nil;
        apply (Wz_word_word (Z.of_nat ro)); (done || lia).
    + unfold Wz. cbn [nth]. by rewrite !(Wz_word_invol (Z.of_nat ro)) by (done || lia).
Qed.

(** ** The compression function is a permutation *)

Lemma C64e_word x : word 64 x -> word 64 (C64e x).
Proof.
  intros Hx. unfold C64e. repeat apply word_lor; auto with words; apply word_land_r; auto with words.
Qed.

Lemma C_words : words 64 C.
Proof.
  unfold C. apply Forall_fmap. eapply Forall_impl; [|intros x; apply C64e_word].
  repeat apply List.Forall_cons; try apply List.Forall_nil; auto with words.
Qed.

Lemma S_macro_inj_on xs chi clo :
  length xs = 4%nat -> indices_ok 16 (hi_of xs) = true -> indices_ok 16 (lo_of xs) = true ->
  word 64 chi -> word 64 clo -> inj_on (wf_arr 64 16) (S_macro xs chi clo).
Proof.
  intros Hl H1 H2 Hc1 Hc2. unfold S_macro.
  apply (inj_on_compose _ (fun H => assign (hi_of xs) (Sb chi (sel (hi_of xs) H)) H)
    (fun H => assign (lo_of xs) (Sb clo (sel (lo_of xs) H)) H)).
  - apply assign_inj_on; [lia|done|]. unfold hi_of. rewrite length_fmap, Hl. by apply Sb_inj_on.
  - apply assign_inj_on; [lia|done|]. unfold lo_of. rewrite length_fmap, Hl. by apply Sb_inj_on.
Qed.

Lemma L_macro_inj_on : inj_on (wf_arr 64 16) (L_macro [0; 2; 4; 6; 1; 3; 5; 7]%nat).
Proof.
  unfold L_macro. set (xs := [0; 2; 4; 6; 1; 3; 5; 7]%nat).
  apply (inj_on_compose _ (fun H => assign (hi_of xs) (Lb (sel (hi_of xs) H)) H)
    (fun H => assign (lo_of xs) (Lb (sel (lo_of xs) H)) H));
    (apply assign_inj_on; [lia|reflexivity|exact Lb_inj_on]).
Qed.

Lemma W_var_inj_on ro x : (ro < 7)%nat -> (x < 8)%nat -> inj_on (wf_arr 64 16) (W_var ro x).
Proof.
  intros Hro Hx. unfold W_var. apply assign_inj_on; [lia| |by apply W_inj_on].
  do 8 (destruct x as [|x]; [reflexivity|]). lia.
Qed.

Lemma SLu_inj_on r ro : (ro < 7)%nat -> inj_on (wf_arr 64 16) (SLu r ro).
Proof.
  intros Hro. assert (forall i, word 64 C.[i]) as HC by (intros; apply words_nth; [lia|apply C_words]).
  unfold SLu. cbv zeta.
  apply (inj_on_compose _ _ (W_var ro 7)); [|by apply W_var_inj_on; [|lia]].
  apply (inj_on_compose _ _ (W_var ro 5)); [|by apply W_var_inj_on; [|lia]].
  apply (inj_on_compose _ _ (W_var ro 3)); [|by apply W_var_inj_on; [|lia]].
  apply (inj_on_compose _ _ (W_var ro 1)); [|by apply W_var_inj_on; [|lia]].
  apply (inj_on_compose _ _ (L_macro _)); [|apply L_macro_inj_on].
  apply (inj_on_compose _ (S_macro _ _ _) (S_macro _ _ _)); apply S_macro_inj_on; try reflexivity; apply HC.
Qed.

Lemma SLu_calls_range : forallb (fun '(r, ro) => (ro <? 7)%nat) SLu_calls = true.
Proof. vm_compute. reflexivity. Qed.

Lemma E8_inj_on : inj_on (wf_arr 64 16) E8.
Proof.
  apply inj_on_fold. intros [r ro] Hin. apply SLu_inj_on. pose proof SLu_calls_range as H.
  rewrite forallb_forall in H. apply list_elem_of_In, H, Nat.ltb_lt in Hin. done.
Qed.

Lemma INPUT_inj_on p m :
  length p = 8%nat -> indices_ok 16 p = true -> wf_arr 64 8 m ->
  inj_on (wf_arr 64 16) (fun H => assign p (lxor_list (sel p H) m) H).
Proof.
  intros Hp Hi Hm. apply (assign_inj_on 64 16 p (fun A => lxor_list A m)); [lia|done|].
  rewrite Hp. by apply lxor_inj_on.
Qed.

Lemma jh_message_wf blk : words 8 blk -> wf_arr 64 8 (jh_message blk).
Proof.
  intros H. split; [reflexivity|]. apply Forall_fmap, Forall_true. intros i.
  apply sph_dec64le_word. auto with words.
Qed.

Lemma jh_block_inj_on blk :
  words 8 blk -> inj_on (wf_arr 64 16) (fun H => jh_H (jh_block (mk_jh H 0) blk)).
Proof.
  intros Hb. pose proof (jh_message_wf blk Hb) as Hm. unfold jh_block. cbn [jh_H].
  apply (inj_on_compose _ _ (INPUT_BUF2 (jh_message blk))); [|by apply INPUT_inj_on].
  apply (inj_on_compose _ _ E8); [|apply E8_inj_on]. by apply INPUT_inj_on.
Qed.

(** ** Digests *)

Module Spec.
(** The marker byte, zeros, the bit length over 16 bytes: one block when the
    message ends at a block boundary, two blocks otherwise. *)
Definition pad (msg : list Z) (n mb : Z) : list Z :=
  let p := (length msg mod 64)%nat in
  let zeros := if (p =? 0)%nat && (n =? 0) then 47%nat else (111 - p)%nat in
  let tot := 8 * Z.of_nat (length msg) + n in
  mb :: replicate zeros 0 ++ sph_enc64be (tot / 2 ^ 64) ++ sph_enc64be (tot mod 2 ^ 64).

Definition absorb (H blk : list Z) : list Z :=
  let m := sph_dec64le <$> blocks 8 blk in
  INPUT_BUF2 m (E8 (INPUT_BUF1 m H)).
(** The last [32 * w] bits of the final state. *)
Definition hash (iv msg : list Z) (n mb : Z) (w : nat) : list Z :=
  let H := fold_left absorb (blocks 64 (msg ++ pad msg n mb)) iv in
  take (4 * w) (drop (4 * (16 - w)) (concat (sph_enc64le <$> take 8 (drop 8 H)))).

(** The state before the first block: the digest size in the first two
    bytes; the initial value is its image under an all-zero block. *)
Definition iv (bits : Z) : list Z :=
  absorb (sph_dec64le [bits / 256; bits mod 256; 0; 0; 0; 0; 0; 0] :: replicate 15 0) (replicate 64 0).
End Spec.

Lemma jh_block_absorb s blk :
  length blk = 64%nat ->
  jh_block s blk = mk_jh (Spec.absorb (jh_H s) blk) (SPH_T64 (jh_block_count s + 1)).
Proof.
  intros Hb. unfold jh_block, Spec.absorb, jh_message, blocks. cbv zeta. rewrite Hb.
  by rewrite (dec_blocks _ _ 8 _ dec64le_take).
Qed.

Lemma fold_jh_block iv msg c :
  let s := fold_left jh_block (blocks 64 msg) (mk_jh iv c) in
  jh_H s = fold_left Spec.absorb (blocks 64 msg) iv.
Proof.
  apply (fold_left_sim (fun s H => jh_H s = H)); [done|]. intros s H blk Hin <-.
  rewrite jh_block_absorb; [done|].
  eapply Forall_forall in Hin; [|apply (blocks_length 64); lia]. exact Hin.
Qed.

Lemma fold_block_count iv msg :
  jh_block_count (fold_left jh_block (blocks 64 msg) (mk_jh iv 0)) =
  Z.of_nat (length msg / 64) mod 2 ^ 64.
Proof.
  rewrite <- (length_blocks 64 msg). generalize (blocks 64 msg) as l. intros l.
  induction l as [|b l IH] using rev_ind; [done|].
  rewrite fold_left_app, length_app. cbn [fold_left length]. unfold jh_block at 1.
  cbn [jh_block_count]. rewrite IH, T64_mod, Zplus_mod_idemp_l. f_equal. lia.
Qed.

(** The length the closing function encodes. *)
Lemma close_length len n :
  Z.of_nat len < 2 ^ 70 -> 0 <= n <= 7 ->
  let bc := Z.of_nat (len / 64) mod 2 ^ 64 in
  let tot := 8 * Z.of_nat len + n in
  SPH_T64 (bc >> 55) = tot / 2 ^ 64 /\
  SPH_T64 (SPH_T64 (bc << 9) + (Z.of_nat (len mod 64) << 3) + n) = tot mod 2 ^ 64.
Proof.
  intros Hlen Hn. cbv zeta. pose proof (Nat.div_mod_eq len 64) as Hd.
  pose proof (Nat.mod_upper_bound len 64 ltac:(lia)) as Hm.
  set (q := (len / 64)%nat) in *. set (r := (len mod 64)%nat) in *.
  rewrite Z.mod_small by lia. rewrite !T64_mod, Z.shiftr_div_pow2, !Z.shiftl_mul_pow2 by lia.
  assert (8 * Z.of_nat len + n = Z.of_nat q * 2 ^ 9 + (Z.of_nat r * 2 ^ 3 + n)) as -> by lia.
  split.
  - rewrite Z.mod_small.
    + symmetry. change (2 ^ 64) with (2 ^ 9 * 2 ^ 55). rewrite <- Z.div_div by lia.
      rewrite Z.div_add_l, (Z.div_small (_ + n)) by lia. by rewrite Z.add_0_r.
    + split; [apply Z.div_pos; lia|]. apply Z.div_lt_upper_bound; lia.
  - rewrite <- Z.add_assoc. by rewrite Zplus_mod_idemp_l.
Qed.

Lemma jh_close_spec iv iv' msg sc ub n out :
  repr 64 jh_block (mk_jh iv 0) msg sc -> Z.of_nat (length msg) < 2 ^ 70 -> 0 <= n <= 7 ->
  fst (jh_close sc ub n out iv') = Spec.hash iv msg n (mark_byte ub n) out.
Proof.
  intros Hr Hlen Hn. pose proof (proj1 (proj2 Hr)) as Hp.
  pose proof (proj2 (proj2 (proj2 Hr))) as Hs.
  unfold jh_close. cbv zeta. cbn [fst]. rewrite Hs, fold_block_count, Hp.
  destruct (close_length (length msg) n Hlen Hn) as [-> ->].
  change (((ub .& SPH_T32 (- (0x80 >> n))) .| (0x80 >> n)) .& 0xFF) with (mark_byte ub n).
  change (mark_byte ub n :: _) with (Spec.pad msg n (mark_byte ub n)).
  apply (core_repr 64 _ ltac:(lia) _ _ _ (Spec.pad msg n (mark_byte ub n))) in Hr.
  unfold jh_core. destruct Hr as (_ & _ & _ & ->). by rewrite fold_jh_block.
Qed.

Lemma E8_generic (f : nat -> nat -> list Z -> list Z) H :
  fold_left (fun H r => fold_left (fun H ro => f (r + ro)%nat ro H) (seq 0 7) H)
    [0; 7; 14; 21; 28; 35]%nat H =
  fold_left (fun H '(r, ro) => f r ro H) SLu_calls H.
Proof. reflexivity. Qed.

(** The round is unfolded last when terms are compared. *)
Strategy 100 [SLu].
Strategy expand [E8 E8_small].

(** ** Main results *)

(** What the bit-sliced macros compute on every one of the 64 columns: [Sb]
    applies the S-box that the round constant's bit selects, [Lb] multiplies a
    pair of nibbles by the MDS code over GF(16). *)
Theorem jh_bitslice c x i :
  0 <= i < 64 ->
  nibble (Sb c x) 0 i = Ref.sbox (Z.testbit c i) (nibble x 0 i) /\
  (nibble (Lb x) 0 i, nibble (Lb x) 4 i) = Ref.mds (nibble x 0 i, nibble x 4 i).
Proof. intros Hi. split; [by apply Sb_nibble|apply Lb_nibble; lia]. Qed.

Lemma jh_bitslice_witness :
  let x := [5; 1; 7; 2; 4; 6; 1; 3] in
  nibble (Sb 2 x) 0 1 = Ref.sbox true (nibble x 0 1) /\
  nibble (Sb 2 x) 0 0 = Ref.sbox false (nibble x 0 0).
Proof.
  split.
  - destruct (jh_bitslice 2 [5; 1; 7; 2; 4; 6; 1; 3] 1 ltac:(lia)) as [-> _]. reflexivity.
  - destruct (jh_bitslice 2 [5; 1; 7; 2; 4; 6; 1; 3] 0 ltac:(lia)) as [-> _]. reflexivity.
Defined.

(** The compression function is injective on chaining states for every message
    block: the 42 rounds and the two message additions lose nothing. *)
Theorem jh_compression_injective blk H H' :
  words 8 blk -> wf_arr 64 16 H -> wf_arr 64 16 H' ->
  jh_H (jh_block (mk_jh H 0) blk) = jh_H (jh_block (mk_jh H' 0) blk) -> H = H'.
Proof. intros Hb HH HH'. by apply (jh_block_inj_on blk Hb). Qed.

Lemma jh_compression_injective_witness :
  let H i := <[3%nat := i]> (replicate 16 1) in
  jh_H (jh_block (mk_jh (H 5) 0) (replicate 64 2)) <> jh_H (jh_block (mk_jh (H 6) 0) (replicate 64 2)).
Proof.
  intros H Heq. discriminate (jh_compression_injective (replicate 64 2) (H 5) (H 6));
    [..|exact Heq]; try (split; [reflexivity|]); unfold word; repeat constructor; lia.
Defined.

(** The loop of the small footprint, which swaps inside words by a table of
    round constants, and the 42 unrolled calls compute the same permutation. *)
Theorem jh_E8_variants_agree H : E8_small H = E8 H.
Proof. apply E8_generic. Qed.

(** The four tables of initial values are what the specification derives: one
    compression of a zero block from the state that holds the digest size. *)
Theorem jh_initial_values :
  IV224 = Spec.iv 224 /\ IV256 = Spec.iv 256 /\ IV384 = Spec.iv 384 /\ IV512 = Spec.iv 512.
Proof. split_and!; symmetry; apply list_eqb_eq; vm_compute; reflexivity. Qed.

(** The digest of a message of fewer than [2^70] bytes fed to JH in any chunks
    and closed with [n] further bits: the padding always ends in the 128-bit
    length, taking one block when the buffer is empty and two otherwise, and the
    digest is the last [4 * out] bytes of the state. *)
Theorem jh_digest cc iv iv' ds ub n out :
  length (buf cc) = 64%nat -> Z.of_nat (length (concat ds)) < 2 ^ 70 -> 0 <= n <= 7 ->
  fst (jh_close (fold_left jh_core ds (jh_init cc iv)) ub n out iv') =
  Spec.hash iv (concat ds) n (mark_byte ub n) out.
Proof.
  intros Hb Hlen Hn. apply jh_close_spec; [|done|done].
  apply (init_core_repr 64 jh_block); lia.
Qed.

Lemma jh_digest_witness :
  fst (jh_close (fold_left jh_core [[]] (jh_init (mk_ctx (replicate 64 9) 0 (mk_jh [] 0)) IV512))
    0 0 16 IV512) =
  be_bytes 64 0x90ECF2F76F9D2C8017D979AD5AB96B87D58FC8FC4B83060F3F900774FAA2C8FABE69C5F4FF1EC2B61D6B316941CEDEE117FB04B1F4C5BC1B919AE841C50EEC4F.
Proof.
  rewrite jh_digest by (reflexivity || (simpl; lia)). apply list_eqb_eq. vm_compute. reflexivity.
Defined.
