(* ===== verification/Keccak.v ===== *)
(** * keccak.c: Keccak-224, Keccak-256, Keccak-384 and Keccak-512

    The 64-bit implementation ([SPH_KECCAK_64], with [SPH_KECCAK_NOCOPY]): the
    macros [THETA], [RHO], [KHI], [IOTA], the permutations of variables [P0] to
    [P23] that replace the pi step, the moves [P1_TO_P0] to [P12_TO_P0], and
    [KECCAK_F_1600] for every value of [SPH_KECCAK_UNROLL].  The state is
    [kc->u.wide], where [aXY] is the word of index [X + 5 * Y].  *)

From Stdlib Require Import ZArith Lia Btauto.
From stdpp Require Import base tactics numbers list.
From S2P Require Import Prelude SphTypes Stream.

(** The arguments of the macros: [Ptab], row r, lists the words that [P]r binds to
    [b00], [b01], ..., [b44]. *)
Definition Ptab : list (list nat) := [
  [0; 5; 10; 15; 20; 1; 6; 11; 16; 21; 2; 7; 12; 17; 22; 3; 8; 13; 18; 23; 4; 9; 14; 19; 24];
  [0; 3; 1; 4; 2; 6; 9; 7; 5; 8; 12; 10; 13; 11; 14; 18; 16; 19; 17; 15; 24; 22; 20; 23; 21];
  [0; 18; 6; 24; 12; 9; 22; 10; 3; 16; 13; 1; 19; 7; 20; 17; 5; 23; 11; 4; 21; 14; 2; 15; 8];
  [0; 17; 9; 21; 13; 22; 14; 1; 18; 5; 19; 6; 23; 10; 2; 11; 3; 15; 7; 24; 8; 20; 12; 4; 16];
  [0; 11; 22; 8; 19; 14; 20; 6; 17; 3; 23; 9; 15; 1; 12; 7; 18; 4; 10; 21; 16; 2; 13; 24; 5];
  [0; 7; 14; 16; 23; 20; 2; 9; 11; 18; 15; 22; 4; 6; 13; 10; 17; 24; 1; 8; 5; 12; 19; 21; 3];
  [0; 10; 20; 5; 15; 2; 12; 22; 7; 17; 4; 14; 24; 9; 19; 1; 11; 21; 6; 16; 3; 13; 23; 8; 18];
  [0; 1; 2; 3; 4; 12; 13; 14; 10; 11; 24; 20; 21; 22; 23; 6; 7; 8; 9; 5; 18; 19; 15; 16; 17];
  [0; 6; 12; 18; 24; 13; 19; 20; 1; 7; 21; 2; 8; 14; 15; 9; 10; 16; 22; 3; 17; 23; 4; 5; 11];
  [0; 9; 13; 17; 21; 19; 23; 2; 6; 10; 8; 12; 16; 20; 4; 22; 1; 5; 14; 18; 11; 15; 24; 3; 7];
  [0; 22; 19; 11; 8; 23; 15; 12; 9; 1; 16; 13; 5; 2; 24; 14; 6; 3; 20; 17; 7; 4; 21; 18; 10];
  [0; 14; 23; 7; 16; 15; 4; 13; 22; 6; 5; 19; 3; 12; 21; 20; 9; 18; 2; 11; 10; 24; 8; 17; 1];
  [0; 20; 15; 10; 5; 4; 24; 19; 14; 9; 3; 23; 18; 13; 8; 2; 22; 17; 12; 7; 1; 21; 16; 11; 6];
  [0; 2; 4; 1; 3; 24; 21; 23; 20; 22; 18; 15; 17; 19; 16; 12; 14; 11; 13; 10; 6; 8; 5; 7; 9];
  [0; 12; 24; 6; 18; 21; 8; 15; 2; 14; 17; 4; 11; 23; 5; 13; 20; 7; 19; 1; 9; 16; 3; 10; 22];
  [0; 13; 21; 9; 17; 8; 16; 4; 12; 20; 11; 24; 7; 15; 3; 19; 2; 10; 23; 6; 22; 5; 18; 1; 14];
  [0; 19; 8; 22; 11; 16; 5; 24; 13; 2; 7; 21; 10; 4; 18; 23; 12; 1; 15; 9; 14; 3; 17; 6; 20];
  [0; 23; 16; 14; 7; 5; 3; 21; 19; 12; 10; 8; 1; 24; 17; 15; 13; 6; 4; 22; 20; 18; 11; 9; 2];
  [0; 15; 5; 20; 10; 3; 18; 8; 23; 13; 1; 16; 6; 21; 11; 4; 19; 9; 24; 14; 2; 17; 7; 22; 12];
  [0; 4; 3; 2; 1; 18; 17; 16; 15; 19; 6; 5; 9; 8; 7; 24; 23; 22; 21; 20; 12; 11; 10; 14; 13];
  [0; 24; 18; 12; 6; 17; 11; 5; 4; 23; 9; 3; 22; 16; 10; 21; 15; 14; 8; 2; 13; 7; 1; 20; 19];
  [0; 21; 17; 13; 9; 11; 7; 3; 24; 15; 22; 18; 14; 5; 1; 8; 4; 20; 16; 12; 19; 10; 6; 2; 23];
  [0; 8; 11; 19; 22; 7; 10; 18; 21; 4; 14; 17; 20; 3; 6; 16; 24; 2; 5; 13; 23; 1; 9; 12; 15];
  [0; 16; 7; 23; 14; 10; 1; 17; 8; 24; 20; 11; 2; 18; 9; 5; 21; 12; 3; 19; 15; 6; 22; 13; 4]]%nat.
(** The [MOV64] sequences, destination first; index 25 is the temporary [t]. *)
Definition P1_TO_P0_moves : list (nat * nat) := [(25, 5); (5, 3); (3, 18); (18, 17); (17, 11); (11, 
7); (7, 10); (10, 1); (1, 6); (6, 9); (9, 22); (22, 14); (14, 20); (20, 2); (2, 12); (12, 13); (13, 
19); (19, 23); (23, 15); (15, 4); (4, 24); (24, 21); (21, 8); (8, 16); (16, 25)]%nat.
Definition P2_TO_P0_moves : list (nat * nat) := [(25, 5); (5, 18); (18, 11); (11, 10); (10, 6); (6, 
22); (22, 20); (20, 12); (12, 19); (19, 15); (15, 24); (24, 8); (8, 25); (25, 1); (1, 9); (9, 14); 
(14, 2); (2, 13); (13, 23); (23, 4); (4, 21); (21, 16); (16, 3); (3, 17); (17, 7); (7, 25)]%nat.
Definition P4_TO_P0_moves : list (nat * nat) := [(25, 5); (5, 11); (11, 6); (6, 20); (20, 19); (19, 
24); (24, 25); (25, 10); (10, 22); (22, 12); (12, 15); (15, 8); (8, 18); (18, 25); (25, 1); (1, 
14); (14, 13); (13, 4); (4, 16); (16, 17); (17, 25); (25, 21); (21, 3); (3, 7); (7, 9); (9, 2); (2, 
23); (23, 25)]%nat.
Definition P6_TO_P0_moves : list (nat * nat) := [(25, 5); (5, 10); (10, 20); (20, 15); (15, 25); 
(25, 1); (1, 2); (2, 4); (4, 3); (3, 25); (25, 6); (6, 12); (12, 24); (24, 18); (18, 25); (25, 11); 
(11, 22); (22, 19); (19, 8); (8, 25); (25, 16); (16, 7); (7, 14); (14, 23); (23, 25); (25, 21); 
(21, 17); (17, 9); (9, 13); (13, 25)]%nat.
Definition P8_TO_P0_moves : list (nat * nat) := [(25, 5); (5, 6); (6, 19); (19, 25); (25, 10); (10, 
12); (12, 8); (8, 25); (25, 15); (15, 18); (18, 22); (22, 25); (25, 20); (20, 24); (24, 11); (11, 
25); (25, 1); (1, 13); (13, 16); (16, 25); (25, 21); (21, 7); (7, 2); (2, 25); (25, 17); (17, 14); 
(14, 4); (4, 25); (25, 3); (3, 9); (9, 23); (23, 25)]%nat.
Definition P12_TO_P0_moves : list (nat * nat) := [(25, 5); (5, 20); (20, 25); (25, 10); (10, 15); 
(15, 25); (25, 1); (1, 4); (4, 25); (25, 6); (6, 24); (24, 25); (25, 11); (11, 19); (19, 25); (25, 
16); (16, 14); (14, 25); (25, 21); (21, 9); (9, 25); (25, 2); (2, 3); (3, 25); (25, 7); (7, 23); 
(23, 25); (25, 12); (12, 18); (18, 25); (25, 17); (17, 13); (13, 25); (25, 22); (22, 8); (8, 
25)]%nat.
Definition RC : list Z := [0x0000000000000001; 0x0000000000008082; 0x800000000000808A; 
0x8000000080008000; 0x000000000000808B; 0x0000000080000001; 0x8000000080008081; 0x8000000000008009; 
0x000000000000008A; 0x0000000000000088; 0x0000000080008009; 0x000000008000000A; 0x000000008000808B; 
0x800000000000008B; 0x8000000000008089; 0x8000000000008003; 0x8000000000008002; 0x8000000000000080; 
0x000000000000800A; 0x800000008000000A; 0x8000000080008081; 0x8000000000008080; 0x0000000080000001; 
0x8000000080008008].

(** [sel p A] reads the variables [p] and [assign p v A] stores [v] in them. *)

(** [TH_ELT] on the columns [c] and [d]. *)
Definition TH_ELT (c d : list Z) : Z :=
  let tt0 := d.[0] ⊕ d.[1] in
  let tt1 := d.[2] ⊕ d.[3] in
  let tt0 := tt0 ⊕ d.[4] in
  let tt0 := tt0 ⊕ tt1 in
  let tt0 := SPH_ROTL64 tt0 1 in
  let tt2 := c.[0] ⊕ c.[1] in
  let tt3 := c.[2] ⊕ c.[3] in
  let tt0 := tt0 ⊕ c.[4] in
  let tt2 := tt2 ⊕ tt3 in
  tt0 ⊕ tt2.

(** The words [bX0] to [bX4] among the 25 arguments of a macro. *)
Definition col (x : nat) (L : list Z) : list Z := take 5 (drop (5 * x) L).

(** What [THETA], [RHO] and [KHI] compute from their 25 arguments. *)
Definition theta (L : list Z) : list Z :=
  let t0 := TH_ELT (col 4 L) (col 1 L) in
  let t1 := TH_ELT (col 0 L) (col 2 L) in
  let t2 := TH_ELT (col 1 L) (col 3 L) in
  let t3 := TH_ELT (col 2 L) (col 4 L) in
  let t4 := TH_ELT (col 3 L) (col 0 L) in
  ((fun b => b ⊕ t0) <$> col 0 L) ++ ((fun b => b ⊕ t1) <$> col 1 L) ++
  ((fun b => b ⊕ t2) <$> col 2 L) ++ ((fun b => b ⊕ t3) <$> col 3 L) ++
  ((fun b => b ⊕ t4) <$> col 4 L).

Definition rho_offsets : list Z :=
  [36; 3; 41; 18; 1; 44; 10; 45; 2; 62; 6; 43; 15; 61; 28; 55; 25; 21; 56; 27; 20; 39; 8; 14].
Definition rho (L : list Z) : list Z :=
  match L with
  | b00 :: L => b00 :: zip_with SPH_ROTL64 L rho_offsets
  | [] => []
  end.

Definition KHI_XO (a b c : Z) : Z := a ⊕ (b .| c).
Definition KHI_XA (a b c : Z) : Z := a ⊕ (b .& c).

(** The five words [b0Y] to [b4Y], for each [Y]. *)
Definition khi_row (y : nat) (b0 b1 b2 b3 b4 : Z) : list Z :=
  match y with
  | 0 => let bnn := not64 b2 in
         [KHI_XO b0 b1 b2; KHI_XO b1 bnn b3; KHI_XA b2 b3 b4; KHI_XO b3 b4 b0; KHI_XA b4 b0 b1]
  | 1 => let bnn := not64 b4 in
         [KHI_XO b0 b1 b2; KHI_XA b1 b2 b3; KHI_XO b2 b3 bnn; KHI_XO b3 b4 b0; KHI_XA b4 b0 b1]
  | 2 => let bnn := not64 b3 in
         [KHI_XO b0 b1 b2; KHI_XA b1 b2 b3; KHI_XA b2 bnn b4; KHI_XO bnn b4 b0; KHI_XA b4 b0 b1]
  | 3 => let bnn := not64 b3 in
         [KHI_XA b0 b1 b2; KHI_XO b1 b2 b3; KHI_XO b2 bnn b4; KHI_XA bnn b4 b0; KHI_XO b4 b0 b1]
  | _ => let bnn := not64 b1 in
         [KHI_XA b0 bnn b2; KHI_XO bnn b2 b3; KHI_XA b2 b3 b4; KHI_XO b3 b4 b0; KHI_XA b4 b0 b1]
  end%nat.

(** The rows [r0] to [r4] back in the order of the arguments. *)
Definition by_cols (r0 r1 r2 r3 r4 : list Z) : list Z :=
  [r0.[0]; r1.[0]; r2.[0]; r3.[0]; r4.[0]; r0.[1]; r1.[1]; r2.[1]; r3.[1]; r4.[1];
   r0.[2]; r1.[2]; r2.[2]; r3.[2]; r4.[2]; r0.[3]; r1.[3]; r2.[3]; r3.[3]; r4.[3];
   r0.[4]; r1.[4]; r2.[4]; r3.[4]; r4.[4]].
Definition rows_with (f : nat -> Z -> Z -> Z -> Z -> Z -> list Z) (L : list Z) : list Z :=
  let row y := f y L.[y] L.[5 + y] L.[10 + y] L.[15 + y] L.[20 + y] in
  by_cols (row 0%nat) (row 1%nat) (row 2%nat) (row 3%nat) (row 4%nat).
Definition khi : list Z -> list Z := rows_with khi_row.

Definition THETA (p : list nat) (A : list Z) : list Z := assign p (theta (sel p A)) A.
Definition RHO (p : list nat) (A : list Z) : list Z := assign p (rho (sel p A)) A.
Definition KHI (p : list nat) (A : list Z) : list Z := assign p (khi (sel p A)) A.
Definition IOTA (r : Z) (A : list Z) : list Z := <[0%nat := A.[0] ⊕ r]> A.

Definition P (r : nat) : list nat := nth r Ptab [].
Definition KF_ELT (r s : nat) (k : Z) (A : list Z) : list Z :=
  IOTA k (KHI (P s) (RHO (P r) (THETA (P r) A))).

(** [P1_TO_P0] and the others. *)
Definition run_moves (moves : list (nat * nat)) (A : list Z) : list Z :=
  take 25 (fold_left (fun A ds => <[fst ds := A.[snd ds]]> A) moves (A ++ [0])).
Definition to_P0 (unroll : nat) : list (nat * nat) :=
  match unroll with
  | 1 => P1_TO_P0_moves
  | 2 => P2_TO_P0_moves
  | 4 => P4_TO_P0_moves
  | 6 => P6_TO_P0_moves
  | 8 => P8_TO_P0_moves
  | _ => P12_TO_P0_moves
  end%nat.

(** The body of the loop: rounds [j] to [j + unroll - 1], then the moves. *)
Definition KF_body (unroll j : nat) (A : list Z) : list Z :=
  run_moves (to_P0 unroll)
    (fold_left (fun A i => KF_ELT i (S i) RC.[j + i] A) (seq 0 unroll) A).

(** [KECCAK_F_1600_] for [SPH_KECCAK_UNROLL] of 1, 2, 4, 6, 8 and 12:
    [for (j = 0; j < 24; j += unroll)]; and for 0, the 24 rounds in a row. *)
Definition KECCAK_F_1600_loop (unroll : nat) (A : list Z) : list Z :=
  fold_left (fun A i => KF_body unroll (unroll * i) A) (seq 0 (24 / unroll)) A.
Definition KECCAK_F_1600_full (A : list Z) : list Z :=
  fold_left (fun A r => KF_ELT r (if (r =? 23)%nat then 0%nat else S r) RC.[r] A) (seq 0 24) A.

(** The default: [SPH_KECCAK_UNROLL] is 8. *)
Definition KECCAK_F_1600 : list Z -> list Z := KECCAK_F_1600_loop 8.

(** [INPUT_BUF(size)]: [size / 8] words of the buffer added to the state. *)
Fixpoint xor_words (A W : list Z) : list Z :=
  match A, W with
  | a :: A, w :: W => (a ⊕ w) :: xor_words A W
  | A, _ => A
  end.
Definition INPUT_BUF (size : nat) (buf A : list Z) : list Z :=
  xor_words A ((fun j => sph_dec64le (drop (8 * j) buf)) <$> seq 0 (size / 8)).

(** [u.wide] and [lim]; [lim] is only written. *)
Record keccak_state : Type := mk_keccak { wide : list Z; k_lim : nat }.
Definition sph_keccak_context : Type := stream_ctx keccak_state.

(** The words of index 1, 2, 8, 12, 17 and 20 are kept complemented. *)
Definition lane_complement : list nat := [1; 2; 8; 12; 17; 20]%nat.

Definition keccak_init (kc : sph_keccak_context) (out_size : nat) : sph_keccak_context :=
  let w := replicate 25 0 in
  let w := fold_left (fun w i => <[i := 0xFFFFFFFFFFFFFFFF]> w) lane_complement w in
  mk_ctx (buf kc) 0 (mk_keccak w (200 - out_size / 4)).

Definition keccak_block (lim : nat) (s : keccak_state) (buf : list Z) : keccak_state :=
  mk_keccak (KECCAK_F_1600 (INPUT_BUF lim buf (wide s))) (k_lim s).
Definition keccak_core (kc : sph_keccak_context) (data : list Z) (lim : nat) :=
  core lim (keccak_block lim) kc data.

(** [DEFCLOSE(d, lim)]: the bytes of [u.tmp], the core, the final complement,
    the digest, the re-initialisation. *)
Definition keccak_close (d lim : nat) (kc : sph_keccak_context) (ub n : Z) :
    list Z * sph_keccak_context :=
  let eb := (0x100 .| (ub .& 0xFF)) >> (8 - n) in
  let tmp :=
    if (ptr kc =? lim - 1)%nat then
      if n =? 7 then uchar eb :: replicate (lim - 1) 0 ++ [0x80]
      else [uchar (eb .| 0x80)]
    else
      let j := (lim - ptr kc)%nat in
      uchar eb :: replicate (j - 2) 0 ++ [0x80] in
  let kc := keccak_core kc tmp lim in
  let w := fold_left (fun w i => <[i := not64 w.[i]]> w) lane_complement (wide (st kc)) in
  let tmp := concat (sph_enc64le <$> take ((d + 7) / 8) w) in
  (take d tmp, keccak_init kc (8 * d)).

(** Keccak-224. *)
Definition sph_keccak224_init (cc : sph_keccak_context) := keccak_init cc 224.
Definition sph_keccak224 (cc : sph_keccak_context) (data : list Z) := keccak_core cc data 144.
Definition sph_keccak224_addbits_and_close (cc : sph_keccak_context) (ub n : Z) :=
  keccak_close 28 144 cc ub n.
Definition sph_keccak224_close (cc : sph_keccak_context) :=
  sph_keccak224_addbits_and_close cc 0 0.

(** Keccak-256. *)
Definition sph_keccak256_init (cc : sph_keccak_context) := keccak_init cc 256.
Definition sph_keccak256 (cc : sph_keccak_context) (data : list Z) := keccak_core cc data 136.
Definition sph_keccak256_addbits_and_close (cc : sph_keccak_context) (ub n : Z) :=
  keccak_close 32 136 cc ub n.
Definition sph_keccak256_close (cc : sph_keccak_context) :=
  sph_keccak256_addbits_and_close cc 0 0.

(** Keccak-384. *)
Definition sph_keccak384_init (cc : sph_keccak_context) := keccak_init cc 384.
Definition sph_keccak384 (cc : sph_keccak_context) (data : list Z) := keccak_core cc data 104.
Definition sph_keccak384_addbits_and_close (cc : sph_keccak_context) (ub n : Z) :=
  keccak_close 48 104 cc ub n.
Definition sph_keccak384_close (cc : sph_keccak_context) :=
  sph_keccak384_addbits_and_close cc 0 0.

(** Keccak-512. *)
Definition sph_keccak512_init (cc : sph_keccak_context) := keccak_init cc 512.
Definition sph_keccak512 (cc : sph_keccak_context) (data : list Z) := keccak_core cc data 72.
Definition sph_keccak512_addbits_and_close (cc : sph_keccak_context) (ub n : Z) :=
  keccak_close 64 72 cc ub n.
Definition sph_keccak512_close (cc : sph_keccak_context) :=
  sph_keccak512_addbits_and_close cc 0 0.

(** ** The round on the 25 arguments, and the permutations of variables *)

(** The pi step, as the renaming from [P]r to [P](r+1). *)
Definition pi_sel : list nat :=
  [0; 15; 5; 20; 10; 6; 21; 11; 1; 16; 12; 2; 17; 7; 22; 18; 8; 23; 13; 3; 24; 14; 4; 19; 9]%nat.

Definition iota (k : Z) (L : list Z) : list Z :=
  match L with b :: L => (b ⊕ k) :: L | [] => [] end.

Definition round (k : Z) (L : list Z) : list Z := iota k (khi (sel pi_sel (rho (theta L)))).

(** A list of 25 different indices below 25 that starts with [a00]. *)
Definition perm_ok (p : list nat) : bool :=
  (length p =? 25)%nat && forallb (fun i => i <? 25)%nat p && nodupb p && (nth 0 p 1 =? 0)%nat.

Lemma Ptab_ok : forallb perm_ok Ptab = true.
Proof. vm_compute. reflexivity. Qed.

Lemma Ptab_pi :
  forallb (fun r => bool_decide (P (S r) = nsel pi_sel (P r))) (seq 0 23) = true /\
  P 0 = nsel pi_sel (P 23).
Proof. split; vm_compute; reflexivity. Qed.

Lemma perm_ok_spec p :
  perm_ok p = true ->
  length p = 25%nat /\ Forall (fun i => i < 25)%nat p /\ NoDup p /\ exists q, p = 0%nat :: q.
Proof.
  unfold perm_ok. rewrite !andb_true_iff, !Nat.eqb_eq, forallb_forall.
  intros [[[Hl Hf] Hn] H0]. split_and!; [done| |by apply nodupb_NoDup|].
  - apply Forall_forall. intros x Hx%list_elem_of_In. by apply Nat.ltb_lt, Hf.
  - destruct p as [|i p]; [done|]. simpl in H0. subst. by exists p.
Qed.

Lemma P_ok r : (r < 24)%nat -> perm_ok (P r) = true.
Proof.
  intros Hr. pose proof Ptab_ok as H. rewrite forallb_forall in H. apply H.
  apply nth_In. simpl. lia.
Qed.

Lemma P_succ r : (r < 23)%nat -> P (S r) = nsel pi_sel (P r).
Proof.
  intros Hr. destruct Ptab_pi as [H _]. rewrite forallb_forall in H.
  specialize (H r). rewrite bool_decide_eq_true in H. apply H. apply in_seq. lia.
Qed.

Lemma length_col x L : length L = 25%nat -> (x < 5)%nat -> length (col x L) = 5%nat.
Proof. intros HL Hx. unfold col. rewrite length_take, length_drop. lia. Qed.

Lemma length_theta L : length L = 25%nat -> length (theta L) = 25%nat.
Proof.
  intros HL. unfold theta. cbv zeta. rewrite !length_app, !length_fmap, !length_col by lia. lia.
Qed.

Lemma length_rho L : length L = 25%nat -> length (rho L) = 25%nat.
Proof.
  intros HL. destruct L as [|b L]; [done|]. simpl in *. rewrite length_zip_with. simpl. lia.
Qed.

Lemma length_iota k L : length (iota k L) = length L.
Proof. by destruct L. Qed.

Lemma keccak_length_round k L : length (round k L) = 25%nat.
Proof. unfold round. by rewrite length_iota. Qed.

(** One [KF_ELT] is one round on the variables, seen through [P]r before and
    [P]s after. *)
Lemma KF_ELT_round r s k A :
  perm_ok (P r) = true -> perm_ok (P s) = true -> P s = nsel pi_sel (P r) ->
  length A = 25%nat ->
  sel (P s) (KF_ELT r s k A) = round k (sel (P r) A) /\ length (KF_ELT r s k A) = 25%nat.
Proof.
  intros (Hlp & Hp & Hnp & _)%perm_ok_spec (Hlq & Hq & Hnq & q & Eq)%perm_ok_spec Hs HA.
  unfold KF_ELT, IOTA, KHI, RHO, THETA. rewrite length_insert, !length_assign.
  split; [|done].
  assert (Forall (fun j => j < length A)%nat (P r)) as Hp' by by rewrite HA.
  assert (Forall (fun j => j < length A)%nat (P s)) as Hq' by by rewrite HA.
  rewrite (sel_assign (P r) (theta _))
    by (done || rewrite length_theta; rewrite ?length_sel; lia).
  set (A1 := assign (P r) (theta _) A).
  set (A2 := assign (P r) (rho _) A1).
  assert (length A1 = 25)%nat as HA1 by (unfold A1; by rewrite length_assign).
  assert (length A2 = 25)%nat as HA2 by (unfold A2; by rewrite length_assign).
  assert (sel (P s) A2 = sel pi_sel (rho (theta (sel (P r) A)))) as HA2s.
  { rewrite Hs, sel_nsel by (rewrite Hlp; by repeat constructor; lia). f_equal.
    unfold A2. apply sel_assign; [done|by rewrite HA1|].
    rewrite length_rho, Hlp; [done|]. rewrite length_theta; [done|]. by rewrite length_sel. }
  rewrite HA2s. set (K := khi _).
  assert (sel (P s) (assign (P s) K A2) = K) as HK.
  { apply sel_assign; [done|by rewrite HA2|by rewrite Hlq]. }
  set (A3 := assign (P s) K A2) in *.
  assert (length A3 = 25)%nat as HA3 by (unfold A3; by rewrite length_assign).
  unfold round. fold K. rewrite <- HK, Eq. cbn [sel fmap list_fmap iota].
  apply NoDup_cons in Hnq as [Hn0 _] || (rewrite Eq in Hnq; apply NoDup_cons in Hnq as [Hn0 _]).
  f_equal.
  - rewrite nth_insert by lia. by rewrite decide_True.
  - apply list_fmap_ext. intros i j Hj. rewrite nth_insert by lia.
    rewrite decide_False; [done|]. intros <-. apply Hn0. by eapply list_elem_of_lookup_2.
Qed.

(** ** Every unrolling computes the same permutation *)

Definition unrollings : list nat := [1; 2; 4; 6; 8; 12]%nat.

(** An array of 25 words, by its words. *)
Lemma list25 {A} (l : list A) :
  length l = 25%nat ->
  exists a0 a1 a2 a3 a4 a5 a6 a7 a8 a9 a10 a11 a12 a13 a14 a15 a16 a17 a18 a19 a20 a21 a22 a23 a24,
    l = [a0; a1; a2; a3; a4; a5; a6; a7; a8; a9; a10; a11; a12; a13; a14; a15; a16; a17; a18; a19;
         a20; a21; a22; a23; a24].
Proof.
  intros H. do 25 (destruct l as [|? l]; [done|]). destruct l; [|done]. repeat eexists.
Qed.

Ltac destruct25 A H :=
  let E := fresh "E" in
  destruct (list25 A H) as (a0 & a1 & a2 & a3 & a4 & a5 & a6 & a7 & a8 & a9 & a10 & a11 & a12 &
    a13 & a14 & a15 & a16 & a17 & a18 & a19 & a20 & a21 & a22 & a23 & a24 & E); subst A; clear H.

(** The moves bring the variables of [P]u back to those of [P0]. *)
Lemma run_moves_sel u A :
  u ∈ unrollings -> length A = 25%nat ->
  sel (P 0) (run_moves (to_P0 u) A) = sel (P u) A /\ length (run_moves (to_P0 u) A) = 25%nat.
Proof.
  intros Hu HA. destruct25 A HA. unfold unrollings in Hu.
  repeat (apply elem_of_cons in Hu as [->|Hu]; [split; reflexivity|]).
  by apply elem_of_nil in Hu.
Qed.

Lemma KF_rounds u j A :
  (u <= 23)%nat -> length A = 25%nat ->
  let A' := fold_left (fun A i => KF_ELT i (S i) RC.[j + i] A) (seq 0 u) A in
  sel (P u) A' = fold_left (fun L i => round RC.[j + i] L) (seq 0 u) (sel (P 0) A) /\
  length A' = 25%nat.
Proof.
  intros Hu HA. cbv zeta. induction u as [|u IH]; [done|].
  rewrite seq_S, !fold_left_app. destruct IH as [IH1 IH2]; [lia|].
  set (A' := fold_left _ (seq 0 u) A) in *. set (L' := fold_left _ (seq 0 u) (sel _ _)) in *.
  change (sel (P (S u)) (KF_ELT u (S u) RC.[j + u] A') = round RC.[j + u] L' /\
          length (KF_ELT u (S u) RC.[j + u] A') = 25%nat).
  rewrite <- IH1. apply KF_ELT_round; [apply P_ok; lia..|apply P_succ; lia|done].
Qed.

Definition rounds24 (L : list Z) : list Z := fold_left (fun L i => round RC.[i] L) (seq 0 24) L.

Lemma KECCAK_F_loop_rounds u A :
  u ∈ unrollings -> length A = 25%nat ->
  sel (P 0) (KECCAK_F_1600_loop u A) = rounds24 (sel (P 0) A) /\
  length (KECCAK_F_1600_loop u A) = 25%nat.
Proof.
  intros Hu HA.
  assert (u <= 23 /\ u * (24 / u) = 24)%nat as [Hlt H24].
  { unfold unrollings in Hu.
    repeat (apply elem_of_cons in Hu as [->|Hu]; [split; [lia|reflexivity]|]).
    by apply elem_of_nil in Hu. }
  unfold KECCAK_F_1600_loop, rounds24.
  pose proof (fold_left_groups (fun i L => round RC.[i] L) u (24 / u) (sel (P 0) A)) as Hg.
  rewrite H24 in Hg. rewrite <- Hg.
  apply (fold_left_sim (fun A L => sel (P 0) A = L /\ length A = 25%nat)); [done|].
  intros A' L i _ [<- HA']. unfold KF_body.
  destruct (KF_rounds u (u * i) A' Hlt HA') as [H1 H2].
  destruct (run_moves_sel u _ Hu H2) as [H3 H4]. split; [|done]. by rewrite H3, H1.
Qed.

Lemma KECCAK_F_full_rounds A :
  length A = 25%nat ->
  sel (P 0) (KECCAK_F_1600_full A) = rounds24 (sel (P 0) A) /\
  length (KECCAK_F_1600_full A) = 25%nat.
Proof.
  intros HA. unfold KECCAK_F_1600_full, rounds24.
  rewrite (seq_S 23), !fold_left_app. destruct (KF_rounds 23 0 A) as [H1 H2]; [lia|done|].
  cbv zeta in H1, H2. cbn [Nat.add] in H1, H2.
  rewrite (fold_left_ext _ (fun A i => KF_ELT i (S i) RC.[i] A) (seq 0 23)).
  2: { intros A' r Hr%list_elem_of_In%in_seq. case Nat.eqb_spec; [lia|done]. }
  rewrite <- H1. set (A' := fold_left _ (seq 0 23) A) in *.
  change (sel (P 0) (KF_ELT 23 0 RC.[23] A') = round RC.[23] (sel (P 23) A') /\
          length (KF_ELT 23 0 RC.[23] A') = 25%nat).
  apply KF_ELT_round; [apply P_ok; lia..|apply Ptab_pi|done].
Qed.

(** The order of the arguments is its own inverse. *)
Lemma sel_P0_invol A : length A = 25%nat -> sel (P 0) (sel (P 0) A) = A.
Proof. intros HA. destruct25 A HA. reflexivity. Qed.

Lemma KECCAK_F_eq u A :
  u ∈ unrollings -> length A = 25%nat ->
  KECCAK_F_1600_loop u A = sel (P 0) (rounds24 (sel (P 0) A)).
Proof.
  intros Hu HA. destruct (KECCAK_F_loop_rounds u A Hu HA) as [H1 H2].
  by rewrite <- H1, sel_P0_invol.
Qed.

(** ** Reference: the Keccak-f[1600] permutation on lanes (x, y) *)

Module Ref.
Definition lane (A : list Z) (x y : nat) : Z := A.[x mod 5 + 5 * (y mod 5)].
Definition build (f : nat -> nat -> Z) : list Z := (fun k => f (k mod 5) (k / 5))%nat <$> seq 0 25.

Definition parity (A : list Z) (x : nat) : Z :=
  lane A x 0 ⊕ lane A x 1 ⊕ lane A x 2 ⊕ lane A x 3 ⊕ lane A x 4.
Definition theta (A : list Z) : list Z :=
  build (fun x y => lane A x y ⊕ (parity A (x + 4) ⊕ SPH_ROTL64 (parity A (x + 1)) 1)).

(** The walk (x, y) -> (y, 2x + 3y) from (1, 0) visits every lane but (0, 0);
    its step t carries the offset (t + 1)(t + 2) / 2. *)
Fixpoint rho_walk (steps t x y : nat) (x' y' : nat) : Z :=
  match steps with
  | O => 0
  | S steps =>
      if ((x =? x') && (y =? y'))%nat then Z.of_nat ((t + 1) * (t + 2) / 2) mod 64
      else rho_walk steps (S t) y ((2 * x + 3 * y) mod 5)%nat x' y'
  end.
Definition rho_offset (x y : nat) : Z := rho_walk 24 0 1 0 x y.
Definition rho (A : list Z) : list Z :=
  build (fun x y => SPH_ROTL64 (lane A x y) (rho_offset x y)).

Definition pi (A : list Z) : list Z := build (fun x y => lane A (x + 3 * y) x).
Definition chi (A : list Z) : list Z :=
  build (fun x y => lane A x y ⊕ (not64 (lane A (x + 1) y) .& lane A (x + 2) y)).

(** Bit [2^j - 1] of round constant [i] is output [j + 7 i] of the LFSR of
    polynomial x^8 + x^6 + x^5 + x^4 + 1. *)
Fixpoint lfsr (n : nat) : Z :=
  match n with
  | O => 1
  | S n => let r := lfsr n << 1 in if Z.testbit r 8 then r ⊕ 0x171 else r
  end.
Definition round_constant (i : nat) : Z :=
  fold_left (fun c j => if Z.testbit (lfsr (j + 7 * i)) 0 then c .| (1 << (2 ^ Z.of_nat j - 1)) else c)
    (seq 0 7) 0.
Definition iota (i : nat) (A : list Z) : list Z :=
  build (fun x y => if ((x =? 0) && (y =? 0))%nat then lane A x y ⊕ round_constant i else lane A x y).

Definition round (i : nat) (A : list Z) : list Z := iota i (chi (pi (rho (theta A)))).
Definition keccak_f (A : list Z) : list Z := fold_left (fun A i => round i A) (seq 0 24) A.
End Ref.

Lemma RC_reference : RC = Ref.round_constant <$> seq 0 24.
Proof. vm_compute. reflexivity. Qed.

(** The offsets of [RHO], lane (0, 0) left out, in the order of its arguments. *)
Lemma rho_offsets_reference :
  0 :: rho_offsets = (fun k => Ref.rho_offset (k / 5) (k mod 5)) <$> seq 0 25.
Proof. vm_compute. reflexivity. Qed.

(** ** The reference round in the order of the arguments *)

Definition chi_row (y : nat) (b0 b1 b2 b3 b4 : Z) : list Z :=
  [b0 ⊕ (not64 b1 .& b2); b1 ⊕ (not64 b2 .& b3); b2 ⊕ (not64 b3 .& b4);
   b3 ⊕ (not64 b4 .& b0); b4 ⊕ (not64 b0 .& b1)].
Definition ref_round (k : Z) (L : list Z) : list Z :=
  iota k (rows_with chi_row (sel pi_sel (rho (theta L)))).

Lemma TH_ELT_reference c0 c1 c2 c3 c4 d0 d1 d2 d3 d4 :
  TH_ELT [c0; c1; c2; c3; c4] [d0; d1; d2; d3; d4] =
  (c0 ⊕ c1 ⊕ c2 ⊕ c3 ⊕ c4) ⊕ SPH_ROTL64 (d0 ⊕ d1 ⊕ d2 ⊕ d3 ⊕ d4) 1.
Proof.
  unfold TH_ELT. cbn [nth]. replace (d0 ⊕ d1 ⊕ d4 ⊕ (d2 ⊕ d3)) with (d0 ⊕ d1 ⊕ d2 ⊕ d3 ⊕ d4).
  - set (t := SPH_ROTL64 _ 1). bits_intro i Hi. rewrite !Z.lxor_spec. btauto.
  - bits_intro i Hi. rewrite !Z.lxor_spec. btauto.
Qed.

Lemma theta_reference A : length A = 25%nat -> sel (P 0) (Ref.theta A) = theta (sel (P 0) A).
Proof.
  intros HA. destruct25 A HA. unfold theta. cbv zeta.
  change (sel (P 0) [a0; a1; a2; a3; a4; a5; a6; a7; a8; a9; a10; a11; a12; a13; a14; a15; a16; a17;
      a18; a19; a20; a21; a22; a23; a24])
    with [a0; a5; a10; a15; a20; a1; a6; a11; a16; a21; a2; a7; a12; a17; a22;
          a3; a8; a13; a18; a23; a4; a9; a14; a19; a24].
  cbn [col take drop Nat.mul Nat.add]. rewrite !TH_ELT_reference. reflexivity.
Qed.

Lemma length_Ref_build f : length (Ref.build f) = 25%nat.
Proof. reflexivity. Qed.

Lemma ROTL64_0 x : word 64 x -> SPH_ROTL64 x 0 = x.
Proof.
  intros Hx. unfold SPH_ROTL64, wrotl. rewrite Z.shiftl_0_r.
  replace (x >> (64 - 0)) with 0; [rewrite Z.lor_0_r; by apply T64_id|].
  symmetry. rewrite Z.shiftr_div_pow2 by lia. apply Z.div_small. exact Hx.
Qed.

Lemma rho_zip L : words 64 L -> rho L = zip_with SPH_ROTL64 L (0 :: rho_offsets).
Proof. intros HL. destruct HL as [|b L Hb HL]; [done|]. simpl. by rewrite ROTL64_0. Qed.

Lemma rho_reference A :
  length A = 25%nat -> words 64 A -> sel (P 0) (Ref.rho A) = rho (sel (P 0) A).
Proof.
  intros HA HW. rewrite rho_zip by (apply words_sel; [lia|done]). destruct25 A HA. reflexivity.
Qed.

Lemma pi_reference A : length A = 25%nat -> sel (P 0) (Ref.pi A) = sel pi_sel (sel (P 0) A).
Proof. intros HA. destruct25 A HA. reflexivity. Qed.

Lemma chi_reference A :
  length A = 25%nat -> sel (P 0) (Ref.chi A) = rows_with chi_row (sel (P 0) A).
Proof. intros HA. destruct25 A HA. reflexivity. Qed.

Lemma iota_reference i A :
  length A = 25%nat -> sel (P 0) (Ref.iota i A) = iota (Ref.round_constant i) (sel (P 0) A).
Proof. intros HA. destruct25 A HA. reflexivity. Qed.

(** *** Words stay words *)

Lemma TH_ELT_word c d : words 64 c -> words 64 d -> word 64 (TH_ELT c d).
Proof.
  intros Hc Hd. unfold TH_ELT. cbv zeta.
  repeat apply word_lxor; auto with words; by apply words_nth.
Qed.

Lemma words_col x L : words 64 L -> words 64 (col x L).
Proof. unfold col. auto with words. Qed.

Lemma words_fmap_lxor L t : words 64 L -> word 64 t -> words 64 ((fun b => b ⊕ t) <$> L).
Proof. intros HL Ht. apply Forall_fmap. eapply Forall_impl; [done|]. intros b Hb. by apply word_lxor. Qed.

Lemma theta_words L : words 64 L -> words 64 (theta L).
Proof.
  intros HL. unfold theta. cbv zeta.
  repeat apply Forall_app_2; auto using words_fmap_lxor, TH_ELT_word, words_col.
Qed.

Lemma rho_words L : words 64 L -> words 64 (rho L).
Proof.
  intros HL. rewrite rho_zip by done. generalize (0 :: rho_offsets) as offs. intros offs.
  revert offs. induction HL as [|b L Hb HL IH]; intros [|o offs]; try constructor; auto with words.
Qed.

Lemma by_cols_words r0 r1 r2 r3 r4 :
  words 64 r0 -> words 64 r1 -> words 64 r2 -> words 64 r3 -> words 64 r4 ->
  words 64 (by_cols r0 r1 r2 r3 r4).
Proof.
  intros. unfold by_cols. repeat apply List.Forall_cons; try apply List.Forall_nil;
    by apply words_nth.
Qed.

Lemma chi_row_words y b0 b1 b2 b3 b4 :
  word 64 b0 -> word 64 b1 -> word 64 b2 -> word 64 b3 -> word 64 b4 ->
  words 64 (chi_row y b0 b1 b2 b3 b4).
Proof.
  intros. unfold chi_row. repeat apply List.Forall_cons; try apply List.Forall_nil;
    (apply word_lxor; [done|]; by apply word_land_r).
Qed.

Lemma ref_round_words k L :
  word 64 k -> words 64 L -> words 64 (ref_round k L).
Proof.
  intros Hk HL. unfold ref_round.
  assert (words 64 (sel pi_sel (rho (theta L)))) as HS
    by (apply words_sel; [lia|]; auto using rho_words, theta_words).
  set (S := sel _ _) in *.
  assert (words 64 (rows_with chi_row S)) as HR
    by (apply by_cols_words; apply chi_row_words; apply words_nth; (lia || done)).
  destruct HR as [|b R Hb HR]; [constructor|]. constructor; [by apply word_lxor|done].
Qed.

Lemma RC_words : words 64 RC.
Proof. unfold RC. repeat apply List.Forall_cons; try apply List.Forall_nil; auto with words. Qed.

Lemma Ref_round_eq i A :
  (i < 24)%nat -> length A = 25%nat -> words 64 A ->
  Ref.round i A = sel (P 0) (ref_round RC.[i] (sel (P 0) A)).
Proof.
  intros Hi HA HW. rewrite <- (sel_P0_invol (Ref.round i A)) by reflexivity. f_equal.
  unfold Ref.round, ref_round. rewrite iota_reference, chi_reference, pi_reference by reflexivity.
  assert (RC.[i] = Ref.round_constant i) as ->.
  { rewrite RC_reference. rewrite (nth_indep _ 0 (Ref.round_constant 0)) by (simpl; lia).
    rewrite (map_nth Ref.round_constant). by rewrite seq_nth. }
  assert (words 64 (Ref.theta A)) as HT.
  { rewrite <- (sel_P0_invol (Ref.theta A)) by reflexivity. apply words_sel; [lia|].
    rewrite theta_reference by done. apply theta_words. by apply words_sel. }
  by rewrite rho_reference, theta_reference.
Qed.

(** ** The lane complement *)

Lemma TH_ELT_lxor c c' d d' :
  length c = length c' -> length d = length d' ->
  words 64 c -> words 64 c' -> words 64 d -> words 64 d' ->
  TH_ELT (lxor_list c c') (lxor_list d d') = TH_ELT c d ⊕ TH_ELT c' d'.
Proof.
  intros Hlc Hld Hc Hc' Hd Hd'. unfold TH_ELT. cbv zeta. rewrite !nth_lxor_list by done.
  assert (forall i, word 64 d.[i]) as Wd by (intros; by apply words_nth).
  assert (forall i, word 64 d'.[i]) as Wd' by (intros; by apply words_nth).
  set (x := d.[0] ⊕ d.[1] ⊕ d.[4] ⊕ (d.[2] ⊕ d.[3])).
  set (x' := d'.[0] ⊕ d'.[1] ⊕ d'.[4] ⊕ (d'.[2] ⊕ d'.[3])).
  replace (d.[0] ⊕ d'.[0] ⊕ (d.[1] ⊕ d'.[1]) ⊕ (d.[4] ⊕ d'.[4]) ⊕
    (d.[2] ⊕ d'.[2] ⊕ (d.[3] ⊕ d'.[3]))) with (x ⊕ x')
    by (bits_intro i Hi; unfold x, x'; rewrite !Z.lxor_spec; btauto).
  assert (SPH_ROTL64 (x ⊕ x') 1 = SPH_ROTL64 x 1 ⊕ SPH_ROTL64 x' 1) as ->.
  { apply (wrotl_lxor 64); [done|done|unfold x|unfold x'|lia]; repeat apply word_lxor; done. }
  set (r := SPH_ROTL64 x 1). set (r' := SPH_ROTL64 x' 1).
  bits_intro i Hi. rewrite !Z.lxor_spec. btauto.
Qed.

Lemma col_lxor x L M : col x (lxor_list L M) = lxor_list (col x L) (col x M).
Proof. unfold col. by rewrite zip_with_drop, zip_with_take. Qed.

Lemma fmap_lxor_list L M t t' :
  (fun b => b ⊕ (t ⊕ t')) <$> lxor_list L M =
  lxor_list ((fun b => b ⊕ t) <$> L) ((fun b => b ⊕ t') <$> M).
Proof.
  revert M. induction L as [|a L IH]; intros [|b M]; try done. cbn.
  f_equal; [|apply IH]. bits_intro i Hi. rewrite !Z.lxor_spec. btauto.
Qed.

Lemma theta_lxor L M :
  length L = 25%nat -> length M = 25%nat -> words 64 L -> words 64 M ->
  theta (lxor_list L M) = lxor_list (theta L) (theta M).
Proof.
  intros HL HM WL WM. unfold theta. cbv zeta. rewrite !col_lxor.
  rewrite !TH_ELT_lxor by (rewrite ?length_col by lia; auto using words_col).
  rewrite !fmap_lxor_list.
  rewrite !zip_with_app by (rewrite !length_fmap, !length_col by lia; done). done.
Qed.

Lemma rho_lxor L M :
  length L = length M -> words 64 L -> words 64 M ->
  rho (lxor_list L M) = lxor_list (rho L) (rho M).
Proof.
  intros HL WL WM. rewrite !rho_zip by auto using words_lxor.
  assert (Forall (fun o => 0 <= o <= 64) (0 :: rho_offsets)) as Ho by (repeat constructor; lia).
  revert M HL WM. generalize dependent (0 :: rho_offsets).
  induction WL as [|a L Ha WL IH]; intros offs Ho [|b M] HL WM; try done.
  destruct Ho as [|o offs Ho Hos]; [done|]. destruct (proj1 (Forall_cons _ _ _) WM) as [Hb WM'].
  cbn. f_equal; [by apply (wrotl_lxor 64)|]. apply IH; [done|by simpl in HL; lia|done].
Qed.

(** The words kept complemented, as an array to add. *)
Definition lane_mask : list Z :=
  fold_left (fun w i => <[i := 0xFFFFFFFFFFFFFFFF]> w) lane_complement (replicate 25 0).
Definition argmask : list Z := sel (P 0) lane_mask.

(** The mask that the linear steps hand to [KHI], as the comment above [KHI]
    lists it: a00 a01 a02 a04 a13 a20 a21 a22 a30 a33 a34 a43. *)
Definition khi_mask : list Z := sel pi_sel (rho (theta argmask)).

Lemma khi_mask_value :
  khi_mask = (fun b : bool => if b then 0xFFFFFFFFFFFFFFFF else 0) <$>
    [true; true; true; false; true;  false; false; false; true; false;
     true; true; true; false; false;  true; false; false; true; true;
     false; false; false; true; false].
Proof. vm_compute. reflexivity. Qed.

Lemma argmask_words : words 64 argmask /\ length argmask = 25%nat.
Proof.
  split; [|reflexivity]. apply words_sel; [lia|].
  assert (forallb (fun x => (0 <=? x) && (x <? 2 ^ 64)) lane_mask = true) as H
    by (vm_compute; reflexivity).
  rewrite forallb_forall in H. apply Forall_forall. intros x Hx%list_elem_of_In%H.
  apply andb_true_iff in Hx. unfold word. lia.
Qed.

(** [KHI] on complemented words is chi, the result complemented. *)
Ltac khi_bits :=
  cbv [khi_row chi_row KHI_XO KHI_XA zip_with];
  repeat (apply (f_equal2 cons); [|]); try reflexivity;
  rewrite ?not64_lxor by auto 10 using word_lxor with words;
  rewrite ?Z.lxor_0_r;
  (apply (word_eq 64); [repeat first [apply word_lxor|apply word_lor|apply word_land_r]; auto with words..|];
   let i := fresh "i" in let Hi := fresh "Hi" in
   intros i Hi; rewrite ?Z.lxor_spec, ?Z.lor_spec, ?Z.land_spec, ?Z.lxor_spec;
   change 0xFFFFFFFFFFFFFFFF with (Z.ones 64); rewrite ?Z.ones_spec_low by lia; btauto).

Abbreviation ff := 0xFFFFFFFFFFFFFFFF.

Lemma khi_row_0 b0 b1 b2 b3 b4 :
  word 64 b0 -> word 64 b1 -> word 64 b2 -> word 64 b3 -> word 64 b4 ->
  khi_row 0 (b0 ⊕ ff) (b1 ⊕ 0) (b2 ⊕ ff) (b3 ⊕ ff) (b4 ⊕ 0) =
  lxor_list (chi_row 0 b0 b1 b2 b3 b4) [0; ff; ff; 0; 0].
Proof. intros. khi_bits. Qed.

Lemma khi_row_1 b0 b1 b2 b3 b4 :
  word 64 b0 -> word 64 b1 -> word 64 b2 -> word 64 b3 -> word 64 b4 ->
  khi_row 1 (b0 ⊕ ff) (b1 ⊕ 0) (b2 ⊕ ff) (b3 ⊕ 0) (b4 ⊕ 0) =
  lxor_list (chi_row 1 b0 b1 b2 b3 b4) [0; 0; 0; ff; 0].
Proof. intros. khi_bits. Qed.

Lemma khi_row_2 b0 b1 b2 b3 b4 :
  word 64 b0 -> word 64 b1 -> word 64 b2 -> word 64 b3 -> word 64 b4 ->
  khi_row 2 (b0 ⊕ ff) (b1 ⊕ 0) (b2 ⊕ ff) (b3 ⊕ 0) (b4 ⊕ 0) =
  lxor_list (chi_row 2 b0 b1 b2 b3 b4) [0; 0; ff; 0; 0].
Proof. intros. khi_bits. Qed.

Lemma khi_row_3 b0 b1 b2 b3 b4 :
  word 64 b0 -> word 64 b1 -> word 64 b2 -> word 64 b3 -> word 64 b4 ->
  khi_row 3 (b0 ⊕ 0) (b1 ⊕ ff) (b2 ⊕ 0) (b3 ⊕ ff) (b4 ⊕ ff) =
  lxor_list (chi_row 3 b0 b1 b2 b3 b4) [0; 0; ff; 0; 0].
Proof. intros. khi_bits. Qed.

Lemma khi_row_4 b0 b1 b2 b3 b4 :
  word 64 b0 -> word 64 b1 -> word 64 b2 -> word 64 b3 -> word 64 b4 ->
  khi_row 4 (b0 ⊕ ff) (b1 ⊕ 0) (b2 ⊕ 0) (b3 ⊕ ff) (b4 ⊕ 0) =
  lxor_list (chi_row 4 b0 b1 b2 b3 b4) [ff; 0; 0; 0; 0].
Proof. intros. khi_bits. Qed.

Lemma by_cols_lxor r0 r1 r2 r3 r4 m0 m1 m2 m3 m4 :
  Forall2 (fun r m => length r = length m) [r0; r1; r2; r3; r4] [m0; m1; m2; m3; m4] ->
  by_cols (lxor_list r0 m0) (lxor_list r1 m1) (lxor_list r2 m2) (lxor_list r3 m3) (lxor_list r4 m4)
  = lxor_list (by_cols r0 r1 r2 r3 r4) (by_cols m0 m1 m2 m3 m4).
Proof.
  intros H. rewrite !Forall2_cons in H. unfold by_cols. cbn [zip_with].
  by rewrite !nth_lxor_list by intuition.
Qed.

Lemma khi_complement X :
  length X = 25%nat -> words 64 X ->
  khi (lxor_list X khi_mask) = lxor_list (rows_with chi_row X) argmask.
Proof.
  intros HX WX. assert (forall i, word 64 X.[i]) as W by (intros; by apply words_nth).
  unfold khi, rows_with. rewrite !nth_lxor_list by (rewrite HX; reflexivity).
  rewrite khi_mask_value. cbn [nth fmap list_fmap Nat.add].
  rewrite khi_row_0, khi_row_1, khi_row_2, khi_row_3, khi_row_4 by done.
  rewrite by_cols_lxor by (by repeat constructor). reflexivity.
Qed.

Lemma round_complement k L :
  length L = 25%nat -> words 64 L ->
  round k (lxor_list L argmask) = lxor_list (ref_round k L) argmask.
Proof.
  intros HL WL. destruct argmask_words as [WM HM]. unfold round, ref_round.
  rewrite theta_lxor by done.
  rewrite rho_lxor by (auto using theta_words; rewrite !length_theta by done; done).
  rewrite sel_lxor by (rewrite !length_rho; rewrite ?length_theta; done).
  fold khi_mask. rewrite khi_complement.
  - set (R := rows_with chi_row _).
    assert (exists b R', R = b :: R') as (b & R' & ->) by (do 2 eexists; reflexivity).
    assert (exists M', argmask = 0 :: M') as [M' ->] by (eexists; vm_compute; reflexivity).
    cbn. by rewrite !Z.lxor_0_r.
  - reflexivity.
  - apply words_sel; [lia|]. auto using rho_words, theta_words.
Qed.

(** The permutation of the code on complemented lanes is Keccak-f. *)
Lemma rounds24_complement A :
  length A = 25%nat -> words 64 A ->
  rounds24 (lxor_list (sel (P 0) A) argmask) = lxor_list (sel (P 0) (Ref.keccak_f A)) argmask /\
  length (Ref.keccak_f A) = 25%nat /\ words 64 (Ref.keccak_f A).
Proof.
  intros HA WA. unfold rounds24, Ref.keccak_f.
  apply (fold_left_sim (fun L A => L = lxor_list (sel (P 0) A) argmask /\
    length A = 25%nat /\ words 64 A)); [done|].
  intros L A' i Hi%list_elem_of_In%in_seq (-> & HA' & WA').
  assert (words 64 (sel (P 0) A')) as WS by (by apply words_sel).
  assert (length (sel (P 0) A') = 25%nat) as HS by reflexivity.
  rewrite Ref_round_eq by (done || lia). rewrite round_complement by done.
  rewrite sel_P0_invol by reflexivity.
  split_and!; [done|reflexivity|]. apply words_sel; [lia|]. apply ref_round_words; [|done].
  apply words_nth; [lia|apply RC_words].
Qed.

Lemma KECCAK_F_complement u A :
  u ∈ unrollings -> length A = 25%nat -> words 64 A ->
  KECCAK_F_1600_loop u (lxor_list A lane_mask) = lxor_list (Ref.keccak_f A) lane_mask /\
  length (Ref.keccak_f A) = 25%nat /\ words 64 (Ref.keccak_f A).
Proof.
  intros Hu HA WA. assert (length lane_mask = 25%nat) as HM by reflexivity.
  destruct (rounds24_complement A HA WA) as (H1 & H2 & H3). split_and!; [|exact H2|exact H3].
  clear H3. revert H1 H2. generalize (Ref.keccak_f A) as F. intros F H1 H2.
  assert (length (lxor_list A lane_mask) = 25%nat) as HL by (rewrite length_zip_with; lia).
  rewrite (KECCAK_F_eq u _ Hu HL), (sel_lxor (P 0) A lane_mask) by lia.
  fold argmask. rewrite H1. unfold argmask.
  rewrite (sel_lxor (P 0) (sel (P 0) F) (sel (P 0) lane_mask)) by (rewrite !length_sel; exact eq_refl).
  rewrite (sel_P0_invol _ H2), (sel_P0_invol _ HM). exact eq_refl.
Qed.

(** ** The sponge *)

Module Sponge.
(** A block as 25 lanes, the capacity lanes zero. *)
Definition block_lanes (blk : list Z) : list Z :=
  (sph_dec64le <$> blocks 8 blk) ++ replicate (25 - length blk / 8) 0.
Definition absorb (A blk : list Z) : list Z := Ref.keccak_f (lxor_list A (block_lanes blk)).

(** The padding 10*1 after [n] extra bits: [eb] holds these bits and the
    first one. *)
Definition pad (lim len : nat) (n eb : Z) : list Z :=
  let p := (lim - len mod lim)%nat in
  mid (if (p =? 1)%nat && (n =? 7) then S lim else p) eb 0x80.
Definition sponge (lim d : nat) (padded : list Z) : list Z :=
  take d (concat (sph_enc64le <$> fold_left absorb (blocks lim padded) (replicate 25 0))).

(** The top [n] bits of [ub], at the bottom of a byte, below a one bit. *)
Definition last_byte (ub n : Z) : Z := uchar ((0x100 .| (ub .& 0xFF)) >> (8 - n)).
End Sponge.
Import Sponge.

Lemma last_byte_low ub n : 0 <= n <= 6 -> last_byte ub n .| 0x80 = uchar ((((0x100 .| (ub .& 0xFF)) >> (8 - n))) .| 0x80).
Proof.
  intros Hn. unfold last_byte. apply (word_eq 8); auto with words.
  intros i Hi. rewrite Z.lor_spec, !uchar_bit, Z.lor_spec by lia. done.
Qed.

Lemma close_tmp lim len ub n :
  (1 < lim)%nat -> 0 <= n <= 7 ->
  let eb := (0x100 .| (ub .& 0xFF)) >> (8 - n) in
  (if (len mod lim =? lim - 1)%nat then
     if n =? 7 then uchar eb :: replicate (lim - 1) 0 ++ [0x80] else [uchar (eb .| 0x80)]
   else uchar eb :: replicate (lim - len mod lim - 2) 0 ++ [0x80]) =
  pad lim len n (last_byte ub n).
Proof.
  intros Hlim Hn eb. unfold pad. pose proof (Nat.mod_upper_bound len lim ltac:(lia)) as Hm.
  case Nat.eqb_spec; intros He.
  - replace (lim - len mod lim)%nat with 1%nat by lia. cbn [Nat.eqb andb].
    case Z.eqb_spec; intros H7; [by rewrite mid_pred by lia|].
    unfold mid. cbn [Nat.eqb]. by rewrite last_byte_low by lia.
  - case (Nat.eqb_spec (lim - len mod lim) 1); [lia|intros _]. cbn [andb].
    by rewrite mid_pred by lia.
Qed.

Lemma xor_words_lxor A W :
  (length W <= length A)%nat -> xor_words A W = lxor_list A (W ++ replicate (length A - length W) 0).
Proof.
  revert W. induction A as [|a A IH]; intros W HW; [done|]. destruct W as [|x W].
  - clear HW. cbn [xor_words app length Nat.sub replicate zip_with]. rewrite Z.lxor_0_r. f_equal.
    specialize (IH [] ltac:(simpl; lia)). cbn [app length] in IH. rewrite Nat.sub_0_r in IH.
    by destruct A.
  - simpl in HW. cbn [xor_words app length Nat.sub zip_with]. f_equal. apply IH. lia.
Qed.

Lemma INPUT_BUF_lanes lim blk A :
  length blk = lim -> (lim / 8 <= 25)%nat -> length A = 25%nat ->
  INPUT_BUF lim blk A = lxor_list A (block_lanes blk).
Proof.
  intros Hb Hlim HA. unfold INPUT_BUF, block_lanes, blocks. rewrite (dec_blocks _ _ _ _ dec64le_take), Hb.
  pose proof (length_blocks 8 blk) as Hl. unfold blocks in Hl. rewrite Hb in Hl.
  by rewrite xor_words_lxor; rewrite length_fmap, Hl, HA.
Qed.

Lemma block_lanes_wf blk :
  (length blk / 8 <= 25)%nat -> words 8 blk ->
  length (block_lanes blk) = 25%nat /\ words 64 (block_lanes blk).
Proof.
  intros Hl Hw. unfold block_lanes. split.
  - rewrite length_app, length_fmap, length_replicate, length_blocks. lia.
  - apply Forall_app_2; [|auto with words]. apply Forall_fmap.
    pose proof (blocks_words 8 8 blk Hw) as H. eapply Forall_impl; [exact H|].
    intros x Hx. by apply sph_dec64le_word.
Qed.

(** A state of the code is a Keccak state with six lanes complemented. *)
Definition simulates (s : keccak_state) (A : list Z) : Prop :=
  wide s = lxor_list A lane_mask /\ length A = 25%nat /\ words 64 A.

Lemma lxor_list_swap A B C :
  length A = length B -> length B = length C ->
  lxor_list (lxor_list A B) C = lxor_list (lxor_list A C) B.
Proof.
  revert B C. induction A as [|a A IH]; intros [|b B] [|c C] H1 H2; try done. cbn in *.
  f_equal; [|apply IH; lia]. bits_intro i Hi. rewrite !Z.lxor_spec. btauto.
Qed.

Lemma keccak_block_simulates lim s A blk :
  (lim / 8 <= 25)%nat -> length blk = lim -> words 8 blk ->
  simulates s A -> simulates (keccak_block lim s blk) (absorb A blk).
Proof.
  intros Hlim Hb Hw (Hs & HA & WA).
  destruct (block_lanes_wf blk) as [HL WL]; [by rewrite Hb|done|].
  assert (length lane_mask = 25%nat) as HM by exact eq_refl.
  unfold simulates, keccak_block, absorb, KECCAK_F_1600. cbn [wide]. rewrite Hs.
  rewrite INPUT_BUF_lanes by (done || rewrite length_zip_with; lia).
  rewrite lxor_list_swap by lia. apply KECCAK_F_complement.
  - unfold unrollings. rewrite !elem_of_cons. auto 10.
  - rewrite length_zip_with. lia.
  - by apply words_lxor.
Qed.

Lemma init_simulates l : simulates (mk_keccak lane_mask l) (replicate 25 0).
Proof. split_and!; [exact eq_refl|exact eq_refl|auto with words]. Qed.

Lemma fold_absorb_simulates lim l msg :
  (0 < lim)%nat -> (lim / 8 <= 25)%nat -> words 8 msg ->
  simulates (fold_left (keccak_block lim) (blocks lim msg) (mk_keccak lane_mask l))
    (fold_left absorb (blocks lim msg) (replicate 25 0)).
Proof.
  intros H0 Hlim Hw. apply (fold_left_sim simulates); [apply init_simulates|].
  intros s A blk Hin Hs. apply keccak_block_simulates; try done.
  - by eapply Forall_forall in Hin; [|apply blocks_length].
  - eapply Forall_forall in Hin; [|by apply blocks_words]. done.
Qed.

(** Complementing the lanes again gives the Keccak state. *)
Lemma uncomplement A :
  length A = 25%nat -> words 64 A ->
  fold_left (fun w i => <[i := not64 w.[i]]> w) lane_complement (lxor_list A lane_mask) = A.
Proof.
  intros HA WA. destruct25 A HA. 
  repeat match goal with H : words _ (_ :: _) |- _ => apply Forall_cons in H as [? H] end.
  cbn -[not64 Z.lxor]. 
  rewrite !not64_lxor by auto with words. rewrite !Z.lxor_0_r, !Z.lxor_assoc.
  change (ff ⊕ ff) with 0. by rewrite !Z.lxor_0_r.
Qed.

Lemma take_enc8 k m (A : list Z) :
  (k <= 8 * m)%nat ->
  take k (concat (sph_enc64le <$> take m A)) = take k (concat (sph_enc64le <$> A)).
Proof.
  intros Hk. rewrite <- (take_drop m A) at 2. rewrite fmap_app, concat_app.
  destruct (decide (length A <= m)%nat) as [Hl|Hl].
  - rewrite drop_ge by done. simpl. by rewrite app_nil_r.
  - rewrite take_app_le; [done|]. etrans; [exact Hk|].
    rewrite length_concat, <- list_fmap_compose. cbn. 
    assert (forall l, sum_list (length ∘ sph_enc64le <$> l) = (8 * length l)%nat) as ->.
    { induction l; cbn in *; lia. }
    rewrite length_take. lia.
Qed.

Lemma keccak_close_spec d lim kc msg ub n :
  (1 < lim)%nat -> (lim / 8 <= 25)%nat -> 0 <= n <= 7 -> words 8 msg ->
  (exists l, repr lim (keccak_block lim) (mk_keccak lane_mask l) msg kc) ->
  fst (keccak_close d lim kc ub n) = sponge lim d (msg ++ pad lim (length msg) n (last_byte ub n)).
Proof.
  intros H1 Hlim Hn Hw [l Hr]. unfold keccak_close. cbv zeta. cbn [fst].
  pose proof (proj1 (proj2 Hr)) as Hp. rewrite Hp, (close_tmp lim (length msg) ub n H1 Hn).
  set (tmp := pad _ _ _ _). apply (core_repr lim _ ltac:(lia) _ _ _ tmp) in Hr.
  unfold keccak_core. destruct Hr as (_ & _ & _ & ->).
  assert (words 8 tmp) as Ht.
  { unfold tmp, pad. set (b := if _ : bool then _ else _). unfold mid.
    assert (word 8 (last_byte ub n)) by (unfold last_byte; auto with words).
    destruct (b =? 1)%nat; apply List.Forall_cons; auto with words. }
  destruct (fold_absorb_simulates lim l (msg ++ tmp)) as (-> & HA & WA); [lia|done|by apply Forall_app_2|].
  rewrite uncomplement by done. unfold sponge. apply take_enc8.
  pose proof (Nat.div_mod_eq (d + 7) 8). pose proof (Nat.mod_upper_bound (d + 7) 8). lia.
Qed.

(** ** Main results *)

(** Every setting of [SPH_KECCAK_UNROLL] computes the same function: the loops
    that run 1, 2, 4, 6, 8 or 12 rounds on permuted lane names and then move the
    lanes back, and the 24 rounds without a loop. *)
Theorem keccak_unrollings_agree u A :
  u ∈ unrollings -> length A = 25%nat -> KECCAK_F_1600_loop u A = KECCAK_F_1600_full A.
Proof.
  intros Hu HA. rewrite (KECCAK_F_eq u A Hu HA).
  destruct (KECCAK_F_full_rounds A HA) as [H1 H2]. rewrite <- H1. by apply sel_P0_invol.
Qed.

Lemma keccak_unrollings_agree_witness :
  KECCAK_F_1600_loop 6 (replicate 25 1) = KECCAK_F_1600_full (replicate 25 1).
Proof.
  apply keccak_unrollings_agree; [|reflexivity].
  unfold unrollings. rewrite !elem_of_cons. auto 10.
Defined.

(** On a state whose lanes 1, 2, 8, 12, 17 and 20 are complemented, the
    permutation of the code, which saves complements by using OR in half of the
    chi rows, is Keccak-f[1600] of the specification (round constants from the
    LFSR, rotation offsets from the walk), the lanes complemented again. *)
Theorem keccak_f_lane_complement A :
  length A = 25%nat -> words 64 A ->
  KECCAK_F_1600 (lxor_list A lane_mask) = lxor_list (Ref.keccak_f A) lane_mask.
Proof.
  intros HA WA. apply KECCAK_F_complement; [|done|done].
  unfold unrollings. rewrite !elem_of_cons. auto 10.
Qed.

Lemma keccak_f_lane_complement_witness :
  nth 0 (KECCAK_F_1600 lane_mask) 0 = 0xF1258F7940E1DDE7.
Proof.
  pose proof (keccak_f_lane_complement (replicate 25 0) eq_refl) as H.
  change (lxor_list (replicate 25 0) lane_mask) with lane_mask in H.
  rewrite H; [|unfold word; repeat constructor; lia].
  apply Z.eqb_eq. vm_compute. reflexivity.
Defined.

(** Digest size and rate of the four functions. *)
Definition sizes : list (nat * nat) := [(28, 144); (32, 136); (48, 104); (64, 72)]%nat.

(** C36. The digest of a message fed to Keccak in any chunks and closed with [n]
    further bits, for the four digest sizes: the sponge of the specification
    over the message with the pad10*1 padding, although the code keeps six lanes
    complemented. *)
Theorem keccak_digest d lim kc ds ub n :
  (d, lim) ∈ sizes -> length (buf kc) = 144%nat -> words 8 (concat ds) -> 0 <= n <= 7 ->
  let msg := concat ds in
  let kc' := fold_left (fun kc data => keccak_core kc data lim) ds (keccak_init kc (8 * d)) in
  fst (keccak_close d lim kc' ub n) =
  sponge lim d (msg ++ pad lim (length msg) n (last_byte ub n)).
Proof.
  intros Hd Hb Hw Hn. cbv zeta. 
  assert (1 < lim <= 144)%nat as Hlim.
  { unfold sizes in Hd. rewrite !elem_of_cons, elem_of_nil in Hd. intuition (simplify_eq; lia). }
  assert (lim / 8 <= 25)%nat by (apply Nat.Div0.div_le_upper_bound; lia).
  apply keccak_close_spec; try done; [lia|]. eexists.
  apply (init_core_repr lim (keccak_block lim)); lia.
Qed.

Lemma keccak_digest_witness :
  fst (keccak_close 64 72 (fold_left (fun kc data => keccak_core kc data 72) [[]]
    (keccak_init (mk_ctx (replicate 144 9) 0 (mk_keccak [] 0)) 512)) 0 0) =
  be_bytes 64 0x0EAB42DE4C3CEB9235FC91ACFFE746B29C29A8C366B7C60E4E67C466F36A4304C00FA9CAF9D87976BA469BCBE06713B435F091EF2769FB160CDAB33D3670680E.
Proof.
  pose proof (keccak_digest 64 72 (mk_ctx (replicate 144 9) 0 (mk_keccak [] 0)) [[]] 0 0) as H.
  change (8 * 64)%nat with 512%nat in H. rewrite H.
  - apply list_eqb_eq. vm_compute. reflexivity.
  - unfold sizes. rewrite !elem_of_cons. auto 10.
  - reflexivity.
  - constructor.
  - lia.
Defined.
