(* ===== verification/Luffa.v ===== *)
(** * luffa.c: Luffa-224, Luffa-256, Luffa-384 and Luffa-512

    The state is an array of 3, 4 or 5 lanes of 8 words.  Modelled: message
    injection ([MI3], [MI4], [MI5] as the source's macro sequences), the tweaks,
    the lane permutation both as the two-lanes-at-a-time 64-bit code
    ([SPH_LUFFA_PARALLEL]) and as the 32-bit code, the cores and the closings. *)

From Stdlib Require Import ZArith Lia Btauto.
From stdpp Require Import base tactics numbers list.
From S2P Require Import Prelude SphTypes Stream Bitslice.

(** ** Constants *)

Definition V_INIT : list (list Z) :=
  [[0x6d251e69; 0x44b051e0; 0x4eaa6fb4; 0xdbf78465;
    0x6e292011; 0x90152df4; 0xee058139; 0xdef610bb];
   [0xc3b44b95; 0xd9d2f256; 0x70eee9a0; 0xde099fa3;
    0x5d9b0557; 0x8fc944b3; 0xcf1ccf0e; 0x746cd581];
   [0xf7efc89d; 0x5dba5781; 0x04016ce5; 0xad659c05;
    0x0306194f; 0x666d1836; 0x24aa230a; 0x8b264ae7];
   [0x858075d5; 0x36d79cce; 0xe571f7d7; 0x204b1f67;
    0x35870c6a; 0x57e9e923; 0x14bcb808; 0x7cde72ce];
   [0x6c68e9be; 0x5ec41e22; 0xc825b7c7; 0xaffb4363;
    0xf5df3999; 0x0fc688f1; 0xb07224cc; 0x03e86cea]].

Definition RC00 : list Z :=
  [
    0x303994a6; 0xc0e65299; 0x6cc33a12; 0xdc56983e;
    0x1e00108f; 0x7800423d; 0x8f5b7882; 0x96e1db12].
Definition RC04 : list Z :=
  [
    0xe0337818; 0x441ba90d; 0x7f34d442; 0x9389217f;
    0xe5a8bce6; 0x5274baf4; 0x26889ba7; 0x9a226e9d].
Definition RC10 : list Z :=
  [
    0xb6de10ed; 0x70f47aae; 0x0707a3d4; 0x1c1e8f51;
    0x707a3d45; 0xaeb28562; 0xbaca1589; 0x40a46f3e].
Definition RC14 : list Z :=
  [
    0x01685f3d; 0x05a17cf4; 0xbd09caca; 0xf4272b28;
    0x144ae5cc; 0xfaa7ae2b; 0x2e48f1c1; 0xb923c704].
Definition RCW010 : list Z :=
  [
    0xb6de10ed303994a6; 0x70f47aaec0e65299; 0x0707a3d46cc33a12; 0x1c1e8f51dc56983e;
    0x707a3d451e00108f; 0xaeb285627800423d; 0xbaca15898f5b7882; 0x40a46f3e96e1db12].
Definition RCW014 : list Z :=
  [
    0x01685f3de0337818; 0x05a17cf4441ba90d; 0xbd09caca7f34d442; 0xf4272b289389217f;
    0x144ae5cce5a8bce6; 0xfaa7ae2b5274baf4; 0x2e48f1c126889ba7; 0xb923c7049a226e9d].
Definition RC20 : list Z :=
  [
    0xfc20d9d2; 0x34552e25; 0x7ad8818f; 0x8438764a;
    0xbb6de032; 0xedb780c8; 0xd9847356; 0xa2c78434].
Definition RC24 : list Z :=
  [
    0xe25e72c1; 0xe623bb72; 0x5c58a4a4; 0x1e38e2e7;
    0x78e38b9d; 0x27586719; 0x36eda57f; 0x703aace7].
Definition RC30 : list Z :=
  [
    0xb213afa5; 0xc84ebe95; 0x4e608a22; 0x56d858fe;
    0x343b138f; 0xd0ec4e3d; 0x2ceb4882; 0xb3ad2208].
Definition RC34 : list Z :=
  [
    0xe028c9bf; 0x44756f91; 0x7e8fce32; 0x956548be;
    0xfe191be2; 0x3cb226e5; 0x5944a28e; 0xa1c4c355].
Definition RCW230 : list Z :=
  [
    0xb213afa5fc20d9d2; 0xc84ebe9534552e25; 0x4e608a227ad8818f; 0x56d858fe8438764a;
    0x343b138fbb6de032; 0xd0ec4e3dedb780c8; 0x2ceb4882d9847356; 0xb3ad2208a2c78434].
Definition RCW234 : list Z :=
  [
    0xe028c9bfe25e72c1; 0x44756f91e623bb72; 0x7e8fce325c58a4a4; 0x956548be1e38e2e7;
    0xfe191be278e38b9d; 0x3cb226e527586719; 0x5944a28e36eda57f; 0xa1c4c355703aace7].
Definition RC40 : list Z :=
  [
    0xf0d2e9e3; 0xac11d7fa; 0x1bcb66f2; 0x6f2d9bc9;
    0x78602649; 0x8edae952; 0x3b6ba548; 0xedae9520].
Definition RC44 : list Z :=
  [
    0x5090d577; 0x2d1925ab; 0xb46496ac; 0xd1925ab0;
    0x29131ab6; 0x0fc053c3; 0x3f014f0c; 0xfc053c31].

(** ** Message injection *)

(** [M2(d, s)]: doubling, and [XOR(d, s1, s2)], on groups of 8 words. *)
Definition M2 (s : list Z) : list Z :=
  let tmp := s.[7] in
  [tmp; s.[0] ⊕ tmp; s.[1]; s.[2] ⊕ tmp; s.[3] ⊕ tmp; s.[4]; s.[5]; s.[6]].
Definition XOR (s1 s2 : list Z) : list Z :=
  [s1.[0] ⊕ s2.[0]; s1.[1] ⊕ s2.[1]; s1.[2] ⊕ s2.[2]; s1.[3] ⊕ s2.[3];
   s1.[4] ⊕ s2.[4]; s1.[5] ⊕ s2.[5]; s1.[6] ⊕ s2.[6]; s1.[7] ⊕ s2.[7]].

(** The groups of variables: the lanes, the message and two temporaries. *)
Inductive reg : Type := rV0 | rV1 | rV2 | rV3 | rV4 | rM | ra | rb.
Definition reg_no (r : reg) : nat :=
  match r with
  | rV0 => 0 | rV1 => 1 | rV2 => 2 | rV3 => 3 | rV4 => 4 | rM => 5 | ra => 6 | rb => 7
  end.
Inductive mi_stmt : Type :=
| IXOR (d s1 s2 : reg)
| IM2 (d s : reg).
Definition get (R : list (list Z)) (r : reg) : list Z := nth (reg_no r) R [].
Definition mi_exec (R : list (list Z)) (i : mi_stmt) : list (list Z) :=
  match i with
  | IXOR d s1 s2 => <[reg_no d := XOR (get R s1) (get R s2)]> R
  | IM2 d s => <[reg_no d := M2 (get R s)]> R
  end.

Definition MI3_stmts : list mi_stmt :=
  [
    IXOR ra rV0 rV1; IXOR ra ra rV2; IM2 ra ra; IXOR rV0 ra rV0; IXOR rV0 rM rV0;
    IM2 rM rM; IXOR rV1 ra rV1; IXOR rV1 rM rV1; IM2 rM rM; IXOR rV2 ra rV2;
    IXOR rV2 rM rV2].
Definition MI4_stmts : list mi_stmt :=
  [
    IXOR ra rV0 rV1; IXOR rb rV2 rV3; IXOR ra ra rb; IM2 ra ra; IXOR rV0 ra rV0;
    IXOR rV1 ra rV1; IXOR rV2 ra rV2; IXOR rV3 ra rV3; IM2 rb rV0; IXOR rb rb rV3;
    IM2 rV3 rV3; IXOR rV3 rV3 rV2; IM2 rV2 rV2; IXOR rV2 rV2 rV1; IM2 rV1 rV1;
    IXOR rV1 rV1 rV0; IXOR rV0 rb rM; IM2 rM rM; IXOR rV1 rV1 rM; IM2 rM rM;
    IXOR rV2 rV2 rM; IM2 rM rM; IXOR rV3 rV3 rM].
Definition MI5_stmts : list mi_stmt :=
  [
    IXOR ra rV0 rV1; IXOR rb rV2 rV3; IXOR ra ra rb; IXOR ra ra rV4; IM2 ra ra;
    IXOR rV0 ra rV0; IXOR rV1 ra rV1; IXOR rV2 ra rV2; IXOR rV3 ra rV3; IXOR rV4 ra rV4;
    IM2 rb rV0; IXOR rb rb rV1; IM2 rV1 rV1; IXOR rV1 rV1 rV2; IM2 rV2 rV2;
    IXOR rV2 rV2 rV3; IM2 rV3 rV3; IXOR rV3 rV3 rV4; IM2 rV4 rV4; IXOR rV4 rV4 rV0;
    IM2 rV0 rb; IXOR rV0 rV0 rV4; IM2 rV4 rV4; IXOR rV4 rV4 rV3; IM2 rV3 rV3;
    IXOR rV3 rV3 rV2; IM2 rV2 rV2; IXOR rV2 rV2 rV1; IM2 rV1 rV1; IXOR rV1 rV1 rb;
    IXOR rV0 rV0 rM; IM2 rM rM; IXOR rV1 rV1 rM; IM2 rM rM; IXOR rV2 rV2 rM;
    IM2 rM rM; IXOR rV3 rV3 rM; IM2 rM rM; IXOR rV4 rV4 rM].

(** Message words, the statements, the lanes afterwards. *)
Definition mi_message (buf : list Z) : list Z :=
  (fun i => sph_dec32be (drop (4 * i) buf)) <$> seq 0 8.
Definition MI (k : nat) (stmts : list mi_stmt) (buf : list Z) (V : list (list Z)) : list (list Z) :=
  let regs := take 5 (V ++ replicate 5 (replicate 8 0)) ++
              [mi_message buf; replicate 8 0; replicate 8 0] in
  take k (fold_left mi_exec stmts regs).
Definition MI3 := MI 3 MI3_stmts.
Definition MI4 := MI 4 MI4_stmts.
Definition MI5 := MI 5 MI5_stmts.

(** ** The permutation of a lane *)

(** Lane [j] has its last four words rotated by [j]. *)
Definition tweak_lane (j : nat) (v : list Z) : list Z :=
  take 4 v ++ ((fun x => SPH_ROTL32 x (Z.of_nat j)) <$> drop 4 v).
Definition TWEAK (V : list (list Z)) : list (list Z) :=
  match V with
  | [] => []
  | v0 :: rest => v0 :: imap (fun i v => tweak_lane (S i) v) rest
  end.

Definition SUB_CRUMB_GEN (T : Z -> Z) (x : list Z) : list Z :=
  let a0 := x.[0] in
  let a1 := x.[1] in
  let a2 := x.[2] in
  let a3 := x.[3] in
  let tmp := a0 in
  let a0 := a0 .| a1 in
  let a2 := a2 ⊕ a3 in
  let a1 := T (Z.lnot a1) in
  let a0 := a0 ⊕ a3 in
  let a3 := a3 .& tmp in
  let a1 := a1 ⊕ a3 in
  let a3 := a3 ⊕ a2 in
  let a2 := a2 .& a0 in
  let a0 := T (Z.lnot a0) in
  let a2 := a2 ⊕ a1 in
  let a1 := a1 .| a3 in
  let tmp := tmp ⊕ a1 in
  let a3 := a3 ⊕ a2 in
  let a2 := a2 .& a1 in
  let a1 := a1 ⊕ a0 in
  let a0 := tmp in
  [a0; a1; a2; a3].
Definition SUB_CRUMB : list Z -> list Z := SUB_CRUMB_GEN SPH_T32.
Definition SUB_CRUMBW : list Z -> list Z := SUB_CRUMB_GEN SPH_T64.

Definition MIX_WORD (uv : list Z) : list Z :=
  let u := uv.[0] in
  let v := uv.[1] in
  let v := v ⊕ u in
  let u := SPH_ROTL32 u 2 ⊕ v in
  let v := SPH_ROTL32 v 14 ⊕ u in
  let u := SPH_ROTL32 u 10 ⊕ v in
  let v := SPH_ROTL32 v 1 in
  [u; v].
Definition MIX_WORDW (uv : list Z) : list Z :=
  let u := uv.[0] in
  let v := uv.[1] in
  let v := v ⊕ u in
  let ul := SPH_T32 u in
  let uh := SPH_T32 (u >> 32) in
  let vl := SPH_T32 v in
  let vh := SPH_T32 (v >> 32) in
  let ul := SPH_ROTL32 ul 2 ⊕ vl in
  let vl := SPH_ROTL32 vl 14 ⊕ ul in
  let ul := SPH_ROTL32 ul 10 ⊕ vl in
  let vl := SPH_ROTL32 vl 1 in
  let uh := SPH_ROTL32 uh 2 ⊕ vh in
  let vh := SPH_ROTL32 vh 14 ⊕ uh in
  let uh := SPH_ROTL32 uh 10 ⊕ vh in
  let vh := SPH_ROTL32 vh 1 in
  [ul .| (uh << 32); vl .| (vh << 32)].

(** The body of the loops over [r]. *)
Definition upd (p : list nat) (f : list Z -> list Z) (x : list Z) : list Z := assign p (f (sel p x)) x.
Definition step (sub mix : list Z -> list Z) (rc0 rc4 : Z) (x : list Z) : list Z :=
  let x := upd [0; 1; 2; 3]%nat sub x in
  let x := upd [5; 6; 7; 4]%nat sub x in
  let x := upd [0; 4]%nat mix x in
  let x := upd [1; 5]%nat mix x in
  let x := upd [2; 6]%nat mix x in
  let x := upd [3; 7]%nat mix x in
  let x := <[0%nat := x.[0] ⊕ rc0]> x in
  <[4%nat := x.[4] ⊕ rc4]> x.
Definition lane (RC0 RC4 x : list Z) : list Z :=
  fold_left (fun x r => step SUB_CRUMB MIX_WORD RC0.[r] RC4.[r] x) (seq 0 8) x.
Definition laneW (RCW0 RCW4 W : list Z) : list Z :=
  fold_left (fun W r => step SUB_CRUMBW MIX_WORDW RCW0.[r] RCW4.[r] W) (seq 0 8) W.

(** Two lanes in one array of 64-bit words. *)
Definition pack (x y : list Z) : list Z := zip_with (fun x y => x .| (y << 32)) x y.
Definition unpack_lo (W : list Z) : list Z := SPH_T32 <$> W.
Definition unpack_hi (W : list Z) : list Z := (fun w => SPH_T32 (w >> 32)) <$> W.
Definition two_lanes (RCW0 RCW4 x y : list Z) : list (list Z) :=
  let W := laneW RCW0 RCW4 (pack x y) in [unpack_lo W; unpack_hi W].

Definition v_of (V : list (list Z)) (j : nat) : list Z := nth j V [].
Definition P3 (V : list (list Z)) : list (list Z) :=
  let V := TWEAK V in
  two_lanes RCW010 RCW014 (v_of V 0) (v_of V 1) ++ [lane RC20 RC24 (v_of V 2)].
Definition P4 (V : list (list Z)) : list (list Z) :=
  let V := TWEAK V in
  two_lanes RCW010 RCW014 (v_of V 0) (v_of V 1) ++ two_lanes RCW230 RCW234 (v_of V 2) (v_of V 3).
Definition P5 (V : list (list Z)) : list (list Z) :=
  let V := TWEAK V in
  two_lanes RCW010 RCW014 (v_of V 0) (v_of V 1) ++
  two_lanes RCW230 RCW234 (v_of V 2) (v_of V 3) ++ [lane RC40 RC44 (v_of V 4)].

(** Without [SPH_LUFFA_PARALLEL]. *)
Definition P3_serial (V : list (list Z)) : list (list Z) :=
  let V := TWEAK V in
  [lane RC00 RC04 (v_of V 0); lane RC10 RC14 (v_of V 1); lane RC20 RC24 (v_of V 2)].
Definition P4_serial (V : list (list Z)) : list (list Z) :=
  let V := TWEAK V in
  [lane RC00 RC04 (v_of V 0); lane RC10 RC14 (v_of V 1);
   lane RC20 RC24 (v_of V 2); lane RC30 RC34 (v_of V 3)].
Definition P5_serial (V : list (list Z)) : list (list Z) :=
  let V := TWEAK V in
  [lane RC00 RC04 (v_of V 0); lane RC10 RC14 (v_of V 1);
   lane RC20 RC24 (v_of V 2); lane RC30 RC34 (v_of V 3); lane RC40 RC44 (v_of V 4)].

(** ** The contexts and their operations *)

Definition sph_luffa_context : Type := stream_ctx (list (list Z)).

Definition block3 (V : list (list Z)) (buf : list Z) : list (list Z) := P3 (MI3 buf V).
Definition block4 (V : list (list Z)) (buf : list Z) : list (list Z) := P4 (MI4 buf V).
Definition block5 (V : list (list Z)) (buf : list Z) : list (list Z) := P5 (MI5 buf V).

Definition luffa3 (sc : sph_luffa_context) (data : list Z) : sph_luffa_context := core 32 block3 sc data.
Definition luffa4 (sc : sph_luffa_context) (data : list Z) : sph_luffa_context := core 32 block4 sc data.
Definition luffa5 (sc : sph_luffa_context) (data : list Z) : sph_luffa_context := core 32 block5 sc data.

(** The exclusive or of the lanes, word by word, as bytes. *)
Definition fold_lanes (V : list (list Z)) : list Z :=
  (fun i => match V with
            | [] => 0
            | v :: V => fold_left (fun x v => x ⊕ v.[i]) V v.[i]
            end) <$> seq 0 8.
Definition enc_words (l : list Z) : list Z := concat (sph_enc32be <$> l).

Definition padded (sc : sph_luffa_context) (ub n : Z) : list Z :=
  let z := 0x80 >> n in
  let buf' := <[ptr sc := ((ub .& SPH_T32 (- z)) .| z) .& 0xFF]> (buf sc) in
  memset buf' (S (ptr sc)) 0 (32 - S (ptr sc)).

(** The loop [for (i = 0; i < 2; i ++)]: the last block, then a zero block. *)
Definition luffa3_close (sc : sph_luffa_context) (ub n : Z) (out_size_w32 : nat) :
    list Z * sph_luffa_context :=
  let buf' := padded sc ub n in
  let V := block3 (st sc) buf' in
  let buf' := memset buf' 0 0 32 in
  let V := block3 V buf' in
  let buf' := memset buf' 0 0 32 in
  (enc_words (take (if (7 <? out_size_w32)%nat then 8%nat else 7%nat) (fold_lanes V)),
   mk_ctx buf' (S (ptr sc)) (st sc)).

(** Three iterations: the last block, then two zero blocks with output. *)
Definition luffa4_close (sc : sph_luffa_context) (ub n : Z) : list Z * sph_luffa_context :=
  let buf' := padded sc ub n in
  let V := block4 (st sc) buf' in
  let buf' := memset buf' 0 0 32 in
  let V := block4 V buf' in
  let out := enc_words (fold_lanes V) in
  let V := block4 V buf' in
  let out := out ++ enc_words (take 4 (fold_lanes V)) in
  (out, mk_ctx buf' (S (ptr sc)) (st sc)).
Definition luffa5_close (sc : sph_luffa_context) (ub n : Z) : list Z * sph_luffa_context :=
  let buf' := padded sc ub n in
  let V := block5 (st sc) buf' in
  let buf' := memset buf' 0 0 32 in
  let V := block5 V buf' in
  let out := enc_words (fold_lanes V) in
  let V := block5 V buf' in
  let out := out ++ enc_words (fold_lanes V) in
  (out, mk_ctx buf' (S (ptr sc)) (st sc)).

Definition sph_luffa224_init (cc : sph_luffa_context) : sph_luffa_context :=
  mk_ctx (buf cc) 0 (take 3 V_INIT).
Definition sph_luffa224 (cc : sph_luffa_context) (data : list Z) := luffa3 cc data.
Definition sph_luffa224_addbits_and_close (cc : sph_luffa_context) (ub n : Z) :=
  let '(dst, cc) := luffa3_close cc ub n 7 in (dst, sph_luffa224_init cc).
Definition sph_luffa224_close (cc : sph_luffa_context) := sph_luffa224_addbits_and_close cc 0 0.

Definition sph_luffa256_init (cc : sph_luffa_context) : sph_luffa_context :=
  mk_ctx (buf cc) 0 (take 3 V_INIT).
Definition sph_luffa256 (cc : sph_luffa_context) (data : list Z) := luffa3 cc data.
Definition sph_luffa256_addbits_and_close (cc : sph_luffa_context) (ub n : Z) :=
  let '(dst, cc) := luffa3_close cc ub n 8 in (dst, sph_luffa256_init cc).
Definition sph_luffa256_close (cc : sph_luffa_context) := sph_luffa256_addbits_and_close cc 0 0.

Definition sph_luffa384_init (cc : sph_luffa_context) : sph_luffa_context :=
  mk_ctx (buf cc) 0 (take 4 V_INIT).
Definition sph_luffa384 (cc : sph_luffa_context) (data : list Z) := luffa4 cc data.
Definition sph_luffa384_addbits_and_close (cc : sph_luffa_context) (ub n : Z) :=
  let '(dst, cc) := luffa4_close cc ub n in (dst, sph_luffa384_init cc).
Definition sph_luffa384_close (cc : sph_luffa_context) := sph_luffa384_addbits_and_close cc 0 0.

Definition sph_luffa512_init (cc : sph_luffa_context) : sph_luffa_context :=
  mk_ctx (buf cc) 0 (take 5 V_INIT).
Definition sph_luffa512 (cc : sph_luffa_context) (data : list Z) := luffa5 cc data.
Definition sph_luffa512_addbits_and_close (cc : sph_luffa_context) (ub n : Z) :=
  let '(dst, cc) := luffa5_close cc ub n in (dst, sph_luffa512_init cc).
Definition sph_luffa512_close (cc : sph_luffa_context) := sph_luffa512_addbits_and_close cc 0 0.

(** ** Reference: message injection as a matrix over GF(256) *)

Module Ref.
(** A group of 8 words holds 32 elements of GF(2)[x]/(x^8+x^4+x^3+x+1), one per
    bit position; [M2] is the multiplication by x. *)
Definition gmul (c : Z) (x : list Z) : list Z :=
  fold_left (fun y k => if Z.testbit c (Z.of_nat k) then XOR y (Nat.iter k M2 x) else y)
    (seq 0 8) (replicate 8 0).
Definition row (coefs : list Z) (xs : list (list Z)) : list Z :=
  foldr (fun '(c, x) y => XOR (gmul c x) y) (replicate 8 0) (zip coefs xs).
Definition inject (matrix : list (list Z)) (V : list (list Z)) (m : list Z) : list (list Z) :=
  (fun coefs => row coefs (V ++ [m])) <$> matrix.
Definition matrix3 : list (list Z) := [[3; 2; 2; 1]; [2; 3; 2; 2]; [2; 2; 3; 4]].
Definition matrix4 : list (list Z) :=
  [[4; 6; 6; 7; 1]; [7; 4; 6; 6; 2]; [6; 7; 4; 6; 4]; [6; 6; 7; 4; 8]].
Definition matrix5 : list (list Z) :=
  [[0x0F; 0x08; 0x0A; 0x0A; 0x08; 0x01];
   [0x08; 0x0F; 0x08; 0x0A; 0x0A; 0x02];
   [0x0A; 0x08; 0x0F; 0x08; 0x0A; 0x04];
   [0x0A; 0x0A; 0x08; 0x0F; 0x08; 0x08];
   [0x08; 0x0A; 0x0A; 0x08; 0x0F; 0x10]].
End Ref.

Ltac destruct8 V H :=
  do 8 (destruct V as [|? V]; [discriminate H|]); destruct V; [clear H|discriminate H].
Ltac inject_eq :=
  lazy -[Z.lxor]; repeat (apply (f_equal2 cons)); try reflexivity;
  let i := fresh "i" in let Hi := fresh "Hi" in
  bits_intro i Hi; rewrite ?Z.lxor_spec, ?Z.bits_0; btauto.

(** A state of [k] lanes of 8 words. *)
Definition wf_lanes (k : nat) (V : list (list Z)) : Prop :=
  length V = k /\ Forall (wf_arr 32 8) V.

Lemma MI3_ref buf V :
  wf_lanes 3 V -> MI 3 MI3_stmts buf V = Ref.inject Ref.matrix3 V (mi_message buf).
Proof.
  intros [HL HV]. assert (length (mi_message buf) = 8%nat) as Hm by reflexivity.
  do 3 (destruct V as [|? V]; [discriminate HL|]). destruct V; [|discriminate HL].
  rewrite !Forall_cons in HV. destruct HV as ([H0 _] & [H1 _] & [H2 _] & _).
  unfold MI. cbv zeta. revert Hm. generalize (mi_message buf) as m. intros m Hm.
  destruct8 l H0. destruct8 l0 H1. destruct8 l1 H2. destruct8 m Hm. inject_eq.
Qed.

Lemma MI4_ref buf V :
  wf_lanes 4 V -> MI 4 MI4_stmts buf V = Ref.inject Ref.matrix4 V (mi_message buf).
Proof.
  intros [HL HV]. assert (length (mi_message buf) = 8%nat) as Hm by reflexivity.
  do 4 (destruct V as [|? V]; [discriminate HL|]). destruct V; [|discriminate HL].
  rewrite !Forall_cons in HV. destruct HV as ([H0 _] & [H1 _] & [H2 _] & [H3 _] & _).
  unfold MI. cbv zeta. revert Hm. generalize (mi_message buf) as m. intros m Hm.
  destruct8 l H0. destruct8 l0 H1. destruct8 l1 H2. destruct8 l2 H3. destruct8 m Hm. inject_eq.
Qed.

Lemma MI5_ref buf V :
  wf_lanes 5 V -> MI 5 MI5_stmts buf V = Ref.inject Ref.matrix5 V (mi_message buf).
Proof.
  intros [HL HV]. assert (length (mi_message buf) = 8%nat) as Hm by reflexivity.
  do 5 (destruct V as [|? V]; [discriminate HL|]). destruct V; [|discriminate HL].
  rewrite !Forall_cons in HV. destruct HV as ([H0 _] & [H1 _] & [H2 _] & [H3 _] & [H4 _] & _).
  unfold MI. cbv zeta. revert Hm. generalize (mi_message buf) as m. intros m Hm.
  destruct8 l H0. destruct8 l0 H1. destruct8 l1 H2. destruct8 l2 H3. destruct8 l3 H4.
  destruct8 m Hm. inject_eq.
Qed.

(** ** Two lanes at a time *)

Definition packw (x y : Z) : Z := x .| (y << 32).

Lemma packw_bit x y i :
  word 32 x -> 0 <= i < 64 ->
  Z.testbit (packw x y) i = if i <? 32 then Z.testbit x i else Z.testbit y (i - 32).
Proof.
  intros Hx Hi. unfold packw. rewrite Z.lor_spec, Z.shiftl_spec by lia.
  destruct (Z.ltb_spec i 32).
  - rewrite (Z.testbit_neg_r y) by lia. btauto.
  - rewrite (word_bit_high 32 x) by (done || lia). btauto.
Qed.

Lemma packw_word x y : word 32 x -> word 32 y -> word 64 (packw x y).
Proof.
  intros Hx Hy. unfold packw. apply word_lor; [eapply word_weaken; [done|lia]|].
  apply (word_shiftl 32); (done || lia).
Qed.

Lemma not32_bit x i : 0 <= i < 32 -> Z.testbit (SPH_T32 (Z.lnot x)) i = negb (Z.testbit x i).
Proof. intros Hi. rewrite T32_bit by done. apply Z.lnot_spec. lia. Qed.
Lemma lnot64_bit x i : 0 <= i < 64 -> Z.testbit (SPH_T64 (Z.lnot x)) i = negb (Z.testbit x i).
Proof. intros Hi. rewrite T64_bit by done. apply Z.lnot_spec. lia. Qed.

Ltac packw_op :=
  intros; apply (word_eq 64); [auto using packw_word with words..|];
  let i := fresh "i" in let Hi := fresh "Hi" in
  intros i Hi; repeat first [rewrite Z.lxor_spec | rewrite Z.land_spec | rewrite Z.lor_spec];
  rewrite !packw_bit by auto with words; destruct (Z.ltb_spec i 32);
  repeat first [rewrite Z.lxor_spec | rewrite Z.land_spec | rewrite Z.lor_spec]; reflexivity.

Section Pack.
Context (x y x' y' : Z) (Hx : word 32 x) (Hy : word 32 y) (Hx' : word 32 x') (Hy' : word 32 y').

Lemma packw_lxor : packw x y ⊕ packw x' y' = packw (x ⊕ x') (y ⊕ y').
Proof. packw_op. Qed.
Lemma packw_lor : packw x y .| packw x' y' = packw (x .| x') (y .| y').
Proof. packw_op. Qed.
Lemma packw_land : packw x y .& packw x' y' = packw (x .& x') (y .& y').
Proof. packw_op. Qed.
Lemma packw_lnot :
  SPH_T64 (Z.lnot (packw x y)) = packw (SPH_T32 (Z.lnot x)) (SPH_T32 (Z.lnot y)).
Proof.
  apply (word_eq 64); [auto using packw_word with words..|]. intros i Hi.
  rewrite lnot64_bit, !packw_bit by auto with words.
  destruct (Z.ltb_spec i 32); rewrite not32_bit by lia; reflexivity.
Qed.
Lemma packw_lo : SPH_T32 (packw x y) = x.
Proof.
  apply (word_eq 32); [auto with words..|]. intros i Hi. rewrite T32_bit, packw_bit by (done || lia).
  destruct (Z.ltb_spec i 32); [done|lia].
Qed.
Lemma packw_hi : SPH_T32 (packw x y >> 32) = y.
Proof.
  apply (word_eq 32); [auto with words..|]. intros i Hi.
  rewrite T32_bit, Z.shiftr_spec, packw_bit by (done || lia).
  destruct (Z.ltb_spec (i + 32) 32); [lia|]. f_equal. lia.
Qed.
End Pack.

Ltac words_in := repeat match goal with H : words _ (_ :: _) |- _ => apply Forall_cons in H as [? H] end.
Ltac word32 := repeat first [assumption | apply T32_word | apply ROTL32_word | apply word_lxor
                            | apply word_lor | apply word_land_l].

Lemma SUB_CRUMBW_pack x y :
  wf_arr 32 4 x -> wf_arr 32 4 y -> SUB_CRUMBW (pack x y) = pack (SUB_CRUMB x) (SUB_CRUMB y).
Proof.
  intros [HL HW] [HL' HW'].
  do 4 (destruct x as [|? x]; [discriminate HL|]). destruct x; [|discriminate HL].
  do 4 (destruct y as [|? y]; [discriminate HL'|]). destruct y; [|discriminate HL'].
  words_in. unfold SUB_CRUMBW, SUB_CRUMB, SUB_CRUMB_GEN, pack. cbn [zip_with nth]. cbv zeta.
  fold (packw z z3) (packw z0 z4) (packw z1 z5) (packw z2 z6).
  repeat first [rewrite packw_lxor by word32 | rewrite packw_lor by word32
               | rewrite packw_land by word32 | rewrite packw_lnot by word32].
  reflexivity.
Qed.

Lemma MIX_WORDW_pack x y :
  wf_arr 32 2 x -> wf_arr 32 2 y -> MIX_WORDW (pack x y) = pack (MIX_WORD x) (MIX_WORD y).
Proof.
  intros [HL HW] [HL' HW'].
  do 2 (destruct x as [|? x]; [discriminate HL|]). destruct x; [|discriminate HL].
  do 2 (destruct y as [|? y]; [discriminate HL'|]). destruct y; [|discriminate HL'].
  words_in. unfold MIX_WORDW, MIX_WORD, pack. cbn [zip_with nth]. cbv zeta.
  fold (packw z z1) (packw z0 z2). rewrite packw_lxor by done.
  by rewrite !packw_lo, !packw_hi by word32.
Qed.

(** The S-box and the mixing keep words in range. *)
Lemma SUB_CRUMB_wf x : wf_arr 32 4 x -> wf_arr 32 4 (SUB_CRUMB x).
Proof.
  intros [HL HW]. do 4 (destruct x as [|? x]; [discriminate HL|]). destruct x; [|discriminate HL].
  words_in. split; [reflexivity|]. unfold SUB_CRUMB, SUB_CRUMB_GEN. cbn [nth]. cbv zeta.
  repeat apply List.Forall_cons; try apply List.Forall_nil; word32.
Qed.

Lemma MIX_WORD_wf x : wf_arr 32 2 x -> wf_arr 32 2 (MIX_WORD x).
Proof.
  intros [HL HW]. do 2 (destruct x as [|? x]; [discriminate HL|]). destruct x; [|discriminate HL].
  words_in. split; [reflexivity|]. unfold MIX_WORD. cbn [nth]. cbv zeta.
  repeat apply List.Forall_cons; try apply List.Forall_nil; word32.
Qed.

Lemma nth_pack x y i :
  length x = length y -> (i < length x)%nat -> (pack x y).[i] = packw x.[i] y.[i].
Proof.
  unfold pack. revert y i. induction x as [|u x IH]; intros [|v y] i H Hi; try done; simpl in *; try lia.
  destruct i; [done|]. apply IH; lia.
Qed.

Lemma sel_pack p x y :
  length x = length y -> Forall (fun i => i < length x)%nat p ->
  sel p (pack x y) = pack (sel p x) (sel p y).
Proof.
  intros H Hp. unfold sel. induction Hp as [|i p Hi Hp IH]; [done|]. cbn.
  f_equal; [by apply nth_pack|exact IH].
Qed.

Lemma insert_pack x y i u v :
  length x = length y -> <[i := packw u v]> (pack x y) = pack (<[i := u]> x) (<[i := v]> y).
Proof.
  unfold pack. revert y i. induction x as [|x0 x IH]; intros [|y0 y] i H; try done.
  destruct i; cbn; [done|]. f_equal. apply IH. simpl in H. lia.
Qed.

Lemma assign_pack p u v x y :
  length x = length y -> length u = length v ->
  assign p (pack u v) (pack x y) = pack (assign p u x) (assign p v y).
Proof.
  unfold assign. revert u v x y. induction p as [|i p IH]; intros [|u0 u] [|v0 v] x y H Huv; try done.
  cbn [pack zip_with zip fold_left fst snd]. fold (packw u0 v0). fold (pack u v).
  rewrite insert_pack by done. apply IH; [rewrite !length_insert; done|simpl in Huv; lia].
Qed.

(** An update of the packed array by [F] is one of the two arrays by [f]. *)
Lemma upd_pack p F f x y :
  wf_arr 32 8 x -> wf_arr 32 8 y -> indices_ok 8 p = true ->
  (forall u v, wf_arr 32 (length p) u -> wf_arr 32 (length p) v -> F (pack u v) = pack (f u) (f v)) ->
  (forall u, wf_arr 32 (length p) u -> wf_arr 32 (length p) (f u)) ->
  upd p F (pack x y) = pack (upd p f x) (upd p f y) /\
  wf_arr 32 8 (upd p f x) /\ wf_arr 32 8 (upd p f y).
Proof.
  intros Hx Hy Hp HF Hf. pose proof Hx as [HLx HWx]. pose proof Hy as [HLy HWy].
  pose proof (wf_arr_sel 32 8 p x ltac:(lia) Hx) as Sx. pose proof (wf_arr_sel 32 8 p y ltac:(lia) Hy) as Sy.
  pose proof (Hf _ Sx) as [Fx FxW]. pose proof (Hf _ Sy) as [Fy FyW].
  apply andb_true_iff in Hp as [_ Hp]. rewrite forallb_forall in Hp.
  assert (Forall (fun i => i < length x)%nat p) as Hb.
  { apply Forall_forall. intros i Hi%list_elem_of_In%Hp. rewrite HLx. by apply Nat.ltb_lt. }
  unfold upd. split_and!.
  - rewrite sel_pack, HF by (done || congruence). by apply assign_pack; congruence.
  - split; [by rewrite length_assign|by apply words_assign].
  - split; [by rewrite length_assign|by apply words_assign].
Qed.

Lemma step_pack rx0 ry0 rx4 ry4 x y :
  wf_arr 32 8 x -> wf_arr 32 8 y -> Forall (word 32) [rx0; ry0; rx4; ry4] ->
  step SUB_CRUMBW MIX_WORDW (packw rx0 ry0) (packw rx4 ry4) (pack x y) =
  pack (step SUB_CRUMB MIX_WORD rx0 rx4 x) (step SUB_CRUMB MIX_WORD ry0 ry4 y) /\
  wf_arr 32 8 (step SUB_CRUMB MIX_WORD rx0 rx4 x) /\ wf_arr 32 8 (step SUB_CRUMB MIX_WORD ry0 ry4 y).
Proof.
  intros Hx Hy Hrc. rewrite !Forall_cons in Hrc. destruct Hrc as (R1 & R2 & R3 & R4 & _).
  assert (forall p x y, wf_arr 32 8 x -> wf_arr 32 8 y -> indices_ok 8 p = true -> length p = 4%nat ->
    upd p SUB_CRUMBW (pack x y) = pack (upd p SUB_CRUMB x) (upd p SUB_CRUMB y) /\
    wf_arr 32 8 (upd p SUB_CRUMB x) /\ wf_arr 32 8 (upd p SUB_CRUMB y)) as HS.
  { intros p u v Hu Hv Hp Hl. apply upd_pack; [done..| |]; rewrite Hl;
      [apply SUB_CRUMBW_pack|apply SUB_CRUMB_wf]. }
  assert (forall p x y, wf_arr 32 8 x -> wf_arr 32 8 y -> indices_ok 8 p = true -> length p = 2%nat ->
    upd p MIX_WORDW (pack x y) = pack (upd p MIX_WORD x) (upd p MIX_WORD y) /\
    wf_arr 32 8 (upd p MIX_WORD x) /\ wf_arr 32 8 (upd p MIX_WORD y)) as HM.
  { intros p u v Hu Hv Hp Hl. apply upd_pack; [done..| |]; rewrite Hl;
      [apply MIX_WORDW_pack|apply MIX_WORD_wf]. }
  assert (forall i u v x y, wf_arr 32 8 x -> wf_arr 32 8 y -> word 32 u -> word 32 v -> (i < 8)%nat ->
    <[i := (pack x y).[i] ⊕ packw u v]> (pack x y) =
      pack (<[i := x.[i] ⊕ u]> x) (<[i := y.[i] ⊕ v]> y) /\
    wf_arr 32 8 (<[i := x.[i] ⊕ u]> x) /\ wf_arr 32 8 (<[i := y.[i] ⊕ v]> y)) as HX.
  { intros i u v x0 y0 [L1 W1] [L2 W2] Hu Hv Hi.
    pose proof (words_nth 32 x0 i ltac:(lia) W1). pose proof (words_nth 32 y0 i ltac:(lia) W2).
    split_and!.
    - rewrite nth_pack, packw_lxor by (done || congruence || lia). apply insert_pack. congruence.
    - split; [by rewrite length_insert|]. apply Forall_insert; [done|]. by apply word_lxor.
    - split; [by rewrite length_insert|]. apply Forall_insert; [done|]. by apply word_lxor. }
  unfold step. cbv zeta.
  destruct (HS [0; 1; 2; 3]%nat x y Hx Hy eq_refl eq_refl) as (-> & A1 & B1).
  destruct (HS [5; 6; 7; 4]%nat _ _ A1 B1 eq_refl eq_refl) as (-> & A2 & B2).
  destruct (HM [0; 4]%nat _ _ A2 B2 eq_refl eq_refl) as (-> & A3 & B3).
  destruct (HM [1; 5]%nat _ _ A3 B3 eq_refl eq_refl) as (-> & A4 & B4).
  destruct (HM [2; 6]%nat _ _ A4 B4 eq_refl eq_refl) as (-> & A5 & B5).
  destruct (HM [3; 7]%nat _ _ A5 B5 eq_refl eq_refl) as (-> & A6 & B6).
  destruct (HX 0%nat _ _ _ _ A6 B6 R1 R2 ltac:(lia)) as (-> & A7 & B7).
  destruct (HX 4%nat _ _ _ _ A7 B7 R3 R4 ltac:(lia)) as (-> & A8 & B8). done.
Qed.

(** Eight rounds, for tables of constants that are packed pairs. *)
Definition rc_packed (RC RC' RCW : list Z) : bool :=
  forallb (fun r => (0 <=? RC.[r]) && (RC.[r] <? 2 ^ 32) && (0 <=? RC'.[r]) && (RC'.[r] <? 2 ^ 32) &&
                    (RCW.[r] =? packw RC.[r] RC'.[r])) (seq 0 8).

Lemma rc_packed_nth RC RC' RCW r :
  rc_packed RC RC' RCW = true -> (r < 8)%nat ->
  RCW.[r] = packw RC.[r] RC'.[r] /\ word 32 RC.[r] /\ word 32 RC'.[r].
Proof.
  intros H Hr. unfold rc_packed in H. rewrite forallb_forall in H.
  specialize (H r ltac:(apply in_seq; lia)).
  rewrite !andb_true_iff, !Z.leb_le, !Z.ltb_lt, Z.eqb_eq in H. unfold word. intuition lia.
Qed.

Lemma laneW_pack RC0 RC0' RC4 RC4' RCW0 RCW4 x y :
  rc_packed RC0 RC0' RCW0 = true -> rc_packed RC4 RC4' RCW4 = true ->
  wf_arr 32 8 x -> wf_arr 32 8 y ->
  laneW RCW0 RCW4 (pack x y) = pack (lane RC0 RC4 x) (lane RC0' RC4' y) /\
  wf_arr 32 8 (lane RC0 RC4 x) /\ wf_arr 32 8 (lane RC0' RC4' y).
Proof.
  intros H0 H4. unfold laneW, lane.
  assert (Forall (fun r => r < 8)%nat (seq 0 8)) as Hr
    by (apply Forall_forall; intros r Hr%list_elem_of_In%in_seq; lia).
  revert Hr x y. generalize (seq 0 8) as l. induction l as [|r l IH]; intros Hl x y Hx Hy; [done|].
  apply Forall_cons in Hl as [Hr Hl]. rewrite !fold_left_cons.
  destruct (rc_packed_nth _ _ _ r H0 Hr) as (-> & ? & ?).
  destruct (rc_packed_nth _ _ _ r H4 Hr) as (-> & ? & ?).
  destruct (step_pack RC0.[r] RC0'.[r] RC4.[r] RC4'.[r] x y Hx Hy) as (-> & Hx' & Hy').
  { by repeat apply List.Forall_cons; try apply List.Forall_nil. }
  by apply IH.
Qed.

Lemma unpack_pack x y :
  wf_arr 32 8 x -> wf_arr 32 8 y -> unpack_lo (pack x y) = x /\ unpack_hi (pack x y) = y.
Proof.
  intros [HLx HWx] [HLy HWy]. assert (length x = length y) as H by congruence. clear HLx HLy.
  unfold unpack_lo, unpack_hi, pack. revert y H HWy.
  induction HWx as [|u x Hu HWx IH]; intros [|v y] H HWy; try done.
  apply Forall_cons in HWy as [Hv HWy]. cbn in *. fold (packw u v).
  rewrite packw_lo, packw_hi by done. destruct (IH y ltac:(lia) HWy) as [E1 E2].
  cbn in E1, E2. by rewrite E1, E2.
Qed.

Lemma two_lanes_eq RC0 RC0' RC4 RC4' RCW0 RCW4 x y :
  rc_packed RC0 RC0' RCW0 = true -> rc_packed RC4 RC4' RCW4 = true ->
  wf_arr 32 8 x -> wf_arr 32 8 y ->
  two_lanes RCW0 RCW4 x y = [lane RC0 RC4 x; lane RC0' RC4' y].
Proof.
  intros H0 H4 Hx Hy. unfold two_lanes.
  destruct (laneW_pack _ _ _ _ _ _ _ _ H0 H4 Hx Hy) as (-> & Hx' & Hy').
  by destruct (unpack_pack _ _ Hx' Hy') as [-> ->].
Qed.

Lemma RC_tables :
  rc_packed RC00 RC10 RCW010 = true /\ rc_packed RC04 RC14 RCW014 = true /\
  rc_packed RC20 RC30 RCW230 = true /\ rc_packed RC24 RC34 RCW234 = true.
Proof. vm_compute. done. Qed.

Lemma tweak_lane_wf j v : wf_arr 32 8 v -> wf_arr 32 8 (tweak_lane j v).
Proof.
  intros [HL HW]. unfold tweak_lane. split.
  - rewrite length_app, length_fmap, length_take, length_drop. lia.
  - apply Forall_app_2; [auto with words|]. apply Forall_fmap, Forall_forall. intros.
    apply ROTL32_word.
Qed.

Lemma TWEAK_wf k V : wf_lanes k V -> wf_lanes k (TWEAK V).
Proof.
  intros [HL HV]. destruct HV as [|v V Hv HV]; [done|]. cbn [TWEAK].
  split; [cbn [length] in *; by rewrite length_imap|]. constructor; [done|].
  apply Forall_lookup. intros i v' Hi. rewrite list_lookup_imap in Hi.
  destruct (V !! i) eqn:E; [|done]. injection Hi as <-. apply tweak_lane_wf.
  by eapply Forall_lookup_1.
Qed.

Lemma v_of_wf k V j : wf_lanes k V -> (j < k)%nat -> wf_arr 32 8 (v_of V j).
Proof.
  intros [HL HV] Hj. unfold v_of. rewrite Forall_forall in HV. apply HV, list_elem_of_In, nth_In. lia.
Qed.

Lemma P3_eq V : wf_lanes 3 V -> P3 V = P3_serial V.
Proof.
  intros H%TWEAK_wf. destruct RC_tables as (T1 & T2 & _). unfold P3, P3_serial. cbv zeta.
  by rewrite (two_lanes_eq _ _ _ _ _ _ _ _ T1 T2) by (apply (v_of_wf 3); (done || lia)).
Qed.

Lemma P4_eq V : wf_lanes 4 V -> P4 V = P4_serial V.
Proof.
  intros H%TWEAK_wf. destruct RC_tables as (T1 & T2 & T3 & T4). unfold P4, P4_serial. cbv zeta.
  rewrite (two_lanes_eq _ _ _ _ _ _ _ _ T1 T2) by (apply (v_of_wf 4); (done || lia)).
  by rewrite (two_lanes_eq _ _ _ _ _ _ _ _ T3 T4) by (apply (v_of_wf 4); (done || lia)).
Qed.

Lemma P5_eq V : wf_lanes 5 V -> P5 V = P5_serial V.
Proof.
  intros H%TWEAK_wf. destruct RC_tables as (T1 & T2 & T3 & T4). unfold P5, P5_serial. cbv zeta.
  rewrite (two_lanes_eq _ _ _ _ _ _ _ _ T1 T2) by (apply (v_of_wf 5); (done || lia)).
  by rewrite (two_lanes_eq _ _ _ _ _ _ _ _ T3 T4) by (apply (v_of_wf 5); (done || lia)).
Qed.

(** ** The permutation of a lane *)

(** The substitution box, the words of an element from last to first. *)
Definition luffa_sbox : list Z := [13; 14; 0; 1; 5; 10; 7; 6; 11; 3; 9; 12; 15; 8; 2; 4].
Definition crumb (x : list Z) (i : Z) : Z := nibble (sel [3; 2; 1; 0]%nat x) 0 i.

Lemma SUB_CRUMB_sbox x i :
  0 <= i < 32 -> crumb (SUB_CRUMB x) i = luffa_sbox.[Z.to_nat (crumb x i)].
Proof.
  intros Hi. unfold crumb, nibble, SUB_CRUMB, SUB_CRUMB_GEN. cbv zeta.
  cbn [sel fmap list_fmap nth Nat.add].
  repeat first [rewrite Z.lxor_spec | rewrite Z.land_spec | rewrite Z.lor_spec
               | rewrite not32_bit by exact Hi].
  by destruct (Z.testbit x.[0] i), (Z.testbit x.[1] i), (Z.testbit x.[2] i), (Z.testbit x.[3] i).
Qed.

Lemma SUB_CRUMB_inj_on : inj_on (wf_arr 32 4) SUB_CRUMB.
Proof.
  apply (bitslice_inj 32 _ (fun _ => luffa_sbox) [3; 2; 1; 0]%nat).
  - lia.
  - apply SUB_CRUMB_wf.
  - reflexivity.
  - intros x y [Hx _] [Hy _]. destruct4 x Hx. destruct4 y Hy. cbn. intros E. by simplify_eq.
  - reflexivity.
  - apply SUB_CRUMB_sbox.
Qed.

Definition MIX_WORD_inv (uv : list Z) : list Z :=
  let u := uv.[0] in
  let v := uv.[1] in
  let v := SPH_ROTR32 v 1 in
  let u := SPH_ROTR32 (u ⊕ v) 10 in
  let v := SPH_ROTR32 (v ⊕ u) 14 in
  let u := SPH_ROTR32 (u ⊕ v) 2 in
  [u; v ⊕ u].

Lemma ROTR_ROTL32 x n : word 32 x -> 0 <= n <= 32 -> SPH_ROTR32 (SPH_ROTL32 x n) n = x.
Proof. intros Hx Hn. apply (wrotr_wrotl 32); (done || lia). Qed.

Lemma MIX_WORD_inj_on : inj_on (wf_arr 32 2) MIX_WORD.
Proof.
  apply (inj_on_inv _ _ MIX_WORD_inv); [apply MIX_WORD_wf|]. intros x [HL HW].
  do 2 (destruct x as [|? x]; [discriminate HL|]). destruct x; [|discriminate HL]. words_in.
  unfold MIX_WORD, MIX_WORD_inv. cbn [nth]. cbv zeta.
  repeat first [rewrite ROTR_ROTL32 by (word32 || lia) | rewrite lxor_cancel]. reflexivity.
Qed.

Lemma upd_inj_on p f :
  indices_ok 8 p = true -> inj_on (wf_arr 32 (length p)) f -> inj_on (wf_arr 32 8) (upd p f).
Proof. intros Hp Hf. by apply assign_inj_on. Qed.

Lemma xor_word_inj_on i c :
  word 32 c -> (i < 8)%nat -> inj_on (wf_arr 32 8) (fun x => <[i := x.[i] ⊕ c]> x).
Proof.
  intros Hc Hi. apply (inj_on_ext _ _ (upd [i] (fun v => [v.[0] ⊕ c]))); [done|].
  apply upd_inj_on.
  - unfold indices_ok. cbn [nodupb existsb negb andb forallb]. rewrite andb_true_r. by apply Nat.ltb_lt.
  - apply (inj_on_inv _ _ (fun v => [v.[0] ⊕ c])); intros v [HL HW];
      (destruct v as [|? [|? ?]]; [discriminate HL| |discriminate HL]); words_in; cbn [nth].
    + split; [done|]. apply List.Forall_cons; [by apply word_lxor|apply List.Forall_nil].
    + by rewrite lxor_cancel.
Qed.

Lemma step_inj_on rc0 rc4 :
  word 32 rc0 -> word 32 rc4 -> inj_on (wf_arr 32 8) (step SUB_CRUMB MIX_WORD rc0 rc4).
Proof.
  intros H0 H4. unfold step. cbv zeta.
  apply (inj_on_compose _ _ (fun x => <[4%nat := x.[4] ⊕ rc4]> x)); [|by apply xor_word_inj_on; [|lia]].
  apply (inj_on_compose _ _ (fun x => <[0%nat := x.[0] ⊕ rc0]> x)); [|by apply xor_word_inj_on; [|lia]].
  repeat (apply (inj_on_compose _ _ (upd _ MIX_WORD));
    [|apply upd_inj_on; [reflexivity|apply MIX_WORD_inj_on]]).
  apply (inj_on_compose _ (upd _ SUB_CRUMB) (upd _ SUB_CRUMB));
    (apply upd_inj_on; [reflexivity|apply SUB_CRUMB_inj_on]).
Qed.

Definition rc_ok (RC : list Z) : bool := forallb (fun c => (0 <=? c) && (c <? 2 ^ 32)) RC.
Lemma rc_ok_words RC : rc_ok RC = true -> words 32 RC.
Proof.
  unfold rc_ok. rewrite forallb_forall. intros H. apply Forall_forall. intros c Hc%list_elem_of_In%H.
  rewrite andb_true_iff, Z.leb_le, Z.ltb_lt in Hc. done.
Qed.

Lemma lane_inj_on RC0 RC4 :
  rc_ok RC0 = true -> rc_ok RC4 = true -> inj_on (wf_arr 32 8) (lane RC0 RC4).
Proof.
  intros H0%rc_ok_words H4%rc_ok_words. apply inj_on_fold. intros r _.
  apply step_inj_on; apply words_nth; (done || lia).
Qed.

Lemma tweak_lane_inj_on j : (j <= 32)%nat -> inj_on (wf_arr 32 8) (tweak_lane j).
Proof.
  intros Hj. apply (inj_on_inv _ _ (fun v => take 4 v ++ ((fun x => SPH_ROTR32 x (Z.of_nat j)) <$> drop 4 v))).
  - apply tweak_lane_wf.
  - intros v [HL HW]. destruct8 v HL. words_in. unfold tweak_lane. cbn [take drop fmap list_fmap app].
    by rewrite !ROTR_ROTL32 by (done || lia).
Qed.

(** The state's permutation, written with the lane functions. *)
Definition lanes_fun (fs : list (list Z -> list Z)) (V : list (list Z)) : list (list Z) :=
  zip_with (fun f v => f v) fs V.

Lemma lanes_fun_inj fs V V' :
  Forall (inj_on (wf_arr 32 8)) fs -> wf_lanes (length fs) V -> wf_lanes (length fs) V' ->
  lanes_fun fs V = lanes_fun fs V' -> V = V'.
Proof.
  intros Hf [HL HV] [HL' HV']. revert V V' HL HV HL' HV'.
  induction Hf as [|f fs [_ Hf] Hfs IH]; intros [|v V] [|v' V'] HL HV HL' HV' E; try done.
  apply Forall_cons in HV as [Hv HV]. apply Forall_cons in HV' as [Hv' HV']. cbn in *.
  injection E as E1 E2. f_equal; [by apply Hf|]. apply IH; (done || lia).
Qed.

Definition fun5 : list (list Z -> list Z) :=
  [fun v => lane RC00 RC04 v; fun v => lane RC10 RC14 (tweak_lane 1 v);
   fun v => lane RC20 RC24 (tweak_lane 2 v); fun v => lane RC30 RC34 (tweak_lane 3 v);
   fun v => lane RC40 RC44 (tweak_lane 4 v)].

Lemma P5_serial_fun V : length V = 5%nat -> P5_serial V = lanes_fun fun5 V.
Proof.
  intros HL. do 5 (destruct V as [|? V]; [discriminate HL|]). destruct V; [|discriminate HL].
  unfold P5_serial, TWEAK, v_of. cbn [imap nth compose lanes_fun fun5 zip_with]. reflexivity.
Qed.

Lemma fun5_inj_on : Forall (inj_on (wf_arr 32 8)) fun5.
Proof.
  unfold fun5. repeat apply List.Forall_cons; try apply List.Forall_nil.
  1: by apply lane_inj_on.
  all: apply (inj_on_compose _ (tweak_lane _) (lane _ _)); [apply tweak_lane_inj_on; lia|].
  all: by apply lane_inj_on.
Qed.

(** ** Digests *)

Module Spec.
(** A one bit, zeros to the end of a block. *)
Definition pad (len : nat) (mb : Z) : list Z := mb :: replicate (31 - len mod 32) 0.
Definition absorb (matrix : list (list Z)) (P : list (list Z) -> list (list Z))
    (V : list (list Z)) (blk : list Z) : list (list Z) :=
  P (Ref.inject matrix V (sph_dec32be <$> blocks 4 blk)).
Definition blank : list Z := replicate 32 0.

(** The digest is read from the exclusive or of the lanes, 8 words after each
    blank block. *)
Definition final (matrix : list (list Z)) (P : list (list Z) -> list (list Z)) (k : nat)
    (msg : list Z) (mb : Z) : list (list Z) :=
  fold_left (absorb matrix P) (blocks 32 (msg ++ pad (length msg) mb)) (take k V_INIT).
Definition hash (matrix : list (list Z)) (P : list (list Z) -> list (list Z)) (k : nat)
    (msg : list Z) (mb : Z) (rounds words : nat) : list Z :=
  let step := fun V => absorb matrix P V blank in
  let V := final matrix P k msg mb in
  enc_words (take words (concat ((fun i => fold_lanes (Nat.iter (S i) step V)) <$> seq 0 rounds))).
End Spec.

Lemma XOR_wf x y : wf_arr 32 8 x -> wf_arr 32 8 y -> wf_arr 32 8 (XOR x y).
Proof.
  intros [_ HW] [_ HW']. split; [reflexivity|]. unfold XOR.
  repeat apply List.Forall_cons; try apply List.Forall_nil; apply word_lxor; by apply words_nth.
Qed.

Lemma M2_wf x : wf_arr 32 8 x -> wf_arr 32 8 (M2 x).
Proof.
  intros [_ HW]. split; [reflexivity|]. unfold M2. cbv zeta.
  assert (forall i, word 32 x.[i]) by (intros; by apply words_nth).
  repeat apply List.Forall_cons; try apply List.Forall_nil; try apply word_lxor; done.
Qed.

Lemma mi_exec_wf R i : wf_lanes 8 R -> wf_lanes 8 (mi_exec R i).
Proof.
  intros H. pose proof H as [HL HR].
  assert (forall r, wf_arr 32 8 (get R r)) as Hg.
  { intros r. apply (v_of_wf 8 R); [done|]. destruct r; cbn; lia. }
  destruct i; (split; [cbn [mi_exec]; by rewrite length_insert|]); cbn [mi_exec];
    (apply Forall_insert; [done|]); [by apply XOR_wf|by apply M2_wf].
Qed.

Lemma mi_message_wf blk : words 8 blk -> wf_arr 32 8 (mi_message blk).
Proof.
  intros H. split; [reflexivity|]. apply Forall_fmap, Forall_true. intros i.
  apply sph_dec32be_word. auto with words.
Qed.

Lemma zeros_wf : wf_arr 32 8 (replicate 8 0).
Proof. split; [reflexivity|auto with words]. Qed.

Lemma MI_wf k stmts blk V :
  (k <= 5)%nat -> wf_lanes k V -> words 8 blk -> wf_lanes k (MI k stmts blk V).
Proof.
  intros Hk [HL HV] Hb. unfold MI. set (regs := take 5 _ ++ _).
  assert (wf_lanes 8 regs) as Hr.
  { unfold regs. split.
    - rewrite length_app, length_take, length_app, length_replicate. cbn [length]. lia.
    - apply Forall_app_2.
      + apply Forall_take, Forall_app_2; [done|]. apply Forall_replicate, zeros_wf.
      + repeat apply List.Forall_cons; try apply List.Forall_nil; auto using zeros_wf, mi_message_wf. }
  assert (wf_lanes 8 (fold_left mi_exec stmts regs)) as [Hl Hf].
  { clearbody regs. revert regs Hr. induction stmts as [|i l IH]; intros regs Hr; [done|].
    rewrite fold_left_cons. by apply IH, mi_exec_wf. }
  split; [rewrite length_take; lia|by apply Forall_take].
Qed.

Section Digest.
Context (k : nat) (stmts : list mi_stmt) (matrix : list (list Z)).
Context (P Ps : list (list Z) -> list (list Z)) (Hk : (k <= 5)%nat).
Context (HMI : forall blk V, wf_lanes k V -> MI k stmts blk V = Ref.inject matrix V (mi_message blk)).
Context (HP : forall V, wf_lanes k V -> P V = Ps V /\ wf_lanes k (P V)).
Context (block : list (list Z) -> list Z -> list (list Z)).
Context (Hblock : forall V blk, block V blk = P (MI k stmts blk V)).

Lemma mi_message_blocks blk : length blk = 32%nat -> mi_message blk = sph_dec32be <$> blocks 4 blk.
Proof.
  intros H. unfold mi_message, blocks. rewrite H. apply (dec_blocks _ _ 8 _ dec32be_take).
Qed.

Lemma block_absorb V blk :
  wf_lanes k V -> words 8 blk -> length blk = 32%nat ->
  block V blk = Spec.absorb matrix Ps V blk /\ wf_lanes k (block V blk).
Proof.
  intros HV Hb Hl. rewrite Hblock. unfold Spec.absorb. rewrite <- mi_message_blocks, <- HMI by done.
  apply HP. by apply MI_wf.
Qed.

Lemma luffa_fold_block msg V :
  wf_lanes k V -> words 8 msg ->
  fold_left block (blocks 32 msg) V = fold_left (Spec.absorb matrix Ps) (blocks 32 msg) V /\
  wf_lanes k (fold_left block (blocks 32 msg) V).
Proof.
  intros HV Hw. apply (fold_left_sim (fun V W => V = W /\ wf_lanes k V)); [done|].
  intros V1 V2 blk Hin [<- HV1]. apply block_absorb; [done|..].
  - eapply Forall_forall in Hin; [|by apply (blocks_words 32 8)]. exact Hin.
  - eapply Forall_forall in Hin; [|apply (blocks_length 32); lia]. exact Hin.
Qed.

Lemma V_INIT_wf : wf_lanes k (take k V_INIT).
Proof.
  split; [rewrite length_take; simpl; lia|]. apply Forall_take.
  assert (forallb (fun v => (length v =? 8)%nat && rc_ok v) V_INIT = true) as H
    by (vm_compute; reflexivity).
  rewrite forallb_forall in H. apply Forall_forall. intros v Hv%list_elem_of_In%H.
  rewrite andb_true_iff, Nat.eqb_eq in Hv. destruct Hv as [H1 H2%rc_ok_words]. done.
Qed.

(** The state after the padded message. *)
Lemma last_block msg sc ub n :
  repr 32 block (take k V_INIT) msg sc -> length (buf sc) = 32%nat -> words 8 msg ->
  block (st sc) (padded sc ub n) = Spec.final matrix Ps k msg (mark_byte ub n) /\
  wf_lanes k (Spec.final matrix Ps k msg (mark_byte ub n)) /\
  length (padded sc ub n) = 32%nat.
Proof.
  intros Hr Hb Hw. pose proof (repr_wf 32 block ltac:(lia) _ _ _ Hr) as [_ Hp].
  pose proof (proj1 (proj2 Hr)) as Hptr. set (pd := Spec.pad (length msg) (mark_byte ub n)).
  assert (padded sc ub n = take (ptr sc) (buf sc) ++ pd) as ->.
  { unfold padded. cbv zeta. rewrite mark_fill by lia. unfold pd, Spec.pad. rewrite <- Hptr.
    replace (32 - S (ptr sc))%nat with (31 - ptr sc)%nat by lia. reflexivity. }
  assert (ptr sc + length pd = 32)%nat as Hpd.
  { unfold pd, Spec.pad. cbn [length]. rewrite length_replicate. lia. }
  rewrite (repr_finish 32 block ltac:(lia) _ _ _ pd Hr Hpd). unfold Spec.final. fold pd.
  destruct (luffa_fold_block (msg ++ pd) _ V_INIT_wf) as [E W].
  { apply Forall_app_2; [done|]. apply List.Forall_cons; [apply uchar_word|auto with words]. }
  rewrite <- E. split_and!; [done|done|]. rewrite length_app, length_take. lia.
Qed.

Lemma blank_step V :
  wf_lanes k V ->
  block V (replicate 32 0) = Spec.absorb matrix Ps V Spec.blank /\
  wf_lanes k (Spec.absorb matrix Ps V Spec.blank).
Proof.
  intros HV. destruct (block_absorb V (replicate 32 0) HV) as [E W]; [auto with words|done|].
  unfold Spec.blank. by rewrite <- E.
Qed.

Lemma memset_all u : length u = 32%nat -> memset u 0 0 32 = Spec.blank.
Proof. intros H. unfold memset. by apply memcpy_all. Qed.

(** The buffers and states of the closing loop. *)
Lemma closing msg sc ub n :
  repr 32 block (take k V_INIT) msg sc -> length (buf sc) = 32%nat -> words 8 msg ->
  let A := fun V => Spec.absorb matrix Ps V Spec.blank in
  let V := Spec.final matrix Ps k msg (mark_byte ub n) in
  block (st sc) (padded sc ub n) = V /\ memset (padded sc ub n) 0 0 32 = Spec.blank /\
  block V Spec.blank = A V /\ block (A V) Spec.blank = A (A V).
Proof.
  intros Hr Hb Hw. cbv zeta. destruct (last_block msg sc ub n Hr Hb Hw) as (E & W & Hpl).
  destruct (blank_step _ W) as [E1 W1]. destruct (blank_step _ W1) as [E2 _].
  split_and!; [exact E|by apply memset_all|exact E1|exact E2].
Qed.

(** A context that has received the message in chunks. *)
Lemma chunks (cc : sph_luffa_context) ds :
  length (buf cc) = 32%nat ->
  let sc := fold_left (core 32 block) ds (mk_ctx (buf cc) 0 (take k V_INIT)) in
  repr 32 block (take k V_INIT) (concat ds) sc /\ length (buf sc) = 32%nat.
Proof.
  intros Hb. cbv zeta. split.
  - apply (init_core_repr 32 block); lia.
  - etrans; [apply (cores_length_buf 32 block); lia|exact Hb].
Qed.
End Digest.

(** The three instances. *)
Lemma lane_wf RC0 RC4 v :
  rc_ok RC0 = true -> rc_ok RC4 = true -> wf_arr 32 8 v -> wf_arr 32 8 (lane RC0 RC4 v).
Proof. intros H0 H4. apply (lane_inj_on RC0 RC4 H0 H4). Qed.

Ltac lanes_wf k :=
  let V := fresh "V" in let H := fresh "H" in
  intros V H; apply TWEAK_wf in H;
  split; [reflexivity|]; repeat apply List.Forall_cons; try apply List.Forall_nil;
  (apply lane_wf; [reflexivity|reflexivity|]); apply (v_of_wf k); (done || lia).

Lemma P3_serial_wf V : wf_lanes 3 V -> wf_lanes 3 (P3_serial V).
Proof. revert V. lanes_wf 3%nat. Qed.
Lemma P4_serial_wf V : wf_lanes 4 V -> wf_lanes 4 (P4_serial V).
Proof. revert V. lanes_wf 4%nat. Qed.
Lemma P5_serial_wf V : wf_lanes 5 V -> wf_lanes 5 (P5_serial V).
Proof. revert V. lanes_wf 5%nat. Qed.

Lemma P3_ok V : wf_lanes 3 V -> P3 V = P3_serial V /\ wf_lanes 3 (P3 V).
Proof. intros H. rewrite P3_eq by done. split; [done|by apply P3_serial_wf]. Qed.
Lemma P4_ok V : wf_lanes 4 V -> P4 V = P4_serial V /\ wf_lanes 4 (P4 V).
Proof. intros H. rewrite P4_eq by done. split; [done|by apply P4_serial_wf]. Qed.
Lemma P5_ok V : wf_lanes 5 V -> P5 V = P5_serial V /\ wf_lanes 5 (P5 V).
Proof. intros H. rewrite P5_eq by done. split; [done|by apply P5_serial_wf]. Qed.

Lemma length_fold_lanes V : length (fold_lanes V) = 8%nat.
Proof. unfold fold_lanes. by rewrite length_fmap. Qed.

(** ** Main results *)

(** The permutations that handle two 32-bit lanes in the halves of 64-bit words
    and those that handle one lane at a time agree, for three, four and five
    lanes. *)
Theorem luffa_parallel_serial :
  (forall V, wf_lanes 3 V -> P3 V = P3_serial V) /\
  (forall V, wf_lanes 4 V -> P4 V = P4_serial V) /\
  (forall V, wf_lanes 5 V -> P5 V = P5_serial V).
Proof. split_and!; [apply P3_eq|apply P4_eq|apply P5_eq]. Qed.

Lemma luffa_parallel_serial_witness : P5 V_INIT = P5_serial V_INIT.
Proof.
  destruct luffa_parallel_serial as (_ & _ & H). apply H.
  split; [reflexivity|]. repeat constructor; unfold word; lia.
Defined.

(** The straight-line code of message injection multiplies the vector of lanes
    and message by the specified matrix over GF(2)[x]/(x^8 + x^4 + x^3 + x + 1),
    for three, four and five lanes. *)
Theorem luffa_injection_matrix buf :
  (forall V, wf_lanes 3 V -> MI3 buf V = Ref.inject Ref.matrix3 V (mi_message buf)) /\
  (forall V, wf_lanes 4 V -> MI4 buf V = Ref.inject Ref.matrix4 V (mi_message buf)) /\
  (forall V, wf_lanes 5 V -> MI5 buf V = Ref.inject Ref.matrix5 V (mi_message buf)).
Proof. unfold MI3, MI4, MI5. split_and!; [apply MI3_ref|apply MI4_ref|apply MI5_ref]. Qed.

Lemma luffa_injection_matrix_witness :
  MI5 (replicate 32 1) V_INIT = Ref.inject Ref.matrix5 V_INIT (mi_message (replicate 32 1)).
Proof.
  destruct (luffa_injection_matrix (replicate 32 1)) as (_ & _ & H). apply H.
  split; [reflexivity|]. repeat constructor; unfold word; lia.
Defined.

(** The permutation of Luffa-512 (tweak, sub-crumb, mix-word and constant
    addition over eight steps) has no collisions. *)
Theorem luffa_P5_injective V V' :
  wf_lanes 5 V -> wf_lanes 5 V' -> P5 V = P5 V' -> V = V'.
Proof.
  intros HV HV' E. rewrite !P5_eq, !P5_serial_fun in E by (done || apply HV || apply HV').
  by apply (lanes_fun_inj fun5); [apply fun5_inj_on|..].
Qed.

Lemma luffa_P5_injective_witness :
  let V i := <[2%nat := replicate 8 i]> V_INIT in P5 (V 5) <> P5 (V 6).
Proof.
  intros V Heq. discriminate (luffa_P5_injective (V 5) (V 6)); [..|exact Heq];
    (split; [reflexivity|]; repeat constructor; unfold word; lia).
Defined.

Lemma block3_eq V blk : block3 V blk = P3 (MI 3 MI3_stmts blk V).
Proof. reflexivity. Qed.
Lemma block4_eq V blk : block4 V blk = P4 (MI 4 MI4_stmts blk V).
Proof. reflexivity. Qed.
Lemma block5_eq V blk : block5 V blk = P5 (MI 5 MI5_stmts blk V).
Proof. reflexivity. Qed.

(** Digests of messages given in any chunks. *)
Lemma luffa256_spec cc ds ub n out :
  length (buf cc) = 32%nat -> words 8 (concat ds) -> (out = 7 \/ out = 8)%nat ->
  fst (luffa3_close (fold_left luffa3 ds (sph_luffa256_init cc)) ub n out) =
  Spec.hash Ref.matrix3 P3_serial 3 (concat ds) (mark_byte ub n) 1 out.
Proof.
  intros Hb Hw Hout.
  destruct (chunks 3 ltac:(lia) block3 cc ds Hb) as [Hr Hl].
  set (sc := fold_left luffa3 ds (sph_luffa256_init cc)).
  change (repr 32 block3 (take 3 V_INIT) (concat ds) sc) in Hr.
  change (length (buf sc) = 32%nat) in Hl. clearbody sc.
  destruct (closing 3 MI3_stmts Ref.matrix3 P3 P3_serial ltac:(lia) MI3_ref P3_ok block3 block3_eq
    (concat ds) sc ub n Hr Hl Hw) as (E0 & Ez & E1 & E2).
  unfold luffa3_close, Spec.hash. cbv zeta. cbn [fst seq fmap list_fmap concat Nat.iter nat_rect].
  rewrite E0, Ez, E1.
  rewrite app_nil_r. destruct Hout as [->| ->]; reflexivity.
Qed.

Lemma luffa384_spec cc ds ub n :
  length (buf cc) = 32%nat -> words 8 (concat ds) ->
  fst (luffa4_close (fold_left luffa4 ds (sph_luffa384_init cc)) ub n) =
  Spec.hash Ref.matrix4 P4_serial 4 (concat ds) (mark_byte ub n) 2 12.
Proof.
  intros Hb Hw.
  destruct (chunks 4 ltac:(lia) block4 cc ds Hb) as [Hr Hl].
  set (sc := fold_left luffa4 ds (sph_luffa384_init cc)).
  change (repr 32 block4 (take 4 V_INIT) (concat ds) sc) in Hr.
  change (length (buf sc) = 32%nat) in Hl. clearbody sc.
  destruct (closing 4 MI4_stmts Ref.matrix4 P4 P4_serial ltac:(lia) MI4_ref P4_ok block4 block4_eq
    (concat ds) sc ub n Hr Hl Hw) as (E0 & Ez & E1 & E2).
  unfold luffa4_close, Spec.hash. cbv zeta. cbn [fst seq fmap list_fmap concat Nat.iter nat_rect].
  rewrite E0, Ez, E1, E2.
  rewrite app_nil_r, take_app, length_fold_lanes, (take_ge _ 12) by (rewrite length_fold_lanes; lia).
  unfold enc_words. by rewrite fmap_app, concat_app.
Qed.

Lemma luffa512_spec cc ds ub n :
  length (buf cc) = 32%nat -> words 8 (concat ds) ->
  fst (luffa5_close (fold_left luffa5 ds (sph_luffa512_init cc)) ub n) =
  Spec.hash Ref.matrix5 P5_serial 5 (concat ds) (mark_byte ub n) 2 16.
Proof.
  intros Hb Hw.
  destruct (chunks 5 ltac:(lia) block5 cc ds Hb) as [Hr Hl].
  set (sc := fold_left luffa5 ds (sph_luffa512_init cc)).
  change (repr 32 block5 (take 5 V_INIT) (concat ds) sc) in Hr.
  change (length (buf sc) = 32%nat) in Hl. clearbody sc.
  destruct (closing 5 MI5_stmts Ref.matrix5 P5 P5_serial ltac:(lia) MI5_ref P5_ok block5 block5_eq
    (concat ds) sc ub n Hr Hl Hw) as (E0 & Ez & E1 & E2).
  unfold luffa5_close, Spec.hash. cbv zeta. cbn [fst seq fmap list_fmap concat Nat.iter nat_rect].
  rewrite E0, Ez, E1, E2.
  rewrite app_nil_r, take_ge by (rewrite length_app, !length_fold_lanes; lia).
  unfold enc_words. by rewrite fmap_app, concat_app.
Qed.

(** The digests of a message fed to Luffa in any chunks and closed with [n]
    further bits, for the 224- and 256-bit, the 384-bit and the 512-bit function:
    padding, blank rounds and output rounds are those of the specification. *)
Theorem luffa_digest cc ds ub n :
  length (buf cc) = 32%nat -> words 8 (concat ds) ->
  (forall out, (out = 7 \/ out = 8)%nat ->
   fst (luffa3_close (fold_left luffa3 ds (sph_luffa256_init cc)) ub n out) =
   Spec.hash Ref.matrix3 P3_serial 3 (concat ds) (mark_byte ub n) 1 out) /\
  fst (luffa4_close (fold_left luffa4 ds (sph_luffa384_init cc)) ub n) =
  Spec.hash Ref.matrix4 P4_serial 4 (concat ds) (mark_byte ub n) 2 12 /\
  fst (luffa5_close (fold_left luffa5 ds (sph_luffa512_init cc)) ub n) =
  Spec.hash Ref.matrix5 P5_serial 5 (concat ds) (mark_byte ub n) 2 16.
Proof.
  intros Hb Hw.
  split_and!; [intros; by apply luffa256_spec|by apply luffa384_spec|by apply luffa512_spec].
Qed.

Lemma luffa_digest_witness :
  fst (luffa5_close (fold_left luffa5 [[]] (sph_luffa512_init (mk_ctx (replicate 32 9) 0 []))) 0 0) =
  be_bytes 64 0x6E7DE4501189B3CA58F3AC114916654BBCD4922024B4CC1CD764ACFE8AB4B7805DF133EAB345FFDB1C414564C924F48E0A301824E2AC4C34BD4EFDE2E43DA90E.
Proof.
  destruct (luffa_digest (mk_ctx (replicate 32 9) 0 []) [[]] 0 0 eq_refl (Forall_nil_2 _)) as (_ & _ & H).
  rewrite H. apply list_eqb_eq. vm_compute. reflexivity.
Defined.
