(* ===== verification/CubeHash.v ===== *)
(** * cubehash.c: CubeHash-224, CubeHash-256, CubeHash-384 and CubeHash-512

    The 32-word state, the rounds [ROUND_EVEN] and [ROUND_ODD] as the statement
    sequences of the source, [SIXTEEN_ROUNDS] for every value of
    [SPH_CUBEHASH_UNROLL], the buffered core and the closing functions.
    Proved: two unrolled rounds are two rounds of the CubeHash specification,
    the permutation is a bijection on states, the initial values are the ones
    the specification derives, and the digest of any chunking of a message is
    the specified one. *)

From Stdlib Require Import ZArith Lia Btauto.
From stdpp Require Import base tactics numbers list.
From S2P Require Import Prelude SphTypes Stream.

(** ** Constants *)

Definition IV224 : list Z :=
  [
    0xB0FC8217; 0x1BEE1A90; 0x829E1A22; 0x6362C342; 0x24D91C30; 0x03A7AA24;
    0xA63721C8; 0x85B0E2EF; 0xF35D13F3; 0x41DA807D; 0x21A70CA6; 0x1F4E9774;
    0xB3E1C932; 0xEB0A79A8; 0xCDDAAA66; 0xE2F6ECAA; 0x0A713362; 0xAA3080E0;
    0xD8F23A32; 0xCEF15E28; 0xDB086314; 0x7F709DF7; 0xACD228A4; 0x704D6ECE;
    0xAA3EC95F; 0xE387C214; 0x3A6445FF; 0x9CAB81C3; 0xC73D4B98; 0xD277AEBE;
    0xFD20151C; 0x00CB573E].

Definition IV256 : list Z :=
  [
    0xEA2BD4B4; 0xCCD6F29F; 0x63117E71; 0x35481EAE; 0x22512D5B; 0xE5D94E63;
    0x7E624131; 0xF4CC12BE; 0xC2D0B696; 0x42AF2070; 0xD0720C35; 0x3361DA8C;
    0x28CCECA4; 0x8EF8AD83; 0x4680AC00; 0x40E5FBAB; 0xD89041C3; 0x6107FBD5;
    0x6C859D41; 0xF0B26679; 0x09392549; 0x5FA25603; 0x65C892FD; 0x93CB6285;
    0x2AF2B5AE; 0x9E4B4E60; 0x774ABFDD; 0x85254725; 0x15815AEB; 0x4AB6AAD6;
    0x9CDAF8AF; 0xD6032C0A].

Definition IV384 : list Z :=
  [
    0xE623087E; 0x04C00C87; 0x5EF46453; 0x69524B13; 0x1A05C7A9; 0x3528DF88;
    0x6BDD01B5; 0x5057B792; 0x6AA7A922; 0x649C7EEE; 0xF426309F; 0xCB629052;
    0xFC8E20ED; 0xB3482BAB; 0xF89E5E7E; 0xD83D4DE4; 0x44BFC10D; 0x5FC1E63D;
    0x2104E6CB; 0x17958F7F; 0xDBEAEF70; 0xB4B97E1E; 0x32C195F6; 0x6184A8E4;
    0x796C2543; 0x23DE176D; 0xD33BBAEC; 0x0C12E5D2; 0x4EB95A7B; 0x2D18BA01;
    0x04EE475F; 0x1FC5F22E].

Definition IV512 : list Z :=
  [
    0x2AEA2A61; 0x50F494D4; 0x2D538B8B; 0x4167D83E; 0x3FEE2313; 0xC701CF8C;
    0xCC39968E; 0x50AC5695; 0x4D42C787; 0xA647A8B3; 0x97CF0BEF; 0x825B4537;
    0xEEF864D2; 0xF22090C4; 0xD0E5CD33; 0xA23911AE; 0xFCD398D9; 0x148FE485;
    0x1B017BEF; 0xB6444532; 0x6A536159; 0x2FF5781C; 0x91FA7934; 0x0DBADEA9;
    0xD65C8A2B; 0xA5A70E75; 0xB1C62456; 0xBC796576; 0x1921C8F7; 0xE7989AF1;
    0x7795D246; 0xD43E3B44].

(** ** The round, statement by statement *)

(** The variables [x0] to [xv] are [sc->state[0]] to [sc->state[31]]. *)
Abbreviation x0 := 0%nat (only parsing).
Abbreviation x1 := 1%nat (only parsing).
Abbreviation x2 := 2%nat (only parsing).
Abbreviation x3 := 3%nat (only parsing).
Abbreviation x4 := 4%nat (only parsing).
Abbreviation x5 := 5%nat (only parsing).
Abbreviation x6 := 6%nat (only parsing).
Abbreviation x7 := 7%nat (only parsing).
Abbreviation x8 := 8%nat (only parsing).
Abbreviation x9 := 9%nat (only parsing).
Abbreviation xa := 10%nat (only parsing).
Abbreviation xb := 11%nat (only parsing).
Abbreviation xc := 12%nat (only parsing).
Abbreviation xd := 13%nat (only parsing).
Abbreviation xe := 14%nat (only parsing).
Abbreviation xf := 15%nat (only parsing).
Abbreviation xg := 16%nat (only parsing).
Abbreviation xh := 17%nat (only parsing).
Abbreviation xi := 18%nat (only parsing).
Abbreviation xj := 19%nat (only parsing).
Abbreviation xk := 20%nat (only parsing).
Abbreviation xl := 21%nat (only parsing).
Abbreviation xm := 22%nat (only parsing).
Abbreviation xn := 23%nat (only parsing).
Abbreviation xo := 24%nat (only parsing).
Abbreviation xp := 25%nat (only parsing).
Abbreviation xq := 26%nat (only parsing).
Abbreviation xr := 27%nat (only parsing).
Abbreviation xs := 28%nat (only parsing).
Abbreviation xt := 29%nat (only parsing).
Abbreviation xu := 30%nat (only parsing).
Abbreviation xv := 31%nat (only parsing).

(** [d = T32(s + d)], [x = ROTL32(x, n)] and [d ^= s]. *)
Inductive stmt : Type :=
| Add (d s : nat)
| Rotl (x : nat) (n : Z)
| Xor (d s : nat).

Definition exec (V : list Z) (i : stmt) : list Z :=
  match i with
  | Add d s => <[d := SPH_T32 (V.[s] + V.[d])]> V
  | Rotl x n => <[x := SPH_ROTL32 V.[x] n]> V
  | Xor d s => <[d := V.[d] ⊕ V.[s]]> V
  end.
Definition run (p : list stmt) (V : list Z) : list Z := fold_left exec p V.

Definition ROUND_EVEN_stmts : list stmt :=
  [
    Add xg x0; Rotl x0 7; Add xh x1; Rotl x1 7; Add xi x2; Rotl x2 7;
    Add xj x3; Rotl x3 7; Add xk x4; Rotl x4 7; Add xl x5; Rotl x5 7;
    Add xm x6; Rotl x6 7; Add xn x7; Rotl x7 7; Add xo x8; Rotl x8 7;
    Add xp x9; Rotl x9 7; Add xq xa; Rotl xa 7; Add xr xb; Rotl xb 7;
    Add xs xc; Rotl xc 7; Add xt xd; Rotl xd 7; Add xu xe; Rotl xe 7;
    Add xv xf; Rotl xf 7; Xor x8 xg; Xor x9 xh; Xor xa xi; Xor xb xj;
    Xor xc xk; Xor xd xl; Xor xe xm; Xor xf xn; Xor x0 xo; Xor x1 xp;
    Xor x2 xq; Xor x3 xr; Xor x4 xs; Xor x5 xt; Xor x6 xu; Xor x7 xv;
    Add xi x8; Rotl x8 11; Add xj x9; Rotl x9 11; Add xg xa; Rotl xa 11;
    Add xh xb; Rotl xb 11; Add xm xc; Rotl xc 11; Add xn xd; Rotl xd 11;
    Add xk xe; Rotl xe 11; Add xl xf; Rotl xf 11; Add xq x0; Rotl x0 11;
    Add xr x1; Rotl x1 11; Add xo x2; Rotl x2 11; Add xp x3; Rotl x3 11;
    Add xu x4; Rotl x4 11; Add xv x5; Rotl x5 11; Add xs x6; Rotl x6 11;
    Add xt x7; Rotl x7 11; Xor xc xi; Xor xd xj; Xor xe xg; Xor xf xh;
    Xor x8 xm; Xor x9 xn; Xor xa xk; Xor xb xl; Xor x4 xq; Xor x5 xr;
    Xor x6 xo; Xor x7 xp; Xor x0 xu; Xor x1 xv; Xor x2 xs; Xor x3 xt].

Definition ROUND_ODD_stmts : list stmt :=
  [
    Add xj xc; Rotl xc 7; Add xi xd; Rotl xd 7; Add xh xe; Rotl xe 7;
    Add xg xf; Rotl xf 7; Add xn x8; Rotl x8 7; Add xm x9; Rotl x9 7;
    Add xl xa; Rotl xa 7; Add xk xb; Rotl xb 7; Add xr x4; Rotl x4 7;
    Add xq x5; Rotl x5 7; Add xp x6; Rotl x6 7; Add xo x7; Rotl x7 7;
    Add xv x0; Rotl x0 7; Add xu x1; Rotl x1 7; Add xt x2; Rotl x2 7;
    Add xs x3; Rotl x3 7; Xor x4 xj; Xor x5 xi; Xor x6 xh; Xor x7 xg;
    Xor x0 xn; Xor x1 xm; Xor x2 xl; Xor x3 xk; Xor xc xr; Xor xd xq;
    Xor xe xp; Xor xf xo; Xor x8 xv; Xor x9 xu; Xor xa xt; Xor xb xs;
    Add xh x4; Rotl x4 11; Add xg x5; Rotl x5 11; Add xj x6; Rotl x6 11;
    Add xi x7; Rotl x7 11; Add xl x0; Rotl x0 11; Add xk x1; Rotl x1 11;
    Add xn x2; Rotl x2 11; Add xm x3; Rotl x3 11; Add xp xc; Rotl xc 11;
    Add xo xd; Rotl xd 11; Add xr xe; Rotl xe 11; Add xq xf; Rotl xf 11;
    Add xt x8; Rotl x8 11; Add xs x9; Rotl x9 11; Add xv xa; Rotl xa 11;
    Add xu xb; Rotl xb 11; Xor x0 xh; Xor x1 xg; Xor x2 xj; Xor x3 xi;
    Xor x4 xl; Xor x5 xk; Xor x6 xn; Xor x7 xm; Xor x8 xp; Xor x9 xo;
    Xor xa xr; Xor xb xq; Xor xc xt; Xor xd xs; Xor xe xv; Xor xf xu].

Definition ROUND_EVEN (V : list Z) : list Z := run ROUND_EVEN_stmts V.
Definition ROUND_ODD (V : list Z) : list Z := run ROUND_ODD_stmts V.

(** [SPH_CUBEHASH_UNROLL] of 2, 4, 8, and the full unrolling (the default). *)
Definition TWO_ROUNDS (V : list Z) : list Z := ROUND_ODD (ROUND_EVEN V).
Definition SIXTEEN_ROUNDS_2 (V : list Z) : list Z := Nat.iter 8 TWO_ROUNDS V.
Definition SIXTEEN_ROUNDS_4 (V : list Z) : list Z :=
  Nat.iter 4 (fun V => TWO_ROUNDS (TWO_ROUNDS V)) V.
Definition SIXTEEN_ROUNDS_8 (V : list Z) : list Z :=
  Nat.iter 2 (fun V => TWO_ROUNDS (TWO_ROUNDS (TWO_ROUNDS (TWO_ROUNDS V)))) V.
Definition SIXTEEN_ROUNDS (V : list Z) : list Z :=
  TWO_ROUNDS (TWO_ROUNDS (TWO_ROUNDS (TWO_ROUNDS
    (TWO_ROUNDS (TWO_ROUNDS (TWO_ROUNDS (TWO_ROUNDS V))))))).

(** ** The context and its operations *)

Definition sph_cubehash_context : Type := stream_ctx (list Z).

Definition INPUT_BLOCK (V buf : list Z) : list Z :=
  fold_left (fun V i => <[i := V.[i] ⊕ sph_dec32le (drop (4 * i) buf)]> V) (seq 0 8) V.

Definition cubehash_block (V buf : list Z) : list Z := SIXTEEN_ROUNDS (INPUT_BLOCK V buf).

Definition cubehash_init (sc : sph_cubehash_context) (iv : list Z) : sph_cubehash_context :=
  mk_ctx (buf sc) 0 iv.
Definition cubehash_core (sc : sph_cubehash_context) (data : list Z) : sph_cubehash_context :=
  core 32 cubehash_block sc data.

(** The loop of [cubehash_close]: 11 times 16 rounds, the last word changed
    after the first. *)
Definition cubehash_close (sc : sph_cubehash_context) (ub n : Z) (out_size_w32 : nat) :
    list Z * sph_cubehash_context :=
  let z := 0x80 >> n in
  let buf' := <[ptr sc := ((ub .& SPH_T32 (- z)) .| z) .& 0xFF]> (buf sc) in
  let ptr' := S (ptr sc) in
  let buf' := memset buf' ptr' 0 (32 - ptr') in
  let V := INPUT_BLOCK (st sc) buf' in
  let V := fold_left (fun V i =>
      let V := SIXTEEN_ROUNDS V in
      if (i =? 0)%nat then <[xv := V.[xv] ⊕ 1]> V else V) (seq 0 11) V in
  (concat (sph_enc32le <$> take out_size_w32 V), mk_ctx buf' ptr' V).

Definition sph_cubehash224_init (cc : sph_cubehash_context) := cubehash_init cc IV224.
Definition sph_cubehash224 (cc : sph_cubehash_context) (data : list Z) := cubehash_core cc data.
Definition sph_cubehash224_addbits_and_close (cc : sph_cubehash_context) (ub n : Z) :=
  let '(dst, cc) := cubehash_close cc ub n 7 in (dst, sph_cubehash224_init cc).
Definition sph_cubehash224_close (cc : sph_cubehash_context) := sph_cubehash224_addbits_and_close cc 0 0.

Definition sph_cubehash256_init (cc : sph_cubehash_context) := cubehash_init cc IV256.
Definition sph_cubehash256 (cc : sph_cubehash_context) (data : list Z) := cubehash_core cc data.
Definition sph_cubehash256_addbits_and_close (cc : sph_cubehash_context) (ub n : Z) :=
  let '(dst, cc) := cubehash_close cc ub n 8 in (dst, sph_cubehash256_init cc).
Definition sph_cubehash256_close (cc : sph_cubehash_context) := sph_cubehash256_addbits_and_close cc 0 0.

Definition sph_cubehash384_init (cc : sph_cubehash_context) := cubehash_init cc IV384.
Definition sph_cubehash384 (cc : sph_cubehash_context) (data : list Z) := cubehash_core cc data.
Definition sph_cubehash384_addbits_and_close (cc : sph_cubehash_context) (ub n : Z) :=
  let '(dst, cc) := cubehash_close cc ub n 12 in (dst, sph_cubehash384_init cc).
Definition sph_cubehash384_close (cc : sph_cubehash_context) := sph_cubehash384_addbits_and_close cc 0 0.

Definition sph_cubehash512_init (cc : sph_cubehash_context) := cubehash_init cc IV512.
Definition sph_cubehash512 (cc : sph_cubehash_context) (data : list Z) := cubehash_core cc data.
Definition sph_cubehash512_addbits_and_close (cc : sph_cubehash_context) (ub n : Z) :=
  let '(dst, cc) := cubehash_close cc ub n 16 in (dst, sph_cubehash512_init cc).
Definition sph_cubehash512_close (cc : sph_cubehash_context) := sph_cubehash512_addbits_and_close cc 0 0.

(** ** Reference: the CubeHash round *)

Module Ref.
Definition build (f : nat -> Z) : list Z := f <$> seq 0 32.

(** Add the first half into the second; rotate the first half; exchange the
    words of the first half whose index differs in bit [j]; xor the second half
    into the first; exchange the words of the second half that differ in [k]. *)
Definition add_halves (V : list Z) : list Z :=
  build (fun i => if (i <? 16)%nat then V.[i] else SPH_T32 (V.[i - 16] + V.[i])).
Definition rotate_low (r : Z) (V : list Z) : list Z :=
  build (fun i => if (i <? 16)%nat then SPH_ROTL32 V.[i] r else V.[i]).
Definition swap_low (j : nat) (V : list Z) : list Z :=
  build (fun i => if (i <? 16)%nat then V.[Nat.lxor i j] else V.[i]).
Definition xor_halves (V : list Z) : list Z :=
  build (fun i => if (i <? 16)%nat then V.[i] ⊕ V.[i + 16] else V.[i]).
Definition swap_high (k : nat) (V : list Z) : list Z :=
  build (fun i => if (i <? 16)%nat then V.[i] else V.[Nat.lxor i k]).

Definition half_round (r : Z) (j k : nat) (V : list Z) : list Z :=
  swap_high k (xor_halves (swap_low j (rotate_low r (add_halves V)))).
Definition round (V : list Z) : list Z := half_round 11 4 1 (half_round 7 8 2 V).
Definition rounds (n : nat) (V : list Z) : list Z := Nat.iter n round V.

(** The initial state for [h] bits of digest: [h/8], the block size in bytes,
    the rounds per block, zeros; then 10 times the rounds of a block. *)
Definition iv (h : Z) : list Z := rounds 160 ([h / 8; 32; 16] ++ replicate 29 0).
End Ref.

(** ** The unrolled rounds are the rounds of the specification *)

(** Where [ROUND_EVEN] leaves the words: the exchanges are not carried out. *)
Definition swapped : list nat :=
  (fun i => if (i <? 16)%nat then Nat.lxor i 12 else Nat.lxor i 3) <$> seq 0 32.

Ltac destruct32 V H :=
  do 32 (destruct V as [|? V]; [discriminate H|]); destruct V; [clear H|discriminate H].

Lemma ROUND_EVEN_ref V : length V = 32%nat -> ROUND_EVEN V = sel swapped (Ref.round V).
Proof. intros H. destruct32 V H. lazy -[SPH_T32 SPH_ROTL32 Z.add Z.lxor]. reflexivity. Qed.

Lemma ROUND_ODD_ref V : length V = 32%nat -> ROUND_ODD (sel swapped V) = Ref.round V.
Proof. intros H. destruct32 V H. lazy -[SPH_T32 SPH_ROTL32 Z.add Z.lxor]. reflexivity. Qed.

Lemma cube_length_round V : length (Ref.round V) = 32%nat.
Proof. exact eq_refl. Qed.

(** The rounds are unfolded last when terms are compared. *)
Strategy 100 [TWO_ROUNDS ROUND_EVEN ROUND_ODD run Ref.round].

Lemma TWO_ROUNDS_ref V : length V = 32%nat -> TWO_ROUNDS V = Ref.rounds 2 V.
Proof.
  intros H. unfold TWO_ROUNDS. rewrite ROUND_EVEN_ref by done.
  by rewrite ROUND_ODD_ref by apply cube_length_round.
Qed.

Lemma length_rounds n V : length V = 32%nat -> length (Ref.rounds n V) = 32%nat.
Proof. intros H. destruct n; [done|]. apply cube_length_round. Qed.

Lemma rounds_add n m V : Ref.rounds n (Ref.rounds m V) = Ref.rounds (n + m) V.
Proof. unfold Ref.rounds. by rewrite Nat.iter_add. Qed.

Lemma iter_TWO_ROUNDS n V : length V = 32%nat -> Nat.iter n TWO_ROUNDS V = Ref.rounds (2 * n) V.
Proof.
  intros H. induction n as [|n IH]; [done|]. rewrite Nat.iter_succ.
  rewrite IH, TWO_ROUNDS_ref, rounds_add by auto using length_rounds. f_equal. lia.
Qed.

Lemma SIXTEEN_ROUNDS_ref V : length V = 32%nat -> SIXTEEN_ROUNDS V = Ref.rounds 16 V.
Proof.
  intros HV. pose proof (iter_TWO_ROUNDS 8 V HV) as H. unfold SIXTEEN_ROUNDS.
  rewrite <- (eq_refl : (2 * 8)%nat = 16%nat), <- H. generalize TWO_ROUNDS. reflexivity.
Qed.

(** ** The permutation is a bijection *)

(** A state: 32 words of 32 bits. *)
Definition wf_state (V : list Z) : Prop := length V = 32%nat /\ words 32 V.

Definition exec_inv (V : list Z) (i : stmt) : list Z :=
  match i with
  | Add d s => <[d := SPH_T32 (V.[d] - V.[s])]> V
  | Rotl x n => <[x := SPH_ROTR32 V.[x] n]> V
  | Xor d s => <[d := V.[d] ⊕ V.[s]]> V
  end.
Definition run_inv (p : list stmt) (V : list Z) : list Z := fold_left exec_inv (rev p) V.

(** Statements that can be undone. *)
Definition stmt_ok (i : stmt) : bool :=
  match i with
  | Add d s | Xor d s => (d <? 32)%nat && (s <? 32)%nat && negb (d =? s)%nat
  | Rotl x n => (x <? 32)%nat && (0 <=? n) && (n <=? 32)
  end.

Lemma stmts_ok : forallb stmt_ok (ROUND_EVEN_stmts ++ ROUND_ODD_stmts) = true.
Proof. vm_compute. reflexivity. Qed.

Lemma wf_insert V i x : wf_state V -> word 32 x -> wf_state (<[i := x]> V).
Proof.
  intros [HL HW] Hx. split; [by rewrite length_insert|]. by apply Forall_insert.
Qed.

Lemma exec_wf V i : wf_state V -> wf_state (exec V i).
Proof.
  intros H. pose proof H as [HL HW]. destruct i; apply wf_insert; auto with words.
  apply word_lxor; by apply words_nth.
Qed.

Lemma insert_undo (V : list Z) d x y :
  (d < length V)%nat -> y = V.[d] -> <[d := y]> (<[d := x]> V) = V.
Proof.
  intros Hd ->. rewrite list_insert_insert_eq. apply list_insert_id.
  destruct (lookup_lt_is_Some_2 V d Hd) as [v Hv]. by rewrite nth_lookup, Hv.
Qed.

Lemma exec_inv_exec V i : stmt_ok i = true -> wf_state V -> exec_inv (exec V i) i = V.
Proof.
  intros Hi [HL HW]. assert (forall k, word 32 V.[k]) as W by (intros; by apply words_nth).
  destruct i as [d s|x n|d s]; cbn [stmt_ok] in Hi;
    rewrite !andb_true_iff, ?Nat.ltb_lt, ?Z.leb_le, ?negb_true_iff, ?Nat.eqb_neq in Hi;
    unfold exec, exec_inv; apply insert_undo; rewrite ?nth_insert by (rewrite HL; lia);
    rewrite ?decide_True by done; rewrite ?decide_False by lia; try lia.
  - rewrite Z.add_comm. by apply (wT_add_sub 32).
  - apply (wrotr_wrotl 32); (done || lia).
  - by rewrite Z.lxor_assoc, Z.lxor_nilpotent, Z.lxor_0_r.
Qed.

Lemma run_wf p V : wf_state V -> wf_state (run p V).
Proof. revert V. induction p; intros V H; [done|]. apply IHp. by apply exec_wf. Qed.

Lemma run_inv_run p V : forallb stmt_ok p = true -> wf_state V -> run_inv p (run p V) = V.
Proof.
  revert V. induction p as [|i p IH]; intros V Hp HV; [done|].
  cbn [forallb] in Hp. apply andb_true_iff in Hp as [Hi Hp].
  unfold run, run_inv in *. cbn [rev]. rewrite fold_left_app, (fold_left_cons exec).
  rewrite IH by auto using exec_wf. by apply exec_inv_exec.
Qed.

Definition TWO_ROUNDS_inv (V : list Z) : list Z :=
  run_inv ROUND_EVEN_stmts (run_inv ROUND_ODD_stmts V).

Lemma TWO_ROUNDS_inv_TWO_ROUNDS V :
  wf_state V -> wf_state (TWO_ROUNDS V) /\ TWO_ROUNDS_inv (TWO_ROUNDS V) = V.
Proof.
  intros HV. pose proof stmts_ok as H. rewrite forallb_app, andb_true_iff in H.
  destruct H as [He Ho]. unfold TWO_ROUNDS, TWO_ROUNDS_inv, ROUND_EVEN, ROUND_ODD.
  split; [by repeat apply run_wf|].
  rewrite (run_inv_run _ _ Ho) by by apply run_wf. by apply run_inv_run.
Qed.

Lemma iter_TWO_ROUNDS_inj n V :
  wf_state V ->
  wf_state (Nat.iter n TWO_ROUNDS V) /\ Nat.iter n TWO_ROUNDS_inv (Nat.iter n TWO_ROUNDS V) = V.
Proof.
  revert V. induction n as [|n IH]; intros V HV; [done|].
  rewrite (Nat.iter_succ_r n TWO_ROUNDS), (Nat.iter_succ n TWO_ROUNDS_inv).
  destruct (TWO_ROUNDS_inv_TWO_ROUNDS V HV) as [H1 H2].
  destruct (IH _ H1) as [H3 H4]. by rewrite H4.
Qed.

(** ** Digests *)

Module Spec.
(** The padded message: the marker byte, zeros up to a block boundary. *)
Definition pad (len : nat) (mb : Z) : list Z := mb :: replicate (31 - len mod 32) 0.

(** A block is xored into the first 8 words and followed by 16 rounds. *)
Definition absorb (V blk : list Z) : list Z :=
  Ref.rounds 16 (lxor_list V ((sph_dec32le <$> blocks 4 blk) ++ replicate 24 0)).
(** After the last block, 1 is xored into the last word, then 160 rounds. *)
Definition finish (V : list Z) : list Z :=
  Ref.rounds 160 (<[31%nat := V.[31] ⊕ 1]> V).
Definition hash (iv msg : list Z) (mb : Z) (words : nat) : list Z :=
  let V := fold_left absorb (blocks 32 (msg ++ pad (length msg) mb)) iv in
  concat (sph_enc32le <$> take words (finish V)).
End Spec.

Lemma INPUT_BLOCK_lxor V blk :
  length V = 32%nat -> length blk = 32%nat ->
  INPUT_BLOCK V blk = lxor_list V ((sph_dec32le <$> blocks 4 blk) ++ replicate 24 0).
Proof.
  intros HV Hb. destruct32 V HV. destruct32 blk Hb.
  lazy -[Z.lxor Z.lor Z.shiftl]. by rewrite !Z.lxor_0_r.
Qed.

Lemma cubehash_block_absorb V blk :
  length V = 32%nat -> length blk = 32%nat ->
  cubehash_block V blk = Spec.absorb V blk /\ length (Spec.absorb V blk) = 32%nat.
Proof.
  intros HV Hb. unfold cubehash_block, Spec.absorb. rewrite INPUT_BLOCK_lxor by done.
  split; [|apply length_rounds];
    [apply SIXTEEN_ROUNDS_ref|]; rewrite length_zip_with, length_app, length_fmap, length_blocks,
      Hb, HV; exact eq_refl.
Qed.

Lemma fold_absorb V msg :
  length V = 32%nat ->
  fold_left cubehash_block (blocks 32 msg) V = fold_left Spec.absorb (blocks 32 msg) V /\
  length (fold_left Spec.absorb (blocks 32 msg) V) = 32%nat.
Proof.
  intros HV. apply (fold_left_sim (fun a b => a = b /\ length b = 32%nat)); [done|].
  intros a b blk Hin [-> Hb]. apply (cubehash_block_absorb b blk Hb).
  eapply Forall_forall in Hin; [|apply blocks_length]; [exact Hin|lia].
Qed.

Lemma fold_SIXTEEN_ROUNDS o m X :
  length X = 32%nat ->
  fold_left (fun V _ => SIXTEEN_ROUNDS V) (seq o m) X = Ref.rounds (16 * m) X.
Proof.
  revert o X. induction m as [|m IH]; intros o X HX; [by rewrite Nat.mul_0_r|].
  cbn [seq]. rewrite fold_left_cons, IH, SIXTEEN_ROUNDS_ref; try done.
  - rewrite rounds_add. f_equal. lia.
  - rewrite SIXTEEN_ROUNDS_ref by done. by apply length_rounds.
Qed.

(** The closing loop: the last block's rounds, then the finalisation. *)
Lemma closing_loop V :
  length V = 32%nat ->
  fold_left (fun V i =>
      let V := SIXTEEN_ROUNDS V in
      if (i =? 0)%nat then <[xv := V.[xv] ⊕ 1]> V else V) (seq 0 11) V =
  Spec.finish (SIXTEEN_ROUNDS V).
Proof.
  intros HV. change (seq 0 11) with (0 :: seq 1 10)%nat. rewrite fold_left_cons. cbv zeta.
  cbn [Nat.eqb]. unfold Spec.finish.
  assert (length (<[xv := (SIXTEEN_ROUNDS V).[xv] ⊕ 1]> (SIXTEEN_ROUNDS V)) = 32%nat) as HX.
  { rewrite length_insert, SIXTEEN_ROUNDS_ref by done. by apply length_rounds. }
  revert HX. generalize (<[xv := (SIXTEEN_ROUNDS V).[xv] ⊕ 1]> (SIXTEEN_ROUNDS V)) as X. clear.
  intros X HX. rewrite (fold_left_ext _ (fun V _ => SIXTEEN_ROUNDS V)).
  2:{ intros a i Hi%list_elem_of_In%in_seq. case Nat.eqb_spec; intros; [lia|exact eq_refl]. }
  exact (fold_SIXTEEN_ROUNDS 1 10 X HX).
Qed.

Lemma cubehash_close_spec sc iv msg ub n out :
  length iv = 32%nat -> length (buf sc) = 32%nat -> repr 32 cubehash_block iv msg sc ->
  fst (cubehash_close sc ub n out) = Spec.hash iv msg (mark_byte ub n) out.
Proof.
  intros Hiv Hb Hr. pose proof (repr_wf 32 cubehash_block ltac:(lia) iv msg sc Hr) as [_ Hp].
  pose proof (proj1 (proj2 Hr)) as Hptr.
  set (pd := Spec.pad (length msg) (mark_byte ub n)).
  assert (ptr sc + length pd = 32)%nat as Hpd.
  { unfold pd, Spec.pad. cbn [length]. rewrite length_replicate. lia. }
  pose proof (repr_finish 32 cubehash_block ltac:(lia) iv msg sc pd Hr Hpd) as Hf.
  destruct (fold_absorb iv (msg ++ pd) Hiv) as [Ha _].
  assert (length (st sc) = 32%nat) as Hst.
  { destruct Hr as (_ & _ & _ & ->). destruct (fold_absorb iv msg Hiv) as [-> H]. exact H. }
  assert (length (take (ptr sc) (buf sc) ++ pd) = 32%nat) as Hblk.
  { rewrite length_app, length_take. lia. }
  unfold cubehash_close. cbv zeta. cbn [fst]. rewrite mark_fill by lia.
  assert (uchar ((ub .& SPH_T32 (- (0x80 >> n))) .| (0x80 >> n)) ::
          replicate (32 - S (ptr sc)) 0 = pd) as Hpd'.
  { unfold pd, Spec.pad. rewrite Hptr. f_equal. }
  unfold uchar, wT in Hpd'. rewrite Hpd'.
  rewrite closing_loop by (rewrite INPUT_BLOCK_lxor by done;
    rewrite length_zip_with, length_app, length_fmap, length_blocks, Hblk, Hst; exact eq_refl).
  fold (cubehash_block (st sc) (take (ptr sc) (buf sc) ++ pd)). by rewrite Hf, Ha.
Qed.

(** ** Main results *)

(** All four settings of [SPH_CUBEHASH_UNROLL] compute 16 rounds of the
    specification, although the code of a round pair renames the words instead
    of swapping them. *)
Theorem cubehash_sixteen_rounds V :
  length V = 32%nat ->
  Forall (fun f => f V = Ref.rounds 16 V)
    [SIXTEEN_ROUNDS_2; SIXTEEN_ROUNDS_4; SIXTEEN_ROUNDS_8; SIXTEEN_ROUNDS].
Proof.
  intros HV. pose proof (iter_TWO_ROUNDS 8 V HV) as H.
  assert (Ref.rounds (2 * 8) V = Ref.rounds 16 V) as H' by (f_equal; lia). rewrite H' in H.
  repeat constructor; rewrite <- H;
    unfold SIXTEEN_ROUNDS_2, SIXTEEN_ROUNDS_4, SIXTEEN_ROUNDS_8, SIXTEEN_ROUNDS;
    generalize TWO_ROUNDS; reflexivity.
Qed.

Lemma cubehash_sixteen_rounds_witness : SIXTEEN_ROUNDS_4 IV512 = Ref.rounds 16 IV512.
Proof.
  pose proof (cubehash_sixteen_rounds IV512 eq_refl) as H. rewrite !Forall_cons in H.
  destruct H as (_ & H & _). exact H.
Defined.

(** The 16 rounds of a block map states of 32 words to such states, and no two
    states to the same one. *)
Theorem cubehash_sixteen_rounds_inj V V' :
  wf_state V -> wf_state V' -> SIXTEEN_ROUNDS V = SIXTEEN_ROUNDS V' ->
  wf_state (SIXTEEN_ROUNDS V) /\ V = V'.
Proof.
  intros HV HV'. destruct (iter_TWO_ROUNDS_inj 8 V HV) as [W I].
  destruct (iter_TWO_ROUNDS_inj 8 V' HV') as [W' I'].
  assert (forall X, SIXTEEN_ROUNDS X = Nat.iter 8 TWO_ROUNDS X) as E
    by (intros; unfold SIXTEEN_ROUNDS; generalize TWO_ROUNDS; reflexivity).
  rewrite !E. intros Heq. split; [done|]. by rewrite <- I, Heq.
Qed.

Lemma cubehash_sixteen_rounds_inj_witness :
  let V i := <[3%nat := i]> (replicate 32 1) in SIXTEEN_ROUNDS (V 5) <> SIXTEEN_ROUNDS (V 6).
Proof.
  intros V Heq. destruct (cubehash_sixteen_rounds_inj (V 5) (V 6)) as [_ H]; [..|exact Heq|discriminate H];
    (split; [reflexivity|]; unfold word; repeat constructor; lia).
Defined.

Lemma iv_ref h iv :
  list_eqb (Nat.iter 80 TWO_ROUNDS ([h / 8; 32; 16] ++ replicate 29 0)) iv = true ->
  iv = Ref.iv h.
Proof.
  intros H%list_eqb_eq. rewrite <- H. unfold Ref.iv.
  change 160%nat with (2 * 80)%nat. apply iter_TWO_ROUNDS. exact eq_refl.
Qed.

(** The four tables of initial values are the states that the specification
    derives from the digest size, the block size and the round count. *)
Theorem cubehash_initial_values :
  IV224 = Ref.iv 224 /\ IV256 = Ref.iv 256 /\ IV384 = Ref.iv 384 /\ IV512 = Ref.iv 512.
Proof. split_and!; apply iv_ref; vm_compute; reflexivity. Qed.

(** A message fed to CubeHash in any chunks and closed with [n] further bits has
    the specified digest, whatever the buffer held before: 16 rounds per block
    and 160 rounds after flipping a bit of the last word. *)
Theorem cubehash_digest cc iv ds ub n out :
  length (buf cc) = 32%nat -> length iv = 32%nat ->
  fst (cubehash_close (fold_left cubehash_core ds (cubehash_init cc iv)) ub n out) =
  Spec.hash iv (concat ds) (mark_byte ub n) out.
Proof.
  intros Hb Hiv. assert (32 <= length (buf cc))%nat as Hb' by lia.
  pose proof (init_core_repr 32 cubehash_block ltac:(lia) iv (buf cc) ds Hb') as Hr.
  apply cubehash_close_spec; [done| |exact Hr].
  rewrite <- Hb. apply (cores_length_buf 32 cubehash_block); lia.
Qed.

Lemma cubehash_digest_witness :
  fst (cubehash_close (fold_left cubehash_core [[]] (cubehash_init (mk_ctx (replicate 32 9) 0 []) IV512))
    0 0 16) =
  be_bytes 64 0x4A1D00BBCFCB5A9562FB981E7F7DB3350FE2658639D948B9D57452C22328BB32F468B072208450BAD5EE178271408BE0B16E5633AC8A1E3CF9864CFBFC8E043A.
Proof.
  rewrite cubehash_digest by reflexivity. apply list_eqb_eq. vm_compute. reflexivity.
Defined.
