(* ===== verification/ShaviteBlock.v ===== *)
(** * shavite.c: the SHAvite-3 block functions

    [c256] and [c512] are straight-line code on local variables: 36 and 112
    AES rounds, each preceded by the computation of four subkey words.  They are
    modelled as lists of statements over a register file (one list per AES
    round), run by [run].  The variants of the small footprint, which expand
    the whole key first and then loop over the rounds, are [c256_small] and
    [c512_small]. *)

From Stdlib Require Import ZArith Lia Btauto.
From stdpp Require Import base tactics numbers list.
From S2P Require Import Prelude SphTypes Gf256 Aes.

Definition IV224 : list Z := [
    0x6774F31C; 0x990AE210; 0xC87D4274; 0xC9546371; 0x62B2AEA8; 0x4B5801D8;
    0x1B702860; 0x842F3017].

Definition IV256 : list Z := [
    0x49BB3E47; 0x2674860D; 0xA8B392AC; 0x021AC4E6; 0x409283CF; 0x620E5D86;
    0x6D929DCB; 0x96CC2A8B].

Definition IV384 : list Z := [
    0x83DF1545; 0xF9AAEC13; 0xF4803CB0; 0x11FE1F47; 0xDA6CD269; 0x4F53FCD7;
    0x950529A2; 0x97908147; 0xB0A4D7AF; 0x2B9132BF; 0x226E607D; 0x3C0F8D7C;
    0x487B3F0F; 0x04363E22; 0x0155C99C; 0xEC2E20D3].

Definition IV512 : list Z := [
    0x72FCCDD8; 0x79CA4727; 0x128A077B; 0x40D55AEC; 0xD1901A06; 0x430AE307;
    0xB29F5CD1; 0xDF07FBFC; 0x8E45D73D; 0x681AB538; 0xBDE86578; 0xDD577E47;
    0xE275EADE; 0x502D9FCD; 0xB9357178; 0x022A4B9A].

(** ** Statements *)

(** Registers are positions in a list of words; [Ld] decodes a message word,
    [Mov d a b] is [d = a ^ b], [Xor d a] is [d ^= a], [Cnt] and [NCnt] add a
    counter word and its complement, [Aes] and [KeyExp] are the macros
    [AES_ROUND_NOKEY] and [KEY_EXPAND_ELT]. *)
Inductive stmt : Type :=
| Ld (d off : nat)
| Mov (d a b : nat)
| Xor (d a : nat)
| XorC (d a i : nat)
| XorN (d a i : nat)
| Cnt (d i : nat)
| NCnt (d i : nat)
| Aes (a b c d : nat)
| KeyExp (a b c d : nat).

Section Machine.
(** One column of an AES round; the message and the counter words. *)
Context (col : Z -> Z -> Z -> Z -> Z) (msg cnt : list Z).

Definition aes (X : list Z) : list Z :=
  [col X.[0] X.[1] X.[2] X.[3]; col X.[1] X.[2] X.[3] X.[0];
   col X.[2] X.[3] X.[0] X.[1]; col X.[3] X.[0] X.[1] X.[2]].

Definition exec (V : list Z) (i : stmt) : list Z :=
  match i with
  | Ld d off => <[d := sph_dec32le (drop off msg)]> V
  | Mov d a b => <[d := V.[a] ⊕ V.[b]]> V
  | Xor d a => <[d := V.[d] ⊕ V.[a]]> V
  | XorC d a i => <[d := V.[d] ⊕ (V.[a] ⊕ cnt.[i])]> V
  | XorN d a i => <[d := V.[d] ⊕ (V.[a] ⊕ not32 cnt.[i])]> V
  | Cnt d i => <[d := V.[d] ⊕ cnt.[i]]> V
  | NCnt d i => <[d := V.[d] ⊕ not32 cnt.[i]]> V
  | Aes a b c d => assign [a; b; c; d] (aes [V.[a]; V.[b]; V.[c]; V.[d]]) V
  | KeyExp k0 k1 k2 k3 =>
      let V := assign [k1; k2; k3; k0] (aes [V.[k1]; V.[k2]; V.[k3]; V.[k0]]) V in
      let kt := V.[k0] in
      let V := <[k0 := V.[k1]]> V in
      let V := <[k1 := V.[k2]]> V in
      let V := <[k2 := V.[k3]]> V in
      <[k3 := kt]> V
  end.
Definition run (p : list stmt) (V : list Z) : list Z := fold_left exec p V.
End Machine.

(** ** c256 *)

Module C256.
Abbreviation p0 := 0%nat (only parsing).
Abbreviation p1 := 1%nat (only parsing).
Abbreviation p2 := 2%nat (only parsing).
Abbreviation p3 := 3%nat (only parsing).
Abbreviation p4 := 4%nat (only parsing).
Abbreviation p5 := 5%nat (only parsing).
Abbreviation p6 := 6%nat (only parsing).
Abbreviation p7 := 7%nat (only parsing).
Abbreviation x0 := 8%nat (only parsing).
Abbreviation x1 := 9%nat (only parsing).
Abbreviation x2 := 10%nat (only parsing).
Abbreviation x3 := 11%nat (only parsing).
Abbreviation rk0 := 12%nat (only parsing).
Abbreviation rk1 := 13%nat (only parsing).
Abbreviation rk2 := 14%nat (only parsing).
Abbreviation rk3 := 15%nat (only parsing).
Abbreviation rk4 := 16%nat (only parsing).
Abbreviation rk5 := 17%nat (only parsing).
Abbreviation rk6 := 18%nat (only parsing).
Abbreviation rk7 := 19%nat (only parsing).
Abbreviation rk8 := 20%nat (only parsing).
Abbreviation rk9 := 21%nat (only parsing).
Abbreviation rkA := 22%nat (only parsing).
Abbreviation rkB := 23%nat (only parsing).
Abbreviation rkC := 24%nat (only parsing).
Abbreviation rkD := 25%nat (only parsing).
Abbreviation rkE := 26%nat (only parsing).
Abbreviation rkF := 27%nat (only parsing).

Definition steps : list (list stmt) := [
    [Ld rk0 0; Mov x0 p4 rk0; Ld rk1 4; Mov x1 p5 rk1; Ld rk2 8; Mov x2 p6 rk2; Ld rk3 12; Mov x3 p7
     rk3; Aes x0 x1 x2 x3];
    [Ld rk4 16; Xor x0 rk4; Ld rk5 20; Xor x1 rk5; Ld rk6 24; Xor x2 rk6; Ld rk7 28; Xor x3 rk7; Aes
     x0 x1 x2 x3];
    [Ld rk8 32; Xor x0 rk8; Ld rk9 36; Xor x1 rk9; Ld rkA 40; Xor x2 rkA; Ld rkB 44; Xor x3 rkB; Aes
     x0 x1 x2 x3; Xor p0 x0; Xor p1 x1; Xor p2 x2; Xor p3 x3];
    [Ld rkC 48; Mov x0 p0 rkC; Ld rkD 52; Mov x1 p1 rkD; Ld rkE 56; Mov x2 p2 rkE; Ld rkF 60; Mov x3
     p3 rkF; Aes x0 x1 x2 x3];
    [KeyExp rk0 rk1 rk2 rk3; XorC rk0 rkC 0; XorN rk1 rkD 1; Xor rk2 rkE; Xor rk3 rkF; Xor x0 rk0;
     Xor x1 rk1; Xor x2 rk2; Xor x3 rk3; Aes x0 x1 x2 x3];
    [KeyExp rk4 rk5 rk6 rk7; Xor rk4 rk0; Xor rk5 rk1; Xor rk6 rk2; Xor rk7 rk3; Xor x0 rk4; Xor x1
     rk5; Xor x2 rk6; Xor x3 rk7; Aes x0 x1 x2 x3; Xor p4 x0; Xor p5 x1; Xor p6 x2; Xor p7 x3];
    [KeyExp rk8 rk9 rkA rkB; Xor rk8 rk4; Xor rk9 rk5; Xor rkA rk6; Xor rkB rk7; Mov x0 p4 rk8; Mov
     x1 p5 rk9; Mov x2 p6 rkA; Mov x3 p7 rkB; Aes x0 x1 x2 x3];
    [KeyExp rkC rkD rkE rkF; Xor rkC rk8; Xor rkD rk9; Xor rkE rkA; Xor rkF rkB; Xor x0 rkC; Xor x1
     rkD; Xor x2 rkE; Xor x3 rkF; Aes x0 x1 x2 x3];
    [Xor rk0 rkD; Xor x0 rk0; Xor rk1 rkE; Xor x1 rk1; Xor rk2 rkF; Xor x2 rk2; Xor rk3 rk0; Xor x3
     rk3; Aes x0 x1 x2 x3; Xor p0 x0; Xor p1 x1; Xor p2 x2; Xor p3 x3];
    [Xor rk4 rk1; Mov x0 p0 rk4; Xor rk5 rk2; Mov x1 p1 rk5; Xor rk6 rk3; Mov x2 p2 rk6; Xor rk7
     rk4; Mov x3 p3 rk7; Aes x0 x1 x2 x3];
    [Xor rk8 rk5; Xor x0 rk8; Xor rk9 rk6; Xor x1 rk9; Xor rkA rk7; Xor x2 rkA; Xor rkB rk8; Xor x3
     rkB; Aes x0 x1 x2 x3];
    [Xor rkC rk9; Xor x0 rkC; Xor rkD rkA; Xor x1 rkD; Xor rkE rkB; Xor x2 rkE; Xor rkF rkC; Xor x3
     rkF; Aes x0 x1 x2 x3; Xor p4 x0; Xor p5 x1; Xor p6 x2; Xor p7 x3];
    [KeyExp rk0 rk1 rk2 rk3; Xor rk0 rkC; Xor rk1 rkD; Xor rk2 rkE; Xor rk3 rkF; Mov x0 p4 rk0; Mov
     x1 p5 rk1; Mov x2 p6 rk2; Mov x3 p7 rk3; Aes x0 x1 x2 x3];
    [KeyExp rk4 rk5 rk6 rk7; Xor rk4 rk0; Xor rk5 rk1; Xor rk6 rk2; Xor rk7 rk3; Xor x0 rk4; Xor x1
     rk5; Xor x2 rk6; Xor x3 rk7; Aes x0 x1 x2 x3];
    [KeyExp rk8 rk9 rkA rkB; Xor rk8 rk4; XorC rk9 rk5 1; XorN rkA rk6 0; Xor rkB rk7; Xor x0 rk8;
     Xor x1 rk9; Xor x2 rkA; Xor x3 rkB; Aes x0 x1 x2 x3; Xor p0 x0; Xor p1 x1; Xor p2 x2; Xor p3
     x3];
    [KeyExp rkC rkD rkE rkF; Xor rkC rk8; Xor rkD rk9; Xor rkE rkA; Xor rkF rkB; Mov x0 p0 rkC; Mov
     x1 p1 rkD; Mov x2 p2 rkE; Mov x3 p3 rkF; Aes x0 x1 x2 x3];
    [Xor rk0 rkD; Xor x0 rk0; Xor rk1 rkE; Xor x1 rk1; Xor rk2 rkF; Xor x2 rk2; Xor rk3 rk0; Xor x3
     rk3; Aes x0 x1 x2 x3];
    [Xor rk4 rk1; Xor x0 rk4; Xor rk5 rk2; Xor x1 rk5; Xor rk6 rk3; Xor x2 rk6; Xor rk7 rk4; Xor x3
     rk7; Aes x0 x1 x2 x3; Xor p4 x0; Xor p5 x1; Xor p6 x2; Xor p7 x3];
    [Xor rk8 rk5; Mov x0 p4 rk8; Xor rk9 rk6; Mov x1 p5 rk9; Xor rkA rk7; Mov x2 p6 rkA; Xor rkB
     rk8; Mov x3 p7 rkB; Aes x0 x1 x2 x3];
    [Xor rkC rk9; Xor x0 rkC; Xor rkD rkA; Xor x1 rkD; Xor rkE rkB; Xor x2 rkE; Xor rkF rkC; Xor x3
     rkF; Aes x0 x1 x2 x3];
    [KeyExp rk0 rk1 rk2 rk3; Xor rk0 rkC; Xor rk1 rkD; Xor rk2 rkE; Xor rk3 rkF; Xor x0 rk0; Xor x1
     rk1; Xor x2 rk2; Xor x3 rk3; Aes x0 x1 x2 x3; Xor p0 x0; Xor p1 x1; Xor p2 x2; Xor p3 x3];
    [KeyExp rk4 rk5 rk6 rk7; Xor rk4 rk0; Xor rk5 rk1; XorC rk6 rk2 1; XorN rk7 rk3 0; Mov x0 p0
     rk4; Mov x1 p1 rk5; Mov x2 p2 rk6; Mov x3 p3 rk7; Aes x0 x1 x2 x3];
    [KeyExp rk8 rk9 rkA rkB; Xor rk8 rk4; Xor rk9 rk5; Xor rkA rk6; Xor rkB rk7; Xor x0 rk8; Xor x1
     rk9; Xor x2 rkA; Xor x3 rkB; Aes x0 x1 x2 x3];
    [KeyExp rkC rkD rkE rkF; Xor rkC rk8; Xor rkD rk9; Xor rkE rkA; Xor rkF rkB; Xor x0 rkC; Xor x1
     rkD; Xor x2 rkE; Xor x3 rkF; Aes x0 x1 x2 x3; Xor p4 x0; Xor p5 x1; Xor p6 x2; Xor p7 x3];
    [Xor rk0 rkD; Mov x0 p4 rk0; Xor rk1 rkE; Mov x1 p5 rk1; Xor rk2 rkF; Mov x2 p6 rk2; Xor rk3
     rk0; Mov x3 p7 rk3; Aes x0 x1 x2 x3];
    [Xor rk4 rk1; Xor x0 rk4; Xor rk5 rk2; Xor x1 rk5; Xor rk6 rk3; Xor x2 rk6; Xor rk7 rk4; Xor x3
     rk7; Aes x0 x1 x2 x3];
    [Xor rk8 rk5; Xor x0 rk8; Xor rk9 rk6; Xor x1 rk9; Xor rkA rk7; Xor x2 rkA; Xor rkB rk8; Xor x3
     rkB; Aes x0 x1 x2 x3; Xor p0 x0; Xor p1 x1; Xor p2 x2; Xor p3 x3];
    [Xor rkC rk9; Mov x0 p0 rkC; Xor rkD rkA; Mov x1 p1 rkD; Xor rkE rkB; Mov x2 p2 rkE; Xor rkF
     rkC; Mov x3 p3 rkF; Aes x0 x1 x2 x3];
    [KeyExp rk0 rk1 rk2 rk3; Xor rk0 rkC; Xor rk1 rkD; Xor rk2 rkE; Xor rk3 rkF; Xor x0 rk0; Xor x1
     rk1; Xor x2 rk2; Xor x3 rk3; Aes x0 x1 x2 x3];
    [KeyExp rk4 rk5 rk6 rk7; Xor rk4 rk0; Xor rk5 rk1; Xor rk6 rk2; Xor rk7 rk3; Xor x0 rk4; Xor x1
     rk5; Xor x2 rk6; Xor x3 rk7; Aes x0 x1 x2 x3; Xor p4 x0; Xor p5 x1; Xor p6 x2; Xor p7 x3];
    [KeyExp rk8 rk9 rkA rkB; Xor rk8 rk4; Xor rk9 rk5; Xor rkA rk6; Xor rkB rk7; Mov x0 p4 rk8; Mov
     x1 p5 rk9; Mov x2 p6 rkA; Mov x3 p7 rkB; Aes x0 x1 x2 x3];
    [KeyExp rkC rkD rkE rkF; XorC rkC rk8 0; Xor rkD rk9; Xor rkE rkA; XorN rkF rkB 1; Xor x0 rkC;
     Xor x1 rkD; Xor x2 rkE; Xor x3 rkF; Aes x0 x1 x2 x3];
    [Xor rk0 rkD; Xor x0 rk0; Xor rk1 rkE; Xor x1 rk1; Xor rk2 rkF; Xor x2 rk2; Xor rk3 rk0; Xor x3
     rk3; Aes x0 x1 x2 x3; Xor p0 x0; Xor p1 x1; Xor p2 x2; Xor p3 x3];
    [Xor rk4 rk1; Mov x0 p0 rk4; Xor rk5 rk2; Mov x1 p1 rk5; Xor rk6 rk3; Mov x2 p2 rk6; Xor rk7
     rk4; Mov x3 p3 rk7; Aes x0 x1 x2 x3];
    [Xor rk8 rk5; Xor x0 rk8; Xor rk9 rk6; Xor x1 rk9; Xor rkA rk7; Xor x2 rkA; Xor rkB rk8; Xor x3
     rkB; Aes x0 x1 x2 x3];
    [Xor rkC rk9; Xor x0 rkC; Xor rkD rkA; Xor x1 rkD; Xor rkE rkB; Xor x2 rkE; Xor rkF rkC; Xor x3
     rkF; Aes x0 x1 x2 x3; Xor p4 x0; Xor p5 x1; Xor p6 x2; Xor p7 x3]].
End C256.

(** ** c512 *)

Module C512.
Abbreviation p0 := 0%nat (only parsing).
Abbreviation p1 := 1%nat (only parsing).
Abbreviation p2 := 2%nat (only parsing).
Abbreviation p3 := 3%nat (only parsing).
Abbreviation p4 := 4%nat (only parsing).
Abbreviation p5 := 5%nat (only parsing).
Abbreviation p6 := 6%nat (only parsing).
Abbreviation p7 := 7%nat (only parsing).
Abbreviation p8 := 8%nat (only parsing).
Abbreviation p9 := 9%nat (only parsing).
Abbreviation pA := 10%nat (only parsing).
Abbreviation pB := 11%nat (only parsing).
Abbreviation pC := 12%nat (only parsing).
Abbreviation pD := 13%nat (only parsing).
Abbreviation pE := 14%nat (only parsing).
Abbreviation pF := 15%nat (only parsing).
Abbreviation x0 := 16%nat (only parsing).
Abbreviation x1 := 17%nat (only parsing).
Abbreviation x2 := 18%nat (only parsing).
Abbreviation x3 := 19%nat (only parsing).
Abbreviation rk00 := 20%nat (only parsing).
Abbreviation rk01 := 21%nat (only parsing).
Abbreviation rk02 := 22%nat (only parsing).
Abbreviation rk03 := 23%nat (only parsing).
Abbreviation rk04 := 24%nat (only parsing).
Abbreviation rk05 := 25%nat (only parsing).
Abbreviation rk06 := 26%nat (only parsing).
Abbreviation rk07 := 27%nat (only parsing).
Abbreviation rk08 := 28%nat (only parsing).
Abbreviation rk09 := 29%nat (only parsing).
Abbreviation rk0A := 30%nat (only parsing).
Abbreviation rk0B := 31%nat (only parsing).
Abbreviation rk0C := 32%nat (only parsing).
Abbreviation rk0D := 33%nat (only parsing).
Abbreviation rk0E := 34%nat (only parsing).
Abbreviation rk0F := 35%nat (only parsing).
Abbreviation rk10 := 36%nat (only parsing).
Abbreviation rk11 := 37%nat (only parsing).
Abbreviation rk12 := 38%nat (only parsing).
Abbreviation rk13 := 39%nat (only parsing).
Abbreviation rk14 := 40%nat (only parsing).
Abbreviation rk15 := 41%nat (only parsing).
Abbreviation rk16 := 42%nat (only parsing).
Abbreviation rk17 := 43%nat (only parsing).
Abbreviation rk18 := 44%nat (only parsing).
Abbreviation rk19 := 45%nat (only parsing).
Abbreviation rk1A := 46%nat (only parsing).
Abbreviation rk1B := 47%nat (only parsing).
Abbreviation rk1C := 48%nat (only parsing).
Abbreviation rk1D := 49%nat (only parsing).
Abbreviation rk1E := 50%nat (only parsing).
Abbreviation rk1F := 51%nat (only parsing).

(** Round 0, the loop over [r] (rounds 1 to 12) and round 13. *)
Definition first_steps : list (list stmt) := [
    [Ld rk00 0; Mov x0 p4 rk00; Ld rk01 4; Mov x1 p5 rk01; Ld rk02 8; Mov x2 p6 rk02; Ld rk03 12;
     Mov x3 p7 rk03; Aes x0 x1 x2 x3];
    [Ld rk04 16; Xor x0 rk04; Ld rk05 20; Xor x1 rk05; Ld rk06 24; Xor x2 rk06; Ld rk07 28; Xor x3
     rk07; Aes x0 x1 x2 x3];
    [Ld rk08 32; Xor x0 rk08; Ld rk09 36; Xor x1 rk09; Ld rk0A 40; Xor x2 rk0A; Ld rk0B 44; Xor x3
     rk0B; Aes x0 x1 x2 x3];
    [Ld rk0C 48; Xor x0 rk0C; Ld rk0D 52; Xor x1 rk0D; Ld rk0E 56; Xor x2 rk0E; Ld rk0F 60; Xor x3
     rk0F; Aes x0 x1 x2 x3; Xor p0 x0; Xor p1 x1; Xor p2 x2; Xor p3 x3];
    [Ld rk10 64; Mov x0 pC rk10; Ld rk11 68; Mov x1 pD rk11; Ld rk12 72; Mov x2 pE rk12; Ld rk13 76;
     Mov x3 pF rk13; Aes x0 x1 x2 x3];
    [Ld rk14 80; Xor x0 rk14; Ld rk15 84; Xor x1 rk15; Ld rk16 88; Xor x2 rk16; Ld rk17 92; Xor x3
     rk17; Aes x0 x1 x2 x3];
    [Ld rk18 96; Xor x0 rk18; Ld rk19 100; Xor x1 rk19; Ld rk1A 104; Xor x2 rk1A; Ld rk1B 108; Xor
     x3 rk1B; Aes x0 x1 x2 x3];
    [Ld rk1C 112; Xor x0 rk1C; Ld rk1D 116; Xor x1 rk1D; Ld rk1E 120; Xor x2 rk1E; Ld rk1F 124; Xor
     x3 rk1F; Aes x0 x1 x2 x3; Xor p8 x0; Xor p9 x1; Xor pA x2; Xor pB x3]].
Definition loop_steps (r : nat) : list (list stmt) := [
    [KeyExp rk00 rk01 rk02 rk03; Xor rk00 rk1C; Xor rk01 rk1D; Xor rk02 rk1E; Xor rk03 rk1F] ++ (if
     (r =? 0)%nat then [Cnt rk00 0; Cnt rk01 1; Cnt rk02 2; NCnt rk03 3] else []) ++ [Mov x0 p0
     rk00; Mov x1 p1 rk01; Mov x2 p2 rk02; Mov x3 p3 rk03; Aes x0 x1 x2 x3];
    [KeyExp rk04 rk05 rk06 rk07; Xor rk04 rk00; Xor rk05 rk01; Xor rk06 rk02; Xor rk07 rk03] ++ (if
     (r =? 1)%nat then [Cnt rk04 3; Cnt rk05 2; Cnt rk06 1; NCnt rk07 0] else []) ++ [Xor x0 rk04;
     Xor x1 rk05; Xor x2 rk06; Xor x3 rk07; Aes x0 x1 x2 x3];
    [KeyExp rk08 rk09 rk0A rk0B; Xor rk08 rk04; Xor rk09 rk05; Xor rk0A rk06; Xor rk0B rk07; Xor x0
     rk08; Xor x1 rk09; Xor x2 rk0A; Xor x3 rk0B; Aes x0 x1 x2 x3];
    [KeyExp rk0C rk0D rk0E rk0F; Xor rk0C rk08; Xor rk0D rk09; Xor rk0E rk0A; Xor rk0F rk0B; Xor x0
     rk0C; Xor x1 rk0D; Xor x2 rk0E; Xor x3 rk0F; Aes x0 x1 x2 x3; Xor pC x0; Xor pD x1; Xor pE x2;
     Xor pF x3];
    [KeyExp rk10 rk11 rk12 rk13; Xor rk10 rk0C; Xor rk11 rk0D; Xor rk12 rk0E; Xor rk13 rk0F; Mov x0
     p8 rk10; Mov x1 p9 rk11; Mov x2 pA rk12; Mov x3 pB rk13; Aes x0 x1 x2 x3];
    [KeyExp rk14 rk15 rk16 rk17; Xor rk14 rk10; Xor rk15 rk11; Xor rk16 rk12; Xor rk17 rk13; Xor x0
     rk14; Xor x1 rk15; Xor x2 rk16; Xor x3 rk17; Aes x0 x1 x2 x3];
    [KeyExp rk18 rk19 rk1A rk1B; Xor rk18 rk14; Xor rk19 rk15; Xor rk1A rk16; Xor rk1B rk17; Xor x0
     rk18; Xor x1 rk19; Xor x2 rk1A; Xor x3 rk1B; Aes x0 x1 x2 x3];
    [KeyExp rk1C rk1D rk1E rk1F; Xor rk1C rk18; Xor rk1D rk19; Xor rk1E rk1A; Xor rk1F rk1B] ++ (if
     (r =? 2)%nat then [Cnt rk1C 2; Cnt rk1D 3; Cnt rk1E 0; NCnt rk1F 1] else []) ++ [Xor x0 rk1C;
     Xor x1 rk1D; Xor x2 rk1E; Xor x3 rk1F; Aes x0 x1 x2 x3; Xor p4 x0; Xor p5 x1; Xor p6 x2; Xor p7
     x3];
    [Xor rk00 rk19; Mov x0 pC rk00; Xor rk01 rk1A; Mov x1 pD rk01; Xor rk02 rk1B; Mov x2 pE rk02;
     Xor rk03 rk1C; Mov x3 pF rk03; Aes x0 x1 x2 x3];
    [Xor rk04 rk1D; Xor x0 rk04; Xor rk05 rk1E; Xor x1 rk05; Xor rk06 rk1F; Xor x2 rk06; Xor rk07
     rk00; Xor x3 rk07; Aes x0 x1 x2 x3];
    [Xor rk08 rk01; Xor x0 rk08; Xor rk09 rk02; Xor x1 rk09; Xor rk0A rk03; Xor x2 rk0A; Xor rk0B
     rk04; Xor x3 rk0B; Aes x0 x1 x2 x3];
    [Xor rk0C rk05; Xor x0 rk0C; Xor rk0D rk06; Xor x1 rk0D; Xor rk0E rk07; Xor x2 rk0E; Xor rk0F
     rk08; Xor x3 rk0F; Aes x0 x1 x2 x3; Xor p8 x0; Xor p9 x1; Xor pA x2; Xor pB x3];
    [Xor rk10 rk09; Mov x0 p4 rk10; Xor rk11 rk0A; Mov x1 p5 rk11; Xor rk12 rk0B; Mov x2 p6 rk12;
     Xor rk13 rk0C; Mov x3 p7 rk13; Aes x0 x1 x2 x3];
    [Xor rk14 rk0D; Xor x0 rk14; Xor rk15 rk0E; Xor x1 rk15; Xor rk16 rk0F; Xor x2 rk16; Xor rk17
     rk10; Xor x3 rk17; Aes x0 x1 x2 x3];
    [Xor rk18 rk11; Xor x0 rk18; Xor rk19 rk12; Xor x1 rk19; Xor rk1A rk13; Xor x2 rk1A; Xor rk1B
     rk14; Xor x3 rk1B; Aes x0 x1 x2 x3];
    [Xor rk1C rk15; Xor x0 rk1C; Xor rk1D rk16; Xor x1 rk1D; Xor rk1E rk17; Xor x2 rk1E; Xor rk1F
     rk18; Xor x3 rk1F; Aes x0 x1 x2 x3; Xor p0 x0; Xor p1 x1; Xor p2 x2; Xor p3 x3];
    [KeyExp rk00 rk01 rk02 rk03; Xor rk00 rk1C; Xor rk01 rk1D; Xor rk02 rk1E; Xor rk03 rk1F; Mov x0
     p8 rk00; Mov x1 p9 rk01; Mov x2 pA rk02; Mov x3 pB rk03; Aes x0 x1 x2 x3];
    [KeyExp rk04 rk05 rk06 rk07; Xor rk04 rk00; Xor rk05 rk01; Xor rk06 rk02; Xor rk07 rk03; Xor x0
     rk04; Xor x1 rk05; Xor x2 rk06; Xor x3 rk07; Aes x0 x1 x2 x3];
    [KeyExp rk08 rk09 rk0A rk0B; Xor rk08 rk04; Xor rk09 rk05; Xor rk0A rk06; Xor rk0B rk07; Xor x0
     rk08; Xor x1 rk09; Xor x2 rk0A; Xor x3 rk0B; Aes x0 x1 x2 x3];
    [KeyExp rk0C rk0D rk0E rk0F; Xor rk0C rk08; Xor rk0D rk09; Xor rk0E rk0A; Xor rk0F rk0B; Xor x0
     rk0C; Xor x1 rk0D; Xor x2 rk0E; Xor x3 rk0F; Aes x0 x1 x2 x3; Xor p4 x0; Xor p5 x1; Xor p6 x2;
     Xor p7 x3];
    [KeyExp rk10 rk11 rk12 rk13; Xor rk10 rk0C; Xor rk11 rk0D; Xor rk12 rk0E; Xor rk13 rk0F; Mov x0
     p0 rk10; Mov x1 p1 rk11; Mov x2 p2 rk12; Mov x3 p3 rk13; Aes x0 x1 x2 x3];
    [KeyExp rk14 rk15 rk16 rk17; Xor rk14 rk10; Xor rk15 rk11; Xor rk16 rk12; Xor rk17 rk13; Xor x0
     rk14; Xor x1 rk15; Xor x2 rk16; Xor x3 rk17; Aes x0 x1 x2 x3];
    [KeyExp rk18 rk19 rk1A rk1B; Xor rk18 rk14; Xor rk19 rk15; Xor rk1A rk16; Xor rk1B rk17; Xor x0
     rk18; Xor x1 rk19; Xor x2 rk1A; Xor x3 rk1B; Aes x0 x1 x2 x3];
    [KeyExp rk1C rk1D rk1E rk1F; Xor rk1C rk18; Xor rk1D rk19; Xor rk1E rk1A; Xor rk1F rk1B; Xor x0
     rk1C; Xor x1 rk1D; Xor x2 rk1E; Xor x3 rk1F; Aes x0 x1 x2 x3; Xor pC x0; Xor pD x1; Xor pE x2;
     Xor pF x3];
    [Xor rk00 rk19; Mov x0 p4 rk00; Xor rk01 rk1A; Mov x1 p5 rk01; Xor rk02 rk1B; Mov x2 p6 rk02;
     Xor rk03 rk1C; Mov x3 p7 rk03; Aes x0 x1 x2 x3];
    [Xor rk04 rk1D; Xor x0 rk04; Xor rk05 rk1E; Xor x1 rk05; Xor rk06 rk1F; Xor x2 rk06; Xor rk07
     rk00; Xor x3 rk07; Aes x0 x1 x2 x3];
    [Xor rk08 rk01; Xor x0 rk08; Xor rk09 rk02; Xor x1 rk09; Xor rk0A rk03; Xor x2 rk0A; Xor rk0B
     rk04; Xor x3 rk0B; Aes x0 x1 x2 x3];
    [Xor rk0C rk05; Xor x0 rk0C; Xor rk0D rk06; Xor x1 rk0D; Xor rk0E rk07; Xor x2 rk0E; Xor rk0F
     rk08; Xor x3 rk0F; Aes x0 x1 x2 x3; Xor p0 x0; Xor p1 x1; Xor p2 x2; Xor p3 x3];
    [Xor rk10 rk09; Mov x0 pC rk10; Xor rk11 rk0A; Mov x1 pD rk11; Xor rk12 rk0B; Mov x2 pE rk12;
     Xor rk13 rk0C; Mov x3 pF rk13; Aes x0 x1 x2 x3];
    [Xor rk14 rk0D; Xor x0 rk14; Xor rk15 rk0E; Xor x1 rk15; Xor rk16 rk0F; Xor x2 rk16; Xor rk17
     rk10; Xor x3 rk17; Aes x0 x1 x2 x3];
    [Xor rk18 rk11; Xor x0 rk18; Xor rk19 rk12; Xor x1 rk19; Xor rk1A rk13; Xor x2 rk1A; Xor rk1B
     rk14; Xor x3 rk1B; Aes x0 x1 x2 x3];
    [Xor rk1C rk15; Xor x0 rk1C; Xor rk1D rk16; Xor x1 rk1D; Xor rk1E rk17; Xor x2 rk1E; Xor rk1F
     rk18; Xor x3 rk1F; Aes x0 x1 x2 x3; Xor p8 x0; Xor p9 x1; Xor pA x2; Xor pB x3]].
Definition last_steps : list (list stmt) := [
    [KeyExp rk00 rk01 rk02 rk03; Xor rk00 rk1C; Xor rk01 rk1D; Xor rk02 rk1E; Xor rk03 rk1F; Mov x0
     p0 rk00; Mov x1 p1 rk01; Mov x2 p2 rk02; Mov x3 p3 rk03; Aes x0 x1 x2 x3];
    [KeyExp rk04 rk05 rk06 rk07; Xor rk04 rk00; Xor rk05 rk01; Xor rk06 rk02; Xor rk07 rk03; Xor x0
     rk04; Xor x1 rk05; Xor x2 rk06; Xor x3 rk07; Aes x0 x1 x2 x3];
    [KeyExp rk08 rk09 rk0A rk0B; Xor rk08 rk04; Xor rk09 rk05; Xor rk0A rk06; Xor rk0B rk07; Xor x0
     rk08; Xor x1 rk09; Xor x2 rk0A; Xor x3 rk0B; Aes x0 x1 x2 x3];
    [KeyExp rk0C rk0D rk0E rk0F; Xor rk0C rk08; Xor rk0D rk09; Xor rk0E rk0A; Xor rk0F rk0B; Xor x0
     rk0C; Xor x1 rk0D; Xor x2 rk0E; Xor x3 rk0F; Aes x0 x1 x2 x3; Xor pC x0; Xor pD x1; Xor pE x2;
     Xor pF x3];
    [KeyExp rk10 rk11 rk12 rk13; Xor rk10 rk0C; Xor rk11 rk0D; Xor rk12 rk0E; Xor rk13 rk0F; Mov x0
     p8 rk10; Mov x1 p9 rk11; Mov x2 pA rk12; Mov x3 pB rk13; Aes x0 x1 x2 x3];
    [KeyExp rk14 rk15 rk16 rk17; Xor rk14 rk10; Xor rk15 rk11; Xor rk16 rk12; Xor rk17 rk13; Xor x0
     rk14; Xor x1 rk15; Xor x2 rk16; Xor x3 rk17; Aes x0 x1 x2 x3];
    [KeyExp rk18 rk19 rk1A rk1B; XorC rk18 rk14 1; XorC rk19 rk15 0; XorC rk1A rk16 3; XorN rk1B
     rk17 2; Xor x0 rk18; Xor x1 rk19; Xor x2 rk1A; Xor x3 rk1B; Aes x0 x1 x2 x3];
    [KeyExp rk1C rk1D rk1E rk1F; Xor rk1C rk18; Xor rk1D rk19; Xor rk1E rk1A; Xor rk1F rk1B; Xor x0
     rk1C; Xor x1 rk1D; Xor x2 rk1E; Xor x3 rk1F; Aes x0 x1 x2 x3; Xor p4 x0; Xor p5 x1; Xor p6 x2;
     Xor p7 x3]].
Definition steps : list (list stmt) :=
  first_steps ++ loop_steps 0 ++ loop_steps 1 ++ loop_steps 2 ++ last_steps.
End C512.

(** The column of [AES_ROUND_NOKEY]. *)
Definition column (x0 x1 x2 x3 : Z) : Z := AES_column x0 x1 x2 x3 0.

(** The functions on the chaining words: copy them to [p0, p1, ...] (the other
    local variables are not initialised), run the code, add the result. *)
Definition c256_with (col : Z -> Z -> Z -> Z -> Z) (h cnt msg : list Z) : list Z :=
  let V := run col msg cnt (concat C256.steps) (h ++ replicate 20 0) in
  lxor_list h (take 8 V).
Definition c512_with (col : Z -> Z -> Z -> Z -> Z) (h cnt msg : list Z) : list Z :=
  let V := run col msg cnt (concat C512.steps) (h ++ replicate 36 0) in
  lxor_list h (sel [8; 9; 10; 11; 12; 13; 14; 15; 0; 1; 2; 3; 4; 5; 6; 7]%nat V).
Definition c256 : list Z -> list Z -> list Z -> list Z := c256_with column.
Definition c512 : list Z -> list Z -> list Z -> list Z := c512_with column.

(** ** The small footprint *)

Section Small.
Context (col : Z -> Z -> Z -> Z -> Z) (cnt : list Z).

(** The array [rk] is written in order; the list [rk] is its part already
    written, so that [u] is its length.  [W] is the number of message words. *)
Definition rk_aes (W : nat) (rk : list Z) : list Z :=
  let u := length rk in
  let x := aes col [rk.[u - W + 1]; rk.[u - W + 2]; rk.[u - W + 3]; rk.[u - W]] in
  [x.[0] ⊕ rk.[u - 4]; x.[1] ⊕ rk.[u - 3]; x.[2] ⊕ rk.[u - 2]; x.[3] ⊕ rk.[u - 1]].

(** The counter words added to four new words at position [u]. *)
Definition add_cnt256 (u : nat) (q : list Z) : list Z :=
  if (u =? 16)%nat then [q.[0] ⊕ cnt.[0]; q.[1] ⊕ not32 cnt.[1]; q.[2]; q.[3]]
  else if (u =? 56)%nat then [q.[0]; q.[1] ⊕ cnt.[1]; q.[2] ⊕ not32 cnt.[0]; q.[3]]
  else if (u =? 84)%nat then [q.[0]; q.[1]; q.[2] ⊕ cnt.[1]; q.[3] ⊕ not32 cnt.[0]]
  else if (u =? 124)%nat then [q.[0] ⊕ cnt.[0]; q.[1]; q.[2]; q.[3] ⊕ not32 cnt.[1]]
  else q.
Definition add_cnt512 (u : nat) (q : list Z) : list Z :=
  if (u =? 32)%nat then [q.[0] ⊕ cnt.[0]; q.[1] ⊕ cnt.[1]; q.[2] ⊕ cnt.[2]; q.[3] ⊕ not32 cnt.[3]]
  else if (u =? 164)%nat then [q.[0] ⊕ cnt.[3]; q.[1] ⊕ cnt.[2]; q.[2] ⊕ cnt.[1]; q.[3] ⊕ not32 cnt.[0]]
  else if (u =? 316)%nat then [q.[0] ⊕ cnt.[2]; q.[1] ⊕ cnt.[3]; q.[2] ⊕ cnt.[0]; q.[3] ⊕ not32 cnt.[1]]
  else if (u =? 440)%nat then [q.[0] ⊕ cnt.[1]; q.[1] ⊕ cnt.[0]; q.[2] ⊕ cnt.[3]; q.[3] ⊕ not32 cnt.[2]]
  else q.

Definition expand_nl256 (rk : list Z) : list Z := rk ++ add_cnt256 (length rk) (rk_aes 16 rk).
Definition expand_nl512 (rk : list Z) : list Z := rk ++ add_cnt512 (length rk) (rk_aes 32 rk).

(** [rk[u + 0] = rk[u - 16] ^ rk[u - 3]; ...; rk[u + 3] = rk[u - 13] ^ rk[u - 0]]
    and its counterpart over 32 words. *)
Definition expand_lin256 (rk : list Z) : list Z :=
  let u := length rk in
  let r0 := rk.[u - 16] ⊕ rk.[u - 3] in
  rk ++ [r0; rk.[u - 15] ⊕ rk.[u - 2]; rk.[u - 14] ⊕ rk.[u - 1]; rk.[u - 13] ⊕ r0].
Definition expand_lin512 (rk : list Z) : list Z :=
  let u := length rk in
  rk ++ [rk.[u - 32] ⊕ rk.[u - 7]; rk.[u - 31] ⊕ rk.[u - 6]; rk.[u - 30] ⊕ rk.[u - 5];
         rk.[u - 29] ⊕ rk.[u - 4]].

(** Four times: four steps with an AES round, four linear steps. *)
Definition schedule256 (rk : list Z) : list Z :=
  Nat.iter 4 (fun rk => Nat.iter 4 expand_lin256 (Nat.iter 4 expand_nl256 rk)) rk.
(** Eight steps with an AES round, eight linear steps, until 448 words are
    there: the last eight are steps with an AES round. *)
Definition schedule512 (rk : list Z) : list Z :=
  Nat.iter 8 expand_nl512
    (Nat.iter 6 (fun rk => Nat.iter 8 expand_lin512 (Nat.iter 8 expand_nl512 rk)) rk).

Definition rk_quad (rk : list Z) (u : nat) : list Z := take 4 (drop u rk).
(** [k] AES rounds, each after the addition of four words of [rk]. *)
Definition rounds_of (k : nat) (rk : list Z) (u : nat) (x : list Z) : list Z :=
  fold_left (fun x i => aes col (lxor_list x (rk_quad rk (u + 4 * i)))) (seq 0 k) x.

(** [for (r = 0; r < 6; r ++)]: three AES rounds into [p0..p3], three into
    [p4..p7]. *)
Definition c256_round (rk : list Z) (p : list Z * list Z) (r : nat) : list Z * list Z :=
  let '(p03, p47) := p in
  let p03 := lxor_list p03 (rounds_of 3 rk (24 * r) p47) in
  let p47 := lxor_list p47 (rounds_of 3 rk (24 * r + 12) p03) in
  (p03, p47).
Definition c256_small_with (h msg : list Z) : list Z :=
  let rk := schedule256 ((fun i => sph_dec32le (drop (4 * i) msg)) <$> seq 0 16) in
  let '(p03, p47) := fold_left (c256_round rk) (seq 0 6) (take 4 h, drop 4 h) in
  lxor_list h (p03 ++ p47).

(** [for (r = 0; r < 14; r ++)]: two [C512_ELT], then the four [WROT]. *)
Definition c512_round (rk : list Z) (p : list Z * list Z * list Z * list Z) (r : nat) :
    list Z * list Z * list Z * list Z :=
  let '(p03, p47, p8B, pCF) := p in
  let p03 := lxor_list p03 (rounds_of 4 rk (32 * r) p47) in
  let p8B := lxor_list p8B (rounds_of 4 rk (32 * r + 16) pCF) in
  (pCF, p03, p47, p8B).
Definition c512_small_with (h msg : list Z) : list Z :=
  let rk := schedule512 ((fun i => sph_dec32le (drop (4 * i) msg)) <$> seq 0 32) in
  let '(p03, p47, p8B, pCF) := fold_left (c512_round rk) (seq 0 14)
    (take 4 h, take 4 (drop 4 h), take 4 (drop 8 h), drop 12 h) in
  lxor_list h (p03 ++ p47 ++ p8B ++ pCF).
End Small.

Definition c256_small (h cnt msg : list Z) : list Z := c256_small_with column cnt h msg.
Definition c512_small (h cnt msg : list Z) : list Z := c512_small_with column cnt h msg.

(** ** The code as a sequence of AES rounds *)

Abbreviation quad_ok := (fun q : list Z => length q = 4%nat).

Lemma quad_elems (q : list Z) : quad_ok q -> exists a b c d, q = [a; b; c; d].
Proof. destruct q as [|a [|b [|c [|d [|? q]]]]]; try done. intros _. by exists a, b, c, d. Qed.

Ltac split_quad q :=
  match goal with Hq : length q = 4%nat |- _ =>
    destruct (quad_elems q Hq) as (? & ? & ? & ? & ->); clear Hq end.

(** A window of the last [W] subkeys, oldest first, and the working variables:
    every round computes a subkey from the window and uses it. *)
Section Window.
Context {P : Type} (W : nat) (next : nat -> list (list Z) -> list Z) (rnd : list Z -> nat -> P -> P).
Context (w0 : list (list Z)) (Hw0 : length w0 = W) (HW : (0 < W)%nat).

Definition sem (c : list (list Z) * P) (s : nat) : list (list Z) * P :=
  let '(w, p) := c in
  let q := next s w in (drop 1 w ++ [q], rnd q s p).

(** The initial window and the first [s] subkeys. *)
Fixpoint subkeys (s : nat) : list (list Z) :=
  match s with
  | O => w0
  | S s => let K := subkeys s in K ++ [next s (drop s K)]
  end.

Lemma length_subkeys s : length (subkeys s) = (W + s)%nat.
Proof. induction s as [|s IH]; cbn; [lia|]. rewrite length_app, IH. simpl. lia. Qed.

Lemma subkeys_prefix s k : (s <= k)%nat -> take (W + s) (subkeys k) = subkeys s.
Proof.
  induction 1 as [|k Hk IH].
  - apply take_ge. rewrite length_subkeys. lia.
  - cbn. rewrite take_app_le by (rewrite length_subkeys; lia). exact IH.
Qed.

Definition subkey (N s : nat) : list Z := nth (W + s) (subkeys N) [].

Lemma subkey_next N s : (s < N)%nat -> subkey N s = next s (drop s (subkeys s)).
Proof.
  intros Hs. unfold subkey. rewrite <- (take_drop (W + S s) (subkeys N)), subkeys_prefix by lia.
  rewrite app_nth1 by (rewrite length_subkeys; lia). cbn.
  rewrite app_nth2 by (rewrite length_subkeys; lia). rewrite length_subkeys, Nat.sub_diag. done.
Qed.

Lemma sem_fold N s p :
  (s <= N)%nat ->
  fold_left sem (seq 0 s) (w0, p) =
  (drop s (subkeys s), fold_left (fun p s => rnd (subkey N s) s p) (seq 0 s) p).
Proof.
  induction s as [|s IH]; intros Hs; [done|].
  rewrite seq_S, !fold_left_app, IH by lia. cbn [fold_left Nat.add sem].
  rewrite (subkey_next N s) by lia. f_equal. cbn [subkeys].
  rewrite drop_app_le by (rewrite length_subkeys; lia). by rewrite drop_drop, Nat.add_1_r.
Qed.

(** Expanding the key first: the array holds the subkeys. *)
Context (Hok0 : Forall quad_ok w0) (Hok : forall s w, length w = W -> Forall quad_ok w -> quad_ok (next s w)).
Context (f : nat -> list Z -> list Z).
Context (Hf : forall s pre w, (W <= s)%nat -> length w = W -> Forall quad_ok w ->
  length pre = (4 * (s - W))%nat -> f s (pre ++ concat w) = pre ++ concat w ++ next s w).

Lemma subkeys_quads s : Forall quad_ok (subkeys s).
Proof.
  induction s as [|s IH]; cbn; [done|]. apply Forall_app. split; [done|]. constructor; [|done].
  apply Hok; [rewrite length_drop, length_subkeys; lia|by apply Forall_drop].
Qed.

Lemma length_concat_quads K : Forall quad_ok K -> length (concat K) = (4 * length K)%nat.
Proof. induction 1 as [|q K Hq HK IH]; [done|]. cbn. rewrite length_app, IH, Hq. lia. Qed.

Lemma schedule_fold n :
  fold_left (fun rk s => f s rk) (seq W n) (concat (drop W (subkeys W))) =
  concat (drop W (subkeys (W + n))).
Proof.
  induction n as [|n IH]; [by rewrite Nat.add_0_r|].
  rewrite seq_S, fold_left_app, IH. cbn [fold_left]. rewrite Nat.add_succ_r. cbn [subkeys].
  set (s := (W + n)%nat). pose proof (subkeys_quads s) as HQ.
  rewrite (drop_app_le (subkeys s)) by (rewrite length_subkeys; lia). rewrite concat_app.
  cbn [concat]. rewrite app_nil_r.
  assert (drop W (subkeys s) = take n (drop W (subkeys s)) ++ drop s (subkeys s)) as E.
  { rewrite <- (take_drop n (drop W (subkeys s))) at 1. by rewrite drop_drop. }
  rewrite E, concat_app, <- app_assoc. apply Hf.
  - lia.
  - rewrite length_drop, length_subkeys. lia.
  - by apply Forall_drop.
  - rewrite length_concat_quads by (by apply Forall_take, Forall_drop).
    rewrite length_take, length_drop, length_subkeys. lia.
Qed.

Lemma concat_quad K s :
  Forall quad_ok K -> (s < length K)%nat -> rk_quad (concat K) (4 * s) = nth s K [].
Proof.
  intros HK. revert s. induction HK as [|q K Hq HK IH]; intros s Hs; [simpl in Hs; lia|].
  unfold rk_quad in *. destruct s as [|s]; cbn [concat nth].
  - rewrite Nat.mul_0_r, drop_0, take_app_le, take_ge by lia. done.
  - rewrite drop_app_ge by lia. rewrite Hq, <- IH by (simpl in Hs; lia). do 2 f_equal. lia.
Qed.

(** The array built by [n] expansion steps from the first [W] subkeys holds all of them. *)
Lemma schedule_quad n s :
  (s < W + n)%nat ->
  rk_quad (fold_left (fun rk s => f s rk) (seq W n) (concat (drop W (subkeys W)))) (4 * s) = subkey (W + n) s.
Proof.
  intros Hs. rewrite schedule_fold, concat_quad.
  - unfold subkey. by rewrite !nth_lookup, lookup_drop.
  - apply Forall_drop, subkeys_quads.
  - rewrite length_drop, length_subkeys. lia.
Qed.

(** So the rounds that read the array are the rounds that compute subkeys as they go. *)
Lemma rounds_by_schedule n u m p (rk := fold_left (fun rk s => f s rk) (seq W n) (concat (drop W (subkeys W)))) :
  (u * m = W + n)%nat ->
  fold_left (fun p i => fold_left (fun p k => rnd (rk_quad rk (4 * (u * i + k))) (u * i + k)%nat p) (seq 0 u) p)
    (seq 0 m) p = (fold_left sem (seq 0 (u * m)) (w0, p)).2.
Proof.
  intros Hum. rewrite (sem_fold (W + n)) by lia. cbn [snd].
  rewrite (fold_left_groups (fun k p => rnd (rk_quad rk (4 * k)) k p) u m).
  apply fold_left_ext. intros q k Hk%elem_of_seq. unfold rk. by rewrite schedule_quad by lia.
Qed.
End Window.

(** Running one list of statements per round. *)
Lemma run_steps {C} col msg cnt steps (flat : nat -> C -> list Z) (sm : C -> nat -> C) (ok : C -> Prop) c :
  (forall s c, (s < length steps)%nat -> ok c ->
    run col msg cnt (nth s steps []) (flat s c) = flat (S s) (sm c s) /\ ok (sm c s)) ->
  ok c ->
  run col msg cnt (concat steps) (flat 0%nat c) = flat (length steps) (fold_left sm (seq 0 (length steps)) c) /\
  ok (fold_left sm (seq 0 (length steps)) c).
Proof.
  intros Hstep Hc.
  assert (forall k, (k <= length steps)%nat ->
    run col msg cnt (concat (take k steps)) (flat 0%nat c) = flat k (fold_left sm (seq 0 k) c) /\
    ok (fold_left sm (seq 0 k) c)) as H.
  { induction k as [|k IH]; intros Hk; [done|]. destruct (IH ltac:(lia)) as [E1 E2].
    destruct (lookup_lt_is_Some_2 steps k ltac:(lia)) as [st Hst].
    rewrite (take_S_r _ _ _ Hst), concat_app, seq_S, fold_left_app. cbn [concat fold_left Nat.add].
    rewrite app_nil_r. unfold run in *. rewrite fold_left_app, E1.
    assert (st = nth k steps []) as -> by by rewrite nth_lookup, Hst. apply Hstep; [lia|done]. }
  rewrite <- (take_ge steps (length steps)) at 1 by lia. by apply H.
Qed.

(** ** The rounds of c256 and c512 *)

Section Rounds.
Context (col : Z -> Z -> Z -> Z -> Z) (msg cnt : list Z).

Definition msg_quad (s : nat) : list Z :=
  (fun j => sph_dec32le (drop (4 * (4 * s + j)) msg)) <$> seq 0 4.
Definition nl (q q1 : list Z) : list Z :=
  lxor_list (aes col [q.[1]; q.[2]; q.[3]; q.[0]]) q1.
Definition lin256 (q4 q1 : list Z) : list Z :=
  let r0 := q4.[0] ⊕ q1.[1] in
  [r0; q4.[1] ⊕ q1.[2]; q4.[2] ⊕ q1.[3]; q4.[3] ⊕ r0].
Definition lin512 (q8 q2 q1 : list Z) : list Z :=
  [q8.[0] ⊕ q2.[1]; q8.[1] ⊕ q2.[2]; q8.[2] ⊕ q2.[3]; q8.[3] ⊕ q1.[0]].

Definition next256 (s : nat) (w : list (list Z)) : list Z :=
  if (s <? 4)%nat then msg_quad s
  else if Nat.odd (s / 4) then add_cnt256 cnt (4 * s) (nl (nth 0 w []) (nth 3 w []))
  else lin256 (nth 0 w []) (nth 3 w []).
Definition next512 (s : nat) (w : list (list Z)) : list Z :=
  if (s <? 8)%nat then msg_quad s
  else if Nat.odd (s / 8) then add_cnt512 cnt (4 * s) (nl (nth 0 w []) (nth 7 w []))
  else lin512 (nth 0 w []) (nth 6 w []) (nth 7 w []).

(** One AES round: its input, and where its output goes.  Three of them make a
    Feistel round of [c256]; four make half a round of [c512], after which the
    parts rotate. *)
Definition round256 (q : list Z) (s : nat) (p : list Z * list Z * list Z) : list Z * list Z * list Z :=
  let '(p03, p47, x) := p in
  let even := Nat.even (s / 3) in
  let x := aes col (lxor_list (if (s mod 3 =? 0)%nat then if even then p47 else p03 else x) q) in
  if (s mod 3 =? 2)%nat
  then if even then (lxor_list p03 x, p47, x) else (p03, lxor_list p47 x, x)
  else (p03, p47, x).
Definition round512 (q : list Z) (s : nat) (p : list Z * list Z * list Z * list Z * list Z) :
    list Z * list Z * list Z * list Z * list Z :=
  let '(p03, p47, p8B, pCF, x) := p in
  let x := aes col (lxor_list
    (if (s mod 8 =? 0)%nat then p47 else if (s mod 8 =? 4)%nat then pCF else x) q) in
  if (s mod 8 =? 3)%nat then (lxor_list p03 x, p47, p8B, pCF, x)
  else if (s mod 8 =? 7)%nat then (pCF, p03, p47, lxor_list p8B x, x)
  else (p03, p47, p8B, pCF, x).

Definition ok256 (c : list (list Z) * (list Z * list Z * list Z)) : Prop :=
  let '(w, (p03, p47, x)) := c in
  (length w = 4%nat /\ Forall quad_ok w) /\ quad_ok p03 /\ quad_ok p47 /\ quad_ok x.
Definition ok512 (c : list (list Z) * (list Z * list Z * list Z * list Z * list Z)) : Prop :=
  let '(w, (p03, p47, p8B, pCF, x)) := c in
  (length w = 8%nat /\ Forall quad_ok w) /\ quad_ok p03 /\ quad_ok p47 /\ quad_ok p8B /\ quad_ok pCF /\ quad_ok x.

(** The register file before AES round [s]: subkey [i] is in group [i mod W] of
    the [rk] registers; part [j] of [c512] has moved by one per round. *)
Definition flat256 (s : nat) (c : list (list Z) * (list Z * list Z * list Z)) : list Z :=
  let '(w, (p03, p47, x)) := c in
  p03 ++ p47 ++ x ++ concat ((fun j => nth ((j + 3 * s) mod 4)%nat w []) <$> seq 0 4).
Definition flat512 (s : nat) (c : list (list Z) * (list Z * list Z * list Z * list Z * list Z)) : list Z :=
  let '(w, (p03, p47, p8B, pCF, x)) := c in
  concat ((fun j => nth ((j + s / 8) mod 4)%nat [p03; p47; p8B; pCF] []) <$> seq 0 4) ++ x ++
  concat ((fun j => nth ((j + 7 * s) mod 8)%nat w []) <$> seq 0 8).

Lemma step256 s c :
  (s < length C256.steps)%nat -> ok256 c ->
  run col msg cnt (nth s C256.steps []) (flat256 s c) = flat256 (S s) (sem next256 round256 c s) /\
  ok256 (sem next256 round256 c s).
Proof.
  change (length C256.steps) with 36%nat. destruct c as [w [[a b] x]].
  intros Hs [[Hw HF] (Ha & Hb & Hx)].
  destruct w as [|w0 [|w1 [|w2 [|w3 [|? w]]]]]; try done.
  rewrite !Forall_cons in HF. destruct HF as (H0 & H1 & H2 & H3 & _).
  split_quad a. split_quad b. split_quad x. split_quad w0. split_quad w1. split_quad w2. split_quad w3.
  do 36 (destruct s as [|s];
    [split; [lazy -[Z.lxor not32 sph_dec32le]; rewrite ?Z.lxor_assoc; reflexivity
            |repeat split; repeat constructor]|]).
  lia.
Qed.

Lemma step512 s c :
  (s < length C512.steps)%nat -> ok512 c ->
  run col msg cnt (nth s C512.steps []) (flat512 s c) = flat512 (S s) (sem next512 round512 c s) /\
  ok512 (sem next512 round512 c s).
Proof.
  change (length C512.steps) with 112%nat. destruct c as [w [[[[a b] d] e] x]].
  intros Hs [[Hw HF] (Ha & Hb & Hd & He & Hx)].
  destruct w as [|w0 [|w1 [|w2 [|w3 [|w4 [|w5 [|w6 [|w7 [|? w]]]]]]]]]; try done.
  rewrite !Forall_cons in HF. destruct HF as (H0 & H1 & H2 & H3 & H4 & H5 & H6 & H7 & _).
  split_quad a. split_quad b. split_quad d. split_quad e. split_quad x. split_quad w0. split_quad w1.
  split_quad w2. split_quad w3. split_quad w4. split_quad w5. split_quad w6. split_quad w7.
  do 112 (destruct s as [|s];
    [split; [lazy -[Z.lxor not32 sph_dec32le]; rewrite ?Z.lxor_assoc; reflexivity
            |repeat split; repeat constructor]|]).
  lia.
Qed.
End Rounds.

(** ** The small footprint computes the same *)

Section Agree.
Context (col : Z -> Z -> Z -> Z -> Z) (msg cnt : list Z).

Lemma length_add_cnt256 u q : quad_ok q -> quad_ok (add_cnt256 cnt u q).
Proof. intros H. unfold add_cnt256. by repeat case_match. Qed.
Lemma length_add_cnt512 u q : quad_ok q -> quad_ok (add_cnt512 cnt u q).
Proof. intros H. unfold add_cnt512. by repeat case_match. Qed.

Lemma nl_quad q q1 : quad_ok q1 -> quad_ok (nl col q q1).
Proof. intros H. unfold nl. rewrite length_zip_with, H. done. Qed.

Lemma quads_nth (w : list (list Z)) i : Forall quad_ok w -> (i < length w)%nat -> quad_ok (nth i w []).
Proof.
  intros Hw Hi. rewrite Forall_forall in Hw. apply Hw, list_elem_of_In, nth_In. lia.
Qed.

Lemma next256_quad s w : length w = 4%nat -> Forall quad_ok w -> quad_ok (next256 col msg cnt s w).
Proof.
  intros Hl Hw. unfold next256. case_match; [done|]. case_match; [|done].
  apply length_add_cnt256, nl_quad, quads_nth; [done|lia].
Qed.
Lemma next512_quad s w : length w = 8%nat -> Forall quad_ok w -> quad_ok (next512 col msg cnt s w).
Proof.
  intros Hl Hw. unfold next512. case_match; [done|]. case_match; [|done].
  apply length_add_cnt512, nl_quad, quads_nth; [done|lia].
Qed.

Definition expand256 (s : nat) : list Z -> list Z :=
  if Nat.odd (s / 4) then expand_nl256 col cnt else expand_lin256.
Definition expand512 (s : nat) : list Z -> list Z :=
  if Nat.odd (s / 8) then expand_nl512 col cnt else expand_lin512.

(** Positions counted from the end of the array, as positions in its last
    [n] words. *)
Ltac from_end pre n ks :=
  let rec go ks :=
    lazymatch ks with
    | nil => idtac
    | ?k :: ?ks =>
        let d := eval cbv in (n - k)%nat in
        replace (length pre + n - n + k)%nat with (length pre + k)%nat by lia;
        replace (length pre + n - d)%nat with (length pre + k)%nat by lia; go ks
    end in
  go ks; rewrite !(app_nth2_plus pre).

Ltac flat_words l :=
  match goal with |- context [concat ?w] =>
    let c := eval cbn in (concat w) in change (concat w) with c; set (l := c) end.

Lemma expand256_next s pre w :
  (4 <= s)%nat -> length w = 4%nat -> Forall quad_ok w -> length pre = (4 * (s - 4))%nat ->
  expand256 s (pre ++ concat w) = pre ++ concat w ++ next256 col msg cnt s w.
Proof.
  intros Hs Hl HF Hp. destruct w as [|w0 [|w1 [|w2 [|w3 [|? w]]]]]; try done.
  rewrite !Forall_cons in HF. destruct HF as (H0 & H1 & H2 & H3 & _).
  split_quad w0. split_quad w1. split_quad w2. split_quad w3.
  unfold expand256, next256. destruct (Nat.ltb_spec s 4); [lia|].
  flat_words l.
  assert (length (pre ++ l) = length pre + 16)%nat as HL by (rewrite length_app; reflexivity).
  destruct (Nat.odd (s / 4)).
  - unfold expand_nl256, rk_aes. rewrite HL, <- app_assoc.
    replace (4 * s)%nat with (length pre + 16)%nat by lia. do 3 f_equal. unfold nl.
    from_end pre 16%nat [1; 2; 3; 0; 12; 13; 14; 15]%nat. reflexivity.
  - unfold expand_lin256, lin256. rewrite HL, <- app_assoc. do 2 f_equal.
    from_end pre 16%nat [0; 1; 2; 3; 13; 14; 15]%nat. reflexivity.
Qed.

Lemma expand512_next s pre w :
  (8 <= s)%nat -> length w = 8%nat -> Forall quad_ok w -> length pre = (4 * (s - 8))%nat ->
  expand512 s (pre ++ concat w) = pre ++ concat w ++ next512 col msg cnt s w.
Proof.
  intros Hs Hl HF Hp. destruct w as [|w0 [|w1 [|w2 [|w3 [|w4 [|w5 [|w6 [|w7 [|? w]]]]]]]]]; try done.
  rewrite !Forall_cons in HF. destruct HF as (H0 & H1 & H2 & H3 & H4 & H5 & H6 & H7 & _).
  split_quad w0. split_quad w1. split_quad w2. split_quad w3. split_quad w4. split_quad w5.
  split_quad w6. split_quad w7.
  unfold expand512, next512. destruct (Nat.ltb_spec s 8); [lia|].
  flat_words l.
  assert (length (pre ++ l) = length pre + 32)%nat as HL by (rewrite length_app; reflexivity).
  destruct (Nat.odd (s / 8)).
  - unfold expand_nl512, rk_aes. rewrite HL, <- app_assoc.
    replace (4 * s)%nat with (length pre + 32)%nat by lia. do 3 f_equal. unfold nl.
    from_end pre 32%nat [1; 2; 3; 0; 28; 29; 30; 31]%nat. reflexivity.
  - unfold expand_lin512, lin512. rewrite HL, <- app_assoc. do 2 f_equal.
    from_end pre 32%nat [0; 1; 2; 3; 25; 26; 27; 28]%nat. reflexivity.
Qed.

(** A loop of [m] identical groups of [k] steps is a loop of [k * m] steps. *)
Lemma iter_steps {A} (f : nat -> A -> A) (g : A -> A) k m a x :
  (forall i y, (i < m)%nat -> g y = fold_left (fun y s => f s y) (seq (a + k * i) k) y) ->
  Nat.iter m g x = fold_left (fun y s => f s y) (seq a (k * m)) x.
Proof.
  induction m as [|m IH]; intros Hg; [by rewrite Nat.mul_0_r|].
  rewrite Nat.mul_succ_r, seq_app, fold_left_app, <- IH by (intros; apply Hg; lia).
  cbn [Nat.iter nat_rect]. by rewrite (Hg m) by lia.
Qed.

Lemma iter_same {A} (f : nat -> A -> A) (g : A -> A) m a x :
  (forall s, (a <= s < a + m)%nat -> f s = g) ->
  Nat.iter m g x = fold_left (fun y s => f s y) (seq a m) x.
Proof.
  intros H. replace (seq a m) with (seq a (1 * m)) by (f_equal; lia). apply iter_steps.
  intros i y Hi. cbn. by rewrite H by lia.
Qed.

Lemma odd_group k s i : (0 < k)%nat -> (k * i <= s < k * i + k)%nat -> (s / k)%nat = i.
Proof. intros Hk H. symmetry. apply (Nat.div_unique _ _ _ (s - k * i)); lia. Qed.

Lemma schedule256_fold rk :
  schedule256 col cnt rk = fold_left (fun rk s => expand256 s rk) (seq 4 32) rk.
Proof.
  unfold schedule256. apply (iter_steps expand256 _ 8 4). intros i y Hi.
  change 8%nat with (4 + 4)%nat at 2. rewrite seq_app, fold_left_app.
  rewrite <- (iter_same expand256 expand_lin256), <- (iter_same expand256 (expand_nl256 col cnt)); [done|..];
    intros s Hs; unfold expand256.
  - rewrite (odd_group 4 s (2 * i + 1)) by lia. by rewrite Nat.odd_add, Nat.odd_mul.
  - rewrite (odd_group 4 s (2 * i + 2)) by lia. by rewrite Nat.odd_add, Nat.odd_mul.
Qed.

Lemma schedule512_fold rk :
  schedule512 col cnt rk = fold_left (fun rk s => expand512 s rk) (seq 8 104) rk.
Proof.
  unfold schedule512. rewrite (iter_steps expand512 _ 16 6 8).
  - change 104%nat with (16 * 6 + 8)%nat. rewrite seq_app, fold_left_app. apply iter_same.
    intros s Hs. unfold expand512. by rewrite (odd_group 8 s 13) by lia.
  - intros i y Hi. change 16%nat with (8 + 8)%nat at 2. rewrite seq_app, fold_left_app.
    rewrite <- (iter_same expand512 expand_lin512), <- (iter_same expand512 (expand_nl512 col cnt)); [done|..];
      intros s Hs; unfold expand512.
    + rewrite (odd_group 8 s (2 * i + 1)) by lia. by rewrite Nat.odd_add, Nat.odd_mul.
    + rewrite (odd_group 8 s (2 * i + 2)) by lia. by rewrite Nat.odd_add, Nat.odd_mul.
Qed.

Lemma c256_round_steps rk p r :
  (r < 6)%nat ->
  c256_round col rk p.1 r = (fold_left (fun p k =>
    round256 col (rk_quad rk (4 * (6 * r + k))) (6 * r + k) p) (seq 0 6) p).1.
Proof.
  intros Hr. destruct p as [[p03 p47] x]. unfold c256_round, rounds_of. generalize (rk_quad rk). intros K.
  do 6 (destruct r as [|r]; [reflexivity|]). lia.
Qed.
Lemma c512_round_steps rk p r :
  (r < 14)%nat ->
  c512_round col rk p.1 r = (fold_left (fun p k =>
    round512 col (rk_quad rk (4 * (8 * r + k))) (8 * r + k) p) (seq 0 8) p).1.
Proof.
  intros Hr. destruct p as [[[[p03 p47] p8B] pCF] x]. unfold c512_round, rounds_of.
  generalize (rk_quad rk). intros K.
  do 14 (destruct r as [|r]; [reflexivity|]). lia.
Qed.

Let zero : list Z := [0; 0; 0; 0].

(** [c256] as its 36 AES rounds, and as the loops of the small footprint. *)
Lemma c256_agree h :
  length h = 8%nat -> c256_with col h cnt msg = c256_small_with col cnt h msg.
Proof.
  intros Hh.
  pose (w0 := replicate 4 zero). pose (p0 := (take 4 h, drop 4 h, zero)).
  destruct (run_steps col msg cnt C256.steps flat256 (sem (next256 col msg cnt) (round256 col)) ok256 (w0, p0)
    (step256 col msg cnt)) as [E Eok].
  { split; [split; [done|repeat constructor]|]. by rewrite length_take, length_drop, Hh. }
  change (length C256.steps) with (6 * 6)%nat in E, Eok.
  assert (flat256 0 (w0, p0) = h ++ replicate 20 0) as E0.
  { clear E Eok. do 8 (destruct h as [|? h]; [done|]). destruct h; [reflexivity|done]. }
  unfold c256_with. rewrite <- E0, E. clear E E0.
  unfold c256_small_with. rewrite schedule256_fold.
  pose proof (rounds_by_schedule 4 (next256 col msg cnt) (round256 col) w0 eq_refl ltac:(lia) ltac:(repeat constructor)
    next256_quad expand256 expand256_next 32 6 6 p0 eq_refl) as Er.
  set (rk := fold_left _ (seq 4 32) _) in *. change (take 4 h, drop 4 h) with p0.1.
  erewrite (fold_left_sim (fun a b => a = b.1) (c256_round col rk)); [| reflexivity |];
    [rewrite Er | intros a b r Hr%elem_of_seq ->; apply c256_round_steps; lia].
  clear Er. destruct (fold_left _ (seq 0 (6 * 6)) _) as [w [[a b] x]]. cbn [fst snd].
  destruct Eok as (_ & Ha & Hb & _). f_equal. unfold flat256.
  rewrite app_assoc, take_app_le, take_ge; rewrite ?length_app, ?Ha, ?Hb; (done || lia).
Qed.

(** [c512] likewise: 112 AES rounds, after which the parts have moved by 14
    places of 4. *)
Lemma c512_agree h :
  length h = 16%nat -> c512_with col h cnt msg = c512_small_with col cnt h msg.
Proof.
  intros Hh.
  pose (w0 := replicate 8 zero). pose (p0 := (take 4 h, take 4 (drop 4 h), take 4 (drop 8 h), drop 12 h, zero)).
  destruct (run_steps col msg cnt C512.steps flat512 (sem (next512 col msg cnt) (round512 col)) ok512 (w0, p0)
    (step512 col msg cnt)) as [E Eok].
  { split; [split; [done|repeat constructor]|]. by rewrite !length_take, !length_drop, Hh. }
  change (length C512.steps) with (8 * 14)%nat in E, Eok.
  assert (flat512 0 (w0, p0) = h ++ replicate 36 0) as E0.
  { clear E Eok. do 16 (destruct h as [|? h]; [done|]). destruct h; [reflexivity|done]. }
  unfold c512_with. rewrite <- E0, E. clear E E0.
  unfold c512_small_with. rewrite schedule512_fold.
  pose proof (rounds_by_schedule 8 (next512 col msg cnt) (round512 col) w0 eq_refl ltac:(lia) ltac:(repeat constructor)
    next512_quad expand512 expand512_next 104 8 14 p0 eq_refl) as Er.
  set (rk := fold_left _ (seq 8 104) _) in *.
  change (take 4 h, take 4 (drop 4 h), take 4 (drop 8 h), drop 12 h) with p0.1.
  erewrite (fold_left_sim (fun a b => a = b.1) (c512_round col rk)); [| reflexivity |];
    [rewrite Er | intros a b r Hr%elem_of_seq ->; apply c512_round_steps; lia].
  clear Er. destruct (fold_left _ (seq 0 (8 * 14)) _) as [w [[[[a b] d] e] x]]. cbn [fst snd].
  destruct Eok as (_ & Ha & Hb & Hd & He & _). f_equal.
  unfold flat512. generalize (x ++ concat ((fun j => nth ((j + 7 * (8 * 14)) mod 8)%nat w []) <$> seq 0 8)).
  intros rest. change ((fun j => nth ((j + 8 * 14 / 8) mod 4)%nat [a; b; d; e] []) <$> seq 0 4) with [d; e; a; b].
  split_quad a. split_quad b. split_quad d. split_quad e. reflexivity.
Qed.
End Agree.
