(* ===== verification/Shavite.v ===== *)
(** * shavite.c: SHAvite-3

    The contexts, the input loops and the closing code of the four digest sizes
    on top of the block functions of [ShaviteBlock], and the theorems: the two
    variants of the block functions agree, and the digest is that of the
    counter-mode iteration of [Counter]. *)

From Stdlib Require Import ZArith Lia Btauto.
From stdpp Require Import base tactics numbers list.
From S2P Require Import Prelude SphTypes Stream Gf256 Aes Counter ShaviteBlock.

Abbreviation sph_shavite_small_context := (stream_ctx (ctr_state (list Z))).
Abbreviation sph_shavite_big_context := (stream_ctx (ctr_state (list Z))).

Definition shavite_small_init (sc : sph_shavite_small_context) (iv : list Z) : sph_shavite_small_context :=
  mk_ctx (buf sc) 0%nat (mk_ctr iv [0; 0]).
Definition shavite_big_init (sc : sph_shavite_big_context) (iv : list Z) : sph_shavite_big_context :=
  mk_ctx (buf sc) 0%nat (mk_ctr iv [0; 0; 0; 0]).

(** [count0 += 512] with the carry found by comparing with zero. *)
Definition bump_small (cnt : list Z) : list Z :=
  let count0 := SPH_T32 (cnt.[0] + 512) in
  [count0; if count0 =? 0 then SPH_T32 (cnt.[1] + 1) else cnt.[1]].
Definition bump_big (cnt : list Z) : list Z :=
  let count0 := SPH_T32 (cnt.[0] + 1024) in
  if count0 =? 0 then
    let count1 := SPH_T32 (cnt.[1] + 1) in
    if count1 =? 0 then
      let count2 := SPH_T32 (cnt.[2] + 1) in
      if count2 =? 0 then [count0; count1; count2; SPH_T32 (cnt.[3] + 1)]
      else [count0; count1; count2; cnt.[3]]
    else [count0; count1; cnt.[2]; cnt.[3]]
  else [count0; cnt.[1]; cnt.[2]; cnt.[3]].

Definition shavite_small_core (sc : sph_shavite_small_context) (data : list Z) : sph_shavite_small_context :=
  core_plain 64 (ctr_absorb c256 bump_small) sc data.
Definition shavite_big_core (sc : sph_shavite_big_context) (data : list Z) : sph_shavite_big_context :=
  core_plain 128 (ctr_absorb c512 bump_big) sc data.

(** The digest and the context: the closing functions of the interface
    reinitialise it afterwards. *)
Definition shavite_small_close (sc : sph_shavite_small_context) (ub n : Z) (out_size_w32 : nat) :
    list Z * sph_shavite_small_context :=
  let h := cs_h (st sc) in
  let count0 := SPH_T32 ((cs_cnt (st sc)).[0] + ((Z.of_nat (ptr sc) << 3) + n)) in
  let count1 := (cs_cnt (st sc)).[1] in
  let z := 0x80 >> n in
  let z := ((ub .& SPH_T32 (- z)) .| z) .& 0xFF in
  let '(b, h, cnt) :=
    if (ptr sc =? 0)%nat && (n =? 0) then
      (memset (<[0%nat := 0x80]> (buf sc)) 1 0 53, h, [0; 0])
    else if (ptr sc <? 54)%nat then
      (memset (<[ptr sc := z]> (buf sc)) (S (ptr sc)) 0 (54 - S (ptr sc)), h, [count0; count1])
    else
      let b := memset (<[ptr sc := z]> (buf sc)) (S (ptr sc)) 0 (64 - S (ptr sc)) in
      (memset b 0 0 54, c256 h [count0; count1] b, [0; 0]) in
  let b := memcpy b 54 (sph_enc32le count0) in
  let b := memcpy b 58 (sph_enc32le count1) in
  let b := <[62%nat := uchar (Z.of_nat out_size_w32 << 5)]> b in
  let b := <[63%nat := uchar (Z.of_nat out_size_w32 >> 3)]> b in
  let h := c256 h cnt b in
  (concat ((fun u => sph_enc32le h.[u]) <$> seq 0 out_size_w32), mk_ctx b (ptr sc) (mk_ctr h cnt)).

Definition shavite_big_close (sc : sph_shavite_big_context) (ub n : Z) (out_size_w32 : nat) :
    list Z * sph_shavite_big_context :=
  let h := cs_h (st sc) in
  let count0 := SPH_T32 ((cs_cnt (st sc)).[0] + ((Z.of_nat (ptr sc) << 3) + n)) in
  let count1 := (cs_cnt (st sc)).[1] in
  let count2 := (cs_cnt (st sc)).[2] in
  let count3 := (cs_cnt (st sc)).[3] in
  let z := 0x80 >> n in
  let z := ((ub .& SPH_T32 (- z)) .| z) .& 0xFF in
  let '(b, h, cnt) :=
    if (ptr sc =? 0)%nat && (n =? 0) then
      (memset (<[0%nat := 0x80]> (buf sc)) 1 0 109, h, [0; 0; 0; 0])
    else if (ptr sc <? 110)%nat then
      (memset (<[ptr sc := z]> (buf sc)) (S (ptr sc)) 0 (110 - S (ptr sc)), h, [count0; count1; count2; count3])
    else
      let b := memset (<[ptr sc := z]> (buf sc)) (S (ptr sc)) 0 (128 - S (ptr sc)) in
      (memset b 0 0 110, c512 h [count0; count1; count2; count3] b, [0; 0; 0; 0]) in
  let b := memcpy b 110 (sph_enc32le count0) in
  let b := memcpy b 114 (sph_enc32le count1) in
  let b := memcpy b 118 (sph_enc32le count2) in
  let b := memcpy b 122 (sph_enc32le count3) in
  let b := <[126%nat := uchar (Z.of_nat out_size_w32 << 5)]> b in
  let b := <[127%nat := uchar (Z.of_nat out_size_w32 >> 3)]> b in
  let h := c512 h cnt b in
  (concat ((fun u => sph_enc32le h.[u]) <$> seq 0 out_size_w32), mk_ctx b (ptr sc) (mk_ctr h cnt)).

(** ** The functions of sph_shavite.h *)

Definition sph_shavite224_init (cc : sph_shavite_small_context) := shavite_small_init cc IV224.
Definition sph_shavite224 (cc : sph_shavite_small_context) (data : list Z) := shavite_small_core cc data.
Definition sph_shavite224_close (cc : sph_shavite_small_context) :=
  let '(dst, cc) := shavite_small_close cc 0 0 7 in (dst, shavite_small_init cc IV224).
Definition sph_shavite224_addbits_and_close (cc : sph_shavite_small_context) (ub n : Z) :=
  let '(dst, cc) := shavite_small_close cc ub n 7 in (dst, shavite_small_init cc IV224).

Definition sph_shavite256_init (cc : sph_shavite_small_context) := shavite_small_init cc IV256.
Definition sph_shavite256 (cc : sph_shavite_small_context) (data : list Z) := shavite_small_core cc data.
Definition sph_shavite256_close (cc : sph_shavite_small_context) :=
  let '(dst, cc) := shavite_small_close cc 0 0 8 in (dst, shavite_small_init cc IV256).
Definition sph_shavite256_addbits_and_close (cc : sph_shavite_small_context) (ub n : Z) :=
  let '(dst, cc) := shavite_small_close cc ub n 8 in (dst, shavite_small_init cc IV256).

Definition sph_shavite384_init (cc : sph_shavite_big_context) := shavite_big_init cc IV384.
Definition sph_shavite384 (cc : sph_shavite_big_context) (data : list Z) := shavite_big_core cc data.
Definition sph_shavite384_close (cc : sph_shavite_big_context) :=
  let '(dst, cc) := shavite_big_close cc 0 0 12 in (dst, shavite_big_init cc IV384).
Definition sph_shavite384_addbits_and_close (cc : sph_shavite_big_context) (ub n : Z) :=
  let '(dst, cc) := shavite_big_close cc ub n 12 in (dst, shavite_big_init cc IV384).

Definition sph_shavite512_init (cc : sph_shavite_big_context) := shavite_big_init cc IV512.
Definition sph_shavite512 (cc : sph_shavite_big_context) (data : list Z) := shavite_big_core cc data.
Definition sph_shavite512_close (cc : sph_shavite_big_context) :=
  let '(dst, cc) := shavite_big_close cc 0 0 16 in (dst, shavite_big_init cc IV512).
Definition sph_shavite512_addbits_and_close (cc : sph_shavite_big_context) (ub n : Z) :=
  let '(dst, cc) := shavite_big_close cc ub n 16 in (dst, shavite_big_init cc IV512).

(** ** Specification *)

(** The end of the padding: the bit length in [W] words, the digest size. *)
Definition shavite_tail (W : nat) (tot : Z) (out : nat) : list Z :=
  concat (sph_enc32le <$> cnt_words W tot) ++ [uchar (Z.of_nat out << 5); uchar (Z.of_nat out >> 3)].
Definition shavite_spec (W bs : nat) (cmp : list Z -> list Z -> list Z -> list Z) (iv msg : list Z)
    (n mb : Z) (out : nat) : list Z :=
  let h := ctr_hash bs (fun h t => cmp h (cnt_words W t)) iv msg n mb (shavite_tail W (8 * Z.of_nat (length msg) + n) out) in
  concat ((fun u => sph_enc32le h.[u]) <$> seq 0 out).

(** ** The counters *)

(** A multiple of [2^k], below the modulus, wraps around to zero or not at all. *)
Lemma mult_mod_le k t : 0 < k < 32 -> (2 ^ k * t) mod 2 ^ 32 + 2 ^ k <= 2 ^ 32.
Proof.
  intros Hk.
  assert (2 ^ 32 = 2 ^ k * 2 ^ (32 - k)) as E by (rewrite <- Z.pow_add_r by lia; f_equal; lia).
  assert (0 < 2 ^ k) by (apply Z.pow_pos_nonneg; lia).
  assert (0 < 2 ^ (32 - k)) by (apply Z.pow_pos_nonneg; lia).
  rewrite E, Z.mul_mod_distr_l by lia. pose proof (Z.mod_pos_bound t (2 ^ (32 - k)) ltac:(lia)). nia.
Qed.

Lemma bump_low W k t :
  0 <= t -> 0 < k < 32 ->
  cnt_words (S W) (2 ^ k * (t + 1)) =
  let c := SPH_T32 ((2 ^ k * t) mod 2 ^ 32 + 2 ^ k) in
  c :: (if c =? 0 then cnt_words W (2 ^ k * t / 2 ^ 32 + 1) else cnt_words W (2 ^ k * t / 2 ^ 32)).
Proof.
  intros Ht Hk. cbv zeta. rewrite T32_mod. replace (2 ^ k * (t + 1)) with (2 ^ k * t + 2 ^ k) by lia.
  assert (0 < 2 ^ k) by (apply Z.pow_pos_nonneg; lia).
  pose proof (mult_mod_le k t Hk). pose proof (Z.mod_pos_bound (2 ^ k * t) (2 ^ 32) ltac:(lia)).
  destruct (Z.eq_dec ((2 ^ k * t) mod 2 ^ 32 + 2 ^ k) (2 ^ 32)) as [E|E].
  - rewrite cnt_words_carry, E by lia. done.
  - rewrite cnt_words_low, (Z.mod_small (_ + _)) by lia.
    destruct (Z.eqb_spec ((2 ^ k * t) mod 2 ^ 32 + 2 ^ k) 0); [lia|done].
Qed.

Lemma bump_small_words k : 0 <= k -> bump_small (cnt_words 2 (8 * Z.of_nat 64 * k)) = cnt_words 2 (8 * Z.of_nat 64 * (k + 1)).
Proof.
  intros Hk. change (8 * Z.of_nat 64) with (2 ^ 9). rewrite bump_low by lia. cbv zeta.
  rewrite !(cnt_words_S 1), !(cnt_words_S 0). unfold bump_small. cbn [nth]. change 512 with (2 ^ 9).
  set (t := 2 ^ 9 * k / 2 ^ 32). case Z.eqb_spec; intros; [|done].
  rewrite !T32_mod, !Zplus_mod_idemp_l. done.
Qed.

Lemma bump_big_words k : 0 <= k -> bump_big (cnt_words 4 (8 * Z.of_nat 128 * k)) = cnt_words 4 (8 * Z.of_nat 128 * (k + 1)).
Proof.
  intros Hk. change (8 * Z.of_nat 128) with (2 ^ 10). rewrite bump_low by lia. cbv zeta.
  rewrite (cnt_words_S 3 (2 ^ 10 * k)). unfold bump_big. cbn [nth]. change 1024 with (2 ^ 10).
  destruct (_ =? 0); [|done]. by rewrite <- carry_words.
Qed.

(** ** The closing code at both sizes *)

Lemma mark_byte_0 ub : mark_byte ub 0 = 0x80.
Proof.
  unfold mark_byte. change (0x80 >> 0) with 0x80. change (SPH_T32 (- 0x80)) with 0xFFFFFF80.
  apply (word_eq 8); [apply uchar_word|unfold word; lia|]. intros i Hi.
  rewrite uchar_bit by done. rewrite Z.lor_spec, Z.land_spec.
  assert (i = 0 \/ i = 1 \/ i = 2 \/ i = 3 \/ i = 4 \/ i = 5 \/ i = 6 \/ i = 7) as Hc by lia.
  destruct Hc as [->|[->|[->|[->|[->|[->|[->| ->]]]]]]]; generalize (Z.testbit ub); intros f;
    rewrite ?andb_false_r, ?orb_true_r; reflexivity || (cbn; btauto).
Qed.

Section Close.
Context (W bs : nat) (cmp : list Z -> list Z -> list Z -> list Z) (bump : list Z -> list Z).
Context (Hbs : (0 < bs)%nat) (HW : (0 < W)%nat) (Hroom : (4 * W + 2 < bs)%nat).
Context (k : Z) (Hk : 0 < k < 32) (Hbits : 8 * Z.of_nat bs = 2 ^ k).
Context (Hbump : forall i, 0 <= i ->
  bump (cnt_words W (8 * Z.of_nat bs * i)) = cnt_words W (8 * Z.of_nat bs * (i + 1))).
Let room : nat := (bs - (4 * W + 2))%nat.

(** The chaining value the closing code ends with. *)
Definition gclose (sc : stream_ctx (ctr_state (list Z))) (z n : Z) (out : nat) : list Z :=
  let h := cs_h (st sc) in
  let cnt := <[0%nat := SPH_T32 ((cs_cnt (st sc)).[0] + ((Z.of_nat (ptr sc) << 3) + n))]> (cs_cnt (st sc)) in
  let tail := concat (sph_enc32le <$> cnt) ++ [uchar (Z.of_nat out << 5); uchar (Z.of_nat out >> 3)] in
  if (ptr sc =? 0)%nat && (n =? 0) then
    cmp h (replicate W 0) (memcpy (memset (<[0%nat := 0x80]> (buf sc)) 1 0 (room - 1)) room tail)
  else if (ptr sc <? room)%nat then
    cmp h cnt (memcpy (memset (<[ptr sc := z]> (buf sc)) (S (ptr sc)) 0 (room - S (ptr sc))) room tail)
  else
    let b := memset (<[ptr sc := z]> (buf sc)) (S (ptr sc)) 0 (bs - S (ptr sc)) in
    cmp (cmp h cnt b) (replicate W 0) (memcpy (memset b 0 0 room) room tail).

Lemma length_enc32le_words l : length (concat (sph_enc32le <$> l)) = (4 * length l)%nat.
Proof. induction l as [|x l IH]; [done|]. cbn [fmap list_fmap concat]. rewrite length_app, IH. cbn. lia. Qed.

Lemma close_cnt sc msg iv n :
  repr bs (ctr_absorb cmp bump) (mk_ctr iv (cnt_words W 0)) msg sc -> 0 <= n <= 7 ->
  <[0%nat := SPH_T32 ((cs_cnt (st sc)).[0] + ((Z.of_nat (ptr sc) << 3) + n))]> (cs_cnt (st sc)) =
  cnt_words W (8 * Z.of_nat (length msg) + n).
Proof.
  intros Hr Hn. destruct (ctr_at_end W bs cmp bump Hbs Hbump iv msg sc n Hr Hn) as [-> _].
  destruct Hr as (_ & -> & _). pose proof (Nat.div_mod_eq (length msg) bs) as Hd.
  pose proof (Nat.mod_upper_bound (length msg) bs ltac:(lia)) as Hm.
  set (q := (length msg / bs)%nat) in *. set (r := (length msg mod bs)%nat) in *.
  pose proof (mult_mod_le k (Z.of_nat q) Hk) as Hq. rewrite Z.shiftl_mul_pow2 by lia.
  pose proof (Z.mod_pos_bound (2 ^ k * Z.of_nat q) (2 ^ 32) ltac:(lia)).
  destruct W as [|V]; [lia|].
  replace (8 * Z.of_nat (length msg) + n) with (2 ^ k * Z.of_nat q + (8 * Z.of_nat r + n)) by lia.
  rewrite cnt_words_low, Hbits, cnt_words_S by lia. cbn [nth list_insert insert].
  rewrite T32_id by (unfold word; lia). f_equal. lia.
Qed.

Lemma shavite_gclose_hash sc msg iv ub n out :
  length (buf sc) = bs -> 0 <= n <= 7 ->
  repr bs (ctr_absorb cmp bump) (mk_ctr iv (cnt_words W 0)) msg sc ->
  gclose sc (mark_byte ub n) n out =
  ctr_hash bs (fun h t => cmp h (cnt_words W t)) iv msg n (mark_byte ub n) (shavite_tail W (8 * Z.of_nat (length msg) + n) out).
Proof.
  intros Hl Hn Hr. unfold gclose. rewrite (close_cnt sc msg iv n Hr Hn).
  fold (shavite_tail W (8 * Z.of_nat (length msg) + n) out). set (tail := shavite_tail _ _ _).
  assert (length tail = 4 * W + 2)%nat as Ht.
  { unfold tail, shavite_tail. by rewrite length_app, length_enc32le_words, length_cnt_words. }
  pose proof (repr_wf _ _ Hbs _ _ _ Hr) as [_ Hlt].
  pose proof (ctr_close_one W bs cmp bump Hbs Hbump iv msg sc n Hr Hn (mark_byte ub n) tail ltac:(lia)) as H1.
  pose proof (ctr_close_two W bs cmp bump Hbs Hbump iv msg sc n Hr Hn (mark_byte ub n) tail ltac:(lia)) as H2.
  rewrite Ht in H1, H2. fold room in H1, H2. rewrite <- (cnt_words_zero W).
  destruct ((ptr sc =? 0)%nat && (n =? 0)) eqn:E.
  { apply andb_true_iff in E as [E En]. apply Nat.eqb_eq in E. apply Z.eqb_eq in En.
    rewrite <- H1 by (unfold room; lia). rewrite E, En, mark_byte_0.
    by rewrite md_fill by (unfold room; lia). }
  destruct (Nat.ltb_spec (ptr sc) room).
  - rewrite <- H1 by done. by rewrite md_fill by (unfold room in *; lia).
  - rewrite <- H2 by done. rewrite mark_fill by lia. set (b := take _ _ ++ _).
    assert (length b = bs) by (unfold b; rewrite length_app, length_take; cbn [length]; rewrite length_replicate; lia).
    by rewrite zero_fill by (unfold room; lia).
Qed.
End Close.

(** ** The two sizes *)

(** The words of the length, then the two bytes of the digest size. *)
Lemma small_tail_write b c0 c1 x y :
  length b = 64%nat ->
  <[63%nat := y]> (<[62%nat := x]> (memcpy (memcpy b 54 (sph_enc32le c0)) 58 (sph_enc32le c1))) =
  memcpy b 54 (concat (sph_enc32le <$> [c0; c1]) ++ [x; y]).
Proof.
  intros Hb. rewrite (memcpy_next b) by (simpl; lia). rewrite !(insert_next b) by (simpl; lia). reflexivity.
Qed.
Lemma big_tail_write b c0 c1 c2 c3 x y :
  length b = 128%nat ->
  <[127%nat := y]> (<[126%nat := x]> (memcpy (memcpy (memcpy (memcpy b 110 (sph_enc32le c0))
    114 (sph_enc32le c1)) 118 (sph_enc32le c2)) 122 (sph_enc32le c3))) =
  memcpy b 110 (concat (sph_enc32le <$> [c0; c1; c2; c3]) ++ [x; y]).
Proof.
  intros Hb. rewrite !(memcpy_next b) by (simpl; lia). rewrite !(insert_next b) by (simpl; lia). reflexivity.
Qed.

Lemma length_mark (b : list Z) p z k : (S p + k <= length b)%nat -> length (memset (<[p := z]> b) (S p) 0 k) = length b.
Proof. intros H. rewrite length_memset; rewrite ?length_insert; lia. Qed.

Lemma shavite_small_close_gclose sc ub n out c0 c1 :
  length (buf sc) = 64%nat -> (ptr sc < 64)%nat -> cs_cnt (st sc) = [c0; c1] ->
  fst (shavite_small_close sc ub n out) =
  concat ((fun u => sph_enc32le (gclose 2 64 c256 sc (mark_byte ub n) n out).[u]) <$> seq 0 out).
Proof.
  intros Hl Hp Hc. unfold shavite_small_close, gclose. rewrite Hc.
  change (((ub .& SPH_T32 (- (0x80 >> n))) .| (0x80 >> n)) .& 0xFF) with (mark_byte ub n).
  cbn [nth insert list_insert]. change (64 - (4 * 2 + 2))%nat with 54%nat.
  set (c0' := SPH_T32 _). generalize (mark_byte ub n) as z. intros z.
  destruct (_ && _); [|destruct (Nat.ltb_spec (ptr sc) 54)]; cbn [fst]; rewrite small_tail_write; try done;
    (rewrite length_mark by lia; done) || (rewrite length_memset; rewrite length_mark; lia).
Qed.

Lemma shavite_big_close_gclose sc ub n out c0 c1 c2 c3 :
  length (buf sc) = 128%nat -> (ptr sc < 128)%nat -> cs_cnt (st sc) = [c0; c1; c2; c3] ->
  fst (shavite_big_close sc ub n out) =
  concat ((fun u => sph_enc32le (gclose 4 128 c512 sc (mark_byte ub n) n out).[u]) <$> seq 0 out).
Proof.
  intros Hl Hp Hc. unfold shavite_big_close, gclose. rewrite Hc.
  change (((ub .& SPH_T32 (- (0x80 >> n))) .| (0x80 >> n)) .& 0xFF) with (mark_byte ub n).
  cbn [nth insert list_insert]. change (128 - (4 * 4 + 2))%nat with 110%nat.
  set (c0' := SPH_T32 _). generalize (mark_byte ub n) as z. intros z.
  destruct (_ && _); [|destruct (Nat.ltb_spec (ptr sc) 110)]; cbn [fst]; rewrite big_tail_write; try done;
    (rewrite length_mark by lia; done) || (rewrite length_memset; rewrite length_mark; lia).
Qed.

Lemma shavite_small_spec cc iv ds ub n out :
  length (buf cc) = 64%nat -> 0 <= n <= 7 ->
  fst (shavite_small_close (fold_left shavite_small_core ds (shavite_small_init cc iv)) ub n out) =
  shavite_spec 2 64 c256 iv (concat ds) n (mark_byte ub n) out.
Proof.
  intros Hb Hn. pose (blk := ctr_absorb c256 bump_small).
  change (fold_left shavite_small_core ds (shavite_small_init cc iv)) with
    (fold_left (core_plain 64 blk) ds (mk_ctx (buf cc) 0 (mk_ctr iv [0; 0]))).
  pose proof (init_core_plain_repr 64 blk ltac:(lia) (mk_ctr iv [0; 0]) (buf cc) ds ltac:(lia)) as Hr.
  pose proof (cores_plain_length_buf 64 blk ltac:(lia) (mk_ctr iv [0; 0]) (buf cc) ds ltac:(lia)) as Hl.
  revert Hr Hl. generalize (fold_left (core_plain 64 blk) ds (mk_ctx (buf cc) 0 (mk_ctr iv [0; 0]))) as sc.
  intros sc Hr Hl. rewrite Hb in Hl. pose proof (repr_wf 64 blk ltac:(lia) _ _ _ Hr) as [_ Hp].
  destruct (ctr_at_end 2 64 c256 bump_small ltac:(lia) bump_small_words iv (concat ds) sc n Hr Hn) as [Hc _].
  rewrite (shavite_small_close_gclose sc ub n out _ _ Hl Hp Hc). unfold shavite_spec.
  by rewrite <- (shavite_gclose_hash 2 64 c256 bump_small ltac:(lia) ltac:(lia) ltac:(lia) 9 ltac:(lia) ltac:(lia)
    bump_small_words sc (concat ds) iv ub n out Hl Hn Hr).
Qed.

Lemma shavite_big_spec cc iv ds ub n out :
  length (buf cc) = 128%nat -> 0 <= n <= 7 ->
  fst (shavite_big_close (fold_left shavite_big_core ds (shavite_big_init cc iv)) ub n out) =
  shavite_spec 4 128 c512 iv (concat ds) n (mark_byte ub n) out.
Proof.
  intros Hb Hn. pose (blk := ctr_absorb c512 bump_big).
  change (fold_left shavite_big_core ds (shavite_big_init cc iv)) with
    (fold_left (core_plain 128 blk) ds (mk_ctx (buf cc) 0 (mk_ctr iv [0; 0; 0; 0]))).
  pose proof (init_core_plain_repr 128 blk ltac:(lia) (mk_ctr iv [0; 0; 0; 0]) (buf cc) ds ltac:(lia)) as Hr.
  pose proof (cores_plain_length_buf 128 blk ltac:(lia) (mk_ctr iv [0; 0; 0; 0]) (buf cc) ds ltac:(lia)) as Hl.
  revert Hr Hl. generalize (fold_left (core_plain 128 blk) ds (mk_ctx (buf cc) 0 (mk_ctr iv [0; 0; 0; 0]))) as sc.
  intros sc Hr Hl. rewrite Hb in Hl. pose proof (repr_wf 128 blk ltac:(lia) _ _ _ Hr) as [_ Hp].
  destruct (ctr_at_end 4 128 c512 bump_big ltac:(lia) bump_big_words iv (concat ds) sc n Hr Hn) as [Hc _].
  rewrite (shavite_big_close_gclose sc ub n out _ _ _ _ Hl Hp Hc). unfold shavite_spec.
  by rewrite <- (shavite_gclose_hash 4 128 c512 bump_big ltac:(lia) ltac:(lia) ltac:(lia) 10 ltac:(lia) ltac:(lia)
    bump_big_words sc (concat ds) iv ub n out Hl Hn Hr).
Qed.

(** ** Main results *)

(** The straight-line block functions, which compute each subkey just before
    its AES round in registers that rotate, compute what the small-footprint
    ones do, which expand the key into an array of 144 or 448 words and loop
    over it; for every message, counter and chaining value. *)
Theorem shavite_block_variants_agree :
  (forall h cnt msg, length h = 8%nat -> c256 h cnt msg = c256_small h cnt msg) /\
  (forall h cnt msg, length h = 16%nat -> c512 h cnt msg = c512_small h cnt msg).
Proof. split; intros; [by apply c256_agree|by apply c512_agree]. Qed.

Lemma shavite_block_variants_agree_witness :
  c256 IV256 [512; 0] (replicate 64 3) = c256_small IV256 [512; 0] (replicate 64 3) /\
  c512 IV512 [1024; 0; 0; 0] (replicate 128 3) = c512_small IV512 [1024; 0; 0; 0] (replicate 128 3).
Proof.
  split; [exact (proj1 shavite_block_variants_agree IV256 [512; 0] (replicate 64 3) eq_refl)|].
  exact (proj2 shavite_block_variants_agree IV512 [1024; 0; 0; 0] (replicate 128 3) eq_refl).
Defined.

(** The digest of a message fed to SHAvite-3 in any chunks and closed with [n]
    further bits, for both block sizes.  The counter of each block, kept in two
    or four words with the carries found by comparisons with zero, is the number
    of message bits up to its end, zero in a block without message bits; the
    padding ends in the bit length and the digest size. *)
Theorem shavite_digest cc iv ds ub n out :
  0 <= n <= 7 ->
  (length (buf cc) = 64%nat ->
   fst (shavite_small_close (fold_left shavite_small_core ds (shavite_small_init cc iv)) ub n out) =
   shavite_spec 2 64 c256 iv (concat ds) n (mark_byte ub n) out) /\
  (length (buf cc) = 128%nat ->
   fst (shavite_big_close (fold_left shavite_big_core ds (shavite_big_init cc iv)) ub n out) =
   shavite_spec 4 128 c512 iv (concat ds) n (mark_byte ub n) out).
Proof. intros Hn. split; intros; [by apply shavite_small_spec|by apply shavite_big_spec]. Qed.

Lemma shavite_digest_witness :
  fst (shavite_big_close (fold_left shavite_big_core [[]; []]
    (shavite_big_init (mk_ctx (replicate 128 9) 0 (mk_ctr [] [])) IV512)) 0 0 16) =
  be_bytes 64 0xA485C1B2578459D1EFC5DDDD840BB0B4A650AC82FE68F58C4442CCDA747DA006B2D1DC6B4A4EB7D84FF91E1F466FEF429D259ACD995DDDCAD16FA545C7A6E5BA.
Proof.
  destruct (shavite_digest (mk_ctx (replicate 128 9) 0 (mk_ctr [] [])) IV512 [[]; []] 0 0 16 ltac:(lia)) as [_ H].
  rewrite H by reflexivity. apply list_eqb_eq. vm_compute. reflexivity.
Defined.
