(* ===== verification/EchoBlock.v ===== *)
(** * echo.c: the ECHO compression function

    The state is an array of sixteen 128-bit elements.  A build with 64-bit
    arithmetic keeps an element as two words ([Module E64]), a 32-bit build as
    four ([Module E32]); the rounds differ in how an element is handed to the
    AES rounds and in the masks of the column mixing.  Both are shown to be the
    rounds on elements of bytes of [Module Ref]. *)

From Stdlib Require Import ZArith Lia Btauto.
From stdpp Require Import base tactics numbers list.
From S2P Require Import Prelude SphTypes Stream Gf256 Aes Counter.

(** ** The rounds, for either kind of element *)

Abbreviation elem := (list Z).

(** The key [K0..K3] is a counter of four words, incremented after each use. *)
Definition incr_key (K : list Z) : list Z :=
  let K0 := SPH_T32 (K.[0] + 1) in
  if K0 =? 0 then
    let K1 := SPH_T32 (K.[1] + 1) in
    if K1 =? 0 then
      let K2 := SPH_T32 (K.[2] + 1) in
      if K2 =? 0 then [K0; K1; K2; SPH_T32 (K.[3] + 1)]
      else [K0; K1; K2; K.[3]]
    else [K0; K1; K.[2]; K.[3]]
  else [K0; K.[1]; K.[2]; K.[3]].

Section Rounds.
(** Two AES rounds on an element; [MIX_COLUMN1] on four words. *)
Context (aes_2rounds : list Z -> elem -> elem) (mix_column1 : Z -> Z -> Z -> Z -> list Z) (words_per_elem : nat).

Definition BIG_SUB_WORDS (s : list elem * list Z) : list elem * list Z :=
  fold_left (fun '(W, K) i => (<[i := aes_2rounds K (nth i W [])]> W, incr_key K)) (seq 0 16) s.

Definition SHIFT_ROW1 (a b c d : nat) (W : list elem) : list elem :=
  let tmp := nth a W [] in
  let W := <[a := nth b W []]> W in
  let W := <[b := nth c W []]> W in
  let W := <[c := nth d W []]> W in
  <[d := tmp]> W.
Definition SHIFT_ROW2 (a b c d : nat) (W : list elem) : list elem :=
  let tmp := nth a W [] in
  let W := <[a := nth c W []]> W in
  let W := <[c := tmp]> W in
  let tmp := nth b W [] in
  let W := <[b := nth d W []]> W in
  <[d := tmp]> W.
Definition SHIFT_ROW3 (a b c d : nat) (W : list elem) : list elem := SHIFT_ROW1 d c b a W.
Definition BIG_SHIFT_ROWS (W : list elem) : list elem :=
  let W := SHIFT_ROW1 1 5 9 13 W in
  let W := SHIFT_ROW2 2 6 10 14 W in
  SHIFT_ROW3 3 7 11 15 W.

(** [MIX_COLUMN1] for each word of the four elements. *)
Definition MIX_COLUMN (a b c d : nat) (W : list elem) : list elem :=
  fold_left (fun W n =>
    let m := mix_column1 (nth a W []).[n] (nth b W []).[n] (nth c W []).[n] (nth d W []).[n] in
    let put (k : nat) (i : nat) (W : list elem) := <[i := <[n := m.[k]]> (nth i W [])]> W in
    put 3%nat d (put 2%nat c (put 1%nat b (put 0%nat a W)))) (seq 0 words_per_elem) W.
Definition BIG_MIX_COLUMNS (W : list elem) : list elem :=
  let W := MIX_COLUMN 0 1 2 3 W in
  let W := MIX_COLUMN 4 5 6 7 W in
  let W := MIX_COLUMN 8 9 10 11 W in
  MIX_COLUMN 12 13 14 15 W.

Definition BIG_ROUND (s : list elem * list Z) : list elem * list Z :=
  let '(W, K) := BIG_SUB_WORDS s in
  (BIG_MIX_COLUMNS (BIG_SHIFT_ROWS W), K).
End Rounds.

(** ** 64-bit words *)

Module E64.
Definition AES_2ROUNDS (K : list Z) (X : elem) : elem :=
  let X0 := SPH_T32 X.[0] in
  let X1 := SPH_T32 (X.[0] >> 32) in
  let X2 := SPH_T32 X.[1] in
  let X3 := SPH_T32 (X.[1] >> 32) in
  let Y := AES_ROUND_LE [X0; X1; X2; X3] K in
  let X := AES_ROUND_NOKEY_LE Y in
  [X.[0] .| (X.[1] << 32); X.[2] .| (X.[3] << 32)].

Definition xtimes (ab : Z) : Z :=
  SPH_T64 (((ab .& 0x8080808080808080) >> 7) * 27) ⊕ ((ab .& 0x7F7F7F7F7F7F7F7F) << 1).
Definition MIX_COLUMN1 (a b c d : Z) : list Z :=
  let ab := a ⊕ b in
  let bc := b ⊕ c in
  let cd := c ⊕ d in
  let abx := xtimes ab in
  let bcx := xtimes bc in
  let cdx := xtimes cd in
  [abx ⊕ bc ⊕ d; bcx ⊕ a ⊕ cd; cdx ⊕ ab ⊕ d; abx ⊕ bcx ⊕ cdx ⊕ ab ⊕ c].

Definition BIG_ROUND := BIG_ROUND AES_2ROUNDS MIX_COLUMN1 2.

(** Elements of a buffer. *)
Definition input (n : nat) (buf : list Z) : list elem :=
  (fun u => [sph_dec64le (drop (16 * u) buf); sph_dec64le (drop (16 * u + 8) buf)]) <$> seq 0 n.
Definition INPUT_BLOCK_SMALL (V : list elem) (buf : list Z) : list elem := V ++ input 12 buf.
Definition INPUT_BLOCK_BIG (V : list elem) (buf : list Z) : list elem := V ++ input 8 buf.

(** [VV] and [WW] are the arrays as one run of words: word [u] is word
    [u mod 2] of element [u / 2]. *)
Definition word_of (W : list elem) (u : nat) : Z := (nth (u / 2) W []).[u mod 2].
Definition FINAL_SMALL (V W : list elem) (buf : list Z) : list elem :=
  let VV u := word_of V u ⊕
    (sph_dec64le (drop (u * 8) buf) ⊕ sph_dec64le (drop (u * 8 + 64) buf)
     ⊕ sph_dec64le (drop (u * 8 + 128) buf)
     ⊕ word_of W u ⊕ word_of W (u + 8) ⊕ word_of W (u + 16) ⊕ word_of W (u + 24)) in
  (fun i => [VV (2 * i)%nat; VV (2 * i + 1)%nat]) <$> seq 0 4.
Definition FINAL_BIG (V W : list elem) (buf : list Z) : list elem :=
  let VV u := word_of V u ⊕
    (sph_dec64le (drop (u * 8) buf) ⊕ word_of W u ⊕ word_of W (u + 16)) in
  (fun i => [VV (2 * i)%nat; VV (2 * i + 1)%nat]) <$> seq 0 8.

Definition COMPRESS_SMALL (V : list elem) (C buf : list Z) : list elem :=
  FINAL_SMALL V (Nat.iter 8 BIG_ROUND (INPUT_BLOCK_SMALL V buf, C)).1 buf.
Definition COMPRESS_BIG (V : list elem) (C buf : list Z) : list elem :=
  FINAL_BIG V (Nat.iter 10 BIG_ROUND (INPUT_BLOCK_BIG V buf, C)).1 buf.

Definition init_elems (n : nat) (out_len : Z) : list elem := replicate n [out_len; 0].
(** The encoded words of the chaining value. *)
Definition output (V : list elem) (k : nat) : list Z :=
  concat ((fun u => sph_enc64le (word_of V u)) <$> seq 0 k).
End E64.

(** ** 32-bit words *)

Module E32.
Definition AES_2ROUNDS (K : list Z) (X : elem) : elem :=
  let Y := AES_ROUND_LE [X.[0]; X.[1]; X.[2]; X.[3]] K in
  AES_ROUND_NOKEY_LE Y.

Definition xtimes (ab : Z) : Z :=
  SPH_T32 (((ab .& 0x80808080) >> 7) * 27) ⊕ ((ab .& 0x7F7F7F7F) << 1).
Definition MIX_COLUMN1 (a b c d : Z) : list Z :=
  let ab := a ⊕ b in
  let bc := b ⊕ c in
  let cd := c ⊕ d in
  let abx := xtimes ab in
  let bcx := xtimes bc in
  let cdx := xtimes cd in
  [abx ⊕ bc ⊕ d; bcx ⊕ a ⊕ cd; cdx ⊕ ab ⊕ d; abx ⊕ bcx ⊕ cdx ⊕ ab ⊕ c].

Definition BIG_ROUND := BIG_ROUND AES_2ROUNDS MIX_COLUMN1 4.

Definition input (n : nat) (buf : list Z) : list elem :=
  (fun u => [sph_dec32le (drop (16 * u) buf); sph_dec32le (drop (16 * u + 4) buf);
             sph_dec32le (drop (16 * u + 8) buf); sph_dec32le (drop (16 * u + 12) buf)]) <$> seq 0 n.
Definition INPUT_BLOCK_SMALL (V : list elem) (buf : list Z) : list elem := V ++ input 12 buf.
Definition INPUT_BLOCK_BIG (V : list elem) (buf : list Z) : list elem := V ++ input 8 buf.

Definition word_of (W : list elem) (u : nat) : Z := (nth (u / 4) W []).[u mod 4].
Definition FINAL_SMALL (V W : list elem) (buf : list Z) : list elem :=
  let VV u := word_of V u ⊕
    (sph_dec32le (drop (u * 4) buf) ⊕ sph_dec32le (drop (u * 4 + 64) buf)
     ⊕ sph_dec32le (drop (u * 4 + 128) buf)
     ⊕ word_of W u ⊕ word_of W (u + 16) ⊕ word_of W (u + 32) ⊕ word_of W (u + 48)) in
  (fun i => [VV (4 * i)%nat; VV (4 * i + 1)%nat; VV (4 * i + 2)%nat; VV (4 * i + 3)%nat]) <$> seq 0 4.
Definition FINAL_BIG (V W : list elem) (buf : list Z) : list elem :=
  let VV u := word_of V u ⊕
    (sph_dec32le (drop (u * 4) buf) ⊕ word_of W u ⊕ word_of W (u + 32)) in
  (fun i => [VV (4 * i)%nat; VV (4 * i + 1)%nat; VV (4 * i + 2)%nat; VV (4 * i + 3)%nat]) <$> seq 0 8.

Definition COMPRESS_SMALL (V : list elem) (C buf : list Z) : list elem :=
  FINAL_SMALL V (Nat.iter 8 BIG_ROUND (INPUT_BLOCK_SMALL V buf, C)).1 buf.
Definition COMPRESS_BIG (V : list elem) (C buf : list Z) : list elem :=
  FINAL_BIG V (Nat.iter 10 BIG_ROUND (INPUT_BLOCK_BIG V buf, C)).1 buf.

Definition init_elems (n : nat) (out_len : Z) : list elem := replicate n [out_len; 0; 0; 0].
Definition output (V : list elem) (k : nat) : list Z :=
  concat ((fun u => sph_enc32le (word_of V u)) <$> seq 0 k).
End E32.

(** ** Specification *)

(** Elements of sixteen bytes. *)
Module Ref.
(** The four columns of an element, two AES rounds, the first with the element's
    counter as the key. *)
Definition columns (e : elem) : list (list Z) := (fun j => take 4 (drop (4 * j) e)) <$> seq 0 4.
Definition aes2 (t : Z) (e : elem) : elem :=
  concat (Aes.Ref.round (replicate 4 (replicate 4 0))
    (Aes.Ref.round (le_bytes 4 <$> cnt_words 4 t) (columns e))).
Definition sub_words (t : Z) (W : list elem) : list elem :=
  (fun i => aes2 (t + Z.of_nat i) (nth i W [])) <$> seq 0 16.
(** Element [4 c + r] is in row [r] of column [c]. *)
Definition shift_rows (W : list elem) : list elem :=
  (fun i => nth ((i + 4 * (i mod 4)) mod 16)%nat W []) <$> seq 0 16.
(** The mix-column matrix of AES on four elements, byte by byte. *)
Definition mix_columns (W : list elem) : list elem :=
  (fun i => (fun k => dot (nth (i mod 4) Aes.Ref.matrix [])
     ((fun r => (nth (4 * (i / 4) + r) W []).[k]) <$> seq 0 4)) <$> seq 0 16) <$> seq 0 16.
Definition round (s : list elem * Z) : list elem * Z :=
  let '(W, t) := s in (mix_columns (shift_rows (sub_words t W)), t + 16).

(** [c] chaining elements, [16 - c] message elements: after the rounds, the
    feed-forward adds up all elements of the same position modulo [c]. *)
Definition elems (n : nat) (b : list Z) : list elem := (fun u => take 16 (drop (16 * u) b)) <$> seq 0 n.
Definition compress (c rounds : nat) (V : list elem) (t : Z) (blk : list Z) : list elem :=
  let M := V ++ elems (16 - c) blk in
  let W := (Nat.iter rounds round (M, t)).1 in
  (fun i => foldr lxor_list (replicate 16 0)
     (((fun q => nth (c * q + i) M []) <$> seq 0 (16 / c)) ++
      ((fun q => nth (c * q + i) W []) <$> seq 0 (16 / c)))) <$> seq 0 c.
Definition iv (c : nat) (bits : Z) : list elem := replicate c (le_bytes 16 bits).
End Ref.

(** ** Elements as bytes *)

Section Elements.
Context (wb nw : nat).

Definition elem_bytes (e : elem) : list Z := concat (le_bytes wb <$> e).
Definition wf_elem (e : elem) : Prop := wf_arr (8 * Z.of_nat wb) nw e.
Definition wf_state (n : nat) (W : list elem) : Prop := length W = n /\ Forall wf_elem W.

Lemma length_elem_bytes e : length (elem_bytes e) = (wb * length e)%nat.
Proof.
  unfold elem_bytes. induction e as [|x e IH]; [simpl; lia|]. cbn [fmap list_fmap concat length].
  rewrite length_app, IH, length_le_bytes. lia.
Qed.

Lemma elem_bytes_lxor a b :
  length a = length b -> elem_bytes (lxor_list a b) = lxor_list (elem_bytes a) (elem_bytes b).
Proof.
  unfold elem_bytes. revert b. induction a as [|x a IH]; intros [|y b] Hl; try done.
  cbn [zip_with fmap list_fmap concat]. rewrite le_bytes_lxor, zip_with_app by (by rewrite !length_le_bytes).
  f_equal. apply IH. by injection Hl.
Qed.

Lemma nth_elem_bytes e n j :
  (n < length e)%nat -> (j < wb)%nat -> (elem_bytes e).[wb * n + j] = (le_bytes wb e.[n]).[j].
Proof.
  unfold elem_bytes. revert n. induction e as [|x e IH]; intros n Hn Hj; [simpl in Hn; lia|].
  cbn [fmap list_fmap concat]. destruct n as [|n].
  - rewrite app_nth1 by (rewrite length_le_bytes; lia). by rewrite Nat.mul_0_r.
  - rewrite app_nth2 by (rewrite length_le_bytes; lia). rewrite length_le_bytes.
    replace (wb * S n + j - wb)%nat with (wb * n + j)%nat by lia. apply IH; [simpl in Hn; lia|done].
Qed.

(** A function of the byte position, word by word. *)
Lemma fmap_groups {A} (f : nat -> A) m :
  f <$> seq 0 (wb * m) = concat ((fun n => (fun j => f (wb * n + j)%nat) <$> seq 0 wb) <$> seq 0 m).
Proof.
  induction m as [|m IH]; [by rewrite Nat.mul_0_r|].
  rewrite seq_S, fmap_app, concat_app, <- IH, Nat.mul_succ_r, seq_app, fmap_app. f_equal. cbn.
  rewrite app_nil_r. assert (seq (wb * m) wb = Nat.add (wb * m) <$> seq 0 wb) as ->
    by by rewrite fmap_add_seq, Nat.add_0_r.
  by rewrite <- list_fmap_compose.
Qed.

Lemma elem_bytes_fold l :
  (wb * nw = 16)%nat -> Forall (fun e => length e = nw) l ->
  elem_bytes (foldr lxor_list (replicate nw 0) l) = foldr lxor_list (replicate 16 0) (elem_bytes <$> l).
Proof.
  intros H16 Hl. assert (length (foldr lxor_list (replicate nw 0) l) = nw /\
    elem_bytes (foldr lxor_list (replicate nw 0) l) = foldr lxor_list (replicate 16 0) (elem_bytes <$> l)) as [_ E]; [|exact E].
  induction Hl as [|e l He Hl [IH1 IH2]]; cbn [foldr fmap list_fmap].
  - split; [apply length_replicate|]. rewrite <- H16. unfold elem_bytes. clear.
    induction nw as [|n IH]; [by rewrite Nat.mul_0_r|]. cbn [replicate fmap list_fmap concat].
    rewrite IH, Nat.mul_succ_r, Nat.add_comm, replicate_add. f_equal.
    unfold le_bytes. rewrite (list_fmap_ext _ (fun _ => 0)) by (intros; by rewrite Z.shiftr_0_l).
    by rewrite (const_fmap _ _ 0), length_seq.
  - rewrite length_zip_with, IH1, He, elem_bytes_lxor, IH2 by lia. split; [lia|done].
Qed.
End Elements.

(** ** The rounds on bytes *)

Lemma incr_key_words t : incr_key (cnt_words 4 t) = cnt_words 4 (t + 1).
Proof.
  rewrite (cnt_words_succ 3). cbv zeta. rewrite (cnt_words_S 3 t). unfold incr_key. cbn [nth].
  destruct (_ =? 0); [|done]. by rewrite <- carry_words.
Qed.

(** A list of sixteen, element by element. *)
Lemma sixteen {A} (l : list A) : length l = 16%nat ->
  exists a b c d e f g h i j k m n o p q, l = [a; b; c; d; e; f; g; h; i; j; k; m; n; o; p; q].
Proof.
  intros Hl. do 16 (destruct l as [|? l]; [done|]). destruct l; [|done]. by repeat eexists.
Qed.
Ltac split16 W HW :=
  destruct (sixteen W HW) as (? & ? & ? & ? & ? & ? & ? & ? & ? & ? & ? & ? & ? & ? & ? & ? & ->).

Section Sim.
Context (wb nw : nat) (H16 : (wb * nw = 16)%nat).
Context (aes_2rounds : list Z -> elem -> elem) (mix_column1 : Z -> Z -> Z -> Z -> list Z).
#[local] Abbreviation eb := (elem_bytes wb).
#[local] Abbreviation wfe := (wf_elem wb nw).
#[local] Abbreviation wfW := (wf_state wb nw 16).

Context (Haes : forall t e, wfe e ->
  wfe (aes_2rounds (cnt_words 4 t) e) /\ eb (aes_2rounds (cnt_words 4 t) e) = Ref.aes2 t (eb e)).
Context (Hmix : forall a b c d r, (r < 4)%nat ->
  word (8 * Z.of_nat wb) a -> word (8 * Z.of_nat wb) b -> word (8 * Z.of_nat wb) c -> word (8 * Z.of_nat wb) d ->
  word (8 * Z.of_nat wb) (mix_column1 a b c d).[r] /\
  le_bytes wb (mix_column1 a b c d).[r] =
  (fun k => dot (nth r Aes.Ref.matrix [])
     [(le_bytes wb a).[k]; (le_bytes wb b).[k]; (le_bytes wb c).[k]; (le_bytes wb d).[k]]) <$> seq 0 wb).
(** Element [i] after the column mixing, word by word. *)
Definition mixed (W : list elem) (i : nat) : elem :=
  (fun n => (mix_column1 (nth (4 * (i / 4)) W []).[n] (nth (4 * (i / 4) + 1) W []).[n]
     (nth (4 * (i / 4) + 2) W []).[n] (nth (4 * (i / 4) + 3) W []).[n]).[i mod 4]) <$> seq 0 nw.
Context (Hcols : forall W, wfW W -> BIG_MIX_COLUMNS mix_column1 nw W = mixed W <$> seq 0 16).

Lemma wf_nth W i : wfW W -> (i < 16)%nat -> wfe (nth i W []).
Proof.
  intros [Hl HW] Hi. rewrite Forall_forall in HW. apply HW, list_elem_of_In, nth_In. lia.
Qed.
Lemma nth_eb W i : wfW W -> (i < 16)%nat -> nth i (eb <$> W) [] = eb (nth i W []).
Proof. intros _ _. exact (map_nth eb W [] i). Qed.

Lemma sub_words_ref W t :
  wfW W ->
  let s := BIG_SUB_WORDS aes_2rounds (W, cnt_words 4 t) in
  wfW s.1 /\ eb <$> s.1 = Ref.sub_words t (eb <$> W) /\ s.2 = cnt_words 4 (t + 16).
Proof.
  intros [Hl HW]. split16 W Hl. cbv zeta. rewrite !Forall_cons in HW. destruct_and! HW.
  unfold BIG_SUB_WORDS. cbn [fold_left seq insert list_insert nth fst snd].
  rewrite !incr_key_words, <- !Z.add_assoc. cbn [Z.add Pos.add Pos.succ].
  split_and!; [split; [done|repeat (apply Forall_cons; split; [by apply Haes|]); done]| |done].
  unfold Ref.sub_words. cbn [fmap list_fmap seq nth].
  change (Z.of_nat 0) with 0. rewrite Z.add_0_r.
  repeat (apply (f_equal2 cons); [by apply Haes|]). done.
Qed.

Lemma shift_rows_ref W : wfW W ->
  wfW (BIG_SHIFT_ROWS W) /\ eb <$> BIG_SHIFT_ROWS W = Ref.shift_rows (eb <$> W).
Proof.
  intros [Hl HW]. split16 W Hl. rewrite !Forall_cons in HW. destruct_and! HW.
  split; [|reflexivity]. split; [done|]. unfold BIG_SHIFT_ROWS, SHIFT_ROW3, SHIFT_ROW2, SHIFT_ROW1. cbn [insert list_insert nth].
  repeat (apply Forall_cons; split; [done|]). done.
Qed.

Lemma mix_columns_ref W : wfW W ->
  wfW (BIG_MIX_COLUMNS mix_column1 nw W) /\ eb <$> BIG_MIX_COLUMNS mix_column1 nw W = Ref.mix_columns (eb <$> W).
Proof.
  intros HW. rewrite Hcols by done.
  assert (forall i n k, (i < 16)%nat -> (n < nw)%nat -> (k < wb)%nat ->
    (nth i (eb <$> W) []).[wb * n + k] = (le_bytes wb (nth i W []).[n]).[k]) as Hn.
  { intros i n k Hi Hn Hk. rewrite nth_eb by done. destruct (wf_nth W i HW Hi) as [He _].
    apply (nth_elem_bytes wb); lia. }
  assert (forall i n, (i < 16)%nat -> word (8 * Z.of_nat wb) (nth i W []).[n]) as Hw.
  { intros i n Hi. apply words_nth; [lia|]. by apply wf_nth. }
  assert (forall i, (i < 16)%nat -> (4 * (i / 4) + 3 < 16)%nat /\ (i mod 4 < 4)%nat) as Hq.
  { intros i Hi. pose proof (Nat.div_mod_eq i 4). pose proof (Nat.mod_upper_bound i 4 ltac:(lia)).
    assert (i / 4 < 4)%nat by (apply Nat.Div0.div_lt_upper_bound; lia). lia. }
  split; [split; [done|]|].
  - apply Forall_fmap, Forall_forall. intros i Hi%elem_of_seq. destruct (Hq i ltac:(lia)) as [Hq1 Hq2].
    split; [unfold mixed; by rewrite length_fmap, length_seq|].
    apply Forall_fmap, Forall_true. intros n. apply Hmix; try done; apply Hw; lia.
  - unfold Ref.mix_columns. rewrite <- list_fmap_compose. apply list_fmap_ext. intros ? i Hi.
    apply list_elem_of_lookup_2, elem_of_seq in Hi. destruct (Hq i ltac:(lia)) as [Hq1 Hq2].
    cbn [compose]. unfold mixed, elem_bytes at 1. rewrite <- H16, (fmap_groups wb), <- list_fmap_compose. f_equal.
    apply list_fmap_ext. intros ? n Hn'. apply list_elem_of_lookup_2, elem_of_seq in Hn'. cbn [compose].
    match goal with |- le_bytes _ (mix_column1 ?a ?b ?c ?d).[_] = _ =>
      destruct (Hmix a b c d _ Hq2) as [_ ->]; [apply Hw; lia..|] end.
    apply list_fmap_ext. intros ? k Hk. apply list_elem_of_lookup_2, elem_of_seq in Hk. f_equal.
    cbn [fmap list_fmap seq]. rewrite !Hn by lia. by rewrite Nat.add_0_r.
Qed.

Lemma round_ref W t :
  wfW W ->
  let s := BIG_ROUND aes_2rounds mix_column1 nw (W, cnt_words 4 t) in
  wfW s.1 /\ (eb <$> s.1, t + 16) = Ref.round (eb <$> W, t) /\ s.2 = cnt_words 4 (t + 16).
Proof.
  intros HW. destruct (sub_words_ref W t HW) as (W1 & E1 & K1). cbv zeta. unfold BIG_ROUND.
  destruct (BIG_SUB_WORDS _ _) as [W' K]. cbn [fst snd] in *.
  destruct (shift_rows_ref W' W1) as [W2 E2]. destruct (mix_columns_ref _ W2) as [W3 E3].
  split_and!; [done| |done]. unfold Ref.round. by rewrite E3, E2, E1.
Qed.

Lemma rounds_ref n W t :
  wfW W ->
  let s := Nat.iter n (BIG_ROUND aes_2rounds mix_column1 nw) (W, cnt_words 4 t) in
  wfW s.1 /\ (eb <$> s.1, t + 16 * Z.of_nat n) = Nat.iter n Ref.round (eb <$> W, t) /\
  s.2 = cnt_words 4 (t + 16 * Z.of_nat n).
Proof.
  intros HW. cbv zeta. induction n as [|n IH].
  - by rewrite Z.mul_0_r, Z.add_0_r.
  - rewrite !Nat.iter_succ. destruct IH as (W1 & E1 & K1). destruct (Nat.iter n (BIG_ROUND _ _ _) _) as [W' K]. cbn [fst snd] in *. subst K.
    destruct (round_ref W' (t + 16 * Z.of_nat n) W1) as (W2 & E2 & K2).
    rewrite <- E1, <- E2. replace (t + 16 * Z.of_nat (S n)) with (t + 16 * Z.of_nat n + 16) by lia. done.
Qed.

(** ** The compression on bytes *)

(** The feed-forward of words: all elements of the same position modulo [c]. *)
Definition forward (c : nat) (M W : list elem) : list elem :=
  (fun i => foldr lxor_list (replicate nw 0)
     (((fun q => nth (c * q + i) M []) <$> seq 0 (16 / c)) ++
      ((fun q => nth (c * q + i) W []) <$> seq 0 (16 / c)))) <$> seq 0 c.

Lemma wf_fold l : Forall wfe l -> wfe (foldr lxor_list (replicate nw 0) l).
Proof.
  induction 1 as [|e l [He He'] Hl [IH1 IH2]]; cbn [foldr].
  - split; [apply length_replicate|]. apply words_replicate. unfold word. lia.
  - split; [rewrite length_zip_with; lia|by apply words_lxor].
Qed.

Lemma forward_ref c M W :
  c ∈ [4; 8]%nat -> wfW M -> wfW W ->
  wf_state wb nw c (forward c M W) /\
  eb <$> forward c M W =
  (fun i => foldr lxor_list (replicate 16 0)
     (((fun q => nth (c * q + i) (eb <$> M) []) <$> seq 0 (16 / c)) ++
      ((fun q => nth (c * q + i) (eb <$> W) []) <$> seq 0 (16 / c)))) <$> seq 0 c.
Proof.
  intros Hc HM HW. assert (c * (16 / c) = 16 /\ 0 < c)%nat as [Hcc Hc0].
  { rewrite !elem_of_cons, elem_of_nil in Hc. destruct Hc as [->|[->|[]]]; (split; [done|lia]). }
  assert (forall i, (i < c)%nat -> Forall wfe
    (((fun q => nth (c * q + i) M []) <$> seq 0 (16 / c)) ++ ((fun q => nth (c * q + i) W []) <$> seq 0 (16 / c)))) as HF.
  { intros i Hi. apply Forall_app. split; apply Forall_fmap, Forall_forall; intros q Hq%elem_of_seq;
      apply wf_nth; (done || nia). }
  unfold forward. split; [split; [by rewrite length_fmap, length_seq|]|].
  - apply Forall_fmap, Forall_forall. intros i Hi%elem_of_seq. apply wf_fold, HF. lia.
  - rewrite <- list_fmap_compose. apply list_fmap_ext. intros ? i Hi.
    apply list_elem_of_lookup_2, elem_of_seq in Hi. cbn [compose].
    rewrite elem_bytes_fold; [|done|eapply Forall_impl; [apply HF; lia|]; by intros e [He _]].
    f_equal. rewrite fmap_app, <- !list_fmap_compose. f_equal; apply list_fmap_ext; intros ? q Hq;
      apply list_elem_of_lookup_2, elem_of_seq in Hq; cbn [compose]; rewrite nth_eb; (done || nia).
Qed.

Lemma compress_ref c rounds V I R blk t :
  c ∈ [4; 8]%nat -> wf_state wb nw c V -> wf_state wb nw (16 - c) I /\ eb <$> I = Ref.elems (16 - c) blk ->
  (forall W, wfW W -> R W = forward c (V ++ I) W) ->
  let V' := R (Nat.iter rounds (BIG_ROUND aes_2rounds mix_column1 nw) (V ++ I, cnt_words 4 t)).1 in
  wf_state wb nw c V' /\ eb <$> V' = Ref.compress c rounds (eb <$> V) t blk.
Proof.
  intros Hc [HV1 HV2] [[HI1 HI2] HI] HR.
  assert (wfW (V ++ I)) as HM.
  { split; [|by apply Forall_app]. rewrite length_app, HV1, HI1.
    rewrite !elem_of_cons, elem_of_nil in Hc. destruct Hc as [->|[->|[]]]; done. }
  destruct (rounds_ref rounds _ t HM) as (HW & EW & _). cbv zeta in *. rewrite HR by done.
  destruct (forward_ref c _ _ Hc HM HW) as [HF EF]. split; [done|]. rewrite EF. unfold Ref.compress.
  rewrite <- HI, <- fmap_app, <- EW. done.
Qed.
End Sim.

(** ** Two AES rounds *)

Lemma uchar_T32 x i : 0 <= i <= 24 -> uchar (SPH_T32 x >> i) = uchar (x >> i).
Proof.
  intros Hi. apply (word_eq 8); [apply uchar_word..|]. intros j Hj.
  rewrite !uchar_bit, !Z.shiftr_spec, T32_bit by lia. done.
Qed.
Lemma le_bytes_T32 x : le_bytes 4 (SPH_T32 x) = le_bytes 4 x.
Proof. unfold le_bytes. cbn [seq fmap list_fmap]. by rewrite !uchar_T32 by lia. Qed.

Lemma le_bytes_split x : le_bytes 8 x = le_bytes 4 x ++ le_bytes 4 (x >> 32).
Proof. unfold le_bytes. cbn [seq fmap list_fmap app]. by rewrite !Z.shiftr_shiftr by lia. Qed.

Lemma le_bytes_join a b : word 32 a -> word 32 b -> le_bytes 8 (a .| (b << 32)) = le_bytes 4 a ++ le_bytes 4 b.
Proof.
  intros Ha Hb. rewrite le_bytes_split, <- (le_bytes_T32 (a .| _)). do 2 f_equal.
  - apply (word_eq 32); [apply T32_word|done|]. intros i Hi.
    rewrite T32_bit, Z.lor_spec, Z.shiftl_spec, (Z.testbit_neg_r b) by lia. apply orb_false_r.
  - apply Z.bits_inj'. intros i Hi.
    rewrite Z.shiftr_spec, Z.lor_spec, Z.shiftl_spec, (word_bit_high 32 a) by (done || lia). cbn [orb]. f_equal. lia.
Qed.

Lemma aes2_words x0 x1 x2 x3 t :
  concat (le_bytes 4 <$> AES_ROUND_NOKEY_LE (AES_ROUND_LE [x0; x1; x2; x3] (cnt_words 4 t))) =
  Ref.aes2 t (concat (le_bytes 4 <$> [x0; x1; x2; x3])).
Proof.
  unfold Ref.aes2. rewrite AES_ROUND_NOKEY_ref, AES_ROUND_ref by done. reflexivity.
Qed.

Lemma nokey_elems X : exists y0 y1 y2 y3, AES_ROUND_NOKEY_LE X = [y0; y1; y2; y3] /\
  word 32 y0 /\ word 32 y1 /\ word 32 y2 /\ word 32 y3.
Proof.
  destruct (AES_ROUND_NOKEY_wf X) as [Hl Hw]. revert Hl Hw. generalize (AES_ROUND_NOKEY_LE X) as Y.
  intros Y Hl Hw. destruct Y as [|y0 [|y1 [|y2 [|y3 [|]]]]]; try done. rewrite !Forall_cons in Hw.
  exists y0, y1, y2, y3. tauto.
Qed.

Lemma aes64 t e :
  wf_elem 8 2 e -> wf_elem 8 2 (E64.AES_2ROUNDS (cnt_words 4 t) e) /\
  elem_bytes 8 (E64.AES_2ROUNDS (cnt_words 4 t) e) = Ref.aes2 t (elem_bytes 8 e).
Proof.
  intros [Hl _]. destruct e as [|x [|y [|]]]; try done. unfold E64.AES_2ROUNDS. cbn [nth].
  pose proof (aes2_words (SPH_T32 x) (SPH_T32 (x >> 32)) (SPH_T32 y) (SPH_T32 (y >> 32)) t) as E.
  destruct (nokey_elems (AES_ROUND_LE [SPH_T32 x; SPH_T32 (x >> 32); SPH_T32 y; SPH_T32 (y >> 32)] (cnt_words 4 t)))
    as (y0 & y1 & y2 & y3 & EY & H0 & H1 & H2 & H3). rewrite EY in *. cbn [nth]. split.
  - split; [done|]. change (8 * Z.of_nat 8) with 64.
    repeat (apply Forall_cons; split; [apply word_lor; [by apply (word_weaken 32)|by apply (word_shiftl 32)]|]). done.
  - unfold elem_bytes. cbn [fmap list_fmap concat] in *. rewrite !le_bytes_join by done.
    rewrite !le_bytes_T32 in E. rewrite !app_nil_r in *. rewrite <- !app_assoc, E.
    by rewrite (le_bytes_split x), (le_bytes_split y), <- !app_assoc.
Qed.

Lemma aes32 t e :
  wf_elem 4 4 e -> wf_elem 4 4 (E32.AES_2ROUNDS (cnt_words 4 t) e) /\
  elem_bytes 4 (E32.AES_2ROUNDS (cnt_words 4 t) e) = Ref.aes2 t (elem_bytes 4 e).
Proof.
  intros [Hl _]. destruct e as [|x0 [|x1 [|x2 [|x3 [|]]]]]; try done. unfold E32.AES_2ROUNDS. cbn [nth].
  split; [apply AES_ROUND_NOKEY_wf|apply aes2_words].
Qed.

(** ** The column mixing *)

Section Mix.
Context (n : nat) (xt : Z -> Z).
Context (Hb : forall x k, word (8 * Z.of_nat n) x -> (k < n)%nat ->
  uchar (xt x >> (8 * Z.of_nat k)) = xtime (uchar (x >> (8 * Z.of_nat k)))).
Context (Hw : forall x, word (8 * Z.of_nat n) x -> word (8 * Z.of_nat n) (xt x)).

Definition mix1 (a b c d : Z) : list Z :=
  let ab := a ⊕ b in
  let bc := b ⊕ c in
  let cd := c ⊕ d in
  let abx := xt ab in
  let bcx := xt bc in
  let cdx := xt cd in
  [abx ⊕ bc ⊕ d; bcx ⊕ a ⊕ cd; cdx ⊕ ab ⊕ d; abx ⊕ bcx ⊕ cdx ⊕ ab ⊕ c].

Lemma mix1_bytes a b c d r :
  (r < 4)%nat ->
  word (8 * Z.of_nat n) a -> word (8 * Z.of_nat n) b -> word (8 * Z.of_nat n) c -> word (8 * Z.of_nat n) d ->
  word (8 * Z.of_nat n) (mix1 a b c d).[r] /\
  le_bytes n (mix1 a b c d).[r] =
  (fun k => dot (nth r Aes.Ref.matrix [])
     [(le_bytes n a).[k]; (le_bytes n b).[k]; (le_bytes n c).[k]; (le_bytes n d).[k]]) <$> seq 0 n.
Proof.
  intros Hr Ha Hb' Hc Hd.
  assert (word (8 * Z.of_nat n) (a ⊕ b)) as Hab by by apply word_lxor.
  assert (word (8 * Z.of_nat n) (b ⊕ c)) as Hbc by by apply word_lxor.
  assert (word (8 * Z.of_nat n) (c ⊕ d)) as Hcd by by apply word_lxor.
  split.
  - pose proof (Hw _ Hab). pose proof (Hw _ Hbc). pose proof (Hw _ Hcd).
    do 4 (destruct r as [|r]; [cbn [mix1 nth]; repeat apply word_lxor; done|]). lia.
  - apply list_fmap_ext. intros ? k Hk. apply list_elem_of_lookup_2, elem_of_seq in Hk.
    rewrite !nth_le_bytes by lia.
    do 4 (destruct r as [|r];
      [cbn [mix1 nth]; rewrite !Z.shiftr_lxor, !uchar_lxor, !Hb, !Z.shiftr_lxor, !uchar_lxor, !xtime_lxor by (done || lia);
       change Aes.Ref.matrix with [[2; 3; 1; 1]; [1; 2; 3; 1]; [1; 1; 2; 3]; [3; 1; 1; 2]];
       cbn [nth]; unfold dot, lxor_all; cbn [zip_with foldr gmul pmul]; lxor_btauto|]). lia.
Qed.
End Mix.

Lemma swar_word n hi lo x :
  (0 < n)%nat -> word (8 * Z.of_nat n - 1) lo -> word (8 * Z.of_nat n) (swar n hi lo x).
Proof.
  intros Hn Hlo. apply word_lxor; [apply Z.mod_pos_bound; lia|].
  apply (word_shiftl (8 * Z.of_nat n - 1)); [lia..|by apply word_land_r|lia].
Qed.

Lemma mix64 a b c d r :
  (r < 4)%nat -> word (8 * Z.of_nat 8) a -> word (8 * Z.of_nat 8) b -> word (8 * Z.of_nat 8) c -> word (8 * Z.of_nat 8) d ->
  word (8 * Z.of_nat 8) (E64.MIX_COLUMN1 a b c d).[r] /\
  le_bytes 8 (E64.MIX_COLUMN1 a b c d).[r] =
  (fun k => dot (nth r Aes.Ref.matrix [])
     [(le_bytes 8 a).[k]; (le_bytes 8 b).[k]; (le_bytes 8 c).[k]; (le_bytes 8 d).[k]]) <$> seq 0 8.
Proof.
  assert (forall x, E64.xtimes x = swar 8 0x8080808080808080 0x7F7F7F7F7F7F7F7F x) as E
    by (intros x; unfold E64.xtimes, swar; by rewrite T64_mod).
  apply (mix1_bytes 8 E64.xtimes).
  - intros x k Hx Hk. rewrite E. by apply swar_byte.
  - intros x Hx. rewrite E. apply swar_word; [lia|unfold word; lia].
Qed.

Lemma mix32 a b c d r :
  (r < 4)%nat -> word (8 * Z.of_nat 4) a -> word (8 * Z.of_nat 4) b -> word (8 * Z.of_nat 4) c -> word (8 * Z.of_nat 4) d ->
  word (8 * Z.of_nat 4) (E32.MIX_COLUMN1 a b c d).[r] /\
  le_bytes 4 (E32.MIX_COLUMN1 a b c d).[r] =
  (fun k => dot (nth r Aes.Ref.matrix [])
     [(le_bytes 4 a).[k]; (le_bytes 4 b).[k]; (le_bytes 4 c).[k]; (le_bytes 4 d).[k]]) <$> seq 0 4.
Proof.
  assert (forall x, E32.xtimes x = swar 4 0x80808080 0x7F7F7F7F x) as E
    by (intros x; unfold E32.xtimes, swar; by rewrite T32_mod).
  apply (mix1_bytes 4 E32.xtimes).
  - intros x k Hx Hk. rewrite E. by apply swar_byte.
  - intros x Hx. rewrite E. apply swar_word; [lia|unfold word; lia].
Qed.

(** The in-place loops of [MIX_COLUMN], on explicit elements. *)
Ltac split_elem n e He :=
  lazymatch n with
  | 2%nat => destruct e as [|? [|? [|]]]; try discriminate He
  | 4%nat => destruct e as [|? [|? [|? [|? [|]]]]]; try discriminate He
  end.

Lemma cols2 mix_column1 W :
  wf_state 8 2 16 W -> BIG_MIX_COLUMNS mix_column1 2 W = mixed 2 mix_column1 W <$> seq 0 16.
Proof.
  intros [Hl HW]. split16 W Hl. rewrite !Forall_cons in HW. unfold wf_elem, wf_arr in HW. destruct_and! HW.
  repeat match goal with He : length ?e = 2%nat |- _ => split_elem 2%nat e He; clear He end.
  reflexivity.
Qed.
Lemma cols4 mix_column1 W :
  wf_state 4 4 16 W -> BIG_MIX_COLUMNS mix_column1 4 W = mixed 4 mix_column1 W <$> seq 0 16.
Proof.
  intros [Hl HW]. split16 W Hl. rewrite !Forall_cons in HW. unfold wf_elem, wf_arr in HW. destruct_and! HW.
  repeat match goal with He : length ?e = 4%nat |- _ => split_elem 4%nat e He; clear He end.
  reflexivity.
Qed.

(** ** The compression functions *)

Lemma dec64_bytes b o : words 8 b -> (o + 8 <= length b)%nat -> le_bytes 8 (sph_dec64le (drop o b)) = take 8 (drop o b).
Proof.
  intros Hw Hl. rewrite <- enc64le_bytes, <- dec64le_take. apply sph_enc_dec64le.
  - rewrite length_take, length_drop. lia.
  - by apply Forall_take, Forall_drop.
Qed.
Lemma dec32_bytes b o : words 8 b -> (o + 4 <= length b)%nat -> le_bytes 4 (sph_dec32le (drop o b)) = take 4 (drop o b).
Proof.
  intros Hw Hl. rewrite <- enc32le_bytes, <- dec32le_take. apply sph_enc_dec32le.
  - rewrite length_take, length_drop. lia.
  - by apply Forall_take, Forall_drop.
Qed.

Lemma input64_ref n b :
  words 8 b -> (16 * n <= length b)%nat ->
  wf_state 8 2 n (E64.input n b) /\ elem_bytes 8 <$> E64.input n b = Ref.elems n b.
Proof.
  intros Hw Hl. split; [split|].
  - unfold E64.input. by rewrite length_fmap, length_seq.
  - apply Forall_fmap, Forall_true. intros u. split; [done|].
    repeat (apply Forall_cons; split; [by apply sph_dec64le_word, Forall_drop|]). done.
  - unfold E64.input, Ref.elems. rewrite <- list_fmap_compose. apply list_fmap_ext. intros ? u Hu.
    apply list_elem_of_lookup_2, elem_of_seq in Hu. unfold elem_bytes. cbn [compose fmap list_fmap concat].
    rewrite !dec64_bytes, app_nil_r by (done || lia). rewrite <- drop_drop, take_take_drop. done.
Qed.

Lemma input32_ref n b :
  words 8 b -> (16 * n <= length b)%nat ->
  wf_state 4 4 n (E32.input n b) /\ elem_bytes 4 <$> E32.input n b = Ref.elems n b.
Proof.
  intros Hw Hl. split; [split|].
  - unfold E32.input. by rewrite length_fmap, length_seq.
  - apply Forall_fmap, Forall_true. intros u. split; [done|].
    repeat (apply Forall_cons; split; [by apply sph_dec32le_word, Forall_drop|]). done.
  - unfold E32.input, Ref.elems. rewrite <- list_fmap_compose. apply list_fmap_ext. intros ? u Hu.
    apply list_elem_of_lookup_2, elem_of_seq in Hu. unfold elem_bytes. cbn [compose fmap list_fmap concat].
    rewrite !dec32_bytes, app_nil_r by (done || lia).
    rewrite <- !drop_drop. generalize (drop (16 * u) b). intros d.
    change 16%nat with (4 + (4 + (4 + 4)))%nat. by rewrite <- !take_take_drop, !drop_drop.
Qed.

(** The feed-forward loops over the flat arrays. *)
Ltac final_words n Hl HV HW :=
  clear Hl;
  rewrite !Forall_cons in HV; rewrite !Forall_cons in HW; unfold wf_elem, wf_arr in HV, HW; destruct_and! HV; destruct_and! HW;
  repeat match goal with He : length ?e = n |- _ => split_elem n e He; clear He end;
  lazy -[sph_dec64le sph_dec32le drop Z.lxor]; by rewrite !Z.lxor_0_r, !Z.lxor_assoc.

Lemma final_small64 V W b :
  wf_state 8 2 4 V -> wf_state 8 2 16 W -> E64.FINAL_SMALL V W b = forward 2 4 (V ++ E64.input 12 b) W.
Proof.
  intros [Hl HV] [Hl' HW]. split16 W Hl'. destruct V as [|? [|? [|? [|? [|]]]]]; try discriminate Hl.
  final_words 2%nat Hl HV HW.
Qed.
Lemma final_big64 V W b :
  wf_state 8 2 8 V -> wf_state 8 2 16 W -> E64.FINAL_BIG V W b = forward 2 8 (V ++ E64.input 8 b) W.
Proof.
  intros [Hl HV] [Hl' HW]. split16 W Hl'.
  destruct V as [|? [|? [|? [|? [|? [|? [|? [|? [|]]]]]]]]]; try discriminate Hl.
  final_words 2%nat Hl HV HW.
Qed.
Lemma final_small32 V W b :
  wf_state 4 4 4 V -> wf_state 4 4 16 W -> E32.FINAL_SMALL V W b = forward 4 4 (V ++ E32.input 12 b) W.
Proof.
  intros [Hl HV] [Hl' HW]. split16 W Hl'. destruct V as [|? [|? [|? [|? [|]]]]]; try discriminate Hl.
  final_words 4%nat Hl HV HW.
Qed.
Lemma final_big32 V W b :
  wf_state 4 4 8 V -> wf_state 4 4 16 W -> E32.FINAL_BIG V W b = forward 4 8 (V ++ E32.input 8 b) W.
Proof.
  intros [Hl HV] [Hl' HW]. split16 W Hl'.
  destruct V as [|? [|? [|? [|? [|? [|? [|? [|? [|]]]]]]]]]; try discriminate Hl.
  final_words 4%nat Hl HV HW.
Qed.

(** What the compression of a build has to satisfy. *)
Definition compress_ok (wb nw c rounds bs : nat) (cmp : list elem -> list Z -> list Z -> list elem) : Prop :=
  forall V t b, wf_state wb nw c V -> words 8 b -> length b = bs ->
  wf_state wb nw c (cmp V (cnt_words 4 t) b) /\
  elem_bytes wb <$> cmp V (cnt_words 4 t) b = Ref.compress c rounds (elem_bytes wb <$> V) t b.

Lemma compress_small64_ok : compress_ok 8 2 4 8 192 E64.COMPRESS_SMALL.
Proof.
  intros V t b HV Hw Hb. apply (compress_ref 8 2 eq_refl _ _ aes64 mix64 (cols2 _) 4 8 V (E64.input 12 b)
    (fun W => E64.FINAL_SMALL V W b)); [repeat constructor|done|apply input64_ref; [done|lia]|].
  intros W HW. by apply final_small64.
Qed.
Lemma compress_big64_ok : compress_ok 8 2 8 10 128 E64.COMPRESS_BIG.
Proof.
  intros V t b HV Hw Hb. apply (compress_ref 8 2 eq_refl _ _ aes64 mix64 (cols2 _) 8 10 V (E64.input 8 b)
    (fun W => E64.FINAL_BIG V W b)); [repeat constructor|done|apply input64_ref; [done|lia]|].
  intros W HW. by apply final_big64.
Qed.
Lemma compress_small32_ok : compress_ok 4 4 4 8 192 E32.COMPRESS_SMALL.
Proof.
  intros V t b HV Hw Hb. apply (compress_ref 4 4 eq_refl _ _ aes32 mix32 (cols4 _) 4 8 V (E32.input 12 b)
    (fun W => E32.FINAL_SMALL V W b)); [repeat constructor|done|apply input32_ref; [done|lia]|].
  intros W HW. by apply final_small32.
Qed.
Lemma compress_big32_ok : compress_ok 4 4 8 10 128 E32.COMPRESS_BIG.
Proof.
  intros V t b HV Hw Hb. apply (compress_ref 4 4 eq_refl _ _ aes32 mix32 (cols4 _) 8 10 V (E32.input 8 b)
    (fun W => E32.FINAL_BIG V W b)); [repeat constructor|done|apply input32_ref; [done|lia]|].
  intros W HW. by apply final_big32.
Qed.
