(* ===== verification/Echo.v ===== *)
(** * echo.c: ECHO

    The contexts, the input loops and the closing code of the four digest sizes
    on top of the compression functions of [EchoBlock], for the builds with
    64-bit and with 32-bit words, and the theorem that both compute the digest
    specified on bytes. *)

From Stdlib Require Import ZArith Lia Btauto.
From stdpp Require Import base tactics numbers list.
From S2P Require Import Prelude SphTypes Stream Gf256 Aes Counter EchoBlock.

(** ** Contexts, input loop and closing *)

(** The parts of the code below that depend on the word size of the build. *)
Record echo_build : Type := mk_build {
  echo_compress_small : list elem -> list Z -> list Z -> list elem;
  echo_compress_big : list elem -> list Z -> list Z -> list elem;
  echo_init_elems : nat -> Z -> list elem;
  echo_output : list elem -> nat -> list Z }.
Definition build64 : echo_build :=
  mk_build E64.COMPRESS_SMALL E64.COMPRESS_BIG E64.init_elems
    (fun V out_size_w32 => E64.output V ((out_size_w32 + 1) / 2)).
Definition build32 : echo_build :=
  mk_build E32.COMPRESS_SMALL E32.COMPRESS_BIG E32.init_elems
    (fun V out_size_w32 => E32.output V out_size_w32).

Abbreviation sph_echo_small_context := (stream_ctx (ctr_state (list elem))).
Abbreviation sph_echo_big_context := (stream_ctx (ctr_state (list elem))).

(** [C0 += val], with the carry found by comparing with [val]. *)
Definition INCR_COUNTER (val : Z) (C : list Z) : list Z :=
  let C0 := SPH_T32 (C.[0] + val) in
  if C0 <? val then
    let C1 := SPH_T32 (C.[1] + 1) in
    if C1 =? 0 then
      let C2 := SPH_T32 (C.[2] + 1) in
      if C2 =? 0 then [C0; C1; C2; SPH_T32 (C.[3] + 1)]
      else [C0; C1; C2; C.[3]]
    else [C0; C1; C.[2]; C.[3]]
  else [C0; C.[1]; C.[2]; C.[3]].

Section Build.
Context (B : echo_build).

Definition echo_small_init (sc : sph_echo_small_context) (out_len : Z) : sph_echo_small_context :=
  mk_ctx (buf sc) 0%nat (mk_ctr (echo_init_elems B 4 out_len) [0; 0; 0; 0]).
Definition echo_big_init (sc : sph_echo_big_context) (out_len : Z) : sph_echo_big_context :=
  mk_ctx (buf sc) 0%nat (mk_ctr (echo_init_elems B 8 out_len) [0; 0; 0; 0]).

Definition echo_small_core (sc : sph_echo_small_context) (data : list Z) : sph_echo_small_context :=
  core 192 (ctr_absorb (echo_compress_small B) (INCR_COUNTER 1536)) sc data.
Definition echo_big_core (sc : sph_echo_big_context) (data : list Z) : sph_echo_big_context :=
  core 128 (ctr_absorb (echo_compress_big B) (INCR_COUNTER 1024)) sc data.

Definition echo_small_close (sc : sph_echo_small_context) (ub n : Z) (out_size_w32 : nat) :
    list Z * sph_echo_small_context :=
  let V := cs_h (st sc) in
  let elen := (Z.of_nat (ptr sc) << 3) + n in
  let C := INCR_COUNTER elen (cs_cnt (st sc)) in
  let tmp := sph_enc32le C.[0] ++ sph_enc32le C.[1] ++ sph_enc32le C.[2] ++ sph_enc32le C.[3] in
  let C := if elen =? 0 then [0; 0; 0; 0] else C in
  let z := 0x80 >> n in
  let b := <[ptr sc := ((ub .& SPH_T32 (- z)) .| z) .& 0xFF]> (buf sc) in
  let b := memset b (S (ptr sc)) 0 (192 - S (ptr sc)) in
  let '(V, C, b) :=
    if (192 - 18 <? S (ptr sc))%nat
    then (echo_compress_small B V C b, [0; 0; 0; 0], memset b 0 0 192)
    else (V, C, b) in
  let b := memcpy b (192 - 18) (sph_enc16le (Z.of_nat out_size_w32 << 5)) in
  let b := memcpy b (192 - 16) tmp in
  let V := echo_compress_small B V C b in
  (take (4 * out_size_w32) (echo_output B V out_size_w32),
   echo_small_init (mk_ctx b (ptr sc) (mk_ctr V C)) (Z.of_nat out_size_w32 << 5)).

Definition echo_big_close (sc : sph_echo_big_context) (ub n : Z) (out_size_w32 : nat) :
    list Z * sph_echo_big_context :=
  let V := cs_h (st sc) in
  let elen := (Z.of_nat (ptr sc) << 3) + n in
  let C := INCR_COUNTER elen (cs_cnt (st sc)) in
  let tmp := sph_enc32le C.[0] ++ sph_enc32le C.[1] ++ sph_enc32le C.[2] ++ sph_enc32le C.[3] in
  let C := if elen =? 0 then [0; 0; 0; 0] else C in
  let z := 0x80 >> n in
  let b := <[ptr sc := ((ub .& SPH_T32 (- z)) .| z) .& 0xFF]> (buf sc) in
  let b := memset b (S (ptr sc)) 0 (128 - S (ptr sc)) in
  let '(V, C, b) :=
    if (128 - 18 <? S (ptr sc))%nat
    then (echo_compress_big B V C b, [0; 0; 0; 0], memset b 0 0 128)
    else (V, C, b) in
  let b := memcpy b (128 - 18) (sph_enc16le (Z.of_nat out_size_w32 << 5)) in
  let b := memcpy b (128 - 16) tmp in
  let V := echo_compress_big B V C b in
  (take (4 * out_size_w32) (echo_output B V out_size_w32),
   echo_big_init (mk_ctx b (ptr sc) (mk_ctr V C)) (Z.of_nat out_size_w32 << 5)).
End Build.

(** ** The functions of sph_echo.h, in a 64-bit build *)

Definition sph_echo224_init (cc : sph_echo_small_context) := echo_small_init build64 cc 224.
Definition sph_echo224 (cc : sph_echo_small_context) (data : list Z) := echo_small_core build64 cc data.
Definition sph_echo224_close (cc : sph_echo_small_context) := echo_small_close build64 cc 0 0 7.
Definition sph_echo224_addbits_and_close (cc : sph_echo_small_context) (ub n : Z) := echo_small_close build64 cc ub n 7.

Definition sph_echo256_init (cc : sph_echo_small_context) := echo_small_init build64 cc 256.
Definition sph_echo256 (cc : sph_echo_small_context) (data : list Z) := echo_small_core build64 cc data.
Definition sph_echo256_close (cc : sph_echo_small_context) := echo_small_close build64 cc 0 0 8.
Definition sph_echo256_addbits_and_close (cc : sph_echo_small_context) (ub n : Z) := echo_small_close build64 cc ub n 8.

Definition sph_echo384_init (cc : sph_echo_big_context) := echo_big_init build64 cc 384.
Definition sph_echo384 (cc : sph_echo_big_context) (data : list Z) := echo_big_core build64 cc data.
Definition sph_echo384_close (cc : sph_echo_big_context) := echo_big_close build64 cc 0 0 12.
Definition sph_echo384_addbits_and_close (cc : sph_echo_big_context) (ub n : Z) := echo_big_close build64 cc ub n 12.

Definition sph_echo512_init (cc : sph_echo_big_context) := echo_big_init build64 cc 512.
Definition sph_echo512 (cc : sph_echo_big_context) (data : list Z) := echo_big_core build64 cc data.
Definition sph_echo512_close (cc : sph_echo_big_context) := echo_big_close build64 cc 0 0 16.
Definition sph_echo512_addbits_and_close (cc : sph_echo_big_context) (ub n : Z) := echo_big_close build64 cc ub n 16.

(** ** Specification *)

(** The end of the padding: the digest size, the bit length. *)
Definition echo_tail (tot : Z) (out : nat) : list Z :=
  sph_enc16le (Z.of_nat out << 5) ++ concat (sph_enc32le <$> cnt_words 4 tot).
Definition echo_spec (c rounds bs : nat) (msg : list Z) (n mb : Z) (out : nat) : list Z :=
  take (4 * out) (concat (ctr_hash bs (Ref.compress c rounds) (Ref.iv c (32 * Z.of_nat out)) msg n mb
    (echo_tail (8 * Z.of_nat (length msg) + n) out))).

(** ** The counter *)

Lemma INCR_COUNTER_words v t : 0 <= v < 2 ^ 32 -> INCR_COUNTER v (cnt_words 4 t) = cnt_words 4 (t + v).
Proof.
  intros Hv. pose proof (Z.mod_pos_bound t (2 ^ 32) ltac:(lia)).
  unfold INCR_COUNTER. rewrite (cnt_words_S 3 t). cbn [nth]. rewrite T32_mod.
  destruct (Z.lt_ge_cases (t mod 2 ^ 32 + v) (2 ^ 32)).
  - rewrite cnt_words_low, Z.mod_small by lia. case Z.ltb_spec; intros; [lia|done].
  - rewrite cnt_words_carry by lia.
    rewrite <- (Z.mod_unique (t mod 2 ^ 32 + v) (2 ^ 32) 1 (t mod 2 ^ 32 + v - 2 ^ 32)) by lia.
    case Z.ltb_spec; intros; [|lia]. by rewrite <- carry_words.
Qed.

(** ** The closing code at both sizes *)

Section Close.
Context (bs : nat) (cmp : list elem -> list Z -> list Z -> list elem).
Context (Hbs : (18 < bs)%nat) (Hbits : 8 * Z.of_nat bs < 2 ^ 32).
Let bump : list Z -> list Z := INCR_COUNTER (8 * Z.of_nat bs).

(** The chaining value the closing code ends with. *)
Definition gclose (sc : stream_ctx (ctr_state (list elem))) (mb n : Z) (out : nat) : list elem :=
  let V := cs_h (st sc) in
  let elen := (Z.of_nat (ptr sc) << 3) + n in
  let C := INCR_COUNTER elen (cs_cnt (st sc)) in
  let tmp := sph_enc32le C.[0] ++ sph_enc32le C.[1] ++ sph_enc32le C.[2] ++ sph_enc32le C.[3] in
  let C := if elen =? 0 then [0; 0; 0; 0] else C in
  let b := memset (<[ptr sc := mb]> (buf sc)) (S (ptr sc)) 0 (bs - S (ptr sc)) in
  let '(V, C, b) :=
    if (bs - 18 <? S (ptr sc))%nat then (cmp V C b, [0; 0; 0; 0], memset b 0 0 bs) else (V, C, b) in
  let b := memcpy b (bs - 18) (sph_enc16le (Z.of_nat out << 5)) in
  let b := memcpy b (bs - 16) tmp in
  cmp V C b.

Lemma bump_words k : 0 <= k ->
  bump (cnt_words 4 (8 * Z.of_nat bs * k)) = cnt_words 4 (8 * Z.of_nat bs * (k + 1)).
Proof. intros Hk. unfold bump. rewrite INCR_COUNTER_words by lia. f_equal. lia. Qed.

Lemma tail_fill b tail o : length b = bs -> length tail = 18%nat -> o = (bs - 18)%nat -> memcpy b o tail = take o b ++ tail.
Proof. intros Hb Ht ->. unfold memcpy. rewrite drop_ge, app_nil_r by lia. done. Qed.

Lemma echo_gclose_hash sc msg iv mb n out :
  length (buf sc) = bs -> 0 <= n <= 7 ->
  repr bs (ctr_absorb cmp bump) (mk_ctr iv (cnt_words 4 0)) msg sc ->
  gclose sc mb n out =
  ctr_hash bs (fun h t => cmp h (cnt_words 4 t)) iv msg n mb (echo_tail (8 * Z.of_nat (length msg) + n) out).
Proof.
  intros Hl Hn Hr. assert (0 < bs)%nat as Hbs0 by lia.
  pose proof (repr_wf _ _ Hbs0 _ _ _ Hr) as [_ Hlt].
  destruct (ctr_at_end 4 bs cmp bump Hbs0 bump_words iv msg sc n Hr Hn) as [Hc _].
  set (tot := 8 * Z.of_nat (length msg) + n).
  assert (INCR_COUNTER ((Z.of_nat (ptr sc) << 3) + n) (cs_cnt (st sc)) = cnt_words 4 tot) as HC.
  { rewrite Hc, Z.shiftl_mul_pow2, INCR_COUNTER_words by lia. f_equal. destruct Hr as (_ & -> & _).
    pose proof (Nat.div_mod_eq (length msg) bs). unfold tot. lia. }
  set (tail := echo_tail tot out). assert (length tail = 18%nat) as Ht by done.
  pose proof (ctr_close_one 4 bs cmp bump Hbs0 bump_words iv msg sc n Hr Hn mb tail ltac:(lia)) as H1.
  pose proof (ctr_close_two 4 bs cmp bump Hbs0 bump_words iv msg sc n Hr Hn mb tail ltac:(lia)) as H2.
  fold tot in H1, H2. rewrite Ht in H1, H2. unfold gclose. rewrite HC.
  change (sph_enc32le (cnt_words 4 tot).[0] ++ _) with (concat (sph_enc32le <$> cnt_words 4 tot)).
  change [0; 0; 0; 0] with (cnt_words 4 0).
  assert (length (memset (<[ptr sc := mb]> (buf sc)) (S (ptr sc)) 0 (bs - S (ptr sc))) = bs) as Hb
    by (rewrite length_memset; rewrite length_insert; lia).
  set (e16 := sph_enc16le _). set (tmp := concat _).
  assert (length e16 = 2 /\ length tmp = 16)%nat as [L1 L2] by done.
  assert (e16 ++ tmp = tail) as Etail by done. clearbody e16 tmp tail.
  destruct (Nat.ltb_spec (bs - 18) (S (ptr sc))).
  - assert (length (memset (memset (<[ptr sc := mb]> (buf sc)) (S (ptr sc)) 0 (bs - S (ptr sc))) 0 0 bs) = bs) as Hb'
      by (rewrite (length_memset _ 0 0 bs); lia).
    rewrite (memcpy_next _ (bs - 18)) by lia. rewrite Etail, tail_fill by lia.
    rewrite <- H2 by lia. rewrite mark_fill by lia. f_equal; [f_equal|f_equal].
    + destruct (Z.eqb_spec ((Z.of_nat (ptr sc) << 3) + n) 0) as [E|E]; [|done].
      rewrite Z.shiftl_mul_pow2 in E by lia. lia.
    + unfold memset. rewrite memcpy_all by (rewrite length_replicate, length_app, length_take; cbn [length];
        rewrite length_replicate; lia). rewrite take_replicate. f_equal. lia.
  - rewrite (memcpy_next _ (bs - 18)) by lia. rewrite Etail, tail_fill by lia.
    rewrite <- H1 by lia. rewrite mark_fill by lia. f_equal.
    + rewrite Z.shiftl_mul_pow2 by lia.
      destruct (Z.eqb_spec (Z.of_nat (ptr sc) * 2 ^ 3 + n) 0), (Nat.eqb_spec (ptr sc) 0), (Z.eqb_spec n 0); (done || lia).
    + rewrite take_app_ge by (rewrite length_take; lia). rewrite length_take, <- app_assoc. f_equal.
      replace (bs - 18 - ptr sc `min` length (buf sc))%nat with (S (bs - 18 - S (ptr sc))) by lia.
      cbn [take app]. rewrite take_replicate. do 3 f_equal. lia.
Qed.
End Close.

(** ** The two builds *)

Section Digest.
Context (wb nw : nat) (B : echo_build).
Context (Hsmall : compress_ok wb nw 4 8 192 (echo_compress_small B)).
Context (Hbig : compress_ok wb nw 8 10 128 (echo_compress_big B)).
Context (Hinit : forall c bits, 0 <= bits < 2 ^ 32 ->
  wf_state wb nw c (echo_init_elems B c bits) /\ elem_bytes wb <$> echo_init_elems B c bits = Ref.iv c bits).
Context (Hout : forall c V out, (c, out) ∈ [(4, 7); (4, 8); (8, 12); (8, 16)]%nat -> wf_state wb nw c V ->
  take (4 * out) (echo_output B V out) = take (4 * out) (concat (elem_bytes wb <$> V))).

(** From the hash of the code to the hash on bytes. *)
Lemma hash_bytes c rounds bs cmp msg n mb out :
  (0 < bs)%nat -> compress_ok wb nw c rounds bs cmp -> words 8 msg -> word 8 mb -> 0 <= n -> (out <= 16)%nat ->
  let tail := echo_tail (8 * Z.of_nat (length msg) + n) out in
  let V := ctr_hash bs (fun h t => cmp h (cnt_words 4 t)) (echo_init_elems B c (32 * Z.of_nat out)) msg n mb tail in
  wf_state wb nw c V /\
  elem_bytes wb <$> V = ctr_hash bs (Ref.compress c rounds) (Ref.iv c (32 * Z.of_nat out)) msg n mb tail.
Proof.
  intros Hbs Hc Hm Hmb Hn Ho. cbv zeta.
  apply (ctr_hash_sim (fun V V' => wf_state wb nw c V /\ elem_bytes wb <$> V = V')); try done.
  - unfold echo_tail. apply Forall_app. split; [unfold sph_enc16le; auto with words|].
    apply Forall_concat, Forall_fmap, Forall_true. intros x. apply sph_enc32le_words.
  - apply Hinit. lia.
  - intros h h' t b [Hh <-] Hl Hw Ht. by apply Hc.
Qed.

Lemma echo_small_close_gclose sc ub n out :
  fst (echo_small_close B sc ub n out) =
  take (4 * out) (echo_output B (gclose 192 (echo_compress_small B) sc (mark_byte ub n) n out) out).
Proof.
  unfold echo_small_close, gclose.
  change (((ub .& SPH_T32 (- (0x80 >> n))) .| (0x80 >> n)) .& 0xFF) with (mark_byte ub n).
  by destruct (192 - 18 <? S (ptr sc))%nat.
Qed.

Lemma echo_small_spec cc ds ub n out :
  length (buf cc) = 192%nat -> words 8 (concat ds) -> 0 <= n <= 7 -> out ∈ [7; 8]%nat ->
  fst (echo_small_close B (fold_left (echo_small_core B) ds (echo_small_init B cc (32 * Z.of_nat out))) ub n out) =
  echo_spec 4 8 192 (concat ds) n (mark_byte ub n) out.
Proof.
  intros Hb Hw Hn Ho. pose (blk := ctr_absorb (echo_compress_small B) (INCR_COUNTER 1536)).
  set (iv := echo_init_elems B 4 (32 * Z.of_nat out)).
  change (fold_left (echo_small_core B) ds (echo_small_init B cc (32 * Z.of_nat out))) with
    (fold_left (core 192 blk) ds (mk_ctx (buf cc) 0 (mk_ctr iv [0; 0; 0; 0]))).
  pose proof (init_core_repr 192 blk ltac:(lia) (mk_ctr iv [0; 0; 0; 0]) (buf cc) ds ltac:(lia)) as Hr.
  pose proof (cores_length_buf 192 blk ltac:(lia) (mk_ctr iv [0; 0; 0; 0]) (buf cc) ds ltac:(lia)) as Hl.
  revert Hr Hl. generalize (fold_left (core 192 blk) ds (mk_ctx (buf cc) 0 (mk_ctr iv [0; 0; 0; 0]))) as sc.
  intros sc Hr Hl. rewrite Hb in Hl.
  assert ((4%nat, out) ∈ [(4, 7); (4, 8); (8, 12); (8, 16)]%nat /\ (out <= 16)%nat) as [Hco Ho'].
  { rewrite !elem_of_cons, elem_of_nil in Ho. rewrite !elem_of_cons. destruct Ho as [->|[->|[]]]; (split; [tauto|lia]). }
  destruct (hash_bytes 4 8 192 _ (concat ds) n (mark_byte ub n) out ltac:(lia) Hsmall Hw (uchar_word _)
    ltac:(lia) Ho') as [HV EV].
  rewrite echo_small_close_gclose.
  rewrite (echo_gclose_hash 192 (echo_compress_small B) ltac:(lia) ltac:(lia) sc (concat ds) iv (mark_byte ub n) n out Hl Hn Hr).
  unfold echo_spec. by rewrite <- EV, <- (Hout 4).
Qed.

Lemma echo_big_close_gclose sc ub n out :
  fst (echo_big_close B sc ub n out) =
  take (4 * out) (echo_output B (gclose 128 (echo_compress_big B) sc (mark_byte ub n) n out) out).
Proof.
  unfold echo_big_close, gclose.
  change (((ub .& SPH_T32 (- (0x80 >> n))) .| (0x80 >> n)) .& 0xFF) with (mark_byte ub n).
  by destruct (128 - 18 <? S (ptr sc))%nat.
Qed.

Lemma echo_big_spec cc ds ub n out :
  length (buf cc) = 128%nat -> words 8 (concat ds) -> 0 <= n <= 7 -> out ∈ [12; 16]%nat ->
  fst (echo_big_close B (fold_left (echo_big_core B) ds (echo_big_init B cc (32 * Z.of_nat out))) ub n out) =
  echo_spec 8 10 128 (concat ds) n (mark_byte ub n) out.
Proof.
  intros Hb Hw Hn Ho. pose (blk := ctr_absorb (echo_compress_big B) (INCR_COUNTER 1024)).
  set (iv := echo_init_elems B 8 (32 * Z.of_nat out)).
  change (fold_left (echo_big_core B) ds (echo_big_init B cc (32 * Z.of_nat out))) with
    (fold_left (core 128 blk) ds (mk_ctx (buf cc) 0 (mk_ctr iv [0; 0; 0; 0]))).
  pose proof (init_core_repr 128 blk ltac:(lia) (mk_ctr iv [0; 0; 0; 0]) (buf cc) ds ltac:(lia)) as Hr.
  pose proof (cores_length_buf 128 blk ltac:(lia) (mk_ctr iv [0; 0; 0; 0]) (buf cc) ds ltac:(lia)) as Hl.
  revert Hr Hl. generalize (fold_left (core 128 blk) ds (mk_ctx (buf cc) 0 (mk_ctr iv [0; 0; 0; 0]))) as sc.
  intros sc Hr Hl. rewrite Hb in Hl.
  assert ((8%nat, out) ∈ [(4, 7); (4, 8); (8, 12); (8, 16)]%nat /\ (out <= 16)%nat) as [Hco Ho'].
  { rewrite !elem_of_cons, elem_of_nil in Ho. rewrite !elem_of_cons. destruct Ho as [->|[->|[]]]; (split; [tauto|lia]). }
  destruct (hash_bytes 8 10 128 _ (concat ds) n (mark_byte ub n) out ltac:(lia) Hbig Hw (uchar_word _)
    ltac:(lia) Ho') as [HV EV].
  rewrite echo_big_close_gclose.
  rewrite (echo_gclose_hash 128 (echo_compress_big B) ltac:(lia) ltac:(lia) sc (concat ds) iv (mark_byte ub n) n out Hl Hn Hr).
  unfold echo_spec. by rewrite <- EV, <- (Hout 8).
Qed.

End Digest.

Lemma shiftr_zero b k : word 32 b -> 32 <= k -> b >> k = 0.
Proof.
  intros [H1 H2] Hk. rewrite Z.shiftr_div_pow2 by lia. apply Z.div_small. split; [done|].
  apply Z.lt_le_trans with (2 ^ 32); [done|]. apply Z.pow_le_mono_r; lia.
Qed.

Lemma le_bytes_short n b : word 32 b -> le_bytes (4 + n) b = le_bytes 4 b ++ replicate n 0.
Proof.
  intros Hb. unfold le_bytes. rewrite seq_app, fmap_app. f_equal.
  rewrite (list_fmap_ext _ (fun _ => 0)); [by rewrite (const_fmap _ _ 0), length_seq|].
  intros ? i Hi. apply list_elem_of_lookup_2, elem_of_seq in Hi. by rewrite shiftr_zero by (done || lia).
Qed.

Lemma init64_ok c bits : 0 <= bits < 2 ^ 32 ->
  wf_state 8 2 c (E64.init_elems c bits) /\ elem_bytes 8 <$> E64.init_elems c bits = Ref.iv c bits.
Proof.
  intros Hb. unfold E64.init_elems, Ref.iv. split; [split; [apply length_replicate|]|].
  - apply Forall_replicate. split; [done|]. repeat (apply Forall_cons; split; [unfold word; lia|]). done.
  - rewrite fmap_replicate. f_equal. unfold elem_bytes. cbn [fmap list_fmap concat].
    by rewrite (le_bytes_short 4 bits Hb : le_bytes 8 bits = _), (le_bytes_short 12 bits Hb : le_bytes 16 bits = _), <- app_assoc.
Qed.
Lemma init32_ok c bits : 0 <= bits < 2 ^ 32 ->
  wf_state 4 4 c (E32.init_elems c bits) /\ elem_bytes 4 <$> E32.init_elems c bits = Ref.iv c bits.
Proof.
  intros Hb. unfold E32.init_elems, Ref.iv. split; [split; [apply length_replicate|]|].
  - apply Forall_replicate. split; [done|]. repeat (apply Forall_cons; split; [unfold word; lia|]). done.
  - rewrite fmap_replicate. f_equal. unfold elem_bytes. cbn [fmap list_fmap concat].
    by rewrite (le_bytes_short 12 bits Hb : le_bytes 16 bits = _).
Qed.

(** The output loops, on explicit elements. *)
Lemma output64_ok c V out :
  (c, out) ∈ [(4, 7); (4, 8); (8, 12); (8, 16)]%nat -> wf_state 8 2 c V ->
  take (4 * out) (E64.output V ((out + 1) / 2)) = take (4 * out) (concat (elem_bytes 8 <$> V)).
Proof.
  rewrite !elem_of_cons, elem_of_nil. intros Hco [Hl HV]. unfold E64.output.
  rewrite (list_fmap_ext _ (fun u => le_bytes 8 (E64.word_of V u))) by (intros; apply enc64le_bytes).
  destruct Hco as [[= -> ->]|[[= -> ->]|[[= -> ->]|[[= -> ->]|[]]]]];
    (repeat (destruct V as [|? V]; [try discriminate Hl|try (simpl in Hl; lia)]));
    rewrite !Forall_cons in HV; unfold wf_elem, wf_arr in HV; destruct_and! HV;
    repeat match goal with He : length ?e = 2%nat |- _ => split_elem 2%nat e He; clear He end; reflexivity.
Qed.
Lemma output32_ok c V out :
  (c, out) ∈ [(4, 7); (4, 8); (8, 12); (8, 16)]%nat -> wf_state 4 4 c V ->
  take (4 * out) (E32.output V out) = take (4 * out) (concat (elem_bytes 4 <$> V)).
Proof.
  rewrite !elem_of_cons, elem_of_nil. intros Hco [Hl HV]. unfold E32.output.
  rewrite (list_fmap_ext _ (fun u => le_bytes 4 (E32.word_of V u))) by (intros; apply enc32le_bytes).
  destruct Hco as [[= -> ->]|[[= -> ->]|[[= -> ->]|[[= -> ->]|[]]]]];
    (repeat (destruct V as [|? V]; [try discriminate Hl|try (simpl in Hl; lia)]));
    clear Hl; rewrite !Forall_cons in HV; unfold wf_elem, wf_arr in HV; destruct_and! HV;
    repeat match goal with He : length ?e = 4%nat |- _ => split_elem 4%nat e He; clear He end; reflexivity.
Qed.

(** ** Main results *)

(** The compression functions of ECHO, for both state sizes and both word
    sizes of the build, are the compression of the specification on elements of
    sixteen bytes: two AES rounds per element keyed by a 128-bit counter, row
    shifts of elements, the AES mix-column matrix across elements, which the
    code computes on all bytes of a word at once, and the feed-forward. *)
Theorem echo_compression_reference :
  compress_ok 8 2 4 8 192 E64.COMPRESS_SMALL /\ compress_ok 8 2 8 10 128 E64.COMPRESS_BIG /\
  compress_ok 4 4 4 8 192 E32.COMPRESS_SMALL /\ compress_ok 4 4 8 10 128 E32.COMPRESS_BIG.
Proof.
  split_and!; [apply compress_small64_ok|apply compress_big64_ok|apply compress_small32_ok|apply compress_big32_ok].
Qed.

Lemma echo_compression_reference_witness :
  elem_bytes 8 <$> E64.COMPRESS_SMALL (E64.init_elems 4 256) (cnt_words 4 1536) (replicate 192 5) =
  elem_bytes 4 <$> E32.COMPRESS_SMALL (E32.init_elems 4 256) (cnt_words 4 1536) (replicate 192 5).
Proof.
  destruct echo_compression_reference as (H64 & _ & H32 & _).
  destruct (init64_ok 4 256 ltac:(lia)) as [W64 E64]. destruct (init32_ok 4 256 ltac:(lia)) as [W32 E32].
  destruct (H64 _ 1536 (replicate 192 5) W64) as [_ ->]; [apply words_replicate; unfold word; lia|reflexivity|].
  destruct (H32 _ 1536 (replicate 192 5) W32) as [_ ->]; [apply words_replicate; unfold word; lia|reflexivity|].
  by rewrite E64, E32.
Defined.

(** C39. The digest of a message fed to ECHO in any chunks and closed with [n]
    further bits, for the four digest sizes, in a 64-bit build and in a 32-bit
    build: the bit counter with its carries, the rule for blocks without message
    bits and the padding are those of the specification. *)
Theorem echo_digest cc ds ub n out :
  words 8 (concat ds) -> 0 <= n <= 7 ->
  (length (buf cc) = 192%nat -> out ∈ [7; 8]%nat -> forall B, B = build64 \/ B = build32 ->
   fst (echo_small_close B (fold_left (echo_small_core B) ds (echo_small_init B cc (32 * Z.of_nat out))) ub n out) =
   echo_spec 4 8 192 (concat ds) n (mark_byte ub n) out) /\
  (length (buf cc) = 128%nat -> out ∈ [12; 16]%nat -> forall B, B = build64 \/ B = build32 ->
   fst (echo_big_close B (fold_left (echo_big_core B) ds (echo_big_init B cc (32 * Z.of_nat out))) ub n out) =
   echo_spec 8 10 128 (concat ds) n (mark_byte ub n) out).
Proof.
  intros Hw Hn. split; intros Hb Ho B [->| ->].
  - apply (echo_small_spec 8 2 build64 compress_small64_ok init64_ok output64_ok); done.
  - apply (echo_small_spec 4 4 build32 compress_small32_ok init32_ok output32_ok); done.
  - apply (echo_big_spec 8 2 build64 compress_big64_ok init64_ok output64_ok); done.
  - apply (echo_big_spec 4 4 build32 compress_big32_ok init32_ok output32_ok); done.
Qed.

Lemma echo_digest_witness :
  fst (echo_small_close build64 (fold_left (echo_small_core build64) [[]; []]
    (echo_small_init build64 (mk_ctx (replicate 192 9) 0 (mk_ctr [] [])) (32 * Z.of_nat 8))) 0 0 8) =
  be_bytes 32 0x4496CD09D425999AEFA75189EE7FD3C97362AA9E4CA898328002D20A4B519788.
Proof.
  destruct (echo_digest (mk_ctx (replicate 192 9) 0 (mk_ctr [] [])) [[]; []] 0 0 8 (Forall_nil_2 _) ltac:(lia)) as [H _].
  rewrite H; [|reflexivity|repeat constructor|by left]. apply list_eqb_eq. vm_compute. reflexivity.
Defined.
