(* ===== verification/ArithUint.v ===== *)
(** * arith_uint256.cpp: fixed-width unsigned integers

    [base_uint<BITS>] is an array of [WIDTH = BITS / 32] words, least significant
    first.  The operators are the loops of the code; [val] is the number an array
    stands for, and the lemmas say what each operator does to it.  The classes
    [arith_uint256] and [arith_uint512] are the cases [WIDTH = 8] and 16. *)

From Stdlib Require Import ZArith Lia Btauto.
From stdpp Require Import base tactics numbers list.
From S2P Require Import Prelude SphTypes.

Abbreviation base_uint := (list Z).

(** ** Operators *)

Definition base_uint_of_u64 (WIDTH : nat) (b : Z) : base_uint :=
  [SPH_T32 b; SPH_T32 (b >> 32)] ++ replicate (WIDTH - 2) 0.

Definition op_not (a : base_uint) : base_uint := not32 <$> a.
(** [while (++pn[i] == 0 && i < WIDTH - 1) i++]. *)
Fixpoint op_incr (a : base_uint) : base_uint :=
  match a with
  | [] => []
  | w :: a' =>
      let w := SPH_T32 (w + 1) in
      w :: (if w =? 0 then op_incr a' else a')
  end.
Fixpoint op_decr (a : base_uint) : base_uint :=
  match a with
  | [] => []
  | w :: a' =>
      let w := SPH_T32 (w - 1) in
      w :: (if w =? 0xFFFFFFFF then op_decr a' else a')
  end.
Definition op_neg (a : base_uint) : base_uint := op_incr (op_not a).

Definition op_xor (a b : base_uint) : base_uint := zip_with Z.lxor a b.
Definition op_and (a b : base_uint) : base_uint := zip_with Z.land a b.
Definition op_or (a b : base_uint) : base_uint := zip_with Z.lor a b.

Fixpoint add_loop (carry : Z) (a b : base_uint) : base_uint :=
  match a, b with
  | x :: a, y :: b =>
      let n := SPH_T64 (carry + x + y) in
      (n .& 0xFFFFFFFF) :: add_loop (n >> 32) a b
  | _, _ => []
  end.
Definition op_add (a b : base_uint) : base_uint := add_loop 0 a b.
Definition op_sub (a b : base_uint) : base_uint := op_add a (op_neg b).

Fixpoint mul32_loop (b32 carry : Z) (a : base_uint) : base_uint :=
  match a with
  | [] => []
  | x :: a =>
      let n := SPH_T64 (carry + SPH_T64 (b32 * x)) in
      (n .& 0xFFFFFFFF) :: mul32_loop b32 (n >> 32) a
  end.
Definition op_mul32 (a : base_uint) (b32 : Z) : base_uint := mul32_loop b32 0 a.

(** The inner loop of the multiplication: [p] is the part of the result from
    word [j] on. *)
Fixpoint mul_row (aj carry : Z) (p b : base_uint) : base_uint :=
  match p, b with
  | x :: p, y :: b =>
      let n := SPH_T64 (SPH_T64 (carry + x) + SPH_T64 (aj * y)) in
      (n .& 0xFFFFFFFF) :: mul_row aj (n >> 32) p b
  | _, _ => p
  end.
(** [a *= b] for two objects; see [op_mul_self] for one. *)
Definition op_mul (a b : base_uint) : base_uint :=
  let WIDTH := length a in
  fold_left (fun p j => take j p ++ mul_row a.[j] 0 (drop j p) b) (seq 0 WIDTH) (replicate WIDTH 0).

(** [a *= a]: the words of [b] are those of the result, which was set to zero. *)
Definition self_row (aj : Z) (WIDTH j : nat) (pn : base_uint) : base_uint :=
  (fold_left (fun '(pn, carry) i =>
    let n := SPH_T64 (SPH_T64 (carry + pn.[i + j]) + SPH_T64 (aj * pn.[i])) in
    (<[(i + j)%nat := n .& 0xFFFFFFFF]> pn, n >> 32)) (seq 0 (WIDTH - j)) (pn, 0)).1.
Definition op_mul_self (a : base_uint) : base_uint :=
  let WIDTH := length a in
  fold_left (fun pn j => self_row a.[j] WIDTH j pn) (seq 0 WIDTH) (replicate WIDTH 0).

Definition op_shl (a : base_uint) (shift : Z) : base_uint :=
  let WIDTH := length a in
  let k := Z.to_nat (shift / 32) in
  let shift := shift mod 32 in
  fold_left (fun pn i =>
    let pn := if (i + k + 1 <? WIDTH)%nat && negb (shift =? 0)
              then <[(i + k + 1)%nat := pn.[i + k + 1] .| (a.[i] >> (32 - shift))]> pn else pn in
    if (i + k <? WIDTH)%nat then <[(i + k)%nat := pn.[i + k] .| SPH_T32 (a.[i] << shift)]> pn else pn)
    (seq 0 WIDTH) (replicate WIDTH 0).
Definition op_shr (a : base_uint) (shift : Z) : base_uint :=
  let WIDTH := length a in
  let k := Z.to_nat (shift / 32) in
  let shift := shift mod 32 in
  fold_left (fun pn i =>
    let pn := if (k + 1 <=? i)%nat && negb (shift =? 0)
              then <[(i - k - 1)%nat := pn.[i - k - 1] .| SPH_T32 (a.[i] << (32 - shift))]> pn else pn in
    if (k <=? i)%nat then <[(i - k)%nat := pn.[i - k] .| (a.[i] >> shift)]> pn else pn)
    (seq 0 WIDTH) (replicate WIDTH 0).

(** The comparison and [bits] look at the most significant word first. *)
Fixpoint compare_from_top (a b : list Z) : Z :=
  match a, b with
  | x :: a, y :: b => if x <? y then -1 else if y <? x then 1 else compare_from_top a b
  | _, _ => 0
  end.
Definition CompareTo (a b : base_uint) : Z := compare_from_top (rev a) (rev b).
Definition EqualTo (a : base_uint) (b : Z) : bool :=
  forallb (fun w => w =? 0) (drop 2 a) && (a.[1] =? (b >> 32)) && (a.[0] =? b .& 0xFFFFFFFF).

(** [for (bits = 31; bits > 0; bits--) if (w & 1 << bits) ...]. *)
Fixpoint word_bits (w : Z) (bits : nat) : Z :=
  match bits with
  | O => 1
  | S b => if negb (w .& SPH_T32 (1 << Z.of_nat bits) =? 0) then Z.of_nat bits + 1 else word_bits w b
  end.
Fixpoint bits_from_top (a : list Z) : Z :=
  match a with
  | [] => 0
  | w :: a => if negb (w =? 0) then 32 * Z.of_nat (length a) + word_bits w 31 else bits_from_top a
  end.
Definition bits (a : base_uint) : Z := bits_from_top (rev a).

(** [while (shift >= 0)]: [n] is [shift + 1]. *)
Fixpoint div_loop (n : nat) (num div quot : base_uint) : base_uint :=
  match n with
  | O => quot
  | S shift =>
      let '(num, quot) :=
        if 0 <=? CompareTo num div then
          (op_sub num div,
           <[(shift / 32)%nat := quot.[shift / 32] .| SPH_T32 (1 << Z.of_nat (shift mod 32))]> quot)
        else (num, quot) in
      div_loop shift num (op_shr div 1) quot
  end.
(** [None] is the exception for a divisor that is zero. *)
Definition op_div (num div : base_uint) : option base_uint :=
  let WIDTH := length num in
  let num_bits := bits num in
  let div_bits := bits div in
  if div_bits =? 0 then None
  else if num_bits <? div_bits then Some (replicate WIDTH 0)
  else
    let shift := num_bits - div_bits in
    Some (div_loop (S (Z.to_nat shift)) num (op_shl div shift) (replicate WIDTH 0)).

Definition GetLow64 (a : base_uint) : Z := a.[0] .| (a.[1] << 32).

(** ** Conversions *)

Definition ArithToUint (a : base_uint) : list Z := concat (sph_enc32le <$> a).
Definition UintToArith (WIDTH : nat) (b : list Z) : base_uint :=
  (fun x => sph_dec32le (drop (4 * x) b)) <$> seq 0 WIDTH.

(** ** Numbers *)

Definition val (a : base_uint) : Z := foldr (fun w v => w + 2 ^ 32 * v) 0 a.

Lemma val_cons w a : val (w :: a) = w + 2 ^ 32 * val a.
Proof. done. Qed.

Lemma val_bound a : words 32 a -> word (32 * Z.of_nat (length a)) (val a).
Proof.
  induction 1 as [|w a Hw Ha IH]; [by unfold word; cbn|]. rewrite val_cons.
  unfold word in *. cbn [length]. replace (32 * Z.of_nat (S (length a))) with (32 + 32 * Z.of_nat (length a)) by lia.
  rewrite Z.pow_add_r by lia. nia.
Qed.

Lemma val_app a b : val (a ++ b) = val a + 2 ^ (32 * Z.of_nat (length a)) * val b.
Proof.
  induction a as [|w a IH]; cbn [app length].
  - change (2 ^ (32 * Z.of_nat 0)) with 1. change (val []) with 0. lia.
  - rewrite !val_cons, IH. replace (32 * Z.of_nat (S (length a))) with (32 + 32 * Z.of_nat (length a)) by lia.
    rewrite Z.pow_add_r by lia. lia.
Qed.

Lemma val_zeros n : val (replicate n 0) = 0.
Proof. induction n as [|n IH]; [done|]. cbn [replicate]. rewrite val_cons, IH. lia. Qed.

(** Bit [32 m + j] of the number is bit [j] of word [m]. *)
Lemma val_bit a m j : words 32 a -> 0 <= j < 32 -> Z.testbit (val a) (32 * Z.of_nat m + j) = Z.testbit a.[m] j.
Proof.
  intros Ha Hj. revert m. induction Ha as [|w a Hw Ha IH]; intros m.
  - destruct m; cbn [nth]; by rewrite !Z.bits_0.
  - rewrite val_cons. assert (w + 2 ^ 32 * val a = w .| (val a << 32)) as ->.
    { rewrite Z.shiftl_mul_pow2, Z.mul_comm by lia. rewrite <- Z.lxor_lor, <- Z.add_nocarry_lxor; [lia|..];
        (apply Z.bits_inj'; intros i Hi; rewrite Z.land_spec, Z.bits_0;
         destruct (Z.lt_ge_cases i 32); [rewrite Z.mul_pow2_bits_low, andb_false_r by lia|rewrite (word_bit_high 32 w) by done]; done). }
    rewrite Z.lor_spec, Z.shiftl_spec by lia. destruct m as [|m]; cbn [nth].
    + rewrite Z.mul_0_r, Z.add_0_l, (Z.testbit_neg_r (val a)) by lia. apply orb_false_r.
    + rewrite (word_bit_high 32 w) by (done || lia). cbn [orb].
      replace (32 * Z.of_nat (S m) + j - 32) with (32 * Z.of_nat m + j) by lia. apply IH.
Qed.

(** Arrays of the same length with the same number are equal. *)
Lemma val_inj a b : words 32 a -> words 32 b -> length a = length b -> val a = val b -> a = b.
Proof.
  intros Ha. revert b. induction Ha as [|w a Hw Ha IH]; intros [|x b] Hb Hl E; try done.
  inversion_clear Hb. rewrite !val_cons in E. unfold word in *.
  assert (w = x /\ val a = val b) as [-> Ev] by nia. f_equal. apply IH; [done| |done]. by injection Hl.
Qed.

(** A number given by its words' bits. *)
Lemma val_of_bits a x n :
  words 32 a -> length a = n -> word (32 * Z.of_nat n) x ->
  (forall m j, (m < n)%nat -> 0 <= j < 32 -> Z.testbit a.[m] j = Z.testbit x (32 * Z.of_nat m + j)) -> val a = x.
Proof.
  intros Ha Hl Hx H. pose proof (val_bound a Ha) as Hv. rewrite Hl in Hv.
  apply (word_eq (32 * Z.of_nat n)); [done..|]. intros i Hi.
  set (m := Z.to_nat (i / 32)). pose proof (Z.div_mod i 32 ltac:(lia)). pose proof (Z.mod_pos_bound i 32 ltac:(lia)).
  assert (0 <= i / 32) by (apply Z.div_pos; lia).
  replace i with (32 * Z.of_nat m + i mod 32) by (unfold m; lia).
  rewrite val_bit by done. apply H; [unfold m; lia|done].
Qed.

(** *** Carries *)

Lemma mod_step B M n X : 0 < B -> 0 < M -> n mod B + B * ((n / B + X) mod M) = (n + B * X) mod (B * M).
Proof.
  intros HB HM. apply (Z.mod_unique _ _ ((n / B + X) / M)).
  - left. pose proof (Z.mod_pos_bound n B HB). pose proof (Z.mod_pos_bound (n / B + X) M HM). nia.
  - pose proof (Z.div_mod n B ltac:(lia)). pose proof (Z.div_mod (n / B + X) M ltac:(lia)). nia.
Qed.

Lemma pow32_S n : 2 ^ (32 * Z.of_nat (S n)) = 2 ^ 32 * 2 ^ (32 * Z.of_nat n).
Proof. rewrite <- Z.pow_add_r by lia. f_equal. lia. Qed.

Lemma low32 n : n .& 0xFFFFFFFF = n mod 2 ^ 32.
Proof. exact (T32_mod n). Qed.

(** One step of a loop that keeps the low half of [n] and carries the high half. *)
Lemma carry_step n X len :
  (n .& 0xFFFFFFFF) + 2 ^ 32 * (((n >> 32) + X) mod 2 ^ (32 * Z.of_nat len)) =
  (n + 2 ^ 32 * X) mod 2 ^ (32 * Z.of_nat (S len)).
Proof.
  rewrite low32, Z.shiftr_div_pow2, pow32_S by lia. apply mod_step; [lia|]. apply Z.pow_pos_nonneg; lia.
Qed.

Lemma word_low32 n : word 32 (n .& 0xFFFFFFFF).
Proof. rewrite low32. apply Z.mod_pos_bound. lia. Qed.

Lemma add_loop_val c a b :
  words 32 a -> words 32 b -> length a = length b -> 0 <= c <= 1 ->
  words 32 (add_loop c a b) /\ length (add_loop c a b) = length a /\
  val (add_loop c a b) = (c + val a + val b) mod 2 ^ (32 * Z.of_nat (length a)).
Proof.
  intros Ha. revert b c. induction Ha as [|x a Hx Ha IH]; intros [|y b] c Hb Hl Hc; try done.
  - split_and!; try done. cbn. by rewrite Z.mod_1_r.
  - inversion_clear Hb as [|? ? Hy Hb']. cbn [add_loop].
    assert (SPH_T64 (c + x + y) = c + x + y) as -> by (apply T64_id; unfold word in *; lia).
    assert (0 <= (c + x + y) >> 32 <= 1) as Hc'.
    { rewrite Z.shiftr_div_pow2 by lia. unfold word in *. split; [apply Z.div_pos; lia|].
      apply Z.lt_succ_r, Z.div_lt_upper_bound; lia. }
    destruct (IH b ((c + x + y) >> 32) Hb' ltac:(by injection Hl) Hc') as (W & L & V).
    split_and!; [apply Forall_cons; split; [apply word_low32|done]|by cbn [length]; rewrite L|].
    rewrite val_cons, V, <- (Z.add_assoc (_ >> 32)), carry_step, !val_cons. cbn [length]. f_equal. lia.
Qed.

Lemma op_incr_val a :
  words 32 a -> words 32 (op_incr a) /\ length (op_incr a) = length a /\
  val (op_incr a) = (val a + 1) mod 2 ^ (32 * Z.of_nat (length a)).
Proof.
  induction 1 as [|w a Hw Ha IH]; [done|]. cbn [op_incr].
  destruct IH as (W & L & V). pose proof (val_bound a Ha) as Hv. rewrite T32_mod in *.
  split_and!.
  - apply Forall_cons. split; [apply Z.mod_pos_bound; lia|]. by case_match.
  - cbn [length]. by case_match; rewrite ?L.
  - rewrite !val_cons. cbn [length]. rewrite pow32_S. unfold word in *.
    destruct (Z.eq_dec w (2 ^ 32 - 1)) as [->|Hne].
    + change ((2 ^ 32 - 1 + 1) mod 2 ^ 32) with 0. cbn [Z.eqb]. rewrite V, Z.add_0_l.
      rewrite <- Z.mul_mod_distr_l by lia. f_equal. lia.
    + rewrite (Z.mod_small (w + 1)) by lia. destruct (Z.eqb_spec (w + 1) 0); [lia|].
      rewrite Z.mod_small; [lia|]. nia.
Qed.

Lemma op_not_val a :
  words 32 a -> words 32 (op_not a) /\ length (op_not a) = length a /\
  val (op_not a) = 2 ^ (32 * Z.of_nat (length a)) - 1 - val a.
Proof.
  induction 1 as [|w a Hw Ha (W & L & V)]; [done|]. unfold op_not in *. cbn [fmap list_fmap length].
  assert (not32 w = 2 ^ 32 - 1 - w) as E.
  { unfold not32. rewrite T32_mod. unfold Z.lnot, word in *. rewrite <- (Z.mod_add _ 1) by lia.
    rewrite Z.mod_small by lia. lia. }
  split_and!; [apply Forall_cons; split; [apply not32_word|done]|by rewrite L|].
  rewrite !val_cons, V, E, pow32_S. lia.
Qed.

Lemma op_neg_val a :
  words 32 a -> words 32 (op_neg a) /\ length (op_neg a) = length a /\
  val (op_neg a) = (- val a) mod 2 ^ (32 * Z.of_nat (length a)).
Proof.
  intros Ha. destruct (op_not_val a Ha) as (W & L & V). destruct (op_incr_val _ W) as (W' & L' & V').
  unfold op_neg. rewrite L', V', V, L. split_and!; try done.
  rewrite <- (Z.mod_add (- val a) 1) by (apply Z.pow_nonzero; lia). f_equal. lia.
Qed.

Lemma op_decr_val a :
  words 32 a -> words 32 (op_decr a) /\ length (op_decr a) = length a /\
  val (op_decr a) = (val a - 1) mod 2 ^ (32 * Z.of_nat (length a)).
Proof.
  induction 1 as [|w a Hw Ha IH]; [done|]. cbn [op_decr].
  destruct IH as (W & L & V). pose proof (val_bound a Ha) as Hv. rewrite T32_mod in *.
  split_and!.
  - apply Forall_cons. split; [apply Z.mod_pos_bound; lia|]. by case_match.
  - cbn [length]. by case_match; rewrite ?L.
  - rewrite !val_cons. cbn [length]. rewrite pow32_S. unfold word in *.
    destruct (Z.eq_dec w 0) as [->|Hne].
    + change ((0 - 1) mod 2 ^ 32) with 0xFFFFFFFF. cbn [Z.eqb Pos.eqb]. rewrite V.
      pose proof (mod_step (2 ^ 32) (2 ^ (32 * Z.of_nat (length a))) (-1) (val a) ltac:(lia)
        ltac:(apply Z.pow_pos_nonneg; lia)) as E.
      change ((-1) mod 2 ^ 32) with 0xFFFFFFFF in E. change ((-1) / 2 ^ 32) with (-1) in E.
      replace (val a - 1) with (-1 + val a) by lia. rewrite E. f_equal. lia.
    + rewrite (Z.mod_small (w - 1)) by lia. destruct (Z.eqb_spec (w - 1) 0xFFFFFFFF); [lia|].
      rewrite Z.mod_small; [lia|]. nia.
Qed.

Lemma mul32_loop_val b32 c a :
  word 32 b32 -> word 32 c -> words 32 a ->
  words 32 (mul32_loop b32 c a) /\ length (mul32_loop b32 c a) = length a /\
  val (mul32_loop b32 c a) = (c + b32 * val a) mod 2 ^ (32 * Z.of_nat (length a)).
Proof.
  intros Hb Hc Ha. revert c Hc. induction Ha as [|x a Hx Ha IH]; intros c Hc; cbn [mul32_loop].
  - split_and!; try done. cbn. by rewrite Z.mod_1_r.
  - unfold word in *. rewrite (T64_id (b32 * x)), T64_id by (unfold word; nia).
    destruct (IH ((c + b32 * x) >> 32)) as (W & L & V).
    { rewrite Z.shiftr_div_pow2 by lia. split; [apply Z.div_pos; nia|apply Z.div_lt_upper_bound; nia]. }
    split_and!; [apply Forall_cons; split; [apply word_low32|done]|by cbn [length]; rewrite L|].
    rewrite val_cons, V, carry_step, val_cons. cbn [length]. f_equal. lia.
Qed.

Lemma mul_row_val aj c p b :
  word 32 aj -> word 32 c -> words 32 p -> words 32 b -> (length p <= length b)%nat ->
  words 32 (mul_row aj c p b) /\ length (mul_row aj c p b) = length p /\
  val (mul_row aj c p b) = (c + val p + aj * val b) mod 2 ^ (32 * Z.of_nat (length p)).
Proof.
  intros Haj Hc Hp. revert c b Hc. induction Hp as [|x p Hx Hp IH]; intros c b Hc Hb Hl; cbn [mul_row].
  - split_and!; try done. cbn. by rewrite Z.mod_1_r.
  - destruct b as [|y b]; [simpl in Hl; lia|]. inversion_clear Hb as [|? ? Hy Hb']. unfold word in *.
    rewrite (T64_id (c + x)), (T64_id (aj * y)), T64_id by (unfold word; nia).
    destruct (IH ((c + x + aj * y) >> 32) b) as (W & L & V); [|done|simpl in Hl; lia|].
    { rewrite Z.shiftr_div_pow2 by lia. split; [apply Z.div_pos; nia|apply Z.div_lt_upper_bound; nia]. }
    split_and!; [apply Forall_cons; split; [apply word_low32|done]|by cbn [length]; rewrite L|].
    rewrite val_cons, V, <- (Z.add_assoc (_ >> 32)), carry_step, !val_cons. cbn [length]. f_equal. lia.
Qed.

Lemma val_split j a : (j <= length a)%nat -> val a = val (take j a) + 2 ^ (32 * Z.of_nat j) * val (drop j a).
Proof. intros Hj. rewrite <- (take_drop j a) at 1. rewrite val_app, length_take. by replace (j `min` length a)%nat with j by lia. Qed.

Lemma self_row_zero aj W j : self_row aj W j (replicate W 0) = replicate W 0.
Proof.
  unfold self_row. assert (forall l, fold_left (fun '(pn, carry) i =>
    let n := SPH_T64 (SPH_T64 (carry + pn.[i + j]) + SPH_T64 (aj * pn.[i])) in
    (<[(i + j)%nat := n .& 0xFFFFFFFF]> pn, n >> 32)) l (replicate W 0, 0) = (replicate W 0, 0)) as H; [|by rewrite H].
  assert (forall k, (replicate W 0).[k] = 0) as Hn.
  { intros k. rewrite nth_lookup. destruct (replicate W 0 !! k) as [x|] eqn:E; [|done]. by apply lookup_replicate in E as [-> _]. }
  induction l as [|i l IH]; [done|]. cbn [fold_left]. rewrite !Hn, Z.mul_0_r. change (SPH_T64 (SPH_T64 (0 + 0) + SPH_T64 0)) with 0. cbn [Z.land Z.shiftr Z.shiftl].
  rewrite insert_replicate. exact IH.
Qed.

(** Multiplying a number with itself in place gives zero. *)
Lemma op_mul_self_zero a : op_mul_self a = replicate (length a) 0.
Proof.
  unfold op_mul_self. generalize (seq 0 (length a)). intros l. generalize (length a) as W. intros W. revert l. induction l as [|j l IH]; [done|]. cbn [fold_left]. by rewrite self_row_zero.
Qed.

Lemma op_mul_val a b :
  words 32 a -> words 32 b -> length a = length b ->
  words 32 (op_mul a b) /\ length (op_mul a b) = length a /\
  val (op_mul a b) = (val a * val b) mod 2 ^ (32 * Z.of_nat (length a)).
Proof.
  intros Ha Hb Hl. unfold op_mul. set (W := length a).
  assert (forall n, (n <= W)%nat ->
    let p := fold_left (fun p j => take j p ++ mul_row a.[j] 0 (drop j p) b) (seq 0 n) (replicate W 0) in
    words 32 p /\ length p = W /\ val p = (val (take n a) * val b) mod 2 ^ (32 * Z.of_nat W)) as H.
  { induction n as [|n IH]; intros Hn.
    - cbn [seq fold_left]. split_and!; [apply words_replicate; unfold word; lia|apply length_replicate|].
      rewrite val_zeros. cbn. by rewrite Z.mod_0_l by (apply Z.pow_nonzero; lia).
    - cbv zeta in *. rewrite seq_S, fold_left_app. cbn [fold_left Nat.add].
      destruct (IH ltac:(lia)) as (Wp & Lp & Vp). set (p := fold_left _ (seq 0 n) _) in *. clearbody p.
      destruct (mul_row_val a.[n] 0 (drop n p) b) as (Wr & Lr & Vr);
        [apply words_nth; [lia|done]|unfold word; lia|by apply Forall_drop|done|rewrite length_drop; lia|].
      split_and!; [apply Forall_app; split; [by apply Forall_take|done]|rewrite length_app, Lr, length_take, length_drop; lia|].
      rewrite val_app, Vr, length_take, length_drop, Lp. replace (n `min` W)%nat with n by lia.
      assert (val (take (S n) a) = val (take n a) + 2 ^ (32 * Z.of_nat n) * a.[n]) as ->.
      { destruct (lookup_lt_is_Some_2 a n ltac:(lia)) as [x Hx]. rewrite (take_S_r _ _ _ Hx), val_app, length_take.
        replace (n `min` length a)%nat with n by lia. cbn [val foldr]. rewrite nth_lookup, Hx. cbn. lia. }
      set (B := 2 ^ (32 * Z.of_nat n)). assert (0 < B) by (apply Z.pow_pos_nonneg; lia).
      assert (2 ^ (32 * Z.of_nat W) = B * 2 ^ (32 * Z.of_nat (W - n))) as EW
        by (unfold B; rewrite <- Z.pow_add_r by lia; f_equal; lia).
      pose proof (val_bound (take n p) ltac:(by apply Forall_take)) as Hb'. rewrite length_take in Hb'.
      replace (n `min` length p)%nat with n in Hb' by lia. fold B in Hb'. unfold word in Hb'. fold B in Hb'.
      pose proof (mod_step B (2 ^ (32 * Z.of_nat (W - n))) (val (take n p)) (0 + val (drop n p) + a.[n] * val b)
        ltac:(lia) ltac:(apply Z.pow_pos_nonneg; lia)) as E.
      rewrite Z.mod_small, Z.div_small, Z.add_0_l in E by lia. rewrite E, <- EW.
      assert (val (take n p) + B * (0 + val (drop n p) + a.[n] * val b) = val p + B * a.[n] * val b) as ->
        by (rewrite (val_split n p) by lia; unfold B; lia).
      rewrite Vp, Zplus_mod_idemp_l. f_equal. lia. }
  destruct (H W (le_n _)) as (H1 & H2 & H3). split_and!; try done. cbv zeta in H3. by rewrite H3, take_ge by (unfold W; lia).
Qed.

(** *** Shifts *)

Section Shift.
Context (a : base_uint) (Ha : words 32 a) (shift : Z) (Hs : 0 <= shift).
Let W : nat := length a.
Let k : nat := Z.to_nat (shift / 32).
Let s : Z := shift mod 32.

Lemma shift_parts : shift = 32 * Z.of_nat k + s /\ 0 <= s < 32.
Proof.
  unfold k, s. assert (0 <= shift / 32) by (apply Z.div_pos; lia).
  pose proof (Z.div_mod shift 32). pose proof (Z.mod_pos_bound shift 32). lia.
Qed.

Definition shl_word (n m : nat) : Z :=
  (if (k <=? m)%nat && (m <? k + n)%nat then SPH_T32 (a.[m - k] << s) else 0) .|
  (if negb (s =? 0) && (k + 1 <=? m)%nat && (m <? k + 1 + n)%nat then a.[m - k - 1] >> (32 - s) else 0).
Definition shr_word (n m : nat) : Z :=
  (if (m + k <? n)%nat then a.[m + k] >> s else 0) .|
  (if negb (s =? 0) && (m + k + 1 <? n)%nat then SPH_T32 (a.[m + k + 1] << (32 - s)) else 0).

Ltac bool_cases :=
  repeat match goal with
  | |- context [Nat.ltb ?x ?y] => destruct (Nat.ltb_spec x y); try lia
  | |- context [Nat.leb ?x ?y] => destruct (Nat.leb_spec x y); try lia
  end; cbn [andb].

Lemma shl_loop n (pn := fold_left (fun pn i =>
    let pn := if (i + k + 1 <? W)%nat && negb (s =? 0)
              then <[(i + k + 1)%nat := pn.[i + k + 1] .| (a.[i] >> (32 - s))]> pn else pn in
    if (i + k <? W)%nat then <[(i + k)%nat := pn.[i + k] .| SPH_T32 (a.[i] << s)]> pn else pn)
    (seq 0 n) (replicate W 0)) :
  length pn = W /\ forall m, (m < W)%nat -> pn.[m] = shl_word n m.
Proof.
  subst pn. induction n as [|n [IHl IH]].
  - cbn [seq fold_left]. split; [apply length_replicate|]. intros m Hm. rewrite nth_lookup, lookup_replicate_2 by done.
    unfold shl_word. bool_cases; by rewrite ?andb_false_r.
  - rewrite seq_S, fold_left_app. cbn [fold_left Nat.add]. set (pn := fold_left _ (seq 0 n) _) in *. clearbody pn.
    set (pn1 := if _ && _ then _ else pn).
    assert (length pn1 = W /\ forall m, (m < W)%nat -> pn1.[m] =
      pn.[m] .| (if negb (s =? 0) && (m =? n + k + 1)%nat then a.[n] >> (32 - s) else 0)) as [L1 H1].
    { unfold pn1. destruct (Nat.ltb_spec (n + k + 1) W), (Z.eqb_spec s 0); cbn [andb negb].
      1,3,4: split; [done|]; intros m Hm; destruct (Nat.eqb_spec m (n + k + 1)); try lia; by rewrite ?Z.lor_0_r.
      rewrite length_insert. split; [done|]. intros m Hm. rewrite nth_insert by lia.
      case_decide; subst; [by rewrite Nat.eqb_refl|]. destruct (Nat.eqb_spec m (n + k + 1)); [lia|by rewrite Z.lor_0_r]. }
    clearbody pn1. split; [case_match; rewrite ?length_insert; done|]. intros m Hm.
    assert ((if (n + k <? W)%nat then <[(n + k)%nat := pn1.[n + k] .| SPH_T32 (a.[n] << s)]> pn1 else pn1).[m] =
      pn1.[m] .| (if (m =? n + k)%nat then SPH_T32 (a.[n] << s) else 0)) as ->.
    { destruct (Nat.ltb_spec (n + k) W).
      - rewrite nth_insert by lia. case_decide; subst; [by rewrite Nat.eqb_refl|].
        destruct (Nat.eqb_spec m (n + k)); [lia|by rewrite Z.lor_0_r].
      - destruct (Nat.eqb_spec m (n + k)); [lia|by rewrite Z.lor_0_r]. }
    rewrite H1, IH by done. unfold shl_word.
    destruct (Nat.eqb_spec m (n + k + 1)) as [E1|E1], (Nat.eqb_spec m (n + k)) as [E2|E2]; try lia;
      destruct (Z.eqb_spec s 0); cbn [negb andb]; bool_cases; rewrite ?Z.lor_0_r, ?Z.lor_0_l; try done;
      subst m; rewrite ?Nat.add_sub; try (f_equal; f_equal; f_equal; lia); apply Z.lor_comm.
Qed.

Lemma shr_loop n (pn := fold_left (fun pn i =>
    let pn := if (k + 1 <=? i)%nat && negb (s =? 0)
              then <[(i - k - 1)%nat := pn.[i - k - 1] .| SPH_T32 (a.[i] << (32 - s))]> pn else pn in
    if (k <=? i)%nat then <[(i - k)%nat := pn.[i - k] .| (a.[i] >> s)]> pn else pn)
    (seq 0 n) (replicate W 0)) :
  (n <= W)%nat -> length pn = W /\ forall m, (m < W)%nat -> pn.[m] = shr_word n m.
Proof.
  subst pn. induction n as [|n IH]; intros Hn.
  - cbn [seq fold_left]. split; [apply length_replicate|]. intros m Hm. rewrite nth_lookup, lookup_replicate_2 by done.
    unfold shr_word. bool_cases. by rewrite andb_false_r.
  - destruct (IH ltac:(lia)) as [IHl IH']. clear IH. rename IH' into IH.
    rewrite seq_S, fold_left_app. cbn [fold_left Nat.add]. set (pn := fold_left _ (seq 0 n) _) in *. clearbody pn.
    set (pn1 := if _ && _ then _ else pn).
    assert (length pn1 = W /\ forall m, (m < W)%nat -> pn1.[m] =
      pn.[m] .| (if negb (s =? 0) && (m + k + 1 =? n)%nat then SPH_T32 (a.[n] << (32 - s)) else 0)) as [L1 H1].
    { unfold pn1. destruct (Nat.leb_spec (k + 1) n), (Z.eqb_spec s 0); cbn [andb negb].
      1,3,4: split; [done|]; intros m Hm; destruct (Nat.eqb_spec (m + k + 1) n); try lia; by rewrite ?Z.lor_0_r.
      rewrite length_insert. split; [done|]. intros m Hm. rewrite nth_insert by lia.
      case_decide; destruct (Nat.eqb_spec (m + k + 1) n); try lia; [by subst m|by rewrite Z.lor_0_r]. }
    clearbody pn1. split; [case_match; rewrite ?length_insert; done|]. intros m Hm.
    assert ((if (k <=? n)%nat then <[(n - k)%nat := pn1.[n - k] .| (a.[n] >> s)]> pn1 else pn1).[m] =
      pn1.[m] .| (if (m + k =? n)%nat then a.[n] >> s else 0)) as ->.
    { destruct (Nat.leb_spec k n).
      - rewrite nth_insert by lia. case_decide; destruct (Nat.eqb_spec (m + k) n); try lia; [by subst m|by rewrite Z.lor_0_r].
      - destruct (Nat.eqb_spec (m + k) n); [lia|by rewrite Z.lor_0_r]. }
    rewrite H1, IH by done. unfold shr_word.
    destruct (Nat.eqb_spec (m + k + 1) n) as [E1|E1], (Nat.eqb_spec (m + k) n) as [E2|E2]; try lia;
      destruct (Z.eqb_spec s 0); cbn [negb andb]; bool_cases; rewrite ?Z.lor_0_r, ?Z.lor_0_l; try subst n; done.
Qed.

Lemma op_shl_words : length (op_shl a shift) = W /\ forall m, (m < W)%nat -> (op_shl a shift).[m] = shl_word W m.
Proof. exact (shl_loop W). Qed.
Lemma op_shr_words : length (op_shr a shift) = W /\ forall m, (m < W)%nat -> (op_shr a shift).[m] = shr_word W m.
Proof. exact (shr_loop W (le_n _)). Qed.

(** A list is words when its elements are. *)
Lemma words_of_nth (l : list Z) n : length l = n -> (forall m, (m < n)%nat -> word 32 l.[m]) -> words 32 l.
Proof.
  intros Hl H. apply Forall_lookup_2. intros i x Hx. specialize (H i).
  rewrite nth_lookup, Hx in H. apply H. apply lookup_lt_Some in Hx. lia.
Qed.

Lemma op_shl_val :
  words 32 (op_shl a shift) /\ length (op_shl a shift) = W /\
  val (op_shl a shift) = (val a * 2 ^ shift) mod 2 ^ (32 * Z.of_nat W).
Proof.
  destruct op_shl_words as [L H]. destruct shift_parts as [E Hr].
  assert (forall i, word 32 a.[i]) as Hai by (intros; apply words_nth; [lia|done]).
  assert (words 32 (op_shl a shift)) as Hw.
  { apply (words_of_nth _ W L). intros m Hm. rewrite H by done. unfold shl_word. apply word_lor.
    - case_match; [apply T32_word|unfold word; lia].
    - case_match; [apply word_shiftr; [lia|done]|unfold word; lia]. }
  split_and!; try done. apply (val_of_bits _ _ W); try done; [apply Z.mod_pos_bound, Z.pow_pos_nonneg; lia|].
  intros m j Hm Hj. rewrite H, Z.mod_pow2_bits_low, <- Z.shiftl_mul_pow2, Z.shiftl_spec by lia.
  unfold shl_word. rewrite Z.lor_spec. destruct (Z.lt_ge_cases j s) as [Hjs|Hjs].
  - assert (Z.testbit (if (k <=? m)%nat && (m <? k + W)%nat then SPH_T32 (a.[m - k] << s) else 0) j = false) as ->.
    { case_match; [|apply Z.bits_0]. by rewrite T32_bit, Z.shiftl_spec_low by lia. }
    cbn [orb]. destruct (Z.eqb_spec s 0); [lia|]. cbn [negb andb]. bool_cases.
    + rewrite Z.shiftr_spec by lia. rewrite <- val_bit by (done || lia). f_equal. lia.
    + rewrite Z.bits_0, Z.testbit_neg_r by lia. done.
  - assert (Z.testbit (if negb (s =? 0) && (k + 1 <=? m)%nat && (m <? k + 1 + W)%nat then a.[m - k - 1] >> (32 - s) else 0) j = false) as ->.
    { case_match; [|apply Z.bits_0]. rewrite Z.shiftr_spec by lia. apply (word_bit_high 32); [done|lia]. }
    rewrite orb_false_r. bool_cases.
    + rewrite T32_bit, Z.shiftl_spec by lia. rewrite <- val_bit by (done || lia). f_equal. lia.
    + rewrite Z.bits_0, Z.testbit_neg_r by lia. done.
Qed.

Lemma op_shr_val :
  words 32 (op_shr a shift) /\ length (op_shr a shift) = W /\ val (op_shr a shift) = val a / 2 ^ shift.
Proof.
  destruct op_shr_words as [L H]. destruct shift_parts as [E Hr]. pose proof (val_bound a Ha) as Hv. fold W in Hv.
  assert (forall i, word 32 a.[i]) as Hai by (intros; apply words_nth; [lia|done]).
  assert (words 32 (op_shr a shift)) as Hw.
  { apply (words_of_nth _ W L). intros m Hm. rewrite H by done. unfold shr_word. apply word_lor.
    - case_match; [apply word_shiftr; [lia|done]|unfold word; lia].
    - case_match; [apply T32_word|unfold word; lia]. }
  split_and!; try done. rewrite <- Z.shiftr_div_pow2 by lia.
  apply (val_of_bits _ _ W); try done; [apply word_shiftr; [lia|done]|].
  intros m j Hm Hj. rewrite H, Z.shiftr_spec by lia. unfold shr_word. rewrite Z.lor_spec.
  destruct (Z.lt_ge_cases (j + s) 32) as [Hjs|Hjs].
  - assert (Z.testbit (if negb (s =? 0) && (m + k + 1 <? W)%nat then SPH_T32 (a.[m + k + 1] << (32 - s)) else 0) j = false) as ->.
    { case_match; [|apply Z.bits_0]. by rewrite T32_bit, Z.shiftl_spec_low by lia. }
    rewrite orb_false_r. replace (32 * Z.of_nat m + j + shift) with (32 * Z.of_nat (m + k) + (j + s)) by lia.
    rewrite val_bit by (done || lia). bool_cases; [by rewrite Z.shiftr_spec by lia|].
    by rewrite nth_overflow, !Z.bits_0 by (fold W; lia).
  - assert (Z.testbit (if (m + k <? W)%nat then a.[m + k] >> s else 0) j = false) as ->.
    { case_match; [|apply Z.bits_0]. rewrite Z.shiftr_spec by lia. apply (word_bit_high 32); [done|lia]. }
    cbn [orb]. destruct (Z.eqb_spec s 0); [lia|]. cbn [negb andb].
    replace (32 * Z.of_nat m + j + shift) with (32 * Z.of_nat (m + k + 1) + (j + s - 32)) by lia.
    rewrite val_bit by (done || lia). bool_cases.
    + rewrite T32_bit, Z.shiftl_spec by lia. f_equal. lia.
    + by rewrite nth_overflow, !Z.bits_0 by (fold W; lia).
Qed.
End Shift.

(** *** Comparison *)

Lemma val_snoc a x : val (a ++ [x]) = val a + 2 ^ (32 * Z.of_nat (length a)) * x.
Proof. rewrite val_app, val_cons. change (val []) with 0. lia. Qed.

Lemma compare_val a b :
  words 32 a -> words 32 b -> length a = length b ->
  CompareTo a b = if val a <? val b then -1 else if val b <? val a then 1 else 0.
Proof.
  unfold CompareTo. intros Ha. revert b. induction a as [|x a IH] using rev_ind; intros b Hb Hl.
  - by destruct b.
  - destruct b as [|y b _] using rev_ind; [by rewrite length_app, Nat.add_comm in Hl|].
    rewrite !length_app, !Nat.add_1_r in Hl. injection Hl as Hl.
    apply Forall_app in Ha as [Ha Hx]. apply Forall_app in Hb as [Hb Hy].
    inversion_clear Hx as [|? ? Hx' _]. inversion_clear Hy as [|? ? Hy' _].
    rewrite !rev_unit. cbn [compare_from_top]. rewrite !val_snoc, <- Hl.
    pose proof (val_bound a Ha) as Va. pose proof (val_bound b Hb) as Vb. rewrite <- Hl in Vb. unfold word in *.
    set (B := 2 ^ (32 * Z.of_nat (length a))) in *.
    destruct (Z.ltb_spec x y); [destruct (Z.ltb_spec (val a + B * x) (val b + B * y)); [done|nia]|].
    destruct (Z.ltb_spec y x).
    + destruct (Z.ltb_spec (val a + B * x) (val b + B * y)); [nia|].
      destruct (Z.ltb_spec (val b + B * y) (val a + B * x)); [done|nia].
    + assert (x = y) as -> by lia. rewrite (IH Ha b Hb Hl).
      destruct (Z.ltb_spec (val a) (val b)), (Z.ltb_spec (val a + B * y) (val b + B * y)); try lia;
      destruct (Z.ltb_spec (val b) (val a)), (Z.ltb_spec (val b + B * y) (val a + B * y)); lia.
Qed.

(** *** Number of bits *)

Lemma land_pow2 w n : 0 <= n -> (w .& (1 << n) =? 0) = negb (Z.testbit w n).
Proof.
  intros Hn. assert (w .& (1 << n) = if Z.testbit w n then 1 << n else 0) as ->.
  { apply Z.bits_inj'. intros i Hi. rewrite Z.land_spec, Z.shiftl_1_l, Z.pow2_bits_eqb by done.
    destruct (Z.eqb_spec n i) as [->|Hne].
    - destruct (Z.testbit w i); cbn [andb]; [by rewrite Z.pow2_bits_true by done|by rewrite Z.bits_0].
    - rewrite andb_false_r. destruct (Z.testbit w n); [by rewrite Z.pow2_bits_false by lia|by rewrite Z.bits_0]. }
  destruct (Z.testbit w n); [|done]. rewrite Z.shiftl_1_l. apply Z.eqb_neq. pose proof (Z.pow_pos_nonneg 2 n). lia.
Qed.

Lemma word_bits_val w n : 0 < w < 2 ^ (Z.of_nat n + 1) -> (n <= 31)%nat -> word_bits w n = Z.log2 w + 1.
Proof.
  induction n as [|n IH]; intros Hw Hn.
  - assert (w = 1) as -> by (change (2 ^ (Z.of_nat 0 + 1)) with 2 in Hw; lia). done.
  - cbn [word_bits]. rewrite T32_id, land_pow2, negb_involutive;
      [|lia|rewrite Z.shiftl_1_l; split; [apply Z.pow_nonneg; lia|apply Z.pow_lt_mono_r; lia]].
    set (m := Z.of_nat (S n)) in *. destruct (Z.testbit w m) eqn:Eb.
    + f_equal. symmetry. apply Z.log2_unique; [lia|]. split; [|replace (Z.succ m) with (m + 1) by lia; lia].
      apply Z.nlt_ge. intros Hlt. rewrite (word_bit_high m w m) in Eb; [done|split; lia|lia].
    + apply IH; [|lia]. split; [lia|]. replace (Z.of_nat n + 1) with m by lia.
      apply Z.nle_gt. intros Hge. assert (Z.log2 w = m) as El.
      { apply Z.log2_unique; [lia|]. replace (Z.succ m) with (m + 1) by lia. lia. }
      rewrite <- El, Z.bit_log2 in Eb by lia. done.
Qed.

(** [bits] is the position of the highest bit plus one, and 0 for 0. *)
Lemma bits_val a : words 32 a -> bits a = if val a =? 0 then 0 else Z.log2 (val a) + 1.
Proof.
  unfold bits. induction a as [|x a IH] using rev_ind; intros Ha; [done|].
  apply Forall_app in Ha as [Ha Hx]. inversion_clear Hx as [|? ? Hx' _].
  rewrite rev_unit. cbn [bits_from_top]. rewrite length_rev, val_snoc.
  pose proof (val_bound a Ha) as Va. unfold word in *. set (B := 2 ^ (32 * Z.of_nat (length a))) in *.
  destruct (Z.eqb_spec x 0) as [->|Hne]; cbn [negb].
  - rewrite (IH Ha). by rewrite Z.mul_0_r, Z.add_0_r.
  - destruct (Z.eqb_spec (val a + B * x) 0); [nia|]. rewrite word_bits_val by (change (Z.of_nat 31 + 1) with 32; lia).
    assert (Z.log2 (val a + B * x) = 32 * Z.of_nat (length a) + Z.log2 x) as ->; [|lia].
    pose proof (Z.log2_spec x ltac:(lia)) as Hlog. pose proof (Z.log2_nonneg x).
    apply Z.log2_unique; [lia|]. rewrite <- Z.add_succ_r, !Z.pow_add_r by lia. fold B. nia.
Qed.

(** *** Division *)

(** Setting a bit that is not set adds its value. *)
Lemma set_bit_val q n :
  words 32 q -> (n < 32 * length q)%nat -> Z.testbit (val q) (Z.of_nat n) = false ->
  let q' := <[(n / 32)%nat := q.[n / 32] .| SPH_T32 (1 << Z.of_nat (n mod 32))]> q in
  words 32 q' /\ length q' = length q /\ val q' = val q + 2 ^ Z.of_nat n.
Proof.
  intros Hq Hn Hb q'. set (m := (n / 32)%nat) in *. set (j := (n mod 32)%nat) in *.
  pose proof (Nat.div_mod_eq n 32) as E. fold m j in E.
  pose proof (Nat.mod_upper_bound n 32 ltac:(lia)) as Hj. fold j in Hj.
  assert (m < length q)%nat as Hm by (apply Nat.Div0.div_lt_upper_bound; lia).
  assert (length q' = length q) as Hl by apply length_insert.
  assert (words 32 q') as Hw.
  { apply Forall_insert; [done|]. apply word_lor; [apply words_nth; [lia|done]|apply T32_word]. }
  split_and!; try done.
  rewrite Z.add_nocarry_lxor, Z.lxor_lor.
  2,3: apply Z.bits_inj'; intros i Hi; rewrite Z.land_spec, Z.bits_0, Z.pow2_bits_eqb by lia;
    destruct (Z.eqb_spec (Z.of_nat n) i) as [<-|]; [by rewrite Hb|by rewrite andb_false_r].
  pose proof (val_bound q Hq) as Vq.
  apply (val_of_bits _ _ (length q)); try done.
  { apply word_lor; [done|]. split; [apply Z.pow_nonneg; lia|apply Z.pow_lt_mono_r; lia]. }
  intros i b Hi Hb'. rewrite Z.lor_spec, val_bit, Z.pow2_bits_eqb by (done || lia). unfold q'. rewrite nth_insert by done.
  case_decide as Hd.
  - subst i. rewrite Z.lor_spec, T32_bit, Z.shiftl_1_l, Z.pow2_bits_eqb by lia. f_equal.
    destruct (Z.eqb_spec (Z.of_nat j) b), (Z.eqb_spec (Z.of_nat n) (32 * Z.of_nat m + b)); (done || lia).
  - destruct (Z.eqb_spec (Z.of_nat n) (32 * Z.of_nat i + b)); [lia|by rewrite orb_false_r].
Qed.

Lemma op_sub_val a b :
  words 32 a -> words 32 b -> length a = length b ->
  words 32 (op_sub a b) /\ length (op_sub a b) = length a /\
  val (op_sub a b) = (val a - val b) mod 2 ^ (32 * Z.of_nat (length a)).
Proof.
  intros Ha Hb Hl. destruct (op_neg_val b Hb) as (W & L & V).
  destruct (add_loop_val 0 a (op_neg b) Ha W ltac:(lia) ltac:(lia)) as (W' & L' & V').
  unfold op_sub, op_add. split_and!; try done. by rewrite V', V, Hl, Zplus_mod_idemp_r.
Qed.

Section Division.
Context (W : nat) (D N : Z) (HD : 0 < D).

(** The loop invariant: what is left of the numerator, the shifted divisor and
    the bits of the quotient found so far. *)
Definition div_inv (n : nat) (num div quot : base_uint) : Prop :=
  (words 32 num /\ length num = W) /\ (words 32 div /\ length div = W) /\ (words 32 quot /\ length quot = W) /\
  N = val quot * D + val num /\ val num < D * 2 ^ Z.of_nat n /\
  val quot mod 2 ^ Z.of_nat n = 0 /\ (n <= 32 * W)%nat /\
  match n with O => True | S s => val div = D * 2 ^ Z.of_nat s end.

Lemma div_loop_val n num div quot :
  div_inv n num div quot ->
  words 32 (div_loop n num div quot) /\ length (div_loop n num div quot) = W /\
  val (div_loop n num div quot) = N / D.
Proof.
  revert num div quot. induction n as [|s IH]; intros num div quot
    ((Wn & Ln) & (Wd & Ld) & (Wq & Lq) & HN & Hlt & Hmod & Hn & Hdiv); cbn [div_loop].
  - split_and!; try done. apply (Z.div_unique_pos _ _ _ (val num)); [|lia].
    pose proof (val_bound num Wn) as []. change (2 ^ Z.of_nat 0) with 1 in Hlt. lia.
  - pose proof (val_bound num Wn) as Vn. pose proof (val_bound div Wd) as Vd.
    rewrite Ln in Vn. rewrite Ld in Vd.
    assert (2 ^ Z.of_nat (S s) = 2 * 2 ^ Z.of_nat s) as E2 by (rewrite Nat2Z.inj_succ; apply Z.pow_succ_r; lia).
    assert (0 < 2 ^ Z.of_nat s) as Hp by (apply Z.pow_pos_nonneg; lia).
    destruct (op_shr_val div Wd 1 ltac:(lia)) as (Wd' & Ld' & Vd').
    assert (match s with O => True | S s' => val (op_shr div 1) = D * 2 ^ Z.of_nat s' end) as Hdiv'.
    { destruct s as [|s']; [done|]. rewrite Vd', Hdiv. symmetry. apply (Z.div_unique_pos _ _ _ 0); [lia|].
      rewrite (Nat2Z.inj_succ s'), Z.pow_succ_r by lia. lia. }
    rewrite E2 in Hmod.
    assert (val quot mod 2 ^ Z.of_nat s = 0) as Hmod'.
    { apply Z.mod_divide in Hmod; [|lia]. apply Z.mod_divide; [lia|].
      destruct Hmod as [c ->]. exists (2 * c). lia. }
    rewrite compare_val by (done || lia).
    destruct (Z.ltb_spec (val num) (val div)) as [Hc|Hc].
    + change (0 <=? -1) with false. apply IH. unfold div_inv. split_and!; (done || lia).
    + assert ((0 <=? (if val div <? val num then 1 else 0)) = true) as -> by (by destruct (val div <? val num)).
      destruct (op_sub_val num div Wn Wd ltac:(lia)) as (Ws & Ls & Vs).
      rewrite Ln, Z.mod_small in Vs by (unfold word in *; lia).
      destruct (set_bit_val quot s Wq ltac:(lia)) as (Wq' & Lq' & Vq').
      { apply Z.mod_divide in Hmod; [|lia]. destruct Hmod as [c ->]. rewrite Z.mul_assoc, Z.mul_pow2_bits by lia.
        rewrite Z.sub_diag, Z.bit0_odd, Z.odd_mul. apply andb_false_r. }
      apply IH. unfold div_inv. rewrite Vs, Vq'. split_and!; try (done || lia).
      rewrite <- Zplus_mod_idemp_l, Hmod', Z.add_0_l. apply Z.mod_same. lia.
Qed.
End Division.

Lemma op_div_val a b :
  words 32 a -> words 32 b -> length a = length b -> val b <> 0 ->
  exists q, op_div a b = Some q /\ words 32 q /\ length q = length a /\ val q = val a / val b.
Proof.
  intros Ha Hb Hl Hne. set (N := val a) in *. set (D := val b) in *. set (W := length a).
  pose proof (val_bound a Ha) as VN. pose proof (val_bound b Hb) as VD. fold N in VN. fold D in VD. rewrite <- Hl in VD.
  fold W in VN, VD. unfold word in VN, VD. unfold op_div. rewrite !bits_val by done. fold N D W.
  destruct (Z.eqb_spec D 0); [lia|]. pose proof (Z.log2_spec D ltac:(lia)) as LD. pose proof (Z.log2_nonneg D).
  destruct (Z.eqb_spec (Z.log2 D + 1) 0); [lia|].
  assert (words 32 (replicate W 0)) as Wz by (apply words_replicate; unfold word; lia).
  set (nb := if N =? 0 then 0 else Z.log2 N + 1).
  assert (0 <= nb /\ N < 2 ^ nb /\ nb <= 32 * Z.of_nat W) as (Hnb0 & Hnb & HnbW).
  { unfold nb. destruct (Z.eqb_spec N 0) as [->|]; [lia|]. pose proof (Z.log2_spec N ltac:(lia)). pose proof (Z.log2_nonneg N).
    rewrite Z.add_1_r. split_and!; [lia|lia|]. apply Z.le_succ_l, Z.log2_lt_pow2; lia. }
  destruct (Z.ltb_spec nb (Z.log2 D + 1)) as [Hlt|Hge].
  - exists (replicate W 0). split_and!; try done; [apply length_replicate|]. rewrite val_zeros. symmetry. apply Z.div_small.
    split; [lia|]. apply Z.lt_le_trans with (2 ^ nb); [done|]. apply Z.le_trans with (2 ^ Z.log2 D); [|lia].
    apply Z.pow_le_mono_r; lia.
  - set (shift := nb - (Z.log2 D + 1)). eexists. split; [done|].
    destruct (op_shl_val b Hb shift ltac:(lia)) as (Ws & Ls & Vs). fold D in Vs. rewrite <- Hl in Ls, Vs. fold W in Ls, Vs.
    assert (D * 2 ^ shift < 2 ^ nb) as Hsh.
    { replace nb with (Z.succ (Z.log2 D) + shift) by lia. rewrite Z.pow_add_r by lia.
      apply Z.mul_lt_mono_pos_r; [apply Z.pow_pos_nonneg; lia|lia]. }
    assert (2 ^ nb <= 2 ^ (32 * Z.of_nat W)) by (apply Z.pow_le_mono_r; lia).
    rewrite Z.mod_small in Vs by (split; [apply Z.mul_nonneg_nonneg; [lia|apply Z.pow_nonneg; lia]|lia]).
    apply (div_loop_val W D N ltac:(lia)). unfold div_inv. rewrite val_zeros.
    rewrite length_replicate. fold N. split_and!; try done; try lia.
    + rewrite Nat2Z.inj_succ, Z2Nat.id by lia. apply Z.lt_le_trans with (2 ^ nb); [done|].
      replace nb with (Z.log2 D + Z.succ shift) by lia. rewrite Z.pow_add_r by lia.
      apply Z.mul_le_mono_nonneg_r; [apply Z.pow_nonneg; lia|lia].
    + by rewrite Z2Nat.id by lia.
Qed.

Lemma op_div_zero a b : words 32 b -> val b = 0 -> op_div a b = None.
Proof. intros Hb E. unfold op_div. rewrite (bits_val b) by done. by rewrite E. Qed.

(** *** Small numbers *)

Lemma of_u64_val W b :
  (2 <= W)%nat -> word 64 b -> wf_arr 32 W (base_uint_of_u64 W b) /\ val (base_uint_of_u64 W b) = b.
Proof.
  intros HW Hb. unfold base_uint_of_u64. split; [split|].
  - cbn [app length]. rewrite length_replicate. lia.
  - repeat (apply Forall_cons; split; [apply T32_word|]). apply words_replicate. unfold word. lia.
  - cbn [app]. rewrite !val_cons, val_zeros, !T32_mod, Z.shiftr_div_pow2 by lia.
    rewrite (Z.mod_small (b / 2 ^ 32)).
    + pose proof (Z.div_mod b (2 ^ 32)). lia.
    + unfold word in Hb. split; [apply Z.div_pos; lia|apply Z.div_lt_upper_bound; lia].
Qed.

Lemma GetLow64_val a : words 32 a -> (2 <= length a)%nat -> GetLow64 a = val a mod 2 ^ 64.
Proof.
  intros Ha Hl. destruct a as [|x [|y a]]; try (simpl in Hl; lia).
  inversion_clear Ha as [|? ? Hx Ha']. inversion_clear Ha' as [|? ? Hy Ha]. unfold GetLow64. cbn [nth].
  rewrite !val_cons. pose proof (val_bound a Ha) as Va. unfold word in *.
  replace (x + 2 ^ 32 * (y + 2 ^ 32 * val a)) with ((x + 2 ^ 32 * y) + val a * 2 ^ 64) by lia.
  rewrite Z.mod_add, Z.mod_small by lia.
  pose proof (val_bound [x; y]) as Vb. rewrite <- Z.lxor_lor, <- Z.add_nocarry_lxor, Z.shiftl_mul_pow2 by
    (lia || (apply Z.bits_inj'; intros i Hi; rewrite Z.land_spec, Z.bits_0;
       destruct (Z.lt_ge_cases i 32); [rewrite Z.shiftl_spec_low, andb_false_r by lia|rewrite (word_bit_high 32 x) by (done || lia)]; done)).
  lia.
Qed.

Lemma EqualTo_val a b :
  words 32 a -> (2 <= length a)%nat -> word 64 b -> EqualTo a b = (val a =? b).
Proof.
  intros Ha Hl Hb. destruct a as [|x [|y a]]; try (simpl in Hl; lia).
  inversion_clear Ha as [|? ? Hx Ha']. inversion_clear Ha' as [|? ? Hy Ha]. unfold EqualTo. cbn [nth]. change (drop 2 (x :: y :: a)) with a.
  rewrite !val_cons, low32, Z.shiftr_div_pow2 by lia.
  assert (forallb (fun w => w =? 0) a = (val a =? 0)) as ->.
  { clear Hl. induction Ha as [|w a Hw Ha IH]; [done|]. cbn [forallb]. rewrite IH, val_cons.
    pose proof (val_bound a Ha) as Va. unfold word in *.
    destruct (Z.eqb_spec w 0), (Z.eqb_spec (val a) 0), (Z.eqb_spec (w + 2 ^ 32 * val a) 0); cbn [andb]; (done || nia). }
  pose proof (val_bound a Ha) as Va. unfold word in *. pose proof (Z.div_mod b (2 ^ 32)).
  pose proof (Z.mod_pos_bound b (2 ^ 32)).
  destruct (Z.eqb_spec (val a) 0), (Z.eqb_spec y (b / 2 ^ 32)), (Z.eqb_spec x (b mod 2 ^ 32)),
    (Z.eqb_spec (x + 2 ^ 32 * (y + 2 ^ 32 * val a)) b); cbn [andb]; try (done || nia).
Qed.

(** *** Conversions *)

Lemma UintToArith_words W b : words 8 b -> wf_arr 32 W (UintToArith W b).
Proof.
  intros Hb. split; [unfold UintToArith; by rewrite length_fmap, length_seq|].
  apply Forall_fmap, Forall_true. intros x. by apply sph_dec32le_word, Forall_drop.
Qed.

Lemma UintToArith_ArithToUint a : words 32 a -> UintToArith (length a) (ArithToUint a) = a.
Proof.
  unfold UintToArith, ArithToUint. induction 1 as [|x a Hx Ha IH]; [done|].
  cbn [length seq fmap list_fmap concat]. f_equal.
  - by apply (sph_dec_enc32le x).
  - rewrite <- fmap_S_seq, <- list_fmap_compose. rewrite <- IH at 2. apply list_fmap_ext. intros ? i _.
    cbn [compose]. f_equal. replace (4 * S i)%nat with (4 + 4 * i)%nat by lia. rewrite <- drop_drop. done.
Qed.

(** ** The 256-bit instance *)

Definition arith_uint256_of (b : Z) : base_uint := base_uint_of_u64 8 b.

Lemma u256_of b : word 64 b -> wf_arr 32 8 (arith_uint256_of b) /\ val (arith_uint256_of b) = b.
Proof. apply of_u64_val. lia. Qed.

Lemma u256_bound a : wf_arr 32 8 a -> 0 <= val a < 2 ^ 256.
Proof. intros [L W]. pose proof (val_bound a W) as H. rewrite L in H. exact H. Qed.

Lemma u256_add a b : wf_arr 32 8 a -> wf_arr 32 8 b -> wf_arr 32 8 (op_add a b) /\ val (op_add a b) = (val a + val b) mod 2 ^ 256.
Proof.
  intros [La Wa] [Lb Wb]. destruct (add_loop_val 0 a b Wa Wb ltac:(lia) ltac:(lia)) as (W & L & E). rewrite La in *.
  rewrite Z.add_0_l in E. split; [by split|exact E].
Qed.

Lemma u256_sub a b : wf_arr 32 8 a -> wf_arr 32 8 b -> wf_arr 32 8 (op_sub a b) /\ val (op_sub a b) = (val a - val b) mod 2 ^ 256.
Proof.
  intros [La Wa] [Lb Wb]. destruct (op_sub_val a b Wa Wb ltac:(lia)) as (W & L & E). rewrite La in *. split; [by split|exact E].
Qed.

Lemma u256_mul a b : wf_arr 32 8 a -> wf_arr 32 8 b -> wf_arr 32 8 (op_mul a b) /\ val (op_mul a b) = (val a * val b) mod 2 ^ 256.
Proof.
  intros [La Wa] [Lb Wb]. destruct (op_mul_val a b Wa Wb ltac:(lia)) as (W & L & E). rewrite La in *. split; [by split|exact E].
Qed.

Lemma u256_mul32 a b : wf_arr 32 8 a -> word 32 b -> wf_arr 32 8 (op_mul32 a b) /\ val (op_mul32 a b) = (val a * b) mod 2 ^ 256.
Proof.
  intros [La Wa] Hb. destruct (mul32_loop_val b 0 a Hb ltac:(unfold word; lia) Wa) as (W & L & E). rewrite La in *.
  rewrite Z.add_0_l, Z.mul_comm in E. split; [by split|exact E].
Qed.

Lemma u256_not a : wf_arr 32 8 a -> wf_arr 32 8 (op_not a) /\ val (op_not a) = 2 ^ 256 - 1 - val a.
Proof. intros [La Wa]. destruct (op_not_val a Wa) as (W & L & E). rewrite La in *. split; [by split|exact E]. Qed.

Lemma u256_div a b :
  wf_arr 32 8 a -> wf_arr 32 8 b -> val b <> 0 -> exists q, op_div a b = Some q /\ wf_arr 32 8 q /\ val q = val a / val b.
Proof.
  intros [La Wa] [Lb Wb] Hb. destruct (op_div_val a b Wa Wb ltac:(lia) Hb) as (q & E & W & L & V). exists q. rewrite La in *. done.
Qed.

Lemma u256_cmp a b :
  wf_arr 32 8 a -> wf_arr 32 8 b -> CompareTo a b = if val a <? val b then -1 else if val b <? val a then 1 else 0.
Proof. intros [La Wa] [Lb Wb]. apply compare_val; (done || lia). Qed.

Lemma u256_eq a b : wf_arr 32 8 a -> word 64 b -> EqualTo a b = (val a =? b).
Proof. intros [La Wa] Hb. apply EqualTo_val; (done || lia). Qed.

(** ** Main results *)

(** C33. The operators of [base_uint] at any width: each is the operation on numbers
    modulo [2^BITS], its result is again an array of [WIDTH] words, the
    comparison is that of the numbers, [bits] the position of the highest bit,
    and the byte conversion can be undone. *)
Theorem arith_operators W a b shift b32 :
  (2 <= W)%nat -> wf_arr 32 W a -> wf_arr 32 W b -> 0 <= shift -> word 32 b32 ->
  let M := 2 ^ (32 * Z.of_nat W) in
  (wf_arr 32 W (op_add a b) /\ val (op_add a b) = (val a + val b) mod M) /\
  (wf_arr 32 W (op_sub a b) /\ val (op_sub a b) = (val a - val b) mod M) /\
  (wf_arr 32 W (op_mul a b) /\ val (op_mul a b) = (val a * val b) mod M) /\
  (wf_arr 32 W (op_mul32 a b32) /\ val (op_mul32 a b32) = (val a * b32) mod M) /\
  (wf_arr 32 W (op_shl a shift) /\ val (op_shl a shift) = (val a * 2 ^ shift) mod M) /\
  (wf_arr 32 W (op_shr a shift) /\ val (op_shr a shift) = val a / 2 ^ shift) /\
  (wf_arr 32 W (op_neg a) /\ val (op_neg a) = (- val a) mod M) /\
  (wf_arr 32 W (op_not a) /\ val (op_not a) = M - 1 - val a) /\
  (wf_arr 32 W (op_incr a) /\ val (op_incr a) = (val a + 1) mod M) /\
  (wf_arr 32 W (op_decr a) /\ val (op_decr a) = (val a - 1) mod M) /\
  CompareTo a b = (if val a <? val b then -1 else if val b <? val a then 1 else 0) /\
  bits a = (if val a =? 0 then 0 else Z.log2 (val a) + 1) /\
  GetLow64 a = val a mod 2 ^ 64 /\
  UintToArith W (ArithToUint a) = a.
Proof.
  intros HW [La Wa] [Lb Wb] Hs Hb M. unfold M, wf_arr.
  destruct (add_loop_val 0 a b Wa Wb ltac:(lia) ltac:(lia)) as (? & ? & E1).
  destruct (op_sub_val a b Wa Wb ltac:(lia)) as (? & ? & E2).
  destruct (op_mul_val a b Wa Wb ltac:(lia)) as (? & ? & E3).
  destruct (mul32_loop_val b32 0 a Hb ltac:(unfold word; lia) Wa) as (? & ? & E4).
  destruct (op_shl_val a Wa shift Hs) as (? & ? & E5). destruct (op_shr_val a Wa shift Hs) as (? & ? & E6).
  destruct (op_neg_val a Wa) as (? & ? & E7). destruct (op_not_val a Wa) as (? & ? & E8).
  destruct (op_incr_val a Wa) as (? & ? & E9). destruct (op_decr_val a Wa) as (? & ? & E10).
  rewrite La in *. unfold op_add, op_mul32 in *. rewrite Z.add_0_l in *. rewrite (Z.mul_comm b32) in E4.
  split_and!; try done; try lia.
  - apply compare_val; (done || lia).
  - by apply bits_val.
  - apply GetLow64_val; (done || lia).
  - rewrite <- La. by apply UintToArith_ArithToUint.
Qed.

Lemma arith_operators_witness :
  let a := UintToArith 8 (replicate 32 255) in
  let b := base_uint_of_u64 8 0x123456789 in
  val (op_mul a b) = 2 ^ 256 - 0x123456789 /\ CompareTo a b = 1 /\ bits a = 256.
Proof.
  cbv zeta.
  assert (wf_arr 32 8 (UintToArith 8 (replicate 32 255))) as Ha
    by (apply UintToArith_words, words_replicate; unfold word; lia).
  destruct (of_u64_val 8 0x123456789 ltac:(lia) ltac:(unfold word; lia)) as [Hb _].
  destruct (arith_operators 8 _ _ 1 7 ltac:(lia) Ha Hb ltac:(lia) ltac:(unfold word; lia))
    as (_ & _ & [_ ->] & _ & _ & _ & _ & _ & _ & _ & -> & -> & _).
  split_and!; vm_compute; reflexivity.
Defined.

(** The shift-and-subtract division terminates with the quotient of the numbers
    for every divisor but zero, for which it fails. *)
Theorem arith_division W a b :
  wf_arr 32 W a -> wf_arr 32 W b ->
  (val b <> 0 -> exists q, op_div a b = Some q /\ wf_arr 32 W q /\ val q = val a / val b) /\
  (val b = 0 -> op_div a b = None).
Proof.
  intros [La Wa] [Lb Wb]. split.
  - intros Hb. destruct (op_div_val a b Wa Wb ltac:(lia) Hb) as (q & Hq & W1 & L1 & V1).
    exists q. unfold wf_arr. by rewrite L1.
  - intros Hb. by apply op_div_zero.
Qed.

Lemma arith_division_witness :
  let a := UintToArith 8 (replicate 32 255) in
  (val <$> op_div a (base_uint_of_u64 8 1000) = Some ((2 ^ 256 - 1) / 1000)) /\
  op_div a (base_uint_of_u64 8 0) = None.
Proof.
  cbv zeta.
  assert (wf_arr 32 8 (UintToArith 8 (replicate 32 255))) as Ha
    by (apply UintToArith_words, words_replicate; unfold word; lia).
  destruct (of_u64_val 8 1000 ltac:(lia) ltac:(unfold word; lia)) as [Hb Vb].
  destruct (of_u64_val 8 0 ltac:(lia) ltac:(unfold word; lia)) as [Hz Vz]. split.
  - destruct (proj1 (arith_division 8 _ _ Ha Hb)) as (q & -> & _ & V); [by rewrite Vb|].
    cbn [fmap option_fmap option_map]. rewrite V, Vb. vm_compute. reflexivity.
  - by apply (arith_division 8 _ _ Ha Hz).
Defined.
