(* ===== verification/Compact.v ===== *)
(** * arith_uint256.cpp: the compact encoding of 256-bit targets

    [SetCompact] and [GetCompact]: a byte count and 24 bits of mantissa, the top
    one of which is a sign. *)

From Stdlib Require Import ZArith Lia Btauto.
From stdpp Require Import base tactics numbers list.
From S2P Require Import Prelude SphTypes ArithUint.

(** The value and the flags [*pfNegative] and [*pfOverflow]. *)
Definition SetCompact (nCompact : Z) : base_uint * bool * bool :=
  let nSize := nCompact >> 24 in
  let nWord := nCompact .& 0x007FFFFF in
  let '(v, nWord) :=
    if nSize <=? 3
    then let nWord := nWord >> (8 * (3 - nSize)) in (arith_uint256_of nWord, nWord)
    else (op_shl (arith_uint256_of nWord) (8 * (nSize - 3)), nWord) in
  (v,
   negb (nWord =? 0) && negb (nCompact .& 0x00800000 =? 0),
   negb (nWord =? 0) && ((34 <? nSize) || ((0xFF <? nWord) && (33 <? nSize)) || ((0xFFFF <? nWord) && (32 <? nSize)))).

(** [None]: an assertion fails. *)
Definition GetCompact (fNegative : bool) (a : base_uint) : option Z :=
  let nSize := (bits a + 7) / 8 in
  let nCompact :=
    if nSize <=? 3 then SPH_T32 (GetLow64 a << (8 * (3 - nSize)))
    else SPH_T32 (GetLow64 (op_shr a (8 * (nSize - 3)))) in
  let '(nCompact, nSize) :=
    if negb (nCompact .& 0x00800000 =? 0) then (nCompact >> 8, nSize + 1) else (nCompact, nSize) in
  if negb (nCompact .& not32 0x007FFFFF =? 0) || negb (nSize <? 256) then None
  else
    let nCompact := nCompact .| SPH_T32 (nSize << 24) in
    Some (nCompact .| (if fNegative && negb (nCompact .& 0x007FFFFF =? 0) then 0x00800000 else 0)).

(** ** What the encoding stands for *)

Definition compact_size (c : Z) : Z := c / 2 ^ 24.
Definition compact_mantissa (c : Z) : Z := c mod 2 ^ 23.
Definition compact_value (c : Z) : Z :=
  if compact_size c <=? 3 then compact_mantissa c / 2 ^ (8 * (3 - compact_size c))
  else compact_mantissa c * 2 ^ (8 * (compact_size c - 3)).

(** The encoding of a number: one byte more than its bits fill, so that the
    sign bit is free, and the top three of those bytes. *)
Definition number_size (v : Z) : Z := if v =? 0 then 0 else (Z.log2 v + 1) / 8 + 1.
Definition number_mantissa (v : Z) : Z :=
  let n := number_size v in if n <=? 3 then v * 2 ^ (8 * (3 - n)) else v / 2 ^ (8 * (n - 3)).
Definition number_compact (v : Z) : Z := number_size v * 2 ^ 24 + number_mantissa v.

Lemma land_ones23 x : x .& 0x007FFFFF = x mod 2 ^ 23.
Proof. exact (Z.land_ones x 23 ltac:(lia)). Qed.

Lemma SetCompact_spec c :
  word 32 c ->
  let '(v, neg, over) := SetCompact c in
  wf_arr 32 8 v /\ val v = compact_value c mod 2 ^ 256 /\
  neg = negb (compact_value c =? 0) && Z.testbit c 23 /\ over = (2 ^ 256 <=? compact_value c).
Proof.
  intros Hc. unfold SetCompact, compact_value, compact_size, compact_mantissa.
  rewrite land_ones23, (Z.shiftr_div_pow2 c 24) by lia.
  pose proof (Z.mod_pos_bound c (2 ^ 23) ltac:(lia)) as Hm.
  set (m := c mod 2 ^ 23) in *. set (s := c / 2 ^ 24) in *.
  assert (0 <= s < 256) as Hs.
  { unfold s, word in *. split; [apply Z.div_pos; lia|apply Z.div_lt_upper_bound; lia]. }
  assert (negb (c .& 0x00800000 =? 0) = Z.testbit c 23) as ->.
  { change 0x00800000 with (1 << 23). rewrite land_pow2 by lia. apply negb_involutive. }
  destruct (Z.leb_spec s 3) as [H3|H3].
  - assert (0 <= m / 2 ^ (8 * (3 - s)) <= m) as Hv.
    { assert (0 < 2 ^ (8 * (3 - s))) by (apply Z.pow_pos_nonneg; lia).
      split; [apply Z.div_pos; lia|apply Z.div_le_upper_bound; nia]. }
    rewrite Z.shiftr_div_pow2 by lia. set (v := m / 2 ^ (8 * (3 - s))) in *.
    destruct (of_u64_val 8 v ltac:(lia) ltac:(unfold word; lia)) as [W V]. unfold arith_uint256_of. split_and!; try done.
    + rewrite V, Z.mod_small by lia. done.
    + destruct (Z.ltb_spec 34 s), (Z.ltb_spec 33 s), (Z.ltb_spec 32 s), (Z.leb_spec (2 ^ 256) v); lia.
  - destruct (of_u64_val 8 m ltac:(lia) ltac:(unfold word; lia)) as [[L W] V]. unfold arith_uint256_of.
    destruct (op_shl_val _ W (8 * (s - 3)) ltac:(lia)) as (W' & L' & V'). rewrite L in *. rewrite V in V'.
    assert (0 < 2 ^ (8 * (s - 3))) as Hp by (apply Z.pow_pos_nonneg; lia).
    assert ((m * 2 ^ (8 * (s - 3)) =? 0) = (m =? 0)) as ->.
    { destruct (Z.eqb_spec m 0) as [->|]; [done|]. apply Z.eqb_neq. nia. }
    split_and!; [by split|exact V'|done|].
    destruct (Z.eqb_spec m 0) as [->|Hz]; cbn [negb andb]; [done|].
    destruct (Z.ltb_spec 34 s); cbn [orb].
    { symmetry. apply Z.leb_le. assert (2 ^ 256 <= 2 ^ (8 * (s - 3))) by (apply Z.pow_le_mono_r; lia). nia. }
    destruct (Z.ltb_spec 33 s).
    { assert (s = 34) as -> by lia. change (2 ^ (8 * (34 - 3))) with (2 ^ 248).
      destruct (Z.ltb_spec 0xFF m), (Z.ltb_spec 0xFFFF m), (Z.leb_spec (2 ^ 256) (m * 2 ^ 248)); cbn [andb orb]; (done || lia). }
    destruct (Z.ltb_spec 32 s).
    { assert (s = 33) as -> by lia. change (2 ^ (8 * (33 - 3))) with (2 ^ 240).
      destruct (Z.ltb_spec 0xFF m), (Z.ltb_spec 0xFFFF m), (Z.leb_spec (2 ^ 256) (m * 2 ^ 240)); cbn [andb orb]; (done || lia). }
    rewrite !andb_false_r. symmetry. apply Z.leb_gt. assert (2 ^ (8 * (s - 3)) <= 2 ^ 232) by (apply Z.pow_le_mono_r; lia). nia.
Qed.

(** ** Encoding *)

(** Scaling by a power of two with a signed exponent. *)
Definition scale (v e : Z) : Z := if 0 <=? e then v * 2 ^ e else v / 2 ^ (- e).

Lemma scale_bit v e i : 0 <= i -> Z.testbit (scale v e) i = Z.testbit v (i - e).
Proof.
  intros Hi. unfold scale. destruct (Z.leb_spec 0 e).
  - by rewrite <- Z.shiftl_mul_pow2, Z.shiftl_spec by lia.
  - rewrite <- Z.shiftr_div_pow2, Z.shiftr_spec by lia. f_equal; lia.
Qed.

Lemma scale_bound v e B : 0 <= B -> word B v -> 0 <= B + e -> word (B + e) (scale v e).
Proof.
  intros HB Hv HBe. unfold scale, word in *. destruct (Z.leb_spec 0 e).
  - rewrite Z.pow_add_r by lia. assert (0 < 2 ^ e) by (apply Z.pow_pos_nonneg; lia). nia.
  - assert (0 < 2 ^ (- e)) by (apply Z.pow_pos_nonneg; lia). split; [apply Z.div_pos; lia|].
    apply Z.div_lt_upper_bound; [lia|]. rewrite <- Z.pow_add_r by lia. replace (- e + (B + e)) with B by lia. lia.
Qed.

Lemma scale_shr8 v e : 0 <= v -> scale v e >> 8 = scale v (e - 8).
Proof. intros Hv. apply Z.bits_inj'. intros i Hi. rewrite Z.shiftr_spec, !scale_bit by lia. f_equal. lia. Qed.

Lemma number_mantissa_scale v : number_mantissa v = scale v (8 * (3 - number_size v)).
Proof.
  unfold number_mantissa, scale. destruct (Z.leb_spec (number_size v) 3), (Z.leb_spec 0 (8 * (3 - number_size v))); try lia.
  by replace (- (8 * (3 - number_size v))) with (8 * (number_size v - 3)) by lia.
Qed.

Lemma number_size_bound v : 0 < v -> 8 * (number_size v - 1) <= Z.log2 v + 1 < 8 * number_size v.
Proof.
  intros Hv. unfold number_size. destruct (Z.eqb_spec v 0); [lia|].
  pose proof (Z.div_mod (Z.log2 v + 1) 8). pose proof (Z.mod_pos_bound (Z.log2 v + 1) 8). lia.
Qed.

Lemma log2_word v : 0 < v -> word (Z.log2 v + 1) v.
Proof. intros Hv. pose proof (Z.log2_spec v Hv). rewrite Z.add_1_r. unfold word. lia. Qed.

Lemma number_mantissa_word v : 0 <= v -> word 23 (number_mantissa v).
Proof.
  intros Hv. destruct (Z.eq_dec v 0) as [->|Hne]; [unfold word; cbn; lia|]. rewrite number_mantissa_scale.
  pose proof (number_size_bound v ltac:(lia)). pose proof (Z.log2_nonneg v).
  apply (word_weaken ((Z.log2 v + 1) + 8 * (3 - number_size v))); [|lia].
  apply scale_bound; [lia|apply log2_word; lia|lia].
Qed.

Lemma T32_low64 a x : wf_arr 32 8 a -> val a = x -> word 32 x -> GetLow64 a = x.
Proof.
  intros [L W] V Hx. rewrite GetLow64_val, V by (done || lia). apply Z.mod_small. unfold word in Hx. lia.
Qed.

(** The mantissa before the sign bit is freed. *)
Lemma first_mantissa a z :
  wf_arr 32 8 a -> 0 < val a -> z = (bits a + 7) / 8 ->
  (if z <=? 3 then SPH_T32 (GetLow64 a << (8 * (3 - z))) else SPH_T32 (GetLow64 (op_shr a (8 * (z - 3))))) =
  scale (val a) (8 * (3 - z)) /\ word 24 (scale (val a) (8 * (3 - z))) /\ 8 * (z - 1) <= Z.log2 (val a) < 8 * z.
Proof.
  intros Ha Hv Hz. pose proof Ha as [L W]. rewrite bits_val in Hz by done. destruct (Z.eqb_spec (val a) 0); [lia|].
  set (v := val a) in *. pose proof (Z.log2_nonneg v).
  assert (8 * (z - 1) <= Z.log2 v < 8 * z) as Hb.
  { pose proof (Z.div_mod (Z.log2 v + 1 + 7) 8). pose proof (Z.mod_pos_bound (Z.log2 v + 1 + 7) 8). lia. }
  assert (word 24 (scale v (8 * (3 - z)))) as Hw.
  { apply (word_weaken ((Z.log2 v + 1) + 8 * (3 - z))); [|lia]. apply scale_bound; [lia|by apply log2_word|lia]. }
  split_and!; try (done || lia). unfold scale in *. destruct (Z.leb_spec z 3), (Z.leb_spec 0 (8 * (3 - z))); try lia.
  - assert (word 24 v) as Hv24 by (apply (word_weaken (Z.log2 v + 1)); [by apply log2_word|lia]).
    rewrite (T32_low64 a v Ha eq_refl), Z.shiftl_mul_pow2 by (lia || by apply (word_weaken 24)).
    apply T32_id. by apply (word_weaken 24).
  - replace (- (8 * (3 - z))) with (8 * (z - 3)) in * by lia.
    destruct (op_shr_val a W (8 * (z - 3)) ltac:(lia)) as (W' & L' & V'). rewrite L in L'.
    rewrite (T32_low64 _ _ (conj L' W') V') by by apply (word_weaken 24).
    apply T32_id. by apply (word_weaken 24).
Qed.

Lemma lor_high m n : word 23 m -> 0 <= n < 256 -> m .| SPH_T32 (n << 24) = n * 2 ^ 24 + m.
Proof.
  intros Hm Hn. rewrite Z.shiftl_mul_pow2, T32_id by (unfold word; lia).
  rewrite <- Z.lxor_lor, <- Z.add_nocarry_lxor; [lia|..]; apply Z.bits_inj'; intros i Hi;
    rewrite Z.land_spec, Z.bits_0; (destruct (Z.lt_ge_cases i 24);
    [rewrite Z.mul_pow2_bits_low by done; apply andb_false_r|rewrite (word_bit_high 23 m) by (done || lia); done]).
Qed.

Lemma GetCompact_spec neg a :
  wf_arr 32 8 a ->
  GetCompact neg a = Some (number_compact (val a) .| (if neg && negb (number_mantissa (val a) =? 0) then 0x00800000 else 0)).
Proof.
  intros Ha. pose proof (val_bound a (proj2 Ha)) as Hb. rewrite (proj1 Ha) in Hb. unfold word in Hb.
  assert (exists m n, word 23 m /\ 0 <= n < 256 /\ m = number_mantissa (val a) /\ n = number_size (val a) /\
    (let nSize := (bits a + 7) / 8 in
     let nCompact := if nSize <=? 3 then SPH_T32 (GetLow64 a << (8 * (3 - nSize)))
                     else SPH_T32 (GetLow64 (op_shr a (8 * (nSize - 3)))) in
     if negb (nCompact .& 0x00800000 =? 0) then (nCompact >> 8, nSize + 1) else (nCompact, nSize)) = (m, n))
    as (m & n & Hm & Hn & Em & En & E).
  { destruct (Z.eq_dec (val a) 0) as [Hz|Hz].
    - exists 0, 0. rewrite Hz. split; [unfold word; lia|]. split_and!; try done. rewrite bits_val by apply Ha. rewrite Hz.
      cbn [Z.eqb]. change ((0 + 7) / 8) with 0. cbn [Z.leb Z.compare]. rewrite (T32_low64 a 0 Ha Hz) by (unfold word; lia). done.
    - set (z := (bits a + 7) / 8). destruct (first_mantissa a z Ha ltac:(lia) eq_refl) as (E1 & Hw & Hl). cbv zeta. rewrite E1.
      set (v := val a) in *. pose proof (number_size_bound v ltac:(lia)) as Hs.
      exists (number_mantissa v), (number_size v).
      assert (Z.log2 v < 256) by (apply Z.log2_lt_pow2; lia). pose proof (Z.log2_nonneg v).
      split; [apply number_mantissa_word; lia|]. split; [lia|]. split; [done|]. split; [done|].
      change 0x00800000 with (1 << 23). rewrite land_pow2, negb_involutive, scale_bit by lia.
      rewrite number_mantissa_scale. replace (23 - 8 * (3 - z)) with (8 * z - 1) by lia.
      destruct (Z.testbit v (8 * z - 1)) eqn:Et.
      + assert (Z.log2 v = 8 * z - 1) as El.
        { apply Z.le_antisymm; [lia|]. apply Z.nlt_ge. intros Hlt. by rewrite Z.bits_above_log2 in Et by lia. }
        assert (number_size v = z + 1) as -> by lia. rewrite scale_shr8 by lia. do 2 f_equal. lia.
      + assert (Z.log2 v <> 8 * z - 1) as El by (intros El; rewrite <- El, Z.bit_log2 in Et by lia; done).
        by assert (number_size v = z) as -> by lia. }
  unfold GetCompact. cbv zeta in E. rewrite E, <- Em.
  assert (m .& not32 0x007FFFFF = 0) as ->.
  { change (not32 0x007FFFFF) with (0x1FF << 23). apply Z.bits_inj'. intros i Hi. rewrite Z.land_spec, Z.bits_0.
    destruct (Z.lt_ge_cases i 23); [rewrite Z.shiftl_spec_low by done; apply andb_false_r|by rewrite (word_bit_high 23 m)]. }
  destruct (Z.ltb_spec n 256); [|lia]. cbn [Z.eqb negb orb]. rewrite lor_high by done.
  unfold number_compact. rewrite <- Em, <- En. do 2 f_equal. rewrite land_ones23.
  rewrite Z.add_comm. replace (n * 2 ^ 24) with (n * 2 * 2 ^ 23) by lia. rewrite Z.mod_add, Z.mod_small by (unfold word in Hm; lia). done.
Qed.

(** ** Decoding what was encoded *)

(** A number with all but its top three bytes (the sign byte included) cleared. *)
Definition number_trunc (v : Z) : Z :=
  if number_size v <=? 3 then v else v / 2 ^ (8 * (number_size v - 3)) * 2 ^ (8 * (number_size v - 3)).

Lemma number_compact_parts v :
  word 256 v -> word 32 (number_compact v) /\ compact_size (number_compact v) = number_size v /\
  compact_mantissa (number_compact v) = number_mantissa v /\ Z.testbit (number_compact v) 23 = false.
Proof.
  intros Hv. pose proof (number_mantissa_word v ltac:(unfold word in Hv; lia)) as Hm.
  assert (0 <= number_size v <= 33) as Hs.
  { destruct (Z.eq_dec v 0) as [->|]; [done|]. pose proof (number_size_bound v ltac:(unfold word in Hv; lia)).
    pose proof (Z.log2_nonneg v). assert (Z.log2 v < 256) by (apply Z.log2_lt_pow2; unfold word in Hv; lia). lia. }
  unfold number_compact, compact_size, compact_mantissa, word in *. set (m := number_mantissa v) in *.
  split; [lia|]. split_and!.
  - rewrite Z.add_comm, Z.div_add, Z.div_small by lia. lia.
  - rewrite Z.add_comm. replace (number_size v * 2 ^ 24) with (number_size v * 2 * 2 ^ 23) by lia.
    by rewrite Z.mod_add, Z.mod_small by lia.
  - rewrite Z.testbit_false, Z.add_comm by lia. replace (number_size v * 2 ^ 24) with (number_size v * 2 * 2 ^ 23) by lia.
    rewrite Z.div_add, Z.div_small by lia. rewrite Z.add_0_l. by apply Z.mod_mul.
Qed.

Lemma number_compact_value v : word 256 v -> compact_value (number_compact v) = number_trunc v.
Proof.
  intros Hv. destruct (number_compact_parts v Hv) as (_ & Hs & Hm & _).
  unfold compact_value, number_trunc. rewrite Hs, Hm. unfold number_mantissa.
  destruct (Z.leb_spec (number_size v) 3); [|done]. apply Z.div_mul. apply Z.pow_nonzero; [lia|].
  destruct (Z.eq_dec v 0) as [->|]; [cbn; lia|lia].
Qed.

Lemma number_trunc_fixed v : 0 <= v -> 0 <= number_trunc v <= v /\ number_compact (number_trunc v) = number_compact v.
Proof.
  intros Hv. unfold number_trunc. destruct (Z.leb_spec (number_size v) 3) as [|H3]; [split; [lia|done]|].
  assert (0 < v) as Hp. { destruct (Z.eq_dec v 0) as [->|]; [by cbn in H3|lia]. }
  pose proof (number_size_bound v Hp) as Hb. set (k := 8 * (number_size v - 3)) in *.
  assert (0 < 2 ^ k) as Hk by (apply Z.pow_pos_nonneg; lia).
  assert (Z.log2 (v / 2 ^ k * 2 ^ k) = Z.log2 v) as Hl.
  { rewrite <- Z.shiftr_div_pow2, Z.log2_mul_pow2, Z.log2_shiftr; try lia.
    rewrite Z.shiftr_div_pow2 by lia. apply Z.div_str_pos. pose proof (Z.log2_spec v Hp).
    assert (2 ^ k <= 2 ^ Z.log2 v) by (apply Z.pow_le_mono_r; lia). lia. }
  assert (0 < v / 2 ^ k) as Hq.
  { apply Z.div_str_pos. pose proof (Z.log2_spec v Hp).
    assert (2 ^ k <= 2 ^ Z.log2 v) by (apply Z.pow_le_mono_r; lia). lia. }
  assert (number_size (v / 2 ^ k * 2 ^ k) = number_size v) as Hs.
  { unfold number_size. rewrite Hl. destruct (Z.eqb_spec v 0), (Z.eqb_spec (v / 2 ^ k * 2 ^ k) 0); nia. }
  split; [pose proof (Z.mul_div_le v (2 ^ k)); nia|]. unfold number_compact, number_mantissa. rewrite Hs.
  destruct (Z.leb_spec (number_size v) 3); [lia|]. fold k. by rewrite Z.div_mul by lia.
Qed.

(** ** Main results *)

(** Decoding: mantissa times a power of 256, modulo [2^256]; the overflow flag is
    set exactly when the number does not fit into 256 bits, and the sign flag when
    it is not zero and carries the sign bit. *)
Theorem compact_decode c :
  word 32 c ->
  let '(v, neg, over) := SetCompact c in
  wf_arr 32 8 v /\ val v = compact_value c mod 2 ^ 256 /\
  neg = negb (compact_value c =? 0) && Z.testbit c 23 /\ over = (2 ^ 256 <=? compact_value c).
Proof. apply SetCompact_spec. Qed.

Lemma compact_decode_witness :
  exists v, SetCompact 0x1D00FFFF = (v, false, false) /\ val v = 0xFFFF * 2 ^ 208.
Proof.
  pose proof (compact_decode 0x1D00FFFF ltac:(unfold word; lia)) as H.
  destruct (SetCompact 0x1D00FFFF) as [[v neg] over]. destruct H as (_ & Hv & -> & ->). exists v.
  split; [reflexivity|]. rewrite Hv. reflexivity.
Defined.

(** C32. Round trip: encoding never fails an assertion and gives a 32-bit word without
    the sign bit; decoding it raises neither flag and gives the number back with
    its bytes below the top three cleared; and encoding that number again gives
    the same word, so [nBits] values are stable. *)
Theorem compact_roundtrip a :
  wf_arr 32 8 a ->
  exists c b, GetCompact false a = Some c /\ word 32 c /\ SetCompact c = (b, false, false) /\
    wf_arr 32 8 b /\ val b = number_trunc (val a) /\ GetCompact false b = Some c.
Proof.
  intros Ha. pose proof (val_bound a (proj2 Ha)) as Hv. rewrite (proj1 Ha) in Hv. change (32 * Z.of_nat 8) with 256 in Hv.
  destruct (number_compact_parts _ Hv) as (Hc & _ & _ & H23). pose proof (number_compact_value _ Hv) as Hd.
  destruct (number_trunc_fixed (val a) ltac:(unfold word in Hv; lia)) as [Hb Hf].
  pose proof (SetCompact_spec _ Hc) as H. destruct (SetCompact _) as [[b neg] over] eqn:E.
  rewrite Hd, H23, andb_false_r in H. destruct H as (Wb & Vb & -> & ->).
  rewrite Z.mod_small in Vb by (unfold word in Hv; lia).
  exists (number_compact (val a)), b. rewrite !GetCompact_spec by done. cbn [andb]. rewrite !Z.lor_0_r, Vb, Hf.
  split_and!; try done. rewrite E. do 2 f_equal. apply Z.leb_gt. unfold word in Hv. lia.
Qed.

Lemma compact_roundtrip_witness :
  exists c b, GetCompact false (base_uint_of_u64 8 0x123456789) = Some c /\ SetCompact c = (b, false, false) /\ val b = 0x123450000.
Proof.
  destruct (compact_roundtrip (base_uint_of_u64 8 0x123456789)) as (c & b & E1 & _ & E2 & _ & E3 & _).
  { apply of_u64_val; [lia|unfold word; lia]. }
  exists c, b. split; [exact E1|]. split; [exact E2|]. rewrite E3. reflexivity.
Defined.
