(* ===== verification/Blob.v ===== *)
(** * uint256.h, uint256.cpp: opaque blobs

    A blob of [WIDTH] bytes is their list, in memory order; its text is the
    hexadecimal number of which the last byte is the most significant.  A C string
    is the list of its characters before the terminating zero. *)

From Stdlib Require Import ZArith Lia.
From stdpp Require Import base tactics numbers list.
From S2P Require Import Prelude SphTypes ArithUint.

(** A [uint256] is a blob of 32 bytes; its default value is null. *)
Abbreviation uint256 := (list Z) (only parsing).
Definition uint256_null : uint256 := replicate 32 0.

(** ** Text *)

(** [p_util_hexdigit]: [None] is its entry -1. *)
Definition HexDigit (c : Z) : option Z :=
  if (48 <=? c) && (c <=? 57) then Some (c - 48)
  else if (65 <=? c) && (c <=? 70) then Some (c - 55)
  else if (97 <=? c) && (c <=? 102) then Some (c - 87)
  else None.

Definition isspace (c : Z) : bool := (c =? 32) || ((9 <=? c) && (c <=? 13)).
Definition tolower (c : Z) : Z := if (65 <=? c) && (c <=? 90) then c + 32 else c.

(** The digit that [sprintf] prints for a nibble. *)
Definition hex_char (n : Z) : Z := if n <? 10 then 48 + n else 87 + n.

Definition GetHex (data : list Z) : list Z :=
  concat (map (fun b => [hex_char (b >> 4); hex_char (b .& 15)]) (rev data)).

Fixpoint skip_spaces (psz : list Z) : list Z :=
  match psz with c :: r => if isspace c then skip_spaces r else psz | [] => [] end.
Definition skip_0x (psz : list Z) : list Z :=
  match psz with c :: d :: r => if (c =? 48) && (tolower d =? 120) then r else psz | _ => psz end.

(** The leading digits. *)
Fixpoint hex_digits (psz : list Z) : list Z :=
  match psz with c :: r => match HexDigit c with Some d => d :: hex_digits r | None => [] end | [] => [] end.

(** The loop from the last digit back: two digits to a byte. *)
Fixpoint fill_bytes (WIDTH : nat) (ds : list Z) : list Z :=
  match WIDTH with
  | O => []
  | S w =>
      match ds with
      | [] => 0 :: fill_bytes w []
      | [d] => d :: fill_bytes w []
      | d0 :: d1 :: ds => (d0 .| uchar (d1 << 4)) :: fill_bytes w ds
      end
  end.

Definition SetHex (WIDTH : nat) (psz : list Z) : list Z :=
  fill_bytes WIDTH (rev (hex_digits (skip_0x (skip_spaces psz)))).

(** ** Comparison *)

(** The loop of [operator<], from the last byte down. *)
Fixpoint less_from_top (a b : list Z) : bool :=
  match a, b with
  | x :: a, y :: b => if x <? y then true else if y <? x then false else less_from_top a b
  | _, _ => false
  end.
Definition blob_less (a b : list Z) : bool := less_from_top (rev a) (rev b).

Definition IsNull (data : list Z) : bool := forallb (fun b => b =? 0) data.

(** [GetUint64]: eight bytes from position [8 * pos]. *)
Definition GetUint64 (data : list Z) (pos : nat) : Z :=
  let p := drop (8 * pos) data in
  p.[0] .| (p.[1] << 8) .| (p.[2] << 16) .| (p.[3] << 24) .| (p.[4] << 32) .| (p.[5] << 40) .| (p.[6] << 48) .| (p.[7] << 56).

(** ** The number of a blob *)

Definition blob_val (data : list Z) : Z := foldr (fun b v => b + 2 ^ 8 * v) 0 data.

Lemma blob_val_bound data : words 8 data -> word (8 * Z.of_nat (length data)) (blob_val data).
Proof.
  induction 1 as [|x l Hx _ IH]; [unfold word; cbn; lia|]. cbn [blob_val foldr length]. fold (blob_val l).
  unfold word in *. replace (8 * Z.of_nat (S (length l))) with (8 + 8 * Z.of_nat (length l)) by lia. rewrite Z.pow_add_r by lia. lia.
Qed.

Lemma blob_val_app a b : blob_val (a ++ b) = blob_val a + 2 ^ (8 * Z.of_nat (length a)) * blob_val b.
Proof.
  induction a as [|x a IH]; [cbn [blob_val foldr app length]; fold (blob_val b); lia|].
  cbn [blob_val foldr app length]. fold (blob_val (a ++ b)) (blob_val a). rewrite IH.
  replace (8 * Z.of_nat (S (length a))) with (8 + 8 * Z.of_nat (length a)) by lia. rewrite Z.pow_add_r by lia. lia.
Qed.

Lemma blob_val_snoc a x : blob_val (a ++ [x]) = blob_val a + 2 ^ (8 * Z.of_nat (length a)) * x.
Proof. rewrite blob_val_app. f_equal. cbn. lia. Qed.

(** The comparison is that of the numbers. *)
Lemma blob_less_val a b : words 8 a -> words 8 b -> length a = length b -> blob_less a b = (blob_val a <? blob_val b).
Proof.
  revert b. induction a as [|x a IH] using rev_ind; intros b Ha Hb Hl.
  - destruct b; [done|done].
  - destruct b as [|y b _] using rev_ind; [rewrite length_app in Hl; cbn in Hl; lia|]. rewrite !length_app in Hl. cbn in Hl.
    unfold blob_less. rewrite !rev_app_distr. cbn [rev app less_from_top]. fold (blob_less a b).
    apply Forall_app in Ha as [Ha [Hx _]%Forall_cons]. apply Forall_app in Hb as [Hb [Hy _]%Forall_cons].
    rewrite !blob_val_snoc, IH by (done || lia). pose proof (blob_val_bound a Ha). pose proof (blob_val_bound b Hb).
    replace (length b) with (length a) in * by lia. unfold word in *. set (M := 2 ^ (8 * Z.of_nat (length a))) in *.
    destruct (Z.ltb_spec x y), (Z.ltb_spec y x), (Z.ltb_spec (blob_val a) (blob_val b)); symmetry; (apply Z.ltb_lt || apply Z.ltb_ge); nia.
Qed.

(** ** Round trip *)

Lemma HexDigit_char n : 0 <= n < 16 -> HexDigit (hex_char n) = Some n.
Proof.
  intros Hn. assert (forallb (fun n => bool_decide (HexDigit (hex_char n) = Some n)) (map Z.of_nat (seq 0 16)) = true) as H by (vm_compute; reflexivity).
  rewrite forallb_forall in H. apply (bool_decide_eq_true _), H, in_map_iff. exists (Z.to_nat n). split; [lia|]. apply in_seq. lia.
Qed.

(** No digit is a space or the [x] of a prefix. *)
Lemma digit_plain c d : HexDigit c = Some d -> isspace c = false /\ tolower c <> 120.
Proof.
  unfold HexDigit, isspace, tolower. intros H.
  destruct (Z.leb_spec 48 c), (Z.leb_spec c 57), (Z.leb_spec 65 c), (Z.leb_spec c 70), (Z.leb_spec 97 c), (Z.leb_spec c 102); cbn in H; try done;
  (split; [destruct (Z.eqb_spec c 32), (Z.leb_spec 9 c), (Z.leb_spec c 13); cbn; (done || lia)|destruct (Z.leb_spec 65 c), (Z.leb_spec c 90); cbn; lia]).
Qed.

Definition nibbles (data : list Z) : list Z := concat (map (fun b => [b >> 4; b .& 15]) (rev data)).

Lemma nibble_bounds b : word 8 b -> 0 <= b >> 4 < 16 /\ 0 <= b .& 15 < 16.
Proof.
  intros Hb. unfold word in Hb. rewrite Z.shiftr_div_pow2 by lia. change 15 with (Z.ones 4). rewrite Z.land_ones by lia.
  pose proof (Z.mod_pos_bound b (2 ^ 4) ltac:(lia)). split; [|lia]. split; [apply Z.div_pos; lia|apply Z.div_lt_upper_bound; lia].
Qed.

Lemma nibble_join b : word 8 b -> b .& 15 .| uchar ((b >> 4) << 4) = b.
Proof.
  intros Hb. apply (word_eq 8); [apply word_lor; [by apply word_land_l|apply uchar_word]|done|]. intros i Hi.
  rewrite Z.lor_spec, Z.land_spec, uchar_bit by done. change 15 with (Z.ones 4). zcase i 4.
  - rewrite Z.ones_spec_low, Z.shiftl_spec_low by lia. by rewrite andb_true_r, orb_false_r.
  - rewrite Z.ones_spec_high, Z.shiftl_spec, Z.shiftr_spec by lia. rewrite andb_false_r. cbn. f_equal. lia.
Qed.

Lemma hex_digits_chars ns : Forall (fun n => 0 <= n < 16) ns -> hex_digits (map hex_char ns) = ns.
Proof. induction 1 as [|n ns Hn _ IH]; [done|]. cbn. by rewrite HexDigit_char, IH by done. Qed.

Lemma skip_chars ns : Forall (fun n => 0 <= n < 16) ns -> skip_0x (skip_spaces (map hex_char ns)) = map hex_char ns.
Proof.
  intros H. destruct H as [|n ns Hn H]; [done|]. destruct (digit_plain _ _ (HexDigit_char n Hn)) as [Es _]. cbn [map skip_spaces]. rewrite Es.
  destruct H as [|m ns Hm H]; [done|]. cbn [map skip_0x]. destruct (digit_plain _ _ (HexDigit_char m Hm)) as [_ Ex].
  destruct (Z.eqb_spec (tolower (hex_char m)) 120); [done|]. by rewrite andb_false_r.
Qed.

Lemma GetHex_nibbles data : GetHex data = map hex_char (nibbles data).
Proof. unfold GetHex, nibbles. induction (rev data) as [|b l IH]; [done|]. cbn. by rewrite IH. Qed.

Lemma nibbles_bounds data : words 8 data -> Forall (fun n => 0 <= n < 16) (nibbles data).
Proof.
  intros H%Forall_rev. unfold nibbles. induction H as [|b l Hb _ IH]; [constructor|]. destruct (nibble_bounds b Hb). cbn. by repeat (apply Forall_cons; split; [done|]).
Qed.

Lemma fill_zeros w : fill_bytes w [] = replicate w 0.
Proof. induction w as [|w IH]; [done|]. cbn. by rewrite IH. Qed.

Lemma fill_nibbles data w : words 8 data -> (length data <= w)%nat -> fill_bytes w (rev (nibbles data)) = data ++ replicate (w - length data) 0.
Proof.
  revert w. induction data as [|b data IH]; intros w H Hl; [cbn; by rewrite fill_zeros, Nat.sub_0_r|]. apply Forall_cons in H as [Hb H].
  unfold nibbles. cbn [rev]. rewrite map_app, concat_app, rev_app_distr. cbn [map concat app rev]. fold (nibbles data).
  destruct w as [|w]; [cbn in Hl; lia|]. cbn [fill_bytes app length Nat.sub]. rewrite nibble_join by done. f_equal. apply IH; [done|cbn in Hl; lia].
Qed.

Lemma SetHex_GetHex W data : words 8 data -> (length data <= W)%nat -> SetHex W (GetHex data) = data ++ replicate (W - length data) 0.
Proof.
  intros H Hl. pose proof (nibbles_bounds data H). unfold SetHex. rewrite GetHex_nibbles, skip_chars, hex_digits_chars by done. by apply fill_nibbles.
Qed.

(** ** Conversion of a 256-bit number to 512 bits, through its text *)

Definition uint512_of_hex (a : base_uint) : base_uint := UintToArith 16 (SetHex 64 (GetHex (ArithToUint a))).

Lemma ArithToUint_zeros n : ArithToUint (replicate n 0) = replicate (4 * n) 0.
Proof. induction n as [|n IH]; [done|]. unfold ArithToUint in *. cbn [replicate fmap list_fmap concat]. rewrite IH. by replace (4 * S n)%nat with (4 + 4 * n)%nat by lia. Qed.

Lemma ArithToUint_app a b : ArithToUint (a ++ b) = ArithToUint a ++ ArithToUint b.
Proof. unfold ArithToUint. by rewrite fmap_app, concat_app. Qed.

Lemma ArithToUint_words a : words 8 (ArithToUint a) /\ length (ArithToUint a) = (4 * length a)%nat.
Proof.
  induction a as [|x a [IH1 IH2]]; [split; [constructor|done]|]. unfold ArithToUint in *. cbn [fmap list_fmap concat]. split.
  - apply Forall_app. split; [apply sph_enc32le_words|done].
  - rewrite length_app, IH2. cbn. lia.
Qed.

Lemma uint512_of_hex_eq a : wf_arr 32 8 a -> uint512_of_hex a = a ++ replicate 8 0.
Proof.
  intros [L W]. destruct (ArithToUint_words a) as [Wb Lb]. rewrite L in Lb. unfold uint512_of_hex.
  rewrite SetHex_GetHex, Lb by (done || lia). change (replicate (64 - 4 * 8) 0) with (replicate (4 * 8) 0). rewrite <- ArithToUint_zeros, <- ArithToUint_app.
  rewrite <- (UintToArith_ArithToUint (a ++ replicate 8 0)) at 2.
  - rewrite length_app, L. done.
  - apply Forall_app. split; [done|]. apply words_replicate. unfold word. lia.
Qed.

Lemma uint512_of_hex_val a : wf_arr 32 8 a -> wf_arr 32 16 (uint512_of_hex a) /\ val (uint512_of_hex a) = val a.
Proof.
  intros Ha. rewrite uint512_of_hex_eq by done. destruct Ha as [L W]. split.
  - split; [rewrite length_app, L; done|]. apply Forall_app. split; [done|]. apply words_replicate. unfold word. lia.
  - rewrite val_app, val_zeros. lia.
Qed.

(** ** Main results *)

(** Hexadecimal text round trip: parsing the text of a blob into one at least as wide
    gives its bytes back, followed by zeros, and the comparison of blobs is that
    of the numbers that the texts denote. *)
Theorem hex_roundtrip W a b :
  words 8 a -> words 8 b -> length b = length a -> (length a <= W)%nat ->
  SetHex W (GetHex a) = a ++ replicate (W - length a) 0 /\ length (GetHex a) = (2 * length a)%nat /\
  blob_less a b = (blob_val a <? blob_val b).
Proof.
  intros Ha Hb Hl HW. split_and!; [by apply SetHex_GetHex| |by apply blob_less_val].
  unfold GetHex. rewrite <- (length_rev a). induction (rev a) as [|x l IH]; [done|]. cbn [map concat]. rewrite length_app, IH. cbn. lia.
Qed.

Lemma hex_roundtrip_witness :
  SetHex 4 (GetHex [0xAB; 0x01; 0xF0]) = [0xAB; 0x01; 0xF0; 0] /\ blob_less [0xAB; 0x01; 0xF0] [0; 0; 0xF1] = true.
Proof.
  destruct (hex_roundtrip 4 [0xAB; 0x01; 0xF0] [0; 0; 0xF1]) as (E & _ & El).
  - repeat (apply Forall_cons; split; [unfold word; lia|]). constructor.
  - repeat (apply Forall_cons; split; [unfold word; lia|]). constructor.
  - reflexivity.
  - cbn. lia.
  - split; [exact E|]. rewrite El. reflexivity.
Defined.
