(* ===== verification/Chain.v ===== *)
(** * chain.h, chain.cpp: the tree of block index entries

    [CBlockIndex] objects live in a heap; [pprev] and [pskip] are pointers into it.
    The file models the ancestor search over the skip pointers, the construction of
    those pointers and the median time past, and relates the search to the plain
    walk over [pprev].  A result [None] stands for a failed assertion or the
    dereference of a pointer that points nowhere; a null result is [Some None]. *)

From Stdlib Require Import ZArith Lia Sorting.
From stdpp Require Import base tactics numbers list gmap sorting.
From S2P Require Import Prelude SphTypes ArithUint Compact.

Abbreviation ptr := nat (only parsing).

Record CBlockIndex := {
  phashBlock : option (list Z);
  pprev : option ptr;
  pnext : option ptr;
  pskip : option ptr;
  nHeight : Z;
  nFile : Z;
  nDataPos : Z;
  nUndoPos : Z;
  nChainWork : base_uint;
  nTx : Z;
  nChainTx : Z;
  nStatus : Z;
  nVersion : Z;
  hashMerkleRoot : list Z;
  nTime : Z;
  nBits : Z;
  nNonce : Z;
  nMint : Z;
  nCFSupply : Z;
  nCFLocked : Z;
  strDZeel : list Z;
  nFlags : Z;
  nStakeModifier : Z;
  hashProof : base_uint;
  nSequenceId : Z
}.

Abbreviation heap := (gmap ptr CBlockIndex).

(** [nSequenceId] is not set by the constructor; every caller sets it. *)
Definition SetNull : CBlockIndex := {|
  phashBlock := None; pprev := None; pnext := None; pskip := None; nHeight := 0;
  nFile := 0; nDataPos := 0; nUndoPos := 0; nChainWork := base_uint_of_u64 8 0;
  nTx := 0; nChainTx := 0; nStatus := 0; nVersion := 0; hashMerkleRoot := replicate 32 0;
  nTime := 0; nBits := 0; nNonce := 0; nMint := 0; nCFSupply := 0; nCFLocked := 0; strDZeel := [];
  nFlags := 0; nStakeModifier := 0; hashProof := base_uint_of_u64 8 0; nSequenceId := 0 |}.

(** ** The skip pointer heights *)

Definition InvertLowestOne (n : Z) : Z := n .& (n - 1).

Definition GetSkipHeight (height : Z) : Z :=
  if height <? 2 then 0
  else if negb (height .& 1 =? 0) then InvertLowestOne (InvertLowestOne (height - 1)) + 1
  else InvertLowestOne height.

(** ** The ancestor search *)

(** The condition under which the search follows [pskip]. *)
Definition skip_is_better (heightSkip heightSkipPrev height : Z) : bool :=
  (heightSkip =? height) ||
  ((height <? heightSkip) && negb ((heightSkipPrev <? heightSkip - 2) && (height <=? heightSkipPrev))).

Fixpoint GetAncestor_walk (fuel : nat) (h : heap) (pindexWalk : ptr) (heightWalk height : Z) : option ptr :=
  if heightWalk <=? height then Some pindexWalk
  else match fuel with
  | O => None
  | S fuel =>
      let heightSkip := GetSkipHeight heightWalk in
      let heightSkipPrev := GetSkipHeight (heightWalk - 1) in
      b ← h !! pindexWalk;
      match pskip b, skip_is_better heightSkip heightSkipPrev height with
      | Some skip, true => GetAncestor_walk fuel h skip heightSkip height
      | _, _ => prev ← pprev b; GetAncestor_walk fuel h prev (heightWalk - 1) height
      end
  end.

Definition GetAncestor (h : heap) (this : ptr) (height : Z) : option (option ptr) :=
  b ← h !! this;
  if (nHeight b <? height) || (height <? 0) then Some None
  else Some <$> GetAncestor_walk (Z.to_nat (nHeight b - height)) h this (nHeight b) height.

Definition set_pskip (b : CBlockIndex) (s : option ptr) : CBlockIndex := {|
  phashBlock := phashBlock b; pprev := pprev b; pnext := pnext b; pskip := s; nHeight := nHeight b;
  nFile := nFile b; nDataPos := nDataPos b; nUndoPos := nUndoPos b; nChainWork := nChainWork b;
  nTx := nTx b; nChainTx := nChainTx b; nStatus := nStatus b; nVersion := nVersion b;
  hashMerkleRoot := hashMerkleRoot b; nTime := nTime b; nBits := nBits b; nNonce := nNonce b;
  nMint := nMint b; nCFSupply := nCFSupply b; nCFLocked := nCFLocked b; strDZeel := strDZeel b; nFlags := nFlags b;
  nStakeModifier := nStakeModifier b; hashProof := hashProof b; nSequenceId := nSequenceId b |}.

Definition BuildSkip (h : heap) (this : ptr) : option heap :=
  b ← h !! this;
  match pprev b with
  | Some prev => s ← GetAncestor h prev (GetSkipHeight (nHeight b)); Some (<[this := set_pskip b s]> h)
  | None => Some h
  end.

(** ** Block times *)

Definition GetBlockTime (b : CBlockIndex) : Z := nTime b.
Definition GetPastTimeLimit (b : CBlockIndex) : Z := GetBlockTime b.

Definition nMedianTimeSpan : nat := 11.

(** The array is filled from its end: the newest time is its last element. *)
Fixpoint median_times (n : nat) (h : heap) (pindex : option ptr) : option (list Z) :=
  match n, pindex with
  | S n, Some p => b ← h !! p; l ← median_times n h (pprev b); Some (l ++ [GetBlockTime b])
  | _, _ => Some []
  end.

Definition GetMedianTimePast (h : heap) (this : ptr) : option Z :=
  l ← median_times nMedianTimeSpan h (Some this);
  merge_sort Z.le l !! (length l / 2)%nat.

(** ** The tree *)

(** The block [k] steps of [pprev] back. *)
Fixpoint up (h : heap) (p : ptr) (k : nat) : option ptr :=
  match k with
  | O => Some p
  | S k => b ← h !! p; q ← pprev b; up h q k
  end.

(** The invariant of the index: heights count the steps from the root, and a skip
    pointer is the ancestor at the skip height. *)
Record entry_ok (h : heap) (p : ptr) (b : CBlockIndex) : Prop := {
  ok_height : 0 <= nHeight b;
  ok_root : pprev b = None -> nHeight b = 0;
  ok_prev : forall q, pprev b = Some q -> exists c, h !! q = Some c /\ nHeight b = nHeight c + 1;
  ok_skip : forall s, pskip b = Some s -> up h p (Z.to_nat (nHeight b - GetSkipHeight (nHeight b))) = Some s
}.
Definition tree_ok (h : heap) : Prop := forall p b, h !! p = Some b -> entry_ok h p b.

(** What [GetAncestor] is to compute. *)
Definition ancestor (h : heap) (p : ptr) (b : CBlockIndex) (height : Z) : option ptr :=
  if (nHeight b <? height) || (height <? 0) then None else up h p (Z.to_nat (nHeight b - height)).

Lemma InvertLowestOne_range n : 0 <= n -> 0 <= InvertLowestOne n <= n /\ (0 < n -> InvertLowestOne n < n).
Proof.
  intros Hn. unfold InvertLowestOne. destruct (Z.eq_dec n 0) as [->|Hne]; [by cbn|].
  assert (0 <= n .& (n - 1) <= n - 1); [|lia]. apply Z.ldiff_le; [lia|].
  bits_intro i Hi. rewrite Z.ldiff_spec, Z.land_spec, Z.bits_0. destruct (Z.testbit n i), (Z.testbit (n - 1) i); done.
Qed.

Lemma GetSkipHeight_range n : 0 < n -> 0 <= GetSkipHeight n < n.
Proof.
  intros Hn. unfold GetSkipHeight. destruct (Z.ltb_spec n 2); [lia|]. case_match.
  - destruct (InvertLowestOne_range (n - 1) ltac:(lia)) as [[A B] C].
    destruct (InvertLowestOne_range (InvertLowestOne (n - 1)) A) as [[D E] F]. lia.
  - pose proof (InvertLowestOne_range n ltac:(lia)). lia.
Qed.

Lemma up_add h j k p : up h p (j + k) = (q ← up h p j; up h q k).
Proof.
  revert p. induction j as [|j IH]; intros p; cbn [Nat.add up]; [done|].
  destruct (h !! p) as [b|]; cbn; [|done]. destruct (pprev b); cbn; [apply IH|done].
Qed.

(** The walk depends on the [pprev] fields only. *)
Lemma up_ext h h' p k : (forall q, pprev <$> h' !! q = pprev <$> h !! q) -> up h' p k = up h p k.
Proof.
  intros E. revert p. induction k as [|k IH]; intros p; [done|]. cbn [up]. specialize (E p).
  destruct (h !! p) as [b|], (h' !! p) as [b'|]; cbn in *; try done. injection E as ->. destruct (pprev b); cbn; auto.
Qed.

Lemma up_mono h h' p k q : h ⊆ h' -> up h p k = Some q -> up h' p k = Some q.
Proof.
  intros Hs. revert p. induction k as [|k IH]; intros p; [done|]. cbn [up].
  destruct (h !! p) as [b|] eqn:E; [|done]. rewrite (lookup_weaken _ _ _ _ E Hs). cbn. destruct (pprev b); cbn; auto.
Qed.

Section Tree.
Context (h : heap) (Hok : tree_ok h).

Lemma up_total p b k :
  h !! p = Some b -> Z.of_nat k <= nHeight b ->
  exists q c, up h p k = Some q /\ h !! q = Some c /\ nHeight c = nHeight b - Z.of_nat k.
Proof.
  revert p b. induction k as [|k IH]; intros p b Hp Hk; [exists p, b; cbn; split_and!; (done || lia)|].
  cbn [up]. rewrite Hp. cbn. destruct (Hok p b Hp) as [H0 Hr Hq _]. destruct (pprev b) as [q|]; [|specialize (Hr eq_refl); lia].
  destruct (Hq q eq_refl) as (c & Hc & Hh). destruct (IH q c Hc ltac:(lia)) as (r & d & ? & ? & ?). exists r, d. cbn. split_and!; (done || lia).
Qed.

Lemma up_height p b k q :
  h !! p = Some b -> up h p k = Some q -> exists c, h !! q = Some c /\ nHeight c = nHeight b - Z.of_nat k.
Proof.
  revert p b. induction k as [|k IH]; intros p b Hp Hk; [cbn in Hk; simplify_eq; exists b; split; (done || lia)|].
  cbn [up] in Hk. rewrite Hp in Hk. cbn in Hk. destruct (Hok p b Hp) as [_ _ Hq _]. destruct (pprev b) as [r|]; [|done]. cbn in Hk.
  destruct (Hq r eq_refl) as (c & Hc & Hh). destruct (IH r c Hc Hk) as (d & ? & ?). exists d. split; (done || lia).
Qed.

Lemma up_le p b k q : h !! p = Some b -> up h p k = Some q -> Z.of_nat k <= nHeight b.
Proof. intros Hp Hu. destruct (up_height p b k q Hp Hu) as (c & Hc & E). destruct (Hok q c Hc). lia. Qed.

(** One step of the search, along either pointer, keeps the target. *)
Lemma walk_correct fuel p b height :
  h !! p = Some b -> 0 <= height <= nHeight b -> (Z.to_nat (nHeight b - height) <= fuel)%nat ->
  GetAncestor_walk fuel h p (nHeight b) height = up h p (Z.to_nat (nHeight b - height)).
Proof.
  revert p b. induction fuel as [|fuel IH]; intros p b Hp Hh Hf; cbn [GetAncestor_walk];
    (destruct (Z.leb_spec (nHeight b) height); [by replace (Z.to_nat (nHeight b - height)) with 0%nat by lia|]); [lia|].
  rewrite Hp. cbn [mbind option_bind]. destruct (Hok p b Hp) as [H0 Hr Hq Hs].
  assert (match pprev b with Some prev => GetAncestor_walk fuel h prev (nHeight b - 1) height | None => None end =
          up h p (Z.to_nat (nHeight b - height))) as Eprev.
  { replace (Z.to_nat (nHeight b - height)) with (S (Z.to_nat (nHeight b - 1 - height))) by lia. cbn [up]. rewrite Hp. cbn.
    destruct (pprev b) as [q|]; [|done]. destruct (Hq q eq_refl) as (c & Hc & E). cbn.
    replace (nHeight b - 1) with (nHeight c) by lia. apply IH; (done || lia). }
  destruct (pskip b) as [s|]; [|exact Eprev]. destruct (skip_is_better _ _ _) eqn:Eb; [|exact Eprev].
  specialize (Hs s eq_refl). destruct (up_height p b _ s Hp Hs) as (c & Hc & E).
  pose proof (GetSkipHeight_range (nHeight b) ltac:(lia)) as Hr'. rewrite Z2Nat.id in E by lia.
  assert (height <= GetSkipHeight (nHeight b)) as Hge.
  { unfold skip_is_better in Eb. apply orb_true_iff in Eb as [?%Z.eqb_eq|[?%Z.ltb_lt _]%andb_true_iff]; lia. }
  replace (GetSkipHeight (nHeight b)) with (nHeight c) in * by lia. rewrite IH by (done || lia).
  replace (Z.to_nat (nHeight b - height)) with (Z.to_nat (nHeight b - nHeight c) + Z.to_nat (nHeight c - height))%nat by lia.
  by rewrite up_add, Hs.
Qed.

Lemma GetAncestor_spec p b height : h !! p = Some b -> GetAncestor h p height = Some (ancestor h p b height).
Proof.
  intros Hp. unfold GetAncestor, ancestor. rewrite Hp. cbn. case_match eqn:E; [done|].
  apply orb_false_iff in E as [?%Z.ltb_ge ?%Z.ltb_ge]. rewrite walk_correct by (done || lia).
  by destruct (up_total p b (Z.to_nat (nHeight b - height)) Hp ltac:(lia)) as (q & c & -> & _).
Qed.

Lemma ancestor_some p b height :
  h !! p = Some b -> 0 <= height <= nHeight b -> exists q c, ancestor h p b height = Some q /\ h !! q = Some c /\ nHeight c = height.
Proof.
  intros Hp Hh. unfold ancestor. destruct (Z.ltb_spec (nHeight b) height); [lia|]. destruct (Z.ltb_spec height 0); [lia|]. cbn.
  destruct (up_total p b (Z.to_nat (nHeight b - height)) Hp ltac:(lia)) as (q & c & ? & ? & ?). exists q, c. split_and!; (done || lia).
Qed.

Lemma ancestor_height p b height q c :
  h !! p = Some b -> ancestor h p b height = Some q -> h !! q = Some c -> nHeight c = height /\ 0 <= height <= nHeight b.
Proof.
  intros Hp Ha Hc. unfold ancestor in Ha. case_match eqn:E; [done|].
  apply orb_false_iff in E as [?%Z.ltb_ge ?%Z.ltb_ge]. destruct (up_height _ _ _ _ Hp Ha) as (d & ? & ?). simplify_eq. lia.
Qed.

End Tree.

(** ** Building the skip pointer *)

Lemma BuildSkip_spec h p b :
  tree_ok h -> h !! p = Some b ->
  exists s, BuildSkip h p = Some (<[p := set_pskip b s]> h) /\
    (pprev b <> None -> s = up h p (Z.to_nat (nHeight b - GetSkipHeight (nHeight b))) /\ s <> None) /\
    (pprev b = None -> s = pskip b).
Proof.
  intros Hok Hp. destruct (Hok p b Hp) as [H0 Hr Hq _]. unfold BuildSkip. rewrite Hp. cbn [mbind option_bind].
  destruct (pprev b) as [q|] eqn:Eq.
  - destruct (Hq q eq_refl) as (c & Hc & E). rewrite (GetAncestor_spec h Hok q c) by done. cbn [mbind option_bind].
    pose proof (ok_height _ _ _ (Hok q c Hc)). pose proof (GetSkipHeight_range (nHeight b) ltac:(lia)).
    destruct (ancestor_some h Hok q c (GetSkipHeight (nHeight b)) Hc ltac:(lia)) as (r & d & Ha & _).
    eexists. split; [done|]. split; [intros _|done]. rewrite Ha. split; [|done].
    unfold ancestor in Ha. case_match; [done|].
    replace (Z.to_nat (nHeight b - GetSkipHeight (nHeight b))) with (S (Z.to_nat (nHeight c - GetSkipHeight (nHeight b)))) by lia.
    cbn [up]. rewrite Hp. cbn. by rewrite Eq.
  - exists (pskip b). split; [|done]. rewrite insert_id; [done|]. rewrite Hp. by destruct b.
Qed.

Lemma up_set_pskip h p b s q k : h !! p = Some b -> up (<[p := set_pskip b s]> h) q k = up h q k.
Proof.
  intros Hp. apply up_ext. intros r. destruct (decide (r = p)) as [->|]; [by rewrite lookup_insert_eq, Hp|by rewrite lookup_insert_ne].
Qed.

Lemma BuildSkip_ok h p h' : tree_ok h -> BuildSkip h p = Some h' -> tree_ok h'.
Proof.
  intros Hok HB. destruct (h !! p) as [b|] eqn:Hp; [|by unfold BuildSkip in HB; rewrite Hp in HB].
  destruct (BuildSkip_spec h p b Hok Hp) as (s & E & Hs & Hn). rewrite E in HB. injection HB as <-.
  intros q c Hc. assert (exists c0, h !! q = Some c0 /\ pprev c = pprev c0 /\ nHeight c = nHeight c0 /\
    (pskip c = pskip c0 \/ q = p /\ pskip c = s)) as (c0 & Hc0 & E1 & E2 & E3).
  { destruct (decide (q = p)) as [->|].
    - rewrite lookup_insert_eq in Hc. injection Hc as <-. exists b. split_and!; auto.
    - rewrite lookup_insert_ne in Hc by done. exists c. auto. }
  destruct (Hok q c0 Hc0) as [A B C D]. split; rewrite ?E1, ?E2; try done.
  - intros r Hr. destruct (C r Hr) as (d & Hd & Ed). destruct (decide (r = p)) as [->|].
    + rewrite lookup_insert_eq. simplify_eq. eexists. split; done.
    + rewrite lookup_insert_ne by done. eauto.
  - intros r Hr. rewrite up_set_pskip by done. destruct E3 as [E3|[-> E3]]; [apply D; congruence|]. rewrite Hp in Hc0. injection Hc0 as <-.
    destruct (pprev b) eqn:Ep; [|apply D; rewrite <- Hn by done; congruence]. destruct Hs as [Hs _]; [done|]. congruence.
Qed.

(** ** The median of the last block times *)

Definition count (P : Z -> bool) (l : list Z) : nat := length (List.filter P l).

Lemma count_perm P l l' : l ≡ₚ l' -> count P l = count P l'.
Proof.
  unfold count. induction 1 as [|x l l' _ IH|x y l|l1 l2 l3 _ IH1 _ IH2]; cbn; [done| | |congruence].
  - destruct (P x); cbn; congruence.
  - by destruct (P x), (P y).
Qed.

Lemma count_app P l l' : count P (l ++ l') = (count P l + count P l')%nat.
Proof. unfold count. by rewrite List.filter_app, length_app. Qed.

Lemma count_le_length P l : (count P l <= length l)%nat.
Proof. apply List.filter_length_le. Qed.

Lemma count_mono (P Q : Z -> bool) l : (forall x, P x = true -> Q x = true) -> (count P l <= count Q l)%nat.
Proof.
  intros HPQ. unfold count. induction l as [|x l IH]; cbn; [done|]. specialize (HPQ x).
  destruct (P x), (Q x); cbn; lia.
Qed.

Lemma count_all P l : Forall (fun x => P x = true) l -> count P l = length l.
Proof. unfold count. induction 1 as [|x l Hx _ IH]; cbn; [done|]. rewrite Hx. cbn. lia. Qed.

Lemma count_none P l : Forall (fun x => P x = false) l -> count P l = 0%nat.
Proof. unfold count. induction 1 as [|x l Hx _ IH]; cbn; [done|]. by rewrite Hx. Qed.

(** [m] has at most [k] smaller elements and more than [k] that are not larger. *)
Definition order_statistic (k : nat) (l : list Z) (m : Z) : Prop :=
  m ∈ l /\ (count (fun x => x <? m)%Z l <= k < count (fun x => x <=? m)%Z l)%nat.

Lemma sorted_order_statistic l k m : merge_sort Z.le l !! k = Some m -> order_statistic k l m.
Proof.
  intros Hm. set (s := merge_sort Z.le l) in *. assert (s ≡ₚ l) as Hp by apply merge_sort_Permutation.
  assert (Sorted.StronglySorted Z.le s) as Hs by (apply StronglySorted_merge_sort; apply _).
  unfold order_statistic. rewrite <- !(count_perm _ _ _ Hp). split; [rewrite <- Hp; by eapply list_elem_of_lookup_2|].
  pose proof (lookup_lt_Some _ _ _ Hm) as Hk. rewrite <- (take_drop_middle s k m Hm).
  rewrite <- (take_drop_middle s k m Hm) in Hs.
  apply StronglySorted_app in Hs as (Hlow & _ & Hhigh). inversion_clear Hhigh as [|? ? _ Hge].
  rewrite Forall_forall in Hge.
  rewrite !count_app. cbn [count List.filter]. split.
  - rewrite (count_none (fun x => x <? m)%Z (m :: drop (S k) s)).
    + etrans; [apply Nat.add_le_mono_r, count_le_length|]. rewrite length_take. lia.
    + apply Forall_forall. intros x [->|Hx]%elem_of_cons; [lia|]. specialize (Hge x Hx). lia.
  - rewrite (count_all (fun x => x <=? m)%Z (take k s)).
    + rewrite length_take. unfold count. cbn. destruct (Z.leb_spec m m); [cbn; lia|lia].
    + apply Forall_forall. intros x Hx. apply Z.leb_le. apply Hlow; [done|left].
Qed.

(** The element is determined by its rank. *)
Lemma order_statistic_le k k' l l' m m' :
  order_statistic k l m -> order_statistic k' l' m' -> (k <= k')%nat ->
  (count (fun x => x <? m)%Z l' <= count (fun x => x <? m)%Z l)%nat -> m <= m'.
Proof.
  intros (_ & H1 & _) (_ & _ & H2) Hk Hc. apply Z.nlt_ge. intros Hlt.
  pose proof (count_mono (fun x => x <=? m')%Z (fun x => x <? m)%Z l' ltac:(intros x; cbn; lia)). lia.
Qed.

Section Median.
Context (h : heap) (Hok : tree_ok h).

Lemma median_times_total n p b :
  h !! p = Some b -> exists l, median_times (S n) h (Some p) = Some (l ++ [nTime b]) /\ median_times n h (pprev b) = Some l.
Proof.
  revert p b. induction n as [|n IH]; intros p b Hp.
  - exists []. cbn [median_times]. rewrite Hp. cbn. by destruct (pprev b).
  - cbn [median_times]. rewrite Hp. cbn [mbind option_bind].
    destruct (pprev b) as [q|] eqn:Eq; [|exists []; done]. destruct (Hok p b Hp) as [_ _ Hq _].
    destruct (Hq q Eq) as (c & Hc & _). destruct (IH q c Hc) as (l & El & _). cbn [median_times] in El. rewrite El.
    eexists. split; [done|]. done.
Qed.

(** Collecting one more time puts at most one older block in front. *)
Lemma median_times_S n p l :
  median_times (S n) h p = Some l -> exists pre l0, l = pre ++ l0 /\ (length pre <= 1)%nat /\ median_times n h p = Some l0.
Proof.
  revert p l. induction n as [|n IH]; intros [p|] l Hl; try (cbn in Hl; simplify_eq; exists [], []; split_and!; cbn; (done || lia)).
  - exists l, []. rewrite app_nil_r. split_and!; try done. cbn [median_times] in Hl. destruct (h !! p); [|done].
    cbn in Hl. simplify_eq. cbn. lia.
  - change ((b ← h !! p; l ← median_times (S n) h (pprev b); Some (l ++ [GetBlockTime b])) = Some l) in Hl.
    change (exists pre l0, l = pre ++ l0 /\ (length pre <= 1)%nat /\
      (b ← h !! p; l ← median_times n h (pprev b); Some (l ++ [GetBlockTime b])) = Some l0).
    destruct (h !! p) as [b|]; [|done]. cbn [mbind option_bind] in *.
    destruct (median_times (S n) h (pprev b)) as [l1|] eqn:E; [|done].
    cbn in Hl. injection Hl as <-. destruct (IH _ _ E) as (pre & l0 & -> & Hpre & E0). exists pre, (l0 ++ [GetBlockTime b]).
    rewrite E0. cbn. by rewrite app_assoc.
Qed.

Lemma GetMedianTimePast_spec p b :
  h !! p = Some b ->
  exists m l, GetMedianTimePast h p = Some m /\ median_times nMedianTimeSpan h (Some p) = Some l /\ order_statistic (length l / 2) l m.
Proof.
  intros Hp. destruct (median_times_total 10 p b Hp) as (l & E & _). unfold GetMedianTimePast. change nMedianTimeSpan with 11%nat. rewrite E.
  cbn [mbind option_bind]. set (t := l ++ [nTime b]).
  assert (length t / 2 < length (merge_sort Z.le t))%nat as Hlt.
  { rewrite (Permutation_length (merge_sort_Permutation Z.le t)). apply Nat.div_lt; [|lia]. unfold t. rewrite length_app. cbn. lia. }
  destruct (lookup_lt_is_Some_2 _ _ Hlt) as [m Hm]. exists m, t. split_and!; try done. by apply sorted_order_statistic.
Qed.

(** Block times along the chain do not decrease (the check of [ContextualCheckBlock]). *)
Definition times_ok : Prop :=
  forall p b q c, h !! p = Some b -> pprev b = Some q -> h !! q = Some c -> GetPastTimeLimit c <= GetBlockTime b.

Lemma median_times_last n p b l : times_ok -> h !! p = Some b -> median_times n h (Some p) = Some l -> Forall (fun x => x <= nTime b) l.
Proof.
  intros Ht. revert p b l. induction n as [|n IH]; intros p b l Hp Hl; [cbn in Hl; by simplify_eq|].
  destruct (median_times_total n p b Hp) as (l' & E & E'). rewrite E in Hl. injection Hl as <-.
  apply Forall_app. split; [|by repeat constructor]. destruct (pprev b) as [q|] eqn:Eq; [|destruct n; cbn in E'; by simplify_eq].
  destruct (ok_prev _ _ _ (Hok p b Hp) q Eq) as (c & Hc & _). eapply Forall_impl; [by apply (IH q c)|].
  intros x Hx. pose proof (Ht p b q c Hp Eq Hc) as Hle. unfold GetPastTimeLimit, GetBlockTime in Hle. cbn in *. lia.
Qed.

Lemma GetMedianTimePast_mono p b q m m' :
  times_ok -> h !! p = Some b -> pprev b = Some q -> GetMedianTimePast h p = Some m -> GetMedianTimePast h q = Some m' -> m' <= m.
Proof.
  intros Ht Hp Eq Hm Hm'. destruct (ok_prev _ _ _ (Hok p b Hp) q Eq) as (c & Hc & _).
  destruct (GetMedianTimePast_spec p b Hp) as (m1 & l & E1 & El & Hl). destruct (GetMedianTimePast_spec q c Hc) as (m2 & l2 & E2 & El2 & Hl2).
  simplify_eq. destruct (median_times_total 10 p b Hp) as (l0 & E0 & E0'). change nMedianTimeSpan with 11%nat in *.
  rewrite E0 in El. injection El as <-. destruct (median_times_S 10 (Some q) l2 El2) as (pre & l0' & -> & Hpre & E3).
  rewrite Eq in E0'. rewrite E0' in E3. injection E3 as <-.
  apply (order_statistic_le _ _ _ _ _ _ Hl2 Hl).
  - apply Nat.Div0.div_le_mono. rewrite !length_app. cbn. lia.
  - rewrite !count_app. rewrite (count_none _ [nTime b]); [lia|]. apply Forall_singleton. apply Z.ltb_ge.
    destruct Hl2 as [Hin _]. pose proof (median_times_last 11 q c _ Ht Hc El2) as Hall. rewrite Forall_forall in Hall.
    specialize (Hall _ Hin). pose proof (Ht p b q c Hp Eq Hc) as Hle. unfold GetPastTimeLimit, GetBlockTime in Hle. cbn in *. lia.
Qed.

End Median.

(** ** Checking the invariant on a concrete index *)

Definition entry_okb (h : heap) (p : ptr) (b : CBlockIndex) : bool :=
  (0 <=? nHeight b) &&
  match pprev b with
  | None => nHeight b =? 0
  | Some q => match h !! q with Some c => nHeight b =? nHeight c + 1 | None => false end
  end &&
  match pskip b with
  | None => true
  | Some s => bool_decide (up h p (Z.to_nat (nHeight b - GetSkipHeight (nHeight b))) = Some s)
  end.
Definition tree_okb (h : heap) : bool := forallb (fun '(p, b) => entry_okb h p b) (map_to_list h).

Lemma heap_forallb (P : ptr -> CBlockIndex -> bool) h p b :
  forallb (fun '(p, b) => P p b) (map_to_list h) = true -> h !! p = Some b -> P p b = true.
Proof.
  rewrite forallb_forall. intros H Hp. apply (H (p, b)). by rewrite <- list_elem_of_In, elem_of_map_to_list.
Qed.

Lemma tree_okb_sound h : tree_okb h = true -> tree_ok h.
Proof.
  intros H p b Hp. apply (heap_forallb _ _ p b) in H; [|done]. unfold entry_okb in H.
  rewrite !andb_true_iff in H. destruct H as [[H1 H2] H3]. split.
  - lia.
  - intros E. rewrite E in H2. lia.
  - intros q E. rewrite E in H2. destruct (h !! q) as [c|]; [|done]. exists c. split; [done|lia].
  - intros s E. rewrite E in H3. by apply bool_decide_eq_true in H3.
Qed.

Definition times_okb (h : heap) : bool :=
  forallb (fun '(_, b) => match pprev b with Some q => match h !! q with Some c => GetPastTimeLimit c <=? GetBlockTime b | None => true end | None => true end) (map_to_list h).

Lemma times_okb_sound h : times_okb h = true -> times_ok h.
Proof.
  intros H p b q c Hp Eq Hq. apply (heap_forallb (fun _ b => match pprev b with Some q => match h !! q with Some c => GetPastTimeLimit c <=? GetBlockTime b | None => true end | None => true end) h p b) in H; [|done].
  rewrite Eq, Hq in H. by apply Z.leb_le.
Qed.

Definition entry_at (h : heap) (p : ptr) : CBlockIndex := default SetNull (h !! p).

(** A chain of blocks with the given times, numbered by height, with its skip pointers. *)
Definition demo_entry (i : nat) (time : Z) : CBlockIndex := {|
  phashBlock := Some [Z.of_nat i]; pprev := match i with O => None | S j => Some j end; pnext := None; pskip := None;
  nHeight := Z.of_nat i; nFile := 0; nDataPos := 0; nUndoPos := 0; nChainWork := base_uint_of_u64 8 0; nTx := 1; nChainTx := 1;
  nStatus := 0; nVersion := 0x70000001; hashMerkleRoot := []; nTime := time; nBits := 0x1D00FFFF; nNonce := 0; nMint := 0;
  nCFSupply := 0; nCFLocked := 0; strDZeel := []; nFlags := 0; nStakeModifier := 0; hashProof := base_uint_of_u64 8 0; nSequenceId := 0 |}.
Definition demo_chain (times : list Z) : heap :=
  fst (fold_left (fun '(h, i) t =>
    let h' := <[i := demo_entry i t]> h in (default h' (BuildSkip h' i), S i)) times (∅, O)).

(** ** Main results *)

(** C30. The search over the skip pointers is the walk over [pprev]: it never fails an
    assertion, it ends within as many rounds as there are blocks to go back, and
    it returns the ancestor at the requested height, or null when there is none. *)
Theorem get_ancestor_correct h p b height :
  tree_ok h -> h !! p = Some b ->
  GetAncestor h p height = Some (ancestor h p b height) /\
  (0 <= height <= nHeight b -> exists q c, ancestor h p b height = Some q /\ h !! q = Some c /\ nHeight c = height) /\
  (height < 0 \/ nHeight b < height -> GetAncestor h p height = Some None).
Proof.
  intros Hok Hp. split_and!; [by apply GetAncestor_spec|by apply ancestor_some|].
  intros Hh. rewrite (GetAncestor_spec h Hok p b) by done. f_equal. unfold ancestor.
  destruct (Z.ltb_spec (nHeight b) height), (Z.ltb_spec height 0); (done || lia).
Qed.

Lemma get_ancestor_correct_witness : GetAncestor (demo_chain (Z.of_nat <$> seq 0 40)) 39 7 = Some (Some 7%nat).
Proof.
  destruct (get_ancestor_correct (demo_chain (Z.of_nat <$> seq 0 40)) 39
    (default SetNull (demo_chain (Z.of_nat <$> seq 0 40) !! 39%nat)) 7) as (E & _ & _).
  - apply tree_okb_sound. vm_compute. reflexivity.
  - vm_compute. reflexivity.
  - rewrite E. vm_compute. reflexivity.
Defined.

(** [BuildSkip] succeeds on every entry of the index, makes its skip pointer an
    ancestor that is strictly lower, and keeps the invariant on which the search
    relies. *)
Theorem build_skip_invariant h p b :
  tree_ok h -> h !! p = Some b ->
  exists h', BuildSkip h p = Some h' /\ tree_ok h' /\
    (forall q, q <> p -> h' !! q = h !! q) /\
    (pprev b <> None -> exists b' s c, h' !! p = Some b' /\ pskip b' = Some s /\ h' !! s = Some c /\
       nHeight c = GetSkipHeight (nHeight b) /\ nHeight c < nHeight b').
Proof.
  intros Hok Hp. destruct (BuildSkip_spec h p b Hok Hp) as (s & E & Hs & _). eexists. split; [exact E|].
  pose proof (BuildSkip_ok h p _ Hok E) as Hok'. split; [done|]. split; [intros q Hq; by apply lookup_insert_ne|].
  intros Hb. destruct (Hs Hb) as [Hu Hn]. destruct s as [s|]; [|done]. symmetry in Hu.
  exists (set_pskip b (Some s)). assert (h' : <[p:=set_pskip b (Some s)]> h !! p = Some (set_pskip b (Some s))) by apply lookup_insert_eq.
  rewrite <- (up_set_pskip h p b (Some s)) in Hu by done. destruct (up_height _ Hok' _ _ _ _ h' Hu) as (c & Hc & Eh).
  exists s, c. split_and!; try done; cbn in *; destruct (Hok p b Hp) as [H0 _ Hq _]; destruct (pprev b) as [q|] eqn:Eq; try done;
    destruct (Hq q eq_refl) as (d & Hd & E1); pose proof (ok_height _ _ _ (Hok q d Hd));
    pose proof (GetSkipHeight_range (nHeight b) ltac:(lia)); lia.
Qed.

Lemma build_skip_invariant_witness :
  exists h', BuildSkip (<[40%nat := demo_entry 40 9]> (demo_chain (Z.of_nat <$> seq 0 40))) 40 = Some h' /\ tree_ok h'.
Proof.
  destruct (build_skip_invariant (<[40%nat := demo_entry 40 9]> (demo_chain (Z.of_nat <$> seq 0 40))) 40 (demo_entry 40 9)) as (h' & E & Hok & _).
  - apply tree_okb_sound. vm_compute. reflexivity.
  - vm_compute. reflexivity.
  - exists h'. split; [exact E|exact Hok].
Defined.

(** [GetMedianTimePast] is the median of the times of the last eleven blocks (of
    all blocks when the chain is shorter): at most half of them are smaller and
    more than half are not larger; and when no block is older than its parent
    the median does not decrease along the chain. *)
Theorem median_time_past h p b :
  tree_ok h -> h !! p = Some b ->
  exists m l, GetMedianTimePast h p = Some m /\ median_times nMedianTimeSpan h (Some p) = Some l /\ order_statistic (length l / 2) l m /\
    (times_ok h -> forall q, pprev b = Some q -> exists m', GetMedianTimePast h q = Some m' /\ m' <= m).
Proof.
  intros Hok Hp. destruct (GetMedianTimePast_spec h Hok p b Hp) as (m & l & E & El & Hl). exists m, l. split; [done|]. split; [done|]. split; [done|].
  intros Ht q Eq. destruct (ok_prev _ _ _ (Hok p b Hp) q Eq) as (c & Hc & _).
  destruct (GetMedianTimePast_spec h Hok q c Hc) as (m' & l' & E' & _). exists m'. split; [done|].
  by apply (GetMedianTimePast_mono h Hok p b q).
Qed.

Lemma median_time_past_witness :
  exists m l, GetMedianTimePast (demo_chain [5; 3; 9; 4; 7]) 4 = Some m /\ m = 5 /\ order_statistic 2 l m.
Proof.
  destruct (median_time_past (demo_chain [5; 3; 9; 4; 7]) 4 (default SetNull (demo_chain [5; 3; 9; 4; 7] !! 4%nat))) as (m & l & E & El & Hl & _).
  - apply tree_okb_sound. vm_compute. reflexivity.
  - vm_compute. reflexivity.
  - exists m, l. split; [exact E|]. assert (GetMedianTimePast (demo_chain [5; 3; 9; 4; 7]) 4 = Some 5) as E5 by (vm_compute; reflexivity).
    rewrite E5 in E. injection E as <-. split; [reflexivity|].
    assert (median_times nMedianTimeSpan (demo_chain [5; 3; 9; 4; 7]) (Some 4%nat) = Some [5; 3; 9; 4; 7]) as E6 by (vm_compute; reflexivity).
    rewrite E6 in El. injection El as <-. exact Hl.
Defined.
