(* ===== verification/ActiveChain.v ===== *)
(** * chain.h, chain.cpp: [CChain], the indexed chain of blocks

    A [CChain] is the vector of the blocks from the genesis block to a tip; an
    element may be null after a resize.  The invariant is that the vector is the
    path of the tip, and [SetTip] establishes it from the vector of any other tip
    while it rewrites only the part that differs. *)

From Stdlib Require Import ZArith Lia.
From stdpp Require Import base tactics numbers list gmap sorting.
From S2P Require Import Prelude SphTypes ArithUint Compact Chain.

Abbreviation CChain := (list (option ptr)).

Definition Height (c : CChain) : Z := Z.of_nat (length c) - 1.

(** [operator[]] *)
Definition chain_at (c : CChain) (nHeight : Z) : option ptr :=
  if (nHeight <? 0) || (Z.of_nat (length c) <=? nHeight) then None else mjoin (c !! Z.to_nat nHeight).

Definition Genesis (c : CChain) : option ptr := if (0 <? length c)%nat then mjoin (c !! 0%nat) else None.
Definition Tip (c : CChain) : option ptr := if (0 <? length c)%nat then mjoin (c !! (length c - 1)%nat) else None.

Definition Contains (h : heap) (c : CChain) (pindex : ptr) : option bool :=
  b ← h !! pindex; Some (bool_decide (chain_at c (nHeight b) = Some pindex)).

Definition Next (h : heap) (c : CChain) (pindex : ptr) : option (option ptr) :=
  ct ← Contains h c pindex;
  if (ct : bool) then b ← h !! pindex; Some (chain_at c (nHeight b + 1)) else Some None.

(** An access of the vector by an [int]. *)
Definition vector_at (v : CChain) (i : Z) : option (option ptr) := if i <? 0 then None else v !! Z.to_nat i.

Fixpoint SetTip_loop (fuel : nat) (h : heap) (vChain : CChain) (pindex : option ptr) : option CChain :=
  match pindex with
  | None => Some vChain
  | Some p =>
      b ← h !! p;
      e ← vector_at vChain (nHeight b);
      if bool_decide (e = Some p) then Some vChain
      else match fuel with
      | O => None
      | S fuel => SetTip_loop fuel h (<[Z.to_nat (nHeight b) := Some p]> vChain) (pprev b)
      end
  end.

Definition SetTip (h : heap) (c : CChain) (pindex : option ptr) : option CChain :=
  match pindex with
  | None => Some []
  | Some p =>
      b ← h !! p;
      SetTip_loop (S (Z.to_nat (nHeight b))) h (resize (Z.to_nat (nHeight b + 1)) None c) pindex
  end.

Fixpoint FindFork_loop (fuel : nat) (h : heap) (c : CChain) (pindex : option ptr) : option (option ptr) :=
  match pindex with
  | None => Some None
  | Some p =>
      ct ← Contains h c p;
      if (ct : bool) then Some (Some p)
      else match fuel with
      | O => None
      | S fuel => b ← h !! p; FindFork_loop fuel h c (pprev b)
      end
  end.

Definition FindFork (h : heap) (c : CChain) (pindex : option ptr) : option (option ptr) :=
  match pindex with
  | None => Some None
  | Some p =>
      b ← h !! p;
      pindex ← (if Height c <? nHeight b then GetAncestor h p (Height c) else Some (Some p));
      FindFork_loop (S (Z.to_nat (nHeight b))) h c pindex
  end.

(** [nStep *= 2] on an [int]; [None] is the overflow. *)
Definition double_int (n : Z) : option Z := if n * 2 <? 2 ^ 31 then Some (n * 2) else None.

Fixpoint GetLocator_loop (fuel : nat) (h : heap) (c : CChain) (pindex : option ptr) (nStep : Z) (vHave : list (list Z)) :
  option (list (list Z)) :=
  match pindex with
  | None => Some vHave
  | Some p =>
      match fuel with
      | O => None
      | S fuel =>
          b ← h !! p;
          hash ← phashBlock b;
          let vHave := vHave ++ [hash] in
          if nHeight b =? 0 then Some vHave
          else
            let height := Z.max (nHeight b - nStep) 0 in
            ct ← Contains h c p;
            next ← (if (ct : bool) then Some (chain_at c height) else GetAncestor h p height);
            nStep ← (if (10 <? length vHave)%nat then double_int nStep else Some nStep);
            GetLocator_loop fuel h c next nStep vHave
      end
  end.

Definition GetLocator (h : heap) (c : CChain) (pindex : option ptr) : option (list (list Z)) :=
  let pindex := match pindex with None => Tip c | _ => pindex end in
  match pindex with
  | None => Some []
  | Some p => b ← h !! p; GetLocator_loop (S (Z.to_nat (nHeight b))) h c pindex 1 []
  end.

(** ** The vector of a tip *)

Definition chain_to (h : heap) (c : CChain) (tip : ptr) : Prop :=
  exists b, h !! tip = Some b /\ length c = S (Z.to_nat (nHeight b)) /\
    forall i, (i <= Z.to_nat (nHeight b))%nat -> c !! i = Some (up h tip (Z.to_nat (nHeight b) - i)).
Definition chain_ok (h : heap) (c : CChain) : Prop := c = [] \/ exists tip, chain_to h c tip.

Definition on_chain (c : CChain) (p : ptr) : Prop := Some p ∈ c.

#[export] Instance on_chain_dec c p : Decision (on_chain c p).
Proof. unfold on_chain. apply _. Defined.

(** An element of the first [n] slots is null or starts a correct prefix. *)
Definition prefix_ok (h : heap) (v : CChain) (n : nat) : Prop :=
  forall i r, (i <= n)%nat -> v !! i = Some (Some r) -> forall j, (j <= i)%nat -> v !! j = Some (up h r (i - j)).

Section ChainVector.
Context (h : heap) (Hok : tree_ok h).

Lemma SetTip_loop_spec fuel v q b :
  h !! q = Some b -> (Z.to_nat (nHeight b) < length v)%nat -> prefix_ok h v (Z.to_nat (nHeight b)) -> (Z.to_nat (nHeight b) < fuel)%nat ->
  exists v', SetTip_loop fuel h v (Some q) = Some v' /\ length v' = length v /\
    (forall j, (j <= Z.to_nat (nHeight b))%nat -> v' !! j = Some (up h q (Z.to_nat (nHeight b) - j))) /\
    (forall j, (Z.to_nat (nHeight b) < j)%nat -> v' !! j = v !! j).
Proof.
  revert v q b. induction fuel as [|fuel IH]; intros v q b Hq Hl Hp Hf; [lia|]. cbn [SetTip_loop]. rewrite Hq. cbn [mbind option_bind].
  destruct (Hok q b Hq) as [H0 Hr Hn _]. unfold vector_at. destruct (Z.ltb_spec (nHeight b) 0); [lia|].
  set (n := Z.to_nat (nHeight b)) in *. destruct (lookup_lt_is_Some_2 v n Hl) as [e He]. rewrite He. cbn [mbind option_bind].
  case_bool_decide as Ee; [subst e; exists v; split_and!; try done; intros j Hj; by apply (Hp n q)|].
  assert (length (<[n := Some q]> v) = length v) as Hlen by apply length_insert.
  destruct (pprev b) as [q'|] eqn:Eq.
  - destruct (Hn q' eq_refl) as (c & Hc & Eh). assert (n = S (Z.to_nat (nHeight c))) as En by (destruct (Hok q' c Hc); lia).
    destruct (IH (<[n := Some q]> v) q' c Hc) as (v' & Ev & Lv & Hlo & Hhi); [lia| |lia|].
    { intros i r Hi Hv j Hj. rewrite list_lookup_insert_ne in * by lia. apply (Hp i r); (done || lia). }
    exists v'. split_and!; [done|lia| |].
    + intros j Hj. destruct (decide (j = n)) as [->|].
      * rewrite Nat.sub_diag, Hhi, list_lookup_insert_eq by lia. done.
      * rewrite Hlo by lia. replace (n - j)%nat with (S (Z.to_nat (nHeight c) - j)) by lia. cbn [up]. rewrite Hq. cbn. by rewrite Eq.
    + intros j Hj. rewrite Hhi by lia. by rewrite list_lookup_insert_ne by lia.
  - specialize (Hr eq_refl). assert (n = 0%nat) as -> by lia.
    exists (<[0%nat := Some q]> v). destruct fuel; cbn [SetTip_loop]; split_and!; try done.
    1,3: intros j Hj; assert (j = 0%nat) as -> by lia; rewrite list_lookup_insert_eq by done; done.
    all: intros j Hj; by rewrite list_lookup_insert_ne by lia.
Qed.

Lemma chain_ok_prefix c n : chain_ok h c -> prefix_ok h (resize n None c) n.
Proof.
  intros Hc i r Hi Hr j Hj. assert (i < n)%nat as Hin by (apply lookup_lt_Some in Hr; by rewrite length_resize in Hr).
  destruct (decide (i < length c)%nat) as [Hl|Hl].
  - rewrite lookup_resize in Hr by done. rewrite lookup_resize by lia.
    destruct Hc as [->|(t & b & Ht & Lc & Hc)]; [done|].
    rewrite Hc in Hr by lia. injection Hr as Hr. rewrite Hc by lia.
    replace (Z.to_nat (nHeight b) - j)%nat with ((Z.to_nat (nHeight b) - i) + (i - j))%nat by lia. by rewrite up_add, Hr.
  - rewrite lookup_resize_new in Hr by lia. done.
Qed.

Lemma SetTip_spec c p b : chain_ok h c -> h !! p = Some b -> exists c', SetTip h c (Some p) = Some c' /\ chain_to h c' p.
Proof.
  intros Hc Hp. pose proof (ok_height _ _ _ (Hok p b Hp)). unfold SetTip. rewrite Hp. cbn [mbind option_bind].
  replace (Z.to_nat (nHeight b + 1)) with (S (Z.to_nat (nHeight b))) by lia.
  destruct (SetTip_loop_spec (S (Z.to_nat (nHeight b))) (resize (S (Z.to_nat (nHeight b))) None c) p b Hp) as (v & E & L & Hv & _).
  - rewrite length_resize. lia.
  - intros i r Hi. apply (chain_ok_prefix c _ Hc). lia.
  - lia.
  - exists v. split; [done|]. exists b. rewrite L, length_resize. done.
Qed.

Lemma chain_at_to c t b n : chain_to h c t -> h !! t = Some b -> chain_at c n = ancestor h t b n.
Proof.
  intros (b' & Hb' & L & Hc) Hb. rewrite Hb in Hb'. injection Hb' as <-. pose proof (ok_height _ _ _ (Hok t b Hb)). unfold chain_at, ancestor. rewrite L.
  destruct (Z.ltb_spec n 0), (Z.leb_spec (Z.of_nat (S (Z.to_nat (nHeight b)))) n), (Z.ltb_spec (nHeight b) n); try lia; try done; cbn [orb].
  rewrite Hc by lia. cbn. f_equal. lia.
Qed.

(** Blocks on the chain are exactly those that the vector has at their height. *)
Lemma Contains_spec c p b : chain_ok h c -> h !! p = Some b -> Contains h c p = Some (bool_decide (on_chain c p)).
Proof.
  intros Hc Hp. unfold Contains. rewrite Hp. cbn. f_equal. apply bool_decide_ext. split.
  - intros E. unfold chain_at in E. case_match; [done|]. apply list_elem_of_lookup. exists (Z.to_nat (nHeight b)). by destruct (c !! _) as [[]|]; cbn in E; simplify_eq.
  - intros [i Hi]%list_elem_of_lookup. destruct Hc as [->|(t & bt & Ht & L & Hc)]; [done|].
    assert (i <= Z.to_nat (nHeight bt))%nat by (apply lookup_lt_Some in Hi; lia). rewrite Hc in Hi by done. injection Hi as Hi.
    destruct (up_height h Hok t bt _ p Ht Hi) as (b' & Hb' & E). rewrite Hp in Hb'. injection Hb' as <-. pose proof (ok_height _ _ _ (Hok t bt Ht)).
    pose proof (ok_height _ _ _ (Hok p b Hp)). unfold chain_at. rewrite L.
    destruct (Z.ltb_spec (nHeight b) 0), (Z.leb_spec (Z.of_nat (S (Z.to_nat (nHeight bt)))) (nHeight b)); try lia. cbn [orb].
    rewrite Hc by lia. cbn. rewrite <- Hi. f_equal. lia.
Qed.

End ChainVector.

(** ** The fork point *)

(** [r] is the first block on the way from [p] to the root that is on the chain. *)
Definition fork_of (h : heap) (c : CChain) (p : ptr) (r : option ptr) : Prop :=
  match r with
  | Some q => exists k, up h p k = Some q /\ on_chain c q /\ forall j q', (j < k)%nat -> up h p j = Some q' -> ~ on_chain c q'
  | None => forall j q', up h p j = Some q' -> ~ on_chain c q'
  end.

Section Fork.
Context (h : heap) (Hok : tree_ok h) (c : CChain) (Hc : chain_ok h c).

Lemma on_chain_height q b : on_chain c q -> h !! q = Some b -> 0 <= nHeight b <= Height c.
Proof.
  intros Hon Hq. pose proof (Contains_spec h Hok c q b Hc Hq) as E. rewrite bool_decide_eq_true_2 in E by done.
  unfold Contains in E. rewrite Hq in E. cbn in E. injection E as E. apply bool_decide_eq_true in E. unfold chain_at, Height in *.
  destruct (Z.ltb_spec (nHeight b) 0), (Z.leb_spec (Z.of_nat (length c)) (nHeight b)); cbn [orb] in E; (done || lia).
Qed.

Lemma fork_of_step p b q r : h !! p = Some b -> pprev b = Some q -> ~ on_chain c p -> fork_of h c q r -> fork_of h c p r.
Proof.
  intros Hp Eq Hn Hf. assert (forall j, up h p (S j) = up h q j) as Eu by (intros j; cbn [up]; rewrite Hp; cbn; by rewrite Eq).
  destruct r as [r|]; cbn [fork_of] in *.
  - destruct Hf as (k & Hk & Hon & Hlt). exists (S k). rewrite Eu. split_and!; try done.
    intros [|j] q' Hj Hu; [cbn in Hu; by simplify_eq|]. rewrite Eu in Hu. apply (Hlt j); (done || lia).
  - intros [|j] q' Hu; [cbn in Hu; by simplify_eq|]. rewrite Eu in Hu. by apply (Hf j).
Qed.

Lemma fork_of_up k p b q r :
  h !! p = Some b -> up h p k = Some q -> nHeight b - Z.of_nat k >= Height c -> fork_of h c q r -> fork_of h c p r.
Proof.
  revert p b. induction k as [|k IH]; intros p b Hp Hu Hh Hf; [cbn in Hu; by simplify_eq|].
  cbn [up] in Hu. rewrite Hp in Hu. cbn in Hu. destruct (pprev b) as [p'|] eqn:Eq; [|done]. cbn in Hu.
  destruct (ok_prev _ _ _ (Hok p b Hp) p' Eq) as (b' & Hb' & E).
  apply (fork_of_step p b p' r Hp Eq); [|apply (IH p' b' Hb' Hu); (done || lia)].
  intros Hon. pose proof (on_chain_height p b Hon Hp). lia.
Qed.

Lemma FindFork_loop_spec fuel p b :
  h !! p = Some b -> (Z.to_nat (nHeight b) < fuel)%nat -> exists r, FindFork_loop fuel h c (Some p) = Some r /\ fork_of h c p r.
Proof.
  revert p b. induction fuel as [|fuel IH]; intros p b Hp Hf; [lia|]. cbn [FindFork_loop].
  rewrite (Contains_spec h Hok c p b Hc Hp), Hp. cbn [mbind option_bind]. case_bool_decide as Hon.
  - exists (Some p). split; [done|]. exists 0%nat. split_and!; try done. lia.
  - destruct (pprev b) as [q|] eqn:Eq.
    + destruct (ok_prev _ _ _ (Hok p b Hp) q Eq) as (d & Hd & E). destruct (IH q d Hd) as (r & Er & Hr); [destruct (Hok q d Hd); lia|].
      exists r. split; [done|]. by eapply fork_of_step.
    + exists None. split; [by destruct fuel|]. intros [|j] q' Hu; [cbn in Hu; by simplify_eq|]. cbn [up] in Hu. rewrite Hp in Hu. cbn in Hu. by rewrite Eq in Hu.
Qed.

Lemma FindFork_spec p b : h !! p = Some b -> exists r, FindFork h c (Some p) = Some r /\ fork_of h c p r.
Proof.
  intros Hp. unfold FindFork. rewrite Hp. cbn [mbind option_bind]. destruct (Z.ltb_spec (Height c) (nHeight b)) as [Hlt|Hge].
  - rewrite (GetAncestor_spec h Hok p b _ Hp). cbn [mbind option_bind]. unfold ancestor.
    destruct (Z.ltb_spec (nHeight b) (Height c)); [lia|]. destruct (Z.ltb_spec (Height c) 0) as [Hneg|]; cbn [orb].
    + exists None. split; [done|]. intros j q Hj Hon. destruct (up_height h Hok p b j q Hp Hj) as (d & Hd & _).
      pose proof (on_chain_height q d Hon Hd). lia.
    + destruct (up_total h Hok p b (Z.to_nat (nHeight b - Height c)) Hp ltac:(lia)) as (q & d & Hu & Hd & E). rewrite Hu.
      destruct (FindFork_loop_spec (S (Z.to_nat (nHeight b))) q d Hd ltac:(lia)) as (r & Er & Hr). exists r. split; [done|].
      apply (fork_of_up _ p b q r Hp Hu); [lia|done].
  - cbn [mbind option_bind]. apply (FindFork_loop_spec _ p b Hp). lia.
Qed.

End Fork.

(** ** Block locators *)

(** The distance to the next entry after entry [i]. *)
Definition locator_step (i : nat) : Z := 2 ^ Z.of_nat (i - 10).

(** The heights of a locator: from entry [i] on, at height [x]. *)
Inductive locator_heights : nat -> Z -> list Z -> Prop :=
  | LH_genesis i : locator_heights i 0 [0]
  | LH_step i x hs : 0 < x -> locator_heights (S i) (Z.max (x - locator_step i) 0) hs -> locator_heights i x (x :: hs).

Definition hash_at (h : heap) (p : ptr) (b : CBlockIndex) (height : Z) : option (list Z) :=
  q ← ancestor h p b height; c ← h !! q; phashBlock c.

Section Locator.
Context (h : heap) (Hok : tree_ok h) (c : CChain) (Hc : chain_ok h c).
Context (Hhash : forall p b, h !! p = Some b -> phashBlock b <> None).

(** A jump is the ancestor at that height, whether it goes through the vector or
    over the skip pointers. *)
Lemma locator_jump p b n :
  h !! p = Some b -> 0 <= n <= nHeight b ->
  (ct ← Contains h c p; if (ct : bool) then Some (chain_at c n) else GetAncestor h p n) = Some (ancestor h p b n).
Proof.
  intros Hp Hn. rewrite (Contains_spec h Hok c p b Hc Hp). cbn [mbind option_bind]. case_bool_decide as Hon; [|by apply GetAncestor_spec].
  f_equal. apply list_elem_of_lookup in Hon as [i Hi]. destruct Hc as [->|(t & (bt & Ht & L & Hto))]; [done|].
  rewrite (chain_at_to h Hok c t bt) by (done || by exists bt).
  assert (i <= Z.to_nat (nHeight bt))%nat by (apply lookup_lt_Some in Hi; lia). rewrite Hto in Hi by done. injection Hi as Hi.
  destruct (up_height h Hok t bt _ p Ht Hi) as (b' & Hb' & E). rewrite Hp in Hb'. injection Hb' as <-.
  pose proof (ok_height _ _ _ (Hok t bt Ht)). unfold ancestor.
  destruct (Z.ltb_spec (nHeight bt) n), (Z.ltb_spec n 0), (Z.ltb_spec (nHeight b) n); try lia. cbn [orb].
  replace (Z.to_nat (nHeight bt - n)) with ((Z.to_nat (nHeight bt) - i) + Z.to_nat (nHeight b - n))%nat by lia. by rewrite up_add, Hi.
Qed.

Lemma ancestor_trans p b q d n :
  h !! p = Some b -> h !! q = Some d -> ancestor h p b (nHeight d) = Some q -> n <= nHeight d -> ancestor h q d n = ancestor h p b n.
Proof.
  intros Hp Hd Hq Hn. unfold ancestor in *. destruct (Z.ltb_spec (nHeight b) (nHeight d)); [done|].
  destruct (Z.ltb_spec (nHeight d) 0); [done|]. cbn [orb] in Hq.
  destruct (Z.ltb_spec n 0); [by rewrite !orb_true_r|]. rewrite !orb_false_r.
  destruct (Z.ltb_spec (nHeight d) n), (Z.ltb_spec (nHeight b) n); try lia.
  replace (Z.to_nat (nHeight b - n)) with (Z.to_nat (nHeight b - nHeight d) + Z.to_nat (nHeight d - n))%nat by lia. by rewrite up_add, Hq.
Qed.

Lemma GetLocator_loop_spec fuel p b q d vHave :
  h !! p = Some b -> nHeight b < 2 ^ 30 - 1 -> h !! q = Some d -> ancestor h p b (nHeight d) = Some q ->
  (Z.to_nat (nHeight d) < fuel)%nat -> (0 < nHeight d -> locator_step (length vHave) <= nHeight b - nHeight d + 1) ->
  exists hs out, locator_heights (length vHave) (nHeight d) hs /\ mapM (hash_at h p b) hs = Some out /\
    GetLocator_loop fuel h c (Some q) (locator_step (length vHave)) vHave = Some (vHave ++ out).
Proof.
  intros Hp Hmax. revert q d vHave. induction fuel as [|fuel IH]; intros q d vHave Hq Ha Hf Hs; [lia|].
  cbn [GetLocator_loop]. rewrite Hq. cbn [mbind option_bind]. destruct (phashBlock d) as [hash|] eqn:Eh; [|by destruct (Hhash q d)].
  assert (hash_at h p b (nHeight d) = Some hash) as Ehash by (unfold hash_at; rewrite Ha; cbn [mbind option_bind]; by rewrite Hq).
  cbn [mbind option_bind]. pose proof (ok_height _ _ _ (Hok q d Hq)) as H0. destruct (Z.eqb_spec (nHeight d) 0) as [Hz|Hz].
  { exists [0], [hash]. rewrite Hz in *. split_and!; [constructor| |done]. cbn. by rewrite Ehash. }
  specialize (Hs ltac:(lia)).
  remember (Z.max (nHeight d - locator_step (length vHave)) 0) as n eqn:Hn.
  assert (0 < locator_step (length vHave)) as Hpos by (apply Z.pow_pos_nonneg; lia).
  pose proof (locator_jump q d n Hq ltac:(lia)) as Ej. rewrite (ancestor_trans p b q d n Hp Hq Ha ltac:(lia)) in Ej.
  destruct (Contains h c q) as [ct|]; [|done]. cbn [mbind option_bind] in *. rewrite Ej. cbn [mbind option_bind].
  assert (nHeight d <= nHeight b) as Hdb by (destruct (ancestor_height h Hok p b (nHeight d) q d Hp Ha Hq); lia).
  destruct (ancestor_some h Hok p b n Hp ltac:(lia)) as (r & e & Hr & He & En). rewrite Hr.
  assert ((if (10 <? length (vHave ++ [hash]))%nat then double_int (locator_step (length vHave)) else Some (locator_step (length vHave))) =
          Some (locator_step (length (vHave ++ [hash]))) /\
          (locator_step (length (vHave ++ [hash])) <= 2 * locator_step (length vHave)) /\
          (locator_step (length (vHave ++ [hash])) = 1 \/ locator_step (length (vHave ++ [hash])) = 2 * locator_step (length vHave))) as (Ed & Hdbl & Hcase).
  { rewrite length_app. cbn [length]. destruct (Nat.ltb_spec 10 (length vHave + 1)) as [Hl|Hl].
    - assert (locator_step (length vHave + 1) = locator_step (length vHave) * 2) as E2.
      { unfold locator_step. replace (length vHave + 1 - 10)%nat with (S (length vHave - 10)) by lia. rewrite Nat2Z.inj_succ, Z.pow_succ_r by lia. lia. }
      unfold double_int. rewrite E2. destruct (Z.ltb_spec (locator_step (length vHave) * 2) (2 ^ 31)); [split_and!; (done || lia)|lia].
    - unfold locator_step. replace (length vHave + 1 - 10)%nat with 0%nat by lia. replace (length vHave - 10)%nat with 0%nat by lia. cbn. split_and!; (done || lia). }
  rewrite Ed. cbn [mbind option_bind]. destruct (IH r e (vHave ++ [hash])) as (hs & out & Hhs & Eo & El); [done|by rewrite En|lia|lia|].
  exists (nHeight d :: hs), (hash :: out). split_and!.
  - constructor; [lia|]. rewrite length_app, Nat.add_1_r in Hhs. cbn in Hhs. rewrite En, Hn in Hhs. exact Hhs.
  - cbn. rewrite Ehash. cbn. by rewrite Eo.
  - rewrite El, <- app_assoc. done.
Qed.

Lemma GetLocator_spec p b :
  h !! p = Some b -> nHeight b < 2 ^ 30 - 1 ->
  exists hs out, locator_heights 0 (nHeight b) hs /\ mapM (hash_at h p b) hs = Some out /\ GetLocator h c (Some p) = Some out.
Proof.
  intros Hp Hmax. pose proof (ok_height _ _ _ (Hok p b Hp)). unfold GetLocator. rewrite Hp. cbn [mbind option_bind].
  destruct (GetLocator_loop_spec (S (Z.to_nat (nHeight b))) p b p b []) as (hs & out & ? & ? & E); try (done || lia).
  - unfold ancestor. destruct (Z.ltb_spec (nHeight b) (nHeight b)), (Z.ltb_spec (nHeight b) 0); try lia. cbn [orb]. by rewrite Z.sub_diag.
  - change (locator_step (length [])) with 1. lia.
  - exists hs, out. split_and!; done.
Qed.

End Locator.

Lemma locator_heights_sorted i x hs :
  0 <= x -> locator_heights i x hs ->
  hs !! 0%nat = Some x /\ last hs = Some 0 /\ Sorted.StronglySorted (fun a b => b < a) hs /\ Forall (fun y => 0 <= y <= x) hs.
Proof.
  intros Hx. induction 1 as [i|i x hs Hpos _ IH]; [split_and!; repeat constructor; (done || lia)|].
  assert (0 < locator_step i) by (apply Z.pow_pos_nonneg; lia).
  destruct IH as (H0 & Hl & Hs & Ha); [lia|]. destruct hs as [|y hs]; [done|]. split_and!; [done|done| |].
  - constructor; [done|]. eapply Forall_impl; [exact Ha|]. cbn. lia.
  - constructor; [lia|]. eapply Forall_impl; [exact Ha|]. cbn. lia.
Qed.

Lemma locator_heights_length H i x hs :
  0 <= x <= H -> 0 < H -> locator_heights i x hs -> locator_step i <= H - x + 1 -> (length hs <= 12 + Z.to_nat (Z.log2 H) - i \/ length hs = 1)%nat.
Proof.
  intros Hx HH Hl. revert Hx. induction Hl as [i|i x hs Hpos Hl IH]; intros Hx Hs; [by right|]. left. cbn [length].
  assert (0 < locator_step i) by (apply Z.pow_pos_nonneg; lia).
  assert (Z.of_nat (i - 10) <= Z.log2 H) as Hi.
  { apply Z.log2_le_pow2; [done|]. unfold locator_step in Hs. lia. }
  assert (locator_step (S i) = 1 /\ locator_step i = 1 \/ locator_step (S i) = 2 * locator_step i) as Hst.
  { unfold locator_step. destruct (Nat.leb_spec (S i) 10).
    - left. by replace (S i - 10)%nat with 0%nat by lia; replace (i - 10)%nat with 0%nat by lia.
    - right. replace (S i - 10)%nat with (S (i - 10)) by lia. rewrite Nat2Z.inj_succ, Z.pow_succ_r; lia. }
  destruct (Z.le_gt_cases x (locator_step i)) as [Hle|Hgt].
  - rewrite Z.max_r in Hl by lia. inversion Hl; subst; [|lia]. cbn. lia.
  - destruct IH as [IH|IH]; lia.
Qed.

(** ** Main results *)

(** C29. [SetTip] turns the vector of any tip into the vector of the new one: it does
    not access the vector out of its bounds, ends, and the element at every height
    is the ancestor of the new tip at that height. *)
Theorem set_tip_invariant h c p b :
  tree_ok h -> chain_ok h c -> h !! p = Some b ->
  exists c', SetTip h c (Some p) = Some c' /\ chain_ok h c' /\ Tip c' = Some p /\ Height c' = nHeight b /\
    forall n, chain_at c' n = ancestor h p b n.
Proof.
  intros Hok Hc Hp. destruct (SetTip_spec h Hok c p b Hc Hp) as (c' & E & Hto). exists c'. split; [done|].
  split; [right; by exists p|]. pose proof (fun n => chain_at_to h Hok c' p b n Hto Hp) as Hat.
  destruct Hto as (b' & Hb' & L & Hl). rewrite Hp in Hb'. injection Hb' as <-. pose proof (ok_height _ _ _ (Hok p b Hp)).
  split_and!; [|unfold Height; lia|exact Hat]. unfold Tip. rewrite L. cbn [Nat.ltb Nat.leb]. rewrite Hl by lia. cbn.
  by replace (Z.to_nat (nHeight b) - (Z.to_nat (nHeight b) - 0))%nat with 0%nat by lia.
Qed.

(** Two branches from block 5 of a chain of ten blocks. *)
Definition demo_fork : heap :=
  let h := demo_chain (Z.of_nat <$> seq 0 10) in
  let add := fun (h : heap) '(p, q, n) =>
    let h' := <[p := {| phashBlock := Some [Z.of_nat p]; pprev := Some q; pnext := None; pskip := None; nHeight := n; nFile := 0;
      nDataPos := 0; nUndoPos := 0; nChainWork := base_uint_of_u64 8 0; nTx := 1; nChainTx := 1; nStatus := 0; nVersion := 0;
      hashMerkleRoot := []; nTime := 9; nBits := 0; nNonce := 0; nMint := 0; nCFSupply := 0; nCFLocked := 0; strDZeel := []; nFlags := 0;
      nStakeModifier := 0; hashProof := base_uint_of_u64 8 0; nSequenceId := 0 |}]> h in default h' (BuildSkip h' p) in
  fold_left add [(10%nat, 5%nat, 6); (11%nat, 10%nat, 7)] h.

Lemma demo_fork_ok : tree_ok demo_fork.
Proof. apply tree_okb_sound. vm_compute. reflexivity. Qed.

Lemma set_tip_invariant_witness :
  exists c c', SetTip demo_fork [] (Some 9%nat) = Some c /\ SetTip demo_fork c (Some 11%nat) = Some c' /\ Tip c' = Some 11%nat /\ chain_ok demo_fork c'.
Proof.
  destruct (set_tip_invariant demo_fork [] 9 (entry_at demo_fork 9) demo_fork_ok ltac:(left; reflexivity) ltac:(vm_compute; reflexivity))
    as (c & E & Hc & _).
  destruct (set_tip_invariant demo_fork c 11 (entry_at demo_fork 11) demo_fork_ok Hc ltac:(vm_compute; reflexivity))
    as (c' & E' & Hc' & Ht & _).
  exists c, c'. split; [exact E|]. split; [exact E'|]. split; [exact Ht|exact Hc'].
Defined.

(** [FindFork] returns the last common block: the first block on the way from the
    given one to the root that the chain contains, or null when the chain contains
    none; a block is contained exactly when it is an element of the vector. *)
Theorem find_fork_correct h c p b :
  tree_ok h -> chain_ok h c -> h !! p = Some b ->
  (exists r, FindFork h c (Some p) = Some r /\ fork_of h c p r) /\ Contains h c p = Some (bool_decide (on_chain c p)).
Proof. intros Hok Hc Hp. split; [by eapply FindFork_spec|by eapply Contains_spec]. Qed.

Lemma find_fork_correct_witness :
  exists c r, SetTip demo_fork [] (Some 9%nat) = Some c /\ FindFork demo_fork c (Some 11%nat) = Some r /\ fork_of demo_fork c 11 r /\ r = Some 5%nat.
Proof.
  destruct (SetTip demo_fork [] (Some 9%nat)) as [c|] eqn:E; [|vm_compute in E; discriminate].
  destruct (SetTip_spec demo_fork demo_fork_ok [] 9 (entry_at demo_fork 9) ltac:(left; reflexivity) ltac:(vm_compute; reflexivity)) as (c' & E' & Hc).
  rewrite E in E'. injection E' as <-.
  destruct (find_fork_correct demo_fork c 11 (entry_at demo_fork 11) demo_fork_ok ltac:(right; by exists 9%nat) ltac:(vm_compute; reflexivity))
    as ((r & Er & Hr) & _).
  exists c, r. split; [reflexivity|]. split; [exact Er|]. split; [exact Hr|].
  assert (match SetTip demo_fork [] (Some 9%nat) with Some c => FindFork demo_fork c (Some 11%nat) | None => None end = Some (Some 5%nat)) as E5 by (vm_compute; reflexivity).
  rewrite E in E5. rewrite Er in E5. injection E5 as <-. reflexivity.
Defined.

(** A locator lists the hashes of ancestors of the given block at strictly falling
    heights, the first eleven steps by one and then by doubling distances, down to
    the genesis block; it has at most [12 + log2 height] entries and the step never
    overflows an [int]. *)
Theorem locator_correct h c p b :
  tree_ok h -> chain_ok h c -> (forall q d, h !! q = Some d -> phashBlock d <> None) ->
  h !! p = Some b -> 0 < nHeight b < 2 ^ 30 - 1 ->
  exists hs out, GetLocator h c (Some p) = Some out /\ mapM (hash_at h p b) hs = Some out /\
    locator_heights 0 (nHeight b) hs /\
    hs !! 0%nat = Some (nHeight b) /\ last hs = Some 0 /\ Sorted.StronglySorted (fun a b => b < a) hs /\
    (length out <= 12 + Z.to_nat (Z.log2 (nHeight b)))%nat.
Proof.
  intros Hok Hc Hh Hp Hn. destruct (GetLocator_spec h Hok c Hc Hh p b Hp ltac:(lia)) as (hs & out & Hl & Eo & E).
  exists hs, out. destruct (locator_heights_sorted 0 (nHeight b) hs ltac:(lia) Hl) as (H0 & H1 & H2 & _). split_and!; try done.
  pose proof (locator_heights_length (nHeight b) 0 (nHeight b) hs ltac:(lia) ltac:(lia) Hl ltac:(change (locator_step 0) with 1; lia)) as HL.
  apply mapM_Some_1, Forall2_length in Eo. assert (1 <= length hs)%nat by (destruct hs; [done|cbn; lia]). lia.
Qed.

Lemma locator_correct_witness :
  exists out, GetLocator demo_fork [] (Some 11%nat) = Some out /\ (length out <= 14)%nat /\ out = [[11]; [10]; [5]; [4]; [3]; [2]; [1]; [0]].
Proof.
  destruct (locator_correct demo_fork [] 11 (entry_at demo_fork 11) demo_fork_ok ltac:(left; reflexivity)) as (hs & out & E & _ & _ & _ & _ & _ & HL).
  - intros q d Hq. refine (proj1 (bool_decide_eq_true _) (heap_forallb (fun _ d => bool_decide (phashBlock d <> None)) demo_fork q d _ Hq)).
    vm_compute. reflexivity.
  - vm_compute. reflexivity.
  - vm_compute. split; reflexivity.
  - exists out. split; [exact E|]. split; [exact HL|].
    assert (GetLocator demo_fork [] (Some 11%nat) = Some [[11]; [10]; [5]; [4]; [3]; [2]; [1]; [0]]) as E1 by (vm_compute; reflexivity).
    rewrite E1 in E. injection E as <-. reflexivity.
Defined.
