(* ===== verification/BlockIndex.v ===== *)
(** * chain.h, chain.cpp, main.cpp: the work of a block and the block index

    The proof-of-work value of a block, the status and flag bits of an index entry,
    and [AddToBlockIndex], which enters a header into the index.  The index is a
    heap of entries, the map from block hashes to entries, the best header and the
    set of entries to write back. *)

From Stdlib Require Import ZArith Lia.
From stdpp Require Import base tactics numbers list gmap sorting.
From S2P Require Import Prelude SphTypes ArithUint Compact Chain.

(** ** Work *)

Definition GetBlockProof (block : CBlockIndex) : option base_uint :=
  let '(bnTarget, fNegative, fOverflow) := SetCompact (nBits block) in
  if fNegative || fOverflow || EqualTo bnTarget 0 then Some (arith_uint256_of 0)
  else q ← op_div (op_not bnTarget) (op_add bnTarget (arith_uint256_of 1)); Some (op_add q (arith_uint256_of 1)).

(** The conversion of an unsigned 64-bit value to [int64_t]. *)
Definition to_int64 (x : Z) : Z := if x mod 2 ^ 64 <? 2 ^ 63 then x mod 2 ^ 64 else x mod 2 ^ 64 - 2 ^ 64.

Definition GetBlockProofEquivalentTime (to from tip : CBlockIndex) (nPowTargetSpacing : Z) : option Z :=
  let '(r, sign) :=
    if 0 <? CompareTo (nChainWork to) (nChainWork from)
    then (op_sub (nChainWork to) (nChainWork from), 1)
    else (op_sub (nChainWork from) (nChainWork to), -1) in
  proof ← GetBlockProof tip;
  r ← op_div (op_mul r (arith_uint256_of (nPowTargetSpacing mod 2 ^ 64))) proof;
  if 63 <? bits r then Some (sign * (2 ^ 63 - 1))
  else Some (to_int64 (sign * GetLow64 r)).

(** The shift by the full width is written as in the source. *)
Definition GetBlockTrust (b : CBlockIndex) : option (list Z) :=
  let '(bnTarget, _, _) := SetCompact (nBits b) in
  if CompareTo bnTarget (arith_uint256_of 0) <=? 0 then Some (replicate 32 0)
  else q ← op_div (op_shl (arith_uint256_of 1) 256) (op_add bnTarget (arith_uint256_of 1)); Some (ArithToUint q).

(** ** Status and flags *)

Definition BLOCK_VALID_HEADER : Z := 1.
Definition BLOCK_VALID_TREE : Z := 2.
Definition BLOCK_VALID_TRANSACTIONS : Z := 3.
Definition BLOCK_VALID_CHAIN : Z := 4.
Definition BLOCK_VALID_STAKE : Z := 5.
Definition BLOCK_VALID_SCRIPTS : Z := 6.
Definition BLOCK_VALID_MASK : Z :=
  BLOCK_VALID_HEADER .| BLOCK_VALID_TREE .| BLOCK_VALID_TRANSACTIONS .| BLOCK_VALID_CHAIN .| BLOCK_VALID_SCRIPTS .| BLOCK_VALID_STAKE.
Definition BLOCK_FAILED_VALID : Z := 32.
Definition BLOCK_FAILED_CHILD : Z := 64.
Definition BLOCK_FAILED_MASK : Z := BLOCK_FAILED_VALID .| BLOCK_FAILED_CHILD.

Definition set_nStatus (b : CBlockIndex) (s : Z) : CBlockIndex := {|
  phashBlock := phashBlock b; pprev := pprev b; pnext := pnext b; pskip := pskip b; nHeight := nHeight b;
  nFile := nFile b; nDataPos := nDataPos b; nUndoPos := nUndoPos b; nChainWork := nChainWork b;
  nTx := nTx b; nChainTx := nChainTx b; nStatus := s; nVersion := nVersion b;
  hashMerkleRoot := hashMerkleRoot b; nTime := nTime b; nBits := nBits b; nNonce := nNonce b;
  nMint := nMint b; nCFSupply := nCFSupply b; nCFLocked := nCFLocked b; strDZeel := strDZeel b; nFlags := nFlags b;
  nStakeModifier := nStakeModifier b; hashProof := hashProof b; nSequenceId := nSequenceId b |}.

Definition set_nFlags (b : CBlockIndex) (f : Z) : CBlockIndex := {|
  phashBlock := phashBlock b; pprev := pprev b; pnext := pnext b; pskip := pskip b; nHeight := nHeight b;
  nFile := nFile b; nDataPos := nDataPos b; nUndoPos := nUndoPos b; nChainWork := nChainWork b;
  nTx := nTx b; nChainTx := nChainTx b; nStatus := nStatus b; nVersion := nVersion b;
  hashMerkleRoot := hashMerkleRoot b; nTime := nTime b; nBits := nBits b; nNonce := nNonce b;
  nMint := nMint b; nCFSupply := nCFSupply b; nCFLocked := nCFLocked b; strDZeel := strDZeel b; nFlags := f;
  nStakeModifier := nStakeModifier b; hashProof := hashProof b; nSequenceId := nSequenceId b |}.

Definition IsValid (b : CBlockIndex) (nUpTo : Z) : option bool :=
  if negb (nUpTo .& not32 BLOCK_VALID_MASK =? 0) then None
  else if negb (nStatus b .& BLOCK_FAILED_MASK =? 0) then Some false
  else Some (nUpTo <=? nStatus b .& BLOCK_VALID_MASK).

Definition RaiseValidity (b : CBlockIndex) (nUpTo : Z) : option (CBlockIndex * bool) :=
  if negb (nUpTo .& not32 BLOCK_VALID_MASK =? 0) then None
  else if negb (nStatus b .& BLOCK_FAILED_MASK =? 0) then Some (b, false)
  else if nStatus b .& BLOCK_VALID_MASK <? nUpTo
  then Some (set_nStatus b ((nStatus b .& not32 BLOCK_VALID_MASK) .| nUpTo), true)
  else Some (b, false).

Definition BLOCK_PROOF_OF_STAKE : Z := 0x01.
Definition BLOCK_STAKE_ENTROPY : Z := 0x02.
Definition BLOCK_STAKE_MODIFIER : Z := 0x04.

Definition IsProofOfStake (b : CBlockIndex) : bool := negb (nFlags b .& BLOCK_PROOF_OF_STAKE =? 0).
Definition IsProofOfWork (b : CBlockIndex) : bool := nFlags b .& BLOCK_PROOF_OF_STAKE =? 0.
Definition SetProofOfStake (b : CBlockIndex) : CBlockIndex := set_nFlags b (nFlags b .| BLOCK_PROOF_OF_STAKE).
Definition GetStakeEntropyBit (b : CBlockIndex) : Z := (nFlags b .& BLOCK_STAKE_ENTROPY) >> 1.
Definition SetStakeEntropyBit (b : CBlockIndex) (nEntropyBit : Z) : CBlockIndex * bool :=
  if 1 <? nEntropyBit then (b, false)
  else (set_nFlags b (nFlags b .| (if nEntropyBit =? 0 then 0 else BLOCK_STAKE_ENTROPY)), true).
Definition GeneratedStakeModifier (b : CBlockIndex) : bool := negb (nFlags b .& BLOCK_STAKE_MODIFIER =? 0).

(** ** Entering a header *)

Record CBlockHeader := {
  hdr_nVersion : Z;
  hdr_hashPrevBlock : list Z;
  hdr_hashMerkleRoot : list Z;
  hdr_nTime : Z;
  hdr_nBits : Z;
  hdr_nNonce : Z
}.

Definition CBlockIndex_of_header (block : CBlockHeader) : CBlockIndex := {|
  phashBlock := None; pprev := None; pnext := None; pskip := None; nHeight := 0;
  nFile := 0; nDataPos := 0; nUndoPos := 0; nChainWork := base_uint_of_u64 8 0;
  nTx := 0; nChainTx := 0; nStatus := 0; nVersion := hdr_nVersion block; hashMerkleRoot := hdr_hashMerkleRoot block;
  nTime := hdr_nTime block; nBits := hdr_nBits block; nNonce := hdr_nNonce block; nMint := 0; nCFSupply := 0; nCFLocked := 0; strDZeel := [];
  nFlags := 0; nStakeModifier := 0; hashProof := base_uint_of_u64 8 0; nSequenceId := 0 |}.

(** Setting [phashBlock], [pprev] and [nHeight]. *)
Definition set_link (b : CBlockIndex) (hash : list Z) (prev : option ptr) (height : Z) : CBlockIndex := {|
  phashBlock := Some hash; pprev := prev; pnext := pnext b; pskip := pskip b; nHeight := height;
  nFile := nFile b; nDataPos := nDataPos b; nUndoPos := nUndoPos b; nChainWork := nChainWork b;
  nTx := nTx b; nChainTx := nChainTx b; nStatus := nStatus b; nVersion := nVersion b;
  hashMerkleRoot := hashMerkleRoot b; nTime := nTime b; nBits := nBits b; nNonce := nNonce b;
  nMint := nMint b; nCFSupply := nCFSupply b; nCFLocked := nCFLocked b; strDZeel := strDZeel b; nFlags := nFlags b;
  nStakeModifier := nStakeModifier b; hashProof := hashProof b; nSequenceId := 0 |}.

Definition set_nChainWork (b : CBlockIndex) (w : base_uint) : CBlockIndex := {|
  phashBlock := phashBlock b; pprev := pprev b; pnext := pnext b; pskip := pskip b; nHeight := nHeight b;
  nFile := nFile b; nDataPos := nDataPos b; nUndoPos := nUndoPos b; nChainWork := w;
  nTx := nTx b; nChainTx := nChainTx b; nStatus := nStatus b; nVersion := nVersion b;
  hashMerkleRoot := hashMerkleRoot b; nTime := nTime b; nBits := nBits b; nNonce := nNonce b;
  nMint := nMint b; nCFSupply := nCFSupply b; nCFLocked := nCFLocked b; strDZeel := strDZeel b; nFlags := nFlags b;
  nStakeModifier := nStakeModifier b; hashProof := hashProof b; nSequenceId := nSequenceId b |}.

Record BlockTree := {
  entries : heap;
  mapBlockIndex : gmap (list Z) ptr;
  pindexBestHeader : option ptr;
  setDirtyBlockIndex : gset ptr
}.

(** [nHeight + 1] on an [int]; [None] is the overflow. *)
Definition incr_int (n : Z) : option Z := if n + 1 <? 2 ^ 31 then Some (n + 1) else None.

(** The new entry, allocated at [pNew] and linked to its parent. *)
Definition link_new_entry (h : heap) (map' : gmap (list Z) ptr) (pNew : ptr) (block : CBlockHeader) (hash : list Z) : option heap :=
  let pindexNew := CBlockIndex_of_header block in
  let h := <[pNew := set_link pindexNew hash None 0]> h in
  match map' !! hdr_hashPrevBlock block with
  | Some prev =>
      bprev ← h !! prev;
      height ← incr_int (nHeight bprev);
      BuildSkip (<[pNew := set_link pindexNew hash (Some prev) height]> h) pNew
  | None => Some h
  end.

Definition best_header (h : heap) (best : option ptr) (pNew : ptr) : option ptr :=
  match best with
  | None => Some pNew
  | Some p =>
      bbest ← h !! p;
      b ← h !! pNew;
      Some (if CompareTo (nChainWork bbest) (nChainWork b) <? 0 then pNew else p)
  end.

Section AddToBlockIndex.

(** The hash of a header, and the address that [new] returns. *)
Variable GetHash : CBlockHeader -> list Z.

Definition AddToBlockIndex (st : BlockTree) (pNew : ptr) (block : CBlockHeader) : option (BlockTree * ptr) :=
  let hash := GetHash block in
  match mapBlockIndex st !! hash with
  | Some p => Some (st, p)
  | None =>
      let map' := <[hash := pNew]> (mapBlockIndex st) in
      h ← link_new_entry (entries st) map' pNew block hash;
      b ← h !! pNew;
      proof ← GetBlockProof b;
      prevWork ← match pprev b with Some prev => nChainWork <$> h !! prev | None => Some (arith_uint256_of 0) end;
      let b := set_nChainWork b (op_add prevWork proof) in
      best ← best_header (<[pNew := b]> h) (pindexBestHeader st) pNew;
      '(b, _) ← RaiseValidity b BLOCK_VALID_TREE;
      Some ({| entries := <[pNew := b]> h; mapBlockIndex := map'; pindexBestHeader := Some best;
               setDirtyBlockIndex := {[pNew]} ∪ setDirtyBlockIndex st |}, pNew)
  end.

End AddToBlockIndex.

(** ** The value of the proof *)

(** The target of [nBits], when it is one: positive, unsigned and of 256 bits. *)
Definition target_of (c : Z) : option Z :=
  if (compact_value c =? 0) || Z.testbit c 23 || (2 ^ 256 <=? compact_value c) then None else Some (compact_value c).

Definition block_work (c : Z) : Z := match target_of c with Some t => 2 ^ 256 / (t + 1) | None => 0 end.

Lemma compact_value_pos c : word 32 c -> 0 <= compact_value c.
Proof.
  intros Hc. unfold compact_value, compact_mantissa. pose proof (Z.mod_pos_bound c (2 ^ 23) ltac:(lia)). case_match.
  - apply Z.div_pos; [lia|]. apply Z.pow_pos_nonneg; lia.
  - apply Z.mul_nonneg_nonneg; [lia|]. apply Z.pow_nonneg. lia.
Qed.

(** No compact target is all ones. *)
Lemma compact_value_max c : word 32 c -> compact_value c mod 2 ^ 256 <> 2 ^ 256 - 1.
Proof.
  intros Hc E. unfold compact_value, compact_mantissa in E. pose proof (Z.mod_pos_bound c (2 ^ 23) ltac:(lia)) as Hm.
  destruct (Z.leb_spec (compact_size c) 3).
  - assert (0 < 2 ^ (8 * (3 - compact_size c))) by (apply Z.pow_pos_nonneg; lia).
    assert (0 <= c mod 2 ^ 23 / 2 ^ (8 * (3 - compact_size c)) <= c mod 2 ^ 23) by (split; [apply Z.div_pos|apply Z.div_le_upper_bound]; nia).
    rewrite Z.mod_small in E; lia.
  - assert (Z.even (2 ^ 256 - 1) = true) as Ev; [|by vm_compute in Ev]. rewrite <- E, Z.mod_eq by lia.
    replace (8 * (compact_size c - 3)) with (1 + (8 * (compact_size c - 3) - 1)) by lia. rewrite Z.pow_add_r by lia.
    rewrite Z.even_sub, !Z.even_mul. change (Z.even (2 ^ 1)) with true. change (Z.even (2 ^ 256)) with true. by rewrite orb_true_r.
Qed.

Lemma GetBlockProof_spec b :
  word 32 (nBits b) -> exists w, GetBlockProof b = Some w /\ wf_arr 32 8 w /\ val w = block_work (nBits b).
Proof.
  intros Hb. unfold GetBlockProof, block_work, target_of. pose proof (SetCompact_spec _ Hb) as HS. destruct (SetCompact (nBits b)) as [[t neg] over].
  destruct HS as (Wt & Vt & -> & ->). pose proof (compact_value_pos _ Hb). pose proof (compact_value_max _ Hb) as Hmax.
  rewrite u256_eq, Vt by (done || (unfold word; lia)). set (v := compact_value (nBits b)) in *.
  destruct (u256_of 0 ltac:(unfold word; lia)) as [W0 V0]. destruct (u256_of 1 ltac:(unfold word; lia)) as [W1 V1].
  destruct (Z.leb_spec (2 ^ 256) v) as [Hov|Hov]; rewrite ?orb_true_r, ?orb_false_r; cbn [orb]; [by exists (arith_uint256_of 0)|].
  rewrite Z.mod_small in * by lia. destruct (Z.eqb_spec v 0) as [Hz|Hz]; cbn [negb andb orb]; [by exists (arith_uint256_of 0)|].
  destruct (Z.testbit (nBits b) 23); cbn [orb]; [by exists (arith_uint256_of 0)|].
  destruct (u256_not t Wt) as [Wn Vn]. destruct (u256_add t _ Wt W1) as [Wa Va]. rewrite V1, Vt, Z.mod_small in Va by lia.
  destruct (u256_div _ _ Wn Wa ltac:(lia)) as (q & -> & Wq & Vq). cbn [mbind option_bind].
  destruct (u256_add q _ Wq W1) as [Wr Vr]. exists (op_add q (arith_uint256_of 1)). split_and!; try done.
  rewrite Vr, V1, Vq, Va, Vn, Vt.
  assert (2 ^ 256 / (v + 1) = (2 ^ 256 - 1 - v) / (v + 1) + 1) as -> by (rewrite <- Z.div_add by lia; f_equal; lia).
  apply Z.mod_small. split; [assert (0 <= (2 ^ 256 - 1 - v) / (v + 1)) by (apply Z.div_pos; lia); lia|].
  assert ((2 ^ 256 - 1 - v) / (v + 1) <= 2 ^ 255) by (apply Z.div_le_upper_bound; nia). lia.
Qed.

Lemma block_work_pos c : word 32 c -> (exists t, target_of c = Some t) <-> 0 < block_work c.
Proof.
  intros Hc. unfold block_work. destruct (target_of c) as [t|] eqn:E; split; try (intros [? ?]; done); try lia; eauto.
  intros _. unfold target_of in E. case_match eqn:Ec; [done|]. injection E as <-. apply Z.div_str_pos.
  rewrite !orb_false_iff in Ec. pose proof (compact_value_pos c Hc). lia.
Qed.

(** ** The time a difference of work is worth *)

Definition equivalent_time (d spacing work : Z) : Z :=
  let r := (Z.abs d * spacing) mod 2 ^ 256 / work in
  (if 0 <? d then 1 else -1) * Z.min r (2 ^ 63 - 1).

Lemma to_int64_small s x : s = 1 \/ s = -1 -> 0 <= x < 2 ^ 63 -> to_int64 (s * x) = s * x.
Proof.
  intros Hs Hx. unfold to_int64. destruct (Z.eq_dec x 0) as [->|]; [by rewrite Z.mul_0_r|]. destruct Hs as [-> | ->].
  - rewrite Z.mul_1_l, Z.mod_small by lia. destruct (Z.ltb_spec x (2 ^ 63)); lia.
  - replace (-1 * x) with (2 ^ 64 - x + (-1) * 2 ^ 64) by lia. rewrite Z.mod_add, Z.mod_small by lia.
    destruct (Z.ltb_spec (2 ^ 64 - x) (2 ^ 63)); lia.
Qed.

Lemma bits_small a k : wf_arr 32 8 a -> 0 < k -> (k <? bits a) = (2 ^ k <=? val a).
Proof.
  intros Ha Hk. pose proof (u256_bound a Ha). rewrite bits_val by apply Ha. destruct (Z.eqb_spec (val a) 0) as [->|Hz].
  - assert (0 < 2 ^ k) by (apply Z.pow_pos_nonneg; lia). lia.
  - pose proof (Z.log2_le_pow2 (val a) k ltac:(lia)). lia.
Qed.

Lemma GetBlockProofEquivalentTime_spec to from tip spacing :
  wf_arr 32 8 (nChainWork to) -> wf_arr 32 8 (nChainWork from) -> word 32 (nBits tip) -> word 64 spacing ->
  GetBlockProofEquivalentTime to from tip spacing =
  if block_work (nBits tip) =? 0 then None
  else Some (equivalent_time (val (nChainWork to) - val (nChainWork from)) spacing (block_work (nBits tip))).
Proof.
  intros Ht Hf Hb Hs. unfold GetBlockProofEquivalentTime. rewrite u256_cmp by done. unfold equivalent_time.
  pose proof (u256_bound _ Ht). pose proof (u256_bound _ Hf). set (a := nChainWork to) in *. set (b := nChainWork from) in *.
  assert (exists r s, (if 0 <? (if val a <? val b then -1 else if val b <? val a then 1 else 0) then (op_sub a b, 1) else (op_sub b a, -1)) = (r, s) /\
    wf_arr 32 8 r /\ val r = Z.abs (val a - val b) /\ s = (if 0 <? val a - val b then 1 else -1)) as (r & s & -> & Wr & Vr & Es).
  { destruct (u256_sub a b Ht Hf) as [W1 V1]. destruct (u256_sub b a Hf Ht) as [W2 V2].
    destruct (Z.ltb_spec (val a) (val b)), (Z.ltb_spec (val b) (val a)), (Z.ltb_spec 0 (val a - val b)); try lia; cbn [Z.ltb Z.compare];
      eexists _, _; (split; [done|]); rewrite ?V1, ?V2, Z.mod_small by lia; split_and!; (done || lia). }
  destruct (GetBlockProof_spec tip Hb) as (w & -> & Ww & Vw). cbn [mbind option_bind].
  rewrite Z.mod_small by exact Hs. destruct (u256_of spacing Hs) as [W1 V1]. destruct (u256_mul r _ Wr W1) as [Wm Vm]. rewrite V1, Vr in Vm.
  destruct (Z.eqb_spec (block_work (nBits tip)) 0) as [Hz|Hz]; [rewrite op_div_zero by (apply Ww || lia); done|].
  destruct (u256_div _ w Wm Ww ltac:(lia)) as (q & -> & Wq & Vq). cbn [mbind option_bind]. pose proof (u256_bound _ Wq).
  rewrite bits_small by (done || lia). rewrite Vm, Vw in Vq. rewrite <- Vq. destruct (Z.leb_spec (2 ^ 63) (val q)).
  - rewrite Z.min_r, Es by lia. done.
  - rewrite Z.min_l by lia. rewrite GetLow64_val by (apply Wq || (rewrite (proj1 Wq); lia)). rewrite Z.mod_small by lia.
    rewrite to_int64_small; [by rewrite Es| |lia]. rewrite Es. case_match; auto.
Qed.

(** The shift by 256 leaves nothing of the numerator. *)
Lemma GetBlockTrust_zero b : word 32 (nBits b) -> GetBlockTrust b = Some (replicate 32 0).
Proof.
  intros Hb. unfold GetBlockTrust. pose proof (SetCompact_spec _ Hb) as HS. destruct (SetCompact (nBits b)) as [[t neg] over].
  destruct HS as (Wt & Vt & _). destruct (u256_of 0 ltac:(unfold word; lia)) as [W0 V0]. destruct (u256_of 1 ltac:(unfold word; lia)) as [W1 V1].
  rewrite u256_cmp, V0 by done. pose proof (u256_bound t Wt). pose proof (compact_value_max _ Hb).
  destruct (Z.ltb_spec (val t) 0); [lia|]. destruct (Z.ltb_spec 0 (val t)); [|done]. cbn [Z.leb Z.compare].
  destruct (op_shl_val _ (proj2 W1) 256 ltac:(lia)) as (W2 & L2 & V2). rewrite (proj1 W1), V1 in *.
  destruct (u256_add t _ Wt W1) as [Wa Va]. rewrite V1, Z.mod_small in Va by lia.
  destruct (u256_div (op_shl (arith_uint256_of 1) 256) _ (conj L2 W2) Wa ltac:(lia)) as (q & -> & Wq & Vq). cbn [mbind option_bind].
  rewrite V2, Z.mul_1_l in Vq. change (32 * Z.of_nat 8) with 256 in Vq. rewrite Z.mod_same, Z.div_0_l in Vq by lia.
  do 2 f_equal. rewrite (val_inj q (arith_uint256_of 0)); [done|apply Wq|apply W0|by rewrite (proj1 Wq)|by rewrite V0].
Qed.

(** ** Validity levels *)

Definition level (b : CBlockIndex) : Z := nStatus b .& BLOCK_VALID_MASK.
Definition failed (b : CBlockIndex) : bool := negb (nStatus b .& BLOCK_FAILED_MASK =? 0).

Lemma valid_mask_bits s u i :
  word 32 s -> 0 <= u <= 7 -> 0 <= i ->
  Z.testbit ((s .& not32 BLOCK_VALID_MASK) .| u) i = if i <? 3 then Z.testbit u i else Z.testbit s i.
Proof.
  intros Hs Hu Hi. rewrite Z.lor_spec, Z.land_spec. change (not32 BLOCK_VALID_MASK) with (0x1FFFFFFF << 3).
  destruct (Z.ltb_spec i 3); [by rewrite Z.shiftl_spec_low, andb_false_r by lia|].
  rewrite (word_bit_high 3 u) by (unfold word; lia). rewrite orb_false_r. destruct (Z.lt_ge_cases i 32).
  - rewrite Z.shiftl_spec by lia. change 0x1FFFFFFF with (Z.ones 29). rewrite Z.ones_spec_low by lia. apply andb_true_r.
  - by rewrite (word_bit_high 32 s) by (done || lia).
Qed.

Lemma RaiseValidity_spec b nUpTo :
  word 32 (nStatus b) -> 0 <= nUpTo <= 7 ->
  exists b' r, RaiseValidity b nUpTo = Some (b', r) /\ r = negb (failed b) && (level b <? nUpTo) /\
    level b' = (if failed b then level b else Z.max (level b) nUpTo) /\
    (forall i, 3 <= i -> Z.testbit (nStatus b') i = Z.testbit (nStatus b) i) /\ set_nStatus b' (nStatus b) = b.
Proof.
  intros Hs Hu. unfold RaiseValidity.
  assert (nUpTo .& not32 BLOCK_VALID_MASK = 0) as ->.
  { bits_intro i Hi. rewrite Z.land_spec, Z.bits_0. change (not32 BLOCK_VALID_MASK) with (0x1FFFFFFF << 3).
    destruct (Z.lt_ge_cases i 3); [by rewrite Z.shiftl_spec_low, andb_false_r|by rewrite (word_bit_high 3 nUpTo) by (done || unfold word; lia)]. }
  cbn [Z.eqb negb]. fold (level b) (failed b). destruct (failed b); [exists b, false; split_and!; try done; by destruct b|].
  destruct (Z.ltb_spec (level b) nUpTo).
  - eexists _, _. split; [done|]. split; [done|]. split_and!; [|intros i Hi|by destruct b].
    + rewrite Z.max_r by lia. unfold level. cbn [nStatus set_nStatus]. change BLOCK_VALID_MASK with (Z.ones 3) at 2.
      bits_intro i Hi. rewrite Z.land_spec, valid_mask_bits by done. destruct (Z.ltb_spec i 3).
      * rewrite Z.ones_spec_low by lia. apply andb_true_r.
      * rewrite Z.ones_spec_high, andb_false_r by lia. by rewrite (word_bit_high 3 nUpTo) by (unfold word; lia).
    + cbn [nStatus set_nStatus]. rewrite valid_mask_bits by (done || lia). destruct (Z.ltb_spec i 3); [lia|done].
  - exists b, false. split_and!; try done; [lia|by destruct b].
Qed.

(** ** Extending the tree *)

(** A fresh leaf without a skip pointer. *)
Lemma tree_ok_leaf h p b :
  tree_ok h -> h !! p = None -> pskip b = None ->
  match pprev b with Some q => exists c, h !! q = Some c /\ nHeight b = nHeight c + 1 | None => nHeight b = 0 end ->
  tree_ok (<[p := b]> h).
Proof.
  intros Hok Hp Hs Hl q c Hq. destruct (decide (q = p)) as [->|Hne].
  - rewrite lookup_insert_eq in Hq. injection Hq as <-. destruct (pprev b) as [q|] eqn:E.
    + destruct Hl as (c & Hc & Eh). pose proof (ok_height _ _ _ (Hok q c Hc)). assert (q <> p) by congruence.
      split; [lia|congruence| |congruence]. intros q' Eq'. assert (q' = q) as -> by congruence. exists c. by rewrite lookup_insert_ne.
    + split; [lia|done|congruence|congruence].
  - rewrite lookup_insert_ne in Hq by done. destruct (Hok q c Hq) as [A B C D]. split; try done.
    + intros r Hr. destruct (C r Hr) as (d & Hd & Ed). exists d. rewrite lookup_insert_ne by congruence. done.
    + intros s Es. eapply up_mono; [by apply insert_subseteq|]. by apply D.
Qed.

(** A change that keeps the links and the height. *)
Lemma tree_ok_same h p b b' :
  tree_ok h -> h !! p = Some b -> pprev b' = pprev b -> pskip b' = pskip b -> nHeight b' = nHeight b -> tree_ok (<[p := b']> h).
Proof.
  intros Hok Hp E1 E2 E3. assert (forall q k, up (<[p := b']> h) q k = up h q k) as Eu.
  { intros q k. apply up_ext. intros r. destruct (decide (r = p)) as [->|]; [rewrite lookup_insert_eq, Hp; cbn; congruence|by rewrite lookup_insert_ne]. }
  assert (forall r d, h !! r = Some d -> exists d', <[p := b']> h !! r = Some d' /\ nHeight d' = nHeight d) as Hh.
  { intros r d Hd. destruct (decide (r = p)) as [->|]; [rewrite lookup_insert_eq; exists b'; split; congruence|rewrite lookup_insert_ne by done; eauto]. }
  assert (forall q c, entry_ok h q c -> entry_ok (<[p := b']> h) q c) as He.
  { intros q c [A B C D]. split; try done; [|intros s; rewrite Eu; apply D].
    intros r Hr. destruct (C r Hr) as (d & Hd & Ed). destruct (Hh r d Hd) as (d' & Hd' & Ed'). exists d'. split; [done|lia]. }
  intros q c Hq. destruct (decide (q = p)) as [->|Hne].
  - rewrite lookup_insert_eq in Hq. injection Hq as <-. destruct (He p b (Hok p b Hp)) as [A B C D]. split; rewrite ?E1, ?E2, ?E3; done.
  - rewrite lookup_insert_ne in Hq by done. apply He, Hok, Hq.
Qed.

(** ** The invariant of the index *)

(** Besides the links of the tree: the map and the entries name each other, the
    work of an entry is its parent's plus its own, and no entry has more work
    than the best header. *)
Record index_ok (st : BlockTree) : Prop := {
  io_tree : tree_ok (entries st);
  io_map : forall hash p, mapBlockIndex st !! hash = Some p <-> exists b, entries st !! p = Some b /\ phashBlock b = Some hash;
  io_hash : forall p b, entries st !! p = Some b -> phashBlock b <> None;
  io_bits : forall p b, entries st !! p = Some b -> word 32 (nBits b) /\ wf_arr 32 8 (nChainWork b);
  io_work : forall p b, entries st !! p = Some b ->
    val (nChainWork b) = ((match pprev b with Some q => match entries st !! q with Some c => val (nChainWork c) | None => 0 end | None => 0 end)
                          + block_work (nBits b)) mod 2 ^ 256;
  io_best : match pindexBestHeader st with
            | None => entries st = ∅
            | Some p => exists b, entries st !! p = Some b /\
                forall q c, entries st !! q = Some c -> val (nChainWork c) <= val (nChainWork b)
            end
}.

(** What a new entry is: the header's fields, linked to its parent if that is known. *)
Definition new_entry (st : BlockTree) (block : CBlockHeader) (hash : list Z) (b : CBlockIndex) : Prop :=
  phashBlock b = Some hash /\ nBits b = hdr_nBits block /\ nTime b = hdr_nTime block /\ nVersion b = hdr_nVersion block /\
  hashMerkleRoot b = hdr_hashMerkleRoot block /\ nNonce b = hdr_nNonce block /\ level b = BLOCK_VALID_TREE /\
  match mapBlockIndex st !! hdr_hashPrevBlock block with
  | Some q => pprev b = Some q /\ exists c, entries st !! q = Some c /\ nHeight b = nHeight c + 1
  | None => pprev b = None /\ nHeight b = 0
  end.

(** The best header of the extended heap has the most work. *)
Lemma best_header_spec st h pNew b :
  index_ok st -> entries st !! pNew = None -> h !! pNew = Some b -> wf_arr 32 8 (nChainWork b) ->
  (forall q, q <> pNew -> h !! q = entries st !! q) ->
  exists best bb, best_header h (pindexBestHeader st) pNew = Some best /\ h !! best = Some bb /\
    forall q c, h !! q = Some c -> val (nChainWork c) <= val (nChainWork bb).
Proof.
  intros Hst Hf Hb Wb Hsame.
  assert (forall m, val (nChainWork b) <= m -> (forall q c, entries st !! q = Some c -> val (nChainWork c) <= m) ->
    forall q c, h !! q = Some c -> val (nChainWork c) <= m) as Hins.
  { intros m H1 H2 q c Hq. destruct (decide (q = pNew)) as [->|]; [rewrite Hb in Hq; by injection Hq as <-|].
    rewrite Hsame in Hq by done. by apply (H2 q). }
  pose proof (io_best st Hst) as Hbest. unfold best_header. destruct (pindexBestHeader st) as [p|].
  - destruct Hbest as (bp & Hp & Hall). assert (p <> pNew) as Hne by congruence. rewrite (Hsame p Hne), Hp, Hb. cbn [mbind option_bind].
    rewrite u256_cmp by (apply (io_bits st Hst p bp Hp) || done). destruct (Z.ltb_spec (val (nChainWork bp)) (val (nChainWork b))).
    + exists pNew, b. split_and!; [done|done|]. apply Hins; [done|]. intros q c Hq. specialize (Hall q c Hq). lia.
    + exists p, bp. rewrite (Hsame p Hne). split_and!; [by destruct (Z.ltb_spec (val (nChainWork b)) (val (nChainWork bp)))|done|]. by apply Hins.
  - exists pNew, b. split_and!; [done|done|]. apply Hins; [done|]. intros q c Hq. by rewrite Hbest, lookup_empty in Hq.
Qed.

(** The work of the parent. *)
Definition parent_work (h : heap) (b : CBlockIndex) : Z :=
  match pprev b with Some q => match h !! q with Some c => val (nChainWork c) | None => 0 end | None => 0 end.

Lemma index_ok_extend st h pNew b hash best dirty :
  index_ok st -> entries st !! pNew = None -> mapBlockIndex st !! hash = None ->
  tree_ok h -> h !! pNew = Some b -> (forall q, q <> pNew -> h !! q = entries st !! q) ->
  phashBlock b = Some hash -> word 32 (nBits b) -> wf_arr 32 8 (nChainWork b) -> pprev b <> Some pNew ->
  val (nChainWork b) = (parent_work (entries st) b + block_work (nBits b)) mod 2 ^ 256 ->
  (exists bb, h !! best = Some bb /\ forall q c, h !! q = Some c -> val (nChainWork c) <= val (nChainWork bb)) ->
  index_ok {| entries := h; mapBlockIndex := <[hash := pNew]> (mapBlockIndex st); pindexBestHeader := Some best; setDirtyBlockIndex := dirty |}.
Proof.
  intros Hst Hf Hn Ht Hb Hsame Ehash Wb Ww Hself Vw Hbest.
  assert (forall q c, h !! q = Some c -> (q = pNew /\ c = b) \/ (q <> pNew /\ entries st !! q = Some c)) as Hcase.
  { intros q c Hq. destruct (decide (q = pNew)) as [->|]; [left; split; congruence|right; by rewrite <- Hsame]. }
  split; cbn [entries mapBlockIndex pindexBestHeader]; try done.
  - intros hh p. destruct (decide (hh = hash)) as [->|Hne].
    + rewrite lookup_insert_eq. split; [intros [= <-]; by exists b|]. intros (c & Hc & Ec).
      destruct (Hcase p c Hc) as [[-> _]|[_ Hp]]; [done|]. assert (mapBlockIndex st !! hash = Some p) by (apply (io_map st Hst); by exists c). congruence.
    + rewrite lookup_insert_ne, (io_map st Hst) by done. split; intros (c & Hc & Ec).
      * exists c. rewrite Hsame; [done|congruence].
      * destruct (Hcase p c Hc) as [[-> ->]|[_ Hp]]; [congruence|by exists c].
  - intros p c Hc. destruct (Hcase p c Hc) as [[-> ->]|[_ Hp]]; [congruence|by apply (io_hash st Hst p)].
  - intros p c Hc. destruct (Hcase p c Hc) as [[-> ->]|[_ Hp]]; [done|by apply (io_bits st Hst p)].
  - intros p c Hc. destruct (Hcase p c Hc) as [[-> ->]|[Hne Hp]].
    + rewrite Vw. unfold parent_work. destruct (pprev b) as [q|] eqn:E; [|done]. rewrite Hsame by congruence. done.
    + rewrite (io_work st Hst p c Hp). destruct (pprev c) as [q|] eqn:E; [|done].
      destruct (ok_prev _ _ _ (io_tree st Hst p c Hp) q E) as (d & Hd & _). rewrite Hsame; [done|congruence].
Qed.

Section Add.
Context (GetHash : CBlockHeader -> list Z) (st : BlockTree) (Hst : index_ok st).
Context (pNew : ptr) (Hfresh : entries st !! pNew = None).
Context (block : CBlockHeader) (Hbits : word 32 (hdr_nBits block)).
Context (Hself : hdr_hashPrevBlock block <> GetHash block).
Context (Hmax : forall q c, entries st !! q = Some c -> nHeight c < 2 ^ 31 - 1).

(** The heap after the entry is linked. *)
Lemma add_linked :
  let hash := GetHash block in
  exists h b, link_new_entry (entries st) (<[hash := pNew]> (mapBlockIndex st)) pNew block hash = Some h /\ tree_ok h /\ h !! pNew = Some b /\ (forall q, q <> pNew -> h !! q = entries st !! q) /\
    nStatus b = 0 /\ phashBlock b = Some hash /\ nBits b = hdr_nBits block /\ nTime b = hdr_nTime block /\ nVersion b = hdr_nVersion block /\
    hashMerkleRoot b = hdr_hashMerkleRoot block /\ nNonce b = hdr_nNonce block /\
    match mapBlockIndex st !! hdr_hashPrevBlock block with
    | Some q => pprev b = Some q /\ exists c, entries st !! q = Some c /\ nHeight b = nHeight c + 1
    | None => pprev b = None /\ nHeight b = 0
    end.
Proof.
  cbv zeta. unfold link_new_entry. rewrite lookup_insert_ne by done. destruct (mapBlockIndex st !! hdr_hashPrevBlock block) as [prev|] eqn:Ep.
  - apply (io_map st Hst) in Ep as (c & Hc & _). assert (prev <> pNew) as Hne by congruence. rewrite lookup_insert_ne, Hc by done. cbn [mbind option_bind].
    unfold incr_int. pose proof (Hmax prev c Hc). destruct (Z.ltb_spec (nHeight c + 1) (2 ^ 31)); [|lia]. cbn [mbind option_bind]. rewrite insert_insert_eq.
    set (b0 := set_link _ _ _ _). assert (tree_ok (<[pNew := b0]> (entries st))) as Ht.
    { apply tree_ok_leaf; [apply Hst|done|done|]. exists c. done. }
    destruct (BuildSkip_spec _ pNew b0 Ht (lookup_insert_eq _ _ _)) as (s & E & _). rewrite E. pose proof (BuildSkip_ok _ _ _ Ht E) as Ht'.
    eexists _, (set_pskip b0 s). split; [done|]. split; [done|]. split; [apply lookup_insert_eq|]. split_and!; try done.
    + intros q Hq. by rewrite !lookup_insert_ne by done.
    + exists c. done.
  - eexists _, _. split; [done|]. split; [apply tree_ok_leaf; try done; apply Hst|]. split; [apply lookup_insert_eq|]. split_and!; try done.
    intros q Hq. by rewrite !lookup_insert_ne by done.
Qed.

Lemma AddToBlockIndex_spec :
  exists st' p, AddToBlockIndex GetHash st pNew block = Some (st', p) /\ index_ok st' /\
    match mapBlockIndex st !! GetHash block with
    | Some q => st' = st /\ p = q
    | None => p = pNew /\ mapBlockIndex st' = <[GetHash block := pNew]> (mapBlockIndex st) /\
        (forall q, q <> pNew -> entries st' !! q = entries st !! q) /\
        exists b, entries st' !! pNew = Some b /\ new_entry st block (GetHash block) b
    end.
Proof.
  unfold AddToBlockIndex. destruct (mapBlockIndex st !! GetHash block) as [q|] eqn:Eq; [exists st, q; done|].
  destruct add_linked as (h & b & -> & Ht & Hb & Hsame & Hstat & Ehash & Ebits & Etime & Ever & Emr & Enon & Elink). cbn [mbind option_bind]. rewrite Hb. cbn [mbind option_bind].
  destruct (GetBlockProof_spec b ltac:(by rewrite Ebits)) as (w & -> & Ww & Vw). cbn [mbind option_bind].
  assert (exists pw, match pprev b with Some prev => nChainWork <$> h !! prev | None => Some (arith_uint256_of 0) end = Some pw /\
    wf_arr 32 8 pw /\ val pw = parent_work (entries st) b /\ pprev b <> Some pNew) as (pw & -> & Wpw & Vpw & Hpw).
  { unfold parent_work. destruct (mapBlockIndex st !! hdr_hashPrevBlock block) as [q|] eqn:El.
    - destruct Elink as (-> & c & Hc & _). assert (q <> pNew) by congruence. rewrite Hsame, Hc by done. exists (nChainWork c).
      split_and!; try done; [apply (io_bits st Hst q c Hc)|congruence].
    - destruct Elink as (-> & _). exists (arith_uint256_of 0). destruct (u256_of 0 ltac:(unfold word; lia)) as [W0 V0]. done. }
  cbn [mbind option_bind]. destruct (u256_add pw w Wpw Ww) as [Wn Vn]. rewrite Vpw, Vw in Vn. set (b1 := set_nChainWork b (op_add pw w)).
  assert (forall b', forall q, q <> pNew -> <[pNew := b']> h !! q = entries st !! q) as Hsame' by (intros b' q Hq; by rewrite lookup_insert_ne, Hsame).
  destruct (best_header_spec st (<[pNew := b1]> h) pNew b1 Hst Hfresh (lookup_insert_eq _ _ _) Wn (Hsame' b1)) as (best & bb & -> & Hbb & Hbest).
  cbn [mbind option_bind]. destruct (RaiseValidity_spec b1 BLOCK_VALID_TREE) as (b2 & r & -> & _ & Elev & _ & E2).
  { change (nStatus b1) with (nStatus b). rewrite Hstat. unfold word; lia. }
  { unfold BLOCK_VALID_TREE; lia. }
  cbn [mbind option_bind]. assert (failed b1 = false /\ level b1 = 0) as [Ef El].
  { unfold failed, level. change (nStatus b1) with (nStatus b). rewrite Hstat. done. }
  rewrite Ef, El in Elev. eexists _, _. split; [done|].
  assert (forall A (f : CBlockIndex -> A), (forall c s, f (set_nStatus c s) = f c) -> f b2 = f b1) as Hf2 by (intros A f Hf; rewrite <- E2; by rewrite Hf).
  assert (forall A (f : CBlockIndex -> A), (forall c s, f (set_nStatus c s) = f c) -> (forall c x, f (set_nChainWork c x) = f c) -> f b2 = f b) as Hf1
    by (intros A f H1 H2; rewrite (Hf2 A f H1); apply H2).
  assert (nChainWork b2 = op_add pw w) as E2w by by rewrite (Hf2 _ nChainWork).
  split.
  - apply index_ok_extend with (st := st) (b := b2); try done.
    + apply (tree_ok_same h pNew b); try done; apply Hf1; done.
    + apply lookup_insert_eq.
    + apply Hsame'.
    + by rewrite (Hf1 _ phashBlock).
    + by rewrite (Hf1 _ nBits), Ebits.
    + by rewrite E2w.
    + by rewrite (Hf1 _ pprev).
    + rewrite E2w, Vn, (Hf1 _ nBits) by done. unfold parent_work. by rewrite (Hf1 _ pprev).
    + destruct (decide (best = pNew)) as [->|Hne].
      * exists b2. rewrite lookup_insert_eq in *. injection Hbb as <-. split; [done|]. intros q c Hq. rewrite (Hf2 _ nChainWork) by done.
        destruct (decide (q = pNew)) as [->|]; [rewrite lookup_insert_eq in Hq; injection Hq as <-; rewrite (Hf2 _ nChainWork); done|].
        apply (Hbest q). by rewrite lookup_insert_ne in * by done.
      * exists bb. rewrite lookup_insert_ne in * by done. split; [done|]. intros q c Hq.
        destruct (decide (q = pNew)) as [->|]; [|apply (Hbest q); by rewrite lookup_insert_ne in * by done].
        rewrite lookup_insert_eq in Hq. injection Hq as <-. rewrite (Hf2 _ nChainWork) by done. apply (Hbest pNew). apply lookup_insert_eq.
  - split; [done|]. split; [done|]. split; [apply Hsame'|]. exists b2. split; [apply lookup_insert_eq|].
    unfold new_entry. rewrite (Hf1 _ phashBlock), (Hf1 _ nBits), (Hf1 _ nTime), (Hf1 _ nVersion), (Hf1 _ hashMerkleRoot), (Hf1 _ nNonce), (Hf1 _ pprev), (Hf1 _ nHeight) by done.
    done.
Qed.

End Add.

(** ** Runs *)

Definition empty_index : BlockTree :=
  {| entries := ∅; mapBlockIndex := ∅; pindexBestHeader := None; setDirtyBlockIndex := ∅ |}.

(** The indices that accepting headers one after the other can produce. *)
Inductive reachable_index (GetHash : CBlockHeader -> list Z) : BlockTree -> Prop :=
  | RI_empty : reachable_index GetHash empty_index
  | RI_add st st' pNew p block :
      reachable_index GetHash st -> entries st !! pNew = None -> word 32 (hdr_nBits block) ->
      hdr_hashPrevBlock block <> GetHash block -> AddToBlockIndex GetHash st pNew block = Some (st', p) ->
      (forall q c, entries st !! q = Some c -> nHeight c < 2 ^ 31 - 1) ->
      reachable_index GetHash st'.

Lemma empty_index_ok : index_ok empty_index.
Proof.
  split; cbn; try done. intros hash p. rewrite lookup_empty. split; [done|]. intros (b & Hb & _). by rewrite lookup_empty in Hb.
Qed.

(** ** Main results *)

(** C35. The work of a block is [2^256 / (target + 1)], although that numerator does not
    fit: the division never fails, and the work is positive exactly for the
    [nBits] that encode a positive target below [2^256] without the sign bit. *)
Theorem block_proof_value b :
  word 32 (nBits b) ->
  exists w, GetBlockProof b = Some w /\ wf_arr 32 8 w /\
    val w = match target_of (nBits b) with Some t => 2 ^ 256 / (t + 1) | None => 0 end /\
    (0 < val w <-> exists t, target_of (nBits b) = Some t).
Proof.
  intros Hb. destruct (GetBlockProof_spec b Hb) as (w & E & W & V). exists w. split_and!; try done.
  rewrite V. symmetry. by apply block_work_pos.
Qed.

Lemma block_proof_value_witness :
  exists w, GetBlockProof (demo_entry 0 0) = Some w /\ val w = 0x100010001.
Proof.
  destruct (block_proof_value (demo_entry 0 0)) as (w & E & _ & V & _); [unfold word; cbn; lia|].
  exists w. split; [exact E|]. rewrite V. vm_compute. reflexivity.
Defined.

(** The equivalent time has the sign of the difference of work, its size is the
    difference times the spacing over the work of the tip, capped at the largest
    [int64_t]; the call fails exactly when the tip has no work. *)
Theorem proof_equivalent_time to from tip spacing :
  wf_arr 32 8 (nChainWork to) -> wf_arr 32 8 (nChainWork from) -> word 32 (nBits tip) -> word 64 spacing ->
  GetBlockProofEquivalentTime to from tip spacing =
    (if block_work (nBits tip) =? 0 then None
     else Some (equivalent_time (val (nChainWork to) - val (nChainWork from)) spacing (block_work (nBits tip)))) /\
  forall t, GetBlockProofEquivalentTime to from tip spacing = Some t -> - (2 ^ 63 - 1) <= t <= 2 ^ 63 - 1.
Proof.
  intros Ht Hf Hb Hs. rewrite GetBlockProofEquivalentTime_spec by done. split; [done|]. intros t Et.
  destruct (Z.eqb_spec (block_work (nBits tip)) 0); [done|]. injection Et as <-. unfold equivalent_time.
  destruct (GetBlockProof_spec tip Hb) as (w & _ & Ww & Vw). pose proof (u256_bound w Ww).
  set (r := _ / _). assert (0 <= r) by (apply Z.div_pos; [apply Z.mod_pos_bound; lia|lia]). case_match; lia.
Qed.

Lemma proof_equivalent_time_witness :
  GetBlockProofEquivalentTime (set_nChainWork SetNull (arith_uint256_of 0x500050005)) SetNull (demo_entry 0 0) 30 = Some 150 /\
  GetBlockProofEquivalentTime SetNull SetNull SetNull 30 = None.
Proof.
  split.
  - destruct (proof_equivalent_time (set_nChainWork SetNull (arith_uint256_of 0x500050005)) SetNull (demo_entry 0 0) 30) as [E _];
      [apply u256_of; unfold word; lia|apply (u256_of 0); unfold word; lia|unfold word; cbn; lia|unfold word; lia|].
    rewrite E. vm_compute. reflexivity.
  - destruct (proof_equivalent_time SetNull SetNull SetNull 30) as [E _];
      [apply (u256_of 0); unfold word; lia|apply (u256_of 0); unfold word; lia|unfold word; cbn; lia|unfold word; lia|].
    rewrite E. vm_compute. reflexivity.
Defined.

(** [GetBlockTrust] is zero for every block: its numerator is shifted out of the
    256 bits. *)
Theorem block_trust_is_zero b : word 32 (nBits b) -> GetBlockTrust b = Some (replicate 32 0).
Proof. apply GetBlockTrust_zero. Qed.

Lemma block_trust_is_zero_witness : GetBlockTrust (demo_entry 0 0) = Some (replicate 32 0).
Proof. apply block_trust_is_zero. unfold word; cbn; lia. Defined.

(** [RaiseValidity] never lowers the validity level, reports exactly the calls that
    raise it, leaves a failed entry alone and touches no other bit or field; a
    level that is none fails the assertion. *)
Theorem raise_validity_monotone b nUpTo :
  word 32 (nStatus b) -> word 32 nUpTo ->
  if nUpTo <=? BLOCK_VALID_MASK
  then exists b' r, RaiseValidity b nUpTo = Some (b', r) /\ r = negb (failed b) && (level b <? nUpTo) /\
    level b' = (if failed b then level b else Z.max (level b) nUpTo) /\ level b <= level b' /\
    (forall i, 3 <= i -> Z.testbit (nStatus b') i = Z.testbit (nStatus b) i) /\ set_nStatus b' (nStatus b) = b /\
    (r = true -> IsValid b' nUpTo = Some true)
  else RaiseValidity b nUpTo = None.
Proof.
  intros Hs Hu. change BLOCK_VALID_MASK with 7 at 1. destruct (Z.leb_spec nUpTo 7) as [Hle|Hgt].
  - destruct (RaiseValidity_spec b nUpTo Hs ltac:(unfold word in Hu; lia)) as (b' & r & E & Er & El & Hb & Es). exists b', r.
    split_and!; try done; [rewrite El; case_match; lia|].
    intros ->. symmetry in Er. apply andb_true_iff in Er as [Ef ?%Z.ltb_lt]. apply negb_true_iff in Ef.
    unfold IsValid. assert (nUpTo .& not32 BLOCK_VALID_MASK = 0) as ->.
    { unfold RaiseValidity in E. destruct (Z.eqb_spec (nUpTo .& not32 BLOCK_VALID_MASK) 0); [done|by cbn in E]. }
    cbn [Z.eqb negb]. fold (level b'). assert (nStatus b' .& BLOCK_FAILED_MASK = nStatus b .& BLOCK_FAILED_MASK) as ->.
    { bits_intro i Hi. rewrite !Z.land_spec. change BLOCK_FAILED_MASK with (3 << 5). destruct (Z.lt_ge_cases i 5).
      - by rewrite Z.shiftl_spec_low, !andb_false_r.
      - rewrite Hb by lia. done. }
    fold (failed b). rewrite Ef. f_equal. apply Z.leb_le. rewrite El, Ef. lia.
  - unfold RaiseValidity. destruct (Z.eqb_spec (nUpTo .& not32 BLOCK_VALID_MASK) 0) as [E|]; [|done]. exfalso.
    assert (nUpTo .& Z.ones 3 = nUpTo) as E2.
    { apply (word_eq 32); [by apply word_land_l|done|]. intros i Hi. rewrite Z.land_spec. destruct (Z.lt_ge_cases i 3).
      - rewrite Z.ones_spec_low by lia. apply andb_true_r.
      - rewrite Z.ones_spec_high, andb_false_r by lia. apply (f_equal (fun x => Z.testbit x i)) in E.
        change (not32 BLOCK_VALID_MASK) with (Z.ones 29 << 3) in E.
        rewrite Z.land_spec, Z.shiftl_spec, Z.ones_spec_low, Z.bits_0, andb_true_r in E by lia. done. }
    rewrite Z.land_ones in E2 by lia. pose proof (Z.mod_pos_bound nUpTo (2 ^ 3) ltac:(lia)). lia.
Qed.

Lemma raise_validity_monotone_witness :
  exists b', RaiseValidity (set_nStatus SetNull 9) BLOCK_VALID_SCRIPTS = Some (b', true) /\ nStatus b' = 14 /\ RaiseValidity SetNull 8 = None.
Proof.
  pose proof (raise_validity_monotone (set_nStatus SetNull 9) BLOCK_VALID_SCRIPTS ltac:(unfold word; cbn; lia) ltac:(unfold word, BLOCK_VALID_SCRIPTS; lia)) as H.
  pose proof (raise_validity_monotone SetNull 8 ltac:(unfold word; cbn; lia) ltac:(unfold word; lia)) as H8.
  destruct H as (b' & r & E & Er & _). vm_compute in Er. subst r. exists b'. split; [exact E|]. split; [|exact H8].
  injection E as <-. vm_compute. reflexivity.
Defined.

(** C3. [AddToBlockIndex] keeps the invariant of the index: hashes name the entries one
    to one, an entry is one higher than its parent and points to its ancestor at
    the skip height, its work is its parent's plus its own, and the best header
    has the most work.  A known header changes nothing; a new one adds exactly
    one entry, at the new address. *)
Theorem add_to_block_index_ok GetHash st pNew block :
  index_ok st -> entries st !! pNew = None -> word 32 (hdr_nBits block) -> hdr_hashPrevBlock block <> GetHash block ->
  (forall q c, entries st !! q = Some c -> nHeight c < 2 ^ 31 - 1) ->
  exists st' p, AddToBlockIndex GetHash st pNew block = Some (st', p) /\ index_ok st' /\
    match mapBlockIndex st !! GetHash block with
    | Some q => st' = st /\ p = q
    | None => p = pNew /\ mapBlockIndex st' = <[GetHash block := pNew]> (mapBlockIndex st) /\
        (forall q, q <> pNew -> entries st' !! q = entries st !! q) /\
        exists b, entries st' !! pNew = Some b /\ new_entry st block (GetHash block) b
    end.
Proof. intros. by apply AddToBlockIndex_spec. Qed.

Lemma add_to_block_index_ok_witness :
  exists st' p, AddToBlockIndex hdr_hashMerkleRoot empty_index 7
    {| hdr_nVersion := 1; hdr_hashPrevBlock := [0]; hdr_hashMerkleRoot := [1]; hdr_nTime := 5; hdr_nBits := 0x1D00FFFF; hdr_nNonce := 3 |}
    = Some (st', p) /\ index_ok st' /\ p = 7%nat.
Proof.
  destruct (add_to_block_index_ok hdr_hashMerkleRoot empty_index 7
    {| hdr_nVersion := 1; hdr_hashPrevBlock := [0]; hdr_hashMerkleRoot := [1]; hdr_nTime := 5; hdr_nBits := 0x1D00FFFF; hdr_nNonce := 3 |})
    as (st' & p & E & Hok & Hp).
  - exact empty_index_ok.
  - reflexivity.
  - unfold word; cbn; lia.
  - discriminate.
  - intros q c Hq. discriminate.
  - exists st', p. split; [exact E|]. split; [exact Hok|]. exact (proj1 Hp).
Defined.

(** Every index that accepting headers produces satisfies the invariant, so the
    ancestor search over it is correct. *)
Theorem reachable_index_invariant GetHash st p b height :
  reachable_index GetHash st -> entries st !! p = Some b ->
  index_ok st /\ GetAncestor (entries st) p height = Some (ancestor (entries st) p b height).
Proof.
  intros Hr Hp. assert (index_ok st) as Hst.
  { clear p b height Hp. induction Hr as [|st st' pNew p block _ IH Hf Hb Hs E Hm]; [apply empty_index_ok|].
    destruct (AddToBlockIndex_spec GetHash st IH pNew Hf block Hb Hs Hm) as (st1 & p1 & E1 & Hok & _). congruence. }
  split; [done|]. apply GetAncestor_spec; [apply Hst|done].
Qed.

Lemma reachable_index_invariant_witness :
  exists st b, reachable_index hdr_hashMerkleRoot st /\ entries st !! 7%nat = Some b /\ index_ok st.
Proof.
  set (blk := {| hdr_nVersion := 1; hdr_hashPrevBlock := [0]; hdr_hashMerkleRoot := [1]; hdr_nTime := 5; hdr_nBits := 0x1D00FFFF; hdr_nNonce := 3 |}).
  destruct (AddToBlockIndex_spec hdr_hashMerkleRoot empty_index empty_index_ok 7 eq_refl blk) as (st' & p & E & _ & Hn);
    [unfold word; cbn; lia|discriminate|intros q c Hq; discriminate|].
  destruct Hn as (-> & _ & _ & b & Hb & _). exists st', b.
  assert (reachable_index hdr_hashMerkleRoot st') as Hr.
  { apply (RI_add _ empty_index st' 7 7 blk); [constructor|reflexivity|unfold word; cbn; lia|discriminate|exact E|intros q c Hq; discriminate]. }
  split; [exact Hr|]. split; [exact Hb|]. exact (proj1 (reachable_index_invariant _ _ 7 b 0 Hr Hb)).
Defined.
