(* ===== verification/ConsensusParams.v ===== *)
(** * consensus/params.h: the parameters of the consensus rules

    The fields of [Consensus::Params] that the modelled components read; a
    [uint256] is its 32 bytes. *)

From Stdlib Require Import ZArith Lia.
From stdpp Require Import base tactics numbers list.
From S2P Require Import Prelude.

Inductive DeploymentPos :=
  | DEPLOYMENT_TESTDUMMY
  | DEPLOYMENT_CSV
  | DEPLOYMENT_SEGWIT
  | DEPLOYMENT_CSV_LEGACY
  | DEPLOYMENT_SEGWIT_LEGACY
  | DEPLOYMENT_COMMUNITYFUND
  | DEPLOYMENT_COMMUNITYFUND_ACCUMULATION
  | DEPLOYMENT_COLDSTAKING
  | DEPLOYMENT_COMMUNITYFUND_ACCUMULATION_SPREAD
  | DEPLOYMENT_COMMUNITYFUND_AMOUNT_V2
  | DEPLOYMENT_NTPSYNC
  | DEPLOYMENT_STATIC_REWARD
  | DEPLOYMENT_QUORUM_CFUND
  | DEPLOYMENT_VOTE_STATE_CACHE
  | DEPLOYMENT_CONSULTATIONS
  | DEPLOYMENT_DAO_CONSENSUS
  | DEPLOYMENT_COLDSTAKING_V2
  | DEPLOYMENT_POOL_FEE
  | DEPLOYMENT_EXCLUDE.

#[export] Instance DeploymentPos_eq_dec : EqDecision DeploymentPos.
Proof. solve_decision. Defined.

(** The enumerators in order: the values [0] to [MAX_VERSION_BITS_DEPLOYMENTS - 1]. *)
Definition all_deployments : list DeploymentPos := [
  DEPLOYMENT_TESTDUMMY; DEPLOYMENT_CSV; DEPLOYMENT_SEGWIT; DEPLOYMENT_CSV_LEGACY; DEPLOYMENT_SEGWIT_LEGACY;
  DEPLOYMENT_COMMUNITYFUND; DEPLOYMENT_COMMUNITYFUND_ACCUMULATION; DEPLOYMENT_COLDSTAKING;
  DEPLOYMENT_COMMUNITYFUND_ACCUMULATION_SPREAD; DEPLOYMENT_COMMUNITYFUND_AMOUNT_V2; DEPLOYMENT_NTPSYNC;
  DEPLOYMENT_STATIC_REWARD; DEPLOYMENT_QUORUM_CFUND; DEPLOYMENT_VOTE_STATE_CACHE; DEPLOYMENT_CONSULTATIONS;
  DEPLOYMENT_DAO_CONSENSUS; DEPLOYMENT_COLDSTAKING_V2; DEPLOYMENT_POOL_FEE; DEPLOYMENT_EXCLUDE ].

Record BIP9Deployment := { bit : Z; nStartTime : Z; nTimeout : Z }.

Record Params := {
  nMajorityEnforceBlockUpgrade : Z;
  nMajorityRejectBlockOutdated : Z;
  nMajorityWindow : Z;
  nRuleChangeActivationThreshold : Z;
  nMinerConfirmationWindow : Z;
  vDeployments : DeploymentPos -> BIP9Deployment;
  powLimit : list Z;
  fPowAllowMinDifficultyBlocks : bool;
  fPowNoRetargeting : bool;
  nPowTargetSpacing : Z;
  nPowTargetTimespan : Z;
  sigActivationTime : Z;
  nMaxFutureDrift : Z;
  nHeightv451Fork : Z;
  nHeightv452Fork : Z
}.

(** Division of [int64_t]; a zero divisor is undefined. *)
Definition DifficultyAdjustmentInterval (params : Params) : option Z :=
  if nPowTargetSpacing params =? 0 then None else Some (Z.quot (nPowTargetTimespan params) (nPowTargetSpacing params)).

Lemma all_deployments_complete pos : pos ∈ all_deployments.
Proof. apply list_elem_of_In. destruct pos; cbn; tauto. Qed.
