(* ===== verification/VersionBits.v ===== *)
(** * versionbits.h, versionbits.cpp: activation of rule changes by block versions

    [GetStateFor] computes the state of a deployment at a block: it walks back by
    whole periods to a block whose state is cached, and forward again, filling the
    cache.  The specification is the BIP9 recursion over all periods, without a
    cache and without the shortcut for blocks before the start time. *)

From Stdlib Require Import ZArith Lia.
From stdpp Require Import base tactics numbers list gmap sorting.
From S2P Require Import Prelude SphTypes ArithUint Chain ConsensusParams.

Inductive ThresholdState :=
  | THRESHOLD_DEFINED
  | THRESHOLD_STARTED
  | THRESHOLD_LOCKED_IN
  | THRESHOLD_ACTIVE
  | THRESHOLD_FAILED.

#[export] Instance ThresholdState_eq_dec : EqDecision ThresholdState.
Proof. solve_decision. Defined.

Abbreviation ThresholdConditionCache := (gmap (option ptr) ThresholdState).

(** The virtual functions of [AbstractThresholdConditionChecker]. *)
Record ConditionChecker := {
  Condition : heap -> ptr -> option bool;
  BeginTime : Z;
  EndTime : Z;
  Period : Z;
  Threshold : Z
}.

(** ** [GetStateFor] *)

(** The blocks to compute are a stack: the last one pushed is the head. *)
Fixpoint walk_back (fuel : nat) (h : heap) (c : ConditionChecker) (pindexPrev : option ptr)
  (cache : ThresholdConditionCache) (vToCompute : list ptr) : option (option ptr * ThresholdConditionCache * list ptr) :=
  match cache !! pindexPrev with
  | Some _ => Some (pindexPrev, cache, vToCompute)
  | None =>
      match pindexPrev with
      | None => Some (pindexPrev, <[pindexPrev := THRESHOLD_DEFINED]> cache, vToCompute)
      | Some p =>
          mtp ← GetMedianTimePast h p;
          if mtp <? BeginTime c then Some (pindexPrev, <[pindexPrev := THRESHOLD_DEFINED]> cache, vToCompute)
          else match fuel with
          | O => None
          | S fuel =>
              b ← h !! p;
              prev ← GetAncestor h p (nHeight b - Period c);
              walk_back fuel h c prev cache (p :: vToCompute)
          end
      end
  end.

Fixpoint count_signals (n : nat) (h : heap) (c : ConditionChecker) (pindexCount : option ptr) (count : Z) : option Z :=
  match n with
  | O => Some count
  | S n =>
      p ← pindexCount;
      ok ← Condition c h p;
      b ← h !! p;
      count_signals n h c (pprev b) (if (ok : bool) then count + 1 else count)
  end.

(** The [switch] over the state of the period before. *)
Definition next_state (h : heap) (c : ConditionChecker) (state : ThresholdState) (pindexPrev : ptr) : option ThresholdState :=
  match state with
  | THRESHOLD_DEFINED =>
      mtp ← GetMedianTimePast h pindexPrev;
      Some (if EndTime c <=? mtp then THRESHOLD_FAILED else if BeginTime c <=? mtp then THRESHOLD_STARTED else state)
  | THRESHOLD_STARTED =>
      mtp ← GetMedianTimePast h pindexPrev;
      if EndTime c <=? mtp then Some THRESHOLD_FAILED
      else
        count ← count_signals (Z.to_nat (Period c)) h c (Some pindexPrev) 0;
        Some (if Threshold c <=? count then THRESHOLD_LOCKED_IN else state)
  | THRESHOLD_LOCKED_IN => Some THRESHOLD_ACTIVE
  | THRESHOLD_FAILED | THRESHOLD_ACTIVE => Some state
  end.

Fixpoint walk_forward (h : heap) (c : ConditionChecker) (cache : ThresholdConditionCache) (state : ThresholdState)
  (vToCompute : list ptr) : option (ThresholdState * ThresholdConditionCache) :=
  match vToCompute with
  | [] => Some (state, cache)
  | p :: vToCompute =>
      stateNext ← next_state h c state p;
      walk_forward h c (<[Some p := stateNext]> cache) stateNext vToCompute
  end.

(** The last block of the period before that of the block after [pindexPrev]. *)
Definition period_start (h : heap) (c : ConditionChecker) (pindexPrev : option ptr) : option (option ptr) :=
  match pindexPrev with
  | None => Some None
  | Some p =>
      b ← h !! p;
      if Period c =? 0 then None else GetAncestor h p (nHeight b - Z.rem (nHeight b + 1) (Period c))
  end.

Definition GetStateFor (h : heap) (c : ConditionChecker) (pindexPrev : option ptr) (cache : ThresholdConditionCache) :
  option (ThresholdState * ThresholdConditionCache) :=
  pindexPrev ← period_start h c pindexPrev;
  let fuel := match pindexPrev with Some p => match h !! p with Some b => S (Z.to_nat (nHeight b)) | None => 0%nat end | None => 0%nat end in
  '(pindexPrev, cache, vToCompute) ← walk_back fuel h c pindexPrev cache [];
  state ← cache !! pindexPrev;
  walk_forward h c cache state vToCompute.

(** ** Specification: the BIP9 recursion *)

(** One period: from the state of the period before, the median time at its end
    and the number of blocks of it that signal. *)
Inductive threshold_step (c : ConditionChecker) (mtp count : Z) : ThresholdState -> ThresholdState -> Prop :=
  | TS_defined : mtp < EndTime c -> mtp < BeginTime c -> threshold_step c mtp count THRESHOLD_DEFINED THRESHOLD_DEFINED
  | TS_start : mtp < EndTime c -> BeginTime c <= mtp -> threshold_step c mtp count THRESHOLD_DEFINED THRESHOLD_STARTED
  | TS_defined_timeout : EndTime c <= mtp -> threshold_step c mtp count THRESHOLD_DEFINED THRESHOLD_FAILED
  | TS_started : mtp < EndTime c -> count < Threshold c -> threshold_step c mtp count THRESHOLD_STARTED THRESHOLD_STARTED
  | TS_lock_in : mtp < EndTime c -> Threshold c <= count -> threshold_step c mtp count THRESHOLD_STARTED THRESHOLD_LOCKED_IN
  | TS_started_timeout : EndTime c <= mtp -> threshold_step c mtp count THRESHOLD_STARTED THRESHOLD_FAILED
  | TS_activate : threshold_step c mtp count THRESHOLD_LOCKED_IN THRESHOLD_ACTIVE
  | TS_active : threshold_step c mtp count THRESHOLD_ACTIVE THRESHOLD_ACTIVE
  | TS_failed : threshold_step c mtp count THRESHOLD_FAILED THRESHOLD_FAILED.

(** The blocks of the last period, and how many of them signal. *)
Definition signals (h : heap) (c : ConditionChecker) (p : ptr) (i : nat) : bool :=
  match up h p i with Some q => match Condition c h q with Some v => v | None => false end | None => false end.
Definition period_count (h : heap) (c : ConditionChecker) (p : ptr) : Z :=
  Z.of_nat (length (List.filter (signals h c p) (seq 0 (Z.to_nat (Period c))))).

(** The state after the period that ends at a block; [None] is before the genesis block. *)
Inductive bip9_state (h : heap) (c : ConditionChecker) : option ptr -> ThresholdState -> Prop :=
  | B9_genesis : bip9_state h c None THRESHOLD_DEFINED
  | B9_period p b mtp s s' :
      h !! p = Some b -> (nHeight b + 1) mod Period c = 0 -> GetMedianTimePast h p = Some mtp ->
      bip9_state h c (ancestor h p b (nHeight b - Period c)) s ->
      threshold_step c mtp (period_count h c p) s s' -> bip9_state h c (Some p) s'.

(** The recursion that the code follows on any chain: a period that ends before the
    start time has the state DEFINED, whatever the periods before it had. *)
Inductive period_state (h : heap) (c : ConditionChecker) : option ptr -> ThresholdState -> Prop :=
  | PS_genesis : period_state h c None THRESHOLD_DEFINED
  | PS_before p b mtp :
      h !! p = Some b -> (nHeight b + 1) mod Period c = 0 -> GetMedianTimePast h p = Some mtp -> mtp < BeginTime c ->
      period_state h c (Some p) THRESHOLD_DEFINED
  | PS_period p b mtp s s' :
      h !! p = Some b -> (nHeight b + 1) mod Period c = 0 -> GetMedianTimePast h p = Some mtp -> BeginTime c <= mtp ->
      period_state h c (ancestor h p b (nHeight b - Period c)) s ->
      threshold_step c mtp (period_count h c p) s s' -> period_state h c (Some p) s'.

Lemma threshold_step_det c mtp n s s1 s2 : threshold_step c mtp n s s1 -> threshold_step c mtp n s s2 -> s1 = s2.
Proof. intros H1 H2. destruct H1; inversion H2; subst; try done; lia. Qed.

Lemma bip9_state_det h c p s1 s2 : bip9_state h c p s1 -> bip9_state h c p s2 -> s1 = s2.
Proof.
  intros H1. revert s2. induction H1 as [|p b mtp s s' Hp Hm Ht H1 IH Hs]; intros s2 H2; inversion H2; subst; [done|].
  simplify_eq. assert (s = s0) as -> by by apply IH. by eapply threshold_step_det.
Qed.

Lemma period_state_det h c p s1 s2 : period_state h c p s1 -> period_state h c p s2 -> s1 = s2.
Proof.
  intros H1. revert s2. induction H1 as [|p b mtp Hp Hm Ht Hlt|p b mtp s s' Hp Hm Ht Hge H1 IH Hs]; intros s2 H2; inversion H2; subst; simplify_eq; try (done || lia).
  assert (s = s0) as -> by by apply IH. by eapply threshold_step_det.
Qed.

Lemma filter_map_S (f g : nat -> bool) l : (forall i, f (S i) = g i) -> length (List.filter f (map S l)) = length (List.filter g l).
Proof. intros E. induction l as [|i l IH]; [done|]. cbn [map List.filter]. rewrite E. destruct (g i); cbn [length]; congruence. Qed.

Section Checker.
Context (h : heap) (Hok : tree_ok h) (c : ConditionChecker).
Context (Hperiod : 0 < Period c).
Context (Hcond : forall p b, h !! p = Some b -> exists v, Condition c h p = Some v).

Lemma mtp_total p b : h !! p = Some b -> exists m, GetMedianTimePast h p = Some m.
Proof. intros Hp. destruct (GetMedianTimePast_spec h Hok p b Hp) as (m & l & E & _). eauto. Qed.

(** Counting block by block counts the signals of the period. *)
Lemma count_signals_spec n p b k :
  h !! p = Some b -> Z.of_nat n <= nHeight b + 1 ->
  count_signals n h c (Some p) k = Some (k + Z.of_nat (length (List.filter (signals h c p) (seq 0 n)))).
Proof.
  revert p b k. induction n as [|n IH]; intros p b k Hp Hn; [cbn; f_equal; lia|]. cbn [count_signals mbind option_bind].
  destruct (Hcond p b Hp) as [v Ev]. rewrite Ev, Hp. cbn [mbind option_bind].
  cbn [seq List.filter]. assert (signals h c p 0 = v) as -> by (unfold signals; cbn [up]; by rewrite Ev).
  destruct (decide (n = 0%nat)) as [->|Hnz]; [cbn; destruct v; cbn; f_equal; lia|].
  destruct (pprev b) as [q|] eqn:Eq; [|pose proof (ok_root _ _ _ (Hok p b Hp) Eq); lia].
  destruct (ok_prev _ _ _ (Hok p b Hp) q Eq) as (d & Hd & E). rewrite (IH q d) by (done || lia).
  assert (length (List.filter (signals h c p) (seq 1 n)) = length (List.filter (signals h c q) (seq 0 n))) as El.
  { rewrite <- seq_shift. apply filter_map_S. intros i. unfold signals. cbn [up]. rewrite Hp. cbn. by rewrite Eq. }
  f_equal. destruct v; cbn [length]; rewrite El; lia.
Qed.

(** The last block of a period. *)
Definition boundary (p : ptr) (b : CBlockIndex) : Prop := h !! p = Some b /\ (nHeight b + 1) mod Period c = 0.

Definition boundary_key (k : option ptr) : Prop := match k with None => True | Some p => exists b, boundary p b end.

Lemma boundary_height p b : boundary p b -> Period c <= nHeight b + 1.
Proof.
  intros [Hp Hm]. pose proof (ok_height _ _ _ (Hok p b Hp)). destruct (Z.le_gt_cases (Period c) (nHeight b + 1)); [done|]. rewrite Z.mod_small in Hm by lia. lia.
Qed.

Lemma boundary_prev p b : boundary p b -> boundary_key (ancestor h p b (nHeight b - Period c)).
Proof.
  intros Hb. pose proof (boundary_height p b Hb). destruct Hb as [Hp Hm]. destruct (ancestor h p b _) as [q|] eqn:E; [|done].
  unfold ancestor in E. case_match eqn:Ec; [done|]. apply orb_false_iff in Ec as [?%Z.ltb_ge ?%Z.ltb_ge].
  destruct (up_height h Hok p b _ q Hp E) as (d & Hd & Eh). exists d. split; [done|].
  replace (nHeight d + 1) with (nHeight b + 1 + (-1) * Period c) by lia. by rewrite Z.mod_add by lia.
Qed.

Lemma next_state_spec p b s :
  boundary p b -> exists s' mtp, next_state h c s p = Some s' /\ GetMedianTimePast h p = Some mtp /\ threshold_step c mtp (period_count h c p) s s'.
Proof.
  intros Hb. pose proof (boundary_height p b Hb). destruct Hb as [Hp Hm]. destruct (mtp_total p b Hp) as [m Em].
  unfold next_state. rewrite Em. cbn [mbind option_bind]. destruct s.
  - eexists _, m. split; [done|]. split; [done|]. destruct (Z.leb_spec (EndTime c) m); [by constructor|].
    destruct (Z.leb_spec (BeginTime c) m); by constructor.
  - destruct (Z.leb_spec (EndTime c) m); [eexists _, m; split_and!; try done; by constructor|].
    rewrite (count_signals_spec _ p b) by (done || lia). cbn [mbind option_bind]. fold (period_count h c p). rewrite Z.add_0_l.
    eexists _, m. split; [done|]. split; [done|]. destruct (Z.leb_spec (Threshold c) (period_count h c p)); by constructor.
  - eexists _, m. split_and!; try done. constructor.
  - eexists _, m. split_and!; try done. constructor.
  - eexists _, m. split_and!; try done. constructor.
Qed.

Lemma period_total k : boundary_key k -> exists s, period_state h c k s.
Proof.
  destruct k as [p|]; [|exists THRESHOLD_DEFINED; constructor]. intros [b Hb].
  remember (Z.to_nat (nHeight b)) as n eqn:En. revert p b Hb En. induction (lt_wf n) as [n _ IH]. intros p b Hb ->.
  destruct (mtp_total p b (proj1 Hb)) as [m Em]. destruct (Z.lt_ge_cases m (BeginTime c)) as [Hlt|Hge]; [exists THRESHOLD_DEFINED; by destruct Hb; eapply PS_before|].
  assert (exists s, period_state h c (ancestor h p b (nHeight b - Period c)) s) as [s Hs].
  { pose proof (boundary_prev p b Hb) as Hk. destruct (ancestor h p b _) as [q|] eqn:E; [|exists THRESHOLD_DEFINED; constructor].
    destruct Hk as [d Hd]. destruct (ancestor_height h Hok p b _ q d (proj1 Hb) E (proj1 Hd)) as [Eh Hr]. apply (IH (Z.to_nat (nHeight d)) ltac:(lia) q d Hd eq_refl). }
  destruct (next_state_spec p b s Hb) as (s' & m' & _ & Em' & Hst). simplify_eq. exists s'. by destruct Hb; eapply PS_period.
Qed.

Definition cache_ok (cache : ThresholdConditionCache) : Prop := forall k s, cache !! k = Some s -> period_state h c k s.

Lemma cache_ok_insert cache k s :
  cache_ok cache -> period_state h c k s -> cache_ok (<[k := s]> cache) /\ cache ⊆ <[k := s]> cache.
Proof.
  intros Hc Hk. split.
  - intros k' s' Hl. destruct (decide (k' = k)) as [->|]; [rewrite lookup_insert_eq in Hl; by simplify_eq|]. rewrite lookup_insert_ne in Hl by done. by apply Hc.
  - apply map_subseteq_spec. intros k' s' Hl. destruct (decide (k' = k)) as [->|]; [|by rewrite lookup_insert_ne].
    rewrite lookup_insert_eq. f_equal. apply (period_state_det h c k); [done|by apply Hc].
Qed.

(** The stack holds consecutive period ends, the first of which follows [k]. *)
Fixpoint stack_ok (k : option ptr) (v : list ptr) : Prop :=
  match v with
  | [] => True
  | p :: v => (exists b m, boundary p b /\ ancestor h p b (nHeight b - Period c) = k /\ GetMedianTimePast h p = Some m /\ BeginTime c <= m) /\ stack_ok (Some p) v
  end.
Fixpoint stack_end (k : option ptr) (v : list ptr) : option ptr := match v with [] => k | p :: v => stack_end (Some p) v end.

Definition key_height (k : option ptr) : nat := match k with Some p => match h !! p with Some b => S (Z.to_nat (nHeight b)) | None => 0 end | None => 0 end.

Lemma walk_back_spec fuel k cache v :
  boundary_key k -> cache_ok cache -> stack_ok k v -> (key_height k <= fuel)%nat ->
  exists k' s cache' v', walk_back fuel h c k cache v = Some (k', cache', v') /\ cache_ok cache' /\ cache ⊆ cache' /\
    cache' !! k' = Some s /\ stack_ok k' v' /\ stack_end k' v' = stack_end k v.
Proof.
  revert k cache v. induction fuel as [|fuel IH]; intros k cache v Hk Hc Hs Hf; cbn [walk_back];
    (destruct (cache !! k) as [s|] eqn:El; [exists k, s, cache, v; done|]);
    (destruct k as [p|]; [|destruct (cache_ok_insert cache None THRESHOLD_DEFINED Hc ltac:(constructor));
       eexists None, _, _, v; split_and!; try done; apply lookup_insert_eq]);
    destruct Hk as [b Hb]; destruct (mtp_total p b (proj1 Hb)) as [m Em]; rewrite Em; cbn [mbind option_bind].
  all: destruct (Z.ltb_spec m (BeginTime c));
    [assert (period_state h c (Some p) THRESHOLD_DEFINED) as Hst by (destruct Hb; by eapply PS_before); destruct (cache_ok_insert cache (Some p) _ Hc Hst); eexists (Some p), _, _, v; split_and!; try done; apply lookup_insert_eq|].
  - cbn in Hf. rewrite (proj1 Hb) in Hf. lia.
  - rewrite (proj1 Hb). cbn [mbind option_bind]. rewrite (GetAncestor_spec h Hok p b _ (proj1 Hb)). cbn [mbind option_bind].
    refine (IH (ancestor h p b (nHeight b - Period c)) cache (p :: v) _ Hc _ _); [by apply boundary_prev|split; [by exists b, m|done]|]. cbn in Hf. rewrite (proj1 Hb) in Hf.
    destruct (ancestor h p b (nHeight b - Period c)) as [q|] eqn:E; cbn; [|lia].
    pose proof (boundary_prev p b Hb) as Hq. rewrite E in Hq. destruct Hq as [d Hd]. rewrite (proj1 Hd).
    destruct (ancestor_height h Hok p b _ q d (proj1 Hb) E (proj1 Hd)). lia.
Qed.

Lemma walk_forward_spec cache s k v :
  cache_ok cache -> period_state h c k s -> stack_ok k v ->
  exists s' cache', walk_forward h c cache s v = Some (s', cache') /\ period_state h c (stack_end k v) s' /\ cache_ok cache' /\ cache ⊆ cache'.
Proof.
  revert cache s k. induction v as [|p v IH]; intros cache s k Hc Hk Hs; [exists s, cache; done|]. cbn [walk_forward stack_end].
  destruct Hs as ((b & m0 & Hb & Ea & Em0 & Hge) & Hs). destruct (next_state_spec p b s Hb) as (s' & m & -> & Em & Hst). cbn [mbind option_bind].
  assert (period_state h c (Some p) s') as Hp by (destruct Hb; simplify_eq; eapply PS_period; try done; by rewrite Ea).
  destruct (cache_ok_insert cache (Some p) s' Hc Hp) as [Hc' Hsub]. destruct (IH _ s' (Some p) Hc' Hp Hs) as (s2 & cache2 & E & H2 & H3 & H4).
  exists s2, cache2. split_and!; try done. by etrans.
Qed.

Lemma period_start_spec k : (forall p, k = Some p -> is_Some (h !! p)) -> exists k', period_start h c k = Some k' /\ boundary_key k'.
Proof.
  intros Hk. destruct k as [p|]; [|by exists None]. destruct (Hk p eq_refl) as [b Hp]. unfold period_start. rewrite Hp. cbn [mbind option_bind].
  destruct (Z.eqb_spec (Period c) 0); [lia|]. pose proof (ok_height _ _ _ (Hok p b Hp)). rewrite (GetAncestor_spec h Hok p b _ Hp).
  eexists. split; [done|]. destruct (ancestor h p b _) as [q|] eqn:E; [|done]. unfold ancestor in E. case_match eqn:Ec; [done|].
  apply orb_false_iff in Ec as [?%Z.ltb_ge ?%Z.ltb_ge]. destruct (up_height h Hok p b _ q Hp E) as (d & Hd & Eh). exists d. split; [done|].
  rewrite Z.rem_mod_nonneg in * by lia. pose proof (Z.mod_pos_bound (nHeight b + 1) (Period c) ltac:(lia)).
  rewrite Z2Nat.id in Eh by lia. pose proof (Z.div_mod (nHeight b + 1) (Period c) ltac:(lia)).
  replace (nHeight d + 1) with ((nHeight b + 1) / Period c * Period c) by lia. apply Z.mod_mul. lia.
Qed.

Lemma GetStateFor_spec k cache :
  (forall p, k = Some p -> is_Some (h !! p)) -> cache_ok cache ->
  exists k' s cache', period_start h c k = Some k' /\ GetStateFor h c k cache = Some (s, cache') /\ period_state h c k' s /\
    cache_ok cache' /\ cache ⊆ cache'.
Proof.
  intros Hk Hc. destruct (period_start_spec k Hk) as (k' & Ek & Hb). unfold GetStateFor. rewrite Ek. cbn [mbind option_bind].
  fold (key_height k'). destruct (walk_back_spec (key_height k') k' cache [] Hb Hc I (le_n _)) as (k2 & s & cache2 & v & -> & Hc2 & Hsub & El & Hs & Ee).
  cbn [mbind option_bind]. rewrite El. cbn [mbind option_bind].
  destruct (walk_forward_spec cache2 s k2 v Hc2 (Hc2 _ _ El) Hs) as (s' & cache3 & E & Hst & Hc3 & Hsub3). cbn in Ee. rewrite Ee in Hst.
  exists k', s', cache3. split_and!; try done. by etrans.
Qed.

(** On a chain whose times do not decrease, with a start before the timeout, this is BIP9. *)
Section Bip9.
Context (Htimes : times_ok h).

Lemma mtp_up_mono n p b q m m' :
  h !! p = Some b -> up h p n = Some q -> GetMedianTimePast h p = Some m -> GetMedianTimePast h q = Some m' -> m' <= m.
Proof.
  revert p b m. induction n as [|n IH]; intros p b m Hp Hu Em Em'; [cbn in Hu; simplify_eq; lia|]. cbn [up] in Hu. rewrite Hp in Hu. cbn in Hu.
  destruct (pprev b) as [r|] eqn:Er; [|done]. cbn in Hu. destruct (ok_prev _ _ _ (Hok p b Hp) r Er) as (d & Hd & _).
  destruct (mtp_total r d Hd) as [m1 Em1]. specialize (IH r d m1 Hd Hu Em1 Em').
  pose proof (GetMedianTimePast_mono h Hok p b r m m1 Htimes Hp Er Em Em1). lia.
Qed.

Lemma ancestor_mtp p b q d m : h !! p = Some b -> GetMedianTimePast h p = Some m -> ancestor h p b (nHeight b - Period c) = Some q -> h !! q = Some d ->
  exists m', GetMedianTimePast h q = Some m' /\ m' <= m.
Proof.
  intros Hp Em E Hd. destruct (mtp_total q d Hd) as [m' Em']. exists m'. split; [done|]. unfold ancestor in E. case_match; [done|]. by apply (mtp_up_mono _ p b q m m' Hp E Em Em').
Qed.

(** Before the start time nothing has happened. *)
Lemma before_start p b m : BeginTime c <= EndTime c -> boundary p b -> GetMedianTimePast h p = Some m -> m < BeginTime c -> bip9_state h c (Some p) THRESHOLD_DEFINED.
Proof.
  intros Hbegin. remember (Z.to_nat (nHeight b)) as n eqn:En. revert p b m En. induction (lt_wf n) as [n _ IH]. intros p b m -> Hb Em Hlt.
  assert (bip9_state h c (ancestor h p b (nHeight b - Period c)) THRESHOLD_DEFINED) as Hs.
  { pose proof (boundary_prev p b Hb) as Hk. destruct (ancestor h p b _) as [q|] eqn:E; [|constructor]. destruct Hk as [d Hd].
    destruct (ancestor_height h Hok p b _ q d (proj1 Hb) E (proj1 Hd)) as [Eh Hr]. destruct (ancestor_mtp p b q d m (proj1 Hb) Em E (proj1 Hd)) as (m' & Em' & Hle).
    apply (IH (Z.to_nat (nHeight d)) ltac:(lia) q d m' eq_refl Hd Em'). lia. }
  destruct Hb. eapply B9_period; try done. constructor; lia.
Qed.

Lemma period_bip9 k s : BeginTime c <= EndTime c -> period_state h c k s -> bip9_state h c k s.
Proof.
  intros Hbegin H. induction H as [|p b mtp Hp Hm Ht Hlt|p b mtp s s' Hp Hm Ht Hge H IH Hs]; [constructor| |by eapply B9_period].
  by apply (before_start p b mtp).
Qed.

(** *** The course of a deployment *)

(** The states that can follow a state. *)
Definition reaches (s s' : ThresholdState) : bool :=
  match s, s' with
  | THRESHOLD_DEFINED, _ => true
  | THRESHOLD_STARTED, THRESHOLD_DEFINED => false
  | THRESHOLD_STARTED, _ => true
  | THRESHOLD_LOCKED_IN, (THRESHOLD_LOCKED_IN | THRESHOLD_ACTIVE) => true
  | THRESHOLD_ACTIVE, THRESHOLD_ACTIVE => true
  | THRESHOLD_FAILED, THRESHOLD_FAILED => true
  | _, _ => false
  end.

Lemma reaches_trans s1 s2 s3 : reaches s1 s2 = true -> reaches s2 s3 = true -> reaches s1 s3 = true.
Proof. by destruct s1, s2, s3. Qed.

Lemma step_reaches mtp n s s' : threshold_step c mtp n s s' -> reaches s s' = true.
Proof. by destruct 1. Qed.

(** The period before. *)
Lemma ancestor_period p b q : h !! p = Some b -> up h p (Z.to_nat (Period c)) = Some q -> ancestor h p b (nHeight b - Period c) = Some q.
Proof.
  intros Hp Hu. pose proof (up_le h Hok p b _ q Hp Hu) as Hle. unfold ancestor.
  destruct (Z.ltb_spec (nHeight b) (nHeight b - Period c)), (Z.ltb_spec (nHeight b - Period c) 0); try lia. cbn [orb].
  by replace (nHeight b - (nHeight b - Period c)) with (Period c) by lia.
Qed.

(** One period later: nothing is undone, and what is locked in is active. *)
Lemma period_next p q s s' : period_state h c (Some q) s -> up h p (Z.to_nat (Period c)) = Some q -> period_state h c (Some p) s' ->
  reaches s s' = true /\ (s = THRESHOLD_LOCKED_IN -> s' = THRESHOLD_ACTIVE).
Proof.
  intros Hq Hu H. inversion H as [|? b mtp Hp Hm Ht Hlt|? b mtp s0 ? Hp Hm Ht Hge H0 Hs]; subst; pose proof (ancestor_period p b q Hp Hu) as E.
  - assert (s = THRESHOLD_DEFINED) as ->; [|done]. inversion Hq as [|? d m Hd|? d m ? ? Hd Hmd Em Hgm]; subst; [done|].
    destruct (ancestor_mtp p b q d mtp Hp Ht E Hd) as (m' & Em' & Hle). simplify_eq. lia.
  - rewrite E in H0. rewrite (period_state_det _ _ _ _ _ Hq H0). split; [by eapply step_reaches|]. intros ->. by inversion Hs.
Qed.

Lemma periods_later n p q s s' : period_state h c (Some q) s -> up h p (n * Z.to_nat (Period c)) = Some q -> period_state h c (Some p) s' ->
  reaches s s' = true /\ ((0 < n)%nat -> s = THRESHOLD_LOCKED_IN -> s' = THRESHOLD_ACTIVE).
Proof.
  revert p s'. induction n as [|n IH]; intros p s' Hq Hu H.
  - cbn in Hu. injection Hu as ->. rewrite (period_state_det _ _ _ _ _ Hq H). split; [by destruct s'|lia].
  - cbn [Nat.mul] in Hu. rewrite up_add in Hu. destruct (up h p (Z.to_nat (Period c))) as [r|] eqn:Er; [|done]. cbn [mbind option_bind] in Hu.
    assert (exists b, boundary p b) as [b Hb] by (inversion H; subst; eexists; by split). pose proof (ancestor_period p b r (proj1 Hb) Er) as Ea.
    pose proof (boundary_prev p b Hb) as Hk. rewrite Ea in Hk. destruct (period_total (Some r) Hk) as [sr Hr]. destruct (IH r sr Hq Hu Hr) as [IH1 IH2]. destruct (period_next p r sr s' Hr Er H) as [H1 H2].
    split; [by eapply reaches_trans|]. intros _ ->. destruct n as [|n]; [|rewrite (IH2 ltac:(lia) eq_refl) in H1; by destruct s'].
    cbn in Hu. injection Hu as ->. by rewrite (period_state_det _ _ _ _ _ Hq Hr) in H2; apply H2.
Qed.

End Bip9.

(** An active deployment was locked in before, by a period with enough signals. *)
Lemma active_was_locked_in p :
  period_state h c (Some p) THRESHOLD_ACTIVE ->
  exists n q b, up h p n = Some q /\ (0 < n)%nat /\ boundary q b /\ period_state h c (Some q) THRESHOLD_LOCKED_IN /\ Threshold c <= period_count h c q.
Proof.
  intros H. remember (Some p) as k eqn:Ek. remember THRESHOLD_ACTIVE as s eqn:Es. revert p Ek Es.
  induction H as [|p b mtp Hp Hm Ht Hlt|p b mtp s s' Hp Hm Ht Hge H IH Hs]; intros p' [= <-] E'; [done|subst s'].
  destruct (ancestor h p b (nHeight b - Period c)) as [q|] eqn:E; [|inversion H; subst; by inversion Hs].
  assert (up h p (Z.to_nat (Period c)) = Some q) as Hu.
  { unfold ancestor in E. case_match; [done|]. by replace (nHeight b - (nHeight b - Period c)) with (Period c) in E by lia. }
  inversion Hs; subst.
  - inversion H as [| |? d m s ? Hd Hmd Em Hgm H0 Hst]; subst. exists (Z.to_nat (Period c)), q, d. split_and!; [done|lia|done|done|]. by inversion Hst.
  - destruct (IH q eq_refl eq_refl) as (n & r & d & Hr & Hn & Hd & Hl & Hc). exists (Z.to_nat (Period c) + n)%nat, r, d. rewrite up_add, Hu. split_and!; (done || lia).
Qed.

End Checker.

(** ** The deployments of the network *)

Definition VERSIONBITS_TOP_BITS : Z := 0x70000000.
Definition VERSIONBITS_TOP_BITS_SIG : Z := 0x71000000.
(** [0xF0000000UL] as an [int32_t]. *)
Definition VERSIONBITS_TOP_MASK : Z := - 0x10000000.

Definition IsSigHFEnabled (params : Params) (h : heap) (pindexPrev : option ptr) : option bool :=
  match pindexPrev with
  | None => Some false
  | Some p => mtp ← GetMedianTimePast h p; Some (sigActivationTime params <=? mtp)
  end.

Definition Mask (params : Params) (id : DeploymentPos) : Z := SPH_T32 (1 << bit (vDeployments params id)).

(** [==] binds stronger than [?:]: the comparison is the condition of the
    conditional expression, whose value is then taken as a truth value. *)
Definition VersionBits_Condition (params : Params) (id : DeploymentPos) (h : heap) (pindex : ptr) : option bool :=
  b ← h !! pindex;
  sig ← IsSigHFEnabled params h (Some pindex);
  let v := if nVersion b .& VERSIONBITS_TOP_MASK =? (if (sig : bool) then 1 else 0) then VERSIONBITS_TOP_BITS_SIG else VERSIONBITS_TOP_BITS in
  Some (negb (v =? 0) && negb (SPH_T32 (nVersion b) .& Mask params id =? 0)).

Definition VersionBitsConditionChecker (params : Params) (id : DeploymentPos) : ConditionChecker := {|
  Condition := VersionBits_Condition params id;
  BeginTime := nStartTime (vDeployments params id);
  EndTime := nTimeout (vDeployments params id);
  Period := nMinerConfirmationWindow params;
  Threshold := nRuleChangeActivationThreshold params |}.

(** One cache per deployment. *)
Definition VersionBitsCache := DeploymentPos -> ThresholdConditionCache.

Definition VersionBitsCache_set (caches : VersionBitsCache) (pos : DeploymentPos) (c : ThresholdConditionCache) : VersionBitsCache :=
  fun d => if decide (d = pos) then c else caches d.

Definition VersionBitsCache_Clear : VersionBitsCache := fun _ => ∅.

Definition VersionBitsState (h : heap) (params : Params) (pindexPrev : option ptr) (pos : DeploymentPos) (caches : VersionBitsCache) :
  option (ThresholdState * VersionBitsCache) :=
  '(state, c) ← GetStateFor h (VersionBitsConditionChecker params pos) pindexPrev (caches pos);
  Some (state, VersionBitsCache_set caches pos c).

Definition VersionBitsMask (params : Params) (pos : DeploymentPos) : Z := Mask params pos.

(** *** Voting options of the node *)

Definition rejectedVersionBitsByDefault : list Z := [17].

Definition isdigit (ch : Z) : bool := (48 <=? ch) && (ch <=? 57).

(** [stoi] on a string that starts with a digit; [None] is the exception out_of_range. *)
Fixpoint stoi_digits (s : list Z) (acc : Z) : Z :=
  match s with
  | ch :: s => if isdigit ch then stoi_digits s (10 * acc + (ch - 48)) else acc
  | [] => acc
  end.
Definition stoi (s : list Z) : option Z := let v := stoi_digits s 0 in if v <? 2 ^ 31 then Some v else None.

(** Does an option name the bit: the loops over the accepted and rejected bits. *)
Fixpoint names_bit (opts : list (list Z)) (bitTest : Z) : option bool :=
  match opts with
  | [] => Some false
  | s :: opts =>
      if isdigit (match s with ch :: _ => ch | [] => 0 end)
      then rBit ← stoi s; if rBit =? bitTest then Some true else names_bit opts bitTest
      else names_bit opts bitTest
  end.

Definition IsVersionBitRejected (accepted rejected : list (list Z)) (params : Params) (pos : DeploymentPos) : option bool :=
  let bitTest := bit (vDeployments params pos) in
  acc ← names_bit accepted bitTest;
  if (acc : bool) then Some false
  else if existsb (fun d => d =? bitTest) rejectedVersionBitsByDefault then Some true
  else names_bit rejected bitTest.

Section Deployments.
Context (h : heap) (Hok : tree_ok h) (params : Params).

Lemma IsSigHFEnabled_total k : (forall p, k = Some p -> is_Some (h !! p)) -> exists v, IsSigHFEnabled params h k = Some v.
Proof.
  intros Hk. destruct k as [p|]; [|by eexists]. destruct (Hk p eq_refl) as [b Hp]. destruct (GetMedianTimePast_spec h Hok p b Hp) as (m & l & E & _).
  unfold IsSigHFEnabled. rewrite E. by eexists.
Qed.

(** The top bits do not matter. *)
Lemma VersionBits_Condition_spec id p b :
  h !! p = Some b -> 0 <= bit (vDeployments params id) < 32 ->
  VersionBits_Condition params id h p = Some (Z.testbit (nVersion b) (bit (vDeployments params id))).
Proof.
  intros Hp Hb. unfold VersionBits_Condition. rewrite Hp. cbn [mbind option_bind].
  destruct (IsSigHFEnabled_total (Some p)) as [v ->]; [intros q [= <-]; eauto|]. cbn [mbind option_bind]. f_equal.
  assert (forall x : bool, negb ((if x then VERSIONBITS_TOP_BITS_SIG else VERSIONBITS_TOP_BITS) =? 0) = true) as -> by (by intros []).
  cbn [andb]. unfold Mask. rewrite (T32_id (1 << _)).
  - rewrite land_pow2, negb_involutive by lia. apply T32_bit. lia.
  - unfold word. rewrite Z.shiftl_mul_pow2, Z.mul_1_l by lia. split; [apply Z.pow_nonneg; lia|apply Z.pow_lt_mono_r; lia].
Qed.

(** The parameters of a network that runs deployments. *)
Record deployments_ok : Prop := {
  do_window : 0 < nMinerConfirmationWindow params;
  do_bits : forall d, 0 <= bit (vDeployments params d) < 31
}.

Definition caches_ok (caches : VersionBitsCache) : Prop := forall d, cache_ok h (VersionBitsConditionChecker params d) (caches d).

Context (Hpar : deployments_ok).

Lemma VersionBitsState_spec k pos caches :
  (forall p, k = Some p -> is_Some (h !! p)) -> caches_ok caches ->
  exists k' s caches', VersionBitsState h params k pos caches = Some (s, caches') /\ caches_ok caches' /\
    period_start h (VersionBitsConditionChecker params pos) k = Some k' /\ period_state h (VersionBitsConditionChecker params pos) k' s.
Proof.
  intros Hk Hc. destruct (GetStateFor_spec h Hok (VersionBitsConditionChecker params pos) (do_window Hpar)) with (k := k) (cache := caches pos)
    as (k' & s & cache' & Ek & Es & Hs & Hc' & _).
  - intros p b Hp. eexists. cbn. apply (VersionBits_Condition_spec pos p b Hp). pose proof (do_bits Hpar pos). lia.
  - done.
  - apply Hc.
  - exists k', s. unfold VersionBitsState. rewrite Es. cbn [mbind option_bind]. eexists. split_and!; try done.
    intros d. unfold VersionBitsCache_set. case_decide as E; [by subst|apply Hc].
Qed.

End Deployments.

(** ** Main results *)

(** Twelve blocks, all signalling bit 0; periods of four blocks, three signals to
    lock in, start at time 3. *)
Definition demo_params : Params := {|
  nMajorityEnforceBlockUpgrade := 3; nMajorityRejectBlockOutdated := 4; nMajorityWindow := 5;
  nRuleChangeActivationThreshold := 3; nMinerConfirmationWindow := 4;
  vDeployments := fun _ => {| bit := 0; nStartTime := 1; nTimeout := 100 |};
  powLimit := replicate 28 255 ++ replicate 4 0; fPowAllowMinDifficultyBlocks := false; fPowNoRetargeting := false;
  nPowTargetSpacing := 30; nPowTargetTimespan := 120; sigActivationTime := 1000; nMaxFutureDrift := 60;
  nHeightv451Fork := 10; nHeightv452Fork := 20 |}.
Definition demo_blocks : heap := demo_chain (Z.of_nat <$> seq 0 20).

Lemma demo_blocks_ok : tree_ok demo_blocks.
Proof. apply tree_okb_sound. vm_compute. reflexivity. Qed.

Lemma demo_blocks_times : times_ok demo_blocks.
Proof. apply times_okb_sound. vm_compute. reflexivity. Qed.

Lemma demo_deployments_ok : deployments_ok demo_params.
Proof. split; cbn; intros; lia. Qed.

(** C1. [GetStateFor], with its walk back over the periods, the shared cache and the walk
    forward, terminates without a failed assertion on every block tree and returns the
    state of the recursion over the periods: DEFINED for a period whose median time is
    before the start time, and otherwise one step from the state of the period before.
    The cache may hold any right entries, keeps them and stays right.  Where block
    times do not decrease along the chain and the start is not behind the timeout,
    that is the state of the BIP9 recursion, which has no such rule for early periods. *)
Theorem get_state_for_refines_bip9 h c k cache :
  tree_ok h -> 0 < Period c ->
  (forall p b, h !! p = Some b -> exists v, Condition c h p = Some v) ->
  (forall p, k = Some p -> is_Some (h !! p)) -> cache_ok h c cache ->
  exists k' s cache', period_start h c k = Some k' /\ GetStateFor h c k cache = Some (s, cache') /\
    (forall s', period_state h c k' s' <-> s' = s) /\ cache_ok h c cache' /\ cache ⊆ cache' /\
    (times_ok h -> BeginTime c <= EndTime c -> forall s', bip9_state h c k' s' <-> s' = s).
Proof.
  intros Hok Hp Hc Hk Hcache. destruct (GetStateFor_spec h Hok c Hp Hc k cache Hk Hcache) as (k' & s & cache' & E1 & E2 & Hs & H3 & H4).
  exists k', s, cache'. split_and!; try done.
  - intros s'. split; [|by intros ->]. intros Hs'. by eapply period_state_det.
  - intros Ht Hb. pose proof (period_bip9 h Hok c Hp Ht k' s Hb Hs) as H9. intros s'. split; [|by intros ->]. intros Hs'. by eapply bip9_state_det.
Qed.

Lemma demo_condition p b : demo_blocks !! p = Some b -> exists v, Condition (VersionBitsConditionChecker demo_params DEPLOYMENT_CSV) demo_blocks p = Some v.
Proof. intros Hp. eexists. apply (VersionBits_Condition_spec demo_blocks demo_blocks_ok demo_params DEPLOYMENT_CSV p b Hp). cbn. lia. Qed.

Lemma get_state_for_refines_bip9_witness :
  exists s cache', GetStateFor demo_blocks (VersionBitsConditionChecker demo_params DEPLOYMENT_CSV) (Some 18%nat) ∅ = Some (s, cache') /\
    cache_ok demo_blocks (VersionBitsConditionChecker demo_params DEPLOYMENT_CSV) cache' /\ s = THRESHOLD_ACTIVE.
Proof.
  destruct (get_state_for_refines_bip9 demo_blocks (VersionBitsConditionChecker demo_params DEPLOYMENT_CSV) (Some 18%nat) ∅ demo_blocks_ok)
    as (k' & s & cache' & _ & E & _ & Hc & _).
  - reflexivity.
  - exact demo_condition.
  - intros p [= <-]. vm_compute. eexists. reflexivity.
  - intros k s Hk. rewrite lookup_empty in Hk. discriminate.
  - exists s, cache'. split; [exact E|]. split; [exact Hc|].
    assert (fst <$> GetStateFor demo_blocks (VersionBitsConditionChecker demo_params DEPLOYMENT_CSV) (Some 18%nat) ∅ = Some THRESHOLD_ACTIVE) as E1 by (vm_compute; reflexivity).
    rewrite E in E1. injection E1 as <-. reflexivity.
Defined.

(** A deployment whose start is behind its timeout, as the testnet parameters have for
    DEPLOYMENT_NTPSYNC: at a time between the two the code reports DEFINED, where the
    recursion of BIP9 has failed. *)
Definition demo_late_start : ConditionChecker := {|
  Condition := fun _ _ => Some false; BeginTime := 15; EndTime := 5; Period := 4; Threshold := 3 |}.

Theorem late_start_diverges :
  fst <$> GetStateFor demo_blocks demo_late_start (Some 18%nat) ∅ = Some THRESHOLD_DEFINED /\
  period_start demo_blocks demo_late_start (Some 18%nat) = Some (Some 15%nat) /\ bip9_state demo_blocks demo_late_start (Some 15%nat) THRESHOLD_FAILED.
Proof.
  split; [by vm_compute|]. split; [by vm_compute|].
  assert (bip9_state demo_blocks demo_late_start (Some 3%nat) THRESHOLD_DEFINED) as H3 by (eapply (B9_period _ _ 3 (entry_at demo_blocks 3) 2); [by vm_compute..|apply B9_genesis|by constructor]).
  assert (bip9_state demo_blocks demo_late_start (Some 7%nat) THRESHOLD_DEFINED) as H7 by (eapply (B9_period _ _ 7 (entry_at demo_blocks 7) 4); [by vm_compute..|exact H3|by constructor]).
  assert (bip9_state demo_blocks demo_late_start (Some 11%nat) THRESHOLD_FAILED) as H11 by (eapply (B9_period _ _ 11 (entry_at demo_blocks 11) 6); [by vm_compute..|exact H7|by constructor]).
  eapply (B9_period _ _ 15 (entry_at demo_blocks 15) 10); [by vm_compute..|exact H11|constructor].
Qed.

(** The ends of the periods of a block and of an ancestor lie whole periods apart. *)
Lemma period_ends h c p b n q k1 k2 : tree_ok h -> 0 < Period c -> h !! p = Some b -> up h p n = Some q ->
  period_start h c (Some q) = Some (Some k1) -> period_start h c (Some p) = Some k2 ->
  exists k2' j, k2 = Some k2' /\ up h k2' (j * Z.to_nat (Period c)) = Some k1 /\ (Period c <= Z.of_nat n -> (0 < j)%nat).
Proof.
  intros Hok Hper Hp Hu E1 E2. destruct (up_height h Hok p b n q Hp Hu) as (d & Hd & Ed). pose proof (ok_height _ _ _ (Hok q d Hd)) as Hnd.
  unfold period_start in E1, E2. rewrite Hd in E1. rewrite Hp in E2. cbn [mbind option_bind] in E1, E2. destruct (Z.eqb_spec (Period c) 0); [lia|].
  rewrite (GetAncestor_spec h Hok q d _ Hd) in E1. rewrite (GetAncestor_spec h Hok p b _ Hp) in E2. injection E1 as E1. injection E2 as <-.
  rewrite Z.rem_mod_nonneg in * by lia. set (rq := (nHeight d + 1) mod Period c) in *. set (rp := (nHeight b + 1) mod Period c) in *.
  pose proof (Z.mod_pos_bound (nHeight d + 1) (Period c) Hper) as Bq. pose proof (Z.mod_pos_bound (nHeight b + 1) (Period c) Hper) as Bp. fold rq in Bq. fold rp in Bp.
  pose proof (Z.div_mod (nHeight d + 1) (Period c) ltac:(lia)) as Dq. pose proof (Z.div_mod (nHeight b + 1) (Period c) ltac:(lia)) as Dp. fold rq in Dq. fold rp in Dp.
  set (fq := (nHeight d + 1) / Period c) in *. set (fp := (nHeight b + 1) / Period c) in *.
  unfold ancestor in E1. case_match eqn:Ec; [done|]. apply orb_false_iff in Ec as [Ec1%Z.ltb_ge Ec2%Z.ltb_ge]. replace (nHeight d - (nHeight d - rq)) with rq in E1 by lia.
  assert (fq <= fp) as Hf by (unfold fq, fp; apply Z.div_le_mono; lia). assert (1 <= fq) as Hq1 by nia. assert (nHeight b - rp = fp * Period c - 1) as Hend by lia.
  destruct (ancestor_some h Hok p b (nHeight b - rp) Hp) as (k2' & e & Ek2 & He & Ehe); [nia|]. rewrite Ek2. exists k2', (Z.to_nat (fp - fq)). split; [done|]. split.
  - unfold ancestor in Ek2. case_match; [done|]. replace (nHeight b - (nHeight b - rp)) with rp in Ek2 by lia.
    assert (up h p (n + Z.to_nat rq) = Some k1) as Ht by (by rewrite up_add, Hu). assert (up h p (Z.to_nat rp + (n + Z.to_nat rq - Z.to_nat rp)) = Some k1) as Ht2 by (rewrite <- Ht; f_equal; nia).
    rewrite up_add, Ek2 in Ht2. cbn [mbind option_bind] in Ht2. rewrite <- Ht2. f_equal. apply Nat2Z.inj. rewrite Nat2Z.inj_mul, Nat2Z.inj_sub by nia. rewrite Nat2Z.inj_add, !Z2Nat.id by lia. nia.
  - intros Hn. assert (fq + 1 <= fp) by (unfold fq, fp; rewrite <- Z.div_add by lia; apply Z.div_le_mono; lia). lia.
Qed.

(** Where an active deployment was locked in. *)
Lemma active_origin h c p b k : tree_ok h -> 0 < Period c -> (forall p b, h !! p = Some b -> exists v, Condition c h p = Some v) -> h !! p = Some b ->
  period_start h c (Some p) = Some k -> period_state h c k THRESHOLD_ACTIVE ->
  exists m r count cache', up h p m = Some r /\ GetStateFor h c (Some r) ∅ = Some (THRESHOLD_LOCKED_IN, cache') /\
    count_signals (Z.to_nat (Period c)) h c (Some r) 0 = Some count /\ Threshold c <= count.
Proof.
  intros Hok Hper Hcond Hp Ek Hs. destruct k as [k|]; [|by inversion Hs]. destruct (active_was_locked_in h c Hper k Hs) as (n & r & d & Hu & Hn & Hb & Hl & Hc).
  unfold period_start in Ek. rewrite Hp in Ek. cbn [mbind option_bind] in Ek. destruct (Z.eqb_spec (Period c) 0); [lia|]. rewrite (GetAncestor_spec h Hok p b _ Hp) in Ek. injection Ek as Ek.
  unfold ancestor in Ek. case_match; [done|]. destruct (GetStateFor_spec h Hok c Hper Hcond (Some r) ∅) as (k1 & s1 & c1 & P1 & E1 & S1 & _).
  { intros ? [= <-]. destruct Hb. eauto. } { intros ? ? E. by rewrite lookup_empty in E. }
  assert (k1 = Some r) as ->.
  { unfold period_start in P1. rewrite (proj1 Hb) in P1. cbn [mbind option_bind] in P1. destruct (Z.eqb_spec (Period c) 0); [lia|]. pose proof (ok_height _ _ _ (Hok r d (proj1 Hb))).
    rewrite (GetAncestor_spec h Hok r d _ (proj1 Hb)), Z.rem_mod_nonneg, (proj2 Hb), Z.sub_0_r in P1 by lia. injection P1 as <-. unfold ancestor.
    destruct (Z.ltb_spec (nHeight d) (nHeight d)), (Z.ltb_spec (nHeight d) 0); try lia. cbn [orb]. by rewrite Z.sub_diag. }
  rewrite (period_state_det _ _ _ _ _ S1 Hl) in E1. exists (Z.to_nat (nHeight b - (nHeight b - Z.rem (nHeight b + 1) (Period c))) + n)%nat, r, (period_count h c r), c1.
  split; [by rewrite up_add, Ek|]. split; [done|]. split; [|done]. pose proof (boundary_height h Hok c r d Hb). rewrite (count_signals_spec h Hok c Hcond _ r d 0 (proj1 Hb)) by lia. by rewrite Z.add_0_l.
Qed.

(** C34. The course of a deployment as [GetStateFor] reports it at a block [p] and at
    an ancestor [q] of it, with any right caches, on a chain whose times do not
    decrease: the state moves only forward, active and failed are final, what is
    locked in at [q] is active a period later, and what is active at [p] was locked
    in at an earlier period in which enough blocks signalled. *)
Theorem deployment_course h c p b n q cache1 cache2 :
  tree_ok h -> times_ok h -> 0 < Period c -> (forall p b, h !! p = Some b -> exists v, Condition c h p = Some v) ->
  h !! p = Some b -> up h p n = Some q -> cache_ok h c cache1 -> cache_ok h c cache2 ->
  exists s1 s2 cache1' cache2', GetStateFor h c (Some q) cache1 = Some (s1, cache1') /\ GetStateFor h c (Some p) cache2 = Some (s2, cache2') /\
    reaches s1 s2 = true /\ (s1 = THRESHOLD_LOCKED_IN -> Period c <= Z.of_nat n -> s2 = THRESHOLD_ACTIVE) /\
    (s2 = THRESHOLD_ACTIVE -> exists m r count cache', up h p m = Some r /\ GetStateFor h c (Some r) ∅ = Some (THRESHOLD_LOCKED_IN, cache') /\
       count_signals (Z.to_nat (Period c)) h c (Some r) 0 = Some count /\ Threshold c <= count).
Proof.
  intros Hok Ht Hper Hcond Hp Hu H1 H2. destruct (up_height h Hok p b n q Hp Hu) as (d & Hd & _).
  destruct (GetStateFor_spec h Hok c Hper Hcond (Some q) cache1) as (k1 & s1 & c1 & P1 & E1 & S1 & _); [intros ? [= <-]; eauto|done|].
  destruct (GetStateFor_spec h Hok c Hper Hcond (Some p) cache2) as (k2 & s2 & c2 & P2 & E2 & S2 & _); [intros ? [= <-]; eauto|done|].
  exists s1, s2, c1, c2. split; [done|]. split; [done|]. split; [|split].
  - destruct k1 as [k1|]; [|by inversion S1]. destruct (period_ends h c p b n q k1 k2 Hok Hper Hp Hu P1 P2) as (k2' & j & -> & Hj & _). by apply (periods_later h Hok c Hper Hcond Ht j k2' k1).
  - intros Hl Hn. destruct k1 as [k1|]; [|subst; by inversion S1]. destruct (period_ends h c p b n q k1 k2 Hok Hper Hp Hu P1 P2) as (k2' & j & -> & Hj & Hpos).
    by apply (periods_later h Hok c Hper Hcond Ht j k2' k1 s1 s2); auto.
  - intros ->. by eapply active_origin.
Qed.

Lemma deployment_course_witness :
  exists s1 s2 c1 c2, GetStateFor demo_blocks (VersionBitsConditionChecker demo_params DEPLOYMENT_CSV) (Some 8%nat) ∅ = Some (s1, c1) /\
    GetStateFor demo_blocks (VersionBitsConditionChecker demo_params DEPLOYMENT_CSV) (Some 19%nat) ∅ = Some (s2, c2) /\ reaches s1 s2 = true /\ s1 = THRESHOLD_LOCKED_IN /\ s2 = THRESHOLD_ACTIVE.
Proof.
  destruct (deployment_course demo_blocks (VersionBitsConditionChecker demo_params DEPLOYMENT_CSV) 19 (entry_at demo_blocks 19) 11 8 ∅ ∅
    demo_blocks_ok demo_blocks_times ltac:(reflexivity) demo_condition ltac:(vm_compute; reflexivity) ltac:(vm_compute; reflexivity)) as (s1 & s2 & c1 & c2 & E1 & E2 & Hr & Hl & _).
  - intros k s Hk. rewrite lookup_empty in Hk. discriminate.
  - intros k s Hk. rewrite lookup_empty in Hk. discriminate.
  - assert (fst <$> GetStateFor demo_blocks (VersionBitsConditionChecker demo_params DEPLOYMENT_CSV) (Some 8%nat) ∅ = Some THRESHOLD_LOCKED_IN) as F by (vm_compute; reflexivity).
    rewrite E1 in F. injection F as F. exists s1, s2, c1, c2. split; [exact E1|]. split; [exact E2|]. split; [exact Hr|]. split; [exact F|]. apply (Hl F). cbn. lia.
Defined.

(** A block counts as signalling exactly when its version has the deployment's bit
    set: the comparison with the top bits has no effect, so blocks with any top
    bits are counted. *)
Theorem condition_ignores_top_bits h params id p b :
  tree_ok h -> h !! p = Some b -> 0 <= bit (vDeployments params id) < 32 ->
  Condition (VersionBitsConditionChecker params id) h p = Some (Z.testbit (nVersion b) (bit (vDeployments params id))).
Proof. intros Hok Hp Hb. by apply VersionBits_Condition_spec. Qed.

(** A block whose version is just the bit. *)
Definition demo_plain_version : CBlockIndex := {|
  phashBlock := None; pprev := None; pnext := None; pskip := None; nHeight := 0; nFile := 0; nDataPos := 0; nUndoPos := 0;
  nChainWork := base_uint_of_u64 8 0; nTx := 0; nChainTx := 0; nStatus := 0; nVersion := 1; hashMerkleRoot := []; nTime := 0; nBits := 0;
  nNonce := 0; nMint := 0; nCFSupply := 0; nCFLocked := 0; strDZeel := []; nFlags := 0; nStakeModifier := 0; hashProof := base_uint_of_u64 8 0; nSequenceId := 0 |}.

Lemma condition_ignores_top_bits_witness :
  Condition (VersionBitsConditionChecker demo_params DEPLOYMENT_CSV) {[5%nat := demo_plain_version]} 5 = Some true /\
  nVersion demo_plain_version .& VERSIONBITS_TOP_MASK <> VERSIONBITS_TOP_BITS.
Proof.
  split; [|discriminate].
  rewrite (condition_ignores_top_bits {[5%nat := demo_plain_version]} demo_params DEPLOYMENT_CSV 5 demo_plain_version).
  - reflexivity.
  - apply tree_okb_sound. vm_compute. reflexivity.
  - reflexivity.
  - cbn. lia.
Defined.
