(* ===== verification/Pow.v ===== *)
(** * pow.cpp: the proof-of-work difficulty

    The retarget of every adjustment interval and the special rule for networks
    that allow blocks of minimum difficulty.  [None] stands for a failed assertion
    or an undefined division. *)

From Stdlib Require Import ZArith Lia.
From stdpp Require Import base tactics numbers list gmap sorting.
From S2P Require Import Prelude SphTypes ArithUint Compact Chain ConsensusParams BlockIndex.

Definition UintToArith256 (b : list Z) : base_uint := UintToArith 8 b.

(** [bnNew *= nActualTimespan] converts the [int64_t] to the [uint32_t] operand of
    that operator, [bnNew /= nPowTargetTimespan] to a 256-bit number. *)
Definition CalculateNextWorkRequired (last : CBlockIndex) (nFirstBlockTime : Z) (params : Params) : option Z :=
  if fPowNoRetargeting params then Some (nBits last)
  else
    let nActualTimespan := GetBlockTime last - nFirstBlockTime in
    let nActualTimespan :=
      if nActualTimespan <? Z.quot (nPowTargetTimespan params) 4 then Z.quot (nPowTargetTimespan params) 4 else nActualTimespan in
    let nActualTimespan :=
      if nPowTargetTimespan params * 4 <? nActualTimespan then nPowTargetTimespan params * 4 else nActualTimespan in
    let bnPowLimit := UintToArith256 (powLimit params) in
    let '(bnNew, _, _) := SetCompact (nBits last) in
    let bnNew := op_mul32 bnNew (SPH_T32 nActualTimespan) in
    bnNew ← op_div bnNew (arith_uint256_of (SPH_T64 (nPowTargetTimespan params)));
    let bnNew := if 0 <? CompareTo bnNew bnPowLimit then bnPowLimit else bnNew in
    GetCompact false bnNew.

(** The last block that is not a minimum difficulty block. *)
Fixpoint last_real_difficulty (fuel : nat) (h : heap) (interval nProofOfWorkLimit : Z) (pindex : ptr) : option Z :=
  b ← h !! pindex;
  match pprev b with
  | Some prev =>
      if negb (Z.rem (nHeight b) interval =? 0) && (nBits b =? nProofOfWorkLimit)
      then match fuel with O => None | S fuel => last_real_difficulty fuel h interval nProofOfWorkLimit prev end
      else Some (nBits b)
  | None => Some (nBits b)
  end.

Definition GetNextWorkRequired (h : heap) (pindexLast : option ptr) (nBlockTime : Z) (params : Params) : option Z :=
  nProofOfWorkLimit ← GetCompact false (UintToArith256 (powLimit params));
  match pindexLast with
  | None => Some nProofOfWorkLimit
  | Some p =>
      last ← h !! p;
      interval ← DifficultyAdjustmentInterval params;
      if interval =? 0 then None
      else if negb (Z.rem (nHeight last + 1) interval =? 0) then
        if fPowAllowMinDifficultyBlocks params then
          if GetBlockTime last + nPowTargetSpacing params * 2 <? nBlockTime then Some nProofOfWorkLimit
          else last_real_difficulty (Z.to_nat (nHeight last)) h interval nProofOfWorkLimit p
        else Some (nBits last)
      else
        let nHeightFirst := nHeight last - (interval - 1) in
        if nHeightFirst <? 0 then None
        else
          first ← GetAncestor h p nHeightFirst;
          q ← first;
          bfirst ← h !! q;
          CalculateNextWorkRequired last (GetBlockTime bfirst) params
  end.

(** The first statement returns; what follows it in the source is not reached. *)
Definition CheckProofOfWork (hash : list Z) (nBits : Z) (params : Params) : bool := true.

(** ** Specification *)

(** The timespan that counts: at least a quarter and at most four times the target. *)
Definition clamp_timespan (t T : Z) : Z := Z.min (Z.max t (T / 4)) (T * 4).

Definition retarget (target t T limit : Z) : Z := Z.min (target * clamp_timespan t T mod 2 ^ 256 / T) limit.

(** A network with proof-of-work parameters that the arithmetic is made for. *)
Record pow_params_ok (params : Params) : Prop := {
  pp_timespan : 0 < nPowTargetTimespan params < 2 ^ 30;
  pp_spacing : 0 < nPowTargetSpacing params <= nPowTargetTimespan params;
  pp_limit : words 8 (powLimit params)
}.

Lemma clamp_code t T : 0 < T ->
  (let a := if t <? Z.quot T 4 then Z.quot T 4 else t in if T * 4 <? a then T * 4 else a) = clamp_timespan t T.
Proof.
  intros HT. cbv zeta. rewrite Z.quot_div_nonneg by lia. unfold clamp_timespan. pose proof (Z.div_le_upper_bound T 4 T ltac:(lia) ltac:(lia)).
  destruct (Z.ltb_spec t (T / 4)), (Z.ltb_spec (T * 4) (T / 4)), (Z.ltb_spec (T * 4) t); lia.
Qed.

Section Retarget.
Context (params : Params) (Hpar : pow_params_ok params).

Lemma limit_ok : wf_arr 32 8 (UintToArith256 (powLimit params)).
Proof. apply UintToArith_words, Hpar. Qed.

Lemma CalculateNextWorkRequired_spec last first :
  word 32 (nBits last) -> fPowNoRetargeting params = false ->
  CalculateNextWorkRequired last first params =
  Some (number_compact (retarget (compact_value (nBits last) mod 2 ^ 256) (GetBlockTime last - first) (nPowTargetTimespan params) (val (UintToArith256 (powLimit params))))).
Proof.
  intros Hb Hn. pose proof (pp_timespan _ Hpar) as HT. unfold CalculateNextWorkRequired. rewrite Hn. cbv zeta.
  pose proof (clamp_code (GetBlockTime last - first) (nPowTargetTimespan params) ltac:(lia)) as Ec. cbv zeta in Ec. rewrite Ec. clear Ec.
  set (T := nPowTargetTimespan params) in *. set (t := clamp_timespan _ T).
  assert (0 <= t <= T * 4) as Ht. { unfold t, clamp_timespan. pose proof (Z.div_pos T 4 ltac:(lia) ltac:(lia)). lia. }
  pose proof (SetCompact_spec _ Hb) as HS. destruct (SetCompact (nBits last)) as [[a neg] over]. destruct HS as (Wa & Va & _ & _).
  rewrite T32_id, T64_id by (unfold word; lia). destruct (u256_mul32 a t Wa ltac:(unfold word; lia)) as [Wm Vm].
  destruct (u256_of T ltac:(unfold word; lia)) as [WT VT]. destruct (u256_div _ _ Wm WT ltac:(lia)) as (q & -> & Wq & Vq). cbn [mbind option_bind].
  rewrite u256_cmp by (done || apply limit_ok). unfold retarget. fold t. rewrite Vm, Va, VT in Vq. rewrite <- Vq.
  destruct (Z.ltb_spec (val q) (val (UintToArith256 (powLimit params)))), (Z.ltb_spec (val (UintToArith256 (powLimit params))) (val q));
    cbn [Z.ltb Z.compare]; rewrite GetCompact_spec by (done || apply limit_ok); cbn [andb]; rewrite Z.lor_0_r; do 2 f_equal; lia.
Qed.

(** The new target is at most four times and not less than a quarter of the old one. *)
Lemma retarget_bounds target t T limit :
  0 < T -> 0 <= target <= limit -> limit * (T * 4) < 2 ^ 256 ->
  retarget target t T limit <= Z.min (4 * target) limit /\ target * (T / 4) / T <= retarget target t T limit.
Proof.
  intros HT Ht Hl. unfold retarget. assert (T / 4 <= clamp_timespan t T <= T * 4) as Hc.
  { unfold clamp_timespan. pose proof (Z.div_le_upper_bound T 4 T ltac:(lia) ltac:(lia)). lia. }
  assert (0 <= T / 4) by (apply Z.div_pos; lia). set (k := clamp_timespan t T) in *. rewrite Z.mod_small by nia.
  assert (target * k / T <= 4 * target) by (apply Z.div_le_upper_bound; nia).
  assert (target * (T / 4) / T <= target * k / T) by (apply Z.div_le_mono; nia).
  assert (target * (T / 4) / T <= target). { apply Z.div_le_upper_bound; [lia|]. pose proof (Z.div_le_upper_bound T 4 T ltac:(lia) ltac:(lia)). nia. }
  lia.
Qed.

End Retarget.

(** ** Blocks of minimum difficulty *)

(** The search stops at the first block that starts an interval, has another
    difficulty, or is the root. *)
Definition stops_at (h : heap) (interval limit : Z) (p : ptr) : Prop :=
  exists b, h !! p = Some b /\ (pprev b = None \/ Z.rem (nHeight b) interval = 0 \/ nBits b <> limit).

Lemma last_real_difficulty_spec h interval limit fuel p b :
  tree_ok h -> h !! p = Some b -> (Z.to_nat (nHeight b) <= fuel)%nat ->
  exists k q c, last_real_difficulty fuel h interval limit p = Some (nBits c) /\ up h p k = Some q /\ h !! q = Some c /\ stops_at h interval limit q /\
    forall j r, (j < k)%nat -> up h p j = Some r -> ~ stops_at h interval limit r.
Proof.
  intros Hok. revert p b. induction fuel as [|fuel IH]; intros p b Hp Hf; cbn [last_real_difficulty]; rewrite Hp; cbn [mbind option_bind].
  all: pose proof (ok_height _ _ _ (Hok p b Hp)); destruct (pprev b) as [q|] eqn:Eq;
    [destruct (ok_prev _ _ _ (Hok p b Hp) q Eq) as (d & Hd & Eh); pose proof (ok_height _ _ _ (Hok q d Hd))|
     exists 0%nat, p, b; split_and!; try done; [exists b; auto|lia]].
  { lia. }
  destruct (Z.eqb_spec (Z.rem (nHeight b) interval) 0) as [E0|E0]; cbn [negb andb]; [exists 0%nat, p, b; split_and!; try done; [exists b; auto|lia]|].
  destruct (Z.eqb_spec (nBits b) limit) as [E1|E1]; [|exists 0%nat, p, b; split_and!; try done; [exists b; auto|lia]].
  destruct (IH q d Hd ltac:(lia)) as (k & r & e & Er & Hu & He & Hs & Hlt). exists (S k), r, e. split_and!; try done.
  - cbn [up]. rewrite Hp. cbn. by rewrite Eq.
  - intros [|j] r' Hj Hu'; cbn [up] in Hu'.
    + injection Hu' as <-. intros (b' & Hb' & Hst). rewrite Hp in Hb'. injection Hb' as <-. destruct Hst as [?|[?|?]]; congruence.
    + rewrite Hp in Hu'. cbn in Hu'. rewrite Eq in Hu'. apply (Hlt j); [lia|done].
Qed.

(** ** Main results *)

(** The required difficulty on every branch. *)
Definition next_work (h : heap) (p : ptr) (last : CBlockIndex) (nBlockTime : Z) (params : Params) (c : Z) : Prop :=
  let limit := val (UintToArith256 (powLimit params)) in
  let I := nPowTargetTimespan params / nPowTargetSpacing params in
  if (nHeight last + 1) mod I =? 0 then
    exists q first, ancestor h p last (nHeight last + 1 - I) = Some q /\ h !! q = Some first /\
      c = if fPowNoRetargeting params then nBits last
          else number_compact (retarget (compact_value (nBits last) mod 2 ^ 256) (GetBlockTime last - GetBlockTime first) (nPowTargetTimespan params) limit)
  else if fPowAllowMinDifficultyBlocks params then
    if GetBlockTime last + nPowTargetSpacing params * 2 <? nBlockTime then c = number_compact limit
    else exists k q b, up h p k = Some q /\ h !! q = Some b /\ c = nBits b /\ stops_at h I (number_compact limit) q /\
      forall j r, (j < k)%nat -> up h p j = Some r -> ~ stops_at h I (number_compact limit) r
  else c = nBits last.

(** C31. What the next block must use, on every branch: the limit for the first block;
    within an interval the difficulty of the last block, or, where minimum
    difficulty blocks are allowed, the limit after a long gap and otherwise the
    difficulty of the last block that is not one of them; at the end of an
    interval the retargeted difficulty over that interval.  No assertion fails. *)
Theorem next_work_required h params p last nBlockTime :
  tree_ok h -> pow_params_ok params -> h !! p = Some last -> word 32 (nBits last) ->
  (exists c, GetNextWorkRequired h (Some p) nBlockTime params = Some c /\ next_work h p last nBlockTime params c) /\
  GetNextWorkRequired h None nBlockTime params = Some (number_compact (val (UintToArith256 (powLimit params)))).
Proof.
  intros Hok Hpar Hp Hb. pose proof (pp_spacing _ Hpar) as Hs. pose proof (ok_height _ _ _ (Hok p last Hp)) as H0.
  assert (GetCompact false (UintToArith256 (powLimit params)) = Some (number_compact (val (UintToArith256 (powLimit params))))) as EL.
  { rewrite GetCompact_spec by by apply limit_ok. cbn [andb]. by rewrite Z.lor_0_r. }
  unfold GetNextWorkRequired, next_work. rewrite EL, Hp. cbn [mbind option_bind]. split; [|done].
  unfold DifficultyAdjustmentInterval. destruct (Z.eqb_spec (nPowTargetSpacing params) 0); [lia|]. cbn [mbind option_bind].
  rewrite Z.quot_div_nonneg by lia. set (I := nPowTargetTimespan params / nPowTargetSpacing params).
  assert (1 <= I) as HI by (apply Z.div_le_lower_bound; lia). destruct (Z.eqb_spec I 0); [lia|].
  rewrite Z.rem_mod_nonneg by lia. destruct (Z.eqb_spec ((nHeight last + 1) mod I) 0) as [Hm|Hm]; cbn [negb].
  - assert (I <= nHeight last + 1) as Hle. { destruct (Z.le_gt_cases I (nHeight last + 1)); [done|]. rewrite Z.mod_small in Hm by lia. lia. }
    destruct (Z.ltb_spec (nHeight last - (I - 1)) 0); [lia|]. rewrite (GetAncestor_spec h Hok p last _ Hp). cbn [mbind option_bind].
    replace (nHeight last - (I - 1)) with (nHeight last + 1 - I) by lia.
    destruct (ancestor_some h Hok p last (nHeight last + 1 - I) Hp ltac:(lia)) as (q & first & -> & Hq & _). cbn [mbind option_bind]. rewrite Hq. cbn [mbind option_bind].
    destruct (fPowNoRetargeting params) eqn:En; [unfold CalculateNextWorkRequired; rewrite En; by eexists; split; [done|]; exists q, first|].
    rewrite (CalculateNextWorkRequired_spec params Hpar) by done. eexists. split; [done|]. by exists q, first.
  - destruct (fPowAllowMinDifficultyBlocks params); [|by eexists]. destruct (Z.ltb_spec (GetBlockTime last + nPowTargetSpacing params * 2) nBlockTime); [by eexists|].
    destruct (last_real_difficulty_spec h I (number_compact (val (UintToArith256 (powLimit params)))) (Z.to_nat (nHeight last)) p last Hok Hp ltac:(lia))
      as (k & q & b & E & Hu & Hq & Hst & Hlt). exists (nBits b). split; [done|]. by exists k, q, b.
Qed.

Definition demo_pow_params : Params := {|
  nMajorityEnforceBlockUpgrade := 3; nMajorityRejectBlockOutdated := 4; nMajorityWindow := 5; nRuleChangeActivationThreshold := 3; nMinerConfirmationWindow := 4;
  vDeployments := fun _ => {| bit := 0; nStartTime := 1; nTimeout := 100 |};
  powLimit := replicate 28 255 ++ replicate 4 0; fPowAllowMinDifficultyBlocks := false; fPowNoRetargeting := false;
  nPowTargetSpacing := 30; nPowTargetTimespan := 120; sigActivationTime := 1000; nMaxFutureDrift := 60; nHeightv451Fork := 10; nHeightv452Fork := 20 |}.

Lemma demo_pow_params_ok : pow_params_ok demo_pow_params.
Proof. split; [cbn; lia|cbn; lia|]. apply Forall_app. split; apply words_replicate; unfold word; lia. Qed.

Lemma next_work_required_witness :
  exists c, GetNextWorkRequired (demo_chain [0; 30; 60; 75]) (Some 3%nat) 90 demo_pow_params = Some c /\
    next_work (demo_chain [0; 30; 60; 75]) 3 (entry_at (demo_chain [0; 30; 60; 75]) 3) 90 demo_pow_params c.
Proof.
  destruct (next_work_required (demo_chain [0; 30; 60; 75]) demo_pow_params 3 (entry_at (demo_chain [0; 30; 60; 75]) 3) 90) as [H _].
  - apply tree_okb_sound. vm_compute. reflexivity.
  - exact demo_pow_params_ok.
  - vm_compute. reflexivity.
  - vm_compute. split; [discriminate|reflexivity].
  - exact H.
Defined.

(** The retargeted difficulty is bounded: never easier than the limit or four times
    the old target, never harder than the quarter timespan allows. *)
Theorem retarget_is_bounded params last first :
  pow_params_ok params -> fPowNoRetargeting params = false -> word 32 (nBits last) ->
  let limit := val (UintToArith256 (powLimit params)) in
  let T := nPowTargetTimespan params in
  let target := compact_value (nBits last) in
  target <= limit -> limit * (T * 4) < 2 ^ 256 ->
  exists v, CalculateNextWorkRequired last first params = Some (number_compact v) /\ v <= Z.min (4 * target) limit /\ target * (T / 4) / T <= v.
Proof.
  intros Hpar Hn Hb limit T target Ht Hl. eexists. split; [by apply CalculateNextWorkRequired_spec|].
  pose proof (pp_timespan _ Hpar). pose proof (u256_bound _ (limit_ok params Hpar)). pose proof (compact_value_pos _ Hb).
  rewrite Z.mod_small by (unfold limit, target in *; lia). apply retarget_bounds; (done || unfold T, limit, target in *; lia).
Qed.

Lemma retarget_is_bounded_witness :
  exists v, CalculateNextWorkRequired (entry_at (demo_chain [0; 30; 60; 75]) 3) 0 demo_pow_params = Some (number_compact v) /\ v <= 4 * (0xFFFF * 2 ^ 208).
Proof.
  destruct (retarget_is_bounded demo_pow_params (entry_at (demo_chain [0; 30; 60; 75]) 3) 0 demo_pow_params_ok eq_refl) as (v & E & Hv & _).
  - vm_compute. split; [discriminate|reflexivity].
  - apply Z.leb_le. vm_compute. reflexivity.
  - apply Z.ltb_lt. vm_compute. reflexivity.
  - exists v. split; [exact E|]. refine (Z.le_trans _ _ _ Hv _). apply Z.leb_le. vm_compute. reflexivity.
Defined.

(** Every hash passes the proof-of-work check, whatever the target. *)
Theorem proof_of_work_not_checked hash nBits params : CheckProofOfWork hash nBits params = true.
Proof. reflexivity. Qed.
