(* ===== verification/BlockVersion.v ===== *)
(** * main.cpp: block versions, from the miner and from the validator

    [ComputeBlockVersion] chooses the version of a new block from the deployment
    states at its parent; [ContextualCheckBlockHeader] rejects a header whose version
    lacks the bits of active rules.  Both consult the shared version bits cache,
    which is threaded through the calls in their order of evaluation. *)

From Stdlib Require Import ZArith Lia.
From stdpp Require Import base tactics numbers list gmap sorting.
From S2P Require Import Prelude SphTypes ArithUint Chain ConsensusParams BlockIndex VersionBits.

(** ** Computations that use the cache *)

Definition cacheM (A : Type) := VersionBitsCache -> option (A * VersionBitsCache).
Definition cret {A} (x : A) : cacheM A := fun c => Some (x, c).
Definition cfail {A} : cacheM A := fun _ => None.
Definition cbind {A B} (m : cacheM A) (k : A -> cacheM B) : cacheM B := fun c => '(x, c) ← m c; k x c.
Definition clift {A} (x : option A) : cacheM A := fun c => (fun x => (x, c)) <$> x.

Declare Scope cache_scope.
Delimit Scope cache_scope with cache.
Notation "x <-- m ;; k" := (cbind m (fun x => k)) (at level 100, m at next level, right associativity) : cache_scope.
Open Scope cache_scope.

(** [a && b] and [a || b]: the second operand is evaluated only when it matters. *)
Definition cand (a b : cacheM bool) : cacheM bool := x <-- a ;; if (x : bool) then b else cret false.
Definition cor (a b : cacheM bool) : cacheM bool := x <-- a ;; if (x : bool) then cret true else b.

(** ** Version masks *)

Definition nSegWitVersionMask : Z := 0x00000020.
Definition nCFundVersionMask : Z := 0x00000040.
Definition nNSyncVersionMask : Z := 0x00000080.
Definition nCFundAccVersionMask : Z := 0x00000100.
Definition nColdStakingVersionMask : Z := 0x00002000.
Definition nCFundAccSpreadVersionMask : Z := 0x00004000.
Definition nCFundAmountV2Mask : Z := 0x00010000.
Definition nCFundReducedQuorumMask : Z := 0x00020000.
Definition nStaticRewardVersionMask : Z := 0x00008000.
Definition nV451ForkMask : Z := 0x00100000.
Definition nV452ForkMask : Z := 0x00200000.
Definition nDAOVersionMask : Z := 0x00800000.
Definition nDaoConsensusVersionMask : Z := 0x02000000.
Definition nDaoExcludeVersionMask : Z := 0x08000000.

(** The conversion of an unsigned 32-bit value to [int32_t]. *)
Definition to_int32 (x : Z) : Z := if x mod 2 ^ 32 <? 2 ^ 31 then x mod 2 ^ 32 else x mod 2 ^ 32 - 2 ^ 32.

Section Versions.
Variable h : heap.
Variable params : Params.
(** The options [-acceptversionbit] and [-rejectversionbit], and [-testnet]. *)
Variable accepted rejected : list (list Z).
Variable testnet : bool.

Definition deployment_active (pindexPrev : option ptr) (pos : DeploymentPos) : cacheM bool :=
  s <-- VersionBitsState h params pindexPrev pos ;; cret (bool_decide (s = THRESHOLD_ACTIVE)).

Definition IsWitnessEnabled (p : option ptr) : cacheM bool := deployment_active p DEPLOYMENT_SEGWIT.
Definition IsCommunityFundEnabled (p : option ptr) : cacheM bool := deployment_active p DEPLOYMENT_COMMUNITYFUND.
Definition IsReducedCFundQuorumEnabled (p : option ptr) : cacheM bool := deployment_active p DEPLOYMENT_QUORUM_CFUND.
Definition IsCommunityFundAccumulationEnabled (p : option ptr) (fStrict : bool) : cacheM bool :=
  cor (cand (IsCommunityFundEnabled p) (cret (negb fStrict))) (deployment_active p DEPLOYMENT_COMMUNITYFUND_ACCUMULATION).
Definition IsCommunityFundAmountV2Enabled (p : option ptr) : cacheM bool := deployment_active p DEPLOYMENT_COMMUNITYFUND_AMOUNT_V2.
Definition IsCommunityFundAccumulationSpreadEnabled (p : option ptr) : cacheM bool :=
  deployment_active p DEPLOYMENT_COMMUNITYFUND_ACCUMULATION_SPREAD.
Definition IsNtpSyncEnabled (p : option ptr) : cacheM bool := deployment_active p DEPLOYMENT_NTPSYNC.
Definition IsColdStakingEnabled (p : option ptr) : cacheM bool := deployment_active p DEPLOYMENT_COLDSTAKING.
Definition IsExcludeEnabled (p : option ptr) : cacheM bool := deployment_active p DEPLOYMENT_EXCLUDE.
Definition IsDAOEnabled (p : option ptr) : cacheM bool := deployment_active p DEPLOYMENT_CONSULTATIONS.
Definition IsStaticRewardEnabled (p : option ptr) : cacheM bool := deployment_active p DEPLOYMENT_STATIC_REWARD.
Definition IsDaoConsensusEnabled (p : option ptr) : cacheM bool := deployment_active p DEPLOYMENT_DAO_CONSENSUS.

(** [pindexPrev->nHeight >= fork] *)
Definition fork_reached (p : option ptr) (fork : Z) : cacheM bool :=
  clift (p ← p; b ← h !! p; Some (fork <=? nHeight b)).

(** ** [ComputeBlockVersion] *)

(** The loop over the deployments. *)
Fixpoint signal_deployments (pindexPrev : option ptr) (ds : list DeploymentPos) (nVersion : Z) : cacheM Z :=
  match ds with
  | [] => cret nVersion
  | d :: ds =>
      state <-- VersionBitsState h params pindexPrev d ;;
      signal <-- (match state with
                  | THRESHOLD_LOCKED_IN | THRESHOLD_ACTIVE => cret true
                  | THRESHOLD_STARTED => r <-- clift (IsVersionBitRejected accepted rejected params d) ;; cret (negb r)
                  | _ => cret false
                  end) ;;
      signal_deployments pindexPrev ds (if (signal : bool) then to_int32 (nVersion .| VersionBitsMask params d) else nVersion)
  end.

(** [if (enabled) nVersion |= mask;] *)
Definition or_if (enabled : cacheM bool) (mask nVersion : Z) : cacheM Z :=
  e <-- enabled ;; cret (if (e : bool) then nVersion .| mask else nVersion).

Definition ComputeBlockVersion (p : option ptr) : cacheM Z :=
  sig <-- clift (IsSigHFEnabled params h p) ;;
  nVersion <-- signal_deployments p all_deployments (if (sig : bool) then VERSIONBITS_TOP_BITS_SIG else VERSIONBITS_TOP_BITS) ;;
  nVersion <-- or_if (IsWitnessEnabled p) nSegWitVersionMask nVersion ;;
  nVersion <-- or_if (IsNtpSyncEnabled p) nNSyncVersionMask nVersion ;;
  nVersion <-- or_if (IsCommunityFundEnabled p) nCFundVersionMask nVersion ;;
  nVersion <-- or_if (IsCommunityFundAccumulationEnabled p true) nCFundAccVersionMask nVersion ;;
  nVersion <-- or_if (IsColdStakingEnabled p) nColdStakingVersionMask nVersion ;;
  nVersion <-- or_if (IsCommunityFundAccumulationSpreadEnabled p) nCFundAccSpreadVersionMask nVersion ;;
  nVersion <-- or_if (IsCommunityFundAmountV2Enabled p) nCFundAmountV2Mask nVersion ;;
  nVersion <-- or_if (IsStaticRewardEnabled p) nStaticRewardVersionMask nVersion ;;
  nVersion <-- or_if (IsReducedCFundQuorumEnabled p) nCFundReducedQuorumMask nVersion ;;
  nVersion <-- or_if (fork_reached p (nHeightv451Fork params)) nV451ForkMask nVersion ;;
  nVersion <-- or_if (fork_reached p (nHeightv452Fork params)) nV452ForkMask nVersion ;;
  nVersion <-- or_if (IsDAOEnabled p) nDAOVersionMask nVersion ;;
  nVersion <-- or_if (IsDaoConsensusEnabled p) nDaoConsensusVersionMask nVersion ;;
  or_if (IsExcludeEnabled p) nDaoExcludeVersionMask nVersion.

(** ** [ContextualCheckBlockHeader] *)

(** The loop of [IsSuperMajority]. *)
Fixpoint count_majority (n : nat) (minVersion : Z) (pstart : option ptr) (nRequired nFound : Z) : option Z :=
  match n with
  | O => Some nFound
  | S n =>
      if nFound <? nRequired then
        match pstart with
        | Some p => b ← h !! p; count_majority n minVersion (pprev b) nRequired (if minVersion <=? nVersion b then nFound + 1 else nFound)
        | None => Some nFound
        end
      else Some nFound
  end.

Definition IsSuperMajority (minVersion : Z) (pstart : option ptr) (nRequired : Z) : option bool :=
  nFound ← count_majority (Z.to_nat (nMajorityWindow params)) minVersion pstart nRequired 0;
  Some (nRequired <=? nFound).

(** Why a header is rejected; the last constructor carries the missing bits. *)
Inductive HeaderRejection :=
  | time_too_new
  | obsolete_version (version : Z)
  | missing_version_bits (mask : Z).

(** The checks return at the first rejection. *)
Definition check := cacheM (option HeaderRejection).
Definition and_then (c k : check) : check := r <-- c ;; match r with Some e => cret (Some e) | None => k end.

(** [if ((block.nVersion & mask) != mask && enabled) return state.Invalid(...)] *)
Definition require_bits (block : CBlockHeader) (mask : Z) (enabled : cacheM bool) : check :=
  e <-- cand (cret (negb (hdr_nVersion block .& mask =? mask))) enabled ;;
  cret (if (e : bool) then Some (missing_version_bits mask) else None).

Definition reject_outdated (block : CBlockHeader) (p : option ptr) (version : Z) : check :=
  e <-- cand (cret (hdr_nVersion block <? version)) (clift (IsSuperMajority version p (nMajorityRejectBlockOutdated params))) ;;
  cret (if (e : bool) then Some (obsolete_version (version - 1)) else None).

Definition ContextualCheckBlockHeader (block : CBlockHeader) (p : option ptr) (nAdjustedTime : Z) : check :=
  ntp <-- IsNtpSyncEnabled p ;;
  if nAdjustedTime + (if (ntp : bool) then nMaxFutureDrift params else 2 * 60 * 60) <? hdr_nTime block then cret (Some time_too_new)
  else
  and_then (reject_outdated block p 2) (
  and_then (reject_outdated block p 3) (
  and_then (reject_outdated block p 4) (
  and_then (require_bits block VERSIONBITS_TOP_BITS_SIG (clift (IsSigHFEnabled params h p))) (
  and_then (require_bits block nSegWitVersionMask (IsWitnessEnabled p)) (
  and_then (require_bits block nCFundVersionMask (IsCommunityFundEnabled p)) (
  and_then (if testnet then cret None else
              and_then (require_bits block nCFundAccVersionMask (IsCommunityFundAccumulationEnabled p true))
                       (require_bits block nColdStakingVersionMask (IsColdStakingEnabled p))) (
  and_then (require_bits block nCFundAccSpreadVersionMask (IsCommunityFundAccumulationSpreadEnabled p)) (
  and_then (require_bits block nCFundAmountV2Mask (IsCommunityFundAmountV2Enabled p)) (
  and_then (require_bits block nNSyncVersionMask (IsNtpSyncEnabled p)) (
  and_then (require_bits block nStaticRewardVersionMask (IsStaticRewardEnabled p)) (
  and_then (require_bits block nCFundReducedQuorumMask (IsReducedCFundQuorumEnabled p)) (
  and_then (require_bits block nV451ForkMask (fork_reached p (nHeightv451Fork params))) (
  and_then (require_bits block nV452ForkMask (fork_reached p (nHeightv452Fork params))) (
  and_then (require_bits block nDAOVersionMask (IsDAOEnabled p)) (
  and_then (require_bits block nDaoExcludeVersionMask (IsExcludeEnabled p))
           (require_bits block nDaoConsensusVersionMask (IsDaoConsensusEnabled p))
  ))))))))))))))).

(** ** Runs on correct caches *)

(** A computation that yields the same value on every correct cache, and leaves a
    correct one. *)
Definition yields {A} (m : cacheM A) (x : A) : Prop :=
  forall c, caches_ok h params c -> exists c', m c = Some (x, c') /\ caches_ok h params c'.

Lemma yields_ret {A} (x : A) : yields (cret x) x.
Proof. intros c Hc. by exists c. Qed.

Lemma yields_bind {A B} (m : cacheM A) x (k : A -> cacheM B) y : yields m x -> yields (k x) y -> yields (cbind m k) y.
Proof. intros Hm Hk c Hc. destruct (Hm c Hc) as (c1 & E1 & H1). destruct (Hk c1 H1) as (c2 & E2 & H2). exists c2. unfold cbind. rewrite E1. done. Qed.

Lemma yields_lift {A} (o : option A) x : o = Some x -> yields (clift o) x.
Proof. intros -> c Hc. by exists c. Qed.

Lemma yields_and a b x y : yields a x -> yields b y -> yields (cand a b) (x && y).
Proof. intros Ha Hb. eapply yields_bind; [exact Ha|]. destruct x; [exact Hb|apply yields_ret]. Qed.

Lemma yields_or a b x y : yields a x -> yields b y -> yields (cor a b) (x || y).
Proof. intros Ha Hb. eapply yields_bind; [exact Ha|]. destruct x; [apply yields_ret|exact Hb]. Qed.

End Versions.

(** ** Bits of a version *)

Definition has (v mask : Z) : Prop := v .& mask = mask.

Lemma has_or_self v m : has (v .| m) m.
Proof. unfold has. bits_intro i Hi. rewrite Z.land_spec, Z.lor_spec. destruct (Z.testbit v i), (Z.testbit m i); done. Qed.

Lemma has_or v m m' : has v m -> has (v .| m') m.
Proof.
  unfold has. intros E. bits_intro i Hi. rewrite Z.land_spec, Z.lor_spec.
  apply (f_equal (fun x => Z.testbit x i)) in E. rewrite Z.land_spec in E. destruct (Z.testbit v i), (Z.testbit m i), (Z.testbit m' i); done.
Qed.

Lemma has_le v m : 0 <= v -> has v m -> m <= v.
Proof.
  intros Hv E. assert (0 <= m) by (rewrite <- E; apply Z.land_nonneg; lia).
  apply (Z.ldiff_le m v); [lia|]. bits_intro i Hi. rewrite Z.ldiff_spec, Z.bits_0.
  apply (f_equal (fun x => Z.testbit x i)) in E. rewrite Z.land_spec in E. destruct (Z.testbit v i), (Z.testbit m i); done.
Qed.

(** [if (e) v |= m'] keeps the bits that are there, and sets its own when [e] holds. *)
Lemma has_step (e : bool) v m m' : has v m -> has (if e then v .| m' else v) m.
Proof. intros H. destruct e; [by apply has_or|done]. Qed.

Lemma has_here (e : bool) v m : e = true -> has (if e then v .| m else v) m.
Proof. intros ->. apply has_or_self. Qed.

Lemma nonneg_step (e : bool) v m : 0 <= v -> 0 <= m -> 0 <= (if e then v .| m else v).
Proof. intros Hv Hm. destruct e; [apply Z.lor_nonneg; lia|done]. Qed.

Ltac version_bits := repeat first [apply has_here; assumption | apply has_step]; assumption.

Lemma clear_ok h params : caches_ok h params VersionBitsCache_Clear.
Proof. intros d k s E. unfold VersionBitsCache_Clear in E. by rewrite lookup_empty in E. Qed.

Section Agreement.
Context (h : heap) (Hok : tree_ok h) (params : Params) (Hpar : deployments_ok params).
Context (accepted rejected : list (list Z)) (testnet : bool) (p : ptr) (b : CBlockIndex) (Hp : h !! p = Some b).
(** The options parse. *)
Context (Hopt : forall d, exists r, IsVersionBitRejected accepted rejected params d = Some r).

Lemma p_known q : Some p = Some q -> is_Some (h !! q).
Proof. intros [= <-]. by eexists. Qed.

Lemma state_yields pos : exists s, yields h params (VersionBitsState h params (Some p) pos) s.
Proof.
  destruct (VersionBitsState_spec h Hok params Hpar (Some p) pos VersionBitsCache_Clear p_known) as (k & s & _ & _ & _ & Ek & Hs).
  { apply clear_ok. }
  exists s. intros c Hc. destruct (VersionBitsState_spec h Hok params Hpar (Some p) pos c p_known Hc) as (k' & s' & c' & E & Hc' & Ek' & Hs').
  rewrite Ek in Ek'. injection Ek' as <-. exists c'. split; [|done]. by rewrite (period_state_det _ _ _ _ _ Hs Hs').
Qed.

Lemma active_yields pos : exists e, yields h params (deployment_active h params (Some p) pos) e.
Proof. destruct (state_yields pos) as [s Hs]. eexists. eapply yields_bind; [exact Hs|apply yields_ret]. Qed.

Lemma accumulation_yields f : exists e, yields h params (IsCommunityFundAccumulationEnabled h params (Some p) f) e.
Proof.
  destruct (active_yields DEPLOYMENT_COMMUNITYFUND) as [e1 H1]. destruct (active_yields DEPLOYMENT_COMMUNITYFUND_ACCUMULATION) as [e2 H2].
  eexists. apply yields_or; [apply yields_and; [exact H1|apply yields_ret]|exact H2].
Qed.

Lemma fork_yields n : exists e, yields h params (fork_reached h (Some p) n) e.
Proof. eexists. apply yields_lift. cbn [mbind option_bind]. by rewrite Hp. Qed.

Lemma sig_yields : exists e, yields h params (clift (IsSigHFEnabled params h (Some p))) e /\ IsSigHFEnabled params h (Some p) = Some e.
Proof. destruct (IsSigHFEnabled_total h Hok params (Some p) p_known) as [e E]. exists e. split; [by apply yields_lift|done]. Qed.

Lemma or_if_yields enabled e mask v : yields h params enabled e -> yields h params (or_if enabled mask v) (if e then v .| mask else v).
Proof. intros He. eapply yields_bind; [exact He|apply yields_ret]. Qed.

Lemma Mask_word d : word 31 (VersionBitsMask params d).
Proof.
  pose proof (do_bits _ Hpar d). unfold VersionBitsMask, Mask. assert (word 31 (1 << bit (vDeployments params d))) as Hw.
  { unfold word. rewrite Z.shiftl_mul_pow2, Z.mul_1_l by lia. split; [apply Z.pow_nonneg; lia|apply Z.pow_lt_mono_r; lia]. }
  rewrite T32_id; [done|]. by apply (word_weaken 31).
Qed.

Lemma to_int32_id x : word 31 x -> to_int32 x = x.
Proof. intros Hx. unfold to_int32, word in *. rewrite Z.mod_small by lia. destruct (Z.ltb_spec x (2 ^ 31)); lia. Qed.

Lemma signal_yields ds v :
  word 31 v -> exists v', yields h params (signal_deployments h params accepted rejected (Some p) ds v) v' /\ word 31 v' /\ forall m, has v m -> has v' m.
Proof.
  revert v. induction ds as [|d ds IH]; intros v Hv; [exists v; split; [apply yields_ret|done]|]. cbn [signal_deployments].
  destruct (state_yields d) as [s Hs].
  assert (exists g, yields h params (match s with
    | THRESHOLD_LOCKED_IN | THRESHOLD_ACTIVE => cret true
    | THRESHOLD_STARTED => cbind (clift (IsVersionBitRejected accepted rejected params d)) (fun r => cret (negb r))
    | _ => cret false end) g) as [g Hg].
  { destruct (Hopt d) as [r Er]. destruct s; eexists; try apply yields_ret. eapply yields_bind; [by apply yields_lift|apply yields_ret]. }
  destruct (IH (if g then to_int32 (v .| VersionBitsMask params d) else v)) as (v' & Hy & Hw & Hh).
  { destruct g; [|done]. rewrite to_int32_id by (apply word_lor; [done|apply Mask_word]). apply word_lor; [done|apply Mask_word]. }
  exists v'. split; [eapply yields_bind; [exact Hs|]; eapply yields_bind; [exact Hg|exact Hy]|]. split; [done|].
  intros m Hm. apply Hh. destruct g; [|done]. rewrite to_int32_id by (apply word_lor; [done|apply Mask_word]). by apply has_or.
Qed.

Lemma require_yields block mask enabled e :
  yields h params enabled e -> (e = true -> has (hdr_nVersion block) mask) -> yields h params (require_bits block mask enabled) None.
Proof.
  intros He Hh. eapply yields_bind; [apply yields_and; [apply yields_ret|exact He]|]. destruct e; [rewrite (Hh eq_refl), Z.eqb_refl; apply yields_ret|].
  rewrite andb_false_r. apply yields_ret.
Qed.

Lemma outdated_yields block version : version <= hdr_nVersion block -> yields h params (reject_outdated h params block (Some p) version) None.
Proof.
  intros Hv. unfold reject_outdated. destruct (Z.ltb_spec (hdr_nVersion block) version); [lia|]. intros c Hc. exists c. done.
Qed.

Lemma and_then_yields (a k : check) r : yields h params a None -> yields h params k r -> yields h params (and_then a k) r.
Proof. intros Ha Hk. eapply yields_bind; [exact Ha|exact Hk]. Qed.

(** The version of a new block has every bit that the header check asks for. *)
Lemma block_version_yields :
  exists V, yields h params (ComputeBlockVersion h params accepted rejected (Some p)) V /\ 4 <= V /\
    forall block nAdjustedTime, hdr_nVersion block = V ->
      hdr_nTime block <= nAdjustedTime + Z.min (nMaxFutureDrift params) (2 * 60 * 60) ->
      yields h params (ContextualCheckBlockHeader h params testnet block (Some p) nAdjustedTime) None.
Proof.
  destruct sig_yields as (es & Hes & Es).
  destruct (signal_yields all_deployments (if es then VERSIONBITS_TOP_BITS_SIG else VERSIONBITS_TOP_BITS)) as (v0 & Hv0 & Wv0 & Hhas);
    [destruct es; unfold word, VERSIONBITS_TOP_BITS_SIG, VERSIONBITS_TOP_BITS; lia|].
  destruct (active_yields DEPLOYMENT_SEGWIT) as [e1 H1]. destruct (active_yields DEPLOYMENT_NTPSYNC) as [e2 H2].
  destruct (active_yields DEPLOYMENT_COMMUNITYFUND) as [e3 H3]. destruct (accumulation_yields true) as [e4 H4].
  destruct (active_yields DEPLOYMENT_COLDSTAKING) as [e5 H5]. destruct (active_yields DEPLOYMENT_COMMUNITYFUND_ACCUMULATION_SPREAD) as [e6 H6].
  destruct (active_yields DEPLOYMENT_COMMUNITYFUND_AMOUNT_V2) as [e7 H7]. destruct (active_yields DEPLOYMENT_STATIC_REWARD) as [e8 H8].
  destruct (active_yields DEPLOYMENT_QUORUM_CFUND) as [e9 H9]. destruct (fork_yields (nHeightv451Fork params)) as [e10 H10].
  destruct (fork_yields (nHeightv452Fork params)) as [e11 H11]. destruct (active_yields DEPLOYMENT_CONSULTATIONS) as [e12 H12].
  destruct (active_yields DEPLOYMENT_DAO_CONSENSUS) as [e13 H13]. destruct (active_yields DEPLOYMENT_EXCLUDE) as [e14 H14].
  eexists. split.
  { unfold ComputeBlockVersion. eapply yields_bind; [exact Hes|]. eapply yields_bind; [exact Hv0|].
    do 13 (eapply yields_bind; [eapply or_if_yields; eassumption|]). eapply or_if_yields. exact H14. }
  assert (has v0 VERSIONBITS_TOP_BITS) as Htop by (apply Hhas; by destruct es).
  assert (es = true -> has v0 VERSIONBITS_TOP_BITS_SIG) as Hsig by (intros ->; apply Hhas; done).
  set (V := if e14 then _ else _).
  assert (0 <= V) as HV by (repeat (apply nonneg_step; [|vm_compute; discriminate]); apply Wv0).
  assert (VERSIONBITS_TOP_BITS <= V) as HV2 by (apply has_le; [done|version_bits]).
  unfold VERSIONBITS_TOP_BITS in HV2. split; [lia|]. intros block t EV Ht. unfold ContextualCheckBlockHeader.
  eapply yields_bind; [exact H2|].
  destruct (Z.ltb_spec (t + (if e2 then nMaxFutureDrift params else 2 * 60 * 60)) (hdr_nTime block)); [destruct e2; lia|].
  do 3 (apply and_then_yields; [apply outdated_yields; lia|]).
  apply and_then_yields; [eapply require_yields; [exact Hes|]; rewrite EV; intros He; specialize (Hsig He); version_bits|].
  do 2 (apply and_then_yields; [eapply require_yields; [eassumption|]; rewrite EV; intros He; version_bits|]).
  apply and_then_yields.
  { destruct testnet; [apply yields_ret|]. apply and_then_yields; eapply require_yields; [exact H4| |exact H5|]; rewrite EV; intros He; version_bits. }
  do 9 (apply and_then_yields; [eapply require_yields; [eassumption|]; rewrite EV; intros He; version_bits|]).
  eapply require_yields; [eassumption|]; rewrite EV; intros He; version_bits.
Qed.

End Agreement.

(** ** Main results *)

(** C4. Miner and validator agree on versions: whatever correct entries the shared
    cache holds at either time ([caches_ok], which holds of the empty cache and is kept
    by every query), the version that [ComputeBlockVersion] chooses for a block on top
    of [p] is accepted by [ContextualCheckBlockHeader] for that parent, for every
    timestamp within both allowed drifts.  The deployments have a positive window and a
    bit below 31 ([deployments_ok]), and the voting options parse. *)
Theorem block_version_accepted h params accepted rejected testnet p b c c1 block nAdjustedTime :
  tree_ok h -> deployments_ok params -> h !! p = Some b ->
  (forall d, exists r, IsVersionBitRejected accepted rejected params d = Some r) ->
  caches_ok h params c -> caches_ok h params c1 ->
  hdr_nTime block <= nAdjustedTime + Z.min (nMaxFutureDrift params) (2 * 60 * 60) ->
  exists V c', ComputeBlockVersion h params accepted rejected (Some p) c = Some (V, c') /\ caches_ok h params c' /\
    (hdr_nVersion block = V ->
     exists c1', ContextualCheckBlockHeader h params testnet block (Some p) nAdjustedTime c1 = Some (None, c1') /\ caches_ok h params c1').
Proof.
  intros Hok Hpar Hp Hopt Hc Hc1 Htime. destruct (block_version_yields h Hok params Hpar accepted rejected testnet p b Hp Hopt) as (V & HV & _ & Hcheck).
  destruct (HV c Hc) as (c' & E & Hc'). exists V, c'. split_and!; try done. intros EV. by apply (Hcheck block nAdjustedTime EV Htime).
Qed.

Definition demo_header : CBlockHeader :=
  {| hdr_nVersion := 0x7A93E1E1; hdr_hashPrevBlock := []; hdr_hashMerkleRoot := []; hdr_nTime := 60; hdr_nBits := 0; hdr_nNonce := 0 |}.

Lemma block_version_accepted_witness :
  exists c1, ContextualCheckBlockHeader demo_blocks demo_params false demo_header (Some 18%nat) 0 VersionBitsCache_Clear = Some (None, c1).
Proof.
  destruct (block_version_accepted demo_blocks demo_params [] [] false 18 (entry_at demo_blocks 18) VersionBitsCache_Clear VersionBitsCache_Clear demo_header 0)
    as (V & c' & E & _ & Hacc).
  - exact demo_blocks_ok.
  - exact demo_deployments_ok.
  - vm_compute. reflexivity.
  - intros d. eexists. reflexivity.
  - apply clear_ok.
  - apply clear_ok.
  - cbn. lia.
  - assert (fst <$> ComputeBlockVersion demo_blocks demo_params [] [] (Some 18%nat) VersionBitsCache_Clear = Some 0x7A93E1E1) as E1 by (vm_compute; reflexivity).
    rewrite E in E1. injection E1 as ->. destruct (Hacc eq_refl) as (c1 & E2 & _). exists c1. exact E2.
Defined.
