(* ===== verification/Stake.v ===== *)
(** * main.cpp: the proof-of-stake target and the kernel check

    The target changes with every block, by an exponential moving average of the
    spacing of the last two proof-of-stake blocks.  A stake is valid when the hash
    of its kernel is at most the target times the staked amount, computed in 512
    bits.  [None] stands for undefined behaviour or an exception. *)

From Stdlib Require Import ZArith Lia.
From stdpp Require Import base tactics numbers list gmap sorting.
From S2P Require Import Prelude SphTypes ArithUint Compact Blob Chain BlockIndex.

Record StakeParams := {
  nStakeMinAge : Z;
  nTargetSpacing : Z;
  nTargetTimespan : Z;
  nModifierInterval : Z;
  ProofOfWorkLimit : base_uint
}.

Definition bnProofOfStakeLimitV2 : base_uint := op_shr (op_not (arith_uint256_of 0)) 20.
Definition GetProofOfStakeLimit (nHeight : Z) : base_uint := bnProofOfStakeLimitV2.

(** ** The target *)

Fixpoint GetLastBlockIndex_loop (fuel : nat) (h : heap) (pindex : ptr) (fProofOfStake : bool) : option ptr :=
  b ← h !! pindex;
  match pprev b with
  | Some prev =>
      if Bool.eqb (IsProofOfStake b) fProofOfStake then Some pindex
      else match fuel with O => None | S fuel => GetLastBlockIndex_loop fuel h prev fProofOfStake end
  | None => Some pindex
  end.

Definition GetLastBlockIndex (h : heap) (pindex : ptr) (fProofOfStake : bool) : option ptr :=
  b ← h !! pindex; GetLastBlockIndex_loop (Z.to_nat (nHeight b)) h pindex fProofOfStake.

(** The arithmetic of the retarget: the spacing is an [int] that the 256-bit
    product takes as a [uint32_t], the actual spacing an [int64_t]. *)
Definition stake_retarget (sp : StakeParams) (nBits nActualSpacing : Z) (bnTargetLimit : base_uint) : option Z :=
  if nTargetSpacing sp =? 0 then None
  else
    let '(bnNew, _, _) := SetCompact nBits in
    let nInterval := arith_uint256_of (nTargetTimespan sp / SPH_T32 (nTargetSpacing sp)) in
    let spacing := arith_uint256_of (SPH_T64 nActualSpacing) in
    let bnNew := op_mul bnNew (op_add (op_add (op_mul32 (op_sub nInterval (arith_uint256_of 1)) (SPH_T32 (nTargetSpacing sp))) spacing) spacing) in
    bnNew ← op_div bnNew (op_mul32 (op_add nInterval (arith_uint256_of 1)) (SPH_T32 (nTargetSpacing sp)));
    let bnNew := if (CompareTo bnNew (arith_uint256_of 0) <=? 0) || (0 <? CompareTo bnNew bnTargetLimit) then bnTargetLimit else bnNew in
    GetCompact false bnNew.

(** The limit is chosen from the height of [pindexLast] before that is compared
    with the null pointer. *)
Definition GetNextTargetRequired (sp : StakeParams) (h : heap) (pindexLast : option ptr) (fProofOfStake : bool) : option Z :=
  bnTargetLimit ← (if fProofOfStake then p ← pindexLast; b ← h !! p; Some (GetProofOfStakeLimit (nHeight b)) else Some (ProofOfWorkLimit sp));
  match pindexLast with
  | None => GetCompact false bnTargetLimit
  | Some last =>
      pindexPrev ← GetLastBlockIndex h last fProofOfStake;
      bprev ← h !! pindexPrev;
      match pprev bprev with
      | None => GetCompact false bnTargetLimit
      | Some p1 =>
          pindexPrevPrev ← GetLastBlockIndex h p1 fProofOfStake;
          bprevprev ← h !! pindexPrevPrev;
          match pprev bprevprev with
          | None => GetCompact false bnTargetLimit
          | Some _ =>
              let nActualSpacing := GetBlockTime bprev - GetBlockTime bprevprev in
              let nActualSpacing := if nActualSpacing <? 0 then nTargetSpacing sp else nActualSpacing in
              stake_retarget sp (nBits bprev) nActualSpacing bnTargetLimit
          end
      end
  end.

(** The loop of [ComputeMaxBits]: doubling for every day. *)
Fixpoint double_per_day (fuel : nat) (bnResult bnTargetLimit : base_uint) (nTime : Z) : option base_uint :=
  if (0 <? nTime) && (CompareTo bnResult bnTargetLimit <? 0) then
    match fuel with O => None | S fuel => double_per_day fuel (op_mul32 bnResult 2) bnTargetLimit (nTime - 24 * 60 * 60) end
  else Some bnResult.

Definition ComputeMaxBits (bnTargetLimit : base_uint) (nBase nTime : Z) : option Z :=
  let '(bnResult, _, _) := SetCompact nBase in
  bnResult ← double_per_day (Z.to_nat nTime) (op_mul32 bnResult 2) bnTargetLimit nTime;
  GetCompact false (if 0 <? CompareTo bnResult bnTargetLimit then bnTargetLimit else bnResult).

(** ** The kernel *)

Definition STAKE_TIMESTAMP_MASK : Z := 15.

Definition CheckCoinStakeTimestamp (nHeight nTimeBlock nTimeTx : Z) : bool :=
  if 0 <? nHeight then (nTimeBlock =? nTimeTx) && (nTimeTx .& STAKE_TIMESTAMP_MASK =? 0) else nTimeBlock =? nTimeTx.

Definition GetWeight (sp : StakeParams) (nIntervalBeginning nIntervalEnd : Z) : Z :=
  nIntervalEnd - nIntervalBeginning - nStakeMinAge sp.

Record COutPoint := { out_hash : list Z; out_n : Z }.

Section Kernel.
(** [Hash] is the double SHA-256 of a byte string. *)
Variable Hash : list Z -> list Z.
Variable sp : StakeParams.

(** The serialised kernel. *)
Definition kernel_bytes (nStakeModifier nTimeBlockFrom nTimeTxPrev : Z) (prevout : COutPoint) (nTimeTx : Z) : list Z :=
  sph_enc64le nStakeModifier ++ sph_enc32le nTimeBlockFrom ++ sph_enc32le nTimeTxPrev ++ out_hash prevout ++ sph_enc32le (out_n prevout) ++ sph_enc32le nTimeTx.

(** The verdict and the proof hash; a call that returns before the hash is
    computed leaves it unset.  [values] are the amounts of the outputs of the
    previous transaction. *)
Definition CheckStakeKernelHashV2 (bprev : CBlockIndex) (nBits nTimeBlockFrom nTimeTxPrev : Z) (values : list Z) (prevout : COutPoint) (nTimeTx : Z) :
  option (bool * option base_uint) :=
  if nTimeTx <? nTimeTxPrev then Some (false, None)
  else if nTimeTx <? SPH_T32 (nTimeBlockFrom + nStakeMinAge sp) then Some (false, None)
  else
    let '(targetProofOfStake, _, _) := SetCompact nBits in
    nValueIn ← values !! Z.to_nat (out_n prevout);
    let bnWeight := base_uint_of_u64 16 (SPH_T64 nValueIn) in
    let target512 := op_mul (uint512_of_hex targetProofOfStake) bnWeight in
    let hashProofOfStake := UintToArith 8 (Hash (kernel_bytes (nStakeModifier bprev) nTimeBlockFrom nTimeTxPrev prevout nTimeTx)) in
    Some (negb (0 <? CompareTo (uint512_of_hex hashProofOfStake) target512), Some hashProofOfStake).

End Kernel.

(** ** Specification of the target *)

(** The moving average, as numbers; [I] is the number of spacings averaged over. *)
Definition average_target (t a s I : Z) : Z := t * ((I - 1) * s + 2 * a) / ((I + 1) * s).

Record stake_params_ok (sp : StakeParams) : Prop := {
  so_spacing : 0 < nTargetSpacing sp < 2 ^ 31;
  so_timespan : nTargetSpacing sp <= nTargetTimespan sp < 2 ^ 32
}.

Lemma stake_limit_val : wf_arr 32 8 bnProofOfStakeLimitV2 /\ val bnProofOfStakeLimitV2 = 2 ^ 236 - 1.
Proof.
  destruct (u256_of 0 ltac:(unfold word; lia)) as [W0 V0]. destruct (u256_not _ W0) as [[Ln Wn] Vn].
  destruct (op_shr_val _ Wn 20 ltac:(lia)) as (W & L & V). rewrite Ln in L. split; [by split|]. unfold bnProofOfStakeLimitV2. rewrite V, Vn, V0. reflexivity.
Qed.

(** The number that the retarget encodes, with the wrap-around of 256 bits. *)
Definition retarget_number (t a s I limit : Z) : Z :=
  let q := t * ((I - 1) * s + 2 * a) mod 2 ^ 256 / ((I + 1) * s) in if (q =? 0) || (limit <? q) then limit else q.

Section Target.
Context (sp : StakeParams) (Hsp : stake_params_ok sp).

Definition averaging_interval : Z := nTargetTimespan sp / nTargetSpacing sp.

Lemma averaging_interval_bounds : 1 <= averaging_interval < 2 ^ 32 /\ averaging_interval * nTargetSpacing sp <= nTargetTimespan sp.
Proof.
  pose proof (so_spacing _ Hsp). pose proof (so_timespan _ Hsp). unfold averaging_interval.
  split; [split; [apply Z.div_le_lower_bound; lia|apply Z.div_lt_upper_bound; nia]|]. rewrite Z.mul_comm. apply Z.mul_div_le. lia.
Qed.

Lemma GetCompact_number limit : wf_arr 32 8 limit -> GetCompact false limit = Some (number_compact (val limit)).
Proof. intros H. rewrite GetCompact_spec by done. cbn [andb]. by rewrite Z.lor_0_r. Qed.

Lemma stake_retarget_spec bits a limit :
  word 32 bits -> 0 <= a < 2 ^ 63 -> wf_arr 32 8 limit ->
  stake_retarget sp bits a limit =
  Some (number_compact (retarget_number (compact_value bits mod 2 ^ 256) a (nTargetSpacing sp) averaging_interval (val limit))).
Proof.
  intros Hb Ha Hl. pose proof (so_spacing _ Hsp) as Hs. pose proof averaging_interval_bounds as [HI HIs]. pose proof (so_timespan _ Hsp).
  unfold stake_retarget. destruct (Z.eqb_spec (nTargetSpacing sp) 0); [lia|].
  pose proof (SetCompact_spec _ Hb) as HS. destruct (SetCompact bits) as [[t neg] over]. destruct HS as (Wt & Vt & _ & _).
  rewrite (T32_id (nTargetSpacing sp)), (T64_id a) by (unfold word; lia). fold averaging_interval. set (I := averaging_interval) in *. set (s := nTargetSpacing sp) in *.
  destruct (u256_of I ltac:(unfold word; lia)) as [WI VI]. destruct (u256_of 1 ltac:(unfold word; lia)) as [W1 V1].
  destruct (u256_of a ltac:(unfold word; lia)) as [Wa Va]. destruct (u256_sub _ _ WI W1) as [Wd Vd]. rewrite VI, V1, Z.mod_small in Vd by lia.
  destruct (u256_mul32 _ s Wd ltac:(unfold word; lia)) as [Wm Vm]. rewrite Vd, Z.mod_small in Vm by nia.
  destruct (u256_add _ _ Wm Wa) as [Wp Vp]. rewrite Vm, Va, Z.mod_small in Vp by nia.
  destruct (u256_add _ _ Wp Wa) as [Wp2 Vp2]. rewrite Vp, Va, Z.mod_small in Vp2 by nia.
  destruct (u256_mul t _ Wt Wp2) as [Wn Vn]. rewrite Vt, Vp2 in Vn.
  destruct (u256_add _ _ WI W1) as [Wi Vi]. rewrite VI, V1, Z.mod_small in Vi by lia.
  destruct (u256_mul32 _ s Wi ltac:(unfold word; lia)) as [Wden Vden]. rewrite Vi, Z.mod_small in Vden by nia.
  destruct (u256_div _ _ Wn Wden ltac:(nia)) as (q & -> & Wq & Vq). cbn [mbind option_bind]. rewrite Vn, Vden in Vq.
  destruct (u256_of 0 ltac:(unfold word; lia)) as [W0 V0]. rewrite !u256_cmp, V0 by done. pose proof (u256_bound q Wq). pose proof (u256_bound limit Hl).
  unfold retarget_number. replace ((I - 1) * s + 2 * a) with ((I - 1) * s + a + a) by lia. rewrite <- Vq.
  destruct (Z.ltb_spec (val q) 0); [lia|].
  destruct (Z.ltb_spec 0 (val q)), (Z.eqb_spec (val q) 0); try lia; cbn [Z.leb Z.compare orb]; [|by apply GetCompact_number].
  destruct (Z.ltb_spec (val q) (val limit)), (Z.ltb_spec (val limit) (val q)); try lia; cbn [Z.ltb Z.compare]; by apply GetCompact_number.
Qed.

End Target.

(** Without wrap-around: the target does not move when the spacing is met, grows
    when blocks are late, shrinks when they are early, and never by more than the
    ratio of the interval. *)
Lemma average_target_props t a s I :
  0 <= t -> 0 <= a -> 0 < s -> 1 <= I ->
  (a = s -> average_target t a s I = t) /\ (s <= a -> t <= average_target t a s I) /\ (a <= s -> average_target t a s I <= t) /\
  t * (I - 1) / (I + 1) <= average_target t a s I.
Proof.
  intros Ht Ha Hs HI. unfold average_target. split_and!.
  - intros ->. replace (t * ((I - 1) * s + 2 * s)) with (t * ((I + 1) * s)) by lia. apply Z.div_mul. nia.
  - intros Hle. apply Z.div_le_lower_bound; [nia|]. nia.
  - intros Hle. apply Z.div_le_upper_bound; [nia|]. nia.
  - rewrite <- (Z.div_mul_cancel_r (t * (I - 1)) (I + 1) s) by lia. apply Z.div_le_mono; nia.
Qed.

(** ** The last block of a kind *)

Definition last_of_kind (h : heap) (f : bool) (p : ptr) : Prop :=
  exists b, h !! p = Some b /\ (pprev b = None \/ IsProofOfStake b = f).

Lemma GetLastBlockIndex_spec h f p b :
  tree_ok h -> h !! p = Some b ->
  exists k q, GetLastBlockIndex h p f = Some q /\ up h p k = Some q /\ last_of_kind h f q /\
    forall j r, (j < k)%nat -> up h p j = Some r -> ~ last_of_kind h f r.
Proof.
  intros Hok Hp. unfold GetLastBlockIndex. rewrite Hp. cbn [mbind option_bind].
  assert (forall fuel p b, h !! p = Some b -> (Z.to_nat (nHeight b) <= fuel)%nat ->
    exists k q, GetLastBlockIndex_loop fuel h p f = Some q /\ up h p k = Some q /\ last_of_kind h f q /\
      forall j r, (j < k)%nat -> up h p j = Some r -> ~ last_of_kind h f r) as Hloop; [|by apply (Hloop _ p b Hp)].
  clear p b Hp. induction fuel as [|fuel IH]; intros p b Hp Hf; cbn [GetLastBlockIndex_loop]; rewrite Hp; cbn [mbind option_bind].
  all: pose proof (ok_height _ _ _ (Hok p b Hp)); destruct (pprev b) as [q|] eqn:Eq;
    [destruct (ok_prev _ _ _ (Hok p b Hp) q Eq) as (d & Hd & Eh); pose proof (ok_height _ _ _ (Hok q d Hd))|
     exists 0%nat, p; split_and!; try done; [exists b; auto|lia]].
  { lia. }
  destruct (Bool.eqb (IsProofOfStake b) f) eqn:Ek; [exists 0%nat, p; split_and!; try done; [exists b; split; [done|right; by apply eqb_prop]|lia]|].
  destruct (IH q d Hd ltac:(lia)) as (k & r & Er & Hu & Hl & Hlt). exists (S k), r. split_and!; try done.
  - cbn [up]. rewrite Hp. cbn. by rewrite Eq.
  - intros [|j] r' Hj Hu'; cbn [up] in Hu'.
    + injection Hu' as <-. intros (b' & Hb' & Hk). rewrite Hp in Hb'. injection Hb' as <-. destruct Hk as [?|Hk]; [congruence|].
      rewrite Hk, eqb_reflx in Ek. done.
    + rewrite Hp in Hu'. cbn in Hu'. rewrite Eq in Hu'. apply (Hlt j); [lia|done].
Qed.

(** ** The kernel *)

Lemma kernel_target_val t v :
  wf_arr 32 8 t -> word 64 v -> wf_arr 32 16 (op_mul (uint512_of_hex t) (base_uint_of_u64 16 v)) /\
    val (op_mul (uint512_of_hex t) (base_uint_of_u64 16 v)) = val t * v.
Proof.
  intros Ht Hv. destruct (uint512_of_hex_val t Ht) as [[L W] V]. destruct (of_u64_val 16 v ltac:(lia) Hv) as [[L2 W2] V2].
  destruct (op_mul_val _ _ W W2 ltac:(lia)) as (Wm & Lm & Vm). rewrite L in Lm, Vm. split; [by split|]. rewrite Vm, V, V2.
  apply Z.mod_small. pose proof (u256_bound t Ht). unfold word in Hv. change (32 * Z.of_nat 16) with 512. nia.
Qed.

Lemma CheckStakeKernelHashV2_spec Hash sp bprev nBits tFrom tPrev values out tTx v :
  word 32 nBits -> (forall x, words 8 (Hash x)) -> values !! Z.to_nat (out_n out) = Some v -> 0 <= v < 2 ^ 63 ->
  CheckStakeKernelHashV2 Hash sp bprev nBits tFrom tPrev values out tTx =
  Some (if (tTx <? tPrev) || (tTx <? SPH_T32 (tFrom + nStakeMinAge sp)) then (false, None)
        else let proof := UintToArith 8 (Hash (kernel_bytes (nStakeModifier bprev) tFrom tPrev out tTx)) in
             (val proof <=? compact_value nBits mod 2 ^ 256 * v, Some proof)).
Proof.
  intros Hb Hh Hv Hr. unfold CheckStakeKernelHashV2. destruct (tTx <? tPrev); [done|]. destruct (tTx <? _); [done|]. cbn [orb].
  pose proof (SetCompact_spec _ Hb) as HS. destruct (SetCompact nBits) as [[t neg] over]. destruct HS as (Wt & Vt & _ & _). rewrite Hv. cbn [mbind option_bind].
  rewrite T64_id by (unfold word; lia). set (proof := UintToArith 8 _). assert (wf_arr 32 8 proof) as Wp by apply UintToArith_words, Hh.
  destruct (kernel_target_val t v Wt ltac:(unfold word; lia)) as [[Lk Wk] Vk]. destruct (uint512_of_hex_val proof Wp) as [[Lh Wh] Vh].
  do 2 f_equal. rewrite compare_val by (done || lia). rewrite Vk, Vh, Vt.
  destruct (Z.ltb_spec (val proof) (compact_value nBits mod 2 ^ 256 * v)), (Z.ltb_spec (compact_value nBits mod 2 ^ 256 * v) (val proof));
    cbn [Z.ltb Z.compare negb]; symmetry; (apply Z.leb_le || apply Z.leb_gt); lia.
Qed.

(** ** Doubling per day *)

Definition days (nTime : Z) : Z := if nTime <=? 0 then 0 else (nTime + 86399) / 86400.

Lemma days_pos n : 0 < n -> 1 <= days n <= n /\ days (n - 86400) = days n - 1.
Proof.
  intros Hn. unfold days. destruct (Z.leb_spec n 0); [lia|]. split.
  - split; [apply Z.div_le_lower_bound; lia|apply Z.div_le_upper_bound; lia].
  - destruct (Z.leb_spec (n - 86400) 0).
    + symmetry. assert ((n + 86399) / 86400 = 1); [|lia]. symmetry. apply (Z.div_unique_pos _ _ _ (n - 1)); lia.
    + replace (n - 86400 + 86399) with (n + 86399 + (-1) * 86400) by lia. rewrite Z.div_add by lia. lia.
Qed.

Lemma double_per_day_spec fuel r limit n :
  wf_arr 32 8 r -> wf_arr 32 8 limit -> val limit <= 2 ^ 255 -> (Z.to_nat (days n) <= fuel)%nat ->
  exists r', double_per_day fuel r limit n = Some r' /\ wf_arr 32 8 r' /\ Z.min (val r') (val limit) = Z.min (val r * 2 ^ days n) (val limit).
Proof.
  revert r n. induction fuel as [|fuel IH]; intros r n Hr Hl Hmax Hf; cbn [double_per_day]; rewrite u256_cmp by done; pose proof (u256_bound r Hr);
    (destruct (Z.ltb_spec 0 n) as [Hn|Hn]; cbn [andb];
     [pose proof (days_pos n Hn) as [Hd1 Hd2]|exists r; split_and!; try done; unfold days; destruct (Z.leb_spec n 0); [f_equal; lia|lia]]).
  { lia. }
  destruct (Z.ltb_spec (val r) (val limit)).
  - cbn [Z.ltb Z.compare]. destruct (u256_mul32 r 2 Hr ltac:(unfold word; lia)) as [Wm Vm]. rewrite Z.mod_small in Vm by lia.
    destruct (IH (op_mul32 r 2) (n - 24 * 60 * 60) Wm Hl Hmax) as (r' & E & W & V); [change (24 * 60 * 60) with 86400; lia|].
    exists r'. split_and!; try done. rewrite V, Vm. change (24 * 60 * 60) with 86400. rewrite Hd2. f_equal.
    replace (days n) with (1 + (days n - 1)) at 2 by lia. rewrite Z.pow_add_r by lia. lia.
  - assert (1 <= 2 ^ days n) by (apply (Z.pow_le_mono_r 2 0); lia).
    destruct (Z.ltb_spec (val limit) (val r)); cbn [Z.ltb Z.compare]; exists r; split_and!; try done; nia.
Qed.

Lemma ComputeMaxBits_spec limit nBase n :
  wf_arr 32 8 limit -> val limit <= 2 ^ 255 -> word 32 nBase ->
  ComputeMaxBits limit nBase n = Some (number_compact (Z.min (compact_value nBase mod 2 ^ 256 * 2 mod 2 ^ 256 * 2 ^ days n) (val limit))).
Proof.
  intros Hl Hmax Hb. unfold ComputeMaxBits. pose proof (SetCompact_spec _ Hb) as HS. destruct (SetCompact nBase) as [[t neg] over]. destruct HS as (Wt & Vt & _ & _).
  destruct (u256_mul32 t 2 Wt ltac:(unfold word; lia)) as [Wm Vm]. rewrite Vt in Vm.
  assert (Z.to_nat (days n) <= Z.to_nat n)%nat as Hf. { unfold days at 1. destruct (Z.leb_spec n 0); [lia|]. pose proof (days_pos n ltac:(lia)) as [Hd _]. unfold days in Hd. destruct (Z.leb_spec n 0); lia. }
  destruct (double_per_day_spec (Z.to_nat n) _ limit n Wm Hl Hmax Hf) as (r & -> & Wr & Vr). cbn [mbind option_bind]. rewrite u256_cmp by done. rewrite <- Vm, <- Vr.
  destruct (Z.ltb_spec (val r) (val limit)), (Z.ltb_spec (val limit) (val r)); cbn [Z.ltb Z.compare]; rewrite GetCompact_number by done; do 2 f_equal; lia.
Qed.

(** ** Main results *)

(** C2. The kernel check accepts exactly when the stake is not older than its transaction
    or younger than the minimum age, and the proof hash is at most the target
    times the staked amount; the product is exact, it cannot wrap around. *)
Theorem stake_kernel_check Hash sp bprev nBits tFrom tPrev values out tTx v :
  word 32 nBits -> (forall x, words 8 (Hash x)) -> values !! Z.to_nat (out_n out) = Some v -> 0 <= v < 2 ^ 63 ->
  exists verdict proof, CheckStakeKernelHashV2 Hash sp bprev nBits tFrom tPrev values out tTx = Some (verdict, proof) /\
    (verdict = true <->
     tPrev <= tTx /\ (tFrom + nStakeMinAge sp) mod 2 ^ 32 <= tTx /\
     val (UintToArith 8 (Hash (kernel_bytes (nStakeModifier bprev) tFrom tPrev out tTx))) <= compact_value nBits mod 2 ^ 256 * v) /\
    (verdict = true -> proof = Some (UintToArith 8 (Hash (kernel_bytes (nStakeModifier bprev) tFrom tPrev out tTx)))).
Proof.
  intros Hb Hh Hv Hr. rewrite (CheckStakeKernelHashV2_spec Hash sp bprev nBits tFrom tPrev values out tTx v) by done. rewrite T32_mod.
  destruct (Z.ltb_spec tTx tPrev); [by eexists _, _; split; [done|]; split; [split; [done|lia]|done]|].
  destruct (Z.ltb_spec tTx ((tFrom + nStakeMinAge sp) mod 2 ^ 32)); [by eexists _, _; split; [done|]; split; [split; [done|lia]|done]|].
  cbn [orb]. eexists _, _. split; [done|]. split; [rewrite Z.leb_le; split; [done|tauto]|done].
Qed.

Definition demo_stake_params : StakeParams :=
  {| nStakeMinAge := 10; nTargetSpacing := 30; nTargetTimespan := 750; nModifierInterval := 600; ProofOfWorkLimit := arith_uint256_of 0xFFFF |}.

Lemma stake_kernel_check_witness :
  exists verdict proof, CheckStakeKernelHashV2 (fun x => replicate 32 1) demo_stake_params SetNull 0x1E0FFFFF 100 90 [0; 50000] {| out_hash := []; out_n := 1 |} 200
    = Some (verdict, proof) /\ verdict = true.
Proof.
  destruct (stake_kernel_check (fun x => replicate 32 1) demo_stake_params SetNull 0x1E0FFFFF 100 90 [0; 50000] {| out_hash := []; out_n := 1 |} 200 50000)
    as (verdict & proof & E & Hv & _).
  - unfold word. lia.
  - intros x. apply words_replicate. unfold word. lia.
  - reflexivity.
  - lia.
  - exists verdict, proof. split; [exact E|]. apply Hv. split; [lia|]. split; [apply Z.leb_le; vm_compute; reflexivity|apply Z.leb_le; vm_compute; reflexivity].
Defined.

(** The stake target of the next block: unless the product wraps around 256 bits it
    is the moving average of the spacing (the limit when that is zero or above
    the limit), which keeps the target when the spacing is met, raises it for
    late blocks, lowers it for early ones, and moves at most by the ratio
    [(I - 1) / (I + 1)]. *)
Theorem stake_target_average sp bits a limit :
  stake_params_ok sp -> word 32 bits -> 0 <= a < 2 ^ 63 -> wf_arr 32 8 limit ->
  let t := compact_value bits in
  let s := nTargetSpacing sp in
  let I := nTargetTimespan sp / s in
  t < 2 ^ 256 -> t * ((I - 1) * s + 2 * a) < 2 ^ 256 ->
  let q := average_target t a s I in
  stake_retarget sp bits a limit = Some (number_compact (if (q =? 0) || (val limit <? q) then val limit else q)) /\
  (a = s -> q = t) /\ (s <= a -> t <= q) /\ (a <= s -> q <= t) /\ t * (I - 1) / (I + 1) <= q.
Proof.
  intros Hsp Hb Ha Hl t s I Ht Hprod q. pose proof (so_spacing _ Hsp). pose proof (averaging_interval_bounds sp Hsp) as [HI _]. pose proof (compact_value_pos _ Hb).
  split; [|apply average_target_props; (done || unfold I, s, averaging_interval in *; lia)].
  rewrite stake_retarget_spec by done. unfold retarget_number. fold t. rewrite (Z.mod_small t) by (unfold t in *; lia).
  rewrite Z.mod_small; [done|]. split; [|done]. apply Z.mul_nonneg_nonneg; [done|]. unfold averaging_interval in *. unfold s in *. nia.
Qed.

Lemma demo_stake_params_ok : stake_params_ok demo_stake_params.
Proof. split; cbn; lia. Qed.

Lemma stake_target_average_witness : stake_retarget demo_stake_params 0x1C0FFFFF 30 bnProofOfStakeLimitV2 = Some 0x1C0FFFFF.
Proof.
  destruct (stake_target_average demo_stake_params 0x1C0FFFFF 30 bnProofOfStakeLimitV2 demo_stake_params_ok) as (E & Hq & _).
  - unfold word; lia.
  - lia.
  - apply stake_limit_val.
  - apply Z.ltb_lt. vm_compute. reflexivity.
  - apply Z.ltb_lt. vm_compute. reflexivity.
  - rewrite E, (Hq eq_refl). vm_compute. reflexivity.
Defined.

(** The wrap-around: at the largest target, blocks that are six days apart (instead of
    half a minute) lower the target instead of leaving it at the limit. *)
Theorem stake_target_wraps :
  exists c, stake_retarget demo_stake_params 0x1E0FFFFF (2 ^ 19) bnProofOfStakeLimitV2 = Some c /\ compact_value c < compact_value 0x1E0FFFFF /\
    nTargetSpacing demo_stake_params < 2 ^ 19.
Proof.
  rewrite stake_retarget_spec; [|apply demo_stake_params_ok|unfold word; lia|lia|apply stake_limit_val]. eexists. split; [done|].
  split; [|reflexivity]. apply Z.ltb_lt. rewrite (proj2 stake_limit_val). vm_compute. reflexivity.
Qed.

(** The largest target after a time: the base target, doubled once and then once per
    started day, at most the limit; the loop ends and nothing fails. *)
Theorem max_bits_after_days limit nBase n :
  wf_arr 32 8 limit -> val limit <= 2 ^ 255 -> word 32 nBase ->
  ComputeMaxBits limit nBase n = Some (number_compact (Z.min (compact_value nBase mod 2 ^ 256 * 2 mod 2 ^ 256 * 2 ^ days n) (val limit))).
Proof. apply ComputeMaxBits_spec. Qed.

Lemma max_bits_after_days_witness : ComputeMaxBits bnProofOfStakeLimitV2 0x1C0FFFFF 100000 = Some 0x1C7FFFF8.
Proof.
  rewrite max_bits_after_days.
  - rewrite (proj2 stake_limit_val). vm_compute. reflexivity.
  - apply stake_limit_val.
  - rewrite (proj2 stake_limit_val). apply Z.leb_le. vm_compute. reflexivity.
  - unfold word; lia.
Defined.

(** Without a last block the proof-of-stake branch reads its height all the same. *)
Lemma next_stake_target_null sp h : GetNextTargetRequired sp h None true = None.
Proof. reflexivity. Qed.

(** The next target is taken from the last two blocks of the kind: the last one, and
    the last one before it; the limit when there are not two. *)
Theorem next_target_required sp h last bl :
  tree_ok h -> stake_params_ok sp -> wf_arr 32 8 (ProofOfWorkLimit sp) -> h !! last = Some bl ->
  (forall p b, h !! p = Some b -> word 32 (nBits b) /\ 0 <= nTime b < 2 ^ 32) ->
  forall f : bool, let limit := if f then bnProofOfStakeLimitV2 else ProofOfWorkLimit sp in
  exists k q bq, up h last k = Some q /\ h !! q = Some bq /\ last_of_kind h f q /\
    match pprev bq with
    | None => GetNextTargetRequired sp h (Some last) f = Some (number_compact (val limit))
    | Some q' => exists k' r br, up h q' k' = Some r /\ h !! r = Some br /\ last_of_kind h f r /\
        match pprev br with
        | None => GetNextTargetRequired sp h (Some last) f = Some (number_compact (val limit))
        | Some _ =>
            let a := GetBlockTime bq - GetBlockTime br in
            GetNextTargetRequired sp h (Some last) f =
            Some (number_compact (retarget_number (compact_value (nBits bq) mod 2 ^ 256) (if a <? 0 then nTargetSpacing sp else a)
              (nTargetSpacing sp) (averaging_interval sp) (val limit)))
        end
    end.
Proof.
  intros Hok Hsp Hl Hlast Hb f limit. pose proof (so_spacing _ Hsp). unfold GetNextTargetRequired.
  assert ((if f then p ← Some last; b ← h !! p; Some (GetProofOfStakeLimit (nHeight b)) else Some (ProofOfWorkLimit sp)) = Some limit) as ->.
  { unfold limit. destruct f; [|done]. cbn [mbind option_bind]. by rewrite Hlast. }
  assert (wf_arr 32 8 limit) as Wl by (unfold limit; destruct f; [apply stake_limit_val|done]). cbn [mbind option_bind].
  destruct (GetLastBlockIndex_spec h f last bl Hok Hlast) as (k & q & -> & Hu & Hk & _). cbn [mbind option_bind].
  destruct (up_height h Hok last bl k q Hlast Hu) as (bq & Hq & _). exists k, q, bq. split_and!; try done. rewrite Hq. cbn [mbind option_bind].
  destruct (pprev bq) as [q'|] eqn:Eq; [|by apply GetCompact_number].
  destruct (ok_prev _ _ _ (Hok q bq Hq) q' Eq) as (bq' & Hq' & _).
  destruct (GetLastBlockIndex_spec h f q' bq' Hok Hq') as (k' & r & -> & Hu' & Hk' & _). cbn [mbind option_bind].
  destruct (up_height h Hok q' bq' k' r Hq' Hu') as (br & Hr & _). exists k', r, br. split_and!; try done. rewrite Hr. cbn [mbind option_bind].
  destruct (pprev br) as [r'|]; [|by apply GetCompact_number]. destruct (Hb q bq Hq) as [Wb Tq]. destruct (Hb r br Hr) as [_ Tr].
  apply stake_retarget_spec; try done. unfold GetBlockTime. case_match; lia.
Qed.

Lemma next_target_required_witness :
  exists k q bq, up (demo_chain [0; 30; 60; 90; 120]) 4 k = Some q /\ demo_chain [0; 30; 60; 90; 120] !! q = Some bq /\
    last_of_kind (demo_chain [0; 30; 60; 90; 120]) true q.
Proof.
  destruct (next_target_required demo_stake_params (demo_chain [0; 30; 60; 90; 120]) 4 (entry_at (demo_chain [0; 30; 60; 90; 120]) 4)) with (f := true)
    as (k & q & bq & Hu & Hq & Hk & _).
  - apply tree_okb_sound. vm_compute. reflexivity.
  - apply demo_stake_params_ok.
  - apply u256_of. unfold word; lia.
  - vm_compute. reflexivity.
  - intros p b Hp. apply (heap_forallb (fun _ b => (0 <=? nBits b) && (nBits b <? 2 ^ 32) && (0 <=? nTime b) && (nTime b <? 2 ^ 32))) in Hp; [|vm_compute; reflexivity].
    rewrite !andb_true_iff in Hp. unfold word. lia.
  - exists k, q, bq. split; [exact Hu|]. split; [exact Hq|exact Hk].
Defined.
