(* ===== verification/Dao.v ===== *)
(** * consensus/dao.h, consensus/dao.cpp: proposals, payment requests, consultations

    The records of the community fund and of the consultations, the history of
    their states, and the rules that judge them: acceptance, rejection, expiry,
    support, and the part of a proposal that is still available.  The state view is
    its content: a map for each kind of record, in which a null record counts as
    absent.  [StateView] shows that the layered cache implements such a map.

    Thresholds are computed in [float] and [double] as in the source, with the
    standard model of IEEE 754 arithmetic.  The flag [fDirty] is left out: every
    constructor sets it and nothing clears it. *)

From Stdlib Require Import ZArith Lia SpecFloat.
From stdpp Require Import base tactics numbers list gmap sorting.
From S2P Require Import Prelude SphTypes ArithUint Blob Chain BlockIndex BlockVersion.

Abbreviation cstring := (list Z) (only parsing).

(** The conversion of an [int] or [int64_t] to [uint64_t]. *)
Definition to_u64 (x : Z) : Z := x mod 2 ^ 64.

(** ** Floating point *)

Definition float_of (z : Z) : spec_float := binary_normalize 24 128 z 0 false.
Definition double_of (z : Z) : spec_float := binary_normalize 53 1024 z 0 false.
Definition float_mul : spec_float -> spec_float -> spec_float := SFmul 24 128.
Definition double_div : spec_float -> spec_float -> spec_float := SFdiv 53 1024.

(** Conversion between the two formats: rounding, exact from [float] to [double]. *)
Definition float_of_double (x : spec_float) : spec_float := SFldexp 24 128 x 0.
Definition double_of_float (x : spec_float) : spec_float := SFldexp 53 1024 x 0.

(** [float f = n / 10000.0;] *)
Definition per10000 (n : Z) : spec_float := float_of_double (double_div (double_of n) (double_of 10000)).

(** ** States *)

Inductive flags :=
  | NIL | ACCEPTED | REJECTED | EXPIRED | PENDING_FUNDS | PENDING_VOTING_PREQ | PAID | PASSED | REFLECTION | SUPPORTED.

#[export] Instance flags_eq_dec : EqDecision flags.
Proof. solve_decision. Defined.

Definition VOTE_YES : Z := 1.
Definition VOTE_NO : Z := 0.
Definition VOTE_ABSTAIN : Z := -1.

(** The states a record went through, by the hash of the block that set them. *)
Abbreviation state_map := (gmap uint256 flags).

(** Iteration over a [std::map] whose keys are [uint256]. *)
Definition key_le (a b : uint256) : Prop := blob_less b a = false.
#[export] Instance key_le_dec a b : Decision (key_le a b).
Proof. unfold key_le. apply _. Defined.
Definition ordered_keys {A} (m : gmap uint256 A) : list uint256 := merge_sort key_le (map_to_list m).*1.

Section States.

(** [mapBlockIndex] and the entries it points to. *)
Variable index : BlockTree.

Definition index_entry (blockhash : uint256) : option CBlockIndex :=
  p ← mapBlockIndex index !! blockhash; entries index !! p.

(** The loop of [GetLastState], [GetLastStateBlockIndex] and
    [GetLastStateBlockIndexForState]: the entry of the highest block. *)
Definition last_state_step (keep : flags -> bool) (m : state_map) (acc : Z * option (CBlockIndex * flags)) (k : uint256) :
  Z * option (CBlockIndex * flags) :=
  match m !! k with
  | Some s =>
      if keep s then
        match index_entry k with
        | Some b => if acc.1 <? nHeight b then (nHeight b, Some (b, s)) else acc
        | None => acc
        end
      else acc
  | None => acc
  end.

Definition last_state_entry (keep : flags -> bool) (m : state_map) : option (CBlockIndex * flags) :=
  (fold_left (last_state_step keep m) (ordered_keys m) (0, None)).2.

Definition GetLastState (m : state_map) : flags :=
  match last_state_entry (fun _ => true) m with Some (_, s) => s | None => NIL end.
Definition GetLastStateBlockIndex (m : state_map) : option CBlockIndex := fst <$> last_state_entry (fun _ => true) m.
Definition GetLastStateBlockIndexForState (m : state_map) (state : flags) : option CBlockIndex :=
  fst <$> last_state_entry (fun s => bool_decide (s = state)) m.

(** [SetState] and [ClearState]; the block is given by its hash. *)
Definition SetState (m : state_map) (blockhash : uint256) (state : flags) : state_map := <[blockhash := state]> m.
Definition ClearState (m : state_map) (blockhash : uint256) : state_map := delete blockhash m.

End States.

(** ** Records *)

Module CPaymentRequest.

Record t := {
  nAmount : Z;
  mapState : state_map;
  hash : uint256;
  proposalhash : uint256;
  txblockhash : uint256;
  nVotesYes : Z;
  nVotesNo : Z;
  nVotesAbs : Z;
  nExclude : Z;
  strDZeel : cstring;
  nVersion : Z;
  nVotingCycle : Z
}.

Definition BASE_VERSION : Z := 1 << 1.
Definition REDUCED_QUORUM_VERSION : Z := 1 << 2.
Definition ABSTAIN_VOTE_VERSION : Z := 1 << 3.
Definition EXCLUDE_VERSION : Z := 1 << 4.

Definition SetNull : t := {|
  nAmount := 0; mapState := ∅; hash := uint256_null; proposalhash := uint256_null; txblockhash := uint256_null;
  nVotesYes := 0; nVotesNo := 0; nVotesAbs := 0; nExclude := 0; strDZeel := []; nVersion := 0; nVotingCycle := 0 |}.

Definition IsNull (r : t) : bool :=
  (nAmount r =? 0) && (nVotesYes r =? 0) && (nVotesNo r =? 0) && (nExclude r =? 0) &&
  bool_decide (strDZeel r = []) && bool_decide (size (mapState r) = 0%nat).

Definition with_states (r : t) (m : state_map) : t := {|
  nAmount := nAmount r; mapState := m; hash := hash r; proposalhash := proposalhash r; txblockhash := txblockhash r;
  nVotesYes := nVotesYes r; nVotesNo := nVotesNo r; nVotesAbs := nVotesAbs r; nExclude := nExclude r;
  strDZeel := strDZeel r; nVersion := nVersion r; nVotingCycle := nVotingCycle r |}.

Definition with_votes (r : t) (yes no abs : Z) : t := {|
  nAmount := nAmount r; mapState := mapState r; hash := hash r; proposalhash := proposalhash r; txblockhash := txblockhash r;
  nVotesYes := yes; nVotesNo := no; nVotesAbs := abs; nExclude := nExclude r;
  strDZeel := strDZeel r; nVersion := nVersion r; nVotingCycle := nVotingCycle r |}.

Definition with_exclude (r : t) (n : Z) : t := {|
  nAmount := nAmount r; mapState := mapState r; hash := hash r; proposalhash := proposalhash r; txblockhash := txblockhash r;
  nVotesYes := nVotesYes r; nVotesNo := nVotesNo r; nVotesAbs := nVotesAbs r; nExclude := n;
  strDZeel := strDZeel r; nVersion := nVersion r; nVotingCycle := nVotingCycle r |}.

Definition with_cycle (r : t) (c : Z) : t := {|
  nAmount := nAmount r; mapState := mapState r; hash := hash r; proposalhash := proposalhash r; txblockhash := txblockhash r;
  nVotesYes := nVotesYes r; nVotesNo := nVotesNo r; nVotesAbs := nVotesAbs r; nExclude := nExclude r;
  strDZeel := strDZeel r; nVersion := nVersion r; nVotingCycle := c |}.

End CPaymentRequest.

Module CProposal.

Record t := {
  nAmount : Z;
  nFee : Z;
  ownerAddress : cstring;
  paymentAddress : cstring;
  nDeadline : Z;
  mapState : state_map;
  nVotesYes : Z;
  nVotesNo : Z;
  nVotesAbs : Z;
  nExclude : Z;
  strDZeel : cstring;
  hash : uint256;
  txblockhash : uint256;
  nVersion : Z;
  nVotingCycle : Z
}.

Definition BASE_VERSION : Z := 1 << 1.
Definition REDUCED_QUORUM_VERSION : Z := 1 << 2.
Definition ABSTAIN_VOTE_VERSION : Z := 1 << 3.
Definition PAYMENT_ADDRESS_VERSION : Z := 1 << 4.
Definition EXCLUDE_VERSION : Z := 1 << 5.

(** Of a new object: [SetNull] itself leaves [txblockhash] as its constructor made it. *)
Definition SetNull : t := {|
  nAmount := 0; nFee := 0; ownerAddress := []; paymentAddress := []; nDeadline := 0; mapState := ∅;
  nVotesYes := 0; nVotesNo := 0; nVotesAbs := 0; nExclude := 0; strDZeel := []; hash := uint256_null;
  txblockhash := uint256_null; nVersion := 0; nVotingCycle := 0 |}.

Definition IsNull (p : t) : bool :=
  (nAmount p =? 0) && (nFee p =? 0) && bool_decide (ownerAddress p = []) && bool_decide (paymentAddress p = []) &&
  (nVotesYes p =? 0) && (nVotesNo p =? 0) && (nExclude p =? 0) && (nDeadline p =? 0) &&
  bool_decide (strDZeel p = []) && bool_decide (size (mapState p) = 0%nat).

Definition with_states (p : t) (m : state_map) : t := {|
  nAmount := nAmount p; nFee := nFee p; ownerAddress := ownerAddress p; paymentAddress := paymentAddress p;
  nDeadline := nDeadline p; mapState := m; nVotesYes := nVotesYes p; nVotesNo := nVotesNo p; nVotesAbs := nVotesAbs p;
  nExclude := nExclude p; strDZeel := strDZeel p; hash := hash p; txblockhash := txblockhash p;
  nVersion := nVersion p; nVotingCycle := nVotingCycle p |}.

Definition with_votes (p : t) (yes no abs : Z) : t := {|
  nAmount := nAmount p; nFee := nFee p; ownerAddress := ownerAddress p; paymentAddress := paymentAddress p;
  nDeadline := nDeadline p; mapState := mapState p; nVotesYes := yes; nVotesNo := no; nVotesAbs := abs;
  nExclude := nExclude p; strDZeel := strDZeel p; hash := hash p; txblockhash := txblockhash p;
  nVersion := nVersion p; nVotingCycle := nVotingCycle p |}.

Definition with_exclude (p : t) (n : Z) : t := {|
  nAmount := nAmount p; nFee := nFee p; ownerAddress := ownerAddress p; paymentAddress := paymentAddress p;
  nDeadline := nDeadline p; mapState := mapState p; nVotesYes := nVotesYes p; nVotesNo := nVotesNo p; nVotesAbs := nVotesAbs p;
  nExclude := n; strDZeel := strDZeel p; hash := hash p; txblockhash := txblockhash p;
  nVersion := nVersion p; nVotingCycle := nVotingCycle p |}.

Definition with_cycle (p : t) (c : Z) : t := {|
  nAmount := nAmount p; nFee := nFee p; ownerAddress := ownerAddress p; paymentAddress := paymentAddress p;
  nDeadline := nDeadline p; mapState := mapState p; nVotesYes := nVotesYes p; nVotesNo := nVotesNo p; nVotesAbs := nVotesAbs p;
  nExclude := nExclude p; strDZeel := strDZeel p; hash := hash p; txblockhash := txblockhash p;
  nVersion := nVersion p; nVotingCycle := c |}.

Definition GetOwnerAddress (p : t) : cstring := ownerAddress p.
Definition GetPaymentAddress (p : t) : cstring :=
  if negb (nVersion p .& PAYMENT_ADDRESS_VERSION =? 0) then paymentAddress p else ownerAddress p.

End CProposal.

Module CConsultationAnswer.

Record t := {
  nVersion : Z;
  sAnswer : cstring;
  nVotes : Z;
  nSupport : Z;
  nExclude : Z;
  mapState : state_map;
  hash : uint256;
  parent : uint256;
  txblockhash : uint256;
  txhash : uint256
}.

Definition EXCLUDE_VERSION : Z := 1 << 1.

Definition SetNull : t := {|
  nVersion := 0; sAnswer := []; nVotes := 0; nSupport := 0; nExclude := 0; mapState := ∅;
  hash := uint256_null; parent := uint256_null; txblockhash := uint256_null; txhash := uint256_null |}.

Definition IsNull (a : t) : bool :=
  bool_decide (sAnswer a = []) && (nVotes a =? 0) && (nSupport a =? 0) && (nVersion a =? 0) &&
  bool_decide (size (mapState a) = 0%nat) && (nExclude a =? 0) &&
  bool_decide (hash a = uint256_null) && bool_decide (txhash a = uint256_null) &&
  bool_decide (parent a = uint256_null) && bool_decide (txblockhash a = uint256_null).

Definition with_states (a : t) (m : state_map) : t := {|
  nVersion := nVersion a; sAnswer := sAnswer a; nVotes := nVotes a; nSupport := nSupport a; nExclude := nExclude a;
  mapState := m; hash := hash a; parent := parent a; txblockhash := txblockhash a; txhash := txhash a |}.

Definition with_votes (a : t) (n : Z) : t := {|
  nVersion := nVersion a; sAnswer := sAnswer a; nVotes := n; nSupport := nSupport a; nExclude := nExclude a;
  mapState := mapState a; hash := hash a; parent := parent a; txblockhash := txblockhash a; txhash := txhash a |}.

Definition with_support (a : t) (n : Z) : t := {|
  nVersion := nVersion a; sAnswer := sAnswer a; nVotes := nVotes a; nSupport := n; nExclude := nExclude a;
  mapState := mapState a; hash := hash a; parent := parent a; txblockhash := txblockhash a; txhash := txhash a |}.

Definition with_exclude (a : t) (n : Z) : t := {|
  nVersion := nVersion a; sAnswer := sAnswer a; nVotes := nVotes a; nSupport := nSupport a; nExclude := n;
  mapState := mapState a; hash := hash a; parent := parent a; txblockhash := txblockhash a; txhash := txhash a |}.

End CConsultationAnswer.

Module CConsultation.

Record t := {
  mapState : state_map;
  hash : uint256;
  txblockhash : uint256;
  nVersion : Z;
  nVotingCycle : Z;
  strDZeel : cstring;
  nSupport : Z;
  nMin : Z;
  nMax : Z;
  mapVotes : gmap Z Z;
  vAnswers : list uint256;
  nExclude : Z
}.

Definition ANSWER_IS_A_RANGE_VERSION : Z := 1 << 1.
Definition MORE_ANSWERS_VERSION : Z := 1 << 2.
Definition CONSENSUS_PARAMETER_VERSION : Z := 1 << 3.

Definition SetNull : t := {|
  mapState := ∅; hash := uint256_null; txblockhash := uint256_null; nVersion := 0; nVotingCycle := 0; strDZeel := [];
  nSupport := 0; nMin := 0; nMax := 0; mapVotes := ∅; vAnswers := []; nExclude := 0 |}.

Definition IsNull (c : t) : bool :=
  bool_decide (hash c = uint256_null) && bool_decide (txblockhash c = uint256_null) && bool_decide (size (mapState c) = 0%nat) &&
  (nVersion c =? 0) && (nVotingCycle c =? 0) && bool_decide (strDZeel c = []) && (nSupport c =? 0) &&
  (nMin c =? 0) && (nMax c =? 0) && bool_decide (length (vAnswers c) = 0%nat) && (nExclude c =? 0).

Definition with_states (c : t) (m : state_map) : t := {|
  mapState := m; hash := hash c; txblockhash := txblockhash c; nVersion := nVersion c; nVotingCycle := nVotingCycle c;
  strDZeel := strDZeel c; nSupport := nSupport c; nMin := nMin c; nMax := nMax c; mapVotes := mapVotes c;
  vAnswers := vAnswers c; nExclude := nExclude c |}.

Definition with_cycle (c : t) (n : Z) : t := {|
  mapState := mapState c; hash := hash c; txblockhash := txblockhash c; nVersion := nVersion c; nVotingCycle := n;
  strDZeel := strDZeel c; nSupport := nSupport c; nMin := nMin c; nMax := nMax c; mapVotes := mapVotes c;
  vAnswers := vAnswers c; nExclude := nExclude c |}.

Definition with_support (c : t) (n : Z) : t := {|
  mapState := mapState c; hash := hash c; txblockhash := txblockhash c; nVersion := nVersion c; nVotingCycle := nVotingCycle c;
  strDZeel := strDZeel c; nSupport := n; nMin := nMin c; nMax := nMax c; mapVotes := mapVotes c;
  vAnswers := vAnswers c; nExclude := nExclude c |}.

Definition with_votes (c : t) (m : gmap Z Z) : t := {|
  mapState := mapState c; hash := hash c; txblockhash := txblockhash c; nVersion := nVersion c; nVotingCycle := nVotingCycle c;
  strDZeel := strDZeel c; nSupport := nSupport c; nMin := nMin c; nMax := nMax c; mapVotes := m;
  vAnswers := vAnswers c; nExclude := nExclude c |}.

Definition with_answers (c : t) (l : list uint256) : t := {|
  mapState := mapState c; hash := hash c; txblockhash := txblockhash c; nVersion := nVersion c; nVotingCycle := nVotingCycle c;
  strDZeel := strDZeel c; nSupport := nSupport c; nMin := nMin c; nMax := nMax c; mapVotes := mapVotes c;
  vAnswers := l; nExclude := nExclude c |}.

Definition with_exclude (c : t) (n : Z) : t := {|
  mapState := mapState c; hash := hash c; txblockhash := txblockhash c; nVersion := nVersion c; nVotingCycle := nVotingCycle c;
  strDZeel := strDZeel c; nSupport := nSupport c; nMin := nMin c; nMax := nMax c; mapVotes := mapVotes c;
  vAnswers := vAnswers c; nExclude := n |}.

Definition IsRange (c : t) : bool := negb (nVersion c .& ANSWER_IS_A_RANGE_VERSION =? 0).
Definition IsAboutConsensusParameter (c : t) : bool := negb (nVersion c .& CONSENSUS_PARAMETER_VERSION =? 0).

(** The comparison with [nMin] and [nMax] is one of unsigned numbers. *)
Definition IsValidVote (c : t) (vote : Z) : bool :=
  (vote =? VOTE_ABSTAIN) || (IsRange c && (nMin c <=? to_u64 vote) && (to_u64 vote <=? nMax c)).

End CConsultation.

(** ** Consensus parameters *)

Inductive ConsensusParamsPos :=
  | CONSENSUS_PARAM_VOTING_CYCLE_LENGTH
  | CONSENSUS_PARAM_CONSULTATION_MIN_SUPPORT
  | CONSENSUS_PARAM_CONSULTATION_ANSWER_MIN_SUPPORT
  | CONSENSUS_PARAM_CONSULTATION_MIN_CYCLES
  | CONSENSUS_PARAM_CONSULTATION_MAX_VOTING_CYCLES
  | CONSENSUS_PARAM_CONSULTATION_MAX_SUPPORT_CYCLES
  | CONSENSUS_PARAM_CONSULTATION_REFLECTION_LENGTH
  | CONSENSUS_PARAM_CONSULTATION_MIN_FEE
  | CONSENSUS_PARAM_CONSULTATION_ANSWER_MIN_FEE
  | CONSENSUS_PARAM_PROPOSAL_MIN_QUORUM
  | CONSENSUS_PARAM_PROPOSAL_MIN_ACCEPT
  | CONSENSUS_PARAM_PROPOSAL_MIN_REJECT
  | CONSENSUS_PARAM_PROPOSAL_MIN_FEE
  | CONSENSUS_PARAM_PROPOSAL_MAX_VOTING_CYCLES
  | CONSENSUS_PARAM_PAYMENT_REQUEST_MIN_QUORUM
  | CONSENSUS_PARAM_PAYMENT_REQUEST_MIN_ACCEPT
  | CONSENSUS_PARAM_PAYMENT_REQUEST_MIN_REJECT
  | CONSENSUS_PARAM_PAYMENT_REQUEST_MIN_FEE
  | CONSENSUS_PARAM_PAYMENT_REQUEST_MAX_VOTING_CYCLES
  | CONSENSUS_PARAM_FUND_SPREAD_ACCUMULATION
  | CONSENSUS_PARAM_FUND_PERCENT_PER_BLOCK
  | CONSENSUS_PARAM_GENERATION_PER_BLOCK
  | CONSENSUS_PARAM_0AENS_FEE
  | CONSENSUS_PARAMS_DAO_VOTE_LIGHT_MIN_FEE.

#[export] Instance ConsensusParamsPos_eq_dec : EqDecision ConsensusParamsPos.
Proof. solve_decision. Defined.

(** The enumerators in order; the value of one is its place in the list. *)
Definition all_params : list ConsensusParamsPos := [
  CONSENSUS_PARAM_VOTING_CYCLE_LENGTH; CONSENSUS_PARAM_CONSULTATION_MIN_SUPPORT;
  CONSENSUS_PARAM_CONSULTATION_ANSWER_MIN_SUPPORT; CONSENSUS_PARAM_CONSULTATION_MIN_CYCLES;
  CONSENSUS_PARAM_CONSULTATION_MAX_VOTING_CYCLES; CONSENSUS_PARAM_CONSULTATION_MAX_SUPPORT_CYCLES;
  CONSENSUS_PARAM_CONSULTATION_REFLECTION_LENGTH; CONSENSUS_PARAM_CONSULTATION_MIN_FEE;
  CONSENSUS_PARAM_CONSULTATION_ANSWER_MIN_FEE; CONSENSUS_PARAM_PROPOSAL_MIN_QUORUM;
  CONSENSUS_PARAM_PROPOSAL_MIN_ACCEPT; CONSENSUS_PARAM_PROPOSAL_MIN_REJECT; CONSENSUS_PARAM_PROPOSAL_MIN_FEE;
  CONSENSUS_PARAM_PROPOSAL_MAX_VOTING_CYCLES; CONSENSUS_PARAM_PAYMENT_REQUEST_MIN_QUORUM;
  CONSENSUS_PARAM_PAYMENT_REQUEST_MIN_ACCEPT; CONSENSUS_PARAM_PAYMENT_REQUEST_MIN_REJECT;
  CONSENSUS_PARAM_PAYMENT_REQUEST_MIN_FEE; CONSENSUS_PARAM_PAYMENT_REQUEST_MAX_VOTING_CYCLES;
  CONSENSUS_PARAM_FUND_SPREAD_ACCUMULATION; CONSENSUS_PARAM_FUND_PERCENT_PER_BLOCK;
  CONSENSUS_PARAM_GENERATION_PER_BLOCK; CONSENSUS_PARAM_0AENS_FEE; CONSENSUS_PARAMS_DAO_VOTE_LIGHT_MIN_FEE ].

Fixpoint pos_from (i : Z) (l : list ConsensusParamsPos) (pos : ConsensusParamsPos) : Z :=
  match l with
  | [] => i
  | q :: l => if bool_decide (q = pos) then i else pos_from (i + 1) l pos
  end.
Definition param_id (pos : ConsensusParamsPos) : Z := pos_from 0 all_params pos.

(** Iteration over a [std::map] whose keys are [int]. *)
Definition ordered_heights {A} (m : gmap Z A) : list Z := merge_sort Z.le (map_to_list m).*1.

Module CConsensusParameter.

(** The values by the height that set them. *)
Definition t := gmap Z Z.

Definition IsNull (m : t) : bool := bool_decide (size m = 0%nat).

Definition Get_step (m : t) (acc : Z * option Z) (height : Z) : Z * option Z :=
  if height <? acc.1 then acc else match m !! height with Some v => (height, Some v) | None => acc end.
Definition Get (m : t) : option Z := (fold_left (Get_step m) (ordered_heights m) (0, None)).2.
Definition GetHeight (m : t) : Z :=
  fold_left (fun nHeight height => if height <? nHeight then nHeight else height) (ordered_heights m) 0.
Definition Set_ (m : t) (height val : Z) : t := <[height := val]> m.
Definition Clear (m : t) (height : Z) : t := delete height m.

End CConsensusParameter.

(** ** The state view *)

Record View := {
  vProposals : gmap uint256 CProposal.t;
  vPaymentRequests : gmap uint256 CPaymentRequest.t;
  vConsultations : gmap uint256 CConsultation.t;
  vAnswers : gmap uint256 CConsultationAnswer.t;
  vConsensus : gmap Z CConsensusParameter.t
}.

(** A null record counts as absent. *)
Definition present {A} (null : A -> bool) (x : option A) : option A :=
  a ← x; if null a then None else Some a.

Definition GetProposal (v : View) (id : uint256) : option CProposal.t := present CProposal.IsNull (vProposals v !! id).
Definition GetPaymentRequest (v : View) (id : uint256) : option CPaymentRequest.t :=
  present CPaymentRequest.IsNull (vPaymentRequests v !! id).
Definition GetConsultation (v : View) (id : uint256) : option CConsultation.t :=
  present CConsultation.IsNull (vConsultations v !! id).
Definition GetConsultationAnswer (v : View) (id : uint256) : option CConsultationAnswer.t :=
  present CConsultationAnswer.IsNull (vAnswers v !! id).
Definition HaveConsultation (v : View) (id : uint256) : bool := bool_decide (is_Some (GetConsultation v id)).
Definition HaveConsultationAnswer (v : View) (id : uint256) : bool := bool_decide (is_Some (GetConsultationAnswer v id)).

(** The keys of [GetAllProposals] and the like, in the order of the iteration. *)
Definition all_keys {A} (null : A -> bool) (m : gmap uint256 A) : list uint256 :=
  ordered_keys (filter (fun kx => null kx.2 = false) m).

Definition put_proposal (v : View) (id : uint256) (p : CProposal.t) : View := {|
  vProposals := <[id := p]> (vProposals v); vPaymentRequests := vPaymentRequests v;
  vConsultations := vConsultations v; vAnswers := vAnswers v; vConsensus := vConsensus v |}.
Definition put_prequest (v : View) (id : uint256) (r : CPaymentRequest.t) : View := {|
  vProposals := vProposals v; vPaymentRequests := <[id := r]> (vPaymentRequests v);
  vConsultations := vConsultations v; vAnswers := vAnswers v; vConsensus := vConsensus v |}.
Definition put_consultation (v : View) (id : uint256) (c : CConsultation.t) : View := {|
  vProposals := vProposals v; vPaymentRequests := vPaymentRequests v;
  vConsultations := <[id := c]> (vConsultations v); vAnswers := vAnswers v; vConsensus := vConsensus v |}.
Definition put_answer (v : View) (id : uint256) (a : CConsultationAnswer.t) : View := {|
  vProposals := vProposals v; vPaymentRequests := vPaymentRequests v;
  vConsultations := vConsultations v; vAnswers := <[id := a]> (vAnswers v); vConsensus := vConsensus v |}.
Definition put_parameter (v : View) (pid : Z) (c : CConsensusParameter.t) : View := {|
  vProposals := vProposals v; vPaymentRequests := vPaymentRequests v;
  vConsultations := vConsultations v; vAnswers := vAnswers v; vConsensus := <[pid := c]> (vConsensus v) |}.

(** ** Rules *)

(** The fields of [Consensus::Params] that the rules read. *)
Record DaoParams := {
  vParameters : ConsensusParamsPos -> Z;
  nMinimumQuorumFirstHalf : spec_float;
  nMinimumQuorumSecondHalf : spec_float;
  nConsensusChangeMinAccept : Z
}.

Definition GetConsensusParameter (dp : DaoParams) (v : View) (pos : ConsensusParamsPos) : Z :=
  default (vParameters dp pos) (m ← present CConsensusParameter.IsNull (vConsensus v !! param_id pos); CConsensusParameter.Get m).

(** [n % cycle] and [n / cycle] on [uint64_t]; a zero divisor is undefined. *)
Definition u64_div (n m : Z) : option Z := if m =? 0 then None else Some (to_u64 n / m).
Definition u64_mod (n m : Z) : option Z := if m =? 0 then None else Some (to_u64 n mod m).

(** The comparison of the votes with the quorum, in [float]: the unsigned
    difference wraps around. *)
Definition quorum_of (cycle exclude : Z) (minimum : spec_float) : spec_float :=
  float_mul (float_of (to_u64 (cycle - exclude))) minimum.

(** [(float)n > ((float)total * share / 10000.0)] *)
Definition above_share (n total share : Z) : bool :=
  SFltb (double_div (double_of_float (float_mul (float_of total) (float_of share))) (double_of 10000)) (double_of_float (float_of n)).

(** The test shared by [IsAccepted] and [IsRejected]. *)
Definition quorum_and_share (votes total share cycle exclude : Z) (minimum : spec_float) : bool :=
  SFltb (quorum_of cycle exclude minimum) (float_of total) && above_share votes total share.

Section Rules.
Variable dp : DaoParams.
Variable index : BlockTree.

Abbreviation param := (GetConsensusParameter dp).
Abbreviation last_state := (GetLastState index).
Definition has (version bit : Z) : bool := negb (version .& bit =? 0).

(** *** Payment requests and proposals *)

Definition prequest_quorum (v : View) (r : CPaymentRequest.t) : spec_float :=
  if has (CPaymentRequest.nVersion r) CPaymentRequest.REDUCED_QUORUM_VERSION then
    if param v CONSENSUS_PARAM_PAYMENT_REQUEST_MAX_VOTING_CYCLES / 2 <? CPaymentRequest.nVotingCycle r
    then nMinimumQuorumSecondHalf dp else nMinimumQuorumFirstHalf dp
  else per10000 (param v CONSENSUS_PARAM_PAYMENT_REQUEST_MIN_QUORUM).

Definition prequest_total (r : CPaymentRequest.t) : Z :=
  let total := CPaymentRequest.nVotesYes r + CPaymentRequest.nVotesNo r in
  if has (CPaymentRequest.nVersion r) CPaymentRequest.ABSTAIN_VOTE_VERSION then total + CPaymentRequest.nVotesAbs r else total.

Definition prequest_exclude (r : CPaymentRequest.t) : Z :=
  if has (CPaymentRequest.nVersion r) CPaymentRequest.EXCLUDE_VERSION then CPaymentRequest.nExclude r else 0.

Definition CPaymentRequest_IsAccepted (v : View) (r : CPaymentRequest.t) : bool :=
  quorum_and_share (CPaymentRequest.nVotesYes r) (prequest_total r) (param v CONSENSUS_PARAM_PAYMENT_REQUEST_MIN_ACCEPT)
    (param v CONSENSUS_PARAM_VOTING_CYCLE_LENGTH) (prequest_exclude r) (prequest_quorum v r).
Definition CPaymentRequest_IsRejected (v : View) (r : CPaymentRequest.t) : bool :=
  quorum_and_share (CPaymentRequest.nVotesNo r) (prequest_total r) (param v CONSENSUS_PARAM_PAYMENT_REQUEST_MIN_REJECT)
    (param v CONSENSUS_PARAM_VOTING_CYCLE_LENGTH) (prequest_exclude r) (prequest_quorum v r).
Definition CPaymentRequest_ExceededMaxVotingCycles (v : View) (r : CPaymentRequest.t) : bool :=
  param v CONSENSUS_PARAM_PAYMENT_REQUEST_MAX_VOTING_CYCLES <? CPaymentRequest.nVotingCycle r.

(** The version is compared, not masked, in the source. *)
Definition CPaymentRequest_IsExpired (v : View) (r : CPaymentRequest.t) : bool :=
  if CPaymentRequest.BASE_VERSION <=? to_u64 (CPaymentRequest.nVersion r) then
    let s := last_state (CPaymentRequest.mapState r) in
    CPaymentRequest_ExceededMaxVotingCycles v r &&
    negb (bool_decide (s = ACCEPTED)) && negb (bool_decide (s = REJECTED)) && negb (bool_decide (s = PAID))
  else false.

Definition proposal_quorum (v : View) (p : CProposal.t) : spec_float :=
  if has (CProposal.nVersion p) CProposal.REDUCED_QUORUM_VERSION then
    if param v CONSENSUS_PARAM_PROPOSAL_MAX_VOTING_CYCLES / 2 <? CProposal.nVotingCycle p
    then nMinimumQuorumSecondHalf dp else nMinimumQuorumFirstHalf dp
  else per10000 (param v CONSENSUS_PARAM_PROPOSAL_MIN_QUORUM).

Definition proposal_total (p : CProposal.t) : Z :=
  let total := CProposal.nVotesYes p + CProposal.nVotesNo p in
  if has (CProposal.nVersion p) CProposal.ABSTAIN_VOTE_VERSION then total + CProposal.nVotesAbs p else total.

Definition proposal_exclude (p : CProposal.t) : Z :=
  if has (CProposal.nVersion p) CProposal.EXCLUDE_VERSION then CProposal.nExclude p else 0.

Definition CProposal_IsAccepted (v : View) (p : CProposal.t) : bool :=
  quorum_and_share (CProposal.nVotesYes p) (proposal_total p) (param v CONSENSUS_PARAM_PROPOSAL_MIN_ACCEPT)
    (param v CONSENSUS_PARAM_VOTING_CYCLE_LENGTH) (proposal_exclude p) (proposal_quorum v p).
Definition CProposal_IsRejected (v : View) (p : CProposal.t) : bool :=
  quorum_and_share (CProposal.nVotesNo p) (proposal_total p) (param v CONSENSUS_PARAM_PROPOSAL_MIN_REJECT)
    (param v CONSENSUS_PARAM_VOTING_CYCLE_LENGTH) (proposal_exclude p) (proposal_quorum v p).
Definition CProposal_ExceededMaxVotingCycles (v : View) (p : CProposal.t) : bool :=
  param v CONSENSUS_PARAM_PROPOSAL_MAX_VOTING_CYCLES <? CProposal.nVotingCycle p.

Definition CProposal_CanVote (p : CProposal.t) : bool := bool_decide (last_state (CProposal.mapState p) = NIL).

Definition CProposal_IsExpired (currentTime : Z) (v : View) (p : CProposal.t) : bool :=
  if has (CProposal.nVersion p) CProposal.BASE_VERSION then
    let s := last_state (CProposal.mapState p) in
    match bool_decide (s = ACCEPTED), GetLastStateBlockIndexForState index (CProposal.mapState p) ACCEPTED with
    | true, Some b => to_int64 (GetBlockTime b + CProposal.nDeadline p) <? currentTime
    | _, _ => bool_decide (s = EXPIRED) || bool_decide (s = PENDING_VOTING_PREQ) ||
              (CProposal_ExceededMaxVotingCycles v p && bool_decide (s = NIL))
    end
  else CProposal.nDeadline p <? currentTime.

(** The requests of a proposal, in the order of the iteration. *)
Definition requests_of (v : View) (proposal : uint256) : list CPaymentRequest.t :=
  filter (fun r => CPaymentRequest.proposalhash r = proposal)
    (omap (GetPaymentRequest v) (all_keys CPaymentRequest.IsNull (vPaymentRequests v))).

Definition counts_as_spent (fIncludeRequests : bool) (s : flags) : bool :=
  (fIncludeRequests && negb (bool_decide (s = REJECTED)) && negb (bool_decide (s = EXPIRED))) ||
  (negb fIncludeRequests && (bool_decide (s = ACCEPTED) || bool_decide (s = PAID))).

Definition CProposal_GetAvailable (v : View) (p : CProposal.t) (fIncludeRequests : bool) : Z :=
  fold_left (fun initial r => if counts_as_spent fIncludeRequests (last_state (CPaymentRequest.mapState r))
                              then initial - CPaymentRequest.nAmount r else initial)
    (requests_of v (CProposal.hash p)) (CProposal.nAmount p).

Definition CPaymentRequest_CanVote (v : View) (r : CPaymentRequest.t) : bool :=
  match GetProposal v (CPaymentRequest.proposalhash r) with
  | None => false
  | Some p =>
      let s := last_state (CProposal.mapState p) in
      (CPaymentRequest.nAmount r <=? CProposal_GetAvailable v p false) &&
      bool_decide (last_state (CPaymentRequest.mapState r) = NIL) &&
      (bool_decide (s = ACCEPTED) || bool_decide (s = PENDING_VOTING_PREQ))
  end.

Definition CProposal_HasPendingPaymentRequests (v : View) (p : CProposal.t) : bool :=
  existsb (CPaymentRequest_CanVote v) (requests_of v (CProposal.hash p)).

(** *** Consultations and answers *)

Definition CConsultationAnswer_IsSupported (v : View) (a : CConsultationAnswer.t) : bool :=
  SFleb (quorum_of (param v CONSENSUS_PARAM_VOTING_CYCLE_LENGTH) 0 (per10000 (param v CONSENSUS_PARAM_CONSULTATION_ANSWER_MIN_SUPPORT)))
    (float_of (CConsultationAnswer.nSupport a)).

Definition CConsultationAnswer_IsConsensusAccepted (v : View) (a : CConsultationAnswer.t) : bool :=
  let exclude := if has (CConsultationAnswer.nVersion a) CConsultationAnswer.EXCLUDE_VERSION then CConsultationAnswer.nExclude a else 0 in
  SFleb (quorum_of (param v CONSENSUS_PARAM_VOTING_CYCLE_LENGTH) exclude (per10000 (nConsensusChangeMinAccept dp)))
    (float_of (CConsultationAnswer.nVotes a)).

Definition CConsultationAnswer_CanBeSupported (v : View) (a : CConsultationAnswer.t) : bool :=
  match GetConsultation v (CConsultationAnswer.parent a) with
  | None => false
  | Some c =>
      let s := last_state (CConsultation.mapState c) in
      (bool_decide (s = NIL) || bool_decide (s = SUPPORTED)) && bool_decide (last_state (CConsultationAnswer.mapState a) = NIL)
  end.

Definition CConsultationAnswer_CanBeVoted (v : View) (a : CConsultationAnswer.t) : bool :=
  match GetConsultation v (CConsultationAnswer.parent a) with
  | None => false
  | Some c =>
      negb (CConsultation.IsRange c) &&
      bool_decide (last_state (CConsultationAnswer.mapState a) = ACCEPTED) &&
      bool_decide (last_state (CConsultation.mapState c) = ACCEPTED)
  end.

(** The answers that [HaveEnoughAnswers] counts. *)
Definition supported_answers (v : View) (c : CConsultation.t) : list CConsultationAnswer.t :=
  filter (fun a => CConsultationAnswer.parent a = CConsultation.hash c /\ CConsultationAnswer_IsSupported v a = true)
    (omap (GetConsultationAnswer v) (CConsultation.vAnswers c)).

Definition CConsultation_HaveEnoughAnswers (v : View) (c : CConsultation.t) : bool :=
  CConsultation.IsRange c ||
  ((if CConsultation.IsAboutConsensusParameter c then 1 else 2) <=? Z.of_nat (length (supported_answers v c))).

Definition CConsultation_IsSupported (v : View) (c : CConsultation.t) : bool :=
  if CConsultation.IsRange c then
    SFltb (quorum_of (param v CONSENSUS_PARAM_VOTING_CYCLE_LENGTH) 0 (per10000 (param v CONSENSUS_PARAM_CONSULTATION_MIN_SUPPORT)))
      (float_of (CConsultation.nSupport c))
  else CConsultation_HaveEnoughAnswers v c.

Definition CConsultation_CanMoveInReflection (v : View) (c : CConsultation.t) : bool :=
  param v CONSENSUS_PARAM_CONSULTATION_MIN_CYCLES <=? CConsultation.nVotingCycle c.
Definition CConsultation_ExceededMaxVotingCycles (v : View) (c : CConsultation.t) : bool :=
  param v CONSENSUS_PARAM_CONSULTATION_MAX_SUPPORT_CYCLES <=? CConsultation.nVotingCycle c.

(** The cycles between two heights, as an unsigned difference. *)
Definition elapsed_cycles (from to cycle : Z) : option Z :=
  a ← u64_div from cycle; b ← u64_div to cycle; Some (to_u64 (b - a)).

Definition CConsultation_IsExpired (height : Z) (v : View) (c : CConsultation.t) : option bool :=
  let s := last_state (CConsultation.mapState c) in
  match bool_decide (s = ACCEPTED), GetLastStateBlockIndexForState index (CConsultation.mapState c) ACCEPTED with
  | true, Some b =>
      e ← elapsed_cycles (nHeight b) height (param v CONSENSUS_PARAM_VOTING_CYCLE_LENGTH);
      Some (param v CONSENSUS_PARAM_CONSULTATION_MAX_VOTING_CYCLES <=? e)
  | _, _ => Some (bool_decide (s = EXPIRED) || (CConsultation_ExceededMaxVotingCycles v c && bool_decide (s = NIL)))
  end.

(** The quotients are truncated to [unsigned int] before they are subtracted. *)
Definition CConsultation_IsReflectionOver (height : Z) (v : View) (c : CConsultation.t) : option bool :=
  match GetLastStateBlockIndexForState index (CConsultation.mapState c) REFLECTION with
  | Some b =>
      nCreated ← u64_div (nHeight b) (param v CONSENSUS_PARAM_VOTING_CYCLE_LENGTH);
      nCurrent ← u64_div height (param v CONSENSUS_PARAM_VOTING_CYCLE_LENGTH);
      Some (param v CONSENSUS_PARAM_CONSULTATION_REFLECTION_LENGTH <=? SPH_T32 (SPH_T32 nCurrent - SPH_T32 nCreated))
  | None => Some false
  end.

Definition CConsultation_CanBeSupported (c : CConsultation.t) : bool :=
  bool_decide (last_state (CConsultation.mapState c) = NIL) && CConsultation.IsRange c.
Definition CConsultation_CanBeVoted (c : CConsultation.t) (vote : Z) : bool :=
  bool_decide (last_state (CConsultation.mapState c) = ACCEPTED) && (CConsultation.IsRange c || (vote =? VOTE_ABSTAIN)).
Definition CConsultation_CanHaveAnswers (c : CConsultation.t) : bool :=
  let s := last_state (CConsultation.mapState c) in
  (bool_decide (s = NIL) || bool_decide (s = SUPPORTED)) && negb (CConsultation.IsRange c).
Definition CConsultation_CanHaveNewAnswers (c : CConsultation.t) : bool :=
  CConsultation_CanHaveAnswers c && has (CConsultation.nVersion c) CConsultation.MORE_ANSWERS_VERSION.
Definition CConsultation_IsFinished (c : CConsultation.t) : bool :=
  let s := last_state (CConsultation.mapState c) in bool_decide (s = EXPIRED) || bool_decide (s = PASSED).

End Rules.
