(* ===== verification/VoteTally.v ===== *)
(** * consensus/dao.cpp: counting the votes of a voting cycle

    The first half of [VoteStep]: the votes recorded for the blocks of the current
    voting cycle are added up in a cache that lives between calls.  A call adds the
    votes of the new block alone when it can, and scans the cycle again when it
    cannot.  The theorem of the file is that the two agree. *)

From Stdlib Require Import ZArith Lia.
From stdpp Require Import base tactics numbers list gmap sorting.
From S2P Require Import Prelude SphTypes ArithUint Blob Chain BlockIndex BlockVersion Dao.

(** ** State *)

(** The votes by block hash, as main.cpp keeps them. *)
Record BlockVotes := {
  vProposalVotes : gmap uint256 (list (uint256 * Z));
  vPaymentRequestVotes : gmap uint256 (list (uint256 * Z));
  mapSupport : gmap uint256 (gmap uint256 bool);
  mapConsultationVotes : gmap uint256 (gmap uint256 Z)
}.

Definition GetProposalVotes (bv : BlockVotes) (hash : uint256) : option (list (uint256 * Z)) := vProposalVotes bv !! hash.
Definition GetPaymentRequestVotes (bv : BlockVotes) (hash : uint256) : option (list (uint256 * Z)) := vPaymentRequestVotes bv !! hash.
Definition GetSupport (bv : BlockVotes) (hash : uint256) : option (gmap uint256 bool) := mapSupport bv !! hash.
Definition GetConsultationVotes (bv : BlockVotes) (hash : uint256) : option (gmap uint256 Z) := mapConsultationVotes bv !! hash.

(** Votes for, against and abstentions; the source nests the pairs as
    [((yes, no), abstain)]. *)
Abbreviation vote_count := (Z * Z * Z)%type.

Record VoteCache := {
  mapCacheProposalsToUpdate : gmap uint256 vote_count;
  mapCachePaymentRequestToUpdate : gmap uint256 vote_count;
  mapCacheSupportToUpdate : gmap uint256 Z;
  mapCacheConsultationToUpdate : gmap (uint256 * Z) Z;
  nCacheExclude : Z
}.

Definition empty_cache : VoteCache := {|
  mapCacheProposalsToUpdate := ∅; mapCachePaymentRequestToUpdate := ∅; mapCacheSupportToUpdate := ∅;
  mapCacheConsultationToUpdate := ∅; nCacheExclude := 0 |}.

Definition cache_is_empty (c : VoteCache) : bool :=
  bool_decide (mapCacheProposalsToUpdate c = ∅) && bool_decide (mapCachePaymentRequestToUpdate c = ∅) &&
  bool_decide (mapCacheSupportToUpdate c = ∅) && bool_decide (mapCacheConsultationToUpdate c = ∅).

(** ** Counting one block *)

Definition add_vote (vote : Z) (n : vote_count) : vote_count :=
  let '(yes, no, abs) := n in
  if vote =? VOTE_YES then (yes + 1, no, abs)
  else if vote =? VOTE_ABSTAIN then (yes, no, abs + 1)
  else if vote =? VOTE_NO then (yes, no + 1, abs)
  else (yes, no, abs).

(** [if (m.count(k) == 0) m[k] = zero; m[k] = f(m[k])] *)
Definition bump {K A} `{Countable K} (zero : A) (f : A -> A) (k : K) (m : gmap K A) : gmap K A :=
  partial_alter (fun o => Some (f (default zero o))) k m.

(** The loop over [pVotes] and over [prVotes]; the ids seen are shared by both. *)
Fixpoint count_votes (votes : list (uint256 * Z)) (m : gmap uint256 vote_count) (mapSeen : gset uint256) :
  gmap uint256 vote_count * gset uint256 :=
  match votes with
  | [] => (m, mapSeen)
  | (id, vote) :: votes =>
      if bool_decide (id ∈ mapSeen) then count_votes votes m mapSeen
      else count_votes votes (bump (0, 0, 0) (add_vote vote) id m) ({[id]} ∪ mapSeen)
  end.

(** The loop over the support votes, in the order of the keys. *)
Fixpoint count_support (supp : gmap uint256 bool) (keys : list uint256) (m : gmap uint256 Z) (mapSeenSupport : gset uint256) : gmap uint256 Z :=
  match keys with
  | [] => m
  | id :: keys =>
      match supp !! id with
      | Some true =>
          if bool_decide (id ∈ mapSeenSupport) then count_support supp keys m mapSeenSupport
          else count_support supp keys (bump 0 (Z.add 1) id m) ({[id]} ∪ mapSeenSupport)
      | _ => count_support supp keys m mapSeenSupport
      end
  end.

(** The key a consultation vote is counted under: an abstention for an answer
    counts for its consultation.  [None]: the id is unknown to the view. *)
Definition consultation_key (v : View) (id : uint256) (vote : Z) : option (uint256 * Z) :=
  if HaveConsultation v id || HaveConsultationAnswer v id then
    match (vote =? to_u64 VOTE_ABSTAIN), GetConsultationAnswer v id with
    | true, Some answer => Some (CConsultationAnswer.parent answer, to_int64 vote)
    | _, _ => Some (id, to_int64 vote)
    end
  else None.

Fixpoint count_consultations (v : View) (cVotes : gmap uint256 Z) (keys : list uint256) (m : gmap (uint256 * Z) Z) (mapSeen : gset uint256) :
  gmap (uint256 * Z) Z :=
  match keys with
  | [] => m
  | id :: keys =>
      match cVotes !! id with
      | Some vote =>
          if bool_decide (id ∈ mapSeen) then count_consultations v cVotes keys m mapSeen
          else match consultation_key v id vote with
               | Some k => count_consultations v cVotes keys (bump 0 (Z.add 1) k m) ({[id]} ∪ mapSeen)
               | None => count_consultations v cVotes keys m mapSeen
               end
      | None => count_consultations v cVotes keys m mapSeen
      end
  end.

Section Scan.
Variable v : View.
Variable bv : BlockVotes.
Variable fCFund fDAOConsultations : bool.

Definition GetBlockHash (b : CBlockIndex) : option uint256 := phashBlock b.

Definition count_block (b : CBlockIndex) (c : VoteCache) : option VoteCache :=
  if negb (nNonce b .& 1 =? 0) then
    Some {| mapCacheProposalsToUpdate := mapCacheProposalsToUpdate c; mapCachePaymentRequestToUpdate := mapCachePaymentRequestToUpdate c;
            mapCacheSupportToUpdate := mapCacheSupportToUpdate c; mapCacheConsultationToUpdate := mapCacheConsultationToUpdate c;
            nCacheExclude := nCacheExclude c + 1 |}
  else
    '(props, reqs, seen) ←
      (if fCFund then
         hash ← GetBlockHash b;
         let '(props, seen) := count_votes (default [] (GetProposalVotes bv hash)) (mapCacheProposalsToUpdate c) ∅ in
         let '(reqs, seen) := count_votes (default [] (GetPaymentRequestVotes bv hash)) (mapCachePaymentRequestToUpdate c) seen in
         Some (props, reqs, seen)
       else Some (mapCacheProposalsToUpdate c, mapCachePaymentRequestToUpdate c, ∅));
    '(supp, cvs) ←
      (if fDAOConsultations then
         hash ← GetBlockHash b;
         let s := default ∅ (GetSupport bv hash) in
         let cv := default ∅ (GetConsultationVotes bv hash) in
         Some (count_support s (ordered_keys s) (mapCacheSupportToUpdate c) ∅,
               count_consultations v cv (ordered_keys cv) (mapCacheConsultationToUpdate c) seen)
       else Some (mapCacheSupportToUpdate c, mapCacheConsultationToUpdate c));
    Some {| mapCacheProposalsToUpdate := props; mapCachePaymentRequestToUpdate := reqs;
            mapCacheSupportToUpdate := supp; mapCacheConsultationToUpdate := cvs; nCacheExclude := nCacheExclude c |}.

(** [while (nBlocks > 0 && pindexblock != NULL)] *)
Fixpoint scan_blocks (nBlocks : nat) (h : heap) (pindexblock : option ptr) (c : VoteCache) : option VoteCache :=
  match nBlocks, pindexblock with
  | S n, Some p => b ← h !! p; c ← count_block b c; scan_blocks n h (pprev b) c
  | _, _ => Some c
  end.

End Scan.

(** ** The cache between calls *)

Section Cache.
Variable dp : DaoParams.
(** The hash of the serialised parameters ([CHashWriter]). *)
Variable Hash : list Z -> uint256.
Variable bv : BlockVotes.

(** Eight bytes, the lowest first. *)
Definition ser_u64 (x : Z) : list Z := (fun i => (x >> (8 * Z.of_nat i)) .& 255) <$> seq 0 8.

Definition GetConsensusStateHash (v : View) : uint256 :=
  Hash (concat (map (fun pos => ser_u64 (GetConsensusParameter dp v pos)) all_params)).

(** The counting of votes at [pindexNew]: the new cache, the new
    [lastConsensusStateHash] and [fScanningWholeCycle]. *)
Definition CountVotes (h : heap) (v : View) (fCFund fDAOConsultations fUndo : bool) (pindexNew : ptr) (c : VoteCache) (lastHash : uint256) :
  option (VoteCache * uint256 * bool) :=
  b ← h !! pindexNew;
  r ← u64_mod (nHeight b) (GetConsensusParameter dp v CONSENSUS_PARAM_VOTING_CYCLE_LENGTH);
  let nBlocks := to_int32 (r + 1) in
  let consensusStateHash := GetConsensusStateHash v in
  if fUndo || negb (bool_decide (lastHash = consensusStateHash)) || (nBlocks =? 1) || cache_is_empty c then
    c ← scan_blocks v bv fCFund fDAOConsultations (Z.to_nat nBlocks) h (Some pindexNew) empty_cache;
    Some (c, consensusStateHash, true)
  else
    c ← scan_blocks v bv fCFund fDAOConsultations 1 h (Some pindexNew) c;
    Some (c, consensusStateHash, false).

End Cache.

(** ** A block as a list of increments *)

(** What the votes of a block add to the cache; it does not depend on the cache. *)
Record increments := {
  inc_proposals : list (uint256 * Z);
  inc_prequests : list (uint256 * Z);
  inc_support : list uint256;
  inc_consultations : list (uint256 * Z);
  inc_exclude : Z
}.

Definition add_all {K A B} `{Countable K} (zero : A) (key : B -> K) (f : B -> A -> A) (l : list B) (m : gmap K A) : gmap K A :=
  fold_left (fun m x => bump zero (f x) (key x) m) l m.

Definition increase (i : increments) (c : VoteCache) : VoteCache := {|
  mapCacheProposalsToUpdate := add_all (0, 0, 0) fst (fun x => add_vote x.2) (inc_proposals i) (mapCacheProposalsToUpdate c);
  mapCachePaymentRequestToUpdate := add_all (0, 0, 0) fst (fun x => add_vote x.2) (inc_prequests i) (mapCachePaymentRequestToUpdate c);
  mapCacheSupportToUpdate := add_all 0 id (fun _ => Z.add 1) (inc_support i) (mapCacheSupportToUpdate c);
  mapCacheConsultationToUpdate := add_all 0 id (fun _ => Z.add 1) (inc_consultations i) (mapCacheConsultationToUpdate c);
  nCacheExclude := nCacheExclude c + inc_exclude i |}.

(** The votes that are not of an id already seen. *)
Fixpoint fresh_votes (votes : list (uint256 * Z)) (seen : gset uint256) : list (uint256 * Z) * gset uint256 :=
  match votes with
  | [] => ([], seen)
  | (id, vote) :: votes =>
      if bool_decide (id ∈ seen) then fresh_votes votes seen
      else let '(l, seen) := fresh_votes votes ({[id]} ∪ seen) in ((id, vote) :: l, seen)
  end.

Fixpoint fresh_support (supp : gmap uint256 bool) (keys : list uint256) (seen : gset uint256) : list uint256 :=
  match keys with
  | [] => []
  | id :: keys =>
      if bool_decide (supp !! id = Some true /\ id ∉ seen) then id :: fresh_support supp keys ({[id]} ∪ seen)
      else fresh_support supp keys seen
  end.

Fixpoint fresh_consultations (key : uint256 -> Z -> option (uint256 * Z)) (cv : gmap uint256 Z) (keys : list uint256) (seen : gset uint256) :
  list (uint256 * Z) :=
  match keys with
  | [] => []
  | id :: keys =>
      match (if bool_decide (id ∈ seen) then None else cv !! id ≫= key id) with
      | Some k => k :: fresh_consultations key cv keys ({[id]} ∪ seen)
      | None => fresh_consultations key cv keys seen
      end
  end.

Definition no_increments : increments :=
  {| inc_proposals := []; inc_prequests := []; inc_support := []; inc_consultations := []; inc_exclude := 0 |}.

Definition increments_at (key : uint256 -> Z -> option (uint256 * Z)) (bv : BlockVotes) (fCFund fDAO : bool) (hash : uint256) : increments :=
  let '(p, seen) := fresh_votes (default [] (GetProposalVotes bv hash)) ∅ in
  let '(r, seen) := fresh_votes (default [] (GetPaymentRequestVotes bv hash)) seen in
  let s := default ∅ (GetSupport bv hash) in
  let cv := default ∅ (GetConsultationVotes bv hash) in
  {| inc_proposals := if fCFund then p else []; inc_prequests := if fCFund then r else [];
     inc_support := if fDAO then fresh_support s (ordered_keys s) ∅ else [];
     inc_consultations := if fDAO then fresh_consultations key cv (ordered_keys cv) (if fCFund then seen else ∅) else [];
     inc_exclude := 0 |}.

(** The increments of a block, with the votes it contributes chosen by [key]. *)
Definition block_increments (key : uint256 -> Z -> option (uint256 * Z)) (bv : BlockVotes) (fCFund fDAO : bool) (b : CBlockIndex) : option increments :=
  if negb (nNonce b .& 1 =? 0)
  then Some {| inc_proposals := []; inc_prequests := []; inc_support := []; inc_consultations := []; inc_exclude := 1 |}
  else if fCFund || fDAO then increments_at key bv fCFund fDAO <$> GetBlockHash b else Some no_increments.

Lemma count_votes_fold votes m seen :
  count_votes votes m seen = (add_all (0, 0, 0) fst (fun x => add_vote x.2) (fresh_votes votes seen).1 m, (fresh_votes votes seen).2).
Proof.
  revert m seen. induction votes as [|[id x] votes IH]; intros m seen; cbn [count_votes fresh_votes]; [done|].
  case_match; [apply IH|]. rewrite IH. by destruct (fresh_votes votes ({[id]} ∪ seen)).
Qed.

Lemma count_support_fold supp keys m seen :
  count_support supp keys m seen = add_all 0 id (fun _ => Z.add 1) (fresh_support supp keys seen) m.
Proof.
  revert m seen. induction keys as [|k keys IH]; intros m seen; cbn [count_support fresh_support]; [done|].
  destruct (supp !! k) as [[|]|]; [|rewrite bool_decide_false by (by intros [? _]); apply IH..].
  destruct (bool_decide_reflect (k ∈ seen)).
  - rewrite bool_decide_false by (by intros [_ ?]). apply IH.
  - rewrite bool_decide_true by done. rewrite IH. done.
Qed.

Lemma count_consultations_fold v cv keys m seen :
  count_consultations v cv keys m seen = add_all 0 id (fun _ => Z.add 1) (fresh_consultations (consultation_key v) cv keys seen) m.
Proof.
  revert m seen. induction keys as [|k keys IH]; intros m seen; cbn [count_consultations fresh_consultations]; [done|].
  destruct (cv !! k) as [x|]; cbn [mbind option_bind]; [|destruct (bool_decide _); apply IH].
  destruct (bool_decide (k ∈ seen)); [apply IH|]. destruct (consultation_key v k x); rewrite IH; done.
Qed.

Lemma count_block_increments v bv f g b c :
  count_block v bv f g b c = (fun i => increase i c) <$> block_increments (consultation_key v) bv f g b.
Proof.
  unfold count_block, block_increments. destruct (negb _).
  - destruct c; cbn; done.
  - destruct f, g; cbn [orb]; [..|cbn [mbind option_bind fmap option_fmap option_map]; unfold increase, no_increments, add_all;
       cbn [fold_left inc_proposals inc_prequests inc_support inc_consultations inc_exclude]; by rewrite Z.add_0_r];
      (destruct (GetBlockHash b) as [hash|]; [|done]); cbn [mbind option_bind fmap option_fmap option_map]; unfold increments_at;
      rewrite ?count_votes_fold; destruct (fresh_votes (default [] (GetProposalVotes bv hash)) ∅) as [lp s1] eqn:E1; cbn [fst snd];
      rewrite ?count_votes_fold; destruct (fresh_votes (default [] (GetPaymentRequestVotes bv hash)) s1) as [lr s2] eqn:E2; cbn [fst snd];
      cbn [mbind option_bind]; rewrite ?count_support_fold, ?count_consultations_fold; unfold increase;
      cbn [inc_proposals inc_prequests inc_support inc_consultations inc_exclude]; by rewrite Z.add_0_r.
Qed.

(** ** Increments commute *)

Lemma add_vote_comm x y n : add_vote x (add_vote y n) = add_vote y (add_vote x n).
Proof. destruct n as [[a b] c]. unfold add_vote. repeat case_match; simplify_eq; done. Qed.

Lemma bump_comm {K A} `{Countable K} (zero : A) f g (k l : K) m :
  (forall a, f (g a) = g (f a)) -> bump zero f k (bump zero g l m) = bump zero g l (bump zero f k m).
Proof.
  intros Hfg. unfold bump. destruct (decide (k = l)) as [->|Hkl].
  - rewrite !partial_alter_partial_alter_eq. apply partial_alter_ext. intros o _. cbn. by rewrite Hfg.
  - by apply partial_alter_partial_alter_ne.
Qed.

Lemma add_all_bump_comm {K A B} `{Countable K} (zero : A) key (f : B -> A -> A) x l (m : gmap K A) :
  (forall x y a, f x (f y a) = f y (f x a)) ->
  add_all zero key f l (bump zero (f x) (key x) m) = bump zero (f x) (key x) (add_all zero key f l m).
Proof.
  intros Hf. unfold add_all. revert m. induction l as [|y l IH]; intros m; cbn [fold_left]; [done|]. rewrite <- IH. f_equal. by apply bump_comm.
Qed.

Lemma add_all_comm {K A B} `{Countable K} (zero : A) key (f : B -> A -> A) l l' (m : gmap K A) :
  (forall x y a, f x (f y a) = f y (f x a)) -> add_all zero key f l (add_all zero key f l' m) = add_all zero key f l' (add_all zero key f l m).
Proof.
  intros Hf. revert m. induction l' as [|y l' IH]; intros m; [done|].
  change (add_all zero key f (y :: l') m) with (add_all zero key f l' (bump zero (f y) (key y) m)).
  change (add_all zero key f (y :: l') (add_all zero key f l m)) with (add_all zero key f l' (bump zero (f y) (key y) (add_all zero key f l m))).
  rewrite IH. f_equal. by apply add_all_bump_comm.
Qed.

Lemma increase_comm i j c : increase i (increase j c) = increase j (increase i c).
Proof.
  unfold increase. cbn [mapCacheProposalsToUpdate mapCachePaymentRequestToUpdate mapCacheSupportToUpdate mapCacheConsultationToUpdate nCacheExclude].
  f_equal; try (apply add_all_comm; intros; (apply add_vote_comm || lia)). lia.
Qed.

Lemma increase_fold i l c : fold_left (fun c i => increase i c) l (increase i c) = increase i (fold_left (fun c i => increase i c) l c).
Proof. revert c. induction l as [|j l IH]; intros c; cbn [fold_left]; [done|]. by rewrite increase_comm, IH. Qed.

(** ** A scan as the sum of its blocks *)

Fixpoint chain_increments (key : uint256 -> Z -> option (uint256 * Z)) (bv : BlockVotes) (f g : bool) (n : nat) (h : heap) (p : option ptr) :
  option (list increments) :=
  match n, p with
  | S n, Some p => b ← h !! p; i ← block_increments key bv f g b; (i ::.) <$> chain_increments key bv f g n h (pprev b)
  | _, _ => Some []
  end.

Lemma scan_blocks_sum v bv f g n h p c :
  scan_blocks v bv f g n h p c =
  (fun l => fold_left (fun c i => increase i c) l c) <$> chain_increments (consultation_key v) bv f g n h p.
Proof.
  revert p c. induction n as [|n IH]; intros [p|] c; cbn [scan_blocks chain_increments]; try done.
  destruct (h !! p) as [b|]; [|done]. cbn [mbind option_bind]. rewrite count_block_increments.
  destruct (block_increments _ _ _ _ b) as [i|]; [|done]. cbn [mbind option_bind fmap option_fmap option_map]. rewrite IH.
  by destruct (chain_increments _ _ _ _ n h (pprev b)).
Qed.

(** Two views count the consultation votes of a block, or of the last [n] blocks up to
    [p], under the same keys. *)
Definition votes_agree (v v' : View) (bv : BlockVotes) (b : CBlockIndex) : Prop :=
  forall hash cv id x, GetBlockHash b = Some hash -> GetConsultationVotes bv hash = Some cv -> cv !! id = Some x -> consultation_key v id x = consultation_key v' id x.
Definition chain_votes_agree (v v' : View) (bv : BlockVotes) (h : heap) (p : option ptr) (n : nat) : Prop :=
  forall q i r b, p = Some q -> (i < n)%nat -> up h q i = Some r -> h !! r = Some b -> votes_agree v v' bv b.

Lemma fresh_consultations_ext key key' cv ks seen : (forall id x, cv !! id = Some x -> key id x = key' id x) -> fresh_consultations key cv ks seen = fresh_consultations key' cv ks seen.
Proof.
  intros E. revert seen. induction ks as [|k ks IH]; intros seen; cbn [fresh_consultations]; [done|].
  destruct (bool_decide _); [apply IH|]. destruct (cv !! k) eqn:Ek; cbn [mbind option_bind]; [|apply IH]. rewrite (E k _ Ek). case_match; [f_equal|]; apply IH.
Qed.

Lemma block_increments_ext v v' bv f g b : votes_agree v v' bv b -> block_increments (consultation_key v) bv f g b = block_increments (consultation_key v') bv f g b.
Proof.
  intros E. unfold block_increments. case_match; [done|]. case_match; [|done]. destruct (GetBlockHash b) as [hash|] eqn:Eh; [|done]. cbn. f_equal.
  unfold increments_at. case_match. case_match. f_equal. destruct g; [|done]. apply fresh_consultations_ext. intros id x Hx.
  destruct (GetConsultationVotes bv hash) as [cv|] eqn:Ec; [by apply (E hash cv)|cbn in Hx; by rewrite lookup_empty in Hx].
Qed.

Lemma chain_increments_ext v v' bv f g n h p :
  chain_votes_agree v v' bv h p n -> chain_increments (consultation_key v) bv f g n h p = chain_increments (consultation_key v') bv f g n h p.
Proof.
  revert p. induction n as [|n IH]; intros [p|] E; cbn [chain_increments]; try done.
  destruct (h !! p) as [b|] eqn:Hp; [|done]. cbn [mbind option_bind]. rewrite (block_increments_ext v v' bv f g b) by (apply (E p 0%nat p b); (done || lia)).
  destruct (block_increments _ _ _ _ b) as [inc|]; [|done]. cbn. rewrite IH; [done|]. intros q i r c Eq Hi Hu Hr. apply (E p (S i) r c); [done|lia| |done]. cbn [up]. rewrite Hp. cbn. by rewrite Eq.
Qed.

(** Adding the newest block last gives what the scan from the newest block gives. *)
Lemma scan_blocks_extend v v' bv f g n h p b c :
  chain_votes_agree v v' bv h (pprev b) n -> h !! p = Some b ->
  scan_blocks v' bv f g n h (pprev b) empty_cache = Some c ->
  scan_blocks v bv f g (S n) h (Some p) empty_cache = scan_blocks v bv f g 1 h (Some p) c.
Proof.
  intros Hk Hp Hc. rewrite !scan_blocks_sum in *. cbn [chain_increments]. rewrite Hp. cbn [mbind option_bind].
  rewrite (chain_increments_ext v v' bv f g n h (pprev b) Hk). destruct (block_increments _ _ _ _ b) as [i|]; [|done]. cbn [mbind option_bind].
  destruct (chain_increments (consultation_key v') bv f g n h (pprev b)) as [l|]; [|done]. cbn in *. injection Hc as <-.
  f_equal. apply increase_fold.
Qed.

(** ** The cache is the tally of the cycle *)

(** The place of a height in its cycle, and the tally of the cycle up to a block. *)
Definition cycle_length (dp : DaoParams) (v : View) : Z := GetConsensusParameter dp v CONSENSUS_PARAM_VOTING_CYCLE_LENGTH.
Definition cycle_tally (v : View) (bv : BlockVotes) (f g : bool) (L : Z) (h : heap) (p : ptr) (b : CBlockIndex) : option VoteCache :=
  scan_blocks v bv f g (Z.to_nat (nHeight b mod L + 1)) h (Some p) empty_cache.

Lemma CountVotes_cases dp Hash bv h v f g fUndo p c last b :
  h !! p = Some b -> 0 <= nHeight b < 2 ^ 31 - 1 -> 0 < cycle_length dp v ->
  CountVotes dp Hash bv h v f g fUndo p c last =
  if fUndo || negb (bool_decide (last = GetConsensusStateHash dp Hash v)) || (nHeight b mod cycle_length dp v =? 0) || cache_is_empty c
  then (fun c => (c, GetConsensusStateHash dp Hash v, true)) <$> cycle_tally v bv f g (cycle_length dp v) h p b
  else (fun c => (c, GetConsensusStateHash dp Hash v, false)) <$> scan_blocks v bv f g 1 h (Some p) c.
Proof.
  intros Hp Hh HL. unfold CountVotes, cycle_tally. rewrite Hp. cbn [mbind option_bind]. fold (cycle_length dp v). set (L := cycle_length dp v) in *.
  unfold u64_mod. destruct (Z.eqb_spec L 0); [lia|]. cbn [mbind option_bind]. unfold to_u64. rewrite (Z.mod_small _ (2 ^ 64)) by lia.
  pose proof (Z.mod_pos_bound (nHeight b) L HL). pose proof (Z.mod_le (nHeight b) L ltac:(lia) HL).
  assert (to_int32 (nHeight b mod L + 1) = nHeight b mod L + 1) as ->.
  { unfold to_int32. rewrite Z.mod_small by lia. destruct (Z.ltb_spec (nHeight b mod L + 1) (2 ^ 31)); lia. }
  replace (nHeight b mod L + 1 =? 1) with (nHeight b mod L =? 0) by (destruct (Z.eqb_spec (nHeight b mod L) 0), (Z.eqb_spec (nHeight b mod L + 1) 1); lia).
  set (B := _ || _ || _ || _). destruct B; [destruct (scan_blocks v bv f g _ h (Some p) empty_cache)|destruct (scan_blocks v bv f g 1 h (Some p) c)]; done.
Qed.

(** The cache [c] holds the tally of the cycle up to the block [q], and [last] is
    the hash of the parameters of that time. *)
Definition cache_current (dp : DaoParams) (Hash : list Z -> uint256) (bv : BlockVotes) (h : heap) (f g : bool)
  (v : View) (q : ptr) (c : VoteCache) (last : uint256) : Prop :=
  last = GetConsensusStateHash dp Hash v /\ exists bq, h !! q = Some bq /\ cycle_tally v bv f g (cycle_length dp v) h q bq = Some c.

Lemma cycle_tally_next v v' bv f g L h p b q bq c :
  chain_votes_agree v v' bv h (Some q) (Z.to_nat (nHeight bq mod L + 1)) ->
  h !! p = Some b -> pprev b = Some q -> h !! q = Some bq -> 0 <= nHeight bq -> nHeight b = nHeight bq + 1 -> 0 < L ->
  nHeight b mod L <> 0 -> cycle_tally v' bv f g L h q bq = Some c ->
  cycle_tally v bv f g L h p b = scan_blocks v bv f g 1 h (Some p) c.
Proof.
  intros Hk Hp Hq Hbq H0 Hh HL Hm Hc. unfold cycle_tally in *.
  assert (nHeight b mod L = nHeight bq mod L + 1) as ->.
  { rewrite Hh in *. rewrite Z.add_mod in * by lia. pose proof (Z.mod_pos_bound (nHeight bq) L HL).
    destruct (Z.eq_dec L 1) as [->|]; [by rewrite Z.mod_1_r in Hm|]. rewrite (Z.mod_small 1) in * by lia.
    destruct (Z.eq_dec (nHeight bq mod L + 1) L) as [E|]; [rewrite E, Z.mod_same in Hm by lia; lia|]. apply Z.mod_small. lia. }
  pose proof (Z.mod_pos_bound (nHeight bq) L HL). rewrite Z2Nat.inj_add by lia. rewrite Nat.add_1_r.
  apply (scan_blocks_extend v v' bv f g _ h p b); [|done|]; rewrite Hq; by rewrite Z2Nat.inj_add, Nat.add_1_r in * by lia.
Qed.

Lemma scan_blocks_total v bv f g n h p c :
  tree_ok h -> (forall p b, h !! p = Some b -> is_Some (phashBlock b)) ->
  (forall q, p = Some q -> is_Some (h !! q)) -> is_Some (scan_blocks v bv f g n h p c).
Proof.
  intros Hok Hhash. rewrite scan_blocks_sum, fmap_is_Some. revert p. induction n as [|n IH]; intros [p|] Hp; cbn [chain_increments]; eauto.
  destruct (Hp p eq_refl) as [b Hb]. rewrite Hb. cbn [mbind option_bind].
  assert (is_Some (block_increments (consultation_key v) bv f g b)) as [i ->].
  { unfold block_increments. destruct (Hhash p b Hb) as [x Hx]. unfold GetBlockHash. rewrite Hx. repeat case_match; cbn; eauto. }
  cbn [mbind option_bind]. apply fmap_is_Some, IH. intros q Hq. destruct (ok_prev _ _ _ (Hok p b Hb) q Hq) as (? & -> & _). eauto.
Qed.

(** C10. Counting the votes of one block at a time, or scanning the whole cycle again,
    gives the same tally.  If the cache holds the tally up to the parent of the
    block (or is in any state, when the call undoes a block), then [CountVotes]
    returns, and the cache it returns holds the tally of the cycle up to the block,
    whichever branch ran.  Between the two blocks the view may have gained and lost
    records; what is assumed is that a consultation vote of an earlier block of the
    cycle counts under the same key as before, and that two parameter sets with the
    same hash have the same cycle length. *)
Theorem incremental_tally dp Hash bv h f g fUndo v v' p b q bq c last :
  tree_ok h -> (forall p b, h !! p = Some b -> is_Some (phashBlock b)) ->
  h !! p = Some b -> pprev b = Some q -> h !! q = Some bq -> nHeight b < 2 ^ 31 - 1 -> 0 < cycle_length dp v ->
  (GetConsensusStateHash dp Hash v = GetConsensusStateHash dp Hash v' -> cycle_length dp v = cycle_length dp v') ->
  chain_votes_agree v v' bv h (Some q) (Z.to_nat (nHeight bq mod cycle_length dp v + 1)) ->
  fUndo = true \/ cache_current dp Hash bv h f g v' q c last ->
  exists c' last' whole,
    CountVotes dp Hash bv h v f g fUndo p c last = Some (c', last', whole) /\ cache_current dp Hash bv h f g v p c' last'.
Proof.
  intros Hok Hhash Hp Hq Hbq Hmax HL Hcoll Hk Hpre. pose proof (Hok p b Hp) as He. pose proof (ok_height _ _ _ He).
  assert (forall q, Some p = Some q -> is_Some (h !! q)) as Hdef by (intros ? [= <-]; eauto).
  rewrite (CountVotes_cases _ _ _ _ _ _ _ _ _ _ _ b Hp) by (done || lia).
  destruct (ok_prev _ _ _ He q Hq) as (bq' & Hbq' & Hh). rewrite Hbq in Hbq'. injection Hbq' as <-.
  destruct (_ || _ || _ || _) eqn:EB.
  - destruct (scan_blocks_total v bv f g (Z.to_nat (nHeight b mod cycle_length dp v + 1)) h (Some p) empty_cache Hok Hhash Hdef) as [c1 E].
    unfold cycle_tally at 1. rewrite E. eexists _, _, _. split; [done|]. split; [done|]. by exists b.
  - rewrite !orb_false_iff in EB. destruct EB as [[[-> Hlast] Hm] _]. apply negb_false_iff, bool_decide_eq_true in Hlast. apply Z.eqb_neq in Hm.
    destruct Hpre as [?|(Hl & bq' & Hbq' & Hc)]; [done|]. rewrite Hbq in Hbq'. injection Hbq' as <-.
    destruct (scan_blocks_total v bv f g 1 h (Some p) c Hok Hhash Hdef) as [c1 E]. rewrite E. eexists _, _, _. split; [done|].
    split; [done|]. exists b. split; [done|]. rewrite <- (Hcoll ltac:(congruence)) in Hc. rewrite <- E.
    pose proof (ok_height _ _ _ (Hok q bq Hbq)). by eapply cycle_tally_next.
Qed.

Definition demo_dao_params : DaoParams := {|
  vParameters := fun pos => match pos with
    | CONSENSUS_PARAM_VOTING_CYCLE_LENGTH => 4
    | CONSENSUS_PARAM_PROPOSAL_MIN_QUORUM | CONSENSUS_PARAM_PAYMENT_REQUEST_MIN_QUORUM => 5000
    | CONSENSUS_PARAM_PROPOSAL_MIN_ACCEPT | CONSENSUS_PARAM_PAYMENT_REQUEST_MIN_ACCEPT => 7000
    | CONSENSUS_PARAM_PROPOSAL_MIN_REJECT | CONSENSUS_PARAM_PAYMENT_REQUEST_MIN_REJECT => 7000
    | CONSENSUS_PARAM_PROPOSAL_MAX_VOTING_CYCLES | CONSENSUS_PARAM_PAYMENT_REQUEST_MAX_VOTING_CYCLES => 6
    | _ => 1 end;
  nMinimumQuorumFirstHalf := float_of 0; nMinimumQuorumSecondHalf := float_of 0; nConsensusChangeMinAccept := 7500 |}.
Definition empty_view : View := {| vProposals := ∅; vPaymentRequests := ∅; vConsultations := ∅; vAnswers := ∅; vConsensus := ∅ |}.

(** Two votes of block 5 for the proposal [[77]], of which the second does not
    count, and one of block 6. *)
Definition demo_votes : BlockVotes := {|
  vProposalVotes := {[ [5] := [([77], 1); ([77], 0)]; [6] := [([77], 0)] ]};
  vPaymentRequestVotes := ∅; mapSupport := ∅; mapConsultationVotes := {[ [6] := {[ [55] := 1 ]} ]} |}.
(** Block 6 adds the consultation [[55]] and votes for it. *)
Definition demo_consultation_view : View := {|
  vProposals := ∅; vPaymentRequests := ∅; vConsultations := {[ [55] := CConsultation.with_states CConsultation.SetNull {[ [6] := ACCEPTED ]} ]}; vAnswers := ∅; vConsensus := ∅ |}.
Definition demo_dao_chain : heap := demo_chain (Z.of_nat <$> seq 0 8).

Lemma demo_dao_chain_ok : tree_ok demo_dao_chain.
Proof. apply tree_okb_sound. vm_compute. reflexivity. Qed.
Lemma demo_dao_chain_hashes p b : demo_dao_chain !! p = Some b -> is_Some (phashBlock b).
Proof.
  intros Hp. apply (heap_forallb (fun _ b => bool_decide (is_Some (phashBlock b)))) in Hp; [by apply bool_decide_eq_true in Hp|vm_compute; reflexivity].
Qed.

Definition demo_cache : VoteCache := {|
  mapCacheProposalsToUpdate := {[ [77] := (1, 0, 0) ]}; mapCachePaymentRequestToUpdate := ∅;
  mapCacheSupportToUpdate := ∅; mapCacheConsultationToUpdate := ∅; nCacheExclude := 0 |}.

Lemma demo_votes_agree : chain_votes_agree demo_consultation_view empty_view demo_votes demo_dao_chain (Some 5%nat) 2.
Proof.
  intros q i r b [= <-] Hi Hu Hr hash cv id x Hh Hcv _. assert (hash = [Z.of_nat r]) as ->.
  { apply (heap_forallb (fun r b => bool_decide (phashBlock b = Some [Z.of_nat r]))) in Hr; [apply bool_decide_eq_true in Hr; unfold GetBlockHash in Hh; congruence|vm_compute; reflexivity]. }
  assert (r <> 6%nat) as Hne by (intros ->; destruct i as [|[|i]]; [vm_compute in Hu; discriminate Hu..|lia]).
  exfalso. unfold GetConsultationVotes, demo_votes in Hcv. cbn [mapConsultationVotes] in Hcv. apply lookup_singleton_Some in Hcv as [E _]. injection E as E. lia.
Qed.

Lemma incremental_tally_witness :
  exists c' last',
    CountVotes demo_dao_params id demo_votes demo_dao_chain demo_consultation_view true true false 6 demo_cache
      (GetConsensusStateHash demo_dao_params id empty_view) = Some (c', last', false) /\
    mapCacheProposalsToUpdate c' !! [77] = Some (1, 1, 0) /\ mapCacheConsultationToUpdate c' !! ([55], 1) = Some 1 /\
    cache_current demo_dao_params id demo_votes demo_dao_chain true true demo_consultation_view 6 c' last'.
Proof.
  destruct (incremental_tally demo_dao_params id demo_votes demo_dao_chain true true false demo_consultation_view empty_view 6 (entry_at demo_dao_chain 6) 5 (entry_at demo_dao_chain 5)
    demo_cache (GetConsensusStateHash demo_dao_params id empty_view) demo_dao_chain_ok demo_dao_chain_hashes) as (c' & l' & w & E & Hc).
  - vm_compute. reflexivity.
  - vm_compute. reflexivity.
  - vm_compute. reflexivity.
  - vm_compute. reflexivity.
  - vm_compute. reflexivity.
  - reflexivity.
  - exact demo_votes_agree.
  - right. split; [reflexivity|]. exists (entry_at demo_dao_chain 5). split; vm_compute; reflexivity.
  - assert ((fun r => (mapCacheProposalsToUpdate r.1.1 !! [77], mapCacheConsultationToUpdate r.1.1 !! ([55], 1), r.2)) <$>
      CountVotes demo_dao_params id demo_votes demo_dao_chain demo_consultation_view true true false 6 demo_cache
        (GetConsensusStateHash demo_dao_params id empty_view) = Some (Some (1, 1, 0), Some 1, false)) as E1 by (vm_compute; reflexivity).
    rewrite E in E1. cbn [fmap option_fmap option_map fst snd] in E1. injection E1 as E1 E2 ->. exists c', l'. split; [exact E|]. split; [exact E1|]. split; [exact E2|exact Hc].
Defined.
