(* ===== verification/VoteStep.v ===== *)
(** * consensus/dao.cpp: [VoteStep]

    The step of the community fund and of the consultations at every block that is
    connected or undone: the tally of the votes is written to the records, and at
    the end of a voting cycle their states advance, money moves between the free
    and the locked part of the fund, and consensus parameters change. *)

From Stdlib Require Import ZArith Lia.
From stdpp Require Import base tactics numbers list gmap sorting.
From S2P Require Import Prelude SphTypes ArithUint Blob Chain ConsensusParams BlockIndex VersionBits BlockVersion Dao VoteTally.

(** A loop whose body can fail. *)
Fixpoint for_each {A S} (f : A -> S -> option S) (l : list A) (s : S) : option S :=
  match l with [] => Some s | x :: l => s ← f x s; for_each f l s end.

(** ** [std::stoll] *)

Fixpoint decimal_prefix (acc : Z) (s : cstring) : Z :=
  match s with
  | c :: r => if isdigit c then decimal_prefix (10 * acc + (c - 48)) r else acc
  | [] => acc
  end.

(** [None] is the exception, for text that does not start with a number and for a
    number that does not fit. *)
Definition stoll (s : cstring) : option Z :=
  let s := skip_spaces s in
  let '(neg, s) := match s with c :: r => if c =? 45 then (true, r) else if c =? 43 then (false, r) else (false, s) | [] => (false, s) end in
  match s with
  | c :: _ =>
      if isdigit c then
        let n := (if neg : bool then -1 else 1) * decimal_prefix 0 s in
        if (- 2 ^ 63 <=? n) && (n <? 2 ^ 63) then Some n else None
      else None
  | [] => None
  end.

(** ** The step *)

(** What the loops change: the view, the funds of [pindexNew], the ids whose votes
    or support were written, the consultations whose votes were cleared, and the
    consensus parameters to change. *)
Record StepState := {
  view : View;
  cfSupply : Z;
  cfLocked : Z;
  mapSeen : gset uint256;
  mapSeenSupport : gset uint256;
  mapAlreadyCleared : gset uint256;
  vClearAnswers : list uint256;
  mapConsensusToChange : gmap Z Z
}.

Definition with_view (s : StepState) (v : View) : StepState := {|
  view := v; cfSupply := cfSupply s; cfLocked := cfLocked s; mapSeen := mapSeen s; mapSeenSupport := mapSeenSupport s;
  mapAlreadyCleared := mapAlreadyCleared s; vClearAnswers := vClearAnswers s; mapConsensusToChange := mapConsensusToChange s |}.
Definition with_funds (s : StepState) (supply locked : Z) : StepState := {|
  view := view s; cfSupply := supply; cfLocked := locked; mapSeen := mapSeen s; mapSeenSupport := mapSeenSupport s;
  mapAlreadyCleared := mapAlreadyCleared s; vClearAnswers := vClearAnswers s; mapConsensusToChange := mapConsensusToChange s |}.
Definition saw (s : StepState) (id : uint256) : StepState := {|
  view := view s; cfSupply := cfSupply s; cfLocked := cfLocked s; mapSeen := {[id]} ∪ mapSeen s; mapSeenSupport := mapSeenSupport s;
  mapAlreadyCleared := mapAlreadyCleared s; vClearAnswers := vClearAnswers s; mapConsensusToChange := mapConsensusToChange s |}.
Definition saw_support (s : StepState) (id : uint256) : StepState := {|
  view := view s; cfSupply := cfSupply s; cfLocked := cfLocked s; mapSeen := mapSeen s; mapSeenSupport := {[id]} ∪ mapSeenSupport s;
  mapAlreadyCleared := mapAlreadyCleared s; vClearAnswers := vClearAnswers s; mapConsensusToChange := mapConsensusToChange s |}.
Definition cleared (s : StepState) (id : uint256) : StepState := {|
  view := view s; cfSupply := cfSupply s; cfLocked := cfLocked s; mapSeen := mapSeen s; mapSeenSupport := mapSeenSupport s;
  mapAlreadyCleared := {[id]} ∪ mapAlreadyCleared s; vClearAnswers := vClearAnswers s; mapConsensusToChange := mapConsensusToChange s |}.
Definition clear_answers_of (s : StepState) (id : uint256) : StepState := {|
  view := view s; cfSupply := cfSupply s; cfLocked := cfLocked s; mapSeen := mapSeen s; mapSeenSupport := mapSeenSupport s;
  mapAlreadyCleared := mapAlreadyCleared s; vClearAnswers := vClearAnswers s ++ [id]; mapConsensusToChange := mapConsensusToChange s |}.
(** [insert] keeps a value that is already there. *)
Definition change_parameter (s : StepState) (pos value : Z) : StepState := {|
  view := view s; cfSupply := cfSupply s; cfLocked := cfLocked s; mapSeen := mapSeen s; mapSeenSupport := mapSeenSupport s;
  mapAlreadyCleared := mapAlreadyCleared s; vClearAnswers := vClearAnswers s;
  mapConsensusToChange := match mapConsensusToChange s !! pos with Some _ => mapConsensusToChange s | None => <[pos := value]> (mapConsensusToChange s) end |}.

Section Step.
Variable dp : DaoParams.
Variable index : BlockTree.

(** [pindexNew]: its hash, height and time; [pindexDelete]: its hash. *)
Variable newHash : uint256.
Variable newHeight newTime : Z.
Variable fUndo : bool.
Variable deleteHash : uint256.
Variable nCycleLength : Z.
Variable fScanningWholeCycle : bool.

Abbreviation param := (GetConsensusParameter dp).
Abbreviation last_state := (GetLastState index).

(** [nVotingCycles], truncated to the [unsigned int] it is assigned to. *)
Definition voting_cycles (created limit : Z) : option Z :=
  e ← elapsed_cycles created newHeight nCycleLength; Some (SPH_T32 (Z.min e limit)).

Definition end_of_cycle : option bool := r ← u64_mod (newHeight + 1) nCycleLength; Some (r =? 0).

(** The block a record was created in; a null hash and a hash without an entry are
    skipped by the callers. *)
Definition creation (txblockhash : uint256) : option CBlockIndex :=
  if bool_decide (txblockhash = uint256_null) then None else index_entry index txblockhash.

(** *** Undoing the state of a record *)

Definition undo_proposal (p : CProposal.t) (cycles : Z) : CProposal.t :=
  let p := CProposal.with_states p (ClearState (CProposal.mapState p) deleteHash) in
  if bool_decide (last_state (CProposal.mapState p) = NIL) then CProposal.with_cycle p cycles else p.

Definition undo_prequest (r : CPaymentRequest.t) (cycles : Z) : CPaymentRequest.t :=
  let r := CPaymentRequest.with_states r (ClearState (CPaymentRequest.mapState r) deleteHash) in
  if bool_decide (last_state (CPaymentRequest.mapState r) = NIL) then CPaymentRequest.with_cycle r cycles else r.

Definition undo_consultation (c : CConsultation.t) (cycles : Z) : CConsultation.t :=
  let c := CConsultation.with_states c (ClearState (CConsultation.mapState c) deleteHash) in
  let s := last_state (CConsultation.mapState c) in
  if bool_decide (s <> EXPIRED) && bool_decide (s <> PASSED) then CConsultation.with_cycle c cycles else c.

Definition undo_answer (a : CConsultationAnswer.t) : CConsultationAnswer.t :=
  CConsultationAnswer.with_states a (ClearState (CConsultationAnswer.mapState a) deleteHash).

(** *** Writing the tally *)

Definition write_proposal_votes (tally : gmap uint256 vote_count) (id : uint256) (s : StepState) : option StepState :=
  match GetProposal (view s) id with
  | None => Some s
  | Some p =>
      match creation (CProposal.txblockhash p) with
      | None => Some s
      | Some b =>
          cycles ← voting_cycles (nHeight b) (to_u64 (param (view s) CONSENSUS_PARAM_PROPOSAL_MAX_VOTING_CYCLES + 1));
          let p := if fUndo then undo_proposal p cycles else p in
          let v := put_proposal (view s) id p in
          if CProposal_CanVote index p then
            '(yes, no, abs) ← tally !! id;
            Some (saw (with_view s (put_proposal v id (CProposal.with_votes p yes no abs))) (CProposal.hash p))
          else Some (with_view s v)
      end
  end.

(** [mapBlockIndex] is read without a check here. *)
Definition prequest_creation (r : CPaymentRequest.t) : option CBlockIndex := index_entry index (CPaymentRequest.txblockhash r).

Definition write_prequest_votes (tally : gmap uint256 vote_count) (id : uint256) (s : StepState) : option StepState :=
  match GetPaymentRequest (view s) id with
  | None => Some s
  | Some r =>
      if bool_decide (CPaymentRequest.txblockhash r = uint256_null) then Some s
      else
        b ← prequest_creation r;
        cycles ← voting_cycles (nHeight b) (to_u64 (param (view s) CONSENSUS_PARAM_PAYMENT_REQUEST_MAX_VOTING_CYCLES + 1));
        let r := if fUndo then undo_prequest r cycles else r in
        let v := put_prequest (view s) id r in
        if CPaymentRequest_CanVote index v r then
          '(yes, no, abs) ← tally !! id;
          Some (saw (with_view s (put_prequest v id (CPaymentRequest.with_votes r yes no abs))) (CPaymentRequest.hash r))
        else Some (with_view s v)
  end.

Definition write_support (tally : gmap uint256 Z) (id : uint256) (s : StepState) : option StepState :=
  match GetConsultation (view s) id, GetConsultationAnswer (view s) id with
  | Some c, _ =>
      match creation (CConsultation.txblockhash c) with
      | None => Some s
      | Some b =>
          cycles ← voting_cycles (nHeight b) (to_u64 (param (view s) CONSENSUS_PARAM_CONSULTATION_MAX_VOTING_CYCLES +
            param (view s) CONSENSUS_PARAM_CONSULTATION_REFLECTION_LENGTH + param (view s) CONSENSUS_PARAM_CONSULTATION_MAX_SUPPORT_CYCLES));
          let c := if fUndo then undo_consultation c cycles else c in
          let v := put_consultation (view s) id c in
          if CConsultation_CanBeSupported index c then
            n ← tally !! id;
            Some (saw_support (with_view s (put_consultation v id (CConsultation.with_support c n))) (CConsultation.hash c))
          else Some (with_view s v)
      end
  | None, Some a =>
      match creation (CConsultationAnswer.txblockhash a) with
      | None => Some s
      | Some _ =>
          let a := if fUndo then undo_answer a else a in
          let v := put_answer (view s) id a in
          if CConsultationAnswer_CanBeSupported index v a then
            n ← tally !! id;
            Some (saw_support (with_view s (put_answer v id (CConsultationAnswer.with_support a n))) (CConsultationAnswer.hash a))
          else Some (with_view s v)
      end
  | None, None => Some s
  end.

Definition write_consultation_votes (tally : gmap (uint256 * Z) Z) (k : uint256 * Z) (s : StepState) : option StepState :=
  let '(id, vote) := k in
  match GetConsultation (view s) id, GetConsultationAnswer (view s) id with
  | Some c, _ =>
      match creation (CConsultation.txblockhash c) with
      | None => Some s
      | Some b =>
          cycles ← voting_cycles (nHeight b) (to_u64 (param (view s) CONSENSUS_PARAM_CONSULTATION_MAX_VOTING_CYCLES + 1));
          let c := if fUndo then undo_consultation c cycles else c in
          let s := with_view s (put_consultation (view s) id c) in
          if CConsultation_CanBeVoted index c vote && CConsultation.IsValidVote c vote then
            n ← tally !! k;
            let clear := fScanningWholeCycle && bool_decide (id ∉ mapAlreadyCleared s) in
            let votes := if clear then ∅ else CConsultation.mapVotes c in
            let s := if clear then cleared s id else s in
            Some (saw (with_view s (put_consultation (view s) id (CConsultation.with_votes c (<[to_u64 vote := to_u64 n]> votes)))) id)
          else Some s
      end
  | None, Some a =>
      match creation (CConsultationAnswer.txblockhash a) with
      | None => Some s
      | Some _ =>
          let a := if fUndo then undo_answer a else a in
          let v := put_answer (view s) id a in
          if CConsultationAnswer_CanBeVoted index v a then
            n ← tally !! k;
            Some (saw (with_view s (put_answer v id (CConsultationAnswer.with_votes a n))) id)
          else Some (with_view s v)
      end
  | None, None => Some s
  end.

(** *** Blocks that are excluded from the quorum *)

Definition exclude_prequest (n : Z) (id : uint256) (s : StepState) : option StepState :=
  match GetPaymentRequest (view s) id with
  | Some r => Some (if CPaymentRequest_CanVote index (view s) r then with_view s (put_prequest (view s) id (CPaymentRequest.with_exclude r n)) else s)
  | None => Some s
  end.
Definition exclude_proposal (n : Z) (id : uint256) (s : StepState) : option StepState :=
  match GetProposal (view s) id with
  | Some p => Some (if CProposal_CanVote index p then with_view s (put_proposal (view s) id (CProposal.with_exclude p n)) else s)
  | None => Some s
  end.
Definition exclude_consultation (n : Z) (id : uint256) (s : StepState) : option StepState :=
  match GetConsultation (view s) id with
  | Some c => Some (if bool_decide (last_state (CConsultation.mapState c) = ACCEPTED)
                    then with_view s (put_consultation (view s) id (CConsultation.with_exclude c n)) else s)
  | None => Some s
  end.
Definition exclude_answer (n : Z) (id : uint256) (s : StepState) : option StepState :=
  match GetConsultationAnswer (view s) id with
  | Some a => Some (if CConsultationAnswer_CanBeVoted index (view s) a
                    then with_view s (put_answer (view s) id (CConsultationAnswer.with_exclude a n)) else s)
  | None => Some s
  end.

(** *** Advancing the states *)

Definition set_prequest_state (s : StepState) (id : uint256) (r : CPaymentRequest.t) (state : flags) : StepState :=
  with_view s (put_prequest (view s) id (CPaymentRequest.with_states r (SetState (CPaymentRequest.mapState r) newHash state))).
Definition set_proposal_state (s : StepState) (id : uint256) (p : CProposal.t) (state : flags) : StepState :=
  with_view s (put_proposal (view s) id (CProposal.with_states p (SetState (CProposal.mapState p) newHash state))).
Definition set_answer_state (s : StepState) (id : uint256) (a : CConsultationAnswer.t) (state : flags) : StepState :=
  with_view s (put_answer (view s) id (CConsultationAnswer.with_states a (SetState (CConsultationAnswer.mapState a) newHash state))).

(** A request at the end of a cycle; [oldState] is its state before. *)
Definition judge_prequest (id : uint256) (r : CPaymentRequest.t) (oldState : flags) (proposal : CProposal.t) (s : StepState) : StepState :=
  if CPaymentRequest_IsExpired dp index (view s) r then
    if bool_decide (oldState <> EXPIRED) then set_prequest_state s id r EXPIRED else s
  else if CPaymentRequest_IsRejected dp (view s) r then
    if bool_decide (oldState <> REJECTED) then set_prequest_state s id r REJECTED else s
  else if bool_decide (oldState = NIL) then
    let proposalOldState := last_state (CProposal.mapState proposal) in
    if (bool_decide (proposalOldState = ACCEPTED) || bool_decide (proposalOldState = PENDING_VOTING_PREQ)) && CPaymentRequest_IsAccepted dp (view s) r then
      if (CPaymentRequest.nAmount r <=? cfLocked s) && (CPaymentRequest.nAmount r <=? CProposal_GetAvailable index (view s) proposal false) then
        set_prequest_state (with_funds s (cfSupply s) (cfLocked s - CPaymentRequest.nAmount r)) id r ACCEPTED
      else s
    else s
  else s.

Definition advance_prequest (id : uint256) (s : StepState) : option StepState :=
  match GetPaymentRequest (view s) id with
  | None => Some s
  | Some r =>
      if bool_decide (CPaymentRequest.txblockhash r = uint256_null) then Some s
      else
        b ← prequest_creation r;
        cycles ← voting_cycles (nHeight b) (to_u64 (nCycleLength + 1));
        match GetProposal (view s) (CPaymentRequest.proposalhash r) with
        | None => Some s
        | Some proposal =>
            if fUndo then Some (with_view s (put_prequest (view s) id (undo_prequest r cycles)))
            else
              let oldState := last_state (CPaymentRequest.mapState r) in
              let r := if bool_decide (oldState = NIL) then CPaymentRequest.with_cycle r cycles else r in
              let s := with_view s (put_prequest (view s) id r) in
              e ← end_of_cycle;
              Some (if (e : bool) then judge_prequest id r oldState proposal s else s)
        end
  end.

Definition judge_proposal (id : uint256) (p : CProposal.t) (oldState : flags) (s : StepState) : StepState :=
  let available := CProposal_GetAvailable index (view s) p false in
  if CProposal_IsExpired dp index newTime (view s) p then
    if bool_decide (oldState <> EXPIRED) then
      if CProposal_HasPendingPaymentRequests index (view s) p then set_proposal_state s id p PENDING_VOTING_PREQ
      else
        let s := if bool_decide (oldState = ACCEPTED) || bool_decide (oldState = PENDING_VOTING_PREQ)
                 then with_funds s (cfSupply s + available) (cfLocked s - available) else s in
        set_proposal_state s id p EXPIRED
    else s
  else if CProposal_IsRejected dp (view s) p then
    if bool_decide (oldState <> REJECTED) then set_proposal_state s id p REJECTED else s
  else if CProposal_IsAccepted dp (view s) p then
    if bool_decide (oldState = NIL) || bool_decide (oldState = PENDING_FUNDS) then
      if available <=? cfSupply s then
        set_proposal_state (with_funds s (cfSupply s - available) (cfLocked s + available)) id p ACCEPTED
      else if bool_decide (oldState <> PENDING_FUNDS) then set_proposal_state s id p PENDING_FUNDS
      else s
    else s
  else s.

Definition advance_proposal (id : uint256) (s : StepState) : option StepState :=
  match GetProposal (view s) id with
  | None => Some s
  | Some p =>
      match creation (CProposal.txblockhash p) with
      | None => Some s
      | Some b =>
          cycles ← voting_cycles (nHeight b) (to_u64 (param (view s) CONSENSUS_PARAM_PROPOSAL_MAX_VOTING_CYCLES + 1));
          if fUndo then Some (with_view s (put_proposal (view s) id (undo_proposal p cycles)))
          else
            let oldState := last_state (CProposal.mapState p) in
            let p := if bool_decide (oldState = NIL) then CProposal.with_cycle p cycles else p in
            let s := with_view s (put_proposal (view s) id p) in
            e ← end_of_cycle;
            Some (if (e : bool) then judge_proposal id p oldState s else s)
      end
  end.

(** An answer is accepted as a candidate when it is supported, and passes when the
    votes accept the change of the parameter it proposes. *)
Definition judge_answer (id : uint256) (a : CConsultationAnswer.t) (s : StepState) : option StepState :=
  let oldState := last_state (CConsultationAnswer.mapState a) in
  let a := if CConsultationAnswer_IsSupported dp (view s) a && bool_decide (oldState = NIL)
           then CConsultationAnswer.with_states a (SetState (CConsultationAnswer.mapState a) newHash ACCEPTED) else a in
  let s := with_view s (put_answer (view s) id a) in
  if CConsultationAnswer_IsConsensusAccepted dp (view s) a && bool_decide (oldState <> PASSED) then
    match GetConsultation (view s) (CConsultationAnswer.parent a) with
    | Some parent =>
        if CConsultation.IsAboutConsensusParameter parent then
          value ← stoll (CConsultationAnswer.sAnswer a);
          Some (set_answer_state (change_parameter s (CConsultation.nMin parent) (to_u64 value)) id a PASSED)
        else Some s
    | None => Some s
    end
  else Some s.

Definition advance_answer (id : uint256) (s : StepState) : option StepState :=
  match GetConsultationAnswer (view s) id with
  | None => Some s
  | Some a =>
      match creation (CConsultationAnswer.txblockhash a) with
      | None => Some s
      | Some _ =>
          if fUndo then Some (with_view s (put_answer (view s) id (undo_answer a)))
          else e ← end_of_cycle; if (e : bool) then judge_answer id a s else Some s
      end
  end.

(** The state a consultation moves to, if any, before the parameters are looked at. *)
Definition consultation_move (v : View) (c : CConsultation.t) (oldState : flags) : option (option flags) :=
  expired ← CConsultation_IsExpired dp index newHeight v c;
  if (expired : bool) then Some (if bool_decide (oldState <> EXPIRED) then Some EXPIRED else None)
  else if CConsultation_IsSupported dp v c then
    if bool_decide (oldState = NIL) then Some (Some SUPPORTED)
    else if bool_decide (oldState = SUPPORTED) && CConsultation_CanMoveInReflection dp v c then Some (Some REFLECTION)
    else if bool_decide (oldState = REFLECTION) then
      over ← CConsultation_IsReflectionOver dp index newHeight v c;
      Some (if (over : bool) then Some ACCEPTED else None)
    else Some None
  else Some None.

Definition judge_consultation (id : uint256) (c : CConsultation.t) (oldState : flags) (s : StepState) : option StepState :=
  move ← consultation_move (view s) c oldState;
  let c := match move with Some state => CConsultation.with_states c (SetState (CConsultation.mapState c) newHash state) | None => c end in
  let c := if CConsultation.IsAboutConsensusParameter c && bool_decide (is_Some (mapConsensusToChange s !! CConsultation.nMin c)) &&
              bool_decide (oldState = ACCEPTED) && bool_decide (last_state (CConsultation.mapState c) <> EXPIRED)
           then CConsultation.with_states c (SetState (CConsultation.mapState c) newHash PASSED) else c in
  Some (with_view s (put_consultation (view s) id c)).

Definition advance_consultation (id : uint256) (s : StepState) : option StepState :=
  match GetConsultation (view s) id with
  | None => Some s
  | Some c =>
      match creation (CConsultation.txblockhash c) with
      | None => Some s
      | Some b =>
          cycles ← voting_cycles (nHeight b) (to_u64 (param (view s) CONSENSUS_PARAM_CONSULTATION_MAX_VOTING_CYCLES + 1));
          if fUndo then Some (with_view s (put_consultation (view s) id (undo_consultation c cycles)))
          else
            let oldState := last_state (CConsultation.mapState c) in
            let c := if bool_decide (oldState <> EXPIRED) && bool_decide (oldState <> PASSED) then CConsultation.with_cycle c cycles else c in
            let s := with_view s (put_consultation (view s) id c) in
            e ← end_of_cycle;
            if (e : bool) then judge_consultation id c oldState s else Some s
      end
  end.

(** *** Resetting the counters *)

Definition reset_prequest (id : uint256) (s : StepState) : option StepState :=
  match GetPaymentRequest (view s) id with
  | Some r => Some (if bool_decide (CPaymentRequest.hash r ∉ mapSeen s) && CPaymentRequest_CanVote index (view s) r
                    then with_view s (put_prequest (view s) id (CPaymentRequest.with_votes r 0 0 (CPaymentRequest.nVotesAbs r))) else s)
  | None => Some s
  end.
Definition reset_proposal (id : uint256) (s : StepState) : option StepState :=
  match GetProposal (view s) id with
  | Some p => Some (if bool_decide (CProposal.hash p ∉ mapSeen s) && CProposal_CanVote index p
                    then with_view s (put_proposal (view s) id (CProposal.with_votes p 0 0 (CProposal.nVotesAbs p))) else s)
  | None => Some s
  end.

Definition reset_consultation (id : uint256) (s : StepState) : option StepState :=
  match GetConsultation (view s) id with
  | Some c =>
      let c := if CConsultation_CanBeSupported index c && bool_decide (CConsultation.hash c ∉ mapSeenSupport s) then CConsultation.with_support c 0 else c in
      Some (if bool_decide (last_state (CConsultation.mapState c) = ACCEPTED) then
              let s := if CConsultation.IsRange c then s else clear_answers_of s (CConsultation.hash c) in
              let c := if (bool_decide (is_Some (CConsultation.mapVotes c !! to_u64 VOTE_ABSTAIN)) || CConsultation.IsRange c) &&
                          bool_decide (CConsultation.hash c ∉ mapSeen s) then CConsultation.with_votes c ∅ else c in
              with_view s (put_consultation (view s) id c)
            else with_view s (put_consultation (view s) id c))
  | None => Some s
  end.

Definition reset_answer (id : uint256) (s : StepState) : option StepState :=
  match GetConsultationAnswer (view s) id with
  | Some a =>
      if bool_decide (id ∈ mapSeen s) then Some s
      else
        let a := if CConsultationAnswer_CanBeSupported index (view s) a && bool_decide (CConsultationAnswer.hash a ∉ mapSeenSupport s)
                 then CConsultationAnswer.with_support a 0 else a in
        let a := if bool_decide (CConsultationAnswer.parent a ∈ vClearAnswers s) then CConsultationAnswer.with_votes a 0 else a in
        Some (with_view s (put_answer (view s) id a))
  | None => Some s
  end.

(** *** The whole step *)

Definition write_parameter (id : Z) (s : StepState) : option StepState :=
  value ← mapConsensusToChange s !! id;
  let pid := to_int32 id in
  Some (with_view s (put_parameter (view s) pid (CConsensusParameter.Set_ (default ∅ (vConsensus (view s) !! pid)) newHeight value))).

(** Iteration over a [std::map] keyed by pairs of a [uint256] and an [int64_t]. *)
Definition pair_le (a b : uint256 * Z) : Prop := blob_less a.1 b.1 = true \/ (blob_less b.1 a.1 = false /\ a.2 <= b.2).
#[export] Instance pair_le_dec a b : Decision (pair_le a b).
Proof. unfold pair_le. apply _. Defined.
Definition ordered_pairs {A} (m : gmap (uint256 * Z) A) : list (uint256 * Z) := merge_sort pair_le (map_to_list m).*1.

Definition fund_loop (fCFund : bool) (l : list uint256) (f : uint256 -> StepState -> option StepState) (s : StepState) : option StepState :=
  if fCFund then for_each f l s else Some s.

(** The changes to the records, after the votes were counted. *)
Definition update_records (fCFund fDAO : bool) (c : VoteCache) (s : StepState) : option StepState :=
  s ← fund_loop fCFund (ordered_keys (mapCacheProposalsToUpdate c)) (write_proposal_votes (mapCacheProposalsToUpdate c)) s;
  s ← fund_loop fCFund (ordered_keys (mapCachePaymentRequestToUpdate c)) (write_prequest_votes (mapCachePaymentRequestToUpdate c)) s;
  s ← fund_loop fDAO (ordered_keys (mapCacheSupportToUpdate c)) (write_support (mapCacheSupportToUpdate c)) s;
  s ← (if fDAO then for_each (write_consultation_votes (mapCacheConsultationToUpdate c)) (ordered_pairs (mapCacheConsultationToUpdate c)) s else Some s);
  let proposals := all_keys CProposal.IsNull (vProposals (view s)) in
  let prequests := all_keys CPaymentRequest.IsNull (vPaymentRequests (view s)) in
  let answers := all_keys CConsultationAnswer.IsNull (vAnswers (view s)) in
  let consultations := all_keys CConsultation.IsNull (vConsultations (view s)) in
  s ← fund_loop fCFund prequests (exclude_prequest (nCacheExclude c)) s;
  s ← fund_loop fCFund proposals (exclude_proposal (nCacheExclude c)) s;
  s ← fund_loop fDAO consultations (exclude_consultation (nCacheExclude c)) s;
  s ← fund_loop fDAO answers (exclude_answer (nCacheExclude c)) s;
  s ← fund_loop fCFund prequests advance_prequest s;
  s ← fund_loop fCFund proposals advance_proposal s;
  s ← fund_loop fDAO answers advance_answer s;
  s ← fund_loop fDAO consultations advance_consultation s;
  s ← (if fScanningWholeCycle then
         s ← fund_loop fCFund prequests reset_prequest s;
         s ← fund_loop fCFund proposals reset_proposal s;
         s ← fund_loop fDAO consultations reset_consultation s;
         fund_loop fDAO answers reset_answer s
       else Some s);
  for_each write_parameter (ordered_heights (mapConsensusToChange s)) s.

End Step.

Definition set_funds (b : CBlockIndex) (supply locked : Z) : CBlockIndex := {|
  phashBlock := phashBlock b; pprev := pprev b; pnext := pnext b; pskip := pskip b; nHeight := nHeight b;
  nFile := nFile b; nDataPos := nDataPos b; nUndoPos := nUndoPos b; nChainWork := nChainWork b;
  nTx := nTx b; nChainTx := nChainTx b; nStatus := nStatus b; nVersion := nVersion b;
  hashMerkleRoot := hashMerkleRoot b; nTime := nTime b; nBits := nBits b; nNonce := nNonce b;
  nMint := nMint b; nCFSupply := supply; nCFLocked := locked; strDZeel := strDZeel b; nFlags := nFlags b;
  nStakeModifier := nStakeModifier b; hashProof := hashProof b; nSequenceId := nSequenceId b |}.

(** The globals of dao.cpp. *)
Record DaoGlobals := { tally_cache : VoteCache; lastConsensusStateHash : uint256 }.

Section VoteStep.
Variable params : Params.
Variable dp : DaoParams.
Variable Hash : list Z -> uint256.
Variable bv : BlockVotes.

(** The block the step is for: the block itself, or its parent when it is undone. *)
Definition step_block (h : heap) (pindex : ptr) (fUndo : bool) : option ptr :=
  if fUndo then b ← h !! pindex; pprev b else Some pindex.

Definition VoteStep (index : BlockTree) (v : View) (g : DaoGlobals) (pindex : ptr) (fUndo : bool) (caches : VersionBitsCache) :
  option (View * DaoGlobals * heap * VersionBitsCache) :=
  let h := entries index in
  pindexNew ← step_block h pindex fUndo;
  b ← h !! pindexNew;
  bdel ← h !! pindex;
  newHash ← GetBlockHash b;
  deleteHash ← GetBlockHash bdel;
  '(fCFund, caches) ← IsCommunityFundEnabled h params (pprev b) caches;
  '(fDAO, caches) ← IsDAOEnabled h params (pprev b) caches;
  '(c, last, whole) ← CountVotes dp Hash bv h v fCFund fDAO fUndo pindexNew (tally_cache g) (lastConsensusStateHash g);
  s ← update_records dp index newHash (nHeight b) (GetBlockTime b) fUndo deleteHash
        (GetConsensusParameter dp v CONSENSUS_PARAM_VOTING_CYCLE_LENGTH) whole fCFund fDAO c
        {| view := v; cfSupply := nCFSupply b; cfLocked := nCFLocked b; mapSeen := ∅; mapSeenSupport := ∅;
           mapAlreadyCleared := ∅; vClearAnswers := []; mapConsensusToChange := ∅ |};
  Some (view s, {| tally_cache := c; lastConsensusStateHash := last |},
        <[pindexNew := set_funds b (cfSupply s) (cfLocked s)]> h, caches).

End VoteStep.
