(* ===== verification/DaoFacts.v ===== *)
(** * Facts about the records of the fund

    Sums over maps, the last state of a record after [SetState] and [ClearState],
    and the available amount of a proposal as a difference of sums. *)

From Stdlib Require Import ZArith Lia.
From stdpp Require Import base tactics numbers list gmap sorting.
From S2P Require Import Prelude SphTypes ArithUint Blob Chain BlockIndex BlockVersion Dao.

(** ** Sums over maps *)

Definition map_sum {K A} `{Countable K} (f : K -> A -> Z) (m : gmap K A) : Z := map_fold (fun k x s => f k x + s) 0 m.

Section MapSum.
Context {K A : Type} `{Countable K}.
Implicit Types (m : gmap K A) (f : K -> A -> Z).

Lemma map_sum_empty f : map_sum f ∅ = 0.
Proof. apply map_fold_empty. Qed.

Lemma map_sum_insert_new f m k x : m !! k = None -> map_sum f (<[k := x]> m) = f k x + map_sum f m.
Proof. intros Hk. unfold map_sum. rewrite map_fold_insert_L; [done| |done]. intros. lia. Qed.

Lemma map_sum_delete f m k x : m !! k = Some x -> map_sum f m = f k x + map_sum f (delete k m).
Proof. intros Hk. unfold map_sum. rewrite (map_fold_delete_L (fun k x s => f k x + s) 0 k x m); [done|intros; lia|done]. Qed.

Lemma map_sum_insert f m k x y : m !! k = Some x -> map_sum f (<[k := y]> m) = map_sum f m - f k x + f k y.
Proof.
  intros Hk. rewrite (map_sum_delete f m k x Hk), <- insert_delete_eq, map_sum_insert_new by apply lookup_delete_eq. lia.
Qed.

Lemma map_sum_ext f g m : (forall k x, m !! k = Some x -> f k x = g k x) -> map_sum f m = map_sum g m.
Proof.
  induction m as [|k x m Hk IH] using map_ind; intros E; [by rewrite !map_sum_empty|].
  rewrite !map_sum_insert_new by done. rewrite (E k x) by apply lookup_insert_eq. f_equal. apply IH.
  intros l y Hl. apply E. rewrite lookup_insert_ne; [done|]. by intros ->; rewrite Hk in Hl.
Qed.

Lemma map_sum_nonneg f m : (forall k x, m !! k = Some x -> 0 <= f k x) -> 0 <= map_sum f m.
Proof.
  induction m as [|k x m Hk IH] using map_ind; intros E; [by rewrite map_sum_empty|].
  rewrite map_sum_insert_new by done. pose proof (E k x ltac:(apply lookup_insert_eq)).
  enough (0 <= map_sum f m) by lia. apply IH. intros l y Hl. apply E. rewrite lookup_insert_ne; [done|]. by intros ->; rewrite Hk in Hl.
Qed.

(** A sum that is changed at one key only. *)
Lemma map_sum_change f g m k x d :
  m !! k = Some x -> f k x = g k x + d -> (forall l y, m !! l = Some y -> l <> k -> f l y = g l y) -> map_sum f m = map_sum g m + d.
Proof.
  intros Hk Hd Hl. rewrite (map_sum_delete f m k x Hk), (map_sum_delete g m k x Hk).
  rewrite (map_sum_ext f g (delete k m)); [lia|]. intros l y Hy. apply lookup_delete_Some in Hy as [? Hy]. apply Hl; auto.
Qed.

(** A filtered sum over a list of the keys. *)
Lemma map_sum_keys f m (l : list K) :
  l ≡ₚ (map_to_list m).*1 -> map_sum f m = foldr (fun k s => match m !! k with Some x => f k x | None => 0 end + s) 0 l.
Proof.
  intros Hl.
  transitivity (foldr (fun k s => match m !! k with Some x => f k x | None => 0 end + s) 0 (map_to_list m).*1).
  - unfold map_sum. rewrite map_fold_foldr. assert (forall k x, (k, x) ∈ map_to_list m -> m !! k = Some x) as Hm by (intros; by apply elem_of_map_to_list).
    clear Hl. induction (map_to_list m) as [|[k x] kl IH]; cbn; [done|]. rewrite (Hm k x) by constructor. rewrite IH; [done|]. intros. apply Hm. by constructor.
  - symmetry. apply (foldr_permutation eq (fun k s => match m !! k with Some x => f k x | None => 0 end + s) 0 l); [|done]. intros. lia.
Qed.

End MapSum.

(** ** Iteration *)

Lemma ordered_keys_perm {A} (m : gmap (list Z) A) : ordered_keys m ≡ₚ (map_to_list m).*1.
Proof. apply merge_sort_Permutation. Qed.

Lemma elem_of_ordered_keys {A} (m : gmap (list Z) A) k : k ∈ ordered_keys m <-> is_Some (m !! k).
Proof.
  rewrite ordered_keys_perm, list_elem_of_fmap. split.
  - intros ([? x] & -> & Hx). apply elem_of_map_to_list in Hx. cbn. eauto.
  - intros [x Hx]. exists (k, x). split; [done|]. by apply elem_of_map_to_list.
Qed.

Lemma NoDup_ordered_keys {A} (m : gmap (list Z) A) : NoDup (ordered_keys m).
Proof. rewrite ordered_keys_perm. apply NoDup_fst_map_to_list. Qed.

(** ** The last state *)

Section LastState.
Variable index : BlockTree.

Lemma last_state_step_stays keep m b s k :
  (forall l s', m !! l = Some s' -> forall c, index_entry index l = Some c -> nHeight c <= nHeight b) ->
  last_state_step index keep m (nHeight b, Some (b, s)) k = (nHeight b, Some (b, s)).
Proof.
  intros Hle. unfold last_state_step. destruct (m !! k) as [s'|] eqn:E; [|done]. destruct (keep s'); [|done].
  destruct (index_entry index k) as [c|] eqn:Ec; [|done]. pose proof (Hle k s' E c Ec). cbn [fst]. destruct (Z.ltb_spec (nHeight b) (nHeight c)); [lia|done].
Qed.

(** The entry of a block above all others is the last one. *)
Lemma last_state_entry_top keep m k s b :
  m !! k = Some s -> keep s = true -> index_entry index k = Some b -> 0 < nHeight b ->
  (forall l s', m !! l = Some s' -> l <> k -> forall c, index_entry index l = Some c -> nHeight c < nHeight b) ->
  last_state_entry index keep m = Some (b, s).
Proof.
  intros Hk Hs Hb H0 Hlt. unfold last_state_entry. set (st := last_state_step index keep m).
  assert (forall l s', m !! l = Some s' -> forall c, index_entry index l = Some c -> nHeight c <= nHeight b) as Hle.
  { intros l s' Hl c Hc. destruct (decide (l = k)) as [->|Hne]; [rewrite Hb in Hc; injection Hc as <-; lia|]. pose proof (Hlt l s' Hl Hne c Hc). lia. }
  assert (forall ks, fold_left st ks (nHeight b, Some (b, s)) = (nHeight b, Some (b, s))) as Hstay.
  { induction ks as [|l ks IH]; cbn [fold_left]; [done|]. unfold st at 2. by rewrite last_state_step_stays. }
  assert (forall ks acc, acc.1 < nHeight b -> k ∈ ks -> (fold_left st ks acc).2 = Some (b, s)) as Hgo; [|apply Hgo; [cbn; lia|by apply elem_of_ordered_keys]].
  induction ks as [|l ks IH]; intros acc Hacc Hin; [by apply not_elem_of_nil in Hin|]. cbn [fold_left].
  destruct (decide (l = k)) as [->|Hne].
  - unfold st at 2, last_state_step. rewrite Hk, Hs, Hb. destruct (Z.ltb_spec acc.1 (nHeight b)); [|lia]. by rewrite Hstay.
  - apply elem_of_cons in Hin as [->|Hin]; [done|]. apply IH; [|done]. unfold st, last_state_step.
    destruct (m !! l) as [s'|] eqn:El; [|done]. destruct (keep s'); [|done]. destruct (index_entry index l) as [c|] eqn:Ec; [|done].
    case_match; [|done]. cbn. by apply (Hlt l s').
Qed.

(** Entries without a block in the index, or of height zero, do not count. *)
Lemma GetLastState_empty : GetLastState index ∅ = NIL.
Proof. reflexivity. Qed.

Lemma GetLastState_ne_NIL m : GetLastState index m <> NIL -> m <> ∅.
Proof. by intros H ->. Qed.

(** The states of a record belong to blocks up to [newHeight], and only [newHash]
    is at that height. *)
Definition states_below (newHash : list Z) (newHeight : Z) (m : gmap (list Z) flags) : Prop :=
  forall k s, m !! k = Some s -> k <> newHash -> forall c, index_entry index k = Some c -> nHeight c < newHeight.

Lemma states_below_set newHash newHeight m s : states_below newHash newHeight m -> states_below newHash newHeight (SetState m newHash s).
Proof. intros H k s' Hk Hne. unfold SetState in Hk. rewrite lookup_insert_ne in Hk by done. by apply (H k s'). Qed.

Lemma GetLastState_set newHash newHeight m s bn :
  states_below newHash newHeight m -> index_entry index newHash = Some bn -> nHeight bn = newHeight -> 0 < newHeight ->
  GetLastState index (SetState m newHash s) = s.
Proof.
  intros Hm Hb Hh H0. unfold GetLastState. rewrite (last_state_entry_top _ _ newHash s bn); [done|apply lookup_insert_eq|done|done|lia|].
  intros l s' Hl Hne c Hc. rewrite Hh. unfold SetState in Hl. rewrite lookup_insert_ne in Hl by done. by apply (Hm l s').
Qed.

(** ** Availability *)

Definition spent_state (s : flags) : bool := bool_decide (s = ACCEPTED) || bool_decide (s = PAID).

(** What the requests of the proposal [hash] took from it. *)
Definition request_spends (hash : list Z) (r : CPaymentRequest.t) : Z :=
  if bool_decide (CPaymentRequest.proposalhash r = hash) && spent_state (GetLastState index (CPaymentRequest.mapState r))
  then CPaymentRequest.nAmount r else 0.
Definition spent (rs : gmap (list Z) CPaymentRequest.t) (hash : list Z) : Z := map_sum (fun _ => request_spends hash) rs.

Lemma prequest_null_amount r : CPaymentRequest.IsNull r = true -> CPaymentRequest.nAmount r = 0.
Proof. unfold CPaymentRequest.IsNull. rewrite !andb_true_iff. intros [[[[[H _] _] _] _] _]. by apply Z.eqb_eq. Qed.

Lemma fold_left_requests hash l a :
  fold_left (fun initial r => if counts_as_spent false (GetLastState index (CPaymentRequest.mapState r)) then initial - CPaymentRequest.nAmount r else initial)
    (filter (fun r => CPaymentRequest.proposalhash r = hash) l) a =
  a - foldr (fun r s => request_spends hash r + s) 0 l.
Proof.
  revert a. induction l as [|r l IH]; intros a; cbn [foldr]; [rewrite filter_nil; cbn; lia|]. unfold request_spends at 1. rewrite filter_cons.
  destruct (decide (CPaymentRequest.proposalhash r = hash)) as [E|E].
  - cbn [fold_left]. rewrite IH, bool_decide_true by done. unfold counts_as_spent, spent_state. cbn [andb orb negb]. case_match; lia.
  - rewrite IH, bool_decide_false by done. cbn [andb]. lia.
Qed.

Lemma all_keys_perm {A} (null : A -> bool) (m : gmap (list Z) A) :
  all_keys null m ≡ₚ (map_to_list (filter (fun kx => null kx.2 = false) m)).*1.
Proof. apply ordered_keys_perm. Qed.

Lemma elem_of_all_keys {A} (null : A -> bool) (m : gmap (list Z) A) k : k ∈ all_keys null m <-> is_Some (present null (m !! k)).
Proof.
  unfold all_keys. rewrite elem_of_ordered_keys. unfold present. split.
  - intros [x Hx]. apply map_lookup_filter_Some in Hx as [-> Hx]. cbn in *. rewrite Hx. eauto.
  - intros [x Hx]. destruct (m !! k) as [y|] eqn:E; [|done]. cbn in Hx. destruct (null y) eqn:En; [done|].
    exists y. by apply map_lookup_filter_Some.
Qed.

Lemma GetAvailable_sum v p :
  CProposal_GetAvailable index v p false = CProposal.nAmount p - spent (vPaymentRequests v) (CProposal.hash p).
Proof.
  unfold CProposal_GetAvailable, requests_of. rewrite fold_left_requests. f_equal. unfold spent.
  set (rs := vPaymentRequests v). set (f := request_spends (CProposal.hash p)).
  set (rs' := filter (fun kx : list Z * CPaymentRequest.t => CPaymentRequest.IsNull kx.2 = false) rs).
  transitivity (map_sum (fun _ => f) rs').
  - rewrite (map_sum_keys _ rs' (all_keys CPaymentRequest.IsNull rs) (all_keys_perm _ _)).
    assert (forall k, k ∈ all_keys CPaymentRequest.IsNull rs -> is_Some (present CPaymentRequest.IsNull (rs !! k))) as Hk by (intros; by apply elem_of_all_keys).
    induction (all_keys CPaymentRequest.IsNull rs) as [|k ks IH]; cbn [foldr omap list_omap]; [done|].
    destruct (Hk k ltac:(constructor)) as [r Hr]. unfold GetPaymentRequest at 1. fold rs. rewrite Hr. cbn [foldr]. rewrite IH by (intros; apply Hk; by constructor).
    f_equal. unfold present in Hr. destruct (rs !! k) as [r'|] eqn:E; [|done]. cbn in Hr. destruct (CPaymentRequest.IsNull r') eqn:En; [done|].
    injection Hr as ->.
    assert (rs' !! k = Some r) as ->; [|done]. by apply map_lookup_filter_Some.
  - subst rs'. clear. induction rs as [|k r rs Hk IH] using map_ind; [by rewrite map_filter_empty|].
    rewrite map_sum_insert_new by done. destruct (CPaymentRequest.IsNull r) eqn:En.
    + rewrite map_filter_insert_False by (cbn; congruence). rewrite delete_id by done. rewrite IH.
      assert (f r = 0) as ->; [|lia]. unfold f, request_spends. rewrite (prequest_null_amount r En). by case_match.
    + rewrite map_filter_insert_True by done. rewrite map_sum_insert_new; [by rewrite IH|]. apply map_lookup_filter_None. by left.
Qed.

End LastState.
