(* ===== verification/VoteFund.v ===== *)
(** * The community fund stays solvent

    The invariant of the fund at a block: the locked part covers what the accepted
    proposals may still pay out, and nothing is negative.  Every loop of [VoteStep]
    keeps it when a block is connected, and moves money without creating any. *)

From Stdlib Require Import ZArith Lia.
From stdpp Require Import base tactics numbers list gmap sorting.
From S2P Require Import Prelude SphTypes ArithUint Blob Chain ConsensusParams BlockIndex VersionBits BlockVersion Dao DaoFacts VoteTally VoteStep.

(** ** Loops *)

Lemma for_each_total {A S} (P : S -> Prop) (f : A -> S -> option S) l s :
  (forall x s, P s -> exists s', f x s = Some s' /\ P s') -> P s -> exists s', for_each f l s = Some s' /\ P s'.
Proof.
  intros Hf. revert s. induction l as [|x l IH]; intros s Hs; cbn [for_each]; [eauto|].
  destruct (Hf x s Hs) as (s1 & -> & H1). cbn [mbind option_bind]. by apply IH.
Qed.

Lemma for_each_in {A S} (P : S -> Prop) (f : A -> S -> option S) l s :
  (forall x s, x ∈ l -> P s -> exists s', f x s = Some s' /\ P s') -> P s -> exists s', for_each f l s = Some s' /\ P s'.
Proof.
  revert s. induction l as [|x l IH]; intros s Hf Hs; cbn [for_each]; [eauto|].
  destruct (Hf x s ltac:(constructor) Hs) as (s1 & -> & H1). cbn [mbind option_bind]. apply IH; [|done]. intros y s2 Hy. apply Hf. by constructor.
Qed.

Lemma fund_loop_total (P : StepState -> Prop) b l f s :
  (forall x s, x ∈ l -> P s -> exists s', f x s = Some s' /\ P s') -> P s -> exists s', fund_loop b l f s = Some s' /\ P s'.
Proof. intros Hf Hs. unfold fund_loop. destruct b; [by apply for_each_in|eauto]. Qed.

(** ** Records that are present *)

Lemma present_Some {A} (null : A -> bool) o (x : A) : present null o = Some x <-> o = Some x /\ null x = false.
Proof.
  unfold present. destruct o as [y|]; cbn; [|by split; [|intros [? _]]]. destruct (null y) eqn:E; split; intros H; try done.
  - destruct H as [[= ->] H]. by rewrite E in H.
  - by injection H as <-.
  - by destruct H as [[= ->] _].
Qed.

Lemma put_put_proposal v id p p' : put_proposal (put_proposal v id p) id p' = put_proposal v id p'.
Proof. unfold put_proposal. cbn. by rewrite insert_insert_eq. Qed.
Lemma put_put_prequest v id r r' : put_prequest (put_prequest v id r) id r' = put_prequest v id r'.
Proof. unfold put_prequest. cbn. by rewrite insert_insert_eq. Qed.
Lemma put_put_consultation v id c c' : put_consultation (put_consultation v id c) id c' = put_consultation v id c'.
Proof. unfold put_consultation. cbn. by rewrite insert_insert_eq. Qed.
Lemma put_put_answer v id a a' : put_answer (put_answer v id a) id a' = put_answer v id a'.
Proof. unfold put_answer. cbn. by rewrite insert_insert_eq. Qed.

Section Fund.
Variable dp : DaoParams.
Variable index : BlockTree.
Variable newHash deleteHash : list Z.
Variable newHeight newTime nCycleLength : Z.
Variable fScanningWholeCycle : bool.
Variable bn : CBlockIndex.
(** The changed consensus parameters before the step. *)
Variable parameters : gmap Z CConsensusParameter.t.

(** Whether no proposal with locked money counts as rejected, and then by how much the
    locked part exceeds what is locked for the proposals. *)
Variable exact : Prop.
Variable slack : Z.

Abbreviation last_state := (GetLastState index).

(** ** The invariant *)

Definition locked_state (s : flags) : bool := bool_decide (s = ACCEPTED) || bool_decide (s = PENDING_VOTING_PREQ).

(** What is set aside for a proposal. *)
Definition lock_value (rs : gmap (list Z) CPaymentRequest.t) (p : CProposal.t) : Z :=
  if locked_state (last_state (CProposal.mapState p)) then CProposal.nAmount p - spent index rs (CProposal.hash p) else 0.
Definition locked_total (v : View) : Z := map_sum (fun _ => lock_value (vPaymentRequests v)) (vProposals v).

Definition spend_value (r : CPaymentRequest.t) : Z :=
  if spent_state (last_state (CPaymentRequest.mapState r)) then CPaymentRequest.nAmount r else 0.
(** What all requests together were granted. *)
Definition total_spent (v : View) : Z := map_sum (fun _ => spend_value) (vPaymentRequests v).

Record fund_inv (v : View) (supply locked : Z) : Prop := {
  fi_key : forall id p, GetProposal v id = Some p -> CProposal.hash p = id;
  fi_available : forall id p, GetProposal v id = Some p -> 0 <= CProposal.nAmount p - spent index (vPaymentRequests v) id;
  fi_amount : forall id r, vPaymentRequests v !! id = Some r -> 0 <= CPaymentRequest.nAmount r;
  fi_supply : 0 <= supply;
  fi_locked : locked_total v <= locked;
  fi_below_p : forall id p, vProposals v !! id = Some p -> states_below index newHash newHeight (CProposal.mapState p);
  fi_below_r : forall id r, vPaymentRequests v !! id = Some r -> states_below index newHash newHeight (CPaymentRequest.mapState r)
}.

(** A request that was granted is not rejected by its votes under the parameters
    of the view. *)
Definition settled (v : View) : Prop := forall id r,
  GetPaymentRequest v id = Some r -> spent_state (last_state (CPaymentRequest.mapState r)) = true -> CPaymentRequest_IsRejected dp v r = false.

(** A proposal for which money is locked is not rejected by its votes under the
    parameters of the view. *)
Definition proposals_settled (v : View) : Prop := forall id p,
  GetProposal v id = Some p -> locked_state (last_state (CProposal.mapState p)) = true -> CProposal_IsRejected dp v p = false.

(** What the code takes for granted about the records: a request was created in a
    known block, and an answer to a consultation about a parameter is a number. *)
Record records_ok (v : View) : Prop := {
  ro_created : forall id r, GetPaymentRequest v id = Some r ->
    CPaymentRequest.txblockhash r = uint256_null \/ is_Some (prequest_creation index r);
  ro_answer : forall id a c, GetConsultationAnswer v id = Some a -> GetConsultation v (CConsultationAnswer.parent a) = Some c ->
    CConsultation.IsAboutConsensusParameter c = true -> is_Some (stoll (CConsultationAnswer.sAnswer a))
}.

(** The invariant of the loops; [K] is the money of the fund, the granted part included. *)
Record step_inv (K : Z) (s : StepState) : Prop := {
  si_fund : fund_inv (view s) (cfSupply s) (cfLocked s);
  si_settled : settled (view s);
  si_records : records_ok (view s);
  si_money : cfSupply s + cfLocked s + total_spent (view s) = K;
  si_parameters : vConsensus (view s) = parameters;
  si_exact : exact -> proposals_settled (view s) /\ cfLocked s = locked_total (view s) + slack
}.

(** ** Money that the invariant protects *)

Lemma proposal_null_states p : CProposal.IsNull p = true -> last_state (CProposal.mapState p) = NIL.
Proof.
  unfold CProposal.IsNull. rewrite !andb_true_iff. intros [_ H]. apply bool_decide_eq_true, map_size_empty_inv in H. by rewrite H.
Qed.

(** A proposal for which money is locked is present in the view. *)
Lemma locked_present v id p :
  vProposals v !! id = Some p -> locked_state (last_state (CProposal.mapState p)) = true -> GetProposal v id = Some p.
Proof.
  intros Hp Hl. apply present_Some. split; [done|]. destruct (CProposal.IsNull p) eqn:E; [|done]. by rewrite proposal_null_states in Hl.
Qed.

Lemma lock_value_nonneg v supply locked id p : fund_inv v supply locked -> vProposals v !! id = Some p -> 0 <= lock_value (vPaymentRequests v) p.
Proof.
  intros HI Hp. unfold lock_value. destruct (locked_state _) eqn:El; [|lia]. pose proof (locked_present v id p Hp El) as Hg.
  rewrite (fi_key _ _ _ HI id p Hg). by apply (fi_available _ _ _ HI).
Qed.

Lemma locked_total_nonneg v supply locked : fund_inv v supply locked -> 0 <= locked_total v.
Proof. intros HI. apply map_sum_nonneg. intros id p Hp. by apply (lock_value_nonneg v supply locked id p). Qed.

(** What is locked for one proposal is at most what is locked. *)
Lemma lock_value_le v supply locked id p :
  fund_inv v supply locked -> vProposals v !! id = Some p -> lock_value (vPaymentRequests v) p <= locked.
Proof.
  intros HI Hp. pose proof (fi_locked _ _ _ HI) as Hl. unfold locked_total in Hl.
  rewrite (map_sum_delete _ _ id p Hp) in Hl.
  enough (0 <= map_sum (fun _ => lock_value (vPaymentRequests v)) (delete id (vProposals v))) by lia.
  apply map_sum_nonneg. intros k q Hq. apply lookup_delete_Some in Hq as [_ Hq]. by apply (lock_value_nonneg v supply locked k q).
Qed.

(** ** Writing a record *)

(** The invariant does not look at consultations and answers. *)
Lemma fund_inv_ext v v' supply locked :
  vProposals v' = vProposals v -> vPaymentRequests v' = vPaymentRequests v -> fund_inv v supply locked -> fund_inv v' supply locked.
Proof.
  intros Ep Er [H1 H2 H3 H4 H5 H6 H7]. unfold GetProposal, locked_total in *. split; unfold GetProposal, locked_total; rewrite ?Ep, ?Er; assumption.
Qed.

Definition same_request (r r' : CPaymentRequest.t) : Prop :=
  CPaymentRequest.nAmount r' = CPaymentRequest.nAmount r /\ CPaymentRequest.proposalhash r' = CPaymentRequest.proposalhash r /\
  CPaymentRequest.txblockhash r' = CPaymentRequest.txblockhash r.

Lemma records_ok_prequest v id r r' : records_ok v -> GetPaymentRequest v id = Some r -> same_request r r' -> records_ok (put_prequest v id r').
Proof.
  intros [H1 H2] Hr (_ & _ & Et). split; [|exact H2]. intros k q Hq. unfold GetPaymentRequest in Hq. apply present_Some in Hq as [Hq Hn].
  cbn [vPaymentRequests put_prequest] in Hq. destruct (decide (id = k)) as [->|Hne].
  - rewrite lookup_insert_eq in Hq. injection Hq as <-. unfold prequest_creation. rewrite Et. by apply (H1 k).
  - rewrite lookup_insert_ne in Hq by done. apply (H1 k). by apply present_Some.
Qed.

Lemma settled_prequest v id r' :
  settled v -> (spent_state (last_state (CPaymentRequest.mapState r')) = true -> CPaymentRequest_IsRejected dp v r' = false) ->
  settled (put_prequest v id r').
Proof.
  intros Hs Hr k q Hq Hsp. change (CPaymentRequest_IsRejected dp (put_prequest v id r') q) with (CPaymentRequest_IsRejected dp v q).
  apply present_Some in Hq as [Hq Hn]. cbn [vPaymentRequests put_prequest] in Hq. destruct (decide (id = k)) as [->|Hne].
  - rewrite lookup_insert_eq in Hq. injection Hq as <-. auto.
  - rewrite lookup_insert_ne in Hq by done. apply (Hs k); [by apply present_Some|done].
Qed.

Lemma spent_put v id r r' hash :
  vPaymentRequests v !! id = Some r ->
  spent index (<[id := r']> (vPaymentRequests v)) hash = spent index (vPaymentRequests v) hash - request_spends index hash r + request_spends index hash r'.
Proof. intros Hr. unfold spent. by rewrite (map_sum_insert _ _ id r r' Hr). Qed.

(** A request whose contribution stays the same. *)
Lemma fund_inv_prequest v id r r' supply locked :
  fund_inv v supply locked -> GetPaymentRequest v id = Some r -> same_request r r' -> spend_value r' = spend_value r ->
  states_below index newHash newHeight (CPaymentRequest.mapState r') ->
  fund_inv (put_prequest v id r') supply locked /\ total_spent (put_prequest v id r') = total_spent v /\ locked_total (put_prequest v id r') = locked_total v.
Proof.
  intros HI Hr (Ea & Ep & Et) Es Hb. apply present_Some in Hr as [Hr Hn].
  assert (forall hash, spent index (<[id := r']> (vPaymentRequests v)) hash = spent index (vPaymentRequests v) hash) as Esp.
  { intros hash. rewrite (spent_put v id r r' hash Hr). unfold request_spends, spend_value in *. rewrite Ep. destruct (bool_decide _); cbn [andb]; lia. }
  assert (locked_total (put_prequest v id r') = locked_total v) as El.
  { unfold locked_total. cbn [vPaymentRequests vProposals put_prequest]. apply map_sum_ext. intros k p Hp. unfold lock_value. by rewrite Esp. }
  split; [|split; [unfold total_spent; cbn [vPaymentRequests put_prequest]; rewrite (map_sum_insert _ _ id r r' Hr); lia|done]].
  split; cbn [vPaymentRequests vProposals put_prequest].
  - apply (fi_key _ _ _ HI).
  - intros k p Hp. rewrite Esp. by apply (fi_available _ _ _ HI).
  - intros k q Hq. destruct (decide (id = k)) as [->|Hne]; [rewrite lookup_insert_eq in Hq|rewrite lookup_insert_ne in Hq by done].
    + injection Hq as <-. rewrite Ea. by apply (fi_amount _ _ _ HI k).
    + by apply (fi_amount _ _ _ HI k).
  - apply (fi_supply _ _ _ HI).
  - rewrite El. apply (fi_locked _ _ _ HI).
  - apply (fi_below_p _ _ _ HI).
  - intros k q Hq. destruct (decide (id = k)) as [->|Hne]; [rewrite lookup_insert_eq in Hq|rewrite lookup_insert_ne in Hq by done].
    + by injection Hq as <-.
    + by apply (fi_below_r _ _ _ HI k).
Qed.

(** A request that is granted out of what is locked for its proposal. *)
Lemma fund_inv_grant v id r r' proposal supply locked :
  fund_inv v supply locked -> GetPaymentRequest v id = Some r -> same_request r r' ->
  spend_value r = 0 -> spend_value r' = CPaymentRequest.nAmount r -> states_below index newHash newHeight (CPaymentRequest.mapState r') ->
  GetProposal v (CPaymentRequest.proposalhash r) = Some proposal -> locked_state (last_state (CProposal.mapState proposal)) = true ->
  CPaymentRequest.nAmount r <= CProposal.nAmount proposal - spent index (vPaymentRequests v) (CPaymentRequest.proposalhash r) ->
  fund_inv (put_prequest v id r') supply (locked - CPaymentRequest.nAmount r) /\
  total_spent (put_prequest v id r') = total_spent v + CPaymentRequest.nAmount r /\ locked_total (put_prequest v id r') = locked_total v - CPaymentRequest.nAmount r.
Proof.
  intros HI Hr (Ea & Ep & Et) Es0 Es Hb Hprop Hlk Hav. apply present_Some in Hr as [Hr Hn]. set (a := CPaymentRequest.nAmount r) in *.
  set (ph := CPaymentRequest.proposalhash r) in *.
  assert (forall hash, spent index (<[id := r']> (vPaymentRequests v)) hash = spent index (vPaymentRequests v) hash + if bool_decide (ph = hash) then a else 0) as Esp.
  { intros hash. rewrite (spent_put v id r r' hash Hr). unfold request_spends, spend_value in *. fold ph. rewrite Ep. destruct (bool_decide _); cbn [andb]; lia. }
  assert (locked_total (put_prequest v id r') = locked_total v - a) as El.
  { unfold locked_total. cbn [vPaymentRequests vProposals put_prequest]. pose proof Hprop as Hprop'. apply present_Some in Hprop' as [Hpl _].
    rewrite (map_sum_change _ (fun _ => lock_value (vPaymentRequests v)) _ ph proposal (- a) Hpl); [lia| |].
    - unfold lock_value. rewrite Hlk, (fi_key _ _ _ HI ph proposal Hprop), Esp, bool_decide_true by done. lia.
    - intros k q Hq Hne. unfold lock_value. destruct (locked_state (last_state (CProposal.mapState q))) eqn:E; [|done].
      rewrite (fi_key _ _ _ HI k q (locked_present v k q Hq E)), Esp, bool_decide_false by done. lia. }
  split; [|split; [unfold total_spent; cbn [vPaymentRequests put_prequest]; rewrite (map_sum_insert _ _ id r r' Hr); lia|done]].
  split; cbn [vPaymentRequests vProposals put_prequest].
  - apply (fi_key _ _ _ HI).
  - intros k p Hp. change (GetProposal v k = Some p) in Hp. rewrite Esp. pose proof (fi_available _ _ _ HI k p Hp). case_bool_decide as E; [|lia].
    rewrite E in Hprop. rewrite Hprop in Hp. injection Hp as <-. rewrite <- E. lia.
  - intros k q Hq. destruct (decide (id = k)) as [->|Hne]; [rewrite lookup_insert_eq in Hq|rewrite lookup_insert_ne in Hq by done].
    + injection Hq as <-. rewrite Ea. by apply (fi_amount _ _ _ HI k).
    + by apply (fi_amount _ _ _ HI k).
  - apply (fi_supply _ _ _ HI).
  - rewrite El. pose proof (fi_locked _ _ _ HI). lia.
  - apply (fi_below_p _ _ _ HI).
  - intros k q Hq. destruct (decide (id = k)) as [->|Hne]; [rewrite lookup_insert_eq in Hq|rewrite lookup_insert_ne in Hq by done].
    + by injection Hq as <-.
    + by apply (fi_below_r _ _ _ HI k).
Qed.

Lemma locked_total_proposal v id p p' : GetProposal v id = Some p ->
  locked_total (put_proposal v id p') = locked_total v - lock_value (vPaymentRequests v) p + lock_value (vPaymentRequests v) p'.
Proof. intros Hp. apply present_Some in Hp as [Hpl _]. unfold locked_total. cbn [vPaymentRequests vProposals put_proposal]. by rewrite (map_sum_insert _ _ id p p' Hpl). Qed.

(** A proposal that is written, with what is locked for it. *)
Lemma fund_inv_proposal v id p p' supply locked supply' locked' :
  fund_inv v supply locked -> GetProposal v id = Some p ->
  CProposal.nAmount p' = CProposal.nAmount p -> CProposal.hash p' = CProposal.hash p ->
  states_below index newHash newHeight (CProposal.mapState p') ->
  0 <= supply' -> locked - lock_value (vPaymentRequests v) p + lock_value (vPaymentRequests v) p' <= locked' ->
  fund_inv (put_proposal v id p') supply' locked'.
Proof.
  intros HI Hp Ea Eh Hb Hs Hl. pose proof Hp as Hp'. apply present_Some in Hp' as [Hpl Hn].
  assert (forall k q, GetProposal (put_proposal v id p') k = Some q -> CProposal.hash q = k /\ 0 <= CProposal.nAmount q - spent index (vPaymentRequests v) k) as Hk.
  { intros k q Hq. apply present_Some in Hq as [Hq Hqn]. cbn [vProposals put_proposal] in Hq. destruct (decide (id = k)) as [->|Hne].
    - rewrite lookup_insert_eq in Hq. injection Hq as <-. rewrite Eh, Ea. split; [by apply (fi_key _ _ _ HI)|by apply (fi_available _ _ _ HI)].
    - rewrite lookup_insert_ne in Hq by done. assert (GetProposal v k = Some q) by (by apply present_Some).
      split; [by apply (fi_key _ _ _ HI)|by apply (fi_available _ _ _ HI)]. }
  split; cbn [vPaymentRequests vProposals put_proposal].
  - intros k q Hq. by apply Hk.
  - intros k q Hq. by apply Hk.
  - apply (fi_amount _ _ _ HI).
  - done.
  - rewrite (locked_total_proposal _ _ p _ Hp). pose proof (fi_locked _ _ _ HI). lia.
  - intros k q Hq. destruct (decide (id = k)) as [->|Hne]; [rewrite lookup_insert_eq in Hq|rewrite lookup_insert_ne in Hq by done].
    + by injection Hq as <-.
    + by apply (fi_below_p _ _ _ HI k).
  - apply (fi_below_r _ _ _ HI).
Qed.

(** ** Writes that keep the money where it is *)

Lemma step_inv_view K s s' :
  view s' = view s -> cfSupply s' = cfSupply s -> cfLocked s' = cfLocked s -> step_inv K s -> step_inv K s'.
Proof. intros Ev Es El [H1 H2 H3 H4 H5 H6]. split; by rewrite ?Ev, ?Es, ?El. Qed.

Lemma settled_ext v v' : vPaymentRequests v' = vPaymentRequests v -> vConsensus v' = vConsensus v -> settled v -> settled v'.
Proof.
  intros Er Ec Hs id r Hr Hsp. unfold GetPaymentRequest in Hr. rewrite Er in Hr.
  assert (forall pos, GetConsensusParameter dp v' pos = GetConsensusParameter dp v pos) as Ep by (intros; unfold GetConsensusParameter; by rewrite Ec).
  unfold CPaymentRequest_IsRejected, prequest_quorum. rewrite !Ep. by apply (Hs id).
Qed.

Lemma proposals_settled_ext v v' : vProposals v' = vProposals v -> vConsensus v' = vConsensus v -> proposals_settled v -> proposals_settled v'.
Proof.
  intros Er Ec Hs id r Hr Hsp. unfold GetProposal in Hr. rewrite Er in Hr.
  assert (forall pos, GetConsensusParameter dp v' pos = GetConsensusParameter dp v pos) as Ep by (intros; unfold GetConsensusParameter; by rewrite Ec).
  unfold CProposal_IsRejected, proposal_quorum. rewrite !Ep. by apply (Hs id).
Qed.

Lemma proposals_settled_put v id p' :
  proposals_settled v -> (locked_state (last_state (CProposal.mapState p')) = true -> CProposal_IsRejected dp v p' = false) -> proposals_settled (put_proposal v id p').
Proof.
  intros Hs Hr k q Hq Hsp. change (CProposal_IsRejected dp (put_proposal v id p') q) with (CProposal_IsRejected dp v q).
  apply present_Some in Hq as [Hq Hn]. cbn [vProposals put_proposal] in Hq. destruct (decide (id = k)) as [->|Hne].
  - rewrite lookup_insert_eq in Hq. injection Hq as <-. auto.
  - rewrite lookup_insert_ne in Hq by done. apply (Hs k); [by apply present_Some|done].
Qed.

(** What is exact stays so where neither proposals nor requests change. *)
Lemma exact_ext v v' locked : vProposals v' = vProposals v -> vPaymentRequests v' = vPaymentRequests v -> vConsensus v' = vConsensus v ->
  (exact -> proposals_settled v /\ locked = locked_total v + slack) -> exact -> proposals_settled v' /\ locked = locked_total v' + slack.
Proof. intros Ep Er Ec H Q. destruct (H Q) as [H1 H2]. split; [by apply (proposals_settled_ext v)|]. unfold locked_total. by rewrite Ep, Er. Qed.

Lemma step_keep_prequest K s id r r' :
  step_inv K s -> GetPaymentRequest (view s) id = Some r -> same_request r r' -> CPaymentRequest.mapState r' = CPaymentRequest.mapState r ->
  r' = r \/ spent_state (last_state (CPaymentRequest.mapState r)) = false ->
  step_inv K (with_view s (put_prequest (view s) id r')).
Proof.
  intros [H1 H2 H3 H4 H5 H6] Hr Hsame Em Hset. pose proof Hsame as (Ea & _ & _).
  assert (spend_value r' = spend_value r) as Esv by (unfold spend_value; by rewrite Em, Ea).
  pose proof Hr as Hr'. apply present_Some in Hr' as [Hl _].
  destruct (fund_inv_prequest (view s) id r r' _ _ H1 Hr Hsame Esv) as (HI & HT & HL); [rewrite Em; by apply (fi_below_r _ _ _ H1 id)|].
  split; cbn [view cfSupply cfLocked with_view]; [done| |by apply (records_ok_prequest _ _ r)|lia|done|].
  2: { intros Q. destruct (H6 Q) as [P1 P2]. split; [by apply (proposals_settled_ext (view s))|lia]. }
  apply settled_prequest; [done|]. rewrite Em. intros Hsp. destruct Hset as [->|Hset]; [by apply (H2 id)|by rewrite Hset in Hsp].
Qed.

Lemma step_keep_proposal K s id p p' :
  step_inv K s -> GetProposal (view s) id = Some p ->
  CProposal.nAmount p' = CProposal.nAmount p -> CProposal.hash p' = CProposal.hash p -> CProposal.mapState p' = CProposal.mapState p ->
  p' = p \/ locked_state (last_state (CProposal.mapState p)) = false ->
  step_inv K (with_view s (put_proposal (view s) id p')).
Proof.
  intros [H1 H2 H3 H4 H5 H6] Hp Ea Eh Em Hset. split; cbn [view cfSupply cfLocked with_view]; [|by apply (settled_ext (view s))|by destruct H3|exact H4|done|].
  2: { intros Q. destruct (H6 Q) as [P1 P2]. split.
       - apply proposals_settled_put; [done|]. rewrite Em. intros Hlk. destruct Hset as [->|Hset]; [by apply (P1 id)|by rewrite Hset in Hlk].
       - rewrite (locked_total_proposal _ _ p _ Hp). unfold lock_value. rewrite Em, Ea, Eh. lia. }
  pose proof Hp as Hp'. apply present_Some in Hp' as [Hl _].
  apply (fund_inv_proposal _ _ p _ (cfSupply s) (cfLocked s)); try done.
  - rewrite Em. by apply (fi_below_p _ _ _ H1 id).
  - by apply (fi_supply _ _ _ H1).
  - unfold lock_value. rewrite Em, Ea, Eh. lia.
Qed.

Lemma step_keep_consultation K s id c c' :
  step_inv K s -> GetConsultation (view s) id = Some c -> CConsultation.nVersion c' = CConsultation.nVersion c ->
  step_inv K (with_view s (put_consultation (view s) id c')).
Proof.
  intros [H1 H2 [H3 H3'] H4 H5 H6] Hc Ev. split; cbn [view cfSupply cfLocked with_view]; [by apply (fund_inv_ext (view s))|by apply (settled_ext (view s))| |exact H4|done|by apply (exact_ext (view s))].
  split; [exact H3|]. intros k a q Ha Hq Hab. change (GetConsultationAnswer (view s) k = Some a) in Ha. apply present_Some in Hq as [Hq Hn].
  cbn [vConsultations put_consultation] in Hq. destruct (decide (id = CConsultationAnswer.parent a)) as [E|Hne].
  - rewrite E, lookup_insert_eq in Hq. injection Hq as <-. apply (H3' k a c Ha); [by rewrite <- E|]. unfold CConsultation.IsAboutConsensusParameter in *. by rewrite <- Ev.
  - rewrite lookup_insert_ne in Hq by done. apply (H3' k a q Ha); [by apply present_Some|done].
Qed.

Lemma step_keep_answer K s id a a' :
  step_inv K s -> GetConsultationAnswer (view s) id = Some a ->
  CConsultationAnswer.sAnswer a' = CConsultationAnswer.sAnswer a -> CConsultationAnswer.parent a' = CConsultationAnswer.parent a ->
  step_inv K (with_view s (put_answer (view s) id a')).
Proof.
  intros [H1 H2 [H3 H3'] H4 H5 H6] Ha Et Ep. split; cbn [view cfSupply cfLocked with_view]; [by apply (fund_inv_ext (view s))|by apply (settled_ext (view s))| |exact H4|done|by apply (exact_ext (view s))].
  split; [exact H3|]. intros k b c Hb Hc Hab. apply present_Some in Hb as [Hb Hn]. cbn [vAnswers put_answer] in Hb.
  destruct (decide (id = k)) as [->|Hne].
  - rewrite lookup_insert_eq in Hb. injection Hb as <-. rewrite Et. rewrite Ep in Hc. by apply (H3' k a c).
  - rewrite lookup_insert_ne in Hb by done. apply (H3' k b c); [by apply present_Some|done..].
Qed.

(** ** The loops that write votes and counters *)

Hypothesis Hcycle : nCycleLength <> 0.

Lemma voting_cycles_total created limit : exists c, voting_cycles newHeight nCycleLength created limit = Some c.
Proof. unfold voting_cycles, elapsed_cycles, u64_div. destruct (Z.eqb_spec nCycleLength 0); [done|]. cbn. eauto. Qed.

Lemma CanVote_NIL v r : CPaymentRequest_CanVote index v r = true -> last_state (CPaymentRequest.mapState r) = NIL.
Proof.
  unfold CPaymentRequest_CanVote. case_match; [|done]. rewrite !andb_true_iff. intros [[_ H0] _]. by apply bool_decide_eq_true in H0.
Qed.

Lemma CanVote_proposal p : CProposal_CanVote index p = true -> locked_state (last_state (CProposal.mapState p)) = false.
Proof. unfold CProposal_CanVote. intros H. apply bool_decide_eq_true in H. by rewrite H. Qed.

Lemma spent_NIL m : last_state m = NIL -> spent_state (last_state m) = false.
Proof. by intros ->. Qed.

Lemma write_proposal_votes_inv K tally id s :
  id ∈ ordered_keys tally -> step_inv K s ->
  exists s', write_proposal_votes dp index newHeight false deleteHash nCycleLength tally id s = Some s' /\ step_inv K s'.
Proof.
  intros Hid Hs. apply elem_of_ordered_keys in Hid as [[[y n] a] Ht]. unfold write_proposal_votes.
  destruct (GetProposal (view s) id) as [p|] eqn:Hp; [|eauto]. destruct (creation _ _) as [b|]; [|eauto].
  destruct (voting_cycles_total (nHeight b) (to_u64 (GetConsensusParameter dp (view s) CONSENSUS_PARAM_PROPOSAL_MAX_VOTING_CYCLES + 1))) as [c ->].
  cbn [mbind option_bind]. destruct (CProposal_CanVote index p) eqn:Ecan.
  - rewrite Ht. cbn [mbind option_bind]. eexists. split; [done|]. rewrite put_put_proposal.
    apply (step_inv_view _ (with_view s (put_proposal (view s) id (CProposal.with_votes p y n a)))); [done..|]. apply (step_keep_proposal _ _ _ p); try done. right. by apply CanVote_proposal.
  - eexists. split; [done|]. apply (step_keep_proposal _ _ _ p); try done. by left.
Qed.

Lemma write_prequest_votes_inv K tally id s :
  id ∈ ordered_keys tally -> step_inv K s ->
  exists s', write_prequest_votes dp index newHeight false deleteHash nCycleLength tally id s = Some s' /\ step_inv K s'.
Proof.
  intros Hid Hs. apply elem_of_ordered_keys in Hid as [[[y n] a] Ht]. unfold write_prequest_votes.
  destruct (GetPaymentRequest (view s) id) as [r|] eqn:Hr; [|eauto]. case_bool_decide as En; [eauto|].
  destruct (ro_created _ (si_records _ _ Hs) id r Hr) as [?|[b ->]]; [done|]. cbn [mbind option_bind].
  destruct (voting_cycles_total (nHeight b) (to_u64 (GetConsensusParameter dp (view s) CONSENSUS_PARAM_PAYMENT_REQUEST_MAX_VOTING_CYCLES + 1))) as [c ->].
  cbn [mbind option_bind]. destruct (CPaymentRequest_CanVote index (put_prequest (view s) id r) r) eqn:Ecan.
  - rewrite Ht. cbn [mbind option_bind]. eexists. split; [done|]. rewrite put_put_prequest.
    apply (step_inv_view _ (with_view s (put_prequest (view s) id (CPaymentRequest.with_votes r y n a)))); [done..|].
    apply (step_keep_prequest _ _ _ r); try done. right. eapply spent_NIL, CanVote_NIL, Ecan.
  - eexists. split; [done|]. apply (step_keep_prequest _ _ _ r); try done. by left.
Qed.

Lemma write_support_inv K tally id s :
  id ∈ ordered_keys tally -> step_inv K s ->
  exists s', write_support dp index newHeight false deleteHash nCycleLength tally id s = Some s' /\ step_inv K s'.
Proof.
  intros Hid Hs. apply elem_of_ordered_keys in Hid as [n Ht]. unfold write_support.
  destruct (GetConsultation (view s) id) as [c|] eqn:Hc; [|destruct (GetConsultationAnswer (view s) id) as [a|] eqn:Ha; [|eauto]].
  - destruct (creation _ _) as [b|]; [|eauto]. destruct (voting_cycles_total (nHeight b) (to_u64 (GetConsensusParameter dp (view s) CONSENSUS_PARAM_CONSULTATION_MAX_VOTING_CYCLES +
      GetConsensusParameter dp (view s) CONSENSUS_PARAM_CONSULTATION_REFLECTION_LENGTH + GetConsensusParameter dp (view s) CONSENSUS_PARAM_CONSULTATION_MAX_SUPPORT_CYCLES))) as [cy ->].
    cbn [mbind option_bind]. destruct (CConsultation_CanBeSupported index c); [rewrite Ht; cbn [mbind option_bind]; rewrite put_put_consultation|];
      (eexists; split; [done|]).
    + apply (step_inv_view _ (with_view s (put_consultation (view s) id (CConsultation.with_support c n)))); [done..|]. by apply (step_keep_consultation _ _ _ c).
    + by apply (step_keep_consultation _ _ _ c).
  - destruct (creation _ _) as [b|]; [|eauto]. destruct (CConsultationAnswer_CanBeSupported _ _ _); [rewrite Ht; cbn [mbind option_bind]; rewrite put_put_answer|];
      (eexists; split; [done|]).
    + apply (step_inv_view _ (with_view s (put_answer (view s) id (CConsultationAnswer.with_support a n)))); [done..|]. by apply (step_keep_answer _ _ _ a).
    + by apply (step_keep_answer _ _ _ a).
Qed.

Lemma write_consultation_votes_inv (K : Z) (tally : gmap (list Z * Z) Z) k s :
  is_Some (tally !! k) -> step_inv K s ->
  exists s', write_consultation_votes dp index newHeight false deleteHash nCycleLength fScanningWholeCycle tally k s = Some s' /\ step_inv K s'.
Proof.
  intros [n Ht] Hs. unfold write_consultation_votes. destruct k as [id vote].
  destruct (GetConsultation (view s) id) as [c|] eqn:Hc; [|destruct (GetConsultationAnswer (view s) id) as [a|] eqn:Ha; [|eauto]].
  - destruct (creation _ _) as [b|]; [|eauto].
    destruct (voting_cycles_total (nHeight b) (to_u64 (GetConsensusParameter dp (view s) CONSENSUS_PARAM_CONSULTATION_MAX_VOTING_CYCLES + 1))) as [cy ->].
    cbn [mbind option_bind]. destruct (_ && _); [rewrite Ht; cbn [mbind option_bind]|]; (eexists; split; [done|]).
    + set (vs := CConsultation.with_votes c _). apply (step_inv_view _ (with_view s (put_consultation (view s) id vs))); [|by case_match..|].
      * transitivity (put_consultation (put_consultation (view s) id c) id vs); [by case_match|apply put_put_consultation].
      * by apply (step_keep_consultation _ _ _ c).
    + by apply (step_keep_consultation _ _ _ c).
  - destruct (creation _ _) as [b|]; [|eauto]. destruct (CConsultationAnswer_CanBeVoted _ _ _); [rewrite Ht; cbn [mbind option_bind]; rewrite put_put_answer|];
      (eexists; split; [done|]).
    + apply (step_inv_view _ (with_view s (put_answer (view s) id (CConsultationAnswer.with_votes a n)))); [done..|]. by apply (step_keep_answer _ _ _ a).
    + by apply (step_keep_answer _ _ _ a).
Qed.

Lemma exclude_prequest_inv K n id s : step_inv K s -> exists s', exclude_prequest index n id s = Some s' /\ step_inv K s'.
Proof.
  intros Hs. unfold exclude_prequest. destruct (GetPaymentRequest (view s) id) as [r|] eqn:Hr; [|eauto]. eexists. split; [done|].
  destruct (CPaymentRequest_CanVote _ _ _) eqn:E; [|done]. apply (step_keep_prequest _ _ _ r); try done. right. eapply spent_NIL, CanVote_NIL, E.
Qed.
Lemma exclude_proposal_inv K n id s : step_inv K s -> exists s', exclude_proposal index n id s = Some s' /\ step_inv K s'.
Proof.
  intros Hs. unfold exclude_proposal. destruct (GetProposal (view s) id) as [p|] eqn:Hp; [|eauto]. eexists. split; [done|].
  destruct (CProposal_CanVote index p) eqn:E; [|done]. apply (step_keep_proposal _ _ _ p); try done. right. by apply CanVote_proposal.
Qed.
Lemma exclude_consultation_inv K n id s : step_inv K s -> exists s', exclude_consultation index n id s = Some s' /\ step_inv K s'.
Proof.
  intros Hs. unfold exclude_consultation. destruct (GetConsultation (view s) id) as [c|] eqn:Hc; [|eauto]. eexists. split; [done|].
  case_match; [|done]. by apply (step_keep_consultation _ _ _ c).
Qed.
Lemma exclude_answer_inv K n id s : step_inv K s -> exists s', exclude_answer index n id s = Some s' /\ step_inv K s'.
Proof.
  intros Hs. unfold exclude_answer. destruct (GetConsultationAnswer (view s) id) as [a|] eqn:Ha; [|eauto]. eexists. split; [done|].
  case_match; [|done]. by apply (step_keep_answer _ _ _ a).
Qed.

Lemma reset_prequest_inv K id s : step_inv K s -> exists s', reset_prequest index id s = Some s' /\ step_inv K s'.
Proof.
  intros Hs. unfold reset_prequest. destruct (GetPaymentRequest (view s) id) as [r|] eqn:Hr; [|eauto]. eexists. split; [done|].
  destruct (_ && _) eqn:E; [|done]. apply andb_true_iff in E as [_ E]. apply (step_keep_prequest _ _ _ r); try done. right. eapply spent_NIL, CanVote_NIL, E.
Qed.
Lemma reset_proposal_inv K id s : step_inv K s -> exists s', reset_proposal index id s = Some s' /\ step_inv K s'.
Proof.
  intros Hs. unfold reset_proposal. destruct (GetProposal (view s) id) as [p|] eqn:Hp; [|eauto]. eexists. split; [done|].
  destruct (_ && _) eqn:E; [|done]. apply andb_true_iff in E as [_ E]. apply (step_keep_proposal _ _ _ p); try done. right. by apply CanVote_proposal.
Qed.
Lemma reset_consultation_inv K id s : step_inv K s -> exists s', reset_consultation index id s = Some s' /\ step_inv K s'.
Proof.
  intros Hs. unfold reset_consultation. destruct (GetConsultation (view s) id) as [c|] eqn:Hc; [|eauto]. eexists. split; [done|].
  match goal with |- step_inv K ?t => apply (step_inv_view K (with_view s (view t))) end; [done|by repeat case_match..|].
  repeat case_match; by apply (step_keep_consultation _ s id c).
Qed.
Lemma reset_answer_inv K id s : step_inv K s -> exists s', reset_answer index id s = Some s' /\ step_inv K s'.
Proof.
  intros Hs. unfold reset_answer. destruct (GetConsultationAnswer (view s) id) as [a|] eqn:Ha; [|eauto]. case_match; [eauto|]. eexists. split; [done|].
  apply (step_keep_answer _ _ _ a); try done; by repeat case_match.
Qed.

(** ** The loops that advance the states *)

Hypothesis Hnew : index_entry index newHash = Some bn.
Hypothesis Hheight : nHeight bn = newHeight.
Hypothesis Hpos : 0 < newHeight.

Lemma last_state_set m s : states_below index newHash newHeight m -> last_state (SetState m newHash s) = s.
Proof. intros Hm. by apply (GetLastState_set index newHash newHeight m s bn). Qed.

Lemma end_of_cycle_total : exists e, end_of_cycle newHeight nCycleLength = Some e.
Proof. unfold end_of_cycle, u64_mod. destruct (Z.eqb_spec nCycleLength 0); [done|]. cbn. eauto. Qed.

(** A request that takes a state in which it is not granted. *)
Lemma set_prequest_state_inv K s id r st :
  step_inv K s -> GetPaymentRequest (view s) id = Some r -> spent_state (last_state (CPaymentRequest.mapState r)) = false -> spent_state st = false ->
  step_inv K (set_prequest_state newHash s id r st).
Proof.
  intros [H1 H2 H3 H4 H5 H6] Hr Hold Hst. pose proof Hr as Hr'. apply present_Some in Hr' as [Hl _]. pose proof (fi_below_r _ _ _ H1 id r Hl) as Hb.
  set (r' := CPaymentRequest.with_states r (SetState (CPaymentRequest.mapState r) newHash st)).
  assert (last_state (CPaymentRequest.mapState r') = st) as El by (by apply last_state_set).
  assert (spend_value r' = spend_value r) as Esv by (unfold spend_value; by rewrite El, Hold, Hst).
  destruct (fund_inv_prequest (view s) id r r' _ _ H1 Hr ltac:(done) Esv) as (HI & HT & HL); [by apply states_below_set|].
  split; cbn [view cfSupply cfLocked with_view set_prequest_state]; [done| |by apply (records_ok_prequest _ _ r)|fold r'; lia|done|].
  2: { intros Q. destruct (H6 Q) as [P1 P2]. split; [by apply (proposals_settled_ext (view s))|fold r'; lia]. }
  apply settled_prequest; [done|]. fold r'. rewrite El, Hst. done.
Qed.

Lemma judge_prequest_inv K s id r proposal :
  step_inv K s -> GetPaymentRequest (view s) id = Some r -> GetProposal (view s) (CPaymentRequest.proposalhash r) = Some proposal ->
  step_inv K (judge_prequest dp index newHash id r (last_state (CPaymentRequest.mapState r)) proposal s).
Proof.
  intros Hs Hr Hp. unfold judge_prequest. set (old := last_state (CPaymentRequest.mapState r)).
  destruct (CPaymentRequest_IsExpired dp index (view s) r) eqn:Ee.
  - case_bool_decide; [|done]. apply set_prequest_state_inv; try done. unfold CPaymentRequest_IsExpired in Ee. case_match; [|done].
    rewrite !andb_true_iff, !negb_true_iff in Ee. destruct Ee as [[[_ E1] _] E2]. unfold spent_state. by rewrite E1, E2.
  - destruct (CPaymentRequest_IsRejected dp (view s) r) eqn:Er.
    + case_bool_decide; [|done]. apply set_prequest_state_inv; try done. fold old. destruct (spent_state old) eqn:Es; [|done].
      by rewrite (si_settled _ _ Hs id r Hr Es) in Er.
    + case_bool_decide as Eold; [|done]. destruct (_ && _) eqn:Eacc; [|done]. apply andb_true_iff in Eacc as [Elk _].
      destruct (_ && _) eqn:Em; [|done]. apply andb_true_iff in Em as [_ Eav]. apply Z.leb_le in Eav.
      destruct Hs as [H1 H2 H3 H4 H5 H6]. rewrite GetAvailable_sum, (fi_key _ _ _ H1 _ _ Hp) in Eav.
      pose proof Hr as Hr'. apply present_Some in Hr' as [Hl _]. pose proof (fi_below_r _ _ _ H1 id r Hl) as Hb.
      set (r' := CPaymentRequest.with_states r (SetState (CPaymentRequest.mapState r) newHash ACCEPTED)).
      assert (last_state (CPaymentRequest.mapState r') = ACCEPTED) as El by (by apply last_state_set).
      destruct (fund_inv_grant (view s) id r r' proposal (cfSupply s) (cfLocked s) H1 Hr ltac:(done)) as (HI & HT & HL); try done.
      * unfold spend_value. fold old. by rewrite Eold.
      * unfold spend_value. by rewrite El.
      * by apply states_below_set.
      * split; cbn [view cfSupply cfLocked with_view with_funds set_prequest_state]; [done| |by apply (records_ok_prequest _ _ r)|fold r'; lia|done|].
        2: { intros Q. destruct (H6 Q) as [P1 P2]. split; [by apply (proposals_settled_ext (view s))|fold r'; lia]. }
        apply settled_prequest; [done|]. intros _. exact Er.
Qed.

Lemma advance_prequest_inv K id s :
  step_inv K s -> exists s', advance_prequest dp index newHash newHeight false deleteHash nCycleLength id s = Some s' /\ step_inv K s'.
Proof.
  intros Hs. unfold advance_prequest. destruct (GetPaymentRequest (view s) id) as [r|] eqn:Hr; [|eauto]. case_bool_decide as En; [eauto|].
  destruct (ro_created _ (si_records _ _ Hs) id r Hr) as [?|[b ->]]; [done|]. cbn [mbind option_bind].
  destruct (voting_cycles_total (nHeight b) (to_u64 (nCycleLength + 1))) as [cy ->]. cbn [mbind option_bind].
  destruct (GetProposal (view s) (CPaymentRequest.proposalhash r)) as [proposal|] eqn:Hp; [|eauto].
  destruct end_of_cycle_total as [e ->]. cbn [mbind option_bind]. eexists. split; [done|].
  set (r1 := if bool_decide _ then _ else _). set (s1 := with_view s _).
  assert (same_request r r1 /\ CPaymentRequest.mapState r1 = CPaymentRequest.mapState r /\ CPaymentRequest.IsNull r1 = CPaymentRequest.IsNull r) as (Hsame & Em & Enull)
    by (unfold r1; by case_match).
  assert (step_inv K s1) as Hs1.
  { apply (step_keep_prequest _ _ _ r); try done. unfold r1. case_bool_decide as E; [right; by rewrite E|by left]. }
  destruct e; [|done]. rewrite <- Em. apply judge_prequest_inv; [done| |].
  - apply present_Some in Hr as [_ Hn]. apply present_Some. cbn. rewrite lookup_insert_eq. by rewrite Enull.
  - destruct Hsame as (_ & -> & _). exact Hp.
Qed.

(** A proposal that takes a new state, with the money that goes with it. *)
Lemma set_proposal_state_inv K s id p st supply locked :
  step_inv K s -> GetProposal (view s) id = Some p -> supply + locked = cfSupply s + cfLocked s -> 0 <= supply ->
  cfLocked s - lock_value (vPaymentRequests (view s)) p +
    (if locked_state st then CProposal.nAmount p - spent index (vPaymentRequests (view s)) id else 0) <= locked ->
  (exact -> cfLocked s - lock_value (vPaymentRequests (view s)) p +
    (if locked_state st then CProposal.nAmount p - spent index (vPaymentRequests (view s)) id else 0) = locked /\
    (locked_state st = true -> CProposal_IsRejected dp (view s) p = false)) ->
  step_inv K (set_proposal_state newHash (with_funds s supply locked) id p st).
Proof.
  intros [H1 H2 H3 H4 H5 H6] Hp Hm Hsup Hl Hx. pose proof Hp as Hp'. apply present_Some in Hp' as [Hpl _].
  pose proof (fi_below_p _ _ _ H1 id p Hpl) as Hb. pose proof (fi_key _ _ _ H1 id p Hp) as Hk.
  split; cbn [view cfSupply cfLocked with_view with_funds set_proposal_state]; [|by apply (settled_ext (view s))|by destruct H3| |done|].
  - apply (fund_inv_proposal _ _ p _ (cfSupply s) (cfLocked s)); try done.
    + by apply states_below_set.
    + unfold lock_value at 2. cbn [CProposal.mapState CProposal.with_states CProposal.nAmount CProposal.hash].
      rewrite last_state_set by done. by rewrite Hk.
  - change (total_spent (put_proposal (view s) id (CProposal.with_states p (SetState (CProposal.mapState p) newHash st)))) with (total_spent (view s)). lia.
  - intros Q. destruct (H6 Q) as [P1 P2]. destruct (Hx Q) as [X1 X2]. split.
    + apply proposals_settled_put; [done|]. cbn [CProposal.mapState CProposal.with_states]. rewrite last_state_set by done. exact X2.
    + rewrite (locked_total_proposal _ _ p _ Hp). unfold lock_value at 2. cbn [CProposal.mapState CProposal.with_states CProposal.nAmount CProposal.hash].
      rewrite last_state_set, Hk by done. lia.
Qed.

(** A pending request keeps the money of its proposal locked. *)
Lemma pending_is_locked v id p supply locked :
  fund_inv v supply locked -> GetProposal v id = Some p -> CProposal_HasPendingPaymentRequests index v p = true ->
  locked_state (last_state (CProposal.mapState p)) = true.
Proof.
  intros HI Hp Hpend. apply existsb_exists in Hpend as (r & Hin & Hcan). apply list_elem_of_In in Hin.
  unfold requests_of in Hin. apply list_elem_of_filter in Hin as [Hph _]. unfold CPaymentRequest_CanVote in Hcan.
  rewrite Hph, (fi_key _ _ _ HI id p Hp), Hp in Hcan. rewrite !andb_true_iff in Hcan. by destruct Hcan as [_ Hl].
Qed.

Lemma judge_proposal_inv K s id p :
  step_inv K s -> GetProposal (view s) id = Some p ->
  step_inv K (judge_proposal dp index newHash newTime id p (last_state (CProposal.mapState p)) s).
Proof.
  intros Hs Hp. unfold judge_proposal. pose proof (si_fund _ _ Hs) as HI. rewrite GetAvailable_sum, (fi_key _ _ _ HI id p Hp).
  pose proof (fi_available _ _ _ HI id p Hp) as Hav. pose proof (fi_supply _ _ _ HI) as Hsup.
  set (avail := CProposal.nAmount p - _) in *. set (old := last_state (CProposal.mapState p)).
  pose proof Hp as Hp'. apply present_Some in Hp' as [Hpl _]. pose proof (lock_value_nonneg _ _ _ id p HI Hpl) as Hlv.
  assert (lock_value (vPaymentRequests (view s)) p = if locked_state old then avail else 0) as Elv
    by (unfold lock_value; fold old; by rewrite (fi_key _ _ _ HI id p Hp)).
  assert (exact -> locked_state old = true -> CProposal_IsRejected dp (view s) p = false) as Hset by (intros Q Hl; by apply (proj1 (si_exact _ _ Hs Q) id)).
  assert (forall st, (locked_state st = true -> locked_state old = true) -> (exact -> locked_state old = true -> locked_state st = true) -> step_inv K (set_proposal_state newHash s id p st)) as Hkeep.
  { intros st Hst Hst'. apply (step_inv_view _ (set_proposal_state newHash (with_funds s (cfSupply s) (cfLocked s)) id p st)); [done..|].
    apply set_proposal_state_inv; try done; fold avail; rewrite Elv in *.
    - destruct (locked_state st); [rewrite Hst by done; lia|]. lia.
    - intros Q. split; [|intros E; apply (Hset Q); auto]. destruct (locked_state st); [rewrite Hst by done; lia|]. destruct (locked_state old); [by discriminate (Hst' Q eq_refl)|lia]. }
  destruct (CProposal_IsExpired dp index newTime (view s) p).
  - case_bool_decide; [|done]. destruct (CProposal_HasPendingPaymentRequests index (view s) p) eqn:Epend.
    + apply Hkeep; [|done]. intros _. by apply (pending_is_locked (view s) id p _ _ HI).
    + fold (locked_state old). destruct (locked_state old) eqn:Elk; [|by apply Hkeep]. apply set_proposal_state_inv; try done; [lia..| |];
        rewrite Elv; change (locked_state EXPIRED) with false; cbv iota; [lia|]. intros _. split; [lia|done].
  - destruct (CProposal_IsRejected dp (view s) p) eqn:Erej; [case_bool_decide; [apply Hkeep; [done|]; intros Q Hl; by discriminate (Hset Q Hl)|done]|].
    destruct (CProposal_IsAccepted dp (view s) p); [|done]. destruct (_ || _) eqn:Eold; [|done].
    assert (locked_state old = false) as Elk by (apply orb_true_iff in Eold as [E|E]; apply bool_decide_eq_true in E; by rewrite E).
    destruct (Z.leb_spec avail (cfSupply s)).
    + apply set_proposal_state_inv; try done; [lia..| |]; fold avail; rewrite Elv, Elk; change (locked_state ACCEPTED) with true; cbv iota; [lia|]. intros _. split; [lia|done].
    + destruct (bool_decide (old <> PENDING_FUNDS)); [|done]. apply Hkeep; [done|]. intros _ E. by rewrite E in Elk.
Qed.

Lemma advance_proposal_inv K id s :
  step_inv K s -> exists s', advance_proposal dp index newHash newHeight newTime false deleteHash nCycleLength id s = Some s' /\ step_inv K s'.
Proof.
  intros Hs. unfold advance_proposal. destruct (GetProposal (view s) id) as [p|] eqn:Hp; [|eauto]. destruct (creation _ _) as [b|]; [|eauto].
  destruct (voting_cycles_total (nHeight b) (to_u64 (GetConsensusParameter dp (view s) CONSENSUS_PARAM_PROPOSAL_MAX_VOTING_CYCLES + 1))) as [cy ->].
  cbn [mbind option_bind]. destruct end_of_cycle_total as [e ->]. cbn [mbind option_bind]. eexists. split; [done|].
  set (p1 := if bool_decide _ then _ else _). set (s1 := with_view s _).
  assert (CProposal.nAmount p1 = CProposal.nAmount p /\ CProposal.hash p1 = CProposal.hash p /\ CProposal.mapState p1 = CProposal.mapState p /\
    CProposal.IsNull p1 = CProposal.IsNull p) as (Ea & Eh & Em & Enull) by (unfold p1; by case_match).
  assert (step_inv K s1) as Hs1.
  { apply (step_keep_proposal _ _ _ p); try done. unfold p1. case_bool_decide as E; [right; by rewrite E|by left]. }
  destruct e; [|done]. rewrite <- Em. apply judge_proposal_inv; [done|].
  apply present_Some in Hp as [_ Hn]. apply present_Some. cbn. rewrite lookup_insert_eq. by rewrite Enull.
Qed.

Lemma advance_answer_inv K id s :
  step_inv K s -> exists s', advance_answer dp index newHash newHeight false deleteHash nCycleLength id s = Some s' /\ step_inv K s'.
Proof.
  intros Hs. unfold advance_answer. destruct (GetConsultationAnswer (view s) id) as [a|] eqn:Ha; [|eauto]. destruct (creation _ _) as [b|]; [|eauto].
  destruct end_of_cycle_total as [[|] ->]; cbn [mbind option_bind]; [|eauto]. unfold judge_answer.
  set (a1 := if CConsultationAnswer_IsSupported dp (view s) a && _ then _ else _). set (s1 := with_view s (put_answer (view s) id a1)).
  assert (CConsultationAnswer.sAnswer a1 = CConsultationAnswer.sAnswer a /\ CConsultationAnswer.parent a1 = CConsultationAnswer.parent a) as [Es Ep]
    by (unfold a1; by case_match).
  assert (step_inv K s1) as Hs1 by (by apply (step_keep_answer _ _ _ a)).
  destruct (CConsultationAnswer_IsConsensusAccepted dp (view s1) a1 && _); [|eauto]. destruct (GetConsultation (view s1) (CConsultationAnswer.parent a1)) as [c|] eqn:Hc; [|eauto].
  destruct (CConsultation.IsAboutConsensusParameter c) eqn:Eab; [|eauto].
  assert (is_Some (stoll (CConsultationAnswer.sAnswer a1))) as [x ->].
  { rewrite Es. apply (ro_answer _ (si_records _ _ Hs) id a c Ha); [|done]. rewrite <- Ep. exact Hc. }
  cbn [mbind option_bind]. eexists. split; [done|].
  set (a2 := CConsultationAnswer.with_states a1 (SetState (CConsultationAnswer.mapState a1) newHash PASSED)).
  apply (step_inv_view _ (with_view s (put_answer (view s) id a2))); [apply put_put_answer|done..|].
  by apply (step_keep_answer _ _ _ a).
Qed.

Hypothesis Hlength : GetConsensusParameter dp {| vProposals := ∅; vPaymentRequests := ∅; vConsultations := ∅; vAnswers := ∅; vConsensus := parameters |}
  CONSENSUS_PARAM_VOTING_CYCLE_LENGTH = nCycleLength.

Lemma step_cycle_length K s : step_inv K s -> GetConsensusParameter dp (view s) CONSENSUS_PARAM_VOTING_CYCLE_LENGTH = nCycleLength.
Proof. intros Hs. rewrite <- Hlength. unfold GetConsensusParameter. by rewrite (si_parameters _ _ Hs). Qed.

Lemma consultation_move_total K s c old : step_inv K s -> exists m, consultation_move dp index newHeight (view s) c old = Some m.
Proof.
  intros Hs. unfold consultation_move, CConsultation_IsExpired, CConsultation_IsReflectionOver, elapsed_cycles, u64_div. rewrite (step_cycle_length K s Hs).
  destruct (Z.eqb_spec nCycleLength 0); [done|]. repeat (case_match; cbn [mbind option_bind]; eauto).
Qed.

Lemma advance_consultation_inv K id s :
  step_inv K s -> exists s', advance_consultation dp index newHash newHeight false deleteHash nCycleLength id s = Some s' /\ step_inv K s'.
Proof.
  intros Hs. unfold advance_consultation. destruct (GetConsultation (view s) id) as [c|] eqn:Hc; [|eauto]. destruct (creation _ _) as [b|]; [|eauto].
  destruct (voting_cycles_total (nHeight b) (to_u64 (GetConsensusParameter dp (view s) CONSENSUS_PARAM_CONSULTATION_MAX_VOTING_CYCLES + 1))) as [cy ->].
  cbn [mbind option_bind]. destruct end_of_cycle_total as [e ->]. cbn [mbind option_bind].
  set (c1 := if bool_decide (_ <> EXPIRED) && _ then _ else _). set (s1 := with_view s (put_consultation (view s) id c1)).
  assert (CConsultation.nVersion c1 = CConsultation.nVersion c) as Ev by (unfold c1; by case_match).
  assert (step_inv K s1) as Hs1 by (by apply (step_keep_consultation _ _ _ c)).
  destruct e; [|by eauto]. unfold judge_consultation. destruct (consultation_move_total K s1 c1 (last_state (CConsultation.mapState c)) Hs1) as [m ->].
  cbn [mbind option_bind]. eexists. split; [done|]. set (c2 := if _ && _ && _ && _ then _ else _).
  apply (step_inv_view _ (with_view s (put_consultation (view s) id c2))); [apply put_put_consultation|done..|].
  apply (step_keep_consultation _ _ _ c); try done. unfold c2. destruct m; repeat case_match; done.
Qed.

(** ** The whole step *)

(** What is left of the invariant when the parameters change: all of it when they are
    the old ones again. *)
Definition funds_kept (K : Z) (s : StepState) : Prop :=
  fund_inv (view s) (cfSupply s) (cfLocked s) /\ cfSupply s + cfLocked s + total_spent (view s) = K /\
  (exact -> cfLocked s = locked_total (view s) + slack) /\
  (vConsensus (view s) = parameters -> settled (view s) /\ (exact -> proposals_settled (view s))).

(** The parameters are all that differs. *)
Definition same_records (v v' : View) : Prop :=
  vProposals v' = vProposals v /\ vPaymentRequests v' = vPaymentRequests v /\ vConsultations v' = vConsultations v /\ vAnswers v' = vAnswers v.

Lemma funds_kept_records K s s' : step_inv K s -> same_records (view s) (view s') -> cfSupply s' = cfSupply s -> cfLocked s' = cfLocked s -> funds_kept K s'.
Proof.
  intros [H1 H2 H3 H4 H5 H6] (Ep & Er & _ & _) Es El. unfold funds_kept. rewrite Es, El. split; [by apply (fund_inv_ext (view s))|]. split; [unfold total_spent; by rewrite Er|]. split.
  - intros Q. destruct (H6 Q) as [_ ->]. unfold locked_total. by rewrite Ep, Er.
  - intros Ec. split; [apply (settled_ext (view s)); [congruence|congruence|done]|]. intros Q. destruct (H6 Q) as [P _]. apply (proposals_settled_ext (view s)); [congruence|congruence|done].
Qed.

Lemma write_parameter_inv m id s :
  id ∈ ordered_heights m -> m = mapConsensusToChange s ->
  exists s', write_parameter newHeight id s = Some s' /\ m = mapConsensusToChange s' /\ same_records (view s) (view s') /\ cfSupply s' = cfSupply s /\ cfLocked s' = cfLocked s.
Proof.
  intros Hid ->. unfold ordered_heights in Hid. rewrite merge_sort_Permutation, list_elem_of_fmap in Hid. destruct Hid as ([? x] & -> & Hx).
  apply elem_of_map_to_list in Hx. unfold write_parameter. cbn [fst]. rewrite Hx. cbn [mbind option_bind]. eexists. split; [done|]. done.
Qed.

Lemma fund_chain {A} (P Q : A -> Prop) (o : option A) (k : A -> option A) :
  (exists s, o = Some s /\ P s) -> (forall s, P s -> exists s', k s = Some s' /\ Q s') -> exists s', (o ≫= k) = Some s' /\ Q s'.
Proof. intros (s & -> & Hs) Hk. by apply Hk. Qed.

Lemma update_records_inv K fCFund fDAO c s :
  step_inv K s ->
  exists s', update_records dp index newHash newHeight newTime false deleteHash nCycleLength fScanningWholeCycle fCFund fDAO c s = Some s' /\ funds_kept K s'.
Proof.
  intros Hs. unfold update_records.
  assert (forall l f s, (forall x s, x ∈ l -> step_inv K s -> exists s', f x s = Some s' /\ step_inv K s') -> step_inv K s ->
    forall b, exists s', fund_loop b l f s = Some s' /\ step_inv K s') as Hloop by (intros; by apply fund_loop_total).
  eapply fund_chain; [apply Hloop; [intros; by apply write_proposal_votes_inv|done]|]. clear s Hs. intros s Hs.
  eapply fund_chain; [apply Hloop; [intros; by apply write_prequest_votes_inv|done]|]. clear s Hs. intros s Hs.
  eapply fund_chain; [apply Hloop; [intros; by apply write_support_inv|done]|]. clear s Hs. intros s Hs.
  eapply (fund_chain (step_inv K)).
  { destruct fDAO; [|by eauto]. apply for_each_in; [|done]. intros k s1 Hk Hs1. apply write_consultation_votes_inv; [|done].
    unfold ordered_pairs in Hk. rewrite merge_sort_Permutation, list_elem_of_fmap in Hk. destruct Hk as ([? x] & -> & Hx). apply elem_of_map_to_list in Hx. eauto. }
  clear s Hs. intros s Hs. cbv zeta. set (kp := all_keys CProposal.IsNull _). set (kr := all_keys CPaymentRequest.IsNull _).
  set (ka := all_keys CConsultationAnswer.IsNull _). set (kc := all_keys CConsultation.IsNull _). clearbody kp kr ka kc.
  eapply fund_chain; [apply Hloop; [intros; by apply exclude_prequest_inv|done]|]. clear s Hs. intros s Hs.
  eapply fund_chain; [apply Hloop; [intros; by apply exclude_proposal_inv|done]|]. clear s Hs. intros s Hs.
  eapply fund_chain; [apply Hloop; [intros; by apply exclude_consultation_inv|done]|]. clear s Hs. intros s Hs.
  eapply fund_chain; [apply Hloop; [intros; by apply exclude_answer_inv|done]|]. clear s Hs. intros s Hs.
  eapply fund_chain; [apply Hloop; [intros; by apply advance_prequest_inv|done]|]. clear s Hs. intros s Hs.
  eapply fund_chain; [apply Hloop; [intros; by apply advance_proposal_inv|done]|]. clear s Hs. intros s Hs.
  eapply fund_chain; [apply Hloop; [intros; by apply advance_answer_inv|done]|]. clear s Hs. intros s Hs.
  eapply fund_chain; [apply Hloop; [intros; by apply advance_consultation_inv|done]|]. clear s Hs. intros s Hs.
  eapply (fund_chain (step_inv K)).
  { destruct fScanningWholeCycle; [|by eauto].
    eapply fund_chain; [apply Hloop; [intros; by apply reset_prequest_inv|done]|]. clear s Hs. intros s Hs.
    eapply fund_chain; [apply Hloop; [intros; by apply reset_proposal_inv|done]|]. clear s Hs. intros s Hs.
    eapply fund_chain; [apply Hloop; [intros; by apply reset_consultation_inv|done]|]. clear s Hs. intros s Hs.
    apply Hloop; [intros; by apply reset_answer_inv|done]. }
  clear s Hs. intros s Hs.
  destruct (for_each_in (fun s' => mapConsensusToChange s = mapConsensusToChange s' /\ same_records (view s) (view s') /\ cfSupply s' = cfSupply s /\ cfLocked s' = cfLocked s)
    (write_parameter newHeight) (ordered_heights (mapConsensusToChange s)) s) as (s' & E & _ & Hsame & Es & El).
  - intros id s1 Hid (E1 & (? & ? & ? & ?) & ? & ?). destruct (write_parameter_inv (mapConsensusToChange s) id s1 Hid E1) as (s2 & -> & E2 & (? & ? & ? & ?) & ? & ?).
    exists s2. split; [done|]. split; [done|]. split; [|split; congruence]. unfold same_records. split_and!; congruence.
  - done.
  - exists s'. split; [done|]. by apply (funds_kept_records K s).
Qed.

End Fund.

(** ** Main results *)

(** C7. Connecting a block never takes money from the fund that is not there.  Assume
    that the locked part covers what the proposals in the states ACCEPTED and
    PENDING_VOTING_PREQ may still be paid, that no granted payment request would be
    rejected by its votes under the present parameters ([settled]), and that the
    records are well formed.  Then [VoteStep] returns, whatever the votes are; the
    locked part again covers what the proposals may still be paid, neither part is
    negative, and the free part, the locked part and the granted requests add up to
    the same sum.  If moreover no proposal with locked money would be rejected
    ([proposals_settled]), what the locked part exceeds the outstanding amounts by is
    unchanged: an exact book stays exact.  Both assumptions hold again behind the step
    unless it changes a consensus parameter. *)
Theorem community_fund_solvent params dp Hash bv index v g p b hash caches f1 c1 f2 c2 :
  tree_ok (entries index) -> (forall p b, entries index !! p = Some b -> is_Some (phashBlock b)) ->
  entries index !! p = Some b -> phashBlock b = Some hash -> mapBlockIndex index !! hash = Some p -> 0 < nHeight b < 2 ^ 31 - 1 ->
  IsCommunityFundEnabled (entries index) params (pprev b) caches = Some (f1, c1) ->
  IsDAOEnabled (entries index) params (pprev b) c1 = Some (f2, c2) ->
  0 < cycle_length dp v ->
  fund_inv index hash (nHeight b) v (nCFSupply b) (nCFLocked b) -> settled dp index v -> records_ok index v ->
  exists v' g' h' b',
    VoteStep params dp Hash bv index v g p false caches = Some (v', g', h', c2) /\ h' !! p = Some b' /\
    fund_inv index hash (nHeight b) v' (nCFSupply b') (nCFLocked b') /\ 0 <= nCFSupply b' /\ 0 <= nCFLocked b' /\
    nCFSupply b' + nCFLocked b' + total_spent index v' = nCFSupply b + nCFLocked b + total_spent index v /\
    (proposals_settled dp index v -> nCFLocked b' - locked_total index v' = nCFLocked b - locked_total index v) /\
    (vConsensus v' = vConsensus v -> settled dp index v' /\ (proposals_settled dp index v -> proposals_settled dp index v')).
Proof.
  intros Hok Hhash Hp Hb Hm Hh Hf1 Hf2 HL HI Hset Hrec. unfold VoteStep. cbn [step_block mbind option_bind]. rewrite Hp. cbn [mbind option_bind].
  unfold GetBlockHash. rewrite Hb. cbn [mbind option_bind]. rewrite Hf1. cbn [mbind option_bind]. rewrite Hf2. cbn [mbind option_bind].
  assert (exists c last whole, CountVotes dp Hash bv (entries index) v f1 f2 false p (tally_cache g) (lastConsensusStateHash g) = Some (c, last, whole)) as (c & last & whole & ->).
  { rewrite (CountVotes_cases _ _ _ _ _ _ _ _ _ _ _ b Hp) by (done || lia).
    assert (forall n c, is_Some (scan_blocks v bv f1 f2 n (entries index) (Some p) c)) as Hscan by (intros; apply scan_blocks_total; [done..|intros ? [= <-]; eauto]).
    destruct (_ || _ || _ || _); [destruct (Hscan (Z.to_nat (nHeight b mod cycle_length dp v + 1)) empty_cache) as [c E]; unfold cycle_tally; rewrite E|
      destruct (Hscan 1%nat (tally_cache g)) as [c E]; rewrite E]; cbn; eauto. }
  cbn [mbind option_bind].
  edestruct (update_records_inv dp index hash hash (nHeight b) (GetBlockTime b) (cycle_length dp v) whole b (vConsensus v)
      (proposals_settled dp index v) (nCFLocked b - locked_total index v) ltac:(lia))
    with (K := nCFSupply b + nCFLocked b + total_spent index v) (fCFund := f1) (fDAO := f2) (c := c) as (s' & Es' & HI' & HK & HX & HS);
    [unfold index_entry; rewrite Hm; exact Hp|done|lia|reflexivity| |].
  2: { unfold cycle_length in Es'. rewrite Es'. cbn [mbind option_bind]. eexists _, _, _, _. split; [done|]. split; [apply lookup_insert_eq|].
       cbn [nCFSupply nCFLocked set_funds]. split_and!; [done|apply (fi_supply _ _ _ _ _ _ HI')| |exact HK|intros Q; specialize (HX Q); lia|exact HS].
       pose proof (locked_total_nonneg _ _ _ _ _ _ HI'). pose proof (fi_locked _ _ _ _ _ _ HI'). lia. }
  split; cbn [view cfSupply cfLocked]; try done. intros Q. split; [done|lia].
Qed.

(** *** An example *)

Section Checker.
Variable dp : DaoParams.
Variable index : BlockTree.
Variable newHash : list Z.
Variable newHeight : Z.

Lemma map_forallb {A} (P : list Z -> A -> bool) (m : gmap (list Z) A) k x :
  forallb (fun '(k, x) => P k x) (map_to_list m) = true -> m !! k = Some x -> P k x = true.
Proof. rewrite forallb_forall. intros H Hk. apply (H (k, x)). by rewrite <- list_elem_of_In, elem_of_map_to_list. Qed.

Definition states_belowb (m : gmap (list Z) flags) : bool :=
  forallb (fun '(k, _) => bool_decide (k = newHash) || match index_entry index k with Some c => nHeight c <? newHeight | None => true end) (map_to_list m).

Lemma states_belowb_sound m : states_belowb m = true -> states_below index newHash newHeight m.
Proof.
  intros H k s Hk Hne c Hc. pose proof (map_forallb (fun k (_ : flags) => bool_decide (k = newHash) || match index_entry index k with Some c => nHeight c <? newHeight | None => true end) m k s H Hk) as H'.
  cbn beta in H'. rewrite Hc, bool_decide_false in H' by done. by apply Z.ltb_lt.
Qed.

(** A decision procedure for the hypotheses, for views whose records are not null. *)
Definition fund_okb (v : View) (supply locked : Z) : bool :=
  forallb (fun '(id, p) => bool_decide (CProposal.hash p = id) && (0 <=? CProposal.nAmount p - spent index (vPaymentRequests v) id) &&
                           states_belowb (CProposal.mapState p)) (map_to_list (vProposals v)) &&
  forallb (fun '(id, r) => (0 <=? CPaymentRequest.nAmount r) && states_belowb (CPaymentRequest.mapState r) &&
                           negb (CPaymentRequest_IsRejected dp v r) && bool_decide (is_Some (prequest_creation index r))) (map_to_list (vPaymentRequests v)) &&
  (0 <=? supply) && (locked_total index v <=? locked) && bool_decide (vAnswers v = ∅).

Lemma fund_okb_sound v supply locked :
  fund_okb v supply locked = true -> fund_inv index newHash newHeight v supply locked /\ settled dp index v /\ records_ok index v.
Proof.
  unfold fund_okb. rewrite !andb_true_iff. intros [[[[Hp Hr] Hs] Hl] Ha]. apply bool_decide_eq_true in Ha.
  assert (forall id p, vProposals v !! id = Some p -> CProposal.hash p = id /\ 0 <= CProposal.nAmount p - spent index (vPaymentRequests v) id /\
    states_below index newHash newHeight (CProposal.mapState p)) as HP.
  { intros id p H. apply (map_forallb (fun id p => bool_decide (CProposal.hash p = id) && (0 <=? CProposal.nAmount p - spent index (vPaymentRequests v) id) &&
      states_belowb (CProposal.mapState p)) _ id p Hp) in H. rewrite !andb_true_iff in H. destruct H as [[H1 H2] H3].
    split_and!; [by apply bool_decide_eq_true in H1|lia|by apply states_belowb_sound]. }
  assert (forall id r, vPaymentRequests v !! id = Some r -> 0 <= CPaymentRequest.nAmount r /\ states_below index newHash newHeight (CPaymentRequest.mapState r) /\
    CPaymentRequest_IsRejected dp v r = false /\ is_Some (prequest_creation index r)) as HR.
  { intros id r H. apply (map_forallb (fun _ r => (0 <=? CPaymentRequest.nAmount r) && states_belowb (CPaymentRequest.mapState r) &&
      negb (CPaymentRequest_IsRejected dp v r) && bool_decide (is_Some (prequest_creation index r))) _ id r Hr) in H. rewrite !andb_true_iff in H.
    destruct H as [[[H1 H2] H3] H4]. split_and!; [lia|by apply states_belowb_sound|by apply negb_true_iff|by apply bool_decide_eq_true in H4]. }
  split_and!.
  - split; try lia.
    + intros id p H. apply present_Some in H as [H _]. by apply HP.
    + intros id p H. apply present_Some in H as [H _]. by apply HP.
    + intros id r H. by apply (HR id).
    + intros id p H. by apply (HP id).
    + intros id r H. by apply (HR id).
  - intros id r H _. apply present_Some in H as [H _]. by apply (HR id).
  - split.
    + intros id r H. apply present_Some in H as [H _]. right. by apply (HR id).
    + intros id a c H. apply present_Some in H as [H _]. by rewrite Ha in H.
Qed.

Lemma proposals_settledb_sound v : forallb (fun '(_, p) => negb (CProposal_IsRejected dp v p)) (map_to_list (vProposals v)) = true -> proposals_settled dp index v.
Proof.
  intros H id p Hp _. apply present_Some in Hp as [Hp _]. apply (map_forallb (fun _ p => negb (CProposal_IsRejected dp v p)) _ id p H) in Hp. by apply negb_true_iff.
Qed.

End Checker.

(** Block 19 ends a cycle of four blocks.  The proposal [[77]] over 50 is voted
    for; 40 are locked for the proposal [[88]], and its request [[99]] over 15 is
    voted for. *)
Definition demo_fund_heap : heap := <[19%nat := set_funds (entry_at demo_blocks 19) 100 40]> demo_blocks.
Definition demo_fund_index : BlockTree := {|
  entries := demo_fund_heap; mapBlockIndex := list_to_map ((fun i => ([Z.of_nat i], i)) <$> seq 0 20);
  pindexBestHeader := Some 19%nat; setDirtyBlockIndex := ∅ |}.
Definition demo_proposal (id amount : Z) (states : gmap (list Z) flags) : CProposal.t := {|
  CProposal.nAmount := amount; CProposal.nFee := 1; CProposal.ownerAddress := [65]; CProposal.paymentAddress := []; CProposal.nDeadline := 1000;
  CProposal.mapState := states; CProposal.nVotesYes := 0; CProposal.nVotesNo := 0; CProposal.nVotesAbs := 0; CProposal.nExclude := 0;
  CProposal.strDZeel := [66]; CProposal.hash := [id]; CProposal.txblockhash := [1]; CProposal.nVersion := 2; CProposal.nVotingCycle := 0 |}.
Definition demo_request : CPaymentRequest.t := {|
  CPaymentRequest.nAmount := 15; CPaymentRequest.mapState := ∅; CPaymentRequest.hash := [99]; CPaymentRequest.proposalhash := [88];
  CPaymentRequest.txblockhash := [5]; CPaymentRequest.nVotesYes := 0; CPaymentRequest.nVotesNo := 0; CPaymentRequest.nVotesAbs := 0;
  CPaymentRequest.nExclude := 0; CPaymentRequest.strDZeel := [66]; CPaymentRequest.nVersion := 2; CPaymentRequest.nVotingCycle := 0 |}.
Definition demo_fund_view : View := {|
  vProposals := {[ [77] := demo_proposal 77 50 ∅; [88] := demo_proposal 88 40 {[ [3] := ACCEPTED ]} ]};
  vPaymentRequests := {[ [99] := demo_request ]}; vConsultations := ∅; vAnswers := ∅; vConsensus := ∅ |}.
Definition demo_fund_votes : BlockVotes := {|
  vProposalVotes := {[ [16] := [([77], 1)]; [17] := [([77], 1)]; [19] := [([77], 1)] ]};
  vPaymentRequestVotes := {[ [16] := [([99], 1)]; [18] := [([99], 1)]; [19] := [([99], 1); ([99], 0)] ]};
  mapSupport := ∅; mapConsultationVotes := ∅ |}.
Definition demo_globals : DaoGlobals := {| tally_cache := empty_cache; lastConsensusStateHash := [] |}.

(** The states of the version bits after both questions of the step. *)
Definition demo_caches : VersionBitsCache := fun pos =>
  default ∅ (snd <$> GetStateFor demo_fund_heap (VersionBitsConditionChecker demo_params pos) (Some 18%nat) ∅).

Definition demo_caches_cf : VersionBitsCache := VersionBitsCache_set VersionBitsCache_Clear DEPLOYMENT_COMMUNITYFUND (demo_caches DEPLOYMENT_COMMUNITYFUND).
Definition demo_caches_dao : VersionBitsCache := VersionBitsCache_set demo_caches_cf DEPLOYMENT_CONSULTATIONS (demo_caches DEPLOYMENT_CONSULTATIONS).

Lemma demo_fund_index_hashes p b : entries demo_fund_index !! p = Some b -> is_Some (phashBlock b).
Proof.
  intros Hp. apply (heap_forallb (fun _ b => bool_decide (is_Some (phashBlock b)))) in Hp; [by apply bool_decide_eq_true in Hp|vm_compute; reflexivity].
Qed.

Lemma demo_cf_enabled : IsCommunityFundEnabled demo_fund_heap demo_params (Some 18%nat) VersionBitsCache_Clear = Some (true, demo_caches_cf).
Proof.
  unfold IsCommunityFundEnabled, deployment_active, cbind, VersionBitsState.
  assert (exists s c, GetStateFor demo_fund_heap (VersionBitsConditionChecker demo_params DEPLOYMENT_COMMUNITYFUND) (Some 18%nat) ∅ = Some (s, c) /\ s = THRESHOLD_ACTIVE) as (s & c & E & ->)
    by (eexists _, _; split; vm_compute; reflexivity).
  unfold demo_caches_cf, demo_caches. rewrite E. change (VersionBitsCache_Clear DEPLOYMENT_COMMUNITYFUND) with (∅ : ThresholdConditionCache). rewrite E. reflexivity.
Qed.

Lemma demo_dao_enabled : IsDAOEnabled demo_fund_heap demo_params (Some 18%nat) demo_caches_cf = Some (true, demo_caches_dao).
Proof.
  unfold IsDAOEnabled, deployment_active, cbind, VersionBitsState.
  assert (exists s c, GetStateFor demo_fund_heap (VersionBitsConditionChecker demo_params DEPLOYMENT_CONSULTATIONS) (Some 18%nat) ∅ = Some (s, c) /\ s = THRESHOLD_ACTIVE) as (s & c & E & ->)
    by (eexists _, _; split; vm_compute; reflexivity).
  unfold demo_caches_dao, demo_caches. rewrite E. change (demo_caches_cf DEPLOYMENT_CONSULTATIONS) with (∅ : ThresholdConditionCache). rewrite E. reflexivity.
Qed.

(** The proposal is accepted and the request granted: 50 of 100 are free, 75 locked
    and 15 granted. *)
Lemma community_fund_solvent_witness :
  exists v' g' h' b',
    VoteStep demo_params demo_dao_params id demo_fund_votes demo_fund_index demo_fund_view demo_globals 19 false VersionBitsCache_Clear = Some (v', g', h', demo_caches_dao) /\
    h' !! 19%nat = Some b' /\ fund_inv demo_fund_index [19] 19 v' (nCFSupply b') (nCFLocked b') /\
    nCFSupply b' + nCFLocked b' + total_spent demo_fund_index v' = 140 /\ nCFLocked b' = locked_total demo_fund_index v'.
Proof.
  destruct (fund_okb_sound demo_dao_params demo_fund_index [19] 19 demo_fund_view 100 40) as (H1 & H2 & H3); [vm_compute; reflexivity|].
  destruct (community_fund_solvent demo_params demo_dao_params id demo_fund_votes demo_fund_index demo_fund_view demo_globals 19
    (entry_at demo_fund_heap 19) [19] VersionBitsCache_Clear true demo_caches_cf true demo_caches_dao) as (v' & g' & h' & b' & E & Hb & HI & _ & _ & HK & HX & _).
  - apply tree_okb_sound. vm_compute. reflexivity.
  - exact demo_fund_index_hashes.
  - vm_compute. reflexivity.
  - vm_compute. reflexivity.
  - vm_compute. reflexivity.
  - vm_compute. split; reflexivity.
  - exact demo_cf_enabled.
  - exact demo_dao_enabled.
  - vm_compute. reflexivity.
  - exact H1.
  - exact H2.
  - exact H3.
  - exists v', g', h', b'. split; [exact E|]. split; [exact Hb|]. split; [exact HI|]. split; [rewrite HK; vm_compute; reflexivity|].
    assert (nCFLocked b' - locked_total demo_fund_index v' = 0) as E0; [|lia]. rewrite HX; [vm_compute; reflexivity|]. exact (proposals_settledb_sound demo_dao_params demo_fund_index demo_fund_view ltac:(vm_compute; reflexivity)).
Defined.

(** The same run, evaluated. *)
Example demo_fund_run :
  (fun r => let '(v, _, h, _) := r in (GetLastState demo_fund_index (CProposal.mapState (default CProposal.SetNull (vProposals v !! [77]))),
     GetLastState demo_fund_index (CPaymentRequest.mapState (default CPaymentRequest.SetNull (vPaymentRequests v !! [99]))),
     nCFSupply (entry_at h 19), nCFLocked (entry_at h 19))) <$>
  VoteStep demo_params demo_dao_params id demo_fund_votes demo_fund_index demo_fund_view demo_globals 19 false VersionBitsCache_Clear =
  Some (ACCEPTED, ACCEPTED, 50, 75).
Proof. vm_compute. reflexivity. Qed.
