(* ===== verification/VoteStates.v ===== *)
(** * The states of proposals, requests, consultations and answers

    How [VoteStep] moves the records between their states: which loops touch which
    records, the steps that a state can take, and that undoing a block takes back
    the states the block set. *)

From Stdlib Require Import ZArith Lia.
From stdpp Require Import base tactics numbers list gmap sorting.
From S2P Require Import Prelude SphTypes ArithUint Blob Chain ConsensusParams BlockIndex VersionBits BlockVersion Dao DaoFacts VoteTally VoteStep VoteFund.

(** ** Loops *)

(** A loop that visits every record of a list once. *)
Lemma for_each_visits {B S} (rec : list Z -> S -> B) (T : list Z -> B -> B -> Prop) (f : list Z -> S -> option S) l s s' :
  NoDup l -> for_each f l s = Some s' ->
  (forall x s s', x ∈ l -> f x s = Some s' -> (forall y, y <> x -> rec y s' = rec y s) /\ T x (rec x s) (rec x s')) ->
  forall y, ((y ∈ l) /\ T y (rec y s) (rec y s')) \/ ((y ∉ l) /\ (rec y s' = rec y s)).
Proof.
  intros Hnd. revert s. induction Hnd as [|x l Hx Hnd IH]; intros s Hrun Hf y; cbn [for_each] in Hrun.
  - injection Hrun as <-. right. split; [apply not_elem_of_nil|done].
  - destruct (f x s) as [s1|] eqn:E; [|done]. cbn [mbind option_bind] in Hrun. destruct (Hf x s s1 ltac:(constructor) E) as [Hne HT].
    assert (forall z s s', z ∈ l -> f z s = Some s' -> (forall y, y <> z -> rec y s' = rec y s) /\ T z (rec z s) (rec z s')) as Hf'
      by (intros z t t' Hz; apply Hf; by constructor).
    destruct (IH s1 Hrun Hf' y) as [[Hy HTy]|[Hy Ey]].
    + left. split; [by constructor|]. rewrite <- (Hne y); [done|]. by intros ->.
    + destruct (decide (y = x)) as [->|Exy].
      * left. split; [constructor|]. by rewrite Ey.
      * right. split; [|by rewrite Ey, Hne]. intros Hin. apply elem_of_cons in Hin as [->|?]; done.
Qed.

Lemma for_each_rel {A S} (R : S -> S -> Prop) `{!Reflexive R} `{!Transitive R} (f : A -> S -> option S) l s s' :
  (forall x s s', f x s = Some s' -> R s s') -> for_each f l s = Some s' -> R s s'.
Proof.
  intros Hf. revert s. induction l as [|x l IH]; intros s Hrun; cbn [for_each] in Hrun; [by injection Hrun as <-|].
  destruct (f x s) as [s1|] eqn:E; [|done]. etrans; [by eapply Hf|by apply IH].
Qed.

(** ** Writes that keep the states *)

(** The fields that no step changes. *)
Definition p_fixed (p : CProposal.t) := (CProposal.txblockhash p, CProposal.hash p, CProposal.strDZeel p, CProposal.nVersion p).
Definition r_fixed (r : CPaymentRequest.t) := (CPaymentRequest.txblockhash r, CPaymentRequest.proposalhash r, CPaymentRequest.strDZeel r).
Definition c_fixed (c : CConsultation.t) := (CConsultation.txblockhash c, CConsultation.hash c).
Definition a_fixed (a : CConsultationAnswer.t) := (CConsultationAnswer.txblockhash a, CConsultationAnswer.hash a).

Section Kept.
Variable fUndo : bool.
Variable deleteHash : list Z.

(** A write keeps the states, or clears that of the block which is undone. *)
Definition kept_state (m m' : gmap (list Z) flags) : Prop := m' = m \/ (fUndo = true /\ m' = ClearState m deleteHash).

Definition kept_p p p' := p_fixed p' = p_fixed p /\ kept_state (CProposal.mapState p) (CProposal.mapState p').
Definition kept_r r r' := r_fixed r' = r_fixed r /\ kept_state (CPaymentRequest.mapState r) (CPaymentRequest.mapState r').
Definition kept_c c c' := c_fixed c' = c_fixed c /\ kept_state (CConsultation.mapState c) (CConsultation.mapState c').
Definition kept_a a a' := a_fixed a' = a_fixed a /\ kept_state (CConsultationAnswer.mapState a) (CConsultationAnswer.mapState a').

#[export] Instance kept_state_refl : Reflexive kept_state.
Proof. intros m. by left. Qed.
#[export] Instance kept_state_trans : Transitive kept_state.
Proof.
  intros m1 m2 m3 [->|[Hu ->]] [->|[Hu' ->]]; [by left|by right..|right]. split; [done|]. unfold ClearState. by rewrite delete_delete_eq.
Qed.

Record kept (v v' : View) : Prop := {
  kept_proposals : forall id, option_Forall2 kept_p (vProposals v !! id) (vProposals v' !! id);
  kept_prequests : forall id, option_Forall2 kept_r (vPaymentRequests v !! id) (vPaymentRequests v' !! id);
  kept_consultations : forall id, option_Forall2 kept_c (vConsultations v !! id) (vConsultations v' !! id);
  kept_answers : forall id, option_Forall2 kept_a (vAnswers v !! id) (vAnswers v' !! id)
}.

#[export] Instance kept_p_refl : Reflexive kept_p. Proof. by intros ?. Qed.
#[export] Instance kept_r_refl : Reflexive kept_r. Proof. by intros ?. Qed.
#[export] Instance kept_c_refl : Reflexive kept_c. Proof. by intros ?. Qed.
#[export] Instance kept_a_refl : Reflexive kept_a. Proof. by intros ?. Qed.
#[export] Instance kept_p_trans : Transitive kept_p. Proof. intros ? ? ? [E1 H1] [E2 H2]. split; [congruence|by etrans]. Qed.
#[export] Instance kept_r_trans : Transitive kept_r. Proof. intros ? ? ? [E1 H1] [E2 H2]. split; [congruence|by etrans]. Qed.
#[export] Instance kept_c_trans : Transitive kept_c. Proof. intros ? ? ? [E1 H1] [E2 H2]. split; [congruence|by etrans]. Qed.
#[export] Instance kept_a_trans : Transitive kept_a. Proof. intros ? ? ? [E1 H1] [E2 H2]. split; [congruence|by etrans]. Qed.
#[export] Instance kept_refl : Reflexive kept.
Proof. intros v. split; intros id; reflexivity. Qed.
#[export] Instance kept_trans : Transitive kept.
Proof. intros v1 v2 v3 [A1 A2 A3 A4] [B1 B2 B3 B4]. split; intros id; (etrans; [apply A1 || apply A2 || apply A3 || apply A4|apply B1 || apply B2 || apply B3 || apply B4]). Qed.

Lemma option_Forall2_put {A} (R : A -> A -> Prop) `{!Reflexive R} (m : gmap (list Z) A) id x x' :
  m !! id = Some x -> R x x' -> forall k, option_Forall2 R (m !! k) (<[id := x']> m !! k).
Proof.
  intros Hx Hr k. destruct (decide (id = k)) as [->|Hne]; [rewrite Hx, lookup_insert_eq; by constructor|]. by rewrite lookup_insert_ne.
Qed.

Lemma kept_put_proposal v id p p' : GetProposal v id = Some p -> kept_p p p' -> kept v (put_proposal v id p').
Proof. intros Hp Hk. apply present_Some in Hp as [Hp _]. split; cbn; try done. by apply (option_Forall2_put _ _ _ p). Qed.
Lemma kept_put_prequest v id r r' : GetPaymentRequest v id = Some r -> kept_r r r' -> kept v (put_prequest v id r').
Proof. intros Hp Hk. apply present_Some in Hp as [Hp _]. split; cbn; try done. by apply (option_Forall2_put _ _ _ r). Qed.
Lemma kept_put_consultation v id c c' : GetConsultation v id = Some c -> kept_c c c' -> kept v (put_consultation v id c').
Proof. intros Hp Hk. apply present_Some in Hp as [Hp _]. split; cbn; try done. by apply (option_Forall2_put _ _ _ c). Qed.
Lemma kept_put_answer v id a a' : GetConsultationAnswer v id = Some a -> kept_a a a' -> kept v (put_answer v id a').
Proof. intros Hp Hk. apply present_Some in Hp as [Hp _]. split; cbn; try done. by apply (option_Forall2_put _ _ _ a). Qed.

End Kept.

Section Step.
Variable dp : DaoParams.
Variable index : BlockTree.
Variable newHash : list Z.
Variable newHeight newTime : Z.
Variable fUndo : bool.
Variable deleteHash : list Z.
Variable nCycleLength : Z.
Variable fScanningWholeCycle : bool.

Abbreviation last_state := (GetLastState index).
Abbreviation keeps s s' := (kept fUndo deleteHash (view s) (view s')).

(** What undoing does to a record. *)
Lemma undo_proposal_kept p n :
  p_fixed (undo_proposal index deleteHash p n) = p_fixed p /\ CProposal.mapState (undo_proposal index deleteHash p n) = ClearState (CProposal.mapState p) deleteHash.
Proof. unfold undo_proposal. by case_match. Qed.
Lemma undo_prequest_kept r n :
  r_fixed (undo_prequest index deleteHash r n) = r_fixed r /\ CPaymentRequest.mapState (undo_prequest index deleteHash r n) = ClearState (CPaymentRequest.mapState r) deleteHash.
Proof. unfold undo_prequest. by case_match. Qed.
Lemma undo_consultation_kept c n :
  c_fixed (undo_consultation index deleteHash c n) = c_fixed c /\ CConsultation.mapState (undo_consultation index deleteHash c n) = ClearState (CConsultation.mapState c) deleteHash.
Proof. unfold undo_consultation. by case_match. Qed.

Lemma kept_undo_proposal p n : kept_p fUndo deleteHash p (if fUndo then undo_proposal index deleteHash p n else p).
Proof. destruct fUndo; [|by split; [|left]]. destruct (undo_proposal_kept p n) as [H1 H2]. split; [done|]. right. by rewrite H2. Qed.
Lemma kept_undo_prequest r n : kept_r fUndo deleteHash r (if fUndo then undo_prequest index deleteHash r n else r).
Proof. destruct fUndo; [|by split; [|left]]. destruct (undo_prequest_kept r n) as [H1 H2]. split; [done|]. right. by rewrite H2. Qed.
Lemma kept_undo_consultation c n : kept_c fUndo deleteHash c (if fUndo then undo_consultation index deleteHash c n else c).
Proof. destruct fUndo; [|by split; [|left]]. destruct (undo_consultation_kept c n) as [H1 H2]. split; [done|]. right. by rewrite H2. Qed.
Lemma kept_undo_answer a : kept_a fUndo deleteHash a (if fUndo then undo_answer deleteHash a else a).
Proof. destruct fUndo; [|by split; [|left]]. split; [done|]. by right. Qed.

(** ** The loops that write votes and counters *)

(** Runs a body: every branch of it, until the equation gives the result. *)
Ltac run H :=
  repeat (first [ progress cbn [mbind option_bind] in H
                | match type of H with (?o ≫= _) = _ => destruct o eqn:? end
                | match type of H with context [match ?x with _ => _ end] => destruct x eqn:? end
                ]);
  first [discriminate H | injection H as <-].

Lemma write_proposal_votes_kept tally id s s' :
  write_proposal_votes dp index newHeight fUndo deleteHash nCycleLength tally id s = Some s' -> keeps s s'.
Proof.
  unfold write_proposal_votes. destruct (GetProposal (view s) id) as [p|] eqn:Hp; [|by intros [= <-]]. destruct (creation _ _); [|by intros [= <-]].
  destruct (voting_cycles _ _ _ _) as [n|]; [|done]. cbn [mbind option_bind]. pose proof (kept_undo_proposal p n) as Hk. set (p1 := if fUndo then _ else p) in *.
  destruct (CProposal_CanVote index p1); [destruct (tally !! id) as [[[y no] a]|]; [|done]; cbn [mbind option_bind]|]; intros [= <-]; cbn [view with_view saw].
  - rewrite put_put_proposal. apply (kept_put_proposal _ _ _ _ p); [done|]. etrans; [exact Hk|]. by split; [|left].
  - by apply (kept_put_proposal _ _ _ _ p).
Qed.

Lemma write_prequest_votes_kept tally id s s' :
  write_prequest_votes dp index newHeight fUndo deleteHash nCycleLength tally id s = Some s' -> keeps s s'.
Proof.
  unfold write_prequest_votes. destruct (GetPaymentRequest (view s) id) as [r|] eqn:Hr; [|by intros [= <-]]. case_bool_decide; [by intros [= <-]|].
  destruct (prequest_creation index r) as [b|]; [|done]. cbn [mbind option_bind].
  destruct (voting_cycles _ _ _ _) as [n|]; [|done]. cbn [mbind option_bind]. pose proof (kept_undo_prequest r n) as Hk. set (r1 := if fUndo then _ else r) in *.
  destruct (CPaymentRequest_CanVote _ _ r1); [destruct (tally !! id) as [[[y no] a]|]; [|done]; cbn [mbind option_bind]|]; intros [= <-]; cbn [view with_view saw].
  - rewrite put_put_prequest. apply (kept_put_prequest _ _ _ _ r); [done|]. etrans; [exact Hk|]. by split; [|left].
  - by apply (kept_put_prequest _ _ _ _ r).
Qed.

Lemma write_support_kept tally id s s' :
  write_support dp index newHeight fUndo deleteHash nCycleLength tally id s = Some s' -> keeps s s'.
Proof.
  unfold write_support. destruct (GetConsultation (view s) id) as [c|] eqn:Hc; [|destruct (GetConsultationAnswer (view s) id) as [a|] eqn:Ha; [|by intros [= <-]]].
  - destruct (creation _ _); [|by intros [= <-]]. destruct (voting_cycles _ _ _ _) as [n|]; [|done]. cbn [mbind option_bind].
    pose proof (kept_undo_consultation c n) as Hk. set (c1 := if fUndo then _ else c) in *.
    destruct (CConsultation_CanBeSupported index c1); [destruct (tally !! id); [|done]; cbn [mbind option_bind]|]; intros [= <-]; cbn [view with_view saw_support].
    + rewrite put_put_consultation. apply (kept_put_consultation _ _ _ _ c); [done|]. etrans; [exact Hk|]. by split; [|left].
    + by apply (kept_put_consultation _ _ _ _ c).
  - destruct (creation _ _); [|by intros [= <-]]. pose proof (kept_undo_answer a) as Hk. set (a1 := if fUndo then _ else a) in *.
    destruct (CConsultationAnswer_CanBeSupported _ _ a1); [destruct (tally !! id); [|done]; cbn [mbind option_bind]|]; intros [= <-]; cbn [view with_view saw_support].
    + rewrite put_put_answer. apply (kept_put_answer _ _ _ _ a); [done|]. etrans; [exact Hk|]. by split; [|left].
    + by apply (kept_put_answer _ _ _ _ a).
Qed.

Lemma write_consultation_votes_kept tally k s s' :
  write_consultation_votes dp index newHeight fUndo deleteHash nCycleLength fScanningWholeCycle tally k s = Some s' -> keeps s s'.
Proof.
  unfold write_consultation_votes. destruct k as [id vote].
  destruct (GetConsultation (view s) id) as [c|] eqn:Hc; [|destruct (GetConsultationAnswer (view s) id) as [a|] eqn:Ha; [|by intros [= <-]]].
  - destruct (creation _ _); [|by intros [= <-]]. destruct (voting_cycles _ _ _ _) as [n|]; [|done]. cbn [mbind option_bind].
    pose proof (kept_undo_consultation c n) as Hk. set (c1 := if fUndo then _ else c) in *.
    destruct (_ && _); [destruct (tally !! (id, vote)); [|done]; cbn [mbind option_bind]|]; intros [= <-].
    + set (c2 := CConsultation.with_votes c1 _).
      match goal with |- kept _ _ _ ?v => assert (v = put_consultation (put_consultation (view s) id c1) id c2) as -> by (by case_match) end.
      rewrite put_put_consultation. apply (kept_put_consultation _ _ _ _ c); [done|]. etrans; [exact Hk|]. by split; [|left].
    + by apply (kept_put_consultation _ _ _ _ c).
  - destruct (creation _ _); [|by intros [= <-]]. pose proof (kept_undo_answer a) as Hk. set (a1 := if fUndo then _ else a) in *.
    destruct (CConsultationAnswer_CanBeVoted _ _ a1); [destruct (tally !! (id, vote)); [|done]; cbn [mbind option_bind]|]; intros [= <-]; cbn [view with_view saw].
    + rewrite put_put_answer. apply (kept_put_answer _ _ _ _ a); [done|]. etrans; [exact Hk|]. by split; [|left].
    + by apply (kept_put_answer _ _ _ _ a).
Qed.

Lemma exclude_kept n id s s' :
  exclude_prequest index n id s = Some s' \/ exclude_proposal index n id s = Some s' \/
  exclude_consultation index n id s = Some s' \/ exclude_answer index n id s = Some s' -> keeps s s'.
Proof.
  unfold exclude_prequest, exclude_proposal, exclude_consultation, exclude_answer. intros [H|[H|[H|H]]]; run H; try done.
  - eapply kept_put_prequest; [done|]. by split; [|left].
  - eapply kept_put_proposal; [done|]. by split; [|left].
  - eapply kept_put_consultation; [done|]. by split; [|left].
  - eapply kept_put_answer; [done|]. by split; [|left].
Qed.

Lemma reset_kept id s s' :
  reset_prequest index id s = Some s' \/ reset_proposal index id s = Some s' \/
  reset_consultation index id s = Some s' \/ reset_answer index id s = Some s' -> keeps s s'.
Proof.
  intros [H|[H|[H|H]]].
  - unfold reset_prequest in H. run H; try done. eapply kept_put_prequest; [done|]. by split; [|left].
  - unfold reset_proposal in H. run H; try done. eapply kept_put_proposal; [done|]. by split; [|left].
  - unfold reset_consultation in H. run H; try done; cbn [view with_view clear_answers_of]; (eapply kept_put_consultation; [done|]; by split; [|left]).
  - unfold reset_answer in H. run H; try done; cbn [view with_view]; (eapply kept_put_answer; [done|]; by split; [|left]).
Qed.

Lemma write_parameter_kept id s s' : write_parameter newHeight id s = Some s' -> keeps s s'.
Proof. unfold write_parameter. destruct (mapConsensusToChange s !! id); [|done]. cbn. intros [= <-]. by split; intros k. Qed.

(** ** The steps of a state *)

(** A proposal with versioning. *)
Inductive proposal_edge : flags -> flags -> Prop :=
  | pe_accept old : old = NIL \/ old = PENDING_FUNDS -> proposal_edge old ACCEPTED
  | pe_wait : proposal_edge NIL PENDING_FUNDS
  | pe_reject old : old <> REJECTED -> old <> EXPIRED -> old <> PENDING_VOTING_PREQ -> proposal_edge old REJECTED
  | pe_expire old : old = NIL \/ old = ACCEPTED \/ old = PENDING_VOTING_PREQ -> proposal_edge old EXPIRED
  | pe_pending old : old = ACCEPTED \/ old = PENDING_VOTING_PREQ -> proposal_edge old PENDING_VOTING_PREQ.

Inductive request_edge : flags -> flags -> Prop :=
  | re_accept : request_edge NIL ACCEPTED
  | re_reject old : old <> REJECTED -> request_edge old REJECTED
  | re_expire old : old <> ACCEPTED -> old <> REJECTED -> old <> PAID -> old <> EXPIRED -> request_edge old EXPIRED.

Inductive consultation_edge : flags -> flags -> Prop :=
  | ce_supported : consultation_edge NIL SUPPORTED
  | ce_reflection : consultation_edge SUPPORTED REFLECTION
  | ce_accepted : consultation_edge REFLECTION ACCEPTED
  | ce_expired old : old = NIL \/ old = ACCEPTED -> consultation_edge old EXPIRED
  | ce_passed : consultation_edge ACCEPTED PASSED.

Inductive answer_edge : flags -> flags -> Prop :=
  | ae_accepted : answer_edge NIL ACCEPTED
  | ae_passed old : old <> PASSED -> answer_edge old PASSED.

(** At the end of a cycle, and only then, the block may set one state. *)
Definition moved (E : flags -> flags -> Prop) (m m' : gmap (list Z) flags) : Prop :=
  m' = m \/ (end_of_cycle newHeight nCycleLength = Some true /\ exists st, m' = SetState m newHash st /\ E (last_state m) st).

Definition moved_p (id : list Z) (p p' : CProposal.t) : Prop :=
  p_fixed p' = p_fixed p /\
  moved (fun old st => CProposal.hash p = id -> has (CProposal.nVersion p) CProposal.BASE_VERSION = true -> proposal_edge old st)
    (CProposal.mapState p) (CProposal.mapState p').
Definition moved_r (r r' : CPaymentRequest.t) : Prop :=
  r_fixed r' = r_fixed r /\ moved request_edge (CPaymentRequest.mapState r) (CPaymentRequest.mapState r').
Definition moved_c (c c' : CConsultation.t) : Prop :=
  c_fixed c' = c_fixed c /\ moved consultation_edge (CConsultation.mapState c) (CConsultation.mapState c').
Definition moved_a (a a' : CConsultationAnswer.t) : Prop :=
  a_fixed a' = a_fixed a /\ moved answer_edge (CConsultationAnswer.mapState a) (CConsultationAnswer.mapState a').

Lemma moved_keep E m : moved E m m.
Proof. by left. Qed.

(** *** Requests *)

Lemma judge_prequest_moves id r old proposal s :
  exists r', view (judge_prequest dp index newHash id r old proposal s) = put_prequest (view s) id r' \/
             view (judge_prequest dp index newHash id r old proposal s) = view s /\ r' = r.
Proof. unfold judge_prequest. repeat case_match; eexists; eauto. Qed.

Lemma judge_prequest_states id r proposal s m :
  CPaymentRequest.mapState r = m -> vPaymentRequests (view s) !! id = Some r ->
  exists r', vPaymentRequests (view (judge_prequest dp index newHash id r (last_state m) proposal s)) !! id = Some r' /\ r_fixed r' = r_fixed r /\
    (CPaymentRequest.mapState r' = m \/ exists st, CPaymentRequest.mapState r' = SetState m newHash st /\ request_edge (last_state m) st).
Proof.
  intros <- Hr. unfold judge_prequest. destruct (CPaymentRequest_IsExpired dp index (view s) r) eqn:Ee.
  - case_bool_decide; [|by exists r; eauto]. eexists. cbn. rewrite lookup_insert_eq. split; [done|]. split; [done|]. right. exists EXPIRED. split; [done|].
    unfold CPaymentRequest_IsExpired in Ee. case_match; [|done]. rewrite !andb_true_iff, !negb_true_iff in Ee. destruct Ee as [[[_ E1] E2] E3].
    apply bool_decide_eq_false in E1, E2, E3. by constructor.
  - destruct (CPaymentRequest_IsRejected dp (view s) r).
    + case_bool_decide; [|by exists r; eauto]. eexists. cbn. rewrite lookup_insert_eq. split; [done|]. split; [done|]. right. exists REJECTED. split; [done|]. by constructor.
    + case_bool_decide as Eo; [|by exists r; eauto]. destruct (_ && _); [|by exists r; eauto]. destruct (_ && _); [|by exists r; eauto].
      eexists. cbn. rewrite lookup_insert_eq. split; [done|]. split; [done|]. right. exists ACCEPTED. split; [done|]. rewrite Eo. constructor.
Qed.

Lemma judge_prequest_other id r old proposal s :
  (forall k, k <> id -> vPaymentRequests (view (judge_prequest dp index newHash id r old proposal s)) !! k = vPaymentRequests (view s) !! k) /\
  vProposals (view (judge_prequest dp index newHash id r old proposal s)) = vProposals (view s) /\
  vConsultations (view (judge_prequest dp index newHash id r old proposal s)) = vConsultations (view s) /\
  vAnswers (view (judge_prequest dp index newHash id r old proposal s)) = vAnswers (view s).
Proof.
  destruct (judge_prequest_moves id r old proposal s) as (r' & [->|[-> _]]); cbn; [|done]. split_and!; try done. intros k Hk. by rewrite lookup_insert_ne.
Qed.

(** What a loop leaves alone. *)
Definition only_prequests (s s' : StepState) : Prop :=
  vProposals (view s') = vProposals (view s) /\ vConsultations (view s') = vConsultations (view s) /\ vAnswers (view s') = vAnswers (view s).
Definition only_proposals (s s' : StepState) : Prop :=
  vPaymentRequests (view s') = vPaymentRequests (view s) /\ vConsultations (view s') = vConsultations (view s) /\ vAnswers (view s') = vAnswers (view s).
Definition only_answers (s s' : StepState) : Prop :=
  vPaymentRequests (view s') = vPaymentRequests (view s) /\ vProposals (view s') = vProposals (view s) /\ vConsultations (view s') = vConsultations (view s).
Definition only_consultations (s s' : StepState) : Prop :=
  vPaymentRequests (view s') = vPaymentRequests (view s) /\ vProposals (view s') = vProposals (view s) /\ vAnswers (view s') = vAnswers (view s).

Lemma advance_prequest_moves id s s' :
  fUndo = false -> advance_prequest dp index newHash newHeight fUndo deleteHash nCycleLength id s = Some s' ->
  only_prequests s s' /\ (forall k, k <> id -> vPaymentRequests (view s') !! k = vPaymentRequests (view s) !! k) /\
  option_Forall2 moved_r (vPaymentRequests (view s) !! id) (vPaymentRequests (view s') !! id).
Proof.
  intros Hu. assert (forall o, option_Forall2 moved_r o o) as Hrefl by (intros [r|]; constructor; split; [done|apply moved_keep]).
  unfold advance_prequest. destruct (GetPaymentRequest (view s) id) as [r|] eqn:Hr; [|intros [= <-]; split_and!; done].
  case_bool_decide; [intros [= <-]; split_and!; done|]. destruct (prequest_creation index r) as [b|]; [|done]. cbn [mbind option_bind].
  destruct (voting_cycles _ _ _ _) as [n|]; [|done]. cbn [mbind option_bind]. destruct (GetProposal _ _) as [proposal|]; [|intros [= <-]; split_and!; done].
  rewrite Hu. set (r1 := if bool_decide _ then _ else _). set (s1 := with_view s _). destruct (end_of_cycle newHeight nCycleLength) as [e|] eqn:Ee; [|done].
  cbn [mbind option_bind]. intros [= <-]. apply present_Some in Hr as [Hr _].
  assert (CPaymentRequest.mapState r1 = CPaymentRequest.mapState r /\ r_fixed r1 = r_fixed r) as [Em Ef] by (unfold r1; by case_match).
  destruct e.
  - destruct (judge_prequest_other id r1 (last_state (CPaymentRequest.mapState r)) proposal s1) as (H1 & H2 & H3 & H4).
    split; [by split|]. split; [intros k Hk; rewrite H1 by done; cbn; by rewrite lookup_insert_ne|].
    destruct (judge_prequest_states id r1 proposal s1 (CPaymentRequest.mapState r) Em ltac:(apply lookup_insert_eq)) as (r' & Hr' & Ef' & Hm).
    rewrite Hr, Hr'. constructor. split; [congruence|]. destruct Hm as [->|(st & -> & He)]; [apply moved_keep|]. right. split; [done|]. eauto.
  - split; [done|]. cbn [s1 view with_view vPaymentRequests put_prequest]. split; [intros k Hk; by rewrite lookup_insert_ne|].
    rewrite Hr, lookup_insert_eq. constructor. split; [done|]. rewrite Em. apply moved_keep.
Qed.

(** *** Proposals *)

Lemma judge_proposal_moves id p old s :
  view (judge_proposal dp index newHash newTime id p old s) = view s \/
  exists st, view (judge_proposal dp index newHash newTime id p old s) =
    put_proposal (view s) id (CProposal.with_states p (SetState (CProposal.mapState p) newHash st)).
Proof. unfold judge_proposal. repeat case_match; eauto. Qed.

Lemma IsExpired_states v p :
  has (CProposal.nVersion p) CProposal.BASE_VERSION = true ->
  (CProposal_IsExpired dp index newTime v p = true -> let s := last_state (CProposal.mapState p) in s = NIL \/ s = ACCEPTED \/ s = EXPIRED \/ s = PENDING_VOTING_PREQ) /\
  (CProposal_IsExpired dp index newTime v p = false -> let s := last_state (CProposal.mapState p) in s <> EXPIRED /\ s <> PENDING_VOTING_PREQ).
Proof.
  intros Hv. unfold CProposal_IsExpired. rewrite Hv. cbv zeta. set (s := last_state (CProposal.mapState p)).
  destruct (bool_decide (s = ACCEPTED)) eqn:Ea.
  - apply bool_decide_eq_true in Ea. rewrite Ea. split; [by eauto|]. intros _. done.
  - split.
    + rewrite !orb_true_iff, andb_true_iff, !bool_decide_eq_true. tauto.
    + rewrite !orb_false_iff, !bool_decide_eq_false. tauto.
Qed.

Lemma judge_proposal_edge id p s st :
  vProposals (view s) !! id = Some p -> CProposal.IsNull p = false -> CProposal.hash p = id -> has (CProposal.nVersion p) CProposal.BASE_VERSION = true ->
  view (judge_proposal dp index newHash newTime id p (last_state (CProposal.mapState p)) s) =
    put_proposal (view s) id (CProposal.with_states p (SetState (CProposal.mapState p) newHash st)) ->
  view (judge_proposal dp index newHash newTime id p (last_state (CProposal.mapState p)) s) = view s \/ proposal_edge (last_state (CProposal.mapState p)) st.
Proof.
  intros Hp Hn Hid Hv. set (old := last_state (CProposal.mapState p)).
  assert (forall st', put_proposal (view s) id (CProposal.with_states p (SetState (CProposal.mapState p) newHash st')) =
    put_proposal (view s) id (CProposal.with_states p (SetState (CProposal.mapState p) newHash st)) -> st' = st) as Hinj.
  { intros st' E. apply (f_equal (fun v => CProposal.mapState <$> vProposals v !! id)) in E. cbn in E. rewrite !lookup_insert_eq in E. cbn in E.
    injection E as E. apply (f_equal (.!! newHash)) in E. unfold SetState in E. rewrite !lookup_insert_eq in E. by injection E. }
  destruct (IsExpired_states (view s) p Hv) as [Hexp Hnexp]. fold old in Hexp, Hnexp. cbv zeta in *. unfold judge_proposal.
  destruct (CProposal_IsExpired dp index newTime (view s) p) eqn:Ee.
  - specialize (Hexp eq_refl). case_bool_decide as E1; [|by left]. destruct (CProposal_HasPendingPaymentRequests index (view s) p) eqn:Ep.
    + intros E. apply Hinj in E as <-. right. constructor. apply existsb_exists in Ep as (r & Hin & Hcan). apply list_elem_of_In, list_elem_of_filter in Hin as [Hph _].
      unfold CPaymentRequest_CanVote in Hcan. rewrite Hph, Hid in Hcan. unfold GetProposal in Hcan. rewrite Hp in Hcan. unfold present in Hcan. cbn in Hcan. rewrite Hn in Hcan.
      rewrite !andb_true_iff, orb_true_iff, !bool_decide_eq_true in Hcan. tauto.
    + intros E. right. enough (EXPIRED = st) as <- by (constructor; tauto). apply Hinj. rewrite <- E. by case_match.
  - specialize (Hnexp eq_refl). destruct (CProposal_IsRejected dp (view s) p).
    + case_bool_decide as E1; [|by left]. intros E. apply Hinj in E as <-. right. constructor; tauto.
    + destruct (CProposal_IsAccepted dp (view s) p); [|by left]. destruct (_ || _) eqn:Eo; [|by left].
      apply orb_true_iff in Eo. rewrite !bool_decide_eq_true in Eo. case_match.
      * intros E. apply Hinj in E as <-. right. by constructor.
      * case_bool_decide as E1; [|by left]. intros E. apply Hinj in E as <-. right. destruct Eo as [->|?]; [constructor|done].
Qed.

Lemma advance_proposal_moves id s s' :
  fUndo = false -> advance_proposal dp index newHash newHeight newTime fUndo deleteHash nCycleLength id s = Some s' ->
  only_proposals s s' /\ (forall k, k <> id -> vProposals (view s') !! k = vProposals (view s) !! k) /\
  option_Forall2 (moved_p id) (vProposals (view s) !! id) (vProposals (view s') !! id).
Proof.
  intros Hu. assert (forall o, option_Forall2 (moved_p id) o o) as Hrefl by (intros [r|]; constructor; split; [done|apply moved_keep]).
  unfold advance_proposal. destruct (GetProposal (view s) id) as [p|] eqn:Hp; [|intros [= <-]; split_and!; done].
  destruct (creation _ _) as [b|]; [|intros [= <-]; split_and!; done]. destruct (voting_cycles _ _ _ _) as [n|]; [|done]. cbn [mbind option_bind].
  rewrite Hu. set (p1 := if bool_decide _ then _ else _). set (s1 := with_view s _). destruct (end_of_cycle newHeight nCycleLength) as [e|] eqn:Ee; [|done].
  cbn [mbind option_bind]. intros [= <-]. apply present_Some in Hp as [Hp Hn].
  assert (CProposal.mapState p1 = CProposal.mapState p /\ p_fixed p1 = p_fixed p /\ CProposal.IsNull p1 = false) as (Em & Ef & En) by (unfold p1; by case_match).
  assert (vProposals (view s1) !! id = Some p1) as Hp1 by apply lookup_insert_eq.
  assert (only_proposals s s1 /\ (forall k, k <> id -> vProposals (view s1) !! k = vProposals (view s) !! k) /\
    option_Forall2 (moved_p id) (vProposals (view s) !! id) (vProposals (view s1) !! id)) as Hs1.
  { split; [done|]. split; [intros k Hk; cbn; by rewrite lookup_insert_ne|]. rewrite Hp, Hp1. constructor. split; [done|]. rewrite Em. apply moved_keep. }
  destruct e; [|done]. rewrite <- Em. destruct (judge_proposal_moves id p1 (last_state (CProposal.mapState p1)) s1) as [E|[st E]].
  { unfold only_proposals. rewrite E. exact Hs1. }
  pose proof (judge_proposal_edge id p1 s1 st Hp1 En) as Hedge. unfold only_proposals. rewrite E in *. cbn [vProposals vPaymentRequests vConsultations vAnswers put_proposal].
  split; [done|]. split; [intros k Hk; cbn; by rewrite !lookup_insert_ne|].
  rewrite Hp, lookup_insert_eq. constructor. split; [done|]. cbn [CProposal.mapState CProposal.with_states]. rewrite Em in *.
  destruct (decide (SetState (CProposal.mapState p) newHash st = CProposal.mapState p)) as [Es|Hne]; [by left|]. right. split; [done|]. exists st. split; [done|].
  intros Hid Hv. unfold p_fixed in Ef. injection Ef as E1 E2 E3 E4. rewrite E2, E4 in Hedge. destruct (Hedge Hid Hv eq_refl) as [Ev|]; [|done].
  destruct Hne. apply (f_equal (fun v => CProposal.mapState <$> vProposals v !! id)) in Ev. cbn in Ev. rewrite !lookup_insert_eq in Ev. cbn in Ev. injection Ev as Ev. rewrite Em in Ev. exact Ev.
Qed.

(** *** Answers *)

Lemma advance_answer_moves id s s' :
  fUndo = false -> advance_answer dp index newHash newHeight fUndo deleteHash nCycleLength id s = Some s' ->
  only_answers s s' /\ (forall k, k <> id -> vAnswers (view s') !! k = vAnswers (view s) !! k) /\
  option_Forall2 moved_a (vAnswers (view s) !! id) (vAnswers (view s') !! id).
Proof.
  intros Hu. assert (forall o, option_Forall2 moved_a o o) as Hrefl by (intros [r|]; constructor; split; [done|apply moved_keep]).
  unfold advance_answer. destruct (GetConsultationAnswer (view s) id) as [a|] eqn:Ha; [|intros [= <-]; split_and!; done].
  destruct (creation _ _) as [b|]; [|intros [= <-]; split_and!; done]. rewrite Hu. destruct (end_of_cycle newHeight nCycleLength) as [[|]|] eqn:Ee; [|intros [= <-]; split_and!; done|done].
  cbn [mbind option_bind]. apply present_Some in Ha as [Ha _]. unfold judge_answer. set (old := last_state (CConsultationAnswer.mapState a)).
  set (a1 := if CConsultationAnswer_IsSupported dp (view s) a && _ then _ else _). set (s1 := with_view s (put_answer (view s) id a1)).
  assert (a_fixed a1 = a_fixed a /\ (CConsultationAnswer.mapState a1 = CConsultationAnswer.mapState a \/
    CConsultationAnswer.mapState a1 = SetState (CConsultationAnswer.mapState a) newHash ACCEPTED /\ old = NIL)) as [Ef Em].
  { unfold a1. destruct (_ && _) eqn:E; [|by eauto]. apply andb_true_iff in E as [_ E]. apply bool_decide_eq_true in E. eauto. }
  assert (only_answers s s1 /\ (forall k, k <> id -> vAnswers (view s1) !! k = vAnswers (view s) !! k) /\
    option_Forall2 moved_a (vAnswers (view s) !! id) (vAnswers (view s1) !! id)) as Hs1.
  { split; [done|]. split; [intros k Hk; cbn; by rewrite lookup_insert_ne|]. cbn. rewrite Ha, lookup_insert_eq. constructor. split; [done|].
    destruct Em as [->|[-> Eo]]; [apply moved_keep|]. right. split; [done|]. exists ACCEPTED. split; [done|]. fold old. rewrite Eo. constructor. }
  destruct (CConsultationAnswer_IsConsensusAccepted dp (view s1) a1 && bool_decide (old <> PASSED)) eqn:Ec; [|by intros [= <-]].
  apply andb_true_iff in Ec as [_ Ec]. apply bool_decide_eq_true in Ec.
  destruct (GetConsultation _ _) as [c|]; [|by intros [= <-]]. destruct (CConsultation.IsAboutConsensusParameter c); [|by intros [= <-]].
  destruct (stoll _) as [x|]; [|done]. cbn [mbind option_bind]. intros [= <-]. split; [done|].
  cbn [set_answer_state change_parameter with_view view s1 put_answer vAnswers]. split; [intros k Hk; by rewrite !lookup_insert_ne|].
  rewrite Ha, lookup_insert_eq. constructor. split; [done|]. cbn [CConsultationAnswer.mapState CConsultationAnswer.with_states].
  right. split; [done|]. exists PASSED. split; [|by constructor]. destruct Em as [->|[-> _]]; [done|]. unfold SetState. by rewrite insert_insert_eq.
Qed.

(** *** Consultations *)

Lemma consultation_move_edge v c old st :
  old = last_state (CConsultation.mapState c) -> consultation_move dp index newHeight v c old = Some (Some st) -> consultation_edge old st.
Proof.
  intros Hold. unfold consultation_move. destruct (CConsultation_IsExpired dp index newHeight v c) as [[|]|] eqn:Ee; cbn [mbind option_bind]; [|..|done].
  - case_bool_decide as E; [|done]. intros [= <-]. constructor. unfold CConsultation_IsExpired in Ee. rewrite <- Hold in Ee. cbv zeta in Ee.
    destruct (bool_decide (old = ACCEPTED)) eqn:Ea; [apply bool_decide_eq_true in Ea; by right|].
    injection Ee as Ee. rewrite orb_true_iff, andb_true_iff, !bool_decide_eq_true in Ee. tauto.
  - destruct (CConsultation_IsSupported dp v c); [|done]. case_bool_decide as E1; [intros [= <-]; subst old; rewrite E1; constructor|].
    destruct (_ && _) eqn:E2; [apply andb_true_iff in E2 as [E2 _]; apply bool_decide_eq_true in E2; rewrite E2; intros [= <-]; constructor|].
    destruct (bool_decide (old = REFLECTION)) eqn:E3; [|done]. apply bool_decide_eq_true in E3. destruct (CConsultation_IsReflectionOver dp index newHeight v c) as [[|]|]; cbn; try done.
    rewrite E3. intros [= <-]. constructor.
Qed.

Lemma advance_consultation_moves id s s' :
  fUndo = false -> advance_consultation dp index newHash newHeight fUndo deleteHash nCycleLength id s = Some s' ->
  only_consultations s s' /\ (forall k, k <> id -> vConsultations (view s') !! k = vConsultations (view s) !! k) /\
  option_Forall2 moved_c (vConsultations (view s) !! id) (vConsultations (view s') !! id).
Proof.
  intros Hu. assert (forall o, option_Forall2 moved_c o o) as Hrefl by (intros [r|]; constructor; split; [done|apply moved_keep]).
  unfold advance_consultation. destruct (GetConsultation (view s) id) as [c|] eqn:Hc; [|intros [= <-]; split_and!; done].
  destruct (creation _ _) as [b|]; [|intros [= <-]; split_and!; done]. destruct (voting_cycles _ _ _ _) as [n|]; [|done]. cbn [mbind option_bind].
  rewrite Hu. set (old := last_state (CConsultation.mapState c)). set (c1 := if bool_decide (old <> EXPIRED) && _ then _ else _).
  set (s1 := with_view s _). destruct (end_of_cycle newHeight nCycleLength) as [e|] eqn:Ee; [|done]. cbn [mbind option_bind]. apply present_Some in Hc as [Hc _].
  assert (CConsultation.mapState c1 = CConsultation.mapState c /\ c_fixed c1 = c_fixed c) as [Em Ef] by (unfold c1; by case_match).
  destruct e.
  2: { intros [= <-]. split; [done|]. split; [intros k Hk; cbn; by rewrite lookup_insert_ne|]. cbn. rewrite Hc, lookup_insert_eq. constructor.
       split; [done|]. rewrite Em. apply moved_keep. }
  unfold judge_consultation. destruct (consultation_move dp index newHeight (view s1) c1 old) as [move|] eqn:Emv; [|done]. cbn [mbind option_bind].
  set (c2 := match move with Some st => _ | None => c1 end). set (c3 := if _ && _ && _ && _ then _ else c2). intros [= <-].
  split; [done|]. split; [intros k Hk; cbn; by rewrite !lookup_insert_ne|]. cbn [vConsultations put_consultation view with_view].
  rewrite Hc, lookup_insert_eq. constructor. split; [unfold c3, c2; destruct move; case_match; done|].
  assert (moved consultation_edge (CConsultation.mapState c) (CConsultation.mapState c2)) as H2.
  { unfold c2. destruct move as [st|]; [|rewrite Em; apply moved_keep]. right. split; [done|]. exists st. cbn. rewrite Em. split; [done|].
    apply (consultation_move_edge (view s1) c1 old st); [by rewrite Em|done]. }
  unfold c3. destruct (_ && _ && _ && _) eqn:Ep; [|done]. rewrite !andb_true_iff in Ep. destruct Ep as [[[_ _] Eo] _]. apply bool_decide_eq_true in Eo.
  right. split; [done|]. exists PASSED. split; [|fold old; rewrite Eo; constructor]. cbn [CConsultation.mapState CConsultation.with_states].
  unfold c2. destruct move as [st|]; cbn; rewrite Em; [|done]. unfold SetState. by rewrite insert_insert_eq.
Qed.

(** *** The whole step *)

Lemma fund_loop_rel (R : StepState -> StepState -> Prop) `{!Reflexive R} `{!Transitive R} b l f s s' :
  (forall x s s', f x s = Some s' -> R s s') -> fund_loop b l f s = Some s' -> R s s'.
Proof. intros Hf. unfold fund_loop. destruct b; [by apply for_each_rel|by intros [= <-]]. Qed.

#[local] Instance keeps_refl : Reflexive (fun s s' : StepState => keeps s s').
Proof. intros s. reflexivity. Qed.
#[local] Instance keeps_trans : Transitive (fun s s' : StepState => keeps s s').
Proof. intros s1 s2 s3 H1 H2. by etrans. Qed.

Lemma fund_loop_kept b l f s s' :
  (forall x s s', f x s = Some s' -> keeps s s') -> fund_loop b l f s = Some s' -> keeps s s'.
Proof. exact (fund_loop_rel (fun s s' => keeps s s') b l f s s'). Qed.

(** The loops in front of those that advance the states. *)
Definition writing_loops (fCFund fDAO : bool) (c : VoteCache) (s : StepState) : option StepState :=
  s ← fund_loop fCFund (ordered_keys (mapCacheProposalsToUpdate c)) (write_proposal_votes dp index newHeight fUndo deleteHash nCycleLength (mapCacheProposalsToUpdate c)) s;
  s ← fund_loop fCFund (ordered_keys (mapCachePaymentRequestToUpdate c)) (write_prequest_votes dp index newHeight fUndo deleteHash nCycleLength (mapCachePaymentRequestToUpdate c)) s;
  s ← fund_loop fDAO (ordered_keys (mapCacheSupportToUpdate c)) (write_support dp index newHeight fUndo deleteHash nCycleLength (mapCacheSupportToUpdate c)) s;
  if fDAO then for_each (write_consultation_votes dp index newHeight fUndo deleteHash nCycleLength fScanningWholeCycle (mapCacheConsultationToUpdate c)) (ordered_pairs (mapCacheConsultationToUpdate c)) s else Some s.

Definition excluding_loops (fCFund fDAO : bool) (n : Z) (kr kp kc ka : list (list Z)) (s : StepState) : option StepState :=
  s ← fund_loop fCFund kr (exclude_prequest index n) s;
  s ← fund_loop fCFund kp (exclude_proposal index n) s;
  s ← fund_loop fDAO kc (exclude_consultation index n) s;
  fund_loop fDAO ka (exclude_answer index n) s.

Definition advancing_loops (fCFund fDAO : bool) (kr kp kc ka : list (list Z)) (s : StepState) : option StepState :=
  s ← fund_loop fCFund kr (advance_prequest dp index newHash newHeight fUndo deleteHash nCycleLength) s;
  s ← fund_loop fCFund kp (advance_proposal dp index newHash newHeight newTime fUndo deleteHash nCycleLength) s;
  s ← fund_loop fDAO ka (advance_answer dp index newHash newHeight fUndo deleteHash nCycleLength) s;
  fund_loop fDAO kc (advance_consultation dp index newHash newHeight fUndo deleteHash nCycleLength) s.

Definition final_loops (fCFund fDAO : bool) (kr kp kc ka : list (list Z)) (s : StepState) : option StepState :=
  s ← (if fScanningWholeCycle then
         s ← fund_loop fCFund kr (reset_prequest index) s;
         s ← fund_loop fCFund kp (reset_proposal index) s;
         s ← fund_loop fDAO kc (reset_consultation index) s;
         fund_loop fDAO ka (reset_answer index) s
       else Some s);
  for_each (write_parameter newHeight) (ordered_heights (mapConsensusToChange s)) s.

Ltac next H s E := match type of H with (?o ≫= _) = _ => destruct o as [s|] eqn:E; [|discriminate H]; cbn [mbind option_bind] in H end.

(** [update_records] is the four groups of loops, over the records there are after
    the first. *)
Lemma update_records_phases fCFund fDAO c s s' :
  update_records dp index newHash newHeight newTime fUndo deleteHash nCycleLength fScanningWholeCycle fCFund fDAO c s = Some s' ->
  exists s1 s2 s3,
    let kr := all_keys CPaymentRequest.IsNull (vPaymentRequests (view s1)) in
    let kp := all_keys CProposal.IsNull (vProposals (view s1)) in
    let kc := all_keys CConsultation.IsNull (vConsultations (view s1)) in
    let ka := all_keys CConsultationAnswer.IsNull (vAnswers (view s1)) in
    writing_loops fCFund fDAO c s = Some s1 /\ excluding_loops fCFund fDAO (nCacheExclude c) kr kp kc ka s1 = Some s2 /\
    advancing_loops fCFund fDAO kr kp kc ka s2 = Some s3 /\ final_loops fCFund fDAO kr kp kc ka s3 = Some s'.
Proof.
  unfold update_records. intros H. next H t1 E1. next H t2 E2. next H t3 E3. next H t4 E4. cbv zeta in H.
  next H t5 E5. next H t6 E6. next H t7 E7. next H t8 E8. next H t9 E9. next H t10 E10. next H t11 E11. next H t12 E12. next H t13 E13.
  exists t4, t8, t12. cbv zeta. unfold writing_loops, excluding_loops, advancing_loops, final_loops.
  rewrite E1. cbn [mbind option_bind]. rewrite E2. cbn [mbind option_bind]. rewrite E3. cbn [mbind option_bind]. rewrite E5. cbn [mbind option_bind]. rewrite E6. cbn [mbind option_bind].
  rewrite E7. cbn [mbind option_bind]. rewrite E9. cbn [mbind option_bind]. rewrite E10. cbn [mbind option_bind]. rewrite E11. cbn [mbind option_bind]. rewrite E13. cbn [mbind option_bind].
  done.
Qed.

Lemma writing_loops_kept fCFund fDAO c s s' : writing_loops fCFund fDAO c s = Some s' -> keeps s s'.
Proof.
  unfold writing_loops. intros H. next H t1 E1. next H t2 E2. next H t3 E3.
  transitivity (view t1); [eapply fund_loop_kept; [|exact E1]; intros; by eapply write_proposal_votes_kept|].
  transitivity (view t2); [eapply fund_loop_kept; [|exact E2]; intros; by eapply write_prequest_votes_kept|].
  transitivity (view t3); [eapply fund_loop_kept; [|exact E3]; intros; by eapply write_support_kept|].
  destruct fDAO; [|by injection H as <-]. eapply (for_each_rel (fun s s' => keeps s s')) in H; [done|]. intros. by eapply write_consultation_votes_kept.
Qed.

Lemma excluding_loops_kept fCFund fDAO n kr kp kc ka s s' : excluding_loops fCFund fDAO n kr kp kc ka s = Some s' -> keeps s s'.
Proof.
  unfold excluding_loops. intros H. next H t1 E1. next H t2 E2. next H t3 E3.
  transitivity (view t1); [eapply fund_loop_kept; [|exact E1]; intros; eapply exclude_kept; eauto|].
  transitivity (view t2); [eapply fund_loop_kept; [|exact E2]; intros; eapply exclude_kept; eauto|].
  transitivity (view t3); [eapply fund_loop_kept; [|exact E3]; intros; eapply exclude_kept; eauto|].
  eapply fund_loop_kept; [|exact H]; intros; eapply exclude_kept; eauto.
Qed.

Lemma final_loops_kept fCFund fDAO kr kp kc ka s s' : final_loops fCFund fDAO kr kp kc ka s = Some s' -> keeps s s'.
Proof.
  unfold final_loops. intros H. next H t0 E0. transitivity (view t0).
  - destruct fScanningWholeCycle; [|by injection E0 as <-]. next E0 t1 E1. next E0 t2 E2. next E0 t3 E3.
    transitivity (view t1); [eapply fund_loop_kept; [|exact E1]; intros; eapply reset_kept; eauto|].
    transitivity (view t2); [eapply fund_loop_kept; [|exact E2]; intros; eapply reset_kept; eauto|].
    transitivity (view t3); [eapply fund_loop_kept; [|exact E3]; intros; eapply reset_kept; eauto|].
    eapply fund_loop_kept; [|exact E0]; intros; eapply reset_kept; eauto.
  - eapply (for_each_rel (fun s s' => keeps s s')) in H; [done|]. intros. by eapply write_parameter_kept.
Qed.

(** One loop over the records of one kind. *)
Lemma advance_loop {X} (get : View -> gmap (list Z) X) (R : list Z -> X -> X -> Prop) (O : StepState -> StepState -> Prop) `{!Reflexive O} `{!Transitive O} b l f s s' :
  (forall id x, R id x x) -> NoDup l ->
  (forall id s s', f id s = Some s' -> O s s' /\ (forall k, k <> id -> get (view s') !! k = get (view s) !! k) /\
     option_Forall2 (R id) (get (view s) !! id) (get (view s') !! id)) ->
  fund_loop b l f s = Some s' -> O s s' /\ forall id, option_Forall2 (R id) (get (view s) !! id) (get (view s') !! id).
Proof.
  intros Hrefl Hnd Hf Hrun. assert (forall id o, option_Forall2 (R id) o o) as Ho by (intros id [x|]; constructor; apply Hrefl).
  unfold fund_loop in Hrun. destruct b; [|injection Hrun as <-; done]. split.
  - apply (for_each_rel O f l s s'); [|done]. intros x t t' Ht. apply (Hf x t t' Ht).
  - intros id. destruct (for_each_visits (fun k s => get (view s) !! k) (fun k => option_Forall2 (R k)) f l s s' Hnd Hrun) with (y := id) as [[_ H]|[_ H]]; [|done|].
    + intros k t t' _ Ht. destruct (Hf k t t' Ht) as (_ & H1 & H2). done.
    + rewrite H. apply Ho.
Qed.

#[local] Instance only_prequests_refl : Reflexive only_prequests. Proof. done. Qed.
#[local] Instance only_proposals_refl : Reflexive only_proposals. Proof. done. Qed.
#[local] Instance only_answers_refl : Reflexive only_answers. Proof. done. Qed.
#[local] Instance only_consultations_refl : Reflexive only_consultations. Proof. done. Qed.
#[local] Instance only_prequests_trans : Transitive only_prequests. Proof. intros ? ? ? (?&?&?) (?&?&?). split_and!; congruence. Qed.
#[local] Instance only_proposals_trans : Transitive only_proposals. Proof. intros ? ? ? (?&?&?) (?&?&?). split_and!; congruence. Qed.
#[local] Instance only_answers_trans : Transitive only_answers. Proof. intros ? ? ? (?&?&?) (?&?&?). split_and!; congruence. Qed.
#[local] Instance only_consultations_trans : Transitive only_consultations. Proof. intros ? ? ? (?&?&?) (?&?&?). split_and!; congruence. Qed.

Lemma advancing_loops_moves fCFund fDAO kr kp kc ka s s' :
  fUndo = false -> NoDup kr -> NoDup kp -> NoDup kc -> NoDup ka -> advancing_loops fCFund fDAO kr kp kc ka s = Some s' ->
  forall id, option_Forall2 (moved_p id) (vProposals (view s) !! id) (vProposals (view s') !! id) /\
    option_Forall2 moved_r (vPaymentRequests (view s) !! id) (vPaymentRequests (view s') !! id) /\
    option_Forall2 moved_c (vConsultations (view s) !! id) (vConsultations (view s') !! id) /\
    option_Forall2 moved_a (vAnswers (view s) !! id) (vAnswers (view s') !! id).
Proof.
  intros Hu Hkr Hkp Hkc Hka H. unfold advancing_loops in H. next H t1 E1. next H t2 E2. next H t3 E3.
  eapply (advance_loop vPaymentRequests (fun _ => moved_r) only_prequests) in E1 as [O1 M1];
    [|intros ? x; split; [done|apply moved_keep]|done|intros; by apply advance_prequest_moves].
  eapply (advance_loop vProposals moved_p only_proposals) in E2 as [O2 M2];
    [|intros ? x; split; [done|apply moved_keep]|done|intros; by apply advance_proposal_moves].
  eapply (advance_loop vAnswers (fun _ => moved_a) only_answers) in E3 as [O3 M3];
    [|intros ? x; split; [done|apply moved_keep]|done|intros; by apply advance_answer_moves].
  eapply (advance_loop vConsultations (fun _ => moved_c) only_consultations) in H as [O4 M4];
    [|intros ? x; split; [done|apply moved_keep]|done|intros; by apply advance_consultation_moves].
  intros id. destruct O1 as (P1 & P2 & P3), O2 as (Q1 & Q2 & Q3), O3 as (R1 & R2 & R3), O4 as (T1 & T2 & T3).
  specialize (M1 id). specialize (M2 id). specialize (M3 id). specialize (M4 id). split_and!.
  - rewrite T2, R2, <- P1. exact M2.
  - rewrite T1, R1, Q1. exact M1.
  - rewrite <- P2, <- Q2, <- R3. exact M4.
  - rewrite T3, <- P3, <- Q3. exact M3.
Qed.

Lemma kept_before_after {X F} (fx : X -> F) (ms : X -> gmap (list Z) flags) (E : F -> flags -> flags -> Prop) o1 o2 o3 o4 :
  fUndo = false ->
  option_Forall2 (fun x x' => fx x' = fx x /\ kept_state fUndo deleteHash (ms x) (ms x')) o1 o2 ->
  option_Forall2 (fun x x' => fx x' = fx x /\ moved (E (fx x)) (ms x) (ms x')) o2 o3 ->
  option_Forall2 (fun x x' => fx x' = fx x /\ kept_state fUndo deleteHash (ms x) (ms x')) o3 o4 ->
  option_Forall2 (fun x x' => fx x' = fx x /\ moved (E (fx x)) (ms x) (ms x')) o1 o4.
Proof.
  intros Hu H1 H2 H3. destruct H1 as [x1 x2 [F1 [M1|[? _]]]|]; [|congruence|by inversion H2; subst; inversion H3; constructor].
  inversion H2 as [y2 x3 [F2 M2]|]; subst. inversion H3 as [y3 x4 [F3 [M3|[? _]]]|]; subst; [|congruence].
  constructor. split; [congruence|]. rewrite M3, <- M1, <- F1. exact M2.
Qed.

(** The states after the step. *)
Lemma update_records_moves fCFund fDAO c s s' :
  fUndo = false ->
  update_records dp index newHash newHeight newTime fUndo deleteHash nCycleLength fScanningWholeCycle fCFund fDAO c s = Some s' ->
  forall id, option_Forall2 (moved_p id) (vProposals (view s) !! id) (vProposals (view s') !! id) /\
    option_Forall2 moved_r (vPaymentRequests (view s) !! id) (vPaymentRequests (view s') !! id) /\
    option_Forall2 moved_c (vConsultations (view s) !! id) (vConsultations (view s') !! id) /\
    option_Forall2 moved_a (vAnswers (view s) !! id) (vAnswers (view s') !! id).
Proof.
  intros Hu H id. apply update_records_phases in H as (s1 & s2 & s3 & H). cbv zeta in H. destruct H as (E1 & E2 & E3 & E4).
  apply advancing_loops_moves with (id := id) in E3 as (Mp & Mr & Mc & Ma); [|done|apply NoDup_ordered_keys..].
  apply writing_loops_kept in E1. apply excluding_loops_kept in E2. apply final_loops_kept in E4.
  assert (keeps s s2) as [B1 B2 B3 B4] by (by etrans). destruct E4 as [C1 C2 C3 C4]. split_and!.
  - refine (kept_before_after p_fixed CProposal.mapState (fun f old st => f.1.1.2 = id -> has f.2 CProposal.BASE_VERSION = true -> proposal_edge old st) _ _ _ _ Hu (B1 id) Mp (C1 id)).
  - refine (kept_before_after r_fixed CPaymentRequest.mapState (fun _ => request_edge) _ _ _ _ Hu (B2 id) Mr (C2 id)).
  - refine (kept_before_after c_fixed CConsultation.mapState (fun _ => consultation_edge) _ _ _ _ Hu (B3 id) Mc (C3 id)).
  - refine (kept_before_after a_fixed CConsultationAnswer.mapState (fun _ => answer_edge) _ _ _ _ Hu (B4 id) Ma (C4 id)).
Qed.

(** ** Undoing *)

Lemma for_each_at {A S} (R : S -> S -> Prop) `{!Reflexive R} `{!Transitive R} (f : A -> S -> option S) l x s s' :
  (forall x s s', f x s = Some s' -> R s s') -> x ∈ l -> for_each f l s = Some s' -> exists t t', R s t /\ f x t = Some t' /\ R t' s'.
Proof.
  intros Hf Hx. revert s. induction Hx as [x l|x y l Hx IH]; intros s Hrun; cbn [for_each] in Hrun; next Hrun t E.
  - exists s, t. split; [done|]. split; [done|]. by eapply for_each_rel.
  - destruct (IH t Hrun) as (t1 & t2 & H1 & H2 & H3). exists t1, t2. split; [|done]. etrans; [by eapply Hf|done].
Qed.

Lemma advance_kept id s s' :
  fUndo = true ->
  advance_prequest dp index newHash newHeight fUndo deleteHash nCycleLength id s = Some s' \/
  advance_proposal dp index newHash newHeight newTime fUndo deleteHash nCycleLength id s = Some s' \/
  advance_answer dp index newHash newHeight fUndo deleteHash nCycleLength id s = Some s' \/
  advance_consultation dp index newHash newHeight fUndo deleteHash nCycleLength id s = Some s' -> keeps s s'.
Proof.
  intros Hu. destruct fUndo; [|done]. intros [H|[H|[H|H]]].
  - unfold advance_prequest in H. run H; try done. eapply kept_put_prequest; [done|].
    match goal with |- kept_r _ _ ?r (undo_prequest _ _ _ ?n) => destruct (undo_prequest_kept r n) as [H1 H2] end. split; [done|]. by right.
  - unfold advance_proposal in H. run H; try done. eapply kept_put_proposal; [done|].
    match goal with |- kept_p _ _ ?r (undo_proposal _ _ _ ?n) => destruct (undo_proposal_kept r n) as [H1 H2] end. split; [done|]. by right.
  - unfold advance_answer in H. run H; try done. eapply kept_put_answer; [done|]. split; [done|]. by right.
  - unfold advance_consultation in H. run H; try done. eapply kept_put_consultation; [done|].
    match goal with |- kept_c _ _ ?r (undo_consultation _ _ _ ?n) => destruct (undo_consultation_kept r n) as [H1 H2] end. split; [done|]. by right.
Qed.

(** The records that an undo reaches: described, so that they are never null, and
    created in a known block. *)
Definition known (tx : list Z) : Prop := tx <> uint256_null /\ is_Some (index_entry index tx).
Definition named_p (p : CProposal.t) : Prop := CProposal.strDZeel p <> [] /\ known (CProposal.txblockhash p).
Definition named_r (v : View) (r : CPaymentRequest.t) : Prop :=
  CPaymentRequest.strDZeel r <> [] /\ known (CPaymentRequest.txblockhash r) /\
  exists p, vProposals v !! CPaymentRequest.proposalhash r = Some p /\ CProposal.strDZeel p <> [].
Definition named_c (c : CConsultation.t) : Prop := CConsultation.hash c <> uint256_null /\ known (CConsultation.txblockhash c).
Definition named_a (a : CConsultationAnswer.t) : Prop := CConsultationAnswer.hash a <> uint256_null /\ known (CConsultationAnswer.txblockhash a).

Lemma named_p_present v id p : vProposals v !! id = Some p -> CProposal.strDZeel p <> [] -> GetProposal v id = Some p.
Proof.
  intros Hp Hd. apply present_Some. split; [done|]. unfold CProposal.IsNull. rewrite (bool_decide_false (CProposal.strDZeel p = [])) by done.
  by rewrite andb_false_r, andb_false_l.
Qed.
Lemma named_r_present v id r : vPaymentRequests v !! id = Some r -> CPaymentRequest.strDZeel r <> [] -> GetPaymentRequest v id = Some r.
Proof.
  intros Hp Hd. apply present_Some. split; [done|]. unfold CPaymentRequest.IsNull. rewrite (bool_decide_false (CPaymentRequest.strDZeel r = [])) by done.
  by rewrite andb_false_r, andb_false_l.
Qed.
Lemma named_c_present v id c : vConsultations v !! id = Some c -> CConsultation.hash c <> uint256_null -> GetConsultation v id = Some c.
Proof. intros Hp Hd. apply present_Some. split; [done|]. unfold CConsultation.IsNull. by rewrite (bool_decide_false (CConsultation.hash c = uint256_null)) by done. Qed.
Lemma named_a_present v id a : vAnswers v !! id = Some a -> CConsultationAnswer.hash a <> uint256_null -> GetConsultationAnswer v id = Some a.
Proof.
  intros Hp Hd. apply present_Some. split; [done|]. unfold CConsultationAnswer.IsNull. rewrite (bool_decide_false (CConsultationAnswer.hash a = uint256_null)) by done.
  by rewrite !andb_false_r, !andb_false_l.
Qed.

(** A write does not bring back the state of the block that is undone. *)
Lemma kept_state_cleared m m' : kept_state fUndo deleteHash m m' -> m !! deleteHash = None -> m' !! deleteHash = None.
Proof. intros [->|[_ ->]] H; [done|]. unfold ClearState. apply lookup_delete_eq. Qed.

Lemma kept_state_final m m' : kept_state fUndo deleteHash m m' -> m' !! deleteHash = None -> m' = ClearState m deleteHash.
Proof. intros [->|[_ ->]] H; [|done]. unfold ClearState. by rewrite delete_id. Qed.

Lemma creation_known tx : known tx -> exists b, creation index tx = Some b.
Proof. intros [Hn [b Hb]]. exists b. unfold creation. by rewrite bool_decide_false. Qed.

(** A loop over records of one kind that clears the state of each it reaches. *)
Lemma undo_loop {X F : Type} (get : View -> gmap (list Z) X) (fx : X -> F) (ms : X -> gmap (list Z) flags) (N : View -> X -> Prop) f l s s' :
  (forall v v', kept fUndo deleteHash v v' -> forall id, option_Forall2 (fun x x' => fx x' = fx x /\ kept_state fUndo deleteHash (ms x) (ms x')) (get v !! id) (get v' !! id)) ->
  (forall v v' x x', kept fUndo deleteHash v v' -> fx x' = fx x -> N v x -> N v' x') ->
  (forall id s s', f id s = Some s' -> keeps s s') ->
  (forall id s s' x, get (view s) !! id = Some x -> N (view s) x -> f id s = Some s' -> exists x', get (view s') !! id = Some x' /\ ms x' !! deleteHash = None) ->
  for_each f l s = Some s' -> forall id x, id ∈ l -> get (view s) !! id = Some x -> N (view s) x ->
  exists x', get (view s') !! id = Some x' /\ ms x' !! deleteHash = None.
Proof.
  intros Hget HN Hf Hclear Hrun id x Hin Hx Hn.
  destruct (for_each_at (fun s s' => keeps s s') f l id s s' Hf Hin Hrun) as (t & t' & K1 & Ht & K2).
  pose proof (Hget _ _ K1 id) as G1. rewrite Hx in G1. inversion G1 as [? x1 [F1 _] E1 E2|]; subst.
  destruct (Hclear id t t' x1 ltac:(done) (HN _ _ _ _ K1 F1 Hn) Ht) as (x2 & Hx2 & Hc).
  pose proof (Hget _ _ K2 id) as G2. rewrite Hx2 in G2. inversion G2 as [? x3 [_ K3] E3 E4|]; subst. exists x3. split; [done|]. by eapply kept_state_cleared.
Qed.

Lemma kept_named_p v v' p p' : kept fUndo deleteHash v v' -> p_fixed p' = p_fixed p -> named_p p -> named_p p'.
Proof. intros _ E [H1 H2]. unfold p_fixed in E. injection E as E1 E2 E3 E4. split; by rewrite ?E3, ?E1. Qed.
Lemma kept_named_r v v' r r' : kept fUndo deleteHash v v' -> r_fixed r' = r_fixed r -> named_r v r -> named_r v' r'.
Proof.
  intros K E (H1 & H2 & p & Hp & Hd). unfold r_fixed in E. injection E as E1 E2 E3. split_and!; [by rewrite E3|by rewrite E1|]. rewrite E2.
  pose proof (kept_proposals _ _ _ _ K (CPaymentRequest.proposalhash r)) as G. rewrite Hp in G. inversion G as [? p' [F _] E4 E5|]; subst.
  exists p'. split; [done|]. unfold p_fixed in F. injection F as _ _ F _. by rewrite F.
Qed.
Lemma kept_named_c v v' c c' : kept fUndo deleteHash v v' -> c_fixed c' = c_fixed c -> named_c c -> named_c c'.
Proof. intros _ E [H1 H2]. unfold c_fixed in E. injection E as E1 E2. split; by rewrite ?E2, ?E1. Qed.
Lemma kept_named_a v v' a a' : kept fUndo deleteHash v v' -> a_fixed a' = a_fixed a -> named_a a -> named_a a'.
Proof. intros _ E [H1 H2]. unfold a_fixed in E. injection E as E1 E2. split; by rewrite ?E2, ?E1. Qed.

Lemma advancing_loops_kept kr kp kc ka s s' : fUndo = true -> advancing_loops true true kr kp kc ka s = Some s' -> keeps s s'.
Proof.
  intros Hu H. unfold advancing_loops in H. next H t1 E1. next H t2 E2. next H t3 E3.
  transitivity (view t1); [eapply fund_loop_kept; [|exact E1]; intros; eapply advance_kept; eauto|].
  transitivity (view t2); [eapply fund_loop_kept; [|exact E2]; intros; eapply advance_kept; eauto|].
  transitivity (view t3); [eapply fund_loop_kept; [|exact E3]; intros; eapply advance_kept; eauto 6|].
  eapply fund_loop_kept; [|exact H]; intros; eapply advance_kept; eauto 6.
Qed.

(** Each body clears the state of the record it is for. *)
Lemma advance_proposal_clears id s s' p :
  fUndo = true -> vProposals (view s) !! id = Some p -> named_p p ->
  advance_proposal dp index newHash newHeight newTime fUndo deleteHash nCycleLength id s = Some s' ->
  exists p', vProposals (view s') !! id = Some p' /\ CProposal.mapState p' !! deleteHash = None.
Proof.
  intros Hu Hp [Hd Hk]. unfold advance_proposal. rewrite (named_p_present _ _ _ Hp Hd). destruct (creation_known _ Hk) as [b ->].
  destruct (voting_cycles _ _ _ _) as [n|]; [|done]. cbn [mbind option_bind]. rewrite Hu. intros [= <-]. eexists. split; [apply lookup_insert_eq|].
  rewrite (proj2 (undo_proposal_kept p n)). apply lookup_delete_eq.
Qed.

Lemma advance_prequest_clears id s s' r :
  fUndo = true -> vPaymentRequests (view s) !! id = Some r -> named_r (view s) r ->
  advance_prequest dp index newHash newHeight fUndo deleteHash nCycleLength id s = Some s' ->
  exists r', vPaymentRequests (view s') !! id = Some r' /\ CPaymentRequest.mapState r' !! deleteHash = None.
Proof.
  intros Hu Hr (Hd & [Hn [b Hb]] & p & Hp & Hpd). unfold advance_prequest. rewrite (named_r_present _ _ _ Hr Hd), bool_decide_false by done.
  unfold prequest_creation. rewrite Hb. cbn [mbind option_bind]. destruct (voting_cycles _ _ _ _) as [n|]; [|done]. cbn [mbind option_bind].
  rewrite (named_p_present _ _ _ Hp Hpd), Hu. intros [= <-]. eexists. split; [apply lookup_insert_eq|].
  rewrite (proj2 (undo_prequest_kept r n)). apply lookup_delete_eq.
Qed.

Lemma advance_consultation_clears id s s' c :
  fUndo = true -> vConsultations (view s) !! id = Some c -> named_c c ->
  advance_consultation dp index newHash newHeight fUndo deleteHash nCycleLength id s = Some s' ->
  exists c', vConsultations (view s') !! id = Some c' /\ CConsultation.mapState c' !! deleteHash = None.
Proof.
  intros Hu Hc [Hd Hk]. unfold advance_consultation. rewrite (named_c_present _ _ _ Hc Hd). destruct (creation_known _ Hk) as [b ->].
  destruct (voting_cycles _ _ _ _) as [n|]; [|done]. cbn [mbind option_bind]. rewrite Hu. intros [= <-]. eexists. split; [apply lookup_insert_eq|].
  rewrite (proj2 (undo_consultation_kept c n)). apply lookup_delete_eq.
Qed.

Lemma advance_answer_clears id s s' a :
  fUndo = true -> vAnswers (view s) !! id = Some a -> named_a a ->
  advance_answer dp index newHash newHeight fUndo deleteHash nCycleLength id s = Some s' ->
  exists a', vAnswers (view s') !! id = Some a' /\ CConsultationAnswer.mapState a' !! deleteHash = None.
Proof.
  intros Hu Ha [Hd Hk]. unfold advance_answer. rewrite (named_a_present _ _ _ Ha Hd). destruct (creation_known _ Hk) as [b ->]. rewrite Hu.
  intros [= <-]. eexists. split; [apply lookup_insert_eq|]. apply lookup_delete_eq.
Qed.

(** From the start of a loop over the records to the end of the step. *)
Lemma undo_through {X F : Type} (get : View -> gmap (list Z) X) (fx : X -> F) (ms : X -> gmap (list Z) flags) (null : X -> bool) (N : View -> X -> Prop) f s0 s1 t t' s' :
  (forall v v', kept fUndo deleteHash v v' -> forall id, option_Forall2 (fun x x' => fx x' = fx x /\ kept_state fUndo deleteHash (ms x) (ms x')) (get v !! id) (get v' !! id)) ->
  (forall v v' x x', kept fUndo deleteHash v v' -> fx x' = fx x -> N v x -> N v' x') ->
  (forall v id x, get v !! id = Some x -> N v x -> present null (get v !! id) = Some x) ->
  (forall id s s', f id s = Some s' -> keeps s s') ->
  (forall id s s' x, get (view s) !! id = Some x -> N (view s) x -> f id s = Some s' -> exists x', get (view s') !! id = Some x' /\ ms x' !! deleteHash = None) ->
  keeps s0 s1 -> keeps s1 t -> fund_loop true (all_keys null (get (view s1))) f t = Some t' -> keeps t' s' ->
  forall id x, get (view s0) !! id = Some x -> N (view s0) x -> exists x', get (view s') !! id = Some x' /\ ms x' = ClearState (ms x) deleteHash.
Proof.
  intros Hget HN Hpres Hf Hclear K01 K1t Hrun Kts id x Hx Hn.
  pose proof (Hget _ _ K01 id) as G1. rewrite Hx in G1. inversion G1 as [? x1 [F1 M1] E1' E1|]; subst. symmetry in E1.
  pose proof (HN _ _ _ _ K01 F1 Hn) as N1.
  assert (id ∈ all_keys null (get (view s1))) as Hin by (apply elem_of_all_keys; rewrite (Hpres _ _ _ E1 N1); eauto).
  pose proof (Hget _ _ K1t id) as G2. rewrite E1 in G2. inversion G2 as [? x2 [F2 M2] E2' E2|]; subst. symmetry in E2.
  destruct (undo_loop get fx ms N f _ t t' Hget HN Hf Hclear Hrun id x2 Hin E2 (HN _ _ _ _ K1t F2 N1)) as (x3 & E3 & C3).
  assert (keeps t t') as Ktt' by (eapply fund_loop_kept; [exact Hf|exact Hrun]).
  pose proof (Hget _ _ Ktt' id) as G3. rewrite E2, E3 in G3. inversion G3 as [? ? [_ M3]|]; subst.
  pose proof (Hget _ _ Kts id) as G4. rewrite E3 in G4. inversion G4 as [? x4 [_ M4] E4' E4|]; subst. exists x4. split; [done|].
  apply kept_state_final; [|by eapply kept_state_cleared]. etrans; [exact M1|]. etrans; [exact M2|]. etrans; [exact M3|exact M4].
Qed.

Lemma update_records_undo c s s' :
  fUndo = true ->
  update_records dp index newHash newHeight newTime fUndo deleteHash nCycleLength fScanningWholeCycle true true c s = Some s' ->
  (forall id p, vProposals (view s) !! id = Some p -> named_p p ->
     exists p', vProposals (view s') !! id = Some p' /\ CProposal.mapState p' = ClearState (CProposal.mapState p) deleteHash) /\
  (forall id r, vPaymentRequests (view s) !! id = Some r -> named_r (view s) r ->
     exists r', vPaymentRequests (view s') !! id = Some r' /\ CPaymentRequest.mapState r' = ClearState (CPaymentRequest.mapState r) deleteHash) /\
  (forall id c, vConsultations (view s) !! id = Some c -> named_c c ->
     exists c', vConsultations (view s') !! id = Some c' /\ CConsultation.mapState c' = ClearState (CConsultation.mapState c) deleteHash) /\
  (forall id a, vAnswers (view s) !! id = Some a -> named_a a ->
     exists a', vAnswers (view s') !! id = Some a' /\ CConsultationAnswer.mapState a' = ClearState (CConsultationAnswer.mapState a) deleteHash).
Proof.
  intros Hu H. apply update_records_phases in H as (s1 & s2 & s3 & H). cbv zeta in H. destruct H as (E1 & E2 & E3 & E4).
  apply writing_loops_kept in E1. apply excluding_loops_kept in E2. apply final_loops_kept in E4.
  unfold advancing_loops in E3. next E3 t1 L1. next E3 t2 L2. next E3 t3 L3.
  assert (keeps s2 t1) as K1 by (eapply fund_loop_kept; [|exact L1]; intros; eapply advance_kept; eauto).
  assert (keeps t1 t2) as K2 by (eapply fund_loop_kept; [|exact L2]; intros; eapply advance_kept; eauto).
  assert (keeps t2 t3) as K3 by (eapply fund_loop_kept; [|exact L3]; intros; eapply advance_kept; eauto 6).
  assert (keeps t3 s3) as K4 by (eapply fund_loop_kept; [|exact E3]; intros; eapply advance_kept; eauto 6).
  assert (keeps s1 t1) as J1 by (by etrans). assert (keeps s1 t2) as J2 by (by etrans). assert (keeps s1 t3) as J3 by (by etrans).
  assert (keeps t3 s') as I3 by (by etrans). assert (keeps t2 s') as I2 by (by etrans). assert (keeps t1 s') as I1 by (by etrans).
  split_and!.
  - apply (undo_through vProposals p_fixed CProposal.mapState CProposal.IsNull (fun _ => named_p)
      (advance_proposal dp index newHash newHeight newTime fUndo deleteHash nCycleLength) s s1 t1 t2 s'); try done.
    + apply kept_proposals. + intros; by eapply kept_named_p. + intros v id x Hx [Hd _]. by apply named_p_present.
    + intros; eapply advance_kept; eauto. + intros; by eapply advance_proposal_clears.
  - apply (undo_through vPaymentRequests r_fixed CPaymentRequest.mapState CPaymentRequest.IsNull named_r
      (advance_prequest dp index newHash newHeight fUndo deleteHash nCycleLength) s s1 s2 t1 s'); try done.
    + apply kept_prequests. + intros; by eapply kept_named_r. + intros v id x Hx [Hd _]. by apply named_r_present.
    + intros; eapply advance_kept; eauto. + intros; by eapply advance_prequest_clears.
  - apply (undo_through vConsultations c_fixed CConsultation.mapState CConsultation.IsNull (fun _ => named_c)
      (advance_consultation dp index newHash newHeight fUndo deleteHash nCycleLength) s s1 t3 s3 s'); try done.
    + apply kept_consultations. + intros; by eapply kept_named_c. + intros v id x Hx [Hd _]. by apply named_c_present.
    + intros; eapply advance_kept; eauto 6. + intros; by eapply advance_consultation_clears.
  - apply (undo_through vAnswers a_fixed CConsultationAnswer.mapState CConsultationAnswer.IsNull (fun _ => named_a)
      (advance_answer dp index newHash newHeight fUndo deleteHash nCycleLength) s s1 t2 t3 s'); try done.
    + apply kept_answers. + intros; by eapply kept_named_a. + intros v id x Hx [Hd _]. by apply named_a_present.
    + intros; eapply advance_kept; eauto 6. + intros; by eapply advance_answer_clears.
Qed.

End Step.

(** ** Main results *)

Ltac next H s E := match type of H with (?o ≫= _) = _ => destruct o as [s|] eqn:E; [|discriminate H]; cbn [mbind option_bind] in H end.

(** The parts of a step that returned. *)
Lemma VoteStep_inv params dp Hash bv index v g p fUndo caches r :
  VoteStep params dp Hash bv index v g p fUndo caches = Some r ->
  exists pn b bd nh dh f1 c1 f2 c2 c last whole s',
    step_block (entries index) p fUndo = Some pn /\ entries index !! pn = Some b /\ entries index !! p = Some bd /\
    GetBlockHash b = Some nh /\ GetBlockHash bd = Some dh /\
    IsCommunityFundEnabled (entries index) params (pprev b) caches = Some (f1, c1) /\ IsDAOEnabled (entries index) params (pprev b) c1 = Some (f2, c2) /\
    update_records dp index nh (nHeight b) (GetBlockTime b) fUndo dh (cycle_length dp v) whole f1 f2 c
      {| view := v; cfSupply := nCFSupply b; cfLocked := nCFLocked b; mapSeen := ∅; mapSeenSupport := ∅;
         mapAlreadyCleared := ∅; vClearAnswers := []; mapConsensusToChange := ∅ |} = Some s' /\
    r = (view s', {| tally_cache := c; lastConsensusStateHash := last |}, <[pn := set_funds b (cfSupply s') (cfLocked s')]> (entries index), c2).
Proof.
  unfold VoteStep. intros H. next H pn E1. next H b E2. next H bd E3. next H nh E4. next H dh E5.
  destruct (IsCommunityFundEnabled _ _ _ _) as [[f1 c1]|] eqn:E6; [|discriminate H]. cbn [mbind option_bind] in H.
  destruct (IsDAOEnabled _ _ _ _) as [[f2 c2]|] eqn:E7; [|discriminate H]. cbn [mbind option_bind] in H.
  destruct (CountVotes _ _ _ _ _ _ _ _ _ _ _) as [[[c last] whole]|]; [|discriminate H]. cbn [mbind option_bind] in H.
  next H s' E8. injection H as <-. exists pn, b, bd, nh, dh, f1, c1, f2, c2, c, last, whole, s'. split_and!; done.
Qed.

(** The states stay as they are, or at the end of a voting cycle one state is recorded
    under the hash of the block, is the last state from then on, and follows the last
    state of before by an edge. *)
Definition steps_to (index : BlockTree) (hash : list Z) (height L : Z) (E : flags -> flags -> Prop) (m m' : gmap (list Z) flags) : Prop :=
  m' = m \/
  (end_of_cycle height L = Some true /\ exists st, m' = SetState m hash st /\ GetLastState index m' = st /\ E (GetLastState index m) st).

Lemma moved_steps_to index hash height L b E m m' :
  index_entry index hash = Some b -> nHeight b = height -> 0 < height -> states_below index hash height m ->
  moved index hash height L E m m' -> steps_to index hash height L E m m'.
Proof.
  intros Hb Hh H0 Hm [->|(He & st & -> & HE)]; [by left|]. right. split; [done|]. exists st. split; [done|]. split; [|done]. by apply (GetLastState_set index hash height m st b).
Qed.

(** C8. The records follow their state machines: when a block is connected, the states of
    every record stay as they are, except that at the end of a voting cycle a record
    may take one step, whose state is recorded under the hash of the block and is the
    record's last state from then on.  A proposal with BASE_VERSION that is stored
    under its own hash goes from pending to accepted, rejected, expired or waiting
    for funds, and never leaves rejected or expired; a request is accepted only from
    pending; a consultation goes through support, reflection and voting in this order
    and then passes or expires; an answer is accepted from pending and passes once.
    The states that are there belong to lower blocks ([states_below]). *)
Theorem dao_state_machines params dp Hash bv index v g p b hash caches v' g' h' caches' :
  entries index !! p = Some b -> phashBlock b = Some hash -> mapBlockIndex index !! hash = Some p -> 0 < nHeight b ->
  VoteStep params dp Hash bv index v g p false caches = Some (v', g', h', caches') ->
  (forall id p0, vProposals v !! id = Some p0 -> CProposal.hash p0 = id -> has (CProposal.nVersion p0) CProposal.BASE_VERSION = true ->
     states_below index hash (nHeight b) (CProposal.mapState p0) ->
     exists p1, vProposals v' !! id = Some p1 /\ steps_to index hash (nHeight b) (cycle_length dp v) proposal_edge (CProposal.mapState p0) (CProposal.mapState p1)) /\
  (forall id r0, vPaymentRequests v !! id = Some r0 -> states_below index hash (nHeight b) (CPaymentRequest.mapState r0) ->
     exists r1, vPaymentRequests v' !! id = Some r1 /\ steps_to index hash (nHeight b) (cycle_length dp v) request_edge (CPaymentRequest.mapState r0) (CPaymentRequest.mapState r1)) /\
  (forall id c0, vConsultations v !! id = Some c0 -> states_below index hash (nHeight b) (CConsultation.mapState c0) ->
     exists c1, vConsultations v' !! id = Some c1 /\ steps_to index hash (nHeight b) (cycle_length dp v) consultation_edge (CConsultation.mapState c0) (CConsultation.mapState c1)) /\
  (forall id a0, vAnswers v !! id = Some a0 -> states_below index hash (nHeight b) (CConsultationAnswer.mapState a0) ->
     exists a1, vAnswers v' !! id = Some a1 /\ steps_to index hash (nHeight b) (cycle_length dp v) answer_edge (CConsultationAnswer.mapState a0) (CConsultationAnswer.mapState a1)).
Proof.
  intros Hp Hh Hm H0 Hrun. apply VoteStep_inv in Hrun as (pn & b' & bd & nh & dh & f1 & c1 & f2 & c2 & c & last & whole & s' & E1 & E2 & _ & E4 & _ & _ & _ & Hupd & [= -> -> -> ->]).
  injection E1 as <-. rewrite Hp in E2. injection E2 as <-. unfold GetBlockHash in E4. rewrite Hh in E4. injection E4 as <-.
  assert (index_entry index hash = Some b) as Hb by (unfold index_entry; rewrite Hm; exact Hp).
  pose proof (update_records_moves _ _ _ _ _ _ _ _ _ _ _ _ _ _ eq_refl Hupd) as HM. cbn [view] in HM.
  split_and!; intros id x Hx; destruct (HM id) as (Mp & Mr & Mc & Ma).
  - intros Hid Hv Hb0. rewrite Hx in Mp. inversion Mp as [? x1 [_ M] E3 E5|]; subst. exists x1. split; [done|]. apply (moved_steps_to _ hash _ _ b); try done.
    destruct M as [->|(He & st & -> & HE)]; [by left|]. right. split; [done|]. exists st. auto.
  - intros Hb0. rewrite Hx in Mr. inversion Mr as [? x1 [_ M] E3 E5|]; subst. exists x1. split; [done|]. by apply (moved_steps_to _ hash _ _ b).
  - intros Hb0. rewrite Hx in Mc. inversion Mc as [? x1 [_ M] E3 E5|]; subst. exists x1. split; [done|]. by apply (moved_steps_to _ hash _ _ b).
  - intros Hb0. rewrite Hx in Ma. inversion Ma as [? x1 [_ M] E3 E5|]; subst. exists x1. split; [done|]. by apply (moved_steps_to _ hash _ _ b).
Qed.

Lemma dao_state_machines_witness :
  exists v' g' h' caches', VoteStep demo_params demo_dao_params id demo_fund_votes demo_fund_index demo_fund_view demo_globals 19 false VersionBitsCache_Clear = Some (v', g', h', caches') /\
    exists p1, vProposals v' !! [77] = Some p1 /\ steps_to demo_fund_index [19] 19 4 proposal_edge ∅ (CProposal.mapState p1).
Proof.
  destruct (VoteStep demo_params demo_dao_params id demo_fund_votes demo_fund_index demo_fund_view demo_globals 19 false VersionBitsCache_Clear)
    as [[[[v' g'] h'] caches']|] eqn:E; [|assert (is_Some (VoteStep demo_params demo_dao_params id demo_fund_votes demo_fund_index demo_fund_view demo_globals 19 false VersionBitsCache_Clear))
      as [? ?] by (eexists; vm_compute; reflexivity); congruence].
  exists v', g', h', caches'. split; [reflexivity|].
  refine (proj1 (dao_state_machines demo_params demo_dao_params id demo_fund_votes demo_fund_index demo_fund_view demo_globals 19
    (entry_at demo_fund_heap 19) [19] VersionBitsCache_Clear v' g' h' caches' _ _ _ _ E) [77] (demo_proposal 77 50 ∅) _ _ _ _); try (vm_compute; reflexivity).
  apply states_belowb_sound. vm_compute. reflexivity.
Defined.

(** *** Payments *)

(** An output of the coinbase that pays a request: the request that the metadata of the
    coinbase name, the value, and the address as text when the script has one. *)
Record payment := { pay_prid : list Z; pay_value : Z; pay_address : option cstring }.

(** The payment of one request in [ConnectBlock] ([prevHeight] is the height of the
    parent): the checks, and the new state of the request.  [None] is a rejected block. *)
Definition pay_request (index : BlockTree) (hash : list Z) (prevHeight forkHeight minAge : Z) (v : View) (x : payment) : option View :=
  prequest ← GetPaymentRequest v (pay_prid x);
  proposal ← GetProposal v (CPaymentRequest.proposalhash prequest);
  address ← pay_address x;
  let fv452Fork := forkHeight <=? prevHeight in
  if negb (pay_value x =? CPaymentRequest.nAmount prequest) ||
     (fv452Fork && bool_decide (GetLastState index (CPaymentRequest.mapState prequest) <> ACCEPTED)) ||
     bool_decide (CProposal.GetPaymentAddress proposal <> address) then None
  else
    mature ← (if fv452Fork then
                pblockindex ← GetLastStateBlockIndexForState index (CPaymentRequest.mapState prequest) ACCEPTED;
                Some (minAge <? prevHeight - nHeight pblockindex)
              else Some true);
    if (mature : bool) then
      Some (put_prequest v (pay_prid x) (CPaymentRequest.with_states prequest (SetState (CPaymentRequest.mapState prequest) hash PAID)))
    else None.

Fixpoint pay_requests (index : BlockTree) (hash : list Z) (prevHeight forkHeight minAge : Z) (v : View) (xs : list payment) : option View :=
  match xs with
  | [] => Some v
  | x :: xs => v ← pay_request index hash prevHeight forkHeight minAge v x; pay_requests index hash prevHeight forkHeight minAge v xs
  end.

(** Payments change no record but the states of requests under the hash of the block. *)
Definition paid_r (hash : list Z) (r r' : CPaymentRequest.t) : Prop :=
  r_fixed r' = r_fixed r /\ ClearState (CPaymentRequest.mapState r') hash = ClearState (CPaymentRequest.mapState r) hash.

Lemma pay_requests_keep index hash prevHeight forkHeight minAge v xs v' : pay_requests index hash prevHeight forkHeight minAge v xs = Some v' ->
  vProposals v' = vProposals v /\ vConsultations v' = vConsultations v /\ vAnswers v' = vAnswers v /\
  forall id, option_Forall2 (paid_r hash) (vPaymentRequests v !! id) (vPaymentRequests v' !! id).
Proof.
  revert v. induction xs as [|x xs IH]; intros v H; cbn [pay_requests] in H; [injection H as <-; split_and!; try done; intros id; destruct (_ !! id); by constructor|].
  next H v1 E. destruct (IH v1 H) as (Ip & Ic & Ia & Ir). unfold pay_request in E. destruct (GetPaymentRequest v (pay_prid x)) as [r|] eqn:Hr; [|done]. cbn [mbind option_bind] in E.
  next E proposal E1. next E address E2. destruct (_ || _); [done|]. next E mature E3. destruct mature; [|done]. injection E as <-. split_and!; try done.
  intros id. specialize (Ir id). apply present_Some in Hr as [Hr _]. cbn [vPaymentRequests put_prequest] in Ir. destruct (decide (pay_prid x = id)) as [<-|Hne]; [|by rewrite lookup_insert_ne in Ir].
  rewrite lookup_insert_eq in Ir. rewrite Hr. inversion Ir as [? r2 [F C] E4 E5|]; subst. constructor. split; [exact F|]. rewrite C. cbn [CPaymentRequest.mapState CPaymentRequest.with_states].
  unfold ClearState, SetState. apply delete_insert_eq.
Qed.

(** C9. Undoing a block takes back what the block did to the states.  A block is connected
    (it pays requests, which [ConnectBlock] marks as PAID under its hash, and [VoteStep]
    runs for it) and then undone by [VoteStep], with the fund and the consultations
    active on both sides.  Then every record from before is again in exactly the states
    it was in; the hypothesis is that the record is described and was created in a known
    block, as [VoteStep] assumes, and has no state under the hash of the block yet. *)
Theorem undo_restores_states params dp Hash bv bv' index v payments minAge v0 g g' p b hash caches v1 g1 h1 caches1 caches2 index1 parent bparent c1 c2 v2 g2 h2 caches3 :
  entries index !! p = Some b -> phashBlock b = Some hash -> pprev b = Some parent ->
  pay_requests index hash (nHeight b - 1) (nHeightv452Fork params) minAge v payments = Some v0 ->
  VoteStep params dp Hash bv index v0 g p false caches = Some (v1, g1, h1, caches1) ->
  entries index1 = h1 -> mapBlockIndex index1 = mapBlockIndex index ->
  VoteStep params dp Hash bv' index1 v1 g' p true caches2 = Some (v2, g2, h2, caches3) ->
  h1 !! parent = Some bparent ->
  IsCommunityFundEnabled h1 params (pprev bparent) caches2 = Some (true, c1) -> IsDAOEnabled h1 params (pprev bparent) c1 = Some (true, c2) ->
  (forall id x, vProposals v !! id = Some x -> named_p index x -> CProposal.mapState x !! hash = None ->
     exists x2, vProposals v2 !! id = Some x2 /\ CProposal.mapState x2 = CProposal.mapState x) /\
  (forall id x, vPaymentRequests v !! id = Some x -> named_r index v x -> CPaymentRequest.mapState x !! hash = None ->
     exists x2, vPaymentRequests v2 !! id = Some x2 /\ CPaymentRequest.mapState x2 = CPaymentRequest.mapState x) /\
  (forall id x, vConsultations v !! id = Some x -> named_c index x -> CConsultation.mapState x !! hash = None ->
     exists x2, vConsultations v2 !! id = Some x2 /\ CConsultation.mapState x2 = CConsultation.mapState x) /\
  (forall id x, vAnswers v !! id = Some x -> named_a index x -> CConsultationAnswer.mapState x !! hash = None ->
     exists x2, vAnswers v2 !! id = Some x2 /\ CConsultationAnswer.mapState x2 = CConsultationAnswer.mapState x).
Proof.
  intros Hp Hh Hpar Hpay Hrun1 Hent Hmap Hrun2 Hbpar Hcf Hdao. apply pay_requests_keep in Hpay as (Kp & Kc & Ka & Kr).
  apply VoteStep_inv in Hrun1 as (pn & b' & bd & nh & dh & f1 & d1 & f2 & d2 & c & last & whole & s1 & E1 & E2 & _ & E4 & _ & _ & _ & Hupd1 & [= -> -> -> ->]).
  injection E1 as <-. rewrite Hp in E2. injection E2 as <-. unfold GetBlockHash in E4. rewrite Hh in E4. injection E4 as <-.
  apply VoteStep_inv in Hrun2 as (pn2 & b2 & bd2 & nh2 & dh2 & f3 & d3 & f4 & d4 & c' & last' & whole' & s2 & F1 & F2 & F3 & F4 & F5 & F6 & F7 & Hupd2 & [= -> -> -> ->]).
  rewrite Hent in *. rewrite lookup_insert_eq in F3. injection F3 as <-. unfold GetBlockHash in F5. cbn [phashBlock set_funds] in F5. rewrite Hh in F5. injection F5 as <-.
  unfold step_block in F1. rewrite lookup_insert_eq in F1. cbn [mbind option_bind pprev set_funds] in F1. rewrite Hpar in F1. injection F1 as <-.
  rewrite Hbpar in F2. injection F2 as <-. rewrite Hcf in F6. injection F6 as <- <-. rewrite Hdao in F7. injection F7 as <- <-.
  pose proof (update_records_moves _ _ _ _ _ _ _ _ _ _ _ _ _ _ eq_refl Hupd1) as HM. cbn [view] in HM.
  apply update_records_undo in Hupd2 as (Up & Ur & Uc & Ua); [|done]. cbn [view] in *.
  assert (forall tx, known index tx -> known index1 tx) as Hkn.
  { intros tx [Hn [bb Hbb]]. split; [done|]. unfold index_entry in *. rewrite Hmap, Hent. destruct (mapBlockIndex index !! tx) as [q|]; [|done]. cbn in *.
    destruct (decide (p = q)) as [->|Hne]; [rewrite lookup_insert_eq; eauto|rewrite lookup_insert_ne by done; eauto]. }
  assert (forall E m m', moved index hash (nHeight b) (cycle_length dp v0) E m m' -> ClearState m' hash = ClearState m hash) as Hback.
  { intros E m m' [->|(_ & st & -> & _)]; [done|]. unfold ClearState, SetState. apply delete_insert_eq. }
  assert (forall m : gmap (list Z) flags, m !! hash = None -> ClearState m hash = m) as Hid by (intros m Hm; unfold ClearState; by rewrite delete_id).
  split_and!; intros id x Hx Hn Hfresh; destruct (HM id) as (Mp & Mr & Mc & Ma).
  - rewrite Kp, Hx in Mp. inversion Mp as [? x1 [F M] G1 G2|]; subst. destruct (Up id x1 ltac:(done)) as (x2 & Hx2 & Em).
    + destruct Hn as [N1 N2]. unfold p_fixed in F. injection F as E1 E2 E3 E4. split; [by rewrite E3|rewrite E1; by apply Hkn].
    + exists x2. split; [done|]. rewrite Em, (Hback _ _ _ M). by apply Hid.
  - specialize (Kr id). rewrite Hx in Kr. inversion Kr as [? x0 [F0 C0] G5 G6|]; subst. rewrite <- G6 in Mr.
    inversion Mr as [? x1 [F M] G1 G2|]; subst. destruct (Ur id x1 ltac:(done)) as (x2 & Hx2 & Em).
    + destruct Hn as (N1 & N2 & q & Hq & Hqd). rewrite F0 in F. unfold r_fixed in F. injection F as E1 E2 E3. split_and!; [by rewrite E3|rewrite E1; by apply Hkn|]. rewrite E2.
      destruct (HM (CPaymentRequest.proposalhash x)) as (Mq & _). rewrite Kp, Hq in Mq. inversion Mq as [? q1 [F' _] G3 G4|]; subst. exists q1. split; [done|].
      unfold p_fixed in F'. injection F' as _ _ F' _. by rewrite F'.
    + exists x2. split; [done|]. rewrite Em, (Hback _ _ _ M), C0. by apply Hid.
  - rewrite Kc, Hx in Mc. inversion Mc as [? x1 [F M] G1 G2|]; subst. destruct (Uc id x1 ltac:(done)) as (x2 & Hx2 & Em).
    + destruct Hn as [N1 N2]. unfold c_fixed in F. injection F as E1 E2. split; [by rewrite E2|rewrite E1; by apply Hkn].
    + exists x2. split; [done|]. rewrite Em, (Hback _ _ _ M). by apply Hid.
  - rewrite Ka, Hx in Ma. inversion Ma as [? x1 [F M] G1 G2|]; subst. destruct (Ua id x1 ltac:(done)) as (x2 & Hx2 & Em).
    + destruct Hn as [N1 N2]. unfold a_fixed in F. injection F as E1 E2. split; [by rewrite E2|rewrite E1; by apply Hkn].
    + exists x2. split; [done|]. rewrite Em, (Hback _ _ _ M). by apply Hid.
Qed.

(** The block of the example pays the request [[99]], and is undone again. *)
Definition demo_payment : payment := {| pay_prid := [99]; pay_value := 15; pay_address := Some [65] |}.
Definition demo_paid_view : View := default empty_view (pay_requests demo_fund_index [19] 18 20 0 demo_fund_view [demo_payment]).
Definition demo_connected : View * DaoGlobals * heap * VersionBitsCache :=
  default (empty_view, demo_globals, ∅, VersionBitsCache_Clear)
    (VoteStep demo_params demo_dao_params id demo_fund_votes demo_fund_index demo_paid_view demo_globals 19 false VersionBitsCache_Clear).
Definition demo_connected_index : BlockTree := {|
  entries := demo_connected.1.2; mapBlockIndex := mapBlockIndex demo_fund_index; pindexBestHeader := Some 19%nat; setDirtyBlockIndex := ∅ |}.
Definition demo_undone : View * DaoGlobals * heap * VersionBitsCache :=
  default (empty_view, demo_globals, ∅, VersionBitsCache_Clear)
    (VoteStep demo_params demo_dao_params id demo_fund_votes demo_connected_index demo_connected.1.1.1 demo_connected.1.1.2 19 true VersionBitsCache_Clear).

Lemma default_Some {A} (d : A) o : is_Some o -> o = Some (default d o).
Proof. by intros [x ->]. Qed.

Lemma undo_restores_states_witness :
  GetLastState demo_fund_index (CPaymentRequest.mapState (default CPaymentRequest.SetNull (vPaymentRequests demo_paid_view !! [99]))) = PAID /\
  exists x2, vPaymentRequests demo_undone.1.1.1 !! [99] = Some x2 /\ CPaymentRequest.mapState x2 = ∅.
Proof.
  split; [vm_compute; reflexivity|].
  assert (VoteStep demo_params demo_dao_params id demo_fund_votes demo_fund_index demo_paid_view demo_globals 19 false VersionBitsCache_Clear =
    Some (demo_connected.1.1.1, demo_connected.1.1.2, demo_connected.1.2, demo_connected.2)) as E1.
  { transitivity (Some demo_connected); [apply default_Some; eexists; vm_compute; reflexivity|]. by destruct demo_connected as [[[? ?] ?] ?]. }
  assert (VoteStep demo_params demo_dao_params id demo_fund_votes demo_connected_index demo_connected.1.1.1 demo_connected.1.1.2 19 true VersionBitsCache_Clear =
    Some (demo_undone.1.1.1, demo_undone.1.1.2, demo_undone.1.2, demo_undone.2)) as E2.
  { transitivity (Some demo_undone); [apply default_Some; eexists; vm_compute; reflexivity|]. by destruct demo_undone as [[[? ?] ?] ?]. }
  assert (exists s c, GetStateFor demo_connected.1.2 (VersionBitsConditionChecker demo_params DEPLOYMENT_COMMUNITYFUND) (Some 17%nat) ∅ = Some (s, c) /\ s = THRESHOLD_ACTIVE) as (sa & ca & Ea & Sa)
    by (eexists _, _; split; vm_compute; reflexivity).
  assert (exists s c, GetStateFor demo_connected.1.2 (VersionBitsConditionChecker demo_params DEPLOYMENT_CONSULTATIONS) (Some 17%nat) ∅ = Some (s, c) /\ s = THRESHOLD_ACTIVE) as (sb & cb & Eb & Sb)
    by (eexists _, _; split; vm_compute; reflexivity).
  assert (pprev (entry_at demo_connected.1.2 18) = Some 17%nat) as E17 by (vm_compute; reflexivity).
  assert (entries demo_connected_index = demo_connected.1.2) as E3 by (unfold demo_connected_index; cbn [entries]; reflexivity).
  assert (mapBlockIndex demo_connected_index = mapBlockIndex demo_fund_index) as E4 by (unfold demo_connected_index; cbn [mapBlockIndex]; reflexivity).
  refine (proj1 (proj2 (undo_restores_states demo_params demo_dao_params id demo_fund_votes demo_fund_votes demo_fund_index demo_fund_view [demo_payment] 0 demo_paid_view demo_globals demo_connected.1.1.2 19
    (entry_at demo_fund_heap 19) [19] VersionBitsCache_Clear
    demo_connected.1.1.1 demo_connected.1.1.2 demo_connected.1.2 demo_connected.2 VersionBitsCache_Clear demo_connected_index 18 (entry_at demo_connected.1.2 18)
    (VersionBitsCache_set VersionBitsCache_Clear DEPLOYMENT_COMMUNITYFUND ca)
    (VersionBitsCache_set (VersionBitsCache_set VersionBitsCache_Clear DEPLOYMENT_COMMUNITYFUND ca) DEPLOYMENT_CONSULTATIONS cb)
    demo_undone.1.1.1 demo_undone.1.1.2 demo_undone.1.2 demo_undone.2 _ _ _ _ E1 E3 E4 E2 _ _ _)) [99] demo_request _ _ _).
  - vm_compute. reflexivity.
  - vm_compute. reflexivity.
  - vm_compute. reflexivity.
  - vm_compute. reflexivity.
  - vm_compute. reflexivity.
  - rewrite E17. unfold IsCommunityFundEnabled, deployment_active, cbind, VersionBitsState.
    change (VersionBitsCache_Clear DEPLOYMENT_COMMUNITYFUND) with (∅ : ThresholdConditionCache). rewrite Ea, Sa. reflexivity.
  - rewrite E17. unfold IsDAOEnabled, deployment_active, cbind, VersionBitsState.
    change (VersionBitsCache_set VersionBitsCache_Clear DEPLOYMENT_COMMUNITYFUND ca DEPLOYMENT_CONSULTATIONS) with (∅ : ThresholdConditionCache). rewrite Eb, Sb. reflexivity.
  - vm_compute. reflexivity.
  - split; [discriminate|]. split; [split; [discriminate|]; eexists; vm_compute; reflexivity|]. eexists. split; [vm_compute; reflexivity|discriminate].
  - reflexivity.
Defined.
