(* ===== verification/Merkle.v ===== *)
(** * consensus/merkle.cpp: Merkle roots and branches

    The constant-space computation of the Merkle root of a list of leaves: one hash
    per level of the tree, a flag for identical siblings, the branch of one leaf, and
    the final sweep that completes the rightmost path.  It computes the root that the
    definition by levels gives; the branch proves its leaf; and a list of leaves that
    is not reported as mutated is bound by its root up to a collision of the hash.

    Levels and counts stay in the range of the source ([uint32_t], an array of 32
    entries): a shift by 32 or an access beyond the array is [None]. *)

From Stdlib Require Import ZArith Lia.
From stdpp Require Import base tactics numbers list.
From S2P Require Import Prelude Blob.

Section Merkle.

(** [CHash256().Write(a).Write(b).Finalize(...)]: the hash of two joined hashes. *)
Variable hash2 : uint256 -> uint256 -> uint256.

(** ** The code *)

(** The variables of [MerkleComputation] that both phases use. *)
Record MerkleState := {
  inner : list uint256;
  matchlevel : Z;
  pbranch : list uint256;
  mutated : bool
}.

(** [!(count & (((uint32_t)1) << level))]; the shift is defined below 32. *)
Definition bit_clear (count : Z) (level : nat) : option bool :=
  if (level <? 32)%nat then Some (count .& (1 << Z.of_nat level) =? 0) else None.

Definition set_branch (st : MerkleState) (b : list uint256) : MerkleState :=
  {| inner := inner st; matchlevel := matchlevel st; pbranch := b; mutated := mutated st |}.
Definition set_mutated (st : MerkleState) (m : bool) : MerkleState :=
  {| inner := inner st; matchlevel := matchlevel st; pbranch := pbranch st; mutated := m |}.

(** The step that extends the branch: the sibling of the matching hash. *)
Definition extend_branch (fBranch : bool) (level : nat) (left h : uint256) (matchh : bool) (st : MerkleState) : bool * MerkleState :=
  if fBranch then
    if matchh then (matchh, set_branch st (pbranch st ++ [left]))
    else if matchlevel st =? Z.of_nat level then (true, set_branch st (pbranch st ++ [h]))
    else (matchh, st)
  else (matchh, st).

(** The two loops that combine [h] with the hashes on its left while the bit of the
    level is clear; the first one ([track]) also compares the siblings. *)
Fixpoint climb (fuel : nat) (track fBranch : bool) (count : Z) (level : nat) (h : uint256) (matchh : bool) (st : MerkleState) :
  option (nat * uint256 * bool * MerkleState) :=
  match fuel with
  | O => None
  | S fuel =>
      c ← bit_clear count level;
      if (c : bool) then
        left ← inner st !! level;
        let '(matchh, st) := extend_branch fBranch level left h matchh st in
        let st := if track then set_mutated st (mutated st || bool_decide (left = h)) else st in
        climb fuel track fBranch count (S level) (hash2 left h) matchh st
      else Some (level, h, matchh, st)
  end.

(** [inner[level] = h; if (matchh) matchlevel = level;] *)
Definition store (level : nat) (h : uint256) (matchh : bool) (st : MerkleState) : MerkleState := {|
  inner := <[level := h]> (inner st);
  matchlevel := if matchh then Z.of_nat level else matchlevel st;
  pbranch := pbranch st; mutated := mutated st |}.

(** One leaf; the count is a [uint32_t]. *)
Definition add_leaf (fBranch : bool) (branchpos : Z) (leaf : uint256) (cs : Z * MerkleState) : option (Z * MerkleState) :=
  let '(count, st) := cs in
  let matchh := count =? branchpos in
  let count := (count + 1) mod 2 ^ 32 in
  '(level, h, matchh, st) ← climb 33 true fBranch count 0 leaf matchh st;
  Some (count, store level h matchh st).

Fixpoint add_leaves (fBranch : bool) (branchpos : Z) (leaves : list uint256) (cs : Z * MerkleState) : option (Z * MerkleState) :=
  match leaves with
  | [] => Some cs
  | leaf :: leaves => cs ← add_leaf fBranch branchpos leaf cs; add_leaves fBranch branchpos leaves cs
  end.

(** The first level of [count] whose bit is set. *)
Fixpoint lowest_level (fuel : nat) (count : Z) (level : nat) : option nat :=
  match fuel with
  | O => None
  | S fuel => c ← bit_clear count level; if (c : bool) then lowest_level fuel count (S level) else Some level
  end.

(** The final sweep: a hash without a right sibling is combined with itself. *)
Fixpoint sweep (fuel : nat) (fBranch : bool) (count : Z) (level : nat) (h : uint256) (matchh : bool) (st : MerkleState) :
  option (uint256 * MerkleState) :=
  match fuel with
  | O => None
  | S fuel =>
      if (32 <=? level)%nat then None
      else if count =? 1 << Z.of_nat level then Some (h, st)
      else
        let st := if fBranch && matchh then set_branch st (pbranch st ++ [h]) else st in
        let h := hash2 h h in
        let count := (count + (1 << Z.of_nat level)) mod 2 ^ 32 in
        '(level, h, matchh, st) ← climb 33 false fBranch count (S level) h matchh st;
        sweep fuel fBranch count level h matchh st
  end.

(** The root, the flag of mutation and the branch. *)
Definition MerkleComputation (leaves : list uint256) (branchpos : Z) (fBranch : bool) : option (uint256 * bool * list uint256) :=
  if bool_decide (leaves = []) then Some (uint256_null, false, [])
  else
    let st := {| inner := replicate 32 uint256_null; matchlevel := -1; pbranch := []; mutated := false |} in
    '(count, st) ← add_leaves fBranch branchpos leaves (0, st);
    level ← lowest_level 33 count 0;
    h ← inner st !! level;
    '(root, st) ← sweep 33 fBranch count level h (matchlevel st =? Z.of_nat level) st;
    Some (root, mutated st, pbranch st).

Definition ComputeMerkleRoot (leaves : list uint256) : option (uint256 * bool) :=
  '(root, m, _) ← MerkleComputation leaves (2 ^ 32 - 1) false; Some (root, m).

Definition ComputeMerkleBranch (leaves : list uint256) (position : Z) : option (list uint256) :=
  '(_, _, branch) ← MerkleComputation leaves position true; Some branch.

Fixpoint ComputeMerkleRootFromBranch (hash : uint256) (vMerkleBranch : list uint256) (nIndex : Z) : uint256 :=
  match vMerkleBranch with
  | [] => hash
  | it :: rest =>
      let hash := if negb (nIndex .& 1 =? 0) then hash2 it hash else hash2 hash it in
      ComputeMerkleRootFromBranch hash rest (nIndex >> 1)
  end.

(** ** The tree, level by level *)

(** The next level: neighbours are joined, an odd last hash is joined with itself. *)
Fixpoint pair_up (l : list uint256) : list uint256 :=
  match l with
  | x :: y :: l => hash2 x y :: pair_up l
  | [x] => [hash2 x x]
  | [] => []
  end.

Definition level_at (leaves : list uint256) (k : nat) : list uint256 := Nat.iter k pair_up leaves.
Definition tree_height (leaves : list uint256) : nat := Nat.log2_up (length leaves).
Definition merkle_root (leaves : list uint256) : uint256 := default uint256_null (head (level_at leaves (tree_height leaves))).

(** Two siblings of a complete level are equal. *)
Definition duplicated (leaves : list uint256) : Prop :=
  exists k i h, ((2 * i + 2) * 2 ^ k <= length leaves)%nat /\ level_at leaves k !! (2 * i)%nat = Some h /\ level_at leaves k !! (2 * i + 1)%nat = Some h.

(** ** Nodes *)

Section Nodes.
Variable leaves : list uint256.
Abbreviation n := (length leaves).

(** The [i]-th node of level [k]. *)
Fixpoint node (k i : nat) : uint256 :=
  match k with
  | O => default uint256_null (leaves !! i)
  | S k => hash2 (node k (2 * i)) (if decide ((2 * i + 1) * 2 ^ k < n)%nat then node k (2 * i + 1) else node k (2 * i))
  end.

Lemma pow2_pos k : (0 < 2 ^ k)%nat.
Proof. apply Nat.neq_0_lt_0, Nat.pow_nonzero; lia. Qed.

Lemma pair_up_lookup l i :
  pair_up l !! i = (x ← l !! (2 * i)%nat; Some (hash2 x (default x (l !! (2 * i + 1)%nat)))).
Proof.
  revert l i. fix IH 1. intros [|x [|y l]] i; [by destruct i|destruct i as [|i]; [done|]|destruct i as [|i]; [done|]].
  - by replace (2 * S i)%nat with (S (S (2 * i))) by lia.
  - replace (2 * S i)%nat with (S (S (2 * i))) by lia. replace (S (S (2 * i)) + 1)%nat with (S (S (2 * i + 1))) by lia.
    cbn [pair_up lookup list_lookup]. apply IH.
Qed.

(** The level-by-level tree consists of the nodes. *)
Lemma level_node k i :
  level_at leaves k !! i = if decide (i * 2 ^ k < n)%nat then Some (node k i) else None.
Proof.
  revert i. induction k as [|k IH]; intros i; unfold level_at in *; cbn [Nat.iter nat_rect node].
  - rewrite Nat.mul_1_r. case_decide as H; [|by apply lookup_ge_None; lia].
    destruct (lookup_lt_is_Some_2 _ _ H) as [x ->]. done.
  - rewrite pair_up_lookup, !IH. pose proof (pow2_pos k). rewrite Nat.pow_succ_r'.
    repeat case_decide; try nia; done.
Qed.

Lemma node_succ k i : node (S k) i = hash2 (node k (2 * i)) (if decide ((2 * i + 1) * 2 ^ k < n)%nat then node k (2 * i + 1) else node k (2 * i)).
Proof. done. Qed.

(** ** Positions *)

Lemma div_pow_S a k : (a / 2 ^ S k = a / 2 ^ k / 2)%nat.
Proof. rewrite Nat.pow_succ_r', Nat.mul_comm, Nat.Div0.div_div. done. Qed.

(** [c] leaves are complete up to the block of [count] at this level. *)
Lemma div_between c q k : (q * 2 ^ k <= c < (q + 1) * 2 ^ k)%nat -> (c / 2 ^ k = q)%nat.
Proof. intros H. symmetry. apply (Nat.div_unique _ _ _ (c - q * 2 ^ k)); nia. Qed.

Lemma div_bounds c k : ((c / 2 ^ k) * 2 ^ k <= c < (c / 2 ^ k + 1) * 2 ^ k)%nat.
Proof. pose proof (pow2_pos k). pose proof (Nat.div_mod_eq c (2 ^ k)). pose proof (Nat.mod_upper_bound c (2 ^ k)). nia. Qed.

(** The block that contains [pos] and is the last complete one of its level. *)
Definition covers (c pos m : nat) : Prop := Nat.odd (c / 2 ^ m) = true /\ (pos / 2 ^ m = c / 2 ^ m - 1)%nat.

Lemma odd_half a : Nat.odd a = true -> ((a - 1) / 2 = a / 2)%nat /\ (1 <= a)%nat.
Proof. intros H. apply Nat.odd_spec in H as [q ->]. rewrite Nat.add_sub. split; [|lia]. rewrite (Nat.mul_comm 2), Nat.div_mul, Nat.div_add_l; cbn; lia. Qed.

Lemma covers_above c pos m j : covers c pos m -> (m < j)%nat -> (pos / 2 ^ j = c / 2 ^ j)%nat.
Proof.
  intros [Ho Hp] Hj. replace j with (S m + (j - S m))%nat by lia. generalize (j - S m)%nat as d. intros d.
  rewrite Nat.pow_add_r, <- !Nat.Div0.div_div. f_equal. rewrite !div_pow_S, Hp. by apply odd_half.
Qed.

Lemma covers_unique c pos m m' : covers c pos m -> covers c pos m' -> m = m'.
Proof.
  intros H H'. assert (forall i j, covers c pos i -> covers c pos j -> ~ (i < j)%nat) as X.
  { intros i j Hi [Ho Hp] Hl. pose proof (covers_above _ _ _ _ Hi Hl). destruct (odd_half _ Ho). lia. }
  pose proof (X _ _ H H'). pose proof (X _ _ H' H). lia.
Qed.

(** The next count: the block of a level changes only when the level is complete. *)
Lemma div_next c L j q : (c + 1 = q * 2 ^ L)%nat -> Nat.odd q = true -> (L < j)%nat -> ((c + 1) / 2 ^ j = c / 2 ^ j)%nat.
Proof.
  intros Hc Ho Hj. symmetry. apply div_between. pose proof (div_bounds (c + 1) j) as [H1 H2].
  assert ((c + 1) / 2 ^ j * 2 ^ j <> c + 1)%nat as Hne; [|lia].
  intros He. rewrite Hc in He at 2. replace j with (L + 1 + (j - L - 1))%nat in He at 2 by lia.
  rewrite !Nat.pow_add_r in He. pose proof (pow2_pos L).
  apply Nat.odd_spec in Ho as [p ->]. cbn [Nat.pow] in He.
  assert ((c + 1) / 2 ^ j * 2 * 2 ^ (j - L - 1) = 2 * p + 1)%nat by nia. lia.
Qed.

Lemma div_low q L j : (j < L)%nat -> Nat.odd (q * 2 ^ L / 2 ^ j) = false.
Proof.
  intros H. replace L with (j + 1 + (L - j - 1))%nat by lia. rewrite !Nat.pow_add_r. pose proof (pow2_pos j).
  replace (q * (2 ^ j * 2 ^ 1 * 2 ^ (L - j - 1)))%nat with (2 * (q * 2 ^ (L - j - 1)) * 2 ^ j)%nat by (cbn [Nat.pow]; lia).
  rewrite Nat.div_mul by lia. rewrite <- Nat.negb_even, Nat.even_mul. done.
Qed.

Lemma low_bit q : Z.of_nat q .& 1 = if Nat.even q then 0 else 1.
Proof.
  change 1 with (Z.ones 1) at 1. rewrite Z.land_ones by lia. change (2 ^ 1) with 2. rewrite Zmod_even.
  replace (Z.even (Z.of_nat q)) with (Nat.even q); [done|].
  induction q as [|q IH]; [done|]. rewrite Nat2Z.inj_succ, Nat.even_succ, Z.even_succ, <- Nat.negb_even, <- Z.negb_even, IH. done.
Qed.

(** The bit of a level of a count that is a multiple of its power. *)
Lemma bit_clear_spec q L : (L < 32)%nat -> bit_clear (Z.of_nat (q * 2 ^ L)) L = Some (Nat.even q).
Proof.
  intros HL. unfold bit_clear. destruct (Nat.ltb_spec L 32); [|lia]. f_equal.
  replace (Z.of_nat (q * 2 ^ L)) with (Z.of_nat q << Z.of_nat L) by (rewrite Z.shiftl_mul_pow2 by lia; rewrite Nat2Z.inj_mul, Nat2Z.inj_pow; done).
  rewrite <- Z.shiftl_land, low_bit, Z.shiftl_mul_pow2 by lia. pose proof (Z.pow_pos_nonneg 2 (Z.of_nat L)).
  destruct (Nat.even q); [done|]; apply Z.eqb_neq; lia.
Qed.

Lemma level_bound q L : (0 < q)%nat -> (q * 2 ^ L <= 2 ^ 31)%nat -> (L <= 31)%nat.
Proof.
  intros Hq H. destruct (le_lt_dec L 31); [done|exfalso].
  assert (2 ^ 32 <= 2 ^ L)%nat by (apply Nat.pow_le_mono_r; lia). assert (2 ^ 31 < 2 ^ 32)%nat by (apply Nat.pow_lt_mono_r; lia). nia.
Qed.

Abbreviation K := (tree_height leaves).

Lemma height_bounds : (n <= 2 ^ 31)%nat -> (1 <= n)%nat -> (n <= 2 ^ K /\ K <= 31)%nat.
Proof.
  intros Hf Hn. unfold tree_height. split.
  - destruct (decide (n = 1)%nat) as [->|]; [cbn; lia|]. apply Nat.log2_up_spec. lia.
  - transitivity (Nat.log2_up (2 ^ 31)); [by apply Nat.log2_up_le_mono|]. rewrite Nat.log2_up_pow2; lia.
Qed.

Lemma height_unique L : (1 <= n)%nat -> (n <= 2 ^ L)%nat -> (2 ^ L <= 2 ^ K)%nat -> L = K.
Proof.
  intros Hn H1 H2. apply Nat.pow_le_mono_r_iff in H2; [|lia]. apply Nat.le_antisymm; [done|].
  unfold tree_height. rewrite <- (Nat.log2_up_pow2 L) by lia. by apply Nat.log2_up_le_mono.
Qed.

(** ** The loops *)

(** The hashes that [inner] holds after [c] leaves. *)
Definition inner_ok (c : nat) (l : list uint256) : Prop :=
  length l = 32%nat /\ forall j, (j < 32)%nat -> Nat.odd (c / 2 ^ j) = true -> l !! j = Some (node j (c / 2 ^ j - 1)).

(** The pairs of siblings below [c] that are equal. *)
Definition dup_pair (k i : nat) : Prop := node k (2 * i) = node k (2 * i + 1).
Definition dup_upto (c : nat) : Prop := exists k i, ((2 * i + 2) * 2 ^ k <= c)%nat /\ dup_pair k i.

Variable pos : nat.
Hypothesis pos_in : (pos < n)%nat.

(** The sibling of a node, and the siblings of the nodes above the leaf [pos]. *)
Definition sibling (k i : nat) : uint256 :=
  if Nat.odd i then node k (i - 1) else if decide ((i + 1) * 2 ^ k < n)%nat then node k (i + 1) else node k i.
Definition path (m : nat) : list uint256 := (fun j => sibling j (pos / 2 ^ j)) <$> seq 0 m.

Lemma path_S m : path (S m) = path m ++ [sibling m (pos / 2 ^ m)].
Proof. unfold path. rewrite seq_S, fmap_app. done. Qed.

Definition match_ok (c : nat) (st : MerkleState) : Prop :=
  ((c <= pos)%nat /\ matchlevel st = -1 /\ pbranch st = []) \/
  (exists m, matchlevel st = Z.of_nat m /\ covers c pos m /\ pbranch st = path m).

Definition climb_match (c q L : nat) (matchh : bool) (st : MerkleState) : Prop :=
  if matchh then (pos / 2 ^ L = q - 1)%nat /\ pbranch st = path L
  else (pos / 2 ^ L <> q - 1)%nat /\ match_ok c st.

Lemma even_double q : Nat.even q = true -> (1 <= q)%nat -> exists p, q = (2 * p)%nat /\ (1 <= p)%nat.
Proof. intros H H1. apply Nat.even_spec in H as [p ->]. exists p. lia. Qed.

(** One step up keeps the account of the branch. *)
Lemma climb_match_step c p L matchh st left h b st' :
  (1 <= p)%nat -> (c / 2 ^ L = 2 * p - 1)%nat -> ((2 * p - 1) * 2 ^ L < n)%nat ->
  left = node L (2 * p - 2) -> h = node L (2 * p - 1) ->
  climb_match c (2 * p) L matchh st -> extend_branch true L left h matchh st = (b, st') ->
  climb_match c p (S L) b st'.
Proof.
  intros Hp Hc Hn -> -> HM He. unfold climb_match, extend_branch in *.
  assert (Nat.odd (2 * p - 1) = true) as Hodd by (apply Nat.odd_spec; exists (p - 1)%nat; lia).
  assert ((2 * p - 1) / 2 = p - 1 /\ (2 * p - 2) / 2 = p - 1)%nat as [Hh1 Hh2].
  { split; symmetry; [apply (Nat.div_unique _ _ _ 1)|apply (Nat.div_unique _ _ _ 0)]; lia. }
  destruct matchh.
  - destruct HM as [Hpos Hb]. injection He as <- <-. cbn [set_branch pbranch]. rewrite div_pow_S, Hpos, Hb, path_S. split; [done|].
    do 2 f_equal. unfold sibling. rewrite Hpos, Hodd. f_equal; lia.
  - destruct HM as [Hpos HM]. destruct (Z.eqb_spec (matchlevel st) (Z.of_nat L)) as [Hm|Hm]; injection He as <- <-; cbn [set_branch pbranch].
    + destruct HM as [(_ & H & _)|(m & Hm' & [Ho Hcov] & Hb)]; [lia|]. assert (m = L) as -> by lia.
      rewrite Hc in Hcov. rewrite div_pow_S, Hcov, Hb, path_S. replace (2 * p - 1 - 1)%nat with (2 * p - 2)%nat by lia. split; [done|].
      do 2 f_equal. unfold sibling. rewrite Hcov. replace (2 * p - 1 - 1)%nat with (2 * (p - 1))%nat by lia.
      rewrite <- Nat.negb_even, Nat.even_mul. cbn [Nat.even orb negb]. replace (2 * (p - 1) + 1)%nat with (2 * p - 1)%nat by lia.
      rewrite decide_True by done. done.
    + split; [|done]. rewrite div_pow_S. intros Hd. apply Hm.
      assert (pos / 2 ^ L = 2 * p - 2)%nat as Hq.
      { pose proof (Nat.div_mod_eq (pos / 2 ^ L) 2). pose proof (Nat.mod_upper_bound (pos / 2 ^ L) 2). lia. }
      assert (covers c pos L) as Hcov by (split; rewrite Hc; [done|lia]).
      destruct HM as [(Hle & _ & _)|(m & -> & Hcov' & _)]; [|by rewrite (covers_unique _ _ _ _ Hcov' Hcov)].
      pose proof (Nat.Div0.div_le_mono _ _ (2 ^ L) Hle). lia.
Qed.

Lemma climb_spec track fBranch fuel c q L h matchh st :
  (33 <= fuel + L)%nat -> (1 <= q)%nat -> (q * 2 ^ L <= 2 ^ 31)%nat -> (c / 2 ^ L = q - 1)%nat -> ((q - 1) * 2 ^ L < n)%nat ->
  inner_ok c (inner st) -> h = node L (q - 1) -> (fBranch = true -> climb_match c q L matchh st) ->
  exists L' q' matchh' st', climb fuel track fBranch (Z.of_nat (q * 2 ^ L)) L h matchh st = Some (L', node L' (q' - 1), matchh', st') /\
    (q * 2 ^ L = q' * 2 ^ L')%nat /\ Nat.odd q' = true /\ (L <= L')%nat /\ ((q' - 1) * 2 ^ L' < n)%nat /\
    inner st' = inner st /\ matchlevel st' = matchlevel st /\
    (fBranch = true -> climb_match c q' L' matchh' st') /\
    (mutated st' = true <-> mutated st = true \/ (track = true /\ exists k i, (L <= k)%nat /\ ((2 * i + 2) * 2 ^ k = q * 2 ^ L)%nat /\ dup_pair k i)).
Proof.
  revert q L h matchh st. induction fuel as [|fuel IH]; intros q L h matchh st Hf Hq Hle Hc Hn Hin Hh HM.
  { pose proof (level_bound q L ltac:(lia) Hle). lia. }
  pose proof (level_bound q L ltac:(lia) Hle) as HL. cbn [climb]. rewrite bit_clear_spec by lia. cbn [mbind option_bind].
  destruct (Nat.even q) eqn:Eq.
  2:{ exists L, q, matchh, st. subst h. rewrite <- Nat.negb_even, Eq. repeat split; try done; [tauto|].
      intros [?|(_ & k & i & Hk & He & _)]; [done|]. exfalso. pose proof (pow2_pos L).
      replace k with (L + (k - L))%nat in He by lia. rewrite Nat.pow_add_r in He.
      assert (q = 2 * ((i + 1) * 2 ^ (k - L)))%nat as -> by nia. rewrite Nat.even_mul in Eq. done. }
  destruct (even_double q Eq Hq) as (p & -> & Hp). subst h. destruct Hin as [Hlen Hin].
  rewrite (Hin L) by first [lia | rewrite Hc; apply Nat.odd_spec; exists (p - 1)%nat; lia]. cbn [mbind option_bind].
  rewrite Hc. replace (2 * p - 1 - 1)%nat with (2 * p - 2)%nat by lia.
  destruct (extend_branch _ _ _ _ _ st) as [b st1] eqn:Ee.
  assert (inner st1 = inner st /\ matchlevel st1 = matchlevel st /\ mutated st1 = mutated st) as (Ei & Em & Eu).
  { unfold extend_branch in Ee. destruct fBranch, matchh; [|destruct (_ =? _)| |]; injection Ee as <- <-; done. }
  set (st2 := if track then _ else _).
  assert (inner st2 = inner st /\ matchlevel st2 = matchlevel st /\ pbranch st2 = pbranch st1) as (Ei2 & Em2 & Eb2) by (unfold st2; destruct track; done).
  replace (2 * p * 2 ^ L)%nat with (p * 2 ^ S L)%nat in Hle |- * by (rewrite Nat.pow_succ_r'; lia).
  assert (((p - 1) * 2 ^ S L < n)%nat) as Hn' by (rewrite Nat.pow_succ_r'; nia).
  destruct (IH p (S L) (hash2 (node L (2 * p - 2)) (node L (2 * p - 1))) b st2) as (L' & q' & m' & st' & -> & E1 & E2 & E3 & E4 & E5 & E6 & E7 & E8); try lia.
  - rewrite div_pow_S, Hc. symmetry. apply (Nat.div_unique _ _ _ 1); lia.
  - rewrite Ei2. by split.
  - rewrite node_succ. replace (2 * (p - 1))%nat with (2 * p - 2)%nat by lia. replace (2 * p - 2 + 1)%nat with (2 * p - 1)%nat by lia. by rewrite decide_True by done.
  - intros ->. pose proof (climb_match_step c p L matchh st _ _ b st1 Hp Hc Hn eq_refl eq_refl (HM eq_refl) Ee) as X.
    unfold climb_match, match_ok in *. rewrite Em2, Eb2. destruct b; [done|]. rewrite Em in *. done.
  - exists L', q', m', st'. rewrite E5, E6, Ei2, Em2. repeat (split; [done || lia|]).
    assert (dup_pair L (p - 1) <-> node L (2 * p - 2) = node L (2 * p - 1)) as Hdp.
    { unfold dup_pair. replace (2 * (p - 1))%nat with (2 * p - 2)%nat by lia. by replace (2 * p - 2 + 1)%nat with (2 * p - 1)%nat by lia. }
    rewrite E8. unfold st2. destruct track; cbn [mutated set_mutated]; rewrite Eu.
    2:{ split; [intros [?|[? _]]; [by left|done]|intros [?|[? _]]; [by left|done]]. }
    rewrite orb_true_iff, bool_decide_eq_true. pose proof (pow2_pos L).
    split; [intros [[?|Hd]|(_ & k & i & Hk & He & Hd)]|intros [?|(_ & k & i & Hk & He & Hd)]]; [by left| | |by left; left|].
    + right. split; [done|]. exists L, (p - 1)%nat. split; [done|]. split; [rewrite Nat.pow_succ_r'; nia|]. by apply Hdp.
    + right. split; [done|]. exists k, i. split; [lia|done].
    + destruct (decide (k = L)) as [->|Hne]; [left; right|right; split; [done|]; exists k, i; split; [lia|done]].
      rewrite Nat.pow_succ_r' in He. assert (i = p - 1)%nat as -> by nia. by apply Hdp.
Qed.

Section Run.
Variables (fBranch : bool) (branchpos : Z).
Hypothesis branchpos_is : fBranch = true -> branchpos = Z.of_nat pos.
Hypothesis few : (n <= 2 ^ 31)%nat.

Lemma pow31_Z : Z.of_nat (2 ^ 31) = 2 ^ 31.
Proof. rewrite Nat2Z.inj_pow. done. Qed.

(** The state after [c] leaves. *)
Record leaves_ok (c : nat) (st : MerkleState) : Prop := {
  lo_inner : inner_ok c (inner st);
  lo_match : fBranch = true -> match_ok c st;
  lo_mutated : mutated st = true <-> dup_upto c
}.

Lemma store_inner c L q l : (c + 1 = q * 2 ^ L)%nat -> Nat.odd q = true -> (L < 32)%nat ->
  inner_ok c l -> inner_ok (c + 1) (<[L := node L (q - 1)]> l).
Proof.
  intros Hc Ho HL [Hlen H]. split; [by rewrite length_insert|]. intros j Hj Hodd. pose proof (pow2_pos L).
  destruct (lt_eq_lt_dec j L) as [[Hlt| ->]|Hgt].
  - rewrite Hc, div_low in Hodd by done. done.
  - rewrite list_lookup_insert_eq by lia. rewrite Hc, Nat.div_mul by lia. done.
  - rewrite list_lookup_insert_ne by lia. rewrite (div_next c L j q) in * by done. by apply H.
Qed.

Lemma store_match c L q b st : (c + 1 = q * 2 ^ L)%nat -> Nat.odd q = true -> (c / 2 ^ L = q - 1)%nat ->
  climb_match c q L b st -> match_ok (c + 1) (store L (node L (q - 1)) b st).
Proof.
  intros Hc Ho Hd HM. pose proof (pow2_pos L). unfold climb_match in HM. destruct b.
  - right. exists L. destruct HM as [Hp Hb]. split; [done|]. split; [|done]. unfold covers. rewrite Hc, Nat.div_mul by lia. done.
  - destruct HM as [Hp [(Hle & Hm & Hb)|(m & Hm & Hcov & Hb)]].
    + left. split; [|done]. assert (c <> pos) by (intros ->; lia). lia.
    + right. exists m. split; [done|]. split; [|done]. destruct (lt_eq_lt_dec m L) as [[Hlt| ->]|Hgt].
      * exfalso. apply Hp. rewrite (covers_above _ _ _ _ Hcov Hlt). done.
      * destruct Hcov as [Ho' _]. rewrite Hd in Ho'. destruct (odd_half _ Ho) as [_ ?]. rewrite Nat.odd_sub, Ho in Ho' by lia. done.
      * unfold covers in *. by rewrite (div_next c L m q).
Qed.

Lemma dup_upto_succ c : dup_upto (c + 1) <-> dup_upto c \/ (exists k i, ((2 * i + 2) * 2 ^ k = c + 1)%nat /\ dup_pair k i).
Proof.
  split; [intros (k & i & Hle & Hd)|intros [(k & i & Hle & Hd)|(k & i & He & Hd)]; exists k, i; split; lia || done].
  destruct (decide ((2 * i + 2) * 2 ^ k = c + 1)%nat); [right|left]; exists k, i; split; lia || done.
Qed.

Lemma add_leaf_spec c leaf st : leaves !! c = Some leaf -> leaves_ok c st ->
  exists st', add_leaf fBranch branchpos leaf (Z.of_nat c, st) = Some (Z.of_nat (c + 1), st') /\ leaves_ok (c + 1) st'.
Proof.
  intros Hleaf [Hin Hm Hu]. pose proof (lookup_lt_Some _ _ _ Hleaf) as Hcn. unfold add_leaf.
  replace ((Z.of_nat c + 1) mod 2 ^ 32) with (Z.of_nat (c + 1)) by (pose proof pow31_Z; rewrite Z.mod_small; lia).
  destruct (climb_spec true fBranch 33 c (c + 1) 0 leaf (Z.of_nat c =? branchpos) st) as (L & q & b & st' & E & E1 & E2 & _ & E3 & E4 & E5 & E6 & E7); try (change (2 ^ 0)%nat with 1%nat; lia).
  - change (2 ^ 0)%nat with 1%nat. by rewrite Nat.div_1_r, Nat.add_sub.
  - done.
  - cbn [node]. by rewrite Nat.add_sub, Hleaf.
  - intros Hb. rewrite (branchpos_is Hb). specialize (Hm Hb). unfold climb_match. change (2 ^ 0)%nat with 1%nat. rewrite Nat.div_1_r, Nat.add_sub.
    destruct (Z.eqb_spec (Z.of_nat c) (Z.of_nat pos)); [|split; [lia|done]]. assert (pos = c) as Hpc by lia. split; [done|].
    destruct Hm as [(_ & _ & H)|(m & _ & [Ho Hcov] & _)]; [done|]. exfalso. destruct (odd_half _ Ho). rewrite Hpc in Hcov. lia.
  - change (2 ^ 0)%nat with 1%nat in *. rewrite Nat.mul_1_r in E, E1. rewrite E. cbn [mbind option_bind]. eexists. split; [done|].
    pose proof (pow2_pos L). pose proof (level_bound q L ltac:(lia) ltac:(lia)).
    split; cbn [inner mutated store].
    + rewrite E4. apply store_inner; done || lia.
    + intros Hb. apply store_match; [done..| |by apply E6]. apply div_between. destruct (odd_half _ E2). nia.
    + rewrite E7, Hu, dup_upto_succ. apply or_iff_compat_l. split; [intros (_ & k & i & _ & He & Hd)|intros (k & i & He & Hd); split; [done|]]; exists k, i; split_and?; lia || done.
Qed.

Lemma add_leaves_spec c st : (c <= n)%nat -> leaves_ok c st ->
  exists st', add_leaves fBranch branchpos (drop c leaves) (Z.of_nat c, st) = Some (Z.of_nat n, st') /\ leaves_ok n st'.
Proof.
  intros Hc Hok. remember (n - c)%nat as d eqn:Hd. revert c st Hc Hd Hok. induction d as [|d IH]; intros c st Hc Hd Hok.
  - rewrite drop_ge by lia. assert (c = n) as -> by lia. by exists st.
  - destruct (lookup_lt_is_Some_2 leaves c) as [leaf Hl]; [lia|]. rewrite (drop_S _ _ _ Hl). cbn [add_leaves].
    destruct (add_leaf_spec c leaf st Hl Hok) as (st' & -> & Hok'). cbn [mbind option_bind]. replace (S c) with (c + 1)%nat by lia.
    apply IH; [lia|lia|done].
Qed.

Lemma lowest_level_spec fuel q L : (1 <= q)%nat -> (q * 2 ^ L <= 2 ^ 31)%nat -> (33 <= fuel + L)%nat ->
  exists L' q', lowest_level fuel (Z.of_nat (q * 2 ^ L)) L = Some L' /\ (q * 2 ^ L = q' * 2 ^ L')%nat /\ Nat.odd q' = true.
Proof.
  revert q L. induction fuel as [|fuel IH]; intros q L Hq Hle Hf; pose proof (level_bound q L ltac:(lia) Hle); [lia|].
  cbn [lowest_level]. rewrite bit_clear_spec by lia. cbn [mbind option_bind]. destruct (Nat.even q) eqn:Eq.
  - destruct (even_double q Eq Hq) as (p & -> & Hp). replace (2 * p * 2 ^ L)%nat with (p * 2 ^ S L)%nat in * by (rewrite Nat.pow_succ_r'; lia).
    apply IH; lia.
  - exists L, q. split; [done|]. by rewrite <- Nat.negb_even, Eq.
Qed.

(** Completing the rightmost block: the next count still fits the tree. *)
Lemma sweep_count q L : Nat.odd q = true -> q <> 1%nat -> (q * 2 ^ L <= 2 ^ K)%nat -> (q * 2 ^ L + 2 ^ L <= 2 ^ K)%nat.
Proof.
  intros Ho Hq Hle. pose proof (pow2_pos L). apply Nat.odd_spec in Ho as [p ->].
  assert (L < K)%nat as HL. { apply (Nat.pow_lt_mono_r_iff 2); [lia|]. nia. }
  assert (2 ^ K = 2 ^ L * (2 * 2 ^ (K - L - 1)))%nat as HK.
  { rewrite <- Nat.pow_succ_r', <- Nat.pow_add_r. f_equal. lia. }
  rewrite HK in *. assert (2 * p + 1 <= 2 * 2 ^ (K - L - 1))%nat by nia. nia.
Qed.

(** Joining a hash with itself. *)
Lemma sweep_join q p L b st : (q = 2 * p - 1)%nat -> (1 <= p)%nat -> (n <= q * 2 ^ L)%nat ->
  climb_match n q L b st ->
  climb_match n p (S L) b (if b then set_branch st (pbranch st ++ [node L (q - 1)]) else st).
Proof.
  intros -> Hp Hn HM. pose proof (pow2_pos L). unfold climb_match in *. destruct b; destruct HM as [Hpos HM].
  - cbn [set_branch pbranch]. rewrite div_pow_S, Hpos, HM, path_S. split; [symmetry; apply (Nat.div_unique _ _ _ 0); lia|].
    do 2 f_equal. unfold sibling. rewrite Hpos. replace (2 * p - 1 - 1)%nat with (2 * (p - 1))%nat by lia.
    rewrite <- Nat.negb_even, Nat.even_mul. cbn [Nat.even orb negb]. rewrite decide_False by nia. done.
  - split; [|done]. rewrite div_pow_S. intros Hd. pose proof (div_bounds pos L).
    pose proof (Nat.div_mod_eq (pos / 2 ^ L) 2). pose proof (Nat.mod_upper_bound (pos / 2 ^ L) 2).
    assert (pos / 2 ^ L = 2 * p - 1)%nat by lia. nia.
Qed.

Lemma sweep_spec fuel q L b st : (32 <= fuel + L)%nat -> Nat.odd q = true -> (q * 2 ^ L <= 2 ^ K)%nat -> ((q - 1) * 2 ^ L < n <= q * 2 ^ L)%nat ->
  inner_ok n (inner st) -> (fBranch = true -> climb_match n q L b st) ->
  exists st', sweep fuel fBranch (Z.of_nat (q * 2 ^ L)) L (node L (q - 1)) b st = Some (node K 0, st') /\
    mutated st' = mutated st /\ (fBranch = true -> pbranch st' = path K).
Proof.
  revert q L b st. induction fuel as [|fuel IH]; intros q L b st Hf Ho HK Hn Hin HM;
    destruct (odd_half _ Ho) as [_ Hq]; destruct (height_bounds few) as [_ HK31]; try lia; pose proof (pow2_pos L);
    assert (2 ^ K <= 2 ^ 31)%nat as HKle by (apply Nat.pow_le_mono_r; lia);
    pose proof (level_bound q L ltac:(lia) ltac:(lia)) as HL; [lia|].
  cbn [sweep]. destruct (Nat.leb_spec 32 L); [lia|].
  assert (1 << Z.of_nat L = Z.of_nat (2 ^ L)) as Hsh by (rewrite Z.shiftl_mul_pow2, Nat2Z.inj_pow by lia; lia). rewrite Hsh.
  destruct (Z.eqb_spec (Z.of_nat (q * 2 ^ L)) (Z.of_nat (2 ^ L))) as [He|He].
  - assert (q = 1)%nat as -> by nia. assert (L = K) as -> by (apply height_unique; lia). exists st. split; [done|]. split; [done|].
    intros Hb. specialize (HM Hb). unfold climb_match in HM. assert (pos / 2 ^ K = 0)%nat as Hp0 by (apply Nat.div_small; lia).
    destruct b; [by destruct HM|]. destruct HM. lia.
  - assert (q <> 1)%nat as Hq1 by (intros ->; apply He; f_equal; lia). pose proof (sweep_count q L Ho Hq1 HK) as HK'.
    pose proof Ho as Ho'. apply Nat.odd_spec in Ho' as [p' Hp']. set (p := (p' + 1)%nat). assert (q = 2 * p - 1)%nat as Hqp by lia.
    assert (q * 2 ^ L + 2 ^ L = p * 2 ^ S L)%nat as Hcnt by (rewrite Nat.pow_succ_r'; nia). rewrite <- Nat2Z.inj_add, Hcnt.
    replace (Z.of_nat (p * 2 ^ S L) mod 2 ^ 32) with (Z.of_nat (p * 2 ^ S L)) by (pose proof pow31_Z; rewrite Z.mod_small; lia).
    set (st1 := if fBranch && b then _ else _).
    assert (inner st1 = inner st /\ mutated st1 = mutated st) as [Ei Eu] by (unfold st1; destruct (fBranch && b); done).
    destruct (climb_spec false fBranch 33 n p (S L) (hash2 (node L (q - 1)) (node L (q - 1))) b st1) as (L' & q' & b' & st' & -> & E1 & E2 & E2' & E3 & E4 & E5 & E6 & E7); try lia.
    + apply div_between. rewrite Nat.pow_succ_r' in *. nia.
    + rewrite Nat.pow_succ_r'. nia.
    + by rewrite Ei.
    + rewrite node_succ. replace (2 * (p - 1))%nat with (q - 1)%nat by lia. rewrite decide_False; [done|]. nia.
    + intros Hb. unfold st1. rewrite Hb. cbn [andb]. apply (sweep_join q); try lia. by apply HM.
    + cbn [mbind option_bind]. rewrite E1. destruct (IH q' L' b' st') as (st2 & -> & Eu2 & Eb2); [lia|done|lia|lia|by rewrite E4, Ei|done|].
      exists st2. split; [done|]. split; [|done]. rewrite Eu2. apply eq_true_iff_eq. rewrite E7, Eu. split; [intros [?|[? _]]; done|by left].
Qed.

(** The whole computation. *)
Lemma MerkleComputation_spec :
  exists m branch, MerkleComputation leaves branchpos fBranch = Some (node K 0, m, branch) /\
    (m = true <-> dup_upto n) /\ (fBranch = true -> branch = path K).
Proof.
  unfold MerkleComputation. rewrite bool_decide_eq_false_2 by (intros ->; cbn in pos_in; lia).
  destruct (add_leaves_spec 0 {| inner := replicate 32 uint256_null; matchlevel := -1; pbranch := []; mutated := false |}) as (st & E & [Hin Hm Hu]); [lia| |].
  { split; cbn; [split; [done|]|by left; split; [lia|]|].
    - intros j _ H. rewrite Nat.Div0.div_0_l in H. done.
    - split; [done|]. intros (k & i & H & _). pose proof (pow2_pos k). nia. }
  rewrite drop_0 in E. change (Z.of_nat 0) with 0 in E. rewrite E. cbn [mbind option_bind].
  destruct (lowest_level_spec 33 n 0) as (L & q & E1 & E2 & E3); [lia|change (2 ^ 0)%nat with 1%nat; lia|lia|].
  change (2 ^ 0)%nat with 1%nat in *. rewrite Nat.mul_1_r in E1, E2. rewrite E1. cbn [mbind option_bind].
  pose proof (pow2_pos L). destruct (odd_half _ E3) as [_ Hq]. pose proof (level_bound q L ltac:(lia) ltac:(lia)).
  assert (n / 2 ^ L = q)%nat as Hdiv by (rewrite E2, Nat.div_mul; lia).
  rewrite (proj2 Hin L) by (rewrite ?Hdiv; done || lia). rewrite Hdiv. cbn [mbind option_bind]. rewrite E2.
  destruct (height_bounds few ltac:(lia)) as [HK _].
  destruct (sweep_spec 33 q L (matchlevel st =? Z.of_nat L) st) as (st' & E4 & E5 & E6); [lia|done|lia|nia|done| |].
  - intros Hb. specialize (Hm Hb). unfold climb_match. destruct Hm as [[? _]|(m & Em & Hcov & Eb)]; [lia|]. rewrite Em.
    destruct (Z.eqb_spec (Z.of_nat m) (Z.of_nat L)) as [Hml|Hml].
    + assert (m = L) as -> by lia. destruct Hcov as [_ Hcov]. rewrite Hdiv in Hcov. done.
    + split; [|by right; exists m]. intros Hp. apply Hml. f_equal. apply (covers_unique _ _ _ _ Hcov). split; rewrite Hdiv; done.
  - rewrite <- E2 in E4 |- *. rewrite E4. cbn [mbind option_bind]. exists (mutated st'), (pbranch st'). split; [done|]. by rewrite E5.
Qed.

End Run.
End Nodes.

(** ** The root *)

Lemma merkle_root_node leaves : leaves <> [] -> merkle_root leaves = node leaves (tree_height leaves) 0.
Proof.
  intros H. unfold merkle_root. rewrite head_lookup, level_node, decide_True; [done|]. destruct leaves; [done|]. cbn. lia.
Qed.

Lemma duplicated_dup leaves : duplicated leaves <-> dup_upto leaves (length leaves).
Proof.
  unfold duplicated, dup_upto, dup_pair. split; intros (k & i & H); exists k, i.
  - destruct H as (h & Hle & H1 & H2). rewrite level_node in H1, H2. pose proof (pow2_pos k). rewrite decide_True in H1 by nia. rewrite decide_True in H2 by nia. split; [done|congruence].
  - destruct H as [Hle H]. exists (node leaves k (2 * i)). pose proof (pow2_pos k). split; [done|]. rewrite !level_node, decide_True, decide_True by nia. by rewrite H.
Qed.

Lemma root_computed leaves : (length leaves <= 2 ^ 31)%nat ->
  exists m, ComputeMerkleRoot leaves = Some (merkle_root leaves, m) /\ (m = true <-> duplicated leaves).
Proof.
  intros Hn. unfold ComputeMerkleRoot. destruct (decide (leaves = [])) as [->|Hne].
  - exists false. split; [done|]. split; [done|]. intros (k & i & h & H & _). pose proof (pow2_pos k). cbn [length] in H. nia.
  - destruct (MerkleComputation_spec leaves 0 ltac:(destruct leaves; [done|cbn; lia]) false (2 ^ 32 - 1) ltac:(done) Hn) as (m & br & -> & Hm & _).
    exists m. rewrite merkle_root_node, duplicated_dup by done. done.
Qed.

(** C24. [ComputeMerkleRoot] needs one pass and 32 hashes of memory; for every list of
    at most 2^31 leaves it ends without an undefined shift or access, its result is
    the root of the tree built level by level, with an odd last node joined with
    itself, and the flag it reports tells exactly whether two complete sibling
    subtrees are equal. *)
Theorem merkle_root_correct leaves : (length leaves <= 2 ^ 31)%nat ->
  exists m, ComputeMerkleRoot leaves = Some (merkle_root leaves, m) /\ (m = true <-> duplicated leaves).
Proof. apply root_computed. Qed.

(** ** Branches *)

Lemma branch_index i j : (Z.of_nat i >> Z.of_nat j) = Z.of_nat (i / 2 ^ j).
Proof. rewrite Z.shiftr_div_pow2 by lia. rewrite Nat2Z.inj_div, Nat2Z.inj_pow. done. Qed.

Lemma root_from_siblings leaves pos m j : (pos < length leaves)%nat ->
  ComputeMerkleRootFromBranch (node leaves j (pos / 2 ^ j)) ((fun j => sibling leaves j (pos / 2 ^ j)) <$> seq j m) (Z.of_nat (pos / 2 ^ j)) =
  node leaves (j + m) (pos / 2 ^ (j + m)).
Proof.
  intros Hp. revert j. induction m as [|m IH]; intros j; [by rewrite Nat.add_0_r|].
  cbn [seq fmap list_fmap ComputeMerkleRootFromBranch]. rewrite (branch_index _ 1). change (2 ^ 1)%nat with 2%nat. rewrite <- div_pow_S.
  replace (j + S m)%nat with (S j + m)%nat by lia. rewrite <- IH. f_equal.
  set (i := (pos / 2 ^ j)%nat). rewrite low_bit.
  rewrite node_succ, div_pow_S. fold i. unfold sibling. pose proof (div_bounds pos j) as [Hi _]. fold i in Hi.
  rewrite <- Nat.negb_even. destruct (Nat.even i) eqn:He; cbn [negb Z.eqb].
  - apply Nat.even_spec in He as [p Hpi]. replace (i / 2)%nat with p by (apply (Nat.div_unique _ _ _ 0); lia). rewrite Hpi. done.
  - rewrite <- negb_true_iff, Nat.negb_even in He. apply Nat.odd_spec in He as [p Hpi].
    replace (i / 2)%nat with p by (apply (Nat.div_unique _ _ _ 1); lia). rewrite decide_True by (rewrite <- Hpi; lia). f_equal; f_equal; lia.
Qed.

(** The branch that [ComputeMerkleBranch] collects for a position proves its leaf:
    folding it with [ComputeMerkleRootFromBranch] gives the Merkle root, and it has
    one hash for each level of the tree. *)
Theorem merkle_branch_proves leaves pos leaf : (length leaves <= 2 ^ 31)%nat -> leaves !! pos = Some leaf ->
  exists branch, ComputeMerkleBranch leaves (Z.of_nat pos) = Some branch /\ length branch = tree_height leaves /\
    ComputeMerkleRootFromBranch leaf branch (Z.of_nat pos) = merkle_root leaves.
Proof.
  intros Hn Hl. pose proof (lookup_lt_Some _ _ _ Hl) as Hp. unfold ComputeMerkleBranch.
  destruct (MerkleComputation_spec leaves pos Hp true (Z.of_nat pos) ltac:(done) Hn) as (m & br & -> & _ & Hbr). rewrite (Hbr eq_refl).
  eexists. split; [done|]. split; [unfold path; by rewrite length_fmap, length_seq|].
  rewrite merkle_root_node by (intros ->; done). pose proof (root_from_siblings leaves pos (tree_height leaves) 0 Hp) as H.
  change (2 ^ 0)%nat with 1%nat in H. rewrite Nat.div_1_r in H. cbn [node] in H. rewrite Hl in H. change (default uint256_null (Some leaf)) with leaf in H. unfold path. rewrite H. f_equal.
  destruct (height_bounds leaves Hn ltac:(lia)). apply Nat.div_small. cbn [Nat.add]. lia.
Qed.

(** ** Binding *)

(** Two hashes that the tree of the leaves joins: neighbours on a level below the root,
    or the odd last one of its level with itself. *)
Definition joined (leaves : list uint256) (a b : uint256) : Prop :=
  exists k i, (k < tree_height leaves)%nat /\ level_at leaves k !! (2 * i)%nat = Some a /\ default a (level_at leaves k !! (2 * i + 1)%nat) = b.

(** Two different joins of the two trees that give the same hash. *)
Definition collision (l1 l2 : list uint256) : Prop :=
  exists a b c d, (joined l1 a b \/ joined l2 a b) /\ (joined l1 c d \/ joined l2 c d) /\ (a, b) <> (c, d) /\ hash2 a b = hash2 c d.

Lemma joined_node l k i : (k < tree_height l)%nat -> (i * 2 ^ S k < length l)%nat ->
  joined l (node l k (2 * i)) (if decide ((2 * i + 1) * 2 ^ k < length l)%nat then node l k (2 * i + 1) else node l k (2 * i)).
Proof.
  intros Hk Hi. exists k, i. split; [done|]. rewrite Nat.pow_succ_r' in Hi. rewrite !level_node, decide_True by lia. split; [done|]. by case_decide.
Qed.

Lemma collision_weaken l l1 l2 : l = l1 \/ l = l2 -> collision l l -> collision l1 l2.
Proof. intros Hl (a & b & c & d & H1 & H2 & H). exists a, b, c, d. destruct Hl as [-> | ->]; tauto. Qed.

(** Two equal halves of a block without equal complete siblings. *)
Lemma half_binding k l i : ~ dup_upto l (length l) -> ((2 * i + 1) * 2 ^ k < length l)%nat -> node l k (2 * i) = node l k (2 * i + 1) ->
  (forall r, (r < 2 ^ k)%nat -> l !! (2 * i * 2 ^ k + r)%nat = l !! ((2 * i + 1) * 2 ^ k + r)%nat) -> False.
Proof.
  intros D Hi Heq HX. pose proof (pow2_pos k). specialize (HX (2 ^ k - 1)%nat ltac:(lia)).
  destruct (lookup_lt_is_Some_2 l (2 * i * 2 ^ k + (2 ^ k - 1))%nat ltac:(nia)) as [x Hx].
  rewrite Hx in HX. symmetry in HX. apply lookup_lt_Some in HX. apply D. exists k, i. split; [nia|done].
Qed.

(** Equal nodes have equal leaves below them, unless the hash collides in the trees. *)
Lemma block_binding k : forall l1 l2 i1 i2, (k <= tree_height l1)%nat -> (k <= tree_height l2)%nat ->
  ~ dup_upto l1 (length l1) -> ~ dup_upto l2 (length l2) ->
  (i1 * 2 ^ k < length l1)%nat -> (i2 * 2 ^ k < length l2)%nat -> node l1 k i1 = node l2 k i2 ->
  (forall r, (r < 2 ^ k)%nat -> l1 !! (i1 * 2 ^ k + r)%nat = l2 !! (i2 * 2 ^ k + r)%nat) \/ collision l1 l2.
Proof.
  induction k as [|k IH]; intros l1 l2 i1 i2 K1 K2 D1 D2 H1 H2 He.
  { left. intros r Hr. change (2 ^ 0)%nat with 1%nat in *. replace r with 0%nat by lia. rewrite !Nat.mul_1_r, !Nat.add_0_r in *. cbn [node] in He.
    destruct (lookup_lt_is_Some_2 _ _ H1) as [x Hx], (lookup_lt_is_Some_2 _ _ H2) as [y Hy]. rewrite Hx, Hy in *. cbn in He. by subst. }
  pose proof (joined_node l1 k i1 ltac:(lia) H1) as J1. pose proof (joined_node l2 k i2 ltac:(lia) H2) as J2.
  rewrite !node_succ in He. rewrite !Nat.pow_succ_r' in *. pose proof (pow2_pos k).
  match type of He with hash2 ?a ?b = hash2 ?c ?d => destruct (decide ((a, b) = (c, d))) as [Hp|Hp]; [clear J1 J2|by right; exists a, b, c, d; auto] end.
  apply pair_equal_spec in Hp as [Hl Hr].
  destruct (IH l1 l2 (2 * i1)%nat (2 * i2)%nat ltac:(lia) ltac:(lia) D1 D2 ltac:(nia) ltac:(nia) Hl) as [HL|]; [|by right].
  assert (forall l i, l = l1 \/ l = l2 -> (k <= tree_height l)%nat -> ~ dup_upto l (length l) -> ((2 * i + 1) * 2 ^ k < length l)%nat -> node l k (2 * i) = node l k (2 * i + 1) -> collision l1 l2) as Half.
  { intros l i Hin Hk D Hi Heq. apply (collision_weaken l); [done|]. destruct (IH l l (2 * i)%nat (2 * i + 1)%nat Hk Hk D D ltac:(nia) Hi Heq) as [HX|]; [|done]. by destruct (half_binding k l i). }
  repeat case_decide.
  - destruct (IH l1 l2 (2 * i1 + 1)%nat (2 * i2 + 1)%nat ltac:(lia) ltac:(lia) D1 D2 ltac:(nia) ltac:(nia) Hr) as [HR|]; [left|by right].
    intros r Hlt. destruct (decide (r < 2 ^ k)%nat) as [Hs|Hs].
    + specialize (HL r Hs). replace (i1 * (2 * 2 ^ k) + r)%nat with (2 * i1 * 2 ^ k + r)%nat by lia. by replace (i2 * (2 * 2 ^ k) + r)%nat with (2 * i2 * 2 ^ k + r)%nat by lia.
    + specialize (HR (r - 2 ^ k)%nat ltac:(lia)). replace (i1 * (2 * 2 ^ k) + r)%nat with ((2 * i1 + 1) * 2 ^ k + (r - 2 ^ k))%nat by lia.
      by replace (i2 * (2 * 2 ^ k) + r)%nat with ((2 * i2 + 1) * 2 ^ k + (r - 2 ^ k))%nat by lia.
  - right. apply (Half l1 i1); [by left|lia|done..|]. by rewrite Hl, Hr.
  - right. apply (Half l2 i2); [by right|lia|done..|]. by rewrite <- Hl, <- Hr.
  - left. intros r Hlt. destruct (decide (r < 2 ^ k)%nat) as [Hs|Hs].
    + specialize (HL r Hs). replace (i1 * (2 * 2 ^ k) + r)%nat with (2 * i1 * 2 ^ k + r)%nat by lia. by replace (i2 * (2 * 2 ^ k) + r)%nat with (2 * i2 * 2 ^ k + r)%nat by lia.
    + rewrite !lookup_ge_None_2 by nia. done.
Qed.

(** C25. The root binds the leaves: two non-empty lists of at most 2^31 leaves, with
    trees of the same height and the same root, neither of them reported as mutated,
    are equal, or two different pairs of hashes that are joined somewhere in these two
    trees have the same hash.  In particular, lists that such a pair cannot be found
    for are told apart by their roots. *)
Theorem merkle_root_binding l1 l2 root :
  l1 <> [] -> l2 <> [] -> (length l1 <= 2 ^ 31)%nat -> (length l2 <= 2 ^ 31)%nat -> tree_height l1 = tree_height l2 ->
  ComputeMerkleRoot l1 = Some (root, false) -> ComputeMerkleRoot l2 = Some (root, false) -> l1 = l2 \/ collision l1 l2.
Proof.
  intros N1 N2 H1 H2 Hh E1 E2.
  destruct (root_computed l1 H1) as (m1 & R1 & M1), (root_computed l2 H2) as (m2 & R2 & M2). rewrite E1 in R1. rewrite E2 in R2.
  injection R1 as R1 <-. injection R2 as R2 <-. rewrite duplicated_dup in M1, M2. rewrite merkle_root_node in R1, R2 by done. rewrite <- Hh in R2.
  assert (1 <= length l1 /\ 1 <= length l2)%nat as [L1 L2] by (destruct l1, l2; try done; cbn; lia).
  destruct (block_binding (tree_height l1) l1 l2 0 0) as [H|]; [lia|lia|intros X; by apply M1 in X|intros X; by apply M2 in X|lia|lia|congruence|left|by right].
  destruct (height_bounds l1 H1 L1) as [B1 _], (height_bounds l2 H2 L2) as [B2 _]. rewrite <- Hh in B2.
  apply list_eq. intros r. destruct (decide (r < 2 ^ tree_height l1)%nat) as [Hr|Hr]; [apply (H r Hr)|]. rewrite !lookup_ge_None_2 by lia. done.
Qed.


(** ** Repeated leaves *)

Lemma pair_up_app l1 l2 : Nat.even (length l1) = true -> pair_up (l1 ++ l2) = pair_up l1 ++ pair_up l2.
Proof.
  revert l1. fix IH 1. intros [|x [|y l1]] H; [done|done|]. cbn [app pair_up]. f_equal. apply IH. done.
Qed.

Lemma level_S l k : level_at l (S k) = pair_up (level_at l k).
Proof. done. Qed.

Lemma level_length l k q : length l = (q * 2 ^ k)%nat -> length (level_at l k) = q.
Proof.
  intros H. pose proof (pow2_pos k). apply Nat.le_antisymm.
  - apply lookup_ge_None. rewrite level_node, decide_False by lia. done.
  - destruct q as [|q]; [lia|]. apply (lookup_lt_is_Some_1 (level_at l k) q). rewrite level_node, decide_True by nia. eauto.
Qed.

Lemma level_app l1 l2 k q : length l1 = (q * 2 ^ k)%nat -> level_at (l1 ++ l2) k = level_at l1 k ++ level_at l2 k.
Proof.
  revert q. induction k as [|k IH]; intros q H; [done|]. rewrite !level_S, (IH (2 * q)%nat) by (rewrite Nat.pow_succ_r' in H; lia).
  apply pair_up_app. rewrite (level_length l1 k (2 * q)) by (rewrite Nat.pow_succ_r' in H; lia). by rewrite Nat.even_mul.
Qed.

Lemma level_step l k m : level_at l (k + m) = level_at (level_at l k) m.
Proof. induction m as [|m IH]; [by rewrite Nat.add_0_r|]. by rewrite Nat.add_succ_r, !level_S, IH. Qed.

(** Repeating an odd last block of the tree keeps the root. *)
Lemma repeated_block A B j k : length A = (2 * j * 2 ^ k)%nat -> length B = (2 ^ k)%nat -> (1 <= j)%nat ->
  merkle_root (A ++ B ++ B) = merkle_root (A ++ B) /\ duplicated (A ++ B ++ B).
Proof.
  intros HA HB Hj. pose proof (pow2_pos k).
  destruct (level_at B k) as [|b [|b' l]] eqn:Eb; pose proof (level_length B k 1 ltac:(lia)) as HlB; rewrite Eb in HlB; try done.
  assert (level_at (A ++ B ++ B) k = level_at A k ++ [b; b]) as E2 by (rewrite (level_app A _ k (2 * j)), (level_app B _ k 1), Eb by lia; done).
  assert (level_at (A ++ B) k = level_at A k ++ [b]) as E1 by (rewrite (level_app A _ k (2 * j)), Eb by lia; done).
  assert (length (level_at A k) = 2 * j)%nat as HlA by (by apply level_length).
  split.
  - assert (level_at (A ++ B ++ B) (k + 1) = level_at (A ++ B) (k + 1)) as E.
    { rewrite !Nat.add_1_r, !level_S, E1, E2.
      rewrite !pair_up_app by (by rewrite HlA, Nat.even_mul). done. }
    assert (k + 1 <= tree_height (A ++ B) /\ tree_height (A ++ B ++ B) = tree_height (A ++ B))%nat as [Hk Hh].
    { unfold tree_height. rewrite !length_app, HA, HB. replace (2 * j * 2 ^ k + 2 ^ k)%nat with ((2 * j + 1) * 2 ^ k)%nat by lia.
      replace (2 * j * 2 ^ k + (2 ^ k + 2 ^ k))%nat with ((j + 1) * 2 ^ (k + 1))%nat by (rewrite Nat.pow_add_r; cbn [Nat.pow]; lia).
      set (h := Nat.log2_up ((2 * j + 1) * 2 ^ k)).
      destruct (Nat.log2_up_spec ((2 * j + 1) * 2 ^ k) ltac:(nia)) as [Hlo Hhi]. fold h in Hlo, Hhi.
      assert (k + 1 <= h)%nat as Hkh.
      { destruct (le_lt_dec (k + 1) h) as [|Hlt]; [done|exfalso]. assert (2 ^ h <= 2 ^ k)%nat by (apply Nat.pow_le_mono_r; lia). nia. }
      split; [done|]. assert (2 ^ h = 2 * 2 ^ (h - k - 1) * 2 ^ k)%nat as Hp.
      { rewrite <- Nat.pow_succ_r', <- Nat.pow_add_r. f_equal. lia. }
      apply Nat.le_antisymm; [|apply Nat.log2_up_le_mono; rewrite Nat.pow_add_r; cbn [Nat.pow]; nia].
      rewrite <- (Nat.log2_up_pow2 h) by lia. apply Nat.log2_up_le_mono. rewrite Hp in Hhi |- *. rewrite Nat.pow_add_r. cbn [Nat.pow].
      assert (2 * j + 1 <= 2 * 2 ^ (h - k - 1))%nat by nia. nia. }
    unfold merkle_root. rewrite Hh. replace (tree_height (A ++ B)) with (k + 1 + (tree_height (A ++ B) - k - 1))%nat by lia.
    by rewrite (level_step (A ++ B ++ B) (k + 1)), E, <- level_step.
  - exists k, j, b. rewrite E2, !length_app, HA, HB. split; [lia|]. rewrite !lookup_app_r by lia. rewrite HlA.
    rewrite Nat.sub_diag. replace (2 * j + 1 - 2 * j)%nat with 1%nat by lia. done.
Qed.

(** The ambiguity of odd levels (CVE-2012-2459) is reported: repeating the last
    block of [2^k] leaves, when it has no sibling, keeps the root, and the longer list
    is flagged as mutated. *)
Theorem merkle_repetition_detected A B j k root m :
  length A = (2 * j * 2 ^ k)%nat -> length B = (2 ^ k)%nat -> (1 <= j)%nat -> (length A + 2 * length B <= 2 ^ 31)%nat ->
  ComputeMerkleRoot (A ++ B) = Some (root, m) -> ComputeMerkleRoot (A ++ B ++ B) = Some (root, true).
Proof.
  intros HA HB Hj Hn E. destruct (repeated_block A B j k HA HB Hj) as [Hr Hd].
  destruct (root_computed (A ++ B)) as (m1 & R1 & _); [rewrite length_app; lia|]. destruct (root_computed (A ++ B ++ B)) as (m2 & R2 & M2); [rewrite !length_app; lia|].
  rewrite E in R1. injection R1 as -> _. rewrite R2. apply M2 in Hd. by rewrite Hr, Hd.
Qed.

(** ** Blocks *)

(** The leaves of a block: the hashes of its transactions, or their witness hashes
    with a null hash for the coinbase, without the coinstake when it is ignored. *)
Definition BlockMerkleRoot (txids : list uint256) : option (uint256 * bool) := ComputeMerkleRoot txids.
Definition witness_leaves (wtxids : list uint256) (fIgnoreCoinStake : bool) : option (list uint256) :=
  let skip := if fIgnoreCoinStake then 1%nat else 0%nat in
  if (length wtxids <=? skip)%nat then None else Some (uint256_null :: drop (1 + skip) wtxids).
Definition BlockWitnessMerkleRoot (wtxids : list uint256) (fIgnoreCoinStake : bool) : option (uint256 * bool) :=
  leaves ← witness_leaves wtxids fIgnoreCoinStake; ComputeMerkleRoot leaves.
Definition BlockMerkleBranch (txids : list uint256) (position : Z) : option (list uint256) := ComputeMerkleBranch txids position.

End Merkle.

(** ** Examples *)

(** A toy hash that keeps its inputs apart. *)
Definition demo_hash2 (a b : list Z) : list Z := -1 :: a ++ -2 :: b ++ [-3].
Definition demo_leaves (n : nat) : list (list Z) := (fun i => [Z.of_nat i]) <$> seq 1 n.

Lemma small_length l : (length l <= 8)%nat -> (length (l : list (list Z)) <= 2 ^ 31)%nat.
Proof. intros H. transitivity (2 ^ 3)%nat; [done|]. apply Nat.pow_le_mono_r; lia. Qed.

Lemma merkle_root_correct_witness : exists m, ComputeMerkleRoot demo_hash2 (demo_leaves 6) = Some (merkle_root demo_hash2 (demo_leaves 6), m) /\ (m = true <-> duplicated demo_hash2 (demo_leaves 6)).
Proof. apply merkle_root_correct. apply small_length. cbn. lia. Defined.

Lemma merkle_branch_proves_witness : exists branch, ComputeMerkleBranch demo_hash2 (demo_leaves 7) 5 = Some branch /\ length branch = 3%nat /\
  ComputeMerkleRootFromBranch demo_hash2 [6] branch 5 = merkle_root demo_hash2 (demo_leaves 7).
Proof. apply (merkle_branch_proves demo_hash2 (demo_leaves 7) 5 [6]); [apply small_length; cbn; lia|reflexivity]. Defined.

(** A hash that forgets its inputs: two lists with the same root, and the two joins at
    their roots collide. *)
Lemma merkle_root_binding_witness :
  let h := fun _ _ : list Z => [0] in [[1]; [2]] <> [[3]; [4]] /\ collision h [[1]; [2]] [[3]; [4]].
Proof.
  intros h. split; [done|]. destruct (merkle_root_binding h [[1]; [2]] [[3]; [4]] [0]) as [H|H]; try done; apply small_length; cbn; lia.
Defined.

Lemma merkle_repetition_detected_witness :
  ComputeMerkleRoot demo_hash2 (demo_leaves 4 ++ [[5]; [6]] ++ [[5]; [6]]) = Some (merkle_root demo_hash2 (demo_leaves 6), true).
Proof.
  apply (merkle_repetition_detected demo_hash2 (demo_leaves 4) [[5]; [6]] 1 1 _ false); [done|done|done|apply (small_length (demo_leaves 8)); cbn; lia|vm_compute; reflexivity].
Defined.
