(* ===== verification/Serialize.v ===== *)
(** * serialize.h: byte streams, compact sizes and variable-length integers

    A stream that is read is the list of the bytes left in it, and a reader is a
    function that fails ([std::ios_base::failure], or undefined behaviour of a signed
    integer) or gives a value and the rest.  What is written is the list of bytes.
    [reads r bs a] says that [r] takes exactly [bs] from the front of any stream and
    gives [a]; it is proved for a format from its parts. *)

From Stdlib Require Import ZArith Lia Btauto.
From stdpp Require Import base tactics numbers list.
From S2P Require Import Prelude SphTypes.

(** ** Readers *)

Definition Reader (A : Type) : Type := list Z -> option (A * list Z).

#[export] Instance reader_ret : MRet Reader := fun A a s => Some (a, s).
#[export] Instance reader_bind : MBind Reader := fun A B f r s => '(a, s) ← r s; f a s.
Definition throw {A} : Reader A := fun _ => None.

(** [s.read(p, n)]: exactly [n] bytes, or a failure at the end of the data. *)
Definition read_bytes (n : nat) : Reader (list Z) := fun s =>
  if (n <=? length s)%nat then Some (take n s, drop n s) else None.

(** [s.ignore(n)] *)
Definition ignore_bytes (n : nat) : Reader unit := fun s =>
  if (n <=? length s)%nat then Some (tt, drop n s) else None.

Definition reads {A} (r : Reader A) (bs : list Z) (a : A) : Prop := forall rest, r (bs ++ rest) = Some (a, rest).

Lemma reads_ret {A} (a : A) : reads (mret a) [] a.
Proof. done. Qed.

Lemma reads_bind {A B} (r : Reader A) (f : A -> Reader B) bs bs' a b :
  reads r bs a -> reads (f a) bs' b -> reads (r ≫= f) (bs ++ bs') b.
Proof. intros Hr Hf rest. unfold mbind, reader_bind. rewrite <- app_assoc, Hr. cbn. apply Hf. Qed.

Lemma reads_bind_ret {A B} (r : Reader A) (f : A -> Reader B) bs a b : reads r bs a -> f a = mret b -> reads (r ≫= f) bs b.
Proof. intros Hr Hf. rewrite <- (app_nil_r bs). apply (reads_bind r f bs [] a b Hr). rewrite Hf. apply reads_ret. Qed.

Lemma reader_bind_inv {A B} (r : Reader A) (f : A -> Reader B) s b rest : (r ≫= f) s = Some (b, rest) ->
  exists a s', r s = Some (a, s') /\ f a s' = Some (b, rest).
Proof. intros E. unfold mbind, reader_bind in E. destruct (r s) as [[a s']|] eqn:Er; [|done]. by exists a, s'. Qed.

Lemma read_bytes_reads n bs : length bs = n -> reads (read_bytes n) bs bs.
Proof.
  intros <- rest. unfold read_bytes. rewrite length_app. destruct (Nat.leb_spec (length bs) (length bs + length rest)); [|lia].
  by rewrite take_app_length, drop_app_length.
Qed.

(** ** Fixed-size integers (little endian) *)

Definition ser_writedata8 (obj : Z) : list Z := store_le 1 obj.
Definition ser_writedata16 (obj : Z) : list Z := store_le 2 obj.
Definition ser_writedata32 (obj : Z) : list Z := store_le 4 obj.
Definition ser_writedata64 (obj : Z) : list Z := store_le 8 obj.
Definition ser_readdata (n : nat) : Reader Z := bs ← read_bytes n; mret (load_le bs).
Definition ser_readdata8 : Reader Z := ser_readdata 1.
Definition ser_readdata16 : Reader Z := ser_readdata 2.
Definition ser_readdata32 : Reader Z := ser_readdata 4.
Definition ser_readdata64 : Reader Z := ser_readdata 8.

Lemma store_le_length n v : length (store_le n v) = n.
Proof. revert v. induction n; intros; cbn; auto. Qed.

Lemma store_le_words n v : words 8 (store_le n v).
Proof. revert v. induction n; intros; cbn [store_le]; constructor; [apply uchar_word|auto]. Qed.

Lemma load_store_le n v : word (8 * Z.of_nat n) v -> load_le (store_le n v) = v.
Proof.
  revert v. induction n as [|n IH]; intros v Hv; cbn [store_le load_le]; [unfold word in Hv; cbn in Hv; lia|].
  rewrite IH.
  - bits_intro i Hi. rewrite Z.lor_spec, Z.shiftl_spec by lia. zcase i 8.
    + by rewrite uchar_bit, (Z.testbit_neg_r _ (i - 8)), orb_false_r by lia.
    + rewrite Z.shiftr_spec by lia. replace (i - 8 + 8) with i by lia. by rewrite (word_bit_high 8) by (apply uchar_word || lia).
  - unfold word in *. rewrite Z.shiftr_div_pow2 by lia. replace (8 * Z.of_nat (S n)) with (8 + 8 * Z.of_nat n) in Hv by lia.
    rewrite Z.pow_add_r in Hv by lia. split; [apply Z.div_pos; lia|apply Z.div_lt_upper_bound; lia].
Qed.

Lemma ser_readdata_reads n v : word (8 * Z.of_nat n) v -> reads (ser_readdata n) (store_le n v) v.
Proof. intros Hv. eapply reads_bind_ret; [apply read_bytes_reads, store_le_length|]. by rewrite load_store_le. Qed.

(** ** Compact sizes *)

Definition MAX_SIZE : Z := 0x02000000.

Definition GetSizeOfCompactSize (nSize : Z) : Z :=
  if nSize <? 253 then 1 else if nSize <=? 0xFFFF then 3 else if nSize <=? 0xFFFFFFFF then 5 else 9.

Definition WriteCompactSize (nSize : Z) : list Z :=
  if nSize <? 253 then ser_writedata8 nSize
  else if nSize <=? 0xFFFF then ser_writedata8 253 ++ ser_writedata16 nSize
  else if nSize <=? 0xFFFFFFFF then ser_writedata8 254 ++ ser_writedata32 nSize
  else ser_writedata8 255 ++ ser_writedata64 nSize.

Definition canonical (least nSizeRet : Z) : Reader Z := if nSizeRet <? least then throw else mret nSizeRet.

Definition ReadCompactSize : Reader Z :=
  chSize ← ser_readdata8;
  nSizeRet ← (if chSize <? 253 then mret chSize
              else if chSize =? 253 then ser_readdata16 ≫= canonical 253
              else if chSize =? 254 then ser_readdata32 ≫= canonical 0x10000
              else ser_readdata64 ≫= canonical 0x100000000);
  if MAX_SIZE <? nSizeRet then throw else mret nSizeRet.

(** ** Variable-length integers *)

(** The loop of [WriteVarInt]; the bytes are written from the last one back.  The
    array [tmp] has room for [fuel] more of them. *)
Fixpoint varint_bytes (fuel : nat) (tmp : list Z) (n : Z) : option (list Z) :=
  match fuel with
  | O => None
  | S fuel =>
      let tmp := ((n .& 0x7F) .| (if bool_decide (tmp = []) then 0x00 else 0x80)) :: tmp in
      if n <=? 0x7F then Some tmp else varint_bytes fuel tmp ((n >> 7) - 1)
  end.

(** [unsigned char tmp[(sizeof(n)*8+6)/7]] *)
Definition WriteVarInt (size : nat) (n : Z) : option (list Z) := varint_bytes ((size * 8 + 6) / 7) [] n.

Fixpoint varint_size (fuel : nat) (nRet n : Z) : option Z :=
  match fuel with
  | O => None
  | S fuel => let nRet := nRet + 1 in if n <=? 0x7F then Some nRet else varint_size fuel nRet ((n >> 7) - 1)
  end.
Definition GetSizeOfVarInt (size : nat) (n : Z) : option Z := varint_size ((size * 8 + 6) / 7) 0 n.

(** Values of the integer type: an unsigned type wraps around; the overflow of a
    signed one is undefined. *)
Definition to_unsigned (size : nat) (x : Z) : option Z := Some (x mod 2 ^ (8 * Z.of_nat size)).
Definition to_signed (size : nat) (x : Z) : option Z := if x <? 2 ^ (8 * Z.of_nat size - 1) then Some x else None.

Fixpoint ReadVarInt_loop (conv : Z -> option Z) (n : Z) (s : list Z) : option (Z * list Z) :=
  match s with
  | [] => None
  | chData :: s =>
      n ← conv ((n << 7) .| (chData .& 0x7F));
      if negb (chData .& 0x80 =? 0) then n ← conv (n + 1); ReadVarInt_loop conv n s
      else Some (n, s)
  end.
Definition ReadVarInt (conv : Z -> option Z) : Reader Z := ReadVarInt_loop conv 0.

(** ** Round trips *)

(** The digit that is written last, put back behind the digits before it. *)
Lemma varint_digit n flag : flag .& 0x7F = 0 -> ((n >> 7) << 7) .| ((n .& 0x7F .| flag) .& 0x7F) = n.
Proof.
  intros Hm. rewrite Z.land_lor_distr_l, Hm, Z.lor_0_r. bits_intro i Hi. change 0x7F with (Z.ones 7).
  rewrite !Z.lor_spec, Z.shiftl_spec, !Z.land_spec, Z.testbit_ones by lia. zcase i 7.
  - rewrite (Z.testbit_neg_r _ (i - 7)) by lia. destruct (Z.leb_spec 0 i), (Z.ltb_spec i 7); try lia. btauto.
  - rewrite Z.shiftr_spec by lia. replace (i - 7 + 7) with i by lia. destruct (Z.ltb_spec i 7); [lia|]. btauto.
Qed.

Lemma varint_flag n (more : bool) : negb (((n .& 0x7F) .| (if more then 0x80 else 0x00)) .& 0x80 =? 0) = more.
Proof.
  rewrite Z.land_lor_distr_l, <- Z.land_assoc. change (0x7F .& 0x80) with 0. rewrite Z.land_0_r, Z.lor_0_l. by destruct more.
Qed.

(** Reading the digits of [n]: the number itself at the end, or one more before the
    digits that follow. *)
Lemma varint_read conv top fuel tmp n out :
  (forall v, 0 <= v <= top -> conv v = Some v) -> 0 <= n -> n + (if bool_decide (tmp = []) then 0 else 1) <= top ->
  varint_bytes fuel tmp n = Some out ->
  forall rest, ReadVarInt_loop conv 0 (out ++ rest) =
    if bool_decide (tmp = []) then Some (n, rest) else ReadVarInt_loop conv (n + 1) (tmp ++ rest).
Proof.
  intros Hconv. revert tmp n out. induction fuel as [|fuel IH]; intros tmp n out Hn Htop E rest; [done|]. cbn [varint_bytes] in E.
  set (d := (n .& 0x7F) .| _) in E.
  assert (d = (n .& 0x7F) .| (if negb (bool_decide (tmp = [])) then 0x80 else 0x00)) as Hd by (unfold d; by case_bool_decide).
  assert (forall p, p = n >> 7 -> ReadVarInt_loop conv p ((d :: tmp) ++ rest) =
    if bool_decide (tmp = []) then Some (n, rest) else ReadVarInt_loop conv (n + 1) (tmp ++ rest)) as Step.
  { intros p ->. cbn [app ReadVarInt_loop]. rewrite Hd, varint_digit by (by case_bool_decide). rewrite varint_flag.
    rewrite Hconv by (case_bool_decide; lia). cbn [mbind option_bind]. case_bool_decide as Ht; cbn [negb]; [by subst|].
    rewrite Hconv by lia. done. }
  destruct (Z.leb_spec n 0x7F) as [Hs|Hl].
  - injection E as <-. apply Step. symmetry. rewrite Z.shiftr_div_pow2 by lia. apply Z.div_small. lia.
  - assert (1 <= n >> 7 /\ n >> 7 <= n) as [Hp Hle].
    { rewrite Z.shiftr_div_pow2 by lia. split; [apply Z.div_le_lower_bound; lia|apply Z.div_le_upper_bound; lia]. }
    rewrite (IH (d :: tmp) ((n >> 7) - 1) out); [|lia|rewrite (bool_decide_eq_false_2 (d :: tmp = [])) by done; destruct (bool_decide (tmp = [])); lia|done]. rewrite bool_decide_eq_false_2 by done.
    apply Step. lia.
Qed.

(** The array is large enough. *)
Lemma varint_fits fuel tmp n : (1 <= fuel)%nat -> 0 <= n < 2 ^ (7 * Z.of_nat fuel) -> exists out, varint_bytes fuel tmp n = Some out.
Proof.
  revert tmp n. induction fuel as [|fuel IH]; intros tmp n Hf Hn; [lia|]. cbn [varint_bytes].
  destruct (Z.leb_spec n 0x7F) as [Hs|Hl]; [eauto|]. apply IH; [destruct fuel; [cbn in Hn; lia|lia]|]. rewrite Z.shiftr_div_pow2 by lia.
  replace (7 * Z.of_nat (S fuel)) with (7 + 7 * Z.of_nat fuel) in Hn by lia. rewrite Z.pow_add_r in Hn by lia.
  assert (n / 2 ^ 7 < 2 ^ (7 * Z.of_nat fuel)) by (apply Z.div_lt_upper_bound; lia).
  assert (1 <= n / 2 ^ 7) by (apply Z.div_le_lower_bound; lia). lia.
Qed.

Lemma varint_size_length fuel tmp n out : varint_bytes fuel tmp n = Some out -> varint_size fuel (Z.of_nat (length tmp)) n = Some (Z.of_nat (length out)).
Proof.
  revert tmp n. induction fuel as [|fuel IH]; intros tmp n E; [done|]. cbn [varint_bytes varint_size] in *.
  destruct (n <=? 0x7F); [injection E as <-; cbn [length]; f_equal; lia|]. rewrite <- (IH _ _ E). cbn [length]. f_equal. lia.
Qed.

Lemma varint_fuel size : (1 <= size)%nat -> 8 * Z.of_nat size <= 7 * Z.of_nat ((size * 8 + 6) / 7).
Proof. intros H. rewrite Nat2Z.inj_div. pose proof (Z.div_mod (Z.of_nat (size * 8 + 6)) 7). pose proof (Z.mod_pos_bound (Z.of_nat (size * 8 + 6)) 7). lia. Qed.

(** Writing and reading a number that the type of the reader holds. *)
Lemma varint_roundtrip conv size n : (1 <= size)%nat -> 0 <= n < 2 ^ (8 * Z.of_nat size) -> (forall v, 0 <= v <= n -> conv v = Some v) ->
  exists bs, WriteVarInt size n = Some bs /\ GetSizeOfVarInt size n = Some (Z.of_nat (length bs)) /\ reads (ReadVarInt conv) bs n.
Proof.
  intros Hs Hn Hconv. destruct (varint_fits ((size * 8 + 6) / 7) [] n) as [bs E].
  { pose proof (varint_fuel size Hs). lia. }
  { split; [lia|]. eapply Z.lt_le_trans; [apply Hn|]. apply Z.pow_le_mono_r; [lia|]. by apply varint_fuel. }
  exists bs. split; [done|]. split; [apply (varint_size_length _ [] _ _ E)|]. intros rest. unfold ReadVarInt.
  rewrite (varint_read conv n _ [] n bs Hconv ltac:(lia) ltac:(cbn; lia) E). done.
Qed.

(** ** Canonical sizes *)

(** What a fixed-size reader took from a stream of bytes. *)
Lemma ser_readdata_inv n s v rest : words 8 s -> ser_readdata n s = Some (v, rest) -> s = store_le n v ++ rest /\ word (8 * Z.of_nat n) v.
Proof.
  intros Hs E. unfold ser_readdata, mbind, reader_bind, read_bytes in E. destruct (Nat.leb_spec n (length s)) as [Hn|]; [|done].
  cbn in E. injection E as <- <-. assert (words 8 (take n s)) as Ht by (by apply Forall_take).
  assert (length (take n s) = n) as Hlen by (rewrite length_take; lia). split.
  - rewrite <- Hlen at 1. by rewrite store_load_le, take_drop.
  - rewrite <- Hlen at 1. by apply load_le_word.
Qed.

Lemma byte_one b : word 8 b -> store_le 1 b = [b].
Proof. intros Hb. cbn. f_equal. apply (word_eq 8); [apply uchar_word|done|]. intros i Hi. by apply uchar_bit. Qed.

Lemma read_wide n least v rest : word (8 * Z.of_nat n) v -> least <= v ->
  (ser_readdata n ≫= canonical least) (store_le n v ++ rest) = Some (v, rest).
Proof.
  intros Hv Hl. unfold mbind, reader_bind. rewrite (ser_readdata_reads n v Hv rest). cbn. unfold canonical. by destruct (Z.ltb_spec v least); [lia|].
Qed.

Lemma read_wide_inv n least s v rest : words 8 s -> (ser_readdata n ≫= canonical least) s = Some (v, rest) ->
  s = store_le n v ++ rest /\ word (8 * Z.of_nat n) v /\ least <= v.
Proof.
  intros Hs E. apply reader_bind_inv in E as (v' & r & Er & E). unfold canonical in E.
  destruct (Z.ltb_spec v' least); [done|]. injection E as <- <-. destruct (ser_readdata_inv _ _ _ _ Hs Er) as [-> ?]. done.
Qed.

(** The encoding of a size by its first byte. *)
Lemma compact_size_reads nSize : 0 <= nSize <= MAX_SIZE -> reads ReadCompactSize (WriteCompactSize nSize) nSize.
Proof.
  intros Hn rest. unfold MAX_SIZE in *. assert (forall b r, 0 <= b < 256 -> ser_readdata8 (ser_writedata8 b ++ r) = Some (b, r)) as H8.
  { intros b r Hb. apply (ser_readdata_reads 1). done. }
  unfold ReadCompactSize, WriteCompactSize, MAX_SIZE. set (R := ReadCompactSize).
  unfold mbind at 1, reader_bind at 1.
  destruct (Z.ltb_spec nSize 253); [rewrite H8 by lia|destruct (Z.leb_spec nSize 0xFFFF); [|destruct (Z.leb_spec nSize 0xFFFFFFFF); [|lia]]].
  - cbn [mbind option_bind]. destruct (Z.ltb_spec nSize 253); [|lia]. unfold mbind, reader_bind, mret, reader_ret. cbn. by destruct (Z.ltb_spec 33554432 nSize); [lia|].
  - rewrite <- app_assoc, H8 by lia. cbn [mbind option_bind]. unfold mbind at 1, reader_bind at 1. cbn [Z.ltb Z.eqb Z.compare Pos.compare Pos.compare_cont Pos.eqb].
    rewrite (read_wide 2) by (unfold word; lia). cbn. by destruct (Z.ltb_spec 33554432 nSize); [lia|].
  - rewrite <- app_assoc, H8 by lia. cbn [mbind option_bind]. unfold mbind at 1, reader_bind at 1. cbn [Z.ltb Z.eqb Z.compare Pos.compare Pos.compare_cont Pos.eqb].
    rewrite (read_wide 4) by (unfold word; lia). cbn. by destruct (Z.ltb_spec 33554432 nSize); [lia|].
Qed.

Lemma compact_size_inv s nSize rest : words 8 s -> ReadCompactSize s = Some (nSize, rest) ->
  s = WriteCompactSize nSize ++ rest /\ 0 <= nSize <= MAX_SIZE.
Proof.
  intros Hs E. apply reader_bind_inv in E as (ch & r & E8 & E). destruct (ser_readdata_inv 1 _ _ _ Hs E8) as [-> Hch].
  apply Forall_app in Hs as [_ Hr]. apply reader_bind_inv in E as (v & r' & Ev & E).
  destruct (Z.ltb_spec MAX_SIZE v) as [|Hmax]; [done|]. injection E as <- <-. unfold word in Hch. cbn in Hch.
  unfold WriteCompactSize. destruct (Z.ltb_spec ch 253).
  - injection Ev as <- <-. split; [|lia]. destruct (Z.ltb_spec ch 253); [done|lia].
  - destruct (Z.eqb_spec ch 253) as [->|]; [|destruct (Z.eqb_spec ch 254) as [->|]];
      destruct (read_wide_inv _ _ _ _ _ Hr Ev) as (-> & Hv & Hl); unfold word in Hv; cbn in Hv; (split; [|unfold MAX_SIZE in *; lia]);
      destruct (Z.ltb_spec v 253); try lia; destruct (Z.leb_spec v 0xFFFF); try lia; try (destruct (Z.leb_spec v 0xFFFFFFFF); try lia).
    + by rewrite <- app_assoc.
    + by rewrite <- app_assoc.
    + assert (ch = 255) as -> by lia. by rewrite <- app_assoc.
Qed.

(** A size is read from a stream of bytes exactly when the stream starts with the
    encoding that [WriteCompactSize] gives and the size is at most [MAX_SIZE]: each
    size has one encoding, longer forms and larger sizes are refused. *)
Theorem compact_size_canonical s nSize rest : words 8 s ->
  ReadCompactSize s = Some (nSize, rest) <-> s = WriteCompactSize nSize ++ rest /\ 0 <= nSize <= MAX_SIZE.
Proof.
  intros Hs. split; [by apply compact_size_inv|]. intros [-> Hn]. by apply compact_size_reads.
Qed.

(** A three-byte form of a small size is refused, the one-byte form is read. *)
Lemma compact_size_canonical_witness :
  ReadCompactSize [252; 7] = Some (252, [7]) <-> [252; 7] = WriteCompactSize 252 ++ [7] /\ 0 <= 252 <= MAX_SIZE.
Proof. apply (compact_size_canonical [252; 7] 252 [7]). repeat constructor; done. Defined.

Example compact_size_long_form : ReadCompactSize [253; 252; 0; 7] = None /\ ReadCompactSize [253; 253; 0; 7] = Some (253, [7]).
Proof. by vm_compute. Qed.
