(* ===== verification/Codec.v ===== *)
(** * serialize.h: vectors and strings, and the law of a format

    A format is a writer and a reader.  [codec w r P] says that the reader accepts
    exactly what the writer gives for the values with [P]: it is both the round trip
    and the absence of a second encoding of the same value.  The law is proved for
    integers, strings of bytes and vectors, and for records from that of their
    fields. *)

From Stdlib Require Import ZArith Lia.
From stdpp Require Import base tactics numbers list.
From S2P Require Import Prelude SphTypes Serialize.

(** ** Vectors *)

(** Vectors and prevectors of bytes and strings are one block.  It is read in pieces
    of at most five million bytes, so that a bogus size does not allocate memory. *)
Definition write_blob (v : list Z) : list Z := WriteCompactSize (Z.of_nat (length v)) ++ v.

Fixpoint read_blocks (fuel : nat) (blk nSize : Z) : Reader (list Z) :=
  match fuel with
  | O => throw
  | S fuel =>
      if nSize <=? 0 then mret []
      else
        let len := Z.min nSize blk in
        piece ← read_bytes (Z.to_nat len);
        rest ← read_blocks fuel blk (nSize - len);
        mret (piece ++ rest)
  end.
Definition read_blob : Reader (list Z) := nSize ← ReadCompactSize; read_blocks (Z.to_nat nSize + 1) (1 + 4999999) nSize.

(** A string is read in one piece. *)
Definition read_string : Reader (list Z) := nSize ← ReadCompactSize; read_bytes (Z.to_nat nSize).

(** Other vectors, element by element. *)
Definition write_vec {A} (w : A -> list Z) (v : list A) : list Z := WriteCompactSize (Z.of_nat (length v)) ++ concat (w <$> v).

Fixpoint read_n {A} (r : Reader A) (n : nat) : Reader (list A) :=
  match n with
  | O => mret []
  | S n => a ← r; l ← read_n r n; mret (a :: l)
  end.
Definition read_vec {A} (r : Reader A) : Reader (list A) := nSize ← ReadCompactSize; read_n r (Z.to_nat nSize).

(** Signed integers, in two's complement. *)
Definition write_signed (n : nat) (v : Z) : list Z := store_le n (v mod 2 ^ (8 * Z.of_nat n)).
Definition read_signed (n : nat) : Reader Z :=
  x ← ser_readdata n; mret (if x <? 2 ^ (8 * Z.of_nat n - 1) then x else x - 2 ^ (8 * Z.of_nat n)).

(** ** The law *)

Definition codec {A} (w : A -> list Z) (r : Reader A) (P : A -> Prop) : Prop :=
  forall s a rest, words 8 s -> r s = Some (a, rest) <-> s = w a ++ rest /\ P a.

(** One step of a reader, forward and backward. *)
Lemma codec_step {A B} (w : A -> list Z) r P (f : A -> Reader B) a rest : codec w r P -> P a -> words 8 (w a ++ rest) -> (r ≫= f) (w a ++ rest) = f a rest.
Proof. intros H Ha Hw. unfold mbind, reader_bind. by rewrite (proj2 (H _ a rest Hw)). Qed.

Lemma codec_step_inv {A B} (w : A -> list Z) r P (f : A -> Reader B) s b rest : codec w r P -> words 8 s -> (r ≫= f) s = Some (b, rest) ->
  exists a s', s = w a ++ s' /\ P a /\ words 8 s' /\ f a s' = Some (b, rest).
Proof.
  intros H Hs E. apply reader_bind_inv in E as (a & s' & E & Ef). apply H in E as [-> Ha]; [|done]. apply Forall_app in Hs as [_ Hs]. by exists a, s'.
Qed.

Lemma codec_iff {A} (w : A -> list Z) r (P Q : A -> Prop) : codec w r P -> (forall a, P a <-> Q a) -> codec w r Q.
Proof. intros H HPQ s a rest Hs. rewrite (H s a rest Hs), HPQ. done. Qed.

Lemma codec_write {A} (w w' : A -> list Z) r (P : A -> Prop) : codec w r P -> (forall a, P a -> w a = w' a) -> codec w' r P.
Proof. intros H Hw s a rest Hs. rewrite (H s a rest Hs). split; intros [-> Ha]; by rewrite (Hw a Ha). Qed.

Lemma codec_ret {A} (a : A) : codec (fun _ => []) (mret a) (eq a).
Proof. intros s b rest _. cbn. split; [by intros [= <- <-]|by intros [-> <-]]. Qed.

Lemma codec_throw {A} (w : A -> list Z) : codec w throw (fun _ => False).
Proof. intros s b rest _. split; [done|]. by intros [_ []]. Qed.

(** A field [π] is written first and read first. *)
Lemma codec_bind {A C} (π : C -> A) (w1 : A -> list Z) (w2 : C -> list Z) (r1 : Reader A) (f : A -> Reader C) (P1 : A -> Prop) (P2 : C -> Prop) :
  codec w1 r1 P1 -> (forall a, P1 a -> codec w2 (f a) (fun c => P2 c /\ π c = a)) ->
  codec (fun c => w1 (π c) ++ w2 c) (r1 ≫= f) (fun c => P1 (π c) /\ P2 c).
Proof.
  intros H1 H2 s c rest Hs. split.
  - intros E. apply reader_bind_inv in E as (a & s' & E1 & E2). apply H1 in E1 as [-> Ha]; [|done]. apply Forall_app in Hs as [_ Hs'].
    apply (H2 a Ha) in E2 as (-> & Hc & <-); [|done]. by rewrite app_assoc.
  - intros (-> & Ha & Hc). rewrite <- app_assoc in *. apply Forall_app in Hs as Hs2. unfold mbind, reader_bind. rewrite (proj2 (H1 _ (π c) (w2 c ++ rest) Hs)) by done.
    cbn. by apply (H2 (π c) Ha _ _ _ (proj2 Hs2)).
Qed.

(** The last field. *)
Lemma codec_last {A C} (mk : A -> C) (π : C -> A) (w : A -> list Z) (r : Reader A) (P : A -> Prop) (Q : C -> Prop) :
  codec w r P -> (forall c a, c = mk a <-> π c = a /\ Q c) -> codec (fun c => w (π c)) (a ← r; mret (mk a)) (fun c => P (π c) /\ Q c).
Proof.
  intros H HQ. apply (codec_write (fun c => w (π c) ++ [])); [|intros; by rewrite app_nil_r]. apply (codec_bind π); [done|].
  intros a _. apply (codec_iff _ _ (eq (mk a))); [apply codec_ret|]. intros c. rewrite (comm and), <- HQ. by split.
Qed.

(** ** Basic formats *)

Lemma codec_int n : codec (store_le n) (ser_readdata n) (word (8 * Z.of_nat n)).
Proof.
  intros s v rest Hs. split; [apply (ser_readdata_inv n s v rest Hs)|]. intros [-> Hv]. by apply ser_readdata_reads.
Qed.

Lemma codec_size : codec WriteCompactSize ReadCompactSize (fun n => 0 <= n <= MAX_SIZE).
Proof. intros s v rest Hs. split; [by apply compact_size_inv|]. intros [-> Hv]. by apply compact_size_reads. Qed.

Lemma codec_bytes n : codec (fun bs => bs) (read_bytes n) (fun bs => length bs = n /\ words 8 bs).
Proof.
  intros s v rest Hs. unfold read_bytes. split.
  - destruct (Nat.leb_spec n (length s)); [|done]. intros [= <- <-]. rewrite take_drop, length_take. split; [done|]. split; [lia|by apply Forall_take].
  - intros (-> & <- & _). by apply read_bytes_reads.
Qed.

Lemma codec_signed n : (1 <= n)%nat -> codec (write_signed n) (read_signed n) (fun v => - 2 ^ (8 * Z.of_nat n - 1) <= v < 2 ^ (8 * Z.of_nat n - 1)).
Proof.
  intros Hn. unfold write_signed, read_signed. set (h := 2 ^ (8 * Z.of_nat n - 1)). assert (2 ^ (8 * Z.of_nat n) = 2 * h) as E.
  { unfold h. rewrite <- Z.pow_succ_r by lia. f_equal. lia. }
  assert (0 < h) by (apply Z.pow_pos_nonneg; lia). rewrite E.
  apply (codec_iff _ _ (fun v => word (8 * Z.of_nat n) (v mod (2 * h)) /\ - h <= v < h)).
  - apply (codec_write (fun v => store_le n (v mod (2 * h)) ++ [])); [|intros; apply app_nil_r]. apply (codec_bind (fun v => v mod (2 * h))); [apply codec_int|].
    intros x Hx. unfold word in Hx. rewrite E in Hx. eapply codec_iff; [apply codec_ret|]. intros v. destruct (Z.ltb_spec x h).
    + split; [intros <-; rewrite Z.mod_small by lia; lia|]. intros [Hv Hm]. pose proof (Z.div_mod v (2 * h) ltac:(lia)). assert (v / (2 * h) = 0 \/ v / (2 * h) = -1) as [D|D] by nia; nia.
    + split; [intros <-; split; [lia|]; rewrite <- (Z.mod_unique (x - 2 * h) (2 * h) (-1) x); lia|]. intros [Hv Hm]. pose proof (Z.div_mod v (2 * h) ltac:(lia)). assert (v / (2 * h) = 0 \/ v / (2 * h) = -1) as [D|D] by nia; nia.
  - intros v. split; [by intros [_ ?]|]. intros Hv. split; [|done]. unfold word. rewrite E. apply Z.mod_pos_bound. lia.
Qed.

Lemma read_blocks_bytes fuel blk nSize s : 0 < blk -> 0 <= nSize -> (Z.to_nat nSize < fuel)%nat -> read_blocks fuel blk nSize s = read_bytes (Z.to_nat nSize) s.
Proof.
  intros Hb. revert nSize s. induction fuel as [|fuel IH]; intros nSize s Hn Hf; [lia|]. cbn [read_blocks]. destruct (Z.leb_spec nSize 0) as [Hz|Hp].
  - assert (nSize = 0) as -> by lia. unfold read_bytes. cbn. by rewrite take_0, drop_0.
  - set (len := Z.min nSize blk). unfold mbind, reader_bind. unfold read_bytes at 1 2. destruct (Nat.leb_spec (Z.to_nat len) (length s)) as [Hl|Hl]; cbn [mbind option_bind].
    + rewrite IH by lia. unfold read_bytes. rewrite length_drop. destruct (Nat.leb_spec (Z.to_nat (nSize - len)) (length s - Z.to_nat len)) as [H1|H1];
        destruct (Nat.leb_spec (Z.to_nat nSize) (length s)) as [H2|H2]; try lia; [|done]. cbn. rewrite drop_drop. replace (Z.to_nat nSize) with (Z.to_nat len + Z.to_nat (nSize - len))%nat by lia.
      f_equal. f_equal. by rewrite take_take_drop.
    + destruct (Nat.leb_spec (Z.to_nat nSize) (length s)); [lia|done].
Qed.

Lemma codec_counted {A} (w : list A -> list Z) (r : nat -> Reader (list A)) (P : list A -> Prop) :
  (forall n, codec w (r n) (fun l => P l /\ length l = n)) ->
  codec (fun l => WriteCompactSize (Z.of_nat (length l)) ++ w l) (nSize ← ReadCompactSize; r (Z.to_nat nSize)) (fun l => Z.of_nat (length l) <= MAX_SIZE /\ P l).
Proof.
  intros H. apply (codec_iff _ _ (fun l => 0 <= Z.of_nat (length l) <= MAX_SIZE /\ P l)); [|intros l; split; intros [? ?]; split; (lia || done)].
  apply (codec_bind (fun l : list A => Z.of_nat (length l)) WriteCompactSize w _ _ (fun n => 0 <= n <= MAX_SIZE) P); [apply codec_size|]. intros n Hn. apply (codec_iff _ _ _ _ (H (Z.to_nat n))). intros l. split; intros [? ?]; split; (lia || done).
Qed.

Lemma codec_string : codec write_blob read_string (fun l => Z.of_nat (length l) <= MAX_SIZE /\ words 8 l).
Proof. apply (codec_counted (fun l => l)). intros n. eapply codec_iff; [apply codec_bytes|]. intros l. by rewrite (comm and). Qed.

Lemma codec_blob : codec write_blob read_blob (fun l => Z.of_nat (length l) <= MAX_SIZE /\ words 8 l).
Proof.
  intros s l rest Hs. rewrite <- (codec_string s l rest Hs). unfold read_blob, read_string, mbind, reader_bind.
  destruct (ReadCompactSize s) as [[n s']|] eqn:E; [|done]. cbn [option_bind]. apply compact_size_inv in E as [_ Hn]; [|done]. cbn. by rewrite read_blocks_bytes by lia.
Qed.

Lemma codec_n {A} (w : A -> list Z) r P n : codec w r P -> codec (fun l => concat (w <$> l)) (read_n r n) (fun l => Forall P l /\ length l = n).
Proof.
  intros H. induction n as [|n IH]; cbn [read_n].
  - intros s l rest _. cbn. split; [by intros [= <- <-]|]. intros (-> & _ & Hl). by destruct l.
  - intros s l rest Hs. split.
    + intros E. apply reader_bind_inv in E as (a & s1 & E1 & E). apply reader_bind_inv in E as (l' & s2 & E2 & E). injection E as <- <-.
      apply H in E1 as [-> Ha]; [|done]. apply Forall_app in Hs as [_ Hs]. apply IH in E2 as (-> & Hl & Hn); [|done]. cbn. rewrite app_assoc, Hn. by split_and!; [|constructor|].
    + intros (-> & Hl & Hn). destruct l as [|a l]; [done|]. apply Forall_cons in Hl as [Ha Hl]. injection Hn as Hn. rewrite fmap_cons in *. cbn [concat] in *. rewrite <- app_assoc in *.
      apply Forall_app in Hs as Hs2. unfold mbind, reader_bind. rewrite (proj2 (H _ a _ Hs)) by done. cbn [mbind option_bind].
      rewrite (proj2 (IH _ l rest (proj2 Hs2))) by done. done.
Qed.

Lemma codec_vec {A} (w : A -> list Z) r P : codec w r P -> codec (write_vec w) (read_vec r) (fun l => Z.of_nat (length l) <= MAX_SIZE /\ Forall P l).
Proof. intros H. apply (codec_counted (fun l => concat (w <$> l))). intros n. by apply codec_n. Qed.
