(* ===== verification/Compressor.v ===== *)
(** * compressor.h, compressor.cpp: compact encoding of transaction outputs

    Amounts are encoded without their trailing zeros, and the three common kinds of
    scripts by their hash or key.  A script is the list of its bytes; the arithmetic
    of amounts wraps around as [uint64_t].  Parsing a public key and printing it
    uncompressed is the work of the secp256k1 library, a parameter here, of which only
    the compression of points is used. *)

From Stdlib Require Import ZArith Lia.
From stdpp Require Import base tactics numbers list.
From S2P Require Import Prelude SphTypes Serialize.

(** ** Amounts *)

(** [while (((n % 10) == 0) && e < 9)] *)
Fixpoint strip_zeros (room : nat) (n e : Z) : Z * Z :=
  match room with
  | O => (n, e)
  | S room => if n mod 10 =? 0 then strip_zeros room (n / 10) (e + 1) else (n, e)
  end.

(** [None] is a failed assertion. *)
Definition CompressAmount (n : Z) : option Z :=
  if n =? 0 then Some 0
  else
    let '(n, e) := strip_zeros 9 n 0 in
    if e <? 9 then
      let d := n mod 10 in
      if (1 <=? d) && (d <=? 9) then Some ((1 + (n / 10 * 9 + d - 1) * 10 + e) mod 2 ^ 64) else None
    else Some ((1 + (n - 1) * 10 + 9) mod 2 ^ 64).

(** [while (e) { n *= 10; e--; }] *)
Fixpoint times_ten (e : nat) (n : Z) : Z :=
  match e with O => n | S e => times_ten e ((n * 10) mod 2 ^ 64) end.

Definition DecompressAmount (x : Z) : Z :=
  if x =? 0 then 0
  else
    let x := x - 1 in
    let e := x mod 10 in
    let x := x / 10 in
    let n := if e <? 9 then (x / 9 * 10 + (x mod 9 + 1)) mod 2 ^ 64 else (x + 1) mod 2 ^ 64 in
    times_ten (Z.to_nat e) n.

Lemma strip_zeros_spec room n e n' e' : 0 < n -> strip_zeros room n e = (n', e') ->
  0 < n' /\ e <= e' <= e + Z.of_nat room /\ n = n' * 10 ^ (e' - e) /\ (e' < e + Z.of_nat room -> n' mod 10 <> 0).
Proof.
  revert n e. induction room as [|room IH]; intros n e Hn E; cbn [strip_zeros] in E.
  { injection E as <- <-. rewrite Z.sub_diag. lia. }
  destruct (Z.eqb_spec (n mod 10) 0) as [Hz|Hz].
  - pose proof (Z.div_mod n 10 ltac:(lia)). destruct (IH (n / 10) (e + 1)) as (H1 & H2 & H3 & H4); [lia|done|].
    split; [done|]. split; [lia|]. split; [|intros; apply H4; lia].
    replace (e' - e) with (1 + (e' - (e + 1))) by lia. rewrite Z.pow_add_r by lia. lia.
  - injection E as <- <-. rewrite Z.sub_diag. lia.
Qed.

Lemma times_ten_spec e n : 0 <= n -> n * 10 ^ Z.of_nat e < 2 ^ 64 -> times_ten e n = n * 10 ^ Z.of_nat e.
Proof.
  revert n. induction e as [|e IH]; intros n Hn Hlt; cbn [times_ten]; [lia|].
  replace (Z.of_nat (S e)) with (1 + Z.of_nat e) in * by lia. rewrite Z.pow_add_r in * by lia.
  pose proof (Z.pow_pos_nonneg 10 (Z.of_nat e)). rewrite Z.mod_small by nia. rewrite IH by nia. lia.
Qed.

(** The largest code is that of an amount without trailing zeros. *)
Lemma amount_roundtrip n : 0 <= n -> 9 * n + 20 < 2 ^ 64 ->
  exists x, CompressAmount n = Some x /\ 0 <= x < 2 ^ 64 /\ DecompressAmount x = n.
Proof.
  intros Hn Hlt. unfold CompressAmount. destruct (Z.eqb_spec n 0) as [->|Hnz]; [exists 0; done|].
  destruct (strip_zeros 9 n 0) as [n' e] eqn:E. apply strip_zeros_spec in E as (Hn' & He & Hne & Hlast); [|lia].
  rewrite Z.sub_0_r in Hne. pose proof (Z.pow_pos_nonneg 10 e ltac:(lia) ltac:(lia)) as Hp. assert (n' <= n) as Hle by nia.
  destruct (Z.ltb_spec e 9) as [He9|He9].
  - specialize (Hlast ltac:(lia)). pose proof (Z.div_mod n' 10 ltac:(lia)). pose proof (Z.mod_pos_bound n' 10 ltac:(lia)).
    set (q := n' / 10) in *. set (d := n' mod 10) in *.
    destruct (Z.leb_spec 1 d), (Z.leb_spec d 9); try lia. cbn [andb]. rewrite Z.mod_small by lia. eexists. split; [done|]. split; [lia|].
    unfold DecompressAmount. destruct (Z.eqb_spec (1 + (q * 9 + d - 1) * 10 + e) 0); [lia|].
    replace (1 + (q * 9 + d - 1) * 10 + e - 1) with (e + (q * 9 + d - 1) * 10) by lia.
    rewrite Z.mod_add, Z.div_add, (Z.mod_small e), (Z.div_small e), Z.add_0_l by lia. destruct (Z.ltb_spec e 9); [|lia].
    replace (q * 9 + d - 1) with (d - 1 + q * 9) by lia. rewrite Z.mod_add, Z.div_add, (Z.mod_small (d - 1)), (Z.div_small (d - 1)) by lia.
    rewrite Z.mod_small by lia. rewrite times_ten_spec by (rewrite ?Z2Nat.id; nia || lia). rewrite Z2Nat.id by lia. nia.
  - assert (e = 9) as -> by lia. rewrite Z.mod_small by lia. eexists. split; [done|]. split; [lia|].
    unfold DecompressAmount. destruct (Z.eqb_spec (1 + (n' - 1) * 10 + 9) 0); [lia|].
    replace (1 + (n' - 1) * 10 + 9 - 1) with (9 + (n' - 1) * 10) by lia. rewrite Z.mod_add, Z.div_add by lia. change (9 mod 10) with 9. change (9 / 10) with 0. change (9 <? 9) with false. cbn [Z.add].
    rewrite Z.mod_small by lia. rewrite times_ten_spec by (change (Z.of_nat (Z.to_nat 9)) with 9; lia). change (Z.of_nat (Z.to_nat 9)) with 9. lia.
Qed.

(** [MAX_MONEY] is the largest [int64_t]: such an amount overflows the encoding. *)
Lemma large_amount_lost : let n := 2 ^ 63 - 1 in option_map DecompressAmount (CompressAmount n) <> Some n.
Proof. by vm_compute. Qed.

(** ** Public keys *)

Definition GetLen (chHeader : Z) : nat :=
  if (chHeader =? 2) || (chHeader =? 3) then 33%nat
  else if (chHeader =? 4) || (chHeader =? 6) || (chHeader =? 7) then 65%nat else 0%nat.

(** [CPubKey::Set]; an invalid key has the header 0xFF. *)
Definition CPubKey_Set (bs : list Z) : list Z :=
  let len := if bool_decide (bs = []) then 0%nat else GetLen bs.[0] in
  if negb (len =? 0)%nat && (len =? length bs)%nat then bs else [0xFF].
Definition CPubKey_size (vch : list Z) : nat := GetLen vch.[0].

(** ** Scripts *)

Definition OP_RETURN : Z := 0x6a.
Definition OP_DUP : Z := 0x76.
Definition OP_EQUAL : Z := 0x87.
Definition OP_EQUALVERIFY : Z := 0x88.
Definition OP_HASH160 : Z := 0xa9.
Definition OP_CHECKSIG : Z := 0xac.
Definition MAX_SCRIPT_SIZE : Z := 10000.
Definition nSpecialScripts : Z := 6.

Definition slice (from len : nat) (l : list Z) : list Z := take len (drop from l).

Section Scripts.

(** [secp256k1_ec_pubkey_parse] followed by an uncompressed
    [secp256k1_ec_pubkey_serialize]. *)
Variable secp256k1_uncompressed : list Z -> option (list Z).

Definition IsFullyValid (vch : list Z) : bool :=
  negb (CPubKey_size vch =? 0)%nat && bool_decide (is_Some (secp256k1_uncompressed vch)).
Definition Decompress_key (vch : list Z) : option (list Z) :=
  if (CPubKey_size vch =? 0)%nat then None else CPubKey_Set <$> secp256k1_uncompressed vch.

Definition IsToKeyID (script : list Z) : option (list Z) :=
  if (length script =? 25)%nat && (script.[0] =? OP_DUP) && (script.[1] =? OP_HASH160) && (script.[2] =? 20) &&
     (script.[23] =? OP_EQUALVERIFY) && (script.[24] =? OP_CHECKSIG)
  then Some (slice 3 20 script) else None.

Definition IsToScriptID (script : list Z) : option (list Z) :=
  if (length script =? 23)%nat && (script.[0] =? OP_HASH160) && (script.[1] =? 20) && (script.[22] =? OP_EQUAL)
  then Some (slice 2 20 script) else None.

Definition IsToPubKey (script : list Z) : option (list Z) :=
  if (length script =? 35)%nat && (script.[0] =? 33) && (script.[34] =? OP_CHECKSIG) && ((script.[1] =? 0x02) || (script.[1] =? 0x03))
  then Some (CPubKey_Set (slice 1 33 script))
  else if (length script =? 67)%nat && (script.[0] =? 65) && (script.[66] =? OP_CHECKSIG) && (script.[1] =? 0x04)
  then let pubkey := CPubKey_Set (slice 1 65 script) in if IsFullyValid pubkey then Some pubkey else None
  else None.

Definition Compress (script : list Z) : option (list Z) :=
  match IsToKeyID script with
  | Some keyID => Some (0x00 :: keyID)
  | None =>
      match IsToScriptID script with
      | Some scriptID => Some (0x01 :: scriptID)
      | None =>
          match IsToPubKey script with
          | Some pubkey =>
              if (pubkey.[0] =? 0x02) || (pubkey.[0] =? 0x03) then Some (pubkey.[0] :: slice 1 32 pubkey)
              else if pubkey.[0] =? 0x04 then Some ((0x04 .| (pubkey.[64] .& 0x01)) :: slice 1 32 pubkey)
              else None
          | None => None
          end
      end
  end.

Definition GetSpecialSize (nSize : Z) : nat :=
  if (nSize =? 0) || (nSize =? 1) then 20%nat
  else if (nSize =? 2) || (nSize =? 3) || (nSize =? 4) || (nSize =? 5) then 32%nat else 0%nat.

(** The returned flag and the script, which stays as it was when the flag is false;
    [None] is a failed assertion. *)
Definition Decompress (nSize : Z) (vin script : list Z) : option (bool * list Z) :=
  if nSize =? 0x00 then Some (true, [OP_DUP; OP_HASH160; 20] ++ take 20 vin ++ [OP_EQUALVERIFY; OP_CHECKSIG])
  else if nSize =? 0x01 then Some (true, [OP_HASH160; 20] ++ take 20 vin ++ [OP_EQUAL])
  else if (nSize =? 0x02) || (nSize =? 0x03) then Some (true, [33; nSize] ++ take 32 vin ++ [OP_CHECKSIG])
  else if (nSize =? 0x04) || (nSize =? 0x05) then
    match Decompress_key (CPubKey_Set ((nSize - 2) :: take 32 vin)) with
    | None => Some (false, script)
    | Some pubkey => if (CPubKey_size pubkey =? 65)%nat then Some (true, [65] ++ take 65 pubkey ++ [OP_CHECKSIG]) else None
    end
  else Some (false, script).

Definition CScriptCompressor_Serialize (script : list Z) : option (list Z) :=
  match Compress script with
  | Some compr => Some compr
  | None => bs ← WriteVarInt 4 ((Z.of_nat (length script) + nSpecialScripts) mod 2 ^ 32); Some (bs ++ script)
  end.

(** [script] is the content of the script before. *)
Definition CScriptCompressor_Unserialize (script : list Z) : Reader (list Z) :=
  nSize ← ReadVarInt (to_unsigned 4);
  if nSize <? nSpecialScripts then
    vch ← read_bytes (GetSpecialSize nSize);
    match Decompress nSize vch script with Some (_, script) => mret script | None => throw end
  else
    let nSize := nSize - nSpecialScripts in
    if MAX_SCRIPT_SIZE <? nSize then ignore_bytes (Z.to_nat nSize) ≫= fun _ => mret (script ++ [OP_RETURN])
    else read_bytes (Z.to_nat nSize).

(** *** Special scripts are rebuilt *)

Lemma split_at (l : list Z) (a b : nat) : length l = (a + b)%nat -> exists l1 l2, l = l1 ++ l2 /\ length l1 = a /\ length l2 = b.
Proof. intros H. exists (take a l), (drop a l). rewrite take_drop, length_take, length_drop. split; [done|lia]. Qed.

(** The bytes before and after the middle of a script. *)
Lemma frame_of (script : list Z) (a b c : nat) : length script = (a + (b + c))%nat ->
  exists l1 l2 l3, script = l1 ++ l2 ++ l3 /\ length l1 = a /\ length l2 = b /\ length l3 = c.
Proof.
  intros H. destruct (split_at script a (b + c) H) as (l1 & r & -> & H1 & Hr). destruct (split_at r b c Hr) as (l2 & l3 & -> & H2 & H3).
  by exists l1, l2, l3.
Qed.

Ltac known_bytes :=
  repeat match goal with
  | H : _ && _ = true |- _ => apply andb_prop in H as [? ?]
  | H : (_ =? _)%nat = true |- _ => apply Nat.eqb_eq in H
  | H : (_ =? _) = true |- _ => apply Z.eqb_eq in H
  end.

(** [tail_bytes H] evaluates the bytes behind a middle part of known length. *)
Ltac tail_byte l2 l3 H2 k := let H := fresh in pose proof (app_nth2_plus l2 l3 0 k) as H; rewrite H2 in H; cbn [Nat.add] in H; rewrite H in *; clear H.

Lemma IsToKeyID_inv script h : IsToKeyID script = Some h ->
  length h = 20%nat /\ script = [OP_DUP; OP_HASH160; 20] ++ h ++ [OP_EQUALVERIFY; OP_CHECKSIG].
Proof.
  unfold IsToKeyID. intros E. match type of E with (if ?c then _ else _) = _ => destruct c eqn:C; [|done] end. injection E as <-. known_bytes.
  destruct (frame_of script 3 20 2) as ([|a [|b [|c []]]] & l2 & [|d [|e []]] & -> & HL1 & HL2 & HL3); try done.
  cbn [app nth] in *. tail_byte l2 [d; e] HL2 0%nat. tail_byte l2 [d; e] HL2 1%nat. cbn [nth] in *. subst.
  unfold slice. cbn [skipn]. rewrite ?drop_0, <- HL2, take_app_length. done.
Qed.

Lemma IsToScriptID_inv script h : IsToScriptID script = Some h ->
  length h = 20%nat /\ script = [OP_HASH160; 20] ++ h ++ [OP_EQUAL].
Proof.
  unfold IsToScriptID. intros E. match type of E with (if ?c then _ else _) = _ => destruct c eqn:C; [|done] end. injection E as <-. known_bytes.
  destruct (frame_of script 2 20 1) as ([|a [|b []]] & l2 & [|d []] & -> & HL1 & HL2 & HL3); try done.
  cbn [app nth] in *. tail_byte l2 [d] HL2 0%nat. cbn [nth] in *. subst.
  unfold slice. cbn [skipn]. rewrite ?drop_0, <- HL2, take_app_length. done.
Qed.

Lemma Set_valid h body : GetLen h = S (length body) -> CPubKey_Set (h :: body) = h :: body.
Proof. intros H. unfold CPubKey_Set. cbn [nth length]. rewrite bool_decide_eq_false_2 by done. rewrite H, Nat.eqb_refl. done. Qed.

(** A script that pays to a key: compressed, or uncompressed and valid. *)
Lemma IsToPubKey_inv script key : IsToPubKey script = Some key ->
  (exists h x, key = h :: x /\ (h = 2 \/ h = 3) /\ length x = 32%nat /\ script = 33 :: h :: x ++ [OP_CHECKSIG]) \/
  (exists x y, key = 4 :: x ++ y /\ length x = 32%nat /\ length y = 32%nat /\ script = 65 :: key ++ [OP_CHECKSIG] /\ is_Some (secp256k1_uncompressed key)).
Proof.
  unfold IsToPubKey. intros E. match type of E with (if ?c then _ else _) = _ => destruct c eqn:C end.
  - left. injection E as <-. known_bytes.
    destruct (frame_of script 2 32 1) as ([|a [|b []]] & l2 & [|d []] & -> & HL1 & HL2 & HL3); try done.
    cbn [app nth] in *. tail_byte l2 [d] HL2 0%nat. cbn [nth] in *. subst. exists b, l2. unfold slice. cbn [skipn firstn]. rewrite ?drop_0, <- HL2, take_app_length.
    assert (b = 2 \/ b = 3) as Hb by (match goal with H : _ || _ = true |- _ => apply orb_true_iff in H as [H|H]; known_bytes; auto end).
    rewrite Set_valid by (rewrite HL2; by destruct Hb as [-> | ->]). done.
  - right. clear C. match type of E with (if ?c then _ else _) = _ => destruct c eqn:C; [|done] end. known_bytes.
    destruct (frame_of script 2 64 1) as ([|a [|b []]] & l2 & [|d []] & -> & HL1 & HL2 & HL3); try done.
    cbn [app nth] in *. tail_byte l2 [d] HL2 0%nat. cbn [nth] in *. subst. unfold slice in E. cbn [skipn firstn] in E. rewrite ?drop_0, <- HL2, take_app_length in E.
    rewrite Set_valid in E by (by rewrite HL2). destruct (IsFullyValid _) eqn:V; [|done]. injection E as <-. apply andb_prop in V as [_ V]. apply bool_decide_eq_true in V.
    destruct (split_at l2 32 32 HL2) as (x & y & -> & Hx & Hy). exists x, y. done.
Qed.

(** *** The round trip of scripts *)

(** The library compresses points: the header of the compressed form is the parity
    of the last byte of the second coordinate. *)
Hypothesis point_compression : forall x y, length x = 32%nat -> length y = 32%nat -> is_Some (secp256k1_uncompressed (4 :: x ++ y)) ->
  secp256k1_uncompressed ((2 + (y.[31] .& 1)) :: x) = Some (4 :: x ++ y).

Lemma small_varint b : 0 <= b <= 127 -> reads (ReadVarInt (to_unsigned 4)) [b] b.
Proof.
  intros Hb rest. unfold ReadVarInt. cbn [app ReadVarInt_loop]. change 127 with (Z.ones 7). rewrite Z.land_ones, Z.mod_small, Z.lor_0_l by lia.
  unfold to_unsigned. rewrite Z.mod_small by (change (8 * Z.of_nat 4) with 32; lia). cbn [mbind option_bind].
  replace (b .& 128) with 0; [done|]. symmetry. bits_intro i Hi. rewrite Z.land_spec, Z.bits_0. change 128 with (2 ^ 7). rewrite Z.pow2_bits_eqb by lia.
  destruct (Z.eqb_spec 7 i) as [<-|]; [|by rewrite andb_false_r]. rewrite (word_bit_high 7); [done|split; lia|lia].
Qed.

Lemma special_reads nSize body init script' : 0 <= nSize < 6 -> length body = GetSpecialSize nSize ->
  Decompress nSize body init = Some (true, script') -> reads (CScriptCompressor_Unserialize init) (nSize :: body) script'.
Proof.
  intros Hn Hl HD. unfold CScriptCompressor_Unserialize. apply (reads_bind _ _ [nSize] body nSize); [apply small_varint; lia|].
  unfold nSpecialScripts. destruct (Z.ltb_spec nSize 6); [|lia]. eapply reads_bind_ret; [by apply read_bytes_reads|]. by rewrite HD.
Qed.

Lemma parity_bit b : b .& 1 = 0 \/ b .& 1 = 1.
Proof. change 1 with (Z.ones 1) at 1 2. rewrite Z.land_ones by lia. change (2 ^ 1) with 2. pose proof (Z.mod_pos_bound b 2). lia. Qed.

Lemma script_roundtrip init script : Z.of_nat (length script) <= MAX_SCRIPT_SIZE ->
  exists bs, CScriptCompressor_Serialize script = Some bs /\ reads (CScriptCompressor_Unserialize init) bs script.
Proof.
  intros Hlen. unfold MAX_SCRIPT_SIZE in Hlen. unfold CScriptCompressor_Serialize, Compress.
  destruct (IsToKeyID script) as [h|] eqn:E1.
  { destruct (IsToKeyID_inv _ _ E1) as [Hh ->]. eexists. split; [done|]. apply special_reads; [lia|done|]. unfold Decompress. by rewrite <- Hh, firstn_all. }
  destruct (IsToScriptID script) as [h|] eqn:E2.
  { destruct (IsToScriptID_inv _ _ E2) as [Hh ->]. eexists. split; [done|]. apply special_reads; [lia|done|]. unfold Decompress. by rewrite <- Hh, firstn_all. }
  destruct (IsToPubKey script) as [key|] eqn:E3.
  2:{ rewrite Z.mod_small by (unfold nSpecialScripts; lia). destruct (varint_roundtrip (to_unsigned 4) 4 (Z.of_nat (length script) + nSpecialScripts)) as (bs & -> & _ & Hr);
      [lia|unfold nSpecialScripts; change (8 * Z.of_nat 4) with 32; lia|intros v Hv; unfold to_unsigned; change (8 * Z.of_nat 4) with 32; rewrite Z.mod_small; [done|unfold nSpecialScripts in *; lia]|].
      eexists. split; [done|]. eapply reads_bind; [done|]. unfold nSpecialScripts, MAX_SCRIPT_SIZE.
      destruct (Z.ltb_spec (Z.of_nat (length script) + 6) 6); [lia|]. destruct (Z.ltb_spec 10000 (Z.of_nat (length script) + 6 - 6)); [lia|].
      apply read_bytes_reads. lia. }
  destruct (IsToPubKey_inv _ _ E3) as [(h & x & -> & Hh & Hx & ->)|(x & y & Ek & Hx & Hy & -> & Hv)].
  - assert (slice 1 32 (h :: x) = x) as Hs by (unfold slice; cbn [skipn]; by rewrite ?drop_0, <- Hx, firstn_all).
    cbn [nth]. destruct Hh as [-> | ->]; cbn [Z.eqb Pos.eqb orb]; rewrite Hs; (eexists; split; [done|]); apply special_reads; try done; unfold Decompress; cbn [Z.eqb Pos.eqb orb]; by rewrite <- Hx, firstn_all.
  - rewrite Ek in *. assert (slice 1 32 (4 :: x ++ y) = x) as Hs by (unfold slice; cbn [skipn]; by rewrite ?drop_0, <- Hx, take_app_length).
    cbn [nth]. cbn [Z.eqb Pos.eqb orb]. rewrite Hs. tail_byte x y Hx 31%nat.
    eexists. split; [done|]. pose proof (point_compression x y Hx Hy Hv) as PC.
    assert (forall k, k = 4 \/ k = 5 -> secp256k1_uncompressed ((k - 2) :: x) = Some (4 :: x ++ y) ->
      Decompress k x init = Some (true, 65 :: (4 :: x ++ y) ++ [OP_CHECKSIG])) as HD.
    { intros k Hk Hp. assert (take 32 x = x) as Htx by (by rewrite <- Hx, firstn_all).
      assert (take 65 (4 :: x ++ y) = 4 :: x ++ y) as Htk by (apply take_ge; cbn [length]; rewrite length_app; lia).
      assert (CPubKey_Set (4 :: x ++ y) = 4 :: x ++ y) as Hset by (apply Set_valid; rewrite length_app, Hx, Hy; done).
      assert (CPubKey_Set ((k - 2) :: x) = (k - 2) :: x) as Hset2 by (apply Set_valid; rewrite Hx; by destruct Hk as [-> | ->]).
      unfold Decompress. rewrite Htx, Hset2. unfold Decompress_key. rewrite Hp. cbn [fmap option_fmap option_map]. rewrite Hset.
      replace (CPubKey_size ((k - 2) :: x)) with 33%nat by (by destruct Hk as [-> | ->]). change (CPubKey_size (4 :: x ++ y)) with 65%nat.
      cbn [Nat.eqb]. rewrite Htk. by destruct Hk as [-> | ->]. }
    destruct (parity_bit y.[31]) as [Hb|Hb]; rewrite Hb in *; apply special_reads; try done; apply HD; auto.
Qed.

End Scripts.
