(* ===== verification/Coins.v ===== *)
(** * coins.h: the unspent outputs of a transaction

    [CCoins] with its operations (creating it from a transaction, spending an output,
    dropping the spent ones at the end) and its serialisation: a header, a bit mask of
    the outputs from the third on, and the compressed outputs.  Reading back what was
    written gives the coins without the spent outputs at the end; the flag of
    coinstakes is not part of the format, and a negative version is reduced to seven
    bits. *)

From Stdlib Require Import ZArith Lia.
From stdpp Require Import base tactics numbers list.
From S2P Require Import Prelude SphTypes Serialize Compressor.

Module CTxOut.

Record t := { nValue : Z; scriptPubKey : list Z }.

Definition SetNull : t := {| nValue := -1; scriptPubKey := [] |}.
Definition IsNull (o : t) : bool := nValue o =? -1.

End CTxOut.

Module CCoins.

Record t := {
  fCoinBase : bool;
  fCoinStake : bool;
  vout : list CTxOut.t;
  nHeight : Z;
  nVersion : Z
}.

Definition with_vout (c : t) (l : list CTxOut.t) : t := {|
  fCoinBase := fCoinBase c; fCoinStake := fCoinStake c; vout := l; nHeight := nHeight c; nVersion := nVersion c |}.

(** The empty constructor and [Clear]. *)
Definition Clear : t := {| fCoinBase := false; fCoinStake := false; vout := []; nHeight := 0; nVersion := 0 |}.

(** Popping the null outputs off the end. *)
Fixpoint pop_nulls (rev_vout : list CTxOut.t) : list CTxOut.t :=
  match rev_vout with o :: l => if CTxOut.IsNull o then pop_nulls l else rev_vout | [] => [] end.
Definition Cleanup (c : t) : t := with_vout c (reverse (pop_nulls (reverse (vout c)))).

Definition IsUnspendable (script : list Z) : bool :=
  ((0 <? Z.of_nat (length script)) && (script.[0] =? OP_RETURN)) || (MAX_SCRIPT_SIZE <? Z.of_nat (length script)).
Definition ClearUnspendable (c : t) : t :=
  Cleanup (with_vout c ((fun o => if IsUnspendable (CTxOut.scriptPubKey o) then CTxOut.SetNull else o) <$> vout c)).

(** The transaction is given by what is read of it. *)
Definition FromTx (coinbase coinstake : bool) (tx_vout : list CTxOut.t) (version nHeightIn : Z) : t :=
  ClearUnspendable {| fCoinBase := coinbase; fCoinStake := coinstake; vout := tx_vout; nHeight := nHeightIn; nVersion := version |}.

Definition IsAvailable (c : t) (nPos : nat) : bool :=
  match vout c !! nPos with Some o => negb (CTxOut.IsNull o) | None => false end.
Definition IsPruned (c : t) : bool := forallb CTxOut.IsNull (vout c).

(** The flag that [Spend] returns and the coins after it. *)
Definition Spend (c : t) (nPos : nat) : bool * t :=
  if IsAvailable c nPos then (true, Cleanup (with_vout c (<[nPos := CTxOut.SetNull]> (vout c)))) else (false, c).

(** *** The bit mask *)

Definition byte_used (c : t) (b : nat) : bool := existsb (fun i => IsAvailable c (2 + b * 8 + i)) (seq 0 8).

(** The bytes [b] with [2 + b * 8 < vout.size()]. *)
Definition mask_bytes (c : t) : nat := ((length (vout c) + 5) / 8)%nat.

(** The number of bytes up to the last nonzero one, and of nonzero bytes. *)
Definition CalcMaskSize (c : t) : nat * nat :=
  fold_left (fun acc b => if byte_used c b then (S b, S acc.2) else acc) (seq 0 (mask_bytes c)) (0, 0)%nat.

Definition mask_byte (c : t) (b : nat) : Z :=
  fold_left (fun chAvail i => if IsAvailable c (2 + b * 8 + i) then chAvail .| (1 << Z.of_nat i) else chAvail) (seq 0 8) 0.

(** *** Serialisation *)

Section Format.
Variable secp256k1_uncompressed : list Z -> option (list Z).

(** [CTxOutCompressor]; the amount is converted to [uint64_t] and back. *)
Definition write_txout (o : CTxOut.t) : option (list Z) :=
  nVal ← CompressAmount (CTxOut.nValue o mod 2 ^ 64);
  bs ← WriteVarInt 8 nVal;
  script ← CScriptCompressor_Serialize secp256k1_uncompressed (CTxOut.scriptPubKey o);
  Some (bs ++ script).

Definition to_int64 (x : Z) : Z := if x <? 2 ^ 63 then x else x - 2 ^ 64.

(** The output that is read into is a default one. *)
Definition read_txout : Reader CTxOut.t :=
  nVal ← ReadVarInt (to_unsigned 8);
  script ← CScriptCompressor_Unserialize secp256k1_uncompressed [];
  mret {| CTxOut.nValue := to_int64 (DecompressAmount nVal); CTxOut.scriptPubKey := script |}.

Fixpoint write_outs (l : list CTxOut.t) : option (list Z) :=
  match l with
  | [] => Some []
  | o :: l =>
      bs ← (if CTxOut.IsNull o then Some [] else write_txout o);
      rest ← write_outs l;
      Some (bs ++ rest)
  end.

Fixpoint read_outs (vAvail : list bool) : Reader (list CTxOut.t) :=
  match vAvail with
  | [] => mret []
  | a :: vAvail =>
      o ← (if (a : bool) then read_txout else mret CTxOut.SetNull);
      l ← read_outs vAvail;
      mret (o :: l)
  end.

Definition header_code (c : t) (nMaskCode : nat) : Z :=
  let fFirst := IsAvailable c 0 in
  let fSecond := IsAvailable c 1 in
  (8 * (Z.of_nat nMaskCode - (if fFirst || fSecond then 0 else 1)) +
   (if fCoinBase c then 1 else 0) + (if fFirst then 2 else 0) + (if fSecond then 4 else 0)) mod 2 ^ 32.

(** [None] is the failed assertion. *)
Definition Serialize (c : t) : option (list Z) :=
  let '(nMaskSize, nMaskCode) := CalcMaskSize c in
  if IsAvailable c 0 || IsAvailable c 1 || negb (nMaskCode =? 0)%nat then
    version ← WriteVarInt 4 (nVersion c);
    code ← WriteVarInt 4 (header_code c nMaskCode);
    outs ← write_outs (vout c);
    height ← WriteVarInt 4 (nHeight c);
    Some (version ++ code ++ (mask_byte c <$> seq 0 nMaskSize) ++ outs ++ height)
  else None.

(** The loop that reads the mask. *)
Fixpoint read_mask (nMaskCode : Z) (vAvail : list bool) (s : list Z) : option (list bool * list Z) :=
  if nMaskCode <=? 0 then Some (vAvail, s)
  else
    match s with
    | [] => None
    | chAvail :: s =>
        let vAvail := vAvail ++ ((fun p => negb (chAvail .& (1 << Z.of_nat p) =? 0)) <$> seq 0 8) in
        read_mask (if chAvail =? 0 then nMaskCode else nMaskCode - 1) vAvail s
    end.

(** The coins that are read into keep their flag [fCoinStake]. *)
Definition Unserialize (c : t) : Reader t :=
  version ← ReadVarInt (to_signed 4);
  nCode ← ReadVarInt (to_unsigned 4);
  let vAvail := [negb (nCode .& 2 =? 0); negb (nCode .& 4 =? 0)] in
  let nMaskCode := nCode / 8 + (if negb (nCode .& 6 =? 0) then 0 else 1) in
  vAvail ← read_mask nMaskCode vAvail;
  l ← read_outs vAvail;
  height ← ReadVarInt (to_signed 4);
  mret (Cleanup {| fCoinBase := negb (nCode .& 1 =? 0); fCoinStake := fCoinStake c; vout := l; nHeight := height; nVersion := version |}).

(** ** The mask *)

Definition mask_bits (ch : Z) : list bool := (fun p => negb (ch .& (1 << Z.of_nat p) =? 0)) <$> seq 0 8.

(** The byte of eight flags: its bits are the flags, and it is zero when none is set. *)
Lemma flags_byte (f : nat -> bool) :
  let ch := fold_left (fun ch i => if f i then ch .| (1 << Z.of_nat i) else ch) (seq 0 8) 0 in
  mask_bits ch = f <$> seq 0 8 /\ (ch =? 0) = negb (existsb f (seq 0 8)).
Proof.
  unfold mask_bits. cbn [seq fold_left fmap list_fmap existsb].
  destruct (f 0%nat), (f 1%nat), (f 2%nat), (f 3%nat), (f 4%nat), (f 5%nat), (f 6%nat), (f 7%nat); vm_compute; done.
Qed.

Lemma mask_byte_bits c b : mask_bits (mask_byte c b) = IsAvailable c <$> seq (2 + b * 8) 8.
Proof.
  unfold mask_byte. destruct (flags_byte (fun i => IsAvailable c (2 + b * 8 + i))) as [-> _].
  pose proof (fmap_add_seq (2 + b * 8) 0 8) as H. rewrite Nat.add_0_r in H. rewrite <- H, <- list_fmap_compose. done.
Qed.

Lemma mask_byte_zero c b : (mask_byte c b =? 0) = negb (byte_used c b).
Proof. apply (flags_byte (fun i => IsAvailable c (2 + b * 8 + i))). Qed.

Lemma available_lt c i : IsAvailable c i = true -> (i < length (vout c))%nat.
Proof. unfold IsAvailable. destruct (vout c !! i) eqn:E; [|done]. intros _. by apply lookup_lt_Some in E. Qed.

Lemma byte_used_spec c b : byte_used c b = true <-> exists i, (i < 8)%nat /\ IsAvailable c (2 + b * 8 + i) = true.
Proof.
  unfold byte_used. rewrite existsb_exists. split; intros (i & H1 & H2); exists i; (split; [|done]); apply in_seq in H1 || apply in_seq; lia.
Qed.

Lemma CalcMaskSize_spec c m k : CalcMaskSize c = (m, k) ->
  (forall b, byte_used c b = true -> (b < m)%nat) /\ (m = 0%nat \/ byte_used c (m - 1) = true) /\
  k = length (filter (fun b => byte_used c b = true) (seq 0 m)) /\ (m <= mask_bytes c)%nat.
Proof.
  unfold CalcMaskSize. intros E.
  assert (forall n m k, fold_left (fun acc b => if byte_used c b then (S b, S acc.2) else acc) (seq 0 n) (0, 0)%nat = (m, k) ->
    (forall b, (b < n)%nat -> byte_used c b = true -> (b < m)%nat) /\ (m = 0%nat \/ byte_used c (m - 1) = true) /\
    k = length (filter (fun b => byte_used c b = true) (seq 0 m)) /\ k = length (filter (fun b => byte_used c b = true) (seq 0 n)) /\ (m <= n)%nat) as H.
  { clear. induction n as [|n IH]; intros m k E; [injection E as <- <-; split; [lia|]; split; [by left|]; done|].
    rewrite seq_S, fold_left_app in E. cbn [fold_left] in E. destruct (fold_left _ _ _) as [m0 k0] eqn:E0. destruct (IH m0 k0 eq_refl) as (H1 & H2 & H3 & H4 & H5).
    rewrite seq_S, filter_app. cbn [Nat.add] in *. destruct (byte_used c n) eqn:Eb; injection E as <- <-; cbn [snd].
    - split; [lia|]. split; [right; by replace (S n - 1)%nat with n by lia|]. rewrite seq_S, filter_app. cbn [Nat.add].
      rewrite filter_cons_True, filter_nil, length_app by done. cbn [length]. split; [lia|]. split; lia.
    - split; [intros b Hb Hu; assert (b <> n) by (intros ->; congruence); apply H1; [lia|done]|]. split; [done|]. split; [done|].
      rewrite filter_cons_False, filter_nil, app_nil_r by (by rewrite Eb). split; [done|lia]. }
  destruct (H _ _ _ E) as (H1 & H2 & H3 & _ & H5). split; [|done]. intros b Hb. apply H1; [|done].
  apply byte_used_spec in Hb as (i & Hi & Ha). apply available_lt in Ha. unfold mask_bytes.
  apply Nat.div_le_lower_bound; lia.
Qed.

(** Reading a mask whose last byte is not zero. *)
Lemma read_mask_reads bs acc k :
  (bs = [] \/ last bs <> Some 0) -> k = Z.of_nat (length (filter (fun ch => ch <> 0) bs)) ->
  reads (read_mask k acc) bs (acc ++ concat (mask_bits <$> bs)).
Proof.
  revert acc k. induction bs as [|ch bs IH]; intros acc k Hlast -> rest; [cbn; rewrite app_nil_r; by destruct rest|].
  assert (bs = [] \/ last bs <> Some 0) as Hlast'.
  { destruct bs as [|x bs]; [by left|right]. destruct Hlast as [?|H]; [done|]. by rewrite last_cons_cons in H. }
  assert (ch <> 0 \/ (0 < length (filter (fun ch => ch <> 0%Z) bs))%nat) as Hpos.
  { destruct Hlast as [?|Hl]; [done|]. destruct bs as [|x bs]; [left; intros ->; done|right]. rewrite last_cons_cons in Hl.
    destruct (last (x :: bs)) as [y|] eqn:Ey; [|by apply last_None in Ey]. apply last_Some_elem_of in Ey.
    assert (y ∈ filter (fun ch => ch <> 0) (x :: bs)) as Hy by (apply list_elem_of_filter; split; [congruence|done]).
    destruct (filter _ (x :: bs)); [by apply not_elem_of_nil in Hy|cbn; lia]. }
  cbn [app read_mask]. rewrite fmap_cons. cbn [concat]. rewrite app_assoc.
  destruct (Z.eqb_spec ch 0) as [->|Hc].
  - rewrite filter_cons_False by lia. destruct Hpos as [?|Hpos]; [lia|]. destruct (Z.leb_spec (Z.of_nat (length (filter (fun ch => ch <> 0) bs))) 0); [lia|].
    by apply (IH (acc ++ mask_bits 0)).
  - rewrite filter_cons_True by done. cbn [length]. destruct (Z.leb_spec (Z.of_nat (S (length (filter (fun ch => ch <> 0) bs)))) 0); [lia|].
    apply (IH (acc ++ mask_bits ch)); [done|lia].
Qed.

Lemma mask_reads c m k acc : CalcMaskSize c = (m, k) ->
  reads (read_mask (Z.of_nat k) acc) (mask_byte c <$> seq 0 m) (acc ++ (IsAvailable c <$> seq 2 (m * 8))).
Proof.
  intros E. destruct (CalcMaskSize_spec c m k E) as (_ & Hlast & Hk & _).
  replace (IsAvailable c <$> seq 2 (m * 8)) with (concat (mask_bits <$> (mask_byte c <$> seq 0 m))).
  - apply read_mask_reads.
    + destruct Hlast as [-> |Hu]; [by left|right]. destruct m as [|m]; [done|]. rewrite seq_S, fmap_app. cbn [fmap list_fmap]. rewrite last_snoc. intros H. injection H as H.
      replace (S m - 1)%nat with m in Hu by lia. pose proof (mask_byte_zero c m) as Hz. cbn [Nat.add] in H. rewrite H, Hu in Hz. done.
    + rewrite Hk. f_equal. clear. induction (seq 0 m) as [|b l IH]; [done|]. rewrite fmap_cons, !filter_cons. pose proof (mask_byte_zero c b) as Hz.
      destruct (Z.eqb_spec (mask_byte c b) 0) as [Hm|Hm], (byte_used c b); try done; rewrite ?decide_True, ?decide_False by (done || lia); cbn [length]; by rewrite IH.
  - clear. induction m as [|m IH]; [done|]. rewrite seq_S, !fmap_app, concat_app, IH. cbn [fmap list_fmap concat]. rewrite app_nil_r, mask_byte_bits.
    replace (S m * 8)%nat with (m * 8 + 8)%nat by lia. rewrite seq_app, fmap_app. done.
Qed.

(** ** The outputs *)

Hypothesis point_compression : forall x y, length x = 32%nat -> length y = 32%nat -> is_Some (secp256k1_uncompressed (4 :: x ++ y)) ->
  secp256k1_uncompressed ((2 + (y.[31] .& 1)) :: x) = Some (4 :: x ++ y).

(** An output that the format represents: null, or with an amount below a ninth of
    the range of [uint64_t] and a script of at most [MAX_SCRIPT_SIZE] bytes. *)
Definition out_ok (o : CTxOut.t) : Prop :=
  o = CTxOut.SetNull \/ (0 <= CTxOut.nValue o /\ 9 * CTxOut.nValue o + 20 < 2 ^ 64 /\ Z.of_nat (length (CTxOut.scriptPubKey o)) <= MAX_SCRIPT_SIZE).

Lemma out_reads o : out_ok o -> CTxOut.IsNull o = false -> exists bs, write_txout o = Some bs /\ reads read_txout bs o.
Proof.
  intros [->|(Hv & Hlt & Hs)] Hn; [done|]. unfold write_txout. rewrite Z.mod_small by lia.
  destruct (amount_roundtrip _ Hv Hlt) as (x & -> & Hx & HD). cbn [mbind option_bind].
  destruct (varint_roundtrip (to_unsigned 8) 8 x) as (b1 & -> & _ & R1); [lia|done| |].
  { intros v Hb. unfold to_unsigned. change (8 * Z.of_nat 8) with 64. rewrite Z.mod_small by lia. done. }
  destruct (script_roundtrip secp256k1_uncompressed point_compression [] (CTxOut.scriptPubKey o) Hs) as (b2 & -> & R2). cbn [mbind option_bind].
  eexists. split; [done|]. eapply reads_bind; [done|]. eapply reads_bind_ret; [done|]. rewrite HD. unfold to_int64.
  destruct (Z.ltb_spec (CTxOut.nValue o) (2 ^ 63)); [by destruct o|lia].
Qed.

Lemma outs_reads l : Forall out_ok l -> exists bs, write_outs l = Some bs /\ reads (read_outs ((fun o => negb (CTxOut.IsNull o)) <$> l)) bs l.
Proof.
  induction 1 as [|o l Ho Hl (bs & E & R)]; [exists []; split; [done|]; apply reads_ret|]. cbn [write_outs read_outs fmap list_fmap]. rewrite E.
  destruct (CTxOut.IsNull o) eqn:En.
  - exists ([] ++ bs). split; [done|]. assert (o = CTxOut.SetNull) as -> by (destruct Ho as [?|(? & _)]; [done|]; apply Z.eqb_eq in En; lia).
    eapply (reads_bind _ _ []); [apply reads_ret|]. by eapply reads_bind_ret.
  - destruct (out_reads o Ho En) as (b & -> & Rb). exists (b ++ bs). split; [done|]. cbn [negb]. eapply reads_bind; [done|]. by eapply reads_bind_ret.
Qed.

Lemma write_outs_app l1 l2 : write_outs (l1 ++ l2) = (b1 ← write_outs l1; b2 ← write_outs l2; Some (b1 ++ b2)).
Proof.
  induction l1 as [|o l1 IH]; cbn [app write_outs]; [by destruct (write_outs l2)|]. rewrite IH.
  destruct (if CTxOut.IsNull o then Some [] else write_txout o); cbn [mbind option_bind]; [|done]. destruct (write_outs l1); cbn [mbind option_bind]; [|done].
  destruct (write_outs l2); cbn [mbind option_bind]; [|done]. by rewrite app_assoc.
Qed.

Lemma write_outs_nulls l : Forall (fun o => CTxOut.IsNull o = true) l -> write_outs l = Some [].
Proof. induction 1 as [|o l Ho Hl IH]; [done|]. cbn [write_outs]. by rewrite Ho, IH. Qed.

Lemma pop_nulls_app l1 l2 : Forall (fun o => CTxOut.IsNull o = true) l1 -> pop_nulls (l1 ++ l2) = pop_nulls l2.
Proof. induction 1 as [|o l Ho Hl IH]; [done|]. cbn [app pop_nulls]. by rewrite Ho. Qed.

(** Null outputs at the end do not matter. *)
Lemma cleanup_nulls c l nulls : Forall (fun o => CTxOut.IsNull o = true) nulls -> Cleanup (with_vout c (l ++ nulls)) = Cleanup (with_vout c l).
Proof.
  intros H. unfold Cleanup. cbn [vout with_vout]. rewrite reverse_app, pop_nulls_app by (by apply Forall_reverse). done.
Qed.

(** *** The outputs that the mask covers *)

Lemma available_out c i o : vout c !! i = Some o -> IsAvailable c i = negb (CTxOut.IsNull o).
Proof. unfold IsAvailable. by intros ->. Qed.

(** Behind the mask all outputs are null. *)
Lemma behind_mask c m k i o : CalcMaskSize c = (m, k) -> (2 + m * 8 <= i)%nat -> vout c !! i = Some o -> CTxOut.IsNull o = true.
Proof.
  intros E Hi Ho. destruct (CTxOut.IsNull o) eqn:En; [done|exfalso]. destruct (CalcMaskSize_spec c m k E) as (H & _).
  pose proof (available_out _ _ _ Ho) as Ha. rewrite En in Ha. set (j := (i - 2)%nat).
  pose proof (Nat.div_mod_eq j 8) as Hj. pose proof (Nat.mod_upper_bound j 8 ltac:(lia)).
  assert (byte_used c (j / 8) = true) as Hu. { apply byte_used_spec. exists (j mod 8)%nat. split; [done|]. by replace (2 + j / 8 * 8 + j mod 8)%nat with i by lia. }
  apply H in Hu. lia.
Qed.

(** The outputs up to the end of the mask, padded with null ones. *)
Definition masked (c : t) (m : nat) : list CTxOut.t := resize (2 + m * 8) CTxOut.SetNull (vout c).

Lemma masked_avail c m : (fun o => negb (CTxOut.IsNull o)) <$> masked c m = IsAvailable c <$> seq 0 (2 + m * 8).
Proof.
  apply list_eq. intros i. rewrite !list_lookup_fmap. destruct (decide (i < 2 + m * 8)%nat) as [Hi|Hi].
  - rewrite lookup_seq_lt by done. unfold masked. cbn [fmap option_fmap option_map Nat.add]. unfold IsAvailable. destruct (vout c !! i) as [o|] eqn:Eo.
    + rewrite lookup_resize by (done || by apply lookup_lt_Some in Eo). by rewrite Eo.
    + rewrite lookup_resize_new by (done || by apply lookup_ge_None in Eo). done.
  - rewrite lookup_seq_ge by lia. rewrite lookup_ge_None_2; [done|]. unfold masked. rewrite length_resize. lia.
Qed.

Lemma masked_outs c m k : CalcMaskSize c = (m, k) ->
  write_outs (masked c m) = write_outs (vout c) /\ forall c', Cleanup (with_vout c' (masked c m)) = Cleanup (with_vout c' (vout c)).
Proof.
  intros E. unfold masked. destruct (le_lt_dec (length (vout c)) (2 + m * 8)) as [Hl|Hl].
  - rewrite resize_ge by done. assert (Forall (fun o => CTxOut.IsNull o = true) (replicate (2 + m * 8 - length (vout c)) CTxOut.SetNull)) as Hn by (by apply Forall_replicate).
    split; [|intros c'; by apply cleanup_nulls]. rewrite write_outs_app, (write_outs_nulls _ Hn). destruct (write_outs (vout c)); cbn; [by rewrite app_nil_r|done].
  - rewrite resize_le by lia. assert (Forall (fun o => CTxOut.IsNull o = true) (drop (2 + m * 8) (vout c))) as Hn.
    { apply Forall_lookup. intros i o Ho. rewrite lookup_drop in Ho. eapply behind_mask; [done| |done]. lia. }
    pose proof (take_drop (2 + m * 8) (vout c)) as Hv. revert Hn Hv. generalize (take (2 + m * 8) (vout c)), (drop (2 + m * 8) (vout c)). intros l1 l2 Hn <-.
    split; [|intros c'; symmetry; by apply cleanup_nulls]. rewrite write_outs_app, (write_outs_nulls _ Hn). destruct (write_outs l1); cbn; [by rewrite app_nil_r|done].
Qed.

(** ** The round trip *)

Lemma low_bits q r b : 0 <= r < 8 -> 0 <= b < 8 -> (8 * q + r) .& b = r .& b.
Proof.
  intros Hr Hb. assert (b = 7 .& b) as -> by (change 7 with (Z.ones 3); rewrite Z.land_comm, Z.land_ones, Z.mod_small; lia).
  rewrite !Z.land_assoc. f_equal. change 7 with (Z.ones 3). rewrite !Z.land_ones by lia. change (2 ^ 3) with 8.
  rewrite Z.add_comm, Z.mul_comm, Z.mod_add by lia. done.
Qed.

(** What [Unserialize] gets from the header code. *)
Lemma header_decode (q : Z) (cb f s : bool) :
  let nCode := 8 * q + ((if cb then 1 else 0) + (if f then 2 else 0) + (if s then 4 else 0)) in
  negb (nCode .& 1 =? 0) = cb /\ negb (nCode .& 2 =? 0) = f /\ negb (nCode .& 4 =? 0) = s /\
  nCode / 8 = q /\ negb (nCode .& 6 =? 0) = f || s.
Proof.
  intros nCode. set (r := (if cb then 1 else 0) + (if f then 2 else 0) + (if s then 4 else 0)) in nCode.
  assert (0 <= r < 8) as Hr by (unfold r; destruct cb, f, s; lia). unfold nCode. rewrite !low_bits by lia.
  split_and!; try (unfold r; destruct cb, f, s; done). rewrite Z.mul_comm, Z.div_add_l, Z.div_small by lia. lia.
Qed.

(** Coins that the format represents. *)
Record coins_ok (c : t) : Prop := {
  ok_outs : Forall out_ok (vout c);
  ok_size : Z.of_nat (length (vout c)) < 2 ^ 28;
  ok_height : 0 <= nHeight c < 2 ^ 31;
  ok_version : - 2 ^ 31 <= nVersion c < 2 ^ 31
}.

Lemma signed_reads n : 0 <= n < 2 ^ 31 -> exists bs, WriteVarInt 4 n = Some bs /\ reads (ReadVarInt (to_signed 4)) bs n.
Proof.
  intros Hn. destruct (varint_roundtrip (to_signed 4) 4 n) as (bs & E & _ & R); [lia|change (8 * Z.of_nat 4) with 32; lia| |by exists bs].
  intros v Hv. unfold to_signed. change (8 * Z.of_nat 4 - 1) with 31. by destruct (Z.ltb_spec v (2 ^ 31)); [|lia].
Qed.

(** The version that is read back: the loop that writes a negative number stops after
    its lowest seven bits. *)
Definition stored_version (v : Z) : Z := if v <? 0 then v mod 2 ^ 7 else v.

Lemma version_reads v : - 2 ^ 31 <= v < 2 ^ 31 -> exists bs, WriteVarInt 4 v = Some bs /\ reads (ReadVarInt (to_signed 4)) bs (stored_version v).
Proof.
  intros Hv. unfold stored_version. destruct (Z.ltb_spec v 0) as [Hn|]; [|apply signed_reads; lia].
  assert (0 <= v mod 2 ^ 7 < 2 ^ 7) as Hm by (apply Z.mod_pos_bound; lia). destruct (signed_reads (v mod 2 ^ 7) ltac:(lia)) as (bs & E & R). exists bs. split; [|done].
  rewrite <- E. unfold WriteVarInt. change ((4 * 8 + 6) / 7)%nat with 5%nat. cbn [varint_bytes]. destruct (Z.leb_spec v 0x7F); [|lia]. destruct (Z.leb_spec (v mod 2 ^ 7) 0x7F); [|lia].
  change 0x7F with (Z.ones 7). rewrite !Z.land_ones, Z.mod_mod by lia. done.
Qed.

Lemma pruned_available c : IsPruned c = true <-> forall i, IsAvailable c i = false.
Proof.
  unfold IsPruned, IsAvailable. rewrite forallb_forall. split.
  - intros H i. destruct (vout c !! i) as [o|] eqn:Eo; [|done]. rewrite H; [done|]. apply list_elem_of_In. by eapply list_elem_of_lookup_2.
  - intros H o Ho. apply list_elem_of_In, list_elem_of_lookup in Ho as [i Ho]. specialize (H i). rewrite Ho in H. by apply negb_false_iff.
Qed.

(** The assertion of [Serialize] fails exactly for pruned coins. *)
Lemma pruned_mask c m k : CalcMaskSize c = (m, k) -> IsPruned c = negb (IsAvailable c 0 || IsAvailable c 1 || negb (k =? 0)%nat).
Proof.
  intros E. destruct (CalcMaskSize_spec c m k E) as (_ & Hlast & Hk & _). apply eq_true_iff_eq. rewrite pruned_available, negb_true_iff, !orb_false_iff, negb_false_iff, Nat.eqb_eq.
  split.
  - intros H. split; [by split|]. destruct k; [done|exfalso]. assert (m <> 0%nat) by (intros ->; done). destruct Hlast as [?|Hu]; [done|].
    apply byte_used_spec in Hu as (i & _ & Ha). by rewrite H in Ha.
  - intros [[H0 H1] ->] i. destruct (IsAvailable c i) eqn:Ea; [exfalso|done]. destruct i as [|[|i]]; [congruence..|].
    pose proof (Nat.div_mod_eq i 8). pose proof (Nat.mod_upper_bound i 8 ltac:(lia)).
    assert (byte_used c (i / 8) = true) as Hu. { apply byte_used_spec. exists (i mod 8)%nat. split; [done|]. by replace (2 + i / 8 * 8 + i mod 8)%nat with (S (S i)) by lia. }
    destruct (CalcMaskSize_spec c m 0 E) as (Hb & _). apply Hb in Hu as Hlt.
    assert ((i / 8)%nat ∈ filter (fun b => byte_used c b = true) (seq 0 m)) as Hin by (apply list_elem_of_filter; split; [done|]; apply elem_of_seq; lia).
    destruct (filter _ (seq 0 m)); [by apply not_elem_of_nil in Hin|done].
Qed.

Lemma coins_reads c c0 : coins_ok c -> IsPruned c = false ->
  exists bs, Serialize c = Some bs /\ reads (Unserialize c0) bs
    (Cleanup {| fCoinBase := fCoinBase c; fCoinStake := fCoinStake c0; vout := vout c; nHeight := nHeight c; nVersion := stored_version (nVersion c) |}).
Proof.
  intros [Ho Hsz Hh Hv] Hp. unfold Serialize. destruct (CalcMaskSize c) as [m k] eqn:E. rewrite (pruned_mask c m k E), negb_false_iff in Hp. rewrite Hp.
  destruct (CalcMaskSize_spec c m k E) as (_ & _ & Hk & Hm).
  assert (Z.of_nat k < 2 ^ 28) as Hk28.
  { pose proof (length_filter (fun b => byte_used c b = true) (seq 0 m)) as Hl. rewrite <- Hk, length_seq in Hl. unfold mask_bytes in Hm.
    pose proof (Nat.div_mod_eq (length (vout c) + 5) 8). lia. }
  set (z := if IsAvailable c 0 || IsAvailable c 1 then 0 else 1).
  assert (0 <= Z.of_nat k - z) as Hz by (unfold z; destruct (IsAvailable c 0 || IsAvailable c 1); [lia|]; cbn in Hp; destruct k; [done|lia]).
  assert (header_code c k = 8 * (Z.of_nat k - z) + ((if fCoinBase c then 1 else 0) + (if IsAvailable c 0 then 2 else 0) + (if IsAvailable c 1 then 4 else 0))) as Hcode.
  { unfold header_code. fold z. rewrite Z.mod_small; [lia|]. unfold z in *. destruct (fCoinBase c), (IsAvailable c 0), (IsAvailable c 1); cbn [orb] in *; lia. }
  destruct (header_decode (Z.of_nat k - z) (fCoinBase c) (IsAvailable c 0) (IsAvailable c 1)) as (D1 & D2 & D3 & D4 & D5). rewrite <- Hcode in *.
  destruct (version_reads _ Hv) as (b1 & -> & R1). destruct (signed_reads _ Hh) as (b5 & -> & R5).
  assert (0 <= header_code c k < 2 ^ 32) as Hcb by (unfold header_code; apply Z.mod_pos_bound; lia).
  destruct (varint_roundtrip (to_unsigned 4) 4 (header_code c k)) as (b2 & -> & _ & R2); [lia|done| |].
  { intros v Hb. unfold to_unsigned. change (8 * Z.of_nat 4) with 32. rewrite Z.mod_small by lia. done. }
  destruct (masked_outs c m k E) as [Hw Hclean].
  destruct (outs_reads (masked c m)) as (b4 & E4 & R4).
  { apply Forall_resize; [by left|done]. }
  rewrite Hw in E4. rewrite E4. cbn [mbind option_bind]. eexists. split; [done|].
  unfold Unserialize. eapply reads_bind; [done|]. eapply reads_bind; [done|]. cbv zeta. rewrite D1, D2, D3, D4, D5.
  eapply reads_bind.
  { replace (Z.of_nat k - z + (if IsAvailable c 0 || IsAvailable c 1 then 0 else 1)) with (Z.of_nat k) by (unfold z; lia). by apply mask_reads. }
  eapply reads_bind; [|].
  { change [IsAvailable c 0; IsAvailable c 1] with (IsAvailable c <$> seq 0 2). change (seq 2 (m * 8)) with (seq (0 + 2) (m * 8)). rewrite <- fmap_app, <- (seq_app 2 (m * 8) 0), <- masked_avail. exact R4. }
  eapply reads_bind_ret; [done|]. f_equal.
  specialize (Hclean {| fCoinBase := fCoinBase c; fCoinStake := fCoinStake c0; vout := []; nHeight := nHeight c; nVersion := stored_version (nVersion c) |}). unfold with_vout in Hclean. cbn in Hclean. done.
Qed.

End Format.

(** C28. Writing coins fails its assertion exactly when all their outputs are spent;
    otherwise reading the bytes back, whatever follows them, gives coins with the same
    outputs, without the spent ones at their end, the same height and the same coinbase
    flag.  The flag of coinstakes is not stored: it stays that of the object that is
    read into.  A version that is not negative is read back, of a negative one the
    lowest seven bits are.  For at most 2^28 outputs, each null or with a script of at
    most [MAX_SCRIPT_SIZE] bytes and an amount below (2^64 - 20) / 9, which the 64-bit
    amount code represents. *)
Theorem coins_roundtrip secp256k1_uncompressed c c0 :
  (forall x y, length x = 32%nat -> length y = 32%nat -> is_Some (secp256k1_uncompressed (4 :: x ++ y)) ->
    secp256k1_uncompressed ((2 + (y.[31] .& 1)) :: x) = Some (4 :: x ++ y)) ->
  coins_ok c ->
  if IsPruned c then Serialize secp256k1_uncompressed c = None
  else exists bs, Serialize secp256k1_uncompressed c = Some bs /\ forall rest, Unserialize secp256k1_uncompressed c0 (bs ++ rest) =
    Some (Cleanup {| fCoinBase := fCoinBase c; fCoinStake := fCoinStake c0; vout := vout c; nHeight := nHeight c; nVersion := stored_version (nVersion c) |}, rest).
Proof.
  intros H Hc. destruct (IsPruned c) eqn:Hp.
  - unfold Serialize. destruct (CalcMaskSize c) as [m k] eqn:E. rewrite (pruned_mask c m k E), negb_true_iff in Hp. by rewrite Hp.
  - apply (coins_reads secp256k1_uncompressed H c c0 Hc Hp).
Qed.

(** ** Spending *)

Lemma pop_nulls_split l : exists nulls, l = nulls ++ pop_nulls l /\ Forall (fun o => CTxOut.IsNull o = true) nulls /\
  (forall o, head (pop_nulls l) = Some o -> CTxOut.IsNull o = false).
Proof.
  induction l as [|o l (nulls & E & Hn & Hh)]; [by exists []|]. cbn [pop_nulls]. destruct (CTxOut.IsNull o) eqn:En.
  - exists (o :: nulls). split; [cbn; by f_equal|]. split; [by constructor|done].
  - exists []. split; [done|]. split; [done|]. by intros o' [= <-].
Qed.

(** [Cleanup] drops null outputs from the end, all of them. *)
Lemma Cleanup_split c : exists nulls, vout c = vout (Cleanup c) ++ nulls /\ Forall (fun o => CTxOut.IsNull o = true) nulls /\
  (forall o, last (vout (Cleanup c)) = Some o -> CTxOut.IsNull o = false).
Proof.
  destruct (pop_nulls_split (reverse (vout c))) as (nulls & E & Hn & Hh). exists (reverse nulls). cbn [vout Cleanup with_vout].
  split; [|split; [by apply Forall_reverse|]].
  - rewrite <- (reverse_involutive (vout c)), E at 1. by rewrite reverse_app.
  - intros o. rewrite last_reverse. apply Hh.
Qed.

Lemma Cleanup_available c i : IsAvailable (Cleanup c) i = IsAvailable c i.
Proof.
  destruct (Cleanup_split c) as (nulls & E & Hn & _). unfold IsAvailable. rewrite E. destruct (decide (i < length (vout (Cleanup c)))%nat) as [Hi|Hi].
  - by rewrite lookup_app_l.
  - rewrite lookup_app_r by lia. rewrite lookup_ge_None_2 by lia. destruct (nulls !! _) as [o|] eqn:Eo; [|done].
    rewrite Forall_lookup in Hn. by rewrite (Hn _ _ Eo).
Qed.

Lemma pop_nulls_idem l : pop_nulls (pop_nulls l) = pop_nulls l.
Proof. induction l as [|o l IH]; [done|]. cbn [pop_nulls]. destruct (CTxOut.IsNull o) eqn:En; [done|]. cbn [pop_nulls]. by rewrite En. Qed.

Lemma Cleanup_idem c : Cleanup (Cleanup c) = Cleanup c.
Proof. unfold Cleanup, with_vout. cbn [vout fCoinBase fCoinStake nHeight nVersion]. by rewrite reverse_involutive, pop_nulls_idem. Qed.

(** Clean coins are pruned exactly when no output is left. *)
Lemma Cleanup_pruned c : IsPruned (Cleanup c) = true <-> vout (Cleanup c) = [].
Proof.
  destruct (Cleanup_split c) as (nulls & _ & _ & Hl). split; [|by unfold IsPruned; intros ->]. rewrite pruned_available. intros H.
  destruct (last (vout (Cleanup c))) as [o|] eqn:El; [|by apply last_None in El].
  pose proof (Hl o eq_refl) as Hn. apply last_Some_elem_of, list_elem_of_lookup in El as [i Ei]. specialize (H i). unfold IsAvailable in H. by rewrite Ei, Hn in H.
Qed.

(** [Spend] succeeds exactly on an available output and then makes it, and no
    other output, unavailable; coins from a transaction offer exactly its outputs
    that are spendable, and after either operation the coins are pruned exactly when
    their list of outputs is empty. *)
Theorem spend_exactly_once c nPos :
  (let '(ok, c') := Spend c nPos in
   ok = IsAvailable c nPos /\ (forall i, IsAvailable c' i = IsAvailable c i && negb (i =? nPos)%nat) /\
   (ok = true -> IsPruned c' = true <-> vout c' = [])) /\
  (forall coinbase coinstake outs version height i,
    IsAvailable (FromTx coinbase coinstake outs version height) i =
    match outs !! i with Some o => negb (CTxOut.IsNull o) && negb (IsUnspendable (CTxOut.scriptPubKey o)) | None => false end).
Proof.
  split.
  - unfold Spend. destruct (IsAvailable c nPos) eqn:Ea; split_and!; try done.
    + intros i. rewrite Cleanup_available. unfold IsAvailable. cbn [vout with_vout]. destruct (Nat.eqb_spec i nPos) as [->|Hne].
      * rewrite list_lookup_insert_eq by (by apply available_lt). by rewrite andb_false_r.
      * rewrite list_lookup_insert_ne by done. by rewrite andb_true_r.
    + intros _. apply Cleanup_pruned.
    + intros i. destruct (Nat.eqb_spec i nPos) as [->|]; [by rewrite Ea|by rewrite andb_true_r].
  - intros. unfold FromTx, ClearUnspendable. rewrite Cleanup_available. unfold IsAvailable. cbn [vout with_vout]. rewrite list_lookup_fmap.
    destruct (outs !! i) as [o|]; [|done]. cbn [fmap option_fmap option_map]. destruct (IsUnspendable _); [by rewrite andb_false_r|by rewrite andb_true_r].
Qed.

(** ** Examples *)

(** A toy curve: a point is valid when its second coordinate is a single bit. *)
Definition demo_uncompressed (key : list Z) : option (list Z) :=
  let point x b := Some (4 :: x ++ replicate 31 0 ++ [b]) in
  match key with
  | h :: x =>
      if h =? 2 then point x 0 else if h =? 3 then point x 1
      else if bool_decide (drop 32 x = replicate 31 0 ++ [0]) then point (take 32 x) 0
      else if bool_decide (drop 32 x = replicate 31 0 ++ [1]) then point (take 32 x) 1 else None
  | [] => None
  end.

Lemma demo_point_compression x y : length x = 32%nat -> length y = 32%nat -> is_Some (demo_uncompressed (4 :: x ++ y)) ->
  demo_uncompressed ((2 + (y.[31] .& 1)) :: x) = Some (4 :: x ++ y).
Proof.
  intros Hx Hy. unfold demo_uncompressed. cbn [Z.eqb Pos.eqb]. rewrite <- Hx, drop_app_length, take_app_length.
  case_bool_decide as H0; [by rewrite H0|]. case_bool_decide as H1; [by rewrite H1|]. by intros [? ?].
Qed.

(** A coinstake with two outputs, the first one paying to a key, the third one spent. *)
Definition demo_coins : t := {|
  fCoinBase := false; fCoinStake := true;
  vout := [{| CTxOut.nValue := 600 * 10 ^ 8; CTxOut.scriptPubKey := [65] ++ (4 :: replicate 32 7 ++ replicate 31 0 ++ [1]) ++ [OP_CHECKSIG] |}; CTxOut.SetNull;
           {| CTxOut.nValue := 12345; CTxOut.scriptPubKey := [1; 2; 3] |}; CTxOut.SetNull];
  nHeight := 203998; nVersion := 1 |}.

Lemma coins_roundtrip_witness :
  exists bs, Serialize demo_uncompressed demo_coins = Some bs /\ forall rest, Unserialize demo_uncompressed Clear (bs ++ rest) =
    Some (Cleanup {| fCoinBase := false; fCoinStake := false; vout := vout demo_coins; nHeight := 203998; nVersion := 1 |}, rest).
Proof.
  apply (coins_roundtrip demo_uncompressed demo_coins Clear demo_point_compression).
  split; [|by vm_compute..]. repeat (apply Forall_cons; split); try (by left); right; by vm_compute.
Defined.

(** A negative version is lost. *)
Example negative_version_lost : stored_version (-1) = 127.
Proof. done. Qed.

(** The stored coins of a coinstake read back as those of an ordinary transaction. *)
Lemma coinstake_flag_lost : exists bs c', Serialize demo_uncompressed demo_coins = Some bs /\ Unserialize demo_uncompressed Clear bs = Some (c', []) /\
  fCoinStake demo_coins = true /\ fCoinStake c' = false /\ vout c' = take 3 (vout demo_coins).
Proof. eexists _, _. split; [vm_compute; reflexivity|]. split; [vm_compute; reflexivity|]. by vm_compute. Qed.

End CCoins.
