(* ===== verification/CoinsView.v ===== *)
(** * coins.cpp, txdb.cpp: the layered cache of unspent outputs

    A view of the unspent outputs is a database under a stack of caches
    ([CStateViewDB], [CStateViewCache]).  An entry of a cache is [DIRTY] when it may
    differ from the view below and [FRESH] when that view has no unspent output of
    the transaction; reading fills the caches on the way, and flushing merges a cache
    into the view below.  Whatever the caches hold, the stack behaves as one map from
    transactions to their unspent coins ([content]), with one exception: coins that are
    written to the database come back without their coinstake flag, and a negative
    version is changed ([persisted]).

    A modifier ([CCoinsModifier]) lives only while its caller changes one entry, so
    creating it, the change and its destructor are one operation.  Memory accounting
    is left out. *)

From Stdlib Require Import ZArith Lia.
From stdpp Require Import base tactics numbers list gmap fin_maps.
From S2P Require Import Prelude SphTypes Blob Serialize Compressor Coins.
Import CCoins.

Record CCoinsCacheEntry := { coins : CCoins.t; DIRTY : bool; FRESH : bool }.

Inductive CoinsView :=
  | CStateViewDB (db : gmap uint256 CCoins.t) (hashBestChain : uint256)
  | CStateViewCache (cacheCoins : gmap uint256 CCoinsCacheEntry) (hashBlock : uint256) (base : CoinsView).

(** ** Operations *)

(** [GetCoins], with the [FetchCoins] of every cache on the way. *)
Fixpoint GetCoins (v : CoinsView) (txid : uint256) : option CCoins.t * CoinsView :=
  match v with
  | CStateViewDB db _ => (db !! txid, v)
  | CStateViewCache c h base =>
      match c !! txid with
      | Some e => (Some (coins e), v)
      | None =>
          match GetCoins base txid with
          | (None, base) => (None, CStateViewCache c h base)
          | (Some tmp, base) => (Some tmp, CStateViewCache (<[txid := {| coins := tmp; DIRTY := false; FRESH := IsPruned tmp |}]> c) h base)
          end
      end
  end.

(** [FetchCoins] of a cache gives a pointer to the coins in it. *)
Definition AccessCoins (v : CoinsView) (txid : uint256) : option CCoins.t * CoinsView := GetCoins v txid.

Definition HaveCoins (v : CoinsView) (txid : uint256) : bool * CoinsView :=
  match v with
  | CStateViewDB db _ => (bool_decide (is_Some (db !! txid)), v)
  | CStateViewCache _ _ _ =>
      let '(r, v) := GetCoins v txid in
      (match r with Some c => negb (bool_decide (vout c = [])) | None => false end, v)
  end.

Definition HaveCoinsInCache (v : CoinsView) (txid : uint256) : bool :=
  match v with CStateViewDB _ _ => false | CStateViewCache c _ _ => bool_decide (is_Some (c !! txid)) end.

(** The destructor of a modifier: the coins are cleaned up, and a fresh entry with
    nothing left is dropped. *)
Definition end_modifier (c : gmap uint256 CCoinsCacheEntry) (txid : uint256) (e : CCoinsCacheEntry) : gmap uint256 CCoinsCacheEntry :=
  let e := {| coins := Cleanup (coins e); DIRTY := DIRTY e; FRESH := FRESH e |} in
  if FRESH e && IsPruned (coins e) then delete txid c else <[txid := e]> c.

(** [ModifyCoins] with the change [f] that its caller makes; [None] is a failed
    assertion of the caller. *)
Definition ModifyCoins {A} (v : CoinsView) (txid : uint256) (f : CCoins.t -> option (A * CCoins.t)) : option (A * CoinsView) :=
  match v with
  | CStateViewDB _ _ => None
  | CStateViewCache c h base =>
      let '(e, base) :=
        match c !! txid with
        | Some e => (e, base)
        | None =>
            match GetCoins base txid with
            | (None, base) => ({| coins := Clear; DIRTY := false; FRESH := true |}, base)
            | (Some cc, base) => ({| coins := cc; DIRTY := false; FRESH := IsPruned cc |}, base)
            end
        end in
      '(a, cc) ← f (coins e);
      Some (a, CStateViewCache (end_modifier c txid {| coins := cc; DIRTY := true; FRESH := FRESH e |}) h base)
  end.

Definition ModifyNewCoins {A} (v : CoinsView) (txid : uint256) (coinbase : bool) (f : CCoins.t -> option (A * CCoins.t)) : option (A * CoinsView) :=
  match v with
  | CStateViewDB _ _ => None
  | CStateViewCache c h base =>
      let fresh := match c !! txid with Some e => FRESH e | None => false end in
      '(a, cc) ← f Clear;
      Some (a, CStateViewCache (end_modifier c txid {| coins := cc; DIRTY := true; FRESH := if coinbase then fresh else true |}) h base)
  end.

(** One entry of a child cache written to a parent cache. *)
Definition write_entry (txid : uint256) (e : CCoinsCacheEntry) (c : gmap uint256 CCoinsCacheEntry) : gmap uint256 CCoinsCacheEntry :=
  if DIRTY e then
    match c !! txid with
    | None => if FRESH e && IsPruned (coins e) then c else <[txid := {| coins := coins e; DIRTY := true; FRESH := FRESH e |}]> c
    | Some us =>
        if FRESH us && IsPruned (coins e) then delete txid c
        else <[txid := {| coins := coins e; DIRTY := true; FRESH := FRESH us |}]> c
    end
  else c.

(** What the database gives back for coins written to it: the result of
    [coins_roundtrip] of [Coins], for outputs with amounts that the format represents. *)
Definition stored (c : CCoins.t) : CCoins.t :=
  Cleanup {| fCoinBase := fCoinBase c; fCoinStake := false; vout := vout c; nHeight := nHeight c; nVersion := stored_version (nVersion c) |}.

Definition write_db (txid : uint256) (e : CCoinsCacheEntry) (db : gmap uint256 CCoins.t) : gmap uint256 CCoins.t :=
  if DIRTY e then if IsPruned (coins e) then delete txid db else <[txid := stored (coins e)]> db else db.

Definition BatchWrite (v : CoinsView) (mapCoins : gmap uint256 CCoinsCacheEntry) (hashBlock : uint256) : CoinsView :=
  match v with
  | CStateViewDB db best => CStateViewDB (map_fold write_db db mapCoins) (if bool_decide (hashBlock = uint256_null) then best else hashBlock)
  | CStateViewCache c _ base => CStateViewCache (map_fold write_entry c mapCoins) hashBlock base
  end.

Definition Flush (v : CoinsView) : option CoinsView :=
  match v with
  | CStateViewDB _ _ => None
  | CStateViewCache c h base => Some (CStateViewCache ∅ h (BatchWrite base c h))
  end.

Definition Uncache (v : CoinsView) (hash : uint256) : option CoinsView :=
  match v with
  | CStateViewDB _ _ => None
  | CStateViewCache c h base =>
      Some (match c !! hash with
            | Some e => if negb (DIRTY e) && negb (FRESH e) then CStateViewCache (delete hash c) h base else v
            | None => v
            end)
  end.

(** A null hash is replaced by that of the view below, on every level. *)
Fixpoint GetBestBlock (v : CoinsView) : uint256 * CoinsView :=
  match v with
  | CStateViewDB _ best => (best, v)
  | CStateViewCache c h base =>
      if bool_decide (h = uint256_null) then let '(h, base) := GetBestBlock base in (h, CStateViewCache c h base) else (h, v)
  end.

Definition SetBestBlock (v : CoinsView) (hash : uint256) : option CoinsView :=
  match v with CStateViewDB _ _ => None | CStateViewCache c _ base => Some (CStateViewCache c hash base) end.

(** ** The map that a view represents *)

(** The coins of a transaction that has unspent outputs left. *)
Definition live (c : CCoins.t) : option CCoins.t := if IsPruned c then None else Some c.

Fixpoint content (v : CoinsView) (txid : uint256) : option CCoins.t :=
  match v with
  | CStateViewDB db _ => db !! txid ≫= live
  | CStateViewCache c _ base => match c !! txid with Some e => live (coins e) | None => content base txid end
  end.

(** The coins of a transaction after a flush: those that the top cache writes to the
    database are as they are read from there, all others stay as they are. *)
Definition persisted (v : CoinsView) (txid : uint256) : option CCoins.t :=
  match v with
  | CStateViewCache c _ (CStateViewDB _ _) =>
      match c !! txid with
      | Some e => if DIRTY e then stored <$> live (coins e) else content v txid
      | None => content v txid
      end
  | _ => content v txid
  end.

Definition clean (c : CCoins.t) : Prop := Cleanup c = c.

Record entry_ok (below : option CCoins.t) (e : CCoinsCacheEntry) : Prop := {
  eo_clean : clean (coins e);
  eo_fresh : FRESH e = true -> below = None;
  eo_dirty : DIRTY e = false -> live (coins e) = below
}.

Fixpoint view_ok (v : CoinsView) : Prop :=
  match v with
  | CStateViewDB db _ => forall txid c, db !! txid = Some c -> clean c /\ IsPruned c = false
  | CStateViewCache c _ base => view_ok base /\ forall txid e, c !! txid = Some e -> entry_ok (content base txid) e
  end.

(** Views with the same content. *)
Definition same_content (v v' : CoinsView) : Prop := forall txid, content v' txid = content v txid.

#[export] Instance same_content_refl : Reflexive same_content.
Proof. by intros v txid. Qed.
#[export] Instance same_content_trans : Transitive same_content.
Proof. intros v1 v2 v3 H1 H2 txid. by rewrite H2, H1. Qed.

(** Replacing the view below by one with the same content. *)
Lemma cache_base c h base base' : view_ok (CStateViewCache c h base) -> view_ok base' -> same_content base base' ->
  view_ok (CStateViewCache c h base') /\ same_content (CStateViewCache c h base) (CStateViewCache c h base').
Proof.
  intros [_ H] Hb S. split; [split; [done|]|].
  - intros txid e E. rewrite S. by apply H.
  - intros txid. cbn. destruct (c !! txid); [done|apply S].
Qed.

(** Filling in an entry that agrees with the view below. *)
Lemma cache_fill c h base txid e : view_ok (CStateViewCache c h base) -> c !! txid = None -> entry_ok (content base txid) e -> DIRTY e = false ->
  view_ok (CStateViewCache (<[txid := e]> c) h base) /\ same_content (CStateViewCache c h base) (CStateViewCache (<[txid := e]> c) h base).
Proof.
  intros [Hb H] Hn He Hd. split; [split; [done|]|].
  - intros k e'. destruct (decide (k = txid)) as [->|Hk]; [rewrite lookup_insert_eq; by intros [= <-]|rewrite lookup_insert_ne by done; apply H].
  - intros k. cbn. destruct (decide (k = txid)) as [->|Hk]; [rewrite lookup_insert_eq, Hn; by apply (eo_dirty _ _ He)|by rewrite lookup_insert_ne].
Qed.

Lemma live_pruned c : IsPruned c = true -> live c = None.
Proof. unfold live. by intros ->. Qed.

(** Reading changes no content and gives it. *)
Lemma GetCoins_spec v txid : view_ok v -> let '(r, v') := GetCoins v txid in
  view_ok v' /\ same_content v v' /\ (r ≫= live) = content v txid /\ (forall c, r = Some c -> clean c).
Proof.
  induction v as [db best|c h base IH]; intros Hok; cbn [GetCoins content].
  - split_and!; try done. intros c E. by apply (Hok txid).
  - destruct (c !! txid) as [e|] eqn:E.
    { split_and!; try done. intros c' [= <-]. by apply (eo_clean _ _ (proj2 Hok txid e E)). }
    specialize (IH (proj1 Hok)). destruct (GetCoins base txid) as [[tmp|] base'] eqn:Eb; destruct IH as (Hb & S & R & Hc);
      destruct (cache_base c h base base' Hok Hb S) as [Hok' S']; [|done].
    destruct (cache_fill c h base' txid {| coins := tmp; DIRTY := false; FRESH := IsPruned tmp |} Hok' E) as [Hok2 S2]; [|done|].
    + rewrite S, <- R. split; cbn; [by apply Hc|apply live_pruned|done].
    + split_and!; [done|by transitivity (CStateViewCache c h base')|done|done].
Qed.

(** The end of a modifier. *)
Lemma end_modifier_spec c h base txid cc fresh : view_ok (CStateViewCache c h base) -> (fresh = true -> content base txid = None) ->
  let v' := CStateViewCache (end_modifier c txid {| coins := cc; DIRTY := true; FRESH := fresh |}) h base in
  view_ok v' /\ forall k, content v' k = if decide (k = txid) then live (Cleanup cc) else content (CStateViewCache c h base) k.
Proof.
  intros [Hb H] Hf. unfold end_modifier. cbn [FRESH coins DIRTY]. destruct (fresh && IsPruned (Cleanup cc)) eqn:Ed.
  - apply andb_prop in Ed as [Ef Ep]. split; [split; [done|]|].
    + intros k e E. apply lookup_delete_Some in E as [_ E]. by apply H.
    + intros k. cbn. case_decide as Hk; [subst k; rewrite lookup_delete_eq, (live_pruned _ Ep); auto|by rewrite lookup_delete_ne].
  - split; [split; [done|]|].
    + intros k e. destruct (decide (k = txid)) as [->|Hk]; [rewrite lookup_insert_eq; intros [= <-]|rewrite lookup_insert_ne by done; apply H].
      split; cbn; [apply Cleanup_idem|done|done].
    + intros k. cbn. case_decide as Hk; [subst k; by rewrite lookup_insert_eq|by rewrite lookup_insert_ne].
Qed.

(** ** Changing an entry *)

Definition is_cache (v : CoinsView) : bool := match v with CStateViewCache _ _ _ => true | CStateViewDB _ _ => false end.

(** The content of the view below the top cache. *)
Definition below (v : CoinsView) (txid : uint256) : option CCoins.t :=
  match v with CStateViewCache _ _ base => content base txid | CStateViewDB _ _ => None end.

(** [v'] is [v] with the coins of one transaction replaced. *)
Definition updated (v v' : CoinsView) (txid : uint256) (o : option CCoins.t) : Prop :=
  view_ok v' /\ is_cache v' = true /\ forall k, content v' k = if decide (k = txid) then o else content v k.

Lemma ModifyCoins_spec {A} v txid (f : CCoins.t -> option (A * CCoins.t)) : view_ok v -> is_cache v = true ->
  exists c, clean c /\ live c = content v txid /\
    match f c with
    | None => ModifyCoins v txid f = None
    | Some (a, c') => exists v', ModifyCoins v txid f = Some (a, v') /\ updated v v' txid (live (Cleanup c')) /\ (forall k, below v' k = below v k)
    end.
Proof.
  intros Hok Hc. destruct v as [|c h base]; [done|]. cbn [ModifyCoins].
  assert (exists e base', (match c !! txid with
      | Some e => (e, base)
      | None => match GetCoins base txid with
                | (None, base) => ({| coins := Clear; DIRTY := false; FRESH := true |}, base)
                | (Some cc, base) => ({| coins := cc; DIRTY := false; FRESH := IsPruned cc |}, base)
                end
      end = (e, base')) /\ clean (coins e) /\ live (coins e) = content (CStateViewCache c h base) txid /\
      (FRESH e = true -> content base txid = None) /\ view_ok base' /\ same_content base base') as (e & base' & -> & Hcl & Hl & Hf & Hb & S).
  { cbn [content]. destruct (c !! txid) as [e|] eqn:E.
    - destruct (proj2 Hok txid e E) as [H1 H2 H3]. exists e, base. split; [done|]. split; [done|]. split; [done|]. split; [done|]. split; [apply Hok|done].
    - pose proof (GetCoins_spec base txid (proj1 Hok)) as H. destruct (GetCoins base txid) as [[cc|] base']; destruct H as (H1 & H2 & H3 & H4); eexists _, base'; (split; [done|]); cbn.
      + rewrite <- H3. cbn. split; [by apply H4|]. split; [done|]. split; [apply live_pruned|done].
      + rewrite <- H3. done. }
  exists (coins e). split; [done|]. split; [done|]. destruct (f (coins e)) as [[a c']|]; [|done]. cbn [mbind option_bind].
  eexists. split; [done|]. destruct (cache_base c h base base' Hok Hb S) as [Hok' S'].
  destruct (end_modifier_spec c h base' txid c' (FRESH e) Hok') as [Hv Hcont]; [intros Hfr; rewrite S; by apply Hf|].
  split; [|intros k; apply S]. split; [done|]. split; [done|]. intros k. rewrite Hcont. case_decide; [done|]. apply S'.
Qed.

Lemma ModifyNewCoins_spec {A} v txid coinbase (f : CCoins.t -> option (A * CCoins.t)) : view_ok v -> is_cache v = true ->
  (coinbase = false -> below v txid = None) ->
  match f Clear with
  | None => ModifyNewCoins v txid coinbase f = None
  | Some (a, c') => exists v', ModifyNewCoins v txid coinbase f = Some (a, v') /\ updated v v' txid (live (Cleanup c')) /\ (forall k, below v' k = below v k)
  end.
Proof.
  intros Hok Hc Hn. destruct v as [|c h base]; [done|]. cbn [ModifyNewCoins]. destruct (f Clear) as [[a c']|]; [|done]. cbn [mbind option_bind].
  eexists. split; [done|]. split; [|done]. destruct (end_modifier_spec c h base txid c' (if coinbase then match c !! txid with Some e => FRESH e | None => false end else true) Hok) as [Hv Hcont].
  { destruct coinbase; [|by intros _; apply Hn]. destruct (c !! txid) as [e|] eqn:E; [|done]. intros Hf. by apply (eo_fresh _ _ (proj2 Hok txid e E)). }
  split; [done|]. split; [done|]. apply Hcont.
Qed.

(** ** Flushing *)

(** A fold that changes one key for each entry. *)
Lemma map_fold_pointwise {A B} (f : uint256 -> A -> gmap uint256 B -> gmap uint256 B) (g : option B -> A -> option B) (m : gmap uint256 A) (b : gmap uint256 B) :
  (forall k x b, f k x b !! k = g (b !! k) x) -> (forall k x b j, j <> k -> f k x b !! j = b !! j) ->
  forall j, map_fold f b m !! j = match m !! j with Some x => g (b !! j) x | None => b !! j end.
Proof.
  intros Hf Hne. apply (map_fold_weak_ind (fun r m => forall j, r !! j = match m !! j with Some x => g (b !! j) x | None => b !! j end)); [done|].
  intros k x m' r Hk IH j. destruct (decide (j = k)) as [->|Hj].
  - by rewrite lookup_insert_eq, Hf, IH, Hk.
  - by rewrite lookup_insert_ne, Hne, IH by done.
Qed.

(** What becomes of a key of the parent. *)
Definition merge_entry (us : option CCoinsCacheEntry) (e : CCoinsCacheEntry) : option CCoinsCacheEntry :=
  if DIRTY e then
    match us with
    | None => if FRESH e && IsPruned (coins e) then None else Some {| coins := coins e; DIRTY := true; FRESH := FRESH e |}
    | Some us => if FRESH us && IsPruned (coins e) then None else Some {| coins := coins e; DIRTY := true; FRESH := FRESH us |}
    end
  else us.
Definition merge_db (us : option CCoins.t) (e : CCoinsCacheEntry) : option CCoins.t :=
  if DIRTY e then if IsPruned (coins e) then None else Some (stored (coins e)) else us.

Lemma write_entry_fold c m k : map_fold write_entry c m !! k = match m !! k with Some e => merge_entry (c !! k) e | None => c !! k end.
Proof.
  apply map_fold_pointwise; unfold write_entry, merge_entry.
  - intros j e b. destruct (DIRTY e); [|done]. destruct (b !! j) eqn:Eb; destruct (_ && _); by rewrite ?lookup_insert_eq, ?lookup_delete_eq, ?Eb.
  - intros j e b i Hi. destruct (DIRTY e); [|done]. destruct (b !! j); destruct (_ && _); by rewrite ?lookup_insert_ne, ?lookup_delete_ne.
Qed.

Lemma write_db_fold db m k : map_fold write_db db m !! k = match m !! k with Some e => merge_db (db !! k) e | None => db !! k end.
Proof.
  apply map_fold_pointwise; unfold write_db, merge_db.
  - intros j e b. destruct (DIRTY e); [|done]. destruct (IsPruned _); by rewrite ?lookup_insert_eq, ?lookup_delete_eq.
  - intros j e b i Hi. destruct (DIRTY e); [|done]. destruct (IsPruned _); by rewrite ?lookup_insert_ne, ?lookup_delete_ne.
Qed.

Lemma stored_clean c : clean c -> vout (stored c) = vout c /\ clean (stored c).
Proof. intros H. split; [unfold clean in H; by apply (f_equal vout) in H|apply Cleanup_idem]. Qed.

Lemma live_stored c : clean c -> live (stored c) = stored <$> live c.
Proof. intros H. unfold live. assert (IsPruned (stored c) = IsPruned c) as -> by (unfold IsPruned; by rewrite (proj1 (stored_clean c H))). by destruct (IsPruned c). Qed.

(** Coins are kept or as they are stored. *)
Lemma persisted_cases v txid : persisted v txid = content v txid \/ persisted v txid = stored <$> content v txid.
Proof.
  destruct v as [|c h [|]]; [by left| |by left]. cbn. destruct (c !! txid) as [e|]; [|by left]. destruct (DIRTY e); [by right|by left].
Qed.

Lemma Flush_spec v : view_ok v -> is_cache v = true -> exists v', Flush v = Some v' /\ view_ok v' /\ forall k, content v' k = persisted v k.
Proof.
  intros Hok Hc. destruct v as [|c h base]; [done|]. eexists. split; [done|]. destruct Hok as [Hb H]. destruct base as [db best|c2 h2 bb].
  - cbn [BatchWrite]. split_and!.
    + split; [|by intros k e; rewrite lookup_empty]. intros k cc E. rewrite write_db_fold in E. destruct (c !! k) as [e|] eqn:Ee; [|by apply (Hb k)].
      unfold merge_db in E. destruct (DIRTY e); [|by apply (Hb k)]. destruct (IsPruned (coins e)) eqn:Ep; [done|]. injection E as <-.
      pose proof (eo_clean _ _ (H k e Ee)) as Hcl. destruct (stored_clean _ Hcl) as [Hvo Hcs]. split; [done|]. unfold IsPruned in *. by rewrite Hvo.
    + intros k. cbn. rewrite lookup_empty, write_db_fold. destruct (c !! k) as [e|] eqn:Ee; [|done]. destruct (H k e Ee) as [H1 H2 H3]. unfold merge_db.
      destruct (DIRTY e) eqn:Ed; [|symmetry; by apply H3]. destruct (IsPruned (coins e)) eqn:Ep; [by rewrite live_pruned|]. cbn. by rewrite live_stored.
  - destruct Hb as [Hbb H2]. cbn [BatchWrite]. split_and!.
    + split; [|by intros k e; rewrite lookup_empty]. split; [done|]. intros k e' E. rewrite write_entry_fold in E.
      destruct (c !! k) as [e|] eqn:Ee; [|by apply H2]. destruct (H k e Ee) as [E1 E2 E3]. unfold merge_entry in E. cbn [content] in *.
      destruct (DIRTY e); [|by apply H2]. destruct (c2 !! k) as [us|] eqn:Eu.
      * destruct (FRESH us && _); [done|]. injection E as <-. split; cbn; [done|apply (eo_fresh _ _ (H2 k us Eu))|done].
      * destruct (FRESH e && _); [done|]. injection E as <-. split; cbn; done.
    + intros k. cbn. rewrite lookup_empty, write_entry_fold. destruct (c !! k) as [e|] eqn:Ee; [|done]. destruct (H k e Ee) as [E1 E2 E3]. unfold merge_entry. cbn [content] in *.
      destruct (DIRTY e) eqn:Ed; [|symmetry; by apply E3]. destruct (c2 !! k) as [us|] eqn:Eu.
      * destruct (FRESH us) eqn:Ef; [|done]. cbn [andb]. destruct (IsPruned (coins e)) eqn:Ep; [|done]. rewrite (live_pruned _ Ep). by apply (eo_fresh _ _ (H2 k us Eu)).
      * destruct (FRESH e) eqn:Ef; [|done]. cbn [andb]. destruct (IsPruned (coins e)) eqn:Ep; [|done]. rewrite (live_pruned _ Ep). by apply E2.
Qed.

Lemma Uncache_spec v txid : view_ok v -> is_cache v = true -> exists v', Uncache v txid = Some v' /\ view_ok v' /\ same_content v v'.
Proof.
  intros Hok Hc. destruct v as [|c h base]; [done|]. cbn [Uncache]. eexists. split; [done|]. destruct (c !! txid) as [e|] eqn:E; [|done].
  destruct (negb (DIRTY e) && _) eqn:Ed; [|done]. apply andb_prop in Ed as [Ed _]. apply negb_true_iff in Ed. destruct Hok as [Hb H]. split; [split; [done|]|].
  - intros k e' Ek. apply lookup_delete_Some in Ek as [_ Ek]. by apply H.
  - intros k. cbn. destruct (decide (k = txid)) as [->|Hk]; [rewrite lookup_delete_eq, E; symmetry; by apply (eo_dirty _ _ (H _ _ E))|by rewrite lookup_delete_ne].
Qed.

(** The block that a view belongs to. *)
Lemma GetBestBlock_spec v : view_ok v -> let '(h, v') := GetBestBlock v in view_ok v' /\ same_content v v' /\ fst (GetBestBlock v') = h.
Proof.
  induction v as [db best|c h base IH]; intros Hok; cbn [GetBestBlock]; [done|]. case_bool_decide as Hh.
  - specialize (IH (proj1 Hok)). destruct (GetBestBlock base) as [h' base'] eqn:E. destruct IH as (Hb & S & Hh').
    destruct (cache_base c h base base' Hok Hb S) as [[? ?] ?]. split_and!; [done|done|]. cbn. case_bool_decide as Hn; [|done].
    destruct (GetBestBlock base'). done.
  - split_and!; [done|done|]. cbn. by rewrite bool_decide_eq_false_2.
Qed.

(** Clean coins have outputs exactly when they are not pruned. *)
Lemma clean_pruned c : clean c -> IsPruned c = bool_decide (vout c = []).
Proof. intros H. apply eq_true_iff_eq. rewrite bool_decide_eq_true, <- H. apply Cleanup_pruned. Qed.

Lemma HaveCoins_spec v txid : view_ok v -> let '(r, v') := HaveCoins v txid in view_ok v' /\ same_content v v' /\ r = bool_decide (is_Some (content v txid)).
Proof.
  intros Hok. destruct v as [db best|c h base].
  - cbn. split_and!; try done. destruct (db !! txid) as [cc|] eqn:E; [|done]. destruct (Hok txid cc E) as [_ Hp]. cbn. unfold live. by rewrite Hp.
  - unfold HaveCoins. pose proof (GetCoins_spec _ txid Hok) as H. destruct (GetCoins _ txid) as [r v']. destruct H as (H1 & H2 & H3 & H4). split_and!; [done|done|].
    rewrite <- H3. destruct r as [cc|]; [|done]. cbn. unfold live. rewrite (clean_pruned cc) by (by apply H4). by case_bool_decide.
Qed.

(** ** The interface of a view *)

(** What the callers of a view of coins rely on: a state of the view stands for a map
    of unspent coins, reading gives it and changes nothing, a modification replaces
    the coins of one transaction, and pushing changes down does not show, but for
    what the database does not store. *)
Class CoinsStore (V : Type) := {
  store_ok : V -> Prop;
  store_content : V -> uint256 -> option CCoins.t;
  store_below : V -> uint256 -> option CCoins.t;
  store_access : V -> uint256 -> option CCoins.t * V;
  store_modify : forall {A}, V -> uint256 -> (CCoins.t -> option (A * CCoins.t)) -> option (A * V);
  store_modify_new : forall {A}, V -> uint256 -> bool -> (CCoins.t -> option (A * CCoins.t)) -> option (A * V);
  store_flush : V -> option V
}.

Definition store_update {V} `{CoinsStore V} (v v' : V) (txid : uint256) (o : option CCoins.t) : Prop :=
  store_ok v' /\ (forall k, store_content v' k = if decide (k = txid) then o else store_content v k) /\ (forall k, store_below v' k = store_below v k).

Class CoinsStoreLaws (V : Type) `{CoinsStore V} : Prop := {
  store_access_law (v : V) txid : store_ok v -> let '(r, v') := store_access v txid in
    store_ok v' /\ (forall k, store_content v' k = store_content v k) /\ (forall k, store_below v' k = store_below v k) /\
    (r ≫= live) = store_content v txid /\ (forall c, r = Some c -> clean c);
  store_modify_law {A} (v : V) txid (f : CCoins.t -> option (A * CCoins.t)) : store_ok v ->
    exists c, clean c /\ live c = store_content v txid /\
      match f c with
      | None => store_modify v txid f = None
      | Some (a, c') => exists v', store_modify v txid f = Some (a, v') /\ store_update v v' txid (live (Cleanup c'))
      end;
  store_modify_new_law {A} (v : V) txid coinbase (f : CCoins.t -> option (A * CCoins.t)) : store_ok v -> (coinbase = false -> store_below v txid = None) ->
    match f Clear with
    | None => store_modify_new v txid coinbase f = None
    | Some (a, c') => exists v', store_modify_new v txid coinbase f = Some (a, v') /\ store_update v v' txid (live (Cleanup c'))
    end;
  store_flush_law (v : V) : store_ok v -> exists v', store_flush v = Some v' /\ store_ok v' /\
    forall k, store_content v' k = store_content v k \/ store_content v' k = stored <$> store_content v k
}.

(** The stack of caches implements it. *)
#[export] Instance CoinsView_store : CoinsStore CoinsView := {|
  store_ok := fun v => view_ok v /\ is_cache v = true;
  store_content := content;
  store_below := below;
  store_access := AccessCoins;
  store_modify := @ModifyCoins;
  store_modify_new := @ModifyNewCoins;
  store_flush := Flush |}.

Lemma GetCoins_below v txid : view_ok v -> is_cache v = true -> is_cache (GetCoins v txid).2 = true /\ forall k, below (GetCoins v txid).2 k = below v k.
Proof.
  intros Hok Hc. destruct v as [|c h base]; [done|]. cbn [GetCoins]. destruct (c !! txid); [done|].
  pose proof (GetCoins_spec base txid (proj1 Hok)) as H. destruct (GetCoins base txid) as [[tmp|] base']; destruct H as (_ & S & _); (split; [done|]); intros k; apply S.
Qed.

Lemma stack_laws : CoinsStoreLaws CoinsView.
Proof.
  split.
  - intros v txid [Hok Hc]. cbn. pose proof (GetCoins_spec v txid Hok) as H. pose proof (GetCoins_below v txid Hok Hc) as [H1 H2]. unfold AccessCoins.
    destruct (GetCoins v txid) as [r v']. destruct H as (H3 & H4 & H5 & H6). split_and!; done.
  - intros A v txid f [Hok Hc]. destruct (ModifyCoins_spec v txid f Hok Hc) as (c & H1 & H2 & H3). exists c. split; [done|]. split; [done|].
    destruct (f c) as [[a c']|]; [|done]. destruct H3 as (v' & E & (H4 & H5 & H6) & H7). by exists v'.
  - intros A v txid coinbase f [Hok Hc] Hn. pose proof (ModifyNewCoins_spec v txid coinbase f Hok Hc Hn) as H3.
    destruct (f Clear) as [[a c']|]; [|done]. destruct H3 as (v' & E & (H4 & H5 & H6) & H7). by exists v'.
  - intros v [Hok Hc]. destruct (Flush_spec v Hok Hc) as (v' & E & H1 & H2). exists v'. split; [done|]. split; [split; [done|]; destruct v as [|? ? []]; [done|by injection E as <-..]|].
    intros k. rewrite H2. apply persisted_cases.
Qed.
#[export] Existing Instance stack_laws.

(** C21. A stack of caches over a database behaves as one map of unspent coins,
    whatever entries its caches hold and whichever of them are dirty or fresh:
    reading gives the coins of the map and changes nothing, a modification replaces
    the coins of one transaction (none are left when all its outputs are spent),
    creating new coins does so as well, for a transaction that is not a coinbase under
    the condition that the view below has no coins of it, and uncaching does not show.
    Flushing does not show either, except that coins written to the database lose the
    flag of coinstakes and a negative version is reduced to seven bits.  The invariant of the entries is kept by all of them. *)
Theorem coins_view_refines (v : CoinsView) : view_ok v -> is_cache v = true ->
  (forall txid, let '(r, v') := GetCoins v txid in view_ok v' /\ same_content v v' /\ (r ≫= live) = content v txid) /\
  (forall txid, let '(r, v') := HaveCoins v txid in view_ok v' /\ same_content v v' /\ r = bool_decide (is_Some (content v txid))) /\
  (forall A txid (f : CCoins.t -> option (A * CCoins.t)), exists c, live c = content v txid /\
     match f c with
     | None => ModifyCoins v txid f = None
     | Some (a, c') => exists v', ModifyCoins v txid f = Some (a, v') /\ updated v v' txid (live (Cleanup c'))
     end) /\
  (forall txid c' coinbase, (coinbase = false -> below v txid = None) ->
     exists v', ModifyNewCoins v txid coinbase (fun _ => Some (tt, c')) = Some (tt, v') /\ updated v v' txid (live (Cleanup c'))) /\
  (exists v', Flush v = Some v' /\ view_ok v' /\ forall txid, content v' txid = persisted v txid) /\
  (forall txid, exists v', Uncache v txid = Some v' /\ view_ok v' /\ same_content v v').
Proof.
  intros Hok Hc. split_and!.
  - intros txid. pose proof (GetCoins_spec v txid Hok) as H. destruct (GetCoins v txid). by destruct H as (? & ? & ? & _).
  - intros txid. by apply HaveCoins_spec.
  - intros A txid f. destruct (ModifyCoins_spec v txid f Hok Hc) as (c & _ & H2 & H3). exists c. split; [done|].
    destruct (f c) as [[a c']|]; [|done]. destruct H3 as (v' & E & H & _). by exists v'.
  - intros txid c' coinbase Hn. destruct (ModifyNewCoins_spec v txid coinbase (fun _ => Some (tt, c')) Hok Hc Hn) as (v' & E & H & _). by exists v'.
  - by apply Flush_spec.
  - intros txid. by apply Uncache_spec.
Qed.

(** *** Example: a database under two caches *)

Definition demo_out (value : Z) : CTxOut.t := {| CTxOut.nValue := value; CTxOut.scriptPubKey := [1; 2] |}.
Definition demo_cc (height : Z) (outs : list CTxOut.t) : CCoins.t := {| fCoinBase := false; fCoinStake := false; vout := outs; nHeight := height; nVersion := 1 |}.
Definition demo_txid (i : Z) : uint256 := i :: replicate 31 0.
Definition demo_view : CoinsView :=
  CStateViewCache
    {[ demo_txid 3 := {| coins := demo_cc 7 [demo_out 30]; DIRTY := true; FRESH := true |} ]} uint256_null
    (CStateViewCache
       {[ demo_txid 1 := {| coins := demo_cc 0 []; DIRTY := true; FRESH := false |} ]} uint256_null
       (CStateViewDB {[ demo_txid 1 := demo_cc 5 [demo_out 10]; demo_txid 2 := demo_cc 6 [demo_out 20; demo_out 21] ]} uint256_null)).

Lemma demo_view_ok : view_ok demo_view.
Proof.
  cbn [view_ok demo_view]. split_and!.
  - intros txid c. rewrite lookup_insert_Some, lookup_singleton_Some. intros [[<- <-]|[_ [<- <-]]]; done.
  - intros txid e. rewrite lookup_singleton_Some. intros [<- <-]. by split.
  - intros txid e. rewrite lookup_singleton_Some. intros [<- <-]. by split.
Qed.

Lemma coins_view_refines_witness :
  (exists v', Flush demo_view = Some v' /\ view_ok v' /\ forall txid, content v' txid = persisted demo_view txid) /\ content demo_view (demo_txid 1) = None /\
  content demo_view (demo_txid 2) = Some (demo_cc 6 [demo_out 20; demo_out 21]).
Proof.
  split; [apply (coins_view_refines demo_view demo_view_ok eq_refl)|]. split; reflexivity.
Defined.

(** The flag of a coinstake after its coins were written to the database. *)
Example flush_clears_coinstake :
  let stake := {| fCoinBase := false; fCoinStake := true; vout := [demo_out 10]; nHeight := 5; nVersion := 3 |} in
  let v := CStateViewCache {[ demo_txid 1 := {| coins := stake; DIRTY := true; FRESH := true |} ]} uint256_null (CStateViewDB ∅ uint256_null) in
  content v (demo_txid 1) = Some stake /\ (v' ← Flush v; content v' (demo_txid 1)) = Some (stored stake) /\ fCoinStake (stored stake) = false.
Proof. by vm_compute. Qed.

(** Creating coins as fresh although the view below has coins of the transaction:
    spending them brings the old ones back. *)
Example fresh_needs_absence :
  let v := CStateViewCache ∅ uint256_null (CStateViewDB {[ demo_txid 1 := demo_cc 5 [demo_out 10] ]} uint256_null) in
  match ModifyNewCoins v (demo_txid 1) false (fun _ => Some (tt, demo_cc 9 [demo_out 40])) with
  | Some (_, v1) =>
      match ModifyCoins v1 (demo_txid 1) (fun c => Some (Spend c 0)) with
      | Some (_, v2) => content v2 (demo_txid 1) = Some (demo_cc 5 [demo_out 10])
      | None => False
      end
  | None => False
  end.
Proof. by vm_compute. Qed.
