(* ===== verification/Transaction.v ===== *)
(** * primitives/transaction.h: transactions and their format

    Outpoints, inputs, outputs, witnesses and transactions, with the two formats of
    [SerializeTransaction]: the basic one, and the extended one with a marker, flags
    and witnesses.  A transaction is read from bytes exactly when they are what is
    written for it, so no transaction that is read has a second encoding. *)

From Stdlib Require Import ZArith Lia.
From stdpp Require Import base tactics numbers list.
From S2P Require Import Prelude SphTypes Blob Serialize Codec Compressor Coins.

(** ** Parts of a transaction *)

Record COutPoint := { hash : uint256; n : Z }.

#[export] Instance COutPoint_eq_dec : EqDecision COutPoint.
Proof. solve_decision. Defined.
#[export] Instance CTxOut_eq_dec : EqDecision CTxOut.t.
Proof. solve_decision. Defined.

Definition OutPoint_IsNull (p : COutPoint) : bool := bool_decide (hash p = uint256_null) && (n p =? 2 ^ 32 - 1).

Record CTxIn := { prevout : COutPoint; scriptSig : list Z; nSequence : Z }.

Definition TxOut_IsEmpty (o : CTxOut.t) : bool := (CTxOut.nValue o =? 0) && bool_decide (CTxOut.scriptPubKey o = []).

(** [CTxInWitness]: the stack of a witness. *)
Abbreviation CTxInWitness := (list (list Z)).
Definition TxInWitness_IsNull (w : CTxInWitness) : bool := bool_decide (w = []).
Definition TxWitness_IsNull (vtxinwit : list CTxInWitness) : bool := forallb TxInWitness_IsNull vtxinwit.

(** [CMutableTransaction], and what a [CTransaction] has besides its hash. *)
Record tx_data := {
  tx_nVersion : Z;
  tx_nTime : Z;
  tx_vin : list CTxIn;
  tx_vout : list CTxOut.t;
  tx_wit : list CTxInWitness;
  tx_nLockTime : Z;
  tx_strDZeel : list Z
}.

(** ** Writing *)

Definition OutPoint_write (p : COutPoint) : list Z := hash p ++ ser_writedata32 (n p).
Definition TxIn_write (i : CTxIn) : list Z := OutPoint_write (prevout i) ++ write_blob (scriptSig i) ++ ser_writedata32 (nSequence i).
Definition TxOut_write (o : CTxOut.t) : list Z := write_signed 8 (CTxOut.nValue o) ++ write_blob (CTxOut.scriptPubKey o).
Definition TxInWitness_write (w : CTxInWitness) : list Z := write_vec write_blob w.

(** [NO_WITNESS] is the flag [SERIALIZE_TRANSACTION_NO_WITNESS] of the version. *)
Definition tx_flags (NO_WITNESS : bool) (wit : list CTxInWitness) : Z := if negb NO_WITNESS && negb (TxWitness_IsNull wit) then 1 else 0.

Definition write_body (NO_WITNESS : bool) (vin : list CTxIn) (vout : list CTxOut.t) (wit : list CTxInWitness) : list Z :=
  let flags := tx_flags NO_WITNESS wit in
  (if negb (flags =? 0) then WriteCompactSize 0 ++ ser_writedata8 flags else []) ++
  write_vec TxIn_write vin ++ write_vec TxOut_write vout ++
  (if negb (flags .& 1 =? 0) then concat (TxInWitness_write <$> resize (length vin) [] wit) else []).

Definition write_tail (tx : tx_data) : list Z :=
  ser_writedata32 (tx_nLockTime tx) ++ (if 2 <=? tx_nVersion tx then write_blob (tx_strDZeel tx) else []).

(** [None] is the failed assertion. *)
Definition SerializeTransaction (NO_WITNESS : bool) (tx : tx_data) : option (list Z) :=
  if (length (tx_wit tx) <=? length (tx_vin tx))%nat then
    Some (write_signed 4 (tx_nVersion tx) ++ ser_writedata32 (tx_nTime tx) ++
          write_body NO_WITNESS (tx_vin tx) (tx_vout tx) (tx_wit tx) ++ write_tail tx)
  else None.

(** ** Reading *)

Definition OutPoint_read : Reader COutPoint := h ← read_bytes 32; i ← ser_readdata32; mret {| hash := h; n := i |}.
Definition TxIn_read : Reader CTxIn :=
  p ← OutPoint_read; s ← read_blob; q ← ser_readdata32; mret {| prevout := p; scriptSig := s; nSequence := q |}.
Definition TxOut_read : Reader CTxOut.t :=
  v ← read_signed 8; s ← read_blob; mret {| CTxOut.nValue := v; CTxOut.scriptPubKey := s |}.
Definition TxInWitness_read : Reader CTxInWitness := read_vec read_blob.

Definition read_ins_outs (NO_WITNESS : bool) : Reader (Z * list CTxIn * list CTxOut.t) :=
  vin ← read_vec TxIn_read;
  if bool_decide (length vin = 0%nat) && negb NO_WITNESS then
    flags ← ser_readdata8;
    if negb (flags =? 0) then vin ← read_vec TxIn_read; vout ← read_vec TxOut_read; mret (flags, vin, vout)
    else mret (0, vin, [])
  else vout ← read_vec TxOut_read; mret (0, vin, vout).

Definition read_wit (NO_WITNESS : bool) (flags : Z) (vin : list CTxIn) : Reader (Z * list CTxInWitness) :=
  if negb (flags .& 1 =? 0) && negb NO_WITNESS then
    wit ← read_n TxInWitness_read (length vin);
    if TxWitness_IsNull wit then throw else mret (Z.lxor flags 1, wit)
  else mret (flags, []).

Definition read_body (NO_WITNESS : bool) : Reader (list CTxIn * list CTxOut.t * list CTxInWitness) :=
  '(flags, vin, vout) ← read_ins_outs NO_WITNESS;
  '(flags, wit) ← read_wit NO_WITNESS flags vin;
  if negb (flags =? 0) then throw else mret (vin, vout, wit).

(** The object that is read into is a fresh one. *)
Definition UnserializeTransaction (NO_WITNESS : bool) : Reader tx_data :=
  nVersion ← read_signed 4;
  nTime ← ser_readdata32;
  body ← read_body NO_WITNESS;
  nLockTime ← ser_readdata32;
  strDZeel ← (if 2 <=? nVersion then read_string else mret []);
  mret {| tx_nVersion := nVersion; tx_nTime := nTime; tx_vin := body.1.1; tx_vout := body.1.2; tx_wit := body.2; tx_nLockTime := nLockTime; tx_strDZeel := strDZeel |}.

(** ** The law of the format *)

Definition blob_ok (l : list Z) : Prop := Z.of_nat (length l) <= MAX_SIZE /\ words 8 l.
Definition outpoint_ok (p : COutPoint) : Prop := (length (hash p) = 32%nat /\ words 8 (hash p)) /\ word 32 (n p).
Definition txin_ok (i : CTxIn) : Prop := outpoint_ok (prevout i) /\ blob_ok (scriptSig i) /\ word 32 (nSequence i).
Definition txout_ok (o : CTxOut.t) : Prop := - 2 ^ 63 <= CTxOut.nValue o < 2 ^ 63 /\ blob_ok (CTxOut.scriptPubKey o).
Definition vec_ok {A} (P : A -> Prop) (l : list A) : Prop := Z.of_nat (length l) <= MAX_SIZE /\ Forall P l.

Lemma codec_outpoint : codec OutPoint_write OutPoint_read outpoint_ok.
Proof.
  apply (codec_bind hash (fun h => h) (fun p => ser_writedata32 (n p)) _ _ (fun h => length h = 32%nat /\ words 8 h) (fun p => word 32 (n p))); [apply codec_bytes|]. intros h _.
  apply (codec_last _ n (store_le 4) _ (word 32)); [apply codec_int|]. intros [h' i'] i. cbn. split; [by intros [= -> ->]|by intros [-> ->]].
Qed.

Lemma codec_txin : codec TxIn_write TxIn_read txin_ok.
Proof.
  apply (codec_bind prevout OutPoint_write (fun i => write_blob (scriptSig i) ++ ser_writedata32 (nSequence i)) _ _ outpoint_ok (fun i => blob_ok (scriptSig i) /\ word 32 (nSequence i))); [apply codec_outpoint|]. intros p _.
  apply (codec_iff _ _ (fun i => blob_ok (scriptSig i) /\ word 32 (nSequence i) /\ prevout i = p)); [|intros; by rewrite (assoc and)].
  apply (codec_bind scriptSig write_blob (fun i => ser_writedata32 (nSequence i)) _ _ blob_ok (fun i => word 32 (nSequence i) /\ prevout i = p)); [apply codec_blob|]. intros s _.
  apply (codec_iff _ _ (fun i => word 32 (nSequence i) /\ (prevout i = p /\ scriptSig i = s))); [|intros; by rewrite (assoc and)].
  apply (codec_last _ nSequence (store_le 4) _ (word 32)); [apply codec_int|]. intros [p' s' q'] q. cbn. split; [by intros [= -> -> ->]|by intros (-> & -> & ->)].
Qed.

Lemma codec_txout : codec TxOut_write TxOut_read txout_ok.
Proof.
  apply (codec_bind CTxOut.nValue (write_signed 8) (fun o => write_blob (CTxOut.scriptPubKey o)) _ _ (fun v => - 2 ^ 63 <= v < 2 ^ 63) (fun o => blob_ok (CTxOut.scriptPubKey o))); [apply (codec_signed 8); lia|]. intros v _.
  apply (codec_last _ CTxOut.scriptPubKey write_blob _ blob_ok); [apply codec_blob|]. intros [v' s'] s. cbn. split; [by intros [= -> ->]|by intros [-> ->]].
Qed.

Lemma codec_witness : codec TxInWitness_write TxInWitness_read (vec_ok blob_ok).
Proof. apply codec_vec, codec_blob. Qed.

(** What the two formats can represent.  Without inputs there is no room for outputs
    unless witnesses are left out, as the empty list of inputs is the marker of the
    extended format. *)
Definition body_ok (NO_WITNESS : bool) (b : list CTxIn * list CTxOut.t * list CTxInWitness) : Prop :=
  let '(vin, vout, wit) := b in
  vec_ok txin_ok vin /\ vec_ok txout_ok vout /\
  ((wit = [] /\ (NO_WITNESS = false -> vin = [] -> vout = [])) \/
   (NO_WITNESS = false /\ TxWitness_IsNull wit = false /\ length wit = length vin /\ Forall (vec_ok blob_ok) wit)).

Definition body_bytes (NO_WITNESS : bool) (b : list CTxIn * list CTxOut.t * list CTxInWitness) : list Z :=
  let '(vin, vout, wit) := b in write_body NO_WITNESS vin vout wit.

Lemma codec_ins : codec (write_vec TxIn_write) (read_vec TxIn_read) (vec_ok txin_ok).
Proof. apply codec_vec, codec_txin. Qed.
Lemma codec_outs : codec (write_vec TxOut_write) (read_vec TxOut_read) (vec_ok txout_ok).
Proof. apply codec_vec, codec_txout. Qed.
Lemma codec_byte : codec (store_le 1) ser_readdata8 (word 8).
Proof. apply codec_int. Qed.

Lemma write_plain NO_WITNESS vin vout : write_body NO_WITNESS vin vout [] = write_vec TxIn_write vin ++ write_vec TxOut_write vout.
Proof. unfold write_body, tx_flags. cbn. rewrite andb_false_r. cbn. by rewrite app_nil_r. Qed.

Lemma write_extended vin vout wit : TxWitness_IsNull wit = false -> length wit = length vin ->
  write_body false vin vout wit = write_vec TxIn_write [] ++ store_le 1 1 ++ write_vec TxIn_write vin ++ write_vec TxOut_write vout ++ concat (TxInWitness_write <$> wit).
Proof. intros Hw Hl. unfold write_body, tx_flags. rewrite Hw. cbn -[write_vec store_le]. by rewrite <- Hl, resize_all. Qed.

(** The flags that pass: the bit of the witnesses and no other. *)
Lemma flags_one flags : negb (flags .& 1 =? 0) = true -> negb (Z.lxor flags 1 =? 0) = false -> flags = 1.
Proof. intros _ H. apply negb_false_iff, Z.eqb_eq, Z.lxor_eq in H. done. Qed.

Lemma read_body_inv NO_WITNESS s b rest : words 8 s -> read_body NO_WITNESS s = Some (b, rest) -> s = body_bytes NO_WITNESS b ++ rest /\ body_ok NO_WITNESS b.
Proof.
  intros Hs E. unfold read_body in E. apply reader_bind_inv in E as ([[flags vin] vout] & s1 & E1 & E). apply reader_bind_inv in E as ([flags' wit] & s2 & E2 & E).
  destruct (negb (flags' =? 0)) eqn:Ef; [done|]. injection E as <- <-. unfold read_ins_outs in E1.
  apply (codec_step_inv _ _ _ _ _ _ _ codec_ins Hs) in E1 as (vin1 & s3 & -> & Hv1 & Hs3 & E1).
  destruct (bool_decide _ && negb NO_WITNESS) eqn:Em.
  - apply andb_prop in Em as [Em En]. apply bool_decide_eq_true, nil_length_inv in Em as ->. apply negb_true_iff in En as ->.
    apply (codec_step_inv _ _ _ _ _ _ _ codec_byte Hs3) in E1 as (fl & s4 & -> & Hfl & Hs4 & E1). destruct (Z.eqb_spec fl 0) as [->|Hf0]; cbn [negb] in E1.
    + injection E1 as <- <- <- <-. injection E2 as <- <- <-. unfold body_bytes. rewrite write_plain. split; [by rewrite <- app_assoc|]. split; [done|]. split; [by split|]. by left.
    + apply (codec_step_inv _ _ _ _ _ _ _ codec_ins Hs4) in E1 as (vin2 & s5 & -> & Hv2 & Hs5 & E1). apply (codec_step_inv _ _ _ _ _ _ _ codec_outs Hs5) in E1 as (vout2 & s6 & -> & Ho2 & Hs6 & E1).
      injection E1 as <- <- <- <-. unfold read_wit in E2. rewrite andb_true_r in E2. destruct (negb (fl .& 1 =? 0)) eqn:Eb.
      * apply (codec_step_inv _ _ _ _ _ _ _ (codec_n _ _ _ (length vin2) codec_witness) Hs6) in E2 as (wit2 & s7 & -> & [Hw2 Hl2] & Hs7 & E2).
        destruct (TxWitness_IsNull wit2) eqn:Ew; [done|]. injection E2 as <- <- <-. apply flags_one in Ef as ->; [|done]. unfold body_bytes. rewrite write_extended by done.
        split; [by rewrite <- !app_assoc|]. split; [done|]. split; [done|]. by right.
      * injection E2 as <- <- <-. by apply negb_false_iff, Z.eqb_eq in Ef.
  - apply (codec_step_inv _ _ _ _ _ _ _ codec_outs Hs3) in E1 as (vout2 & s4 & -> & Ho & Hs4 & E1). injection E1 as <- <- <- <-. injection E2 as <- <- <-.
    unfold body_bytes. rewrite write_plain. split; [by rewrite <- app_assoc|]. split; [done|]. split; [done|]. left. split; [done|]. intros -> ->. done.
Qed.

Lemma read_body_back NO_WITNESS b rest : words 8 (body_bytes NO_WITNESS b ++ rest) -> body_ok NO_WITNESS b -> read_body NO_WITNESS (body_bytes NO_WITNESS b ++ rest) = Some (b, rest).
Proof.
  destruct b as [[vin vout] wit]. intros Hs (Hi & Ho & Hw). unfold body_bytes in *. unfold read_body.
  assert (exists flags r, read_ins_outs NO_WITNESS (write_body NO_WITNESS vin vout wit ++ rest) = Some ((flags, vin, vout), r) /\
    exists flags', read_wit NO_WITNESS flags vin r = Some ((flags', wit), rest) /\ negb (flags' =? 0) = false) as (flags & r & E1 & flags' & E2 & E3).
  2: { unfold mbind at 1, reader_bind at 1. rewrite E1. cbn [mbind option_bind]. unfold mbind, reader_bind. rewrite E2. cbn [mbind option_bind]. by rewrite E3. }
  destruct Hw as [[-> Hemp]|(-> & Hn & Hl & Hw)].
  - rewrite write_plain, <- app_assoc in *. exists 0, rest. split; [|by exists 0]. unfold read_ins_outs. rewrite (codec_step _ _ _ _ _ _ codec_ins Hi Hs).
    apply Forall_app in Hs as [_ Hs]. destruct (bool_decide _ && negb NO_WITNESS) eqn:Em.
    + apply andb_prop in Em as [Em En]. apply bool_decide_eq_true, nil_length_inv in Em as ->. apply negb_true_iff in En as ->. rewrite (Hemp eq_refl eq_refl) in *. done.
    + by rewrite (codec_step _ _ _ _ _ _ codec_outs Ho Hs).
  - rewrite write_extended, <- !app_assoc in * by done. exists 1, (concat (TxInWitness_write <$> wit) ++ rest). unfold read_ins_outs.
    rewrite (codec_step _ _ _ _ [] _ codec_ins) by done. apply Forall_app in Hs as [_ Hs]. cbn [length bool_decide negb andb]. rewrite bool_decide_true by done. cbn [andb negb].
    rewrite (codec_step _ _ _ _ 1 _ codec_byte) by done. apply Forall_app in Hs as [_ Hs]. cbn [Z.eqb negb].
    rewrite (codec_step _ _ _ _ _ _ codec_ins Hi Hs). apply Forall_app in Hs as [_ Hs]. rewrite (codec_step _ _ _ _ _ _ codec_outs Ho Hs). apply Forall_app in Hs as [_ Hs]. split; [done|].
    exists 0. split; [|done]. unfold read_wit. change (negb (1 .& 1 =? 0) && negb false) with true. cbv iota. rewrite (codec_step _ _ _ _ _ _ (codec_n _ _ _ (length vin) codec_witness) (conj Hw Hl) Hs), Hn. done.
Qed.

Lemma codec_body NO_WITNESS : codec (body_bytes NO_WITNESS) (read_body NO_WITNESS) (body_ok NO_WITNESS).
Proof. intros s b rest Hs. split; [by apply read_body_inv|]. intros [-> Hb]. by apply read_body_back. Qed.

(** A transaction that the format represents. *)
Record tx_ok (NO_WITNESS : bool) (tx : tx_data) : Prop := {
  to_version : - 2 ^ 31 <= tx_nVersion tx < 2 ^ 31;
  to_time : word 32 (tx_nTime tx);
  to_body : body_ok NO_WITNESS (tx_vin tx, tx_vout tx, tx_wit tx);
  to_lock : word 32 (tx_nLockTime tx);
  to_string : blob_ok (tx_strDZeel tx);
  to_old : tx_nVersion tx < 2 -> tx_strDZeel tx = []
}.

Definition tx_bytes (NO_WITNESS : bool) (tx : tx_data) : list Z :=
  write_signed 4 (tx_nVersion tx) ++ ser_writedata32 (tx_nTime tx) ++ body_bytes NO_WITNESS (tx_vin tx, tx_vout tx, tx_wit tx) ++ write_tail tx.

Lemma codec_zeel nVersion :
  codec (fun l => if 2 <=? nVersion then write_blob l else []) (if 2 <=? nVersion then read_string else mret []) (fun l => blob_ok l /\ (nVersion < 2 -> l = [])).
Proof.
  destruct (Z.leb_spec 2 nVersion).
  - eapply codec_iff; [apply codec_string|]. intros l. split; [intros ?; split; [done|lia]|by intros [? _]].
  - eapply codec_iff; [apply codec_ret|]. intros l. split; [by intros <-|]. intros [_ Hl]. symmetry. by apply Hl.
Qed.

Lemma codec_tx NO_WITNESS : codec (tx_bytes NO_WITNESS) (UnserializeTransaction NO_WITNESS) (tx_ok NO_WITNESS).
Proof.
  intros s tx rest Hs. split.
  - intros E. apply (codec_step_inv _ _ _ _ _ _ _ (codec_signed 4 ltac:(lia)) Hs) in E as (v & s1 & -> & Hv & Hs1 & E).
    apply (codec_step_inv _ _ _ _ _ _ _ (codec_int 4) Hs1) in E as (t & s2 & -> & Ht & Hs2 & E). apply (codec_step_inv _ _ _ _ _ _ _ (codec_body NO_WITNESS) Hs2) in E as (b & s3 & -> & Hb & Hs3 & E).
    apply (codec_step_inv _ _ _ _ _ _ _ (codec_int 4) Hs3) in E as (l & s4 & -> & Hl & Hs4 & E). apply (codec_step_inv _ _ _ _ _ _ _ (codec_zeel v) Hs4) in E as (z & s5 & -> & [Hz1 Hz2] & Hs5 & E).
    destruct b as [[vin vout] wit]. injection E as <- <-. split; [|by split]. unfold tx_bytes, write_tail. cbn [tx_nVersion tx_nTime tx_vin tx_vout tx_wit tx_nLockTime tx_strDZeel]. by rewrite <- !app_assoc.
  - intros (-> & [Hv Ht Hb Hl Hz1 Hz2]). unfold tx_bytes, write_tail in *. rewrite <- !app_assoc in *. unfold UnserializeTransaction.
    rewrite (codec_step _ _ _ _ _ _ (codec_signed 4 ltac:(lia)) Hv Hs). apply Forall_app in Hs as [_ Hs]. rewrite (codec_step _ _ _ _ _ _ (codec_int 4) Ht Hs). apply Forall_app in Hs as [_ Hs].
    rewrite (codec_step _ _ _ _ _ _ (codec_body NO_WITNESS) Hb Hs). apply Forall_app in Hs as [_ Hs]. rewrite (codec_step _ _ _ _ _ _ (codec_int 4) Hl Hs). apply Forall_app in Hs as [_ Hs].
    rewrite (codec_step _ _ _ _ _ _ (codec_zeel _) (conj Hz1 Hz2) Hs). by destruct tx.
Qed.

(** C23. A transaction is read from a stream of bytes exactly when the stream starts
    with what [SerializeTransaction] writes for it, in both formats, and it is one
    that the format represents; every other stream is refused.  In particular a
    transaction that is read has one encoding only: sizes are minimal, unknown flags
    and witnesses that are all empty are refused. *)
Theorem transaction_format_canonical (NO_WITNESS : bool) (s : list Z) (tx : tx_data) (rest : list Z) : words 8 s ->
  UnserializeTransaction NO_WITNESS s = Some (tx, rest) <->
  exists bs, SerializeTransaction NO_WITNESS tx = Some bs /\ s = bs ++ rest /\ tx_ok NO_WITNESS tx.
Proof.
  intros Hs. rewrite (codec_tx NO_WITNESS s tx rest Hs). assert (tx_ok NO_WITNESS tx -> SerializeTransaction NO_WITNESS tx = Some (tx_bytes NO_WITNESS tx)) as Hw.
  { intros Hok. unfold SerializeTransaction. destruct (Nat.leb_spec (length (tx_wit tx)) (length (tx_vin tx))) as [|Hlt]; [done|exfalso].
    destruct (to_body _ _ Hok) as (_ & _ & [[Hn _]|(_ & _ & Hl & _)]); [rewrite Hn in Hlt; cbn in Hlt|]; lia. }
  split.
  - intros [-> Hok]. exists (tx_bytes NO_WITNESS tx). auto.
  - intros (bs & E & -> & Hok). rewrite (Hw Hok) in E. injection E as <-. done.
Qed.

(** ** Hashes *)

Section Hash.

(** The double SHA-256 of a string of bytes ([SerializeHash]). *)
Variable Hash : list Z -> uint256.

Definition GetHash (tx : tx_data) : option uint256 := Hash <$> SerializeTransaction true tx.
Definition GetWitnessHash (tx : tx_data) : option uint256 := Hash <$> SerializeTransaction false tx.

End Hash.

(** *** Examples *)

(** A transaction with a witness for its second input. *)
Definition demo_tx : tx_data := {|
  tx_nVersion := 3; tx_nTime := 1600000000;
  tx_vin := [{| prevout := {| hash := replicate 32 17; n := 0 |}; scriptSig := [1; 2; 3]; nSequence := 2 ^ 32 - 1 |};
             {| prevout := {| hash := replicate 32 18; n := 5 |}; scriptSig := []; nSequence := 7 |}];
  tx_vout := [{| CTxOut.nValue := 12 * 10 ^ 8; CTxOut.scriptPubKey := [118; 169] |}];
  tx_wit := [[]; [[9; 9]; []]]; tx_nLockTime := 0; tx_strDZeel := [72; 105] |}.
Definition demo_tx_bytes : list Z := default [] (SerializeTransaction false demo_tx).

Lemma transaction_format_canonical_witness :
  UnserializeTransaction false (demo_tx_bytes ++ [5]) = Some (demo_tx, [5]) <->
  exists bs, SerializeTransaction false demo_tx = Some bs /\ demo_tx_bytes ++ [5] = bs ++ [5] /\ tx_ok false demo_tx.
Proof. apply (transaction_format_canonical false (demo_tx_bytes ++ [5]) demo_tx [5]). apply (bool_decide_unpack _). by vm_compute. Defined.

Example demo_tx_reads : UnserializeTransaction false (demo_tx_bytes ++ [5]) = Some (demo_tx, [5]).
Proof. by vm_compute. Qed.

(** Without inputs, a transaction with outputs does not read back in the extended
    format. *)
Example no_inputs_ambiguous :
  let tx := {| tx_nVersion := 1; tx_nTime := 0; tx_vin := []; tx_vout := tx_vout demo_tx; tx_wit := []; tx_nLockTime := 0; tx_strDZeel := [] |} in
  match SerializeTransaction false tx with Some bs => UnserializeTransaction false bs = None | None => False end.
Proof. by vm_compute. Qed.
