(* ===== verification/Utxo.v ===== *)
(** * main.cpp, coins.cpp, undo.h: spending and restoring coins

    [UpdateCoins] spends the inputs of a transaction, records how to undo it and adds
    its outputs; the part of [DisconnectBlock] that deals with coins takes them back,
    with [ApplyTxInUndo] for every input in reverse order.  The operations and their
    theorems are stated for any view of coins with the laws of [CoinsView]. *)

From Stdlib Require Import ZArith Lia.
From stdpp Require Import base tactics numbers list gmap.
From S2P Require Import Prelude SphTypes Blob Serialize Compressor Coins CoinsView Transaction.
Import CCoins.

(** ** Transactions *)

(** [CTransaction]: its data with the hash that was computed from them. *)
Record CTransaction := { txid : uint256; tx_of :> tx_data }.

(** The outpoints that a transaction spends. *)
Definition vin (tx : CTransaction) : list COutPoint := prevout <$> tx_vin tx.

Definition IsCoinBase (tx : CTransaction) : bool := match vin tx with [p] => OutPoint_IsNull p | _ => false end.
Definition IsCoinStake (tx : CTransaction) : bool :=
  match vin tx, tx_vout tx with
  | p :: _, o :: _ :: _ => negb (OutPoint_IsNull p) && TxOut_IsEmpty o
  | _, _ => false
  end.

Definition coins_of (tx : CTransaction) (height : Z) : CCoins.t :=
  FromTx (IsCoinBase tx) (IsCoinStake tx) (tx_vout tx) (tx_nVersion tx) height.

(** [operator==] of coins. *)
Definition coins_equal (a b : CCoins.t) : bool :=
  (IsPruned a && IsPruned b) ||
  (Bool.eqb (fCoinBase a) (fCoinBase b) && (nHeight a =? nHeight b) && (nVersion a =? nVersion b) && bool_decide (vout a = vout b)).

(** [CTxInUndo] *)
Record CTxInUndo := { txout : CTxOut.t; undo_fCoinBase : bool; undo_nHeight : Z; undo_nVersion : Z }.

Section Store.
Context {V : Type} `{CoinsStore V}.

(** ** Checking inputs *)

Fixpoint have_prevouts (v : V) (l : list COutPoint) : bool * V :=
  match l with
  | [] => (true, v)
  | p :: l =>
      let '(r, v) := store_access v (hash p) in
      match r with
      | Some c => if IsAvailable c (Z.to_nat (n p)) then have_prevouts v l else (false, v)
      | None => (false, v)
      end
  end.
Definition HaveInputs (v : V) (tx : CTransaction) : bool * V := if IsCoinBase tx then (true, v) else have_prevouts v (vin tx).

(** ** Connecting *)

(** The change that one input makes; [None] is [assert(false)]. *)
Definition spend_input (p : COutPoint) (c : CCoins.t) : option (CTxInUndo * CCoins.t) :=
  let nPos := Z.to_nat (n p) in
  match vout c !! nPos with
  | None => None
  | Some o =>
      if CTxOut.IsNull o then None
      else
        let c := (Spend c nPos).2 in
        Some (if bool_decide (vout c = []) then {| txout := o; undo_fCoinBase := fCoinBase c; undo_nHeight := nHeight c; undo_nVersion := nVersion c |}
              else {| txout := o; undo_fCoinBase := false; undo_nHeight := 0; undo_nVersion := 0 |}, c)
  end.

Fixpoint spend_inputs (v : V) (l : list COutPoint) : option (list CTxInUndo * V) :=
  match l with
  | [] => Some ([], v)
  | p :: l =>
      '(u, v) ← store_modify v (hash p) (spend_input p);
      '(us, v) ← spend_inputs v l;
      Some (u :: us, v)
  end.

Definition UpdateCoins (tx : CTransaction) (v : V) (height : Z) : option (list CTxInUndo * V) :=
  '(undo, v) ← (if IsCoinBase tx then Some ([], v) else spend_inputs v (vin tx));
  '(_, v) ← store_modify_new v (txid tx) (IsCoinBase tx) (fun _ => Some (tt, coins_of tx height));
  Some (undo, v).

(** ** Disconnecting *)

(** The change of [ApplyTxInUndo] and whether the view was as expected. *)
Definition apply_undo (undo : CTxInUndo) (p : COutPoint) (c : CCoins.t) : option (bool * CCoins.t) :=
  let '(fClean, c) :=
    if negb (undo_nHeight undo =? 0)
    then (IsPruned c, {| fCoinBase := undo_fCoinBase undo; fCoinStake := false; vout := []; nHeight := undo_nHeight undo; nVersion := undo_nVersion undo |})
    else (negb (IsPruned c), c) in
  let nPos := Z.to_nat (n p) in
  let fClean := fClean && negb (IsAvailable c nPos) in
  if n p =? 2 ^ 32 - 1 then None
  else
    let l := if (length (vout c) <? nPos + 1)%nat then resize (nPos + 1) CTxOut.SetNull (vout c) else vout c in
    Some (fClean, with_vout c (<[nPos := txout undo]> l)).

Definition ApplyTxInUndo (undo : CTxInUndo) (v : V) (out : COutPoint) : option (bool * V) := store_modify v (hash out) (apply_undo undo out).

(** The inputs, from the last one back. *)
Fixpoint restore_inputs (v : V) (l : list (COutPoint * CTxInUndo)) : option (bool * V) :=
  match l with
  | [] => Some (true, v)
  | (p, u) :: l =>
      '(ok, v) ← restore_inputs v l;
      '(ok', v) ← ApplyTxInUndo u v p;
      Some (ok && ok', v)
  end.

(** The change that takes the outputs back. *)
Definition remove_outputs (tx : CTransaction) (height : Z) (outs : CCoins.t) : option (bool * CCoins.t) :=
  let outs := ClearUnspendable outs in
  let outsBlock := coins_of tx height in
  let outs := if nVersion outsBlock <? 0
              then {| fCoinBase := fCoinBase outs; fCoinStake := fCoinStake outs; vout := vout outs; nHeight := nHeight outs; nVersion := nVersion outsBlock |}
              else outs in
  Some (coins_equal outs outsBlock, Clear).

(** One transaction of [DisconnectBlock]; [first] is [i == 0].  [Some (None, v)] is
    the error for inconsistent undo data. *)
Definition disconnect_tx (tx : CTransaction) (undo : list CTxInUndo) (first : bool) (v : V) (height : Z) : option (option bool * V) :=
  '(ok, v) ← store_modify v (txid tx) (remove_outputs tx height);
  if first then Some (Some ok, v)
  else if negb (length undo =? length (vin tx))%nat then Some (None, v)
  else
    '(ok', v) ← restore_inputs v (zip (vin tx) undo);
    Some (Some (ok && ok'), v).

(** ** The transactions of a block *)

(** [ConnectBlock]: the transactions after the first one, with their undo records. *)
Fixpoint connect_txs (v : V) (txs : list CTransaction) (height : Z) : option (list (list CTxInUndo) * V) :=
  match txs with
  | [] => Some ([], v)
  | tx :: txs =>
      '(undo, v) ← UpdateCoins tx v height;
      '(vtxundo, v) ← connect_txs v txs height;
      Some (undo :: vtxundo, v)
  end.

(** The undo record of the first one is dropped. *)
Definition connect_block (v : V) (vtx : list CTransaction) (height : Z) : option (list (list CTxInUndo) * V) :=
  match vtx with
  | [] => Some ([], v)
  | tx :: txs => '(_, v) ← UpdateCoins tx v height; connect_txs v txs height
  end.

(** [DisconnectBlock]: the transactions after the first one, from the last one back.
    [Some (None, v)] is the error that ends it. *)
Fixpoint disconnect_txs (v : V) (l : list (CTransaction * list CTxInUndo)) (height : Z) : option (option bool * V) :=
  match l with
  | [] => Some (Some true, v)
  | (tx, undo) :: l =>
      '(r, v) ← disconnect_txs v l height;
      match r with
      | None => Some (None, v)
      | Some ok =>
          '(r, v) ← disconnect_tx tx undo false v height;
          Some (option_map (andb ok) r, v)
      end
  end.

Definition disconnect_block (v : V) (vtx : list CTransaction) (vtxundo : list (list CTxInUndo)) (height : Z) : option (option bool * V) :=
  if negb (length vtxundo + 1 =? length vtx)%nat then Some (None, v)
  else
    match vtx with
    | [] => Some (None, v)
    | tx :: txs =>
        '(r, v) ← disconnect_txs v (zip txs vtxundo) height;
        match r with
        | None => Some (None, v)
        | Some ok =>
            '(r, v) ← disconnect_tx tx [] true v height;
            Some (option_map (andb ok) r, v)
        end
    end.

End Store.

(** ** One coin: spending and undoing *)

(** The unspent output at a position. *)
Definition out_at (c : CCoins.t) (i : nat) : option CTxOut.t :=
  match vout c !! i with Some o => if CTxOut.IsNull o then None else Some o | None => None end.

Lemma out_at_available c i : IsAvailable c i = bool_decide (is_Some (out_at c i)).
Proof. unfold IsAvailable, out_at. destruct (vout c !! i) as [o|]; [|done]. by destruct (CTxOut.IsNull o). Qed.

Lemma out_at_live c i : live c ≫= (fun c => out_at c i) = out_at c i.
Proof.
  unfold live. destruct (IsPruned c) eqn:Ep; [|done]. rewrite pruned_available in Ep. specialize (Ep i). rewrite out_at_available in Ep.
  destruct (out_at c i); [by rewrite bool_decide_true in Ep|done].
Qed.

Lemma out_at_Cleanup c i : out_at (Cleanup c) i = out_at c i.
Proof.
  destruct (Cleanup_split c) as (nulls & E & Hn & _). unfold out_at. rewrite E. destruct (decide (i < length (vout (Cleanup c)))%nat) as [Hi|Hi].
  - by rewrite lookup_app_l.
  - rewrite lookup_app_r by lia. rewrite lookup_ge_None_2 by lia. destruct (nulls !! _) as [o|] eqn:Eo; [|done].
    rewrite Forall_lookup in Hn. by rewrite (Hn _ _ Eo).
Qed.

(** What is known of the coins in a view: their height is not zero (the genesis block
    has no coins), positions fit a [uint32_t] and spent outputs are the null one. *)
Definition coin_wf (c : CCoins.t) : Prop := nHeight c <> 0 /\ Z.of_nat (length (vout c)) < 2 ^ 32 /\ Forall (fun o => CTxOut.IsNull o = true -> o = CTxOut.SetNull) (vout c).

Lemma spend_input_spec p c : spend_input p c =
  match out_at c (Z.to_nat (n p)) with
  | None => None
  | Some o =>
      let c' := Cleanup (with_vout c (<[Z.to_nat (n p) := CTxOut.SetNull]> (vout c))) in
      Some (if bool_decide (vout c' = []) then {| txout := o; undo_fCoinBase := fCoinBase c; undo_nHeight := nHeight c; undo_nVersion := nVersion c |}
            else {| txout := o; undo_fCoinBase := false; undo_nHeight := 0; undo_nVersion := 0 |}, c')
  end.
Proof.
  unfold spend_input, out_at, Spend, IsAvailable. destruct (vout c !! _) as [o|] eqn:Eo; [|done]. destruct (CTxOut.IsNull o); done.
Qed.

(** Spending an output clears it and leaves the others. *)
Lemma spend_out_at p c u c' i : spend_input p c = Some (u, c') -> out_at c' i = if decide (i = Z.to_nat (n p)) then None else out_at c i.
Proof.
  rewrite spend_input_spec. destruct (out_at c (Z.to_nat (n p))) as [o|] eqn:Eo; [|done]. cbv zeta. intros E. apply (f_equal (option_map snd)) in E. injection E as <-.
  rewrite out_at_Cleanup. unfold out_at in *. cbn [vout with_vout]. case_decide as Hi.
  - subst i. destruct (vout c !! Z.to_nat (n p)) eqn:El; [|done]. rewrite list_lookup_insert_eq; [done|by apply lookup_lt_Some in El].
  - by rewrite list_lookup_insert_ne.
Qed.

(** Putting an output back into the list that is left after spending it. *)
Lemma restore_list l l' nulls i o : <[i := CTxOut.SetNull]> l = l' ++ nulls -> Forall (fun o => CTxOut.IsNull o = true) nulls ->
  l !! i = Some o -> Forall (fun o => CTxOut.IsNull o = true -> o = CTxOut.SetNull) l ->
  exists nulls', Forall (fun o => CTxOut.IsNull o = true) nulls' /\
    l = <[i := o]> (if (length l' <? i + 1)%nat then resize (i + 1) CTxOut.SetNull l' else l') ++ nulls'.
Proof.
  intros E Hn Ho Hc. set (r := <[i := o]> _).
  pose proof (lookup_lt_Some _ _ _ Ho) as Hi. pose proof (f_equal length E) as Hlen. rewrite length_insert, length_app in Hlen.
  assert (length r = Nat.max (i + 1) (length l')) as Hr.
  { unfold r. rewrite length_insert. destruct (Nat.ltb_spec (length l') (i + 1)); rewrite ?length_resize; lia. }
  assert (forall j x, l !! j = Some x -> j <> i -> (length l' <= j)%nat -> CTxOut.IsNull x = true) as Hrest.
  { intros j x Hx Hj Hge. rewrite Forall_lookup in Hn. apply (Hn (j - length l')%nat). rewrite <- lookup_app_r, <- E, list_lookup_insert_ne; done. }
  exists (drop (length r) l). split.
  - apply Forall_lookup. intros j x Hx. rewrite lookup_drop in Hx. eapply Hrest; [done|lia..].
  - rewrite <- (take_drop (length r) l) at 1. f_equal. apply list_eq. intros j. destruct (decide (j < length r)%nat) as [Hj|Hj].
    + rewrite lookup_take_lt by done. unfold r. destruct (decide (j = i)) as [->|Hne].
      * rewrite list_lookup_insert_eq; [done|]. unfold r in Hr. rewrite length_insert in Hr. lia.
      * rewrite list_lookup_insert_ne by done. destruct (decide (j < length l')%nat) as [Hj'|Hj'].
        -- transitivity (l' !! j); [by rewrite <- (lookup_app_l l' nulls) by done; rewrite <- E, list_lookup_insert_ne|].
           destruct (Nat.ltb_spec (length l') (i + 1)); [by rewrite lookup_resize by lia|done].
        -- destruct (Nat.ltb_spec (length l') (i + 1)); [|lia]. rewrite lookup_resize_new by lia.
           destruct (lookup_lt_is_Some_2 l j) as [x Hx]; [lia|]. rewrite Hx. f_equal. rewrite Forall_lookup in Hc. apply (Hc j x Hx). eapply Hrest; [done..|lia].
    + rewrite !lookup_ge_None_2; [done| |]; [lia|rewrite length_take; lia].
Qed.

(** Coins without the flag of coinstakes, which the comparison of coins does not take
    into account. *)
Definition strip (c : CCoins.t) : CCoins.t :=
  {| fCoinBase := fCoinBase c; fCoinStake := false; vout := vout c; nHeight := nHeight c; nVersion := nVersion c |}.

Lemma strip_eq c c' : strip c = strip c' -> fCoinBase c = fCoinBase c' /\ vout c = vout c' /\ nHeight c = nHeight c' /\ nVersion c = nVersion c'.
Proof. unfold strip. intros E. by injection E. Qed.

(** The flag of coinstakes replaced. *)
Definition with_stake (b : bool) (c : CCoins.t) : CCoins.t :=
  {| fCoinBase := fCoinBase c; fCoinStake := b; vout := vout c; nHeight := nHeight c; nVersion := nVersion c |}.

Lemma live_ext b c c' : fCoinBase c = fCoinBase c' -> fCoinStake c = b -> vout c = vout c' -> nHeight c = nHeight c' -> nVersion c = nVersion c' ->
  live c = with_stake b <$> live c'.
Proof.
  intros H1 <- H2 H3 H4. unfold live. assert (IsPruned c' = IsPruned c) as -> by (unfold IsPruned; by rewrite H2). destruct (IsPruned c); [done|].
  cbn. unfold with_stake. rewrite <- H1, <- H2, <- H3, <- H4. by destruct c.
Qed.

(** Coins that are equal for the view, up to the flag of coinstakes, hold the same
    outputs; pruned ones hold none. *)
Lemma clean_live c2 c' : clean c2 -> clean c' -> strip <$> live c2 = strip <$> live c' ->
  vout c2 = vout c' /\ (IsPruned c' = false -> fCoinBase c2 = fCoinBase c' /\ nHeight c2 = nHeight c' /\ nVersion c2 = nVersion c').
Proof.
  intros H2 H' E. unfold live in E. destruct (IsPruned c') eqn:P', (IsPruned c2) eqn:P2; try done.
  - rewrite clean_pruned in P', P2 by done. apply bool_decide_eq_true in P', P2. split; [congruence|done].
  - apply Some_inj in E. destruct (strip_eq _ _ E) as (? & ? & ? & ?). split; [done|]. by intros _.
Qed.

(** Applying the undo record of an input to the coins that its spending left, or to
    any that are equal to them up to the flag of coinstakes, gives the coins before it;
    the flag is that of the coins that are there, and cleared when none are. *)
Lemma spend_undo p c u c' c2 : clean c -> coin_wf c -> n p <> 2 ^ 32 - 1 -> spend_input p c = Some (u, c') ->
  clean c2 -> strip <$> live c2 = strip <$> live (Cleanup c') ->
  exists c3, apply_undo u p c2 = Some (true, c3) /\ live (Cleanup c3) = with_stake (match live c2 with Some c2 => fCoinStake c2 | None => false end) <$> live c.
Proof.
  intros Hcl (Hh & _ & Hnull) Hn E Hcl2 Hl. rewrite spend_input_spec in E. set (i := Z.to_nat (n p)) in *.
  destruct (out_at c i) as [o|] eqn:Eo; [|done]. cbv zeta in E. set (c1 := Cleanup _) in E.
  apply Some_inj, pair_equal_spec in E as [Eu Ec]. subst c'.
  assert (clean c1) as Hc1 by apply Cleanup_idem. rewrite Hc1 in Hl. destruct (clean_live c2 c1 Hcl2 Hc1 Hl) as [Hv Hm].
  assert (vout c !! i = Some o) as Ho by (unfold out_at in Eo; destruct (vout c !! i) as [x|]; [destruct (CTxOut.IsNull x)|]; congruence).
  destruct (Cleanup_split (with_vout c (<[i := CTxOut.SetNull]> (vout c)))) as (nulls & Es & Hns & _). fold c1 in Es. cbn [vout with_vout] in Es.
  destruct (restore_list _ _ _ _ _ Es Hns Ho Hnull) as (nulls' & Hn' & Er).
  assert (forall c3, vout c3 = <[i := o]> (if (length (vout c1) <? i + 1)%nat then resize (i + 1) CTxOut.SetNull (vout c1) else vout c1) ->
    vout (Cleanup c3) = vout c) as Hfin.
  { intros c3 H3. rewrite <- Hcl. transitivity (vout (Cleanup (with_vout c3 (vout c)))); [|done]. rewrite Er, cleanup_nulls, <- H3 by done. done. }
  assert (live c2 = if bool_decide (vout c1 = []) then None else Some c2) as Hl2 by (unfold live; rewrite (clean_pruned c2 Hcl2), Hv; done).
  unfold apply_undo. fold i. rewrite (proj2 (Z.eqb_neq _ _) Hn), Hl2. rewrite (clean_pruned c2 Hcl2), Hv. revert Eu. case_bool_decide as He; intros <-; cbn [undo_nHeight undo_fCoinBase undo_nVersion txout].
  - rewrite (proj2 (Z.eqb_neq _ _) Hh). cbn [negb vout]. eexists. split; [done|]. rewrite He in Hfin. apply live_ext; try done. by apply Hfin.
  - cbn [Z.eqb negb]. assert (IsAvailable c2 i = false) as ->.
    { unfold IsAvailable. rewrite Hv. change (IsAvailable c1 i = false). unfold c1. rewrite Cleanup_available. unfold IsAvailable. cbn [vout with_vout].
      rewrite list_lookup_insert_eq; [done|]. by apply lookup_lt_Some in Ho. }
    assert (IsPruned c1 = false) as Hp by (rewrite (clean_pruned c1 Hc1); by apply bool_decide_eq_false). destruct (Hm Hp) as (M1 & M2 & M3).
    eexists. split; [done|]. apply live_ext; try done. apply Hfin. cbn [vout with_vout]. by rewrite Hv.
Qed.

(** Spending keeps coins well formed. *)
Lemma spend_wf p c u c' : coin_wf c -> spend_input p c = Some (u, c') -> coin_wf (Cleanup c').
Proof.
  intros (Hh & Hs & Hn) E. rewrite spend_input_spec in E. destruct (out_at c _) as [o|]; [|done]. cbv zeta in E. apply (f_equal (option_map snd)) in E. injection E as <-.
  rewrite Cleanup_idem. destruct (Cleanup_split (with_vout c (<[Z.to_nat (n p) := CTxOut.SetNull]> (vout c)))) as (nulls & E & _). set (c1 := Cleanup _) in *.
  cbn [vout with_vout] in E. pose proof (f_equal length E) as Hl. rewrite length_insert, length_app in Hl. split; [done|]. split; [lia|].
  assert (Forall (fun o => CTxOut.IsNull o = true -> o = CTxOut.SetNull) (vout c1 ++ nulls)) as H; [|by apply Forall_app in H as [H _]]. rewrite <- E. by apply Forall_insert.
Qed.

Lemma spend_position p c u c' : coin_wf c -> 0 <= n p -> spend_input p c = Some (u, c') -> n p <> 2 ^ 32 - 1.
Proof.
  intros (_ & Hs & _) H0 E. rewrite spend_input_spec in E. unfold out_at in E. destruct (vout c !! _) as [o|] eqn:Eo; [|done]. apply lookup_lt_Some in Eo. lia.
Qed.

Lemma spend_live p c u c' : spend_input p c = Some (u, c') -> live c = Some c.
Proof.
  intros E. rewrite spend_input_spec, <- out_at_live in E. unfold live in *. by destruct (IsPruned c).
Qed.

(** ** One output of a transaction *)

Definition clear_out (o : CTxOut.t) : CTxOut.t := if IsUnspendable (CTxOut.scriptPubKey o) then CTxOut.SetNull else o.

Lemma clear_out_idem o : clear_out (clear_out o) = clear_out o.
Proof. unfold clear_out. destruct (IsUnspendable (CTxOut.scriptPubKey o)) eqn:E; [done|by rewrite E]. Qed.

Lemma ClearUnspendable_idem c : ClearUnspendable (ClearUnspendable c) = ClearUnspendable c.
Proof.
  unfold ClearUnspendable at 1. fold clear_out. destruct (Cleanup_split (with_vout c (clear_out <$> vout c))) as (nulls & E & _). cbn [vout with_vout] in E.
  change (Cleanup (with_vout c (clear_out <$> vout c))) with (ClearUnspendable c) in E.
  assert (clear_out <$> (clear_out <$> vout c) = clear_out <$> vout c) as Hi.
  { rewrite <- list_fmap_compose. apply list_fmap_ext. intros ? ? _. apply clear_out_idem. }
  rewrite E, fmap_app in Hi. apply app_inj_1 in Hi as [Hi _]; [|apply length_fmap]. change (Cleanup (with_vout (ClearUnspendable c) (clear_out <$> vout (ClearUnspendable c))) = ClearUnspendable c).
  rewrite Hi. transitivity (Cleanup (ClearUnspendable c)); [by destruct (ClearUnspendable c)|]. apply Cleanup_idem.
Qed.

Lemma coins_of_clean tx height : clean (coins_of tx height).
Proof. apply Cleanup_idem. Qed.

(** The check of [DisconnectBlock] passes on coins that are equal, for a view, to
    those that the transaction created. *)
Lemma remove_outputs_ok tx height c : clean c -> strip <$> live c = strip <$> live (coins_of tx height) -> remove_outputs tx height c = Some (true, Clear).
Proof.
  intros Hc E. destruct (clean_live _ _ Hc (coins_of_clean tx height) E) as [Hv Hm]. unfold remove_outputs. f_equal. f_equal.
  assert (vout (ClearUnspendable c) = vout (coins_of tx height)) as Ev.
  { transitivity (vout (ClearUnspendable (coins_of tx height))); [|unfold coins_of, FromTx; by rewrite ClearUnspendable_idem]. unfold ClearUnspendable. cbn [vout Cleanup with_vout]. by rewrite Hv. }
  unfold coins_equal. destruct (IsPruned (coins_of tx height)) eqn:Ep.
  - assert (IsPruned (ClearUnspendable c) = true) as H by (unfold IsPruned in *; by rewrite Ev). destruct (nVersion (coins_of tx height) <? 0); [unfold IsPruned in *; cbn [vout]|]; by rewrite H.
  - destruct (Hm eq_refl) as (M1 & M2 & M3). apply orb_true_intro. right.
    destruct (nVersion (coins_of tx height) <? 0); cbn [fCoinBase nHeight nVersion vout]; rewrite Ev; change (fCoinBase (ClearUnspendable c)) with (fCoinBase c);
      change (nHeight (ClearUnspendable c)) with (nHeight c); change (nVersion (ClearUnspendable c)) with (nVersion c);
      rewrite M1, M2, ?M3, Bool.eqb_reflx, !Z.eqb_refl, bool_decide_true; done.
Qed.

(** The outputs that a transaction offers. *)
Definition spendable (tx : CTransaction) (i : nat) : option CTxOut.t :=
  match tx_vout tx !! i with Some o => if CTxOut.IsNull o || IsUnspendable (CTxOut.scriptPubKey o) then None else Some o | None => None end.

Lemma coins_of_outs tx height i : out_at (coins_of tx height) i = spendable tx i.
Proof.
  unfold coins_of, FromTx, ClearUnspendable. rewrite out_at_Cleanup. unfold out_at, spendable. cbn [vout with_vout]. rewrite list_lookup_fmap.
  destruct (tx_vout tx !! i) as [o|]; [|done]. cbn [fmap option_fmap option_map]. destruct (IsUnspendable _); [by rewrite orb_true_r|by rewrite orb_false_r].
Qed.

(** A transaction that [CheckTransaction] lets through, as far as its outputs go. *)
Definition tx_wf (tx : CTransaction) : Prop :=
  Forall (fun p => 0 <= n p < 2 ^ 32) (vin tx) /\ Forall (fun o => 0 <= CTxOut.nValue o) (tx_vout tx) /\ Z.of_nat (length (tx_vout tx)) < 2 ^ 32.

Lemma coins_of_wf tx height : tx_wf tx -> height <> 0 -> coin_wf (coins_of tx height).
Proof.
  intros (_ & Ho & Hl) Hh. destruct (Cleanup_split (with_vout {| fCoinBase := IsCoinBase tx; fCoinStake := IsCoinStake tx; vout := tx_vout tx; nHeight := height; nVersion := tx_nVersion tx |}
    (clear_out <$> tx_vout tx))) as (nulls & E & _). change (Cleanup _) with (coins_of tx height) in E. cbn [vout with_vout] in E.
  pose proof (f_equal length E) as Hlen. rewrite length_fmap, length_app in Hlen. split; [done|]. split; [lia|].
  assert (Forall (fun o => CTxOut.IsNull o = true -> o = CTxOut.SetNull) (vout (coins_of tx height) ++ nulls)) as H; [|by apply Forall_app in H as [H _]].
  rewrite <- E. apply Forall_fmap. eapply Forall_impl; [exact Ho|]. intros o Hv. cbn in *. unfold clear_out. destruct (IsUnspendable _); [done|]. unfold CTxOut.IsNull. destruct (Z.eqb_spec (CTxOut.nValue o) (-1)); [lia|done].
Qed.

(** ** Views *)

Section Laws.
Context {V : Type} `{CoinsStoreLaws V}.

(** The unspent output that an outpoint refers to. *)
Definition utxo (v : V) (p : COutPoint) : option CTxOut.t := store_content v (hash p) ≫= (fun c => out_at c (Z.to_nat (n p))).

Definition store_wf (v : V) : Prop := store_ok v /\ forall k c, store_content v k = Some c -> coin_wf c.

(** Views with the same content, whose lower views also have the same content. *)
Definition same (v v' : V) : Prop := (forall k, store_content v' k = store_content v k) /\ (forall k, store_below v' k = store_below v k).

Lemma modify_Some {A} (v v' : V) k (f : CCoins.t -> option (A * CCoins.t)) a : store_ok v -> store_modify v k f = Some (a, v') ->
  exists c c', clean c /\ live c = store_content v k /\ f c = Some (a, c') /\ store_update v v' k (live (Cleanup c')).
Proof.
  intros Hok E. destruct (store_modify_law v k f Hok) as (c & Hc & Hl & Hf). destruct (f c) as [[a0 c']|] eqn:Ef; [|congruence].
  destruct Hf as (v0 & E0 & Hu). rewrite E0 in E. injection E as <- <-. by exists c, c'.
Qed.

(** Spending one input. *)
Lemma spend_one v p : store_ok v -> 0 <= n p ->
  match utxo v p with
  | None => store_modify v (hash p) (spend_input p) = None
  | Some _ => exists u v', store_modify v (hash p) (spend_input p) = Some (u, v') /\ store_ok v' /\ (store_wf v -> store_wf v') /\
      (forall q, 0 <= n q -> utxo v' q = if decide (q = p) then None else utxo v q) /\
      (forall k, k <> hash p -> store_content v' k = store_content v k) /\ (forall k, store_below v' k = store_below v k)
  end.
Proof.
  intros Hok Hp0. destruct (store_modify_law v (hash p) (spend_input p) Hok) as (c & Hc & Hl & Hf).
  assert (utxo v p = out_at c (Z.to_nat (n p))) as Hu by (unfold utxo; rewrite <- Hl; apply out_at_live).
  rewrite Hu. destruct (spend_input p c) as [[u c']|] eqn:Es.
  - destruct (out_at c (Z.to_nat (n p))) as [o|] eqn:Eo; [|rewrite spend_input_spec, Eo in Es; done].
    destruct Hf as (v' & E & Hok' & Hcont & Hbelow). exists u, v'. split; [done|]. split; [done|]. split_and!; try done.
    + intros [_ Hwf]. split; [done|]. intros k x. rewrite Hcont. case_decide; [|apply Hwf]. intros Hx. unfold live in Hx. destruct (IsPruned _); [done|]. injection Hx as <-.
      apply (spend_wf p c u c'); [|done]. apply (Hwf (hash p) c). rewrite <- Hl. by eapply spend_live.
    + intros q Hq. unfold utxo. rewrite Hcont. destruct (decide (hash q = hash p)) as [Eh|Nh].
      * rewrite out_at_live, out_at_Cleanup, (spend_out_at _ _ _ _ _ Es), Eh, <- Hl, out_at_live. destruct (decide (q = p)) as [->|Nq]; [by rewrite decide_True|].
        rewrite decide_False; [done|]. intros En. apply Nq. destruct p, q. cbn in *. f_equal; [done|lia].
      * rewrite decide_False; [done|congruence].
    + intros k Hk. by rewrite Hcont, decide_False.
  - rewrite spend_input_spec in Es. by destruct (out_at c (Z.to_nat (n p))).
Qed.

(** Spending all inputs succeeds exactly when they are distinct and available. *)
Lemma spend_all l v : store_ok v -> Forall (fun p => 0 <= n p) l ->
  match spend_inputs v l with
  | None => ~ (NoDup l /\ Forall (fun p => is_Some (utxo v p)) l)
  | Some (us, v') => NoDup l /\ Forall (fun p => is_Some (utxo v p)) l /\ length us = length l /\ store_ok v' /\ (store_wf v -> store_wf v') /\
      (forall q, 0 <= n q -> utxo v' q = if decide (q ∈ l) then None else utxo v q) /\
      (forall k, k ∉ (hash <$> l) -> store_content v' k = store_content v k) /\ (forall k, store_below v' k = store_below v k)
  end.
Proof.
  revert v. induction l as [|p l IH]; intros v Hok Hl; cbn [spend_inputs].
  { split_and!; try done. constructor. }
  apply Forall_cons in Hl as [Hp Hl]. pose proof (spend_one v p Hok Hp) as H1. destruct (utxo v p) as [o|] eqn:Ep.
  - destruct H1 as (u & v1 & -> & Hok1 & Hwf1 & Hu1 & Hc1 & Hb1). cbn [mbind option_bind]. specialize (IH v1 Hok1 Hl).
    assert (forall q, q ∈ l -> 0 <= n q) as Hpos by (rewrite Forall_forall in Hl; done).
    destruct (spend_inputs v1 l) as [[us v']|]; cbn [mbind option_bind].
    + destruct IH as (Hnd & Hav & Hlen & Hok' & Hwf & Hu & Hc & Hb).
      assert (p ∉ l) as Hin. { intros Hin. rewrite Forall_forall in Hav. destruct (Hav p Hin) as [x Hx]. by rewrite Hu1, decide_True in Hx. }
      assert (forall q, q ∈ l -> q <> p) as Hne by (intros q Hq ->; done).
      split_and!; try done.
      * by constructor.
      * constructor; [by exists o|]. apply Forall_forall. intros q Hq. rewrite Forall_forall in Hav. specialize (Hav q Hq). rewrite Hu1, decide_False in Hav; auto.
      * cbn. by rewrite Hlen.
      * auto.
      * intros q Hq. rewrite Hu, Hu1 by done. destruct (decide (q ∈ l)) as [Hql|Hql]; [by rewrite decide_True by (by right)|]. destruct (decide (q = p)) as [->|Hqp]; [by rewrite decide_True by (by left)|].
        rewrite decide_False; [done|]. rewrite elem_of_cons. by intros [?|?].
      * intros k. rewrite fmap_cons, elem_of_cons. intros Hk. rewrite Hc, Hc1; [done| |]; intros ?; apply Hk; [by left|by right].
      * intros k. by rewrite Hb, Hb1.
    + intros [Hnd Hav]. apply IH. apply NoDup_cons in Hnd as [Hin Hnd]. split; [done|]. apply Forall_forall. intros q Hq. apply Forall_cons in Hav as [_ Hav]. rewrite Forall_forall in Hav.
      rewrite Hu1, decide_False; [by apply Hav|by intros ->|by apply Hpos].
  - rewrite H1. cbn [mbind option_bind]. intros [_ Hav]. apply Forall_cons in Hav as [[x Hx] _]. congruence.
Qed.

(** Spending creates no coins. *)
Lemma spend_none l v us v1 k : store_ok v -> Forall (fun p => 0 <= n p) l -> spend_inputs v l = Some (us, v1) -> store_content v k = None -> store_content v1 k = None.
Proof.
  intros Hok Hl E Hk. pose proof (spend_all l v Hok Hl) as Ha. rewrite E in Ha. destruct Ha as (_ & Hav & _ & _ & _ & _ & Hc1 & _). rewrite Hc1; [done|].
  intros Hin. apply list_elem_of_fmap in Hin as (p & -> & Hin). rewrite Forall_forall in Hav. destruct (Hav p Hin) as [o Ho]. unfold utxo in Ho. by rewrite Hk in Ho.
Qed.

(** The coins that undoing gives back, from those that were there [before] and those
    that are there [now]: the coins from before, with the flag of coinstakes of the
    present ones, or without it when all were spent. *)
Definition restored (now before : option CCoins.t) : option CCoins.t :=
  with_stake (match now with Some c => fCoinStake c | None => false end) <$> before.

Lemma restored_strip now before : strip <$> restored now before = strip <$> before.
Proof. unfold restored. by destruct before. Qed.

(** Undoing nothing. *)
Lemma restored_same now before : strip <$> now = strip <$> before -> restored now before = now.
Proof. unfold restored. destruct now as [[]|], before as [[]|]; try done. cbn. unfold strip, with_stake. cbn. intros E. by injection E as -> -> -> ->. Qed.

(** Restoring the inputs in reverse order, in any view with the content that spending
    them left, up to the flag of coinstakes. *)
Lemma spend_restore l v us v1 v2 : store_wf v -> Forall (fun p => 0 <= n p) l -> spend_inputs v l = Some (us, v1) ->
  store_ok v2 -> (forall k, strip <$> store_content v2 k = strip <$> store_content v1 k) ->
  exists v3, restore_inputs v2 (zip l us) = Some (true, v3) /\ store_ok v3 /\ (forall k, store_content v3 k = restored (store_content v2 k) (store_content v k)) /\
    (forall k, store_below v3 k = store_below v2 k).
Proof.
  revert v us. induction l as [|p l IH]; intros v us Hwf Hl E Hok2 Hc2; cbn [spend_inputs] in E.
  { injection E as <- <-. exists v2. split_and!; try done. intros k. by rewrite restored_same. }
  apply Forall_cons in Hl as [Hp Hl]. destruct (store_modify v (hash p) (spend_input p)) as [[u va]|] eqn:Em; [|done]. cbn [mbind option_bind] in E.
  destruct (spend_inputs va l) as [[us' vb]|] eqn:Er; [|done]. cbn [mbind option_bind] in E. injection E as <- ->.
  destruct (modify_Some _ _ _ _ _ (proj1 Hwf) Em) as (c & c' & Hc & Hlive & Es & Hoka & Hca & Hba).
  assert (store_wf va) as Hwfa.
  { pose proof (spend_one v p (proj1 Hwf) Hp) as H1. rewrite Em in H1. destruct (utxo v p); [|done]. destruct H1 as (? & ? & [= <- <-] & _ & Hw & _). by apply Hw. }
  destruct (IH va us' Hwfa Hl Er Hok2 Hc2) as (v3 & E3 & Hok3 & Hc3 & Hb3). cbn [zip zip_with restore_inputs]. fold (zip l us'). rewrite E3. cbn [mbind option_bind]. unfold ApplyTxInUndo.
  destruct (store_modify_law v3 (hash p) (apply_undo u p) Hok3) as (c2 & Hcl2 & Hl2 & Hf).
  assert (coin_wf c) as Hcw by (apply (proj2 Hwf (hash p) c); rewrite <- Hlive; by eapply spend_live).
  destruct (spend_undo p c u c' c2 Hc Hcw (spend_position _ _ _ _ Hcw Hp Es) Es Hcl2) as (c3 & Ea & Hl3).
  { by rewrite Hl2, Hc3, restored_strip, Hca, decide_True. }
  rewrite Ea in Hf. destruct Hf as (v4 & -> & Hok4 & Hc4 & Hb4). cbn [mbind option_bind]. exists v4. split_and!; [done|done| |].
  - intros k. rewrite Hc4. case_decide as Hk; [subst k; rewrite Hl3, Hlive, Hl2, Hc3|by rewrite Hc3, Hca, decide_False].
    unfold restored. f_equal. f_equal. destruct (store_content va (hash p)) as [x|] eqn:Ex; [done|]. cbn.
    pose proof (Hc2 (hash p)) as H2. rewrite (spend_none l va us' v1 (hash p) Hoka Hl Er Ex) in H2. by destruct (store_content v2 (hash p)).
  - intros k. by rewrite Hb4, Hb3.
Qed.

(** ** Connecting a transaction *)

Definition inputs_ok (v : V) (tx : CTransaction) : Prop := IsCoinBase tx = true \/ (NoDup (vin tx) /\ Forall (fun p => is_Some (utxo v p)) (vin tx)).

Lemma update_coins v tx height : store_ok v -> tx_wf tx -> (IsCoinBase tx = false -> store_below v (txid tx) = None) ->
  match UpdateCoins tx v height with
  | None => ~ inputs_ok v tx
  | Some (undo, v') => inputs_ok v tx /\ store_ok v' /\
      (exists v1, (if IsCoinBase tx then Some ([], v) else spend_inputs v (vin tx)) = Some (undo, v1) /\ store_update v1 v' (txid tx) (live (coins_of tx height))) /\
      (forall k, store_below v' k = store_below v k)
  end.
Proof.
  intros Hok (Hin & _) Hb. unfold UpdateCoins, inputs_ok.
  assert (exists r, (if IsCoinBase tx then Some ([], v) else spend_inputs v (vin tx)) = r /\
    match r with
    | None => ~ inputs_ok v tx
    | Some (_, v1) => inputs_ok v tx /\ store_ok v1 /\ forall k, store_below v1 k = store_below v k
    end) as (r & Er & Hr).
  { eexists. split; [done|]. unfold inputs_ok. destruct (IsCoinBase tx); [by split; [left|]|]. pose proof (spend_all (vin tx) v Hok) as Ha.
    destruct (spend_inputs v (vin tx)) as [[us v1]|].
    - destruct Ha as (? & ? & ? & ? & ? & ? & ? & ?); [eapply Forall_impl; [exact Hin|]; cbn; lia|]. split; [by right|done].
    - intros [?|?]; [done|]. apply Ha; [eapply Forall_impl; [exact Hin|]; cbn; lia|done]. }
  rewrite Er. destruct r as [[undo v1]|]; [|done]. cbn [mbind option_bind]. destruct Hr as (Hio & Hok1 & Hb1).
  destruct (store_modify_new_law v1 (txid tx) (IsCoinBase tx) (fun _ => Some (tt, coins_of tx height)) Hok1) as (v2 & -> & Hu); [intros Hcb; rewrite Hb1; by apply Hb|].
  cbn [mbind option_bind]. split; [done|]. rewrite coins_of_clean in Hu. split; [by apply Hu|]. split; [by exists v1|]. intros k. rewrite <- Hb1. by apply Hu.
Qed.

(** ** Disconnecting it *)

(** The transaction is new: neither the view nor the one below has coins of it. *)
Definition fresh_tx (v : V) (tx : CTransaction) : Prop := store_content v (txid tx) = None /\ store_below v (txid tx) = None.

Lemma disconnect_connect v tx height undo v' v2 : store_wf v -> tx_wf tx -> fresh_tx v tx ->
  UpdateCoins tx v height = Some (undo, v') -> store_ok v2 -> (forall k, strip <$> store_content v2 k = strip <$> store_content v' k) ->
  exists v3, disconnect_tx tx undo (IsCoinBase tx) v2 height = Some (Some true, v3) /\ store_ok v3 /\
    (forall k, store_content v3 k = restored (store_content v2 k) (store_content v k)) /\
    (forall k, store_below v3 k = store_below v2 k).
Proof.
  intros [Hok Hwf] Htx [Hnew Hbelow] E Hok2 Hc2. pose proof (update_coins v tx height Hok Htx (fun _ => Hbelow)) as Hu. rewrite E in Hu.
  destruct Hu as (_ & Hok' & (v1 & E1 & (_ & Hc' & _)) & Hb'). unfold disconnect_tx.
  destruct (store_modify_law v2 (txid tx) (remove_outputs tx height) Hok2) as (c & Hcl & Hl & Hf).
  rewrite (remove_outputs_ok tx height c Hcl) in Hf by (by rewrite Hl, Hc2, Hc', decide_True). destruct Hf as (va & -> & Hoka & Hca & Hba). cbn [mbind option_bind].
  assert (store_content v1 (txid tx) = None -> forall k, strip <$> store_content va k = strip <$> store_content v1 k) as Hva.
  { intros Hn k. rewrite Hca. case_decide as Hk; [subst k; by rewrite Hn|]. by rewrite Hc2, Hc', decide_False. }
  assert (forall k, restored (store_content va k) (store_content v k) = restored (store_content v2 k) (store_content v k)) as Hres.
  { intros k. rewrite Hca. case_decide as Hk; [subst k; by rewrite Hnew|done]. }
  destruct (IsCoinBase tx).
  - injection E1 as <- <-. exists va. split; [done|]. split; [done|]. split; [|done]. intros k. by rewrite <- Hres, restored_same by (by apply Hva).
  - assert (Forall (fun p => 0 <= n p) (vin tx)) as Hpos by (eapply Forall_impl; [apply Htx|cbn; lia]).
    pose proof (spend_all (vin tx) v Hok Hpos) as Ha. rewrite E1 in Ha. destruct Ha as (_ & _ & Hlen & _). rewrite Hlen, Nat.eqb_refl. cbn [negb].
    destruct (spend_restore (vin tx) v undo v1 va (conj Hok Hwf) Hpos E1 Hoka) as (v3 & -> & Hok3 & Hc3 & Hb3).
    { apply Hva. by apply (spend_none (vin tx) v undo). }
    cbn [mbind option_bind]. exists v3. split; [done|]. split; [done|]. split; intros k; [by rewrite Hc3|by rewrite Hb3, Hba].
Qed.

(** Connecting keeps the views well formed. *)
Lemma update_wf v tx height undo v' : store_wf v -> tx_wf tx -> height <> 0 -> (IsCoinBase tx = false -> store_below v (txid tx) = None) ->
  UpdateCoins tx v height = Some (undo, v') ->
  store_wf v' /\ (forall k, store_below v' k = store_below v k) /\ (forall k, k <> txid tx -> store_content v k = None -> store_content v' k = None).
Proof.
  intros [Hok Hwf] Htx Hh Hb E. pose proof (update_coins v tx height Hok Htx Hb) as Hu. rewrite E in Hu. destruct Hu as (Hio & Hok' & (v1 & E1 & (_ & Hc' & _)) & Hb').
  assert (store_wf v1 /\ forall k, store_content v k = None -> store_content v1 k = None) as [[_ Hwf1] Hn1].
  { destruct (IsCoinBase tx) eqn:Ecb; [by injection E1 as <- <-|]. assert (Forall (fun p => 0 <= n p) (vin tx)) as Hpos by (eapply Forall_impl; [apply Htx|cbn; lia]).
    pose proof (spend_all (vin tx) v Hok Hpos) as Ha. rewrite E1 in Ha. destruct Ha as (_ & _ & _ & Hok1 & Hw & _). split; [by apply Hw|].
    intros k. by apply (spend_none (vin tx) v undo). }
  split; [split; [done|]|split; [done|]].
  - intros k c. rewrite Hc'. case_decide; [|apply Hwf1]. unfold live. destruct (IsPruned _); [done|]. intros [= <-]. by apply (coins_of_wf tx height).
  - intros k Hk Hn. rewrite Hc', decide_False by done. by apply Hn1.
Qed.

(** ** Blocks *)

Record block_ok (v : V) (vtx : list CTransaction) : Prop := {
  bo_first : match vtx with tx :: txs => IsCoinBase tx = true /\ Forall (fun tx => IsCoinBase tx = false) txs | [] => False end;
  bo_wf : Forall tx_wf vtx;
  bo_distinct : NoDup (txid <$> vtx);
  bo_fresh : Forall (fresh_tx v) vtx
}.

Lemma fresh_after v tx height undo v' txs : store_wf v -> tx_wf tx -> height <> 0 -> fresh_tx v tx -> UpdateCoins tx v height = Some (undo, v') ->
  txid tx ∉ (txid <$> txs) -> Forall (fresh_tx v) txs -> store_wf v' /\ Forall (fresh_tx v') txs.
Proof.
  intros Hwf Htx Hh [_ Hb] E Hnin Hf. destruct (update_wf v tx height undo v' Hwf Htx Hh (fun _ => Hb) E) as (Hwf' & Hbelow & Hnone). split; [done|].
  apply Forall_forall. intros t Ht. rewrite Forall_forall in Hf. destruct (Hf t Ht) as [H1 H2]. split; [|by rewrite Hbelow].
  apply Hnone; [|done]. intros Et. apply Hnin. rewrite <- Et. by apply list_elem_of_fmap_2.
Qed.

(** Coins that are gone before the rest of a block stay gone. *)
Lemma connect_txs_none txs v height undos v' k : store_wf v -> height <> 0 -> Forall tx_wf txs -> NoDup (txid <$> txs) -> Forall (fresh_tx v) txs ->
  connect_txs v txs height = Some (undos, v') -> k ∉ (txid <$> txs) -> store_content v k = None -> store_content v' k = None.
Proof.
  revert v undos. induction txs as [|tx txs IH]; intros v undos Hwf Hh Htx Hnd Hf E Hk Hn; cbn [connect_txs] in E; [by injection E as <- <-|].
  pose proof Hf as Hf0. apply Forall_cons in Htx as [Htx1 Htx], Hf as [Hf1 Hf]. rewrite fmap_cons in Hnd, Hk. apply NoDup_cons in Hnd as [Hnin Hnd]. apply not_elem_of_cons in Hk as [Hk1 Hk].
  destruct (UpdateCoins tx v height) as [[undo va]|] eqn:Eu; [|done]. cbn [mbind option_bind] in E.
  destruct (connect_txs va txs height) as [[undos' vb]|] eqn:Er; [|done]. cbn [mbind option_bind] in E. injection E as <- ->.
  destruct (fresh_after v tx height undo va txs Hwf Htx1 Hh Hf1 Eu Hnin Hf) as [Hwfa Hfa]. apply (IH va undos'); try done.
  by apply (update_wf v tx height undo va Hwf Htx1 Hh (fun _ => proj2 Hf1) Eu).
Qed.

(** Undoing a transaction after those behind it. *)
Lemma restored_twice v va v2 v3 v' (txs : list CTransaction) : Forall (fresh_tx v) txs ->
  (forall k, k ∉ (txid <$> txs) -> store_content va k = None -> store_content v' k = None) ->
  (forall k, strip <$> store_content v2 k = strip <$> store_content v' k) ->
  (forall k, store_content v3 k = restored (store_content v2 k) (store_content va k)) ->
  forall k, restored (store_content v3 k) (store_content v k) = restored (store_content v2 k) (store_content v k).
Proof.
  intros Hf Hnone Hc2 Hc3 k. rewrite Hc3. unfold restored. destruct (store_content v k) as [c|] eqn:Ev; [|done]. do 2 f_equal.
  destruct (store_content va k) as [x|] eqn:Ea; [done|]. cbn. specialize (Hc2 k). rewrite (Hnone k) in Hc2; [by destruct (store_content v2 k)| |done].
  intros Hin. apply list_elem_of_fmap in Hin as (t & -> & Hin). rewrite Forall_forall in Hf. destruct (Hf t Hin). congruence.
Qed.

Lemma disconnect_connect_txs txs v height undos v' v2 : store_wf v -> height <> 0 -> Forall (fun tx => IsCoinBase tx = false) txs -> Forall tx_wf txs ->
  NoDup (txid <$> txs) -> Forall (fresh_tx v) txs -> connect_txs v txs height = Some (undos, v') -> store_ok v2 ->
  (forall k, strip <$> store_content v2 k = strip <$> store_content v' k) ->
  length undos = length txs /\
  exists v3, disconnect_txs v2 (zip txs undos) height = Some (Some true, v3) /\ store_ok v3 /\
    (forall k, store_content v3 k = restored (store_content v2 k) (store_content v k)) /\ (forall k, store_below v3 k = store_below v2 k).
Proof.
  revert v undos. induction txs as [|tx txs IH]; intros v undos Hwf Hh Hcb Htx Hnd Hf E Hok2 Hc2; cbn [connect_txs] in E.
  { injection E as <- <-. split; [done|]. exists v2. split_and!; try done. intros k. by rewrite restored_same. }
  apply Forall_cons in Hcb as [Hcb1 Hcb], Htx as [Htx1 Htx], Hf as [Hf1 Hf]. rewrite fmap_cons in Hnd. apply NoDup_cons in Hnd as [Hnin Hnd].
  destruct (UpdateCoins tx v height) as [[undo va]|] eqn:Eu; [|done]. cbn [mbind option_bind] in E.
  destruct (connect_txs va txs height) as [[undos' vb]|] eqn:Er; [|done]. cbn [mbind option_bind] in E. injection E as <- ->.
  destruct (fresh_after v tx height undo va txs Hwf Htx1 Hh Hf1 Eu Hnin Hf) as [Hwfa Hfa].
  destruct (IH va undos' Hwfa Hh Hcb Htx Hnd Hfa Er Hok2 Hc2) as (Hlen & v3 & E3 & Hok3 & Hc3 & Hb3). split; [cbn; by rewrite Hlen|].
  cbn [zip zip_with disconnect_txs]. fold (zip txs undos'). rewrite E3. cbn [mbind option_bind].
  destruct (disconnect_connect v tx height undo va v3 Hwf Htx1 Hf1 Eu Hok3) as (v4 & E4 & Hok4 & Hc4 & Hb4); [intros k; by rewrite Hc3, restored_strip|].
  rewrite Hcb1 in E4. rewrite E4. cbn [mbind option_bind]. exists v4. split_and!; try done; [|intros k; by rewrite Hb4, Hb3].
  intros k. rewrite Hc4. apply (restored_twice v va v2 v3 v' txs Hf); try done. intros j Hj Hn. by apply (connect_txs_none txs va height undos' v' j).
Qed.

Lemma connect_txs_wf txs v height undos v' : store_wf v -> height <> 0 -> Forall tx_wf txs -> NoDup (txid <$> txs) -> Forall (fresh_tx v) txs ->
  connect_txs v txs height = Some (undos, v') -> store_wf v'.
Proof.
  revert v undos. induction txs as [|tx txs IH]; intros v undos Hwf Hh Htx Hnd Hf E; cbn [connect_txs] in E; [by injection E as <- <-|].
  apply Forall_cons in Htx as [Htx1 Htx], Hf as [Hf1 Hf]. rewrite fmap_cons in Hnd. apply NoDup_cons in Hnd as [Hnin Hnd].
  destruct (UpdateCoins tx v height) as [[undo va]|] eqn:Eu; [|done]. cbn [mbind option_bind] in E.
  destruct (connect_txs va txs height) as [[undos' vb]|] eqn:Er; [|done]. cbn [mbind option_bind] in E. injection E as <- ->.
  destruct (fresh_after v tx height undo va txs Hwf Htx1 Hh Hf1 Eu Hnin Hf) as [Hwfa Hfa]. by apply (IH va undos').
Qed.

(** [HaveInputs] looks at every input. *)
Lemma have_all l v : store_ok v -> let '(have, v') := have_prevouts v l in store_ok v' /\ same v v' /\ (have = true <-> Forall (fun p => is_Some (utxo v p)) l).
Proof.
  revert v. induction l as [|p l IH]; intros v Hok; cbn [have_prevouts]; [done|]. pose proof (store_access_law v (hash p) Hok) as Ha.
  destruct (store_access v (hash p)) as [r v1]. destruct Ha as (Hok1 & Hc1 & Hb1 & Hr & _). assert (forall q, utxo v1 q = utxo v q) as Hu by (intros q; unfold utxo; by rewrite Hc1).
  assert (utxo v p = r ≫= fun c => out_at c (Z.to_nat (n p))) as Hp by (unfold utxo; rewrite <- Hr; destruct r as [c|]; [apply out_at_live|done]).
  destruct r as [c|]; cbn [mbind option_bind] in *.
  - rewrite out_at_available, <- Hp. case_bool_decide as Hs; [|split_and!; try done; rewrite Forall_cons; by split; [|intros [? _]]].
    specialize (IH v1 Hok1). destruct (have_prevouts v1 l) as [have v2]. destruct IH as (H2 & [H3 H4] & H5). split; [done|].
    split; [split; intros k; [by rewrite H3|by rewrite H4]|]. rewrite H5, Forall_cons, !Forall_forall. setoid_rewrite Hu. by split; [|intros [_ ?]].
  - split_and!; try done. rewrite Forall_cons, Hp. by split; [|intros [[? ?] _]].
Qed.

End Laws.

(** C12. [UpdateCoins] runs into its assertion exactly when the inputs of the
    transaction are not distinct or not all unspent; otherwise, in the view it leaves,
    the inputs are spent, the spendable outputs of the transaction are unspent, and
    every other output is as before.  [HaveInputs] tells whether all inputs are
    unspent.  For every implementation of the interface of a view. *)
Theorem no_double_spend {V} `{CoinsStoreLaws V} (v : V) (tx : CTransaction) (height : Z) :
  store_ok v -> tx_wf tx -> store_below v (txid tx) = None -> store_content v (txid tx) = None ->
  (let '(have, v') := HaveInputs v tx in
   store_ok v' /\ same v v' /\ (have = true <-> IsCoinBase tx = true \/ Forall (fun p => is_Some (utxo v p)) (vin tx))) /\
  match UpdateCoins tx v height with
  | None => ~ inputs_ok v tx
  | Some (undo, v') => inputs_ok v tx /\ store_ok v' /\
      forall p, 0 <= n p -> utxo v' p =
        if decide (hash p = txid tx) then spendable tx (Z.to_nat (n p))
        else if IsCoinBase tx then utxo v p else if decide (p ∈ vin tx) then None else utxo v p
  end.
Proof.
  intros Hok Htx Hb Hc. split.
  - unfold HaveInputs. destruct (IsCoinBase tx); [split; [done|]; split; [done|]; by split; [left|]|].
    pose proof (have_all (vin tx) v Hok) as Hl. destruct (have_prevouts v (vin tx)) as [have v']. destruct Hl as (H1 & H2 & H3). split_and!; try done. rewrite H3. split; [by right|by intros [?|?]].
  - pose proof (update_coins v tx height Hok Htx (fun _ => Hb)) as Hu. destruct (UpdateCoins tx v height) as [[undo v']|]; [|done].
    destruct Hu as (Hio & Hok' & (v1 & E1 & (_ & Hc' & _)) & _). split_and!; try done. intros p Hp. unfold utxo at 1. rewrite Hc'. case_decide as Hh; [rewrite out_at_live; apply coins_of_outs|].
    fold (utxo v1 p). destruct (IsCoinBase tx); [by injection E1 as <- <-|]. pose proof (spend_all (vin tx) v Hok) as Ha. rewrite E1 in Ha.
    destruct Ha as (_ & _ & _ & _ & _ & Hu & _); [eapply Forall_impl; [apply Htx|cbn; lia]|]. by apply Hu.
Qed.

(** C11. Disconnecting a block takes back what connecting it did: when the
    transactions of a block were applied with [UpdateCoins], the checks of
    [DisconnectBlock] pass in any view with the resulting coins, up to their coinstake
    flags (for instance after it was flushed to another cache), and the view it leaves has the same
    coins for every transaction as before the block, up to these flags.  The flag of
    the restored coins is the one that the disconnected view still has for the
    transaction, and cleared when the block had spent its last output. *)
Theorem disconnect_block_inverts {V} `{CoinsStoreLaws V} (v v' v2 : V) (vtx : list CTransaction) (vtxundo : list (list CTxInUndo)) (height : Z) :
  store_wf v -> height <> 0 -> block_ok v vtx -> connect_block v vtx height = Some (vtxundo, v') ->
  store_ok v2 -> (forall k, strip <$> store_content v2 k = strip <$> store_content v' k) ->
  exists v3, disconnect_block v2 vtx vtxundo height = Some (Some true, v3) /\ store_ok v3 /\
    (forall k, strip <$> store_content v3 k = strip <$> store_content v k) /\
    (forall k, store_content v3 k = restored (store_content v2 k) (store_content v k)).
Proof.
  intros Hwf Hh [Hfirst Htx Hnd Hf] E Hok2 Hc2. destruct vtx as [|tx txs]; [done|]. destruct Hfirst as [Hcb Hncb]. cbn [connect_block] in E.
  apply Forall_cons in Htx as [Htx1 Htx], Hf as [Hf1 Hf]. rewrite fmap_cons in Hnd. apply NoDup_cons in Hnd as [Hnin Hnd].
  destruct (UpdateCoins tx v height) as [[undo va]|] eqn:Eu; [|done]. cbn [mbind option_bind] in E.
  destruct (fresh_after v tx height undo va txs Hwf Htx1 Hh Hf1 Eu Hnin Hf) as [Hwfa Hfa].
  destruct (disconnect_connect_txs txs va height vtxundo v' v2 Hwfa Hh Hncb Htx Hnd Hfa E Hok2 Hc2) as (Hlen & v3 & E3 & Hok3 & Hc3 & _).
  destruct (disconnect_connect v tx height undo va v3 Hwf Htx1 Hf1 Eu Hok3) as (v4 & E4 & Hok4 & Hc4 & _); [intros k; by rewrite Hc3, restored_strip|].
  unfold disconnect_block. cbn [length]. rewrite Hlen, Nat.add_1_r, Nat.eqb_refl. cbn [negb]. rewrite E3. cbn [mbind option_bind].
  assert (disconnect_tx tx [] true v3 height = Some (Some true, v4)) as -> by (rewrite Hcb in E4; exact E4). exists v4. cbn [mbind option_bind option_map andb]. split; [done|]. split; [done|].
  split; intros k; rewrite Hc4; [by rewrite restored_strip|]. apply (restored_twice v va v2 v3 v' txs Hf); try done. intros j Hj Hn. by apply (connect_txs_none txs va height vtxundo v' j).
Qed.

(** *** Example: a block on the view of [CoinsView] *)

Definition demo_transaction (i : Z) (prevs : list COutPoint) (outs : list CTxOut.t) : CTransaction := {|
  txid := demo_txid i;
  tx_of := {| tx_nVersion := 1; tx_nTime := 1600000000; tx_vin := (fun p => {| prevout := p; scriptSig := [1; 1]; nSequence := 2 ^ 32 - 1 |}) <$> prevs;
              tx_vout := outs; tx_wit := []; tx_nLockTime := 0; tx_strDZeel := [] |} |}.
Definition demo_coinbase : CTransaction := demo_transaction 8 [{| hash := uint256_null; n := 2 ^ 32 - 1 |}] [demo_out 50].
Definition demo_spend : CTransaction := demo_transaction 9 [{| hash := demo_txid 3; n := 0 |}; {| hash := demo_txid 2; n := 1 |}] [demo_out 40; demo_out 5].
Definition demo_connected : list (list CTxInUndo) * CoinsView := default ([], demo_view) (connect_block demo_view [demo_coinbase; demo_spend] 9).
Definition demo_flushed : CoinsView := default demo_view (Flush demo_connected.2).

(** Deciding a property of the elements of a concrete list. *)
Ltac each := repeat match goal with |- Forall _ [] => constructor | |- Forall _ (_ :: _) => apply Forall_cons | |- _ /\ _ => split | |- tx_wf _ => split; [cbn|split; cbn] | |- fresh_tx _ _ => split end; try done.

Lemma demo_wf : store_wf demo_view.
Proof.
  split; [split; [apply demo_view_ok|done]|]. intros k c. cbn [store_content CoinsView_store content demo_view].
  destruct (_ !! k) as [e|] eqn:E1; [apply lookup_singleton_Some in E1 as [<- <-]; intros [= <-]; split; [done|]; cbn; each|].
  destruct (_ !! k) as [e|] eqn:E2 in |- *; [apply lookup_singleton_Some in E2 as [<- <-]; done|].
  destruct (_ !! k) as [x|] eqn:E3 in |- *; [|done]. rewrite lookup_insert_Some, lookup_singleton_Some in E3. destruct E3 as [[<- <-]|[_ [<- <-]]]; (intros [= <-]; split; [done|]; cbn; each).
Qed.

Lemma demo_block_ok : block_ok demo_view [demo_coinbase; demo_spend].
Proof. split; [cbn; each|each|apply (bool_decide_unpack _); by vm_compute|each]. Qed.

Lemma demo_flushed_ok : store_ok demo_flushed /\ forall k, strip <$> store_content demo_flushed k = strip <$> store_content demo_connected.2 k.
Proof.
  assert (store_wf demo_connected.2) as [Hok _].
  { destruct demo_block_ok as [_ Htx Hnd Hf]. apply (connect_txs_wf [demo_coinbase; demo_spend] demo_view 9 ([] :: demo_connected.1)); [apply demo_wf|done..|by vm_compute]. }
  destruct (Flush_spec demo_connected.2 (proj1 Hok) (proj2 Hok)) as (v' & E & Hok' & Hc). unfold demo_flushed. rewrite E. change (default demo_view (Some v')) with v'.
  split; [split; [done|]|]; [by destruct demo_connected as [? [|? ? []]]; [done|injection E as <-..]|].
  intros k. cbn [store_content CoinsView_store]. rewrite Hc. by destruct demo_connected as [? [|? ? []]] eqn:Ed; [done|vm_compute in Ed|].
Qed.

Lemma no_double_spend_witness : match UpdateCoins demo_spend demo_view 9 with
  | None => ~ inputs_ok demo_view demo_spend
  | Some (undo, v') => inputs_ok demo_view demo_spend /\ store_ok v' /\
      forall p, 0 <= n p -> utxo v' p =
        if decide (hash p = txid demo_spend) then spendable demo_spend (Z.to_nat (n p))
        else if IsCoinBase demo_spend then utxo demo_view p else if decide (p ∈ vin demo_spend) then None else utxo demo_view p
  end /\ is_Some (UpdateCoins demo_spend demo_view 9).
Proof.
  split; [|vm_compute; by eexists]. apply (no_double_spend demo_view demo_spend 9); [apply demo_wf|each|done|done].
Defined.

Lemma disconnect_block_inverts_witness :
  exists v3, disconnect_block demo_flushed [demo_coinbase; demo_spend] demo_connected.1 9 = Some (Some true, v3) /\ store_ok v3 /\
    (forall k, strip <$> store_content v3 k = strip <$> store_content demo_view k) /\
    (forall k, store_content v3 k = restored (store_content demo_flushed k) (store_content demo_view k)).
Proof.
  apply (disconnect_block_inverts demo_view demo_connected.2 demo_flushed [demo_coinbase; demo_spend] demo_connected.1 9 demo_wf);
    [done|apply demo_block_ok|by vm_compute|apply demo_flushed_ok|apply demo_flushed_ok].
Defined.
