(* ===== verification/TxCheck.v ===== *)
(** * main.cpp: the checks of a transaction

    [CheckTransaction] checks what does not depend on the chain, [CheckTxInputs] the
    inputs against a view of coins; both report to a [CValidationState].  A
    transaction that passes them can be connected: [UpdateCoins] of [Utxo] does not
    run into its assertion, and it does not create money.

    [None] is a failed assertion, an exception or the overflow of a signed integer.
    Messages for the log are left out. *)

From Stdlib Require Import ZArith Lia String.
From stdpp Require Import base tactics numbers list gmap.
From S2P Require Import Prelude SphTypes Blob Serialize Codec Compressor Coins CoinsView Transaction Utxo.
Import CCoins.
Open Scope string_scope.
Open Scope Z_scope.

(** ** consensus/validation.h *)

Inductive mode_state := MODE_VALID | MODE_INVALID | MODE_ERROR.

#[export] Instance mode_state_eq_dec : EqDecision mode_state.
Proof. solve_decision. Defined.

Record CValidationState := { mode : mode_state; nDoS : Z; strRejectReason : string; chRejectCode : Z; corruptionPossible : bool }.

Definition new_state : CValidationState := {| mode := MODE_VALID; nDoS := 0; strRejectReason := ""; chRejectCode := 0; corruptionPossible := false |}.

(** The state after [DoS]; the flag that it returns is given by its caller. *)
Definition DoS (level : Z) (code : Z) (reason : string) (st : CValidationState) : CValidationState :=
  if bool_decide (mode st = MODE_ERROR)
  then {| mode := MODE_ERROR; nDoS := nDoS st; strRejectReason := reason; chRejectCode := code; corruptionPossible := false |}
  else {| mode := MODE_INVALID; nDoS := nDoS st + level; strRejectReason := reason; chRejectCode := code; corruptionPossible := false |}.
Definition Invalid (code : Z) (reason : string) (st : CValidationState) : CValidationState := DoS 0 code reason st.
Definition Error (reason : string) (st : CValidationState) : CValidationState := {|
  mode := MODE_ERROR; nDoS := nDoS st; strRejectReason := if bool_decide (mode st = MODE_VALID) then reason else strRejectReason st;
  chRejectCode := chRejectCode st; corruptionPossible := corruptionPossible st |}.
Definition IsValid (st : CValidationState) : bool := bool_decide (mode st = MODE_VALID).
Definition IsInvalid (st : CValidationState) : bool := bool_decide (mode st = MODE_INVALID).
Definition IsError (st : CValidationState) : bool := bool_decide (mode st = MODE_ERROR).

Definition REJECT_INVALID : Z := 0x10.

(** ** Amounts *)

Definition MAX_MONEY : Z := 2 ^ 63 - 1.
Definition MoneyRange (nValue : Z) : bool := (0 <=? nValue) && (nValue <=? MAX_MONEY).

(** Addition of [int64_t]. *)
Definition add_amount (a b : Z) : option Z := let s := a + b in if (- 2 ^ 63 <=? s) && (s <? 2 ^ 63) then Some s else None.

(** ** CheckTransaction *)

Definition MAX_BLOCK_BASE_SIZE : Z := 2000000.

Fixpoint check_vout (special : bool) (l : list CTxOut.t) (nValueOut : Z) (st : CValidationState) : option (bool * CValidationState) :=
  match l with
  | [] => Some (true, st)
  | txout :: l =>
      if TxOut_IsEmpty txout && negb special then Some (false, DoS 100 0 "" st)
      else if CTxOut.nValue txout <? 0 then Some (false, DoS 100 REJECT_INVALID "bad-txns-vout-negative" st)
      else if MAX_MONEY <? CTxOut.nValue txout then Some (false, DoS 100 REJECT_INVALID "bad-txns-vout-toolarge" st)
      else
        nValueOut ← add_amount nValueOut (CTxOut.nValue txout);
        if negb (MoneyRange nValueOut) then Some (false, DoS 100 REJECT_INVALID "bad-txns-txouttotal-toolarge" st)
        else check_vout special l nValueOut st
  end.

(** Whether an input occurs again; [vInOutPoints] holds those before. *)
Fixpoint has_duplicate (vInOutPoints : list COutPoint) (l : list COutPoint) : bool :=
  match l with
  | [] => false
  | p :: l => if bool_decide (p ∈ vInOutPoints) then true else has_duplicate (p :: vInOutPoints) l
  end.

Definition CheckTransaction (tx : CTransaction) (st : CValidationState) : option (bool * CValidationState) :=
  if bool_decide (tx_vin tx = []) then Some (false, DoS 10 REJECT_INVALID "bad-txns-vin-empty" st)
  else if bool_decide (tx_vout tx = []) then Some (false, DoS 10 REJECT_INVALID "bad-txns-vout-empty" st)
  else
    bytes ← SerializeTransaction true tx;
    if MAX_BLOCK_BASE_SIZE <? Z.of_nat (length bytes) then Some (false, DoS 100 REJECT_INVALID "bad-txns-oversize" st)
    else
      '(ok, st) ← check_vout (IsCoinBase tx || IsCoinStake tx) (tx_vout tx) 0 st;
      if negb ok then Some (false, st)
      else if has_duplicate [] (vin tx) then Some (false, DoS 100 REJECT_INVALID "bad-txns-inputs-duplicate" st)
      else if IsCoinBase tx then
        match tx_vin tx with
        | i :: _ =>
            if (Z.of_nat (length (scriptSig i)) <? 2) || (100 <? Z.of_nat (length (scriptSig i)))
            then Some (false, DoS 100 REJECT_INVALID "bad-cb-length" st) else Some (true, st)
        | [] => None
        end
      else if existsb OutPoint_IsNull (vin tx) then Some (false, DoS 10 REJECT_INVALID "bad-txns-prevout-null" st)
      else Some (true, st).

(** ** CheckTxInputs *)

Fixpoint value_out (l : list CTxOut.t) (nValueOut : Z) : option Z :=
  match l with
  | [] => Some nValueOut
  | o :: l =>
      nValueOut ← add_amount nValueOut (CTxOut.nValue o);
      if negb (MoneyRange (CTxOut.nValue o)) || negb (MoneyRange nValueOut) then None else value_out l nValueOut
  end.
Definition GetValueOut (tx : CTransaction) : option Z := value_out (tx_vout tx) 0.

Section Inputs.
Context {V : Type} `{CoinsStore V}.

(** The height at which the inputs are spent, the maturity of generated coins and the
    option [-testnet], which waives it. *)
Variables (nSpendHeight nCoinbaseMaturity : Z) (testnet : bool).

(** The value of the inputs, or [None] in the result when one is refused. *)
Fixpoint check_vin (v : V) (l : list COutPoint) (nValueIn : Z) (st : CValidationState) : option (option Z * CValidationState * V) :=
  match l with
  | [] => Some (Some nValueIn, st, v)
  | p :: l =>
      match store_access v (hash p) with
      | (None, _) => None
      | (Some coins, v) =>
          let depth := nSpendHeight - nHeight coins in
          if (fCoinBase coins || fCoinStake coins) && negb testnet && ((depth <? nCoinbaseMaturity) && (0 <? depth))
          then Some (None, Invalid REJECT_INVALID "bad-txns-premature-spend-of-coinbase" st, v)
          else
            o ← vout coins !! Z.to_nat (n p);
            nValueIn ← add_amount nValueIn (CTxOut.nValue o);
            if negb (MoneyRange (CTxOut.nValue o)) || negb (MoneyRange nValueIn)
            then Some (None, DoS 100 REJECT_INVALID "bad-txns-inputvalues-outofrange" st, v)
            else check_vin v l nValueIn st
      end
  end.

Definition CheckTxInputs (tx : CTransaction) (st : CValidationState) (v : V) : option (bool * CValidationState * V) :=
  let '(have, v) := HaveInputs v tx in
  if negb have then Some (false, Invalid 0 "" st, v)
  else
    '(r, st, v) ← check_vin v (vin tx) 0 st;
    match r with
    | None => Some (false, st, v)
    | Some nValueIn =>
        if negb (IsCoinBase tx) && negb (IsCoinStake tx) then
          nValueOut ← GetValueOut tx;
          if nValueIn <? nValueOut then Some (false, DoS 100 REJECT_INVALID "bad-txns-in-belowout" st, v)
          else
            let nTxFee := nValueIn - nValueOut in
            if nTxFee <? 0 then Some (false, DoS 100 REJECT_INVALID "bad-txns-fee-negative" st, v)
            else if negb (MoneyRange nTxFee) then Some (false, DoS 100 REJECT_INVALID "bad-txns-fee-outofrange" st, v)
            else Some (true, st, v)
        else Some (true, st, v)
    end.

End Inputs.

(** ** What the checks establish *)

Definition total_out (l : list CTxOut.t) : Z := foldr (fun o s => CTxOut.nValue o + s) 0 l.
Definition total_in {V} `{CoinsStore V} (v : V) (l : list COutPoint) : Z :=
  foldr (fun p s => match utxo v p with Some o => CTxOut.nValue o | None => 0 end + s) 0 l.

Lemma add_amount_Some a b c : add_amount a b = Some c -> c = a + b.
Proof. unfold add_amount. destruct (_ && _); by intros [= <-]. Qed.

Lemma check_vout_true special l acc st st' : check_vout special l acc st = Some (true, st') -> st' = st /\ Forall (fun o => 0 <= CTxOut.nValue o) l.
Proof.
  revert acc. induction l as [|o l IH]; intros acc E; cbn [check_vout] in E; [by injection E as <-|].
  destruct (TxOut_IsEmpty o && negb special); [done|]. destruct (Z.ltb_spec (CTxOut.nValue o) 0); [done|]. destruct (MAX_MONEY <? CTxOut.nValue o); [done|].
  destruct (add_amount acc (CTxOut.nValue o)) as [a|]; [|done]. cbn [mbind option_bind] in E. destruct (negb (MoneyRange a)); [done|].
  destruct (IH a E) as [-> Hl]. split; [done|]. by constructor.
Qed.

Lemma no_duplicate seen l : has_duplicate seen l = false -> NoDup l /\ forall p, p ∈ l -> p ∉ seen.
Proof.
  revert seen. induction l as [|p l IH]; intros seen E; cbn [has_duplicate] in E; [split; [constructor|by intros p Hp%not_elem_of_nil]|].
  case_bool_decide as Hp; [done|]. destruct (IH _ E) as [Hnd Hs]. split.
  - constructor; [|done]. intros Hin. apply (Hs p Hin). by left.
  - intros q [->|Hq]%elem_of_cons; [done|]. intros Hin. apply (Hs q Hq). by right.
Qed.

Lemma value_out_total l acc r : value_out l acc = Some r -> r = acc + total_out l.
Proof.
  revert acc. induction l as [|o l IH]; intros acc E; cbn [value_out total_out foldr] in *; [injection E as <-; lia|].
  destruct (add_amount acc (CTxOut.nValue o)) as [a|] eqn:Ea; [|done]. cbn [mbind option_bind] in E. destruct (_ || _); [done|]. rewrite (IH a E), (add_amount_Some _ _ _ Ea). unfold total_out. lia.
Qed.

(** A serialised transaction has at least one byte for each output. *)
Lemma outs_bytes (l : list CTxOut.t) : (length l <= length (concat (TxOut_write <$> l)))%nat.
Proof.
  induction l as [|o l IH]; [done|]. rewrite fmap_cons. cbn [concat length]. unfold TxOut_write at 1, write_signed. rewrite !length_app, store_le_length. lia.
Qed.

Lemma outs_in_bytes tx bytes : SerializeTransaction true tx = Some bytes -> (length (tx_vout tx) <= length bytes)%nat.
Proof.
  unfold SerializeTransaction. destruct (_ <=? _)%nat; [|done]. intros E. apply Some_inj in E as <-. pose proof (outs_bytes (tx_vout tx)). unfold write_body, write_vec. rewrite !length_app. lia.
Qed.

Lemma CheckTransaction_true tx st st' : CheckTransaction tx st = Some (true, st') -> Forall (fun p => 0 <= n p < 2 ^ 32) (vin tx) ->
  st' = st /\ tx_wf tx /\ NoDup (vin tx).
Proof.
  unfold CheckTransaction. case_bool_decide; [done|]. case_bool_decide; [done|]. intros E Hr. destruct (SerializeTransaction true tx) as [bytes|] eqn:Es; [|done].
  cbn [mbind option_bind] in E. destruct (Z.ltb_spec MAX_BLOCK_BASE_SIZE (Z.of_nat (length bytes))) as [|Hb]; [done|]. destruct (check_vout _ _ _ _) as [[ok st0]|] eqn:Ec; [|done].
  cbn [mbind option_bind] in E. destruct ok; [|done]. cbn [negb] in E. destruct (check_vout_true _ _ _ _ _ Ec) as [-> Ho]. destruct (has_duplicate [] (vin tx)) eqn:Ed; [done|].
  destruct (no_duplicate _ _ Ed) as [Hnd _]. apply outs_in_bytes in Es. unfold MAX_BLOCK_BASE_SIZE in Hb. assert (st' = st) as ->.
  { destruct (IsCoinBase tx); [destruct (tx_vin tx); [done|]; destruct (_ || _)|destruct (existsb _ _)]; congruence. }
  split; [done|]. split; [|done]. split; [done|]. split; [done|lia].
Qed.

Section Checked.
Context {V : Type} `{CoinsStoreLaws V} (nSpendHeight nCoinbaseMaturity : Z) (testnet : bool).

(** Coins made by a coinbase or a coinstake, as far as the view knows. *)
Definition generated (c : CCoins.t) : Prop := fCoinBase c = true \/ fCoinStake c = true.

(** Generated coins are as deep as the maturity when the input spends them. *)
Definition mature (v : V) (p : COutPoint) : Prop :=
  forall c, store_content v (hash p) = Some c -> generated c -> nCoinbaseMaturity <= nSpendHeight - nHeight c.

(** The coins were made at the height of the spending transaction, or above. *)
Definition same_block (v : V) (p : COutPoint) : Prop :=
  exists c, store_content v (hash p) = Some c /\ nSpendHeight <= nHeight c.

Lemma same_utxo (v v' : V) p : same v v' -> utxo v' p = utxo v p.
Proof. intros [Hc _]. unfold utxo. by rewrite Hc. Qed.

Lemma same_trans (v1 v2 v3 : V) : same v1 v2 -> same v2 v3 -> same v1 v3.
Proof. intros [H1 H2] [H3 H4]. split; intros k; congruence. Qed.

Lemma check_vin_true (v v' : V) l acc st st' r : store_ok v -> check_vin nSpendHeight nCoinbaseMaturity testnet v l acc st = Some (Some r, st', v') ->
  st' = st /\ store_ok v' /\ same v v' /\ r = acc + total_in v l /\ (testnet = false -> Forall (fun p => mature v p \/ same_block v p) l).
Proof.
  revert v acc. induction l as [|p l IH]; intros v acc Hok E; cbn [check_vin] in E.
  { injection E as <- <- <-. cbn. split_and!; try done; lia. }
  pose proof (store_access_law v (hash p) Hok) as Ha. destruct (store_access v (hash p)) as [[c|] v1]; [|done]. destruct Ha as (Hok1 & Hc1 & Hb1 & Hl & _). cbn in Hl.
  destruct ((fCoinBase c || fCoinStake c) && negb testnet && _) eqn:Em; [done|]. destruct (vout c !! Z.to_nat (n p)) as [o|] eqn:Eo; [|done]. cbn [mbind option_bind] in E.
  destruct (add_amount acc (CTxOut.nValue o)) as [a|] eqn:Ea; [|done]. cbn [mbind option_bind] in E. destruct (negb (MoneyRange (CTxOut.nValue o)) || _) eqn:Er; [done|].
  apply orb_false_iff in Er as [Er _]. apply negb_false_iff, andb_prop in Er as [Er _]. apply Z.leb_le in Er.
  assert (utxo v p = Some o) as Hu.
  { unfold utxo. rewrite <- Hl, out_at_live. unfold out_at. rewrite Eo. unfold CTxOut.IsNull. by destruct (Z.eqb_spec (CTxOut.nValue o) (-1)); [lia|]. }
  pose proof Hu as Hu0. unfold utxo in Hu0. assert (same v v1) as Hs by done. destruct (IH v1 a Hok1 E) as (-> & Hok' & Hs' & -> & Hm). split; [done|]. split; [done|]. split; [by eapply same_trans|]. split.
  - cbn [total_in foldr]. rewrite Hu, (add_amount_Some _ _ _ Ea). assert (total_in v1 l = total_in v l) as ->; [|unfold total_in; lia].
    unfold total_in. clear -Hs. induction l as [|q l IH]; [done|]. cbn [foldr]. by rewrite IH, (same_utxo v v1).
  - intros Ht. constructor.
    + destruct (Z.le_gt_cases nSpendHeight (nHeight c)) as [Hh|Hh].
      * right. exists c. split; [|done]. rewrite <- Hl. unfold live. destruct (IsPruned c) eqn:Ep; [|done]. rewrite <- Hl in Hu0. unfold live in Hu0. by rewrite Ep in Hu0.
      * left. intros c0 Hc0 Hg. rewrite <- Hl in Hc0. unfold live in Hc0. destruct (IsPruned c); [done|]. injection Hc0 as <-.
        assert (fCoinBase c || fCoinStake c = true) as Hg' by (by apply orb_true_iff). rewrite Hg', Ht in Em. cbn in Em.
        apply andb_false_iff in Em as [Em|Em]; apply Z.ltb_ge in Em; lia.
    + specialize (Hm Ht). eapply Forall_impl; [exact Hm|]. intros q [Hq|(c0 & Hc0 & Hh)]; [left; intros c0 Hc0; apply Hq; by rewrite Hc1|right; exists c0; by rewrite <- Hc1].
Qed.

End Checked.

(** C16. A transaction other than a coinbase that passes [CheckTransaction] and
    [CheckTxInputs] can be connected: [UpdateCoins] does not run into its assertion,
    when the transaction is new to the view and to the one below.  Unless it is a
    coinstake the value of its outputs is at most that of its inputs.  Without the
    option -testnet, every input that spends coins which the view knows as made by a
    coinbase or a coinstake spends them at a depth of at least the maturity, except for
    coins made at the spending height itself (or above), which are not checked.  The
    checks do not change the view or the state that they report to. *)
Theorem checked_transaction_connects {V} `{CoinsStoreLaws V} (v v1 : V) (tx : CTransaction) (st st1 st2 st3 : CValidationState)
    (nSpendHeight nCoinbaseMaturity : Z) (testnet : bool) :
  store_ok v -> fresh_tx v tx -> Forall (fun p => 0 <= n p < 2 ^ 32) (vin tx) -> IsCoinBase tx = false ->
  CheckTransaction tx st = Some (true, st1) -> CheckTxInputs nSpendHeight nCoinbaseMaturity testnet tx st2 v = Some (true, st3, v1) ->
  st1 = st /\ st3 = st2 /\ same v v1 /\ is_Some (UpdateCoins tx v1 nSpendHeight) /\
  (IsCoinStake tx = false -> total_out (tx_vout tx) <= total_in v (vin tx)) /\
  (testnet = false -> Forall (fun p => mature nSpendHeight nCoinbaseMaturity v p \/ same_block nSpendHeight v p) (vin tx)).
Proof.
  intros Hok [Hfc Hfb] Hr Hcb E1 E2. destruct (CheckTransaction_true _ _ _ E1 Hr) as (-> & Hwf & Hnd). unfold CheckTxInputs, HaveInputs in E2. rewrite Hcb in E2. cbn [negb andb] in E2.
  pose proof (have_all (vin tx) v Hok) as Hh. destruct (have_prevouts v (vin tx)) as [have v0]. destruct Hh as (Hok0 & Hs0 & Hh). destruct have; [|done]. cbn [negb] in E2.
  apply proj1 in Hh. specialize (Hh eq_refl). destruct (check_vin _ _ _ _ _ _ _) as [[[r st'] v']|] eqn:Ev; [|done]. cbn [mbind option_bind] in E2. destruct r as [nIn|]; [|done].
  destruct (check_vin_true _ _ _ _ _ _ _ _ _ _ Hok0 Ev) as (-> & Hok' & Hs' & -> & Hm).
  assert (v1 = v' /\ st3 = st2 /\ (IsCoinStake tx = false -> total_out (tx_vout tx) <= total_in v0 (vin tx))) as (-> & -> & Hval).
  { destruct (IsCoinStake tx); [by injection E2 as <- <-|]. cbn [negb] in E2. destruct (GetValueOut tx) as [out|] eqn:Eo; [|done]. cbn [mbind option_bind] in E2.
    apply value_out_total in Eo. destruct (Z.ltb_spec (0 + total_in v0 (vin tx)) out); [done|]. destruct (_ <? 0); [done|]. destruct (negb (MoneyRange _)); [done|].
    injection E2 as <- <-. split_and!; try done. intros _. lia. }
  assert (same v v') as Hs by (by eapply same_trans). assert (total_in v0 (vin tx) = total_in v (vin tx)) as Ht.
  { unfold total_in. induction (vin tx) as [|q l IH]; [done|]. cbn [foldr]. rewrite (same_utxo v v0 q Hs0). f_equal. clear -Hs0. induction l as [|q l IH]; [done|]. cbn [foldr]. by rewrite IH, (same_utxo v v0). }
  split_and!; try done.
  - pose proof (update_coins v' tx nSpendHeight Hok' Hwf) as Hu. destruct (UpdateCoins tx v' nSpendHeight); [by eexists|exfalso]. apply Hu.
    + intros _. by rewrite (proj2 Hs).
    + right. split; [done|]. eapply Forall_impl; [exact Hh|]. intros p. by rewrite (same_utxo v v' p Hs).
  - intros Hcs. rewrite <- Ht. by apply Hval.
  - intros Htn. specialize (Hm Htn). eapply Forall_impl; [exact Hm|]. intros q [Hq|(c0 & Hc0 & Hd)]; [left; intros c0 Hc0; apply Hq; by rewrite (proj1 Hs0)|right; exists c0; by rewrite <- (proj1 Hs0)].
Qed.

(** *** Examples: coins of a coinbase and of a coinstake *)

(** The coins of a generating transaction made at height 5, in a cache over an empty
    database, and a transaction that spends them. *)
Definition demo_generated (coinbase coinstake : bool) : CCoins.t :=
  {| fCoinBase := coinbase; fCoinStake := coinstake; vout := [demo_out 30]; nHeight := 5; nVersion := 3 |}.
Definition demo_minted (coinbase coinstake : bool) : CoinsView :=
  CStateViewCache {[ demo_txid 3 := {| coins := demo_generated coinbase coinstake; DIRTY := true; FRESH := true |} ]} uint256_null (CStateViewDB ∅ uint256_null).
Definition demo_claim : CTransaction := demo_transaction 9 [{| hash := demo_txid 3; n := 0 |}] [demo_out 25].

(** Whether the inputs of the transaction pass at a height, with a maturity of 50. *)
Definition demo_passes (v : CoinsView) (height : Z) : option bool :=
  match CheckTxInputs height 50 false demo_claim new_state v with Some (ok, _, _) => Some ok | None => None end.

Lemma demo_minted_ok b s : store_ok (demo_minted b s).
Proof. split; [|done]. split; [by intros k c; rewrite lookup_empty|]. intros k e E. apply lookup_singleton_Some in E as [<- <-]. by destruct b, s. Qed.

Definition demo_checked : CoinsView := match CheckTxInputs 60 50 false demo_claim new_state (demo_minted true false) with Some (_, _, v) => v | None => demo_view end.

Lemma checked_transaction_connects_witness :
  is_Some (UpdateCoins demo_claim demo_checked 60) /\ total_out (tx_vout demo_claim) <= total_in (demo_minted true false) (vin demo_claim) /\
  Forall (fun p => mature 60 50 (demo_minted true false) p \/ same_block 60 (demo_minted true false) p) (vin demo_claim) /\ demo_passes (demo_minted true false) 54 = Some false.
Proof.
  destruct (checked_transaction_connects (demo_minted true false) demo_checked demo_claim new_state new_state new_state new_state 60 50 false) as (_ & _ & _ & Hu & Hv & Hm);
    [apply demo_minted_ok|done|cbn; each|done|by vm_compute|by vm_compute|]. split; [exact Hu|]. split; [by apply Hv|]. split; [by apply Hm|by vm_compute].
Defined.

(** Coins made at the height that spends them are accepted, whatever the maturity. *)
Theorem own_block_coinbase_spent : demo_passes (demo_minted true false) 6 = Some false /\ demo_passes (demo_minted true false) 5 = Some true.
Proof. by vm_compute. Qed.

(** An immature coinstake is refused while its coins are in the cache; once they were
    flushed to the database, which does not store the flag, it is accepted. *)
Theorem flushed_coinstake_spent_early :
  demo_passes (demo_minted false true) 6 = Some false /\ (v ← Flush (demo_minted false true); demo_passes v 6) = Some true.
Proof. by vm_compute. Qed.

(** The same after a block that had spent its last output was disconnected, since
    the undo record does not hold the flag. *)
Theorem restored_coinstake_spent_early :
  let connected := connect_block (demo_minted false true) [demo_coinbase; demo_claim] 60 in
  demo_passes (demo_minted false true) 6 = Some false /\
  ('(undo, v) ← connected; '(ok, v) ← disconnect_block v [demo_coinbase; demo_claim] undo 60; Some (ok, demo_passes v 6)) = Some (Some true, Some true).
Proof. by vm_compute. Qed.

(** As [MAX_MONEY] is the largest [int64_t], a total that was computed without
    overflow is always in the range: the checks that refuse too large totals come
    after the overflow that they are there to prevent. *)
Lemma money_total_in_range a b c : 0 <= a -> 0 <= b -> add_amount a b = Some c -> MoneyRange c = true.
Proof. intros Ha Hb E. unfold add_amount in E. destruct (_ && _) eqn:Es; [|done]. injection E as <-. unfold MoneyRange, MAX_MONEY. lia. Qed.
