(* ===== verification/StateView.v ===== *)
(** * coins.cpp, txdb.cpp: the layered cache of the DAO records

    Proposals, payment requests, vote lists, consultations, answers and consensus
    parameters are kept like coins, in a database under a stack of caches, but without
    the flag [FRESH]: a null record in a cache hides the one below.  The code is the
    same for the six kinds of records, so one stack is modelled for any of them; the
    operations of the whole cache, some of which touch more than one kind, are then
    modelled on the six stacks.  Whatever the caches hold, they behave as the maps of
    records on which [Dao] models the rules. *)

From Stdlib Require Import ZArith Lia.
From stdpp Require Import base tactics numbers list gmap fin_maps.
From S2P Require Import Prelude SphTypes Blob Dao.

(** What the code uses of a kind of records: a new object is a null one; [rec_SetNull]
    is what a modifier makes of a null record when it ends, and [rec_equal] is
    [operator==]. *)
Class DaoRecord (R : Type) := {
  rec_new : R;
  rec_IsNull : R -> bool;
  rec_SetNull : R -> R;
  rec_equal : R -> R -> bool;
  rec_new_null : rec_IsNull rec_new = true;
  rec_SetNull_null r : rec_IsNull r = true -> rec_IsNull (rec_SetNull r) = true
}.

(** A record with its flag [fDirty], which the constructor sets. *)
Record Entry (R : Type) := { rec : R; fDirty : bool }.
Arguments rec {R}.
Arguments fDirty {R}.

Section View.
Context {K R : Type} `{Countable K} `{DaoRecord R}.

Inductive RecordView :=
  | RecordDB (db : gmap K R)
  | RecordCache (cache : gmap K (Entry R)) (base : RecordView).

(** ** Operations *)

Definition fresh_record (r : R) : Entry R := {| rec := r; fDirty := true |}.

(** [FetchProposal] with [GetProposal]: a null record counts as absent, and what is
    found below is copied into the caches on the way. *)
Fixpoint GetRecord (v : RecordView) (id : K) : option (Entry R) * RecordView :=
  match v with
  | RecordDB db => (fresh_record <$> db !! id, v)
  | RecordCache c base =>
      match c !! id with
      | Some e => (if rec_IsNull (rec e) then None else Some e, v)
      | None =>
          match GetRecord base id with
          | (Some tmp, base) => if rec_IsNull (rec tmp) then (None, RecordCache c base) else (Some tmp, RecordCache (<[id := tmp]> c) base)
          | (None, base) => (None, RecordCache c base)
          end
      end
  end.

Definition HaveRecord (v : RecordView) (id : K) : bool * RecordView :=
  let '(r, v) := GetRecord v id in (match r with Some e => negb (rec_IsNull (rec e)) | None => false end, v).

Definition nonnull (m : gmap K R) : gmap K R := filter (fun kr => rec_IsNull kr.2 = false) m.

(** [insert] of a map keeps the entries that are there. *)
Fixpoint GetAllRecords (v : RecordView) : gmap K R :=
  match v with
  | RecordDB db => db
  | RecordCache c base => nonnull ((rec <$> c) ∪ nonnull (GetAllRecords base))
  end.

(** The destructor of a modifier. *)
Definition end_modify (prev e : Entry R) : Entry R :=
  let r := if rec_IsNull (rec e) then rec_SetNull (rec e) else rec e in
  {| rec := r; fDirty := negb (rec_equal (rec prev) r) || fDirty e |}.

(** [ModifyProposal] with the change that its caller makes. *)
Definition ModifyRecord (v : RecordView) (id : K) (f : R -> R) : option RecordView :=
  match v with
  | RecordDB _ => None
  | RecordCache c base =>
      let '(e, base) :=
        match c !! id with
        | Some e => (e, base)
        | None => match GetRecord base id with (Some e, base) => (e, base) | (None, base) => (fresh_record rec_new, base) end
        end in
      Some (RecordCache (<[id := end_modify e {| rec := f (rec e); fDirty := fDirty e |}]> c) base)
  end.

(** The record is a new object, so it is dirty. *)
Definition AddRecord (v : RecordView) (id : K) (r : R) : option (bool * RecordView) :=
  match HaveRecord v id with
  | (true, v) => Some (false, v)
  | (false, RecordCache c base) => Some (true, RecordCache (<[id := fresh_record r]> c) base)
  | (false, RecordDB _) => None
  end.

(** An assignment to an entry of the top cache, and whether the entry is a null one. *)
Definition put_record (v : RecordView) (id : K) (r : R) : option RecordView :=
  match v with RecordCache c base => Some (RecordCache (<[id := fresh_record r]> c) base) | RecordDB _ => None end.
Definition cached_null (v : RecordView) (id : K) : bool :=
  match v with RecordCache c _ => match c !! id with Some e => rec_IsNull (rec e) | None => false end | RecordDB _ => false end.

(** [assert(cache[id].IsNull())]: the access creates a null entry. *)
Definition assert_null (v : RecordView) (id : K) : option RecordView :=
  match v with
  | RecordCache c base =>
      match c !! id with
      | Some e => if rec_IsNull (rec e) then Some v else None
      | None => Some (RecordCache (<[id := fresh_record rec_new]> c) base)
      end
  | RecordDB _ => None
  end.

Definition RemoveRecord (v : RecordView) (id : K) : option (bool * RecordView) :=
  match HaveRecord v id with
  | (false, v) => Some (false, v)
  | (true, RecordCache c base) => Some (true, RecordCache (<[id := fresh_record rec_new]> c) base)
  | (true, RecordDB _) => None
  end.

Definition write_record (id : K) (e : Entry R) (c : gmap K (Entry R)) : gmap K (Entry R) := if fDirty e then <[id := e]> c else c.
Definition write_record_db (id : K) (e : Entry R) (db : gmap K R) : gmap K R :=
  if fDirty e then if rec_IsNull (rec e) then delete id db else <[id := rec e]> db else db.

Definition BatchWriteRecords (v : RecordView) (m : gmap K (Entry R)) : RecordView :=
  match v with
  | RecordDB db => RecordDB (map_fold write_record_db db m)
  | RecordCache c base => RecordCache (map_fold write_record c m) base
  end.

Definition FlushRecords (v : RecordView) : option RecordView :=
  match v with
  | RecordDB _ => None
  | RecordCache c base => Some (RecordCache ∅ (BatchWriteRecords base c))
  end.

(** ** The map that a view represents *)

Definition record_live (r : R) : option R := if rec_IsNull r then None else Some r.

Fixpoint records (v : RecordView) (id : K) : option R :=
  match v with
  | RecordDB db => db !! id
  | RecordCache c base => match c !! id with Some e => record_live (rec e) | None => records base id end
  end.

(** The database holds no null records, and no flag is ever cleared. *)
Fixpoint records_ok (v : RecordView) : Prop :=
  match v with
  | RecordDB db => forall id r, db !! id = Some r -> rec_IsNull r = false
  | RecordCache c base => records_ok base /\ forall id e, c !! id = Some e -> fDirty e = true
  end.

Definition same_records (v v' : RecordView) : Prop := forall id, records v' id = records v id.
Definition over_base (v : RecordView) : bool := match v with RecordCache _ _ => true | RecordDB _ => false end.

Lemma records_live v id r : records_ok v -> records v id = Some r -> rec_IsNull r = false.
Proof.
  induction v as [db|c base IH]; cbn; [by intros Hdb E; apply (Hdb id)|]. intros [Hb _]. destruct (c !! id) as [e|]; [|by apply IH].
  unfold record_live. destruct (rec_IsNull (rec e)) eqn:E; [done|]. by intros [= <-].
Qed.

Lemma GetRecord_spec v id : records_ok v -> let '(r, v') := GetRecord v id in
  records_ok v' /\ same_records v v' /\ over_base v' = over_base v /\ (rec <$> r) = records v id /\ (forall e, r = Some e -> fDirty e = true).
Proof.
  induction v as [db|c base IH]; cbn [GetRecord]; intros Hok.
  - split_and!; try done; cbn; destruct (db !! id); try done. by intros e [= <-].
  - destruct Hok as [Hb Hc]. destruct (c !! id) as [e|] eqn:E.
    + split_and!; try done; cbn; rewrite ?E; unfold record_live; destruct (rec_IsNull (rec e)); try done. intros e' [= <-]. by apply (Hc id).
    + specialize (IH Hb). destruct (GetRecord base id) as [[tmp|] base']; destruct IH as (Hb' & S & _ & R' & D).
      * assert (rec_IsNull (rec tmp) = false) as Hn by (apply (records_live base id _ Hb); by rewrite <- R'). rewrite Hn. split_and!; try done.
        -- split; [done|]. intros k e'. destruct (decide (k = id)) as [->|Hk]; [rewrite lookup_insert_eq; intros [= <-]; by apply D|rewrite lookup_insert_ne by done; apply Hc].
        -- intros k. cbn. destruct (decide (k = id)) as [->|Hk]; [rewrite lookup_insert_eq, E, <- R'; unfold record_live; cbn; by rewrite Hn|].
           rewrite lookup_insert_ne by done. destruct (c !! k); [done|]. apply S.
        -- cbn. by rewrite E, <- R'.
      * split_and!; try done. { intros k. cbn. destruct (c !! k); [done|]. apply S. } cbn. by rewrite E, <- R'.
Qed.

Lemma HaveRecord_spec v id : records_ok v -> let '(b, v') := HaveRecord v id in
  records_ok v' /\ same_records v v' /\ over_base v' = over_base v /\ b = bool_decide (is_Some (records v id)).
Proof.
  intros Hok. unfold HaveRecord. pose proof (GetRecord_spec v id Hok) as Hg. destruct (GetRecord v id) as [r v']. destruct Hg as (H1 & H2 & H3 & H4 & _). split_and!; try done.
  rewrite <- H4. destruct r as [e|]; [|done]. cbn. rewrite (records_live v id (rec e)); [done|done|by rewrite <- H4].
Qed.

(** Putting an entry into the top cache. *)
Lemma put_spec c base id e : records_ok (RecordCache c base) -> fDirty e = true ->
  let v' := RecordCache (<[id := e]> c) base in
  records_ok v' /\ forall k, records v' k = if decide (k = id) then record_live (rec e) else records (RecordCache c base) k.
Proof.
  intros [Hb Hc] He. split; [split; [done|]|].
  - intros k e'. destruct (decide (k = id)) as [->|Hk]; [rewrite lookup_insert_eq; by intros [= <-]|rewrite lookup_insert_ne by done; apply Hc].
  - intros k. cbn. case_decide as Hk; [subst k; by rewrite lookup_insert_eq|by rewrite lookup_insert_ne].
Qed.

Lemma end_modify_spec prev e : fDirty e = true -> record_live (rec (end_modify prev e)) = record_live (rec e) /\ fDirty (end_modify prev e) = true.
Proof.
  intros He. unfold end_modify, record_live. destruct (rec_IsNull (rec e)) eqn:En; cbn; rewrite ?rec_SetNull_null, ?En, He, orb_true_r by done; done.
Qed.

Lemma fold_records {A} (f : K -> Entry R -> gmap K A -> gmap K A) (g : option A -> Entry R -> option A) (m : gmap K (Entry R)) (b : gmap K A) :
  (forall k e b, f k e b !! k = g (b !! k) e) -> (forall k e b j, j <> k -> f k e b !! j = b !! j) ->
  forall j, map_fold f b m !! j = match m !! j with Some e => g (b !! j) e | None => b !! j end.
Proof.
  intros Hf Hne. apply (map_fold_weak_ind (fun r m => forall j, r !! j = match m !! j with Some e => g (b !! j) e | None => b !! j end)); [done|].
  intros k e m' r Hk IH j. destruct (decide (j = k)) as [->|Hj]; [by rewrite lookup_insert_eq, Hf, IH, Hk|by rewrite lookup_insert_ne, Hne, IH by done].
Qed.

Lemma FlushRecords_spec v : records_ok v -> over_base v = true -> exists v', FlushRecords v = Some v' /\ records_ok v' /\ same_records v v'.
Proof.
  intros Hok Hc. destruct v as [|c base]; [done|]. destruct Hok as [Hb Hd]. eexists. split; [done|]. destruct base as [db|c2 bb]; cbn [BatchWriteRecords].
  - assert (forall j, map_fold write_record_db db c !! j = match c !! j with Some e => record_live (rec e) | None => db !! j end) as Hw.
    { intros j. rewrite (fold_records write_record_db (fun o e => if fDirty e then record_live (rec e) else o)).
      - destruct (c !! j) as [e|] eqn:E; [|done]. by rewrite (Hd j e E).
      - intros k e b. unfold write_record_db, record_live. destruct (fDirty e), (rec_IsNull (rec e)); by rewrite ?lookup_insert_eq, ?lookup_delete_eq.
      - intros k e b i Hi. unfold write_record_db. destruct (fDirty e), (rec_IsNull (rec e)); by rewrite ?lookup_insert_ne, ?lookup_delete_ne. }
    split.
    + split; [|by intros k e; rewrite lookup_empty]. intros k r. rewrite Hw. destruct (c !! k) as [e|]; [|apply Hb]. unfold record_live. destruct (rec_IsNull (rec e)) eqn:En; [done|]. by intros [= <-].
    + intros k. cbn. by rewrite lookup_empty, Hw.
  - assert (forall j, map_fold write_record c2 c !! j = match c !! j with Some e => Some e | None => c2 !! j end) as Hw.
    { intros j. rewrite (fold_records write_record (fun o e => if fDirty e then Some e else o)).
      - destruct (c !! j) as [e|] eqn:E; [|done]. by rewrite (Hd j e E).
      - intros k e b. unfold write_record. destruct (fDirty e); by rewrite ?lookup_insert_eq.
      - intros k e b i Hi. unfold write_record. destruct (fDirty e); by rewrite ?lookup_insert_ne. }
    destruct Hb as [Hbb Hd2]. split.
    + split; [|by intros k e; rewrite lookup_empty]. split; [done|]. intros k e. rewrite Hw. destruct (c !! k) as [e'|] eqn:E; [intros [= <-]; by apply (Hd k)|apply Hd2].
    + intros k. cbn. rewrite lookup_empty, Hw. by destruct (c !! k).
Qed.

Lemma GetAllRecords_spec v id : records_ok v -> GetAllRecords v !! id = records v id.
Proof.
  induction v as [db|c base IH]; [done|]. intros [Hb Hc]. cbn. apply option_eq. intros r. unfold nonnull at 1. rewrite map_lookup_filter_Some. cbn.
  rewrite lookup_union_Some_raw, lookup_fmap. destruct (c !! id) as [e|] eqn:E; cbn.
  - unfold record_live. split; [intros [[[= <-]|[? _]] Hn]; [by rewrite Hn|done]|]. destruct (rec_IsNull (rec e)) eqn:En; [done|]. intros [= <-]. by split; [left|].
  - unfold nonnull. rewrite map_lookup_filter_Some, (IH Hb). split; [intros [[?|(_ & Hr & _)] _]; done|]. intros Hr. pose proof (records_live base id r Hb Hr). by split; [right|].
Qed.

(** ** The maps of [Dao] *)

(** A map of records, in which a null one counts as absent, stands for the view. *)
Definition represents (v : RecordView) (m : gmap K R) : Prop := forall id, present rec_IsNull (m !! id) = records v id.

Lemma represents_put v v' m id r : represents v m -> (forall k, records v' k = if decide (k = id) then record_live r else records v k) -> represents v' (<[id := r]> m).
Proof.
  intros Hm Hv k. rewrite Hv. case_decide as Hk; [subst k; by rewrite lookup_insert_eq|]. rewrite lookup_insert_ne by done. apply Hm.
Qed.

Lemma represents_same v v' m : represents v m -> same_records v v' -> represents v' m.
Proof. intros Hm Hs id. by rewrite Hs. Qed.

(** A stack whose top is a cache implements a map. *)
Definition implements (v : RecordView) (m : gmap K R) : Prop := records_ok v /\ over_base v = true /\ represents v m.

Lemma represents_null v m id r : represents v (<[id := r]> m) -> rec_IsNull r = true -> present rec_IsNull (m !! id) = None -> represents v m.
Proof.
  intros Hm Hr Hn k. rewrite <- Hm. destruct (decide (k = id)) as [->|Hk]; [|by rewrite lookup_insert_ne]. rewrite lookup_insert_eq, Hn. cbn. by rewrite Hr.
Qed.

Lemma implements_get v m id : implements v m -> let '(r, v') := GetRecord v id in implements v' m /\ (rec <$> r) = present rec_IsNull (m !! id).
Proof.
  intros (Hok & Hc & Hm). pose proof (GetRecord_spec v id Hok) as Hg. destruct (GetRecord v id) as [r v']. destruct Hg as (H1 & H2 & H3 & H4 & _).
  split; [|by rewrite Hm]. split; [done|]. split; [by rewrite H3|by eapply represents_same].
Qed.

Lemma implements_have v m id : implements v m -> let '(b, v') := HaveRecord v id in implements v' m /\ b = bool_decide (is_Some (present rec_IsNull (m !! id))).
Proof.
  intros (Hok & Hc & Hm). pose proof (HaveRecord_spec v id Hok) as Hg. destruct (HaveRecord v id) as [r v']. destruct Hg as (H1 & H2 & H3 & H4).
  split; [|by rewrite Hm]. split; [done|]. split; [by rewrite H3|by eapply represents_same].
Qed.

Lemma implements_all v m : implements v m -> GetAllRecords v = nonnull m.
Proof.
  intros (Hok & _ & Hm). apply map_eq. intros id. rewrite GetAllRecords_spec, <- Hm by done. unfold nonnull. rewrite map_lookup_filter. destruct (m !! id) as [r|]; [|done]. cbn. destruct (rec_IsNull r); done.
Qed.

Lemma implements_put v m id r : implements v m -> exists v', put_record v id r = Some v' /\ implements v' (<[id := r]> m).
Proof.
  intros (Hok & Hc & Hm). destruct v as [|c base]; [done|]. eexists. split; [done|]. destruct (put_spec c base id (fresh_record r) Hok eq_refl) as [Hok' Hput].
  split; [done|]. split; [done|]. by apply (represents_put (RecordCache c base)).
Qed.

(** Putting a null record is removing it. *)
Lemma implements_delete v m id r : implements v (<[id := r]> m) -> rec_IsNull r = true -> implements v (delete id m).
Proof.
  intros (Hok & Hc & Hm) Hr. split; [done|]. split; [done|]. intros k. rewrite <- Hm. destruct (decide (k = id)) as [->|Hk]; [|by rewrite lookup_insert_ne, lookup_delete_ne].
  rewrite lookup_insert_eq, lookup_delete_eq. cbn. by rewrite Hr.
Qed.

Lemma implements_modify v m id f : implements v m ->
  exists r v', record_live r = present rec_IsNull (m !! id) /\ ModifyRecord v id f = Some v' /\ implements v' (<[id := f r]> m) /\ cached_null v' id = rec_IsNull (f r).
Proof.
  intros (Hok & Hc & Hm). destruct v as [|c base]; [done|]. cbn [ModifyRecord].
  assert (exists e base', (match c !! id with
      | Some e => (e, base)
      | None => match GetRecord base id with (Some e, base) => (e, base) | (None, base) => (fresh_record rec_new, base) end
      end = (e, base')) /\ fDirty e = true /\ record_live (rec e) = records (RecordCache c base) id /\ records_ok base' /\ same_records base base') as (e & base' & -> & Hd & Hl & Hb' & S).
  { cbn [records]. destruct (c !! id) as [e|] eqn:E; [exists e, base; split_and!; try done; [by apply (proj2 Hok id)|apply Hok]|].
    pose proof (GetRecord_spec base id (proj1 Hok)) as Hg. destruct (GetRecord base id) as [[e|] base']; destruct Hg as (H1 & H2 & _ & H3 & H4); eexists _, base'; (split; [done|]).
    - split_and!; try done; [by apply H4|]. rewrite <- H3. unfold record_live. cbn. by rewrite (records_live base id (rec e) (proj1 Hok)).
    - split_and!; try done. rewrite <- H3. unfold record_live. cbn. by rewrite rec_new_null. }
  eexists (rec e), _. split; [by rewrite Hl, Hm|]. split; [done|]. destruct (end_modify_spec e {| rec := f (rec e); fDirty := fDirty e |} Hd) as [Hr Hdirty].
  destruct (put_spec c base' id _ (conj Hb' (proj2 Hok)) Hdirty) as [Hok' Hput]. split.
  - split; [done|]. split; [done|]. apply (represents_put (RecordCache c base)); [done|]. intros k. rewrite Hput. case_decide; [exact Hr|]. cbn. destruct (c !! k); [done|]. apply S.
  - cbn [cached_null]. rewrite lookup_insert_eq. unfold record_live in Hr. cbn [rec] in Hr. destruct (rec_IsNull (f (rec e))), (rec_IsNull (rec (end_modify _ _))); done.
Qed.

Lemma implements_add v m id r : implements v m ->
  exists v', AddRecord v id r = Some (negb (bool_decide (is_Some (present rec_IsNull (m !! id)))), v') /\
    implements v' (if bool_decide (is_Some (present rec_IsNull (m !! id))) then m else <[id := r]> m).
Proof.
  intros Hi. unfold AddRecord. pose proof (implements_have v m id Hi) as Hh. destruct (HaveRecord v id) as [b v1]. destruct Hh as [Hi1 ->].
  case_bool_decide; [by exists v1|]. destruct (implements_put v1 m id r Hi1) as (v' & E & Hi'). destruct v1 as [|c base]; [done|]. injection E as <-. by eexists.
Qed.

Lemma implements_remove v m id : implements v m ->
  exists v', RemoveRecord v id = Some (bool_decide (is_Some (present rec_IsNull (m !! id))), v') /\ implements v' (<[id := rec_new]> m).
Proof.
  intros Hi. unfold RemoveRecord. pose proof (implements_have v m id Hi) as Hh. destruct (HaveRecord v id) as [b v1]. destruct Hh as [Hi1 ->].
  case_bool_decide as Hs.
  - destruct (implements_put v1 m id rec_new Hi1) as (v' & E & Hi'). destruct v1 as [|c base]; [done|]. injection E as <-. by eexists.
  - exists v1. split; [done|]. destruct Hi1 as (H1 & H2 & H3). split; [done|]. split; [done|]. intros k. rewrite <- H3. destruct (decide (k = id)) as [->|Hk]; [|by rewrite lookup_insert_ne].
    rewrite lookup_insert_eq. cbn. rewrite rec_new_null. symmetry. by apply eq_None_not_Some.
Qed.

Lemma implements_assert v m id : implements v m -> present rec_IsNull (m !! id) = None -> exists v', assert_null v id = Some v' /\ implements v' m.
Proof.
  intros Hi Hn. destruct v as [|c base]; [by destruct Hi as (_ & ? & _)|]. cbn [assert_null]. destruct (c !! id) as [e|] eqn:E.
  - destruct Hi as (H1 & H2 & H3). pose proof (H3 id) as Hid. rewrite Hn in Hid. cbn in Hid. rewrite E in Hid. unfold record_live in Hid. destruct (rec_IsNull (rec e)); [|done]. by eexists.
  - destruct (implements_put _ _ id rec_new Hi) as (v' & Ev & H1 & H2 & H3). injection Ev as <-. eexists. split; [done|]. split; [done|]. split; [done|].
    eapply represents_null; [exact H3|apply rec_new_null|done].
Qed.

Lemma implements_flush v m : implements v m -> exists v', FlushRecords v = Some v' /\ implements v' m.
Proof.
  intros (Hok & Hc & Hm). destruct (FlushRecords_spec v Hok Hc) as (v' & H1 & H2 & H3). exists v'. split; [done|]. split; [done|].
  split; [destruct v as [|c base]; [done|by injection H1 as <-]|by eapply represents_same].
Qed.

(** Reading one kind of records through a stack that stands for the map [m]. *)
Definition reads_as (v : RecordView) (m : gmap K R) : Prop :=
  (forall id, let '(r, v') := GetRecord v id in implements v' m /\ (rec <$> r) = present rec_IsNull (m !! id)) /\
  (forall id, let '(b, v') := HaveRecord v id in implements v' m /\ b = bool_decide (is_Some (present rec_IsNull (m !! id)))) /\
  GetAllRecords v = nonnull m.

Lemma implements_reads v m : implements v m -> reads_as v m.
Proof. intros Hi. split_and!; [intros id; by apply implements_get|intros id; by apply implements_have|by apply implements_all]. Qed.

End View.
Arguments RecordView : clear implicits.
Arguments RecordView K R {_ _}.

(** ** Vote lists *)

Module CVoteList.

(** The votes of a voter, by the height of the block and the hash that is voted for. *)
Definition t := gmap Z (gmap uint256 Z).

Definition IsNull (l : t) : bool := bool_decide (map_Forall (fun _ m => size m = 0%nat) l).
Definition equal (a b : t) : bool := bool_decide (a = b).

End CVoteList.

(** ** The kinds of records *)

(** The comparison of states by their text is that of the maps. *)
Definition proposal_equal (a b : CProposal.t) : bool :=
  let pay p := if negb (CProposal.nVersion p .& CProposal.PAYMENT_ADDRESS_VERSION =? 0) then CProposal.paymentAddress p else CProposal.ownerAddress p in
  (CProposal.nAmount a =? CProposal.nAmount b) && (CProposal.nFee a =? CProposal.nFee b) && bool_decide (CProposal.ownerAddress a = CProposal.ownerAddress b) &&
  bool_decide (pay a = pay b) && (CProposal.nDeadline a =? CProposal.nDeadline b) && bool_decide (CProposal.mapState a = CProposal.mapState b) &&
  (CProposal.nVotesYes a =? CProposal.nVotesYes b) && (CProposal.nVotesNo a =? CProposal.nVotesNo b) && (CProposal.nVotesAbs a =? CProposal.nVotesAbs b) &&
  (CProposal.nExclude a =? CProposal.nExclude b) && bool_decide (CProposal.strDZeel a = CProposal.strDZeel b) && bool_decide (CProposal.hash a = CProposal.hash b) &&
  bool_decide (CProposal.txblockhash a = CProposal.txblockhash b) && (CProposal.nVersion a =? CProposal.nVersion b) && (CProposal.nVotingCycle a =? CProposal.nVotingCycle b).

Definition prequest_equal (a b : CPaymentRequest.t) : bool :=
  (CPaymentRequest.nAmount a =? CPaymentRequest.nAmount b) && bool_decide (CPaymentRequest.mapState a = CPaymentRequest.mapState b) &&
  bool_decide (CPaymentRequest.hash a = CPaymentRequest.hash b) && bool_decide (CPaymentRequest.proposalhash a = CPaymentRequest.proposalhash b) &&
  bool_decide (CPaymentRequest.txblockhash a = CPaymentRequest.txblockhash b) && (CPaymentRequest.nVotesYes a =? CPaymentRequest.nVotesYes b) &&
  (CPaymentRequest.nVotesNo a =? CPaymentRequest.nVotesNo b) && (CPaymentRequest.nVotesAbs a =? CPaymentRequest.nVotesAbs b) && (CPaymentRequest.nExclude a =? CPaymentRequest.nExclude b) &&
  bool_decide (CPaymentRequest.strDZeel a = CPaymentRequest.strDZeel b) && (CPaymentRequest.nVersion a =? CPaymentRequest.nVersion b) && (CPaymentRequest.nVotingCycle a =? CPaymentRequest.nVotingCycle b).

Definition answer_equal (a b : CConsultationAnswer.t) : bool :=
  (CConsultationAnswer.nVersion a =? CConsultationAnswer.nVersion b) && bool_decide (CConsultationAnswer.sAnswer a = CConsultationAnswer.sAnswer b) &&
  (CConsultationAnswer.nVotes a =? CConsultationAnswer.nVotes b) && (CConsultationAnswer.nExclude a =? CConsultationAnswer.nExclude b) && (CConsultationAnswer.nSupport a =? CConsultationAnswer.nSupport b) &&
  bool_decide (CConsultationAnswer.mapState a = CConsultationAnswer.mapState b) && bool_decide (CConsultationAnswer.hash a = CConsultationAnswer.hash b) &&
  bool_decide (CConsultationAnswer.txblockhash a = CConsultationAnswer.txblockhash b) && bool_decide (CConsultationAnswer.parent a = CConsultationAnswer.parent b) &&
  bool_decide (CConsultationAnswer.txhash a = CConsultationAnswer.txhash b).

(** The list of answers is compared with itself. *)
Definition consultation_equal (a b : CConsultation.t) : bool :=
  bool_decide (CConsultation.mapState a = CConsultation.mapState b) && bool_decide (CConsultation.hash a = CConsultation.hash b) &&
  bool_decide (CConsultation.txblockhash a = CConsultation.txblockhash b) && bool_decide (CConsultation.mapVotes a = CConsultation.mapVotes b) &&
  (CConsultation.nVersion a =? CConsultation.nVersion b) && (CConsultation.nVotingCycle a =? CConsultation.nVotingCycle b) && bool_decide (CConsultation.strDZeel a = CConsultation.strDZeel b) &&
  (CConsultation.nSupport a =? CConsultation.nSupport b) && (CConsultation.nMin a =? CConsultation.nMin b) && (CConsultation.nMax a =? CConsultation.nMax b) &&
  (CConsultation.nExclude a =? CConsultation.nExclude b) && bool_decide (CConsultation.vAnswers a = CConsultation.vAnswers a).

Definition parameter_equal (a b : CConsensusParameter.t) : bool := bool_decide ((a : gmap Z Z) = b).

(** The block hash of a proposal survives [SetNull]. *)
Definition proposal_SetNull (p : CProposal.t) : CProposal.t := {|
  CProposal.nAmount := 0; CProposal.nFee := 0; CProposal.ownerAddress := []; CProposal.paymentAddress := []; CProposal.nDeadline := 0; CProposal.mapState := ∅;
  CProposal.nVotesYes := 0; CProposal.nVotesNo := 0; CProposal.nVotesAbs := 0; CProposal.nExclude := 0; CProposal.strDZeel := []; CProposal.hash := uint256_null;
  CProposal.txblockhash := CProposal.txblockhash p; CProposal.nVersion := 0; CProposal.nVotingCycle := 0 |}.

#[export] Instance proposal_record : DaoRecord CProposal.t := {|
  rec_new := CProposal.SetNull; rec_IsNull := CProposal.IsNull; rec_SetNull := proposal_SetNull; rec_equal := proposal_equal;
  rec_new_null := eq_refl; rec_SetNull_null := fun _ _ => eq_refl |}.

(** The modifier of a payment request clears an entry of the proposals instead, so the
    record stays as it is. *)
#[export] Instance prequest_record : DaoRecord CPaymentRequest.t := {|
  rec_new := CPaymentRequest.SetNull; rec_IsNull := CPaymentRequest.IsNull; rec_SetNull := fun r => r; rec_equal := prequest_equal;
  rec_new_null := eq_refl; rec_SetNull_null := fun _ H => H |}.

#[export] Instance consultation_record : DaoRecord CConsultation.t := {|
  rec_new := CConsultation.SetNull; rec_IsNull := CConsultation.IsNull; rec_SetNull := fun _ => CConsultation.SetNull; rec_equal := consultation_equal;
  rec_new_null := eq_refl; rec_SetNull_null := fun _ _ => eq_refl |}.

#[export] Instance answer_record : DaoRecord CConsultationAnswer.t := {|
  rec_new := CConsultationAnswer.SetNull; rec_IsNull := CConsultationAnswer.IsNull; rec_SetNull := fun _ => CConsultationAnswer.SetNull; rec_equal := answer_equal;
  rec_new_null := eq_refl; rec_SetNull_null := fun _ _ => eq_refl |}.

#[export] Instance parameter_record : DaoRecord CConsensusParameter.t := {|
  rec_new := (∅ : gmap Z Z); rec_IsNull := CConsensusParameter.IsNull; rec_SetNull := fun _ => (∅ : gmap Z Z); rec_equal := parameter_equal;
  rec_new_null := eq_refl; rec_SetNull_null := fun _ _ => eq_refl |}.

#[export] Instance votes_record : DaoRecord CVoteList.t := {|
  rec_new := (∅ : gmap Z (gmap uint256 Z)); rec_IsNull := CVoteList.IsNull; rec_SetNull := fun _ => (∅ : gmap Z (gmap uint256 Z)); rec_equal := CVoteList.equal;
  rec_new_null := eq_refl; rec_SetNull_null := fun _ _ => eq_refl |}.

(** ** The operations of the cache *)

Abbreviation ProposalView := (RecordView uint256 CProposal.t).
Abbreviation PaymentRequestView := (RecordView uint256 CPaymentRequest.t).
Abbreviation ConsultationView := (RecordView uint256 CConsultation.t).
Abbreviation AnswerView := (RecordView uint256 CConsultationAnswer.t).
Abbreviation ParameterView := (RecordView Z CConsensusParameter.t).

Abbreviation VoteView := (RecordView (list Z) CVoteList.t).

(** The stacks of the six kinds of records. *)
Record StateCaches := {
  cacheProposals : ProposalView;
  cachePaymentRequests : PaymentRequestView;
  cacheVotes : VoteView;
  cacheConsultations : ConsultationView;
  cacheAnswers : AnswerView;
  cacheConsensus : ParameterView
}.

Definition set_proposals (s : StateCaches) (v : ProposalView) : StateCaches := {|
  cacheProposals := v; cachePaymentRequests := cachePaymentRequests s; cacheVotes := cacheVotes s; cacheConsultations := cacheConsultations s; cacheAnswers := cacheAnswers s; cacheConsensus := cacheConsensus s |}.
Definition set_prequests (s : StateCaches) (v : PaymentRequestView) : StateCaches := {|
  cacheProposals := cacheProposals s; cachePaymentRequests := v; cacheVotes := cacheVotes s; cacheConsultations := cacheConsultations s; cacheAnswers := cacheAnswers s; cacheConsensus := cacheConsensus s |}.
Definition set_votes (s : StateCaches) (v : VoteView) : StateCaches := {|
  cacheProposals := cacheProposals s; cachePaymentRequests := cachePaymentRequests s; cacheVotes := v; cacheConsultations := cacheConsultations s; cacheAnswers := cacheAnswers s; cacheConsensus := cacheConsensus s |}.
Definition set_consultations (s : StateCaches) (v : ConsultationView) : StateCaches := {|
  cacheProposals := cacheProposals s; cachePaymentRequests := cachePaymentRequests s; cacheVotes := cacheVotes s; cacheConsultations := v; cacheAnswers := cacheAnswers s; cacheConsensus := cacheConsensus s |}.
Definition set_answers (s : StateCaches) (v : AnswerView) : StateCaches := {|
  cacheProposals := cacheProposals s; cachePaymentRequests := cachePaymentRequests s; cacheVotes := cacheVotes s; cacheConsultations := cacheConsultations s; cacheAnswers := v; cacheConsensus := cacheConsensus s |}.
Definition set_consensus (s : StateCaches) (v : ParameterView) : StateCaches := {|
  cacheProposals := cacheProposals s; cachePaymentRequests := cachePaymentRequests s; cacheVotes := cacheVotes s; cacheConsultations := cacheConsultations s; cacheAnswers := cacheAnswers s; cacheConsensus := v |}.

(** *** Proposals *)

Definition FetchProposal (s : StateCaches) (pid : uint256) := GetRecord (cacheProposals s) pid.
Definition HaveProposal (s : StateCaches) (pid : uint256) := HaveRecord (cacheProposals s) pid.
Definition GetAllProposals (s : StateCaches) := GetAllRecords (cacheProposals s).
Definition ModifyProposal (s : StateCaches) (pid : uint256) (f : CProposal.t -> CProposal.t) : option StateCaches :=
  set_proposals s <$> ModifyRecord (cacheProposals s) pid f.
Definition AddProposal (s : StateCaches) (p : CProposal.t) : option (bool * StateCaches) :=
  '(b, v) ← AddRecord (cacheProposals s) (CProposal.hash p) p; Some (b, set_proposals s v).
Definition RemoveProposal (s : StateCaches) (pid : uint256) : option (bool * StateCaches) :=
  '(b, v) ← RemoveRecord (cacheProposals s) pid; Some (b, set_proposals s v).

(** *** Payment requests *)

Definition FetchPaymentRequest (s : StateCaches) (prid : uint256) := GetRecord (cachePaymentRequests s) prid.
Definition HavePaymentRequest (s : StateCaches) (prid : uint256) := HaveRecord (cachePaymentRequests s) prid.
Definition GetAllPaymentRequests (s : StateCaches) := GetAllRecords (cachePaymentRequests s).

(** [cacheProposals[id].SetNull()] *)
Definition clear_proposal (v : ProposalView) (id : uint256) : option ProposalView :=
  put_record v id (proposal_SetNull (match v with RecordCache c _ => match c !! id with Some e => rec e | None => rec_new end | RecordDB _ => rec_new end)).

(** The destructor of the modifier of a payment request that became null clears the
    proposal under its hash. *)
Definition ModifyPaymentRequest (s : StateCaches) (prid : uint256) (f : CPaymentRequest.t -> CPaymentRequest.t) : option StateCaches :=
  v ← ModifyRecord (cachePaymentRequests s) prid f;
  let s := set_prequests s v in
  if cached_null v prid then set_proposals s <$> clear_proposal (cacheProposals s) prid else Some s.

Definition AddPaymentRequest (s : StateCaches) (r : CPaymentRequest.t) : option (bool * StateCaches) :=
  '(b, v) ← AddRecord (cachePaymentRequests s) (CPaymentRequest.hash r) r; Some (b, set_prequests s v).
Definition RemovePaymentRequest (s : StateCaches) (prid : uint256) : option (bool * StateCaches) :=
  '(b, v) ← RemoveRecord (cachePaymentRequests s) prid; Some (b, set_prequests s v).

(** *** Votes by voter *)

Definition FetchVote (s : StateCaches) (voter : list Z) := GetRecord (cacheVotes s) voter.
Definition HaveCachedVoter (s : StateCaches) (voter : list Z) := HaveRecord (cacheVotes s) voter.
Definition GetAllVotes (s : StateCaches) := GetAllRecords (cacheVotes s).
Definition ModifyVote (s : StateCaches) (voter : list Z) (f : CVoteList.t -> CVoteList.t) : option StateCaches :=
  set_votes s <$> ModifyRecord (cacheVotes s) voter f.
Definition AddCachedVoter (s : StateCaches) (voter : list Z) (l : CVoteList.t) : option (bool * StateCaches) :=
  '(b, v) ← AddRecord (cacheVotes s) voter l; Some (b, set_votes s v).
Definition RemoveCachedVoter (s : StateCaches) (voter : list Z) : option (bool * StateCaches) :=
  '(b, v) ← RemoveRecord (cacheVotes s) voter; Some (b, set_votes s v).

(** *** Consensus parameters *)

Definition FetchConsensusParameter (s : StateCaches) (pid : Z) := GetRecord (cacheConsensus s) pid.
Definition HaveConsensusParameter (s : StateCaches) (pid : Z) := HaveRecord (cacheConsensus s) pid.
Definition ModifyConsensusParameter (s : StateCaches) (pid : Z) (f : CConsensusParameter.t -> CConsensusParameter.t) : option StateCaches :=
  set_consensus s <$> ModifyRecord (cacheConsensus s) pid f.

(** *** Consultations and their answers *)

Definition FetchConsultation (s : StateCaches) (cid : uint256) := GetRecord (cacheConsultations s) cid.
Definition HaveConsultation (s : StateCaches) (cid : uint256) := HaveRecord (cacheConsultations s) cid.
Definition GetAllConsultations (s : StateCaches) := GetAllRecords (cacheConsultations s).
Definition ModifyConsultation (s : StateCaches) (cid : uint256) (f : CConsultation.t -> CConsultation.t) : option StateCaches :=
  set_consultations s <$> ModifyRecord (cacheConsultations s) cid f.
Definition AddConsultation (s : StateCaches) (c : CConsultation.t) : option (bool * StateCaches) :=
  '(b, v) ← AddRecord (cacheConsultations s) (CConsultation.hash c) c; Some (b, set_consultations s v).

Definition FetchConsultationAnswer (s : StateCaches) (cid : uint256) := GetRecord (cacheAnswers s) cid.
Definition HaveConsultationAnswer (s : StateCaches) (cid : uint256) := HaveRecord (cacheAnswers s) cid.
Definition GetAllConsultationAnswers (s : StateCaches) := GetAllRecords (cacheAnswers s).
Definition ModifyConsultationAnswer (s : StateCaches) (cid : uint256) (f : CConsultationAnswer.t -> CConsultationAnswer.t) : option StateCaches :=
  set_answers s <$> ModifyRecord (cacheAnswers s) cid f.

Definition AddConsultationAnswer (s : StateCaches) (a : CConsultationAnswer.t) : option (bool * StateCaches) :=
  let '(have, v) := HaveRecord (cacheAnswers s) (CConsultationAnswer.hash a) in
  let s := set_answers s v in
  if (have : bool) then Some (false, s)
  else
    s ← ModifyConsultation s (CConsultationAnswer.parent a) (fun c => CConsultation.with_answers c (CConsultation.vAnswers c ++ [CConsultationAnswer.hash a]));
    v ← put_record (cacheAnswers s) (CConsultationAnswer.hash a) a;
    Some (true, set_answers s v).

(** The loop that erases a hash from a vector by an iterator and goes on with the
    iterator at the same place: the element behind an erased one is skipped. *)
Fixpoint erase_answer (cid : uint256) (l : list uint256) : list uint256 :=
  match l with
  | [] => []
  | x :: l => if bool_decide (x = cid) then match l with [] => [] | y :: l => y :: erase_answer cid l end else x :: erase_answer cid l
  end.

Definition RemoveConsultationAnswer (s : StateCaches) (cid : uint256) : option (bool * StateCaches) :=
  match GetRecord (cacheAnswers s) cid with
  | (None, v) => Some (false, set_answers s v)
  | (Some e, v) =>
      s ← ModifyConsultation (set_answers s v) (CConsultationAnswer.parent (rec e)) (fun c => CConsultation.with_answers c (erase_answer cid (CConsultation.vAnswers c)));
      v ← put_record (cacheAnswers s) cid CConsultationAnswer.SetNull;
      Some (true, set_answers s v)
  end.

Fixpoint remove_answers (s : StateCaches) (l : list uint256) : option StateCaches :=
  match l with
  | [] => Some s
  | cid :: l => '(_, s) ← RemoveConsultationAnswer s cid; remove_answers s l
  end.

(** The assertion at the end looks at a payment request under the same hash. *)
Definition RemoveConsultation (s : StateCaches) (cid : uint256) : option (bool * StateCaches) :=
  match GetRecord (cacheConsultations s) cid with
  | (None, v) => Some (false, set_consultations s v)
  | (Some e, v) =>
      s ← remove_answers (set_consultations s v) (CConsultation.vAnswers (rec e));
      v ← put_record (cacheConsultations s) cid CConsultation.SetNull;
      r ← assert_null (cachePaymentRequests s) cid;
      Some (true, set_prequests (set_consultations s v) r)
  end.

(** *** Flushing *)

Definition FlushState (s : StateCaches) : option StateCaches :=
  p ← FlushRecords (cacheProposals s);
  r ← FlushRecords (cachePaymentRequests s);
  t ← FlushRecords (cacheVotes s);
  c ← FlushRecords (cacheConsultations s);
  a ← FlushRecords (cacheAnswers s);
  m ← FlushRecords (cacheConsensus s);
  Some {| cacheProposals := p; cachePaymentRequests := r; cacheVotes := t; cacheConsultations := c; cacheAnswers := a; cacheConsensus := m |}.

(** ** The view that the caches stand for *)

(** The caches implement the maps of a view of [Dao] and a map of the votes. *)
Record refines (s : StateCaches) (v : View) (votes : gmap (list Z) CVoteList.t) : Prop := {
  rf_proposals : implements (cacheProposals s) (vProposals v);
  rf_prequests : implements (cachePaymentRequests s) (vPaymentRequests v);
  rf_votes : implements (cacheVotes s) votes;
  rf_consultations : implements (cacheConsultations s) (vConsultations v);
  rf_answers : implements (cacheAnswers s) (vAnswers v);
  rf_consensus : implements (cacheConsensus s) (vConsensus v)
}.

(** Removing an answer takes it out of the list of its consultation. *)
Definition remove_answer (v : View) (cid : uint256) : View :=
  match GetConsultationAnswer v cid with
  | None => v
  | Some a =>
      let parent := CConsultationAnswer.parent a in
      let v := match GetConsultation v parent with
               | Some c => put_consultation v parent (CConsultation.with_answers c (erase_answer cid (CConsultation.vAnswers c)))
               | None => v
               end in
      put_answer v cid CConsultationAnswer.SetNull
  end.

Definition remove_consultation (v : View) (cid : uint256) : View :=
  match GetConsultation v cid with
  | None => v
  | Some c => put_consultation (foldl remove_answer v (CConsultation.vAnswers c)) cid CConsultation.SetNull
  end.


(** In a list without repetitions the loop erases exactly the hash. *)
Lemma erase_answer_once cid l : NoDup l -> erase_answer cid l = filter (fun x => x <> cid) l.
Proof.
  revert l. fix IH 1. intros [|x l] Hnd; [done|]. apply NoDup_cons in Hnd as [Hx Hnd]. cbn [erase_answer]. case_bool_decide as He.
  - subst x. rewrite filter_cons_False by auto. destruct l as [|y l]; [done|]. rewrite filter_cons_True by (intros ->; apply Hx; by left). f_equal. apply IH. by apply NoDup_cons in Hnd as [_ ?].
  - rewrite filter_cons_True by done. f_equal. by apply IH.
Qed.

(** One stack is replaced by one that implements the changed map. *)
Ltac refined := match goal with H : refines _ _ _ |- _ => destruct H end; split; done.

Section Refines.
Context (s : StateCaches) (v : View) (votes : gmap (list Z) CVoteList.t) (Hs : refines s v votes).

Lemma refines_modify_prequest prid f :
  exists r s', record_live r = GetPaymentRequest v prid /\ ModifyPaymentRequest s prid f = Some s' /\
    refines s' (let v := put_prequest v prid (f r) in if CPaymentRequest.IsNull (f r) then put_proposal v prid CProposal.SetNull else v) votes.
Proof.
  destruct (implements_modify _ _ prid f (rf_prequests _ _ _ Hs)) as (r & w & Hr & E & Hi & Hn). unfold ModifyPaymentRequest. rewrite E. cbn [mbind option_bind]. rewrite Hn.
  exists r. change (rec_IsNull (f r)) with (CPaymentRequest.IsNull (f r)). destruct (CPaymentRequest.IsNull (f r)).
  - destruct Hs as [Hp]. cbn [cacheProposals set_prequests]. unfold clear_proposal. set (p := proposal_SetNull _).
    destruct (implements_put _ _ prid p Hp) as (w' & -> & Hi'). eexists. split; [done|]. split; [done|]. split; try done. cbn.
    destruct Hi' as (H1 & H2 & H3). split; [done|]. split; [done|]. intros k. rewrite <- H3. destruct (decide (k = prid)) as [->|Hk]; [by rewrite !lookup_insert_eq|by rewrite !lookup_insert_ne].
  - eexists. split; [done|]. split; [done|]. refined.
Qed.

Lemma refines_add_answer a :
  exists c s', record_live c = GetConsultation v (CConsultationAnswer.parent a) /\
    AddConsultationAnswer s a = Some (negb (Dao.HaveConsultationAnswer v (CConsultationAnswer.hash a)), s') /\
    refines s' (if Dao.HaveConsultationAnswer v (CConsultationAnswer.hash a) then v
                else put_answer (put_consultation v (CConsultationAnswer.parent a) (CConsultation.with_answers c (CConsultation.vAnswers c ++ [CConsultationAnswer.hash a])))
                       (CConsultationAnswer.hash a) a) votes.
Proof.
  unfold AddConsultationAnswer. pose proof (implements_have _ _ (CConsultationAnswer.hash a) (rf_answers _ _ _ Hs)) as Hh.
  destruct (HaveRecord (cacheAnswers s) _) as [b w]. destruct Hh as [Hw ->]. unfold ModifyConsultation. cbn [cacheConsultations set_answers].
  destruct (implements_modify _ _ (CConsultationAnswer.parent a) (fun c => CConsultation.with_answers c (CConsultation.vAnswers c ++ [CConsultationAnswer.hash a])) (rf_consultations _ _ _ Hs)) as (c & wc & Hc & E & Hi & _).
  exists c. unfold Dao.HaveConsultationAnswer, GetConsultationAnswer. change (present CConsultationAnswer.IsNull) with (present (@rec_IsNull _ answer_record)). case_bool_decide.
  - eexists. split; [done|]. split; [done|]. refined.
  - rewrite E. cbn [fmap option_fmap option_map mbind option_bind cacheAnswers set_answers set_consultations].
    destruct (implements_put _ _ (CConsultationAnswer.hash a) a Hw) as (w' & -> & Hi'). eexists. split; [done|]. split; [done|]. refined.
Qed.

Lemma refines_remove_answer cid :
  exists s', RemoveConsultationAnswer s cid = Some (Dao.HaveConsultationAnswer v cid, s') /\ refines s' (remove_answer v cid) votes.
Proof.
  unfold RemoveConsultationAnswer, Dao.HaveConsultationAnswer, remove_answer. pose proof (implements_get _ _ cid (rf_answers _ _ _ Hs)) as Hg. destruct (GetRecord (cacheAnswers s) cid) as [r w]. destruct Hg as [Hw Hr].
  change (rec <$> r = GetConsultationAnswer v cid) in Hr. rewrite <- Hr. destruct r as [e|]; cbn [fmap option_fmap option_map].
  2:{ eexists. split; [done|]. refined. }
  unfold ModifyConsultation. cbn [cacheConsultations set_answers].
  destruct (implements_modify _ _ (CConsultationAnswer.parent (rec e)) (fun c => CConsultation.with_answers c (erase_answer cid (CConsultation.vAnswers c))) (rf_consultations _ _ _ Hs)) as (c & wc & Hc & -> & Hi & _).
  cbn [fmap option_fmap option_map mbind option_bind cacheAnswers set_answers set_consultations].
  destruct (implements_put _ _ cid CConsultationAnswer.SetNull Hw) as (w' & -> & Hi'). cbn [mbind option_bind]. eexists. split; [done|].
  change (record_live c = GetConsultation v (CConsultationAnswer.parent (rec e))) in Hc. unfold record_live in Hc. destruct (rec_IsNull c) eqn:En.
  - rewrite <- Hc. cbn. destruct Hs. split; try done. cbn. destruct Hi as (H1 & H2 & H3). split; [done|]. split; [done|].
    eapply represents_null; [exact H3| |by symmetry]. change (CConsultation.IsNull c = true) in En. change (CConsultation.IsNull (CConsultation.with_answers c (erase_answer cid (CConsultation.vAnswers c))) = true).
    revert En. unfold CConsultation.IsNull. cbn. destruct (CConsultation.vAnswers c); [done|]. rewrite !andb_true_iff. by intros [[_ ?%bool_decide_eq_true] _].
  - rewrite <- Hc. cbn. refined.
Qed.

End Refines.

Lemma refines_remove_answers l s v votes : refines s v votes -> exists s', remove_answers s l = Some s' /\ refines s' (foldl remove_answer v l) votes.
Proof.
  revert s v. induction l as [|cid l IH]; intros s v Hs; cbn [remove_answers foldl]; [by exists s|].
  destruct (refines_remove_answer s v votes Hs cid) as (s1 & -> & H1). cbn [mbind option_bind]. by apply IH.
Qed.

Lemma remove_answers_prequests l v : vPaymentRequests (foldl remove_answer v l) = vPaymentRequests v.
Proof.
  revert v. induction l as [|cid l IH]; intros v; [done|]. cbn [foldl]. rewrite IH. unfold remove_answer. destruct (GetConsultationAnswer v cid) as [a|]; [|done]. cbn.
  by destruct (GetConsultation v _).
Qed.

Lemma refines_remove_consultation s v votes cid : refines s v votes -> GetPaymentRequest v cid = None ->
  exists s', RemoveConsultation s cid = Some (Dao.HaveConsultation v cid, s') /\ refines s' (remove_consultation v cid) votes.
Proof.
  intros Hs Hn. unfold RemoveConsultation, Dao.HaveConsultation, remove_consultation. pose proof (implements_get _ _ cid (rf_consultations _ _ _ Hs)) as Hg. destruct (GetRecord (cacheConsultations s) cid) as [r w]. destruct Hg as [Hw Hr].
  change (rec <$> r = GetConsultation v cid) in Hr. rewrite <- Hr. destruct r as [e|]; cbn [fmap option_fmap option_map].
  2:{ eexists. split; [done|]. refined. }
  assert (refines (set_consultations s w) v votes) as Hs1 by refined.
  destruct (refines_remove_answers (CConsultation.vAnswers (rec e)) _ _ _ Hs1) as (s2 & -> & Hs2). cbn [mbind option_bind].
  destruct (implements_put _ _ cid CConsultation.SetNull (rf_consultations _ _ _ Hs2)) as (wc & -> & Hi). cbn [mbind option_bind].
  destruct (implements_assert _ _ cid (rf_prequests _ _ _ Hs2)) as (wr & -> & Hi'); [by rewrite remove_answers_prequests|]. cbn [mbind option_bind].
  eexists. split; [done|]. refined.
Qed.

Lemma refines_flush s v votes : refines s v votes -> exists s', FlushState s = Some s' /\ refines s' v votes.
Proof.
  intros [H1 H2 H3 H4 H5 H6]. unfold FlushState.
  destruct (implements_flush _ _ H1) as (w1 & -> & ?), (implements_flush _ _ H2) as (w2 & -> & ?), (implements_flush _ _ H3) as (w3 & -> & ?),
    (implements_flush _ _ H4) as (w4 & -> & ?), (implements_flush _ _ H5) as (w5 & -> & ?), (implements_flush _ _ H6) as (w6 & -> & ?). by eexists.
Qed.

(** A changed stack in the place of one kind. *)
Ltac modify_kind id f := match goal with H : refines _ _ _ |- _ => let H' := fresh in pose proof H as H'; destruct H'; edestruct (fun v m => implements_modify v m id f) as (? & ? & ? & E & ? & _); [eassumption|]; rewrite E; eexists _, _; split; [eassumption|split; [done|refined]] end.


(** *** Example: a payment request that the top cache removed, and a consultation *)

Definition demo_record (amount : Z) : CPaymentRequest.t := {|
  CPaymentRequest.nAmount := amount; CPaymentRequest.mapState := ∅; CPaymentRequest.hash := [1]; CPaymentRequest.proposalhash := [9]; CPaymentRequest.txblockhash := uint256_null;
  CPaymentRequest.nVotesYes := 0; CPaymentRequest.nVotesNo := 0; CPaymentRequest.nVotesAbs := 0; CPaymentRequest.nExclude := 0; CPaymentRequest.strDZeel := [];
  CPaymentRequest.nVersion := 0; CPaymentRequest.nVotingCycle := 0 |}.
Definition demo_answer (id : Z) : CConsultationAnswer.t := {|
  CConsultationAnswer.nVersion := 1; CConsultationAnswer.sAnswer := []; CConsultationAnswer.nVotes := 0; CConsultationAnswer.nSupport := 0; CConsultationAnswer.nExclude := 0;
  CConsultationAnswer.mapState := ∅; CConsultationAnswer.hash := [id]; CConsultationAnswer.parent := [5]; CConsultationAnswer.txblockhash := uint256_null; CConsultationAnswer.txhash := [5] |}.
Definition demo_consultation : CConsultation.t := {|
  CConsultation.mapState := ∅; CConsultation.hash := [5]; CConsultation.txblockhash := uint256_null; CConsultation.nVersion := 1; CConsultation.nVotingCycle := 0; CConsultation.strDZeel := [];
  CConsultation.nSupport := 0; CConsultation.nMin := 0; CConsultation.nMax := 0; CConsultation.mapVotes := ∅; CConsultation.vAnswers := [[6]; [7]]; CConsultation.nExclude := 0 |}.

Definition demo_requests : PaymentRequestView :=
  RecordCache {[ [1] := fresh_record CPaymentRequest.SetNull ]} (RecordCache ∅ (RecordDB {[ [1] := demo_record 10; [2] := demo_record 20 ]})).
Definition demo_state : StateCaches := {|
  cacheProposals := RecordCache ∅ (RecordDB ∅); cachePaymentRequests := demo_requests; cacheVotes := RecordCache ∅ (RecordDB ∅);
  cacheConsultations := RecordCache ∅ (RecordDB {[ [5] := demo_consultation ]}); cacheAnswers := RecordCache ∅ (RecordDB {[ [6] := demo_answer 6; [7] := demo_answer 7 ]});
  cacheConsensus := RecordCache ∅ (RecordDB ∅) |}.
Definition demo_dao_view : View := {|
  vProposals := ∅; vPaymentRequests := {[ [2] := demo_record 20 ]}; vConsultations := {[ [5] := demo_consultation ]};
  vAnswers := {[ [6] := demo_answer 6; [7] := demo_answer 7 ]}; vConsensus := ∅ |}.

Lemma implements_db {K R : Type} `{Countable K} `{DaoRecord R} (m : gmap K R) : (forall id r, m !! id = Some r -> rec_IsNull r = false) -> implements (RecordCache ∅ (RecordDB m)) m.
Proof.
  intros Hm. split; [split; [done|]; by intros id e; rewrite lookup_empty|]. split; [done|]. intros id. cbn. rewrite lookup_empty. destruct (m !! id) as [r|] eqn:E; [|done]. cbn. by rewrite (Hm id r E).
Qed.

Lemma demo_refines : refines demo_state demo_dao_view ∅.
Proof.
  split; cbn [cacheProposals cachePaymentRequests cacheVotes cacheConsultations cacheAnswers cacheConsensus demo_state vProposals vPaymentRequests vConsultations vAnswers vConsensus demo_dao_view];
    try (apply implements_db; intros id r; rewrite ?lookup_empty, ?lookup_insert_Some, ?lookup_singleton_Some; naive_solver).
  split; [|split; [done|]].
  - cbn [records_ok demo_requests]. split_and!.
    + intros id r. rewrite lookup_insert_Some, lookup_singleton_Some. intros [[_ <-]|[_ [_ <-]]]; done.
    + intros id e. by rewrite lookup_empty.
    + intros id e. rewrite lookup_singleton_Some. by intros [_ <-].
  - intros id. cbn [records demo_requests]. rewrite lookup_empty. destruct (decide (id = [1])) as [->|H1]; [done|]. rewrite (lookup_singleton_ne [1] id) by done.
    destruct (decide (id = [2])) as [->|H2]; [done|]. rewrite lookup_insert_ne by done. by rewrite !lookup_singleton_ne.
Qed.

