(* ===== verification/ScriptNum.v ===== *)
(** * script/script.h: the numbers of scripts

    [CScriptNum]: a number is a string of bytes, little endian with the sign in the
    highest bit of the last byte.  Operands have at most four bytes (five for lock
    times); results may be longer.  [None] is the exception [scriptnum_error].  The
    two directions of the encoding are inverse to each other on the numbers and on the
    shortest strings. *)

From Stdlib Require Import ZArith Lia.
From stdpp Require Import base tactics numbers list.
From S2P Require Import Prelude SphTypes Serialize.

(** ** Encoding *)

(** [while(absvalue)], for an [uint64_t]: at most eight bytes. *)
Fixpoint abs_bytes (room : nat) (absvalue : Z) : list Z :=
  match room with
  | O => []
  | S room => if absvalue =? 0 then [] else (absvalue .& 0xff) :: abs_bytes room (absvalue >> 8)
  end.

(** [result.back()] *)
Definition back (v : list Z) : Z := List.last v 0.

Definition serialize (value : Z) : list Z :=
  if value =? 0 then []
  else
    let neg := value <? 0 in
    let result := abs_bytes 8 (if neg then - value else value) in
    if negb (back result .& 0x80 =? 0) then result ++ [if neg then 0x80 else 0]
    else if neg then List.removelast result ++ [back result .| 0x80] else result.

Definition getvch (m_value : Z) : list Z := serialize m_value.

(** ** Decoding *)

Definition set_vch (vch : list Z) : Z :=
  if bool_decide (vch = []) then 0
  else
    let result := load_le vch in
    if negb (back vch .& 0x80 =? 0) then - (result .& Z.lnot (0x80 << (8 * (Z.of_nat (length vch) - 1))))
    else result.

(** The test for the shortest encoding. *)
Definition is_minimal (vch : list Z) : bool :=
  if (0 <? length vch)%nat && (back vch .& 0x7f =? 0)
  then negb ((length vch <=? 1)%nat || (vch.[length vch - 2] .& 0x80 =? 0))
  else true.

Definition nDefaultMaxNumSize : nat := 4.

Definition CScriptNum (vch : list Z) (fRequireMinimal : bool) (nMaxNumSize : nat) : option Z :=
  if (nMaxNumSize <? length vch)%nat then None
  else if fRequireMinimal && negb (is_minimal vch) then None
  else Some (set_vch vch).

Definition INT_MAX : Z := 2 ^ 31 - 1.
Definition INT_MIN : Z := - 2 ^ 31.
Definition getint (m_value : Z) : Z :=
  if INT_MAX <? m_value then INT_MAX else if m_value <? INT_MIN then INT_MIN else m_value.

(** ** Bytes with a sign *)

Lemma byte_high b : word 8 b -> (b .& 0x80 =? 0) = (b <? 128).
Proof.
  intros Hb. assert (b .& 0x80 = if b <? 128 then 0 else 128) as ->; [|by destruct (b <? 128)].
  apply (word_eq 8); [auto with words|destruct (b <? 128); auto with words|]. intros i Hi. rewrite Z.land_spec. change 128 with (2 ^ 7) at 1.
  rewrite Z.pow2_bits_eqb by lia. destruct (Z.eqb_spec 7 i) as [<-|Hn].
  - rewrite andb_true_r, Z.testbit_odd, Z.shiftr_div_pow2 by lia. destruct (Z.ltb_spec b 128).
    + rewrite Z.div_small by (unfold word in Hb; lia). done.
    + replace (b / 2 ^ 7) with 1; [done|]. unfold word in Hb. apply (Z.div_unique b (2 ^ 7) 1 (b - 128)); lia.
  - rewrite andb_false_r. destruct (b <? 128); [by rewrite Z.bits_0|]. change 128 with (2 ^ 7). rewrite Z.pow2_bits_eqb by lia. symmetry. by apply Z.eqb_neq.
Qed.

Lemma byte_low b : b .& 0x7f = b mod 128.
Proof. change 0x7f with (Z.ones 7). by rewrite Z.land_ones. Qed.

Lemma byte_signed b : 0 <= b < 128 -> b .| 0x80 = b + 128.
Proof.
  intros Hb. rewrite <- Z.lxor_lor, Z.add_nocarry_lxor; [done|..]; bits_intro i Hi; rewrite Z.land_spec, Z.bits_0; change 128 with (2 ^ 7); rewrite Z.pow2_bits_eqb by lia;
    (destruct (Z.eqb_spec 7 i) as [<-|]; [rewrite (word_bit_high 7); [done|split; lia|lia]|by rewrite andb_false_r]).
Qed.

Lemma load_le_cons b l : word 8 b -> words 8 l -> load_le (b :: l) = b + 2 ^ 8 * load_le l.
Proof.
  intros Hb Hl. cbn [load_le]. rewrite <- Z.lxor_lor, <- Z.add_nocarry_lxor, Z.shiftl_mul_pow2 by (lia || (bits_intro i Hi; rewrite Z.land_spec, Z.bits_0, Z.shiftl_spec by lia;
    zcase i 8; [rewrite (Z.testbit_neg_r _ (i - 8)) by lia; apply andb_false_r|by rewrite (word_bit_high 8 b)])). lia.
Qed.

Lemma load_le_app a b : words 8 a -> words 8 b -> load_le (a ++ b) = load_le a + 2 ^ (8 * Z.of_nat (length a)) * load_le b.
Proof.
  intros Ha Hb. induction Ha as [|x a Hx Ha IH]; [cbn; lia|]. rewrite <- app_comm_cons, !load_le_cons by auto with words. rewrite IH. cbn [length].
  replace (8 * Z.of_nat (S (length a))) with (8 + 8 * Z.of_nat (length a)) by lia. rewrite Z.pow_add_r by lia. lia.
Qed.

Lemma back_snoc l b : back (l ++ [b]) = b.
Proof. apply List.last_last. Qed.

(** A string is its last byte behind the others. *)
Lemma snoc_cases (l : list Z) : l = [] \/ exists i b, l = i ++ [b].
Proof. destruct (decide (l = [])) as [->|Hn]; [by left|]. right. exists (List.removelast l), (List.last l 0). by apply List.app_removelast_last. Qed.

(** What a string stands for: the magnitude without the sign bit, and the sign. *)
Definition magnitude (i : list Z) (b : Z) : Z := load_le i + 2 ^ (8 * Z.of_nat (length i)) * (b mod 128).

Lemma set_vch_snoc i b : words 8 i -> word 8 b -> set_vch (i ++ [b]) = if b <? 128 then magnitude i b else - magnitude i b.
Proof.
  intros Hi Hb. unfold set_vch. rewrite bool_decide_eq_false_2 by (by destruct i). rewrite back_snoc, byte_high by done. cbn [negb].
  rewrite load_le_app by auto with words. assert (load_le [b] = b) as -> by (cbn; by rewrite Z.lor_0_r). rewrite length_app. cbn [length].
  replace (8 * (Z.of_nat (length i + 1) - 1)) with (8 * Z.of_nat (length i)) by lia. set (k := 8 * Z.of_nat (length i)). assert (0 <= k) as Hk by lia.
  pose proof (load_le_word i Hi) as Hw. fold k in Hw. unfold word in Hw, Hb. unfold magnitude. fold k. destruct (Z.ltb_spec b 128) as [Hs|Hs]; cbn [negb].
  - by rewrite Z.mod_small by lia.
  - f_equal. assert (b mod 128 = b - 128) as -> by (symmetry; apply (Z.mod_unique b 128 1); lia).
    rewrite <- Z.ldiff_land, Z.shiftl_mul_pow2 by lia.
    assert (2 ^ 7 * 2 ^ k = 2 ^ (7 + k)) as Hp by (by rewrite Z.pow_add_r by lia).
    replace (load_le i + 2 ^ k * b) with (load_le i + 2 ^ k * (b - 128) + 2 ^ (7 + k)) by (rewrite <- Hp; change (2 ^ 7) with 128; lia).
    change 128 with (2 ^ 7) at 2. rewrite Hp. set (m := load_le i + 2 ^ k * (b - 128)). assert (0 <= m < 2 ^ (7 + k)) as Hm by (unfold m; rewrite <- Hp; change (2 ^ 7) with 128; nia).
    assert (m .& 2 ^ (7 + k) = 0) as Hd.
    { bits_intro j Hj. rewrite Z.land_spec, Z.bits_0, Z.pow2_bits_eqb by lia. destruct (Z.eqb_spec (7 + k) j) as [<-|]; [|apply andb_false_r]. by rewrite (word_bit_high (7 + k)). }
    rewrite Z.add_nocarry_lxor, Z.lxor_lor by done. rewrite Z.ldiff_land, Z.land_lor_distr_l. rewrite <- !Z.ldiff_land, Z.ldiff_diag, Z.lor_0_r.
    bits_intro j Hj. rewrite Z.ldiff_spec, Z.pow2_bits_eqb by lia. destruct (Z.eqb_spec (7 + k) j) as [<-|]; [|apply andb_true_r]. by rewrite (word_bit_high (7 + k)).
Qed.

Lemma magnitude_bound i b : words 8 i -> 0 <= magnitude i b < 2 ^ (8 * Z.of_nat (length i) + 7).
Proof.
  intros Hi. pose proof (load_le_word i Hi) as Hw. unfold word, magnitude in *. pose proof (Z.mod_pos_bound b 128). rewrite Z.pow_add_r by lia. change (2 ^ 7) with 128. nia.
Qed.

(** ** The digits of a magnitude *)

Lemma abs_bytes_spec room a : 0 <= a < 2 ^ (8 * Z.of_nat room) ->
  load_le (abs_bytes room a) = a /\ words 8 (abs_bytes room a) /\ (a <> 0 -> exists i b, abs_bytes room a = i ++ [b] /\ b <> 0).
Proof.
  revert a. induction room as [|room IH]; intros a Ha; [cbn in Ha |- *; repeat split; [lia|constructor|lia]|]. cbn [abs_bytes].
  destruct (Z.eqb_spec a 0) as [->|Hn]; [repeat split; [constructor|done]|]. change 0xff with (Z.ones 8). rewrite Z.land_ones, Z.shiftr_div_pow2 by lia.
  pose proof (Z.mod_pos_bound a (2 ^ 8)). pose proof (Z.div_mod a (2 ^ 8)). replace (8 * Z.of_nat (S room)) with (8 + 8 * Z.of_nat room) in Ha by lia. rewrite Z.pow_add_r in Ha by lia.
  destruct (IH (a / 2 ^ 8)) as (H1 & H2 & H3); [split; [apply Z.div_pos; lia|apply Z.div_lt_upper_bound; lia]|].
  assert (word 8 (a mod 2 ^ 8)) by (unfold word; lia). rewrite load_le_cons, H1 by done. split; [lia|]. split; [by constructor|]. intros _.
  destruct (decide (a / 2 ^ 8 = 0)) as [E|E].
  - exists [], (a mod 2 ^ 8). rewrite E. split; [by destruct room|lia].
  - destruct (H3 E) as (i & b & -> & Hb). by exists (a mod 2 ^ 8 :: i), b.
Qed.

Lemma abs_bytes_load room l b : (length l < room)%nat -> words 8 (l ++ [b]) -> b <> 0 -> abs_bytes room (load_le (l ++ [b])) = l ++ [b].
Proof.
  revert room. induction l as [|x l IH]; intros room Hr Hw Hb; (destruct room as [|room]; [lia|]); cbn [app length] in *; apply Forall_cons_1 in Hw as [Hx Hw].
  - cbn [load_le abs_bytes]. rewrite Z.shiftl_0_l, Z.lor_0_r. destruct (Z.eqb_spec b 0); [done|]. change 0xff with (Z.ones 8).
    rewrite Z.land_ones, Z.shiftr_div_pow2, Z.mod_small, Z.div_small by (lia || done). by destruct room.
  - rewrite load_le_cons by done. cbn [abs_bytes]. unfold word in Hx. pose proof (load_le_word _ Hw) as Hl.
    assert (0 < load_le (l ++ [b])).
    { apply Forall_app in Hw as [Hwl Hwb]. apply Forall_cons_1 in Hwb as [Hwb _]. pose proof (load_le_word _ Hwl). unfold word in *.
      rewrite load_le_app by (auto with words). cbn. rewrite Z.lor_0_r. pose proof (Z.pow_pos_nonneg 2 (8 * Z.of_nat (length l))). nia. }
    destruct (Z.eqb_spec (x + 2 ^ 8 * load_le (l ++ [b])) 0); [lia|]. change 0xff with (Z.ones 8). rewrite Z.land_ones, Z.shiftr_div_pow2 by lia.
    rewrite (Z.mul_comm (2 ^ 8)), Z.mod_add, Z.div_add, Z.mod_small, Z.div_small, Z.add_0_l by lia. f_equal. apply IH; [lia|done|done].
Qed.

Lemma last_byte i b : words 8 (i ++ [b]) -> words 8 i /\ word 8 b.
Proof. intros H. apply Forall_app in H as [? H]. by apply Forall_cons_1 in H as [? _]. Qed.

Lemma second_last i b c : (i ++ [b; c]).[length (i ++ [b; c]) - 2] = b.
Proof. rewrite length_app. cbn [length]. replace (length i + 2 - 2)%nat with (length i + 0)%nat by lia. by rewrite app_nth2_plus. Qed.

Lemma removelast_snoc (i : list Z) b : List.removelast (i ++ [b]) = i.
Proof. apply List.removelast_last. Qed.

(** ** The encoding is a bijection *)

Lemma scriptnum_roundtrip v : - 2 ^ 63 < v < 2 ^ 63 -> set_vch (serialize v) = v /\ words 8 (serialize v) /\ is_minimal (serialize v) = true.
Proof.
  intros Hv. unfold serialize. destruct (Z.eqb_spec v 0) as [->|Hn]; [repeat split; constructor|].
  set (a := if v <? 0 then - v else v). assert (0 < a < 2 ^ 63) as Ha by (unfold a; destruct (Z.ltb_spec v 0); lia).
  destruct (abs_bytes_spec 8 a) as (Hl & Hw & Hs); [change (8 * Z.of_nat 8) with 64; lia|]. destruct (Hs ltac:(lia)) as (i & b & E & Hb). rewrite E in *. clear E Hs.
  destruct (last_byte _ _ Hw) as [Hwi Hwb]. rewrite back_snoc, removelast_snoc, byte_high by done.
  assert (load_le i + 2 ^ (8 * Z.of_nat (length i)) * b = a) as Hm by (rewrite <- Hl, load_le_app by auto with words; cbn; by rewrite Z.lor_0_r).
  destruct (Z.ltb_spec b 128) as [Hs|Hs]; cbn [negb].
  - unfold a in Hm. unfold word in Hwb. destruct (Z.ltb_spec v 0) as [Hneg|Hpos].
    + rewrite byte_signed by lia. assert (word 8 (b + 128)) as Hw' by (unfold word; lia). rewrite set_vch_snoc by done. destruct (Z.ltb_spec (b + 128) 128); [lia|].
      unfold magnitude. replace ((b + 128) mod 128) with b by (apply (Z.mod_unique _ _ 1); lia). split; [lia|]. split; [apply Forall_app_2; [done|by constructor]|].
      unfold is_minimal. rewrite back_snoc, byte_low. replace ((b + 128) mod 128) with b by (apply (Z.mod_unique _ _ 1); lia). destruct (Z.eqb_spec b 0); [done|]. by rewrite andb_false_r.
    + rewrite set_vch_snoc by (done || unfold word; lia). destruct (Z.ltb_spec b 128); [|lia]. unfold magnitude. rewrite Z.mod_small by lia. split; [lia|]. split; [done|].
      unfold is_minimal. rewrite back_snoc, byte_low, Z.mod_small by lia. destruct (Z.eqb_spec b 0); [done|]. by rewrite andb_false_r.
  - set (s := if v <? 0 then 128 else 0). assert (word 8 s) as Hws by (unfold s; destruct (v <? 0); auto with words). rewrite set_vch_snoc by done.
    assert (magnitude (i ++ [b]) s = a) as -> by (unfold magnitude; rewrite Hl; unfold s; destruct (v <? 0); change (128 mod 128) with 0; change (0 mod 128) with 0; lia).
    split; [unfold s, a; destruct (v <? 0) eqn:E; [|done]; cbn [Z.ltb Z.compare Pos.compare Pos.compare_cont]; lia|].
    split; [auto with words|]. unfold is_minimal. rewrite <- app_assoc. cbn [app]. rewrite second_last, byte_high by done. destruct (Z.ltb_spec b 128); [lia|].
    rewrite length_app. cbn [length]. destruct (Nat.leb_spec (length i + 2) 1); [lia|]. cbn [orb negb]. by destruct (_ && _).
Qed.

Lemma set_vch_bound l : words 8 l -> Z.abs (set_vch l) < 2 ^ (8 * Z.of_nat (length l) - 1) \/ l = [].
Proof.
  intros Hl. destruct (snoc_cases l) as [->|(i & b & ->)]; [by right|]. left. destruct (last_byte _ _ Hl) as [Hi Hb].
  rewrite set_vch_snoc by done. pose proof (magnitude_bound i b Hi) as Hm. rewrite length_app. cbn [length]. replace (8 * Z.of_nat (length i + 1) - 1) with (8 * Z.of_nat (length i) + 7) by lia.
  destruct (b <? 128); lia.
Qed.

Lemma serialize_set_vch l : words 8 l -> (length l <= 8)%nat -> is_minimal l = true -> serialize (set_vch l) = l.
Proof.
  intros Hl Hlen Hmin. destruct (snoc_cases l) as [->|(i & b & ->)]; [done|]. destruct (last_byte _ _ Hl) as [Hi Hb]. rewrite length_app in Hlen. cbn [length] in Hlen.
  rewrite set_vch_snoc by done. set (v := if b <? 128 then _ else _). unfold is_minimal in Hmin. rewrite back_snoc, byte_low in Hmin.
  assert (exists j c, c <> 0 /\ words 8 (j ++ [c]) /\ (length j < 8)%nat /\ magnitude i b = load_le (j ++ [c]) /\
    (if c <? 128 then j = i /\ b mod 128 = c else j ++ [c] = i /\ b mod 128 = 0)) as (j & c & Hc & Hwj & Hlj & Hm & Hcase).
  { destruct (Z.eqb_spec (b mod 128) 0) as [Hz|Hz].
    - rewrite length_app in Hmin. cbn [length] in Hmin. destruct (Nat.ltb_spec 0 (length i + 1)); [|lia]. cbn [andb] in Hmin.
      destruct (snoc_cases i) as [->|(j & c & ->)]; [done|]. exists j, c. destruct (last_byte _ _ Hi) as [Hj Hc]. rewrite <- app_assoc in Hmin. cbn [app] in Hmin.
      pose proof (second_last j c b) as Hs. rewrite length_app in Hs. cbn [length] in Hs. rewrite length_app in Hmin, Hlen. cbn [length] in Hmin, Hlen. replace (length j + 1 + 1 - 2)%nat with (length j + 2 - 2)%nat in Hmin by lia. rewrite Hs, byte_high in Hmin by done.
      apply negb_true_iff, orb_false_iff in Hmin as [_ Hmin]. rewrite Hmin. apply Z.ltb_ge in Hmin. split; [lia|]. split; [done|]. split; [lia|]. split; [unfold magnitude; lia|done].
    - exists i, (b mod 128). split; [done|]. pose proof (Z.mod_pos_bound b 128). assert (word 8 (b mod 128)) by (unfold word; lia). split; [auto with words|]. split; [lia|].
      split; [rewrite load_le_app by auto with words; cbn; by rewrite Z.lor_0_r|]. destruct (Z.ltb_spec (b mod 128) 128); [done|lia]. }
  pose proof (abs_bytes_load 8 j c Hlj Hwj Hc) as Hab. destruct (last_byte _ _ Hwj) as [Hwj' Hwc].
  assert (0 < magnitude i b) as Hpos.
  { rewrite Hm, load_le_app by auto with words. pose proof (load_le_word j Hwj'). unfold word in *. cbn. rewrite Z.lor_0_r. pose proof (Z.pow_pos_nonneg 2 (8 * Z.of_nat (length j))). nia. }
  unfold serialize. assert (v <> 0 /\ (v <? 0) = negb (b <? 128) /\ (if v <? 0 then - v else v) = load_le (j ++ [c])) as (Hv & Hneg & Habs).
  { unfold v. destruct (b <? 128); [destruct (Z.ltb_spec (magnitude i b) 0)|destruct (Z.ltb_spec (- magnitude i b) 0)]; cbn [negb]; repeat split; lia. }
  destruct (Z.eqb_spec v 0); [done|]. rewrite Habs, Hab, back_snoc, removelast_snoc, byte_high, Hneg by done. unfold word in Hb. destruct (Z.ltb_spec c 128) as [Hs|Hs]; cbn [negb].
  - destruct Hcase as [-> Hbc]. destruct (Z.ltb_spec b 128); cbn [negb]; [rewrite Z.mod_small in Hbc by lia; by subst|].
    rewrite byte_signed by (subst c; apply Z.mod_pos_bound; lia). do 2 f_equal. rewrite <- Hbc. rewrite <- (Z.mod_unique b 128 1 (b - 128)); lia.
  - destruct Hcase as [-> Hbc]. do 2 f_equal. destruct (Z.ltb_spec b 128); cbn [negb]; [rewrite Z.mod_small in Hbc by lia; lia|].
    pose proof (Z.mod_unique b 128 1 (b - 128)). lia.
Qed.

(** Operands of four bytes are symmetric integers of 32 bits, so [getint] does not
    clamp them. *)
Lemma operand_range vch fRequireMinimal v : words 8 vch -> CScriptNum vch fRequireMinimal nDefaultMaxNumSize = Some v -> - 2 ^ 31 < v < 2 ^ 31 /\ getint v = v.
Proof.
  intros Hw E. unfold CScriptNum, nDefaultMaxNumSize in E. destruct (Nat.ltb_spec 4 (length vch)) as [|Hl]; [done|]. destruct (_ && _); [done|]. apply Some_inj in E as <-.
  assert (- 2 ^ 31 < set_vch vch < 2 ^ 31) as H.
  { destruct (set_vch_bound vch Hw) as [Hb| ->]; [|cbn; lia]. assert (2 ^ (8 * Z.of_nat (length vch) - 1) <= 2 ^ 31) by (apply Z.pow_le_mono_r; lia). lia. }
  split; [done|]. unfold getint, INT_MAX, INT_MIN. destruct (Z.ltb_spec (2 ^ 31 - 1) (set_vch vch)); [lia|]. destruct (Z.ltb_spec (set_vch vch) (- 2 ^ 31)); [lia|done].
Qed.

(** The two readings of an operand differ only in what they refuse. *)
Lemma CScriptNum_relax vch m v : CScriptNum vch true m = Some v -> CScriptNum vch false m = Some v.
Proof. unfold CScriptNum. destruct (_ <? _)%nat; [done|]. cbn [andb]. by destruct (is_minimal vch). Qed.

(** The length of a positive number tells whether it is an operand. *)
Lemma serialize_short v : 0 < v < 2 ^ 63 -> let n := length (serialize v) in (1 <= n <= 8)%nat /\ (v < 2 ^ 31 <-> (n <= 4)%nat).
Proof.
  intros Hv n. destruct (scriptnum_roundtrip v) as (Hr & Hw & Hm); [lia|]. assert (serialize v <> []) as Hne by (intros E; rewrite E in Hr; cbn in Hr; lia).
  assert (n <= 9 /\ 1 <= n)%nat as [Hn9 Hn1].
  { unfold n. split; [|destruct (serialize v); [done|cbn; lia]]. unfold serialize. destruct (v =? 0); [cbn; lia|]. assert (forall r a, (length (abs_bytes r a) <= r)%nat) as Ha by (induction r; intros; cbn [abs_bytes]; [done|]; destruct (_ =? 0); cbn; [lia|]; specialize (IHr (a >> 8)); lia).
    destruct (Z.ltb_spec v 0); [lia|]. specialize (Ha 8%nat v). destruct (negb _); [rewrite length_app; cbn [length]; lia|lia]. }
  (* a minimal string of [n] bytes is at least [2 ^ (8 (n - 1) - 1)] *)
  assert (2 ^ (8 * Z.of_nat n - 9) <= v \/ n = 1%nat) as Hlow.
  { destruct (decide (n = 1%nat)) as [|Hn]; [by right|left]. destruct (snoc_cases (serialize v)) as [|(i & b & E)]; [done|]. rewrite E in *. destruct (last_byte _ _ Hw) as [Hi Hb]. unfold n in *. clear n. rewrite E, length_app in *. cbn [length] in *.
    rewrite set_vch_snoc in Hr by done. pose proof (magnitude_bound i b Hi). destruct (b <? 128) eqn:Eb; [|lia]. unfold is_minimal in Hm. rewrite back_snoc, byte_low in Hm. unfold magnitude in Hr.
    pose proof (load_le_word i Hi) as Hl. unfold word in Hl. pose proof (Z.mod_pos_bound b 128). destruct (Z.eqb_spec (b mod 128) 0) as [Hz|Hz].
    - rewrite length_app in Hm. cbn [length] in Hm. destruct (Nat.ltb_spec 0 (length i + 1)); [|lia]. cbn [andb] in Hm. destruct (snoc_cases i) as [->|(j & c & ->)]; [cbn in Hn; lia|]. destruct (last_byte _ _ Hi) as [Hj Hc].
      rewrite <- app_assoc in Hm. cbn [app] in Hm. pose proof (second_last j c b) as Hs. rewrite length_app in Hs, Hm. cbn [length] in Hs, Hm. replace (length j + 1 + 1 - 2)%nat with (length j + 2 - 2)%nat in Hm by lia. rewrite Hs, byte_high in Hm by done.
      apply negb_true_iff, orb_false_iff in Hm as [_ Hm]. apply Z.ltb_ge in Hm. rewrite length_app in *. cbn [length] in *. rewrite load_le_app in Hr by auto with words. cbn in Hr. rewrite Z.lor_0_r, Hz in Hr.
      pose proof (load_le_word j Hj) as Hlj. unfold word in Hlj. replace (8 * Z.of_nat (length j + 1 + 1) - 9) with (8 * Z.of_nat (length j) + 7) by lia. rewrite Z.pow_add_r by lia. change (2 ^ 7) with 128. nia.
    - replace (8 * Z.of_nat (length i + 1) - 9) with (8 * Z.of_nat (length i) - 1) by lia. assert (2 ^ (8 * Z.of_nat (length i) - 1) <= 2 ^ (8 * Z.of_nat (length i))) by (apply Z.pow_le_mono_r; lia). nia. }
  pose proof (set_vch_bound _ Hw) as [Hb|]; [|done]. rewrite Hr, Z.abs_eq in Hb by lia. fold n in Hb. split.
  - split; [done|]. destruct Hlow as [Hlow|]; [|lia]. destruct (decide (n = 9%nat)) as [E|]; [|lia]. rewrite E in Hlow. change (8 * Z.of_nat 9 - 9) with 63 in Hlow. lia.
  - split.
    + intros H31. destruct Hlow as [Hlow|]; [|lia]. destruct (decide (n <= 4)%nat); [done|]. assert (2 ^ 31 <= 2 ^ (8 * Z.of_nat n - 9)) by (apply Z.pow_le_mono_r; lia). lia.
    + intros H4. assert (2 ^ (8 * Z.of_nat n - 1) <= 2 ^ 31) by (apply Z.pow_le_mono_r; lia). lia.
Qed.

(** C27. The encoding of script numbers is a bijection between the integers of less than
    64 bits and the shortest strings of at most eight bytes: decoding gives the number
    back and is inverse to encoding on strings that pass the test for the shortest
    form.  An operand of at most four bytes is a symmetric 32-bit integer, which the
    conversion to [int] does not change. *)
Theorem scriptnum_bijection :
  (forall v, - 2 ^ 63 < v < 2 ^ 63 -> set_vch (serialize v) = v /\ is_minimal (serialize v) = true /\ words 8 (serialize v)) /\
  (forall l, words 8 l -> (length l <= 8)%nat -> is_minimal l = true -> serialize (set_vch l) = l) /\
  (forall vch m v, words 8 vch -> CScriptNum vch m nDefaultMaxNumSize = Some v -> - 2 ^ 31 < v < 2 ^ 31 /\ getint v = v).
Proof.
  split; [|split; [apply serialize_set_vch|apply operand_range]].
  intros v Hv. destruct (scriptnum_roundtrip v Hv) as (H1 & H2 & H3). done.
Qed.

Lemma scriptnum_bijection_witness : set_vch (serialize (-255)) = -255 /\ serialize (set_vch [0xff; 0x80]) = [0xff; 0x80].
Proof.
  destruct scriptnum_bijection as (H1 & H2 & _). split; [exact (proj1 (H1 (-255) ltac:(lia)))|].
  apply H2; [apply (bool_decide_unpack _); by vm_compute|cbn; lia|by vm_compute].
Defined.
