(* ===== verification/Script.v ===== *)
(** * script/script.h, script.cpp: scripts

    A script is the list of its bytes and a position in it the bytes from there on.
    Reading one operation, writing pushes, deleting a piece ([FindAndDelete]), the
    count of signature checks and the templates of outputs.  A script decomposes in
    one way into the operations that are read from it, and this decomposition is the
    reference for the functions that walk over a script. *)

From Stdlib Require Import ZArith Lia.
From stdpp Require Import base tactics numbers list.
From S2P Require Import Prelude SphTypes Serialize Compressor ScriptNum.

(** ** Operation codes *)

Definition OP_0 : Z := 0x00.
Definition OP_PUSHDATA1 : Z := 0x4c.
Definition OP_PUSHDATA2 : Z := 0x4d.
Definition OP_PUSHDATA4 : Z := 0x4e.
Definition OP_1NEGATE : Z := 0x4f.
Definition OP_1 : Z := 0x51.
Definition OP_16 : Z := 0x60.
Definition OP_NOP : Z := 0x61.
Definition OP_IF : Z := 0x63.
Definition OP_NOTIF : Z := 0x64.
Definition OP_ELSE : Z := 0x67.
Definition OP_ENDIF : Z := 0x68.
Definition OP_VERIFY : Z := 0x69.
Definition OP_TOALTSTACK : Z := 0x6b.
Definition OP_FROMALTSTACK : Z := 0x6c.
Definition OP_2DROP : Z := 0x6d.
Definition OP_2DUP : Z := 0x6e.
Definition OP_3DUP : Z := 0x6f.
Definition OP_2OVER : Z := 0x70.
Definition OP_2ROT : Z := 0x71.
Definition OP_2SWAP : Z := 0x72.
Definition OP_IFDUP : Z := 0x73.
Definition OP_DEPTH : Z := 0x74.
Definition OP_DROP : Z := 0x75.
Definition OP_NIP : Z := 0x77.
Definition OP_OVER : Z := 0x78.
Definition OP_PICK : Z := 0x79.
Definition OP_ROLL : Z := 0x7a.
Definition OP_ROT : Z := 0x7b.
Definition OP_SWAP : Z := 0x7c.
Definition OP_TUCK : Z := 0x7d.
Definition OP_CAT : Z := 0x7e.
Definition OP_SUBSTR : Z := 0x7f.
Definition OP_LEFT : Z := 0x80.
Definition OP_RIGHT : Z := 0x81.
Definition OP_SIZE : Z := 0x82.
Definition OP_INVERT : Z := 0x83.
Definition OP_AND : Z := 0x84.
Definition OP_OR : Z := 0x85.
Definition OP_XOR : Z := 0x86.
Definition OP_1ADD : Z := 0x8b.
Definition OP_1SUB : Z := 0x8c.
Definition OP_2MUL : Z := 0x8d.
Definition OP_2DIV : Z := 0x8e.
Definition OP_NEGATE : Z := 0x8f.
Definition OP_ABS : Z := 0x90.
Definition OP_NOT : Z := 0x91.
Definition OP_0NOTEQUAL : Z := 0x92.
Definition OP_ADD : Z := 0x93.
Definition OP_SUB : Z := 0x94.
Definition OP_MUL : Z := 0x95.
Definition OP_DIV : Z := 0x96.
Definition OP_MOD : Z := 0x97.
Definition OP_LSHIFT : Z := 0x98.
Definition OP_RSHIFT : Z := 0x99.
Definition OP_BOOLAND : Z := 0x9a.
Definition OP_BOOLOR : Z := 0x9b.
Definition OP_NUMEQUAL : Z := 0x9c.
Definition OP_NUMEQUALVERIFY : Z := 0x9d.
Definition OP_NUMNOTEQUAL : Z := 0x9e.
Definition OP_LESSTHAN : Z := 0x9f.
Definition OP_GREATERTHAN : Z := 0xa0.
Definition OP_LESSTHANOREQUAL : Z := 0xa1.
Definition OP_GREATERTHANOREQUAL : Z := 0xa2.
Definition OP_MIN : Z := 0xa3.
Definition OP_MAX : Z := 0xa4.
Definition OP_WITHIN : Z := 0xa5.
Definition OP_RIPEMD160 : Z := 0xa6.
Definition OP_SHA1 : Z := 0xa7.
Definition OP_SHA256 : Z := 0xa8.
Definition OP_HASH256 : Z := 0xaa.
Definition OP_CODESEPARATOR : Z := 0xab.
Definition OP_CHECKSIGVERIFY : Z := 0xad.
Definition OP_CHECKMULTISIG : Z := 0xae.
Definition OP_CHECKMULTISIGVERIFY : Z := 0xaf.
Definition OP_NOP1 : Z := 0xb0.
Definition OP_CHECKLOCKTIMEVERIFY : Z := 0xb1.
Definition OP_CHECKSEQUENCEVERIFY : Z := 0xb2.
Definition OP_NOP4 : Z := 0xb3.
Definition OP_NOP10 : Z := 0xb9.
Definition OP_CFUND : Z := 0xc1.
Definition OP_PROP : Z := 0xc2.
Definition OP_PREQ : Z := 0xc3.
Definition OP_YES : Z := 0xc4.
Definition OP_NO : Z := 0xc5.
Definition OP_COINSTAKE : Z := 0xc6.
Definition OP_ABSTAIN : Z := 0xc7.
Definition OP_REMOVE : Z := 0xc8.
Definition OP_DAO : Z := 0xc9.
Definition OP_ANSWER : Z := 0xca.
Definition OP_CONSULTATION : Z := 0xcb.
Definition OP_POOL : Z := 0xd0.
Definition OP_INVALIDOPCODE : Z := 0xff.

Definition MAX_SCRIPT_ELEMENT_SIZE : Z := 520.
Definition MAX_OPS_PER_SCRIPT : Z := 201.
Definition MAX_PUBKEYS_PER_MULTISIG : Z := 20.
Definition LOCKTIME_THRESHOLD : Z := 500000000.

(** ** Writing *)

(** The bytes that [operator<<] appends for a string of bytes. *)
Definition push (b : list Z) : list Z :=
  let size := Z.of_nat (length b) in
  (if size <? OP_PUSHDATA1 then [size]
   else if size <=? 0xff then [OP_PUSHDATA1; size]
   else if size <=? 0xffff then OP_PUSHDATA2 :: store_le 2 size
   else OP_PUSHDATA4 :: store_le 4 size) ++ b.

Definition push_int64 (n : Z) : list Z :=
  if (n =? -1) || ((1 <=? n) && (n <=? 16)) then [n + (OP_1 - 1)]
  else if n =? 0 then [OP_0]
  else push (serialize n).

Definition push_scriptnum (n : Z) : list Z := push (getvch n).

(** ** Reading an operation *)

(** An operation with its operand and the position behind it; or a failure, for which
    the operation is [OP_INVALIDOPCODE], the operand empty, and the position where
    reading stopped. *)
Inductive op_result :=
  | Op (opcodeRet : Z) (vchRet pc : list Z)
  | NoOp (pc : list Z).

Definition read_operand (opcode nSize : Z) (pc : list Z) : op_result :=
  if Z.of_nat (length pc) <? nSize then NoOp pc
  else Op opcode (take (Z.to_nat nSize) pc) (drop (Z.to_nat nSize) pc).

Definition GetOp2 (pc : list Z) : op_result :=
  match pc with
  | [] => NoOp []
  | opcode :: pc =>
      if opcode <=? OP_PUSHDATA4 then
        if opcode <? OP_PUSHDATA1 then read_operand opcode opcode pc
        else if opcode =? OP_PUSHDATA1 then
          if (length pc <? 1)%nat then NoOp pc else read_operand opcode pc.[0] (drop 1 pc)
        else if opcode =? OP_PUSHDATA2 then
          if (length pc <? 2)%nat then NoOp pc else read_operand opcode (load_le (take 2 pc)) (drop 2 pc)
        else
          if (length pc <? 4)%nat then NoOp pc else read_operand opcode (load_le (take 4 pc)) (drop 4 pc)
      else Op opcode [] pc
  end.

(** [None] is a failed assertion. *)
Definition DecodeOP_N (opcode : Z) : option Z :=
  if opcode =? OP_0 then Some 0
  else if (OP_1 <=? opcode) && (opcode <=? OP_16) then Some (opcode - (OP_1 - 1)) else None.
Definition EncodeOP_N (n : Z) : option Z :=
  if (0 <=? n) && (n <=? 16) then Some (if n =? 0 then OP_0 else OP_1 + n - 1) else None.

(** The length of a token is what was consumed; it is never zero. *)
Definition consumed (pc pc' : list Z) : list Z := take (length pc - length pc') pc.

(** ** Walking over a script *)

(** [while (pc < end())]: every operation takes a byte, so the length is enough fuel. *)
Fixpoint push_only (fuel : nat) (pc : list Z) : bool :=
  match fuel, pc with
  | O, _ | _, [] => true
  | S fuel, _ =>
      match GetOp2 pc with
      | NoOp _ => false
      | Op opcode _ pc => if OP_16 <? opcode then false else push_only fuel pc
      end
  end.
Definition IsPushOnly (script : list Z) : bool := push_only (length script) script.

Definition sigops_of (fAccurate : bool) (lastOpcode opcode : Z) : Z :=
  if (opcode =? OP_CHECKSIG) || (opcode =? OP_CHECKSIGVERIFY) then 1
  else if (opcode =? OP_CHECKMULTISIG) || (opcode =? OP_CHECKMULTISIGVERIFY) then
    if fAccurate && (OP_1 <=? lastOpcode) && (lastOpcode <=? OP_16) then default 0 (DecodeOP_N lastOpcode)
    else MAX_PUBKEYS_PER_MULTISIG
  else 0.

Fixpoint sigop_count (fuel : nat) (fAccurate : bool) (lastOpcode : Z) (pc : list Z) : Z :=
  match fuel, pc with
  | O, _ | _, [] => 0
  | S fuel, _ =>
      match GetOp2 pc with
      | NoOp _ => 0
      | Op opcode _ pc => sigops_of fAccurate lastOpcode opcode + sigop_count fuel fAccurate opcode pc
      end
  end.
Definition GetSigOpCount (script : list Z) (fAccurate : bool) : Z :=
  sigop_count (length script) fAccurate OP_INVALIDOPCODE script.

Definition IsPayToScriptHash (s : list Z) : bool :=
  (length s =? 23)%nat && (s.[0] =? OP_HASH160) && (s.[1] =? 0x14) && (s.[22] =? OP_EQUAL).

(** The last operand that a list of pushes leaves; [None] if it is not one. *)
Fixpoint last_push (fuel : nat) (data pc : list Z) : option (list Z) :=
  match fuel, pc with
  | O, _ | _, [] => Some data
  | S fuel, _ =>
      match GetOp2 pc with
      | NoOp _ => None
      | Op opcode data pc => if OP_16 <? opcode then None else last_push fuel data pc
      end
  end.

Definition GetSigOpCount_p2sh (script scriptSig : list Z) : Z :=
  if negb (IsPayToScriptHash script) then GetSigOpCount script true
  else match last_push (length scriptSig) [] scriptSig with
       | None => 0
       | Some subscript => GetSigOpCount subscript true
       end.

(** ** FindAndDelete *)

(** [while (end() - pc >= b.size() && equal(b.begin(), b.end(), pc))] *)
Fixpoint skip_matches (fuel : nat) (b pc : list Z) (nFound : Z) : list Z * Z :=
  match fuel with
  | O => (pc, nFound)
  | S fuel =>
      if (length b <=? length pc)%nat && bool_decide (take (length b) pc = b)
      then skip_matches fuel b (drop (length b) pc) (nFound + 1)
      else (pc, nFound)
  end.

Fixpoint delete_loop (fuel : nat) (b pc2 pc result : list Z) (nFound : Z) : list Z * list Z * Z :=
  match fuel with
  | O => (result, pc2, nFound)
  | S fuel =>
      let result := result ++ consumed pc2 pc in
      let '(pc, nFound) := skip_matches (length pc) b pc nFound in
      match GetOp2 pc with
      | NoOp _ => (result, pc, nFound)
      | Op _ _ pc' => delete_loop fuel b pc pc' result nFound
      end
  end.

(** The script afterwards and the number of pieces that were found. *)
Definition FindAndDelete (script b : list Z) : list Z * Z :=
  if bool_decide (b = []) then (script, 0)
  else
    let '(result, pc2, nFound) := delete_loop (S (length script)) b script script [] 0 in
    if 0 <? nFound then (result ++ pc2, nFound) else (script, nFound).

(** ** Templates of outputs *)

Definition IsPayToPublicKeyHash (s : list Z) : bool :=
  (length s =? 25)%nat && (s.[0] =? OP_DUP) && (s.[1] =? OP_HASH160) && (s.[2] =? 0x14) && (s.[23] =? OP_EQUALVERIFY) && (s.[24] =? OP_CHECKSIG).

Definition IsPayToPublicKey (s : list Z) : bool :=
  (length s =? 35)%nat && (s.[0] =? 0x21) && (s.[34] =? OP_CHECKSIG).

Definition IsPayToWitnessScriptHash (s : list Z) : bool :=
  (length s =? 34)%nat && (s.[0] =? OP_0) && (s.[1] =? 0x20).

Definition IsColdStaking (s : list Z) : bool :=
  (length s =? 1 + 1 + 25 + 1 + 25 + 1)%nat && (s.[0] =? OP_COINSTAKE) && (s.[1] =? OP_IF) && (s.[2] =? OP_DUP) && (s.[3] =? OP_HASH160) && (s.[4] =? 0x14) &&
  (s.[25] =? OP_EQUALVERIFY) && (s.[26] =? OP_CHECKSIG) && (s.[27] =? OP_ELSE) && (s.[28] =? OP_DUP) && (s.[29] =? OP_HASH160) && (s.[30] =? 0x14) &&
  (s.[51] =? OP_EQUALVERIFY) && (s.[52] =? OP_CHECKSIG) && (s.[53] =? OP_ENDIF).

Definition IsColdStakingv2 (s : list Z) : bool :=
  (length s =? 1 + 1 + 25 + 1 + 25 + 1 + 22)%nat && (s.[0] =? 0x14) && (s.[21] =? OP_DROP) && (s.[22] =? OP_COINSTAKE) && (s.[23] =? OP_IF) && (s.[24] =? OP_DUP) &&
  (s.[25] =? OP_HASH160) && (s.[26] =? 0x14) && (s.[47] =? OP_EQUALVERIFY) && (s.[48] =? OP_CHECKSIG) && (s.[49] =? OP_ELSE) && (s.[50] =? OP_DUP) &&
  (s.[51] =? OP_HASH160) && (s.[52] =? 0x14) && (s.[73] =? OP_EQUALVERIFY) && (s.[74] =? OP_CHECKSIG) && (s.[75] =? OP_ENDIF).

(** The version and the program of a witness output. *)
Definition IsWitnessProgram (s : list Z) : option (Z * list Z) :=
  if (length s <? 4)%nat || (42 <? length s)%nat then None
  else if negb (s.[0] =? OP_0) && ((s.[0] <? OP_1) || (OP_16 <? s.[0])) then None
  else if s.[1] + 2 =? Z.of_nat (length s) then version ← DecodeOP_N s.[0]; Some (version, drop 2 s)
  else None.

(** [GetScriptForDestination]: to a key, to a staking and a spending key, the same with
    a voting key, and to a script. *)
Definition script_to_key (keyID : list Z) : list Z := [OP_DUP; OP_HASH160] ++ push keyID ++ [OP_EQUALVERIFY; OP_CHECKSIG].
Definition script_to_staking (staking spending : list Z) : list Z :=
  [OP_COINSTAKE; OP_IF] ++ script_to_key staking ++ [OP_ELSE] ++ script_to_key spending ++ [OP_ENDIF].
Definition script_to_staking_v2 (staking spending voting : list Z) : list Z := push voting ++ [OP_DROP] ++ script_to_staking staking spending.
Definition script_to_script (scriptID : list Z) : list Z := [OP_HASH160] ++ push scriptID ++ [OP_EQUAL].

(** ** One operation *)

(** [token tok opcode vch]: these bytes are one operation. *)
Definition token (tok : list Z) (opcode : Z) (vch : list Z) : Prop := tok <> [] /\ forall rest, GetOp2 (tok ++ rest) = Op opcode vch rest.

Lemma read_operand_inv opcode nSize pc o v pc' : 0 <= nSize -> read_operand opcode nSize pc = Op o v pc' ->
  o = opcode /\ pc = v ++ pc' /\ Z.of_nat (length v) = nSize.
Proof.
  intros Hn. unfold read_operand. destruct (Z.ltb_spec (Z.of_nat (length pc)) nSize) as [|Hl]; [done|]. intros [= <- <- <-]. rewrite take_drop, length_take. split; [done|]. split; [done|lia].
Qed.

Lemma read_operand_app opcode v rest : read_operand opcode (Z.of_nat (length v)) (v ++ rest) = Op opcode v rest.
Proof.
  unfold read_operand. rewrite length_app. destruct (Z.ltb_spec (Z.of_nat (length v + length rest)) (Z.of_nat (length v))); [lia|].
  by rewrite Nat2Z.id, take_app_length, drop_app_length.
Qed.

(** What was read does not depend on what follows. *)
Lemma get_op_token pc opcode vch pc' : words 8 pc -> GetOp2 pc = Op opcode vch pc' ->
  exists tok, pc = tok ++ pc' /\ token tok opcode vch /\ tok.[0] = opcode.
Proof.
  intros Hw. destruct pc as [|op pc]; [done|]. apply Forall_cons_1 in Hw as [Hop Hw]. unfold word in Hop. unfold token. cbn [GetOp2].
  assert (forall n, words 8 pc -> 0 <= load_le (take n pc)) as Hload by (intros n Hpc; apply (load_le_word (take n pc)); auto with words).
  assert (forall n k, (length pc <? n)%nat = false -> read_operand op k (drop n pc) = Op opcode vch pc' -> 0 <= k ->
    opcode = op /\ exists len, length len = n /\ pc = len ++ vch ++ pc' /\ k = Z.of_nat (length vch)) as Hsplit.
  { intros n k Hn E Hk. apply read_operand_inv in E as (-> & Hd & Hk'); [|done]. split; [done|]. exists (take n pc). apply Nat.ltb_ge in Hn. rewrite length_take, <- Hd, take_drop. split; [lia|done]. }
  destruct (op <=? OP_PUSHDATA4) eqn:H4.
  2:{ intros [= <- <- <-]. exists [op]. split; [done|]. split; [|done]. split; [done|]. intros rest. cbn [app GetOp2]. by rewrite H4. }
  destruct (op <? OP_PUSHDATA1) eqn:H1.
  { intros E. apply read_operand_inv in E as (-> & -> & Hl); [|lia]. exists (op :: vch). split; [done|]. split; [|done]. split; [done|]. intros rest. cbn [app GetOp2]. rewrite H4, H1. rewrite <- Hl at 2. apply read_operand_app. }
  destruct (op =? OP_PUSHDATA1) eqn:E1; [|destruct (op =? OP_PUSHDATA2) eqn:E2]; (match goal with |- context [(length pc <? ?n)%nat] => destruct (length pc <? n)%nat eqn:L; [done|] end); intros E; apply Hsplit in E as (-> & len & Hlen & -> & Hk); try done;
    try (by apply Hload); try (destruct pc; [done|]; by apply Forall_cons_1 in Hw as [[? _] _]);
    exists (op :: len ++ vch); (split; [cbn [app]; by rewrite <- app_assoc|]); (split; [|done]); (split; [done|]); intros rest; cbn [app GetOp2]; rewrite H4, H1, ?E1, ?E2; rewrite <- app_assoc, length_app, Hlen;
    (match goal with |- context [(?n <? ?k)%nat] => destruct (Nat.ltb_spec n k); [lia|] end).
  - destruct len as [|x []]; try done. cbn [app nth skipn] in Hk |- *. rewrite Hk. apply read_operand_app.
  - rewrite <- Hlen, take_app_length, drop_app_length in *. rewrite Hk. apply read_operand_app.
  - rewrite <- Hlen, take_app_length, drop_app_length in *. rewrite Hk. apply read_operand_app.
Qed.

Lemma get_op_shrinks pc opcode vch pc' : words 8 pc -> GetOp2 pc = Op opcode vch pc' -> (length pc' < length pc)%nat /\ words 8 pc' /\ words 8 vch /\ word 8 opcode.
Proof.
  intros Hw E. destruct (get_op_token _ _ _ _ Hw E) as (tok & -> & [Ht Hr] & Ho). apply Forall_app in Hw as [Hwt Hwp]. rewrite length_app. destruct tok as [|x tok]; [done|]. split; [cbn; lia|]. split; [done|].
  apply Forall_cons_1 in Hwt as [Hx Hwt]. cbn in Ho. subst x. split; [|done].
  specialize (Hr []). rewrite app_nil_r in Hr. cbn [GetOp2] in Hr.
  assert (forall k p, words 8 p -> read_operand opcode k p = Op opcode vch [] -> words 8 vch) as Hro.
  { intros k p Hp. unfold read_operand. destruct (Z.of_nat (length p) <? k); [done|]. intros [= <- _]. auto with words. }
  repeat case_match; first [done | injection Hr as <- _; constructor | eapply Hro; [|done]; auto with words].
Qed.

(** A push is read back. *)
Lemma get_op_push b rest : Z.of_nat (length b) < 2 ^ 32 -> GetOp2 (push b ++ rest) = Op (push b).[0] b rest.
Proof.
  intros Hb. unfold push, OP_PUSHDATA1, OP_PUSHDATA2, OP_PUSHDATA4. set (n := Z.of_nat (length b)) in *. assert (0 <= n) by lia.
  destruct (Z.ltb_spec n 0x4c); [|destruct (Z.leb_spec n 0xff); [|destruct (Z.leb_spec n 0xffff)]].
  - cbn [app nth GetOp2]. unfold OP_PUSHDATA4, OP_PUSHDATA1. destruct (Z.leb_spec n 0x4e); [|lia]. destruct (Z.ltb_spec n 0x4c); [|lia]. apply read_operand_app.
  - cbn [app nth GetOp2 length]. cbn. apply read_operand_app.
  - pose proof (store_le_length 2 n) as Hl. cbn [app GetOp2]. rewrite <- app_assoc, length_app, Hl. cbn [OP_PUSHDATA1 OP_PUSHDATA2 OP_PUSHDATA4 Z.leb Z.ltb Z.eqb Z.compare Pos.compare Pos.compare_cont Pos.eqb Nat.ltb Nat.leb Nat.add nth].
    rewrite (take_app_length' _ _ 2), (drop_app_length' _ _ 2) by done. rewrite load_store_le by (unfold word; cbn; lia). apply read_operand_app.
  - pose proof (store_le_length 4 n) as Hl. cbn [app GetOp2]. rewrite <- app_assoc, length_app, Hl. cbn [OP_PUSHDATA1 OP_PUSHDATA2 OP_PUSHDATA4 Z.leb Z.ltb Z.eqb Z.compare Pos.compare Pos.compare_cont Pos.eqb Nat.ltb Nat.leb Nat.add nth].
    rewrite (take_app_length' _ _ 4), (drop_app_length' _ _ 4) by done. rewrite load_store_le by (unfold word; cbn; lia). apply read_operand_app.
Qed.

Lemma push_token b : Z.of_nat (length b) < 2 ^ 32 -> token (push b) (push b).[0] b.
Proof. intros Hb. split; [unfold push; repeat case_match; done|]. intros rest. by apply get_op_push. Qed.

(** ** The operations of a script *)

(** The operations in their order, and the rest from which none can be read. *)
Fixpoint tokens (fuel : nat) (pc : list Z) : list (list Z) * list Z :=
  match fuel with
  | O => ([], pc)
  | S fuel =>
      match GetOp2 pc with
      | NoOp _ => ([], pc)
      | Op _ _ pc' => let '(l, rest) := tokens fuel pc' in (consumed pc pc' :: l, rest)
      end
  end.
Definition operations (script : list Z) : list (list Z) * list Z := tokens (length script) script.

Definition is_token (tok : list Z) : Prop := exists opcode vch, token tok opcode vch.
Definition stuck (pc : list Z) : Prop := exists pc', GetOp2 pc = NoOp pc'.

Lemma consumed_app (tok pc : list Z) : consumed (tok ++ pc) pc = tok.
Proof. unfold consumed. rewrite length_app. replace (length tok + length pc - length pc)%nat with (length tok) by lia. apply take_app_length. Qed.

Lemma stuck_or_op pc : stuck pc \/ exists opcode vch pc', GetOp2 pc = Op opcode vch pc'.
Proof. unfold stuck. destruct (GetOp2 pc); eauto. Qed.

Lemma tokens_spec fuel pc : words 8 pc -> (length pc <= fuel)%nat ->
  let '(l, rest) := tokens fuel pc in pc = concat l ++ rest /\ Forall is_token l /\ stuck rest.
Proof.
  revert pc. induction fuel as [|fuel IH]; intros pc Hw Hl; cbn [tokens]; [destruct pc; cbn in Hl; [|lia]; split; [done|]; split; [constructor|by exists []]|].
  destruct (GetOp2 pc) as [o v pc'|pc'] eqn:E; [|split; [done|]; split; [constructor|by exists pc']].
  destruct (get_op_token _ _ _ _ Hw E) as (tok & -> & Htok & _). rewrite consumed_app. apply Forall_app in Hw as [_ Hw].
  specialize (IH pc' Hw). destruct (tokens fuel pc') as [l rest]. destruct IH as (-> & Hf & Hs); [destruct Htok as [Hn _]; rewrite length_app in Hl; destruct tok; [done|]; cbn in Hl; lia|].
  cbn [concat]. rewrite <- app_assoc. split; [done|]. split; [constructor; [by exists o, v|done]|done].
Qed.

Lemma operations_spec script : words 8 script ->
  script = concat (operations script).1 ++ (operations script).2 /\ Forall is_token (operations script).1 /\ stuck (operations script).2.
Proof. intros Hw. pose proof (tokens_spec (length script) script Hw (le_n _)) as H. unfold operations. by destruct (tokens _ _). Qed.

(** Operations are prefix-free. *)
Lemma token_unique t b x y : is_token t -> is_token b -> t ++ x = b ++ y -> t = b /\ x = y.
Proof.
  intros (o & v & _ & Ht) (o' & v' & _ & Hb) E. pose proof (Ht x) as E1. rewrite E, Hb in E1. injection E1 as _ _ ->. split; [|done]. by apply app_inv_tail in E.
Qed.

Lemma stuck_not_prefix rest b y : stuck rest -> is_token b -> rest <> b ++ y.
Proof. intros [p Hs] (o & v & _ & Hb) ->. by rewrite Hb in Hs. Qed.

(** ** FindAndDelete removes the operations equal to the given one *)

Definition starts_with (b pc : list Z) : bool := (length b <=? length pc)%nat && bool_decide (take (length b) pc = b).

Lemma starts_with_spec b pc : starts_with b pc = true <-> exists y, pc = b ++ y.
Proof.
  unfold starts_with. split.
  - intros H. apply andb_prop in H as [_ H]. apply bool_decide_eq_true in H. exists (drop (length b) pc). rewrite <- H at 1. by rewrite take_drop.
  - intros [y ->]. rewrite length_app, take_app_length. rewrite bool_decide_eq_true_2 by done. destruct (Nat.leb_spec (length b) (length b + length y)); [done|lia].
Qed.

Lemma skip_matches_tokens b rest : is_token b -> stuck rest -> forall fuel l n, Forall is_token l -> (length (concat l) <= fuel)%nat ->
  exists k l', l = replicate k b ++ l' /\ (forall t l2, l' = t :: l2 -> t <> b) /\ skip_matches fuel b (concat l ++ rest) n = (concat l' ++ rest, n + Z.of_nat k).
Proof.
  intros Hb Hs. induction fuel as [|fuel IH]; intros l n Hl Hf.
  { exists 0%nat, l. split; [done|]. split; [|cbn; by rewrite Z.add_0_r]. intros t l2 ->. apply Forall_cons_1 in Hl as [(o & v & Hn & _) _]. destruct t; [done|]. cbn in Hf. lia. }
  cbn [skip_matches]. fold (starts_with b (concat l ++ rest)). destruct (starts_with b (concat l ++ rest)) eqn:E.
  - apply starts_with_spec in E as [y E]. destruct l as [|t l]; [cbn in E; by apply stuck_not_prefix in E|]. apply Forall_cons_1 in Hl as [Ht Hl]. cbn [concat] in *. rewrite <- app_assoc in *.
    apply token_unique in E as [-> <-]; [|done|done]. rewrite drop_app_length. destruct (IH l (n + 1)) as (k & l' & -> & Hn & ->); [done|rewrite length_app in Hf; destruct Hb as (_ & _ & Hne & _); destruct b; [done|]; cbn in Hf; lia|].
    exists (S k), l'. split; [done|]. split; [done|]. f_equal. lia.
  - exists 0%nat, l. split; [done|]. split; [|by rewrite Z.add_0_r]. intros t l2 -> ->. assert (starts_with b (concat (b :: l2) ++ rest) = true) as E' by (apply starts_with_spec; cbn [concat]; rewrite <- app_assoc; eauto). by rewrite E in E'.
Qed.

Lemma filter_replicate_eq (b : list Z) k : filter (fun t => t <> b) (replicate k b) = [].
Proof. induction k as [|k IH]; [done|]. cbn [replicate]. rewrite filter_cons_False by auto. done. Qed.

Definition occurrences (b : list Z) (l : list (list Z)) : nat := length (filter (fun t => t = b) l).

Lemma occurrences_replicate b k l : occurrences b (replicate k b ++ l) = (k + occurrences b l)%nat.
Proof. unfold occurrences. rewrite filter_app, length_app. f_equal. induction k as [|k IH]; [done|]. cbn [replicate]. rewrite filter_cons_True by done. cbn [length]. by rewrite IH. Qed.

Lemma delete_loop_tokens b rest : is_token b -> stuck rest -> forall fuel l t result n, Forall is_token l -> (length l < fuel)%nat ->
  exists r p, delete_loop fuel b (t ++ concat l ++ rest) (concat l ++ rest) result n = (r, p, n + Z.of_nat (occurrences b l)) /\
    r ++ p = result ++ t ++ concat (filter (fun x => x <> b) l) ++ rest.
Proof.
  intros Hb Hs. induction fuel as [|fuel IH]; intros l t result n Hl Hf; [lia|]. cbn [delete_loop]. rewrite consumed_app.
  destruct (skip_matches_tokens b rest Hb Hs (length (concat l ++ rest)) l n Hl) as (k & l' & -> & Hn & ->); [rewrite length_app; lia|].
  apply Forall_app in Hl as [_ Hl]. rewrite occurrences_replicate, filter_app, filter_replicate_eq. cbn [app]. rewrite length_app, length_replicate in Hf.
  destruct l' as [|t' l'].
  - cbn [concat app]. destruct Hs as [p Hp]. rewrite Hp. exists (result ++ t), rest. rewrite <- app_assoc. split; [|done]. f_equal. unfold occurrences. cbn. lia.
  - apply Forall_cons_1 in Hl as [Ht Hl]. pose proof (Hn t' l' eq_refl) as Hne. cbn [concat]. rewrite <- app_assoc. destruct Ht as (o & v & Hte & Ht). rewrite Ht.
    destruct (IH l' t' (result ++ t) (n + Z.of_nat k)) as (r & p & -> & Hrp); [done|cbn in Hf; lia|]. exists r, p. split.
    + f_equal. unfold occurrences. rewrite filter_cons_False by done. lia.
    + rewrite Hrp, filter_cons_True by done. cbn [concat]. by rewrite <- !app_assoc.
Qed.

Lemma find_and_delete script b : words 8 script -> is_token b -> let '(l, rest) := operations script in
  FindAndDelete script b = (concat (filter (fun t => t <> b) l) ++ rest, Z.of_nat (occurrences b l)).
Proof.
  intros Hw Hb. destruct (operations_spec script Hw) as (E & Hl & Hs). destruct (operations script) as [l rest]. cbn [fst snd] in *. unfold FindAndDelete.
  rewrite bool_decide_eq_false_2 by (by destruct Hb as (_ & _ & Hn & _)).
  assert (length l <= length (concat l))%nat as Hlen.
  { clear -Hl. induction Hl as [|t l (o & v & Ht & _) Hl IH]; [done|]. cbn [concat]. rewrite length_app. destruct t; [done|]. cbn. lia. }
  destruct (delete_loop_tokens b rest Hb Hs (S (length script)) l [] [] 0 Hl) as (r & p & Hd & Hrp); [rewrite E, length_app; lia|]. cbn [app] in Hd. rewrite <- E in Hd. rewrite Hd. cbn [app] in Hrp. rewrite Z.add_0_l.
  destruct (Z.ltb_spec 0 (Z.of_nat (occurrences b l))) as [Hp|Hz]; [by rewrite Hrp|].
  f_equal. assert (occurrences b l = 0%nat) as H0 by lia. rewrite E at 1. f_equal. f_equal. clear -H0. unfold occurrences in H0. induction l as [|t l IH]; [done|].
  destruct (decide (t = b)); [by rewrite filter_cons_True in H0|]. rewrite filter_cons_False in H0 by done. rewrite filter_cons_True by done. by rewrite <- IH.
Qed.

(** ** Lists of pushes, and counting signature checks *)

Lemma push_only_tokens fuel pc : words 8 pc -> (length pc <= fuel)%nat -> push_only fuel pc = true <->
  exists l, pc = concat l /\ Forall (fun t => is_token t /\ t.[0] <= OP_16) l.
Proof.
  revert pc. induction fuel as [|fuel IH]; intros pc Hw Hl; [destruct pc; [|cbn in Hl; lia]; cbn; split; [by exists []|done]|]. destruct pc as [|x pc]; [cbn; split; [by exists []|done]|]. cbn [push_only]. set (s := x :: pc) in *.
  assert (forall l, s = concat l -> Forall (fun t => is_token t /\ t.[0] <= OP_16) l -> exists t l', s = t ++ concat l' /\ is_token t /\ t.[0] <= OP_16 /\ Forall (fun t => is_token t /\ t.[0] <= OP_16) l') as Hinv.
  { intros [|t l] E Hf; [done|]. apply Forall_cons_1 in Hf as [[Ht Ho] Hf]. by exists t, l. }
  destruct (GetOp2 s) as [o v pc'|p] eqn:E.
  - destruct (get_op_shrinks _ _ _ _ Hw E) as (Hlt & Hw' & _). destruct (get_op_token _ _ _ _ Hw E) as (tok & Es & Htok & Ho). destruct (Z.ltb_spec OP_16 o) as [Hgt|Hle].
    + split; [done|]. intros (l & El & Hf). destruct (Hinv l El Hf) as (t & l' & E' & Ht & Hto & _). rewrite Es in E'. apply token_unique in E' as [-> _]; [lia|by exists o, v|done].
    + rewrite IH by (done || lia). split.
      * intros (l & -> & Hf). exists (tok :: l). split; [done|]. constructor; [|done]. split; [by exists o, v|lia].
      * intros (l & El & Hf). destruct (Hinv l El Hf) as (t & l' & E' & Ht & Hto & Hf'). rewrite Es in E'. apply token_unique in E' as [_ ->]; [by exists l'|by exists o, v|done].
  - split; [done|]. intros (l & El & Hf). destruct (Hinv l El Hf) as (t & l' & E' & (o & v & _ & Ht) & _). rewrite E', Ht in E. done.
Qed.

Lemma sigop_count_bounds fuel last last' pc : 0 <= sigop_count fuel true last pc <= sigop_count fuel false last' pc /\ sigop_count fuel false last' pc <= MAX_PUBKEYS_PER_MULTISIG * Z.of_nat fuel.
Proof.
  revert last last' pc. induction fuel as [|fuel IH]; intros last last' pc; [cbn; lia|]. destruct pc as [|x pc]; [cbn [sigop_count]; unfold MAX_PUBKEYS_PER_MULTISIG; lia|]. cbn [sigop_count]. destruct (GetOp2 (x :: pc)) as [o v pc'|p]; [|unfold MAX_PUBKEYS_PER_MULTISIG; lia].
  specialize (IH o o pc'). assert (0 <= sigops_of true last o <= sigops_of false last' o /\ sigops_of false last' o <= 20) as H; [|unfold MAX_PUBKEYS_PER_MULTISIG in *; lia].
  unfold sigops_of, DecodeOP_N, MAX_PUBKEYS_PER_MULTISIG, OP_1, OP_16, OP_0. cbn [andb]. repeat case_match; cbn [default]; rewrite ?andb_true_iff, ?Z.leb_le in *; unfold default, id in *; try lia; simplify_eq; lia.
Qed.

(** ** Templates *)

(** [bytes_of H] names the bytes of a list whose length is a numeral. *)
Ltac bytes_of s := repeat (let x := fresh "x" in destruct s as [|x s]; [discriminate|]); destruct s; [|discriminate].
Ltac template s C := repeat (apply andb_prop in C as [C ?]); apply Nat.eqb_eq in C; cbn [Nat.add] in C; bytes_of s; cbn [nth] in *;
  repeat match goal with H : (_ =? _) = true |- _ => apply Z.eqb_eq in H end; subst.

Lemma is_key_template s : IsPayToPublicKeyHash s = true <-> exists h, length h = 20%nat /\ s = script_to_key h.
Proof.
  split.
  - unfold IsPayToPublicKeyHash. intros C. template s C. eexists [_; _; _; _; _; _; _; _; _; _; _; _; _; _; _; _; _; _; _; _]. split; [done|]. reflexivity.
  - intros (h & Hh & ->). bytes_of h. reflexivity.
Qed.

Lemma is_script_template s : IsPayToScriptHash s = true <-> exists h, length h = 20%nat /\ s = script_to_script h.
Proof.
  split.
  - unfold IsPayToScriptHash. intros C. template s C. eexists [_; _; _; _; _; _; _; _; _; _; _; _; _; _; _; _; _; _; _; _]. split; [done|]. reflexivity.
  - intros (h & Hh & ->). bytes_of h. reflexivity.
Qed.

Lemma is_staking_template s : IsColdStaking s = true <-> exists h1 h2, length h1 = 20%nat /\ length h2 = 20%nat /\ s = script_to_staking h1 h2.
Proof.
  split.
  - unfold IsColdStaking. intros C. template s C. eexists [_; _; _; _; _; _; _; _; _; _; _; _; _; _; _; _; _; _; _; _], [_; _; _; _; _; _; _; _; _; _; _; _; _; _; _; _; _; _; _; _]. split; [done|]. split; [done|]. reflexivity.
  - intros (h1 & h2 & Hh1 & Hh2 & ->). bytes_of h1. bytes_of h2. reflexivity.
Qed.

Lemma is_staking_v2_template s : IsColdStakingv2 s = true <->
  exists h1 h2 h3, length h1 = 20%nat /\ length h2 = 20%nat /\ length h3 = 20%nat /\ s = script_to_staking_v2 h1 h2 h3.
Proof.
  split.
  - unfold IsColdStakingv2. intros C. template s C.
    eexists [_; _; _; _; _; _; _; _; _; _; _; _; _; _; _; _; _; _; _; _], [_; _; _; _; _; _; _; _; _; _; _; _; _; _; _; _; _; _; _; _], [_; _; _; _; _; _; _; _; _; _; _; _; _; _; _; _; _; _; _; _]. do 3 (split; [done|]). reflexivity.
  - intros (h1 & h2 & h3 & Hh1 & Hh2 & Hh3 & ->). bytes_of h1. bytes_of h2. bytes_of h3. reflexivity.
Qed.

(** *** Deleting a signature *)

(** C26. [FindAndDelete] of one operation, such as the push of a signature, removes exactly
    the operations of the script that are equal to it, and the loop ends; bytes inside
    the operands of other operations and a rest that cannot be read stay as they are.
    The script is the concatenation of its operations and that rest. *)
Theorem find_and_delete_operations (script b : list Z) : words 8 script -> is_token b ->
  script = concat (operations script).1 ++ (operations script).2 /\
  FindAndDelete script b = (concat (filter (fun t => t <> b) (operations script).1) ++ (operations script).2, Z.of_nat (occurrences b (operations script).1)).
Proof.
  intros Hw Hb. destruct (operations_spec script Hw) as (E & _ & _). split; [done|]. pose proof (find_and_delete script b Hw Hb) as H. by destruct (operations script).
Qed.

(** A script with a push of two bytes, the same bytes inside a longer push, and a rest
    that is cut off. *)
Definition demo_script : list Z := push [1; 2] ++ push [9; 2; 1; 2] ++ [OP_DUP] ++ push [1; 2] ++ [5; 1].

Lemma find_and_delete_operations_witness :
  demo_script = concat (operations demo_script).1 ++ (operations demo_script).2 /\
  FindAndDelete demo_script (push [1; 2]) = (concat (filter (fun t => t <> push [1; 2]) (operations demo_script).1) ++ (operations demo_script).2, Z.of_nat (occurrences (push [1; 2]) (operations demo_script).1)).
Proof.
  apply (find_and_delete_operations demo_script (push [1; 2])); [apply (bool_decide_unpack _); by vm_compute|]. exists 2, [1; 2]. apply push_token. by vm_compute.
Defined.

Example find_and_delete_demo : FindAndDelete demo_script (push [1; 2]) = (push [9; 2; 1; 2] ++ [OP_DUP; 5; 1], 2).
Proof. by vm_compute. Qed.
