(* ===== verification/VoteScript.v ===== *)
(** * script/script.cpp, consensus/dao.cpp: votes in scripts

    Votes of the DAO are outputs that cannot be spent, with a fixed layout: a header,
    the hash of what is voted on and, for consultations, a number.  The node writes
    them when it creates a block and reads them when it connects one; the theorems are
    the round trips.  The voter is a piece of the script that was staked. *)

From Stdlib Require Import ZArith Lia.
From stdpp Require Import base tactics numbers list.
From S2P Require Import Prelude SphTypes Serialize Compressor Dao ScriptNum Script.

Definition VOTE_REMOVE : Z := -2.
Definition SUPPORT : Z := -3.
Definition SUPPORT_REMOVE : Z := -4.

Definition IsCommunityFundContribution (s : list Z) : bool := (length s =? 2)%nat && (s.[0] =? OP_RETURN) && (s.[1] =? OP_CFUND).
Definition IsPool (s : list Z) : bool := (length s =? 2)%nat && (s.[0] =? OP_RETURN) && (s.[1] =? OP_POOL).

(** The votes of the community fund: [kind] is [OP_PROP] or [OP_PREQ]. *)
Definition is_fund_vote (kind vote : Z) (s : list Z) : bool :=
  (length s =? 37)%nat && (s.[0] =? OP_RETURN) && (s.[1] =? OP_CFUND) && (s.[2] =? kind) && (s.[3] =? vote) && (s.[4] =? 0x20).
Definition IsProposalVoteYes := is_fund_vote OP_PROP OP_YES.
Definition IsProposalVoteNo := is_fund_vote OP_PROP OP_NO.
Definition IsProposalVoteAbs := is_fund_vote OP_PROP OP_ABSTAIN.
Definition IsProposalVoteRemove := is_fund_vote OP_PROP OP_REMOVE.
Definition IsProposalVote (s : list Z) : bool := IsProposalVoteYes s || IsProposalVoteNo s || IsProposalVoteAbs s || IsProposalVoteRemove s.
Definition IsPaymentRequestVoteYes := is_fund_vote OP_PREQ OP_YES.
Definition IsPaymentRequestVoteNo := is_fund_vote OP_PREQ OP_NO.
Definition IsPaymentRequestVoteAbs := is_fund_vote OP_PREQ OP_ABSTAIN.
Definition IsPaymentRequestVoteRemove := is_fund_vote OP_PREQ OP_REMOVE.
Definition IsPaymentRequestVote (s : list Z) : bool :=
  IsPaymentRequestVoteYes s || IsPaymentRequestVoteNo s || IsPaymentRequestVoteAbs s || IsPaymentRequestVoteRemove s.

(** The header of the other votes, without the test of the length. *)
Definition is_dao_vote (kind vote : Z) (s : list Z) : bool := (s.[0] =? OP_RETURN) && (s.[1] =? kind) && (s.[2] =? vote) && (s.[3] =? 0x20).
Definition IsSupportVoteYes (s : list Z) : bool := (length s =? 36)%nat && is_dao_vote OP_DAO OP_YES s.
Definition IsSupportVoteRemove (s : list Z) : bool := (length s =? 36)%nat && is_dao_vote OP_DAO OP_REMOVE s.
Definition IsSupportVote (s : list Z) : bool := IsSupportVoteYes s || IsSupportVoteRemove s.
Definition IsConsultationVoteAnswer (s : list Z) : bool := (36 <=? length s)%nat && is_dao_vote OP_CONSULTATION OP_ANSWER s.
Definition IsConsultationVoteAbstention (s : list Z) : bool := (length s =? 36)%nat && is_dao_vote OP_CONSULTATION OP_ABSTAIN s.
Definition IsConsultationVoteRemove (s : list Z) : bool := (length s =? 36)%nat && is_dao_vote OP_CONSULTATION OP_REMOVE s.
Definition IsConsultationVote (s : list Z) : bool := IsConsultationVoteAnswer s || IsConsultationVoteAbstention s || IsConsultationVoteRemove s.

(** The hash and the vote; [None] when the result is false. *)
Definition ExtractVote (s : list Z) : option (list Z * Z) :=
  if negb (IsPaymentRequestVote s) && negb (IsProposalVote s) then None
  else
    let vote := if s.[3] =? OP_YES then VOTE_YES else VOTE_NO in
    let vote := if s.[3] =? OP_ABSTAIN then VOTE_ABSTAIN else vote in
    let vote := if s.[3] =? OP_REMOVE then VOTE_REMOVE else vote in
    Some (slice 5 32 s, vote).

Definition ExtractSupportVote (s : list Z) : option (list Z * Z) :=
  if negb (IsSupportVote s) then None
  else
    let vote := if s.[2] =? OP_REMOVE then SUPPORT_REMOVE else 0 in
    let vote := if s.[2] =? OP_YES then SUPPORT else vote in
    Some (slice 4 32 s, vote).

(** As above, and [None] at the outside is the exception of [CScriptNum]. *)
Definition ExtractConsultationVote (s : list Z) : option (option (list Z * Z)) :=
  if negb (IsConsultationVote s) then Some None
  else
    vote ← (if s.[2] =? OP_REMOVE then Some VOTE_REMOVE
            else if s.[2] =? OP_ABSTAIN then Some VOTE_ABSTAIN
            else if (36 <? length s)%nat then
              if (length s =? 37)%nat && (s.[36] =? 0x00) then Some 0
              else nVote ← CScriptNum (drop 37 s) false nDefaultMaxNumSize; Some (getint nVote)
            else Some 1);
    Some (Some (slice 4 32 s, vote)).

(** consensus/dao.cpp: the scripts of votes. *)
Definition SetScriptForCommunityFundContribution : list Z := [OP_RETURN; OP_CFUND].
Definition fund_vote_op (vote : Z) : Z :=
  if vote =? VOTE_REMOVE then OP_REMOVE else if vote =? VOTE_ABSTAIN then OP_ABSTAIN else if vote =? VOTE_YES then OP_YES else OP_NO.
Definition SetScriptForProposalVote (proposalhash : list Z) (vote : Z) : list Z := [OP_RETURN; OP_CFUND; OP_PROP; fund_vote_op vote; 0x20] ++ proposalhash.
Definition SetScriptForPaymentRequestVote (prequesthash : list Z) (vote : Z) : list Z := [OP_RETURN; OP_CFUND; OP_PREQ; fund_vote_op vote; 0x20] ++ prequesthash.
Definition SetScriptForConsultationSupport (hash : list Z) : list Z := [OP_RETURN; OP_DAO; OP_YES; 0x20] ++ hash.
Definition SetScriptForConsultationSupportRemove (hash : list Z) : list Z := [OP_RETURN; OP_DAO; OP_REMOVE; 0x20] ++ hash.
Definition SetScriptForConsultationVote (hash : list Z) (vote : Z) : list Z :=
  [OP_RETURN; OP_CONSULTATION; if vote =? VOTE_ABSTAIN then OP_ABSTAIN else OP_ANSWER; 0x20] ++ hash ++ (if -1 <? vote then push_scriptnum vote else []).
Definition SetScriptForConsultationVoteRemove (hash : list Z) : list Z := [OP_RETURN; OP_CONSULTATION; OP_REMOVE; 0x20] ++ hash.

(** ** The voter *)

(** The bytes that stand for the voter: the result is always true. *)
Definition GetStakerScript (s : list Z) : list Z :=
  if IsColdStakingv2 s then take 20 s
  else if IsPayToPublicKeyHash s then slice 2 20 s
  else s.

(** The voter of a cold-staking output is the voter of an output to the voting key.
    The slices start at the length byte, so they end before the last byte of the hash:
    keys whose hashes differ in that byte alone are the same voter. *)
Theorem staker_script_voter h1 h2 h : length h1 = 20%nat -> length h2 = 20%nat -> length h = 20%nat ->
  GetStakerScript (script_to_staking_v2 h1 h2 h) = GetStakerScript (script_to_key h) /\ GetStakerScript (script_to_key h) = 0x14 :: take 19 h.
Proof. intros H1 H2 H3. bytes_of h1. bytes_of h2. bytes_of h. split; reflexivity. Qed.

(** ** The scripts of votes *)

Lemma fund_vote_of kind h vote : length h = 32%nat -> vote = VOTE_YES \/ vote = VOTE_NO \/ vote = VOTE_ABSTAIN \/ vote = VOTE_REMOVE -> kind = OP_PROP \/ kind = OP_PREQ ->
  let s := [OP_RETURN; OP_CFUND; kind; fund_vote_op vote; 0x20] ++ h in
  ExtractVote s = Some (h, vote) /\ IsProposalVote s = (kind =? OP_PROP) /\ IsPaymentRequestVote s = (kind =? OP_PREQ).
Proof. intros Hh Hv Hk. bytes_of h. destruct Hk as [-> | ->], Hv as [-> | [-> | [-> | ->]]]; repeat split; reflexivity. Qed.

Lemma support_vote_of h : length h = 32%nat -> ExtractSupportVote (SetScriptForConsultationSupport h) = Some (h, SUPPORT) /\ ExtractSupportVote (SetScriptForConsultationSupportRemove h) = Some (h, SUPPORT_REMOVE).
Proof. intros Hh. bytes_of h. split; reflexivity. Qed.

Lemma consultation_vote_of h vote : length h = 32%nat -> -1 <= vote < 2 ^ 63 ->
  ExtractConsultationVote (SetScriptForConsultationVote h vote) = if vote <? 2 ^ 31 then Some (Some (h, vote)) else None.
Proof.
  intros Hh Hv. unfold SetScriptForConsultationVote, VOTE_ABSTAIN. destruct (Z.eqb_spec vote (-1)) as [->|Hn]; [bytes_of h; reflexivity|].
  destruct (Z.ltb_spec (-1) vote); [|lia]. destruct (Z.eq_dec vote 0) as [->|H0]; [bytes_of h; reflexivity|].
  destruct (serialize_short vote) as ([Hn1 Hn8] & H31); [lia|]. destruct (scriptnum_roundtrip vote) as (Hr & Hw & Hm); [lia|]. unfold push_scriptnum, getvch, push, OP_PUSHDATA1.
  destruct (Z.ltb_spec (Z.of_nat (length (serialize vote))) 0x4c); [|lia]. set (b := serialize vote) in *. cbn [app].
  set (s := OP_RETURN :: OP_CONSULTATION :: OP_ANSWER :: 32 :: h ++ Z.of_nat (length b) :: b). assert (length s = (37 + length b)%nat) as Hls by (unfold s; cbn [length]; rewrite length_app, Hh; cbn; lia).
  unfold ExtractConsultationVote. assert (IsConsultationVote s = true) as -> by (unfold IsConsultationVote, IsConsultationVoteAnswer; rewrite Hls; by destruct (Nat.leb_spec 36 (37 + length b)); [|lia]).
  cbn [negb]. change (s.[2]) with OP_ANSWER. cbn [OP_ANSWER OP_REMOVE OP_ABSTAIN Z.eqb Pos.eqb]. rewrite Hls. destruct (Nat.ltb_spec 36 (37 + length b)); [|lia]. destruct (Nat.eqb_spec (37 + length b) 37); [lia|]. cbn [andb].
  assert (drop 37 s = b) as ->. { unfold s. change (drop 37 (OP_RETURN :: OP_CONSULTATION :: OP_ANSWER :: 32 :: h ++ Z.of_nat (length b) :: b)) with (drop 33 (h ++ Z.of_nat (length b) :: b)). rewrite drop_app_ge, Hh by lia. done. }
  assert (slice 4 32 s = h) as ->. { unfold slice, s. change (drop 4 _) with (h ++ Z.of_nat (length b) :: b). by rewrite <- Hh, take_app_length. }
  destruct (CScriptNum b false nDefaultMaxNumSize) as [v|] eqn:E; cbn [mbind option_bind].
  - destruct (operand_range _ _ _ Hw E) as [Hrng Hg]. rewrite Hg. unfold CScriptNum, nDefaultMaxNumSize in E. destruct (Nat.ltb_spec 4 (length b)); [done|]. cbn [andb] in E. apply Some_inj in E. rewrite Hr in E. subst v. by destruct (Z.ltb_spec vote (2 ^ 31)); [|lia].
  - unfold CScriptNum, nDefaultMaxNumSize in E. destruct (Nat.ltb_spec 4 (length b)); [|done]. destruct (Z.ltb_spec vote (2 ^ 31)); [lia|done].
Qed.

(** C20. Every vote that the node writes into a script is read back as the same vote on the
    same hash, and as the right kind of vote.  The number of a consultation vote is
    read with the limit of four bytes for script numbers: from 2^31 on, reading the
    script that was written throws. *)
Theorem vote_scripts_roundtrip (h : list Z) : length h = 32%nat ->
  (forall vote, vote = VOTE_YES \/ vote = VOTE_NO \/ vote = VOTE_ABSTAIN \/ vote = VOTE_REMOVE ->
     (ExtractVote (SetScriptForProposalVote h vote) = Some (h, vote) /\ IsProposalVote (SetScriptForProposalVote h vote) = true /\ IsPaymentRequestVote (SetScriptForProposalVote h vote) = false) /\
     (ExtractVote (SetScriptForPaymentRequestVote h vote) = Some (h, vote) /\ IsProposalVote (SetScriptForPaymentRequestVote h vote) = false /\ IsPaymentRequestVote (SetScriptForPaymentRequestVote h vote) = true)) /\
  ExtractSupportVote (SetScriptForConsultationSupport h) = Some (h, SUPPORT) /\
  ExtractSupportVote (SetScriptForConsultationSupportRemove h) = Some (h, SUPPORT_REMOVE) /\
  ExtractConsultationVote (SetScriptForConsultationVoteRemove h) = Some (Some (h, VOTE_REMOVE)) /\
  (forall vote, -1 <= vote < 2 ^ 63 -> ExtractConsultationVote (SetScriptForConsultationVote h vote) = if vote <? 2 ^ 31 then Some (Some (h, vote)) else None).
Proof.
  intros Hh. split; [|split; [|split; [|split]]].
  - intros vote Hv. split; (apply fund_vote_of; [done|done|]); auto.
  - by apply support_vote_of.
  - by apply support_vote_of.
  - bytes_of h. reflexivity.
  - intros vote Hv. by apply consultation_vote_of.
Qed.

Lemma vote_scripts_roundtrip_witness :
  ExtractVote (SetScriptForProposalVote (replicate 32 7) VOTE_ABSTAIN) = Some (replicate 32 7, VOTE_ABSTAIN) /\
  ExtractConsultationVote (SetScriptForConsultationVote (replicate 32 7) 300) = Some (Some (replicate 32 7, 300)).
Proof.
  destruct (vote_scripts_roundtrip (replicate 32 7) eq_refl) as (H1 & _ & _ & _ & H2). split; [|exact (H2 300 ltac:(lia))].
  exact (proj1 (proj1 (H1 VOTE_ABSTAIN ltac:(auto)))).
Defined.
