(* ===== verification/Interpreter.v ===== *)
(** * script/interpreter.cpp: running scripts

    [EvalScript] runs a script on a stack, [VerifyScript] runs the script of an input
    and that of the output it spends, with the rules for script hashes and witnesses.
    A computation ends with a value, with a [ScriptError], or aborts: a failed
    assertion or the overflow of a signed integer.  The exceptions of script numbers
    are caught in [EvalScript] and become [SCRIPT_ERR_UNKNOWN_ERROR].  A stack is
    listed from its top; the stack of a witness is listed as it is stored, from the
    bottom.  The checks against the spending transaction are a record of operations
    ([BaseSignatureChecker]), and the hash functions and [CPubKey::CheckLowS] are
    parameters. *)

From Stdlib Require Import ZArith Lia.
From stdpp Require Import base tactics numbers list.
From S2P Require Import Prelude SphTypes Serialize Compressor ScriptNum Script.

(** ** Errors *)

Inductive ScriptError :=
  | SCRIPT_ERR_UNKNOWN_ERROR
  | SCRIPT_ERR_EVAL_FALSE
  | SCRIPT_ERR_OP_RETURN
  | SCRIPT_ERR_SCRIPT_SIZE
  | SCRIPT_ERR_PUSH_SIZE
  | SCRIPT_ERR_OP_COUNT
  | SCRIPT_ERR_STACK_SIZE
  | SCRIPT_ERR_SIG_COUNT
  | SCRIPT_ERR_PUBKEY_COUNT
  | SCRIPT_ERR_VERIFY
  | SCRIPT_ERR_EQUALVERIFY
  | SCRIPT_ERR_CHECKMULTISIGVERIFY
  | SCRIPT_ERR_CHECKSIGVERIFY
  | SCRIPT_ERR_NUMEQUALVERIFY
  | SCRIPT_ERR_BAD_OPCODE
  | SCRIPT_ERR_DISABLED_OPCODE
  | SCRIPT_ERR_INVALID_STACK_OPERATION
  | SCRIPT_ERR_INVALID_ALTSTACK_OPERATION
  | SCRIPT_ERR_UNBALANCED_CONDITIONAL
  | SCRIPT_ERR_NEGATIVE_LOCKTIME
  | SCRIPT_ERR_UNSATISFIED_LOCKTIME
  | SCRIPT_ERR_SIG_HASHTYPE
  | SCRIPT_ERR_SIG_DER
  | SCRIPT_ERR_MINIMALDATA
  | SCRIPT_ERR_SIG_PUSHONLY
  | SCRIPT_ERR_SIG_HIGH_S
  | SCRIPT_ERR_SIG_NULLDUMMY
  | SCRIPT_ERR_PUBKEYTYPE
  | SCRIPT_ERR_CLEANSTACK
  | SCRIPT_ERR_MINIMALIF
  | SCRIPT_ERR_SIG_NULLFAIL
  | SCRIPT_ERR_DISCOURAGE_UPGRADABLE_NOPS
  | SCRIPT_ERR_DISCOURAGE_UPGRADABLE_WITNESS_PROGRAM
  | SCRIPT_ERR_WITNESS_PROGRAM_WRONG_LENGTH
  | SCRIPT_ERR_WITNESS_PROGRAM_WITNESS_EMPTY
  | SCRIPT_ERR_WITNESS_PROGRAM_MISMATCH
  | SCRIPT_ERR_WITNESS_MALLEATED
  | SCRIPT_ERR_WITNESS_MALLEATED_P2SH
  | SCRIPT_ERR_WITNESS_UNEXPECTED
  | SCRIPT_ERR_WITNESS_PUBKEYTYPE.

Inductive result (A : Type) :=
  | Ok (a : A)
  | Err (e : ScriptError)
  | Abort.
Arguments Ok {A} _.
Arguments Err {A} _.
Arguments Abort {A}.

#[export] Instance result_ret : MRet result := fun A a => Ok a.
#[export] Instance result_bind : MBind result := fun A B f m => match m with Ok a => f a | Err e => Err e | Abort => Abort end.

(** [if (!c) return set_error(serror, e)] and [assert(c)] *)
Definition require (c : bool) (e : ScriptError) : result unit := if c then Ok tt else Err e.
Definition assert (c : bool) : result unit := if c then Ok tt else Abort.

(** ** Flags *)

Definition SCRIPT_VERIFY_P2SH : Z := 1 << 0.
Definition SCRIPT_VERIFY_STRICTENC : Z := 1 << 1.
Definition SCRIPT_VERIFY_DERSIG : Z := 1 << 2.
Definition SCRIPT_VERIFY_LOW_S : Z := 1 << 3.
Definition SCRIPT_VERIFY_NULLDUMMY : Z := 1 << 4.
Definition SCRIPT_VERIFY_SIGPUSHONLY : Z := 1 << 5.
Definition SCRIPT_VERIFY_MINIMALDATA : Z := 1 << 6.
Definition SCRIPT_VERIFY_DISCOURAGE_UPGRADABLE_NOPS : Z := 1 << 7.
Definition SCRIPT_VERIFY_CLEANSTACK : Z := 1 << 8.
Definition SCRIPT_VERIFY_CHECKLOCKTIMEVERIFY : Z := 1 << 9.
Definition SCRIPT_VERIFY_CHECKSEQUENCEVERIFY : Z := 1 << 10.
Definition SCRIPT_VERIFY_WITNESS : Z := 1 << 11.
Definition SCRIPT_VERIFY_DISCOURAGE_UPGRADABLE_WITNESS_PROGRAM : Z := 1 << 12.
Definition SCRIPT_VERIFY_MINIMALIF : Z := 1 << 13.
Definition SCRIPT_VERIFY_NULLFAIL : Z := 1 << 14.
Definition SCRIPT_VERIFY_WITNESS_PUBKEYTYPE : Z := 1 << 15.

(** [(flags & bit) != 0] *)
Definition flag (flags bit : Z) : bool := negb (flags .& bit =? 0).

Definition SIGHASH_ALL : Z := 1.
Definition SIGHASH_NONE : Z := 2.
Definition SIGHASH_SINGLE : Z := 3.
Definition SIGHASH_ANYONECANPAY : Z := 0x80.

Inductive SigVersion := SIGVERSION_BASE | SIGVERSION_WITNESS_V0.
#[export] Instance SigVersion_eq_dec : EqDecision SigVersion.
Proof. solve_decision. Defined.

Abbreviation valtype := (list Z) (only parsing).

Record BaseSignatureChecker := {
  CheckSig : valtype -> valtype -> list Z -> SigVersion -> bool;
  CheckLockTime : Z -> bool;
  CheckSequence : Z -> bool;
  checker_IsCoinStake : bool
}.

(** ** Values *)

Fixpoint CastToBool (vch : valtype) : bool :=
  match vch with
  | [] => false
  | b :: vch => if negb (b =? 0) then negb (bool_decide (vch = []) && (b =? 0x80)) else CastToBool vch
  end.

Definition vchTrue : valtype := [1].
Definition vchFalse : valtype := [].
Definition bool_vch (b : bool) : valtype := if b then vchTrue else vchFalse.

(** A script number as an operand; the exception is caught at the end of the loop. *)
Definition number_of (fRequireMinimal : bool) (nMaxNumSize : nat) (vch : valtype) : result Z :=
  match CScriptNum vch fRequireMinimal nMaxNumSize with Some n => Ok n | None => Err SCRIPT_ERR_UNKNOWN_ERROR end.

(** ** Encodings of keys and signatures *)

Definition IsCompressedOrUncompressedPubKey (vchPubKey : valtype) : bool :=
  if (length vchPubKey <? 33)%nat then false
  else if vchPubKey.[0] =? 0x04 then (length vchPubKey =? 65)%nat
  else if (vchPubKey.[0] =? 0x02) || (vchPubKey.[0] =? 0x03) then (length vchPubKey =? 33)%nat
  else false.

Definition IsCompressedPubKey (vchPubKey : valtype) : bool :=
  if negb (length vchPubKey =? 33)%nat then false
  else if negb (vchPubKey.[0] =? 0x02) && negb (vchPubKey.[0] =? 0x03) then false
  else true.

Definition IsValidSignatureEncoding (sig : valtype) : bool :=
  let size := Z.of_nat (length sig) in
  let lenR := sig.[3] in
  let lenS := sig.[5 + Z.to_nat lenR] in
  if size <? 9 then false
  else if 73 <? size then false
  else if negb (sig.[0] =? 0x30) then false
  else if negb (sig.[1] =? size - 3) then false
  else if size <=? 5 + lenR then false
  else if negb (lenR + lenS + 7 =? size) then false
  else if negb (sig.[2] =? 0x02) then false
  else if lenR =? 0 then false
  else if negb (sig.[4] .& 0x80 =? 0) then false
  else if (1 <? lenR) && (sig.[4] =? 0x00) && (sig.[5] .& 0x80 =? 0) then false
  else if negb (sig.[Z.to_nat lenR + 4] =? 0x02) then false
  else if lenS =? 0 then false
  else if negb (sig.[Z.to_nat lenR + 6] .& 0x80 =? 0) then false
  else if (1 <? lenS) && (sig.[Z.to_nat lenR + 6] =? 0x00) && (sig.[Z.to_nat lenR + 7] .& 0x80 =? 0) then false
  else true.

Definition IsDefinedHashtypeSignature (vchSig : valtype) : bool :=
  if (length vchSig =? 0)%nat then false
  else
    let nHashType := back vchSig .& (0xff - SIGHASH_ANYONECANPAY) in
    (SIGHASH_ALL <=? nHashType) && (nHashType <=? SIGHASH_SINGLE).

Definition CheckMinimalPush (data : valtype) (opcode : Z) : bool :=
  let size := Z.of_nat (length data) in
  if size =? 0 then opcode =? OP_0
  else if (size =? 1) && (1 <=? data.[0]) && (data.[0] <=? 16) then opcode =? OP_1 + (data.[0] - 1)
  else if (size =? 1) && (data.[0] =? 0x81) then opcode =? OP_1NEGATE
  else if size <=? 75 then opcode =? size
  else if size <=? 255 then opcode =? OP_PUSHDATA1
  else if size <=? 65535 then opcode =? OP_PUSHDATA2
  else true.

(** ** Arithmetic of script numbers *)

Definition INT64_MAX : Z := 2 ^ 63 - 1.
Definition INT64_MIN : Z := - 2 ^ 63.

(** [operator+=] and [operator-=] with their assertions *)
Definition num_add_assign (m_value rhs : Z) : result Z :=
  _ ← assert ((rhs =? 0) || ((0 <? rhs) && (m_value <=? INT64_MAX - rhs)) || ((rhs <? 0) && (INT64_MIN - rhs <=? m_value)));
  Ok (m_value + rhs).
Definition num_sub_assign (m_value rhs : Z) : result Z :=
  _ ← assert ((rhs =? 0) || ((0 <? rhs) && (INT64_MIN + rhs <=? m_value)) || ((rhs <? 0) && (m_value <=? INT64_MAX + rhs)));
  Ok (m_value - rhs).
Definition num_neg (m_value : Z) : result Z := _ ← assert (negb (m_value =? INT64_MIN)); Ok (- m_value).
(** [operator+] and [operator-] of [int64_t] *)
Definition int64_result (v : Z) : result Z := _ ← assert ((INT64_MIN <=? v) && (v <=? INT64_MAX)); Ok v.

Definition unary_num (opcode bn : Z) : result Z :=
  if opcode =? OP_1ADD then num_add_assign bn 1
  else if opcode =? OP_1SUB then num_sub_assign bn 1
  else if opcode =? OP_NEGATE then num_neg bn
  else if opcode =? OP_ABS then (if bn <? 0 then num_neg bn else Ok bn)
  else if opcode =? OP_NOT then Ok (Z.b2z (bn =? 0))
  else Ok (Z.b2z (negb (bn =? 0))).

Definition binary_num (opcode bn1 bn2 : Z) : result Z :=
  if opcode =? OP_ADD then int64_result (bn1 + bn2)
  else if opcode =? OP_SUB then int64_result (bn1 - bn2)
  else if opcode =? OP_BOOLAND then Ok (Z.b2z (negb (bn1 =? 0) && negb (bn2 =? 0)))
  else if opcode =? OP_BOOLOR then Ok (Z.b2z (negb (bn1 =? 0) || negb (bn2 =? 0)))
  else if (opcode =? OP_NUMEQUAL) || (opcode =? OP_NUMEQUALVERIFY) then Ok (Z.b2z (bn1 =? bn2))
  else if opcode =? OP_NUMNOTEQUAL then Ok (Z.b2z (negb (bn1 =? bn2)))
  else if opcode =? OP_LESSTHAN then Ok (Z.b2z (bn1 <? bn2))
  else if opcode =? OP_GREATERTHAN then Ok (Z.b2z (bn2 <? bn1))
  else if opcode =? OP_LESSTHANOREQUAL then Ok (Z.b2z (bn1 <=? bn2))
  else if opcode =? OP_GREATERTHANOREQUAL then Ok (Z.b2z (bn2 <=? bn1))
  else if opcode =? OP_MIN then Ok (if bn1 <? bn2 then bn1 else bn2)
  else Ok (if bn2 <? bn1 then bn1 else bn2).

Definition is_unary_num (opcode : Z) : bool :=
  (opcode =? OP_1ADD) || (opcode =? OP_1SUB) || (opcode =? OP_NEGATE) || (opcode =? OP_ABS) || (opcode =? OP_NOT) || (opcode =? OP_0NOTEQUAL).
Definition is_binary_num (opcode : Z) : bool :=
  (opcode =? OP_ADD) || (opcode =? OP_SUB) || ((OP_BOOLAND <=? opcode) && (opcode <=? OP_MAX)).
Definition is_hash_op (opcode : Z) : bool := (OP_RIPEMD160 <=? opcode) && (opcode <=? OP_HASH256).
Definition is_nop (opcode : Z) : bool := (opcode =? OP_NOP1) || ((OP_NOP4 <=? opcode) && (opcode <=? OP_NOP10)).
Definition is_disabled (opcode : Z) : bool :=
  (opcode =? OP_CAT) || (opcode =? OP_SUBSTR) || (opcode =? OP_LEFT) || (opcode =? OP_RIGHT) || (opcode =? OP_INVERT) || (opcode =? OP_AND) ||
  (opcode =? OP_OR) || (opcode =? OP_XOR) || (opcode =? OP_2MUL) || (opcode =? OP_2DIV) || (opcode =? OP_MUL) || (opcode =? OP_DIV) ||
  (opcode =? OP_MOD) || (opcode =? OP_LSHIFT) || (opcode =? OP_RSHIFT).

(** [CTxIn::SEQUENCE_LOCKTIME_DISABLE_FLAG] *)
Definition SEQUENCE_LOCKTIME_DISABLE_FLAG : Z := 1 << 31.

(** The error for a stack that is too short. *)
Definition invalid {A} : result A := Err SCRIPT_ERR_INVALID_STACK_OPERATION.

(** ** State of a run *)

Record state := {
  stack : list valtype;
  altstack : list valtype;
  vfExec : list bool;
  pbegincodehash : list Z;
  nOpCount : Z
}.

Definition with_stack (st : state) (s : list valtype) : state :=
  {| stack := s; altstack := altstack st; vfExec := vfExec st; pbegincodehash := pbegincodehash st; nOpCount := nOpCount st |}.
Definition with_exec (st : state) (v : list bool) : state :=
  {| stack := stack st; altstack := altstack st; vfExec := v; pbegincodehash := pbegincodehash st; nOpCount := nOpCount st |}.
Definition with_count (st : state) (n : Z) : state :=
  {| stack := stack st; altstack := altstack st; vfExec := vfExec st; pbegincodehash := pbegincodehash st; nOpCount := n |}.

Section Interpreter.

Variable CRIPEMD160 CSHA1 CSHA256 : list Z -> list Z.
Variable CheckLowS : list Z -> bool.

Definition CHash160 (m : list Z) : list Z := CRIPEMD160 (CSHA256 m).
Definition CHash256 (m : list Z) : list Z := CSHA256 (CSHA256 m).

Definition IsLowDERSignature (vchSig : valtype) : result unit :=
  _ ← require (IsValidSignatureEncoding vchSig) SCRIPT_ERR_SIG_DER;
  require (CheckLowS (List.removelast vchSig)) SCRIPT_ERR_SIG_HIGH_S.

Definition CheckSignatureEncoding (flags : Z) (vchSig : valtype) : result unit :=
  if (length vchSig =? 0)%nat then Ok tt
  else if flag flags (SCRIPT_VERIFY_DERSIG .| SCRIPT_VERIFY_LOW_S .| SCRIPT_VERIFY_STRICTENC) && negb (IsValidSignatureEncoding vchSig) then Err SCRIPT_ERR_SIG_DER
  else
    _ ← (if flag flags SCRIPT_VERIFY_LOW_S then IsLowDERSignature vchSig else Ok tt);
    if flag flags SCRIPT_VERIFY_STRICTENC && negb (IsDefinedHashtypeSignature vchSig) then Err SCRIPT_ERR_SIG_HASHTYPE else Ok tt.

Definition CheckPubKeyEncoding (flags : Z) (sigversion : SigVersion) (vchPubKey : valtype) : result unit :=
  if flag flags SCRIPT_VERIFY_STRICTENC && negb (IsCompressedOrUncompressedPubKey vchPubKey) then Err SCRIPT_ERR_PUBKEYTYPE
  else if flag flags SCRIPT_VERIFY_WITNESS_PUBKEYTYPE && bool_decide (sigversion = SIGVERSION_WITNESS_V0) && negb (IsCompressedPubKey vchPubKey) then Err SCRIPT_ERR_WITNESS_PUBKEYTYPE
  else Ok tt.

(** ** Operations on the stack alone *)

Definition hash_op (opcode : Z) (vch : valtype) : valtype :=
  if opcode =? OP_RIPEMD160 then CRIPEMD160 vch
  else if opcode =? OP_SHA1 then CSHA1 vch
  else if opcode =? OP_SHA256 then CSHA256 vch
  else if opcode =? OP_HASH160 then CHash160 vch
  else CHash256 vch.

(** [OP_PICK] and [OP_ROLL], behind the test of the size *)
Definition pick_roll (fRequireMinimal roll : bool) (top : valtype) (s : list valtype) : result (list valtype) :=
  n ← number_of fRequireMinimal nDefaultMaxNumSize top;
  let n := getint n in
  if (n <? 0) || (Z.of_nat (length s) <=? n) then invalid
  else
    let vch := nth (Z.to_nat n) s [] in
    Ok (vch :: (if roll then take (Z.to_nat n) s ++ drop (S (Z.to_nat n)) s else s)).

(** [None] is an opcode of another group. *)
Definition stack_op (fRequireMinimal : bool) (opcode : Z) (s : list valtype) : option (result (list valtype)) :=
  if opcode =? OP_2DROP then Some (match s with _ :: _ :: s => Ok s | _ => invalid end)
  else if opcode =? OP_2DUP then Some (match s with x2 :: x1 :: s => Ok (x2 :: x1 :: x2 :: x1 :: s) | _ => invalid end)
  else if opcode =? OP_3DUP then Some (match s with x3 :: x2 :: x1 :: s => Ok (x3 :: x2 :: x1 :: x3 :: x2 :: x1 :: s) | _ => invalid end)
  else if opcode =? OP_2OVER then Some (match s with x4 :: x3 :: x2 :: x1 :: s => Ok (x2 :: x1 :: x4 :: x3 :: x2 :: x1 :: s) | _ => invalid end)
  else if opcode =? OP_2ROT then Some (match s with x6 :: x5 :: x4 :: x3 :: x2 :: x1 :: s => Ok (x2 :: x1 :: x6 :: x5 :: x4 :: x3 :: s) | _ => invalid end)
  else if opcode =? OP_2SWAP then Some (match s with x4 :: x3 :: x2 :: x1 :: s => Ok (x2 :: x1 :: x4 :: x3 :: s) | _ => invalid end)
  else if opcode =? OP_IFDUP then Some (match s with x :: s => Ok (if CastToBool x then x :: x :: s else x :: s) | _ => invalid end)
  else if opcode =? OP_DEPTH then Some (Ok (getvch (Z.of_nat (length s)) :: s))
  else if opcode =? OP_DROP then Some (match s with _ :: s => Ok s | _ => invalid end)
  else if opcode =? OP_DUP then Some (match s with x :: s => Ok (x :: x :: s) | _ => invalid end)
  else if opcode =? OP_NIP then Some (match s with x2 :: _ :: s => Ok (x2 :: s) | _ => invalid end)
  else if opcode =? OP_OVER then Some (match s with x2 :: x1 :: s => Ok (x1 :: x2 :: x1 :: s) | _ => invalid end)
  else if (opcode =? OP_PICK) || (opcode =? OP_ROLL) then
    Some (match s with x :: y :: s => pick_roll fRequireMinimal (opcode =? OP_ROLL) x (y :: s) | _ => invalid end)
  else if opcode =? OP_ROT then Some (match s with x3 :: x2 :: x1 :: s => Ok (x1 :: x3 :: x2 :: s) | _ => invalid end)
  else if opcode =? OP_SWAP then Some (match s with x2 :: x1 :: s => Ok (x1 :: x2 :: s) | _ => invalid end)
  else if opcode =? OP_TUCK then Some (match s with x2 :: x1 :: s => Ok (x2 :: x1 :: x2 :: s) | _ => invalid end)
  else if opcode =? OP_SIZE then Some (match s with x :: s => Ok (getvch (Z.of_nat (length x)) :: x :: s) | _ => invalid end)
  else if opcode =? OP_EQUAL then Some (match s with x2 :: x1 :: s => Ok (bool_vch (bool_decide (x1 = x2)) :: s) | _ => invalid end)
  else if opcode =? OP_EQUALVERIFY then Some (match s with x2 :: x1 :: s => if bool_decide (x1 = x2) then Ok s else Err SCRIPT_ERR_EQUALVERIFY | _ => invalid end)
  else if is_unary_num opcode then
    Some (match s with x :: s => bn ← number_of fRequireMinimal nDefaultMaxNumSize x; bn ← unary_num opcode bn; Ok (getvch bn :: s) | _ => invalid end)
  else if is_binary_num opcode then
    Some (match s with
          | x2 :: x1 :: s =>
              bn1 ← number_of fRequireMinimal nDefaultMaxNumSize x1;
              bn2 ← number_of fRequireMinimal nDefaultMaxNumSize x2;
              bn ← binary_num opcode bn1 bn2;
              if opcode =? OP_NUMEQUALVERIFY then (if CastToBool (getvch bn) then Ok s else Err SCRIPT_ERR_NUMEQUALVERIFY)
              else Ok (getvch bn :: s)
          | _ => invalid
          end)
  else if opcode =? OP_WITHIN then
    Some (match s with
          | x3 :: x2 :: x1 :: s =>
              bn1 ← number_of fRequireMinimal nDefaultMaxNumSize x1;
              bn2 ← number_of fRequireMinimal nDefaultMaxNumSize x2;
              bn3 ← number_of fRequireMinimal nDefaultMaxNumSize x3;
              Ok (bool_vch ((bn2 <=? bn1) && (bn1 <? bn3)) :: s)
          | _ => invalid
          end)
  else if is_hash_op opcode then Some (match s with x :: s => Ok (hash_op opcode x :: s) | _ => invalid end)
  else None.

(** ** Signatures *)

Section Checker.
Variable flags : Z.
Variable checker : BaseSignatureChecker.
Variable sigversion : SigVersion.

Definition fRequireMinimal : bool := flag flags SCRIPT_VERIFY_MINIMALDATA.

(** [scriptCode.FindAndDelete(CScript(vchSig))], only before witnesses *)
Definition drop_signature (scriptCode : list Z) (vchSig : valtype) : list Z :=
  if bool_decide (sigversion = SIGVERSION_BASE) then (FindAndDelete scriptCode (push vchSig)).1 else scriptCode.

(** [OP_CHECKSIG] and [OP_CHECKSIGVERIFY] *)
Definition op_checksig (verify : bool) (codehash : list Z) (s : list valtype) : result (list valtype) :=
  match s with
  | vchPubKey :: vchSig :: s =>
      let scriptCode := drop_signature codehash vchSig in
      _ ← CheckSignatureEncoding flags vchSig;
      _ ← CheckPubKeyEncoding flags sigversion vchPubKey;
      let fSuccess := CheckSig checker vchSig vchPubKey scriptCode sigversion in
      if negb fSuccess && flag flags SCRIPT_VERIFY_NULLFAIL && negb (length vchSig =? 0)%nat then Err SCRIPT_ERR_SIG_NULLFAIL
      else if verify then (if fSuccess then Ok s else Err SCRIPT_ERR_CHECKSIGVERIFY)
      else Ok (bool_vch fSuccess :: s)
  | _ => invalid
  end.

(** [while (fSuccess && nSigsCount > 0)]: the signatures and the keys that are left.
    There are never more signatures than keys. *)
Fixpoint multisig_loop (scriptCode : list Z) (sigs keys : list valtype) {struct keys} : result bool :=
  match sigs with
  | [] => Ok true
  | vchSig :: sigs' =>
      match keys with
      | [] => Abort
      | vchPubKey :: keys =>
          _ ← CheckSignatureEncoding flags vchSig;
          _ ← CheckPubKeyEncoding flags sigversion vchPubKey;
          let fOk := CheckSig checker vchSig vchPubKey scriptCode sigversion in
          let sigs := if fOk then sigs' else sigs in
          if (length keys <? length sigs)%nat then Ok false else multisig_loop scriptCode sigs keys
      end
  end.

(** [while (i-- > 1)]: popping the arguments *)
Fixpoint multisig_cleanup (fSuccess : bool) (pops ikey2 : nat) (s : list valtype) : result (list valtype) :=
  match pops with
  | O => Ok s
  | S pops =>
      match s with
      | [] => invalid
      | top :: s =>
          if negb fSuccess && flag flags SCRIPT_VERIFY_NULLFAIL && (ikey2 =? 0)%nat && negb (length top =? 0)%nat then Err SCRIPT_ERR_SIG_NULLFAIL
          else multisig_cleanup fSuccess pops (ikey2 - 1) s
      end
  end.

(** The extra argument, and the result *)
Definition multisig_finish (verify fSuccess : bool) (s : list valtype) : result (list valtype) :=
  match s with
  | [] => invalid
  | dummy :: s =>
      if flag flags SCRIPT_VERIFY_NULLDUMMY && negb (length dummy =? 0)%nat then Err SCRIPT_ERR_SIG_NULLDUMMY
      else if verify then (if fSuccess then Ok s else Err SCRIPT_ERR_CHECKMULTISIGVERIFY)
      else Ok (bool_vch fSuccess :: s)
  end.

(** [OP_CHECKMULTISIG] and [OP_CHECKMULTISIGVERIFY]: the stack and the counter *)
Definition op_checkmultisig (verify : bool) (codehash : list Z) (nOps : Z) (s : list valtype) : result (list valtype * Z) :=
  _ ← require (1 <=? length s)%nat SCRIPT_ERR_INVALID_STACK_OPERATION;
  n ← number_of fRequireMinimal nDefaultMaxNumSize (nth 0 s []);
  let nKeysCount := getint n in
  _ ← require ((0 <=? nKeysCount) && (nKeysCount <=? MAX_PUBKEYS_PER_MULTISIG)) SCRIPT_ERR_PUBKEY_COUNT;
  let nOps := nOps + nKeysCount in
  _ ← require (nOps <=? MAX_OPS_PER_SCRIPT) SCRIPT_ERR_OP_COUNT;
  let keys := Z.to_nat nKeysCount in
  let i := (2 + keys)%nat in
  _ ← require (i <=? length s)%nat SCRIPT_ERR_INVALID_STACK_OPERATION;
  n ← number_of fRequireMinimal nDefaultMaxNumSize (nth (i - 1) s []);
  let nSigsCount := getint n in
  _ ← require ((0 <=? nSigsCount) && (nSigsCount <=? nKeysCount)) SCRIPT_ERR_SIG_COUNT;
  let sigs := Z.to_nat nSigsCount in
  let isig := (i + 1)%nat in
  let i := (isig + sigs)%nat in
  _ ← require (i <=? length s)%nat SCRIPT_ERR_INVALID_STACK_OPERATION;
  let vchSigs := take sigs (drop (isig - 1) s) in
  let scriptCode := fold_left drop_signature vchSigs codehash in
  fSuccess ← multisig_loop scriptCode vchSigs (take keys (drop 1 s));
  s ← multisig_cleanup fSuccess (i - 1) (keys + 2) s;
  s ← multisig_finish verify fSuccess s;
  Ok (s, nOps).

(** ** Lock times *)

Definition discourage_nop : result unit := require (negb (flag flags SCRIPT_VERIFY_DISCOURAGE_UPGRADABLE_NOPS)) SCRIPT_ERR_DISCOURAGE_UPGRADABLE_NOPS.

Definition op_checklocktimeverify (s : list valtype) : result unit :=
  if negb (flag flags SCRIPT_VERIFY_CHECKLOCKTIMEVERIFY) then discourage_nop
  else match s with
       | [] => invalid
       | top :: _ =>
           nLockTime ← number_of fRequireMinimal 5 top;
           _ ← require (0 <=? nLockTime) SCRIPT_ERR_NEGATIVE_LOCKTIME;
           require (CheckLockTime checker nLockTime) SCRIPT_ERR_UNSATISFIED_LOCKTIME
       end.

Definition op_checksequenceverify (s : list valtype) : result unit :=
  if negb (flag flags SCRIPT_VERIFY_CHECKSEQUENCEVERIFY) then discourage_nop
  else match s with
       | [] => invalid
       | top :: _ =>
           nSequence ← number_of fRequireMinimal 5 top;
           _ ← require (0 <=? nSequence) SCRIPT_ERR_NEGATIVE_LOCKTIME;
           if negb (nSequence .& SEQUENCE_LOCKTIME_DISABLE_FLAG =? 0) then Ok tt
           else require (CheckSequence checker nSequence) SCRIPT_ERR_UNSATISFIED_LOCKTIME
       end.

(** ** The switch *)

(** [!count(vfExec.begin(), vfExec.end(), false)] *)
Definition executing (st : state) : bool := forallb (fun b => b) (vfExec st).

(** [OP_IF] and [OP_NOTIF] *)
Definition op_if (opcode : Z) (st : state) : result state :=
  if executing st then
    match stack st with
    | [] => Err SCRIPT_ERR_UNBALANCED_CONDITIONAL
    | vch :: s =>
        _ ← (if bool_decide (sigversion = SIGVERSION_WITNESS_V0) && flag flags SCRIPT_VERIFY_MINIMALIF
             then require ((length vch <=? 1)%nat && negb ((length vch =? 1)%nat && negb (vch.[0] =? 1))) SCRIPT_ERR_MINIMALIF else Ok tt);
        let fValue := CastToBool vch in
        let fValue := if opcode =? OP_NOTIF then negb fValue else fValue in
        Ok (with_exec (with_stack st s) (fValue :: vfExec st))
    end
  else Ok (with_exec st (false :: vfExec st)).

(** [pc] is the position behind the operation. *)
Definition exec_op (opcode : Z) (pc : list Z) (st : state) : result state :=
  let s := stack st in
  if (opcode =? OP_1NEGATE) || ((OP_1 <=? opcode) && (opcode <=? OP_16)) then Ok (with_stack st (getvch (opcode - (OP_1 - 1)) :: s))
  else if opcode =? OP_NOP then Ok st
  else if opcode =? OP_CHECKLOCKTIMEVERIFY then _ ← op_checklocktimeverify s; Ok st
  else if opcode =? OP_CHECKSEQUENCEVERIFY then _ ← op_checksequenceverify s; Ok st
  else if is_nop opcode then _ ← discourage_nop; Ok st
  else if (opcode =? OP_IF) || (opcode =? OP_NOTIF) then op_if opcode st
  else if opcode =? OP_ELSE then match vfExec st with [] => Err SCRIPT_ERR_UNBALANCED_CONDITIONAL | b :: v => Ok (with_exec st (negb b :: v)) end
  else if opcode =? OP_ENDIF then match vfExec st with [] => Err SCRIPT_ERR_UNBALANCED_CONDITIONAL | _ :: v => Ok (with_exec st v) end
  else if opcode =? OP_VERIFY then match s with [] => invalid | x :: s => if CastToBool x then Ok (with_stack st s) else Err SCRIPT_ERR_VERIFY end
  else if opcode =? OP_RETURN then Err SCRIPT_ERR_OP_RETURN
  else if opcode =? OP_TOALTSTACK then
    match s with
    | [] => invalid
    | x :: s => Ok {| stack := s; altstack := x :: altstack st; vfExec := vfExec st; pbegincodehash := pbegincodehash st; nOpCount := nOpCount st |}
    end
  else if opcode =? OP_FROMALTSTACK then
    match altstack st with
    | [] => Err SCRIPT_ERR_INVALID_ALTSTACK_OPERATION
    | x :: a => Ok {| stack := x :: s; altstack := a; vfExec := vfExec st; pbegincodehash := pbegincodehash st; nOpCount := nOpCount st |}
    end
  else if opcode =? OP_CODESEPARATOR then
    Ok {| stack := s; altstack := altstack st; vfExec := vfExec st; pbegincodehash := pc; nOpCount := nOpCount st |}
  else if (opcode =? OP_CHECKSIG) || (opcode =? OP_CHECKSIGVERIFY) then
    s ← op_checksig (opcode =? OP_CHECKSIGVERIFY) (pbegincodehash st) s; Ok (with_stack st s)
  else if (opcode =? OP_CHECKMULTISIG) || (opcode =? OP_CHECKMULTISIGVERIFY) then
    '(s, nOps) ← op_checkmultisig (opcode =? OP_CHECKMULTISIGVERIFY) (pbegincodehash st) (nOpCount st) s; Ok (with_count (with_stack st s) nOps)
  else if opcode =? OP_COINSTAKE then Ok (with_stack st (bool_vch (checker_IsCoinStake checker) :: s))
  else match stack_op fRequireMinimal opcode s with
       | Some r => s ← r; Ok (with_stack st s)
       | None => Err SCRIPT_ERR_BAD_OPCODE
       end.

(** ** The loop *)

(** One iteration of [while (pc < pend)]. *)
Definition eval_step (pc : list Z) (st : state) : result (list Z * state) :=
  match GetOp2 pc with
  | NoOp _ => Err SCRIPT_ERR_BAD_OPCODE
  | Op opcode vchPushValue pc =>
      _ ← require (Z.of_nat (length vchPushValue) <=? MAX_SCRIPT_ELEMENT_SIZE) SCRIPT_ERR_PUSH_SIZE;
      let n := if OP_16 <? opcode then nOpCount st + 1 else nOpCount st in
      _ ← require (negb (OP_16 <? opcode) || (n <=? MAX_OPS_PER_SCRIPT)) SCRIPT_ERR_OP_COUNT;
      _ ← require (negb (is_disabled opcode)) SCRIPT_ERR_DISABLED_OPCODE;
      let st := with_count st n in
      let fExec := executing st in
      st ← (if fExec && (opcode <=? OP_PUSHDATA4) then
              _ ← require (negb (fRequireMinimal && negb (CheckMinimalPush vchPushValue opcode))) SCRIPT_ERR_MINIMALDATA;
              Ok (with_stack st (vchPushValue :: stack st))
            else if fExec || ((OP_IF <=? opcode) && (opcode <=? OP_ENDIF)) then exec_op opcode pc st
            else Ok st);
      _ ← require (Z.of_nat (length (stack st) + length (altstack st)) <=? 1000) SCRIPT_ERR_STACK_SIZE;
      Ok (pc, st)
  end.

(** Every iteration takes at least one byte of the script. *)
Fixpoint eval_loop (fuel : nat) (pc : list Z) (st : state) : result state :=
  match pc, fuel with
  | [], _ => Ok st
  | _, O => Err SCRIPT_ERR_UNKNOWN_ERROR
  | _, S fuel => '(pc, st) ← eval_step pc st; eval_loop fuel pc st
  end.

Definition start (s : list valtype) (script : list Z) : state :=
  {| stack := s; altstack := []; vfExec := []; pbegincodehash := script; nOpCount := 0 |}.

Definition EvalScript (s : list valtype) (script : list Z) : result (list valtype) :=
  _ ← require (Z.of_nat (length script) <=? MAX_SCRIPT_SIZE) SCRIPT_ERR_SCRIPT_SIZE;
  st ← eval_loop (length script) script (start s script);
  _ ← require (bool_decide (vfExec st = [])) SCRIPT_ERR_UNBALANCED_CONDITIONAL;
  Ok (stack st).

End Checker.

(** ** Verifying an input *)

(** [if (stack.empty() || !CastToBool(stack.back()))] *)
Definition eval_true (s : list valtype) : result unit :=
  match s with
  | [] => Err SCRIPT_ERR_EVAL_FALSE
  | top :: _ => require (CastToBool top) SCRIPT_ERR_EVAL_FALSE
  end.

Definition VerifyWitnessProgram (flags : Z) (checker : BaseSignatureChecker) (witness : list valtype) (witversion : Z) (program : list Z) : result unit :=
  if witversion =? 0 then
    '(s, scriptPubKey) ← (if (length program =? 32)%nat then
        match rev witness with
        | [] => Err SCRIPT_ERR_WITNESS_PROGRAM_WITNESS_EMPTY
        | scriptPubKey :: s =>
            _ ← require (bool_decide (CSHA256 scriptPubKey = program)) SCRIPT_ERR_WITNESS_PROGRAM_MISMATCH;
            Ok (s, scriptPubKey)
        end
      else if (length program =? 20)%nat then
        _ ← require (length witness =? 2)%nat SCRIPT_ERR_WITNESS_PROGRAM_MISMATCH;
        Ok (rev witness, [OP_DUP; OP_HASH160] ++ push program ++ [OP_EQUALVERIFY; OP_CHECKSIG])
      else Err SCRIPT_ERR_WITNESS_PROGRAM_WRONG_LENGTH);
    _ ← require (forallb (fun x : valtype => Z.of_nat (length x) <=? MAX_SCRIPT_ELEMENT_SIZE) s) SCRIPT_ERR_PUSH_SIZE;
    s ← EvalScript flags checker SIGVERSION_WITNESS_V0 s scriptPubKey;
    _ ← require (length s =? 1)%nat SCRIPT_ERR_EVAL_FALSE;
    eval_true s
  else require (negb (flag flags SCRIPT_VERIFY_DISCOURAGE_UPGRADABLE_WITNESS_PROGRAM)) SCRIPT_ERR_DISCOURAGE_UPGRADABLE_WITNESS_PROGRAM.

(** [stack.resize(1)] of a stack that is not empty *)
Definition resize_one (s : list valtype) : list valtype := [List.last s []].

(** A witness program, bare or behind a script hash: whether there was one, and the
    stack.  [malleated] is the error for a [scriptSig] that is not exactly [expected]. *)
Definition verify_program (flags : Z) (checker : BaseSignatureChecker) (script scriptSig expected : list Z) (malleated : ScriptError) (witness s : list valtype) : result (bool * list valtype) :=
  if flag flags SCRIPT_VERIFY_WITNESS then
    match IsWitnessProgram script with
    | None => Ok (false, s)
    | Some (version, program) =>
        _ ← require (bool_decide (scriptSig = expected)) malleated;
        _ ← VerifyWitnessProgram flags checker witness version program;
        Ok (true, resize_one s)
    end
  else Ok (false, s).

(** The additional validation for outputs to the hash of a script. *)
Definition verify_p2sh (flags : Z) (checker : BaseSignatureChecker) (scriptSig scriptPubKey : list Z) (witness stackCopy s : list valtype) : result (bool * list valtype) :=
  if flag flags SCRIPT_VERIFY_P2SH && IsPayToScriptHash scriptPubKey then
    _ ← require (IsPushOnly scriptSig) SCRIPT_ERR_SIG_PUSHONLY;
    match stackCopy with
    | [] => Abort
    | pubKey2 :: s =>
        s ← EvalScript flags checker SIGVERSION_BASE s pubKey2;
        _ ← eval_true s;
        verify_program flags checker pubKey2 scriptSig (push pubKey2) SCRIPT_ERR_WITNESS_MALLEATED_P2SH witness s
    end
  else Ok (false, s).

(** A missing witness is the empty one. *)
Definition VerifyScript (flags : Z) (checker : BaseSignatureChecker) (scriptSig scriptPubKey : list Z) (witness : list valtype) : result unit :=
  _ ← require (negb (flag flags SCRIPT_VERIFY_SIGPUSHONLY && negb (IsPushOnly scriptSig))) SCRIPT_ERR_SIG_PUSHONLY;
  stackCopy ← EvalScript flags checker SIGVERSION_BASE [] scriptSig;
  s ← EvalScript flags checker SIGVERSION_BASE stackCopy scriptPubKey;
  _ ← eval_true s;
  '(bare, s) ← verify_program flags checker scriptPubKey scriptSig [] SCRIPT_ERR_WITNESS_MALLEATED witness s;
  '(nested, s) ← verify_p2sh flags checker scriptSig scriptPubKey witness stackCopy s;
  _ ← (if flag flags SCRIPT_VERIFY_CLEANSTACK then
         _ ← assert (flag flags SCRIPT_VERIFY_P2SH);
         _ ← assert (flag flags SCRIPT_VERIFY_WITNESS);
         require (length s =? 1)%nat SCRIPT_ERR_CLEANSTACK
       else Ok tt);
  if flag flags SCRIPT_VERIFY_WITNESS then
    _ ← assert (flag flags SCRIPT_VERIFY_P2SH);
    require (bare || nested || bool_decide (witness = [])) SCRIPT_ERR_WITNESS_UNEXPECTED
  else Ok tt.

(** ** Counting the signature checks of witnesses *)

Definition WitnessSigOps (witversion : Z) (witprogram : list Z) (witness : list valtype) : Z :=
  if witversion =? 0 then
    if (length witprogram =? 20)%nat then 1
    else if (length witprogram =? 32)%nat && (0 <? length witness)%nat then GetSigOpCount (List.last witness []) true
    else 0
  else 0.

(** [while (pc < scriptSig.end()) scriptSig.GetOp(pc, opcode, data)] *)
Fixpoint last_operand (fuel : nat) (data pc : list Z) : list Z :=
  match fuel, pc with
  | O, _ | _, [] => data
  | S fuel, _ => match GetOp2 pc with Op _ data pc => last_operand fuel data pc | NoOp pc => last_operand fuel [] pc end
  end.

Definition CountWitnessSigOps (flags : Z) (scriptSig scriptPubKey : list Z) (witness : list valtype) : result Z :=
  if negb (flag flags SCRIPT_VERIFY_WITNESS) then Ok 0
  else
    _ ← assert (flag flags SCRIPT_VERIFY_P2SH);
    match IsWitnessProgram scriptPubKey with
    | Some (version, program) => Ok (WitnessSigOps version program witness)
    | None =>
        if IsPayToScriptHash scriptPubKey && IsPushOnly scriptSig then
          match IsWitnessProgram (last_operand (length scriptSig) [] scriptSig) with
          | Some (version, program) => Ok (WitnessSigOps version program witness)
          | None => Ok 0
          end
        else Ok 0
    end.

End Interpreter.
