(* ===== verification/ScriptSafety.v ===== *)
(** * Safety of the interpreter

    A run of a script ends: every step takes a byte of the script, so the loop is its
    own unfolding.  It never fails an assertion and no script number overflows; the
    elements of the stack stay below 520 bytes, the stacks below 1000 elements and the
    counted operations below 201. *)

From Stdlib Require Import ZArith Lia.
From stdpp Require Import base tactics numbers list.
From S2P Require Import Prelude SphTypes Serialize Compressor ScriptNum Script Interpreter.

(** ** Results that do not abort *)

(** [safe Q r]: the computation does not abort, and a value has [Q]. *)
Definition safe {A} (Q : A -> Prop) (r : result A) : Prop :=
  match r with Ok a => Q a | Err _ => True | Abort => False end.

Lemma safe_bind {A B} (Q : A -> Prop) (R : B -> Prop) (m : result A) (f : A -> result B) :
  safe Q m -> (forall a, Q a -> safe R (f a)) -> safe R (m ≫= f).
Proof. destruct m; cbn; auto. Qed.

Lemma safe_weaken {A} (Q R : A -> Prop) r : safe Q r -> (forall a, Q a -> R a) -> safe R r.
Proof. destruct r; cbn; auto. Qed.

Lemma safe_require c e : safe (fun _ => c = true) (require c e).
Proof. unfold require. by destruct c. Qed.

Lemma bind_ok {A B} (m : result A) (f : A -> result B) b : m ≫= f = Ok b -> exists a, m = Ok a /\ f a = Ok b.
Proof. destruct m; [|done..]. by exists a. Qed.

Lemma require_ok c e a : require c e = Ok a -> c = true.
Proof. unfold require. by destruct c. Qed.

Lemma safe_ok {A} (Q : A -> Prop) r a : safe Q r -> r = Ok a -> Q a.
Proof. intros H ->. done. Qed.

#[export] Hint Resolve safe_require : core.

(** Steps through the binds of a computation. *)
Ltac safe_step :=
  match goal with |- safe _ (require ?c ?e ≫= _) => apply (safe_bind (fun _ => c = true)); [apply safe_require|intros ? ?] end.
Ltac safe_case := match goal with |- safe _ (if ?c then _ else _) => destruct c end.

(** ** Elements *)

Definition elt_ok (x : list Z) : Prop := words 8 x /\ Z.of_nat (length x) <= MAX_SCRIPT_ELEMENT_SIZE.

Lemma abs_bytes_length r a : (length (abs_bytes r a) <= r)%nat.
Proof. revert a. induction r as [|r IH]; intros a; cbn [abs_bytes]; [done|]. destruct (_ =? 0); cbn; [lia|]. specialize (IH (a >> 8)). lia. Qed.

Lemma serialize_length v : (length (serialize v) <= 9)%nat.
Proof.
  unfold serialize. destruct (v =? 0); [cbn; lia|]. set (l := abs_bytes 8 _). pose proof (abs_bytes_length 8 (if v <? 0 then - v else v)) as Ha. fold l in Ha.
  destruct (negb _); [rewrite length_app; cbn [length]; lia|]. destruct (v <? 0); [|lia]. destruct (snoc_cases l) as [E|(i & b & E)]; rewrite E in *; [cbn; lia|].
  rewrite removelast_snoc, length_app in *. cbn [length] in *. lia.
Qed.

Lemma getvch_ok v : - 2 ^ 63 < v < 2 ^ 63 -> elt_ok (getvch v).
Proof. intros Hv. destruct (scriptnum_roundtrip v Hv) as (_ & Hw & _). split; [done|]. pose proof (serialize_length v). unfold getvch, MAX_SCRIPT_ELEMENT_SIZE. lia. Qed.

Lemma bool_vch_ok b : elt_ok (bool_vch b).
Proof. destruct b; (split; [|by vm_compute]); repeat constructor; by vm_compute. Qed.

Lemma number_of_safe m x : words 8 x -> safe (fun n => - 2 ^ 31 < n < 2 ^ 31) (number_of m nDefaultMaxNumSize x).
Proof. intros Hx. unfold number_of. destruct (CScriptNum x m nDefaultMaxNumSize) eqn:E; [|done]. cbn. by destruct (operand_range _ _ _ Hx E). Qed.

Lemma number5_safe m x : safe (fun _ => True) (number_of m 5 x).
Proof. unfold number_of. by destruct (CScriptNum x m 5). Qed.

Lemma b2z_range b : - 2 ^ 63 < Z.b2z b < 2 ^ 63.
Proof. destruct b; cbn; lia. Qed.

Lemma unary_num_safe o bn : - 2 ^ 31 < bn < 2 ^ 31 -> safe (fun v => - 2 ^ 63 < v < 2 ^ 63) (unary_num o bn).
Proof.
  intros H. unfold unary_num, num_add_assign, num_sub_assign, num_neg, INT64_MAX, INT64_MIN, assert.
  repeat (case_match; cbn; try lia); try apply b2z_range; repeat match goal with H : _ = false |- _ => rewrite ?orb_false_iff, ?andb_false_iff, ?negb_false_iff, ?Z.leb_gt, ?Z.ltb_ge, ?Z.eqb_eq in H end; cbn in *; lia.
Qed.

Lemma binary_num_safe o a b : - 2 ^ 31 < a < 2 ^ 31 -> - 2 ^ 31 < b < 2 ^ 31 -> safe (fun v => - 2 ^ 63 < v < 2 ^ 63) (binary_num o a b).
Proof.
  intros Ha Hb. unfold binary_num, int64_result, assert, INT64_MAX, INT64_MIN. repeat (case_match; cbn; try lia; try apply b2z_range).
  all: repeat match goal with H : _ && _ = false |- _ => rewrite andb_false_iff, !Z.leb_gt in H end; lia.
Qed.

Section Safety.

Context (CRIPEMD160 CSHA1 CSHA256 : list Z -> list Z) (CheckLowS : list Z -> bool).
Context (ripemd_ok : forall m, words 8 (CRIPEMD160 m) /\ length (CRIPEMD160 m) = 20%nat)
  (sha1_ok : forall m, words 8 (CSHA1 m) /\ length (CSHA1 m) = 20%nat)
  (sha256_ok : forall m, words 8 (CSHA256 m) /\ length (CSHA256 m) = 32%nat).

Lemma hash_op_ok o x : elt_ok (hash_op CRIPEMD160 CSHA1 CSHA256 o x).
Proof.
  unfold hash_op, CHash160, CHash256, elt_ok, MAX_SCRIPT_ELEMENT_SIZE.
  repeat case_match; match goal with |- words 8 (?f ?m) /\ _ => first [destruct (ripemd_ok m) as [? ->] | destruct (sha1_ok m) as [? ->] | destruct (sha256_ok m) as [? ->]] end; (split; [done|lia]).
Qed.

Lemma pick_roll_safe m roll x s : elt_ok x -> Forall elt_ok s -> safe (Forall elt_ok) (pick_roll m roll x s).
Proof.
  intros Hx Hs. unfold pick_roll. eapply safe_bind; [apply number_of_safe, Hx|]. intros n _. cbn beta. destruct (_ || _) eqn:E; [done|]. apply orb_false_iff in E as [E1 E2]. rewrite Z.ltb_ge in E1. rewrite Z.leb_gt in E2.
  cbn [safe]. assert (Forall elt_ok (take (Z.to_nat (getint n)) s ++ drop (S (Z.to_nat (getint n))) s)) by (apply Forall_app_2; [by apply Forall_take|by apply Forall_drop]).
  constructor; [|by destruct roll]. rewrite List.Forall_forall in Hs. apply Hs, nth_In. lia.
Qed.

(** The operations on the stack alone. *)
Lemma stack_op_safe m o s r : Forall elt_ok s -> Z.of_nat (length s) < 2 ^ 62 -> stack_op CRIPEMD160 CSHA1 CSHA256 m o s = Some r -> safe (Forall elt_ok) r.
Proof.
  intros Hs Hl. unfold stack_op.
  assert (elt_ok (getvch (Z.of_nat (length s)))) as Hdepth by (apply getvch_ok; lia).
  assert (forall x, elt_ok x -> elt_ok (getvch (Z.of_nat (length x)))) as Hsize by (intros x [_ Hx]; apply getvch_ok; unfold MAX_SCRIPT_ELEMENT_SIZE in Hx; lia).
  assert (forall x, elt_ok x -> words 8 x) as Hw by (by intros x [? _]).
  repeat match goal with |- (if ?c then Some ?x else _) = _ -> _ => destruct c; [intros [= <-]|] end; [..|done].
  all: repeat match goal with
    | |- safe _ (match ?l with [] => _ | _ => _ end) => destruct l; [done|]
    | H : Forall _ (_ :: _) |- _ => apply Forall_cons_1 in H as [? H]
    end; try (cbn [safe]; repeat case_match; cbn [safe]; by repeat (constructor; auto using bool_vch_ok, hash_op_ok)).
  - apply pick_roll_safe; [done|by constructor].
  - eapply safe_bind; [apply number_of_safe; auto|]. intros n Hn. eapply safe_bind; [by apply unary_num_safe|]. intros v Hv. cbn. constructor; [by apply getvch_ok|done].
  - eapply safe_bind; [apply number_of_safe; auto|]. intros n Hn. eapply safe_bind; [apply number_of_safe; auto|]. intros n' Hn'. eapply safe_bind; [by apply binary_num_safe|]. intros v Hv.
    repeat case_match; cbn; try done. constructor; [by apply getvch_ok|done].
  - eapply safe_bind; [apply number_of_safe; auto|]. intros n Hn. eapply safe_bind; [apply number_of_safe; auto|]. intros n' Hn'. eapply safe_bind; [apply number_of_safe; auto|]. intros n2 Hn2. cbn. constructor; [apply bool_vch_ok|done].
Qed.

Context (flags : Z) (checker : BaseSignatureChecker) (sigversion : SigVersion).
Abbreviation eval_step := (Interpreter.eval_step CRIPEMD160 CSHA1 CSHA256 CheckLowS flags checker sigversion).
Abbreviation eval_loop := (Interpreter.eval_loop CRIPEMD160 CSHA1 CSHA256 CheckLowS flags checker sigversion).
Abbreviation exec_op := (Interpreter.exec_op CRIPEMD160 CSHA1 CSHA256 CheckLowS flags checker sigversion).
Abbreviation EvalScript := (Interpreter.EvalScript CRIPEMD160 CSHA1 CSHA256 CheckLowS flags checker sigversion).

(** ** Signatures *)

Lemma sig_encoding_safe x : safe (fun _ => True) (CheckSignatureEncoding CheckLowS flags x).
Proof. unfold CheckSignatureEncoding, IsLowDERSignature, require. repeat (case_match; cbn; try done). Qed.

Lemma key_encoding_safe x : safe (fun _ => True) (CheckPubKeyEncoding flags sigversion x).
Proof. unfold CheckPubKeyEncoding. repeat (case_match; cbn; try done). Qed.

Lemma checksig_safe verify code s : Forall elt_ok s -> safe (Forall elt_ok) (op_checksig CheckLowS flags checker sigversion verify code s).
Proof.
  intros Hs. unfold op_checksig. destruct s as [|key [|sig s]]; [done..|]. eapply safe_bind; [apply sig_encoding_safe|]. intros _ _. eapply safe_bind; [apply key_encoding_safe|]. intros _ _.
  apply Forall_cons_1 in Hs as [_ Hs]. apply Forall_cons_1 in Hs as [_ Hs]. repeat case_match; cbn; try done. constructor; [apply bool_vch_ok|done].
Qed.

Lemma multisig_loop_safe code sigs keys : (length sigs <= length keys)%nat -> safe (fun _ => True) (multisig_loop CheckLowS flags checker sigversion code sigs keys).
Proof.
  revert sigs. induction keys as [|key keys IH]; intros [|sig sigs] Hl; cbn [multisig_loop]; try done; [cbn in Hl; lia|].
  eapply safe_bind; [apply sig_encoding_safe|]. intros _ _. eapply safe_bind; [apply key_encoding_safe|]. intros _ _. cbn beta zeta.
  destruct (Nat.ltb_spec (length keys) (length (if CheckSig checker sig key code sigversion then sigs else sig :: sigs))); [done|]. by apply IH.
Qed.

Lemma cleanup_safe ok pops ikey2 s : Forall elt_ok s -> safe (Forall elt_ok) (multisig_cleanup flags ok pops ikey2 s).
Proof.
  revert ikey2 s. induction pops as [|pops IH]; intros ikey2 s Hs; cbn [multisig_cleanup]; [done|]. destruct s as [|x s]; [done|]. apply Forall_cons_1 in Hs as [_ Hs]. case_match; [done|]. by apply IH.
Qed.

Lemma nth_words i (s : list (list Z)) : Forall elt_ok s -> words 8 (nth i s []).
Proof. intros Hs. destruct (Nat.lt_ge_cases i (length s)) as [Hi|Hi]; [|rewrite nth_overflow by lia; constructor]. rewrite List.Forall_forall in Hs. by destruct (Hs _ (nth_In s [] Hi)). Qed.

Lemma checkmultisig_safe verify code n s : Forall elt_ok s ->
  safe (fun p => Forall elt_ok p.1 /\ n <= p.2 <= MAX_OPS_PER_SCRIPT) (op_checkmultisig CheckLowS flags checker sigversion verify code n s).
Proof.
  intros Hs. unfold op_checkmultisig. safe_step. eapply safe_bind; [by apply number_of_safe, nth_words|]. intros k Hk. cbn beta zeta.
  safe_step. safe_step. safe_step. eapply safe_bind; [by apply number_of_safe, nth_words|]. intros m Hm. cbn beta zeta. safe_step. safe_step.
  repeat match goal with H : _ && _ = true |- _ => apply andb_prop in H as [? ?] end. rewrite ?Z.leb_le, ?Nat.leb_le in *.
  eapply safe_bind; [apply multisig_loop_safe; rewrite !length_take, !length_drop; lia|]. intros ok _. eapply safe_bind; [by apply cleanup_safe|]. intros s' Hs'.
  apply (safe_bind (Forall elt_ok)).
  - unfold multisig_finish. destruct s' as [|d s']; [done|]. apply Forall_cons_1 in Hs' as [_ Hs']. repeat case_match; cbn; try done. constructor; [apply bool_vch_ok|done].
  - intros s2 Hs2. cbn. split; [done|lia].
Qed.

Lemma locktime_safe s : safe (fun _ => True) (op_checklocktimeverify flags checker s).
Proof.
  unfold op_checklocktimeverify, discourage_nop. case_match; [by apply (safe_weaken _ _ _ (safe_require _ _))|]. destruct s; [done|]. eapply safe_bind; [apply number5_safe|]. intros n _. safe_step. by apply (safe_weaken _ _ _ (safe_require _ _)).
Qed.

Lemma sequence_safe s : safe (fun _ => True) (op_checksequenceverify flags checker s).
Proof.
  unfold op_checksequenceverify, discourage_nop. case_match; [by apply (safe_weaken _ _ _ (safe_require _ _))|]. destruct s; [done|]. eapply safe_bind; [apply number5_safe|]. intros n _. safe_step. case_match; [done|]. by apply (safe_weaken _ _ _ (safe_require _ _)).
Qed.

(** ** States *)

Definition state_ok (st : state) : Prop :=
  Forall elt_ok (stack st) /\ Forall elt_ok (altstack st) /\ nOpCount st <= MAX_OPS_PER_SCRIPT /\ Z.of_nat (length (stack st)) < 2 ^ 62.

(** What an operation keeps; the size of the stack is checked after it. *)
Definition kept (st : state) : Prop := Forall elt_ok (stack st) /\ Forall elt_ok (altstack st) /\ nOpCount st <= MAX_OPS_PER_SCRIPT.

Lemma op_if_safe o st : kept st -> safe kept (op_if flags sigversion o st).
Proof.
  intros (Hs & Ha & Hn). unfold op_if. destruct (executing st); [|done]. destruct (stack st) as [|x s] eqn:E; [done|]. apply Forall_cons_1 in Hs as [_ Hs].
  apply (safe_bind (fun _ => True)); [case_match; [by apply (safe_weaken _ _ _ (safe_require _ _))|done]|]. intros _ _. done.
Qed.

Lemma small_number o : (o =? OP_1NEGATE) || ((OP_1 <=? o) && (o <=? OP_16)) = true -> elt_ok (getvch (o - (OP_1 - 1))).
Proof. unfold OP_1NEGATE, OP_1, OP_16. rewrite orb_true_iff, andb_true_iff, Z.eqb_eq, !Z.leb_le. intros H. apply getvch_ok. lia. Qed.

Lemma exec_op_safe o pc st : state_ok st -> safe kept (exec_op o pc st).
Proof.
  intros (Hs & Ha & Hn & Hl). unfold Interpreter.exec_op.
  assert (kept st) as Hk by done.
  destruct (_ || (_ && _)) eqn:E; [split; [constructor; [by apply small_number|done]|done]|clear E].
  repeat (match goal with |- safe _ (if ?c then _ else _) => destruct c end; [try done|]).
  - eapply safe_bind; [apply locktime_safe|]. done.
  - eapply safe_bind; [apply sequence_safe|]. done.
  - eapply safe_bind; [apply safe_require|]. done.
  - by apply op_if_safe.
  - by destruct (vfExec st).
  - by destruct (vfExec st).
  - destruct (stack st) as [|x s] eqn:Es; [done|]. apply Forall_cons_1 in Hs as [_ Hs]. by case_match.
  - destruct (stack st) as [|x s] eqn:Es; [done|]. apply Forall_cons_1 in Hs as [? Hs]. split; [done|]. by split; [constructor|].
  - destruct (altstack st) as [|x s] eqn:Es; [done|]. apply Forall_cons_1 in Ha as [? Ha]. split; [by constructor|]. done.
  - eapply safe_bind; [by apply checksig_safe|]. done.
  - eapply safe_bind; [by apply checkmultisig_safe|]. intros [s n] [? ?]. cbn in *. split; [done|]. split; [done|]. cbn. lia.
  - split; [|done]. constructor; [apply bool_vch_ok|done].
  - destruct (stack_op _ _ _ _ _ _) as [r|] eqn:Er; [|done]. eapply safe_bind; [eapply stack_op_safe; [exact Hs|exact Hl|exact Er]|]. done.
Qed.

(** What holds after every iteration. *)
Definition bounded (st : state) : Prop := kept st /\ Z.of_nat (length (stack st) + length (altstack st)) <= 1000.

Lemma bounded_ok st : bounded st -> state_ok st.
Proof. intros [(H1 & H2 & H3) Hb]. split; [done|]. split; [done|]. split; [done|]. lia. Qed.

Lemma get_op_length pc o v pc' : GetOp2 pc = Op o v pc' -> (length pc' < length pc)%nat.
Proof.
  destruct pc as [|x pc]; [done|]. cbn [GetOp2 length]. assert (forall k n q, (length q <= n)%nat -> read_operand x k q = Op o v pc' -> (length pc' < S n)%nat) as H.
  { intros k n q Hq. unfold read_operand. destruct (_ <? k); [done|]. intros [= _ _ <-]. rewrite length_drop. lia. }
  repeat case_match; try done; try (intros E; eapply H; [|done]; rewrite ?length_drop; lia). intros [= _ _ <-]. lia.
Qed.

Lemma eval_step_safe pc st : words 8 pc -> state_ok st ->
  safe (fun p => bounded p.2 /\ words 8 p.1 /\ (length p.1 < length pc)%nat) (eval_step pc st).
Proof.
  intros Hw Hst. unfold Interpreter.eval_step. destruct (GetOp2 pc) as [o v pc'|] eqn:E; [|done]. pose proof (get_op_length _ _ _ _ E) as Hlt. destruct (get_op_shrinks _ _ _ _ Hw E) as (_ & Hw' & Hv & _).
  safe_step. rewrite Z.leb_le in *. safe_step. safe_step. set (st1 := with_count st _).
  assert (state_ok st1) as Hst1 by (destruct Hst as (? & ? & ? & ?); repeat split; try done; cbn; match goal with H : negb _ || _ = true |- _ => destruct (OP_16 <? o); cbn in H; [apply Z.leb_le in H|]; lia end).
  apply (safe_bind kept).
  - clearbody st1. safe_case; [|safe_case; [by apply exec_op_safe|by destruct Hst1 as (? & ? & ? & _)]]. safe_step. destruct Hst1 as (Hs & ? & ? & _). split; [constructor; [|done]; done|done].
  - intros st2 Hst2. safe_step. rewrite Z.leb_le in *. cbn. done.
Qed.

(** ** The loop *)

(** More fuel than bytes does not matter: the loop satisfies its own unfolding. *)
Lemma eval_loop_fuel fuel pc st : (length pc <= fuel)%nat -> eval_loop fuel pc st = eval_loop (length pc) pc st.
Proof.
  revert pc st. induction fuel as [fuel IH] using lt_wf_ind. intros pc st Hf. destruct pc as [|x pc]; [by destruct fuel|]. destruct fuel as [|fuel]; [cbn in Hf; lia|]. cbn [length Interpreter.eval_loop].
  destruct (eval_step (x :: pc) st) as [[pc' st']| |] eqn:E; cbn [mbind result_bind]; [|done..]. assert (length pc' <= length pc)%nat as Hl.
  { unfold Interpreter.eval_step in E. destruct (GetOp2 (x :: pc)) as [o v q|] eqn:Eg; [|done]. apply get_op_length in Eg. cbn in Eg. repeat (apply bind_ok in E as (? & _ & E); cbn beta zeta in E). injection E as <- _. lia. }
  cbn in Hf. rewrite (IH fuel) by lia. destruct (decide (length pc < S fuel)%nat) as [|]; [|lia]. by rewrite (IH (length pc)) by lia.
Qed.

Lemma eval_loop_step pc st : pc <> [] -> eval_loop (length pc) pc st = eval_step pc st ≫= fun '(pc', st') => eval_loop (length pc') pc' st'.
Proof.
  intros Hn. destruct pc as [|x pc]; [done|]. cbn [length Interpreter.eval_loop]. destruct (eval_step (x :: pc) st) as [[pc' st']| |] eqn:E; cbn [mbind result_bind]; [|done..].
  apply eval_loop_fuel. unfold Interpreter.eval_step in E. destruct (GetOp2 (x :: pc)) as [o v q|] eqn:Eg; [|done]. apply get_op_length in Eg. cbn in Eg. repeat (apply bind_ok in E as (? & _ & E); cbn beta zeta in E). injection E as <- _. lia.
Qed.

Lemma eval_loop_bounded fuel pc st : words 8 pc -> bounded st -> safe bounded (eval_loop fuel pc st).
Proof.
  revert pc st. induction fuel as [|fuel IH]; intros [|x pc] st Hw Hst; cbn [Interpreter.eval_loop]; try done.
  eapply safe_bind; [by apply eval_step_safe, bounded_ok|]. intros [pc' st'] (Hb & Hw' & _). by apply IH.
Qed.

Lemma eval_loop_safe pc st : words 8 pc -> pc <> [] -> state_ok st -> safe bounded (eval_loop (length pc) pc st).
Proof.
  intros Hw Hn Hst. rewrite eval_loop_step by done. eapply safe_bind; [by apply eval_step_safe|]. intros [pc' st'] (Hb & Hw' & _). by apply eval_loop_bounded.
Qed.

Lemma eval_script_safe s script : words 8 script -> Forall elt_ok s -> Z.of_nat (length s) < 2 ^ 62 ->
  safe (fun s' => Forall elt_ok s' /\ (if bool_decide (script = []) then s' = s else Z.of_nat (length s') <= 1000)) (EvalScript s script).
Proof.
  intros Hw Hs Hl. unfold Interpreter.EvalScript. safe_step. case_bool_decide as Hn; [subst; cbn; by split|].
  eapply safe_bind; [apply eval_loop_safe; [done|done|]; split; [done|]; split; [constructor|]; split; [by vm_compute|done]|]. intros st [(H1 & H2 & H3) Hb]. safe_step. cbn. split; [done|]. lia.
Qed.

End Safety.

(** ** Verifying an input *)

(** The combinations of flags that the assertions of [VerifyScript] require. *)
Definition flags_ok (flags : Z) : Prop :=
  (flag flags SCRIPT_VERIFY_WITNESS = true -> flag flags SCRIPT_VERIFY_P2SH = true) /\
  (flag flags SCRIPT_VERIFY_CLEANSTACK = true -> flag flags SCRIPT_VERIFY_P2SH = true /\ flag flags SCRIPT_VERIFY_WITNESS = true).

Section Verify.

Context (CRIPEMD160 CSHA1 CSHA256 : list Z -> list Z) (CheckLowS : list Z -> bool).
Context (ripemd_ok : forall m, words 8 (CRIPEMD160 m) /\ length (CRIPEMD160 m) = 20%nat)
  (sha1_ok : forall m, words 8 (CSHA1 m) /\ length (CSHA1 m) = 20%nat)
  (sha256_ok : forall m, words 8 (CSHA256 m) /\ length (CSHA256 m) = 32%nat).
Context (flags : Z) (checker : BaseSignatureChecker).
Abbreviation EvalScript := (EvalScript CRIPEMD160 CSHA1 CSHA256 CheckLowS flags checker).

Lemma eval_true_safe s : safe (fun _ => s <> []) (eval_true s).
Proof. destruct s; [done|]. apply (safe_weaken _ _ _ (safe_require _ _)). done. Qed.

(** Running the template of a script hash takes an element from the stack. *)
Lemma p2sh_needs_element script s' : IsPayToScriptHash script = true -> EvalScript SIGVERSION_BASE [] script <> Ok s'.
Proof.
  intros H. apply is_script_template in H as (h & Hh & ->). unfold script_to_script. cbn [app].
  assert (EvalScript SIGVERSION_BASE [] (OP_HASH160 :: push h ++ [OP_EQUAL]) = Err SCRIPT_ERR_INVALID_STACK_OPERATION) as ->; [|done].
  unfold push. rewrite Hh. bytes_of h. reflexivity.
Qed.

Lemma push_words b : words 8 b -> Z.of_nat (length b) < 2 ^ 32 -> words 8 (push b).
Proof.
  intros Hw Hl. unfold push. apply Forall_app_2; [|done]. unfold OP_PUSHDATA1, OP_PUSHDATA2, OP_PUSHDATA4. repeat case_match; repeat (constructor; [unfold word; rewrite ?Z.ltb_lt, ?Z.leb_le in *; lia|]); try apply store_le_words. all: constructor.
Qed.

Lemma witness_program_safe witness version program : Forall (Forall (word 8)) witness -> Z.of_nat (length witness) < 2 ^ 62 -> words 8 program ->
  safe (fun _ => True) (VerifyWitnessProgram CRIPEMD160 CSHA1 CSHA256 CheckLowS flags checker witness version program).
Proof.
  intros Hwit Hl Hp. unfold VerifyWitnessProgram. safe_case; [|by apply (safe_weaken _ _ _ (safe_require _ _))].
  apply (safe_bind (fun p => Forall (Forall (word 8)) p.1 /\ words 8 p.2 /\ Z.of_nat (length p.1) < 2 ^ 62)).
  - assert (Forall (Forall (word 8)) (rev witness) /\ length (rev witness) = length witness) as [Hr Hrl] by (split; [by apply List.Forall_rev|apply length_rev]).
    safe_case; [|destruct (Nat.eqb_spec (length program) 20); [|done]].
    + destruct (rev witness) as [|x s] eqn:E; [done|]. apply Forall_cons_1 in Hr as [Hx Hr]. safe_step. cbn in *. split; [done|]. split; [done|]. lia.
    + safe_step. cbn. rewrite Hrl. split; [done|]. split; [|done].
      apply (Forall_app_2 _ [OP_DUP; OP_HASH160]); [repeat constructor; by vm_compute|]. apply Forall_app_2; [apply push_words; [done|lia]|repeat constructor; by vm_compute].
  - intros [s script] (Hs & Hw & Hl'). cbn in *. safe_step. apply (safe_bind (fun _ => True)).
    + eapply safe_weaken; [apply eval_script_safe; try done|done]. apply List.Forall_forall. intros x Hx. rewrite List.Forall_forall in Hs. split; [by apply Hs|]. rewrite forallb_forall in H. specialize (H x Hx). by apply Z.leb_le.
    + intros s' _. safe_step. eapply safe_weaken; [apply eval_true_safe|done].
Qed.

Lemma program_safe script scriptSig expected e witness s : Forall (Forall (word 8)) witness -> Z.of_nat (length witness) < 2 ^ 62 -> words 8 script ->
  safe (fun _ => True) (verify_program CRIPEMD160 CSHA1 CSHA256 CheckLowS flags checker script scriptSig expected e witness s).
Proof.
  intros Hwit Hl Hw. unfold verify_program. safe_case; [|done]. destruct (IsWitnessProgram script) as [[version program]|] eqn:E; [|done]. safe_step.
  eapply safe_bind; [apply witness_program_safe; try done|done]. unfold IsWitnessProgram in E. repeat case_match; try done. apply bind_Some in E as (v & _ & [= _ <-]). auto with words.
Qed.

Lemma verify_script_safe scriptSig scriptPubKey witness : words 8 scriptSig -> words 8 scriptPubKey -> Forall (Forall (word 8)) witness -> Z.of_nat (length witness) < 2 ^ 62 -> flags_ok flags ->
  VerifyScript CRIPEMD160 CSHA1 CSHA256 CheckLowS flags checker scriptSig scriptPubKey witness <> Abort.
Proof.
  intros Hsig Hpub Hwit Hl [Hf1 Hf2] E.
  assert (safe (fun _ => True) (VerifyScript CRIPEMD160 CSHA1 CSHA256 CheckLowS flags checker scriptSig scriptPubKey witness)) as H; [|by rewrite E in H].
  clear E. unfold VerifyScript. safe_step. eapply safe_bind; [apply eval_script_safe; try done; by constructor|]. intros copy [Hcopy Hclen].
  assert (Z.of_nat (length copy) < 2 ^ 62) as Hcl by (case_bool_decide; [by subst copy|lia]).
  destruct (EvalScript SIGVERSION_BASE copy scriptPubKey) as [s| |] eqn:Ep; [cbn [mbind result_bind]|done|].
  2:{ assert (safe (fun _ => True) (EvalScript SIGVERSION_BASE copy scriptPubKey)) as Hc by (eapply safe_weaken; [by apply eval_script_safe|done]). by rewrite Ep in Hc. }
  eapply safe_bind; [apply eval_true_safe|]. intros _ _. eapply safe_bind; [by apply program_safe|]. intros [bare s1] _.
  apply (safe_bind (fun _ => True)).
  - unfold verify_p2sh. destruct (flag flags SCRIPT_VERIFY_P2SH && IsPayToScriptHash scriptPubKey) eqn:Eps; [|done]. apply andb_prop in Eps as [_ Eps]. safe_step.
    destruct copy as [|pubKey2 copy]; [by apply (p2sh_needs_element _ s) in Eps|]. apply Forall_cons_1 in Hcopy as [[Hw2 Hl2] Hcopy]. cbn [length] in Hcl.
    eapply safe_bind; [apply eval_script_safe; try done; lia|]. intros s2 _. eapply safe_bind; [apply eval_true_safe|]. intros _ _. by apply program_safe.
  - intros [nested s2] _. apply (safe_bind (fun _ => True)).
    + safe_case; [|done]. destruct (Hf2 eq_refl) as [-> ->]. cbn. by apply (safe_weaken _ _ _ (safe_require _ _)).
    + intros _ _. safe_case; [|done]. rewrite (Hf1 eq_refl). cbn. by apply (safe_weaken _ _ _ (safe_require _ _)).
Qed.

End Verify.

(** ** The theorems *)

(** A hash of the given length for examples: the first bytes of the message. *)
Definition demo_digest (len : nat) (m : list Z) : list Z := take len ((uchar <$> m) ++ replicate len 0).

Lemma demo_digest_ok len m : words 8 (demo_digest len m) /\ length (demo_digest len m) = len.
Proof.
  unfold demo_digest. split.
  - apply Forall_take, Forall_app_2; [apply Forall_fmap, List.Forall_forall; intros; apply uchar_word|]. apply words_replicate. by vm_compute.
  - rewrite length_take, length_app, length_replicate. lia.
Qed.

Definition demo_checker : BaseSignatureChecker :=
  {| CheckSig := fun sig key code v => bool_decide (sig = key); CheckLockTime := fun _ => true; CheckSequence := fun _ => true; checker_IsCoinStake := false |}.

(** C17. A run of a script on a stack of well-formed elements (bytes, at most 520 of them)
    does not fail an assertion and no number overflows; if it succeeds, the elements
    that it leaves are well formed again, and there are at most 1000 of them unless
    the script is empty.  Its loop ends, as every iteration takes at least one byte:
    the fuelled loop satisfies the equation of the loop of the source. *)
Theorem eval_script_wellformed CRIPEMD160 CSHA1 CSHA256 CheckLowS flags checker sigversion :
  (forall m, words 8 (CRIPEMD160 m) /\ length (CRIPEMD160 m) = 20%nat) -> (forall m, words 8 (CSHA1 m) /\ length (CSHA1 m) = 20%nat) -> (forall m, words 8 (CSHA256 m) /\ length (CSHA256 m) = 32%nat) ->
  (forall s script, words 8 script -> Forall elt_ok s -> Z.of_nat (length s) < 2 ^ 62 ->
     EvalScript CRIPEMD160 CSHA1 CSHA256 CheckLowS flags checker sigversion s script <> Abort /\
     forall s', EvalScript CRIPEMD160 CSHA1 CSHA256 CheckLowS flags checker sigversion s script = Ok s' -> Forall elt_ok s' /\ (script <> [] -> Z.of_nat (length s') <= 1000)) /\
  (forall pc st, eval_loop CRIPEMD160 CSHA1 CSHA256 CheckLowS flags checker sigversion (length pc) pc st =
     if bool_decide (pc = []) then Ok st
     else '(pc', st') ← eval_step CRIPEMD160 CSHA1 CSHA256 CheckLowS flags checker sigversion pc st; eval_loop CRIPEMD160 CSHA1 CSHA256 CheckLowS flags checker sigversion (length pc') pc' st').
Proof.
  intros H1 H2 H3. split.
  - intros s script Hw Hs Hl. pose proof (eval_script_safe _ _ _ CheckLowS H1 H2 H3 flags checker sigversion s script Hw Hs Hl) as H. split; [intros E; by rewrite E in H|].
    intros s' E. rewrite E in H. destruct H as [Hs' Hb]. split; [done|]. intros Hn. by rewrite bool_decide_eq_false_2 in Hb.
  - intros pc st. case_bool_decide as Hn; [by subst|]. by apply eval_loop_step.
Qed.

Lemma eval_script_wellformed_witness :
  EvalScript (demo_digest 20) (demo_digest 20) (demo_digest 32) (fun _ => true) 0 demo_checker SIGVERSION_BASE [[1; 2]] [OP_DUP; OP_HASH160] <> Abort.
Proof.
  destruct (eval_script_wellformed (demo_digest 20) (demo_digest 20) (demo_digest 32) (fun _ => true) 0 demo_checker SIGVERSION_BASE (demo_digest_ok 20) (demo_digest_ok 20) (demo_digest_ok 32)) as [H _].
  apply H; [apply (bool_decide_unpack _); by vm_compute| |by vm_compute]. constructor; [|constructor]. split; [apply (bool_decide_unpack _); by vm_compute|by vm_compute].
Defined.

(** C6. Verifying an input never fails one of the assertions of the interpreter, whatever
    scripts and witness it is given, when the flags are combined as the code demands;
    in particular the stack that is restored for a script hash is not empty. *)
Theorem verify_script_never_aborts CRIPEMD160 CSHA1 CSHA256 CheckLowS flags checker scriptSig scriptPubKey witness :
  (forall m, words 8 (CRIPEMD160 m) /\ length (CRIPEMD160 m) = 20%nat) -> (forall m, words 8 (CSHA1 m) /\ length (CSHA1 m) = 20%nat) -> (forall m, words 8 (CSHA256 m) /\ length (CSHA256 m) = 32%nat) ->
  words 8 scriptSig -> words 8 scriptPubKey -> Forall (Forall (word 8)) witness -> Z.of_nat (length witness) < 2 ^ 62 -> flags_ok flags ->
  VerifyScript CRIPEMD160 CSHA1 CSHA256 CheckLowS flags checker scriptSig scriptPubKey witness <> Abort.
Proof. intros H1 H2 H3. by apply verify_script_safe. Qed.

Lemma verify_script_never_aborts_witness :
  VerifyScript (demo_digest 20) (demo_digest 20) (demo_digest 32) (fun _ => true) (SCRIPT_VERIFY_P2SH .| SCRIPT_VERIFY_WITNESS .| SCRIPT_VERIFY_CLEANSTACK) demo_checker (push [OP_1]) (script_to_script (demo_digest 20 (demo_digest 32 [OP_1]))) [] <> Abort.
Proof.
  apply verify_script_never_aborts; [apply demo_digest_ok|apply demo_digest_ok|apply demo_digest_ok|apply (bool_decide_unpack _); by vm_compute|apply (bool_decide_unpack _); by vm_compute|constructor|by vm_compute|].
  split; by vm_compute.
Defined.

Example script_hash_demo :
  VerifyScript (demo_digest 20) (demo_digest 20) (demo_digest 32) (fun _ => true) (SCRIPT_VERIFY_P2SH .| SCRIPT_VERIFY_WITNESS .| SCRIPT_VERIFY_CLEANSTACK) demo_checker (push [OP_1]) (script_to_script (demo_digest 20 (demo_digest 32 [OP_1]))) [] = Ok tt.
Proof. by vm_compute. Qed.
