(* ===== verification/ScriptSpend.v ===== *)
(** * Spending conditions

    What has to be provided to spend an output, for the templates that the node
    creates: an output to a key needs a signature by a key with that hash, a
    cold-staking output a signature by the staking key in a coinstake and by the
    spending key otherwise; an output that the node drops as unspendable cannot be
    spent at all; and [OP_CHECKMULTISIG] accepts exactly the signatures that can be
    assigned to the keys in their order. *)

From Stdlib Require Import ZArith Lia.
From stdpp Require Import base tactics numbers list.
From S2P Require Import Prelude SphTypes Serialize Compressor Coins ScriptNum Script Interpreter ScriptSafety.

Section Spend.

Context (CRIPEMD160 CSHA1 CSHA256 : list Z -> list Z) (CheckLowS : list Z -> bool).
Context (flags : Z) (checker : BaseSignatureChecker).

Section Steps.
Context (sigversion : SigVersion).
Abbreviation eval_step := (Interpreter.eval_step CRIPEMD160 CSHA1 CSHA256 CheckLowS flags checker sigversion).
Abbreviation eval_loop := (Interpreter.eval_loop CRIPEMD160 CSHA1 CSHA256 CheckLowS flags checker sigversion).
Abbreviation exec_op := (Interpreter.exec_op CRIPEMD160 CSHA1 CSHA256 CheckLowS flags checker sigversion).
Abbreviation EvalScript := (Interpreter.EvalScript CRIPEMD160 CSHA1 CSHA256 CheckLowS flags checker sigversion).

(** The rest of a run from a position. *)
Definition run (pc : list Z) (st : state) : result state := eval_loop (length pc) pc st.

Definition small (st : state) : bool := Z.of_nat (length (stack st) + length (altstack st)) <=? 1000.
Definition counted (st : state) : state := with_count st (nOpCount st + 1).

(** An operation that is counted, executed or skipped. *)
Lemma run_op o pc st : OP_16 < o -> is_disabled o = false ->
  run (o :: pc) st =
    _ ← require (nOpCount st + 1 <=? MAX_OPS_PER_SCRIPT) SCRIPT_ERR_OP_COUNT;
    st1 ← (if executing st || ((OP_IF <=? o) && (o <=? OP_ENDIF)) then exec_op o pc (counted st) else Ok (counted st));
    _ ← require (small st1) SCRIPT_ERR_STACK_SIZE;
    run pc st1.
Proof.
  intros Ho Hd. unfold run. rewrite eval_loop_step by done. unfold Interpreter.eval_step. cbn [GetOp2]. assert ((o <=? OP_PUSHDATA4) = false) as Hp by (apply Z.leb_gt; unfold OP_16, OP_PUSHDATA4 in *; lia).
  assert ((OP_16 <? o) = true) as Hn by (by apply Z.ltb_lt). rewrite Hp. cbv iota. rewrite Hp, Hn, Hd. change (require (Z.of_nat (length (@nil Z)) <=? MAX_SCRIPT_ELEMENT_SIZE) SCRIPT_ERR_PUSH_SIZE) with (Ok tt). cbn [mbind result_bind negb orb]. rewrite andb_false_r.
  destruct (nOpCount st + 1 <=? MAX_OPS_PER_SCRIPT); [|done]. cbn [require mbind result_bind]. change (executing (with_count st (nOpCount st + 1))) with (executing st). fold (counted st).
  match goal with |- (?m ≫= _) ≫= _ = _ => destruct m as [st1| |]; [|done..] end. cbn [mbind result_bind]. fold (small st1). destruct (small st1); done.
Qed.

Lemma push_opcode b : 2 <= Z.of_nat (length b) <= MAX_SCRIPT_ELEMENT_SIZE -> let o := (push b).[0] in 0 <= o <= OP_PUSHDATA4 /\ CheckMinimalPush b o = true.
Proof.
  unfold MAX_SCRIPT_ELEMENT_SIZE, push, CheckMinimalPush, OP_PUSHDATA1, OP_PUSHDATA2, OP_PUSHDATA4. set (n := Z.of_nat (length b)). intros Hn.
  destruct (Z.eqb_spec n 0); [lia|]. destruct (Z.eqb_spec n 1); [lia|]. cbn [andb].
  destruct (Z.ltb_spec n 76); cbn [nth app]; [destruct (Z.leb_spec n 75); [|lia]; rewrite Z.eqb_refl; lia|]. destruct (Z.leb_spec n 75); [lia|].
  destruct (Z.leb_spec n 255); cbn [nth app]; [split; [lia|done]|]. destruct (Z.leb_spec n 65535); [cbn [nth app]; split; [lia|done]|lia].
Qed.

(** A push, executed or skipped. *)
Lemma run_push b pc st : 2 <= Z.of_nat (length b) <= MAX_SCRIPT_ELEMENT_SIZE ->
  run (push b ++ pc) st =
    let st1 := if executing st then with_stack st (b :: stack st) else st in
    _ ← require (small st1) SCRIPT_ERR_STACK_SIZE;
    run pc st1.
Proof.
  intros Hb. destruct (push_opcode b Hb) as [Ho Hm]. unfold run. unfold MAX_SCRIPT_ELEMENT_SIZE in *. destruct (push_token b ltac:(lia)) as [Hne Ht]. rewrite eval_loop_step by (by destruct (push b)). unfold Interpreter.eval_step. rewrite Ht.
  unfold MAX_SCRIPT_ELEMENT_SIZE. destruct (Z.leb_spec (Z.of_nat (length b)) 520); [|lia]. cbn [require mbind result_bind]. unfold OP_PUSHDATA4, OP_16 in *. destruct (Z.ltb_spec 96 (push b).[0]); [lia|]. cbn [negb orb].
  assert (is_disabled (push b).[0] = false) as ->.
  { unfold is_disabled. apply Bool.not_true_iff_false. rewrite !orb_true_iff, !Z.eqb_eq. unfold OP_CAT, OP_SUBSTR, OP_LEFT, OP_RIGHT, OP_INVERT, OP_AND, OP_OR, OP_XOR, OP_2MUL, OP_2DIV, OP_MUL, OP_DIV, OP_MOD, OP_LSHIFT, OP_RSHIFT. lia. }
  cbn [negb]. assert (with_count st (nOpCount st) = st) as -> by (by destruct st). rewrite Hm. cbn [negb]. rewrite andb_false_r. cbn [negb].
  destruct (Z.leb_spec (push b).[0] 78); [|lia]. rewrite andb_true_r. cbn [require mbind result_bind].
  assert ((OP_IF <=? (push b).[0]) = false) as -> by (apply Z.leb_gt; unfold OP_IF; lia). cbn [andb]. rewrite orb_false_r.
  destruct (executing st); cbn [mbind result_bind]; [fold (small (with_stack st (b :: stack st)))|fold (small st)]; by destruct (small _).
Qed.

(** ** The script of a key *)

Definition code_for (st : state) (sig : list Z) : list Z := drop_signature sigversion (pbegincodehash st) sig.

(** Signature checks of a run that goes on. *)
Definition signed (st : state) (sig key : list Z) (ok : bool) : Prop :=
  CheckSignatureEncoding CheckLowS flags sig = Ok tt /\ CheckPubKeyEncoding flags sigversion key = Ok tt /\ CheckSig checker sig key (code_for st sig) sigversion = ok.

Lemma checksig_inv verify code key sig s s' : op_checksig CheckLowS flags checker sigversion verify code (key :: sig :: s) = Ok s' ->
  CheckSignatureEncoding CheckLowS flags sig = Ok tt /\ CheckPubKeyEncoding flags sigversion key = Ok tt /\
  s' = if verify then s else bool_vch (CheckSig checker sig key (drop_signature sigversion code sig) sigversion) :: s.
Proof.
  unfold op_checksig. intros E. apply bind_ok in E as ([] & E1 & E). apply bind_ok in E as ([] & E2 & E). repeat case_match; simplify_eq; done.
Qed.

(** One counted operation of a run that goes on; [Hex] tells that it is executed. *)
Ltac run_step Hex E st1 E1 :=
  rewrite run_op in E by done;
  repeat match type of E with context [executing ?s] => replace (executing s) with true in E by (symmetry; exact Hex) end; rewrite ?orb_true_r in E; cbn [orb] in E;
  apply bind_ok in E as ([] & _ & E); apply bind_ok in E as (st1 & E1 & E); apply bind_ok in E as ([] & _ & E).

Lemma run_key h rest st st' : length h = 20%nat -> executing st = true -> run (script_to_key h ++ rest) st = Ok st' ->
  exists key sig s ok, stack st = key :: sig :: s /\ CHash160 CRIPEMD160 CSHA256 key = h /\ signed st sig key ok /\
    run rest (with_count (with_stack st (bool_vch ok :: s)) (nOpCount st + 4)) = Ok st'.
Proof.
  intros Hh Hex E. unfold script_to_key in E. rewrite <- !app_assoc in E. cbn [app] in E. run_step Hex E st1 E1.
  destruct (stack st) as [|key s0] eqn:Es. { unfold Interpreter.exec_op in E1. cbn [counted with_count stack] in E1. rewrite Es in E1. done. }
  assert (st1 = with_stack (counted st) (key :: key :: s0)) as ->. { unfold Interpreter.exec_op in E1. cbn [counted with_count stack] in E1. rewrite Es in E1. by injection E1 as <-. } clear E1.
  run_step Hex E st1 E1. injection E1 as <-. rewrite run_push in E by (rewrite Hh; done).
  match type of E with context [executing ?s] => replace (executing s) with true in E by (symmetry; exact Hex) end. cbn zeta in E. apply bind_ok in E as ([] & _ & E). cbn [app stack with_stack] in E.
  run_step Hex E st1 E1. assert (CHash160 CRIPEMD160 CSHA256 key = h /\ st1 = with_count (with_stack st (key :: s0)) (nOpCount st + 3)) as [Hk ->].
  { cbn in E1. case_bool_decide as Hk; [|done]. injection E1 as <-. split; [done|]. unfold with_count, with_stack. cbn. f_equal. lia. } clear E1.
  run_step Hex E st1 E1. apply bind_ok in E1 as (s1 & Hc & E1). injection E1 as <-. destruct s0 as [|sig s]; [done|].
  destruct (checksig_inv _ _ _ _ _ _ Hc) as (He1 & He2 & ->). exists key, sig, s, (CheckSig checker sig key (code_for st sig) sigversion). split; [done|]. split; [done|]. split; [done|].
  rewrite <- E. f_equal. unfold with_count, with_stack. cbn. f_equal. lia.
Qed.

(** The same script in a branch that is not taken. *)
Lemma run_key_skipped h rest st st' : length h = 20%nat -> executing st = false -> run (script_to_key h ++ rest) st = Ok st' ->
  run rest (with_count st (nOpCount st + 4)) = Ok st'.
Proof.
  intros Hh Hex. unfold script_to_key. rewrite <- !app_assoc. cbn [app].
  assert (forall o pc st1, vfExec st1 = vfExec st -> OP_16 < o -> is_disabled o = false -> (OP_IF <=? o) && (o <=? OP_ENDIF) = false -> run (o :: pc) st1 = Ok st' -> run pc (counted st1) = Ok st') as Hskip.
  { intros o pc st1 Hv Ho Hd Hi E. rewrite run_op in E by done. unfold executing in *. rewrite Hv, Hex, Hi in E. cbn [orb] in E. apply bind_ok in E as ([] & _ & E). apply bind_ok in E as (st2 & E1 & E). injection E1 as <-. by apply bind_ok in E as ([] & _ & E). }
  intros E. apply Hskip in E; [|done..]. apply Hskip in E; [|done..]. rewrite run_push in E by (rewrite Hh; done). assert (executing (counted (counted st)) = false) as He by done. rewrite He in E. apply bind_ok in E as ([] & _ & E). cbn [app] in E.
  apply Hskip in E; [|done..]. apply Hskip in E; [|done..]. unfold counted, with_count in E. cbn in E. unfold with_count. by replace (nOpCount st + 4) with (nOpCount st + 1 + 1 + 1 + 1) by lia.
Qed.

(** ** The cold-staking script *)

Lemma run_staking h1 h2 st st' : length h1 = 20%nat -> length h2 = 20%nat -> executing st = true -> vfExec st = [] -> run (script_to_staking h1 h2) st = Ok st' ->
  exists key sig s ok, stack st = key :: sig :: s /\ CHash160 CRIPEMD160 CSHA256 key = (if checker_IsCoinStake checker then h1 else h2) /\ signed st sig key ok /\ stack st' = bool_vch ok :: s.
Proof.
  intros H1 H2 Hex Hv E. unfold script_to_staking in E. cbn [app] in E. run_step Hex E st1 E1. injection E1 as <-.
  set (c := checker_IsCoinStake checker) in *. run_step Hex E st1 E1.
  assert (exists n, st1 = with_count (with_exec st [c]) n) as [n ->].
  { change (op_if flags sigversion OP_IF (counted (with_stack (counted st) (bool_vch c :: stack (counted st)))) = Ok st1) in E1. unfold op_if in E1. match type of E1 with context [executing ?s] => replace (executing s) with true in E1 by (symmetry; exact Hex) end.
    cbn [counted with_stack with_count vfExec stack] in E1. rewrite Hv in E1.
    apply bind_ok in E1 as ([] & _ & E1). injection E1 as <-. exists (nOpCount st + 1 + 1). unfold with_count, with_exec, with_stack. cbn. by destruct c. }
  clear E1. destruct c eqn:Ec.
  - apply run_key in E as (key & sig & s & ok & Es & Hk & Hs & E); [|done|done]. exists key, sig, s, ok. split; [done|]. split; [done|]. split; [done|].
    cbn [app] in E. run_step (eq_refl true) E st1 E1. injection E1 as <-. apply run_key_skipped in E; [|done|done]. run_step (eq_refl true) E st1 E1. injection E1 as <-. by injection E as <-.
  - apply run_key_skipped in E; [|done|done]. cbn [app] in E. run_step (eq_refl true) E st1 E1. injection E1 as <-.
    apply run_key in E as (key & sig & s & ok & Es & Hk & Hs & E); [|done|done]. exists key, sig, s, ok. split; [done|]. split; [done|]. split; [done|].
    run_step (eq_refl true) E st1 E1. injection E1 as <-. by injection E as <-.
Qed.

(** With enough room and a good signature the run goes on behind the script. *)
Lemma run_key_accepts h rest st key sig s : length h = 20%nat -> executing st = true -> stack st = key :: sig :: s ->
  nOpCount st + 4 <= MAX_OPS_PER_SCRIPT -> Z.of_nat (length (stack st) + length (altstack st)) + 2 <= 1000 ->
  CHash160 CRIPEMD160 CSHA256 key = h -> signed st sig key true ->
  run (script_to_key h ++ rest) st = run rest (with_count (with_stack st (vchTrue :: s)) (nOpCount st + 4)).
Proof.
  intros Hh Hex Es Hn Hsz Hk (He1 & He2 & Hc). unfold script_to_key. rewrite <- !app_assoc. cbn [app].
  assert (forall o pc st1 st2, vfExec st1 = vfExec st -> OP_16 < o -> is_disabled o = false -> nOpCount st1 < MAX_OPS_PER_SCRIPT -> exec_op o pc (counted st1) = Ok st2 -> small st2 = true -> run (o :: pc) st1 = run pc st2) as Hop.
  { intros o pc st1 st2 Hv Ho Hd Hlt E Hs. rewrite run_op by done. unfold executing in *. rewrite Hv, Hex, E. cbn [orb]. destruct (Z.leb_spec (nOpCount st1 + 1) MAX_OPS_PER_SCRIPT); [|lia]. cbn. by rewrite Hs. }
  assert (forall s1 n, (length s1 <= 2 + length (stack st))%nat -> small (with_count (with_stack st s1) n) = true) as Hsm by (intros s1 n Hl; unfold small; cbn; apply Z.leb_le; lia).
  assert (forall s1 n, vfExec (with_count (with_stack st s1) n) = vfExec st) as Hve by done.
  assert (st = with_count (with_stack st (stack st)) (nOpCount st + 0)) as -> by (destruct st; unfold with_count, with_stack; cbn; by rewrite Z.add_0_r).
  assert (forall s1 i, counted (with_count (with_stack st s1) (nOpCount st + i)) = with_count (with_stack st s1) (nOpCount st + (i + 1))) as Hco by (intros; unfold counted, with_count, with_stack; cbn; f_equal; lia).
  rewrite (Hop _ _ _ (with_count (with_stack st (key :: key :: sig :: s)) (nOpCount st + 1))); [|done|done|done|cbn; lia|rewrite Hco, Es; done|apply Hsm; rewrite Es; cbn; lia].
  rewrite (Hop _ _ _ (with_count (with_stack st (CHash160 CRIPEMD160 CSHA256 key :: key :: sig :: s)) (nOpCount st + 2))); [|done|done|done|cbn; lia|by rewrite Hco|apply Hsm; rewrite Es; cbn; lia].
  rewrite run_push by (rewrite Hh; done). assert (executing (with_count (with_stack st (CHash160 CRIPEMD160 CSHA256 key :: key :: sig :: s)) (nOpCount st + 2)) = true) as -> by exact Hex. cbv zeta. cbn [stack with_stack with_count].
  assert (with_stack (with_count (with_stack st (CHash160 CRIPEMD160 CSHA256 key :: key :: sig :: s)) (nOpCount st + 2)) (h :: CHash160 CRIPEMD160 CSHA256 key :: key :: sig :: s) = with_count (with_stack st (h :: CHash160 CRIPEMD160 CSHA256 key :: key :: sig :: s)) (nOpCount st + 2)) as -> by done.
  rewrite Hsm by (rewrite Es; cbn; lia). cbn [require mbind result_bind app].
  rewrite (Hop _ _ _ (with_count (with_stack st (key :: sig :: s)) (nOpCount st + 3))); [|done|done|done|cbn; lia| |apply Hsm; rewrite Es; cbn; lia].
  2:{ rewrite Hco. cbn. by rewrite Hk, bool_decide_eq_true_2. }
  rewrite (Hop _ _ _ (with_count (with_stack st (vchTrue :: s)) (nOpCount st + 4))); [f_equal; unfold with_count, with_stack; cbn; f_equal; lia|done|done|done|cbn; lia| |apply Hsm; rewrite Es; cbn; lia].
  rewrite Hco.
  assert (op_checksig CheckLowS flags checker sigversion false (pbegincodehash st) (key :: sig :: s) = Ok (vchTrue :: s)) as Hcs.
  { unfold op_checksig. rewrite He1, He2. cbn [mbind result_bind]. unfold code_for in Hc. by rewrite Hc. }
  transitivity (op_checksig CheckLowS flags checker sigversion false (pbegincodehash st) (key :: sig :: s) ≫= fun s1 => Ok (with_stack (with_count (with_stack st (key :: sig :: s)) (nOpCount st + (3 + 1))) s1)); [reflexivity|].
  by rewrite Hcs.
Qed.

End Steps.

Abbreviation EvalScript := (Interpreter.EvalScript CRIPEMD160 CSHA1 CSHA256 CheckLowS flags checker).
Abbreviation VerifyScript := (Interpreter.VerifyScript CRIPEMD160 CSHA1 CSHA256 CheckLowS flags checker).
Abbreviation run_base := (run SIGVERSION_BASE).

Lemma eval_script_run sigversion s script s' : EvalScript sigversion s script = Ok s' -> exists st, run sigversion script (start s script) = Ok st /\ stack st = s'.
Proof.
  unfold Interpreter.EvalScript. intros E. apply bind_ok in E as ([] & _ & E). apply bind_ok in E as (st & E1 & E). apply bind_ok in E as ([] & _ & E). injection E as <-. by exists st.
Qed.

(** What an accepted input went through. *)
Lemma verify_script_runs scriptSig scriptPubKey witness : VerifyScript scriptSig scriptPubKey witness = Ok tt ->
  exists copy top s, EvalScript SIGVERSION_BASE [] scriptSig = Ok copy /\ EvalScript SIGVERSION_BASE copy scriptPubKey = Ok (top :: s) /\ CastToBool top = true.
Proof.
  unfold Interpreter.VerifyScript. intros E. apply bind_ok in E as ([] & _ & E). apply bind_ok in E as (copy & E1 & E). apply bind_ok in E as (s & E2 & E). apply bind_ok in E as ([] & E3 & _).
  destruct s as [|top s]; [done|]. exists copy, top, s. split; [done|]. split; [done|]. by apply require_ok in E3.
Qed.

Lemma cast_bool_vch ok : CastToBool (bool_vch ok) = ok.
Proof. by destruct ok. Qed.

(** The script code that is signed: the output script without pushes of the signature. *)
Definition signed_code (script sig : list Z) : list Z := drop_signature SIGVERSION_BASE script sig.

(** The input provides a signature by a key with the given hash. *)
Definition provides (scriptSig script h : list Z) : Prop :=
  exists key sig s, EvalScript SIGVERSION_BASE [] scriptSig = Ok (key :: sig :: s) /\ CHash160 CRIPEMD160 CSHA256 key = h /\
    CheckSig checker sig key (signed_code script sig) SIGVERSION_BASE = true.

Lemma key_output_needs_signature scriptSig witness h : length h = 20%nat -> VerifyScript scriptSig (script_to_key h) witness = Ok tt -> provides scriptSig (script_to_key h) h.
Proof.
  intros Hh E. apply verify_script_runs in E as (copy & top & s & E1 & E2 & Ht). apply eval_script_run in E2 as (st & E2 & Es).
  rewrite <- (app_nil_r (script_to_key h)) in E2 at 1. apply run_key in E2 as (key & sig & s1 & ok & Hs & Hk & (_ & _ & Hc) & E2); [|done|done]. injection E2 as <-. cbn in Hs, Es. injection Es as <- <-. rewrite cast_bool_vch in Ht. subst ok. by exists key, sig, s1; rewrite <- Hs.
Qed.

Lemma staking_output_needs_signature scriptSig witness h1 h2 : length h1 = 20%nat -> length h2 = 20%nat -> VerifyScript scriptSig (script_to_staking h1 h2) witness = Ok tt ->
  provides scriptSig (script_to_staking h1 h2) (if checker_IsCoinStake checker then h1 else h2).
Proof.
  intros H1 H2 E. apply verify_script_runs in E as (copy & top & s & E1 & E2 & Ht). apply eval_script_run in E2 as (st & E2 & Es).
  apply run_staking in E2 as (key & sig & s1 & ok & Hs & Hk & (_ & _ & Hc) & Hst); try done. cbn in Hs. rewrite Hst in Es. injection Es as <- <-. rewrite cast_bool_vch in Ht. subst ok. by exists key, sig, s1; rewrite <- Hs.
Qed.

Lemma staking_v2_output_needs_signature scriptSig witness h1 h2 h3 : length h1 = 20%nat -> length h2 = 20%nat -> length h3 = 20%nat -> VerifyScript scriptSig (script_to_staking_v2 h1 h2 h3) witness = Ok tt ->
  provides scriptSig (script_to_staking_v2 h1 h2 h3) (if checker_IsCoinStake checker then h1 else h2).
Proof.
  intros H1 H2 H3 E. apply verify_script_runs in E as (copy & top & s & E1 & E2 & Ht). apply eval_script_run in E2 as (st & E2 & Es).
  unfold script_to_staking_v2 in E2 at 1. rewrite run_push in E2 by (rewrite H3; done). cbn zeta in E2. apply bind_ok in E2 as ([] & _ & E2). cbn [app] in E2. rewrite run_op in E2 by done.
  apply bind_ok in E2 as ([] & _ & E2). apply bind_ok in E2 as (st1 & E3 & E2). apply bind_ok in E2 as ([] & _ & E2). injection E3 as <-.
  apply run_staking in E2 as (key & sig & s1 & ok & Hs & Hk & (_ & _ & Hc) & Hst); try done. cbn in Hs. rewrite Hst in Es. injection Es as <- <-. rewrite cast_bool_vch in Ht. subst ok. by exists key, sig, s1; rewrite <- Hs.
Qed.

(** ** A key output is spent by its key *)

Lemma push_length b : Z.of_nat (length b) <= MAX_SCRIPT_ELEMENT_SIZE -> Z.of_nat (length (push b)) <= 523.
Proof.
  unfold MAX_SCRIPT_ELEMENT_SIZE, push, OP_PUSHDATA1, OP_PUSHDATA2. intros H. rewrite length_app. destruct (Z.ltb_spec (Z.of_nat (length b)) 76); [cbn; lia|]. destruct (Z.leb_spec (Z.of_nat (length b)) 255); [cbn; lia|].
  destruct (Z.leb_spec (Z.of_nat (length b)) 65535); [|lia]. cbn [length]. rewrite store_le_length. lia.
Qed.

Lemma eval_pushes sigversion sig key : 2 <= Z.of_nat (length sig) <= MAX_SCRIPT_ELEMENT_SIZE -> 2 <= Z.of_nat (length key) <= MAX_SCRIPT_ELEMENT_SIZE ->
  EvalScript sigversion [] (push sig ++ push key) = Ok [key; sig].
Proof.
  intros Hs Hk. unfold Interpreter.EvalScript. pose proof (push_length sig ltac:(lia)). pose proof (push_length key ltac:(lia)).
  destruct (Z.leb_spec (Z.of_nat (length (push sig ++ push key))) MAX_SCRIPT_SIZE) as [|Hl]; [|rewrite length_app in Hl; unfold MAX_SCRIPT_SIZE in Hl; lia]. cbn [require mbind result_bind].
  fold (run sigversion (push sig ++ push key) (start [] (push sig ++ push key))). rewrite run_push by done. cbn zeta. assert (forall st, run sigversion (push key) st = run sigversion (push key ++ []) st) as E by (intros; by rewrite app_nil_r). rewrite E, run_push by done. done.
Qed.

Lemma push_only_pushes sig key : words 8 sig -> words 8 key -> 2 <= Z.of_nat (length sig) <= MAX_SCRIPT_ELEMENT_SIZE -> 2 <= Z.of_nat (length key) <= MAX_SCRIPT_ELEMENT_SIZE -> IsPushOnly (push sig ++ push key) = true.
Proof.
  intros Hws Hwk Hs Hk. unfold MAX_SCRIPT_ELEMENT_SIZE in *. apply push_only_tokens; [apply Forall_app_2; apply push_words; (done || lia)|done|]. exists [push sig; push key]. cbn [concat]. rewrite app_nil_r. split; [done|].
  assert (forall b, 2 <= Z.of_nat (length b) <= 520 -> is_token (push b) /\ (push b).[0] <= OP_16) as H; [|repeat constructor; by apply H].
  intros b Hb. split; [eexists _, _; apply push_token; lia|]. destruct (push_opcode b Hb) as [Ho _]. unfold OP_PUSHDATA4, OP_16 in *. lia.
Qed.

Lemma script_to_key_length h : length h = 20%nat -> length (script_to_key h) = 25%nat.
Proof. intros Hh. unfold script_to_key, push. rewrite Hh. bytes_of h. done. Qed.

Lemma key_output_accepts sig key h : words 8 sig -> words 8 key -> 2 <= Z.of_nat (length sig) <= MAX_SCRIPT_ELEMENT_SIZE -> 2 <= Z.of_nat (length key) <= MAX_SCRIPT_ELEMENT_SIZE ->
  length h = 20%nat -> flags_ok flags -> CHash160 CRIPEMD160 CSHA256 key = h ->
  CheckSignatureEncoding CheckLowS flags sig = Ok tt -> CheckPubKeyEncoding flags SIGVERSION_BASE key = Ok tt -> CheckSig checker sig key (signed_code (script_to_key h) sig) SIGVERSION_BASE = true ->
  VerifyScript (push sig ++ push key) (script_to_key h) [] = Ok tt.
Proof.
  intros Hws Hwk Hs Hk Hh [Hf1 Hf2] Hkh He1 He2 Hc. unfold Interpreter.VerifyScript. rewrite push_only_pushes by done. cbn [negb]. rewrite andb_false_r. cbn [negb require mbind result_bind]. rewrite eval_pushes by done. cbn [mbind result_bind].
  assert (EvalScript SIGVERSION_BASE [key; sig] (script_to_key h) = Ok [vchTrue]) as ->.
  { unfold Interpreter.EvalScript. destruct (Z.leb_spec (Z.of_nat (length (script_to_key h))) MAX_SCRIPT_SIZE) as [|Hl]; [|rewrite script_to_key_length in Hl by done; by vm_compute in Hl]. cbn [require mbind result_bind].
    fold (run SIGVERSION_BASE (script_to_key h) (start [key; sig] (script_to_key h))). rewrite <- (app_nil_r (script_to_key h)) at 1.
    rewrite (run_key_accepts SIGVERSION_BASE h [] _ key sig []); [done|done|done|done|by vm_compute|cbn; lia|done|by split_and!]. }
  cbn [mbind result_bind]. change (eval_true [vchTrue]) with (Ok tt). cbn [mbind result_bind].
  assert (IsPayToScriptHash (script_to_key h) = false /\ IsWitnessProgram (script_to_key h) = None) as [Ep Ew] by (unfold script_to_key, push; rewrite Hh; bytes_of h; by vm_compute).
  unfold verify_program, verify_p2sh. rewrite Ep, Ew, andb_false_r. destruct (flag flags SCRIPT_VERIFY_WITNESS) eqn:Efw; cbn [mbind result_bind]; rewrite ?Efw in Hf2.
  - rewrite (Hf1 eq_refl). destruct (flag flags SCRIPT_VERIFY_CLEANSTACK); done.
  - destruct (flag flags SCRIPT_VERIFY_CLEANSTACK); [by destruct (Hf2 eq_refl)|done].
Qed.

(** ** Outputs that cannot be spent *)

Lemma unspendable_fails sigversion s script : CCoins.IsUnspendable script = true -> exists e, EvalScript sigversion s script = Err e.
Proof.
  unfold CCoins.IsUnspendable. intros H. unfold Interpreter.EvalScript. destruct (Z.leb_spec (Z.of_nat (length script)) MAX_SCRIPT_SIZE) as [Hl|Hl]; [|eexists; done]. cbn [require mbind result_bind].
  apply orb_true_iff in H as [H|H]; [|apply Z.ltb_lt in H; lia]. destruct script as [|o script]; [done|]. apply andb_prop in H as [_ H]. apply Z.eqb_eq in H. cbn in H. subst o. exists SCRIPT_ERR_OP_RETURN. reflexivity.
Qed.

(** What [VerifyScript] returns. *)
Definition accepted (scriptSig scriptPubKey : list Z) (witness : list (list Z)) : bool :=
  match VerifyScript scriptSig scriptPubKey witness with Ok _ => true | _ => false end.

Lemma unspendable_not_spent scriptSig scriptPubKey witness : CCoins.IsUnspendable scriptPubKey = true -> VerifyScript scriptSig scriptPubKey witness <> Ok tt.
Proof. intros H E. apply verify_script_runs in E as (copy & top & s & _ & E & _). destruct (unspendable_fails SIGVERSION_BASE copy scriptPubKey H) as [e Ee]. by rewrite Ee in E. Qed.

(** ** Multisignatures *)

Section Multisig.
Context (sigversion : SigVersion) (code : list Z).

(** The signatures are assigned to keys in the same order. *)
Inductive assigned : list (list Z) -> list (list Z) -> Prop :=
  | assigned_nil keys : assigned [] keys
  | assigned_next sig key sigs keys : CheckSig checker sig key code sigversion = true -> assigned sigs keys -> assigned (sig :: sigs) (key :: keys)
  | assigned_skip key sigs keys : assigned sigs keys -> assigned sigs (key :: keys).

Lemma assigned_tail sig sigs keys : assigned (sig :: sigs) keys -> assigned sigs keys.
Proof.
  intros H. remember (sig :: sigs) as l eqn:El. revert sig sigs El. induction H as [|sig' key sigs' keys Hc H IH|key sigs' keys H IH]; intros sig sigs El; [done|..].
  - injection El as -> ->. by apply assigned_skip.
  - apply assigned_skip. by eapply IH.
Qed.

Lemma assigned_length sigs keys : assigned sigs keys -> (length sigs <= length keys)%nat.
Proof. induction 1; cbn; lia. Qed.

(** Taking the first key that fits loses nothing. *)
Lemma assigned_greedy sig sigs key keys : assigned (sig :: sigs) (key :: keys) <->
  if CheckSig checker sig key code sigversion then assigned sigs keys else assigned (sig :: sigs) keys.
Proof.
  destruct (CheckSig checker sig key code sigversion) eqn:Ec; split; intros H.
  - inversion H; subst; [done|]. by eapply assigned_tail.
  - by apply assigned_next.
  - inversion H; subst; [congruence|done].
  - by apply assigned_skip.
Qed.

Definition encodings_ok (sigs keys : list (list Z)) : Prop :=
  Forall (fun sig => CheckSignatureEncoding CheckLowS flags sig = Ok tt) sigs /\ Forall (fun key => CheckPubKeyEncoding flags sigversion key = Ok tt) keys.

Lemma multisig_loop_spec sigs keys : encodings_ok sigs keys -> (length sigs <= length keys)%nat ->
  exists b, multisig_loop CheckLowS flags checker sigversion code sigs keys = Ok b /\ (b = true <-> assigned sigs keys).
Proof.
  revert sigs. induction keys as [|key keys IH]; intros [|sig sigs] [Hs Hk] Hl; cbn [multisig_loop]; try (exists true; split; [done|split; [constructor|done]]); [cbn in Hl; lia|].
  apply Forall_cons_1 in Hk as [Hk1 Hk]. pose proof Hs as Hs0. apply Forall_cons_1 in Hs as [Hs1 Hs]. rewrite Hs1, Hk1. cbn [mbind result_bind]. pose proof (assigned_greedy sig sigs key keys) as Hg.
  destruct (Nat.ltb_spec (length keys) (length (if CheckSig checker sig key code sigversion then sigs else sig :: sigs))) as [Hlt|Hge].
  - exists false. split; [done|]. split; [done|]. intros H. apply Hg in H. destruct (CheckSig checker sig key code sigversion); apply assigned_length in H; lia.
  - destruct (CheckSig checker sig key code sigversion); (edestruct IH as (b & -> & Hb); [split; done|done|]); exists b; (split; [done|]); by rewrite Hg.
Qed.

(** The stack of a multisignature: the number of keys on top, the keys, the number of
    signatures, the signatures and one more element. *)
Definition multisig_stack (keys sigs : list (list Z)) (dummy : list Z) (s : list (list Z)) : list (list Z) :=
  getvch (Z.of_nat (length keys)) :: keys ++ getvch (Z.of_nat (length sigs)) :: sigs ++ dummy :: s.

Lemma number_of_count m k : (k <= 20)%nat -> number_of m nDefaultMaxNumSize (getvch (Z.of_nat k)) = Ok (Z.of_nat k) /\ getint (Z.of_nat k) = Z.of_nat k.
Proof. intros Hk. do 21 (destruct k as [|k]; [destruct m; by vm_compute|]). lia. Qed.

Lemma cleanup_pops ok i l s : flag flags SCRIPT_VERIFY_NULLFAIL = false -> multisig_cleanup flags ok (length l) i (l ++ s) = Ok s.
Proof. intros Hf. revert i. induction l as [|x l IH]; intros i; [done|]. cbn [length app multisig_cleanup]. rewrite Hf, andb_false_r. cbn [andb]. apply IH. Qed.

End Multisig.

(** The parts of that stack, where the operation looks for them. *)
Lemma multisig_stack_parts keys sigs dummy s (stk := multisig_stack keys sigs dummy s) (k := length keys) (m := length sigs) :
  (length stk = k + m + 3 + length s)%nat /\ nth 0 stk [] = getvch (Z.of_nat k) /\ nth (2 + k - 1) stk [] = getvch (Z.of_nat m) /\
  take m (drop (2 + k + 1 - 1) stk) = sigs /\ take k (drop 1 stk) = keys /\
  exists args, length args = (2 + k + 1 + m - 1)%nat /\ stk = args ++ dummy :: s.
Proof.
  subst stk k m. unfold multisig_stack. split; [cbn; rewrite length_app; cbn; rewrite length_app; cbn; lia|]. split; [done|]. split; [|split; [|split]].
  - replace (2 + length keys - 1)%nat with (S (length keys)) by lia. cbn [nth]. rewrite app_nth2, Nat.sub_diag by lia. done.
  - replace (2 + length keys + 1 - 1)%nat with (S (length keys + 1)) by lia. cbn [drop]. rewrite drop_app_add. cbn [drop]. by rewrite drop_0, take_app_length.
  - cbn [drop]. by rewrite drop_0, take_app_length.
  - exists (getvch (Z.of_nat (length keys)) :: keys ++ getvch (Z.of_nat (length sigs)) :: sigs). split; [cbn; rewrite length_app; cbn; lia|]. cbn. rewrite <- app_assoc. done.
Qed.

Lemma checkmultisig_spec sigversion codehash nOps keys sigs dummy s : (length sigs <= length keys <= 20)%nat -> nOps + Z.of_nat (length keys) <= MAX_OPS_PER_SCRIPT ->
  encodings_ok sigversion sigs keys -> flag flags SCRIPT_VERIFY_NULLFAIL = false -> (flag flags SCRIPT_VERIFY_NULLDUMMY = true -> dummy = []) ->
  exists b, op_checkmultisig CheckLowS flags checker sigversion false codehash nOps (multisig_stack keys sigs dummy s) = Ok (bool_vch b :: s, nOps + Z.of_nat (length keys)) /\
    (b = true <-> assigned sigversion (fold_left (drop_signature sigversion) sigs codehash) sigs keys).
Proof.
  intros [Hsk Hk] Hn Henc Hf1 Hf2. destruct (multisig_loop_spec sigversion (fold_left (drop_signature sigversion) sigs codehash) sigs keys Henc Hsk) as (b & Hb & Hspec). exists b. split; [|done].
  destruct (multisig_stack_parts keys sigs dummy s) as (Hlen & H0 & H1 & H2 & H3 & args & Hargs & Hsplit). unfold op_checkmultisig. set (stk := multisig_stack keys sigs dummy s) in *. clearbody stk.
  rewrite (proj2 (Nat.leb_le 1 (length stk))) by lia. cbn [require mbind result_bind]. rewrite H0. destruct (number_of_count (fRequireMinimal flags) (length keys) Hk) as [-> Hg]. cbn [mbind result_bind]. rewrite Hg.
  rewrite (proj2 (Z.leb_le 0 _)), (proj2 (Z.leb_le (Z.of_nat (length keys)) MAX_PUBKEYS_PER_MULTISIG)), (proj2 (Z.leb_le _ MAX_OPS_PER_SCRIPT)) by (unfold MAX_PUBKEYS_PER_MULTISIG; lia). cbn [andb require mbind result_bind]. rewrite Nat2Z.id.
  rewrite (proj2 (Nat.leb_le (2 + length keys) _)) by lia. cbn [require mbind result_bind]. rewrite H1. destruct (number_of_count (fRequireMinimal flags) (length sigs) ltac:(lia)) as [-> Hg2]. cbn [mbind result_bind]. rewrite Hg2.
  rewrite (proj2 (Z.leb_le 0 _)), (proj2 (Z.leb_le (Z.of_nat (length sigs)) _)) by lia. cbn [andb require mbind result_bind]. rewrite Nat2Z.id, (proj2 (Nat.leb_le (2 + length keys + 1 + length sigs) _)) by lia. cbn [require mbind result_bind].
  rewrite H2, H3, Hb. cbn [mbind result_bind]. rewrite <- Hargs, Hsplit, cleanup_pops by done. cbn [mbind result_bind]. unfold multisig_finish.
  destruct (flag flags SCRIPT_VERIFY_NULLDUMMY); [by rewrite (Hf2 eq_refl)|done].
Qed.

(** C5. An input that spends an output to a key hash is accepted only with a signature, by
    a key with that hash, of the output script; a cold-staking output only with one by
    the staking key when the transaction is a coinstake, and by the spending key when
    it is not, in both versions of the template.  And a well-formed signature by the
    key of a key output is accepted, whatever the combination of flags. *)
Theorem spending_conditions h1 h2 h3 scriptSig witness : length h1 = 20%nat -> length h2 = 20%nat -> length h3 = 20%nat ->
  (VerifyScript scriptSig (script_to_key h1) witness = Ok tt -> provides scriptSig (script_to_key h1) h1) /\
  (VerifyScript scriptSig (script_to_staking h1 h2) witness = Ok tt ->
     provides scriptSig (script_to_staking h1 h2) (if checker_IsCoinStake checker then h1 else h2)) /\
  (VerifyScript scriptSig (script_to_staking_v2 h1 h2 h3) witness = Ok tt ->
     provides scriptSig (script_to_staking_v2 h1 h2 h3) (if checker_IsCoinStake checker then h1 else h2)) /\
  (forall sig key, words 8 sig -> words 8 key -> 2 <= Z.of_nat (length sig) <= MAX_SCRIPT_ELEMENT_SIZE -> 2 <= Z.of_nat (length key) <= MAX_SCRIPT_ELEMENT_SIZE -> flags_ok flags ->
     CHash160 CRIPEMD160 CSHA256 key = h1 -> CheckSignatureEncoding CheckLowS flags sig = Ok tt -> CheckPubKeyEncoding flags SIGVERSION_BASE key = Ok tt ->
     CheckSig checker sig key (signed_code (script_to_key h1) sig) SIGVERSION_BASE = true ->
     VerifyScript (push sig ++ push key) (script_to_key h1) [] = Ok tt).
Proof.
  intros H1 H2 H3. split_and!; [by apply key_output_needs_signature|by apply staking_output_needs_signature|by apply staking_v2_output_needs_signature|]. intros. by apply key_output_accepts.
Qed.

(** C19. An output whose script the node calls unspendable, and therefore drops from its
    set of coins, is one that no input can spend: its script fails on every stack, and
    so does the verification of every input. *)
Theorem unspendable_outputs scriptPubKey : CCoins.IsUnspendable scriptPubKey = true ->
  (forall sigversion s, exists e, Interpreter.EvalScript CRIPEMD160 CSHA1 CSHA256 CheckLowS flags checker sigversion s scriptPubKey = Err e) /\
  (forall scriptSig witness, accepted scriptSig scriptPubKey witness = false).
Proof. intros H. split; intros; [by apply unspendable_fails|]. pose proof (unspendable_not_spent scriptSig scriptPubKey witness H). unfold accepted. by destruct (VerifyScript _ _ _) as [[]| |]. Qed.

(** C18. [OP_CHECKMULTISIG] on up to 20 keys decides whether the signatures can be assigned
    to distinct keys in the order in which both are listed: the loop, which tries each
    key once for the next signature, misses no assignment.  It takes its arguments and
    the extra element off the stack and counts the keys as operations. *)
Theorem multisig_order sigversion codehash nOps keys sigs dummy s : (length sigs <= length keys <= 20)%nat -> nOps + Z.of_nat (length keys) <= MAX_OPS_PER_SCRIPT ->
  encodings_ok sigversion sigs keys -> flag flags SCRIPT_VERIFY_NULLFAIL = false -> (flag flags SCRIPT_VERIFY_NULLDUMMY = true -> dummy = []) ->
  exists b, op_checkmultisig CheckLowS flags checker sigversion false codehash nOps (multisig_stack keys sigs dummy s) = Ok (bool_vch b :: s, nOps + Z.of_nat (length keys)) /\
    (b = true <-> assigned sigversion (fold_left (drop_signature sigversion) sigs codehash) sigs keys).
Proof. apply checkmultisig_spec. Qed.

End Spend.

(** ** Concrete inputs *)

Definition demo_key : list Z := [2; 7; 7].
Definition demo_hash : list Z := CHash160 (demo_digest 20) (demo_digest 32) demo_key.
Definition demo_staking_checker : BaseSignatureChecker :=
  {| CheckSig := fun sig key code v => bool_decide (sig = key); CheckLockTime := fun _ => true; CheckSequence := fun _ => true; checker_IsCoinStake := true |}.

Lemma spending_conditions_witness :
  VerifyScript (demo_digest 20) (demo_digest 20) (demo_digest 32) (fun _ => true) 0 demo_checker (push demo_key ++ push demo_key) (script_to_key demo_hash) [] = Ok tt /\
  provides (demo_digest 20) (demo_digest 20) (demo_digest 32) (fun _ => true) 0 demo_staking_checker (push demo_key ++ push demo_key) (script_to_staking demo_hash (replicate 20 0)) demo_hash.
Proof.
  split.
  - apply (spending_conditions (demo_digest 20) (demo_digest 20) (demo_digest 32) (fun _ => true) 0 demo_checker demo_hash (replicate 20 0) (replicate 20 0) [] []); try by vm_compute.
    + apply (bool_decide_unpack _). by vm_compute.
    + apply (bool_decide_unpack _). by vm_compute.
  - apply (spending_conditions (demo_digest 20) (demo_digest 20) (demo_digest 32) (fun _ => true) 0 demo_staking_checker demo_hash (replicate 20 0) (replicate 20 0) (push demo_key ++ push demo_key) []); by vm_compute.
Defined.

Lemma unspendable_outputs_witness :
  accepted (demo_digest 20) (demo_digest 20) (demo_digest 32) (fun _ => true) 0 demo_checker [OP_1] [OP_RETURN; 1; 5] [] = false.
Proof. apply unspendable_outputs. by vm_compute. Defined.

(** Two signatures of three: the first key is passed over. *)
Lemma multisig_order_witness :
  op_checkmultisig (fun _ => true) 0 demo_checker SIGVERSION_BASE false [] 1 (multisig_stack [[1; 1]; [2; 2]; [3; 3]] [[2; 2]; [3; 3]] [] []) = Ok ([vchTrue], 4).
Proof.
  destruct (multisig_order (fun _ => true) 0 demo_checker SIGVERSION_BASE [] 1 [[1; 1]; [2; 2]; [3; 3]] [[2; 2]; [3; 3]] [] []) as (b & E & Hb); [cbn; lia|by vm_compute|split; repeat constructor|by vm_compute|done|].
  rewrite E. assert (b = true) as -> by (apply Hb; apply assigned_skip, assigned_next; [done|]; apply assigned_next; [done|]; constructor). done.
Defined.

(** In the other order they are not accepted. *)
Example multisig_wrong_order :
  op_checkmultisig (fun _ => true) 0 demo_checker SIGVERSION_BASE false [] 1 (multisig_stack [[1; 1]; [2; 2]; [3; 3]] [[3; 3]; [2; 2]] [] []) = Ok ([vchFalse], 4).
Proof. by vm_compute. Qed.
