(* ===== verification/ScriptFork.v ===== *)
(** * Stricter flags

    Every flag of the interpreter is meant to be a soft fork: it only takes spends
    away.  [relaxes r1 r2] says that the first computation gives every value that the
    second gives; it is proved for each operation under two sets of flags of which the
    first is included in the second, and from there for whole scripts and inputs. *)

From Stdlib Require Import ZArith Lia.
From stdpp Require Import base tactics numbers list.
From S2P Require Import Prelude SphTypes Serialize Compressor ScriptNum Script Interpreter ScriptSafety.

Definition relaxes {A} (r1 r2 : result A) : Prop := forall a, r2 = Ok a -> r1 = Ok a.

Lemma relaxes_refl {A} (r : result A) : relaxes r r.
Proof. by intros a. Qed.

Lemma relaxes_bind {A B} (m1 m2 : result A) (f1 f2 : A -> result B) : relaxes m1 m2 -> (forall a, m2 = Ok a -> relaxes (f1 a) (f2 a)) -> relaxes (m1 ≫= f1) (m2 ≫= f2).
Proof. intros Hm Hf b E. apply bind_ok in E as (a & E1 & E2). rewrite (Hm a E1). cbn. by apply Hf. Qed.

(** A condition that becomes weaker. *)
Lemma relaxes_require c1 c2 e : (c2 = true -> c1 = true) -> relaxes (require c1 e) (require c2 e).
Proof. unfold require. destruct c1, c2; intros H a; try done. by discriminate H. Qed.

(** An error under a condition that becomes stronger, in front of the same thing. *)
Lemma relaxes_guard {A} (c1 c2 : bool) (e : ScriptError) (r1 r2 : result A) : (c1 = true -> c2 = true) -> relaxes r1 r2 -> relaxes (if c1 then Err e else r1) (if c2 then Err e else r2).
Proof. destruct c1, c2; intros H Hr a; try done; [by discriminate H|]. apply Hr. Qed.

Lemma relaxes_if {A} (c : bool) (a1 a2 b1 b2 : result A) : relaxes a1 a2 -> relaxes b1 b2 -> relaxes (if c then a1 else b1) (if c then a2 else b2).
Proof. by destruct c. Qed.

(** ** Flags *)

(** [f1] is included in [f2]. *)
Definition subflags (f1 f2 : Z) : Prop := f1 .& f2 = f1.

Lemma flag_mono f1 f2 b : subflags f1 f2 -> flag f1 b = true -> flag f2 b = true.
Proof.
  unfold subflags, flag. rewrite !negb_true_iff, !Z.eqb_neq. intros Hs H E. apply H. rewrite <- Hs, <- Z.land_assoc, E. apply Z.land_0_r.
Qed.

(** The opcodes of lock times were no-operations: where these are discouraged, the
    flags that give them a meaning take the discouragement away. *)
Definition same_nops (f1 f2 : Z) : Prop :=
  flag f1 SCRIPT_VERIFY_DISCOURAGE_UPGRADABLE_NOPS = true ->
  flag f1 SCRIPT_VERIFY_CHECKLOCKTIMEVERIFY = flag f2 SCRIPT_VERIFY_CHECKLOCKTIMEVERIFY /\ flag f1 SCRIPT_VERIFY_CHECKSEQUENCEVERIFY = flag f2 SCRIPT_VERIFY_CHECKSEQUENCEVERIFY.

Section Relax.
Context (CRIPEMD160 CSHA1 CSHA256 : list Z -> list Z) (CheckLowS : list Z -> bool).
Context (f1 f2 : Z) (Hsub : subflags f1 f2) (Hnops : same_nops f1 f2) (checker : BaseSignatureChecker).

Lemma guard_flag b c : flag f1 b && c = true -> flag f2 b && c = true.
Proof using Hsub. intros H. apply andb_prop in H as [H ->]. by rewrite (flag_mono f1 f2 b Hsub H). Qed.

Lemma relaxes_number m1 m2 n x : (m1 = true -> m2 = true) -> relaxes (number_of m1 n x) (number_of m2 n x).
Proof.
  intros H a. unfold number_of. destruct m1, m2; try done; [by discriminate H|]. destruct (CScriptNum x true n) eqn:E; [|done]. by rewrite (CScriptNum_relax _ _ _ E).
Qed.

Lemma minimal_mono : fRequireMinimal f1 = true -> fRequireMinimal f2 = true.
Proof using Hsub. by apply flag_mono. Qed.

Section Op.
Context (sigversion : SigVersion).

Lemma relaxes_sig_encoding x : relaxes (CheckSignatureEncoding CheckLowS f1 x) (CheckSignatureEncoding CheckLowS f2 x).
Proof using Hsub.
  unfold CheckSignatureEncoding. apply relaxes_if; [apply relaxes_refl|]. apply relaxes_guard; [apply guard_flag|]. apply relaxes_bind.
  - destruct (flag f1 SCRIPT_VERIFY_LOW_S) eqn:E; [rewrite (flag_mono _ _ _ Hsub E); apply relaxes_refl|]. by intros [] _.
  - intros [] _. apply relaxes_guard; [apply guard_flag|apply relaxes_refl].
Qed.

Lemma relaxes_key_encoding x : relaxes (CheckPubKeyEncoding f1 sigversion x) (CheckPubKeyEncoding f2 sigversion x).
Proof using Hsub.
  unfold CheckPubKeyEncoding. apply relaxes_guard; [apply guard_flag|]. apply relaxes_guard; [rewrite <- !andb_assoc; apply guard_flag|apply relaxes_refl].
Qed.

Lemma relaxes_checksig verify code s : relaxes (op_checksig CheckLowS f1 checker sigversion verify code s) (op_checksig CheckLowS f2 checker sigversion verify code s).
Proof using Hsub.
  unfold op_checksig. destruct s as [|key [|sig s]]; [apply relaxes_refl..|]. apply relaxes_bind; [apply relaxes_sig_encoding|]. intros [] _. apply relaxes_bind; [apply relaxes_key_encoding|]. intros [] _. cbn beta zeta.
  apply relaxes_guard; [|apply relaxes_refl]. intros H. apply andb_prop in H as [H ->]. apply andb_prop in H as [-> H]. by rewrite (flag_mono _ _ _ Hsub H).
Qed.

Lemma relaxes_multisig_loop code sigs keys : relaxes (multisig_loop CheckLowS f1 checker sigversion code sigs keys) (multisig_loop CheckLowS f2 checker sigversion code sigs keys).
Proof using Hsub.
  revert sigs. induction keys as [|key keys IH]; intros [|sig sigs]; cbn [multisig_loop]; try apply relaxes_refl. apply relaxes_bind; [apply relaxes_sig_encoding|]. intros [] _. apply relaxes_bind; [apply relaxes_key_encoding|]. intros [] _. cbn beta zeta.
  apply relaxes_if; [apply relaxes_refl|apply IH].
Qed.

Lemma relaxes_cleanup ok pops ikey2 s : relaxes (multisig_cleanup f1 ok pops ikey2 s) (multisig_cleanup f2 ok pops ikey2 s).
Proof using Hsub.
  revert ikey2 s. induction pops as [|pops IH]; intros ikey2 s; cbn [multisig_cleanup]; [apply relaxes_refl|]. destruct s as [|x s]; [apply relaxes_refl|]. apply relaxes_guard; [|apply IH].
  intros H. apply andb_prop in H as [H ->]. apply andb_prop in H as [H ->]. apply andb_prop in H as [-> H]. by rewrite (flag_mono _ _ _ Hsub H).
Qed.

Lemma relaxes_checkmultisig verify code n s : relaxes (op_checkmultisig CheckLowS f1 checker sigversion verify code n s) (op_checkmultisig CheckLowS f2 checker sigversion verify code n s).
Proof using Hsub.
  unfold op_checkmultisig. repeat (apply relaxes_bind; [first [apply relaxes_refl | apply relaxes_number, minimal_mono | apply relaxes_multisig_loop | apply relaxes_cleanup]|intros ? _; cbn beta zeta]).
  apply relaxes_bind; [|intros; apply relaxes_refl]. unfold multisig_finish. destruct (_ : list (list Z)); [apply relaxes_refl|]. apply relaxes_guard; [apply guard_flag|apply relaxes_refl].
Qed.

Lemma relaxes_discourage : relaxes (discourage_nop f1) (discourage_nop f2).
Proof using Hsub.
  apply relaxes_require. rewrite !negb_true_iff. intros H. destruct (flag f1 _) eqn:E; [|done]. by rewrite (flag_mono _ _ _ Hsub E) in H.
Qed.

Lemma discourage_ok r : flag f1 SCRIPT_VERIFY_DISCOURAGE_UPGRADABLE_NOPS = false -> relaxes (discourage_nop f1) r.
Proof. intros H [] _. unfold discourage_nop. by rewrite H. Qed.

Lemma relaxes_locktime s : relaxes (op_checklocktimeverify f1 checker s) (op_checklocktimeverify f2 checker s).
Proof using Hsub Hnops.
  unfold op_checklocktimeverify. destruct (flag f1 SCRIPT_VERIFY_CHECKLOCKTIMEVERIFY) eqn:E1; cbn [negb].
  - rewrite (flag_mono _ _ _ Hsub E1). cbn [negb]. destruct s; [apply relaxes_refl|]. apply relaxes_bind; [apply relaxes_number, minimal_mono|]. intros; apply relaxes_refl.
  - destruct (flag f1 SCRIPT_VERIFY_DISCOURAGE_UPGRADABLE_NOPS) eqn:Ed; [|by apply discourage_ok]. destruct (Hnops Ed) as [<- _]. rewrite E1. apply relaxes_discourage.
Qed.

Lemma relaxes_sequence s : relaxes (op_checksequenceverify f1 checker s) (op_checksequenceverify f2 checker s).
Proof using Hsub Hnops.
  unfold op_checksequenceverify. destruct (flag f1 SCRIPT_VERIFY_CHECKSEQUENCEVERIFY) eqn:E1; cbn [negb].
  - rewrite (flag_mono _ _ _ Hsub E1). cbn [negb]. destruct s; [apply relaxes_refl|]. apply relaxes_bind; [apply relaxes_number, minimal_mono|]. intros; apply relaxes_refl.
  - destruct (flag f1 SCRIPT_VERIFY_DISCOURAGE_UPGRADABLE_NOPS) eqn:Ed; [|by apply discourage_ok]. destruct (Hnops Ed) as [_ <-]. rewrite E1. apply relaxes_discourage.
Qed.

(** Operations on the stack depend on the flags through their numbers alone. *)
Definition relaxes_option {A} (r1 r2 : option (result A)) : Prop :=
  match r1, r2 with Some r1, Some r2 => relaxes r1 r2 | None, None => True | _, _ => False end.

Lemma relaxes_stack_op m1 m2 o s : (m1 = true -> m2 = true) -> relaxes_option (stack_op CRIPEMD160 CSHA1 CSHA256 m1 o s) (stack_op CRIPEMD160 CSHA1 CSHA256 m2 o s).
Proof.
  intros Hm. unfold stack_op, pick_roll.
  repeat match goal with |- relaxes_option (if ?c then Some _ else _) _ => destruct c; [cbn [relaxes_option]|] end; [..|done].
  all: repeat match goal with |- relaxes (match ?l with [] => _ | _ => _ end) _ => destruct l; [apply relaxes_refl|] end; repeat (apply relaxes_bind; [by apply relaxes_number|intros ? _]); apply relaxes_refl.
Qed.

Lemma relaxes_if_op o st : relaxes (op_if f1 sigversion o st) (op_if f2 sigversion o st).
Proof using Hsub.
  unfold op_if. apply relaxes_if; [|apply relaxes_refl]. destruct (stack st); [apply relaxes_refl|]. apply relaxes_bind; [|intros; apply relaxes_refl].
  destruct (bool_decide (sigversion = SIGVERSION_WITNESS_V0)); cbn [andb]; [|apply relaxes_refl]. destruct (flag f1 SCRIPT_VERIFY_MINIMALIF) eqn:E; [rewrite (flag_mono _ _ _ Hsub E); apply relaxes_refl|]. by intros [] _.
Qed.

Lemma relaxes_exec_op o pc st : relaxes (exec_op CRIPEMD160 CSHA1 CSHA256 CheckLowS f1 checker sigversion o pc st) (exec_op CRIPEMD160 CSHA1 CSHA256 CheckLowS f2 checker sigversion o pc st).
Proof using Hsub Hnops.
  unfold exec_op. repeat (apply relaxes_if; [first [apply relaxes_refl | apply relaxes_if_op | apply relaxes_bind; [first [apply relaxes_locktime | apply relaxes_sequence | apply relaxes_discourage | apply relaxes_checksig | apply relaxes_checkmultisig]|intros; apply relaxes_refl]]|]).
  pose proof (relaxes_stack_op (fRequireMinimal f1) (fRequireMinimal f2) o (stack st) minimal_mono) as H. destruct (stack_op _ _ _ (fRequireMinimal f1) o (stack st)), (stack_op _ _ _ (fRequireMinimal f2) o (stack st)); try done. apply relaxes_bind; [done|intros; apply relaxes_refl].
Qed.

Lemma relaxes_eval_step pc st : relaxes (eval_step CRIPEMD160 CSHA1 CSHA256 CheckLowS f1 checker sigversion pc st) (eval_step CRIPEMD160 CSHA1 CSHA256 CheckLowS f2 checker sigversion pc st).
Proof using Hsub Hnops.
  unfold eval_step. destruct (GetOp2 pc) as [o v pc'|]; [|apply relaxes_refl]. do 3 (apply relaxes_bind; [apply relaxes_refl|intros ? _; cbn beta zeta]).
  apply relaxes_bind; [|intros; apply relaxes_refl]. apply relaxes_if; [|apply relaxes_if; [apply relaxes_exec_op|apply relaxes_refl]]. apply relaxes_bind; [|intros; apply relaxes_refl].
  apply relaxes_require. rewrite !negb_true_iff, !andb_false_iff. intros [H|H]; [|by right]. left. destruct (fRequireMinimal f1) eqn:E; [|done]. by rewrite (minimal_mono E) in H.
Qed.

Lemma relaxes_eval_loop fuel pc st : relaxes (eval_loop CRIPEMD160 CSHA1 CSHA256 CheckLowS f1 checker sigversion fuel pc st) (eval_loop CRIPEMD160 CSHA1 CSHA256 CheckLowS f2 checker sigversion fuel pc st).
Proof using Hsub Hnops.
  revert pc st. induction fuel as [|fuel IH]; intros [|x pc] st; cbn [eval_loop]; [by intros a..|]. apply relaxes_bind; [apply relaxes_eval_step|]. intros [pc' st'] _. apply IH.
Qed.

Lemma relaxes_eval s script : relaxes (EvalScript CRIPEMD160 CSHA1 CSHA256 CheckLowS f1 checker sigversion s script) (EvalScript CRIPEMD160 CSHA1 CSHA256 CheckLowS f2 checker sigversion s script).
Proof using Hsub Hnops.
  unfold EvalScript. apply relaxes_bind; [apply relaxes_refl|intros ? _]. apply relaxes_bind; [apply relaxes_eval_loop|intros; apply relaxes_refl].
Qed.

End Op.

(** ** Inputs *)

Lemma relaxes_witness witness version program : relaxes (VerifyWitnessProgram CRIPEMD160 CSHA1 CSHA256 CheckLowS f1 checker witness version program) (VerifyWitnessProgram CRIPEMD160 CSHA1 CSHA256 CheckLowS f2 checker witness version program).
Proof using Hsub Hnops.
  unfold VerifyWitnessProgram. apply relaxes_if.
  - apply relaxes_bind; [apply relaxes_refl|]. intros [s script] _. apply relaxes_bind; [apply relaxes_refl|intros ? _]. apply relaxes_bind; [apply relaxes_eval|]. intros; apply relaxes_refl.
  - apply relaxes_require. rewrite !negb_true_iff. intros H. destruct (flag f1 _) eqn:E; [|done]. by rewrite (flag_mono _ _ _ Hsub E) in H.
Qed.

(** Without the flag for witnesses nothing is checked, and the stack is not cut. *)
Lemma relaxes_program script scriptSig expected e witness s : flag f1 SCRIPT_VERIFY_WITNESS = true ->
  relaxes (verify_program CRIPEMD160 CSHA1 CSHA256 CheckLowS f1 checker script scriptSig expected e witness s) (verify_program CRIPEMD160 CSHA1 CSHA256 CheckLowS f2 checker script scriptSig expected e witness s).
Proof using Hsub Hnops.
  intros H. unfold verify_program. rewrite H, (flag_mono _ _ _ Hsub H). destruct (IsWitnessProgram script) as [[v p]|]; [|apply relaxes_refl]. apply relaxes_bind; [apply relaxes_refl|intros ? _]. apply relaxes_bind; [apply relaxes_witness|intros; apply relaxes_refl].
Qed.

Lemma relaxes_verify scriptSig scriptPubKey witness : flags_ok f1 ->
  relaxes (VerifyScript CRIPEMD160 CSHA1 CSHA256 CheckLowS f1 checker scriptSig scriptPubKey witness) (VerifyScript CRIPEMD160 CSHA1 CSHA256 CheckLowS f2 checker scriptSig scriptPubKey witness).
Proof using Hsub Hnops.
  intros [Hok1 Hok2]. unfold VerifyScript. apply relaxes_bind; [apply relaxes_require; rewrite !negb_true_iff; intros H; destruct (flag f1 SCRIPT_VERIFY_SIGPUSHONLY && negb (IsPushOnly scriptSig)) eqn:E; [apply guard_flag in E; congruence|done]|]. intros [] _.
  apply relaxes_bind; [apply relaxes_eval|]. intros copy _. apply relaxes_bind; [apply relaxes_eval|]. intros s _. apply relaxes_bind; [apply relaxes_refl|]. intros [] _.
  destruct (flag f1 SCRIPT_VERIFY_WITNESS) eqn:Ew.
  - (* both check witnesses, hence both check script hashes *)
    pose proof (Hok1 eq_refl) as Ep. apply relaxes_bind; [by apply relaxes_program|]. intros [bare s1] _. apply relaxes_bind.
    { unfold verify_p2sh. rewrite Ep, (flag_mono _ _ _ Hsub Ep). apply relaxes_if; [|apply relaxes_refl]. apply relaxes_bind; [apply relaxes_refl|intros [] _]. destruct copy as [|pk copy]; [apply relaxes_refl|].
      apply relaxes_bind; [apply relaxes_eval|]. intros s2 _. apply relaxes_bind; [apply relaxes_refl|]. intros [] _. by apply relaxes_program. }
    intros [nested s2] _. rewrite (flag_mono _ _ _ Hsub Ew). apply relaxes_bind; [|intros; rewrite Ep, (flag_mono _ _ _ Hsub Ep); apply relaxes_refl].
    destruct (flag f1 SCRIPT_VERIFY_CLEANSTACK) eqn:Ec; [rewrite (flag_mono _ _ _ Hsub Ec), Ep, (flag_mono _ _ _ Hsub Ep); apply relaxes_refl|]. by intros [] _.
  - (* no witnesses, and so no check of a clean stack *)
    destruct (flag f1 SCRIPT_VERIFY_CLEANSTACK) eqn:Ec; [by destruct (Hok2 eq_refl)|]. unfold verify_program at 1. rewrite Ew. intros [] E. cbn [mbind result_bind].
    apply bind_ok in E as ([bare s1] & E1 & E). apply bind_ok in E as ([nested s2] & E2 & E). clear E E1.
    unfold verify_p2sh in *. destruct (flag f1 SCRIPT_VERIFY_P2SH) eqn:Ep; cbn [andb]; [|done]. rewrite (flag_mono _ _ _ Hsub Ep) in E2. cbn [andb] in E2. destruct (IsPayToScriptHash scriptPubKey); [|done].
    apply bind_ok in E2 as ([] & -> & E2). destruct copy as [|pk copy]; [done|]. apply bind_ok in E2 as (s3 & E3 & E2). apply relaxes_eval in E3. rewrite E3. apply bind_ok in E2 as ([] & E4 & _). cbn [mbind result_bind]. rewrite E4. cbn [mbind result_bind]. unfold verify_program. by rewrite Ew.
Qed.

End Relax.

(** ** The theorem *)

(** C15. Every flag is a soft fork: what is accepted under a set of flags is accepted under
    each smaller set that the code allows (clean stacks need script hashes and
    witnesses, witnesses need script hashes).  The one exception is written out: where
    unassigned no-operations are discouraged, the smaller set must agree on the two
    that became lock time checks.  Runs of single scripts even leave the same stack. *)
Theorem flags_are_soft_forks CRIPEMD160 CSHA1 CSHA256 CheckLowS (f1 f2 : Z) checker : subflags f1 f2 -> same_nops f1 f2 ->
  (forall sigversion s script s', EvalScript CRIPEMD160 CSHA1 CSHA256 CheckLowS f2 checker sigversion s script = Ok s' ->
     EvalScript CRIPEMD160 CSHA1 CSHA256 CheckLowS f1 checker sigversion s script = Ok s') /\
  (flags_ok f1 -> forall scriptSig scriptPubKey witness, VerifyScript CRIPEMD160 CSHA1 CSHA256 CheckLowS f2 checker scriptSig scriptPubKey witness = Ok tt ->
     VerifyScript CRIPEMD160 CSHA1 CSHA256 CheckLowS f1 checker scriptSig scriptPubKey witness = Ok tt).
Proof.
  intros Hs Hn. split; [intros sigversion s script s' E; by apply (relaxes_eval _ _ _ _ f1 f2 Hs Hn)|]. intros Hok scriptSig scriptPubKey witness E. by apply (relaxes_verify _ _ _ _ f1 f2 Hs Hn).
Qed.

Definition demo_flags : Z := SCRIPT_VERIFY_P2SH .| SCRIPT_VERIFY_WITNESS.
Definition demo_strict_flags : Z := demo_flags .| SCRIPT_VERIFY_CLEANSTACK .| SCRIPT_VERIFY_MINIMALDATA .| SCRIPT_VERIFY_NULLFAIL .| SCRIPT_VERIFY_CHECKLOCKTIMEVERIFY.

Lemma flags_are_soft_forks_witness :
  VerifyScript (demo_digest 20) (demo_digest 20) (demo_digest 32) (fun _ => true) demo_flags demo_checker (push [4; 4]) (push [4; 4] ++ [OP_CHECKSIG]) [] = Ok tt.
Proof.
  destruct (flags_are_soft_forks (demo_digest 20) (demo_digest 20) (demo_digest 32) (fun _ => true) demo_flags demo_strict_flags demo_checker) as [_ H]; [by vm_compute|intros E; by vm_compute in E|].
  apply H; [split; by vm_compute|by vm_compute].
Defined.

(** Without the side condition the statement fails: a script that runs into a
    discouraged no-operation is accepted once the operation has a meaning. *)
Example discouraged_nop_not_soft :
  let f1 := SCRIPT_VERIFY_DISCOURAGE_UPGRADABLE_NOPS in let f2 := f1 .| SCRIPT_VERIFY_CHECKLOCKTIMEVERIFY in
  subflags f1 f2 /\
  EvalScript (demo_digest 20) (demo_digest 20) (demo_digest 32) (fun _ => true) f2 demo_checker SIGVERSION_BASE [[1]] [OP_CHECKLOCKTIMEVERIFY] = Ok [[1]] /\
  EvalScript (demo_digest 20) (demo_digest 20) (demo_digest 32) (fun _ => true) f1 demo_checker SIGVERSION_BASE [[1]] [OP_CHECKLOCKTIMEVERIFY] = Err SCRIPT_ERR_DISCOURAGE_UPGRADABLE_NOPS.
Proof. by vm_compute. Qed.
