(* ===== verification/SigHash.v ===== *)
(** * script/interpreter.cpp: what a signature signs

    [SignatureHash] for both versions of signatures, and the checker that verifies
    signatures and lock times of an input against its transaction.  Before witnesses
    the signed bytes are those of a modified copy of the transaction, which is written
    here as an explicit value; the hash commits to exactly this value.  The hash is a
    parameter, and so is the verification of a signature by a public key. *)

From Stdlib Require Import ZArith Lia.
From stdpp Require Import base tactics numbers list.
From S2P Require Import Prelude SphTypes Blob Serialize Codec Compressor Coins Transaction Utxo ScriptNum Script Interpreter.

(** ** Hash types *)

Definition fAnyoneCanPay (nHashType : Z) : bool := negb (nHashType .& SIGHASH_ANYONECANPAY =? 0).
Definition fHashSingle (nHashType : Z) : bool := nHashType .& 0x1f =? SIGHASH_SINGLE.
Definition fHashNone (nHashType : Z) : bool := nHashType .& 0x1f =? SIGHASH_NONE.

(** ** The script code *)

(** The two loops over the operations, of which the second writes the pieces between
    separators. *)
Fixpoint count_separators (fuel : nat) (it : list Z) : Z :=
  match fuel with
  | O => 0
  | S fuel =>
      match GetOp2 it with
      | NoOp _ => 0
      | Op opcode _ it => (if opcode =? OP_CODESEPARATOR then 1 else 0) + count_separators fuel it
      end
  end.

Fixpoint write_pieces (fuel : nat) (itBegin it : list Z) : list Z :=
  match fuel with
  | O => []
  | S fuel =>
      match GetOp2 it with
      | NoOp it => consumed itBegin it
      | Op opcode _ it =>
          if opcode =? OP_CODESEPARATOR then take (length itBegin - length it - 1) itBegin ++ write_pieces fuel it it
          else write_pieces fuel itBegin it
      end
  end.

Definition SerializeScriptCode (scriptCode : list Z) : list Z :=
  WriteCompactSize (Z.of_nat (length scriptCode) - count_separators (S (length scriptCode)) scriptCode) ++ write_pieces (S (length scriptCode)) scriptCode scriptCode.

(** ** The serializer *)

Definition null_input : CTxIn := {| prevout := {| hash := uint256_null; n := 0 |}; scriptSig := []; nSequence := 0 |}.

Section Serializer.
Variable txTo : tx_data.
Variable scriptCode : list Z.
Variable nIn : nat.
Variable nHashType : Z.

Definition SerializeInput (nInput : nat) : list Z :=
  let nInput := if fAnyoneCanPay nHashType then nIn else nInput in
  let txin := nth nInput (tx_vin txTo) null_input in
  OutPoint_write (prevout txin) ++
  (if negb (nInput =? nIn)%nat then write_blob [] else SerializeScriptCode scriptCode) ++
  (if negb (nInput =? nIn)%nat && (fHashSingle nHashType || fHashNone nHashType) then ser_writedata32 0 else ser_writedata32 (nSequence txin)).

Definition SerializeOutput (nOutput : nat) : list Z :=
  if fHashSingle nHashType && negb (nOutput =? nIn)%nat then TxOut_write CTxOut.SetNull else TxOut_write (nth nOutput (tx_vout txTo) CTxOut.SetNull).

Definition signature_bytes : list Z :=
  let nInputs := if fAnyoneCanPay nHashType then 1%nat else length (tx_vin txTo) in
  let nOutputs := if fHashNone nHashType then 0%nat else if fHashSingle nHashType then S nIn else length (tx_vout txTo) in
  write_signed 4 (tx_nVersion txTo) ++ ser_writedata32 (tx_nTime txTo) ++
  WriteCompactSize (Z.of_nat nInputs) ++ concat (SerializeInput <$> seq 0 nInputs) ++
  WriteCompactSize (Z.of_nat nOutputs) ++ concat (SerializeOutput <$> seq 0 nOutputs) ++
  ser_writedata32 (tx_nLockTime txTo) ++ write_blob (tx_strDZeel txTo).

End Serializer.

Section Hashes.

(** The double SHA-256 of a [CHashWriter]. *)
Variable Hash : list Z -> uint256.

Definition GetPrevoutHash (txTo : tx_data) : uint256 := Hash (concat ((fun i => OutPoint_write (prevout i)) <$> tx_vin txTo)).
Definition GetSequenceHash (txTo : tx_data) : uint256 := Hash (concat ((fun i => ser_writedata32 (nSequence i)) <$> tx_vin txTo)).
Definition GetOutputsHash (txTo : tx_data) : uint256 := Hash (concat (TxOut_write <$> tx_vout txTo)).

Record PrecomputedTransactionData := { hashPrevouts : uint256; hashSequence : uint256; hashOutputs : uint256 }.
Definition precompute (txTo : tx_data) : PrecomputedTransactionData :=
  {| hashPrevouts := GetPrevoutHash txTo; hashSequence := GetSequenceHash txTo; hashOutputs := GetOutputsHash txTo |}.

(** [cache ? cache->field : computed] *)
Definition cached (cache : option PrecomputedTransactionData) (field : PrecomputedTransactionData -> uint256) (computed : uint256) : uint256 :=
  match cache with Some c => field c | None => computed end.

Definition witness_bytes (scriptCode : list Z) (txTo : tx_data) (nIn : nat) (nHashType amount : Z) (cache : option PrecomputedTransactionData) : list Z :=
  let one_or_none := fHashSingle nHashType || fHashNone nHashType in
  let txin := nth nIn (tx_vin txTo) null_input in
  let hashPrevouts := if negb (fAnyoneCanPay nHashType) then cached cache hashPrevouts (GetPrevoutHash txTo) else uint256_null in
  let hashSequence := if negb (fAnyoneCanPay nHashType) && negb one_or_none then cached cache hashSequence (GetSequenceHash txTo) else uint256_null in
  let hashOutputs := if negb one_or_none then cached cache hashOutputs (GetOutputsHash txTo)
                     else if fHashSingle nHashType && (nIn <? length (tx_vout txTo))%nat then Hash (TxOut_write (nth nIn (tx_vout txTo) CTxOut.SetNull))
                     else uint256_null in
  write_signed 4 (tx_nVersion txTo) ++ hashPrevouts ++ hashSequence ++ OutPoint_write (prevout txin) ++ write_blob scriptCode ++ write_signed 8 amount ++
  ser_writedata32 (nSequence txin) ++ hashOutputs ++ ser_writedata32 (tx_nLockTime txTo) ++ write_signed 4 nHashType.

Definition uint256_one : uint256 := 1 :: replicate 31 0.

Definition SignatureHash (scriptCode : list Z) (txTo : tx_data) (nIn : nat) (nHashType amount : Z) (sigversion : SigVersion) (cache : option PrecomputedTransactionData) : uint256 :=
  if bool_decide (sigversion = SIGVERSION_WITNESS_V0) then Hash (witness_bytes scriptCode txTo nIn nHashType amount cache)
  else if (length (tx_vin txTo) <=? nIn)%nat then uint256_one
  else if fHashSingle nHashType && (length (tx_vout txTo) <=? nIn)%nat then uint256_one
  else Hash (signature_bytes txTo scriptCode nIn nHashType ++ write_signed 4 nHashType).

(** ** The checker of a transaction *)

(** [CPubKey::Verify] *)
Variable Verify : list Z -> uint256 -> list Z -> bool.

Section Checker.
Variable txTo : CTransaction.
Variable nIn : nat.
Variable amount : Z.
Variable txdata : option PrecomputedTransactionData.

(** [pubkey.IsValid()] is [size() > 0]. *)
Definition tx_CheckSig (vchSigIn vchPubKey scriptCode : list Z) (sigversion : SigVersion) : bool :=
  let pubkey := CPubKey_Set vchPubKey in
  if (CPubKey_size pubkey =? 0)%nat then false
  else if bool_decide (vchSigIn = []) then false
  else Verify pubkey (SignatureHash scriptCode txTo nIn (back vchSigIn) amount sigversion txdata) (List.removelast vchSigIn).

Definition SEQUENCE_FINAL : Z := 0xffffffff.
Definition SEQUENCE_LOCKTIME_TYPE_FLAG : Z := 1 << 22.
Definition SEQUENCE_LOCKTIME_MASK : Z := 0x0000ffff.

Definition input_sequence : Z := nSequence (nth nIn (tx_vin txTo) null_input).

Definition tx_CheckLockTime (nLockTime : Z) : bool :=
  let txLockTime := tx_nLockTime txTo in
  if negb (((txLockTime <? LOCKTIME_THRESHOLD) && (nLockTime <? LOCKTIME_THRESHOLD)) || ((LOCKTIME_THRESHOLD <=? txLockTime) && (LOCKTIME_THRESHOLD <=? nLockTime))) then false
  else if txLockTime <? nLockTime then false
  else negb (SEQUENCE_FINAL =? input_sequence).

Definition tx_CheckSequence (nSequence : Z) : bool :=
  let txToSequence := input_sequence in
  if tx_nVersion txTo mod 2 ^ 32 <? 2 then false
  else if negb (txToSequence .& SEQUENCE_LOCKTIME_DISABLE_FLAG =? 0) then false
  else
    let nLockTimeMask := SEQUENCE_LOCKTIME_TYPE_FLAG .| SEQUENCE_LOCKTIME_MASK in
    let txToSequenceMasked := txToSequence .& nLockTimeMask in
    let nSequenceMasked := nSequence .& nLockTimeMask in
    if negb (((txToSequenceMasked <? SEQUENCE_LOCKTIME_TYPE_FLAG) && (nSequenceMasked <? SEQUENCE_LOCKTIME_TYPE_FLAG)) ||
             ((SEQUENCE_LOCKTIME_TYPE_FLAG <=? txToSequenceMasked) && (SEQUENCE_LOCKTIME_TYPE_FLAG <=? nSequenceMasked))) then false
    else negb (txToSequenceMasked <? nSequenceMasked).

Definition TXDZEEL_VERSION_V2 : Z := 3.

Definition TransactionSignatureChecker : BaseSignatureChecker := {|
  CheckSig := tx_CheckSig;
  CheckLockTime := tx_CheckLockTime;
  CheckSequence := tx_CheckSequence;
  checker_IsCoinStake := (TXDZEEL_VERSION_V2 <=? tx_nVersion txTo) && IsCoinStake txTo
|}.

End Checker.
End Hashes.

(** ** The script code without separators *)

Definition separator : list Z := [OP_CODESEPARATOR].
Definition strip_separators (scriptCode : list Z) : list Z := concat (filter (fun t => t <> separator) (operations scriptCode).1).

Lemma separator_token t o v : token t o v -> o = OP_CODESEPARATOR <-> t = separator.
Proof.
  intros [Hn Ht]. split.
  - intros ->. destruct t as [|x t]; [done|]. specialize (Ht []). rewrite app_nil_r in Ht. cbn [GetOp2] in Ht.
    assert (forall k p, read_operand x k p = Op OP_CODESEPARATOR v [] -> x = OP_CODESEPARATOR) as Hr by (intros k p; unfold read_operand; destruct (Z.of_nat (length p) <? k); congruence).
    assert (x = OP_CODESEPARATOR) as -> by (repeat case_match; first [done | by eapply Hr | congruence]). cbn in Ht. by injection Ht as _ ->.
  - intros ->. specialize (Ht []). cbn in Ht. by injection Ht as <- _.
Qed.

(** The loops over a script that is read to its end. *)
Lemma pieces_tokens fuel l itBegin before : Forall is_token l -> (length l < fuel)%nat -> itBegin = before ++ concat l ->
  write_pieces fuel itBegin (concat l) = before ++ concat (filter (fun t => t <> separator) l) /\
  count_separators fuel (concat l) = Z.of_nat (occurrences separator l).
Proof.
  revert l itBegin before. induction fuel as [|fuel IH]; intros l itBegin before Hl Hf ->; [lia|]. cbn [write_pieces count_separators]. destruct l as [|t l].
  - cbn [concat GetOp2]. cbn. rewrite app_nil_r. split; [|done]. unfold consumed. cbn. rewrite ?app_nil_r, ?Nat.sub_0_r. by rewrite firstn_all.
  - apply Forall_cons_1 in Hl as [(o & v & Ht) Hl]. cbn [concat]. pose proof (proj2 Ht (concat l)) as Hg. rewrite Hg. pose proof (separator_token t o v Ht) as Hsep. cbn in Hf.
    destruct (Z.eqb_spec o OP_CODESEPARATOR) as [->|Ho].
    + rewrite (proj1 Hsep eq_refl) in *. destruct (IH l (concat l) [] Hl) as [-> ->]; [lia|done|]. unfold occurrences. rewrite filter_cons_False, filter_cons_True by auto. cbn [length app]. split; [|lia]. f_equal.
      rewrite !length_app. cbn [length separator]. replace (length before + (1 + length (concat l)) - length (concat l) - 1)%nat with (length before) by lia. apply take_app_length.
    + assert (t <> separator) as Hne by (intros ->; by apply Ho, Hsep). destruct (IH l (before ++ t ++ concat l) (before ++ t) Hl) as [-> ->]; [lia|by rewrite app_assoc|]. unfold occurrences. rewrite filter_cons_True, filter_cons_False by auto. cbn [concat]. by rewrite app_assoc.
Qed.

Lemma length_strip l : Z.of_nat (length (concat (filter (fun t => t <> separator) l))) = Z.of_nat (length (concat l)) - Z.of_nat (occurrences separator l).
Proof.
  unfold occurrences. induction l as [|t l IH]; [done|]. destruct (decide (t = separator)) as [->|Hn].
  - rewrite filter_cons_False, filter_cons_True by auto. cbn [concat length]. rewrite length_app. cbn [length separator]. lia.
  - rewrite filter_cons_True, filter_cons_False by auto. cbn [concat]. rewrite !length_app. lia.
Qed.

Lemma script_code_bytes scriptCode : words 8 scriptCode -> (operations scriptCode).2 = [] -> SerializeScriptCode scriptCode = write_blob (strip_separators scriptCode).
Proof.
  intros Hw Hr. destruct (operations_spec scriptCode Hw) as (E & Hl & _). rewrite Hr, app_nil_r in E. set (l := (operations scriptCode).1) in *. unfold SerializeScriptCode, write_blob, strip_separators. fold l.
  assert (length l <= length scriptCode)%nat as Hlen. { rewrite E. clear -Hl. induction Hl as [|t l (o & v & Ht & _) Hl IH]; [done|]. cbn [concat]. rewrite length_app. destruct t; [done|]. cbn. lia. }
  destruct (pieces_tokens (S (length scriptCode)) l scriptCode [] Hl) as [H1 H2]; [lia|done|]. rewrite <- E in H1, H2. rewrite H1, H2, length_strip, <- E. done.
Qed.

(** ** The signed view of a transaction *)

(** The inputs as they are signed: only the one that signs carries a script, and the
    others lose their sequence numbers when outputs are left open. *)
Definition signed_input (code : list Z) (nIn : nat) (nHashType : Z) (k : nat) (i : CTxIn) : CTxIn :=
  if (k =? nIn)%nat then {| prevout := prevout i; scriptSig := code; nSequence := nSequence i |}
  else {| prevout := prevout i; scriptSig := []; nSequence := if fHashSingle nHashType || fHashNone nHashType then 0 else nSequence i |}.

Definition signed_inputs (code : list Z) (nIn : nat) (nHashType : Z) (vin : list CTxIn) : list CTxIn :=
  if fAnyoneCanPay nHashType then [signed_input code nIn nHashType nIn (nth nIn vin null_input)] else imap (signed_input code nIn nHashType) vin.

(** The outputs as they are signed: all, none, or the one with the index of the input
    behind empty ones. *)
Definition signed_outputs (nIn : nat) (nHashType : Z) (vout : list CTxOut.t) : list CTxOut.t :=
  if fHashNone nHashType then []
  else if fHashSingle nHashType then replicate nIn CTxOut.SetNull ++ [nth nIn vout CTxOut.SetNull]
  else vout.

Record signed_view := {
  sv_nVersion : Z; sv_nTime : Z; sv_vin : list CTxIn; sv_vout : list CTxOut.t; sv_nLockTime : Z; sv_strDZeel : list Z; sv_nHashType : Z
}.

Definition view_of (scriptCode : list Z) (tx : tx_data) (nIn : nat) (nHashType : Z) : signed_view := {|
  sv_nVersion := tx_nVersion tx; sv_nTime := tx_nTime tx;
  sv_vin := signed_inputs (strip_separators scriptCode) nIn nHashType (tx_vin tx);
  sv_vout := signed_outputs nIn nHashType (tx_vout tx);
  sv_nLockTime := tx_nLockTime tx; sv_strDZeel := tx_strDZeel tx; sv_nHashType := nHashType |}.

Definition view_bytes (v : signed_view) : list Z :=
  write_signed 4 (sv_nVersion v) ++ ser_writedata32 (sv_nTime v) ++ write_vec TxIn_write (sv_vin v) ++ write_vec TxOut_write (sv_vout v) ++
  ser_writedata32 (sv_nLockTime v) ++ write_blob (sv_strDZeel v) ++ write_signed 4 (sv_nHashType v).

(** SIGHASH_SINGLE for an input without an output of its index. *)
Definition no_output (tx : tx_data) (nIn : nat) (nHashType : Z) : bool := fHashSingle nHashType && (length (tx_vout tx) <=? nIn)%nat.

(** An input of a transaction whose signed view has a format: the script code is read
    to its end, and all lengths and numbers are in the range of their types. *)
Record has_view (scriptCode : list Z) (tx : tx_data) (nIn : nat) (nHashType : Z) : Prop := {
  hv_code : words 8 scriptCode;
  hv_parsed : (operations scriptCode).2 = [];
  hv_size : Z.of_nat (length scriptCode) <= MAX_SIZE;
  hv_input : (nIn < length (tx_vin tx))%nat;
  hv_tx : tx_ok true tx;
  hv_type : 0 <= nHashType < 256
}.

(** One that has the output that it signs. *)
Record signable (scriptCode : list Z) (tx : tx_data) (nIn : nat) (nHashType : Z) : Prop := {
  sg_code : words 8 scriptCode;
  sg_parsed : (operations scriptCode).2 = [];
  sg_size : Z.of_nat (length scriptCode) <= MAX_SIZE;
  sg_input : (nIn < length (tx_vin tx))%nat;
  sg_output : fHashSingle nHashType = true -> (nIn < length (tx_vout tx))%nat;
  sg_tx : tx_ok true tx;
  sg_type : 0 <= nHashType < 256
}.

Lemma has_view_signable scriptCode tx nIn nHashType : has_view scriptCode tx nIn nHashType -> no_output tx nIn nHashType = false -> signable scriptCode tx nIn nHashType.
Proof.
  intros [] Hn. split; try done. intros Hs. unfold no_output in Hn. rewrite Hs in Hn. by apply Nat.leb_gt in Hn.
Qed.

Lemma seq_nth_imap {A} (d : A) (f : nat -> A -> list Z) (l : list A) : concat ((fun k => f k (nth k l d)) <$> seq 0 (length l)) = concat (imap f l).
Proof.
  enough (forall o, concat ((fun k => f k (nth (k - o) l d)) <$> seq o (length l)) = concat (imap (fun k => f (o + k)%nat) l)) as H.
  { etransitivity; [|exact (H 0%nat)]. f_equal. apply list_fmap_ext. intros i k Hk. by rewrite Nat.sub_0_r. }
  induction l as [|a l IH]; intros o; [done|]. cbn [length seq]. rewrite fmap_cons, imap_cons. cbn [concat]. rewrite Nat.sub_diag, Nat.add_0_r. cbn [nth]. f_equal.
  transitivity (concat ((fun k => f k (nth (k - S o) l d)) <$> seq (S o) (length l))).
  - f_equal. apply list_fmap_ext. intros i k Hk. apply lookup_seq in Hk as [-> _]. replace (S o + i - o)%nat with (S i) by lia. replace (S o + i - S o)%nat with i by lia. done.
  - rewrite IH. f_equal. apply imap_ext. intros i x _. cbn. by rewrite Nat.add_succ_r.
Qed.

Lemma single_not_none nHashType : fHashSingle nHashType = true -> fHashNone nHashType = false.
Proof. unfold fHashSingle, fHashNone, SIGHASH_SINGLE, SIGHASH_NONE. intros H. apply Z.eqb_eq in H. by rewrite H. Qed.

Lemma signed_input_bytes scriptCode tx nIn nHashType k : words 8 scriptCode -> (operations scriptCode).2 = [] ->
  SerializeInput tx scriptCode nIn nHashType k =
    let k := if fAnyoneCanPay nHashType then nIn else k in TxIn_write (signed_input (strip_separators scriptCode) nIn nHashType k (nth k (tx_vin tx) null_input)).
Proof.
  intros Hw Hr. unfold SerializeInput, signed_input, TxIn_write. cbv zeta. set (k' := if fAnyoneCanPay nHashType then nIn else k). destruct (Nat.eqb_spec k' nIn) as [->|Hn]; cbn [negb andb prevout scriptSig nSequence].
  - by rewrite script_code_bytes.
  - by destruct (_ || _).
Qed.

Lemma concat_replicate_seq (f : nat -> list Z) (w : list Z) o m : (forall k, (o <= k < o + m)%nat -> f k = w) -> concat (f <$> seq o m) = concat (replicate m w).
Proof. revert o. induction m as [|m IH]; intros o H; [done|]. cbn [seq replicate]. rewrite fmap_cons. cbn [concat]. rewrite H by lia. f_equal. apply IH. intros k Hk. apply H. lia. Qed.

(** The serializer writes the signed view. *)
Lemma signature_bytes_view scriptCode tx nIn nHashType : signable scriptCode tx nIn nHashType ->
  signature_bytes tx scriptCode nIn nHashType ++ write_signed 4 nHashType = view_bytes (view_of scriptCode tx nIn nHashType).
Proof.
  intros [Hw Hr _ Hi Ho _ _]. unfold signature_bytes, view_bytes, view_of, write_vec. cbn [sv_nVersion sv_nTime sv_vin sv_vout sv_nLockTime sv_strDZeel sv_nHashType]. rewrite <- !app_assoc. f_equal. f_equal.
  assert (forall a b c d : list Z, a = b -> c = d -> a ++ c = b ++ d) as Happ by (by intros ???? -> ->).
  assert (Z.of_nat (if fAnyoneCanPay nHashType then 1%nat else length (tx_vin tx)) = Z.of_nat (length (signed_inputs (strip_separators scriptCode) nIn nHashType (tx_vin tx)))) as E1 by (unfold signed_inputs; destruct (fAnyoneCanPay nHashType); [done|by rewrite length_imap]).
  apply Happ; [by rewrite E1|]. apply Happ.
  { unfold signed_inputs. destruct (fAnyoneCanPay nHashType) eqn:Ea.
    - cbn [seq]. rewrite fmap_cons. cbn [concat fmap list_fmap]. rewrite signed_input_bytes, Ea by done. done.
    - rewrite fmap_imap. rewrite <- (seq_nth_imap null_input). f_equal. apply list_fmap_ext. intros i k _. rewrite signed_input_bytes, Ea by done. done. }
  assert ((if fHashNone nHashType then 0%nat else if fHashSingle nHashType then S nIn else length (tx_vout tx)) = length (signed_outputs nIn nHashType (tx_vout tx))) as E2.
  { unfold signed_outputs. destruct (fHashNone nHashType); [done|]. destruct (fHashSingle nHashType); [|done]. rewrite length_app, length_replicate. cbn. lia. }
  apply Happ; [by rewrite E2|]. apply Happ; [|done]. clear E1 E2. unfold signed_outputs, SerializeOutput. destruct (fHashNone nHashType) eqn:En; [done|]. destruct (fHashSingle nHashType) eqn:Es; cbn [andb].
  - rewrite seq_S, fmap_app, fmap_app, !concat_app. apply Happ.
    + rewrite fmap_replicate. apply concat_replicate_seq. intros k Hk. destruct (Nat.eqb_spec k nIn); [lia|done].
    + cbn. by rewrite Nat.eqb_refl.
  - rewrite (seq_nth_imap CTxOut.SetNull (fun _ => TxOut_write)). f_equal. clear. generalize (tx_vout tx). intros l. induction l as [|x l IH]; [done|]. rewrite imap_cons, fmap_cons. f_equal. apply IH.
Qed.

(** ** The encoding of a view is injective *)

Lemma codec_inj {A} (w : A -> list Z) r P a b x y : codec w r P -> P a -> P b -> words 8 (w a ++ x) -> w a ++ x = w b ++ y -> a = b /\ x = y.
Proof.
  intros H Ha Hb Hw E. pose proof (proj2 (H _ a x Hw) (conj eq_refl Ha)) as E1. rewrite E in Hw, E1. rewrite (proj2 (H _ b y Hw) (conj eq_refl Hb)) in E1. by injection E1 as -> ->.
Qed.

Lemma words_size n : words 8 (WriteCompactSize n).
Proof. unfold WriteCompactSize, ser_writedata8, ser_writedata16, ser_writedata32, ser_writedata64. repeat case_match; auto using Forall_app_2, store_le_words. Qed.
Lemma words_blob l : words 8 l -> words 8 (write_blob l).
Proof. intros H. by apply Forall_app_2; [apply words_size|]. Qed.
Lemma words_vec {A} (w : A -> list Z) (P : A -> Prop) l : (forall a, P a -> words 8 (w a)) -> Forall P l -> words 8 (write_vec w l).
Proof. intros Hw Hl. apply Forall_app_2; [apply words_size|]. induction Hl; [constructor|]. rewrite fmap_cons. cbn [concat]. apply Forall_app_2; auto. Qed.
Lemma words_signed k v : words 8 (write_signed k v).
Proof. apply store_le_words. Qed.
Lemma words_txin i : txin_ok i -> words 8 (TxIn_write i).
Proof. intros (([_ Hh] & _) & [_ Hs] & _). unfold TxIn_write, OutPoint_write. rewrite <- app_assoc. apply Forall_app_2; [done|]. apply Forall_app_2; [apply store_le_words|]. apply Forall_app_2; [by apply words_blob|apply store_le_words]. Qed.
Lemma words_txout o : txout_ok o -> words 8 (TxOut_write o).
Proof. intros [_ [_ Hs]]. apply Forall_app_2; [apply words_signed|by apply words_blob]. Qed.

Record view_ok (v : signed_view) : Prop := {
  vo_version : - 2 ^ 31 <= sv_nVersion v < 2 ^ 31;
  vo_time : word 32 (sv_nTime v);
  vo_vin : vec_ok txin_ok (sv_vin v);
  vo_vout : vec_ok txout_ok (sv_vout v);
  vo_lock : word 32 (sv_nLockTime v);
  vo_string : blob_ok (sv_strDZeel v);
  vo_type : - 2 ^ 31 <= sv_nHashType v < 2 ^ 31
}.

Lemma view_bytes_words v : view_ok v -> words 8 (view_bytes v).
Proof.
  intros [_ _ [_ Hi] [_ Ho] _ [_ Hz] _]. unfold view_bytes. repeat (apply Forall_app_2; [first [apply words_signed | apply store_le_words | by eapply words_vec; [apply words_txin|] | by eapply words_vec; [apply words_txout|] | by apply words_blob]|]). apply words_signed.
Qed.

Lemma view_bytes_inj a b : view_ok a -> view_ok b -> view_bytes a = view_bytes b -> a = b.
Proof.
  intros Ha Hb E. pose proof (view_bytes_words a Ha) as Hw. destruct Ha as [Ha1 Ha2 Ha3 Ha4 Ha5 Ha6 Ha7], Hb as [Hb1 Hb2 Hb3 Hb4 Hb5 Hb6 Hb7]. destruct a, b. unfold view_bytes in *. cbn [sv_nVersion sv_nTime sv_vin sv_vout sv_nLockTime sv_strDZeel sv_nHashType] in *.
  apply (codec_inj _ _ _ _ _ _ _ (codec_signed 4 ltac:(lia)) Ha1 Hb1 Hw) in E as [-> E]. apply Forall_app in Hw as [_ Hw].
  apply (codec_inj _ _ _ _ _ _ _ (codec_int 4) Ha2 Hb2 Hw) in E as [-> E]. apply Forall_app in Hw as [_ Hw].
  apply (codec_inj _ _ _ _ _ _ _ codec_ins Ha3 Hb3 Hw) in E as [-> E]. apply Forall_app in Hw as [_ Hw].
  apply (codec_inj _ _ _ _ _ _ _ codec_outs Ha4 Hb4 Hw) in E as [-> E]. apply Forall_app in Hw as [_ Hw].
  apply (codec_inj _ _ _ _ _ _ _ (codec_int 4) Ha5 Hb5 Hw) in E as [-> E]. apply Forall_app in Hw as [_ Hw].
  apply (codec_inj _ _ _ _ _ _ _ codec_string Ha6 Hb6 Hw) in E as [-> E]. apply Forall_app in Hw as [_ Hw].
  rewrite <- (app_nil_r (write_signed 4 sv_nHashType0)) in E, Hw. rewrite <- (app_nil_r (write_signed 4 sv_nHashType1)) in E.
  by apply (codec_inj _ _ _ _ _ _ _ (codec_signed 4 ltac:(lia)) Ha7 Hb7 Hw) in E as [-> _].
Qed.

Lemma strip_ok scriptCode : words 8 scriptCode -> Z.of_nat (length scriptCode) <= MAX_SIZE -> (operations scriptCode).2 = [] -> blob_ok (strip_separators scriptCode).
Proof.
  intros Hw Hl Hr. destruct (operations_spec scriptCode Hw) as (E & _ & _). rewrite Hr, app_nil_r in E. unfold strip_separators. set (l := (operations scriptCode).1) in *. split.
  - rewrite length_strip, <- E. lia.
  - rewrite E in Hw. clear -Hw. induction l as [|t l IH]; [constructor|]. cbn [concat] in Hw. apply Forall_app in Hw as [Ht Hw]. destruct (decide (t = separator)) as [->|Hn]; [by rewrite filter_cons_False by auto; apply IH|]. rewrite filter_cons_True by done. cbn [concat]. apply Forall_app_2; auto.
Qed.

Lemma signed_input_ok code nIn nHashType k i : blob_ok code -> txin_ok i -> txin_ok (signed_input code nIn nHashType k i).
Proof.
  intros Hc (Hp & _ & Hs). unfold signed_input. destruct (k =? nIn)%nat; (split; [done|]); cbn; [by split|]. split; [split; [done|constructor]|]. destruct (_ || _); [by vm_compute|done].
Qed.

Lemma view_of_ok scriptCode tx nIn nHashType : signable scriptCode tx nIn nHashType -> view_ok (view_of scriptCode tx nIn nHashType).
Proof.
  intros [Hw Hr Hl Hi Ho [Hv Ht ([Hil Hif] & [Hol Hof] & _) Hlk Hz _] Hty]. pose proof (strip_ok _ Hw Hl Hr) as Hc. split; cbn; try done; [| |lia].
  - unfold signed_inputs. destruct (fAnyoneCanPay nHashType).
    + split; [by vm_compute|]. constructor; [|constructor]. apply signed_input_ok; [done|]. rewrite List.Forall_forall in Hif. by apply Hif, nth_In.
    + split; [by rewrite length_imap|]. apply Forall_lookup. intros k i Hk. rewrite list_lookup_imap in Hk. apply fmap_Some in Hk as (j & Hj & ->). apply signed_input_ok; [done|]. by eapply Forall_lookup_1.
  - unfold signed_outputs. destruct (fHashNone nHashType); [by split; [vm_compute|constructor]|]. destruct (fHashSingle nHashType); [|done]. specialize (Ho eq_refl). split; [rewrite length_app, length_replicate; cbn [length]; lia|].
    apply Forall_app_2; [apply Forall_replicate; split; [cbn; lia|split; [done|constructor]]|]. constructor; [|constructor]. rewrite List.Forall_forall in Hof. by apply Hof, nth_In.
Qed.

Section Commit.
Context (Hash : list Z -> uint256).

Lemma signature_hash_view scriptCode tx nIn nHashType amount cache : signable scriptCode tx nIn nHashType ->
  SignatureHash Hash scriptCode tx nIn nHashType amount SIGVERSION_BASE cache = Hash (view_bytes (view_of scriptCode tx nIn nHashType)).
Proof.
  intros H. unfold SignatureHash. rewrite bool_decide_eq_false_2 by done. destruct (Nat.leb_spec (length (tx_vin tx)) nIn); [pose proof (sg_input _ _ _ _ H); lia|].
  destruct (fHashSingle nHashType) eqn:Es; cbn [andb]; [destruct (Nat.leb_spec (length (tx_vout tx)) nIn); [pose proof (sg_output _ _ _ _ H Es); lia|]|]; by rewrite signature_bytes_view.
Qed.

(** Before witnesses, two signature hashes are equal exactly when the signed views
    are, unless they exhibit a collision of the hash. *)
Lemma signature_hash_commits code1 tx1 n1 t1 a1 c1 code2 tx2 n2 t2 a2 c2 : signable code1 tx1 n1 t1 -> signable code2 tx2 n2 t2 ->
  let v1 := view_of code1 tx1 n1 t1 in let v2 := view_of code2 tx2 n2 t2 in
  (v1 = v2 -> SignatureHash Hash code1 tx1 n1 t1 a1 SIGVERSION_BASE c1 = SignatureHash Hash code2 tx2 n2 t2 a2 SIGVERSION_BASE c2) /\
  (SignatureHash Hash code1 tx1 n1 t1 a1 SIGVERSION_BASE c1 = SignatureHash Hash code2 tx2 n2 t2 a2 SIGVERSION_BASE c2 ->
   v1 = v2 \/ (view_bytes v1 <> view_bytes v2 /\ Hash (view_bytes v1) = Hash (view_bytes v2))).
Proof.
  intros H1 H2 v1 v2. rewrite !signature_hash_view by done. fold v1 v2. split; [by intros ->|]. intros E. destruct (decide (view_bytes v1 = view_bytes v2)) as [Eb|Nb]; [left|by right].
  apply view_bytes_inj; [by apply view_of_ok..|done].
Qed.

(** Without an output to sign, the hash is the number one. *)
Lemma signature_hash_one scriptCode tx nIn nHashType amount cache : no_output tx nIn nHashType = true ->
  SignatureHash Hash scriptCode tx nIn nHashType amount SIGVERSION_BASE cache = uint256_one.
Proof.
  intros H. unfold SignatureHash. rewrite bool_decide_eq_false_2 by done. destruct (_ <=? _)%nat; [done|]. unfold no_output in H. by rewrite H.
Qed.

(** A signature of everything fixes the whole transaction but its scripts and
    witnesses, and which input signs unless the script code is empty. *)
Lemma sign_all_view code1 tx1 n1 code2 tx2 n2 nHashType : fAnyoneCanPay nHashType = false -> fHashSingle nHashType = false -> fHashNone nHashType = false ->
  (n1 < length (tx_vin tx1))%nat -> (n2 < length (tx_vin tx2))%nat -> view_of code1 tx1 n1 nHashType = view_of code2 tx2 n2 nHashType ->
  tx_nVersion tx1 = tx_nVersion tx2 /\ tx_nTime tx1 = tx_nTime tx2 /\ prevout <$> tx_vin tx1 = prevout <$> tx_vin tx2 /\ nSequence <$> tx_vin tx1 = nSequence <$> tx_vin tx2 /\
  tx_vout tx1 = tx_vout tx2 /\ tx_nLockTime tx1 = tx_nLockTime tx2 /\ tx_strDZeel tx1 = tx_strDZeel tx2 /\ strip_separators code1 = strip_separators code2 /\
  (strip_separators code1 <> [] -> n1 = n2).
Proof.
  intros Ha Hs Hn H1 H2 E. injection E as Ev Et Ei Eo El Ez. unfold signed_inputs, signed_outputs in Ei, Eo. rewrite Ha in Ei. rewrite Hs, Hn in Eo.
  assert (forall k, signed_input (strip_separators code1) n1 nHashType k <$> tx_vin tx1 !! k = signed_input (strip_separators code2) n2 nHashType k <$> tx_vin tx2 !! k) as Hk by (intros k; rewrite <- !list_lookup_imap; by rewrite Ei).
  assert (forall k, (fun i => (prevout i, nSequence i)) <$> tx_vin tx1 !! k = (fun i => (prevout i, nSequence i)) <$> tx_vin tx2 !! k) as Hf.
  { intros k. specialize (Hk k). unfold signed_input in Hk. rewrite Hs, Hn in Hk. cbn [orb] in Hk. destruct (tx_vin tx1 !! k), (tx_vin tx2 !! k); cbn in *; try done. destruct (k =? n1)%nat, (k =? n2)%nat; simplify_eq; congruence. }
  assert ((fun i => (prevout i, nSequence i)) <$> tx_vin tx1 = (fun i => (prevout i, nSequence i)) <$> tx_vin tx2) as Hp by (apply list_eq; intros k; rewrite !list_lookup_fmap; by apply Hf).
  assert (length (tx_vin tx1) = length (tx_vin tx2)) as Hlen by (by apply (f_equal length) in Hp; rewrite !length_fmap in Hp).
  assert (forall k, (k < length (tx_vin tx1))%nat -> (if (k =? n1)%nat then strip_separators code1 else []) = (if (k =? n2)%nat then strip_separators code2 else [])) as Hc.
  { intros k Hlt. specialize (Hk k). destruct (lookup_lt_is_Some_2 (tx_vin tx1) k Hlt) as [x Hx], (lookup_lt_is_Some_2 (tx_vin tx2) k ltac:(lia)) as [y Hy]. rewrite Hx, Hy in Hk. cbn in Hk.
    apply Some_inj, (f_equal scriptSig) in Hk. unfold signed_input in Hk. by destruct (k =? n1)%nat, (k =? n2)%nat. }
  pose proof (Hc n1 H1) as C1. pose proof (Hc n2 ltac:(lia)) as C2. rewrite Nat.eqb_refl in C1, C2.
  split; [done|]. split; [done|]. split; [apply (f_equal (fmap fst)) in Hp; by rewrite <- !list_fmap_compose in Hp|]. split; [apply (f_equal (fmap snd)) in Hp; by rewrite <- !list_fmap_compose in Hp|]. do 3 (split; [done|]).
  destruct (Nat.eqb_spec n1 n2) as [<-|Hne]; [by split|]. destruct (Nat.eqb_spec n2 n1); [congruence|]. split; [congruence|done].
Qed.

(** The precomputed hashes do not change the result. *)
Lemma signature_hash_cached code tx nIn nHashType amount sigversion :
  SignatureHash Hash code tx nIn nHashType amount sigversion (Some (precompute Hash tx)) = SignatureHash Hash code tx nIn nHashType amount sigversion None.
Proof. done. Qed.

(** With witnesses, the time and the text of the transaction are not signed. *)
Lemma witness_hash_ignores_time code tx nIn nHashType amount time text :
  let tx' := {| tx_nVersion := tx_nVersion tx; tx_nTime := time; tx_vin := tx_vin tx; tx_vout := tx_vout tx; tx_wit := tx_wit tx; tx_nLockTime := tx_nLockTime tx; tx_strDZeel := text |} in
  SignatureHash Hash code tx' nIn nHashType amount SIGVERSION_WITNESS_V0 None = SignatureHash Hash code tx nIn nHashType amount SIGVERSION_WITNESS_V0 None.
Proof. done. Qed.

End Commit.

(** C13. Before witnesses, the hash that is signed commits to an explicit view of the
    transaction, in which the other inputs lose their scripts and the parts that the
    hash type leaves open are blanked: inputs with equal views have equal hashes, and
    inputs with equal hashes have equal views or exhibit a collision of the hash
    function.  For a hash type that leaves nothing open, equal views mean the same
    transaction up to its input scripts and witnesses, the same script code up to its
    separators, and the same input unless this code is empty.  The exception is
    SIGHASH_SINGLE for an input without an output of its index: there the hash is the
    number one, for every transaction and every script code.  For inputs that exist,
    script codes that are read to their end, and one-byte hash types. *)
Theorem signature_commitment Hash code1 tx1 n1 t1 a1 c1 code2 tx2 n2 t2 a2 c2 : has_view code1 tx1 n1 t1 -> has_view code2 tx2 n2 t2 ->
  let h1 := SignatureHash Hash code1 tx1 n1 t1 a1 SIGVERSION_BASE c1 in let h2 := SignatureHash Hash code2 tx2 n2 t2 a2 SIGVERSION_BASE c2 in
  let v1 := view_of code1 tx1 n1 t1 in let v2 := view_of code2 tx2 n2 t2 in
  h1 = (if no_output tx1 n1 t1 then uint256_one else Hash (view_bytes v1)) /\
  (no_output tx1 n1 t1 = false -> no_output tx2 n2 t2 = false ->
   (v1 = v2 -> h1 = h2) /\ (h1 = h2 -> v1 = v2 \/ (view_bytes v1 <> view_bytes v2 /\ Hash (view_bytes v1) = Hash (view_bytes v2)))) /\
  (v1 = v2 -> fAnyoneCanPay t1 = false -> fHashSingle t1 = false -> fHashNone t1 = false ->
   tx_nVersion tx1 = tx_nVersion tx2 /\ tx_nTime tx1 = tx_nTime tx2 /\ prevout <$> tx_vin tx1 = prevout <$> tx_vin tx2 /\ nSequence <$> tx_vin tx1 = nSequence <$> tx_vin tx2 /\
   tx_vout tx1 = tx_vout tx2 /\ tx_nLockTime tx1 = tx_nLockTime tx2 /\ tx_strDZeel tx1 = tx_strDZeel tx2 /\ strip_separators code1 = strip_separators code2 /\
   (strip_separators code1 <> [] -> n1 = n2)).
Proof.
  intros H1 H2 h1 h2 v1 v2. split; [|split].
  - unfold h1. destruct (no_output tx1 n1 t1) eqn:E; [by apply signature_hash_one|]. by apply signature_hash_view, has_view_signable.
  - intros E1 E2. by apply signature_hash_commits; apply has_view_signable.
  - intros E Ec Es En. assert (t1 = t2) as <- by (by apply (f_equal sv_nHashType) in E). apply (sign_all_view code1 tx1 n1 code2 tx2 n2 t1); try done; [apply (hv_input _ _ _ _ H1)|apply (hv_input _ _ _ _ H2)].
Qed.

(** A transaction with one input and one output. *)
Definition demo_signed_tx (script : list Z) (value : Z) : tx_data := {|
  tx_nVersion := 3; tx_nTime := 1500000000;
  tx_vin := [{| prevout := {| hash := replicate 32 7; n := 1 |}; scriptSig := script; nSequence := 0xffffffff |}];
  tx_vout := [{| CTxOut.nValue := value; CTxOut.scriptPubKey := script_to_key (replicate 20 9) |}];
  tx_wit := []; tx_nLockTime := 0; tx_strDZeel := [] |}.
Definition demo_code : list Z := script_to_key (replicate 20 4).

Lemma demo_has_view script value : blob_ok script -> 0 <= value < 2 ^ 40 -> has_view demo_code (demo_signed_tx script value) 0 SIGHASH_ALL.
Proof.
  intros Hb Hv. split; [apply (bool_decide_unpack _); by vm_compute|by vm_compute|by vm_compute|by vm_compute| |by vm_compute].
  split; [by vm_compute|by vm_compute| |by vm_compute|apply (bool_decide_unpack _); by vm_compute|done]. split; [|split; [|left; done]].
  - split; [by vm_compute|]. constructor; [|constructor]. split; [split; [apply (bool_decide_unpack _); by vm_compute|by vm_compute]|]. by split.
  - split; [by vm_compute|]. constructor; [|constructor]. split; [cbn; lia|apply (bool_decide_unpack _); by vm_compute].
Qed.

(** With a hash that keeps its input apart: another input script gives the same hash, a
    transaction with another amount a different one. *)
Lemma signature_commitment_witness :
  let h := fun m : list Z => m in
  let sign := fun tx => SignatureHash h demo_code tx 0 SIGHASH_ALL 0 SIGVERSION_BASE None in
  sign (demo_signed_tx [] 5000) = sign (demo_signed_tx [OP_1] 5000) /\ sign (demo_signed_tx [] 5000) <> sign (demo_signed_tx [] 5001).
Proof.
  intros h sign. assert (blob_ok [] /\ blob_ok [OP_1]) as [B0 B1] by (split; apply (bool_decide_unpack _); by vm_compute). split.
  - destruct (signature_commitment h demo_code (demo_signed_tx [] 5000) 0 SIGHASH_ALL 0 None demo_code (demo_signed_tx [OP_1] 5000) 0 SIGHASH_ALL 0 None) as (_ & H & _);
      [by apply demo_has_view|by apply demo_has_view|]. by apply (H eq_refl eq_refl).
  - intros E. destruct (signature_commitment h demo_code (demo_signed_tx [] 5000) 0 SIGHASH_ALL 0 None demo_code (demo_signed_tx [] 5001) 0 SIGHASH_ALL 0 None) as (_ & H & A);
      [by apply demo_has_view|by apply demo_has_view|]. destruct (proj2 (H eq_refl eq_refl) E) as [Hv|[Hn Hb]]; [|by apply Hn].
    destruct (A Hv eq_refl eq_refl eq_refl) as (_ & _ & _ & _ & Ho & _). discriminate Ho.
Defined.
