(* ===== verification/LockTime.v ===== *)
(** * main.cpp: when a transaction may be included

    [IsFinalTx] for absolute lock times and [SequenceLocks] for relative ones (BIP 68).
    The operations [OP_CHECKLOCKTIMEVERIFY] and [OP_CHECKSEQUENCEVERIFY] compare with
    fields of the spending transaction only; the theorems show that together with these
    rules they bind the block in which an output is spent. *)

From Stdlib Require Import ZArith Lia Btauto.
From stdpp Require Import base tactics numbers list gmap.
From S2P Require Import Prelude SphTypes Blob Serialize Compressor Coins Chain Transaction Utxo ScriptNum Script Interpreter SigHash.

(** ** Absolute lock times *)

Definition IsFinalTx (tx : tx_data) (nBlockHeight nBlockTime : Z) : bool :=
  if tx_nLockTime tx =? 0 then true
  else if tx_nLockTime tx <? (if tx_nLockTime tx <? LOCKTIME_THRESHOLD then nBlockHeight else nBlockTime) then true
  else forallb (fun txin => nSequence txin =? SEQUENCE_FINAL) (tx_vin tx).

(** An output that checks for the lock time [n] is spent only by transactions that are
    final after [n]. *)
Lemma locktime_enforced (tx : CTransaction) nIn n nBlockHeight nBlockTime : (nIn < length (tx_vin tx))%nat -> 0 < n ->
  tx_CheckLockTime tx nIn n = true -> IsFinalTx tx nBlockHeight nBlockTime = true -> n < (if n <? LOCKTIME_THRESHOLD then nBlockHeight else nBlockTime).
Proof.
  unfold tx_CheckLockTime, IsFinalTx. intros Hi Hn Hc Hf.
  destruct (negb _) eqn:Et in Hc; [done|]. apply negb_false_iff, orb_true_iff in Et. rewrite !andb_true_iff, !Z.ltb_lt, !Z.leb_le in Et.
  destruct (Z.ltb_spec (tx_nLockTime tx) n); [done|]. apply negb_true_iff, Z.eqb_neq in Hc. destruct (Z.eqb_spec (tx_nLockTime tx) 0); [lia|].
  assert ((n <? LOCKTIME_THRESHOLD) = (tx_nLockTime tx <? LOCKTIME_THRESHOLD)) as -> by (destruct (Z.ltb_spec n LOCKTIME_THRESHOLD), (Z.ltb_spec (tx_nLockTime tx) LOCKTIME_THRESHOLD); lia).
  destruct (Z.ltb_spec (tx_nLockTime tx) (if tx_nLockTime tx <? LOCKTIME_THRESHOLD then nBlockHeight else nBlockTime)); [lia|].
  exfalso. apply Hc. symmetry. rewrite forallb_forall in Hf. apply Z.eqb_eq, (Hf (nth nIn (tx_vin tx) null_input)), nth_In. done.
Qed.

(** ** Relative lock times *)

Definition LOCKTIME_VERIFY_SEQUENCE : Z := 1 << 0.
Definition SEQUENCE_LOCKTIME_GRANULARITY : Z := 9.

Definition int32 (x : Z) : option Z := if (- 2 ^ 31 <=? x) && (x <? 2 ^ 31) then Some x else None.

Section Locks.
Variable h : heap.
Variable block : ptr.

(** The median time past of the block before the one at a height of the chain of
    [block]. *)
Definition coin_time (nCoinHeight : Z) : option Z :=
  anc ← GetAncestor h block (Z.max (nCoinHeight - 1) 0); p ← anc; GetMedianTimePast h p.

(** The body of the loop: the height of the coin afterwards and the two limits. *)
Definition sequence_lock (txin : CTxIn) (nCoinHeight : Z) (locks : Z * Z) : option (Z * (Z * Z)) :=
  let '(nMinHeight, nMinTime) := locks in
  if negb (nSequence txin .& SEQUENCE_LOCKTIME_DISABLE_FLAG =? 0) then Some (0, (nMinHeight, nMinTime))
  else if negb (nSequence txin .& SEQUENCE_LOCKTIME_TYPE_FLAG =? 0) then
    nCoinTime ← coin_time nCoinHeight;
    Some (nCoinHeight, (nMinHeight, Z.max nMinTime (nCoinTime + ((nSequence txin .& SEQUENCE_LOCKTIME_MASK) << SEQUENCE_LOCKTIME_GRANULARITY) - 1)))
  else
    sum ← int32 (nCoinHeight + (nSequence txin .& SEQUENCE_LOCKTIME_MASK));
    Some (nCoinHeight, (Z.max nMinHeight (sum - 1), nMinTime)).

Fixpoint sequence_locks (vin : list CTxIn) (prevHeights : list Z) (locks : Z * Z) : option (list Z * (Z * Z)) :=
  match vin, prevHeights with
  | txin :: vin, nCoinHeight :: prevHeights =>
      '(nCoinHeight, locks) ← sequence_lock txin nCoinHeight locks;
      '(prevHeights, locks) ← sequence_locks vin prevHeights locks;
      Some (nCoinHeight :: prevHeights, locks)
  | _, _ => Some ([], locks)
  end.

Definition CalculateSequenceLocks (tx : tx_data) (flags : Z) (prevHeights : list Z) : option (list Z * (Z * Z)) :=
  if negb (length prevHeights =? length (tx_vin tx))%nat then None
  else
    let fEnforceBIP68 := (2 <=? tx_nVersion tx mod 2 ^ 32) && negb (flags .& LOCKTIME_VERIFY_SEQUENCE =? 0) in
    if negb fEnforceBIP68 then Some (prevHeights, (-1, -1))
    else sequence_locks (tx_vin tx) prevHeights (-1, -1).

Definition EvaluateSequenceLocks (lockPair : Z * Z) : option bool :=
  b ← h !! block;
  prev ← pprev b;
  nBlockTime ← GetMedianTimePast h prev;
  Some (negb ((nHeight b <=? lockPair.1) || (nBlockTime <=? lockPair.2))).

Definition SequenceLocks (tx : tx_data) (flags : Z) (prevHeights : list Z) : option bool :=
  '(_, lockPair) ← CalculateSequenceLocks tx flags prevHeights; EvaluateSequenceLocks lockPair.

End Locks.

(** The two parts of a sequence number that are compared. *)
Lemma masked_parts x : 0 <= x -> x .& (SEQUENCE_LOCKTIME_TYPE_FLAG .| SEQUENCE_LOCKTIME_MASK) = (if x .& SEQUENCE_LOCKTIME_TYPE_FLAG =? 0 then 0 else 2 ^ 22) + (x .& SEQUENCE_LOCKTIME_MASK) /\ 0 <= x .& SEQUENCE_LOCKTIME_MASK < 2 ^ 16.
Proof.
  intros Hx. unfold SEQUENCE_LOCKTIME_TYPE_FLAG, SEQUENCE_LOCKTIME_MASK. change 0x0000ffff with (Z.ones 16). split; [|rewrite Z.land_ones by lia; apply Z.mod_pos_bound; lia].
  rewrite Z.land_lor_distr_r. assert (x .& (1 << 22) = if x .& (1 << 22) =? 0 then 0 else 2 ^ 22) as E.
  { change (1 << 22) with (2 ^ 22). destruct (Z.eqb_spec (x .& 2 ^ 22) 0) as [->|Hn]; [done|]. bits_intro i Hi. rewrite Z.land_spec, Z.pow2_bits_eqb by lia. destruct (Z.eqb_spec 22 i) as [<-|]; [|apply andb_false_r]. rewrite andb_true_r.
    destruct (Z.testbit x 22) eqn:Eb; [done|]. exfalso. apply Hn. bits_intro i Hi'. rewrite Z.land_spec, Z.pow2_bits_eqb, Z.bits_0 by lia. destruct (Z.eqb_spec 22 i) as [<-|]; [by rewrite Eb|apply andb_false_r]. }
  rewrite <- Z.lxor_lor, <- Z.add_nocarry_lxor; [by rewrite <- E|..]; bits_intro i Hi; rewrite !Z.land_spec, Z.bits_0; change (1 << 22) with (2 ^ 22); rewrite Z.pow2_bits_eqb, Z.testbit_ones by lia;
    (destruct (Z.eqb_spec 22 i) as [<-|]; [cbn; btauto|btauto]).
Qed.

Section Enforced.
Context (h : heap) (block : ptr).

(** The limits only grow. *)
Lemma sequence_lock_grows txin c l c' l' : sequence_lock h block txin c l = Some (c', l') -> l.1 <= l'.1 /\ l.2 <= l'.2.
Proof.
  destruct l as [mh mt]. unfold sequence_lock. destruct (negb _); [intros [= _ <-]; cbn; lia|]. destruct (negb _).
  - intros E. apply bind_Some in E as (t & _ & [= _ <-]). cbn. lia.
  - intros E. apply bind_Some in E as (t & _ & [= _ <-]). cbn. lia.
Qed.

Lemma sequence_locks_at vin hs l hs' l' k txin c : sequence_locks h block vin hs l = Some (hs', l') -> vin !! k = Some txin -> hs !! k = Some c ->
  exists l1 c' l2, sequence_lock h block txin c l1 = Some (c', l2) /\ l2.1 <= l'.1 /\ l2.2 <= l'.2.
Proof.
  revert hs l hs' k. induction vin as [|i vin IH]; intros hs l hs' k E Hv Hh; [done|]. destruct hs as [|c0 hs]; [done|]. cbn [sequence_locks] in E.
  apply bind_Some in E as ([c1 l1] & E1 & E). apply bind_Some in E as ([hs1 l2] & E2 & E). injection E as <- ->. destruct k as [|k].
  - injection Hv as ->. injection Hh as ->. exists l, c1, l1. split; [done|]. assert (forall v q p q' p', sequence_locks h block v q p = Some (q', p') -> p.1 <= p'.1 /\ p.2 <= p'.2) as Hg; [|by eapply Hg].
    clear. intros v. induction v as [|i v IHv]; intros q p q' p' E; [injection E as _ <-; lia|]. destruct q as [|x q]; [injection E as _ <-; lia|]. cbn [sequence_locks] in E.
    apply bind_Some in E as ([c1 l1] & E1 & E). apply bind_Some in E as ([hs1 l2] & E2 & E). injection E as _ <-. apply sequence_lock_grows in E1. apply IHv in E2. lia.
  - by eapply IH.
Qed.

(** An output that checks for the relative lock [n] is spent only by blocks that are
    that far behind the one that created it, in blocks or in units of 512 seconds. *)
Lemma sequence_enforced (tx : CTransaction) nIn n c b prev flags prevHeights now : (nIn < length (tx_vin tx))%nat -> 0 <= n -> 0 <= input_sequence tx nIn ->
  negb (flags .& LOCKTIME_VERIFY_SEQUENCE =? 0) = true -> prevHeights !! nIn = Some c ->
  h !! block = Some b -> pprev b = Some prev -> GetMedianTimePast h prev = Some now ->
  tx_CheckSequence tx nIn n = true -> SequenceLocks h block tx flags prevHeights = Some true ->
  if n .& SEQUENCE_LOCKTIME_TYPE_FLAG =? 0 then c + (n .& SEQUENCE_LOCKTIME_MASK) <= nHeight b
  else exists t, coin_time h block c = Some t /\ t + (n .& SEQUENCE_LOCKTIME_MASK) * 512 <= now.
Proof.
  intros Hi Hn Hs Hf Hc Hb Hp Hnow. unfold tx_CheckSequence, SequenceLocks, CalculateSequenceLocks. cbv zeta. intros Hcs E.
  destruct (Z.ltb_spec (tx_nVersion tx mod 2 ^ 32) 2) as [|Hv]; [done|]. destruct (negb (input_sequence tx nIn .& SEQUENCE_LOCKTIME_DISABLE_FLAG =? 0)) eqn:Ed; [done|].
  destruct (masked_parts n Hn) as [En Hln]. destruct (masked_parts (input_sequence tx nIn) Hs) as [Es Hls]. set (s := input_sequence tx nIn) in *.
  destruct (negb _) eqn:Eq in Hcs; [done|]. apply negb_false_iff, orb_true_iff in Eq. rewrite !andb_true_iff, !Z.ltb_lt, !Z.leb_le, En, Es in Eq. apply negb_true_iff, Z.ltb_ge in Hcs. rewrite En, Es in Hcs. clear En Es.
  assert (SEQUENCE_LOCKTIME_TYPE_FLAG = 2 ^ 22) as HF by done.
  destruct (negb (_ =? _)%nat) in E; [done|]. rewrite Hf in E. destruct (Z.leb_spec 2 (tx_nVersion tx mod 2 ^ 32)); [|lia]. cbn [andb negb] in E. apply bind_Some in E as ([hs' l'] & E & Ee).
  unfold EvaluateSequenceLocks in Ee. rewrite Hb in Ee. cbn [mbind option_bind] in Ee. rewrite Hp in Ee. cbn [mbind option_bind] in Ee. rewrite Hnow in Ee. cbn [mbind option_bind] in Ee. injection Ee as Ee. apply negb_true_iff, orb_false_iff in Ee as [Eh Et]. rewrite Z.leb_gt in Eh, Et.
  destruct (lookup_lt_is_Some_2 _ _ Hi) as [txin Htx]. assert (nSequence txin = s) as Hseq by (unfold s, input_sequence; by rewrite (nth_lookup_Some _ _ _ _ Htx)).
  destruct (sequence_locks_at _ _ _ _ _ nIn txin c E Htx Hc) as ([mh mt] & c' & l2 & El & H1 & H2). unfold sequence_lock in El. rewrite Hseq, Ed in El.
  destruct (Z.eqb_spec (s .& SEQUENCE_LOCKTIME_TYPE_FLAG) 0) as [Ts|Ts]; cbn [negb] in El; apply bind_Some in El as (t & Et' & [= _ <-]); cbn [fst snd] in H1, H2; destruct (Z.eqb_spec (n .& SEQUENCE_LOCKTIME_TYPE_FLAG) 0) as [Tn|Tn].
  - unfold int32 in Et'. destruct (_ && _) in Et'; [|done]. injection Et' as <-. lia.
  - exfalso. lia.
  - exfalso. lia.
  - exists t. split; [done|]. unfold SEQUENCE_LOCKTIME_GRANULARITY in H2. rewrite Z.shiftl_mul_pow2 in H2 by lia. change (2 ^ 9) with 512 in H2. lia.
Qed.

End Enforced.

(** C14. When an input runs [OP_CHECKLOCKTIMEVERIFY] or [OP_CHECKSEQUENCEVERIFY] against its
    transaction, and the transaction is final and its sequence locks hold in the block
    that includes it, then the number on the stack bounds that block: its height or
    time is past the absolute number, or it is that many blocks, or units of 512
    seconds of median time, behind the block of the output that is spent. *)
Theorem lock_times_enforced Hash Verify flags (tx : CTransaction) nIn amount txdata top s : (nIn < length (tx_vin tx))%nat -> 0 <= input_sequence tx nIn ->
  let checker := TransactionSignatureChecker Hash Verify tx nIn amount txdata in
  (forall nBlockHeight nBlockTime, flag flags SCRIPT_VERIFY_CHECKLOCKTIMEVERIFY = true -> op_checklocktimeverify flags checker (top :: s) = Ok tt -> IsFinalTx tx nBlockHeight nBlockTime = true ->
     exists n, CScriptNum top (fRequireMinimal flags) 5 = Some n /\ (0 < n -> n < (if n <? LOCKTIME_THRESHOLD then nBlockHeight else nBlockTime))) /\
  (forall h block b prev now c lockflags prevHeights, flag flags SCRIPT_VERIFY_CHECKSEQUENCEVERIFY = true -> op_checksequenceverify flags checker (top :: s) = Ok tt ->
     negb (lockflags .& LOCKTIME_VERIFY_SEQUENCE =? 0) = true -> prevHeights !! nIn = Some c -> h !! block = Some b -> pprev b = Some prev -> GetMedianTimePast h prev = Some now ->
     SequenceLocks h block tx lockflags prevHeights = Some true ->
     exists n, CScriptNum top (fRequireMinimal flags) 5 = Some n /\
       (n .& SEQUENCE_LOCKTIME_DISABLE_FLAG = 0 ->
        if n .& SEQUENCE_LOCKTIME_TYPE_FLAG =? 0 then c + (n .& SEQUENCE_LOCKTIME_MASK) <= nHeight b
        else exists t, coin_time h block c = Some t /\ t + (n .& SEQUENCE_LOCKTIME_MASK) * 512 <= now)).
Proof.
  intros Hi Hs checker. split.
  - intros bh bt Hf E Hfin. unfold op_checklocktimeverify in E. rewrite Hf in E. cbn [negb] in E. unfold number_of in E. destruct (CScriptNum top _ 5) as [v|]; [|done]. cbn [mbind result_bind] in E. exists v. split; [done|]. intros Hv.
    destruct (0 <=? v); [|done]. cbn [require mbind result_bind] in E. destruct (CheckLockTime checker v) eqn:Ec; [|done]. by eapply locktime_enforced.
  - intros h block b prev now c lf ph Hf E Hlf Hc Hb Hp Hn Hl. unfold op_checksequenceverify in E. rewrite Hf in E. cbn [negb] in E. unfold number_of in E. destruct (CScriptNum top _ 5) as [v|]; [|done]. cbn [mbind result_bind] in E. exists v. split; [done|]. intros Hd.
    destruct (Z.leb_spec 0 v); [|done]. cbn [require mbind result_bind] in E. rewrite Hd in E. cbn [Z.eqb negb] in E. destruct (CheckSequence checker v) eqn:Ec; [|done]. by eapply sequence_enforced.
Qed.

(** A chain of ten blocks with a block every 600 seconds, and an input that spends an
    output of block 2 after a relative lock of five blocks. *)
Definition demo_locked_tx : CTransaction := {| txid := replicate 32 1; tx_of := {|
  tx_nVersion := 2; tx_nTime := 0;
  tx_vin := [{| prevout := {| hash := replicate 32 7; n := 1 |}; scriptSig := []; nSequence := 5 |}];
  tx_vout := []; tx_wit := []; tx_nLockTime := 7; tx_strDZeel := [] |} |}.
Definition demo_blocks : heap := demo_chain ((fun i => 600 * Z.of_nat i) <$> seq 0 10).

Lemma lock_times_enforced_witness :
  (exists n, CScriptNum [5] false 5 = Some n /\ (0 < n -> n < 9)) /\ (exists n, CScriptNum [5] false 5 = Some n /\ 2 + (n .& SEQUENCE_LOCKTIME_MASK) <= 9).
Proof.
  destruct (lock_times_enforced (fun m => m) (fun _ _ _ => true) (SCRIPT_VERIFY_CHECKLOCKTIMEVERIFY .| SCRIPT_VERIFY_CHECKSEQUENCEVERIFY) demo_locked_tx 0 0 None [5] []) as [H1 H2]; [by vm_compute|by vm_compute|]. split.
  - destruct (H1 9 5400) as (v & Ev & Hv); [by vm_compute..|]. exists v. injection Ev as <-. split; [done|]. exact Hv.
  - destruct (H2 demo_blocks 9%nat (default SetNull (demo_blocks !! 9%nat)) 8%nat 2400 2 1 [2]) as (v & Ev & Hv); [by vm_compute..|]. exists v. injection Ev as <-. split; [done|]. by apply Hv.
Defined.
