(* ===== verification/Hasher.v ===== *)
(** * crypto: hashers that buffer their input

    The classes [CSHA256], [CSHA512], [CSHA1] and [CRIPEMD160] have the same [Write]
    and [Finalize], with another block function, block size and byte order.  They are
    modelled once, as operations on the three members [s], [buf] and [bytes], and
    [Finalize] is shown to give the digest of the padded message however the message
    was cut into calls of [Write].  [CHMAC_SHA256] and [CHMAC_SHA512] are built from
    two such hashers, and give the construction of RFC 2104. *)

From Stdlib Require Import ZArith Lia.
From stdpp Require Import base tactics numbers list.
From S2P Require Import Prelude SphTypes Stream.

(** [s], [buf] and [bytes]; the latter is a [uint64_t]. *)
Record hasher := { h_s : list Z; h_buf : list Z; h_bytes : Z }.

Section Hasher.

Context (bs : nat) (Transform : list Z -> list Z -> list Z) (Initialize : list Z).

(** The constructor; the buffer is not initialised. *)
Definition hasher_new (buf : list Z) : hasher := {| h_s := Initialize; h_buf := buf; h_bytes := 0 |}.

Definition Reset (c : hasher) : hasher := {| h_s := Initialize; h_buf := h_buf c; h_bytes := 0 |}.

(** [bytes += n] *)
Definition add_bytes (c : hasher) (n : nat) : Z := SPH_T64 (h_bytes c + Z.of_nat n).

(** [while (end >= data + 64)]: full chunks directly from the source *)
Fixpoint full_chunks (fuel : nat) (c : hasher) (data : list Z) : hasher * list Z :=
  match fuel with
  | O => (c, data)
  | S fuel =>
      if (bs <=? length data)%nat
      then full_chunks fuel {| h_s := Transform (h_s c) (take bs data); h_buf := h_buf c; h_bytes := add_bytes c bs |} (drop bs data)
      else (c, data)
  end.

(** Every chunk is at least one byte. *)
Definition Write (c : hasher) (data : list Z) : hasher :=
  let bufsize := Z.to_nat (h_bytes c mod Z.of_nat bs) in
  let '(c, data, bufsize) :=
    if (0 <? bufsize)%nat && (bs <=? bufsize + length data)%nat then
      let buf := memcpy (h_buf c) bufsize (take (bs - bufsize) data) in
      ({| h_s := Transform (h_s c) buf; h_buf := buf; h_bytes := add_bytes c (bs - bufsize) |}, drop (bs - bufsize) data, O)
    else (c, data, bufsize) in
  let '(c, data) := full_chunks (length data) c data in
  if (0 <? length data)%nat
  then {| h_s := h_s c; h_buf := memcpy (h_buf c) bufsize data; h_bytes := add_bytes c (length data) |}
  else c.

(** [sizedesc] is written by [size_bytes] from [bytes << 3] (behind eight zero bytes
    for SHA-512), and the digest by [out] from [s]. *)
Context (size_bytes : Z -> list Z) (out : list Z -> list Z) (size_len : nat).

Definition finalized (c : hasher) : hasher :=
  let pad := 0x80 :: replicate (bs - 1) 0 in
  let sizedesc := size_bytes (SPH_T64 (h_bytes c << 3)) in
  let n := (1 + (2 * bs - 1 - size_len - Z.to_nat (h_bytes c mod Z.of_nat bs)) mod bs)%nat in
  Write (Write c (take n pad)) sizedesc.

(** The digest; the hasher is [finalized] behind the call. *)
Definition Finalize (c : hasher) : list Z := out (h_s (finalized c)).

(** ** Specification *)

(** The message behind the padding: a marker, zeros up to the length field, and the
    length in bits. *)
Definition padded (msg : list Z) : list Z := msg ++ md_pad bs (length msg mod bs) 0x80 (size_bytes (SPH_T64 (8 * Z.of_nat (length msg)))).

Definition digest (msg : list Z) : list Z := out (fold_left Transform (blocks bs (padded msg)) Initialize).

(** ** Writing *)

Context (Hbs : (0 < bs)%nat) (Hdiv : 2 ^ 64 mod Z.of_nat bs = 0).

(** A hasher that has been given a message. *)
Definition hashing (msg : list Z) (c : hasher) : Prop :=
  length (h_buf c) = bs /\ h_bytes c = Z.of_nat (length msg) mod 2 ^ 64 /\
  take (length msg mod bs) (h_buf c) = tail_bytes bs msg /\ h_s c = fold_left Transform (blocks bs msg) Initialize.

Lemma hashing_fill msg c : hashing msg c -> Z.to_nat (h_bytes c mod Z.of_nat bs) = (length msg mod bs)%nat.
Proof using Hbs Hdiv.
  intros (_ & -> & _). rewrite Z.mod_mod_divide by (apply Z.mod_divide; [lia|done]). by rewrite <- Nat2Z.inj_mod, Nat2Z.id.
Qed.

Lemma add_bytes_of (msg : list Z) c n : h_bytes c = Z.of_nat (length msg) mod 2 ^ 64 -> add_bytes c n = Z.of_nat (length msg + n) mod 2 ^ 64.
Proof. intros E. unfold add_bytes. rewrite T64_mod, E, Zplus_mod_idemp_l. f_equal. lia. Qed.

Lemma tail_short x : (length x < bs)%nat -> blocks bs x = [] /\ tail_bytes bs x = x.
Proof. intros H. unfold blocks, tail_bytes. rewrite Nat.div_small by done. done. Qed.

Lemma tail_app msg x : tail_bytes bs (msg ++ x) = tail_bytes bs (tail_bytes bs msg ++ x).
Proof using Hbs.
  pose proof (concat_blocks bs msg) as E. unfold tail_bytes at 1 2. rewrite !length_app, (length_tail_bytes bs Hbs).
  pose proof (Nat.div_mod_eq (length msg) bs) as Hd.
  assert ((length msg + length x) / bs = length msg / bs + (length msg mod bs + length x) / bs)%nat as -> by (rewrite <- Nat.div_add_l by lia; f_equal; lia).
  rewrite Nat.mul_add_distr_r, <- drop_drop. f_equal. unfold tail_bytes. by rewrite drop_app_le by lia.
Qed.

Lemma blocks_next data : (bs <= length data)%nat ->
  (length data / bs = S (length (drop bs data) / bs))%nat /\ blocks bs data = take bs data :: blocks bs (drop bs data) /\ tail_bytes bs data = tail_bytes bs (drop bs data).
Proof using Hbs.
  intros H. assert (length data / bs = S (length (drop bs data) / bs))%nat as E. { rewrite length_drop. replace (length data) with (1 * bs + (length data - bs))%nat at 1 by lia. by rewrite Nat.div_add_l by lia. }
  split; [done|]. unfold blocks, tail_bytes. rewrite E. split; [done|]. by rewrite drop_drop.
Qed.

Lemma full_chunks_spec fuel c data : (length data <= fuel)%nat -> word 64 (h_bytes c) ->
  full_chunks fuel c data =
    ({| h_s := fold_left Transform (blocks bs data) (h_s c); h_buf := h_buf c; h_bytes := (h_bytes c + Z.of_nat (length data / bs * bs)) mod 2 ^ 64 |}, tail_bytes bs data).
Proof using Hbs.
  revert c data. induction fuel as [|fuel IH]; intros c data Hf Hw; cbn [full_chunks].
  - destruct data; [|cbn in Hf; lia]. destruct (tail_short []) as [-> ->]; [done|]. cbn [length]. rewrite Nat.Div0.div_0_l. cbn. rewrite Z.add_0_r, Z.mod_small by done. by destruct c.
  - destruct (Nat.leb_spec bs (length data)) as [Hge|Hlt].
    + destruct (blocks_next data Hge) as (En & -> & ->). rewrite IH; [|rewrite length_drop; lia|apply T64_word]. cbn [h_s h_buf h_bytes fold_left]. do 2 f_equal. unfold add_bytes. rewrite T64_mod, Zplus_mod_idemp_l, En. f_equal. lia.
    + destruct (tail_short data Hlt) as [-> ->]. rewrite Nat.div_small by done. cbn. rewrite Z.add_0_r, Z.mod_small by done. by destruct c.
Qed.

Lemma hashing_new buf : length buf = bs -> hashing [] (hasher_new buf).
Proof using Hbs. intros H. split; [done|]. destruct (tail_short []) as [Hb Ht]; [done|]. unfold hasher_new. cbn [h_s h_buf h_bytes length]. rewrite Hb, Ht, Nat.Div0.mod_0_l. done. Qed.

Lemma hashing_word msg c : hashing msg c -> word 64 (h_bytes c).
Proof. intros (_ & -> & _). apply Z.mod_pos_bound. lia. Qed.

(** Behind the filled buffer, or with an empty one. *)
Lemma write_aligned msg c data : (length msg mod bs = 0)%nat -> hashing msg c ->
  hashing (msg ++ data)
    (let '(c, data) := full_chunks (length data) c data in
     if (0 <? length data)%nat then {| h_s := h_s c; h_buf := memcpy (h_buf c) 0 data; h_bytes := add_bytes c (length data) |} else c).
Proof using Hbs.
  intros Hm Hc. pose proof (hashing_word _ _ Hc) as Hw. destruct Hc as (Hl & Hb & Ht & Hs). rewrite full_chunks_spec by done.
  assert (tail_bytes bs msg = []) as Htl by (apply nil_length_inv; by rewrite (length_tail_bytes bs Hbs)).
  assert (length (msg ++ data) mod bs = length (tail_bytes bs data))%nat as Hlm by (rewrite length_app, Nat.Div0.add_mod, Hm, (length_tail_bytes bs Hbs); cbn [Nat.add]; apply Nat.Div0.mod_mod).
  pose proof (Nat.mod_upper_bound (length (msg ++ data)) bs ltac:(lia)) as Hub. pose proof (Nat.div_mod_eq (length data) bs) as Hdm. pose proof (length_tail_bytes bs Hbs data) as Hlt.
  assert (tail_bytes bs (msg ++ data) = tail_bytes bs data) as Et by (by rewrite tail_app, Htl). assert (fold_left Transform (blocks bs data) (h_s c) = fold_left Transform (blocks bs (msg ++ data)) Initialize) as Ef by (by rewrite (blocks_app bs Hbs), Htl, fold_left_app, <- Hs).
  destruct (Nat.ltb_spec 0 (length (tail_bytes bs data))) as [H|H].
  - split; [cbn [h_buf]; rewrite length_memcpy by lia; done|]. cbn [h_s h_buf h_bytes]. split; [|split; [|done]].
    + unfold add_bytes. cbn [h_bytes]. rewrite T64_mod, Zplus_mod_idemp_l, Hb, <- Z.add_assoc, Zplus_mod_idemp_l, length_app. f_equal. lia.
    + rewrite Et, Hlm. pose proof (memcpy_prefix (h_buf c) 0 (tail_bytes bs data) ltac:(lia)) as Hp. cbn [Nat.add take app] in Hp. by rewrite take_0 in Hp.
  - assert (tail_bytes bs data = []) as E0 by (apply nil_length_inv; lia). split; [done|]. cbn [h_s h_buf h_bytes]. split; [|split; [|done]].
    + rewrite Hb, Zplus_mod_idemp_l, length_app. f_equal. lia.
    + by rewrite Hlm, Et, E0.
Qed.

Lemma hashing_write msg c data : hashing msg c -> hashing (msg ++ data) (Write c data).
Proof using Hbs Hdiv.
  intros Hc. unfold Write. rewrite (hashing_fill msg c Hc). set (p := (length msg mod bs)%nat). pose proof (Nat.mod_upper_bound (length msg) bs ltac:(lia)) as Hp. fold p in Hp.
  pose proof Hc as (Hl & Hb & Ht & Hs). pose proof (length_tail_bytes bs Hbs msg) as Hlt. fold p in Ht, Hlt.
  destruct (Nat.ltb_spec 0 p) as [Hp0|Hp0]; cbn [andb]; [|replace p with O by lia; apply write_aligned; [lia|done]].
  destruct (Nat.leb_spec bs (p + length data)) as [Hge|Hlt'].
  - set (x := take (bs - p) data). assert (length x = bs - p)%nat as Hx by (unfold x; rewrite length_take; lia). rewrite <- (take_drop (bs - p) data) at 1. fold x. rewrite app_assoc.
    assert (length (tail_bytes bs msg ++ x) = bs) as Hfull by (rewrite length_app; lia). pose proof (Nat.div_mod_eq (length msg) bs) as Hdm. fold p in Hdm.
    assert (length (msg ++ x) mod bs = 0)%nat as Hal by (rewrite length_app, Hx; replace (length msg + (bs - p))%nat with ((length msg / bs + 1) * bs)%nat by lia; apply Nat.Div0.mod_mul).
    apply write_aligned; [done|]. assert (memcpy (h_buf c) p x = tail_bytes bs msg ++ x) as Hm. { pose proof (memcpy_prefix (h_buf c) p x ltac:(lia)) as E. rewrite Ht in E. rewrite <- E, take_ge; [done|]. rewrite length_memcpy by lia. lia. }
    split; [cbn [h_buf]; by rewrite length_memcpy by lia|]. cbn [h_s h_buf h_bytes]. split; [by rewrite (add_bytes_of msg), length_app, Hx|]. split.
    + rewrite Hal, take_0. symmetry. apply nil_length_inv. by rewrite (length_tail_bytes bs Hbs).
    + by rewrite Hm, (blocks_app bs Hbs), (blocks_one bs Hbs (tail_bytes bs msg ++ x)), fold_left_app, <- Hs.
  - assert (length (msg ++ data) mod bs = p + length data)%nat as Hlm by (rewrite length_app, Nat.Div0.add_mod; fold p; rewrite (Nat.mod_small (length data)) by lia; by apply Nat.mod_small).
    destruct (tail_short (tail_bytes bs msg ++ data)) as [E1 E2]; [rewrite length_app; lia|].
    rewrite full_chunks_spec by (done || by eapply hashing_word). destruct (tail_short data) as [-> ->]; [lia|]. rewrite Nat.div_small by lia. cbn [Nat.mul fold_left]. rewrite Z.add_0_r, Z.mod_small by (by eapply hashing_word).
    assert (hashing (msg ++ data) {| h_s := h_s c; h_buf := memcpy (h_buf c) p data; h_bytes := add_bytes c (length data) |}) as Hr.
    { split; [cbn [h_buf]; by rewrite length_memcpy by lia|]. cbn [h_s h_buf h_bytes]. split; [by rewrite (add_bytes_of msg), length_app|]. split.
      - rewrite Hlm, tail_app, E2, <- Ht. apply memcpy_prefix. lia.
      - by rewrite (blocks_app bs Hbs), E1, app_nil_r. }
    destruct (Nat.ltb_spec 0 (length data)); [done|]. assert (data = []) as -> by (apply nil_length_inv; lia). rewrite app_nil_r. by destruct c.
Qed.

Lemma hashing_writes ds msg c : hashing msg c -> hashing (msg ++ concat ds) (fold_left Write ds c).
Proof using Hbs Hdiv. revert msg c. induction ds as [|d ds IH]; intros msg c H; cbn [concat fold_left]; [by rewrite app_nil_r|]. rewrite app_assoc. by apply IH, hashing_write. Qed.

(** ** The digest *)

Context (Hsize : forall n, length (size_bytes n) = size_len) (Hroom : (size_len < bs)%nat).

Lemma pad_length p : (p < bs)%nat -> ((2 * bs - 1 - size_len - p) mod bs = if p <? bs - size_len then bs - size_len - S p else bs + (bs - size_len) - S p)%nat.
Proof using Hbs Hroom.
  intros Hp. destruct (Nat.ltb_spec p (bs - size_len)).
  - replace (2 * bs - 1 - size_len - p)%nat with (bs - size_len - S p + 1 * bs)%nat by lia. rewrite Nat.Div0.mod_add. apply Nat.mod_small. lia.
  - rewrite Nat.mod_small by lia. lia.
Qed.

Lemma finalize_digest msg c : hashing msg c -> Finalize c = digest msg.
Proof using Hbs Hdiv Hsize Hroom.
  intros Hc. unfold Finalize, finalized, digest, padded, md_pad. rewrite (hashing_fill msg c Hc), Hsize. pose proof (Nat.mod_upper_bound (length msg) bs ltac:(lia)) as Hp. rewrite pad_length by done.
  assert (SPH_T64 (h_bytes c << 3) = SPH_T64 (8 * Z.of_nat (length msg))) as ->. { destruct Hc as (_ & -> & _). rewrite !T64_mod, Z.shiftl_mul_pow2 by lia. rewrite Zmult_mod_idemp_l. f_equal. lia. }
  set (k := if (_ <? _)%nat then _ else _). assert (k < bs)%nat as Hk by (unfold k; destruct (Nat.ltb_spec (length msg mod bs) (bs - size_len)); lia).
  assert (take (1 + k) (0x80 :: replicate (bs - 1) 0) = 0x80 :: replicate k 0) as -> by (cbn [Nat.add take]; rewrite take_replicate; do 2 f_equal; lia).
  f_equal. destruct (hashing_write (msg ++ 0x80 :: replicate k 0) (Write c (0x80 :: replicate k 0)) (size_bytes (SPH_T64 (8 * Z.of_nat (length msg)))) (hashing_write msg c _ Hc)) as (_ & _ & _ & ->).
  by rewrite <- app_assoc.
Qed.

(** A hasher can be used again. *)
Lemma hashing_reset msg c : hashing msg c -> hashing [] (Reset (finalized c)).
Proof using Hbs Hdiv. intros Hc. unfold finalized. eapply hashing_write, hashing_write in Hc as (H & _). by apply (hashing_new (h_buf _)) in H. Qed.

Lemma hasher_digest buf ds : length buf = bs -> Finalize (fold_left Write ds (hasher_new buf)) = digest (concat ds).
Proof using Hbs Hdiv Hsize Hroom. intros Hb. apply finalize_digest. by apply (hashing_writes ds []), hashing_new. Qed.

End Hasher.

(** ** HMAC *)

Section Hmac.

Context (bs : nat) (Transform : list Z -> list Z -> list Z) (Initialize : list Z) (size_bytes : Z -> list Z) (out : list Z -> list Z) (size_len out_len : nat).
Abbreviation Write := (Write bs Transform).
Abbreviation Finalize := (Finalize bs Transform size_bytes out size_len).
Abbreviation digest := (digest bs Transform Initialize size_bytes out).

Record hmac := { outer : hasher; inner : hasher }.

(** The constructor; [buf1] to [buf3] are the buffers of the hashers. *)
Definition hmac_new (buf1 buf2 buf3 key : list Z) : hmac :=
  let rkey :=
    if (length key <=? bs)%nat then key ++ replicate (bs - length key) 0
    else Finalize (Write (hasher_new Initialize buf1) key) ++ replicate (bs - out_len) 0 in
  let rkey := (fun b => b ⊕ 0x5c) <$> rkey in
  let outer := Write (hasher_new Initialize buf2) rkey in
  let rkey := (fun b => b ⊕ (0x5c ⊕ 0x36)) <$> rkey in
  {| outer := outer; inner := Write (hasher_new Initialize buf3) rkey |}.

Definition hmac_Write (c : hmac) (data : list Z) : hmac := {| outer := outer c; inner := Write (inner c) data |}.

Definition hmac_Finalize (c : hmac) : list Z := Finalize (Write (outer c) (Finalize (inner c))).

(** The key, hashed when it is longer than a block, and filled up to one. *)
Definition block_key (key : list Z) : list Z :=
  if (length key <=? bs)%nat then key ++ replicate (bs - length key) 0 else digest key ++ replicate (bs - out_len) 0.

Definition hmac_spec (key msg : list Z) : list Z :=
  digest (((fun b => b ⊕ 0x5c) <$> block_key key) ++ digest (((fun b => b ⊕ 0x36) <$> block_key key) ++ msg)).

Context (Hbs : (0 < bs)%nat) (Hdiv : 2 ^ 64 mod Z.of_nat bs = 0) (Hsize : forall n, length (size_bytes n) = size_len) (Hroom : (size_len < bs)%nat).

Lemma hmac_writes ds c : fold_left hmac_Write ds c = {| outer := outer c; inner := fold_left Write ds (inner c) |}.
Proof. revert c. induction ds as [|d ds IH]; intros c; cbn [fold_left]; [by destruct c|]. by rewrite IH. Qed.

Lemma hmac_digest buf1 buf2 buf3 key ds : length buf1 = bs -> length buf2 = bs -> length buf3 = bs ->
  hmac_Finalize (fold_left hmac_Write ds (hmac_new buf1 buf2 buf3 key)) = hmac_spec key (concat ds).
Proof using Hbs Hdiv Hsize Hroom.
  intros H1 H2 H3. rewrite hmac_writes. unfold hmac_Finalize, hmac_new, hmac_spec. cbn [inner outer].
  rewrite (finalize_digest bs Transform Initialize size_bytes out size_len Hbs Hdiv Hsize Hroom key (Write (hasher_new Initialize buf1) key)) by (by apply (hashing_write bs Transform Initialize Hbs Hdiv []), hashing_new). fold (block_key key).
  rewrite <- list_fmap_compose. assert ((fun b => b ⊕ (0x5c ⊕ 0x36)) ∘ (fun b => b ⊕ 0x5c) <$> block_key key = (fun b => b ⊕ 0x36) <$> block_key key) as ->.
  { apply list_fmap_ext. intros _ b _. cbn. rewrite Z.lxor_assoc. f_equal. }
  rewrite (finalize_digest bs Transform Initialize size_bytes out size_len Hbs Hdiv Hsize Hroom (((fun b => b ⊕ 0x36) <$> block_key key) ++ concat ds) (fold_left Write ds (Write (hasher_new Initialize buf3) ((fun b => b ⊕ 0x36) <$> block_key key)))) by (by apply (hashing_writes bs Transform Initialize Hbs Hdiv), (hashing_write bs Transform Initialize Hbs Hdiv []), hashing_new).
  apply (finalize_digest bs Transform Initialize size_bytes out size_len Hbs Hdiv Hsize Hroom). apply (hashing_write bs Transform Initialize Hbs Hdiv). by apply (hashing_write bs Transform Initialize Hbs Hdiv []), hashing_new.
Qed.

End Hmac.
