(* ===== verification/Rounds.v ===== *)
(** * Unrolled rounds

    The block functions of [crypto/] are written as a sequence of calls of one round
    function in which the names of the registers rotate from call to call, and the
    words of the message schedule are kept in sixteen variables that are overwritten
    in turn.  A sequence of calls is a list of [call]s here, one for each line of the
    source; the lemmas reduce it to the usual specification with registers that move
    and a schedule that is expanded beforehand. *)

From Stdlib Require Import ZArith Lia.
From stdpp Require Import base tactics numbers list.
From S2P Require Import Prelude SphTypes.

(** The word of a call: loaded from an offset of the chunk into a variable, or a
    variable that is updated with the values of others. *)
Inductive word_arg :=
  | Load (j off : nat)
  | Next (j : nat) (from : list nat).

Record call (X : Type) := { regs : list nat; aux : X; arg : word_arg }.
Arguments regs {X} _.
Arguments aux {X} _.
Arguments arg {X} _.

(** Which register stands for the [j]-th one in the [i]-th call. *)
Definition names (R i : nat) : list nat := (fun j => (R + j - i mod R) mod R)%nat <$> seq 0 R.

Section Rounds.

Context {X : Type} (R : nat) (Round : list Z -> list nat -> X -> Z -> list Z) (step : list Z -> X -> Z -> list Z).

(** A round on renamed registers is a step on the registers in their order. *)
Definition rotates : Prop := forall i s x w, (i < R)%nat -> length s = R ->
  length (Round s (names R i) x w) = R /\ sel (names R (S i)) (Round s (names R i) x w) = step (sel (names R i) s) x w.

Context (HR : (0 < R)%nat) (Hrot : rotates).

Lemma names_mod i : names R i = names R (i mod R).
Proof using HR. unfold names. by rewrite Nat.Div0.mod_mod. Qed.

Lemma names_0 s : length s = R -> sel (names R 0) s = s.
Proof using HR.
  intros Hl. apply list_eq. intros j. unfold sel, names. rewrite !list_lookup_fmap. destruct (decide (j < R)%nat) as [Hj|Hj].
  - rewrite lookup_seq_lt by done. cbn. rewrite Nat.Div0.mod_0_l, Nat.sub_0_r, Nat.Div0.add_mod, Nat.Div0.mod_same, Nat.add_0_l, Nat.Div0.mod_mod, Nat.mod_small by done. symmetry. destruct (lookup_lt_is_Some_2 s j) as [v Hv]; [lia|]. by rewrite Hv, (nth_lookup_Some _ _ _ _ Hv).
  - rewrite lookup_seq_ge by lia. cbn. symmetry. apply lookup_ge_None. lia.
Qed.

Lemma round_step i s x w : length s = R -> length (Round s (names R i) x w) = R /\ sel (names R (S i)) (Round s (names R i) x w) = step (sel (names R i) s) x w.
Proof using HR Hrot.
  intros Hl. rewrite (names_mod i), (names_mod (S i)). destruct (Hrot (i mod R)%nat s x w) as [H1 H2]; [apply Nat.mod_upper_bound; lia|done|]. split; [done|]. rewrite <- H2. f_equal.
  rewrite (names_mod (S (i mod R)%nat)). f_equal. rewrite <- (Nat.add_1_r i), <- (Nat.add_1_r (i mod R)%nat). symmetry. apply Nat.Div0.add_mod_idemp_l.
Qed.

(** Rounds whose words are known. *)
Lemma rounds_fold (l : list (X * Z)) i s : length s = R ->
  let s' := fold_left (fun s '(i, (x, w)) => Round s (names R i) x w) (imap (fun j xw => ((i + j)%nat, xw)) l) s in
  length s' = R /\ sel (names R (i + length l)) s' = fold_left (fun v '(x, w) => step v x w) l (sel (names R i) s).
Proof using HR Hrot.
  revert i s. induction l as [|[x w] l IH]; intros i s Hs; [cbn; by rewrite Nat.add_0_r|].
  destruct (round_step i s x w Hs) as [H1 H2]. destruct (IH (S i) (Round s (names R i) x w) H1) as [H3 H4]. rewrite imap_cons. cbn [fold_left length]. rewrite !Nat.add_0_r.
  assert (imap ((fun j xw => ((i + j)%nat, xw)) ∘ S) l = imap (fun j xw => ((S i + j)%nat, xw)) l) as -> by (apply imap_ext; intros; cbn; f_equal; lia).
  split; [done|]. replace (i + S (length l))%nat with (S i + length l)%nat by lia. etransitivity; [exact H4|]. by rewrite H2.
Qed.

(** ** With a schedule *)

Context (read : list Z -> Z) (next : Z -> list Z -> Z) (wb : nat) (offs : list nat) (Hoffs : Forall (fun o => (o < 16)%nat) offs).

Definition exec_call (chunk : list Z) (st : list Z * list Z) (c : call X) : list Z * list Z :=
  let '(s, w) := st in
  match arg c with
  | Load j off => let x := read (drop off chunk) in (Round s (regs c) (aux c) x, <[j := x]> w)
  | Next j from => let x := next (w.[j]) (sel from w) in (Round s (regs c) (aux c) x, <[j := x]> w)
  end.

(** The regular pattern of the calls. *)
Definition call_at (i : nat) (x : X) : call X := {|
  regs := names R i; aux := x;
  arg := if (i <? 16)%nat then Load i (wb * i) else Next (i mod 16) ((fun o => (i + o) mod 16)%nat <$> offs) |}.

(** The schedule: sixteen words of the block and further ones from the last sixteen. *)
Definition block_words (chunk : list Z) : list Z := (fun i => read (drop (wb * i) chunk)) <$> seq 0 16.
Definition extend (W : list Z) : list Z := let t := length W in W ++ [next (W.[t - 16]) ((fun o => W.[t - 16 + o]) <$> offs)].
Definition schedule (n : nat) (chunk : list Z) : list Z := Nat.iter (n - 16) extend (block_words chunk).

Lemma schedule_spec n m : length m = 16%nat -> let W := Nat.iter n extend m in length W = (16 + n)%nat /\
  (forall i, (i < 16)%nat -> W.[i] = m.[i]) /\ (forall i, (16 <= i < 16 + n)%nat -> W.[i] = next (W.[i - 16]) ((fun o => W.[i - 16 + o]) <$> offs)).
Proof using Hoffs HR.
  intros Hm. induction n as [|n IH]; [split; [done|]; split; [done|]; intros; lia|]. destruct IH as (Hl & H1 & H2). set (W := Nat.iter n extend m) in *. change (Nat.iter (S n) extend m) with (extend W). cbv zeta. unfold extend. rewrite Hl.
  split; [rewrite length_app, Hl; cbn; lia|]. assert (forall k y, (k < 16 + n)%nat -> (W ++ [y]).[k] = W.[k]) as Hap by (intros; rewrite app_nth1 by lia; done).
  split; [intros i Hi; rewrite Hap by lia; by apply H1|]. intros i Hi.
  assert (forall y, ((fun o => (W ++ [y]).[i - 16 + o]) <$> offs) = (fun o => W.[i - 16 + o]) <$> offs) as He. { intros y. apply list_fmap_ext. intros k o Ho. apply Hap. eapply Forall_lookup_1 in Ho; [|exact Hoffs]. cbn in Ho. lia. }
  rewrite He, (Hap (i - 16)%nat) by lia. destruct (decide (i = 16 + n)%nat) as [->|Hn]; [|rewrite Hap by lia; apply H2; lia].
  rewrite app_nth2, Hl, Nat.sub_diag by lia. done.
Qed.

Lemma calls_sim chunk (A : list X) s w0 : length s = R -> length w0 = 16%nat -> (16 <= length A)%nat ->
  let W := schedule (length A) chunk in forall i, (i <= length A)%nat ->
  let st := fold_left (exec_call chunk) (take i (imap call_at A)) (s, w0) in
  length st.1 = R /\ length st.2 = 16%nat /\ sel (names R i) st.1 = fold_left (fun v '(x, w) => step v x w) (take i (zip A W)) s /\
  (forall j, (j < i)%nat -> (i <= j + 16)%nat -> st.2.[(j mod 16)%nat] = W.[j]).
Proof using HR Hrot Hoffs.
  intros Hs Hw HA W. destruct (schedule_spec (length A - 16) (block_words chunk)) as (Hl & H1 & H2); [by unfold block_words; rewrite length_fmap, length_seq|]. fold W in Hl, H1, H2. fold (schedule (length A) chunk) in Hl, H1, H2. fold W in Hl, H1, H2.
  induction i as [|i IH]; intros Hi st.
  - split; [done|]. split; [done|]. split; [cbn; by apply names_0|]. intros; lia.
  - destruct IH as (I1 & I2 & I3 & I4); [lia|]. destruct (lookup_lt_is_Some_2 A i) as [x Hx]; [lia|]. destruct (lookup_lt_is_Some_2 W i) as [y Hy]; [lia|]. pose proof (nth_lookup_Some _ _ 0 _ Hy) as Hny.
    assert (imap call_at A !! i = Some (call_at i x)) as Hc by (by rewrite list_lookup_imap, Hx). assert (zip A W !! i = Some (x, y)) as Hz by (by rewrite lookup_zip_with, Hx, Hy).
    unfold st. clear st. rewrite (take_S_r _ _ _ Hc), fold_left_app, (take_S_r _ _ _ Hz), fold_left_app. destruct (fold_left (exec_call chunk) (take i (imap call_at A)) (s, w0)) as [s1 w1]. cbn [fst snd fold_left] in *.
    destruct (round_step i s1 x y I1) as [R1 R2]. rewrite I3 in R2.
    assert (exec_call chunk (s1, w1) (call_at i x) = (Round s1 (names R i) x y, <[(i mod 16)%nat := y]> w1)) as ->.
    { unfold exec_call, call_at. cbn [arg regs aux]. destruct (Nat.ltb_spec i 16) as [Hlt|Hge].
      - assert (read (drop (wb * i) chunk) = y) as ->; [|by rewrite Nat.mod_small by lia]. rewrite <- Hny, H1 by done. unfold block_words. symmetry. apply nth_lookup_Some. rewrite list_lookup_fmap, lookup_seq_lt by done. done.
      - assert (next w1.[(i mod 16)%nat] (sel ((fun o => (i + o) mod 16)%nat <$> offs) w1) = y) as ->; [|done]. rewrite <- Hny, H2 by lia.
        assert (forall k, (k < 16)%nat -> w1.[((i + k) mod 16)%nat] = W.[(i - 16 + k)%nat]) as Hk. { intros k Hk. rewrite <- I4 by lia. f_equal. replace (i + k)%nat with (i - 16 + k + 1 * 16)%nat by lia. apply Nat.Div0.mod_add. }
        f_equal; [pose proof (Hk O ltac:(lia)) as E; by rewrite !Nat.add_0_r in E|]. unfold sel. rewrite <- list_fmap_compose. apply list_fmap_ext. intros j o Ho. cbn. apply Hk. by eapply Forall_lookup_1 in Ho; [|exact Hoffs]. }
    cbn [fst snd]. split; [done|]. split; [by rewrite length_insert|]. split; [done|]. intros j Hj1 Hj2. rewrite nth_insert by (rewrite I2; apply Nat.mod_upper_bound; lia).
    destruct (decide (j = i)) as [->|Hne]; [by rewrite decide_True|]. rewrite decide_False; [apply I4; lia|]. intros E. pose proof (Nat.div_mod_eq i 16). pose proof (Nat.div_mod_eq j 16). lia.
Qed.

(** All calls, when their number is a multiple of the number of registers. *)
Lemma calls_spec chunk (A : list X) s w0 : length s = R -> length w0 = 16%nat -> (16 <= length A)%nat -> (length A mod R = 0)%nat ->
  (fold_left (exec_call chunk) (imap call_at A) (s, w0)).1 = fold_left (fun v '(x, w) => step v x w) (zip A (schedule (length A) chunk)) s.
Proof using HR Hrot Hoffs.
  intros Hs Hw HA Hm. pose proof (calls_sim chunk A s w0 Hs Hw HA (length A) ltac:(lia)) as (H1 & _ & H3 & _). rewrite (take_ge (imap call_at A)) in H1, H3 by (rewrite length_imap; lia).
  rewrite names_mod, Hm, names_0 in H3 by done. rewrite H3, take_ge; [done|]. rewrite length_zip_with. lia.
Qed.

End Rounds.

Lemma schedule_ext read next1 next2 wb offs n chunk : (forall x l, next1 x l = next2 x l) -> schedule read next1 wb offs n chunk = schedule read next2 wb offs n chunk.
Proof.
  intros H. unfold schedule. induction (n - 16)%nat as [|k IH]; [done|]. change (extend next1 offs (Nat.iter k (extend next1 offs) (block_words read wb chunk)) = extend next2 offs (Nat.iter k (extend next2 offs) (block_words read wb chunk))).
  rewrite IH. unfold extend. by rewrite H.
Qed.

(** Numbering a list that is given by the numbers. *)
Lemma imap_numbers {A} (f : nat -> A) i n : imap (fun j x => ((i + j)%nat, x)) (f <$> seq i n) = (fun j => (j, f j)) <$> seq i n.
Proof.
  revert i. induction n as [|n IH]; intros i; [done|]. cbn [seq]. rewrite !fmap_cons, imap_cons, Nat.add_0_r, <- IH. f_equal. apply imap_ext. intros; cbn; f_equal; lia.
Qed.
