(* ===== verification/Sha2.v ===== *)
(** * crypto/sha256.cpp, crypto/sha512.cpp

    The block functions of [CSHA256] and [CSHA512], call by call, and the classes as
    instances of [Hasher].  The specification is that of FIPS 180-4, with the
    constants computed from the roots of the first primes; the keyed hashes of
    [hmac_sha256.cpp] and [hmac_sha512.cpp] follow. *)

From Stdlib Require Import ZArith Lia Btauto.
From stdpp Require Import base tactics numbers list.
From S2P Require Import Prelude SphTypes Stream Hasher Rounds.

(** ** FIPS 180-4 *)

(** Integer roots, bit by bit from the top. *)
Definition root (power n : Z) : Z :=
  fold_left (fun q i => let q' := q + 2 ^ Z.of_nat i in if q' ^ power <=? n then q' else q) (rev (seq 0 80)) 0.
(** The first [w] bits of the fractional part of a root. *)
Definition fraction (power w n : Z) : Z := root power (n * 2 ^ (power * w)) mod 2 ^ w.

Definition is_prime (n : nat) : bool := forallb (fun d => negb (n mod d =? 0)%nat) (seq 2 (n - 2)).
Definition primes : list Z := Z.of_nat <$> List.filter is_prime (seq 2 408).

Section Fips.
Context (w : Z) (S0 S1 s0 s1 : Z -> Z).

Definition fips_Ch (x y z : Z) : Z := (x .& y) ⊕ (Z.lnot x .& z).
Definition fips_Maj (x y z : Z) : Z := (x .& y) ⊕ (x .& z) ⊕ (y .& z).

Definition fips_step (v : list Z) (K W : Z) : list Z :=
  match v with
  | [a; b; c; d; e; f; g; h] =>
      let T1 := (h + S1 e + fips_Ch e f g + K + W) mod 2 ^ w in
      let T2 := (S0 a + fips_Maj a b c) mod 2 ^ w in
      [(T1 + T2) mod 2 ^ w; a; b; c; (d + T1) mod 2 ^ w; e; f; g]
  | _ => v
  end.

(** [W_t] from [W_(t-16)] and from [W_(t-2)], [W_(t-7)], [W_(t-15)] *)
Definition fips_next (x : Z) (l : list Z) : Z := (s1 l.[0] + l.[1] + s0 l.[2] + x) mod 2 ^ w.

Definition fips_compress (read : list Z -> Z) (wb : nat) (Ks s chunk : list Z) : list Z :=
  let W := schedule read fips_next wb [14; 9; 1]%nat (length Ks) chunk in
  zip_with (fun x y => (x + y) mod 2 ^ w) s (fold_left (fun v '(K, x) => fips_step v K x) (zip Ks W) s).
End Fips.

(** ** Common parts of the code *)

Definition Ch (x y z : Z) : Z := z ⊕ (x .& (y ⊕ z)).
Definition Maj (x y z : Z) : Z := (x .& y) .| (z .& (x .| y)).

Lemma Ch_fips x y z : Ch x y z = fips_Ch x y z.
Proof. unfold Ch, fips_Ch. bits_intro i Hi. rewrite !Z.lxor_spec, !Z.land_spec, Z.lxor_spec, Z.lnot_spec by lia. btauto. Qed.
Lemma Maj_fips x y z : Maj x y z = fips_Maj x y z.
Proof. unfold Maj, fips_Maj. bits_intro i Hi. rewrite !Z.lxor_spec, !Z.lor_spec, !Z.land_spec, Z.lor_spec. btauto. Qed.

Definition at_ {X} (p : list nat) (x : X) (a : word_arg) : call X := {| regs := p; aux := x; arg := a |}.

Section Sha2.
Context (T : Z -> Z) (w : Z) (HT : forall x, T x = x mod 2 ^ w) (S0 S1 s0 s1 : Z -> Z).

(** [Round(a, b, c, d, e, f, g, h, k, w)], the parameters being positions *)
Definition sha2_Round (s : list Z) (p : list nat) (k x : Z) : list Z :=
  match p with
  | [a; b; c; d; e; f; g; h] =>
      let t1 := T (s.[h] + S1 s.[e] + Ch s.[e] s.[f] s.[g] + k + x) in
      let t2 := T (S0 s.[a] + Maj s.[a] s.[b] s.[c]) in
      <[h := T (t1 + t2)]> (<[d := T (s.[d] + t1)]> s)
  | _ => s
  end.

(** [w0 += sigma1(w14) + w9 + sigma0(w1)] *)
Definition sha2_next (x : Z) (l : list Z) : Z := T (x + (s1 l.[0] + l.[1] + s0 l.[2])).

Definition sha2_Transform (read : list Z -> Z) (calls : list (call Z)) (s chunk : list Z) : list Z :=
  zip_with (fun x y => T (x + y)) s (fold_left (exec_call sha2_Round read sha2_next chunk) calls (s, replicate 16 0)).1.

Lemma sha2_rotates : rotates 8 sha2_Round (fips_step w S0 S1).
Proof using HT.
  intros i s k x Hi Hs. do 8 (destruct s as [|? s]; [done|]). destruct s; [|done].
  do 8 (destruct i as [|i]; [split; [reflexivity|]; vm_compute names; cbn [sel fmap list_fmap nth sha2_Round insert list_insert fips_step]; rewrite !HT, Ch_fips, Maj_fips; reflexivity|]). lia.
Qed.

Lemma sha2_transform read wb calls Ks s chunk : length s = 8%nat -> calls = imap (call_at 8 wb [14; 9; 1]%nat) Ks -> (16 <= length Ks)%nat -> (length Ks mod 8 = 0)%nat ->
  sha2_Transform read calls s chunk = fips_compress w S0 S1 s0 s1 read wb Ks s chunk.
Proof using HT.
  intros Hs -> H1 H2. unfold sha2_Transform, fips_compress. assert (forall x l, sha2_next x l = fips_next w s0 s1 x l) as Hn by (intros; unfold sha2_next, fips_next; rewrite HT; f_equal; lia).
  rewrite (calls_spec 8 sha2_Round (fips_step w S0 S1)); [|lia|apply sha2_rotates|repeat constructor; lia|done|done|done|done].
  rewrite (schedule_ext read sha2_next (fips_next w s0 s1)) by done. apply zip_with_ext; [intros; apply HT|done|done].
Qed.

End Sha2.

Lemma fips_step_ext w S0 S1 S0' S1' v K x : (forall y, S0 y = S0' y) -> (forall y, S1 y = S1' y) -> fips_step w S0 S1 v K x = fips_step w S0' S1' v K x.
Proof. intros H0 H1. do 8 (destruct v as [|? v]; [done|]). destruct v; [|done]. cbn [fips_step]. by rewrite H0, H1. Qed.
Lemma fips_step_length w S0 S1 v K x : length v = 8%nat -> length (fips_step w S0 S1 v K x) = 8%nat.
Proof. intros H. do 8 (destruct v as [|? v]; [done|]). by destruct v. Qed.

Lemma fips_compress_length w S0 S1 s0 s1 read wb Ks s chunk : length s = 8%nat -> length (fips_compress w S0 S1 s0 s1 read wb Ks s chunk) = 8%nat.
Proof.
  intros Hs. unfold fips_compress. rewrite length_zip_with. assert (forall l v, length v = 8%nat -> length (fold_left (fun v '(K, x) => fips_step w S0 S1 v K x) l v) = 8%nat) as H.
  { induction l as [|[K x] l IH]; intros v Hv; [done|]. by apply IH, fips_step_length. }
  rewrite H, Hs; done.
Qed.

(** Two block functions that agree on states of eight words. *)
Lemma fold_blocks (f g : list Z -> list Z -> list Z) n l s : (forall s c, length s = n -> f s c = g s c) -> (forall s c, length s = n -> length (g s c) = n) -> length s = n ->
  fold_left f l s = fold_left g l s /\ length (fold_left g l s) = n.
Proof. intros Hf Hg. revert s. induction l as [|c l IH]; intros s Hs; [done|]. cbn [fold_left]. rewrite Hf by done. by apply IH, Hg. Qed.

Lemma bytes_out (enc : Z -> list Z) k l : (forall x, length (enc x) = k /\ words 8 (enc x)) -> length (concat (enc <$> l)) = (k * length l)%nat /\ words 8 (concat (enc <$> l)).
Proof.
  intros H. induction l as [|x l [IH1 IH2]]; [split; [cbn; lia|constructor]|]. rewrite fmap_cons. cbn [concat length]. destruct (H x) as [H1 H2]. rewrite length_app, H1, IH1. split; [lia|]. by apply Forall_app.
Qed.

Lemma bit_length len : Z.of_nat len < 2 ^ 61 -> SPH_T64 (8 * Z.of_nat len) = 8 * Z.of_nat len.
Proof. intros H. apply T64_id. split; lia. Qed.

Lemma enc32be_ok x : length (sph_enc32be x) = 4%nat /\ words 8 (sph_enc32be x).
Proof. split; [done|]. apply sph_enc32be_words. Qed.
Lemma enc64be_ok x : length (sph_enc64be x) = 8%nat /\ words 8 (sph_enc64be x).
Proof. split; [done|]. apply sph_enc64be_words. Qed.

(** ** SHA-256 *)

Module Sha256.

Definition Sigma0 (x : Z) : Z := SPH_T32 ((x >> 2) .| (x << 30)) ⊕ SPH_T32 ((x >> 13) .| (x << 19)) ⊕ SPH_T32 ((x >> 22) .| (x << 10)).
Definition Sigma1 (x : Z) : Z := SPH_T32 ((x >> 6) .| (x << 26)) ⊕ SPH_T32 ((x >> 11) .| (x << 21)) ⊕ SPH_T32 ((x >> 25) .| (x << 7)).
Definition sigma0 (x : Z) : Z := SPH_T32 ((x >> 7) .| (x << 25)) ⊕ SPH_T32 ((x >> 18) .| (x << 14)) ⊕ (x >> 3).
Definition sigma1 (x : Z) : Z := SPH_T32 ((x >> 17) .| (x << 15)) ⊕ SPH_T32 ((x >> 19) .| (x << 13)) ⊕ (x >> 10).

Definition Initialize : list Z :=
  [0x6a09e667; 0xbb67ae85; 0x3c6ef372; 0xa54ff53a; 0x510e527f; 0x9b05688c; 0x1f83d9ab; 0x5be0cd19].

Definition calls : list (call Z) := [
  at_ [0; 1; 2; 3; 4; 5; 6; 7]%nat 0x428a2f98 (Load 0 0);
  at_ [7; 0; 1; 2; 3; 4; 5; 6]%nat 0x71374491 (Load 1 4);
  at_ [6; 7; 0; 1; 2; 3; 4; 5]%nat 0xb5c0fbcf (Load 2 8);
  at_ [5; 6; 7; 0; 1; 2; 3; 4]%nat 0xe9b5dba5 (Load 3 12);
  at_ [4; 5; 6; 7; 0; 1; 2; 3]%nat 0x3956c25b (Load 4 16);
  at_ [3; 4; 5; 6; 7; 0; 1; 2]%nat 0x59f111f1 (Load 5 20);
  at_ [2; 3; 4; 5; 6; 7; 0; 1]%nat 0x923f82a4 (Load 6 24);
  at_ [1; 2; 3; 4; 5; 6; 7; 0]%nat 0xab1c5ed5 (Load 7 28);
  at_ [0; 1; 2; 3; 4; 5; 6; 7]%nat 0xd807aa98 (Load 8 32);
  at_ [7; 0; 1; 2; 3; 4; 5; 6]%nat 0x12835b01 (Load 9 36);
  at_ [6; 7; 0; 1; 2; 3; 4; 5]%nat 0x243185be (Load 10 40);
  at_ [5; 6; 7; 0; 1; 2; 3; 4]%nat 0x550c7dc3 (Load 11 44);
  at_ [4; 5; 6; 7; 0; 1; 2; 3]%nat 0x72be5d74 (Load 12 48);
  at_ [3; 4; 5; 6; 7; 0; 1; 2]%nat 0x80deb1fe (Load 13 52);
  at_ [2; 3; 4; 5; 6; 7; 0; 1]%nat 0x9bdc06a7 (Load 14 56);
  at_ [1; 2; 3; 4; 5; 6; 7; 0]%nat 0xc19bf174 (Load 15 60);
  at_ [0; 1; 2; 3; 4; 5; 6; 7]%nat 0xe49b69c1 (Next 0 [14; 9; 1]%nat);
  at_ [7; 0; 1; 2; 3; 4; 5; 6]%nat 0xefbe4786 (Next 1 [15; 10; 2]%nat);
  at_ [6; 7; 0; 1; 2; 3; 4; 5]%nat 0x0fc19dc6 (Next 2 [0; 11; 3]%nat);
  at_ [5; 6; 7; 0; 1; 2; 3; 4]%nat 0x240ca1cc (Next 3 [1; 12; 4]%nat);
  at_ [4; 5; 6; 7; 0; 1; 2; 3]%nat 0x2de92c6f (Next 4 [2; 13; 5]%nat);
  at_ [3; 4; 5; 6; 7; 0; 1; 2]%nat 0x4a7484aa (Next 5 [3; 14; 6]%nat);
  at_ [2; 3; 4; 5; 6; 7; 0; 1]%nat 0x5cb0a9dc (Next 6 [4; 15; 7]%nat);
  at_ [1; 2; 3; 4; 5; 6; 7; 0]%nat 0x76f988da (Next 7 [5; 0; 8]%nat);
  at_ [0; 1; 2; 3; 4; 5; 6; 7]%nat 0x983e5152 (Next 8 [6; 1; 9]%nat);
  at_ [7; 0; 1; 2; 3; 4; 5; 6]%nat 0xa831c66d (Next 9 [7; 2; 10]%nat);
  at_ [6; 7; 0; 1; 2; 3; 4; 5]%nat 0xb00327c8 (Next 10 [8; 3; 11]%nat);
  at_ [5; 6; 7; 0; 1; 2; 3; 4]%nat 0xbf597fc7 (Next 11 [9; 4; 12]%nat);
  at_ [4; 5; 6; 7; 0; 1; 2; 3]%nat 0xc6e00bf3 (Next 12 [10; 5; 13]%nat);
  at_ [3; 4; 5; 6; 7; 0; 1; 2]%nat 0xd5a79147 (Next 13 [11; 6; 14]%nat);
  at_ [2; 3; 4; 5; 6; 7; 0; 1]%nat 0x06ca6351 (Next 14 [12; 7; 15]%nat);
  at_ [1; 2; 3; 4; 5; 6; 7; 0]%nat 0x14292967 (Next 15 [13; 8; 0]%nat);
  at_ [0; 1; 2; 3; 4; 5; 6; 7]%nat 0x27b70a85 (Next 0 [14; 9; 1]%nat);
  at_ [7; 0; 1; 2; 3; 4; 5; 6]%nat 0x2e1b2138 (Next 1 [15; 10; 2]%nat);
  at_ [6; 7; 0; 1; 2; 3; 4; 5]%nat 0x4d2c6dfc (Next 2 [0; 11; 3]%nat);
  at_ [5; 6; 7; 0; 1; 2; 3; 4]%nat 0x53380d13 (Next 3 [1; 12; 4]%nat);
  at_ [4; 5; 6; 7; 0; 1; 2; 3]%nat 0x650a7354 (Next 4 [2; 13; 5]%nat);
  at_ [3; 4; 5; 6; 7; 0; 1; 2]%nat 0x766a0abb (Next 5 [3; 14; 6]%nat);
  at_ [2; 3; 4; 5; 6; 7; 0; 1]%nat 0x81c2c92e (Next 6 [4; 15; 7]%nat);
  at_ [1; 2; 3; 4; 5; 6; 7; 0]%nat 0x92722c85 (Next 7 [5; 0; 8]%nat);
  at_ [0; 1; 2; 3; 4; 5; 6; 7]%nat 0xa2bfe8a1 (Next 8 [6; 1; 9]%nat);
  at_ [7; 0; 1; 2; 3; 4; 5; 6]%nat 0xa81a664b (Next 9 [7; 2; 10]%nat);
  at_ [6; 7; 0; 1; 2; 3; 4; 5]%nat 0xc24b8b70 (Next 10 [8; 3; 11]%nat);
  at_ [5; 6; 7; 0; 1; 2; 3; 4]%nat 0xc76c51a3 (Next 11 [9; 4; 12]%nat);
  at_ [4; 5; 6; 7; 0; 1; 2; 3]%nat 0xd192e819 (Next 12 [10; 5; 13]%nat);
  at_ [3; 4; 5; 6; 7; 0; 1; 2]%nat 0xd6990624 (Next 13 [11; 6; 14]%nat);
  at_ [2; 3; 4; 5; 6; 7; 0; 1]%nat 0xf40e3585 (Next 14 [12; 7; 15]%nat);
  at_ [1; 2; 3; 4; 5; 6; 7; 0]%nat 0x106aa070 (Next 15 [13; 8; 0]%nat);
  at_ [0; 1; 2; 3; 4; 5; 6; 7]%nat 0x19a4c116 (Next 0 [14; 9; 1]%nat);
  at_ [7; 0; 1; 2; 3; 4; 5; 6]%nat 0x1e376c08 (Next 1 [15; 10; 2]%nat);
  at_ [6; 7; 0; 1; 2; 3; 4; 5]%nat 0x2748774c (Next 2 [0; 11; 3]%nat);
  at_ [5; 6; 7; 0; 1; 2; 3; 4]%nat 0x34b0bcb5 (Next 3 [1; 12; 4]%nat);
  at_ [4; 5; 6; 7; 0; 1; 2; 3]%nat 0x391c0cb3 (Next 4 [2; 13; 5]%nat);
  at_ [3; 4; 5; 6; 7; 0; 1; 2]%nat 0x4ed8aa4a (Next 5 [3; 14; 6]%nat);
  at_ [2; 3; 4; 5; 6; 7; 0; 1]%nat 0x5b9cca4f (Next 6 [4; 15; 7]%nat);
  at_ [1; 2; 3; 4; 5; 6; 7; 0]%nat 0x682e6ff3 (Next 7 [5; 0; 8]%nat);
  at_ [0; 1; 2; 3; 4; 5; 6; 7]%nat 0x748f82ee (Next 8 [6; 1; 9]%nat);
  at_ [7; 0; 1; 2; 3; 4; 5; 6]%nat 0x78a5636f (Next 9 [7; 2; 10]%nat);
  at_ [6; 7; 0; 1; 2; 3; 4; 5]%nat 0x84c87814 (Next 10 [8; 3; 11]%nat);
  at_ [5; 6; 7; 0; 1; 2; 3; 4]%nat 0x8cc70208 (Next 11 [9; 4; 12]%nat);
  at_ [4; 5; 6; 7; 0; 1; 2; 3]%nat 0x90befffa (Next 12 [10; 5; 13]%nat);
  at_ [3; 4; 5; 6; 7; 0; 1; 2]%nat 0xa4506ceb (Next 13 [11; 6; 14]%nat);
  at_ [2; 3; 4; 5; 6; 7; 0; 1]%nat 0xbef9a3f7 (Next 14 [12; 7; 15]%nat);
  at_ [1; 2; 3; 4; 5; 6; 7; 0]%nat 0xc67178f2 (Next 15 [13; 8; 0]%nat)].

Definition ReadBE32 (ptr : list Z) : Z := sph_dec32be ptr.
Definition WriteBE32 (x : Z) : list Z := sph_enc32be x.
Definition WriteBE64 (x : Z) : list Z := sph_enc64be x.
Definition Transform (s chunk : list Z) : list Z := sha2_Transform SPH_T32 Sigma0 Sigma1 sigma0 sigma1 ReadBE32 calls s chunk.

(** [CSHA256] *)
Definition hasher_init (buf : list Z) : hasher := hasher_new Initialize buf.
Definition Write : hasher -> list Z -> hasher := Hasher.Write 64 Transform.
Definition Finalize : hasher -> list Z := Hasher.Finalize 64 Transform WriteBE64 (fun s => concat (WriteBE32 <$> s)) 8.

(** *** Specification *)

Definition fips_Sigma0 (x : Z) : Z := SPH_ROTR32 x 2 ⊕ SPH_ROTR32 x 13 ⊕ SPH_ROTR32 x 22.
Definition fips_Sigma1 (x : Z) : Z := SPH_ROTR32 x 6 ⊕ SPH_ROTR32 x 11 ⊕ SPH_ROTR32 x 25.
Definition fips_sigma0 (x : Z) : Z := SPH_ROTR32 x 7 ⊕ SPH_ROTR32 x 18 ⊕ (x >> 3).
Definition fips_sigma1 (x : Z) : Z := SPH_ROTR32 x 17 ⊕ SPH_ROTR32 x 19 ⊕ (x >> 10).
Definition K : list Z := fraction 3 32 <$> take 64 primes.
Definition H0 : list Z := fraction 2 32 <$> take 8 primes.

Definition compress : list Z -> list Z -> list Z := fips_compress 32 fips_Sigma0 fips_Sigma1 fips_sigma0 fips_sigma1 sph_dec32be 4 K.

(** The padded message, the blocks, the digest.  The length field has 64 bits. *)
Definition sha256 (msg : list Z) : list Z :=
  let M := msg ++ md_pad 64 (length msg mod 64) 0x80 (sph_enc64be (8 * Z.of_nat (length msg))) in
  concat (sph_enc32be <$> fold_left compress (blocks 64 M) H0).

Lemma sha256_constants : calls = imap (call_at 8 4 [14; 9; 1]%nat) K /\ Initialize = H0 /\ length K = 64%nat /\ length H0 = 8%nat.
Proof. by vm_compute. Qed.

Lemma sha256_sigmas x : Sigma0 x = fips_Sigma0 x /\ Sigma1 x = fips_Sigma1 x /\ sigma0 x = fips_sigma0 x /\ sigma1 x = fips_sigma1 x.
Proof. unfold Sigma0, Sigma1, sigma0, sigma1. rewrite !(Z.lor_comm (x >> _)). done. Qed.

Lemma sha256_transform s chunk : length s = 8%nat -> Transform s chunk = compress s chunk.
Proof.
  intros Hs. destruct sha256_constants as (Hc & _ & HK & _). unfold Transform. rewrite (sha2_transform SPH_T32 32 T32_mod Sigma0 Sigma1 sigma0 sigma1 ReadBE32 4 calls K); [|done|done|rewrite HK; lia|by rewrite HK].
  unfold compress, fips_compress. refine (f_equal (zip_with (fun x y => (x + y) mod 2 ^ 32) s) _). rewrite (schedule_ext _ (fips_next 32 sigma0 sigma1) (fips_next 32 fips_sigma0 fips_sigma1)) by (intros x l; unfold fips_next; by rewrite (proj1 (proj2 (proj2 (sha256_sigmas _)))), (proj2 (proj2 (proj2 (sha256_sigmas _))))).
  apply fold_left_ext. intros v [k x] _. apply fips_step_ext; intros y; [exact (proj1 (sha256_sigmas y))|exact (proj1 (proj2 (sha256_sigmas y)))].
Qed.

Lemma sha256_finalize buf ds : length buf = 64%nat -> Finalize (fold_left Write ds (hasher_init buf)) = digest 64 Transform Initialize WriteBE64 (fun s => concat (WriteBE32 <$> s)) (concat ds).
Proof. intros Hb. apply hasher_digest; [lia|by vm_compute|done|lia|done]. Qed.

Lemma sha256_blocks l : fold_left Transform l Initialize = fold_left compress l H0 /\ length (fold_left compress l H0) = 8%nat.
Proof. destruct sha256_constants as (_ & -> & _ & HH). apply fold_blocks; [apply sha256_transform|intros; by apply fips_compress_length|done]. Qed.

Lemma sha256_class buf ds : length buf = 64%nat -> Z.of_nat (length (concat ds)) < 2 ^ 61 -> Finalize (fold_left Write ds (hasher_init buf)) = sha256 (concat ds).
Proof. intros Hb Hl. rewrite sha256_finalize by done. unfold digest, padded, sha256. rewrite bit_length by done. by rewrite (proj1 (sha256_blocks _)). Qed.

Lemma sha256_output buf ds : length buf = 64%nat -> words 8 (Finalize (fold_left Write ds (hasher_init buf))) /\ length (Finalize (fold_left Write ds (hasher_init buf))) = 32%nat.
Proof.
  intros Hb. rewrite sha256_finalize by done. unfold digest. rewrite (proj1 (sha256_blocks _)). destruct (bytes_out WriteBE32 4 (fold_left compress (blocks 64 (padded 64 WriteBE64 (concat ds))) H0)) as [H1 H2]; [apply enc32be_ok|].
  split; [done|]. rewrite H1. by rewrite (proj2 (sha256_blocks _)).
Qed.

(** [CHMAC_SHA256] *)
Definition CHMAC (buf1 buf2 buf3 key : list Z) : hmac := hmac_new 64 Transform Initialize WriteBE64 (fun s => concat (WriteBE32 <$> s)) 8 32 buf1 buf2 buf3 key.
Definition CHMAC_Write : hmac -> list Z -> hmac := hmac_Write 64 Transform.
Definition CHMAC_Finalize : hmac -> list Z := hmac_Finalize 64 Transform WriteBE64 (fun s => concat (WriteBE32 <$> s)) 8.

(** RFC 2104 *)
Definition hmac_key (key : list Z) : list Z := if (length key <=? 64)%nat then key ++ replicate (64 - length key) 0 else sha256 key ++ replicate 32 0.
Definition hmac_sha256 (key msg : list Z) : list Z :=
  sha256 (((fun b => b ⊕ 0x5c) <$> hmac_key key) ++ sha256 (((fun b => b ⊕ 0x36) <$> hmac_key key) ++ msg)).

Lemma sha256_digest_small msg : Z.of_nat (length msg) < 2 ^ 61 -> digest 64 Transform Initialize WriteBE64 (fun s => concat (WriteBE32 <$> s)) msg = sha256 msg.
Proof. intros Hl. unfold digest, padded, sha256. rewrite bit_length by done. by rewrite (proj1 (sha256_blocks _)). Qed.

Lemma sha256_length msg : length (sha256 msg) = 32%nat.
Proof. unfold sha256. cbv zeta. rewrite <- (proj1 (sha256_blocks _)). rewrite (proj1 (bytes_out sph_enc32be 4 _ enc32be_ok)). by rewrite (proj1 (sha256_blocks _)), (proj2 (sha256_blocks _)). Qed.

Lemma hmac256_key_length key : length (hmac_key key) = 64%nat.
Proof. unfold hmac_key. destruct (Nat.leb_spec (length key) 64); rewrite length_app, length_replicate; [lia|]. by rewrite sha256_length. Qed.

Lemma sha256_hmac buf1 buf2 buf3 key ds : length buf1 = 64%nat -> length buf2 = 64%nat -> length buf3 = 64%nat -> Z.of_nat (length key) < 2 ^ 61 -> Z.of_nat (length (concat ds)) < 2 ^ 61 - 96 ->
  CHMAC_Finalize (fold_left CHMAC_Write ds (CHMAC buf1 buf2 buf3 key)) = hmac_sha256 key (concat ds).
Proof.
  intros H1 H2 H3 Hk Hl. unfold CHMAC_Finalize, CHMAC_Write, CHMAC. rewrite (hmac_digest 64 Transform Initialize WriteBE64 (fun s => concat (WriteBE32 <$> s)) 8 32) by (lia || by vm_compute || done).
  unfold hmac_spec, hmac_sha256. assert (block_key 64 Transform Initialize WriteBE64 (fun s => concat (WriteBE32 <$> s)) 32 key = hmac_key key) as ->.
  { unfold block_key, hmac_key. by rewrite (sha256_digest_small key). }
  rewrite (sha256_digest_small (_ ++ concat ds)) by (rewrite length_app, length_fmap, hmac256_key_length; lia). apply sha256_digest_small. rewrite length_app, length_fmap, hmac256_key_length, sha256_length. lia.
Qed.

End Sha256.

(** ** SHA-512 *)

Module Sha512.

Definition Sigma0 (x : Z) : Z := SPH_T64 ((x >> 28) .| (x << 36)) ⊕ SPH_T64 ((x >> 34) .| (x << 30)) ⊕ SPH_T64 ((x >> 39) .| (x << 25)).
Definition Sigma1 (x : Z) : Z := SPH_T64 ((x >> 14) .| (x << 50)) ⊕ SPH_T64 ((x >> 18) .| (x << 46)) ⊕ SPH_T64 ((x >> 41) .| (x << 23)).
Definition sigma0 (x : Z) : Z := SPH_T64 ((x >> 1) .| (x << 63)) ⊕ SPH_T64 ((x >> 8) .| (x << 56)) ⊕ (x >> 7).
Definition sigma1 (x : Z) : Z := SPH_T64 ((x >> 19) .| (x << 45)) ⊕ SPH_T64 ((x >> 61) .| (x << 3)) ⊕ (x >> 6).

Definition Initialize : list Z :=
  [0x6a09e667f3bcc908; 0xbb67ae8584caa73b; 0x3c6ef372fe94f82b; 0xa54ff53a5f1d36f1; 0x510e527fade682d1; 0x9b05688c2b3e6c1f; 0x1f83d9abfb41bd6b; 0x5be0cd19137e2179].

Definition calls : list (call Z) := [
  at_ [0; 1; 2; 3; 4; 5; 6; 7]%nat 0x428a2f98d728ae22 (Load 0 0);
  at_ [7; 0; 1; 2; 3; 4; 5; 6]%nat 0x7137449123ef65cd (Load 1 8);
  at_ [6; 7; 0; 1; 2; 3; 4; 5]%nat 0xb5c0fbcfec4d3b2f (Load 2 16);
  at_ [5; 6; 7; 0; 1; 2; 3; 4]%nat 0xe9b5dba58189dbbc (Load 3 24);
  at_ [4; 5; 6; 7; 0; 1; 2; 3]%nat 0x3956c25bf348b538 (Load 4 32);
  at_ [3; 4; 5; 6; 7; 0; 1; 2]%nat 0x59f111f1b605d019 (Load 5 40);
  at_ [2; 3; 4; 5; 6; 7; 0; 1]%nat 0x923f82a4af194f9b (Load 6 48);
  at_ [1; 2; 3; 4; 5; 6; 7; 0]%nat 0xab1c5ed5da6d8118 (Load 7 56);
  at_ [0; 1; 2; 3; 4; 5; 6; 7]%nat 0xd807aa98a3030242 (Load 8 64);
  at_ [7; 0; 1; 2; 3; 4; 5; 6]%nat 0x12835b0145706fbe (Load 9 72);
  at_ [6; 7; 0; 1; 2; 3; 4; 5]%nat 0x243185be4ee4b28c (Load 10 80);
  at_ [5; 6; 7; 0; 1; 2; 3; 4]%nat 0x550c7dc3d5ffb4e2 (Load 11 88);
  at_ [4; 5; 6; 7; 0; 1; 2; 3]%nat 0x72be5d74f27b896f (Load 12 96);
  at_ [3; 4; 5; 6; 7; 0; 1; 2]%nat 0x80deb1fe3b1696b1 (Load 13 104);
  at_ [2; 3; 4; 5; 6; 7; 0; 1]%nat 0x9bdc06a725c71235 (Load 14 112);
  at_ [1; 2; 3; 4; 5; 6; 7; 0]%nat 0xc19bf174cf692694 (Load 15 120);
  at_ [0; 1; 2; 3; 4; 5; 6; 7]%nat 0xe49b69c19ef14ad2 (Next 0 [14; 9; 1]%nat);
  at_ [7; 0; 1; 2; 3; 4; 5; 6]%nat 0xefbe4786384f25e3 (Next 1 [15; 10; 2]%nat);
  at_ [6; 7; 0; 1; 2; 3; 4; 5]%nat 0x0fc19dc68b8cd5b5 (Next 2 [0; 11; 3]%nat);
  at_ [5; 6; 7; 0; 1; 2; 3; 4]%nat 0x240ca1cc77ac9c65 (Next 3 [1; 12; 4]%nat);
  at_ [4; 5; 6; 7; 0; 1; 2; 3]%nat 0x2de92c6f592b0275 (Next 4 [2; 13; 5]%nat);
  at_ [3; 4; 5; 6; 7; 0; 1; 2]%nat 0x4a7484aa6ea6e483 (Next 5 [3; 14; 6]%nat);
  at_ [2; 3; 4; 5; 6; 7; 0; 1]%nat 0x5cb0a9dcbd41fbd4 (Next 6 [4; 15; 7]%nat);
  at_ [1; 2; 3; 4; 5; 6; 7; 0]%nat 0x76f988da831153b5 (Next 7 [5; 0; 8]%nat);
  at_ [0; 1; 2; 3; 4; 5; 6; 7]%nat 0x983e5152ee66dfab (Next 8 [6; 1; 9]%nat);
  at_ [7; 0; 1; 2; 3; 4; 5; 6]%nat 0xa831c66d2db43210 (Next 9 [7; 2; 10]%nat);
  at_ [6; 7; 0; 1; 2; 3; 4; 5]%nat 0xb00327c898fb213f (Next 10 [8; 3; 11]%nat);
  at_ [5; 6; 7; 0; 1; 2; 3; 4]%nat 0xbf597fc7beef0ee4 (Next 11 [9; 4; 12]%nat);
  at_ [4; 5; 6; 7; 0; 1; 2; 3]%nat 0xc6e00bf33da88fc2 (Next 12 [10; 5; 13]%nat);
  at_ [3; 4; 5; 6; 7; 0; 1; 2]%nat 0xd5a79147930aa725 (Next 13 [11; 6; 14]%nat);
  at_ [2; 3; 4; 5; 6; 7; 0; 1]%nat 0x06ca6351e003826f (Next 14 [12; 7; 15]%nat);
  at_ [1; 2; 3; 4; 5; 6; 7; 0]%nat 0x142929670a0e6e70 (Next 15 [13; 8; 0]%nat);
  at_ [0; 1; 2; 3; 4; 5; 6; 7]%nat 0x27b70a8546d22ffc (Next 0 [14; 9; 1]%nat);
  at_ [7; 0; 1; 2; 3; 4; 5; 6]%nat 0x2e1b21385c26c926 (Next 1 [15; 10; 2]%nat);
  at_ [6; 7; 0; 1; 2; 3; 4; 5]%nat 0x4d2c6dfc5ac42aed (Next 2 [0; 11; 3]%nat);
  at_ [5; 6; 7; 0; 1; 2; 3; 4]%nat 0x53380d139d95b3df (Next 3 [1; 12; 4]%nat);
  at_ [4; 5; 6; 7; 0; 1; 2; 3]%nat 0x650a73548baf63de (Next 4 [2; 13; 5]%nat);
  at_ [3; 4; 5; 6; 7; 0; 1; 2]%nat 0x766a0abb3c77b2a8 (Next 5 [3; 14; 6]%nat);
  at_ [2; 3; 4; 5; 6; 7; 0; 1]%nat 0x81c2c92e47edaee6 (Next 6 [4; 15; 7]%nat);
  at_ [1; 2; 3; 4; 5; 6; 7; 0]%nat 0x92722c851482353b (Next 7 [5; 0; 8]%nat);
  at_ [0; 1; 2; 3; 4; 5; 6; 7]%nat 0xa2bfe8a14cf10364 (Next 8 [6; 1; 9]%nat);
  at_ [7; 0; 1; 2; 3; 4; 5; 6]%nat 0xa81a664bbc423001 (Next 9 [7; 2; 10]%nat);
  at_ [6; 7; 0; 1; 2; 3; 4; 5]%nat 0xc24b8b70d0f89791 (Next 10 [8; 3; 11]%nat);
  at_ [5; 6; 7; 0; 1; 2; 3; 4]%nat 0xc76c51a30654be30 (Next 11 [9; 4; 12]%nat);
  at_ [4; 5; 6; 7; 0; 1; 2; 3]%nat 0xd192e819d6ef5218 (Next 12 [10; 5; 13]%nat);
  at_ [3; 4; 5; 6; 7; 0; 1; 2]%nat 0xd69906245565a910 (Next 13 [11; 6; 14]%nat);
  at_ [2; 3; 4; 5; 6; 7; 0; 1]%nat 0xf40e35855771202a (Next 14 [12; 7; 15]%nat);
  at_ [1; 2; 3; 4; 5; 6; 7; 0]%nat 0x106aa07032bbd1b8 (Next 15 [13; 8; 0]%nat);
  at_ [0; 1; 2; 3; 4; 5; 6; 7]%nat 0x19a4c116b8d2d0c8 (Next 0 [14; 9; 1]%nat);
  at_ [7; 0; 1; 2; 3; 4; 5; 6]%nat 0x1e376c085141ab53 (Next 1 [15; 10; 2]%nat);
  at_ [6; 7; 0; 1; 2; 3; 4; 5]%nat 0x2748774cdf8eeb99 (Next 2 [0; 11; 3]%nat);
  at_ [5; 6; 7; 0; 1; 2; 3; 4]%nat 0x34b0bcb5e19b48a8 (Next 3 [1; 12; 4]%nat);
  at_ [4; 5; 6; 7; 0; 1; 2; 3]%nat 0x391c0cb3c5c95a63 (Next 4 [2; 13; 5]%nat);
  at_ [3; 4; 5; 6; 7; 0; 1; 2]%nat 0x4ed8aa4ae3418acb (Next 5 [3; 14; 6]%nat);
  at_ [2; 3; 4; 5; 6; 7; 0; 1]%nat 0x5b9cca4f7763e373 (Next 6 [4; 15; 7]%nat);
  at_ [1; 2; 3; 4; 5; 6; 7; 0]%nat 0x682e6ff3d6b2b8a3 (Next 7 [5; 0; 8]%nat);
  at_ [0; 1; 2; 3; 4; 5; 6; 7]%nat 0x748f82ee5defb2fc (Next 8 [6; 1; 9]%nat);
  at_ [7; 0; 1; 2; 3; 4; 5; 6]%nat 0x78a5636f43172f60 (Next 9 [7; 2; 10]%nat);
  at_ [6; 7; 0; 1; 2; 3; 4; 5]%nat 0x84c87814a1f0ab72 (Next 10 [8; 3; 11]%nat);
  at_ [5; 6; 7; 0; 1; 2; 3; 4]%nat 0x8cc702081a6439ec (Next 11 [9; 4; 12]%nat);
  at_ [4; 5; 6; 7; 0; 1; 2; 3]%nat 0x90befffa23631e28 (Next 12 [10; 5; 13]%nat);
  at_ [3; 4; 5; 6; 7; 0; 1; 2]%nat 0xa4506cebde82bde9 (Next 13 [11; 6; 14]%nat);
  at_ [2; 3; 4; 5; 6; 7; 0; 1]%nat 0xbef9a3f7b2c67915 (Next 14 [12; 7; 15]%nat);
  at_ [1; 2; 3; 4; 5; 6; 7; 0]%nat 0xc67178f2e372532b (Next 15 [13; 8; 0]%nat);
  at_ [0; 1; 2; 3; 4; 5; 6; 7]%nat 0xca273eceea26619c (Next 0 [14; 9; 1]%nat);
  at_ [7; 0; 1; 2; 3; 4; 5; 6]%nat 0xd186b8c721c0c207 (Next 1 [15; 10; 2]%nat);
  at_ [6; 7; 0; 1; 2; 3; 4; 5]%nat 0xeada7dd6cde0eb1e (Next 2 [0; 11; 3]%nat);
  at_ [5; 6; 7; 0; 1; 2; 3; 4]%nat 0xf57d4f7fee6ed178 (Next 3 [1; 12; 4]%nat);
  at_ [4; 5; 6; 7; 0; 1; 2; 3]%nat 0x06f067aa72176fba (Next 4 [2; 13; 5]%nat);
  at_ [3; 4; 5; 6; 7; 0; 1; 2]%nat 0x0a637dc5a2c898a6 (Next 5 [3; 14; 6]%nat);
  at_ [2; 3; 4; 5; 6; 7; 0; 1]%nat 0x113f9804bef90dae (Next 6 [4; 15; 7]%nat);
  at_ [1; 2; 3; 4; 5; 6; 7; 0]%nat 0x1b710b35131c471b (Next 7 [5; 0; 8]%nat);
  at_ [0; 1; 2; 3; 4; 5; 6; 7]%nat 0x28db77f523047d84 (Next 8 [6; 1; 9]%nat);
  at_ [7; 0; 1; 2; 3; 4; 5; 6]%nat 0x32caab7b40c72493 (Next 9 [7; 2; 10]%nat);
  at_ [6; 7; 0; 1; 2; 3; 4; 5]%nat 0x3c9ebe0a15c9bebc (Next 10 [8; 3; 11]%nat);
  at_ [5; 6; 7; 0; 1; 2; 3; 4]%nat 0x431d67c49c100d4c (Next 11 [9; 4; 12]%nat);
  at_ [4; 5; 6; 7; 0; 1; 2; 3]%nat 0x4cc5d4becb3e42b6 (Next 12 [10; 5; 13]%nat);
  at_ [3; 4; 5; 6; 7; 0; 1; 2]%nat 0x597f299cfc657e2a (Next 13 [11; 6; 14]%nat);
  at_ [2; 3; 4; 5; 6; 7; 0; 1]%nat 0x5fcb6fab3ad6faec (Next 14 [12; 7; 15]%nat);
  at_ [1; 2; 3; 4; 5; 6; 7; 0]%nat 0x6c44198c4a475817 (Next 15 [13; 8; 0]%nat)].

Definition ReadBE64 (ptr : list Z) : Z := sph_dec64be ptr.
Definition WriteBE64 (x : Z) : list Z := sph_enc64be x.
Definition Transform (s chunk : list Z) : list Z := sha2_Transform SPH_T64 Sigma0 Sigma1 sigma0 sigma1 ReadBE64 calls s chunk.

(** [CSHA512] *)
Definition hasher_init (buf : list Z) : hasher := hasher_new Initialize buf.
Definition Write : hasher -> list Z -> hasher := Hasher.Write 128 Transform.
Definition Finalize : hasher -> list Z := Hasher.Finalize 128 Transform (fun n => replicate 8 0 ++ WriteBE64 n) (fun s => concat (WriteBE64 <$> s)) 16.

(** *** Specification *)

Definition fips_Sigma0 (x : Z) : Z := SPH_ROTR64 x 28 ⊕ SPH_ROTR64 x 34 ⊕ SPH_ROTR64 x 39.
Definition fips_Sigma1 (x : Z) : Z := SPH_ROTR64 x 14 ⊕ SPH_ROTR64 x 18 ⊕ SPH_ROTR64 x 41.
Definition fips_sigma0 (x : Z) : Z := SPH_ROTR64 x 1 ⊕ SPH_ROTR64 x 8 ⊕ (x >> 7).
Definition fips_sigma1 (x : Z) : Z := SPH_ROTR64 x 19 ⊕ SPH_ROTR64 x 61 ⊕ (x >> 6).
Definition K : list Z := fraction 3 64 <$> take 80 primes.
Definition H0 : list Z := fraction 2 64 <$> take 8 primes.

Definition compress : list Z -> list Z -> list Z := fips_compress 64 fips_Sigma0 fips_Sigma1 fips_sigma0 fips_sigma1 sph_dec64be 8 K.

(** The padded message, the blocks, the digest.  The length field has 128 bits. *)
Definition sha512 (msg : list Z) : list Z :=
  let M := msg ++ md_pad 128 (length msg mod 128) 0x80 (replicate 8 0 ++ sph_enc64be (8 * Z.of_nat (length msg))) in
  concat (sph_enc64be <$> fold_left compress (blocks 128 M) H0).

Lemma sha512_constants : calls = imap (call_at 8 8 [14; 9; 1]%nat) K /\ Initialize = H0 /\ length K = 80%nat /\ length H0 = 8%nat.
Proof. by vm_compute. Qed.

Lemma sha512_sigmas x : Sigma0 x = fips_Sigma0 x /\ Sigma1 x = fips_Sigma1 x /\ sigma0 x = fips_sigma0 x /\ sigma1 x = fips_sigma1 x.
Proof. unfold Sigma0, Sigma1, sigma0, sigma1. rewrite !(Z.lor_comm (x >> _)). done. Qed.

Lemma sha512_transform s chunk : length s = 8%nat -> Transform s chunk = compress s chunk.
Proof.
  intros Hs. destruct sha512_constants as (Hc & _ & HK & _). unfold Transform. rewrite (sha2_transform SPH_T64 64 T64_mod Sigma0 Sigma1 sigma0 sigma1 ReadBE64 8 calls K); [|done|done|rewrite HK; lia|by rewrite HK].
  unfold compress, fips_compress. refine (f_equal (zip_with (fun x y => (x + y) mod 2 ^ 64) s) _). rewrite (schedule_ext _ (fips_next 64 sigma0 sigma1) (fips_next 64 fips_sigma0 fips_sigma1)) by (intros x l; unfold fips_next; by rewrite (proj1 (proj2 (proj2 (sha512_sigmas _)))), (proj2 (proj2 (proj2 (sha512_sigmas _))))).
  apply fold_left_ext. intros v [k x] _. apply fips_step_ext; intros y; [exact (proj1 (sha512_sigmas y))|exact (proj1 (proj2 (sha512_sigmas y)))].
Qed.

Lemma sha512_finalize buf ds : length buf = 128%nat -> Finalize (fold_left Write ds (hasher_init buf)) = digest 128 Transform Initialize (fun n => replicate 8 0 ++ WriteBE64 n) (fun s => concat (WriteBE64 <$> s)) (concat ds).
Proof. intros Hb. apply hasher_digest; [lia|by vm_compute|done|lia|done]. Qed.

Lemma sha512_blocks l : fold_left Transform l Initialize = fold_left compress l H0 /\ length (fold_left compress l H0) = 8%nat.
Proof. destruct sha512_constants as (_ & -> & _ & HH). apply fold_blocks; [apply sha512_transform|intros; by apply fips_compress_length|done]. Qed.

Lemma sha512_class buf ds : length buf = 128%nat -> Z.of_nat (length (concat ds)) < 2 ^ 61 -> Finalize (fold_left Write ds (hasher_init buf)) = sha512 (concat ds).
Proof. intros Hb Hl. rewrite sha512_finalize by done. unfold digest, padded, sha512. rewrite bit_length by done. by rewrite (proj1 (sha512_blocks _)). Qed.

Lemma sha512_output buf ds : length buf = 128%nat -> words 8 (Finalize (fold_left Write ds (hasher_init buf))) /\ length (Finalize (fold_left Write ds (hasher_init buf))) = 64%nat.
Proof.
  intros Hb. rewrite sha512_finalize by done. unfold digest. rewrite (proj1 (sha512_blocks _)). destruct (bytes_out WriteBE64 8 (fold_left compress (blocks 128 (padded 128 (fun n => replicate 8 0 ++ WriteBE64 n) (concat ds))) H0)) as [H1 H2]; [apply enc64be_ok|].
  split; [done|]. rewrite H1. by rewrite (proj2 (sha512_blocks _)).
Qed.

(** [CHMAC_SHA512] *)
Definition CHMAC (buf1 buf2 buf3 key : list Z) : hmac := hmac_new 128 Transform Initialize (fun n => replicate 8 0 ++ WriteBE64 n) (fun s => concat (WriteBE64 <$> s)) 16 64 buf1 buf2 buf3 key.
Definition CHMAC_Write : hmac -> list Z -> hmac := hmac_Write 128 Transform.
Definition CHMAC_Finalize : hmac -> list Z := hmac_Finalize 128 Transform (fun n => replicate 8 0 ++ WriteBE64 n) (fun s => concat (WriteBE64 <$> s)) 16.

(** RFC 2104 *)
Definition hmac_key (key : list Z) : list Z := if (length key <=? 128)%nat then key ++ replicate (128 - length key) 0 else sha512 key ++ replicate 64 0.
Definition hmac_sha512 (key msg : list Z) : list Z :=
  sha512 (((fun b => b ⊕ 0x5c) <$> hmac_key key) ++ sha512 (((fun b => b ⊕ 0x36) <$> hmac_key key) ++ msg)).

Lemma sha512_digest_small msg : Z.of_nat (length msg) < 2 ^ 61 -> digest 128 Transform Initialize (fun n => replicate 8 0 ++ WriteBE64 n) (fun s => concat (WriteBE64 <$> s)) msg = sha512 msg.
Proof. intros Hl. unfold digest, padded, sha512. rewrite bit_length by done. by rewrite (proj1 (sha512_blocks _)). Qed.

Lemma sha512_length msg : length (sha512 msg) = 64%nat.
Proof. unfold sha512. cbv zeta. rewrite <- (proj1 (sha512_blocks _)). rewrite (proj1 (bytes_out sph_enc64be 8 _ enc64be_ok)). by rewrite (proj1 (sha512_blocks _)), (proj2 (sha512_blocks _)). Qed.

Lemma hmac512_key_length key : length (hmac_key key) = 128%nat.
Proof. unfold hmac_key. destruct (Nat.leb_spec (length key) 128); rewrite length_app, length_replicate; [lia|]. by rewrite sha512_length. Qed.

Lemma sha512_hmac buf1 buf2 buf3 key ds : length buf1 = 128%nat -> length buf2 = 128%nat -> length buf3 = 128%nat -> Z.of_nat (length key) < 2 ^ 61 -> Z.of_nat (length (concat ds)) < 2 ^ 61 - 192 ->
  CHMAC_Finalize (fold_left CHMAC_Write ds (CHMAC buf1 buf2 buf3 key)) = hmac_sha512 key (concat ds).
Proof.
  intros H1 H2 H3 Hk Hl. unfold CHMAC_Finalize, CHMAC_Write, CHMAC. rewrite (hmac_digest 128 Transform Initialize (fun n => replicate 8 0 ++ WriteBE64 n) (fun s => concat (WriteBE64 <$> s)) 16 64) by (lia || by vm_compute || done).
  unfold hmac_spec, hmac_sha512. assert (block_key 128 Transform Initialize (fun n => replicate 8 0 ++ WriteBE64 n) (fun s => concat (WriteBE64 <$> s)) 64 key = hmac_key key) as ->.
  { unfold block_key, hmac_key. by rewrite (sha512_digest_small key). }
  rewrite (sha512_digest_small (_ ++ concat ds)) by (rewrite length_app, length_fmap, hmac512_key_length; lia). apply sha512_digest_small. rewrite length_app, length_fmap, hmac512_key_length, sha512_length. lia.
Qed.

End Sha512.

(** ** The theorems *)

(** [CSHA256] and [CSHA512] give the digests of FIPS 180-4 for a message in any chunks,
    with the constants computed from the roots of primes: the unrolled rounds with
    rotating registers and sixteen reused words are the specified rounds over the
    expanded schedule, and the buffer, the byte counter and the padding are right on
    every path of [Write] and [Finalize]. *)
Theorem sha2_digest buf1 buf2 ds : length buf1 = 64%nat -> length buf2 = 128%nat -> Z.of_nat (length (concat ds)) < 2 ^ 61 ->
  Sha256.Finalize (fold_left Sha256.Write ds (Sha256.hasher_init buf1)) = Sha256.sha256 (concat ds) /\
  Sha512.Finalize (fold_left Sha512.Write ds (Sha512.hasher_init buf2)) = Sha512.sha512 (concat ds).
Proof. intros H1 H2 Hl. split; [by apply Sha256.sha256_class|by apply Sha512.sha512_class]. Qed.

(** The digest of the three bytes of abc, in two chunks. *)
Lemma sha2_digest_witness :
  Sha256.Finalize (fold_left Sha256.Write [[97]; [98; 99]] (Sha256.hasher_init (replicate 64 0))) = Sha256.sha256 [97; 98; 99] /\
  take 4 (Sha256.sha256 [97; 98; 99]) = [0xba; 0x78; 0x16; 0xbf] /\ take 4 (Sha512.sha512 [97; 98; 99]) = [0xdd; 0xaf; 0x35; 0xa1].
Proof. split; [apply (sha2_digest (replicate 64 0) (replicate 128 0) [[97]; [98; 99]]); by vm_compute|by vm_compute]. Defined.

(** The keyed hashes give the construction of RFC 2104 for keys of any length and
    messages in any chunks. *)
Theorem hmac_sha2 key ds buf1 buf2 : length buf1 = 64%nat -> length buf2 = 128%nat -> Z.of_nat (length key) < 2 ^ 61 -> Z.of_nat (length (concat ds)) < 2 ^ 60 ->
  Sha256.CHMAC_Finalize (fold_left Sha256.CHMAC_Write ds (Sha256.CHMAC buf1 buf1 buf1 key)) = Sha256.hmac_sha256 key (concat ds) /\
  Sha512.CHMAC_Finalize (fold_left Sha512.CHMAC_Write ds (Sha512.CHMAC buf2 buf2 buf2 key)) = Sha512.hmac_sha512 key (concat ds).
Proof. intros H1 H2 Hk Hl. split; [apply Sha256.sha256_hmac|apply Sha512.sha512_hmac]; (done || lia). Qed.

Lemma hmac_sha2_witness :
  Sha256.CHMAC_Finalize (fold_left Sha256.CHMAC_Write [[1]; [2]] (Sha256.CHMAC (replicate 64 0) (replicate 64 0) (replicate 64 0) [5; 6])) = Sha256.hmac_sha256 [5; 6] [1; 2].
Proof. apply (hmac_sha2 [5; 6] [[1]; [2]] (replicate 64 0) (replicate 128 0)); by vm_compute. Defined.
