(* ===== verification/Sha1.v ===== *)
(** * crypto/sha1.cpp

    The block function of [CSHA1], call by call, and the class as an instance of
    [Hasher], against FIPS 180-4. *)

From Stdlib Require Import ZArith Lia Btauto.
From stdpp Require Import base tactics numbers list.
From S2P Require Import Prelude SphTypes Stream Hasher Rounds Sha2.

Module Sha1.

Definition f1 (b c d : Z) : Z := d ⊕ (b .& (c ⊕ d)).
Definition f2 (b c d : Z) : Z := b ⊕ c ⊕ d.
Definition f3 (b c d : Z) : Z := (b .& c) .| (d .& (b .| c)).
Definition left (x : Z) : Z := SPH_T32 ((x << 1) .| (x >> 31)).

Definition k1 : Z := 0x5A827999.
Definition k2 : Z := 0x6ED9EBA1.
Definition k3 : Z := 0x8F1BBCDC.
Definition k4 : Z := 0xCA62C1D6.

Definition Initialize : list Z := [0x67452301; 0xEFCDAB89; 0x98BADCFE; 0x10325476; 0xC3D2E1F0].

(** [Round(a, b, c, d, e, f(b, c, d), k, w)] *)
Definition Round (s : list Z) (p : list nat) (fk : (Z -> Z -> Z -> Z) * Z) (w : Z) : list Z :=
  match p with
  | [a; b; c; d; e] =>
      <[b := SPH_T32 ((s.[b] << 30) .| (s.[b] >> 2))]>
        (<[e := SPH_T32 (s.[e] + (SPH_T32 ((s.[a] << 5) .| (s.[a] >> 27)) + fk.1 s.[b] s.[c] s.[d] + fk.2 + w))]> s)
  | _ => s
  end.

(** [w0 = left(w0 ^ w13 ^ w8 ^ w2)] *)
Definition next (x : Z) (l : list Z) : Z := left (x ⊕ l.[0] ⊕ l.[1] ⊕ l.[2]).

Definition calls : list (call ((Z -> Z -> Z -> Z) * Z)) := [
  at_ [0; 1; 2; 3; 4]%nat (f1, k1) (Load 0 0);
  at_ [4; 0; 1; 2; 3]%nat (f1, k1) (Load 1 4);
  at_ [3; 4; 0; 1; 2]%nat (f1, k1) (Load 2 8);
  at_ [2; 3; 4; 0; 1]%nat (f1, k1) (Load 3 12);
  at_ [1; 2; 3; 4; 0]%nat (f1, k1) (Load 4 16);
  at_ [0; 1; 2; 3; 4]%nat (f1, k1) (Load 5 20);
  at_ [4; 0; 1; 2; 3]%nat (f1, k1) (Load 6 24);
  at_ [3; 4; 0; 1; 2]%nat (f1, k1) (Load 7 28);
  at_ [2; 3; 4; 0; 1]%nat (f1, k1) (Load 8 32);
  at_ [1; 2; 3; 4; 0]%nat (f1, k1) (Load 9 36);
  at_ [0; 1; 2; 3; 4]%nat (f1, k1) (Load 10 40);
  at_ [4; 0; 1; 2; 3]%nat (f1, k1) (Load 11 44);
  at_ [3; 4; 0; 1; 2]%nat (f1, k1) (Load 12 48);
  at_ [2; 3; 4; 0; 1]%nat (f1, k1) (Load 13 52);
  at_ [1; 2; 3; 4; 0]%nat (f1, k1) (Load 14 56);
  at_ [0; 1; 2; 3; 4]%nat (f1, k1) (Load 15 60);
  at_ [4; 0; 1; 2; 3]%nat (f1, k1) (Next 0 [13; 8; 2]%nat);
  at_ [3; 4; 0; 1; 2]%nat (f1, k1) (Next 1 [14; 9; 3]%nat);
  at_ [2; 3; 4; 0; 1]%nat (f1, k1) (Next 2 [15; 10; 4]%nat);
  at_ [1; 2; 3; 4; 0]%nat (f1, k1) (Next 3 [0; 11; 5]%nat);
  at_ [0; 1; 2; 3; 4]%nat (f2, k2) (Next 4 [1; 12; 6]%nat);
  at_ [4; 0; 1; 2; 3]%nat (f2, k2) (Next 5 [2; 13; 7]%nat);
  at_ [3; 4; 0; 1; 2]%nat (f2, k2) (Next 6 [3; 14; 8]%nat);
  at_ [2; 3; 4; 0; 1]%nat (f2, k2) (Next 7 [4; 15; 9]%nat);
  at_ [1; 2; 3; 4; 0]%nat (f2, k2) (Next 8 [5; 0; 10]%nat);
  at_ [0; 1; 2; 3; 4]%nat (f2, k2) (Next 9 [6; 1; 11]%nat);
  at_ [4; 0; 1; 2; 3]%nat (f2, k2) (Next 10 [7; 2; 12]%nat);
  at_ [3; 4; 0; 1; 2]%nat (f2, k2) (Next 11 [8; 3; 13]%nat);
  at_ [2; 3; 4; 0; 1]%nat (f2, k2) (Next 12 [9; 4; 14]%nat);
  at_ [1; 2; 3; 4; 0]%nat (f2, k2) (Next 13 [10; 5; 15]%nat);
  at_ [0; 1; 2; 3; 4]%nat (f2, k2) (Next 14 [11; 6; 0]%nat);
  at_ [4; 0; 1; 2; 3]%nat (f2, k2) (Next 15 [12; 7; 1]%nat);
  at_ [3; 4; 0; 1; 2]%nat (f2, k2) (Next 0 [13; 8; 2]%nat);
  at_ [2; 3; 4; 0; 1]%nat (f2, k2) (Next 1 [14; 9; 3]%nat);
  at_ [1; 2; 3; 4; 0]%nat (f2, k2) (Next 2 [15; 10; 4]%nat);
  at_ [0; 1; 2; 3; 4]%nat (f2, k2) (Next 3 [0; 11; 5]%nat);
  at_ [4; 0; 1; 2; 3]%nat (f2, k2) (Next 4 [1; 12; 6]%nat);
  at_ [3; 4; 0; 1; 2]%nat (f2, k2) (Next 5 [2; 13; 7]%nat);
  at_ [2; 3; 4; 0; 1]%nat (f2, k2) (Next 6 [3; 14; 8]%nat);
  at_ [1; 2; 3; 4; 0]%nat (f2, k2) (Next 7 [4; 15; 9]%nat);
  at_ [0; 1; 2; 3; 4]%nat (f3, k3) (Next 8 [5; 0; 10]%nat);
  at_ [4; 0; 1; 2; 3]%nat (f3, k3) (Next 9 [6; 1; 11]%nat);
  at_ [3; 4; 0; 1; 2]%nat (f3, k3) (Next 10 [7; 2; 12]%nat);
  at_ [2; 3; 4; 0; 1]%nat (f3, k3) (Next 11 [8; 3; 13]%nat);
  at_ [1; 2; 3; 4; 0]%nat (f3, k3) (Next 12 [9; 4; 14]%nat);
  at_ [0; 1; 2; 3; 4]%nat (f3, k3) (Next 13 [10; 5; 15]%nat);
  at_ [4; 0; 1; 2; 3]%nat (f3, k3) (Next 14 [11; 6; 0]%nat);
  at_ [3; 4; 0; 1; 2]%nat (f3, k3) (Next 15 [12; 7; 1]%nat);
  at_ [2; 3; 4; 0; 1]%nat (f3, k3) (Next 0 [13; 8; 2]%nat);
  at_ [1; 2; 3; 4; 0]%nat (f3, k3) (Next 1 [14; 9; 3]%nat);
  at_ [0; 1; 2; 3; 4]%nat (f3, k3) (Next 2 [15; 10; 4]%nat);
  at_ [4; 0; 1; 2; 3]%nat (f3, k3) (Next 3 [0; 11; 5]%nat);
  at_ [3; 4; 0; 1; 2]%nat (f3, k3) (Next 4 [1; 12; 6]%nat);
  at_ [2; 3; 4; 0; 1]%nat (f3, k3) (Next 5 [2; 13; 7]%nat);
  at_ [1; 2; 3; 4; 0]%nat (f3, k3) (Next 6 [3; 14; 8]%nat);
  at_ [0; 1; 2; 3; 4]%nat (f3, k3) (Next 7 [4; 15; 9]%nat);
  at_ [4; 0; 1; 2; 3]%nat (f3, k3) (Next 8 [5; 0; 10]%nat);
  at_ [3; 4; 0; 1; 2]%nat (f3, k3) (Next 9 [6; 1; 11]%nat);
  at_ [2; 3; 4; 0; 1]%nat (f3, k3) (Next 10 [7; 2; 12]%nat);
  at_ [1; 2; 3; 4; 0]%nat (f3, k3) (Next 11 [8; 3; 13]%nat);
  at_ [0; 1; 2; 3; 4]%nat (f2, k4) (Next 12 [9; 4; 14]%nat);
  at_ [4; 0; 1; 2; 3]%nat (f2, k4) (Next 13 [10; 5; 15]%nat);
  at_ [3; 4; 0; 1; 2]%nat (f2, k4) (Next 14 [11; 6; 0]%nat);
  at_ [2; 3; 4; 0; 1]%nat (f2, k4) (Next 15 [12; 7; 1]%nat);
  at_ [1; 2; 3; 4; 0]%nat (f2, k4) (Next 0 [13; 8; 2]%nat);
  at_ [0; 1; 2; 3; 4]%nat (f2, k4) (Next 1 [14; 9; 3]%nat);
  at_ [4; 0; 1; 2; 3]%nat (f2, k4) (Next 2 [15; 10; 4]%nat);
  at_ [3; 4; 0; 1; 2]%nat (f2, k4) (Next 3 [0; 11; 5]%nat);
  at_ [2; 3; 4; 0; 1]%nat (f2, k4) (Next 4 [1; 12; 6]%nat);
  at_ [1; 2; 3; 4; 0]%nat (f2, k4) (Next 5 [2; 13; 7]%nat);
  at_ [0; 1; 2; 3; 4]%nat (f2, k4) (Next 6 [3; 14; 8]%nat);
  at_ [4; 0; 1; 2; 3]%nat (f2, k4) (Next 7 [4; 15; 9]%nat);
  at_ [3; 4; 0; 1; 2]%nat (f2, k4) (Next 8 [5; 0; 10]%nat);
  at_ [2; 3; 4; 0; 1]%nat (f2, k4) (Next 9 [6; 1; 11]%nat);
  at_ [1; 2; 3; 4; 0]%nat (f2, k4) (Next 10 [7; 2; 12]%nat);
  at_ [0; 1; 2; 3; 4]%nat (f2, k4) (Next 11 [8; 3; 13]%nat);
  at_ [4; 0; 1; 2; 3]%nat (f2, k4) (Next 12 [9; 4; 14]%nat);
  at_ [3; 4; 0; 1; 2]%nat (f2, k4) (Next 13 [10; 5; 15]%nat);
  at_ [2; 3; 4; 0; 1]%nat (f2, k4) (Next 14 [11; 6; 0]%nat);
  at_ [1; 2; 3; 4; 0]%nat (f2, k4) (Next 15 [12; 7; 1]%nat)].

Definition Transform (s chunk : list Z) : list Z :=
  zip_with (fun x y => SPH_T32 (x + y)) s (fold_left (exec_call Round Sha256.ReadBE32 next chunk) calls (s, replicate 16 0)).1.

(** [CSHA1] *)
Definition hasher_init (buf : list Z) : hasher := hasher_new Initialize buf.
Definition Write : hasher -> list Z -> hasher := Hasher.Write 64 Transform.
Definition Finalize : hasher -> list Z := Hasher.Finalize 64 Transform Sha256.WriteBE64 (fun s => concat (Sha256.WriteBE32 <$> s)) 8.

(** *** Specification *)

Definition parity (x y z : Z) : Z := x ⊕ y ⊕ z.
(** The function and the constant of round [t]; the constants are roots. *)
Definition round_of (t : nat) : (Z -> Z -> Z -> Z) * Z :=
  let K n := root 2 (n * 2 ^ 60) in
  if (t <? 20)%nat then (fips_Ch, K 2) else if (t <? 40)%nat then (parity, K 3) else if (t <? 60)%nat then (fips_Maj, K 5) else (parity, K 10).

Definition step (v : list Z) (fk : (Z -> Z -> Z -> Z) * Z) (W : Z) : list Z :=
  match v with
  | [a; b; c; d; e] => [(SPH_ROTL32 a 5 + fk.1 b c d + e + fk.2 + W) mod 2 ^ 32; a; SPH_ROTL32 b 30; c; d]
  | _ => v
  end.

Definition spec_next (x : Z) (l : list Z) : Z := SPH_ROTL32 (l.[0] ⊕ l.[1] ⊕ l.[2] ⊕ x) 1.

Definition compress (s chunk : list Z) : list Z :=
  let W := schedule sph_dec32be spec_next 4 [13; 8; 2]%nat 80 chunk in
  zip_with (fun x y => (x + y) mod 2 ^ 32) s (fold_left (fun v '(fk, w) => step v fk w) (zip (round_of <$> seq 0 80) W) s).

Definition sha1 (msg : list Z) : list Z :=
  let M := msg ++ md_pad 64 (length msg mod 64) 0x80 (sph_enc64be (8 * Z.of_nat (length msg))) in
  concat (sph_enc32be <$> fold_left compress (blocks 64 M) Initialize).

(** *** Refinement *)

Definition code_round (t : nat) : (Z -> Z -> Z -> Z) * Z :=
  if (t <? 20)%nat then (f1, k1) else if (t <? 40)%nat then (f2, k2) else if (t <? 60)%nat then (f3, k3) else (f2, k4).

Lemma sha1_calls : calls = imap (call_at 5 4 [13; 8; 2]%nat) (code_round <$> seq 0 80).
Proof. reflexivity. Qed.

Lemma sha1_sum e x f k w : SPH_T32 (e + (x + f + k + w)) = (x + f + e + k + w) mod 2 ^ 32.
Proof. rewrite T32_mod. f_equal. lia. Qed.

(** Rounds on five registers that change the second and the fifth. *)
Lemma five_rotate {X} (A : Z -> Z -> Z -> Z -> Z -> X -> Z -> Z) (B : Z -> Z) :
  rotates 5 (fun s p x w => match p with [a; b; c; d; e] => <[b := B s.[b]]> (<[e := A s.[a] s.[b] s.[c] s.[d] s.[e] x w]> s) | _ => s end)
    (fun v x w => match v with [a; b; c; d; e] => [A a b c d e x w; a; B b; c; d] | _ => v end).
Proof. intros i s x w Hi Hs. do 5 (destruct s as [|? s]; [done|]). destruct s; [|done]. do 5 (destruct i as [|i]; [split; reflexivity|]). lia. Qed.

Lemma sha1_step_sum v fk w :
  match v with [a; b; c; d; e] => [SPH_T32 (e + (SPH_T32 ((a << 5) .| (a >> 27)) + fk.1 b c d + fk.2 + w)); a; SPH_T32 ((b << 30) .| (b >> 2)); c; d] | _ => v end = step v fk w.
Proof. do 5 (destruct v as [|? v]; [reflexivity|]). destruct v; [|reflexivity]. cbn [step]. rewrite sha1_sum. reflexivity. Qed.

Lemma sha1_rotates : rotates 5 Round step.
Proof.
  intros i s fk w Hi Hs. rewrite <- sha1_step_sum.
  exact (five_rotate (fun a b c d e fk w => SPH_T32 (e + (SPH_T32 ((a << 5) .| (a >> 27)) + fk.1 b c d + fk.2 + w))) (fun b => SPH_T32 ((b << 30) .| (b >> 2))) i s fk w Hi Hs).
Qed.

(** The functions and constants of the rounds. *)
Lemma sha1_round_of t b c d : (code_round t).1 b c d = (round_of t).1 b c d /\ (code_round t).2 = (round_of t).2.
Proof. unfold code_round, round_of. destruct (t <? 20)%nat, (t <? 40)%nat, (t <? 60)%nat; cbn [fst snd]; (split; [|by vm_compute]); try done; first [apply Ch_fips | apply Maj_fips]. Qed.

Lemma sha1_step_length v fk w : length v = 5%nat -> length (step v fk w) = 5%nat.
Proof. intros H. do 5 (destruct v as [|? v]; [done|]). by destruct v. Qed.

Lemma sha1_steps l W v : length v = 5%nat ->
  fold_left (fun v '(fk, w) => step v fk w) (zip (code_round <$> l) W) v = fold_left (fun v '(fk, w) => step v fk w) (zip (round_of <$> l) W) v /\
  length (fold_left (fun v '(fk, w) => step v fk w) (zip (round_of <$> l) W) v) = 5%nat.
Proof.
  revert W v. induction l as [|t l IH]; intros W v Hv; [done|]. destruct W as [|w W]; [done|]. rewrite !fmap_cons. cbn [zip zip_with fold_left].
  assert (step v (code_round t) w = step v (round_of t) w) as ->. { do 5 (destruct v as [|? v]; [done|]). destruct v; [|done]. cbn [step]. by rewrite (proj1 (sha1_round_of t _ _ _)), (proj2 (sha1_round_of t 0 0 0)). }
  apply IH. by apply sha1_step_length.
Qed.

Lemma sha1_transform s chunk : length s = 5%nat -> Transform s chunk = compress s chunk.
Proof.
  intros Hs. unfold Transform, compress. rewrite sha1_calls.
  rewrite (calls_spec 5 Round step); [|lia|apply sha1_rotates|repeat constructor; lia|done|done|rewrite length_fmap, length_seq; lia|by rewrite length_fmap, length_seq].
  rewrite length_fmap, length_seq, (proj1 (sha1_steps _ _ _ Hs)), (schedule_ext _ next spec_next). { apply zip_with_ext; [intros; apply T32_mod|done|done]. }
  intros x l. unfold next, spec_next, left, SPH_ROTL32, wrotl. rewrite (Z.lxor_comm _ x), !Z.lxor_assoc. done.
Qed.

Lemma sha1_blocks l : fold_left Transform l Initialize = fold_left compress l Initialize /\ length (fold_left compress l Initialize) = 5%nat.
Proof. apply fold_blocks; [apply sha1_transform| |done]. intros s c Hs. unfold compress. by rewrite length_zip_with, (proj2 (sha1_steps _ _ _ Hs)), Hs. Qed.

Lemma sha1_finalize buf ds : length buf = 64%nat -> Finalize (fold_left Write ds (hasher_init buf)) = digest 64 Transform Initialize Sha256.WriteBE64 (fun s => concat (Sha256.WriteBE32 <$> s)) (concat ds).
Proof. intros Hb. apply hasher_digest; [lia|by vm_compute|done|lia|done]. Qed.

Lemma sha1_class buf ds : length buf = 64%nat -> Z.of_nat (length (concat ds)) < 2 ^ 61 -> Finalize (fold_left Write ds (hasher_init buf)) = sha1 (concat ds).
Proof. intros Hb Hl. rewrite sha1_finalize by done. unfold digest, padded, sha1. rewrite bit_length by done. by rewrite (proj1 (sha1_blocks _)). Qed.

Lemma sha1_output buf ds : length buf = 64%nat -> words 8 (Finalize (fold_left Write ds (hasher_init buf))) /\ length (Finalize (fold_left Write ds (hasher_init buf))) = 20%nat.
Proof.
  intros Hb. rewrite sha1_finalize by done. unfold digest. rewrite (proj1 (sha1_blocks _)). destruct (bytes_out Sha256.WriteBE32 4 (fold_left compress (blocks 64 (padded 64 Sha256.WriteBE64 (concat ds))) Initialize)) as [H1 H2]; [apply enc32be_ok|].
  split; [done|]. rewrite H1. by rewrite (proj2 (sha1_blocks _)).
Qed.

Example sha1_abc : take 4 (sha1 [97; 98; 99]) = [0xa9; 0x99; 0x3e; 0x36].
Proof. by vm_compute. Qed.

End Sha1.
