(* ===== verification/Ripemd160.v ===== *)
(** * crypto/ripemd160.cpp

    The block function of [CRIPEMD160], call by call in the order of the source, and
    the class as an instance of [Hasher], against the description of RIPEMD-160 by
    its permutations of the message words. *)

From Stdlib Require Import ZArith Lia.
From stdpp Require Import base tactics numbers list.
From S2P Require Import Prelude SphTypes Stream Hasher Rounds Sha2 Sha1.

Module Ripemd160.

Definition f1 (x y z : Z) : Z := x ⊕ y ⊕ z.
Definition f2 (x y z : Z) : Z := (x .& y) .| (not32 x .& z).
Definition f3 (x y z : Z) : Z := (x .| not32 y) ⊕ z.
Definition f4 (x y z : Z) : Z := (x .& z) .| (y .& not32 z).
Definition f5 (x y z : Z) : Z := x ⊕ (y .| not32 z).

Definition Initialize : list Z := [0x67452301; 0xEFCDAB89; 0x98BADCFE; 0x10325476; 0xC3D2E1F0].

Definition rol (x i : Z) : Z := SPH_T32 ((x << i) .| (x >> (32 - i))).

(** The function, the constant and the rotation of a round. *)
Definition round_arg : Type := (Z -> Z -> Z -> Z) * Z * Z.

(** [Round(a, b, c, d, e, f(b, c, d), x, k, r)] *)
Definition Round (s : list Z) (p : list nat) (arg : round_arg) (x : Z) : list Z :=
  let '(f, k, r) := arg in
  match p with
  | [a; b; c; d; e] => <[c := rol s.[c] 10]> (<[a := SPH_T32 (rol (SPH_T32 (s.[a] + f s.[b] s.[c] s.[d] + x + k)) r + s.[e])]> s)
  | _ => s
  end.

(** A call: whether it is on the second line, the registers, the word, the rest. *)
Record rcall := { second : bool; rregs : list nat; rword : nat; rarg : round_arg }.
Definition rcall_of (second : bool) (f : Z -> Z -> Z -> Z) (k : Z) (p : list nat) (w : nat) (r : Z) : rcall := {| second := second; rregs := p; rword := w; rarg := (f, k, r) |}.

Definition R11 := rcall_of false f1 0.
Definition R21 := rcall_of false f2 0x5A827999.
Definition R31 := rcall_of false f3 0x6ED9EBA1.
Definition R41 := rcall_of false f4 0x8F1BBCDC.
Definition R51 := rcall_of false f5 0xA953FD4E.
Definition R12 := rcall_of true f5 0x50A28BE6.
Definition R22 := rcall_of true f4 0x5C4DD124.
Definition R32 := rcall_of true f3 0x6D703EF3.
Definition R42 := rcall_of true f2 0x7A6D76E9.
Definition R52 := rcall_of true f1 0.

Definition calls : list rcall := [
  R11 [0; 1; 2; 3; 4]%nat 0 11;
  R12 [0; 1; 2; 3; 4]%nat 5 8;
  R11 [4; 0; 1; 2; 3]%nat 1 14;
  R12 [4; 0; 1; 2; 3]%nat 14 9;
  R11 [3; 4; 0; 1; 2]%nat 2 15;
  R12 [3; 4; 0; 1; 2]%nat 7 9;
  R11 [2; 3; 4; 0; 1]%nat 3 12;
  R12 [2; 3; 4; 0; 1]%nat 0 11;
  R11 [1; 2; 3; 4; 0]%nat 4 5;
  R12 [1; 2; 3; 4; 0]%nat 9 13;
  R11 [0; 1; 2; 3; 4]%nat 5 8;
  R12 [0; 1; 2; 3; 4]%nat 2 15;
  R11 [4; 0; 1; 2; 3]%nat 6 7;
  R12 [4; 0; 1; 2; 3]%nat 11 15;
  R11 [3; 4; 0; 1; 2]%nat 7 9;
  R12 [3; 4; 0; 1; 2]%nat 4 5;
  R11 [2; 3; 4; 0; 1]%nat 8 11;
  R12 [2; 3; 4; 0; 1]%nat 13 7;
  R11 [1; 2; 3; 4; 0]%nat 9 13;
  R12 [1; 2; 3; 4; 0]%nat 6 7;
  R11 [0; 1; 2; 3; 4]%nat 10 14;
  R12 [0; 1; 2; 3; 4]%nat 15 8;
  R11 [4; 0; 1; 2; 3]%nat 11 15;
  R12 [4; 0; 1; 2; 3]%nat 8 11;
  R11 [3; 4; 0; 1; 2]%nat 12 6;
  R12 [3; 4; 0; 1; 2]%nat 1 14;
  R11 [2; 3; 4; 0; 1]%nat 13 7;
  R12 [2; 3; 4; 0; 1]%nat 10 14;
  R11 [1; 2; 3; 4; 0]%nat 14 9;
  R12 [1; 2; 3; 4; 0]%nat 3 12;
  R11 [0; 1; 2; 3; 4]%nat 15 8;
  R12 [0; 1; 2; 3; 4]%nat 12 6;
  R21 [4; 0; 1; 2; 3]%nat 7 7;
  R22 [4; 0; 1; 2; 3]%nat 6 9;
  R21 [3; 4; 0; 1; 2]%nat 4 6;
  R22 [3; 4; 0; 1; 2]%nat 11 13;
  R21 [2; 3; 4; 0; 1]%nat 13 8;
  R22 [2; 3; 4; 0; 1]%nat 3 15;
  R21 [1; 2; 3; 4; 0]%nat 1 13;
  R22 [1; 2; 3; 4; 0]%nat 7 7;
  R21 [0; 1; 2; 3; 4]%nat 10 11;
  R22 [0; 1; 2; 3; 4]%nat 0 12;
  R21 [4; 0; 1; 2; 3]%nat 6 9;
  R22 [4; 0; 1; 2; 3]%nat 13 8;
  R21 [3; 4; 0; 1; 2]%nat 15 7;
  R22 [3; 4; 0; 1; 2]%nat 5 9;
  R21 [2; 3; 4; 0; 1]%nat 3 15;
  R22 [2; 3; 4; 0; 1]%nat 10 11;
  R21 [1; 2; 3; 4; 0]%nat 12 7;
  R22 [1; 2; 3; 4; 0]%nat 14 7;
  R21 [0; 1; 2; 3; 4]%nat 0 12;
  R22 [0; 1; 2; 3; 4]%nat 15 7;
  R21 [4; 0; 1; 2; 3]%nat 9 15;
  R22 [4; 0; 1; 2; 3]%nat 8 12;
  R21 [3; 4; 0; 1; 2]%nat 5 9;
  R22 [3; 4; 0; 1; 2]%nat 12 7;
  R21 [2; 3; 4; 0; 1]%nat 2 11;
  R22 [2; 3; 4; 0; 1]%nat 4 6;
  R21 [1; 2; 3; 4; 0]%nat 14 7;
  R22 [1; 2; 3; 4; 0]%nat 9 15;
  R21 [0; 1; 2; 3; 4]%nat 11 13;
  R22 [0; 1; 2; 3; 4]%nat 1 13;
  R21 [4; 0; 1; 2; 3]%nat 8 12;
  R22 [4; 0; 1; 2; 3]%nat 2 11;
  R31 [3; 4; 0; 1; 2]%nat 3 11;
  R32 [3; 4; 0; 1; 2]%nat 15 9;
  R31 [2; 3; 4; 0; 1]%nat 10 13;
  R32 [2; 3; 4; 0; 1]%nat 5 7;
  R31 [1; 2; 3; 4; 0]%nat 14 6;
  R32 [1; 2; 3; 4; 0]%nat 1 15;
  R31 [0; 1; 2; 3; 4]%nat 4 7;
  R32 [0; 1; 2; 3; 4]%nat 3 11;
  R31 [4; 0; 1; 2; 3]%nat 9 14;
  R32 [4; 0; 1; 2; 3]%nat 7 8;
  R31 [3; 4; 0; 1; 2]%nat 15 9;
  R32 [3; 4; 0; 1; 2]%nat 14 6;
  R31 [2; 3; 4; 0; 1]%nat 8 13;
  R32 [2; 3; 4; 0; 1]%nat 6 6;
  R31 [1; 2; 3; 4; 0]%nat 1 15;
  R32 [1; 2; 3; 4; 0]%nat 9 14;
  R31 [0; 1; 2; 3; 4]%nat 2 14;
  R32 [0; 1; 2; 3; 4]%nat 11 12;
  R31 [4; 0; 1; 2; 3]%nat 7 8;
  R32 [4; 0; 1; 2; 3]%nat 8 13;
  R31 [3; 4; 0; 1; 2]%nat 0 13;
  R32 [3; 4; 0; 1; 2]%nat 12 5;
  R31 [2; 3; 4; 0; 1]%nat 6 6;
  R32 [2; 3; 4; 0; 1]%nat 2 14;
  R31 [1; 2; 3; 4; 0]%nat 13 5;
  R32 [1; 2; 3; 4; 0]%nat 10 13;
  R31 [0; 1; 2; 3; 4]%nat 11 12;
  R32 [0; 1; 2; 3; 4]%nat 0 13;
  R31 [4; 0; 1; 2; 3]%nat 5 7;
  R32 [4; 0; 1; 2; 3]%nat 4 7;
  R31 [3; 4; 0; 1; 2]%nat 12 5;
  R32 [3; 4; 0; 1; 2]%nat 13 5;
  R41 [2; 3; 4; 0; 1]%nat 1 11;
  R42 [2; 3; 4; 0; 1]%nat 8 15;
  R41 [1; 2; 3; 4; 0]%nat 9 12;
  R42 [1; 2; 3; 4; 0]%nat 6 5;
  R41 [0; 1; 2; 3; 4]%nat 11 14;
  R42 [0; 1; 2; 3; 4]%nat 4 8;
  R41 [4; 0; 1; 2; 3]%nat 10 15;
  R42 [4; 0; 1; 2; 3]%nat 1 11;
  R41 [3; 4; 0; 1; 2]%nat 0 14;
  R42 [3; 4; 0; 1; 2]%nat 3 14;
  R41 [2; 3; 4; 0; 1]%nat 8 15;
  R42 [2; 3; 4; 0; 1]%nat 11 14;
  R41 [1; 2; 3; 4; 0]%nat 12 9;
  R42 [1; 2; 3; 4; 0]%nat 15 6;
  R41 [0; 1; 2; 3; 4]%nat 4 8;
  R42 [0; 1; 2; 3; 4]%nat 0 14;
  R41 [4; 0; 1; 2; 3]%nat 13 9;
  R42 [4; 0; 1; 2; 3]%nat 5 6;
  R41 [3; 4; 0; 1; 2]%nat 3 14;
  R42 [3; 4; 0; 1; 2]%nat 12 9;
  R41 [2; 3; 4; 0; 1]%nat 7 5;
  R42 [2; 3; 4; 0; 1]%nat 2 12;
  R41 [1; 2; 3; 4; 0]%nat 15 6;
  R42 [1; 2; 3; 4; 0]%nat 13 9;
  R41 [0; 1; 2; 3; 4]%nat 14 8;
  R42 [0; 1; 2; 3; 4]%nat 9 12;
  R41 [4; 0; 1; 2; 3]%nat 5 6;
  R42 [4; 0; 1; 2; 3]%nat 7 5;
  R41 [3; 4; 0; 1; 2]%nat 6 5;
  R42 [3; 4; 0; 1; 2]%nat 10 15;
  R41 [2; 3; 4; 0; 1]%nat 2 12;
  R42 [2; 3; 4; 0; 1]%nat 14 8;
  R51 [1; 2; 3; 4; 0]%nat 4 9;
  R52 [1; 2; 3; 4; 0]%nat 12 8;
  R51 [0; 1; 2; 3; 4]%nat 0 15;
  R52 [0; 1; 2; 3; 4]%nat 15 5;
  R51 [4; 0; 1; 2; 3]%nat 5 5;
  R52 [4; 0; 1; 2; 3]%nat 10 12;
  R51 [3; 4; 0; 1; 2]%nat 9 11;
  R52 [3; 4; 0; 1; 2]%nat 4 9;
  R51 [2; 3; 4; 0; 1]%nat 7 6;
  R52 [2; 3; 4; 0; 1]%nat 1 12;
  R51 [1; 2; 3; 4; 0]%nat 12 8;
  R52 [1; 2; 3; 4; 0]%nat 5 5;
  R51 [0; 1; 2; 3; 4]%nat 2 13;
  R52 [0; 1; 2; 3; 4]%nat 8 14;
  R51 [4; 0; 1; 2; 3]%nat 10 12;
  R52 [4; 0; 1; 2; 3]%nat 7 6;
  R51 [3; 4; 0; 1; 2]%nat 14 5;
  R52 [3; 4; 0; 1; 2]%nat 6 8;
  R51 [2; 3; 4; 0; 1]%nat 1 12;
  R52 [2; 3; 4; 0; 1]%nat 2 13;
  R51 [1; 2; 3; 4; 0]%nat 3 13;
  R52 [1; 2; 3; 4; 0]%nat 13 6;
  R51 [0; 1; 2; 3; 4]%nat 8 14;
  R52 [0; 1; 2; 3; 4]%nat 14 5;
  R51 [4; 0; 1; 2; 3]%nat 11 11;
  R52 [4; 0; 1; 2; 3]%nat 0 15;
  R51 [3; 4; 0; 1; 2]%nat 6 8;
  R52 [3; 4; 0; 1; 2]%nat 3 13;
  R51 [2; 3; 4; 0; 1]%nat 15 5;
  R52 [2; 3; 4; 0; 1]%nat 9 11;
  R51 [1; 2; 3; 4; 0]%nat 13 6;
  R52 [1; 2; 3; 4; 0]%nat 11 11].

Definition ReadLE32 (ptr : list Z) : Z := sph_dec32le ptr.
Definition WriteLE32 (x : Z) : list Z := sph_enc32le x.
Definition WriteLE64 (x : Z) : list Z := sph_enc64le x.

Definition exec_rcall (w : list Z) (st : list Z * list Z) (c : rcall) : list Z * list Z :=
  if second c then (st.1, Round st.2 (rregs c) (rarg c) w.[rword c]) else (Round st.1 (rregs c) (rarg c) w.[rword c], st.2).

(** The new value of [s] from the two lines. *)
Definition combine_lines (s l1 l2 : list Z) : list Z :=
  match s, l1, l2 with
  | [s0; s1; s2; s3; s4], [a1; b1; c1; d1; e1], [a2; b2; c2; d2; e2] =>
      [SPH_T32 (s1 + c1 + d2); SPH_T32 (s2 + d1 + e2); SPH_T32 (s3 + e1 + a2); SPH_T32 (s4 + a1 + b2); SPH_T32 (s0 + b1 + c2)]
  | _, _, _ => s
  end.

Definition Transform (s chunk : list Z) : list Z :=
  let w := block_words ReadLE32 4 chunk in
  let '(l1, l2) := fold_left (exec_rcall w) calls (s, s) in combine_lines s l1 l2.

(** [CRIPEMD160] *)
Definition hasher_init (buf : list Z) : hasher := hasher_new Initialize buf.
Definition Write : hasher -> list Z -> hasher := Hasher.Write 64 Transform.
Definition Finalize : hasher -> list Z := Hasher.Finalize 64 Transform WriteLE64 (fun s => concat (WriteLE32 <$> s)) 8.

(** *** Specification *)

(** The order of the words: the permutations [rho] and [pi]. *)
Definition rho : list nat := [7; 4; 13; 1; 10; 6; 15; 3; 12; 0; 9; 5; 2; 14; 11; 8]%nat.
Definition pi (i : nat) : nat := ((9 * i + 5) mod 16)%nat.
Definition order (line2 : bool) (j : nat) : nat := Nat.iter (j / 16) (fun i => nth i rho O) (if line2 then pi (j mod 16) else j mod 16)%nat.

(** The rotation depends on the round and on the word. *)
Definition shifts : list (list Z) := [
  [11; 14; 15; 12; 5; 8; 7; 9; 11; 13; 14; 15; 6; 7; 9; 8]; [12; 13; 11; 15; 6; 9; 9; 7; 12; 15; 11; 13; 7; 8; 7; 7];
  [13; 15; 14; 11; 7; 7; 6; 8; 13; 14; 13; 12; 5; 5; 6; 9]; [14; 11; 12; 14; 8; 6; 5; 5; 15; 12; 15; 14; 9; 9; 8; 6];
  [15; 12; 13; 13; 9; 5; 8; 6; 14; 11; 12; 11; 8; 6; 5; 5]].

(** The constants are roots; the functions are used in opposite orders. *)
Definition constant (line2 : bool) (round : nat) : Z :=
  if line2 then root 3 ([2; 3; 5; 7; 0].[round] * 2 ^ 90) else root 2 ([0; 2; 3; 5; 7].[round] * 2 ^ 60).
Definition function (line2 : bool) (round : nat) : Z -> Z -> Z -> Z := nth (if line2 then 4 - round else round)%nat [f1; f2; f3; f4; f5] f1.

Definition spec_arg (line2 : bool) (j : nat) : round_arg :=
  let round := (j / 16)%nat in (function line2 round, constant line2 round, (nth round shifts []).[order line2 j]).

Definition step (v : list Z) (arg : round_arg) (x : Z) : list Z :=
  let '(f, k, r) := arg in
  match v with
  | [a; b; c; d; e] => [e; (SPH_ROTL32 ((a + f b c d + x + k) mod 2 ^ 32) r + e) mod 2 ^ 32; b; SPH_ROTL32 c 10; d]
  | _ => v
  end.

Definition line (line2 : bool) (X s : list Z) : list Z :=
  fold_left (fun v j => step v (spec_arg line2 j) X.[order line2 j]) (seq 0 80) s.

Definition compress (s chunk : list Z) : list Z :=
  let X := block_words sph_dec32le 4 chunk in combine_lines s (line false X s) (line true X s).

Definition ripemd160 (msg : list Z) : list Z :=
  let M := msg ++ md_pad 64 (length msg mod 64) 0x80 (sph_enc64le (8 * Z.of_nat (length msg))) in
  concat (sph_enc32le <$> fold_left compress (blocks 64 M) Initialize).

(** *** Refinement *)

Definition line_calls (line2 : bool) : list rcall := List.filter (fun c => eqb (second c) line2) calls.

(** The constants of the source. *)
Definition code_constant (line2 : bool) (round : nat) : Z :=
  if line2 then [0x50A28BE6; 0x5C4DD124; 0x6D703EF3; 0x7A6D76E9; 0].[round] else [0; 0x5A827999; 0x6ED9EBA1; 0x8F1BBCDC; 0xA953FD4E].[round].

Definition code_arg (line2 : bool) (j : nat) : round_arg :=
  let round := (j / 16)%nat in (function line2 round, code_constant line2 round, (nth round shifts []).[order line2 j]).

(** The calls of a line, in their regular form. *)
Definition regular (line2 : bool) (j : nat) : rcall := {| second := line2; rregs := names 5 j; rword := order line2 j; rarg := code_arg line2 j |}.

Lemma ripemd_calls line2 : line_calls line2 = regular line2 <$> seq 0 80.
Proof. destruct line2; reflexivity. Qed.

Lemma ripemd_constants line2 round : (round < 5)%nat -> code_constant line2 round = constant line2 round.
Proof. intros H. destruct line2; do 5 (destruct round as [|round]; [by vm_compute|]); lia. Qed.

Lemma ripemd_args line2 j : (j < 80)%nat -> code_arg line2 j = spec_arg line2 j.
Proof. intros H. unfold code_arg, spec_arg. rewrite ripemd_constants; [done|]. apply Nat.Div0.div_lt_upper_bound. lia. Qed.

Lemma ripemd_regular line2 : regular line2 <$> seq 0 80 = (fun j => {| second := line2; rregs := names 5 j; rword := order line2 j; rarg := spec_arg line2 j |}) <$> seq 0 80.
Proof. apply list_fmap_ext. intros k j Hj. apply lookup_seq in Hj as [-> Hj]. unfold regular. by rewrite ripemd_args by lia. Qed.

(** The lines do not touch each other. *)
Lemma ripemd_lines w l s1 s2 : fold_left (exec_rcall w) l (s1, s2) =
  (fold_left (fun s c => Round s (rregs c) (rarg c) w.[rword c]) (List.filter (fun c => eqb (second c) false) l) s1,
   fold_left (fun s c => Round s (rregs c) (rarg c) w.[rword c]) (List.filter (fun c => eqb (second c) true) l) s2).
Proof. revert s1 s2. induction l as [|c l IH]; intros s1 s2; [done|]. cbn [fold_left List.filter]. unfold exec_rcall at 2. destruct (second c); cbn [eqb fst snd fold_left]; apply IH. Qed.

Lemma ripemd_all_calls w s1 s2 : fold_left (exec_rcall w) calls (s1, s2) =
  (fold_left (fun s c => Round s (rregs c) (rarg c) w.[rword c]) (line_calls false) s1, fold_left (fun s c => Round s (rregs c) (rarg c) w.[rword c]) (line_calls true) s2).
Proof. unfold line_calls. generalize calls. intros l. apply ripemd_lines. Qed.

Lemma rotate_ac {X} (A : Z -> Z -> Z -> Z -> Z -> X -> Z -> Z) (B : Z -> Z) :
  rotates 5 (fun s p x w => match p with [a; b; c; d; e] => <[c := B s.[c]]> (<[a := A s.[a] s.[b] s.[c] s.[d] s.[e] x w]> s) | _ => s end)
    (fun v x w => match v with [a; b; c; d; e] => [e; A a b c d e x w; b; B c; d] | _ => v end).
Proof. intros i s x w Hi Hs. do 5 (destruct s as [|? s]; [done|]). destruct s; [|done]. do 5 (destruct i as [|i]; [split; reflexivity|]). lia. Qed.

Lemma ripemd_step v arg x : step v arg x =
  match v with [a; b; c; d; e] => [e; SPH_T32 (rol (SPH_T32 (a + arg.1.1 b c d + x + arg.1.2)) arg.2 + e); b; rol c 10; d] | _ => v end.
Proof. destruct arg as [[f k] r]. do 5 (destruct v as [|? v]; [reflexivity|]). destruct v; [|reflexivity]. cbn [step fst snd]. rewrite !T32_mod. reflexivity. Qed.

Lemma ripemd_rotates : rotates 5 Round step.
Proof.
  intros i s arg x Hi Hs. rewrite ripemd_step. destruct arg as [[f k] r].
  exact (rotate_ac (fun a b c d e (arg : round_arg) x => SPH_T32 (rol (SPH_T32 (a + arg.1.1 b c d + x + arg.1.2)) arg.2 + e)) (fun c => rol c 10) i s (f, k, r) x Hi Hs).
Qed.

Lemma ripemd_line line2 w s : length s = 5%nat ->
  fold_left (fun s c => Round s (rregs c) (rarg c) w.[rword c]) (line_calls line2) s = line line2 w s /\ length (line line2 w s) = 5%nat.
Proof.
  intros Hs. set (A := (fun j => (spec_arg line2 j, w.[order line2 j])) <$> seq 0 80). destruct (rounds_fold 5 Round step ltac:(lia) ripemd_rotates A 0 s Hs) as [H1 H2].
  assert (fold_left (fun v '(x, w) => step v x w) A s = line line2 w s) as El by (unfold line, A; by rewrite fold_left_fmap).
  unfold A in H2 at 1. rewrite length_fmap, length_seq, (names_mod 5) in H2 by lia. change ((0 + 80) mod 5)%nat with O in H2. rewrite !(names_0 5), El in H2 by (lia || done).
  rewrite H2 in H1. split; [|done]. rewrite <- H2, ripemd_calls, ripemd_regular, fold_left_fmap. unfold A. rewrite imap_numbers. by rewrite fold_left_fmap.
Qed.

Lemma ripemd_transform s chunk : length s = 5%nat -> Transform s chunk = compress s chunk.
Proof.
  intros Hs. unfold Transform, compress. by rewrite ripemd_all_calls, !(proj1 (ripemd_line _ _ _ Hs)).
Qed.

Lemma compress_length s chunk : length s = 5%nat -> length (compress s chunk) = 5%nat.
Proof.
  intros Hs. unfold compress. set (w := block_words _ _ _). pose proof (proj2 (ripemd_line false w s Hs)) as H1. pose proof (proj2 (ripemd_line true w s Hs)) as H2.
  revert Hs H1 H2. generalize (line false w s) (line true w s). intros l1 l2 Hs H1 H2.
  do 5 (destruct s as [|? s]; [done|]; destruct l1 as [|? l1]; [done|]; destruct l2 as [|? l2]; [done|]). by destruct s, l1, l2.
Qed.

Lemma ripemd_blocks l : fold_left Transform l Initialize = fold_left compress l Initialize /\ length (fold_left compress l Initialize) = 5%nat.
Proof. apply fold_blocks; [apply ripemd_transform|apply compress_length|done]. Qed.

Lemma ripemd_finalize buf ds : length buf = 64%nat -> Finalize (fold_left Write ds (hasher_init buf)) = digest 64 Transform Initialize WriteLE64 (fun s => concat (WriteLE32 <$> s)) (concat ds).
Proof. intros Hb. apply hasher_digest; [lia|by vm_compute|done|lia|done]. Qed.

Lemma ripemd_class buf ds : length buf = 64%nat -> Z.of_nat (length (concat ds)) < 2 ^ 61 -> Finalize (fold_left Write ds (hasher_init buf)) = ripemd160 (concat ds).
Proof. intros Hb Hl. rewrite ripemd_finalize by done. unfold digest, padded, ripemd160. rewrite bit_length by done. by rewrite (proj1 (ripemd_blocks _)). Qed.

Lemma enc32le_ok x : length (WriteLE32 x) = 4%nat /\ words 8 (WriteLE32 x).
Proof. split; [done|]. apply sph_enc32le_words. Qed.

Lemma ripemd_output buf ds : length buf = 64%nat -> words 8 (Finalize (fold_left Write ds (hasher_init buf))) /\ length (Finalize (fold_left Write ds (hasher_init buf))) = 20%nat.
Proof.
  intros Hb. rewrite ripemd_finalize by done. unfold digest. rewrite (proj1 (ripemd_blocks _)).
  destruct (bytes_out WriteLE32 4 (fold_left compress (blocks 64 (padded 64 WriteLE64 (concat ds))) Initialize)) as [H1 H2]; [apply enc32le_ok|].
  split; [done|]. rewrite H1. by rewrite (proj2 (ripemd_blocks _)).
Qed.

Example ripemd160_abc : take 4 (ripemd160 [97; 98; 99]) = [0x8e; 0xb2; 0x08; 0xf7].
Proof. by vm_compute. Qed.

End Ripemd160.
