(* ===== verification/Hashes.v ===== *)
(** * hash.h and hash.cpp

    The double hashes [CHash256] and [CHash160] over the classes of [crypto/], the
    writer that hashes a serialisation, [MurmurHash3], [BIP32Hash] and SipHash.

    The buffers of the hashers are not initialised by the code; they are arguments
    here, and the theorems hold for every content. *)

From Stdlib Require Import ZArith Lia.
From stdpp Require Import base tactics numbers list.
From S2P Require Import Prelude SphTypes Stream Blob Serialize Hasher Sha2 Sha1 Ripemd160 ScriptNum Script Interpreter ScriptSafety.

(** ** hash.h *)

(** [CHash256] holds one [CSHA256]. *)
Definition CHash256_init (buf : list Z) : hasher := Sha256.hasher_init buf.
Definition CHash256_Write (sha : hasher) (data : list Z) : hasher := Sha256.Write sha data.
Definition CHash256_Reset (sha : hasher) : hasher := Reset Sha256.Initialize sha.
(** [sha.Finalize(buf); sha.Reset().Write(buf, 32).Finalize(hash)] *)
Definition CHash256_Finalize (sha : hasher) : list Z :=
  let buf := Sha256.Finalize sha in
  let sha := finalized 64 Sha256.Transform Sha256.WriteBE64 8 sha in
  Sha256.Finalize (Sha256.Write (CHash256_Reset sha) buf).

(** [CHash160]; the [CRIPEMD160] is a temporary with a buffer of its own. *)
Definition CHash160_Finalize (rbuf : list Z) (sha : hasher) : list Z :=
  let buf := Sha256.Finalize sha in
  Ripemd160.Finalize (Ripemd160.Write (Ripemd160.hasher_init rbuf) buf).

(** [Hash] of one, two or three ranges. *)
Definition Hash (buf : list Z) (ranges : list (list Z)) : list Z :=
  CHash256_Finalize (fold_left CHash256_Write ranges (CHash256_init buf)).
Definition Hash160 (buf rbuf : list Z) (range : list Z) : list Z :=
  CHash160_Finalize rbuf (CHash256_Write (CHash256_init buf) range).

(** [CHashWriter]: what is serialised into it, piece by piece, and the hash. *)
Record CHashWriter := { hw_ctx : hasher; hw_nType : Z; hw_nVersion : Z }.
Definition CHashWriter_new (buf : list Z) (nTypeIn nVersionIn : Z) : CHashWriter :=
  {| hw_ctx := CHash256_init buf; hw_nType := nTypeIn; hw_nVersion := nVersionIn |}.
Definition hw_write (w : CHashWriter) (pch : list Z) : CHashWriter :=
  {| hw_ctx := CHash256_Write (hw_ctx w) pch; hw_nType := hw_nType w; hw_nVersion := hw_nVersion w |}.
Definition GetHash (w : CHashWriter) : list Z := CHash256_Finalize (hw_ctx w).
(** [SerializeHash] of an object that is serialised as the given pieces. *)
Definition SerializeHash (buf : list Z) (nType nVersion : Z) (pieces : list (list Z)) : list Z :=
  GetHash (fold_left hw_write pieces (CHashWriter_new buf nType nVersion)).

(** The calls of the interpreter: a temporary hasher that is written once. *)
Definition run_ripemd160 (buf m : list Z) : list Z := Ripemd160.Finalize (Ripemd160.Write (Ripemd160.hasher_init buf) m).
Definition run_sha1 (buf m : list Z) : list Z := Sha1.Finalize (Sha1.Write (Sha1.hasher_init buf) m).
Definition run_sha256 (buf m : list Z) : list Z := Sha256.Finalize (Sha256.Write (Sha256.hasher_init buf) m).

(** ** MurmurHash3 *)

Definition ROTL32 (x r : Z) : Z := SPH_T32 ((x << r) .| (x >> (32 - r))).
Definition murmur_c1 : Z := 0xcc9e2d51.
Definition murmur_c2 : Z := 0x1b873593.

(** The body of the loop over the blocks *)
Definition murmur_body (vDataToHash : list Z) (h1 : Z) (i : nat) : Z :=
  let k1 := sph_dec32le (drop (4 * i) vDataToHash) in
  let k1 := SPH_T32 (k1 * murmur_c1) in
  let k1 := ROTL32 k1 15 in
  let k1 := SPH_T32 (k1 * murmur_c2) in
  let h1 := h1 ⊕ k1 in
  let h1 := ROTL32 h1 13 in
  SPH_T32 (h1 * 5 + 0xe6546b64).

(** The [switch] falls through from the third byte to the first. *)
Definition murmur_tail (tail : list Z) (left : nat) (h1 : Z) : Z :=
  let k1 := 0 in
  let k1 := if (3 <=? left)%nat then k1 ⊕ (tail.[2] << 16) else k1 in
  let k1 := if (2 <=? left)%nat then k1 ⊕ (tail.[1] << 8) else k1 in
  if (1 <=? left)%nat then
    let k1 := k1 ⊕ tail.[0] in
    let k1 := SPH_T32 (k1 * murmur_c1) in
    let k1 := ROTL32 k1 15 in
    let k1 := SPH_T32 (k1 * murmur_c2) in
    h1 ⊕ k1
  else h1.

Definition murmur_final (h1 : Z) (size : nat) : Z :=
  let h1 := SPH_T32 (h1 ⊕ Z.of_nat size) in
  let h1 := h1 ⊕ (h1 >> 16) in
  let h1 := SPH_T32 (h1 * 0x85ebca6b) in
  let h1 := h1 ⊕ (h1 >> 13) in
  let h1 := SPH_T32 (h1 * 0xc2b2ae35) in
  h1 ⊕ (h1 >> 16).

Definition MurmurHash3 (nHashSeed : Z) (vDataToHash : list Z) : Z :=
  let size := length vDataToHash in
  let h1 := nHashSeed in
  let h1 :=
    if (0 <? size)%nat then
      let nblocks := (size / 4)%nat in
      let h1 := fold_left (murmur_body vDataToHash) (seq 0 nblocks) h1 in
      murmur_tail (drop (nblocks * 4) vDataToHash) (size mod 4) h1
    else h1 in
  murmur_final h1 size.

(** ** BIP32Hash *)

Definition BIP32Hash (buf1 buf2 buf3 chainCode : list Z) (nChild header : Z) (data : list Z) : list Z :=
  let num := [(nChild >> 24) .& 0xFF; (nChild >> 16) .& 0xFF; (nChild >> 8) .& 0xFF; (nChild >> 0) .& 0xFF] in
  Sha512.CHMAC_Finalize (Sha512.CHMAC_Write (Sha512.CHMAC_Write (Sha512.CHMAC_Write (Sha512.CHMAC buf1 buf2 buf3 chainCode) [header]) data) num).

(** ** SipHash *)

Definition ROTL (x b : Z) : Z := SPH_T64 ((x << b) .| (x >> (64 - b))).

Definition SIPROUND (v : list Z) : list Z :=
  match v with
  | [v0; v1; v2; v3] =>
      let v0 := SPH_T64 (v0 + v1) in let v1 := ROTL v1 13 in let v1 := v1 ⊕ v0 in
      let v0 := ROTL v0 32 in
      let v2 := SPH_T64 (v2 + v3) in let v3 := ROTL v3 16 in let v3 := v3 ⊕ v2 in
      let v0 := SPH_T64 (v0 + v3) in let v3 := ROTL v3 21 in let v3 := v3 ⊕ v0 in
      let v2 := SPH_T64 (v2 + v1) in let v1 := ROTL v1 17 in let v1 := v1 ⊕ v2 in
      let v2 := ROTL v2 32 in
      [v0; v1; v2; v3]
  | _ => v
  end.

(** [v.[i] ^= d] *)
Definition xor_at (i : nat) (d : Z) (v : list Z) : list Z := <[i := v.[i] ⊕ d]> v.

Record CSipHasher := { sip_v : list Z; sip_tmp : Z; sip_count : Z }.

Definition CSipHasher_new (k0 k1 : Z) : CSipHasher :=
  {| sip_v := [0x736f6d6570736575 ⊕ k0; 0x646f72616e646f6d ⊕ k1; 0x6c7967656e657261 ⊕ k0; 0x7465646279746573 ⊕ k1]; sip_tmp := 0; sip_count := 0 |}.

(** [Write(uint64_t)]; the assertion fails as [None]. *)
Definition sip_Write64 (c : CSipHasher) (data : Z) : option CSipHasher :=
  if sip_count c mod 8 =? 0 then
    let v := xor_at 3 data (sip_v c) in
    let v := SIPROUND (SIPROUND v) in
    let v := xor_at 0 data v in
    Some {| sip_v := v; sip_tmp := sip_tmp c; sip_count := sip_count c + 8 |}
  else None.

(** One byte of [Write(const unsigned char*, size_t)]. *)
Definition sip_byte (c : CSipHasher) (b : Z) : CSipHasher :=
  let t := sip_tmp c .| SPH_T64 (b << (8 * (sip_count c mod 8))) in
  let n := sip_count c + 1 in
  if n .& 7 =? 0 then {| sip_v := xor_at 0 t (SIPROUND (SIPROUND (xor_at 3 t (sip_v c)))); sip_tmp := 0; sip_count := n |}
  else {| sip_v := sip_v c; sip_tmp := t; sip_count := n |}.
Definition sip_Write (c : CSipHasher) (data : list Z) : CSipHasher := fold_left sip_byte data c.

Definition sip_Finalize (c : CSipHasher) : Z :=
  let t := sip_tmp c .| SPH_T64 (sip_count c << 56) in
  let v := xor_at 3 t (sip_v c) in
  let v := SIPROUND (SIPROUND v) in
  let v := xor_at 0 t v in
  let v := xor_at 2 0xFF v in
  let v := SIPROUND (SIPROUND (SIPROUND (SIPROUND v))) in
  v.[0] ⊕ v.[1] ⊕ v.[2] ⊕ v.[3].

Definition SipHashUint256 (k0 k1 : Z) (val : uint256) : Z :=
  let d := GetUint64 val 0 in
  let v := [0x736f6d6570736575 ⊕ k0; 0x646f72616e646f6d ⊕ k1; 0x6c7967656e657261 ⊕ k0; 0x7465646279746573 ⊕ k1 ⊕ d] in
  let v := SIPROUND (SIPROUND v) in
  let v := xor_at 0 d v in
  let d := GetUint64 val 1 in
  let v := xor_at 3 d v in
  let v := SIPROUND (SIPROUND v) in
  let v := xor_at 0 d v in
  let d := GetUint64 val 2 in
  let v := xor_at 3 d v in
  let v := SIPROUND (SIPROUND v) in
  let v := xor_at 0 d v in
  let d := GetUint64 val 3 in
  let v := xor_at 3 d v in
  let v := SIPROUND (SIPROUND v) in
  let v := xor_at 0 d v in
  let v := xor_at 3 (4 << 59) v in
  let v := SIPROUND (SIPROUND v) in
  let v := xor_at 0 (4 << 59) v in
  let v := xor_at 2 0xFF v in
  let v := SIPROUND (SIPROUND (SIPROUND (SIPROUND v))) in
  v.[0] ⊕ v.[1] ⊕ v.[2] ⊕ v.[3].

(** ** Specifications *)

(** MurmurHash3 (x86, 32 bit) on the little-endian numbers of the blocks and the tail. *)
Definition murmur_scramble (k : Z) : Z := (SPH_ROTL32 ((k * murmur_c1) mod 2 ^ 32) 15 * murmur_c2) mod 2 ^ 32.
Definition murmur_mix (h k : Z) : Z := (SPH_ROTL32 (h ⊕ murmur_scramble k) 13 * 5 + 0xe6546b64) mod 2 ^ 32.
Definition murmur3 (seed : Z) (msg : list Z) : Z :=
  let h := fold_left murmur_mix (load_le <$> blocks 4 msg) seed in
  murmur_final (h ⊕ murmur_scramble (load_le (tail_bytes 4 msg))) (length msg).

(** SipHash with two compression rounds for a block and four at the end. *)
Definition sip_round (v : list Z) : list Z :=
  match v with
  | [v0; v1; v2; v3] =>
      let v0 := (v0 + v1) mod 2 ^ 64 in let v2 := (v2 + v3) mod 2 ^ 64 in
      let v1 := SPH_ROTL64 v1 13 ⊕ v0 in let v3 := SPH_ROTL64 v3 16 ⊕ v2 in
      let v0 := SPH_ROTL64 v0 32 in
      let v2 := (v2 + v1) mod 2 ^ 64 in let v0 := (v0 + v3) mod 2 ^ 64 in
      let v1 := SPH_ROTL64 v1 17 ⊕ v2 in let v3 := SPH_ROTL64 v3 21 ⊕ v0 in
      [v0; v1; SPH_ROTL64 v2 32; v3]
  | _ => v
  end.
Definition sip_compress (v : list Z) (m : Z) : list Z := xor_at 0 m (Nat.iter 2 sip_round (xor_at 3 m v)).
Definition siphash24 (k0 k1 : Z) (msg : list Z) : Z :=
  let v := fold_left sip_compress (load_le <$> blocks 8 msg) (sip_v (CSipHasher_new k0 k1)) in
  let v := sip_compress v (load_le (tail_bytes 8 msg) .| ((Z.of_nat (length msg) mod 256) << 56)) in
  foldr Z.lxor 0 (Nat.iter 4 sip_round (xor_at 2 0xFF v)).

(** Words and byte strings written in turn; words only on the boundary of a word. *)
Definition sip_event (c : CSipHasher) (e : Z + list Z) : option CSipHasher :=
  match e with inl w => sip_Write64 c w | inr data => Some (sip_Write c data) end.
Fixpoint sip_events (c : CSipHasher) (es : list (Z + list Z)) : option CSipHasher :=
  match es with [] => Some c | e :: es => sip_event c e ≫= fun c => sip_events c es end.
Definition event_bytes (e : Z + list Z) : list Z := match e with inl w => store_le 8 w | inr data => data end.
Fixpoint words_aligned (n : nat) (es : list (Z + list Z)) : bool :=
  match es with
  | [] => true
  | inl w :: es => (n mod 8 =? 0)%nat && words_aligned (n + 8) es
  | inr data :: es => words_aligned (n + length data) es
  end.

(** ** The double hashes *)

Lemma sha256_hashing buf ds : length buf = 64%nat -> hashing 64 Sha256.Transform Sha256.Initialize (concat ds) (fold_left Sha256.Write ds (Sha256.hasher_init buf)).
Proof. intros H. apply (hashing_writes 64 _ _ ltac:(lia) ltac:(by vm_compute) ds []), hashing_new; [lia|done]. Qed.

Lemma sha256_hashed msg c : hashing 64 Sha256.Transform Sha256.Initialize msg c -> Z.of_nat (length msg) < 2 ^ 61 -> Sha256.Finalize c = Sha256.sha256 msg.
Proof. intros Hc Hl. rewrite <- Sha256.sha256_digest_small by done. apply finalize_digest; [lia|by vm_compute|done|lia|done]. Qed.

Lemma chash256 buf ds : length buf = 64%nat -> Z.of_nat (length (concat ds)) < 2 ^ 61 ->
  CHash256_Finalize (fold_left CHash256_Write ds (CHash256_init buf)) = Sha256.sha256 (Sha256.sha256 (concat ds)).
Proof.
  intros Hb Hl. unfold CHash256_Finalize, CHash256_init, CHash256_Reset. change CHash256_Write with Sha256.Write. rewrite Sha256.sha256_class by done.
  set (c := fold_left _ _ _). pose proof (hashing_reset 64 Sha256.Transform Sha256.Initialize Sha256.WriteBE64 8 ltac:(lia) ltac:(by vm_compute) (concat ds) c (sha256_hashing buf ds Hb)) as Hr.
  apply (hashing_write 64 _ _ ltac:(lia) ltac:(by vm_compute) _ _ (Sha256.sha256 (concat ds))) in Hr. cbn [app] in Hr.
  apply sha256_hashed; [done|]. rewrite Sha256.sha256_length. lia.
Qed.

(** One call of [Write]. *)
Lemma concat_one (m : list Z) : concat [m] = m.
Proof. cbn [concat]. apply app_nil_r. Qed.

Lemma run_sha256_ok buf m : length buf = 64%nat -> Z.of_nat (length m) < 2 ^ 61 -> run_sha256 buf m = Sha256.sha256 m.
Proof. intros Hb Hl. rewrite <- (concat_one m) at 2. apply (Sha256.sha256_class buf [m]); [done|by rewrite concat_one]. Qed.
Lemma run_sha1_ok buf m : length buf = 64%nat -> Z.of_nat (length m) < 2 ^ 61 -> run_sha1 buf m = Sha1.sha1 m.
Proof. intros Hb Hl. rewrite <- (concat_one m) at 2. apply (Sha1.sha1_class buf [m]); [done|by rewrite concat_one]. Qed.
Lemma run_ripemd160_ok buf m : length buf = 64%nat -> Z.of_nat (length m) < 2 ^ 61 -> run_ripemd160 buf m = Ripemd160.ripemd160 m.
Proof. intros Hb Hl. rewrite <- (concat_one m) at 2. apply (Ripemd160.ripemd_class buf [m]); [done|by rewrite concat_one]. Qed.

Lemma chash160 buf rbuf m : length buf = 64%nat -> length rbuf = 64%nat -> Z.of_nat (length m) < 2 ^ 61 -> Hash160 buf rbuf m = Ripemd160.ripemd160 (Sha256.sha256 m).
Proof.
  intros Hb Hr Hl. unfold Hash160, CHash160_Finalize, CHash256_init, CHash256_Write. pose proof (run_sha256_ok buf m Hb Hl) as E1. unfold run_sha256 in E1. rewrite E1.
  assert (Z.of_nat (length (Sha256.sha256 m)) < 2 ^ 61) as Hs by (rewrite Sha256.sha256_length; lia). pose proof (run_ripemd160_ok rbuf _ Hr Hs) as E2. unfold run_ripemd160 in E2. by rewrite E2.
Qed.

Lemma hash_writer pieces buf t v : hw_ctx (fold_left hw_write pieces (CHashWriter_new buf t v)) = fold_left CHash256_Write pieces (CHash256_init buf).
Proof. apply (fold_left_sim (fun c w => hw_ctx w = c)); [done|]. by intros c w x _ <-. Qed.

(** ** MurmurHash3 *)

Lemma load_le_snoc l b : load_le (l ++ [b]) = load_le l .| (b << (8 * Z.of_nat (length l))).
Proof.
  induction l as [|x l IH]; cbn [app load_le length]; [by rewrite Z.shiftl_0_l, Z.lor_0_r, Z.lor_0_l, Z.shiftl_0_r|]. rewrite IH, Z.shiftl_lor, Z.shiftl_shiftl, Z.lor_assoc by lia. do 2 f_equal. lia.
Qed.

Lemma dec32le_load l : (4 <= length l)%nat -> sph_dec32le l = load_le (take 4 l).
Proof. intros H. do 4 (destruct l as [|? l]; [cbn in H; lia|]). unfold sph_dec32le. cbn [take load_le nth]. rewrite !Z.shiftl_lor, !Z.shiftl_shiftl, Z.shiftl_0_l, Z.lor_0_r, !Z.lor_assoc by lia. reflexivity. Qed.

Lemma GetUint64_load l i : (8 * i + 8 <= length l)%nat -> GetUint64 l i = load_le (take 8 (drop (8 * i) l)).
Proof.
  intros H. unfold GetUint64. cbv zeta. assert (8 <= length (drop (8 * i) l))%nat as Hd by (rewrite length_drop; lia). destruct (drop (8 * i) l) as [|x0 l0]; [cbn in Hd; lia|].
  do 7 (destruct l0 as [|? l0]; [cbn in Hd; lia|]). cbn [take load_le nth]. rewrite !Z.shiftl_lor, !Z.shiftl_shiftl, Z.shiftl_0_l, Z.lor_0_r, !Z.lor_assoc by lia. reflexivity.
Qed.

Lemma take_blocks_seq bs n msg : take_blocks bs n msg = (fun i => take bs (drop (bs * i) msg)) <$> seq 0 n.
Proof.
  revert msg. induction n as [|n IH]; intros msg; [done|]. cbn [take_blocks seq]. rewrite fmap_cons, Nat.mul_0_r, drop_0. f_equal. rewrite IH, <- fmap_S_seq, <- list_fmap_compose.
  apply list_fmap_ext. intros _ i _. cbn. rewrite drop_drop. do 2 f_equal. lia.
Qed.

Lemma murmur_blocks msg h : fold_left (murmur_body msg) (seq 0 (length msg / 4)) h = fold_left murmur_mix (load_le <$> blocks 4 msg) h.
Proof.
  unfold blocks. rewrite take_blocks_seq, <- list_fmap_compose, fold_left_fmap. apply fold_left_ext. intros a i Hi. apply list_elem_of_In, in_seq in Hi.
  unfold murmur_body, compose. rewrite dec32le_load; [|rewrite length_drop; pose proof (Nat.div_mod_eq (length msg) 4); lia].
  unfold murmur_mix, murmur_scramble. rewrite !T32_mod. reflexivity.
Qed.

Lemma lor_lxor_disjoint a b n : word n a -> 0 <= n -> a .| (b << n) = a ⊕ (b << n).
Proof.
  intros Ha Hn. bits_intro i Hi. rewrite Z.lor_spec, Z.lxor_spec, Z.shiftl_spec by done. destruct (decide (i < n)).
  - rewrite (Z.testbit_neg_r b) by lia. by destruct (Z.testbit a i).
  - by rewrite (word_bit_high n a i) by (done || lia).
Qed.

(** The fall-through builds the number of the remaining bytes. *)
Lemma murmur_rest l h : words 8 l -> (length l < 4)%nat -> murmur_tail l (length l) h = h ⊕ murmur_scramble (load_le l).
Proof.
  intros Hw Hm. unfold murmur_tail, murmur_scramble. rewrite !T32_mod. change ROTL32 with SPH_ROTL32.
  destruct l as [|a [|b [|c [|d l]]]]; cbn in Hm; [| | | |lia]; cbn [length Nat.leb nth load_le]; rewrite ?Z.lxor_0_l, ?Z.shiftl_0_l, ?Z.lor_0_r; [by rewrite Z.lxor_0_r|done| |];
    apply Forall_cons in Hw as [Ha Hw]; rewrite (lor_lxor_disjoint a _ 8) by (done || lia); [by rewrite (Z.lxor_comm a)|].
  apply Forall_cons in Hw as [Hb Hw]. rewrite (lor_lxor_disjoint b c 8) by (done || lia). rewrite Z.shiftl_lxor, Z.shiftl_shiftl by lia. rewrite (Z.lxor_comm a), (Z.lxor_comm (b << 8)). reflexivity.
Qed.

Lemma murmur_ok seed msg : words 8 msg -> MurmurHash3 seed msg = murmur3 seed msg.
Proof.
  intros Hw. unfold MurmurHash3, murmur3. cbv zeta. pose proof (length_tail_bytes 4 ltac:(lia) msg) as Ht. destruct (Nat.ltb_spec 0 (length msg)) as [Hl|Hl].
  - rewrite murmur_blocks, <- Ht. change (drop (length msg / 4 * 4) msg) with (tail_bytes 4 msg). rewrite murmur_rest; [done|by apply Forall_drop|]. rewrite Ht. apply Nat.mod_upper_bound. lia.
  - assert (msg = []) as -> by (apply nil_length_inv; lia). cbn [length]. change (tail_bytes 4 []) with (@nil Z). change (murmur_scramble (load_le [])) with 0. by rewrite Z.lxor_0_r.
Qed.

Lemma murmur_word seed msg : word 32 (MurmurHash3 seed msg).
Proof. unfold MurmurHash3, murmur_final. cbv zeta. apply word_lxor; [apply T32_word|]. apply word_shiftr; [lia|apply T32_word]. Qed.

(** ** SipHash *)

Lemma sip_rounds v : SIPROUND v = sip_round v.
Proof. unfold SIPROUND, sip_round. do 4 (destruct v as [|? v]; [done|]). destruct v; [|done]. rewrite !T64_mod. reflexivity. Qed.

Lemma sip_rounds2 v d : xor_at 0 d (SIPROUND (SIPROUND (xor_at 3 d v))) = sip_compress v d.
Proof. by rewrite !sip_rounds. Qed.

Definition sip_state (k0 k1 : Z) (msg : list Z) (c : CSipHasher) : Prop :=
  sip_v c = fold_left sip_compress (load_le <$> blocks 8 msg) (sip_v (CSipHasher_new k0 k1)) /\
  sip_tmp c = load_le (tail_bytes 8 msg) /\ sip_count c = Z.of_nat (length msg).

Lemma sip_count_mod msg c k0 k1 : sip_state k0 k1 msg c -> sip_count c mod 8 = Z.of_nat (length msg mod 8).
Proof. intros (_ & _ & ->). by rewrite Nat2Z.inj_mod. Qed.

Lemma sip_byte_ok k0 k1 msg c b : word 8 b -> sip_state k0 k1 msg c -> sip_state k0 k1 (msg ++ [b]) (sip_byte c b).
Proof.
  intros Hb Hc. unfold sip_byte. rewrite (sip_count_mod msg c k0 k1 Hc). destruct Hc as (Hv & Ht & Hn). cbv zeta. pose proof (Nat.mod_upper_bound (length msg) 8 ltac:(lia)) as Hm.
  assert (sip_tmp c .| SPH_T64 (b << (8 * Z.of_nat (length msg mod 8))) = load_le (tail_bytes 8 msg ++ [b])) as ->.
  { rewrite load_le_snoc, (length_tail_bytes 8 ltac:(lia)), Ht. f_equal. apply T64_id. apply word_shiftl_byte; (done || lia). }
  assert (sip_count c + 1 = Z.of_nat (length (msg ++ [b]))) as -> by (rewrite length_app, Hn; cbn; lia).
  assert ((Z.of_nat (length (msg ++ [b])) .& 7 =? 0) = bool_decide (S (length msg mod 8) = 8%nat)) as ->.
  { change 7 with (Z.ones 3). rewrite Z.land_ones, length_app by lia. change (2 ^ 3) with (Z.of_nat 8). rewrite <- Nat2Z.inj_mod. cbn [length]. pose proof (Nat.div_mod_eq (length msg) 8) as Hd.
    case_bool_decide as E.
    - replace (length msg + 1)%nat with ((length msg / 8 + 1) * 8)%nat by lia. by rewrite Nat.Div0.mod_mul.
    - replace (length msg + 1)%nat with (length msg mod 8 + 1 + length msg / 8 * 8)%nat by lia. rewrite Nat.Div0.mod_add, Nat.mod_small by lia. apply Z.eqb_neq. lia. }
  unfold sip_state. case_bool_decide as E.
  - destruct (blocks_snoc_fill 8 ltac:(lia) msg b E) as [-> ->]. split; [|done]. cbn [sip_v]. by rewrite sip_rounds2, fmap_app, fold_left_app, <- Hv.
  - destruct (blocks_snoc_short 8 ltac:(lia) msg b E) as [-> ->]. done.
Qed.

Lemma sip_write_ok k0 k1 data msg c : words 8 data -> sip_state k0 k1 msg c -> sip_state k0 k1 (msg ++ data) (sip_Write c data).
Proof.
  revert msg c. induction data as [|b data IH]; intros msg c Hw Hc; [by rewrite app_nil_r|]. apply Forall_cons in Hw as [Hb Hw].
  change (sip_Write c (b :: data)) with (sip_Write (sip_byte c b) data). rewrite (cons_middle b msg data), app_assoc. apply IH; [done|]. by apply sip_byte_ok.
Qed.

(** A word on the boundary of a word. *)
Lemma sip_write64_ok k0 k1 w msg c : word 64 w -> (length msg mod 8 = 0)%nat -> sip_state k0 k1 msg c -> exists c', sip_Write64 c w = Some c' /\ sip_state k0 k1 (msg ++ store_le 8 w) c'.
Proof.
  intros Hw Hm Hc. unfold sip_Write64. rewrite (sip_count_mod msg c k0 k1 Hc), Hm. cbn [Z.of_nat Z.eqb]. eexists. split; [reflexivity|]. destruct Hc as (Hv & Ht & Hn).
  assert (tail_bytes 8 msg = []) as Htl by (apply nil_length_inv; by rewrite (length_tail_bytes 8 ltac:(lia))).
  split; [|split]; cbn [sip_v sip_tmp sip_count].
  - rewrite sip_rounds2, (blocks_app 8 ltac:(lia)), Htl. cbn [app]. rewrite (blocks_one 8 ltac:(lia) (store_le 8 w) eq_refl). rewrite fmap_app, fold_left_app, <- Hv. cbn [fmap list_fmap fold_left]. by rewrite load_store_le.
  - rewrite Ht, Htl. rewrite (tail_app 8 ltac:(lia)), Htl. reflexivity.
  - rewrite length_app, Hn. cbn [store_le length]. lia.
Qed.

Lemma sip_compress_length v m : length v = 4%nat -> length (sip_compress v m) = 4%nat.
Proof. intros Hv. do 4 (destruct v as [|? v]; [done|]). by destruct v. Qed.

(** The end of both computations. *)
Lemma sip_end v : length v = 4%nat -> (let u := SIPROUND (SIPROUND (SIPROUND (SIPROUND (xor_at 2 0xFF v)))) in u.[0] ⊕ u.[1] ⊕ u.[2] ⊕ u.[3]) = foldr Z.lxor 0 (Nat.iter 4 sip_round (xor_at 2 0xFF v)).
Proof.
  intros Hv. cbv zeta. rewrite !sip_rounds. assert (forall f (x : list Z), Nat.iter 4 f x = f (f (f (f x)))) as -> by done.
  assert (forall v, length v = 4%nat -> length (sip_round v) = 4%nat) as Hr by (intros u E; do 4 (destruct u as [|? u]; [done|]); by destruct u).
  assert (length (sip_round (sip_round (sip_round (sip_round (xor_at 2 0xFF v))))) = 4%nat) as H4 by (do 4 apply Hr; unfold xor_at; by rewrite length_insert).
  revert H4. generalize (sip_round (sip_round (sip_round (sip_round (xor_at 2 0xFF v))))). intros u Hu. do 4 (destruct u as [|? u]; [done|]). destruct u; [|done]. cbn [nth foldr]. by rewrite Z.lxor_0_r, !Z.lxor_assoc.
Qed.

Lemma sip_finalize_ok k0 k1 msg c : sip_state k0 k1 msg c -> length (sip_v c) = 4%nat -> sip_Finalize c = siphash24 k0 k1 msg.
Proof.
  intros (Hv & Ht & Hn) Hl. unfold sip_Finalize, siphash24. cbv zeta. rewrite Ht, Hn, <- Hv.
  assert (SPH_T64 (Z.of_nat (length msg) << 56) = (Z.of_nat (length msg) mod 256) << 56) as ->.
  { rewrite T64_mod, !Z.shiftl_mul_pow2 by lia. change (2 ^ 64) with (256 * 2 ^ 56). by rewrite Zmult_mod_distr_r. }
  rewrite sip_rounds2. apply sip_end. by apply sip_compress_length.
Qed.

Lemma sip_state_length k0 k1 msg c : sip_state k0 k1 msg c -> length (sip_v c) = 4%nat.
Proof.
  intros (-> & _). generalize (load_le <$> blocks 8 msg). intros l. assert (length (sip_v (CSipHasher_new k0 k1)) = 4%nat) as H by done. revert H. generalize (sip_v (CSipHasher_new k0 k1)).
  induction l as [|m l IH]; intros v Hv; [done|]. cbn [fold_left]. by apply IH, sip_compress_length.
Qed.

Definition event_ok (e : Z + list Z) : Prop := match e with inl w => word 64 w | inr data => words 8 data end.

Lemma sip_events_ok k0 k1 es msg c : Forall event_ok es -> words_aligned (length msg) es = true -> sip_state k0 k1 msg c ->
  exists c', sip_events c es = Some c' /\ sip_state k0 k1 (msg ++ concat (event_bytes <$> es)) c'.
Proof.
  revert msg c. induction es as [|e es IH]; intros msg c Hok Ha Hc; [exists c; split; [done|]; by rewrite app_nil_r|]. apply Forall_cons in Hok as [He Hok]. rewrite fmap_cons. cbn [concat sip_events]. rewrite app_assoc.
  destruct e as [w|data]; cbn [words_aligned sip_event event_bytes] in *.
  - apply andb_prop in Ha as [Hm Ha]. apply Nat.eqb_eq in Hm. destruct (sip_write64_ok k0 k1 w msg c He Hm Hc) as (c1 & -> & Hc1). cbn [mbind option_bind]. apply IH; [done| |done]. by rewrite length_app.
  - cbn [mbind option_bind]. apply IH; [done|by rewrite length_app|]. by apply sip_write_ok.
Qed.

Lemma sip_new k0 k1 : sip_state k0 k1 [] (CSipHasher_new k0 k1).
Proof. done. Qed.

Lemma sip_start k0 k1 d : [0x736f6d6570736575 ⊕ k0; 0x646f72616e646f6d ⊕ k1; 0x6c7967656e657261 ⊕ k0; 0x7465646279746573 ⊕ k1 ⊕ d] = xor_at 3 d (sip_v (CSipHasher_new k0 k1)).
Proof. reflexivity. Qed.

Lemma sip_uint256_ok k0 k1 val : length val = 32%nat -> SipHashUint256 k0 k1 val = siphash24 k0 k1 val.
Proof.
  intros Hl. unfold SipHashUint256. cbv zeta. rewrite sip_start, !sip_rounds2. set (v0 := sip_v _).
  assert (length (sip_compress (sip_compress (sip_compress (sip_compress (sip_compress v0 (GetUint64 val 0)) (GetUint64 val 1)) (GetUint64 val 2)) (GetUint64 val 3)) (4 << 59)) = 4%nat) as H4 by (do 5 apply sip_compress_length; done).
  etransitivity; [exact (sip_end _ H4)|]. clear H4. unfold siphash24. fold v0. clearbody v0. cbv zeta. do 3 f_equal.
  unfold blocks, tail_bytes. rewrite Hl, take_blocks_seq, drop_ge by (rewrite Hl; cbn; lia). assert (32 / 8 = 4)%nat as -> by done. cbn [seq fmap list_fmap fold_left load_le]. rewrite Z.lor_0_l.
  rewrite <- !GetUint64_load by (rewrite Hl; lia). f_equal.
Qed.

(** ** The theorems *)

(** The hashes of the node are what their names say for every input and every content
    of the uninitialised buffers: [Hash] and [SerializeHash] are the double SHA-256 of
    the concatenated pieces (with the hasher used a second time behind [Reset]),
    [Hash160] is RIPEMD-160 of SHA-256, and [BIP32Hash] the keyed SHA-512 of the
    header, the data and the big-endian number of the child. *)
Theorem node_hashes buf buf1 kbuf ranges m nType nVersion chainCode nChild header data :
  length buf = 64%nat -> length buf1 = 64%nat -> length kbuf = 128%nat -> Z.of_nat (length (concat ranges)) < 2 ^ 61 -> Z.of_nat (length m) < 2 ^ 61 -> length chainCode = 32%nat -> length data = 32%nat ->
  Hash buf ranges = Sha256.sha256 (Sha256.sha256 (concat ranges)) /\
  SerializeHash buf nType nVersion ranges = Sha256.sha256 (Sha256.sha256 (concat ranges)) /\
  Hash160 buf buf1 m = Ripemd160.ripemd160 (Sha256.sha256 m) /\
  BIP32Hash kbuf kbuf kbuf chainCode nChild header data = Sha512.hmac_sha512 chainCode (header :: data ++ sph_enc32be nChild).
Proof.
  intros Hb Hb1 Hk Hl Hm Hc Hd. split; [by apply chash256|]. split; [unfold SerializeHash, GetHash; rewrite hash_writer; by apply chash256|]. split; [by apply chash160|].
  pose proof (Sha512.sha512_hmac kbuf kbuf kbuf chainCode [[header]; data; sph_enc32be nChild] Hk Hk Hk) as E. cbn [concat app fold_left] in E. rewrite app_nil_r in E. apply E; [rewrite Hc; lia|]. cbn [length]. rewrite length_app, Hd. cbn [sph_enc32be length]. lia.
Qed.

Lemma node_hashes_witness :
  Hash (replicate 64 7) [[97]; [98; 99]] = Sha256.sha256 (Sha256.sha256 (concat [[97]; [98; 99]])) /\
  take 4 (Sha256.sha256 (Sha256.sha256 [97; 98; 99])) = [0x4f; 0x8b; 0x42; 0xc2].
Proof. split; [|by vm_compute]. refine (proj1 (node_hashes (replicate 64 7) (replicate 64 0) (replicate 128 0) [[97]; [98; 99]] [] 0 0 (replicate 32 0) 0 0 (replicate 32 0) _ _ _ _ _ _ _)); by vm_compute. Defined.

(** [CSipHasher] gives SipHash-2-4 of all bytes written, in any mixture of byte strings
    and of words that start on the boundary of a word, where the assertion holds, and
    the specialised [SipHashUint256] gives the same value as the general class. *)
Theorem siphash_spec k0 k1 es val : Forall event_ok es -> words_aligned 0 es = true -> length val = 32%nat ->
  (exists c, sip_events (CSipHasher_new k0 k1) es = Some c /\ sip_Finalize c = siphash24 k0 k1 (concat (event_bytes <$> es))) /\
  SipHashUint256 k0 k1 val = siphash24 k0 k1 val.
Proof.
  intros Hok Ha Hv. split; [|by apply sip_uint256_ok]. destruct (sip_events_ok k0 k1 es [] _ Hok Ha (sip_new k0 k1)) as (c & E & Hc). exists c. split; [done|]. apply sip_finalize_ok; [done|]. by eapply sip_state_length.
Qed.

(** The key and the input of the test vectors of the code. *)
Lemma siphash_spec_witness :
  (exists c, sip_events (CSipHasher_new 0x0706050403020100 0x0F0E0D0C0B0A0908) [inl 0x0706050403020100; inr [8; 9]] = Some c /\
    sip_Finalize c = siphash24 0x0706050403020100 0x0F0E0D0C0B0A0908 (concat (event_bytes <$> [inl 0x0706050403020100; inr [8; 9]]))) /\
  siphash24 0x0706050403020100 0x0F0E0D0C0B0A0908 [0; 1; 2; 3; 4; 5; 6; 7] = 0x93f5f5799a932462.
Proof.
  split; [|by vm_compute]. refine (proj1 (siphash_spec 0x0706050403020100 0x0F0E0D0C0B0A0908 [inl 0x0706050403020100; inr [8; 9]] (replicate 32 0) _ _ _)); [|by vm_compute|done].
  repeat constructor; cbn; lia.
Defined.

(** [MurmurHash3] with its pointer arithmetic and the [switch] that falls through is
    the hash of the little-endian blocks and of the remaining bytes. *)
Theorem murmur_spec seed msg : words 8 msg -> MurmurHash3 seed msg = murmur3 seed msg.
Proof. apply murmur_ok. Qed.

Lemma murmur_spec_witness : MurmurHash3 0xFBA4C795 [0] = murmur3 0xFBA4C795 [0] /\ MurmurHash3 0xFBA4C795 [0] = 0xea3f0b17 /\ MurmurHash3 0 [0; 17; 34; 51; 68; 85; 102] = 0xb074502c.
Proof. split; [apply murmur_spec; repeat constructor; cbn; lia|by vm_compute]. Defined.

(** The script interpreter with the node's own hashes in place of the parameters never
    aborts: their outputs are bytes of the length the interpreter relies on. *)
Theorem verify_script_node_hashes buf CheckLowS flags checker scriptSig scriptPubKey witness : length buf = 64%nat ->
  words 8 scriptSig -> words 8 scriptPubKey -> Forall (Forall (word 8)) witness -> Z.of_nat (length witness) < 2 ^ 62 -> flags_ok flags ->
  VerifyScript (run_ripemd160 buf) (run_sha1 buf) (run_sha256 buf) CheckLowS flags checker scriptSig scriptPubKey witness <> Abort.
Proof.
  intros Hb. apply verify_script_safe; intros m; [apply (Ripemd160.ripemd_output buf [m])|apply (Sha1.sha1_output buf [m])|apply (Sha256.sha256_output buf [m])]; done.
Qed.

(** A pay-to-script-hash output of the script [OP_1], with the hashes of the node. *)
Definition demo_output : list Z := script_to_script (run_ripemd160 (replicate 64 0) (run_sha256 (replicate 64 0) [OP_1])).

Lemma verify_script_node_hashes_witness :
  VerifyScript (run_ripemd160 (replicate 64 0)) (run_sha1 (replicate 64 0)) (run_sha256 (replicate 64 0)) (fun _ => true)
    (SCRIPT_VERIFY_P2SH .| SCRIPT_VERIFY_WITNESS .| SCRIPT_VERIFY_CLEANSTACK) demo_checker (push [OP_1]) demo_output [] <> Abort.
Proof.
  apply verify_script_node_hashes; [done|apply (bool_decide_unpack _); by vm_compute|apply (bool_decide_unpack _); by vm_compute|constructor|by vm_compute|]. split; by vm_compute.
Defined.

Example verify_demo_output :
  VerifyScript (run_ripemd160 (replicate 64 0)) (run_sha1 (replicate 64 0)) (run_sha256 (replicate 64 0)) (fun _ => true)
    (SCRIPT_VERIFY_P2SH .| SCRIPT_VERIFY_WITNESS .| SCRIPT_VERIFY_CLEANSTACK) demo_checker (push [OP_1]) demo_output [] = Ok tt.
Proof. by vm_compute. Qed.
